(* ===== verification/_CoqProject ===== *)
-Q . S2P
Prelude.v
Wildcard.v
Bytes.v
Utf8.v
ChunkBlock.v
Bloom.v
ChunkFile.v
ChunkScan.v
Permissions.v
AuthContext.v
TeamAccess.v
Guards.v
TeamService.v
Workflow.v
WorkflowGraph.v
WorkflowExec.v
IpText.v
NetAlloc.v
TailBuffer.v
RateLimiter.v
ConnLimiter.v
OverlaySync.v
Flags.v
Wal.v
WalDisk.v
WalReplay.v
WalCalm.v
HeadBuffer.v
ChunkWriter.v
WriterStore.v
WriterSafety.v
WriterCalm.v
WriterRuns.v
ChunkQuery.v
ChunkSearch.v
SearchWalk.v
SearchPages.v
SearchScope.v
Prog.v
OnDemand.v
OnDemandRuns.v
OnDemandFlag.v
OnDemandSpec.v
Compactor.v
CompactorRead.v
CompactorSafety.v
CompactorKeeps.v
CompactorMerge.v
CompactorRuns.v
CompactorExact.v
Alarms.v
AlertRules.v
AlertRuns.v
AlarmSpec.v
AlertSpec.v
Hostnames.v
RouteTable.v
RouteLoad.v
RouteSpec.v
RouteIndex.v
RouteServe.v
