(* ===== verification/Prelude.v ===== *)
(** * Temps: a verification library

    Temps is a self-hosted platform: one binary that deploys projects, proxies their
    hosts, stores their logs and decides who may do what.  This library models parts of
    it that decide something, as executable definitions translated from the source, and
    proves what makes them correct.

    ** The parts and their files

    - Host matching.  [Wildcard]: [crates/temps-routes/src/wildcard_matcher.rs].  The
      matcher is a map under reversed names; [wildcard_refines_spec] shows that every
      sequence of calls answers like an abstract map from base domains, and
      [insert_scope] which hosts an insertion reaches.
    - Routes.  [Hostnames]: [crates/temps-core/src/public_hostname.rs], the names that are generated for
      environments, services and deployments; a service is never named like an environment or a deployment,
      and [truncated_label_forged] says when a cut label is that of another service.  [RouteTable]:
      the rows, addresses, tables and lookups of [crates/temps-routes/src/route_table.rs]; [RouteLoad]: its
      [load_routes] up to the new snapshot, in which every query may see other rows than the one before.
      [RouteSpec]: a route leads to containers that were up, of a deployment that was current
      ([routes_live]), and a host reported as unavailable is one.  [RouteIndex]: the ownership index agrees
      with the lookups, and discovered routes leave alone the hosts they check.  [RouteServe]: an
      environment that runs is routed, backends take turns, and the hosts discovered routes
      take from projects.
    - Log chunks, [crates/temps-log-aggregator/src/chunk] and [store/chunk_store.rs].
      [Bytes] and [Utf8] hold what the codecs use of the standard library.  [ChunkBlock]
      is the block codec (varints, zigzag deltas, columns), [Bloom] the filter over
      tokens and 3-grams, [ChunkFile] encoder, footer and trailer of a chunk, [ChunkScan]
      the scan of a stored chunk or a head buffer.  Encoding and decoding are inverse,
      the readers never panic on any bytes, the filter never rules out a match whose
      tokens are short, and [scan_sealed_exact] composes them: a scan returns what a full
      decode would.  zstd, serde_json, chrono, xxh3, crc32fast, memchr, the Unicode
      tables and the object store are interfaces (classes with their laws), each with an
      instance that shows the laws can hold.
    - Log lines on their way into chunks, [wal.rs], [head_buffer.rs] and
      [services/chunk_writer.rs] of the same crate.  [Wal] is the record format of the write-ahead log
      and its reader, [WalDisk] the directory of its generations with what a crash keeps of it,
      [WalReplay] and [WalCalm] what a replay returns.  [HeadBuffer] is the buffer of one
      container with its statistics and sealing rules; [ChunkWriter] the service with every
      operation, among them sealing in stages, recovery and purge, over a disk and stores whose calls
      may fail.  [WriterStore], [WriterSafety], [WriterCalm] and [WriterRuns] prove that a line that was
      synced stays in a log or reaches a committed chunk in every run, that recovery ends and
      commits, and that a committed line is found by the scan of [ChunkScan].
    - Chunks in the store, [services/compactor.rs], [services/retention.rs], [services/reindexer.rs] and
      [services/forget_sweeper.rs] of the same crate, with the loops of [plugin.rs].  [Compactor] is every
      service as a program over manifest, bucket and line index, beside the writer, with failing calls and
      restarts.  [CompactorRead] reads chunks back; [CompactorSafety], [CompactorKeeps] and [CompactorMerge]
      hold the invariant and what each service does to it.  [CompactorRuns]: a committed line that has
      not expired stays readable in every run without one of the hazards the model records
      ([sealed_lines_kept]), live rows lead to whole objects, and the restart that loses a day of
      lines.  [CompactorExact]: a pass alone is invisible to readers.
    - Searching the logs, [store/mod.rs], [store/manifest.rs] and [store/chunk_store.rs].
      [ChunkQuery] is the query with its validation, the SQL that selects sealed chunks (three-valued,
      NULLs included) and the label filter of head buffers, which agree ([sql_matches_labels]).
      [ChunkSearch] is the search: candidates newest first, the stop rule, budgets, cursors.
      [SearchWalk] and [SearchPages] prove that a page is the newest part of what matches and that
      following the cursors returns every matching line once; [SearchScope] that nothing outside
      the caller's scope is returned, whatever the objects contain, and holds the small store the
      theorems are applied to and the orders of lines they exclude.
    - Who may do what.  [Permissions] is [crates/temps-auth/src/permissions.rs] (names,
      lists, roles), [AuthContext] is [context.rs] with the deployment tokens of
      [temps-entities].  [TeamAccess] is [crates/temps-teams/src/checker.rs] with
      [role_permissions.rs] and [team_role.rs]: access checks, batches and their caches
      over tables whose queries may fail; [Guards] the macros of [permission_guard.rs]
      over the trait of [project_access.rs], a class the team checker is an instance of;
      [TeamService] is [service.rs]: every write with its authorization and invalidation.
      The theorems: roles and tokens are confined, cached answers are current whatever
      happened before, batches agree with single checks, the service drives the checker
      only through its step relation ([service_answers_current]), and a project-scoped
      caller can neither hand out nor take away what the caller does not hold.
    - Deployments run as workflows.  [Workflow] is [crates/temps-core/src/workflow.rs]
      (errors, context, results, tasks, builder), [WorkflowGraph] the graph passes of
      [workflow_executor.rs], [WorkflowExec] its executor over the trait of the job
      trackers with the tracker of [crates/temps-deployments/src/services/job_tracker.rs].
      Cycle detection is exact, the batches are a layering of the jobs whatever order the
      maps are iterated in, and a run settles the rows of its jobs.
    - The overlay network.  [NetAlloc] is [crates/temps-network/src/allocator.rs] with
      [cidrs_overlap] of [config.rs]: the pool, the subnets of the nodes and of the
      control plane, and the fenced setup of the latter.  Networks and addresses are
      interfaces ([Ipnet], [AddrText]) with their laws, and [bits_ipnet] and [bits_addr]
      their instances.  No two holders share an address whatever calls were made, an
      allocation takes the lowest free subnet, and a setup that was overtaken can no
      longer commit.  [OverlaySync] is the configuration of [config.rs], the diffs of
      [diff.rs] and [reconcile_peers] of [manager.rs] and [linux/mod.rs] against an
      interface of the kernel ([Kernel] with [KernelLaws], instance [mem_kernel]): the
      diff is deterministic, a reconciliation brings entries and routes to the new peers,
      and the updates it gets wrong are computed.  [IpText] holds the addresses of the
      standard library and their parser.
    - The limiters of the proxy, [crates/temps-proxy/src].  [RateLimiter] is
      [rate_limiter.rs]: packed counter cells, the bounded client table with its overflow
      buckets and sweeps, the lists and the resolution of policies.  Limits are budgets
      whatever came before, decisions are exact below capacity, and the atomic accesses
      to a cell count each grant once in any interleaving.  [ConnLimiter] is
      [connection_limiter.rs] as a step relation of its accesses: the counters count the
      permits, and the eviction at capacity is where the limit can be passed.
    - Environments that sleep, [crates/temps-proxy/src/on_demand.rs] and the wake block of
      [proxy.rs].  [Prog] holds programs of atomic accesses, tasks that interleave and the induction
      for their invariants; [OnDemand] the manager: every operation as a program over database,
      containers, clock and shared maps.  [OnDemandRuns]: wakes among themselves leave what counts as
      awake running, calls that put to sleep leave what counts as asleep stopped.  [OnDemandFlag]:
      flags and slots are given back.  [OnDemandSpec]: single calls, the lookup of hosts against
      [Wildcard], and the interleavings that break an environment.
    - Feature flags.  [Flags] is [crates/temps-flags/src/eval.rs] and
      [services/flag_service.rs]: the rows stay well typed under every call, so a snapshot
      evaluates to what is stored, with no flag dropped and no error.
    - Alarms, [crates/temps-monitoring/src/alarm_service.rs] and [evaluator.rs].  [Alarms] holds the rows of
      both tables and the alarm service: firing with its cooldown, resolving, acknowledging, silencing,
      bulk updates, jobs and notifications.  [AlertRules] is the evaluator: default rules, volume gates,
      the window a breach must last, the cycle over all rules, what a process loads when it starts.  Each
      is a program of [Prog] whose statements may fail with or without their effect.  [AlertRuns]: in every
      run, restarts and edits of the rules included, an alarm rests on a window that began with a breach
      and lasted as long as its rule asks.  [AlarmSpec]: the service alone fires and updates
      exactly what it reports, and an acknowledgement that comes late undoes a resolution.  [AlertSpec]:
      an evaluation refines an abstract machine of its rule; the default rules a service gets; a silence
      that does not end a window and an alarm of another evaluator that is taken over.
    - Captured output.  [TailBuffer] is [crates/temps-agent/src/output_buffer.rs]: the
      ring keeps the newest bytes however they arrive, the text is readable and bounded,
      and the response stream ends and holds its permit until then.

    [Prelude] itself holds results with Rust's [?] as a bind ([let?]), folds that stop at
    the first error, and string splitting and joining.

    ** Conventions

    A fixed-width integer is [Z] with its wrap-around written out where the code can
    reach it; identifiers of database rows are [Z].  A [HashMap] is a [gmap]; where the
    code iterates one, the order is an argument.  [Result] is [result]; a slice, an
    index or an arithmetic operation that would panic is an error value of its own, and
    theorems show where it cannot occur.  A table is a list of rows with a flag for
    whether its queries answer.  Code outside the repository is a class or a section
    variable, with its documented behaviour as named laws.

    An asynchronous function that shares state is a program of [Prog]; elsewhere a call of a service
    is one step.

    ** Fuel

    [get_varint] runs on 10 rounds, one more shift than fits 64 bits, after which the
    source stops too.  The UTF-8 readers, also those of the tail buffer, take the length of their
    input as fuel, each round consumes at least a byte.  [has_cycle] takes the number of jobs plus one: each
    call marks a job that was not visited.  [levels] takes the same, each round places at
    least one job.  The readers of a log file take its length, every record has bytes; sealing goes
    through at most five stages, and [recovery_completes] shows that the fuel of recovery is enough.
    A search takes one round more than there are candidates, each round but the last reads one;
    pages end because each leaves fewer lines or fewer candidates that end inside the window.  The polls of a
    waking container are two per second of the timeout and two more; a poll sleeps half a second.  The theorems
    about them show a result, never only a partial one.  The endless loops of the services
    and of the evaluator ([start]) take the number of their ticks or cycles, and a reconciliation the
    number of pages it looks at: the theorems about them hold for every number.  Trimming a text takes its
    length, each round removes a byte.

    ** What is assumed

    The write-ahead log: an entry of a directory is durable with the call that makes it, a write that
    fails leaves nothing behind, identifiers are not reused.  A search sees one state of the manifest and of the head
    buffers, and lines of a chunk are in the order of their times; what happens otherwise is computed in
    [SearchScope].  Proxies of a node share its container runtime, and deployments do not change while
    environments wake and sleep.  The keys of the chunk writer name one content (a hash without collisions, none
    of them the letter c), chunks are smaller than 2 GiB, and one process runs at a time.  Alarms: a column
    keeps an instant to within a microsecond ([Timestamps]), the text of a JSON value is any function of it
    ([JsonText]), maps are iterated in any order, the clock does not step back, and an update inside
    a transaction takes effect with its commit.  Routes: SHA-256 in hexadecimal has 64 digits
    ([Sha256]), the parser of URLs is any function, and the settings are the row as it was read.

    ** What is not modelled

    I/O and the code around it: HTTP handlers, most SQL, Docker, git and provider APIs, the
    schema and the command line.  A database transaction is one step; two access checks that
    race with a write between query and cache insert are outside the model, and so are
    tasks that run on after the executor has returned early.  Of the log store, facets, context and the
    lookup of single positions; of the alarms, the two listings and what is logged; of the routes, the
    publication of a snapshot in phases, its generations and the copies of the worker nodes.

    Of the platform, the parts that mostly drive other systems or their own tables: the
    deployment jobs and the planner, the container deployer, managed services and backups, DNS and certificates, the git providers, error tracking and OpenTelemetry,
    analytics, the AI services, mail and webhooks, the importers, sessions and tokens. *)

From stdpp Require Export prelude gmap strings list fin_maps numbers.
From Stdlib Require Export ZArith Lia Ascii.

(** ** Results: Rust's [Result<A, E>] with [?] as a bind *)

Inductive result (E A : Type) : Type :=
  | Ok (a : A)
  | Err (e : E).
Arguments Ok {E A} a.
Arguments Err {E A} e.

Definition result_bind {E A B : Type} (m : result E A) (k : A -> result E B) : result E B :=
  match m with
  | Ok a => k a
  | Err e => Err e
  end.

Declare Scope temps_scope.
Delimit Scope temps_scope with temps.
Notation "'let?' x ':=' m 'in' k" := (result_bind m (fun x => k))
  (at level 10, x pattern, m at level 100, k at level 200,
   format "'[v' 'let?'  x  ':='  m  'in' '/' k ']'") : temps_scope.
#[global] Open Scope temps_scope.

(** Rust's [ok_or_else]. *)
Definition ok_or {E A : Type} (e : E) (o : option A) : result E A :=
  match o with
  | Some a => Ok a
  | None => Err e
  end.

(** Sequencing a fallible loop body over a list, stopping at the first error. *)
Fixpoint result_fold {E S A : Type} (f : S -> A -> result E S) (l : list A) (s : S)
    : result E S :=
  match l with
  | [] => Ok s
  | x :: l' => let? s' := f s x in result_fold f l' s'
  end.

Definition is_ok {E A : Type} (m : result E A) : bool :=
  match m with
  | Ok _ => true
  | Err _ => false
  end.

Lemma result_bind_Ok {E A B : Type} (m : result E A) (k : A -> result E B) (b : B) :
  result_bind m k = Ok b <-> exists a, m = Ok a /\ k a = Ok b.
Proof. destruct m; simpl; naive_solver. Qed.

Lemma result_bind_Err {E A B : Type} (m : result E A) (k : A -> result E B) (e : E) :
  result_bind m k = Err e <-> m = Err e \/ exists a, m = Ok a /\ k a = Err e.
Proof. destruct m; simpl; naive_solver. Qed.

Lemma Ok_inj {E A : Type} (a b : A) : @Ok E A a = Ok b -> a = b.
Proof. congruence. Qed.

Lemma ok_or_Ok {E A : Type} (e : E) (o : option A) (a : A) :
  ok_or e o = Ok a <-> o = Some a.
Proof. destruct o; simpl; naive_solver. Qed.

Lemma result_fold_app {E S A : Type} (f : S -> A -> result E S) (l1 l2 : list A) (s : S) :
  result_fold f (l1 ++ l2) s = let? s' := result_fold f l1 s in result_fold f l2 s'.
Proof.
  revert s. induction l1 as [|x l1 IH]; intros s; simpl; [done|].
  destruct (f s x); simpl; auto.
Qed.

Create HintDb temps.

(** ** Tactics *)

(** Case on every [if] or [match] of the goal, closing what is contradictory. *)
Ltac split_cases :=
  repeat (case_match; simplify_eq/=; try done).

(** Destruct every bind that is known to have succeeded. *)
Ltac inv_ok :=
  repeat match goal with
  | H : result_bind _ _ = Ok _ |- _ =>
      let a := fresh "r" in let Ha := fresh "Hr" in
      apply result_bind_Ok in H as (a & Ha & H)
  | H : Ok _ = Ok _ |- _ => injection H as H; subst
  | H : Err _ = Ok _ |- _ => discriminate H
  end.

(** [Z.of_nat] goals: lia with the div/mod equations available. *)
Ltac zlia := Z.div_mod_to_equations; lia.

(** ** Strings: what the sources use of [str] *)

#[global] Arguments String.append _%_string _%_string : simpl nomatch.

Definition dot : ascii := "."%char.

(** [str::split(c)]: the pieces between the occurrences of [c]; never empty. *)
Fixpoint split_on (c : ascii) (s : string) : list string :=
  match s with
  | EmptyString => [EmptyString]
  | String a s' =>
      if Ascii.eqb a c then EmptyString :: split_on c s'
      else match split_on c s' with
           | h :: t => String a h :: t
           | [] => [String a EmptyString]
           end
  end.

(** [[&str]::join(sep)]. *)
Fixpoint join (sep : string) (l : list string) : string :=
  match l with
  | [] => EmptyString
  | [x] => x
  | x :: l' => String.append x (String.append sep (join sep l'))
  end.

(** [str::contains(char)]. *)
Fixpoint contains_char (c : ascii) (s : string) : bool :=
  match s with
  | EmptyString => false
  | String a s' => Ascii.eqb a c || contains_char c s'
  end.

(** [str::rfind(char)]: byte position of the last occurrence. *)
Fixpoint rfind (c : ascii) (s : string) : option nat :=
  match s with
  | EmptyString => None
  | String a s' =>
      match rfind c s' with
      | Some i => Some (S i)
      | None => if Ascii.eqb a c then Some 0 else None
      end
  end.

(** [&s[..n]] and [&s[n..]] on ASCII boundaries. *)
Fixpoint str_take (n : nat) (s : string) : string :=
  match n, s with
  | S n', String a s' => String a (str_take n' s')
  | _, _ => EmptyString
  end.

Fixpoint str_drop (n : nat) (s : string) : string :=
  match n, s with
  | S n', String _ s' => str_drop n' s'
  | _, _ => s
  end.

(** [str::strip_prefix]. *)
Definition strip_prefix (p s : string) : option string :=
  if String.prefix p s then Some (str_drop (String.length p) s) else None.

Lemma split_on_nonempty c s : split_on c s <> [].
Proof. destruct s as [|a s]; simpl; [done|]. split_cases. Qed.

Lemma join_cons sep x l :
  l <> [] -> join sep (x :: l) = String.append x (String.append sep (join sep l)).
Proof. by destruct l. Qed.

Lemma str_app_nil_r (s : string) : String.append s EmptyString = s.
Proof. induction s; simpl; congruence. Qed.

Lemma str_app_char (c : ascii) (s : string) :
  String.append (String c EmptyString) s = String c s.
Proof. done. Qed.

Lemma str_app_assoc (s1 s2 s3 : string) :
  String.append (String.append s1 s2) s3 = String.append s1 (String.append s2 s3).
Proof. induction s1; simpl; congruence. Qed.

Lemma contains_char_app c s1 s2 :
  contains_char c (String.append s1 s2) = contains_char c s1 || contains_char c s2.
Proof. induction s1 as [|a s1 IH]; simpl; [done|]. by rewrite IH, orb_assoc. Qed.

Lemma split_on_no_sep c s : contains_char c s = false -> split_on c s = [s].
Proof.
  induction s as [|a s IH]; simpl; [done|].
  intros [Ha Hs]%orb_false_elim. by rewrite Ha, (IH Hs).
Qed.

Lemma split_on_app_sep c s1 s2 :
  contains_char c s1 = false ->
  split_on c (String.append s1 (String c s2)) = s1 :: split_on c s2.
Proof.
  induction s1 as [|a s1 IH]; simpl.
  - intros _. by rewrite Ascii.eqb_refl.
  - intros [Ha Hs]%orb_false_elim. by rewrite Ha, (IH Hs).
Qed.

Lemma split_on_pieces c s : Forall (fun x => contains_char c x = false) (split_on c s).
Proof.
  induction s as [|a s IH]; simpl; [by repeat constructor|].
  destruct (Ascii.eqb a c) eqn:Ha; [by constructor|].
  destruct (split_on c s) as [|h t] eqn:Hs; [by apply split_on_nonempty in Hs|].
  inversion IH; subst. constructor; [|done]. simpl. by rewrite Ha.
Qed.

Lemma join_split_on c s : join (String c EmptyString) (split_on c s) = s.
Proof.
  induction s as [|a s IH]; simpl; [done|].
  destruct (Ascii.eqb a c) eqn:Ha.
  - apply Ascii.eqb_eq in Ha as ->.
    rewrite join_cons by apply split_on_nonempty. simpl. by rewrite IH.
  - destruct (split_on c s) as [|h t] eqn:Hs; [by apply split_on_nonempty in Hs|].
    destruct t as [|h' t]; simpl in *; congruence.
Qed.

Lemma split_on_join c l :
  l <> [] -> Forall (fun x => contains_char c x = false) l ->
  split_on c (join (String c EmptyString) l) = l.
Proof.
  induction l as [|x l IH]; [done|]. intros _ Hl. inversion Hl as [|?? Hx Hl']; subst.
  destruct l as [|y l]; [by apply split_on_no_sep|].
  rewrite join_cons by done. rewrite str_app_char.
  rewrite split_on_app_sep by done. by rewrite IH.
Qed.

Lemma str_length_app s1 s2 :
  String.length (String.append s1 s2) = String.length s1 + String.length s2.
Proof. induction s1; simpl; lia. Qed.

Lemma str_take_app s1 s2 : str_take (String.length s1) (String.append s1 s2) = s1.
Proof. induction s1; simpl; [by destruct s2|congruence]. Qed.

Lemma str_drop_app s1 s2 : str_drop (String.length s1) (String.append s1 s2) = s2.
Proof. induction s1; simpl; [by destruct s2|congruence]. Qed.

Lemma prefix_app p s : String.prefix p (String.append p s) = true.
Proof. induction p; simpl; [by destruct s|]. destruct (ascii_dec a a); congruence. Qed.

Lemma prefix_inv p s : String.prefix p s = true -> exists s', s = String.append p s'.
Proof.
  revert s. induction p as [|a p IH]; intros s; [by exists s|].
  destruct s as [|b s]; simpl; [done|].
  destruct (ascii_dec a b) as [<-|]; [|done].
  intros (s' & ->)%IH. by exists s'.
Qed.

Lemma strip_prefix_Some p s s' : strip_prefix p s = Some s' <-> s = String.append p s'.
Proof.
  unfold strip_prefix. split.
  - destruct (String.prefix p s) eqn:Hp; [|done]. intros [= <-].
    apply prefix_inv in Hp as (s'' & ->). by rewrite str_drop_app.
  - intros ->. rewrite prefix_app. by rewrite str_drop_app.
Qed.

Lemma rfind_None c s : rfind c s = None <-> contains_char c s = false.
Proof.
  induction s as [|a s IH]; simpl; [done|].
  destruct (rfind c s) eqn:Hr, (Ascii.eqb a c), (contains_char c s); naive_solver.
Qed.

(** The last separator splits a string into everything before it and a last piece
    that has none. *)
Lemma rfind_app_last c s1 s2 :
  contains_char c s2 = false ->
  rfind c (String.append s1 (String c s2)) = Some (String.length s1).
Proof.
  intros Hs2. induction s1 as [|a s1 IH]; simpl.
  - apply rfind_None in Hs2. by rewrite Hs2, Ascii.eqb_refl.
  - by rewrite IH.
Qed.

Lemma join_snoc sep l x :
  l <> [] -> join sep (l ++ [x]) = String.append (join sep l) (String.append sep x).
Proof.
  induction l as [|y l IH]; [done|]. intros _.
  destruct l as [|z l]; [done|].
  rewrite <- app_comm_cons, join_cons by (by destruct l).
  rewrite IH by done. rewrite (join_cons sep y) by done.
  by rewrite !str_app_assoc.
Qed.

#[global] Arguments String.prefix : simpl never.
#[global] Arguments str_drop : simpl never.

#[export] Hint Resolve split_on_nonempty split_on_pieces : temps.

(** How the number of elements with a property changes with one of them. *)
Lemma filter_perm {A} (p : A -> bool) l l' : l ≡ₚ l' -> List.filter p l ≡ₚ List.filter p l'.
Proof. induction 1; cbn; repeat destruct (p _); eauto using Permutation. Qed.

Lemma count_insert {A} (f : A -> bool) (ts : list A) i t t' :
  ts !! i = Some t ->
  Z.of_nat (length (List.filter f (<[i := t']> ts))) =
  (Z.of_nat (length (List.filter f ts)) - Z.b2z (f t) + Z.b2z (f t'))%Z.
Proof.
  revert i. induction ts as [|x ts IH]; intros [|i] Hi; simplify_eq/=.
  - destruct (f t), (f t'); simpl; lia.
  - specialize (IH i Hi). destruct (f x); simpl; lia.
Qed.

(** The characters of an ASCII literal as code points. *)
Definition chars (s : string) : list Z :=
  map (fun c => Z.of_nat (Ascii.nat_of_ascii c)) (String.list_ascii_of_string s).

(** ** Effects: calls in sequence on a state, where what was done stays done when a later call fails *)

Definition Act (S E A : Type) : Type := S -> result E A * S.

Definition act_ret {S E A} (a : A) : Act S E A := fun s => (Ok a, s).
Definition act_fail {S E A} (e : E) : Act S E A := fun s => (Err e, s).
Definition act_bind {S E A B} (m : Act S E A) (f : A -> Act S E B) : Act S E B := fun s =>
  match m s with
  | (Ok a, s') => f a s'
  | (Err e, s') => (Err e, s')
  end.
Notation "'let!' x ':=' m 'in' k" := (act_bind m (fun x => k))
  (at level 10, x pattern, m at level 100, k at level 200) : temps_scope.

Fixpoint act_for {S E A} (f : A -> Act S E unit) (l : list A) : Act S E unit :=
  match l with
  | [] => act_ret ()
  | x :: rest => let! _ := f x in act_for f rest
  end.

Lemma act_bind_Ok {S E A B} (m : Act S E A) (f : A -> Act S E B) s b s' :
  act_bind m f s = (Ok b, s') <-> exists a s1, m s = (Ok a, s1) /\ f a s1 = (Ok b, s').
Proof. unfold act_bind. destruct (m s) as [[a|e] s1]; naive_solver. Qed.

(** From a state with [P] the call ends, with any outcome, in one with [Q]. *)
Definition act_post {S E A} (P : S -> Prop) (m : Act S E A) (Q : result E A -> S -> Prop) : Prop :=
  forall s, P s -> Q (m s).1 (m s).2.

Lemma act_post_bind {S E A B} P (m : Act S E A) (f : A -> Act S E B) R Q :
  act_post P m (fun r s => match r with Ok a => R a s | Err e => Q (Err e) s end) ->
  (forall a, act_post (R a) (f a) Q) -> act_post P (act_bind m f) Q.
Proof.
  intros Hm Hf s Hs. specialize (Hm s Hs). unfold act_bind. destruct (m s) as [[a|e] s1]; [|exact Hm].
  apply Hf. exact Hm.
Qed.

Lemma act_post_ret {S E A} (P : S -> Prop) (a : A) (Q : result E A -> S -> Prop) :
  (forall s, P s -> Q (Ok a) s) -> act_post P (act_ret a) Q.
Proof. intros H s Hs. by apply H. Qed.

Lemma act_post_fail {S E A} (P : S -> Prop) (e : E) (Q : result E A -> S -> Prop) :
  (forall s, P s -> Q (Err e) s) -> act_post P (act_fail e) Q.
Proof. intros H s Hs. by apply H. Qed.

Lemma act_post_weaken {S E A} (P P' : S -> Prop) (m : Act S E A) (Q Q' : result E A -> S -> Prop) :
  act_post P' m Q' -> (forall s, P s -> P' s) -> (forall r s, Q' r s -> Q r s) -> act_post P m Q.
Proof. intros H HP HQ s Hs. apply HQ, H, HP, Hs. Qed.
