(* ===== verification/Wildcard.v ===== *)
(** * Wildcard host matching of the route table

    [crates/temps-routes/src/wildcard_matcher.rs]: the [WildcardMatcher] that the
    proxy's route table asks for a host no exact route knows.  Patterns
    [*.example.com] are stored under the reversed base domain [com.example]; the
    matcher reverses the queried host, drops its last reversed label and looks the
    rest up.  [RouteInfo] is the opaque route payload, a parameter here.

    The contract is abstract (the [spec_] definitions): a finite map from base domains to routes
    where a host matches exactly the pattern of the domain behind its first dot.
    [wildcard_refines_spec] shows every sequence of operations on the matcher
    answers as that map does. *)

From S2P Require Import Prelude.

Module Wildcard.
Section Matcher.
Context {RouteInfo : Type}.

(** [struct WildcardMatcher]. *)
Record WildcardMatcher := { patterns : gmap string RouteInfo }.

Definition new : WildcardMatcher := {| patterns := ∅ |}.

(** [fn reverse_domain]. *)
Definition reverse_domain (domain : string) : string :=
  join "." (rev (split_on dot domain)).

(** [WildcardMatcher::insert]: the answer and the matcher after the call. *)
Definition insert (m : WildcardMatcher) (pattern : string) (route : RouteInfo)
    : bool * WildcardMatcher :=
  if negb (String.prefix "*." pattern) then (false, m)
  else
    let base_domain := str_drop 2 pattern in
    if contains_char "*" base_domain then (false, m)
    else if String.eqb base_domain "" then (false, m)
    else (true, {| patterns := <[reverse_domain base_domain := route]> (patterns m) |}).

(** [WildcardMatcher::match_domain]. *)
Definition match_domain (m : WildcardMatcher) (domain : string) : option RouteInfo :=
  let reversed := reverse_domain domain in
  match rfind dot reversed with
  | Some dot_pos => patterns m !! str_take dot_pos reversed
  | None => None
  end.

(** [WildcardMatcher::remove]. *)
Definition remove (m : WildcardMatcher) (pattern : string)
    : option RouteInfo * WildcardMatcher :=
  if negb (String.prefix "*." pattern) then (None, m)
  else
    let reversed_key := reverse_domain (str_drop 2 pattern) in
    (patterns m !! reversed_key, {| patterns := delete reversed_key (patterns m) |}).

(** [WildcardMatcher::contains_pattern]. *)
Definition contains_pattern (m : WildcardMatcher) (pattern : string) : bool :=
  match strip_prefix "*." pattern with
  | None => false
  | Some base_domain => bool_decide (is_Some (patterns m !! reverse_domain base_domain))
  end.

(** [is_empty], [len] and [clear]. *)
Definition len (m : WildcardMatcher) : nat := size (patterns m).
Definition is_empty (m : WildcardMatcher) : bool := Nat.eqb (len m) 0.
Definition clear (m : WildcardMatcher) : WildcardMatcher := {| patterns := ∅ |}.

(** ** Reversing a domain *)

Lemma split_reverse_domain d : split_on dot (reverse_domain d) = rev (split_on dot d).
Proof.
  unfold reverse_domain. apply split_on_join.
  - intros Hnil. apply (f_equal (@rev string)) in Hnil. rewrite rev_involutive in Hnil.
    by apply split_on_nonempty in Hnil.
  - apply Forall_rev, split_on_pieces.
Qed.

Lemma reverse_domain_involutive d : reverse_domain (reverse_domain d) = d.
Proof.
  unfold reverse_domain at 1. rewrite split_reverse_domain, rev_involutive.
  apply join_split_on.
Qed.

#[export] Instance reverse_domain_inj : Inj (=) (=) reverse_domain.
Proof.
  intros d1 d2 Heq. apply (f_equal reverse_domain) in Heq.
  by rewrite !reverse_domain_involutive in Heq.
Qed.

Lemma reverse_domain_cons label base :
  contains_char dot label = false ->
  reverse_domain (String.append label (String dot base)) =
  String.append (reverse_domain base) (String dot label).
Proof.
  intros Hl. unfold reverse_domain. rewrite split_on_app_sep by done. simpl rev.
  rewrite join_snoc; [done|].
  intros Hnil. apply (f_equal (@rev string)) in Hnil. rewrite rev_involutive in Hnil.
  by apply split_on_nonempty in Hnil.
Qed.

Lemma match_domain_single m d : contains_char dot d = false -> match_domain m d = None.
Proof.
  intros Hd. unfold match_domain, reverse_domain.
  rewrite split_on_no_sep by done. simpl. apply rfind_None in Hd. by rewrite Hd.
Qed.

Lemma match_domain_cons m label base :
  contains_char dot label = false ->
  match_domain m (String.append label (String dot base)) =
  patterns m !! reverse_domain base.
Proof.
  intros Hl. unfold match_domain. rewrite reverse_domain_cons by done.
  rewrite rfind_app_last by done. by rewrite str_take_app.
Qed.

Lemma domain_cases d :
  contains_char dot d = false \/
  exists label base, contains_char dot label = false /\
                     d = String.append label (String dot base).
Proof.
  induction d as [|a d IH]; [by left|]. simpl.
  destruct (Ascii.eqb a dot) eqn:Ha.
  - right. exists EmptyString, d. apply Ascii.eqb_eq in Ha as ->. done.
  - destruct IH as [Hd|(label & base & Hl & ->)]; [by left|].
    right. exists (String a label), base. simpl. by rewrite Ha.
Qed.
End Matcher.
Arguments WildcardMatcher : clear implicits.

(** ** The abstract contract: a map from base domains to routes *)

Section Spec.
Context {RouteInfo : Type}.

(** The base domain a wildcard pattern is about. *)
Definition pattern_base (pattern : string) : option string := strip_prefix "*." pattern.

Definition spec_insert (s : gmap string RouteInfo) (pattern : string) (route : RouteInfo)
    : bool * gmap string RouteInfo :=
  match pattern_base pattern with
  | Some base =>
      if contains_char "*" base || String.eqb base "" then (false, s)
      else (true, <[base := route]> s)
  | None => (false, s)
  end.

(** The text behind the first dot of a host. *)
Fixpoint behind_first_dot (domain : string) : option string :=
  match domain with
  | EmptyString => None
  | String a d => if Ascii.eqb a dot then Some d else behind_first_dot d
  end.

Definition spec_match_domain (s : gmap string RouteInfo) (domain : string) : option RouteInfo :=
  match behind_first_dot domain with
  | Some base => s !! base
  | None => None
  end.

Definition spec_remove (s : gmap string RouteInfo) (pattern : string)
    : option RouteInfo * gmap string RouteInfo :=
  match pattern_base pattern with
  | Some base => (s !! base, delete base s)
  | None => (None, s)
  end.

Definition spec_contains_pattern (s : gmap string RouteInfo) (pattern : string) : bool :=
  match pattern_base pattern with
  | Some base => bool_decide (is_Some (s !! base))
  | None => false
  end.

Lemma behind_first_dot_none d : contains_char dot d = false -> behind_first_dot d = None.
Proof.
  induction d as [|a d IH]; simpl; [done|]. intros [Ha Hd]%orb_false_elim.
  rewrite Ha. auto.
Qed.

Lemma behind_first_dot_cons label base :
  contains_char dot label = false ->
  behind_first_dot (String.append label (String dot base)) = Some base.
Proof.
  induction label as [|a l IH]; simpl; [done|].
  intros [Ha Hd]%orb_false_elim. rewrite Ha. auto.
Qed.
End Spec.

(** ** Refinement *)

Section Refinement.
Context {RouteInfo : Type}.

(** The calls a client can make, and what they answer. *)
Inductive op :=
  | OInsert (pattern : string) (route : RouteInfo)
  | OMatch (domain : string)
  | ORemove (pattern : string)
  | OContains (pattern : string)
  | OLen
  | OIsEmpty
  | OClear.

Inductive answer :=
  | ABool (b : bool)
  | ARoute (r : option RouteInfo)
  | ALen (n : nat)
  | AUnit.

Definition step (m : WildcardMatcher RouteInfo) (o : op) : answer * WildcardMatcher RouteInfo :=
  match o with
  | OInsert p r => let '(b, m') := insert m p r in (ABool b, m')
  | OMatch d => (ARoute (match_domain m d), m)
  | ORemove p => let '(r, m') := remove m p in (ARoute r, m')
  | OContains p => (ABool (contains_pattern m p), m)
  | OLen => (ALen (len m), m)
  | OIsEmpty => (ABool (is_empty m), m)
  | OClear => (AUnit, clear m)
  end.

Definition spec_step (s : gmap string RouteInfo) (o : op) : answer * gmap string RouteInfo :=
  match o with
  | OInsert p r => let '(b, s') := spec_insert s p r in (ABool b, s')
  | OMatch d => (ARoute (spec_match_domain s d), s)
  | ORemove p => let '(r, s') := spec_remove s p in (ARoute r, s')
  | OContains p => (ABool (spec_contains_pattern s p), s)
  | OLen => (ALen (size s), s)
  | OIsEmpty => (ABool (Nat.eqb (size s) 0), s)
  | OClear => (AUnit, ∅)
  end.

Fixpoint run {St : Type} (step : St -> op -> answer * St) (st : St) (ops : list op)
    : list answer :=
  match ops with
  | [] => []
  | o :: ops' => let '(a, st') := step st o in a :: run step st' ops'
  end.

(** The stored keys are the reversed base domains of the abstract map. *)
Definition represents (m : WildcardMatcher RouteInfo) (s : gmap string RouteInfo) : Prop :=
  patterns m = kmap reverse_domain s.

Lemma represents_lookup m s base :
  represents m s -> patterns m !! reverse_domain base = s !! base.
Proof. unfold represents. intros ->. apply (lookup_kmap reverse_domain). Qed.

Lemma represents_size m s : represents m s -> size (patterns m) = size s.
Proof.
  unfold represents. intros ->. rewrite <- !length_map_to_list.
  rewrite (map_to_list_kmap reverse_domain). apply length_fmap.
Qed.

Lemma pattern_base_prefix p :
  pattern_base p = if String.prefix "*." p then Some (str_drop 2 p) else None.
Proof. done. Qed.

Lemma match_domain_represents m s d :
  represents m s -> match_domain m d = spec_match_domain s d.
Proof.
  intros HR. unfold spec_match_domain.
  destruct (domain_cases d) as [Hd|(label & base & Hl & ->)].
  - rewrite match_domain_single by done. by rewrite behind_first_dot_none.
  - rewrite match_domain_cons, behind_first_dot_cons by done.
    by apply represents_lookup.
Qed.

Lemma step_simulates m s o :
  represents m s ->
  exists m', step m o = ((spec_step s o).1, m') /\ represents m' (spec_step s o).2.
Proof.
  intros HR. pose proof (represents_size m s HR) as Hsize.
  destruct o as [p r|d|p|p| | |]; simpl.
  - unfold insert, spec_insert. rewrite pattern_base_prefix.
    destruct (String.prefix "*." p); simpl; [|by eauto].
    destruct (contains_char "*" (str_drop 2 p)); simpl; [by eauto|].
    destruct (String.eqb (str_drop 2 p) ""); simpl; [by eauto|].
    eexists; split; [done|]. unfold represents in *. simpl.
    by rewrite HR, (kmap_insert reverse_domain).
  - rewrite (match_domain_represents m s) by done. eauto.
  - unfold remove, spec_remove. rewrite pattern_base_prefix.
    destruct (String.prefix "*." p); simpl; [|by eauto].
    rewrite (represents_lookup m s) by done. eexists; split; [done|].
    unfold represents in *. simpl. by rewrite HR, (kmap_delete reverse_domain).
  - unfold contains_pattern, spec_contains_pattern, pattern_base.
    destruct (strip_prefix "*." p); [|by eauto].
    rewrite (represents_lookup m s) by done. eauto.
  - unfold len. rewrite Hsize. eauto.
  - unfold is_empty, len. rewrite Hsize. eauto.
  - eexists; split; [done|]. unfold represents. simpl. by rewrite kmap_empty.
Qed.

Lemma run_simulates ops m s : represents m s -> run step m ops = run spec_step s ops.
Proof.
  revert m s. induction ops as [|o ops IH]; intros m s HR; simpl; [done|].
  destruct (step_simulates m s o HR) as (m' & -> & HR').
  destruct (spec_step s o) as [a s']. simpl in *. by rewrite (IH m' s').
Qed.

(** C27: every sequence of calls on a new [WildcardMatcher] (insert, match, remove,
    contains, len, is_empty, clear) gets the answers of the abstract map from base
    domains to routes, where a host matches the pattern whose base is the text behind
    its first dot. *)
Theorem wildcard_refines_spec (ops : list op) :
  run step new ops = run spec_step ∅ ops.
Proof. apply run_simulates. unfold represents. simpl. by rewrite kmap_empty. Qed.

(** after a successful insert of [*.base], exactly the hosts one label below
    [base] see the new route: a host [label.base] matches it, and every other host,
    the apex and deeper names included, is answered as before the insert. *)
Theorem insert_scope (m m' : WildcardMatcher RouteInfo) (base : string) (r : RouteInfo) :
  insert m (String.append "*." base) r = (true, m') ->
  (forall label, contains_char dot label = false ->
     match_domain m' (String.append label (String dot base)) = Some r) /\
  (forall d, (forall label, contains_char dot label = false ->
                d <> String.append label (String dot base)) ->
     match_domain m' d = match_domain m d).
Proof.
  unfold insert. rewrite prefix_app.
  change 2 with (String.length "*."). rewrite str_drop_app.
  simpl. split_cases. intros [= <-]. split.
  - intros label Hl. rewrite match_domain_cons by done. apply lookup_insert_eq.
  - intros d Hd. destruct (domain_cases d) as [Hs|(label & base' & Hl & ->)].
    + by rewrite !match_domain_single.
    + rewrite !match_domain_cons by done. simpl. apply lookup_insert_ne.
      intros Heq%(inj reverse_domain). subst. by apply (Hd label).
Qed.
End Refinement.

Lemma insert_scope_witness :
  match_domain (insert (@new nat) "*.example.com" 7).2 "api.example.com" = Some 7.
Proof.
  apply (proj1 (insert_scope (@new nat) (insert (@new nat) "*.example.com" 7).2
                 "example.com" 7 ltac:(vm_compute; reflexivity)) "api").
  vm_compute. reflexivity.
Defined.

Example wildcard_multi_level :
  match_domain (insert (@new nat) "*.example.com" 7).2 "sub.api.example.com" = None /\
  match_domain (insert (@new nat) "*.example.com" 7).2 "example.com" = None /\
  (insert (@new nat) "*.*.example.com" 7).1 = false.
Proof. vm_compute. done. Qed.
End Wildcard.
