(* ===== verification/Bytes.v ===== *)
(** * Machine integers and byte buffers

    Fixed-width integers are [Z] with the wrap-around of Rust's release build
    written out ([wrap], [swrap]); a byte buffer ([&[u8]], [Vec<u8>]) is a
    [list Z] whose elements are bytes.  This file holds the little-endian
    conversions ([to_le_bytes], [from_le_bytes]) and the slicing the codecs use,
    with their round trips. *)

From S2P Require Import Prelude.
Local Open Scope Z_scope.

(** ** Widths *)

(** The value kept by a [w]-bit unsigned (signed) integer. *)
Definition wrap (w z : Z) : Z := z mod 2 ^ w.
Definition swrap (w z : Z) : Z := (z + 2 ^ (w - 1)) mod 2 ^ w - 2 ^ (w - 1).

Definition fits (w z : Z) : Prop := 0 <= z < 2 ^ w.
Definition sfits (w z : Z) : Prop := - 2 ^ (w - 1) <= z < 2 ^ (w - 1).

#[export] Instance fits_dec w z : Decision (fits w z).
Proof. unfold fits. apply _. Defined.
#[export] Instance sfits_dec w z : Decision (sfits w z).
Proof. unfold sfits. apply _. Defined.

(** Bytes. *)
Definition is_byte (z : Z) : Prop := 0 <= z < 256.
Definition bytes_ok (l : list Z) : Prop := Forall is_byte l.

Definition blen (l : list Z) : Z := Z.of_nat (length l).

Lemma wrap_fits w z : 0 <= w -> fits w (wrap w z).
Proof. intros Hw. unfold fits, wrap. apply Z.mod_pos_bound. apply Z.pow_pos_nonneg; lia. Qed.

Lemma wrap_id w z : fits w z -> wrap w z = z.
Proof. unfold fits, wrap. intros ?. by apply Z.mod_small. Qed.

Lemma swrap_id w z : 0 < w -> sfits w z -> swrap w z = z.
Proof.
  unfold sfits, swrap. intros Hw Hz.
  rewrite Z.mod_small; [lia|].
  replace (2 ^ w) with (2 * 2 ^ (w - 1)); [lia|].
  rewrite <- Z.pow_succ_r by lia. f_equal. lia.
Qed.

Lemma swrap_fits w z : 0 < w -> sfits w (swrap w z).
Proof.
  intros Hw. unfold sfits, swrap.
  pose proof (Z.mod_pos_bound (z + 2 ^ (w - 1)) (2 ^ w) ltac:(apply Z.pow_pos_nonneg; lia)).
  assert (2 ^ w = 2 * 2 ^ (w - 1)) as Hp.
  { rewrite <- Z.pow_succ_r by lia. f_equal. lia. }
  lia.
Qed.

(** Adding after wrapping is wrapping the sum. *)
Lemma swrap_add_l w a b : 0 < w -> swrap w (swrap w a + b) = swrap w (a + b).
Proof.
  intros Hw. unfold swrap.
  replace ((a + 2 ^ (w - 1)) mod 2 ^ w - 2 ^ (w - 1) + b + 2 ^ (w - 1))
    with ((a + 2 ^ (w - 1)) mod 2 ^ w + b) by lia.
  rewrite Zplus_mod_idemp_l. do 2 f_equal. lia.
Qed.

Lemma blen_nonneg l : 0 <= blen l.
Proof. unfold blen. lia. Qed.

Lemma blen_app l1 l2 : blen (l1 ++ l2) = blen l1 + blen l2.
Proof. unfold blen. rewrite length_app. lia. Qed.

Lemma blen_cons x l : blen (x :: l) = 1 + blen l.
Proof. unfold blen. simpl length. lia. Qed.

Create Rewrite HintDb blen.
#[export] Hint Rewrite blen_app blen_cons : blen.
#[export] Hint Resolve blen_nonneg : temps.

(** ** Little-endian encodings *)

Fixpoint to_le_bytes (n : nat) (z : Z) : list Z :=
  match n with
  | O => []
  | S n' => z mod 256 :: to_le_bytes n' (z / 256)
  end.

Fixpoint from_le_bytes (l : list Z) : Z :=
  match l with
  | [] => 0
  | b :: l' => b + 256 * from_le_bytes l'
  end.

Lemma length_to_le_bytes n z : length (to_le_bytes n z) = n.
Proof. revert z. induction n; intros z; simpl; auto. Qed.

Lemma blen_to_le_bytes n z : blen (to_le_bytes n z) = Z.of_nat n.
Proof. unfold blen. by rewrite length_to_le_bytes. Qed.

Lemma to_le_bytes_ok n z : bytes_ok (to_le_bytes n z).
Proof.
  revert z. induction n as [|n IH]; intros z; simpl; constructor; [|apply IH].
  unfold is_byte. apply Z.mod_pos_bound. lia.
Qed.

Lemma from_to_le_bytes n z :
  fits (8 * Z.of_nat n) z -> from_le_bytes (to_le_bytes n z) = z.
Proof.
  revert z. induction n as [|n IH]; intros z Hz; simpl.
  - unfold fits in Hz. simpl in Hz. lia.
  - rewrite IH.
    + pose proof (Z.div_mod z 256 ltac:(lia)). lia.
    + unfold fits in *. replace (8 * Z.of_nat (S n)) with (8 * Z.of_nat n + 8) in Hz by lia.
      rewrite Z.pow_add_r in Hz by lia. change (2 ^ 8) with 256 in Hz.
      split; [apply Z.div_pos; lia|]. apply Z.div_lt_upper_bound; lia.
Qed.

Lemma from_le_bytes_fits l :
  bytes_ok l -> fits (8 * Z.of_nat (length l)) (from_le_bytes l).
Proof.
  induction 1 as [|b l Hb Hl IH]; [unfold fits; simpl; lia|].
  unfold fits, is_byte in *. simpl from_le_bytes. simpl length.
  replace (8 * Z.of_nat (S (length l))) with (8 * Z.of_nat (length l) + 8) by lia.
  rewrite Z.pow_add_r by lia. change (2 ^ 8) with 256. lia.
Qed.

Lemma to_from_le_bytes l :
  bytes_ok l -> to_le_bytes (length l) (from_le_bytes l) = l.
Proof.
  induction 1 as [|b l Hb Hl IH]; simpl; [done|]. unfold is_byte in *.
  replace (b + 256 * from_le_bytes l) with (from_le_bytes l * 256 + b) by lia.
  rewrite Z.div_add_l by lia. rewrite (Z.div_small b) by lia. rewrite Z.add_0_r, IH.
  rewrite Z.add_comm, Z_mod_plus_full. by rewrite Z.mod_small.
Qed.

(** ** Slices: [&buf[a..b]], [None] where Rust panics *)

Definition slice (buf : list Z) (a b : Z) : option (list Z) :=
  if bool_decide (0 <= a /\ a <= b /\ b <= blen buf)
  then Some (take (Z.to_nat (b - a)) (drop (Z.to_nat a) buf))
  else None.

(** [buf[i]] and [buf.get(i)]. *)
Definition byte_at (buf : list Z) (i : Z) : option Z :=
  if bool_decide (0 <= i) then buf !! Z.to_nat i else None.

Lemma slice_app pre mid post :
  slice (pre ++ mid ++ post) (blen pre) (blen pre + blen mid) = Some mid.
Proof.
  unfold slice. rewrite bool_decide_eq_true_2.
  - f_equal. unfold blen.
    replace (Z.to_nat (Z.of_nat (length pre) + Z.of_nat (length mid) -
      Z.of_nat (length pre))) with (length mid) by lia.
    rewrite Nat2Z.id, drop_app_length, take_app_length. done.
  - rewrite !blen_app. pose proof (blen_nonneg pre). pose proof (blen_nonneg mid).
    pose proof (blen_nonneg post). lia.
Qed.

Lemma slice_at pre mid post a b :
  a = blen pre -> b = blen pre + blen mid -> slice (pre ++ mid ++ post) a b = Some mid.
Proof. intros -> ->. apply slice_app. Qed.

Lemma slice_is_Some buf a b :
  0 <= a -> a <= b -> b <= blen buf -> exists l, slice buf a b = Some l /\ blen l = b - a.
Proof.
  intros Ha Hab Hb. unfold slice. rewrite bool_decide_eq_true_2 by done.
  eexists; split; [done|]. unfold blen in *. rewrite length_take, length_drop. lia.
Qed.

Lemma byte_at_app pre x post : byte_at (pre ++ x :: post) (blen pre) = Some x.
Proof.
  unfold byte_at. rewrite bool_decide_eq_true_2 by apply blen_nonneg.
  unfold blen. rewrite Nat2Z.id. by apply list_lookup_middle.
Qed.

Lemma byte_at_is_Some buf i : 0 <= i -> i < blen buf -> is_Some (byte_at buf i).
Proof.
  intros Hi Hl. unfold byte_at, blen in *. rewrite bool_decide_eq_true_2 by done.
  apply lookup_lt_is_Some. lia.
Qed.

Lemma byte_at_lt buf i x : byte_at buf i = Some x -> 0 <= i < blen buf.
Proof.
  unfold byte_at, blen. case_bool_decide; [|done]. intros ?%lookup_lt_Some. lia.
Qed.

(** ** Bit arithmetic *)

(** Or-ing a value above the bits of another is adding it. *)
Lemma lor_disjoint a b n :
  0 <= n -> 0 <= a < 2 ^ n -> Z.lor a (Z.shiftl b n) = a + b * 2 ^ n.
Proof.
  intros Hn Ha. rewrite Z.shiftl_mul_pow2 by done.
  assert (Z.land a (b * 2 ^ n) = 0) as Hland.
  { apply Z.bits_inj'. intros k Hk. rewrite Z.land_spec, Z.bits_0.
    destruct (Z.lt_ge_cases k n).
    - by rewrite Z.mul_pow2_bits_low, andb_false_r.
    - destruct (Z.eq_dec a 0) as [->|]; [by rewrite Z.bits_0|].
      rewrite Z.bits_above_log2, andb_false_l; [done|lia|].
      apply Z.log2_lt_pow2; [lia|].
      apply Z.lt_le_trans with (2 ^ n); [lia|]. apply Z.pow_le_mono_r; lia. }
  pose proof (Z.add_lor_land a (b * 2 ^ n)) as Hadd. rewrite Hland in Hadd. lia.
Qed.

Lemma land_mask a n : 0 <= n -> Z.land a (Z.ones n) = a mod 2 ^ n.
Proof. apply Z.land_ones. Qed.

#[global] Arguments to_le_bytes : simpl never.
#[global] Arguments from_le_bytes : simpl never.
