(* ===== verification/Utf8.v ===== *)
(** * UTF-8 as the standard library reads and writes it

    A Rust [char] is a Unicode scalar value, a [String] a list of them; its bytes
    are [encode_str].  [from_utf8] is [std::str::from_utf8] with the
    [valid_up_to] and [error_len] of its error (the ranges of
    [core::str::validations]), and [from_utf8_lossy] is
    [String::from_utf8_lossy].  The theorems are the round trip for strings and
    that every byte is accounted for, which the callers' loops rely on. *)

From S2P Require Import Prelude Bytes.
Local Open Scope Z_scope.

Definition is_scalar (c : Z) : Prop := 0 <= c < 0xD800 \/ 0xE000 <= c <= 0x10FFFF.
Definition is_str (s : list Z) : Prop := Forall is_scalar s.

#[export] Instance is_scalar_dec c : Decision (is_scalar c).
Proof. unfold is_scalar. apply _. Defined.

(** [char::encode_utf8]. *)
Definition encode_char (c : Z) : list Z :=
  if c <? 0x80 then [c]
  else if c <? 0x800 then [0xC0 + c / 64; 0x80 + c mod 64]
  else if c <? 0x10000 then [0xE0 + c / 4096; 0x80 + c / 64 mod 64; 0x80 + c mod 64]
  else [0xF0 + c / 262144; 0x80 + c / 4096 mod 64; 0x80 + c / 64 mod 64; 0x80 + c mod 64].

(** [str::as_bytes]. *)
Definition encode_str (s : list Z) : list Z := flat_map encode_char s.

Definition is_cont (b : Z) : bool := (0x80 <=? b) && (b <=? 0xBF).

(** The byte ranges a second byte must be in, by lead byte, for sequences of three
    and four bytes. *)
Definition second_ok3 (b0 b1 : Z) : bool :=
  if b0 =? 0xE0 then (0xA0 <=? b1) && (b1 <=? 0xBF)
  else if b0 =? 0xED then (0x80 <=? b1) && (b1 <=? 0x9F)
  else is_cont b1.

Definition second_ok4 (b0 b1 : Z) : bool :=
  if b0 =? 0xF0 then (0x90 <=? b1) && (b1 <=? 0xBF)
  else if b0 =? 0xF4 then (0x80 <=? b1) && (b1 <=? 0x8F)
  else is_cont b1.

(** What stands at the head of a buffer: a character and the bytes behind it, or
    an error with [Utf8Error::error_len]. *)
Inductive head :=
  | HChar (c : Z) (rest : list Z)
  | HBad (error_len : option nat).

Definition decode_head (l : list Z) : head :=
  match l with
  | [] => HBad None
  | b0 :: l0 =>
      if b0 <? 0x80 then HChar b0 l0
      else if (0xC2 <=? b0) && (b0 <=? 0xDF) then
        match l0 with
        | [] => HBad None
        | b1 :: l1 =>
            if is_cont b1 then HChar ((b0 - 0xC0) * 64 + (b1 - 0x80)) l1
            else HBad (Some 1%nat)
        end
      else if (0xE0 <=? b0) && (b0 <=? 0xEF) then
        match l0 with
        | [] => HBad None
        | b1 :: l1 =>
            if negb (second_ok3 b0 b1) then HBad (Some 1%nat)
            else match l1 with
                 | [] => HBad None
                 | b2 :: l2 =>
                     if is_cont b2
                     then HChar ((b0 - 0xE0) * 4096 + (b1 - 0x80) * 64 + (b2 - 0x80)) l2
                     else HBad (Some 2%nat)
                 end
        end
      else if (0xF0 <=? b0) && (b0 <=? 0xF4) then
        match l0 with
        | [] => HBad None
        | b1 :: l1 =>
            if negb (second_ok4 b0 b1) then HBad (Some 1%nat)
            else match l1 with
                 | [] => HBad None
                 | b2 :: l2 =>
                     if negb (is_cont b2) then HBad (Some 2%nat)
                     else match l2 with
                          | [] => HBad None
                          | b3 :: l3 =>
                              if is_cont b3
                              then HChar ((b0 - 0xF0) * 262144 + (b1 - 0x80) * 4096
                                          + (b2 - 0x80) * 64 + (b3 - 0x80)) l3
                              else HBad (Some 3%nat)
                          end
                 end
        end
      else HBad (Some 1%nat)
  end.

(** [str::from_utf8]: the characters, or the characters of the longest valid prefix,
    the bytes from the error on and [error_len].  [valid_up_to] is the length of the
    input less the bytes from the error on. *)
Inductive utf8_result :=
  | Utf8Ok (s : list Z)
  | Utf8Err (valid : list Z) (from_error : list Z) (error_len : option nat).

Fixpoint from_utf8_fuel (fuel : nat) (l : list Z) : utf8_result :=
  match fuel, l with
  | _, [] => Utf8Ok []
  | O, _ => Utf8Err [] l None
  | S fuel', _ =>
      match decode_head l with
      | HBad n => Utf8Err [] l n
      | HChar c rest =>
          match from_utf8_fuel fuel' rest with
          | Utf8Ok s => Utf8Ok (c :: s)
          | Utf8Err s e n => Utf8Err (c :: s) e n
          end
      end
  end.

Definition from_utf8 (l : list Z) : utf8_result := from_utf8_fuel (length l) l.

Definition REPLACEMENT : Z := 0xFFFD.

(** [String::from_utf8_lossy]. *)
Fixpoint from_utf8_lossy_fuel (fuel : nat) (l : list Z) : list Z :=
  match fuel with
  | O => []
  | S fuel' =>
      match from_utf8 l with
      | Utf8Ok s => s
      | Utf8Err s e None => s ++ [REPLACEMENT]
      | Utf8Err s e (Some n) => s ++ REPLACEMENT :: from_utf8_lossy_fuel fuel' (drop n e)
      end
  end.

Definition from_utf8_lossy (l : list Z) : list Z := from_utf8_lossy_fuel (S (length l)) l.

(** ** Decoding an encoded character *)

Lemma encode_char_bytes c : is_scalar c -> bytes_ok (encode_char c).
Proof.
  unfold is_scalar, encode_char, bytes_ok. intros Hc.
  destruct (Z.ltb_spec c 0x80); [|destruct (Z.ltb_spec c 0x800);
    [|destruct (Z.ltb_spec c 0x10000)]];
  repeat apply Forall_cons_2; try apply Forall_nil_2; unfold is_byte; zlia.
Qed.

Lemma encode_char_nonempty c : encode_char c <> [].
Proof. unfold encode_char. split_cases. Qed.

Ltac decide_ltb :=
  repeat match goal with
  | |- context [?a <? ?b] =>
      first [ rewrite (proj2 (Z.ltb_lt a b)) by zlia
            | rewrite (proj2 (Z.ltb_ge a b)) by zlia ]
  | |- context [?a <=? ?b] =>
      first [ rewrite (proj2 (Z.leb_le a b)) by zlia
            | rewrite (proj2 (Z.leb_gt a b)) by zlia ]
  | |- context [?a =? ?b] =>
      first [ rewrite (proj2 (Z.eqb_eq a b)) by zlia
            | rewrite (proj2 (Z.eqb_neq a b)) by zlia ]
  end.

Lemma is_cont_low c : is_cont (0x80 + c mod 64) = true.
Proof. unfold is_cont. decide_ltb. done. Qed.

Lemma decode_encode_1 c rest :
  0 <= c < 0x80 -> decode_head ([c] ++ rest) = HChar c rest.
Proof. intros Hc. simpl. decide_ltb. done. Qed.

Lemma decode_encode_2 c rest :
  0x80 <= c < 0x800 ->
  decode_head ([0xC0 + c / 64; 0x80 + c mod 64] ++ rest) = HChar c rest.
Proof.
  intros Hc. simpl app. unfold decode_head. rewrite is_cont_low. decide_ltb. cbn [andb negb].
  f_equal. zlia.
Qed.

Lemma div_4096 c : c / 4096 = c / 64 / 64.
Proof. by rewrite Z.div_div. Qed.

Lemma div_262144 c : c / 262144 = c / 64 / 64 / 64.
Proof. by rewrite !Z.div_div. Qed.

Lemma decode_encode_3 c rest :
  0x800 <= c < 0x10000 -> is_scalar c ->
  decode_head ([0xE0 + c / 4096; 0x80 + c / 64 mod 64; 0x80 + c mod 64] ++ rest) =
  HChar c rest.
Proof.
  intros Hc Hs. unfold is_scalar in Hs. simpl app. unfold decode_head.
  assert (second_ok3 (0xE0 + c / 4096) (0x80 + c / 64 mod 64) = true) as ->.
  { unfold second_ok3.
    destruct (Z.eqb_spec (0xE0 + c / 4096) 0xE0); [decide_ltb; done|].
    destruct (Z.eqb_spec (0xE0 + c / 4096) 0xED); [decide_ltb; done|].
    apply is_cont_low. }
  decide_ltb. cbn [andb negb]. rewrite ?is_cont_low. f_equal. rewrite div_4096.
  pose proof (Z.div_mod c 64 ltac:(lia)). pose proof (Z.div_mod (c / 64) 64 ltac:(lia)).
  lia.
Qed.

Lemma decode_encode_4 c rest :
  0x10000 <= c <= 0x10FFFF ->
  decode_head ([0xF0 + c / 262144; 0x80 + c / 4096 mod 64; 0x80 + c / 64 mod 64;
                0x80 + c mod 64] ++ rest) = HChar c rest.
Proof.
  intros Hc. simpl app. unfold decode_head. rewrite !is_cont_low.
  assert (second_ok4 (0xF0 + c / 262144) (0x80 + c / 4096 mod 64) = true) as ->.
  { unfold second_ok4.
    destruct (Z.eqb_spec (0xF0 + c / 262144) 0xF0); [decide_ltb; done|].
    destruct (Z.eqb_spec (0xF0 + c / 262144) 0xF4); [decide_ltb; done|].
    apply is_cont_low. }
  decide_ltb. cbn [andb negb]. rewrite ?is_cont_low. f_equal. rewrite div_4096, div_262144.
  pose proof (Z.div_mod c 64 ltac:(lia)). pose proof (Z.div_mod (c / 64) 64 ltac:(lia)).
  pose proof (Z.div_mod (c / 64 / 64) 64 ltac:(lia)). lia.
Qed.

Lemma decode_encode_char c rest :
  is_scalar c -> decode_head (encode_char c ++ rest) = HChar c rest.
Proof.
  intros Hs. unfold encode_char.
  destruct (Z.ltb_spec c 0x80); [apply decode_encode_1; unfold is_scalar in *; lia|].
  destruct (Z.ltb_spec c 0x800); [apply decode_encode_2; lia|].
  destruct (Z.ltb_spec c 0x10000); [apply decode_encode_3; [lia|done]|].
  apply decode_encode_4. unfold is_scalar in Hs. lia.
Qed.

(** ** Strings *)

Lemma encode_str_app s1 s2 : encode_str (s1 ++ s2) = encode_str s1 ++ encode_str s2.
Proof. apply flat_map_app. Qed.

Lemma encode_str_bytes s : is_str s -> bytes_ok (encode_str s).
Proof.
  unfold is_str, bytes_ok. induction 1; simpl; [constructor|].
  apply Forall_app. split; [by apply encode_char_bytes|done].
Qed.

Lemma from_utf8_fuel_encode fuel s :
  is_str s -> (length (encode_str s) <= fuel)%nat ->
  from_utf8_fuel fuel (encode_str s) = Utf8Ok s.
Proof.
  intros Hs. revert fuel. induction Hs as [|c s Hc Hs IH]; intros fuel Hf.
  { by destruct fuel. }
  change (encode_str (c :: s)) with (encode_char c ++ encode_str s) in *.
  rewrite length_app in Hf.
  pose proof (encode_char_nonempty c) as Hne.
  destruct (encode_char c) as [|b bs] eqn:Hec; [done|]. simpl in Hf.
  destruct fuel as [|fuel]; [lia|].
  change (from_utf8_fuel (S fuel) ((b :: bs) ++ encode_str s))
    with (match decode_head ((b :: bs) ++ encode_str s) with
          | HBad n => Utf8Err [] ((b :: bs) ++ encode_str s) n
          | HChar c rest => match from_utf8_fuel fuel rest with
                            | Utf8Ok s => Utf8Ok (c :: s)
                            | Utf8Err s e n => Utf8Err (c :: s) e n
                            end
          end).
  rewrite <- Hec, decode_encode_char by done. rewrite IH by lia. done.
Qed.

Lemma from_utf8_encode s : is_str s -> from_utf8 (encode_str s) = Utf8Ok s.
Proof. intros Hs. by apply from_utf8_fuel_encode. Qed.

Lemma from_utf8_lossy_encode s : is_str s -> from_utf8_lossy (encode_str s) = s.
Proof.
  intros Hs. unfold from_utf8_lossy. simpl. by rewrite from_utf8_encode.
Qed.

(** Decoding consumes at least one byte per character, and an error leaves a
    non-empty rest that [error_len] does not exceed. *)
Lemma decode_head_shorter l c rest : decode_head l = HChar c rest -> (length rest < length l)%nat.
Proof. unfold decode_head. split_cases; intros; simplify_eq; simpl; lia. Qed.

Lemma decode_head_error_len l n :
  l <> [] -> decode_head l = HBad (Some n) -> (0 < n <= length l)%nat.
Proof. unfold decode_head. split_cases; intros; simplify_eq; simpl; lia. Qed.

Lemma from_utf8_fuel_error fuel l s e n :
  (length l <= fuel)%nat -> from_utf8_fuel fuel l = Utf8Err s e n ->
  e <> [] /\ (length e <= length l)%nat /\
  (forall k, n = Some k -> (0 < k <= length e)%nat).
Proof.
  revert l s. induction fuel as [|fuel IH]; intros l s Hf.
  { destruct l; simpl in *; [done|lia]. }
  destruct l as [|b l']; [done|]. cbn [from_utf8_fuel].
  remember (b :: l') as l eqn:Hl. assert (l <> []) as Hne by by subst.
  destruct (decode_head l) as [c rest|m] eqn:Hd.
  - pose proof (decode_head_shorter _ _ _ Hd).
    destruct (from_utf8_fuel fuel rest) as [|s' e' n'] eqn:Hr; [done|].
    intros [= <- <- <-]. destruct (IH rest s' ltac:(lia) Hr) as (? & ? & ?).
    split_and!; [done|lia|done].
  - intros [= <- <- <-]. split_and!; [done|lia|].
    intros k ->. by eapply decode_head_error_len.
Qed.

Lemma from_utf8_error l s e n :
  from_utf8 l = Utf8Err s e n ->
  e <> [] /\ (length e <= length l)%nat /\
  (forall k, n = Some k -> (0 < k <= length e)%nat).
Proof. by apply from_utf8_fuel_error. Qed.

(** Every decoded character is a scalar value when the input is a byte buffer. *)
Lemma decode_head_scalar l c rest :
  bytes_ok l -> decode_head l = HChar c rest -> is_scalar c /\ bytes_ok rest.
Proof.
  unfold bytes_ok, decode_head, second_ok3, second_ok4, is_cont, is_scalar. intros Hl.
  repeat match goal with
  | |- context [match ?x with _ => _ end] =>
      match type of x with
      | list Z => destruct x; [done|]; apply Forall_cons_1 in Hl as [? Hl]; unfold is_byte in *
      | bool => destruct x eqn:?
      end
  end;
  repeat match goal with H : context [if ?b then _ else _] |- _ => destruct b eqn:? end;
  intros Hd; (discriminate Hd || (injection Hd as <- <-; split; [lia|done])).
Qed.

Lemma from_utf8_fuel_scalar fuel l :
  bytes_ok l ->
  match from_utf8_fuel fuel l with
  | Utf8Ok s => is_str s
  | Utf8Err s e _ => is_str s /\ bytes_ok e
  end.
Proof.
  revert l. induction fuel as [|fuel IH]; intros l Hl.
  { destruct l; simpl; [constructor|]. split; [constructor|done]. }
  destruct l as [|b l']; [constructor|]. cbn [from_utf8_fuel].
  destruct (decode_head (b :: l')) as [c rest|m] eqn:Hd; [|split; [constructor|done]].
  destruct (decode_head_scalar _ _ _ Hl Hd) as [Hc Hrest]. specialize (IH rest Hrest).
  destruct (from_utf8_fuel fuel rest); [by constructor|].
  destruct IH. split; [by constructor|done].
Qed.

Lemma from_utf8_scalar l :
  bytes_ok l ->
  match from_utf8 l with
  | Utf8Ok s => is_str s
  | Utf8Err s e _ => is_str s /\ bytes_ok e
  end.
Proof. apply from_utf8_fuel_scalar. Qed.
