(* ===== verification/ChunkBlock.v ===== *)
(** * The block codec of the log chunk format (v2)

    [crates/temps-log-aggregator/src/chunk/format.rs] (the block half) and the
    shared types of [chunk/mod.rs] and [types.rs].  A block is a columnar body:
    line count, zigzag-varint timestamp deltas, one level byte and one stream byte
    per line, varint message lengths and the concatenated messages, varint fields
    lengths and the concatenated JSON.

    zstd, serde_json and chrono are other crates: they are the interfaces [Zstd],
    [Json] and [Chrono] below, and the theorems are proved against them.  A slice or
    an index Rust would panic on is the error [Panic]; [decode_block_never_panics]
    shows the reader has none, on any input. *)

From S2P Require Import Prelude Bytes Utf8.
Local Open Scope Z_scope.

(** ** Data *)

(** [enum LogLevel], [enum LogStream]. *)
Inductive LogLevel := Trace | Debug | Info | Warn | Error.
Inductive LogStream := Stdout | Stderr.

#[export] Instance LogLevel_eq_dec : EqDecision LogLevel.
Proof. solve_decision. Defined.
#[export] Instance LogStream_eq_dec : EqDecision LogStream.
Proof. solve_decision. Defined.

(** What the messages of [LogAggregatorError::ChunkFormat] report. *)
Inductive FormatReason :=
  | VarintTruncated (at_byte : Z)
  | VarintTooLong (at_byte : Z)
  | BodyTooShort (len : Z)
  | TooManyLines (line_count len : Z)
  | SpanOverflow (start len : Z)
  | BodyTruncated (needed len : Z)
  | ColumnTooLong (column_len body_len : Z)
  | EmptyChunk
  | NoMinTimestamp
  | NoMaxTimestamp
  | FooterTooLarge (payload_len : Z)
  | TrailerTooShort (len : Z)
  | BadMagic (magic : Z)
  | BadVersion (version : Z)
  | FooterTooShort (len : Z)
  | FooterSectionsTooShort (len needed : Z)
  | CrcMismatch (computed stored : Z)
  | BloomTooShort (len : Z)
  | BloomVersion (version : Z)
  | BloomBitsTruncated
  | BloomLengthMismatch (got expected : Z).

(** [enum LogAggregatorError], the variants the chunk code raises; [Panic] is a
    slice or index out of range. *)
Inductive LogAggregatorError :=
  | ChunkFormat (reason : FormatReason)
  | CompressionFailed
  | DecompressionFailed
  | Serialization
  | Panic.

Abbreviation res A := (result LogAggregatorError A).

(** An index or slice that panics when out of range. *)
Definition index {A : Type} (o : option A) : res A := ok_or Panic o.

(** ** Interfaces to the crates the codec calls *)

(** [chrono::DateTime<Utc>], as far as the codec uses it. *)
Class Chrono := {
  DateTime : Type;
  dt_leb : DateTime -> DateTime -> bool;
  timestamp_nanos_opt : DateTime -> option Z;
  timestamp_millis : DateTime -> Z;
  (** [Utc.timestamp_opt(secs, nanos).single()] *)
  timestamp_opt : Z -> Z -> option DateTime;
  (** [Utc::now()] *)
  utc_now : DateTime
}.

(** The order of instants, and that an instant is its nanoseconds. *)
Class ChronoLaws `(Chrono) := {
  dt_le_total a b : dt_leb a b = true \/ dt_leb b a = true;
  dt_le_trans a b c : dt_leb a b = true -> dt_leb b c = true -> dt_leb a c = true;
  nanos_i64 t n : timestamp_nanos_opt t = Some n -> sfits 64 n;
  nanos_of_timestamp t n :
    timestamp_nanos_opt t = Some n -> timestamp_opt (n / 10 ^ 9) (n mod 10 ^ 9) = Some t
}.

(** [zstd::encode_all] and [zstd::decode_all]. *)
Class Zstd := {
  zstd_encode_all : list Z -> Z -> option (list Z);
  zstd_decode_all : list Z -> option (list Z)
}.

Class ZstdLaws `(Zstd) := {
  zstd_roundtrip b level c : zstd_encode_all b level = Some c -> zstd_decode_all c = Some b
}.

(** [serde_json::Value] with [to_vec] and [from_slice]. *)
Class Json := {
  Value : Type;
  json_to_vec : Value -> option (list Z);
  json_from_slice : list Z -> option Value
}.

(** A JSON text is never empty. *)
Class JsonLaws `(Json) := {
  json_nonempty v b : json_to_vec v = Some b -> b <> []
}.

Section Codec.
Context `{ChronoLaws} `{ZstdLaws} `{JsonLaws}.

(** [struct LogLine]. *)
Record LogLine := {
  ll_ts : DateTime;
  ll_stream : LogStream;
  ll_level : LogLevel;
  ll_msg : list Z;
  ll_fields : option Value;
  ll_container_id : string;
  ll_service : string;
  ll_env : string;
  ll_project_id : Z;
  ll_external_service_id : option Z;
  ll_deploy_id : option Z;
  ll_node_id : option Z;
  ll_node_name : option string
}.

(** [struct DecodedLine]. *)
Record DecodedLine := {
  dl_ts : DateTime;
  dl_level : LogLevel;
  dl_stream : LogStream;
  dl_message : list Z;
  dl_fields : option Value;
  dl_line_index : Z
}.

(** [struct BlockMeta]. *)
Record BlockMeta := {
  bm_offset : Z;
  bm_len : Z;
  bm_uncompressed_len : Z;
  bm_first_ts : DateTime;
  bm_last_ts : DateTime;
  bm_line_count : Z;
  bm_first_line_index : Z;
  bm_level_mask : Z;
  bm_level_counts : list Z
}.

Definition LEVEL_COUNT : nat := 5.
Definition LEVEL_MASK_ALL : Z := 31.

(** [fn level_bit], [fn level_mask_for], [fn level_to_u8], [fn level_from_u8]. *)
Definition level_bit (level : LogLevel) : Z :=
  match level with
  | Trace => Z.shiftl 1 0
  | Debug => Z.shiftl 1 1
  | Info => Z.shiftl 1 2
  | Warn => Z.shiftl 1 3
  | Error => Z.shiftl 1 4
  end.

Definition level_mask_for (levels : list LogLevel) : Z :=
  match levels with
  | [] => LEVEL_MASK_ALL
  | _ => fold_left Z.lor (map level_bit levels) 0
  end.

Definition level_to_u8 (level : LogLevel) : Z :=
  match level with
  | Trace => 0
  | Debug => 1
  | Info => 2
  | Warn => 3
  | Error => 4
  end.

Definition level_from_u8 (b : Z) : LogLevel :=
  if b =? 0 then Trace
  else if b =? 1 then Debug
  else if b =? 3 then Warn
  else if b =? 4 then Error
  else Info.

(** [fn stream_to_u8], [fn stream_from_u8]. *)
Definition stream_to_u8 (stream : LogStream) : Z :=
  match stream with
  | Stdout => 0
  | Stderr => 1
  end.

Definition stream_from_u8 (b : Z) : LogStream := if b =? 1 then Stderr else Stdout.

(** [fn ts_nanos], [fn ts_from_nanos].  [saturating_mul] on [i64]. *)
Definition saturating_i64 (z : Z) : Z := Z.max (- 2 ^ 63) (Z.min (2 ^ 63 - 1) z).

Definition ts_nanos (ts : DateTime) : Z :=
  match timestamp_nanos_opt ts with
  | Some n => n
  | None => saturating_i64 (timestamp_millis ts * 1000000)
  end.

Definition ts_from_nanos (nanos : Z) : DateTime :=
  match timestamp_opt (nanos / 10 ^ 9) (nanos mod 10 ^ 9) with
  | Some t => t
  | None => utc_now
  end.

(** ** Varints *)

(** [fn put_varint]: at most ten rounds, the bits of a [u64] seven at a time. *)
Fixpoint put_varint_fuel (fuel : nat) (v : Z) : list Z :=
  match fuel with
  | O => []
  | S fuel' =>
      if 0x80 <=? v then Z.lor (wrap 8 v) 0x80 :: put_varint_fuel fuel' (Z.shiftr v 7)
      else [wrap 8 v]
  end.

Definition put_varint (v : Z) : list Z := put_varint_fuel 10 v.

(** [fn get_varint]: the value and the cursor behind it. *)
Fixpoint get_varint_loop (fuel : nat) (buf : list Z) (cursor v shift : Z) : res (Z * Z) :=
  match fuel with
  | O => Err Panic
  | S fuel' =>
      match byte_at buf cursor with
      | None => Err (ChunkFormat (VarintTruncated cursor))
      | Some b =>
          let cursor := cursor + 1 in
          let v := Z.lor v (wrap 64 (Z.shiftl (Z.land b 0x7f) shift)) in
          if Z.land b 0x80 =? 0 then Ok (v, cursor)
          else
            let shift := shift + 7 in
            if 63 <? shift then Err (ChunkFormat (VarintTooLong cursor))
            else get_varint_loop fuel' buf cursor v shift
      end
  end.

Definition get_varint (buf : list Z) (cursor : Z) : res (Z * Z) :=
  get_varint_loop 10 buf cursor 0 0.

(** [fn zigzag], [fn unzigzag] on [i64] and [u64]. *)
Definition zigzag (v : Z) : Z := wrap 64 (Z.lxor (swrap 64 (Z.shiftl v 1)) (Z.shiftr v 63)).
Definition unzigzag (v : Z) : Z := Z.lxor (swrap 64 (Z.shiftr v 1)) (- Z.land v 1).

(** ** The block under construction: [struct CurrentBlock] *)

Record CurrentBlock := {
  cb_ts : list Z;
  cb_level : list Z;
  cb_stream : list Z;
  cb_msg_offsets : list Z;
  cb_msg_bytes : list Z;
  cb_fields_offsets : list Z;
  cb_fields_bytes : list Z;
  cb_level_mask : Z;
  cb_level_counts : list Z;
  cb_min_ts : option DateTime;
  cb_max_ts : option DateTime
}.

(** [CurrentBlock::new]. *)
Definition block_new : CurrentBlock := {|
  cb_ts := []; cb_level := []; cb_stream := [];
  cb_msg_offsets := [0]; cb_msg_bytes := [];
  cb_fields_offsets := [0]; cb_fields_bytes := [];
  cb_level_mask := 0; cb_level_counts := replicate LEVEL_COUNT 0;
  cb_min_ts := None; cb_max_ts := None |}.

Definition line_count (b : CurrentBlock) : Z := blen (cb_ts b).

(** [CurrentBlock::estimated_bytes]. *)
Definition estimated_bytes (b : CurrentBlock) : Z :=
  4 + line_count b * 4 + line_count b + line_count b + line_count b * 2
  + blen (cb_msg_bytes b) + line_count b + blen (cb_fields_bytes b).

(** [x[i] += 1] on a [u32] array. *)
Definition bump (counts : list Z) (i : Z) : list Z :=
  alter (fun n => wrap 32 (n + 1)) (Z.to_nat i) counts.

(** The running minimum and maximum of the timestamps. *)
Definition min_with (m : option DateTime) (ts : DateTime) : option DateTime :=
  match m with
  | Some existing => if dt_leb existing ts then Some existing else Some ts
  | None => Some ts
  end.

Definition max_with (m : option DateTime) (ts : DateTime) : option DateTime :=
  match m with
  | Some existing => if dt_leb ts existing then Some existing else Some ts
  | None => Some ts
  end.

(** [CurrentBlock::push].  A failed push leaves the block half written; both callers
    of the encoder drop it with [?], so the error carries no state. *)
Definition block_push (b : CurrentBlock) (line : LogLine) : res CurrentBlock :=
  let msg_bytes := cb_msg_bytes b ++ encode_str (ll_msg line) in
  let? fields_bytes :=
    match ll_fields line with
    | Some fields =>
        match json_to_vec fields with
        | Some encoded => Ok (cb_fields_bytes b ++ encoded)
        | None => Err Serialization
        end
    | None => Ok (cb_fields_bytes b)
    end in
  Ok {|
    cb_ts := cb_ts b ++ [ts_nanos (ll_ts line)];
    cb_level := cb_level b ++ [level_to_u8 (ll_level line)];
    cb_stream := cb_stream b ++ [stream_to_u8 (ll_stream line)];
    cb_msg_offsets := cb_msg_offsets b ++ [wrap 32 (blen msg_bytes)];
    cb_msg_bytes := msg_bytes;
    cb_fields_offsets := cb_fields_offsets b ++ [wrap 32 (blen fields_bytes)];
    cb_fields_bytes := fields_bytes;
    cb_level_mask := Z.lor (cb_level_mask b) (level_bit (ll_level line));
    cb_level_counts := bump (cb_level_counts b) (level_to_u8 (ll_level line));
    cb_min_ts := min_with (cb_min_ts b) (ll_ts line);
    cb_max_ts := max_with (cb_max_ts b) (ll_ts line) |}.

(** The timestamp column: deltas from the previous line, the first from 0. *)
Fixpoint ts_column (prev : Z) (ts : list Z) : list Z :=
  match ts with
  | [] => []
  | t :: ts' => put_varint (zigzag (swrap 64 (t - prev))) ++ ts_column t ts'
  end.

(** [offsets.windows(2)]: the lengths between consecutive offsets. *)
Fixpoint lengths_column (offsets : list Z) : list Z :=
  match offsets with
  | o :: ((o' :: _) as rest) => put_varint (wrap 32 (o' - o)) ++ lengths_column rest
  | _ => []
  end.

(** [CurrentBlock::serialize]. *)
Definition block_serialize (b : CurrentBlock) : list Z :=
  to_le_bytes 4 (wrap 32 (line_count b))
  ++ ts_column 0 (cb_ts b)
  ++ cb_level b
  ++ cb_stream b
  ++ lengths_column (cb_msg_offsets b)
  ++ cb_msg_bytes b
  ++ lengths_column (cb_fields_offsets b)
  ++ cb_fields_bytes b.

(** ** The reader *)

(** [struct BlockFilter] and [BlockFilter::matches]. *)
Record BlockFilter := {
  bf_start : option DateTime;
  bf_end : option DateTime;
  bf_level_mask : Z
}.

Definition dt_ltb (a b : DateTime) : bool := negb (dt_leb b a).

Definition filter_matches (f : BlockFilter) (ts : DateTime) (level : LogLevel) : bool :=
  if match bf_start f with Some start => dt_ltb ts start | None => false end then false
  else if match bf_end f with Some e => dt_ltb e ts | None => false end then false
  else if negb (bf_level_mask f =? 0) && (Z.land (bf_level_mask f) (level_bit level) =? 0)
  then false
  else true.

(** [BlockMeta::may_match]. *)
Definition may_match (m : BlockMeta) (start e : DateTime) (level_mask : Z) : bool :=
  dt_leb start (bm_last_ts m) && dt_leb (bm_first_ts m) e
  && negb (Z.land (bm_level_mask m) level_mask =? 0).

(** [fn require_len], [fn span_end]. *)
Definition require_len (buf : list Z) (needed : Z) : res unit :=
  if blen buf <? needed then Err (ChunkFormat (BodyTruncated needed (blen buf))) else Ok ().

Definition span_end (buf : list Z) (start len : Z) : res Z :=
  let e := start + len in
  if 2 ^ 64 <=? e then Err (ChunkFormat (SpanOverflow start len))
  else let? _ := require_len buf e in Ok e.

(** [fn length_prefix_sums]: the loop with its running total, the sums after it and
    the cursor. *)
Fixpoint length_prefix_sums_loop (buf : list Z) (cursor : Z) (n : nat) (total : Z)
    : res (list Z * Z) :=
  match n with
  | O => Ok ([], cursor)
  | S n' =>
      let? (len, cursor) := get_varint buf cursor in
      if (total + len <? 2 ^ 64) && (total + len <=? blen buf) then
        let total := total + len in
        let? (sums, cursor) := length_prefix_sums_loop buf cursor n' total in
        Ok (total :: sums, cursor)
      else Err (ChunkFormat (ColumnTooLong len (blen buf)))
  end.

Definition length_prefix_sums (buf : list Z) (cursor : Z) (n : nat) : res (list Z * Z) :=
  let? (sums, cursor) := length_prefix_sums_loop buf cursor n 0 in
  Ok (0 :: sums, cursor).

(** The timestamp loop of [decode_block]. *)
Fixpoint decode_ts_loop (buf : list Z) (cursor : Z) (n : nat) (prev : Z)
    : res (list Z * Z) :=
  match n with
  | O => Ok ([], cursor)
  | S n' =>
      let? (delta, cursor) := get_varint buf cursor in
      let prev := swrap 64 (prev + unzigzag delta) in
      let? (ts, cursor) := decode_ts_loop buf cursor n' prev in
      Ok (prev :: ts, cursor)
  end.

(** Where the columns of a body lie. *)
Record layout := {
  lo_ts : list Z;
  lo_level_start : Z;
  lo_stream_start : Z;
  lo_msg_offsets : list Z;
  lo_msg_start : Z;
  lo_fields_offsets : list Z;
  lo_fields_start : Z
}.

(** One round of [decode_block]'s output loop. *)
Definition decode_line (body : list Z) (meta : BlockMeta) (filter : BlockFilter)
    (lo : layout) (i : nat) : res (option DecodedLine) :=
  let zi := Z.of_nat i in
  let? nanos := index (lo_ts lo !! i) in
  let ts := ts_from_nanos nanos in
  let? level_byte := index (byte_at body (lo_level_start lo + zi)) in
  let level := level_from_u8 level_byte in
  if negb (filter_matches filter ts level) then Ok None
  else
    let? stream_byte := index (byte_at body (lo_stream_start lo + zi)) in
    let stream := stream_from_u8 stream_byte in
    let? m0 := index (lo_msg_offsets lo !! i) in
    let? m1 := index (lo_msg_offsets lo !! S i) in
    let? msg := index (slice body (lo_msg_start lo + m0) (lo_msg_start lo + m1)) in
    let message := from_utf8_lossy msg in
    let? f0 := index (lo_fields_offsets lo !! i) in
    let? f1 := index (lo_fields_offsets lo !! S i) in
    let fields_from := lo_fields_start lo + f0 in
    let fields_to := lo_fields_start lo + f1 in
    let? fields :=
      if fields_from =? fields_to then Ok None
      else
        let? bytes := index (slice body fields_from fields_to) in
        match json_from_slice bytes with
        | Some v => Ok (Some v)
        | None => Err Serialization
        end in
    Ok (Some {| dl_ts := ts; dl_level := level; dl_stream := stream;
                dl_message := message; dl_fields := fields;
                dl_line_index := wrap 32 (bm_first_line_index meta + wrap 32 zi) |}).

(** The output loop: the lines from index [i] on, [k] of them. *)
Fixpoint decode_lines (body : list Z) (meta : BlockMeta) (filter : BlockFilter)
    (lo : layout) (i k : nat) : res (list DecodedLine) :=
  match k with
  | O => Ok []
  | S k' =>
      let? line := decode_line body meta filter lo i in
      let? rest := decode_lines body meta filter lo (S i) k' in
      Ok (match line with Some l => l :: rest | None => rest end)
  end.

(** The columns of a decompressed body. *)
Definition decode_layout (body : list Z) (line_count : nat) : res layout :=
  let zn := Z.of_nat line_count in
  let? (ts, cursor) := decode_ts_loop body 4 line_count 0 in
  let level_start := cursor in
  let? level_end := span_end body level_start zn in
  let stream_start := level_end in
  let? stream_end := span_end body stream_start zn in
  let? (msg_offsets, cursor) := length_prefix_sums body stream_end line_count in
  let msg_start := cursor in
  let? msg_total := index (msg_offsets !! line_count) in
  let? msg_end := span_end body msg_start msg_total in
  let? (fields_offsets, cursor) := length_prefix_sums body msg_end line_count in
  let fields_start := cursor in
  let? fields_total := index (fields_offsets !! line_count) in
  let? _ := span_end body fields_start fields_total in
  Ok {| lo_ts := ts; lo_level_start := level_start; lo_stream_start := stream_start;
        lo_msg_offsets := msg_offsets; lo_msg_start := msg_start;
        lo_fields_offsets := fields_offsets; lo_fields_start := fields_start |}.

(** The part of [decode_block] behind the decompression. *)
Definition decode_body (body : list Z) (meta : BlockMeta) (filter : BlockFilter)
    : res (list DecodedLine) :=
  if blen body <? 4 then Err (ChunkFormat (BodyTooShort (blen body)))
  else
    let? head := index (slice body 0 4) in
    let zcount := from_le_bytes head in
    if blen body <? zcount then Err (ChunkFormat (TooManyLines zcount (blen body)))
    else
      let count := Z.to_nat zcount in
      let? lo := decode_layout body count in
      decode_lines body meta filter lo 0 count.

(** [fn decode_block]. *)
Definition decode_block (compressed : list Z) (meta : BlockMeta) (filter : BlockFilter)
    : res (list DecodedLine) :=
  match zstd_decode_all compressed with
  | None => Err DecompressionFailed
  | Some body => decode_body body meta filter
  end.

(** ** Varints and zigzag *)

Lemma land_7f_of_cont v : Z.land (Z.lor (wrap 8 v) 0x80) 0x7f = v mod 128.
Proof.
  rewrite Z.land_lor_distr_l. change (Z.land 0x80 0x7f) with 0. rewrite Z.lor_0_r.
  change 0x7f with (Z.ones 7). rewrite land_mask by lia. unfold wrap.
  change (2 ^ 8) with 256. change (2 ^ 7) with 128. zlia.
Qed.

Lemma land_80_of_cont v : Z.land (Z.lor (wrap 8 v) 0x80) 0x80 = 0x80.
Proof.
  apply Z.bits_inj'. intros n Hn. rewrite Z.land_spec, Z.lor_spec.
  destruct (Z.testbit 0x80 n); by rewrite ?orb_true_r, ?andb_false_r.
Qed.

Lemma land_80_of_last v : 0 <= v < 128 -> Z.land v 0x80 = 0.
Proof.
  intros Hv. replace v with (Z.land v 0x7f).
  - rewrite <- Z.land_assoc. change (Z.land 0x7f 0x80) with 0. apply Z.land_0_r.
  - change 0x7f with (Z.ones 7). rewrite land_mask by lia. by apply Z.mod_small.
Qed.

Lemma land_7f_of_last v : 0 <= v < 128 -> Z.land v 0x7f = v.
Proof.
  intros Hv. change 0x7f with (Z.ones 7). rewrite land_mask by lia. by apply Z.mod_small.
Qed.

(** Or-ing the next seven bits into the accumulator adds them. *)
Lemma varint_acc acc x shift :
  0 <= shift -> 0 <= acc < 2 ^ shift -> 0 <= x -> x * 2 ^ shift < 2 ^ 64 ->
  Z.lor acc (wrap 64 (Z.shiftl x shift)) = acc + x * 2 ^ shift.
Proof.
  intros Hs Hacc Hx Hb. rewrite wrap_id; [by apply lor_disjoint|].
  unfold fits. rewrite Z.shiftl_mul_pow2 by done. split; [|done].
  apply Z.mul_nonneg_nonneg; [done|]. apply Z.pow_nonneg. lia.
Qed.

Lemma get_varint_loop_put fuel pre post v acc shift :
  shift = 7 * (10 - Z.of_nat fuel) -> (0 < fuel <= 10)%nat ->
  0 <= v -> v * 2 ^ shift < 2 ^ 64 -> 0 <= acc < 2 ^ shift ->
  get_varint_loop fuel (pre ++ put_varint_fuel fuel v ++ post) (blen pre) acc shift =
  Ok (acc + v * 2 ^ shift, blen pre + blen (put_varint_fuel fuel v)).
Proof.
  revert pre v acc shift. induction fuel as [|fuel IH]; intros pre v acc shift Hs Hf Hv Hb Ha;
    [lia|].
  cbn [put_varint_fuel]. assert (0 < 2 ^ shift) as Hp by (apply Z.pow_pos_nonneg; lia).
  destruct (Z.leb_spec 0x80 v) as [Hv80|Hv80].
  - assert (shift <= 56) as Hs56.
    { destruct (Z.le_gt_cases shift 56) as [|Hgt]; [done|exfalso].
      assert (2 ^ 63 <= 2 ^ shift) by (apply Z.pow_le_mono_r; lia). nia. }
    assert (shift <> 63 /\ (0 < fuel)%nat) as [_ Hf0] by lia.
    cbn [get_varint_loop app]. rewrite byte_at_app, land_7f_of_cont, land_80_of_cont.
    rewrite varint_acc by (try lia; zlia || nia).
    cbn [Z.eqb]. rewrite (proj2 (Z.ltb_ge 63 (shift + 7))) by lia.
    rewrite Z.shiftr_div_pow2 by lia. change (2 ^ 7) with 128.
    change (?x :: ?l ++ post) with ([x] ++ l ++ post). rewrite app_assoc.
    replace (blen pre + 1) with (blen (pre ++ [Z.lor (wrap 8 v) 0x80]))
      by (by rewrite blen_app).
    rewrite IH; rewrite ?Z.pow_add_r by lia; change (2 ^ 7) with 128.
    + rewrite blen_cons, blen_app. cbn [blen length]. change (blen [_]) with 1.
      do 2 f_equal; [|lia]. pose proof (Z.div_mod v 128 ltac:(lia)). nia.
    + lia.
    + lia.
    + zlia.
    + pose proof (Z.div_mod v 128 ltac:(lia)). pose proof (Z.mod_pos_bound v 128). nia.
    + pose proof (Z.mod_pos_bound v 128). nia.
  - cbn [get_varint_loop app]. rewrite byte_at_app.
    assert (wrap 8 v = v) as -> by (apply wrap_id; unfold fits; lia).
    rewrite land_7f_of_last, land_80_of_last by lia.
    rewrite varint_acc by (lia || nia). done.
Qed.

Lemma get_varint_put pre post v :
  fits 64 v ->
  get_varint (pre ++ put_varint v ++ post) (blen pre) = Ok (v, blen pre + blen (put_varint v)).
Proof.
  unfold fits. intros Hv. unfold get_varint, put_varint.
  rewrite get_varint_loop_put by lia. f_equal. f_equal. lia.
Qed.

Lemma get_varint_at buf pre post v cursor :
  buf = pre ++ put_varint v ++ post -> cursor = blen pre -> fits 64 v ->
  get_varint buf cursor = Ok (v, blen (pre ++ put_varint v)).
Proof. intros -> -> Hv. rewrite get_varint_put by done. by rewrite blen_app. Qed.

Lemma zigzag_nonneg v : 0 <= v -> sfits 64 v -> zigzag v = 2 * v.
Proof.
  unfold sfits, zigzag. intros Hv Hf. rewrite (Z.shiftr_div_pow2 v) by lia.
  rewrite Z.div_small by lia. rewrite Z.lxor_0_r, Z.shiftl_mul_pow2 by lia.
  unfold wrap, swrap. zlia.
Qed.

Lemma zigzag_neg v : v < 0 -> sfits 64 v -> zigzag v = - 2 * v - 1.
Proof.
  unfold sfits, zigzag. intros Hv Hf. rewrite (Z.shiftr_div_pow2 v) by lia.
  replace (v / 2 ^ 63) with (-1) by zlia.
  rewrite Z.lxor_m1_r, Z.shiftl_mul_pow2 by lia. unfold Z.lnot, wrap, swrap. zlia.
Qed.

Lemma zigzag_fits v : sfits 64 v -> fits 64 (zigzag v).
Proof.
  intros Hf. destruct (Z.le_gt_cases 0 v); [rewrite zigzag_nonneg|rewrite zigzag_neg];
    unfold fits, sfits in *; try done; lia.
Qed.

Lemma unzigzag_zigzag v : sfits 64 v -> unzigzag (zigzag v) = v.
Proof.
  intros Hf. unfold unzigzag. rewrite Z.shiftr_div_pow2 by lia.
  change 1 with (Z.ones 1) at 2. rewrite land_mask by lia. change (2 ^ 1) with 2.
  destruct (Z.le_gt_cases 0 v) as [Hv|Hv].
  - rewrite zigzag_nonneg by done. replace (2 * v / 2) with v by zlia.
    replace ((2 * v) mod 2) with 0 by zlia. rewrite Z.lxor_0_r. apply swrap_id; [lia|done].
  - rewrite zigzag_neg by done. replace ((- 2 * v - 1) / 2) with (- v - 1) by zlia.
    replace ((- 2 * v - 1) mod 2) with 1 by zlia. rewrite Z.lxor_m1_r, swrap_id; [|lia|].
    + unfold Z.lnot. lia.
    + unfold sfits in *. lia.
Qed.

(** ** Reading the columns back *)

Lemma decode_ts_loop_column pre post prev ts :
  sfits 64 prev -> Forall (sfits 64) ts ->
  decode_ts_loop (pre ++ ts_column prev ts ++ post) (blen pre) (length ts) prev =
  Ok (ts, blen (pre ++ ts_column prev ts)).
Proof.
  intros Hp Hts. revert pre prev Hp. induction Hts as [|t ts Ht Hts IH]; intros pre prev Hp.
  - simpl. by rewrite app_nil_r.
  - cbn [ts_column decode_ts_loop length].
    set (d := zigzag (swrap 64 (t - prev))).
    rewrite <- (app_assoc (put_varint d)).
    rewrite (get_varint_at _ pre (ts_column t ts ++ post) d) by
      (done || by apply zigzag_fits, swrap_fits).
    cbn [result_bind]. unfold d. rewrite unzigzag_zigzag by (by apply swrap_fits).
    rewrite Z.add_comm, swrap_add_l by lia. replace (t - prev + prev) with t by lia.
    rewrite (swrap_id 64 t) by (lia || done). fold d. rewrite app_assoc, IH by done.
    simpl. by rewrite <- !app_assoc.
Qed.

(** The running offsets of a column of byte strings. *)
Fixpoint offsets (start : Z) (cells : list (list Z)) : list Z :=
  match cells with
  | [] => [start]
  | c :: cells' => start :: offsets (start + blen c) cells'
  end.

Lemma offsets_cons start cells : exists rest,
  offsets start cells = start :: rest /\ length rest = length cells.
Proof.
  revert start. induction cells as [|c cells IH]; intros start; [by exists []|].
  destruct (IH (start + blen c)) as (rest & Hr & Hl). exists (start + blen c :: rest).
  simpl. by rewrite Hr, Hl.
Qed.

Lemma offsets_snoc start cells c :
  offsets start (cells ++ [c]) =
  offsets start cells ++ [start + blen (mjoin cells) + blen c].
Proof.
  revert start. induction cells as [|d cells IH]; intros start; simpl.
  - change (blen []) with 0. by rewrite Z.add_0_r.
  - rewrite IH, blen_app. by rewrite Z.add_assoc.
Qed.

Lemma offsets_lookup start before cell after :
  offsets start (before ++ cell :: after) !! length before = Some (start + blen (mjoin before)) /\
  offsets start (before ++ cell :: after) !! S (length before) =
    Some (start + blen (mjoin before) + blen cell).
Proof.
  revert start. induction before as [|d before IH]; intros start; simpl.
  - destruct (offsets_cons (start + blen cell) after) as (rest & -> & _). simpl.
    unfold blen. simpl. split; f_equal; lia.
  - destruct (IH (start + blen d)) as [Hi Hi']. rewrite Hi, Hi', blen_app.
    split; f_equal; lia.
Qed.

Lemma offsets_last start cells :
  offsets start cells !! length cells = Some (start + blen (mjoin cells)).
Proof.
  revert start. induction cells as [|c cells IH]; intros start; simpl.
  - f_equal. unfold blen. simpl. lia.
  - rewrite IH, blen_app. f_equal. lia.
Qed.

(** The lengths column holds the cell lengths. *)
Lemma lengths_column_offsets start cells :
  Forall (fun c => blen c < 2 ^ 32) cells ->
  lengths_column (offsets start cells) = mjoin (map (fun c => put_varint (blen c)) cells).
Proof.
  intros Hc. revert start. induction Hc as [|c cells Hc Hcs IH]; intros start; [done|].
  simpl offsets. simpl map.
  destruct (offsets_cons (start + blen c) cells) as (rest & Hr & _).
  specialize (IH (start + blen c)). rewrite Hr in *.
  change (lengths_column (start :: start + blen c :: rest)) with
    (put_varint (wrap 32 (start + blen c - start)) ++ lengths_column (start + blen c :: rest)).
  rewrite IH. simpl. do 2 f_equal.
  replace (start + blen c - start) with (blen c) by lia.
  apply wrap_id. unfold fits. pose proof (blen_nonneg c). lia.
Qed.

Lemma length_prefix_sums_loop_column pre post total cells buf :
  buf = pre ++ mjoin (map (fun c => put_varint (blen c)) cells) ++ post ->
  0 <= total -> total + blen (mjoin cells) <= blen buf -> blen buf < 2 ^ 64 ->
  length_prefix_sums_loop buf (blen pre) (length cells) total =
  Ok (tail (offsets total cells),
      blen (pre ++ mjoin (map (fun c => put_varint (blen c)) cells))).
Proof.
  revert pre total. induction cells as [|c cells IH]; intros pre total Hbuf Ht Hle Hb.
  - simpl. by rewrite app_nil_r.
  - cbn [length_prefix_sums_loop length]. simpl in Hle. rewrite blen_app in Hle.
    pose proof (blen_nonneg c). pose proof (blen_nonneg (mjoin cells)).
    simpl in Hbuf. rewrite <- app_assoc in Hbuf.
    rewrite (get_varint_at _ pre _ (blen c) _ Hbuf) by (done || unfold fits; lia).
    cbn [result_bind].
    destruct (Z.ltb_spec (total + blen c) (2 ^ 64)); [|lia].
    destruct (Z.leb_spec (total + blen c) (blen buf)); [|lia]. cbn [andb].
    rewrite IH; [|by rewrite <- app_assoc|lia|lia|done].
    simpl. destruct (offsets_cons (total + blen c) cells) as (rest & -> & _).
    simpl. by rewrite <- app_assoc.
Qed.

Lemma length_prefix_sums_column pre post cells buf :
  buf = pre ++ mjoin (map (fun c => put_varint (blen c)) cells) ++ post ->
  blen (mjoin cells) <= blen buf -> blen buf < 2 ^ 64 ->
  length_prefix_sums buf (blen pre) (length cells) =
  Ok (offsets 0 cells, blen (pre ++ mjoin (map (fun c => put_varint (blen c)) cells))).
Proof.
  intros Hbuf Hle Hb. unfold length_prefix_sums.
  erewrite length_prefix_sums_loop_column by (done || lia).
  simpl. by destruct (offsets_cons 0 cells) as (rest & -> & _).
Qed.

Lemma byte_at_mid buf pre mid post (i : nat) x :
  buf = pre ++ mid ++ post -> mid !! i = Some x ->
  byte_at buf (blen pre + Z.of_nat i) = Some x.
Proof.
  intros -> Hi. unfold byte_at, blen. rewrite bool_decide_eq_true_2 by lia.
  replace (Z.to_nat (Z.of_nat (length pre) + Z.of_nat i)) with (length pre + i)%nat by lia.
  rewrite lookup_app_r by lia. replace (length pre + i - length pre)%nat with i by lia.
  rewrite lookup_app_l by (by apply lookup_lt_Some in Hi). done.
Qed.

Lemma span_end_at pre mid post buf n :
  buf = pre ++ mid ++ post -> n = blen mid -> blen buf < 2 ^ 64 ->
  span_end buf (blen pre) n = Ok (blen (pre ++ mid)).
Proof.
  intros -> -> Hb. unfold span_end, require_len. rewrite !blen_app in *.
  pose proof (blen_nonneg post).
  destruct (Z.leb_spec (2 ^ 64) (blen pre + blen mid)); [lia|].
  by destruct (Z.ltb_spec (blen pre + (blen mid + blen post)) (blen pre + blen mid)); [lia|].
Qed.

(** ** What a block holds after a run of pushes *)

(** The bytes a line puts into the message and the fields column. *)
Definition msg_cell (l : LogLine) : list Z := encode_str (ll_msg l).

Definition fields_cell (l : LogLine) : list Z :=
  match ll_fields l with
  | Some v => default [] (json_to_vec v)
  | None => []
  end.

Definition level_mask_of (ls : list LogLine) : Z :=
  fold_left (fun m l => Z.lor m (level_bit (ll_level l))) ls 0.

(** Both byte columns fit the [u32] offsets. *)
Definition columns_fit (ls : list LogLine) : Prop :=
  blen (mjoin (map msg_cell ls)) < 2 ^ 32 /\ blen (mjoin (map fields_cell ls)) < 2 ^ 32.

Record block_holds (ls : list LogLine) (b : CurrentBlock) : Prop := {
  bh_ts : cb_ts b = map (fun l => ts_nanos (ll_ts l)) ls;
  bh_level : cb_level b = map (fun l => level_to_u8 (ll_level l)) ls;
  bh_stream : cb_stream b = map (fun l => stream_to_u8 (ll_stream l)) ls;
  bh_msg_bytes : cb_msg_bytes b = mjoin (map msg_cell ls);
  bh_msg_offsets : cb_msg_offsets b = offsets 0 (map msg_cell ls);
  bh_fields_bytes : cb_fields_bytes b = mjoin (map fields_cell ls);
  bh_fields_offsets : cb_fields_offsets b = offsets 0 (map fields_cell ls);
  bh_level_mask : cb_level_mask b = level_mask_of ls;
  bh_min : match cb_min_ts b with
           | Some t => forall l, l ∈ ls -> dt_leb t (ll_ts l) = true
           | None => ls = []
           end;
  bh_max : match cb_max_ts b with
           | Some t => forall l, l ∈ ls -> dt_leb (ll_ts l) t = true
           | None => ls = []
           end
}.

Lemma columns_fit_app ls ls' : columns_fit (ls ++ ls') -> columns_fit ls.
Proof.
  unfold columns_fit. rewrite !map_app, !join_app, !blen_app.
  pose proof (blen_nonneg (mjoin (map msg_cell ls'))).
  pose proof (blen_nonneg (mjoin (map fields_cell ls'))). lia.
Qed.

Lemma columns_fit_cells ls :
  columns_fit ls ->
  Forall (fun c => blen c < 2 ^ 32) (map msg_cell ls) /\
  Forall (fun c => blen c < 2 ^ 32) (map fields_cell ls).
Proof.
  intros [Hm Hf].
  assert (forall cells c, c ∈ cells -> blen c <= blen (mjoin cells)) as Hin.
  { intros cells c (k1 & k2 & ->)%list_elem_of_split. rewrite join_app, blen_app. simpl.
    rewrite blen_app. pose proof (blen_nonneg (mjoin k1)). pose proof (blen_nonneg (mjoin k2)).
    lia. }
  split; apply Forall_forall; intros c Hc; apply list_elem_of_In, Hin in Hc; lia.
Qed.

Lemma mjoin_snoc {A} (cells : list (list A)) c : mjoin (cells ++ [c]) = mjoin cells ++ c.
Proof. rewrite join_app. simpl. by rewrite app_nil_r. Qed.

Lemma dt_le_refl t : dt_leb t t = true.
Proof. by destruct (dt_le_total t t). Qed.

Lemma min_with_spec m t :
  exists t', min_with m t = Some t' /\ dt_leb t' t = true /\
             forall t0, m = Some t0 -> dt_leb t' t0 = true.
Proof.
  destruct m as [t0|]; simpl.
  - destruct (dt_leb t0 t) eqn:Hle; eexists; split_and!; try done.
    + intros ? [= <-]. apply dt_le_refl.
    + apply dt_le_refl.
    + intros ? [= <-]. destruct (dt_le_total t t0); congruence.
  - exists t. split_and!; [done|apply dt_le_refl|done].
Qed.

Lemma max_with_spec m t :
  exists t', max_with m t = Some t' /\ dt_leb t t' = true /\
             forall t0, m = Some t0 -> dt_leb t0 t' = true.
Proof.
  destruct m as [t0|]; simpl.
  - destruct (dt_leb t t0) eqn:Hle; eexists; split_and!; try done.
    + intros ? [= <-]. apply dt_le_refl.
    + apply dt_le_refl.
    + intros ? [= <-]. destruct (dt_le_total t t0); congruence.
  - exists t. split_and!; [done|apply dt_le_refl|done].
Qed.

Lemma block_holds_new : block_holds [] block_new.
Proof. by split. Qed.

Lemma block_push_holds ls b l b' :
  block_holds ls b -> columns_fit (ls ++ [l]) -> block_push b l = Ok b' ->
  block_holds (ls ++ [l]) b'.
Proof.
  intros Hb Hfit Hp. unfold block_push in Hp. inv_ok.
  assert (r = cb_fields_bytes b ++ fields_cell l) as ->.
  { unfold fields_cell. destruct (ll_fields l) as [v|]; [destruct (json_to_vec v)|];
      simplify_eq/=; by rewrite ?app_nil_r. }
  destruct Hfit as [Hm Hf]. rewrite !map_app in Hm, Hf. cbn [map] in Hm, Hf.
  rewrite mjoin_snoc in Hm, Hf.
  destruct Hb as [Hts Hlv Hst Hmb Hmo Hfb Hfo Hmask Hmin Hmax].
  assert (forall x y, wrap 32 (blen (x ++ y)) = blen (x ++ y)  \/ 2 ^ 32 <= blen (x ++ y))
    as Hw.
  { intros x y. destruct (Z.lt_ge_cases (blen (x ++ y)) (2 ^ 32)); [left|by right].
    apply wrap_id. unfold fits. pose proof (blen_nonneg (x ++ y)). lia. }
  split; cbn [cb_ts cb_level cb_stream cb_msg_offsets cb_msg_bytes cb_fields_offsets
    cb_fields_bytes cb_level_mask cb_min_ts cb_max_ts]; rewrite ?map_app; cbn [map];
    rewrite ?mjoin_snoc.
  - by rewrite Hts.
  - by rewrite Hlv.
  - by rewrite Hst.
  - by rewrite Hmb.
  - rewrite offsets_snoc, Hmo, Hmb. do 2 f_equal. fold (msg_cell l).
    destruct (Hw (mjoin (map msg_cell ls)) (msg_cell l)) as [->|]; [rewrite blen_app; lia|lia].
  - by rewrite Hfb.
  - rewrite offsets_snoc, Hfo, Hfb. do 2 f_equal.
    destruct (Hw (mjoin (map fields_cell ls)) (fields_cell l)) as [->|];
      [rewrite blen_app; lia|lia].
  - unfold level_mask_of. rewrite fold_left_app. simpl. by rewrite Hmask.
  - destruct (min_with_spec (cb_min_ts b) (ll_ts l)) as (t & -> & Htl & Ht).
    intros l' [Hl'| ->%list_elem_of_singleton]%elem_of_app; [|done].
    destruct (cb_min_ts b) as [t0|]; [|by subst; apply elem_of_nil in Hl'].
    eapply dt_le_trans; [by apply Ht|by apply Hmin].
  - destruct (max_with_spec (cb_max_ts b) (ll_ts l)) as (t & -> & Htl & Ht).
    intros l' [Hl'| ->%list_elem_of_singleton]%elem_of_app; [|done].
    destruct (cb_max_ts b) as [t0|]; [|by subst; apply elem_of_nil in Hl'].
    eapply dt_le_trans; [by apply Hmax|by apply Ht].
Qed.

Lemma pushes_hold ls b :
  result_fold block_push ls block_new = Ok b -> columns_fit ls -> block_holds ls b.
Proof.
  revert b. induction ls as [|l ls IH] using rev_ind; intros b Hf Hfit.
  - simplify_eq/=. apply block_holds_new.
  - rewrite result_fold_app in Hf. apply result_bind_Ok in Hf as (b0 & Hf0 & Hf).
    simpl in Hf. apply result_bind_Ok in Hf as (b1 & Hp & Hf). simplify_eq/=.
    eapply block_push_holds; [|done|done]. apply IH; [done|by eapply columns_fit_app].
Qed.

(** ** Round trip of a block *)

(** What the round trip needs of a line: its message is a string, its instant has a
    nanosecond count, and serde_json reads back the fields it wrote. *)
Record line_ok (l : LogLine) : Prop := {
  lok_msg : is_str (ll_msg l);
  lok_ts : is_Some (timestamp_nanos_opt (ll_ts l));
  lok_fields v b : ll_fields l = Some v -> json_to_vec v = Some b -> json_from_slice b = Some v
}.

(** The line a reader gets back, and those of [ls] (the first at index [i] of its
    block) a filter lets through. *)
Definition decoded (index : Z) (l : LogLine) : DecodedLine := {|
  dl_ts := ll_ts l; dl_level := ll_level l; dl_stream := ll_stream l;
  dl_message := ll_msg l; dl_fields := ll_fields l; dl_line_index := index |}.

Fixpoint expected_lines (first : Z) (filter : BlockFilter) (i : nat) (ls : list LogLine)
    : list DecodedLine :=
  match ls with
  | [] => []
  | l :: ls' =>
      let rest := expected_lines first filter (S i) ls' in
      if filter_matches filter (ll_ts l) (ll_level l)
      then decoded (wrap 32 (first + wrap 32 (Z.of_nat i))) l :: rest
      else rest
  end.

Lemma level_u8_roundtrip l : level_from_u8 (level_to_u8 l) = l.
Proof. by destruct l. Qed.

Lemma stream_u8_roundtrip st : stream_from_u8 (stream_to_u8 st) = st.
Proof. by destruct st. Qed.

Lemma ts_roundtrip t : is_Some (timestamp_nanos_opt t) -> ts_from_nanos (ts_nanos t) = t.
Proof.
  intros [n Hn]. unfold ts_from_nanos, ts_nanos. rewrite Hn.
  by rewrite (nanos_of_timestamp t n Hn).
Qed.

Lemma ts_nanos_fits t : sfits 64 (ts_nanos t).
Proof.
  unfold ts_nanos. destruct (timestamp_nanos_opt t) as [n|] eqn:Hn; [by eapply nanos_i64|].
  unfold sfits, saturating_i64. lia.
Qed.

(** The columns of a body, and the layout they are read back with. *)
Definition body_of (ls : list LogLine) : list Z :=
  to_le_bytes 4 (Z.of_nat (length ls))
  ++ ts_column 0 (map (fun l => ts_nanos (ll_ts l)) ls)
  ++ map (fun l => level_to_u8 (ll_level l)) ls
  ++ map (fun l => stream_to_u8 (ll_stream l)) ls
  ++ mjoin (map (fun c => put_varint (blen c)) (map msg_cell ls))
  ++ mjoin (map msg_cell ls)
  ++ mjoin (map (fun c => put_varint (blen c)) (map fields_cell ls))
  ++ mjoin (map fields_cell ls).

Lemma blen_put_varint v : blen (put_varint v) <= 10.
Proof.
  assert (forall fuel u, length (put_varint_fuel fuel u) <= fuel)%nat as Hf.
  { induction fuel as [|fuel IH]; intros u; simpl; [done|].
    case_match; simpl; [specialize (IH (Z.shiftr u 7))|]; lia. }
  unfold blen, put_varint. specialize (Hf 10%nat v). lia.
Qed.

Lemma blen_varints cells :
  blen (mjoin (map (fun c => put_varint (blen c)) cells)) <= 10 * Z.of_nat (length cells).
Proof.
  induction cells as [|c cells IH]; [done|]. simpl map. simpl mjoin. rewrite blen_app.
  pose proof (blen_put_varint (blen c)). simpl length. lia.
Qed.

Lemma blen_ts_column prev ts : blen (ts_column prev ts) <= 10 * Z.of_nat (length ts).
Proof.
  revert prev. induction ts as [|t ts IH]; intros prev; [done|]. simpl ts_column.
  rewrite blen_app. pose proof (blen_put_varint (zigzag (swrap 64 (t - prev)))).
  specialize (IH t). simpl length. lia.
Qed.

Lemma blen_map {A} (f : A -> Z) (l : list A) : blen (map f l) = Z.of_nat (length l).
Proof. unfold blen. by rewrite length_map. Qed.

Lemma body_of_bounds ls :
  columns_fit ls -> Z.of_nat (length ls) < 2 ^ 32 ->
  Z.of_nat (length ls) + 4 <= blen (body_of ls) < 2 ^ 64.
Proof.
  intros [Hm Hf] Hn. unfold body_of. rewrite !blen_app, !blen_map, blen_to_le_bytes.
  pose proof (blen_varints (map msg_cell ls)) as Hvm.
  pose proof (blen_varints (map fields_cell ls)) as Hvf.
  pose proof (blen_ts_column 0 (map (fun l => ts_nanos (ll_ts l)) ls)) as Hts.
  rewrite length_map in Hvm, Hvf, Hts.
  repeat match goal with |- context [blen ?l] =>
    let x := fresh in pose proof (blen_nonneg l) as x; generalize dependent (blen l); intros
  end. lia.
Qed.

Lemma block_serialize_holds ls b :
  block_holds ls b -> columns_fit ls -> Z.of_nat (length ls) < 2 ^ 32 ->
  block_serialize b = body_of ls.
Proof.
  intros Hb Hfit Hn. destruct (columns_fit_cells _ Hfit) as [Hm Hf].
  destruct Hb as [Hts Hlv Hst Hmb Hmo Hfb Hfo _ _ _].
  unfold block_serialize, body_of, line_count.
  rewrite Hts, Hlv, Hst, Hmb, Hmo, Hfb, Hfo, blen_map.
  rewrite wrap_id by (unfold fits; lia).
  by rewrite !lengths_column_offsets.
Qed.

Definition layout_of (ls : list LogLine) : layout :=
  let head := to_le_bytes 4 (Z.of_nat (length ls))
    ++ ts_column 0 (map (fun l => ts_nanos (ll_ts l)) ls) in
  let levels := map (fun l => level_to_u8 (ll_level l)) ls in
  let streams := map (fun l => stream_to_u8 (ll_stream l)) ls in
  let msg_lens := mjoin (map (fun c => put_varint (blen c)) (map msg_cell ls)) in
  let fields_lens := mjoin (map (fun c => put_varint (blen c)) (map fields_cell ls)) in
  let msgs := mjoin (map msg_cell ls) in {|
    lo_ts := map (fun l => ts_nanos (ll_ts l)) ls;
    lo_level_start := blen head;
    lo_stream_start := blen (head ++ levels);
    lo_msg_offsets := offsets 0 (map msg_cell ls);
    lo_msg_start := blen (((head ++ levels) ++ streams) ++ msg_lens);
    lo_fields_offsets := offsets 0 (map fields_cell ls);
    lo_fields_start := blen (((((head ++ levels) ++ streams) ++ msg_lens) ++ msgs) ++ fields_lens)
  |}.

Ltac assoc := by rewrite <- ?app_assoc.

Lemma decode_layout_body_of ls :
  columns_fit ls -> Z.of_nat (length ls) < 2 ^ 32 ->
  decode_layout (body_of ls) (length ls) = Ok (layout_of ls).
Proof.
  intros Hfit Hn. destruct (body_of_bounds ls Hfit Hn) as [_ Hlt].
  assert (blen (mjoin (map msg_cell ls)) <= blen (body_of ls) /\
          blen (mjoin (map fields_cell ls)) <= blen (body_of ls)) as [Hlm Hlf].
  { unfold body_of. rewrite !blen_app. repeat match goal with |- context [blen ?l] =>
      let x := fresh in pose proof (blen_nonneg l) as x; generalize dependent (blen l); intros
    end. lia. }
  unfold decode_layout, layout_of.
  remember (body_of ls) as body eqn:Hbody. unfold body_of in Hbody.
  set (cnt := to_le_bytes 4 _) in *. set (nanos := map (fun l => ts_nanos (ll_ts l)) ls) in *.
  set (levels := map (fun l => level_to_u8 (ll_level l)) ls) in *.
  set (streams := map (fun l => stream_to_u8 (ll_stream l)) ls) in *.
  set (mc := map msg_cell ls) in *. set (fc := map fields_cell ls) in *.
  assert (length ls = length nanos /\ length ls = length mc /\ length ls = length fc)
    as (Hln & Hlmc & Hlfc) by (unfold nanos, mc, fc; by rewrite !length_map).
  replace (decode_ts_loop body 4 (length ls) 0) with
    (decode_ts_loop (cnt ++ ts_column 0 nanos ++ levels ++ streams
      ++ mjoin (map (fun c => put_varint (blen c)) mc) ++ mjoin mc
      ++ mjoin (map (fun c => put_varint (blen c)) fc) ++ mjoin fc) (blen cnt) (length nanos) 0)
    by (rewrite <- Hbody, Hln; f_equal; apply blen_to_le_bytes).
  rewrite decode_ts_loop_column; [|unfold sfits; lia|].
  2:{ apply Forall_forall. intros n Hin. apply in_map_iff in Hin as (l & <- & _).
      apply ts_nanos_fits. }
  cbn [result_bind].
  assert (Z.of_nat (length ls) = blen levels /\ Z.of_nat (length ls) = blen streams)
    as [Hll Hls] by (unfold levels, streams; by rewrite !blen_map).
  erewrite (span_end_at _ levels) by (first [exact Hll|exact Hlt|subst body; assoc]).
  cbn [result_bind].
  erewrite (span_end_at _ streams) by (first [exact Hls|exact Hlt|subst body; assoc]).
  cbn [result_bind]. rewrite Hlmc at 1.
  erewrite length_prefix_sums_column by (first [done|subst body; assoc]).
  cbn [result_bind index ok_or]. rewrite Hlmc at 1. rewrite offsets_last. cbn [result_bind index ok_or].
  erewrite (span_end_at _ (mjoin mc)) by (first [exact Hlt|subst body; assoc|lia]).
  cbn [result_bind]. rewrite Hlfc at 1.
  erewrite length_prefix_sums_column by (first [done|subst body; assoc]).
  cbn [result_bind index ok_or]. rewrite Hlfc at 1. rewrite offsets_last. cbn [result_bind index ok_or].
  erewrite (span_end_at _ (mjoin fc) []) by (first [exact Hlt|subst body; rewrite app_nil_r; assoc|lia]).
  done.
Qed.

Definition encodable (l : LogLine) : Prop :=
  forall v, ll_fields l = Some v -> is_Some (json_to_vec v).

Lemma pushes_encodable ls b b' :
  result_fold block_push ls b = Ok b' -> Forall encodable ls.
Proof.
  revert b. induction ls as [|l ls IH]; intros b Hf; [constructor|].
  simpl in Hf. apply result_bind_Ok in Hf as (b1 & Hp & Hf).
  constructor; [|by eapply IH]. intros v Hv. unfold block_push in Hp.
  apply result_bind_Ok in Hp as (r & Hr & _). rewrite Hv in Hr.
  destruct (json_to_vec v); [by eexists|done].
Qed.

(** The fields column of a line reads back as its fields. *)
Lemma fields_cell_read l :
  line_ok l -> encodable l ->
  (blen (fields_cell l) = 0 /\ ll_fields l = None) \/
  (0 < blen (fields_cell l) /\
   exists v, ll_fields l = Some v /\ json_from_slice (fields_cell l) = Some v).
Proof.
  intros Hok Henc. unfold fields_cell. destruct (ll_fields l) as [v|] eqn:Hv; [right|by left].
  destruct (Henc v Hv) as [b Hb]. rewrite Hb. simpl. split.
  - destruct b; [by apply json_nonempty in Hb|]. rewrite blen_cons.
    match goal with |- context [blen ?x] => pose proof (blen_nonneg x) end. lia.
  - exists v. split; [done|]. by eapply lok_fields.
Qed.

Lemma slice_offset buf pre (before : list (list Z)) cell after post :
  buf = pre ++ mjoin (before ++ cell :: after) ++ post ->
  slice buf (blen pre + (0 + blen (mjoin before)))
    (blen pre + (0 + blen (mjoin before) + blen cell)) = Some cell.
Proof.
  intros ->. rewrite join_app. simpl.
  replace (pre ++ (mjoin before ++ cell ++ mjoin after) ++ post)
    with ((pre ++ mjoin before) ++ cell ++ (mjoin after ++ post)) by (rewrite <- !app_assoc; done).
  apply slice_at; rewrite blen_app; lia.
Qed.

Section OneLine.
Context (before after : list LogLine) (l : LogLine).
Let ls := before ++ l :: after.

Lemma map_here {A} (f : LogLine -> A) : map f ls !! length before = Some (f l).
Proof. rewrite list_lookup_fmap. unfold ls. by rewrite list_lookup_middle. Qed.

Lemma body_level_here :
  byte_at (body_of ls) (lo_level_start (layout_of ls) + Z.of_nat (length before)) =
  Some (level_to_u8 (ll_level l)).
Proof.
  eapply byte_at_mid; [|apply (map_here (fun l => level_to_u8 (ll_level l)))].
  unfold body_of. assoc.
Qed.

Lemma body_stream_here :
  byte_at (body_of ls) (lo_stream_start (layout_of ls) + Z.of_nat (length before)) =
  Some (stream_to_u8 (ll_stream l)).
Proof.
  eapply byte_at_mid; [|apply (map_here (fun l => stream_to_u8 (ll_stream l)))].
  unfold body_of. assoc.
Qed.

Lemma body_msg_here : exists m0 m1,
  lo_msg_offsets (layout_of ls) !! length before = Some m0 /\
  lo_msg_offsets (layout_of ls) !! S (length before) = Some m1 /\
  slice (body_of ls) (lo_msg_start (layout_of ls) + m0) (lo_msg_start (layout_of ls) + m1) =
    Some (msg_cell l).
Proof.
  cbn [lo_msg_offsets lo_msg_start layout_of].
  assert (map msg_cell ls = map msg_cell before ++ msg_cell l :: map msg_cell after) as Hmap
    by (unfold ls; by rewrite map_app).
  rewrite Hmap.
  destruct (offsets_lookup 0 (map msg_cell before) (msg_cell l) (map msg_cell after)) as [H1' H2'].
  rewrite length_map in H1', H2'. do 2 eexists. split_and!; [exact H1'|exact H2'|].
  rewrite <- Hmap. eapply slice_offset. unfold body_of. rewrite <- Hmap. assoc.
Qed.

Lemma body_fields_here : exists f0 f1,
  lo_fields_offsets (layout_of ls) !! length before = Some f0 /\
  lo_fields_offsets (layout_of ls) !! S (length before) = Some f1 /\
  f1 = f0 + blen (fields_cell l) /\
  slice (body_of ls) (lo_fields_start (layout_of ls) + f0) (lo_fields_start (layout_of ls) + f1) =
    Some (fields_cell l).
Proof.
  cbn [lo_fields_offsets lo_fields_start layout_of].
  assert (map fields_cell ls = map fields_cell before ++ fields_cell l :: map fields_cell after)
    as Hmap by (unfold ls; by rewrite map_app).
  rewrite Hmap.
  destruct (offsets_lookup 0 (map fields_cell before) (fields_cell l) (map fields_cell after))
    as [H1' H2'].
  rewrite length_map in H1', H2'. do 2 eexists. split_and!; [exact H1'|exact H2'|done|].
  rewrite <- Hmap. eapply (slice_offset _ _ _ _ _ []). unfold body_of.
  rewrite <- Hmap, app_nil_r. assoc.
Qed.

Lemma decode_line_body_of meta filter :
  line_ok l -> encodable l ->
  decode_line (body_of ls) meta filter (layout_of ls) (length before) =
  Ok (if filter_matches filter (ll_ts l) (ll_level l)
      then Some (decoded (wrap 32 (bm_first_line_index meta + wrap 32 (Z.of_nat (length before)))) l)
      else None).
Proof.
  intros Hok Henc. unfold decode_line. cbn [lo_ts layout_of].
  rewrite (map_here (fun l => ts_nanos (ll_ts l))). cbn [index ok_or result_bind].
  rewrite ts_roundtrip by apply Hok. rewrite body_level_here. cbn [index ok_or result_bind].
  rewrite level_u8_roundtrip.
  destruct (filter_matches filter (ll_ts l) (ll_level l)); [|done]. cbn [negb].
  rewrite body_stream_here. cbn [index ok_or result_bind]. rewrite stream_u8_roundtrip.
  destruct body_msg_here as (m0 & m1 & -> & -> & Hmsg). cbn [index ok_or result_bind].
  rewrite Hmsg. cbn [index ok_or result_bind].
  unfold msg_cell. rewrite from_utf8_lossy_encode by apply Hok.
  destruct body_fields_here as (f0 & f1 & -> & -> & -> & Hslice). cbn [index ok_or result_bind].
  unfold decoded.
  destruct (fields_cell_read l Hok Henc) as [[Hz ->]|(Hpos & v & -> & Hv)].
  - rewrite Hz. rewrite (proj2 (Z.eqb_eq _ _)) by lia. done.
  - rewrite (proj2 (Z.eqb_neq _ _)) by lia. rewrite Hslice. cbn [index ok_or result_bind].
    by rewrite Hv.
Qed.
End OneLine.

Lemma decode_lines_body_of before after meta filter :
  Forall line_ok after -> Forall encodable after ->
  decode_lines (body_of (before ++ after)) meta filter (layout_of (before ++ after))
    (length before) (length after) =
  Ok (expected_lines (bm_first_line_index meta) filter (length before) after).
Proof.
  intros Hok. revert before. induction Hok as [|l after Hl Hok IH]; intros before Henc; [done|].
  apply Forall_cons_1 in Henc as [Hle Henc]. cbn [decode_lines length expected_lines].
  rewrite decode_line_body_of by done. cbn [result_bind].
  specialize (IH (before ++ [l]) Henc). rewrite <- app_assoc, length_app, Nat.add_1_r in IH.
  simpl in IH. rewrite IH. cbn [result_bind]. by destruct (filter_matches _ _ _).
Qed.

Lemma decode_body_of ls meta filter :
  Forall line_ok ls -> Forall encodable ls -> columns_fit ls ->
  Z.of_nat (length ls) < 2 ^ 32 ->
  decode_body (body_of ls) meta filter =
  Ok (expected_lines (bm_first_line_index meta) filter 0 ls).
Proof.
  intros Hok Henc Hfit Hn. destruct (body_of_bounds ls Hfit Hn) as [Hge Hlt].
  unfold decode_body. destruct (Z.ltb_spec (blen (body_of ls)) 4); [lia|].
  assert (slice (body_of ls) 0 4 = Some (to_le_bytes 4 (Z.of_nat (length ls)))) as ->
    by (by apply (slice_at [])).
  cbn [index ok_or result_bind]. rewrite from_to_le_bytes by (unfold fits; simpl; lia).
  destruct (Z.ltb_spec (blen (body_of ls)) (Z.of_nat (length ls))); [lia|].
  rewrite Nat2Z.id, decode_layout_body_of by done. cbn [result_bind].
  by apply (decode_lines_body_of []).
Qed.

(** C28: A block written by [CurrentBlock::push] calls and compressed decodes to
    exactly the pushed lines the filter accepts, in order, with their chunk-wide
    line indices. *)
Theorem decode_block_roundtrip ls b compressed meta filter :
  result_fold block_push ls block_new = Ok b ->
  Forall line_ok ls -> columns_fit ls -> Z.of_nat (length ls) < 2 ^ 32 ->
  zstd_encode_all (block_serialize b) 3 = Some compressed ->
  decode_block compressed meta filter =
  Ok (expected_lines (bm_first_line_index meta) filter 0 ls).
Proof.
  intros Hp Hok Hfit Hn Hz. unfold decode_block. rewrite (zstd_roundtrip _ _ _ Hz).
  rewrite (block_serialize_holds ls) by (done || by apply pushes_hold).
  apply decode_body_of; try done. by eapply pushes_encodable.
Qed.

(** ** The reader has no panic *)

Definition no_panic {A} (m : res A) : Prop := m <> Err Panic.

Lemma no_panic_bind {A B} (m : res A) (k : A -> res B) :
  no_panic m -> (forall a, m = Ok a -> no_panic (k a)) -> no_panic (result_bind m k).
Proof. unfold no_panic. destruct m; simpl; [by auto|congruence]. Qed.

Lemma no_panic_index {A B} (o : option A) (k : A -> res B) :
  is_Some o -> (forall a, o = Some a -> no_panic (k a)) ->
  no_panic (result_bind (index o) k).
Proof. intros [a ->] Hk. by apply Hk. Qed.

Lemma get_varint_loop_spec fuel buf cursor v shift :
  shift = 7 * (10 - Z.of_nat fuel) -> (0 < fuel <= 10)%nat -> 0 <= v ->
  no_panic (get_varint_loop fuel buf cursor v shift) /\
  forall u c, get_varint_loop fuel buf cursor v shift = Ok (u, c) ->
    0 <= u /\ cursor < c <= blen buf.
Proof.
  unfold no_panic. revert cursor v shift.
  induction fuel as [|fuel IH]; intros cursor v shift Hs Hf Hv; [lia|].
  cbn [get_varint_loop]. destruct (byte_at buf cursor) as [b|] eqn:Hb; [|done].
  apply byte_at_lt in Hb. set (v' := Z.lor v _).
  assert (0 <= v') as Hv'.
  { apply Z.lor_nonneg. split; [done|]. apply (wrap_fits 64). lia. }
  destruct (Z.land b 128 =? 0).
  { split; [done|]. intros ?? [= <- <-]. lia. }
  destruct (Z.ltb_spec 63 (shift + 7)); [done|].
  destruct (IH (cursor + 1) v' (shift + 7)) as [Hn Hok]; [lia..|].
  split; [done|]. intros u c Hc. apply Hok in Hc. lia.
Qed.

Lemma get_varint_no_panic buf cursor : no_panic (get_varint buf cursor).
Proof. apply get_varint_loop_spec; lia. Qed.

Lemma get_varint_Ok buf cursor v c :
  get_varint buf cursor = Ok (v, c) -> 0 <= v /\ cursor < c <= blen buf.
Proof. apply get_varint_loop_spec; lia. Qed.

Lemma span_end_no_panic buf start len : no_panic (span_end buf start len).
Proof. unfold no_panic, span_end, require_len. by repeat case_match. Qed.

Lemma span_end_Ok buf start len e :
  span_end buf start len = Ok e -> e = start + len /\ e <= blen buf.
Proof.
  unfold span_end, require_len. destruct (Z.leb_spec (2 ^ 64) (start + len)); [done|].
  destruct (Z.ltb_spec (blen buf) (start + len)); simpl; [done|]. intros [= <-]. done.
Qed.

Lemma decode_ts_loop_no_panic buf cursor n prev : no_panic (decode_ts_loop buf cursor n prev).
Proof.
  revert cursor prev. induction n as [|n IH]; intros cursor prev; [done|]. simpl.
  apply no_panic_bind; [apply get_varint_no_panic|]. intros [d c] _.
  apply no_panic_bind; [apply IH|]. by intros [].
Qed.

Lemma decode_ts_loop_Ok buf cursor n prev ts c :
  decode_ts_loop buf cursor n prev = Ok (ts, c) -> length ts = n /\ cursor <= c.
Proof.
  revert cursor prev ts c. induction n as [|n IH]; intros cursor prev ts c; simpl.
  { intros [= <- <-]. split; [done|lia]. }
  intros Hd. inv_ok. destruct r as [d c1]. apply get_varint_Ok in Hr.
  inv_ok. destruct r as [ts' c2]. apply IH in Hr0. simplify_eq/=. split; [f_equal; tauto|lia].
Qed.

(** Offsets that never decrease, from [low] on. *)
Fixpoint nondecreasing (low : Z) (l : list Z) : Prop :=
  match l with
  | [] => True
  | x :: l' => low <= x /\ nondecreasing x l'
  end.

Lemma nondecreasing_lookup low l (i j : nat) a b :
  nondecreasing low l -> l !! i = Some a -> l !! j = Some b -> (i <= j)%nat -> low <= a <= b.
Proof.
  revert low i j a. induction l as [|x l IH]; intros low i j a Hl Hi Hj Hij; [done|].
  destruct Hl as [Hx Hl]. destruct i as [|i], j as [|j]; simplify_eq/=; [lia| |lia|].
  - destruct l as [|y l]; [done|]. pose proof (IH a 0%nat j y Hl eq_refl Hj). lia.
  - pose proof (IH x i j a Hl Hi Hj). lia.
Qed.

Lemma length_prefix_sums_no_panic buf cursor n : no_panic (length_prefix_sums buf cursor n).
Proof.
  unfold length_prefix_sums. apply no_panic_bind; [|by intros []].
  generalize 0. revert cursor. induction n as [|n IH]; intros cursor total; [done|]. simpl.
  apply no_panic_bind; [apply get_varint_no_panic|]. intros [len c] _. case_match; [|done].
  apply no_panic_bind; [apply IH|]. by intros [].
Qed.

Lemma length_prefix_sums_Ok buf cursor n offs c :
  length_prefix_sums buf cursor n = Ok (offs, c) ->
  length offs = S n /\ nondecreasing 0 offs /\ cursor <= c.
Proof.
  unfold length_prefix_sums. intros Hl. inv_ok. destruct r as [sums c']. simplify_eq/=.
  assert (forall n cursor total sums c, length_prefix_sums_loop buf cursor n total = Ok (sums, c) ->
    length sums = n /\ nondecreasing total sums /\ cursor <= c) as Hgen.
  { clear. intros n. induction n as [|n IH]; intros cursor total sums c; simpl.
    { intros [= <- <-]. split_and!; [done..|lia]. }
    intros Hl. inv_ok. destruct r as [len c1]. apply get_varint_Ok in Hr.
    destruct ((total + len <? 2 ^ 64) && _); [|done]. inv_ok. destruct r as [sums' c2].
    apply IH in Hr0 as (Hlen & Hmono & Hc). simplify_eq/=. split_and!; [done|lia|done|lia]. }
  apply Hgen in Hr as (<- & Hm & Hc). done.
Qed.

(** What [decode_layout] establishes before the output loop indexes the body. *)
Record layout_ok (body : list Z) (n : nat) (lo : layout) : Prop := {
  loc_ts_len : length (lo_ts lo) = n;
  loc_level : 0 <= lo_level_start lo /\ lo_level_start lo + Z.of_nat n <= blen body;
  loc_stream : 0 <= lo_stream_start lo /\ lo_stream_start lo + Z.of_nat n <= blen body;
  loc_msg : 0 <= lo_msg_start lo /\ length (lo_msg_offsets lo) = S n /\
    nondecreasing 0 (lo_msg_offsets lo) /\
    forall t, lo_msg_offsets lo !! n = Some t -> lo_msg_start lo + t <= blen body;
  loc_fields_cols : 0 <= lo_fields_start lo /\ length (lo_fields_offsets lo) = S n /\
    nondecreasing 0 (lo_fields_offsets lo) /\
    forall t, lo_fields_offsets lo !! n = Some t -> lo_fields_start lo + t <= blen body
}.

Lemma decode_layout_no_panic body n : no_panic (decode_layout body n).
Proof.
  unfold decode_layout.
  apply no_panic_bind; [apply decode_ts_loop_no_panic|]. intros [ts c] _.
  apply no_panic_bind; [apply span_end_no_panic|]. intros level_end _.
  apply no_panic_bind; [apply span_end_no_panic|]. intros stream_end _.
  apply no_panic_bind; [apply length_prefix_sums_no_panic|]. intros [mo c1] Hm.
  apply length_prefix_sums_Ok in Hm as (Hlm & _ & _).
  apply no_panic_index; [apply lookup_lt_is_Some; lia|]. intros mt _.
  apply no_panic_bind; [apply span_end_no_panic|]. intros msg_end _.
  apply no_panic_bind; [apply length_prefix_sums_no_panic|]. intros [fo c2] Hf.
  apply length_prefix_sums_Ok in Hf as (Hlf & _ & _).
  apply no_panic_index; [apply lookup_lt_is_Some; lia|]. intros ft _.
  apply no_panic_bind; [apply span_end_no_panic|]. done.
Qed.

Lemma decode_layout_Ok body n lo : decode_layout body n = Ok lo -> layout_ok body n lo.
Proof.
  unfold decode_layout. intros Hd.
  apply result_bind_Ok in Hd as ([ts c] & Hts & Hd). apply decode_ts_loop_Ok in Hts as [Hlen Hc].
  apply result_bind_Ok in Hd as (le & Hle & Hd). apply span_end_Ok in Hle as [-> Hle].
  apply result_bind_Ok in Hd as (se & Hse & Hd). apply span_end_Ok in Hse as [-> Hse].
  apply result_bind_Ok in Hd as ([mo c1] & Hm & Hd).
  apply length_prefix_sums_Ok in Hm as (Hlm & Hmm & Hcm).
  apply result_bind_Ok in Hd as (mt & Hmt & Hd). destruct (mo !! n) eqn:Hmo; simplify_eq/=.
  apply result_bind_Ok in Hd as (me & Hme & Hd). apply span_end_Ok in Hme as [-> Hme].
  apply result_bind_Ok in Hd as ([fo c2] & Hf & Hd).
  apply length_prefix_sums_Ok in Hf as (Hlf & Hmf & Hcf).
  apply result_bind_Ok in Hd as (ft & Hft & Hd). destruct (fo !! length ts) eqn:Hfo; simplify_eq/=.
  apply result_bind_Ok in Hd as (fe & Hfe & Hd). apply span_end_Ok in Hfe as [-> Hfe].
  simplify_eq/=. pose proof (nondecreasing_lookup 0 mo _ _ _ _ Hmm Hmo Hmo (le_n _)).
  split; simpl; split_and?; try done; try lia; intros t Ht; simplify_eq/=; lia.
Qed.

Lemma decode_line_no_panic body meta filter lo n i :
  layout_ok body n lo -> (i < n)%nat -> no_panic (decode_line body meta filter lo i).
Proof.
  intros Hlo Hi. destruct Hlo as [Hts [Hl0 Hl1] [Hs0 Hs1] (Hm0 & Hml & Hmm & Hm1)
    (Hf0 & Hfl & Hfm & Hf1)].
  assert (forall offs start, 0 <= start -> length offs = S n -> nondecreasing 0 offs ->
    (forall t, offs !! n = Some t -> start + t <= blen body) ->
    forall a b, offs !! i = Some a -> offs !! S i = Some b ->
    is_Some (slice body (start + a) (start + b))) as Hslice.
  { intros offs start H0' Hlen Hmono Hend a b Ha Hb.
    destruct (lookup_lt_is_Some_2 offs n) as [t Ht]; [lia|]. specialize (Hend t Ht).
    pose proof (nondecreasing_lookup _ _ _ _ _ _ Hmono Ha Hb ltac:(lia)).
    pose proof (nondecreasing_lookup _ _ _ _ _ _ Hmono Hb Ht ltac:(lia)).
    destruct (slice_is_Some body (start + a) (start + b)) as (x & Hx & _); [lia..|by exists x]. }
  unfold decode_line.
  apply no_panic_index; [apply lookup_lt_is_Some; lia|]. intros nanos _.
  apply no_panic_index; [apply byte_at_is_Some; lia|]. intros lb _. case_match; [done|].
  apply no_panic_index; [apply byte_at_is_Some; lia|]. intros sb _.
  apply no_panic_index; [apply lookup_lt_is_Some; lia|]. intros m0 Hi0.
  apply no_panic_index; [apply lookup_lt_is_Some; lia|]. intros m1 Hi1.
  apply no_panic_index; [by apply (Hslice (lo_msg_offsets lo))|]. intros msg _.
  apply no_panic_index; [apply lookup_lt_is_Some; lia|]. intros f0 Hj0.
  apply no_panic_index; [apply lookup_lt_is_Some; lia|]. intros f1 Hj1.
  apply no_panic_bind; [|done]. case_match; [done|].
  apply no_panic_index; [by apply (Hslice (lo_fields_offsets lo))|]. intros bytes _. by case_match.
Qed.

(** [decode_block] never panics, whatever bytes, index entry and filter it is
    given: every corrupt body is refused with an error value. *)
Theorem decode_block_never_panics compressed meta filter :
  decode_block compressed meta filter <> Err Panic.
Proof.
  unfold decode_block. destruct (zstd_decode_all compressed) as [body|]; [|done].
  unfold decode_body. destruct (Z.ltb_spec (blen body) 4); [done|].
  apply no_panic_index.
  { destruct (slice_is_Some body 0 4) as (x & Hx & _); [lia..|by exists x]. }
  intros head _. case_match; [done|].
  apply no_panic_bind; [apply decode_layout_no_panic|]. intros lo Hlo%decode_layout_Ok.
  remember (Z.to_nat (from_le_bytes head)) as n eqn:Hn. clear Hn.
  assert (forall k i, (i + k <= n)%nat -> no_panic (decode_lines body meta filter lo i k)) as Hk.
  { induction k as [|k IH]; intros i Hik; [done|]. simpl.
    apply no_panic_bind; [eapply decode_line_no_panic; [done|lia]|]. intros line _.
    apply no_panic_bind; [apply IH; lia|]. done. }
  apply Hk. lia.
Qed.
End Codec.

(** ** A concrete instance: instants as nanoseconds, stored frames, raw JSON *)

Definition nanos_chrono : Chrono := {|
  DateTime := Z;
  dt_leb := Z.leb;
  timestamp_nanos_opt t := if bool_decide (sfits 64 t) then Some t else None;
  timestamp_millis t := t / 10 ^ 6;
  timestamp_opt secs nanos := Some (secs * 10 ^ 9 + nanos);
  utc_now := 0
|}.

Lemma nanos_chrono_laws : ChronoLaws nanos_chrono.
Proof.
  split; simpl.
  - intros a b. destruct (Z.leb_spec a b), (Z.leb_spec b a); auto; lia.
  - intros a b c. rewrite !Z.leb_le. lia.
  - intros t n. case_bool_decide; naive_solver.
  - intros t n. case_bool_decide; [|done]. intros [= ->]. f_equal.
    pose proof (Z.div_mod n (10 ^ 9) ltac:(lia)). lia.
Qed.

Definition stored_zstd : Zstd := {|
  zstd_encode_all b _ := Some b; zstd_decode_all b := Some b |}.

Lemma stored_zstd_laws : ZstdLaws stored_zstd.
Proof. split. simpl. intros ? _ ? [= <-]. done. Qed.

Definition raw_json : Json := {|
  Value := list Z;
  json_to_vec v := Some (123 :: v);
  json_from_slice b := match b with [] => None | _ :: v => Some v end
|}.

Lemma raw_json_laws : JsonLaws raw_json.
Proof. split. simpl. intros ?? [= <-]. done. Qed.

Definition sample_line (ts : Z) (level : LogLevel) (msg : list Z) (fields : option (list Z))
    : @LogLine nanos_chrono raw_json := {|
  ll_ts := ts : @DateTime nanos_chrono; ll_stream := Stderr; ll_level := level; ll_msg := msg;
  ll_fields := fields : option (@Value raw_json);
  ll_container_id := "c"; ll_service := "web"; ll_env := "1"; ll_project_id := 1;
  ll_external_service_id := None; ll_deploy_id := None; ll_node_id := None;
  ll_node_name := None |}.

Definition sample_lines : list (@LogLine nanos_chrono raw_json) :=
  [sample_line 1700000000000000000 Warn [104; 233] (Some [7]);
   sample_line 1699999999999999990 Error [] None].

Lemma sample_lines_ok : Forall line_ok sample_lines.
Proof.
  repeat apply Forall_cons_2; [..|constructor]; split; simpl;
    try (by eexists); try (intros ?? [= <-] [= <-]; done); try done;
    repeat constructor; unfold is_scalar; lia.
Qed.

Definition sample_meta : @BlockMeta nanos_chrono := {|
  bm_offset := 0; bm_len := 0; bm_uncompressed_len := 0;
  bm_first_ts := (0 : @DateTime nanos_chrono); bm_last_ts := (0 : @DateTime nanos_chrono);
  bm_line_count := 2; bm_first_line_index := 40; bm_level_mask := 24;
  bm_level_counts := [0; 0; 0; 1; 1] |}.

Definition sample_block : @CurrentBlock nanos_chrono :=
  match result_fold (@block_push nanos_chrono raw_json) sample_lines block_new with
  | Ok b => b
  | Err _ => block_new
  end.

Lemma decode_block_roundtrip_witness :
  result_fold (@block_push nanos_chrono raw_json) sample_lines block_new = Ok sample_block /\
  @decode_block nanos_chrono stored_zstd raw_json (block_serialize sample_block) sample_meta
    {| bf_start := None; bf_end := None; bf_level_mask := 16 |} =
  Ok [decoded 41 (sample_line 1699999999999999990 Error [] None)].
Proof.
  assert (result_fold (@block_push nanos_chrono raw_json) sample_lines block_new =
    Ok sample_block) as Hp by reflexivity.
  split; [exact Hp|].
  refine (decode_block_roundtrip (H0 := nanos_chrono_laws) (H2 := stored_zstd_laws)
       (H4 := raw_json_laws) sample_lines _ _ sample_meta _ Hp sample_lines_ok _ _ _).
  - split; vm_compute; reflexivity.
  - vm_compute. reflexivity.
  - reflexivity.
Defined.
