(* ===== verification/Bloom.v ===== *)
(** * The bloom filter over message tokens and 3-grams

    [crates/temps-log-aggregator/src/chunk/bloom.rs], whole file.  The hash
    [xxh3_64_with_seed] is another crate's ([Xxh3]); the Unicode tables behind
    [char::is_alphanumeric] and [str::to_lowercase] are data ([Unicode]), their use by
    the standard library is written out.  A [HashSet] is iterated in an order the
    source does not fix, so [build] takes the order as an argument. *)

From S2P Require Import Prelude Bytes Utf8 ChunkBlock.
Local Open Scope Z_scope.

(** [xxhash_rust::xxh3::xxh3_64_with_seed]. *)
Class Xxh3 := {
  xxh3_64_with_seed : list Z -> Z -> Z;
  xxh3_nonneg bytes seed : 0 <= xxh3_64_with_seed bytes seed
}.

Definition SIGMA : Z := 0x3A3.

(** The tables: [char::is_alphanumeric], the lowercase mapping of one character, and
    the properties [Cased] and [Case_Ignorable] of the final-sigma rule. *)
Class Unicode := {
  is_alphanumeric : Z -> bool;
  lower_char : Z -> list Z;
  is_cased : Z -> bool;
  is_case_ignorable : Z -> bool
}.

Definition to_ascii_lowercase (b : Z) : Z := if (65 <=? b) && (b <=? 90) then b + 32 else b.

(** What is relied on of the tables: a lowercased character is its own lowercase, only
    letters change, and ASCII is lowercased as ASCII. *)
Class UnicodeLaws `(Unicode) := {
  lower_fixed c d : d ∈ lower_char c -> lower_char d = [d] /\ d <> SIGMA;
  lower_sigma d : d = 0x3C2 \/ d = 0x3C3 -> lower_char d = [d];
  lower_delim c : is_alphanumeric c = false -> lower_char c = [c];
  lower_ascii c : 0 <= c < 128 -> lower_char c = [to_ascii_lowercase c]
}.

(** ** [struct Bloom] *)

Record Bloom := { bl_k : Z; bl_n_bits : Z; bl_bits : list Z }.

Definition BLOOM_VERSION : Z := 1.
Definition HEADER_LEN : Z := 12.
Definition MIN_BITS : Z := 1024.
Definition K : Z := 7.
Definition TOKEN_SEED : Z := 0.
Definition GRAM_SEED : Z := 1.

Definition div_ceil (a b : Z) : Z := (a + b - 1) / b.

(** [Bloom::new]. *)
Definition bloom_new (n_bits k : Z) : Bloom :=
  {| bl_k := k; bl_n_bits := n_bits;
     bl_bits := replicate (Z.to_nat (div_ceil n_bits 8)) 0 |}.

Section Bloom.
Context `{Xxh3}.

(** [Bloom::bit_indices]; [% 0] panics. *)
Definition bit_indices (b : Bloom) (entry : Z) : res (list Z) :=
  let bytes := to_le_bytes 8 entry in
  if (bl_n_bits b =? 0) && (0 <? bl_k b) then Err Panic
  else Ok (map (fun i => xxh3_64_with_seed bytes i mod bl_n_bits b) (seqZ 0 (bl_k b))).

(** [Bloom::set], [Bloom::is_set]: both index the bit array. *)
Definition bloom_set (b : Bloom) (idx : Z) : res Bloom :=
  let? old := index (byte_at (bl_bits b) (idx / 8)) in
  Ok {| bl_k := bl_k b; bl_n_bits := bl_n_bits b;
        bl_bits := <[Z.to_nat (idx / 8) := Z.lor old (Z.shiftl 1 (idx mod 8))]> (bl_bits b) |}.

Definition is_set (b : Bloom) (idx : Z) : res bool :=
  let? byte := index (byte_at (bl_bits b) (idx / 8)) in
  Ok (Z.land (Z.shiftr byte (idx mod 8)) 1 =? 1).

(** [Bloom::insert]. *)
Definition bloom_insert (b : Bloom) (entry : Z) : res Bloom :=
  let? indices := bit_indices b entry in
  result_fold bloom_set indices b.

(** [Iterator::all] with a predicate that may panic. *)
Fixpoint all_ok {A} (p : A -> res bool) (l : list A) : res bool :=
  match l with
  | [] => Ok true
  | x :: l' => let? ok := p x in if ok then all_ok p l' else Ok false
  end.

(** [Bloom::contains_all]. *)
Definition contains_all (b : Bloom) (entries : list Z) : res bool :=
  all_ok (fun e => let? indices := bit_indices b e in all_ok (is_set b) indices) entries.

Definition byte_len (b : Bloom) : Z := HEADER_LEN + blen (bl_bits b).

(** [Bloom::to_bytes], [Bloom::from_bytes]. *)
Definition to_bytes (b : Bloom) : list Z :=
  [BLOOM_VERSION; bl_k b] ++ to_le_bytes 2 0 ++ to_le_bytes 8 (bl_n_bits b) ++ bl_bits b.

Definition from_bytes (bytes : list Z) : res Bloom :=
  if blen bytes <? HEADER_LEN then Err (ChunkFormat (BloomTooShort (blen bytes)))
  else
    let? version := index (byte_at bytes 0) in
    if negb (version =? BLOOM_VERSION) then Err (ChunkFormat (BloomVersion version))
    else
      let? k := index (byte_at bytes 1) in
      let? n_bits_bytes := index (slice bytes 4 12) in
      let n_bits := from_le_bytes n_bits_bytes in
      let expected_bit_bytes := div_ceil n_bits 8 in
      let? bits := index (slice bytes HEADER_LEN (blen bytes)) in
      if negb (blen bits =? expected_bit_bytes)
      then Err (ChunkFormat (BloomLengthMismatch (blen bits) expected_bit_bytes))
      else Ok {| bl_k := k; bl_n_bits := n_bits; bl_bits := bits |}.

(** ** Tokens *)

Context `{Unicode}.

(** Whether the nearest character that is not case-ignorable is cased. *)
Fixpoint first_cased (l : list Z) : bool :=
  match l with
  | [] => false
  | c :: l' => if is_case_ignorable c then first_cased l' else is_cased c
  end.

(** [str::to_lowercase]: character by character, a capital sigma becoming the final
    form when a cased letter comes before it and none behind it. *)
Fixpoint to_lowercase_after (before text : list Z) : list Z :=
  match text with
  | [] => []
  | c :: rest =>
      (if c =? SIGMA
       then [if first_cased before && negb (first_cased rest) then 0x3C2 else 0x3C3]
       else lower_char c)
      ++ to_lowercase_after (c :: before) rest
  end.

Definition to_lowercase (text : list Z) : list Z := to_lowercase_after [] text.

(** [str::split(|c| pred)]: the pieces between the characters that satisfy [p]. *)
Fixpoint split_by (p : Z -> bool) (s : list Z) : list (list Z) :=
  match s with
  | [] => [[]]
  | c :: s' =>
      if p c then [] :: split_by p s'
      else match split_by p s' with
           | h :: t => (c :: h) :: t
           | [] => [[c]]
           end
  end.

Definition is_delim (c : Z) : bool := negb (is_alphanumeric c).
Definition token_len_ok (t : list Z) : bool := (2 <=? blen t) && (blen t <=? 64).

(** [fn tokens]. *)
Definition tokens (text : list Z) : list (list Z) :=
  filter (fun t => token_len_ok t = true) (split_by is_delim (to_lowercase text)).

(** [fn char_3grams]. *)
Fixpoint char_3grams (token : list Z) : list (list Z) :=
  match token with
  | a :: ((b :: c :: _) as rest) => [a; b; c] :: char_3grams rest
  | _ => []
  end.

Definition hash_token (token : list Z) : Z := xxh3_64_with_seed (encode_str token) TOKEN_SEED.
Definition hash_gram (gram : list Z) : Z := xxh3_64_with_seed (encode_str gram) GRAM_SEED.

(** ** [struct BloomBuilder] *)

Definition BloomBuilder := gset Z.

Definition builder_new : BloomBuilder := ∅.

(** [BloomBuilder::insert_message]. *)
Definition insert_message (entries : BloomBuilder) (msg : list Z) : BloomBuilder :=
  fold_left (fun es token =>
      fold_left (fun es gram => {[hash_gram gram]} ∪ es) (char_3grams token)
        ({[hash_token token]} ∪ es))
    (tokens msg) entries.

(** [fn size_for]: [9.6f64 * n] rounded to 53 bits, then up to a whole number.  The
    double nearest to 9.6 is [5404319552844595 * 2^-49]. *)
Definition round53 (p : Z) : Z :=
  let e := Z.max 0 (Z.log2 p + 1 - 53) in
  let q := p / 2 ^ e in
  let r := p mod 2 ^ e in
  let up := (2 ^ e <? 2 * r) || ((2 * r =? 2 ^ e) && (0 <? e) && Z.odd q) in
  (if up then q + 1 else q) * 2 ^ e.

Definition size_for (n_entries : Z) : Z :=
  let raw_bits := Z.min (2 ^ 64 - 1) (div_ceil (round53 (5404319552844595 * round53 n_entries)) (2 ^ 49)) in
  let rounded := wrap 64 (div_ceil raw_bits 8 * 8) in
  Z.max rounded MIN_BITS.

(** [BloomBuilder::build], the set iterated in the order [order]. *)
Definition build (order : BloomBuilder -> list Z) (entries : BloomBuilder) : res Bloom :=
  let n_bits := size_for (Z.of_nat (size entries)) in
  result_fold bloom_insert (order entries) (bloom_new n_bits K).

(** [fn query_entries]. *)
Definition query_entries (needle : list Z) : list Z :=
  let toks := tokens needle in
  let starts_with_delim := match hd_error needle with Some c => is_delim c | None => false end in
  let ends_with_delim := match list.last needle with Some c => is_delim c | None => false end in
  let last_idx := (length toks - 1)%nat in
  mjoin (imap (fun idx token =>
      let grams := map hash_gram (char_3grams token) in
      let is_first := (idx =? 0)%nat in
      let is_last := (idx =? last_idx)%nat in
      let interior := (negb is_first || starts_with_delim) && (negb is_last || ends_with_delim) in
      grams ++ if interior then [hash_token token] else [])
    toks).

(** ** Membership: no false negatives of the bit array *)

(** A filter whose bit array covers its indices. *)
Definition bloom_wf (b : Bloom) : Prop :=
  0 < bl_n_bits b /\ blen (bl_bits b) = div_ceil (bl_n_bits b) 8.

Lemma bit_test byte i : 0 <= i -> (Z.land (Z.shiftr byte i) 1 =? 1) = Z.testbit byte i.
Proof.
  intros Hi. rewrite Z.testbit_odd. change 1 with (Z.ones 1) at 1.
  rewrite land_mask by lia. change (2 ^ 1) with 2. rewrite Zmod_odd.
  by destruct (Z.odd _).
Qed.

(** The bit an index names. *)
Definition bit (b : Bloom) (idx : Z) : bool :=
  Z.testbit (default 0 (byte_at (bl_bits b) (idx / 8))) (idx mod 8).

Definition idx_ok (b : Bloom) (idx : Z) : Prop := 0 <= idx < bl_n_bits b.

Lemma idx_byte b idx : bloom_wf b -> idx_ok b idx ->
  exists x, byte_at (bl_bits b) (idx / 8) = Some x.
Proof.
  intros [Hn Hl] [H0' Hi]. apply byte_at_is_Some; [apply Z.div_pos; lia|].
  rewrite Hl. unfold div_ceil. zlia.
Qed.

Lemma is_set_bit b idx : bloom_wf b -> idx_ok b idx -> is_set b idx = Ok (bit b idx).
Proof.
  intros Hwf Hi. unfold is_set, bit. destruct (idx_byte b idx Hwf Hi) as [x Hx].
  rewrite Hx. simpl. f_equal. apply bit_test. apply Z.mod_pos_bound. lia.
Qed.

Lemma bloom_set_bit b idx : bloom_wf b -> idx_ok b idx ->
  exists b', bloom_set b idx = Ok b' /\ bloom_wf b' /\
    bl_n_bits b' = bl_n_bits b /\ bl_k b' = bl_k b /\ bit b' idx = true /\
    forall j, bit b j = true -> bit b' j = true.
Proof.
  intros Hwf Hi. unfold bloom_set. destruct (idx_byte b idx Hwf Hi) as [x Hx].
  rewrite Hx. simpl. eexists; split; [done|]. destruct Hwf as [Hn Hl].
  assert (0 <= idx mod 8) as Hm by (apply Z.mod_pos_bound; lia).
  assert (0 <= idx / 8) as Hd by (apply Z.div_pos; unfold idx_ok in Hi; lia).
  unfold byte_at in Hx. rewrite bool_decide_eq_true_2 in Hx by done.
  pose proof (lookup_lt_Some _ _ _ Hx) as Hlt.
  split_and!; try done.
  - split; [done|]. unfold blen in *. cbn [bl_bits bl_n_bits]. by rewrite length_insert.
  - unfold bit, byte_at. cbn [bl_bits]. rewrite bool_decide_eq_true_2 by done.
    rewrite list_lookup_insert_eq by done. simpl.
    rewrite Z.lor_spec, Z.shiftl_spec, Z.sub_diag by lia. by rewrite orb_true_r.
  - intros j. unfold bit, byte_at. cbn [bl_bits]. case_bool_decide; [|done].
    destruct (decide (Z.to_nat (j / 8) = Z.to_nat (idx / 8))) as [He|Hne].
    + rewrite He, Hx, list_lookup_insert_eq by done. simpl. rewrite Z.lor_spec.
      intros ->. done.
    + by rewrite list_lookup_insert_ne by done.
Qed.

Lemma bloom_sets b l : bloom_wf b -> Forall (idx_ok b) l ->
  exists b', result_fold bloom_set l b = Ok b' /\ bloom_wf b' /\
    bl_n_bits b' = bl_n_bits b /\ bl_k b' = bl_k b /\
    Forall (fun i => bit b' i = true) l /\ forall j, bit b j = true -> bit b' j = true.
Proof.
  intros Hwf Hl. revert b Hwf Hl. induction l as [|i l IH]; intros b Hwf Hl.
  { exists b. split_and!; done || constructor. }
  apply Forall_cons_1 in Hl as [Hi Hl]. simpl.
  destruct (bloom_set_bit b i Hwf Hi) as (b1 & -> & Hwf1 & Hn1 & Hk1 & Hb1 & Hm1). simpl.
  destruct (IH b1 Hwf1) as (b2 & -> & Hwf2 & Hn2 & Hk2 & Hb2 & Hm2).
  { eapply Forall_impl; [|exact Hl]. unfold idx_ok. by rewrite Hn1. }
  exists b2. split_and!; try done; try congruence; [|by auto].
  apply Forall_cons_2; auto.
Qed.

Definition indices_of (b : Bloom) (entry : Z) : list Z :=
  map (fun i => xxh3_64_with_seed (to_le_bytes 8 entry) i mod bl_n_bits b) (seqZ 0 (bl_k b)).

Lemma bit_indices_wf b entry : bloom_wf b ->
  bit_indices b entry = Ok (indices_of b entry) /\ Forall (idx_ok b) (indices_of b entry).
Proof.
  intros [Hn _]. unfold bit_indices. rewrite (proj2 (Z.eqb_neq _ _)) by lia. split; [done|].
  apply Forall_forall. intros i (j & <- & _)%in_map_iff. apply Z.mod_pos_bound. lia.
Qed.

(** The filter answers "maybe" for an entry. *)
Definition holds_entry (b : Bloom) (e : Z) : Prop :=
  Forall (fun i => bit b i = true) (indices_of b e).

Lemma bloom_insert_spec b e : bloom_wf b ->
  exists b', bloom_insert b e = Ok b' /\ bloom_wf b' /\ bl_n_bits b' = bl_n_bits b /\
    bl_k b' = bl_k b /\ holds_entry b' e /\ forall e', holds_entry b e' -> holds_entry b' e'.
Proof.
  intros Hwf. unfold bloom_insert. destruct (bit_indices_wf b e Hwf) as [-> Hok]. simpl.
  destruct (bloom_sets b _ Hwf Hok) as (b' & -> & Hwf' & Hn & Hk & Hin & Hmono).
  exists b'. unfold holds_entry, indices_of in *. rewrite Hn, Hk. split_and!; try done.
  intros e' He'. eapply Forall_impl; [|exact He']. auto.
Qed.

Lemma bloom_inserts b es : bloom_wf b ->
  exists b', result_fold bloom_insert es b = Ok b' /\ bloom_wf b' /\ bl_k b' = bl_k b /\
    Forall (holds_entry b') es /\ forall e', holds_entry b e' -> holds_entry b' e'.
Proof.
  revert b. induction es as [|e es IH]; intros b Hwf.
  { exists b. split_and!; done || constructor. }
  simpl. destruct (bloom_insert_spec b e Hwf) as (b1 & -> & Hwf1 & _ & Hk1 & He & Hm1). simpl.
  destruct (IH b1 Hwf1) as (b2 & -> & Hwf2 & Hk2 & Hes & Hm2).
  exists b2. split_and!; try done; try congruence; [|by auto]. apply Forall_cons_2; auto.
Qed.

Lemma all_ok_true {A} (p : A -> res bool) l :
  Forall (fun x => p x = Ok true) l -> all_ok p l = Ok true.
Proof. induction 1 as [|x l Hx Hl IH]; simpl; [done|]. by rewrite Hx. Qed.

Lemma contains_all_holds b es :
  bloom_wf b -> Forall (holds_entry b) es -> contains_all b es = Ok true.
Proof.
  intros Hwf Hes. apply all_ok_true. eapply Forall_impl; [|exact Hes]. intros e He.
  destruct (bit_indices_wf b e Hwf) as [-> Hok]. simpl. apply all_ok_true.
  unfold holds_entry in He. revert He Hok. generalize (indices_of b e). intros l He Hok.
  induction l as [|i l IH]; [constructor|].
  apply Forall_cons_1 in He as [Hi He]. apply Forall_cons_1 in Hok as [Ho Hok].
  apply Forall_cons_2; [|by apply IH]. by rewrite is_set_bit, Hi.
Qed.

Lemma all_ok_total {A} (p : A -> res bool) l :
  Forall (fun x => exists b, p x = Ok b) l -> exists b, all_ok p l = Ok b.
Proof.
  induction 1 as [|x l [b Hx] Hl [b' IH]]; simpl; [eauto|]. rewrite Hx. simpl.
  destruct b; eauto.
Qed.

Lemma contains_all_total b es : bloom_wf b -> exists r, contains_all b es = Ok r.
Proof.
  intros Hwf. apply all_ok_total, Forall_forall. intros e _.
  destruct (bit_indices_wf b e Hwf) as [-> Hok]. simpl. apply all_ok_total.
  eapply Forall_impl; [|exact Hok]. intros i Hi. rewrite is_set_bit by done. eauto.
Qed.

Lemma div_ceil_nonneg a : 0 <= a -> 0 <= div_ceil a 8.
Proof. intros. unfold div_ceil. apply Z.div_pos; lia. Qed.

Lemma bloom_new_wf n k : 0 < n -> bloom_wf (bloom_new n k).
Proof.
  intros Hn. split; [done|]. simpl. unfold blen. rewrite length_replicate.
  apply Z2Nat.id. apply div_ceil_nonneg. lia.
Qed.

Lemma size_for_min n : MIN_BITS <= size_for n.
Proof. unfold size_for. lia. Qed.

Lemma build_holds order entries :
  (forall es e, e ∈ order es <-> e ∈ es) ->
  exists b, build order entries = Ok b /\ bloom_wf b /\ bl_k b = K /\
    forall e, e ∈ entries -> holds_entry b e.
Proof.
  intros Hord. unfold build.
  destruct (bloom_inserts (bloom_new (size_for (Z.of_nat (size entries))) K) (order entries))
    as (b & Hb & Hwf & Hk & Hes & _).
  { apply bloom_new_wf. pose proof (size_for_min (Z.of_nat (size entries))). unfold MIN_BITS in *.
    lia. }
  exists b. split_and!; try done. intros e He. apply Hord in He.
  rewrite Forall_forall in Hes. apply Hes. by apply list_elem_of_In.
Qed.

(** ** Tokens of a text and of a part of it *)

Lemma split_by_cons p s : exists h t, split_by p s = h :: t.
Proof. destruct s as [|c s]; simpl; [eauto|]. case_match; [eauto|]. case_match; eauto. Qed.

Lemma split_by_app p a b : exists l x y r,
  split_by p a = l ++ [x] /\ split_by p b = y :: r /\ split_by p (a ++ b) = l ++ (x ++ y) :: r.
Proof.
  induction a as [|c a IH].
  { destruct (split_by_cons p b) as (h & t & Hb). exists [], [], h, t. done. }
  destruct IH as (l & x & y & r & Ha & Hb & Hab). simpl. destruct (p c).
  { exists ([] :: l), x, y, r. by rewrite Ha, Hab. }
  rewrite Ha, Hab. destruct l as [|h l]; simpl.
  - exists [], (c :: x), y, r. done.
  - exists ((c :: h) :: l), x, y, r. done.
Qed.

(** Text behind a piece can only extend the last one, text before it the first. *)
Lemma split_by_extend_r p n post l1 t l2 :
  split_by p n = l1 ++ t :: l2 ->
  exists y l2', split_by p (n ++ post) = l1 ++ (t ++ y) :: l2' /\ (l2 <> [] -> y = []).
Proof.
  intros Hn. destruct (split_by_app p n post) as (l & x & y & r & Hl & _ & ->).
  rewrite Hn in Hl. destruct l2 as [|z l2] using rev_ind.
  - apply app_inj_tail in Hl as [<- <-]. exists y, r. done.
  - clear IHl2. rewrite app_comm_cons, app_assoc in Hl. apply app_inj_tail in Hl as [<- <-].
    exists [], (l2 ++ (z ++ y) :: r). rewrite <- app_assoc, app_nil_r. done.
Qed.

Lemma split_by_extend_l p pre m l1 t l2 :
  split_by p m = l1 ++ t :: l2 ->
  exists x l1', split_by p (pre ++ m) = l1' ++ (x ++ t) :: l2 /\ (l1 <> [] -> x = []).
Proof.
  intros Hm. destruct (split_by_app p pre m) as (l & x & y & r & _ & Hr & ->).
  rewrite Hm in Hr. destruct l1 as [|z l1]; simplify_eq/=.
  - exists x, l. done.
  - exists [], (l ++ (x ++ y) :: l1). by rewrite <- app_assoc.
Qed.

Lemma split_by_infix p pre n post l1 t l2 :
  split_by p n = l1 ++ t :: l2 ->
  exists x y, x ++ t ++ y ∈ split_by p (pre ++ n ++ post) /\
    (l1 <> [] -> x = []) /\ (l2 <> [] -> y = []).
Proof.
  intros Hn. destruct (split_by_extend_r p n post _ _ _ Hn) as (y & l2' & Hr & Hy).
  destruct (split_by_extend_l p pre _ _ _ _ Hr) as (x & l1' & -> & Hx).
  exists x, y. split_and!; [|done..]. set_solver.
Qed.

Lemma char_3grams_app_r t y g : g ∈ char_3grams t -> g ∈ char_3grams (t ++ y).
Proof.
  induction t as [|a t IH]; [by intros ?%elem_of_nil|].
  destruct t as [|b t]; [by intros ?%elem_of_nil|].
  destruct t as [|c t]; [by intros ?%elem_of_nil|].
  intros [->|Hg]%elem_of_cons; [left|]. apply list_elem_of_further. by apply IH.
Qed.

Lemma char_3grams_app_l x t g : g ∈ char_3grams t -> g ∈ char_3grams (x ++ t).
Proof.
  intros Hg. induction x as [|a x IH]; [done|]. simpl app.
  destruct (x ++ t) as [|b l] eqn:Hl; [by apply elem_of_nil in IH|].
  destruct l as [|c l]; [by apply elem_of_nil in IH|]. by apply list_elem_of_further.
Qed.

(** ** The entries of a message *)

Definition message_entry (msg : list Z) (e : Z) : Prop :=
  exists token, token ∈ tokens msg /\
    (e = hash_token token \/ exists g, g ∈ char_3grams token /\ e = hash_gram g).

Lemma grams_fold grams (es : gset Z) e :
  e ∈ fold_left (fun es gram => {[hash_gram gram]} ∪ es) grams es <->
  e ∈ es \/ exists g, g ∈ grams /\ e = hash_gram g.
Proof.
  revert es. induction grams as [|g grams IH]; intros es; simpl; [set_solver|].
  rewrite IH. set_solver.
Qed.

Lemma insert_message_spec (es : BloomBuilder) msg e :
  e ∈ insert_message es msg <-> e ∈ es \/ message_entry msg e.
Proof.
  unfold insert_message, message_entry. generalize (tokens msg). intros toks. revert es.
  induction toks as [|t toks IH]; intros es; simpl; [set_solver|].
  rewrite IH, grams_fold. set_solver.
Qed.

Lemma insert_messages_spec msgs (es : BloomBuilder) msg e :
  msg ∈ msgs -> message_entry msg e -> e ∈ fold_left insert_message msgs es.
Proof.
  assert (forall msgs (es : BloomBuilder), e ∈ es -> e ∈ fold_left insert_message msgs es) as Hkeep.
  { intros l. induction l as [|m l IH]; intros es' He; simpl; [done|].
    apply IH. apply insert_message_spec. by left. }
  intros Hin Hm. revert es. induction msgs as [|m msgs IH]; [by apply elem_of_nil in Hin|].
  intros es. simpl. apply elem_of_cons in Hin as [<-|Hin]; [|by apply IH].
  apply Hkeep. apply insert_message_spec. by right.
Qed.

(** ** Delimiters survive lowercasing *)

Context `{!UnicodeLaws H0}.

Lemma sigma_alphanumeric : is_alphanumeric SIGMA = true.
Proof.
  destruct (is_alphanumeric SIGMA) eqn:Hs; [done|].
  destruct (lower_fixed SIGMA SIGMA) as [_ []]; [|done].
  rewrite lower_delim by done. set_solver.
Qed.

Lemma lowercase_delim before c rest :
  is_delim c = true -> to_lowercase_after before (c :: rest) = c :: to_lowercase_after (c :: before) rest.
Proof.
  unfold is_delim. rewrite negb_true_iff. intros Hc. simpl.
  destruct (Z.eqb_spec c SIGMA) as [->|]; [by rewrite sigma_alphanumeric in Hc|].
  by rewrite lower_delim.
Qed.

Lemma lowercase_delim_last before s c :
  is_delim c = true -> exists x, to_lowercase_after before (s ++ [c]) = x ++ [c].
Proof.
  intros Hc. revert before. induction s as [|d s IH]; intros before.
  - exists []. simpl app. by rewrite lowercase_delim.
  - simpl. destruct (IH (d :: before)) as [x Hx]. rewrite Hx.
    eexists. rewrite app_assoc. done.
Qed.

Lemma first_piece_empty needle c t l2 :
  hd_error needle = Some c -> is_delim c = true ->
  split_by is_delim (to_lowercase needle) = t :: l2 -> t = [].
Proof.
  destruct needle as [|d needle]; [done|]. intros [= ->] Hc. unfold to_lowercase.
  rewrite lowercase_delim by done. simpl. rewrite Hc. by intros [= <-].
Qed.

Lemma last_piece_empty needle c l1 t :
  list.last needle = Some c -> is_delim c = true ->
  split_by is_delim (to_lowercase needle) = l1 ++ [t] -> t = [].
Proof.
  intros Hl Hc. apply last_Some in Hl as [s ->].
  destruct (lowercase_delim_last [] s c Hc) as [x Hx]. unfold to_lowercase. rewrite Hx.
  destruct (split_by_app is_delim x [c]) as (l & x' & y & r & _ & Hy & ->).
  simpl in Hy. rewrite Hc in Hy. simplify_eq/=.
  change (l ++ [x' ++ []; []]) with (l ++ [x' ++ []] ++ [[]]). rewrite app_assoc.
  by intros [_ <-]%app_inj_tail.
Qed.

(** ** Every required entry is an entry of the message *)

Lemma filter_lookup_split {A} (P : A -> Prop) `{forall x, Decision (P x)} l i t :
  filter P l !! i = Some t ->
  exists l1 l2, l = l1 ++ t :: l2 /\ i = length (filter P l1) /\
    length (filter P l) = (i + 1 + length (filter P l2))%nat /\ P t.
Proof.
  revert i. induction l as [|x l IH]; intros i Hi; [done|]. rewrite filter_cons in Hi.
  destruct (decide (P x)) as [Hx|Hx].
  - destruct i as [|i]; simplify_eq/=.
    + exists [], l. split_and!; [done..| |done]. rewrite filter_cons_True by done. done.
    + destruct (IH i Hi) as (l1 & l2 & -> & -> & Hlen & Ht). exists (x :: l1), l2.
      rewrite !filter_cons_True by done. simpl. rewrite Hlen. split_and!; done || lia.
  - destruct (IH i Hi) as (l1 & l2 & -> & -> & Hlen & Ht). exists (x :: l1), l2.
    rewrite !filter_cons_False by done. done.
Qed.

(** The needle, lowercased, occurs in the lowercased message. *)
Definition occurs (needle msg : list Z) : Prop :=
  exists pre post, to_lowercase msg = pre ++ to_lowercase needle ++ post.

(** No run of alphanumeric characters of the message is longer than 64. *)
Definition tokens_short (msg : list Z) : Prop :=
  Forall (fun t => blen t <= 64) (split_by is_delim (to_lowercase msg)).

Lemma query_entries_sound needle msg e :
  occurs needle msg -> tokens_short msg -> e ∈ query_entries needle -> message_entry msg e.
Proof.
  intros (pre & post & Hocc) Hshort He. unfold query_entries in He.
  apply list_elem_of_join in He as (es & He & Hes).
  apply elem_of_lookup_imap in Hes as (idx & token & -> & Htok). unfold tokens in Htok.
  destruct (filter_lookup_split _ _ _ _ Htok) as (l1 & l2 & Hsplit & Hidx & Hlen & Hok).
  destruct (split_by_infix is_delim pre _ post _ _ _ Hsplit) as (x & y & Hin & Hx & Hy).
  rewrite <- Hocc in Hin.
  assert (2 <= blen token) as Hlen2.
  { unfold token_len_ok in Hok. apply andb_true_iff in Hok as [Hok _]. by apply Z.leb_le in Hok. }
  assert (x ++ token ++ y ∈ tokens msg) as Hbig.
  { unfold tokens. apply list_elem_of_filter. split; [|done].
    unfold tokens_short in Hshort. rewrite Forall_forall in Hshort.
    specialize (Hshort _ (proj1 (list_elem_of_In _ _) Hin)).
    rewrite !blen_app in *. pose proof (blen_nonneg x). pose proof (blen_nonneg y).
    unfold token_len_ok. rewrite !blen_app. apply andb_true_iff. rewrite !Z.leb_le. lia. }
  apply elem_of_app in He as [He|He].
  - apply list_elem_of_fmap in He as (g & -> & Hg). exists (x ++ token ++ y). split; [done|].
    right. exists g. split; [|done]. by apply char_3grams_app_l, char_3grams_app_r.
  - destruct (_ && _) eqn:Hint; [|by apply elem_of_nil in He].
    apply list_elem_of_singleton in He as ->. apply andb_true_iff in Hint as [Hfirst Hlast].
    assert (l1 <> []) as Hl1.
    { intros ->. simpl in Hidx. subst idx. simpl in Hfirst.
      destruct (hd_error needle) as [c|] eqn:Hc; [|done].
      rewrite (first_piece_empty needle c token l2 Hc Hfirst Hsplit) in Hlen2. done. }
    assert (l2 <> []) as Hl2.
    { intros ->. rewrite filter_nil in Hlen. simpl in Hlen.
      unfold tokens in Hlast. rewrite Hlen in Hlast.
      replace (idx =? idx + 1 + 0 - 1)%nat with true in Hlast
        by (symmetry; apply Nat.eqb_eq; lia). simpl in Hlast.
      destruct (list.last needle) as [c|] eqn:Hc; [|done].
      rewrite (last_piece_empty needle c l1 token Hc Hlast Hsplit) in Hlen2. done. }
    rewrite (Hx Hl1), (Hy Hl2), app_nil_r in Hbig. exists token. auto.
Qed.

Lemma built_contains order msgs msg needle b :
  (forall es e, e ∈ order es <-> e ∈ es) ->
  msg ∈ msgs -> occurs needle msg -> tokens_short msg ->
  build order (fold_left insert_message msgs builder_new) = Ok b ->
  contains_all b (query_entries needle) = Ok true.
Proof.
  intros Hord Hin Hocc Hshort Hb.
  destruct (build_holds order (fold_left insert_message msgs builder_new) Hord)
    as (b' & Hb' & Hwf & _ & Hes).
  rewrite Hb in Hb'. injection Hb' as <-. apply contains_all_holds; [done|].
  apply Forall_forall. intros e He%list_elem_of_In. apply Hes.
  eapply insert_messages_spec; [done|]. by eapply query_entries_sound.
Qed.


(** ** Serialization *)

Lemma from_bytes_to_bytes b :
  fits 64 (bl_n_bits b) -> blen (bl_bits b) = div_ceil (bl_n_bits b) 8 ->
  from_bytes (to_bytes b) = Ok b.
Proof.
  intros Hn Hl. unfold from_bytes.
  assert (blen (to_bytes b) = HEADER_LEN + blen (bl_bits b)) as Hlen.
  { unfold to_bytes. rewrite !blen_app, !blen_to_le_bytes. unfold HEADER_LEN.
    change (blen [BLOOM_VERSION; bl_k b]) with 2. lia. }
  rewrite Hlen. pose proof (blen_nonneg (bl_bits b)).
  destruct (Z.ltb_spec (HEADER_LEN + blen (bl_bits b)) HEADER_LEN); [lia|].
  change (byte_at (to_bytes b) 0) with (Some BLOOM_VERSION).
  change (byte_at (to_bytes b) 1) with (Some (bl_k b)). cbn [index ok_or result_bind negb].
  change (BLOOM_VERSION =? BLOOM_VERSION) with true. cbn [negb].
  assert (slice (to_bytes b) 4 12 = Some (to_le_bytes 8 (bl_n_bits b))) as ->.
  { unfold to_bytes. rewrite app_assoc. by apply slice_at. }
  cbn [index ok_or result_bind]. rewrite from_to_le_bytes by done.
  assert (slice (to_bytes b) HEADER_LEN (HEADER_LEN + blen (bl_bits b)) = Some (bl_bits b)) as ->.
  { unfold to_bytes. rewrite <- (app_nil_r (bl_bits b)) at 1. rewrite !app_assoc.
    rewrite <- app_assoc. by apply slice_at. }
  cbn [index ok_or result_bind]. rewrite Hl, Z.eqb_refl. cbn [negb]. by destruct b.
Qed.

(** Deserializing a serialized filter gives the filter back, so a reader asks the
    same questions of the same bits. *)
Theorem bloom_bytes_roundtrip order entries b :
  (forall es e, e ∈ order es <-> e ∈ es) ->
  fits 64 (size_for (Z.of_nat (size entries))) ->
  build order entries = Ok b ->
  from_bytes (to_bytes b) = Ok b.
Proof.
  intros Hord Hfit Hb.
  unfold build in Hb. assert (0 < size_for (Z.of_nat (size entries))) as Hpos.
  { pose proof (size_for_min (Z.of_nat (size entries))). unfold MIN_BITS in *. lia. }
  pose proof (bloom_new_wf _ K Hpos) as Hwf0.
  assert (forall es b0, bloom_wf b0 -> exists b1, result_fold bloom_insert es b0 = Ok b1 /\
    bloom_wf b1 /\ bl_n_bits b1 = bl_n_bits b0) as Hrun.
  { clear. induction es as [|e es IH]; intros b0 Hwf; [by exists b0|]. simpl.
    destruct (bloom_insert_spec b0 e Hwf) as (b1 & -> & Hwf1 & Hn1 & _). simpl.
    destruct (IH b1 Hwf1) as (b2 & -> & Hwf2 & Hn2). exists b2. rewrite Hn2. done. }
  destruct (Hrun (order entries) _ Hwf0) as (b1 & Hb1 & [_ Hl] & Hn).
  rewrite Hb in Hb1. simplify_eq. apply from_bytes_to_bytes; [|done]. by rewrite Hn.
Qed.

(** ** Where the filter misses *)

(** A message whose alphanumeric run is longer than 64 characters leaves no entry
    in the filter, so the filter of such a chunk rules out a needle the message
    contains. *)
Theorem long_token_is_pruned order :
  (forall es e, e ∈ order es <-> e ∈ es) ->
  (forall c, 97 <= c <= 122 -> is_alphanumeric c = true) ->
  let msg := replicate 65 97 in
  let needle := [97; 97; 97] in
  occurs needle msg /\
  exists b, build order (fold_left insert_message [msg] builder_new) = Ok b /\
    contains_all b (query_entries needle) = Ok false.
Proof.
  intros Hord Halpha msg needle.
  assert (is_alphanumeric 97 = true) as Ha by (apply Halpha; lia).
  assert (lower_char 97 = [97]) as Hl by (by rewrite lower_ascii).
  assert (forall n before, to_lowercase_after before (replicate n 97) = replicate n 97) as Hlow.
  { induction n as [|n IH]; intros before; [done|]. simpl. by rewrite Hl, IH. }
  assert (forall n, split_by is_delim (replicate n 97) = [replicate n 97]) as Hsplit.
  { induction n as [|n IH]; [done|]. simpl. unfold is_delim at 1. by rewrite Ha, IH. }
  assert (tokens msg = []) as Htok.
  { unfold tokens, to_lowercase, msg. by rewrite Hlow, Hsplit. }
  split.
  { exists [], (replicate 62 97). unfold to_lowercase, msg, needle.
    change [97; 97; 97] with (replicate 3 97). by rewrite !Hlow. }
  cbn [fold_left]. unfold insert_message. rewrite Htok. cbn [fold_left].
  assert (order builder_new = []) as Hnil.
  { apply elem_of_nil_inv. intros e He%Hord. set_solver. }
  unfold build. rewrite Hnil. eexists. split; [done|].
  unfold query_entries, tokens, to_lowercase, needle.
  change [97; 97; 97] with (replicate 3 97). rewrite Hlow, Hsplit.
  set (w := replicate 3 97).
  assert (filter (fun t => token_len_ok t = true) [w] = [w]) as -> by done. unfold w.
  cbn [imap mjoin list_join char_3grams map app replicate contains_all all_ok].
  replace (size (builder_new : gset Z)) with 0%nat by done.
  change (size_for (Z.of_nat 0)) with 1024.
  destruct (bit_indices_wf (bloom_new 1024 K) (hash_gram [97; 97; 97])) as [-> Hok].
  { by apply bloom_new_wf. }
  cbn [result_bind]. unfold indices_of in *. cbn [bl_k bloom_new bl_n_bits] in *.
  change (seqZ 0 K) with [0; 1; 2; 3; 4; 5; 6] in *. cbn [map all_ok] in *.
  apply Forall_cons_1 in Hok as [Hok _].
  rewrite is_set_bit by (done || by apply bloom_new_wf). unfold bit. cbn [bl_bits bloom_new].
  unfold byte_at. case_bool_decide; [|simpl; by rewrite Z.bits_0].
  destruct (replicate _ 0 !! _) eqn:Hrep; simpl.
  - apply lookup_replicate in Hrep as [-> _]. by rewrite Z.bits_0.
  - by rewrite Z.bits_0.
Qed.
End Bloom.

(** A stored filter that declares zero bits is accepted by [from_bytes], and
    asking it for any entry divides by zero. *)
Theorem zero_bit_filter_panics `{Xxh3} (e : Z) :
  exists b, from_bytes [1; 7; 0; 0; 0; 0; 0; 0; 0; 0; 0; 0] = Ok b /\
    contains_all b [e] = Err Panic.
Proof. eexists. split; [reflexivity|reflexivity]. Qed.

(** ** A concrete instance: ASCII tables and a polynomial hash *)

Definition ascii_alphanumeric (c : Z) : bool :=
  ((48 <=? c) && (c <=? 57)) || ((65 <=? c) && (c <=? 90)) || ((97 <=? c) && (c <=? 122))
  || (c =? SIGMA) || (c =? 0x3C2) || (c =? 0x3C3).

Definition ascii_unicode : Unicode := {|
  is_alphanumeric := ascii_alphanumeric;
  lower_char c := if c =? SIGMA then [0x3C3] else [to_ascii_lowercase c];
  is_cased := ascii_alphanumeric;
  is_case_ignorable _ := false
|}.

Lemma ascii_unicode_laws : UnicodeLaws ascii_unicode.
Proof.
  split; simpl; unfold to_ascii_lowercase, ascii_alphanumeric, SIGMA.
  - intros c d. destruct (Z.eqb_spec c 931).
    { intros ->%list_elem_of_singleton. done. }
    intros Hd%list_elem_of_singleton. subst d.
    destruct (Z.leb_spec 65 c), (Z.leb_spec c 90); cbn [andb] in *;
    repeat match goal with |- context [?a =? ?b] => destruct (Z.eqb_spec a b)
      | |- context [?a <=? ?b] => destruct (Z.leb_spec a b) end; cbn [andb]; try lia;
      split; done || lia.
  - intros d [-> | ->]; done.
  - intros c Hc. destruct (Z.eqb_spec c 931) as [Heq|]; [by rewrite Heq in Hc|].
    destruct ((65 <=? c) && (c <=? 90)) eqn:Hu; [|done].
    by rewrite !orb_true_r in Hc.
  - intros c Hc. destruct (Z.eqb_spec c 931); [lia|done].
Qed.

Definition poly (bytes : list Z) (seed : Z) : Z :=
  fold_left (fun h b => (h * 1099511628211 + b) mod 2 ^ 64) bytes (seed mod 2 ^ 64).

Lemma poly_nonneg bytes seed : 0 <= poly bytes seed.
Proof.
  unfold poly. assert (0 <= seed mod 2 ^ 64) as Hh by (apply Z.mod_pos_bound; lia).
  revert Hh. generalize (seed mod 2 ^ 64). induction bytes as [|b bytes IH]; intros h Hh;
    simpl; [done|]. apply IH, Z.mod_pos_bound. lia.
Qed.

Definition poly_hash : Xxh3 := {| xxh3_64_with_seed := poly; xxh3_nonneg := poly_nonneg |}.

Lemma elements_order (es : gset Z) e : e ∈ elements es <-> e ∈ es.
Proof. apply elem_of_elements. Qed.


Lemma bloom_bytes_roundtrip_witness : exists b,
  @build poly_hash elements {[42]} = Ok b /\ from_bytes (to_bytes b) = Ok b.
Proof.
  destruct (@build_holds poly_hash elements {[42]} elements_order) as (b & Hb & _).
  exists b. split; [exact Hb|].
  apply (@bloom_bytes_roundtrip poly_hash elements {[42]}).
  - apply elements_order.
  - vm_compute. split; [discriminate|reflexivity].
  - exact Hb.
Defined.

Lemma long_token_is_pruned_witness :
  exists b, @build poly_hash elements (fold_left (@insert_message poly_hash ascii_unicode)
      [replicate 65 97] builder_new) = Ok b /\
    @contains_all poly_hash b (@query_entries poly_hash ascii_unicode [97; 97; 97]) = Ok false.
Proof.
  apply (@long_token_is_pruned poly_hash ascii_unicode ascii_unicode_laws elements).
  - apply elements_order.
  - intros c Hc. simpl. unfold ascii_alphanumeric.
    rewrite (proj2 (Z.leb_le 97 c)), (proj2 (Z.leb_le c 122)) by lia.
    by rewrite orb_true_r.
Defined.
