(* ===== verification/ChunkFile.v ===== *)
(** * The chunk object: encoder, footer and trailer

    [crates/temps-log-aggregator/src/chunk/format.rs] ([ChunkEncoder], [encode_trailer],
    [decode_trailer], [decode_footer]) and the footer types of [chunk/mod.rs].  A chunk
    is the zstd frames of its blocks followed by a skippable frame with the labels, the
    block index, the bloom filter and a fixed trailer of 48 bytes.

    The JSON of the two footer sections is serde's ([FooterJson]) and the checksum is
    crc32fast's ([Crc32]). *)

From S2P Require Import Prelude Bytes Utf8 ChunkBlock Bloom.
Local Open Scope Z_scope.

Definition MAGIC : Z := 0x32434C54.
Definition FORMAT_VERSION : Z := 2.
Definition TRAILER_LEN : Z := 48.
Definition SKIPPABLE_MAGIC : Z := 0x184D2A50.
Definition SKIPPABLE_HEADER_LEN : Z := 8.
Definition TARGET_BLOCK_BYTES : Z := 256 * 1024.

(** [struct Trailer]. *)
Record Trailer := {
  t_labels_off : Z;
  t_labels_len : Z;
  t_index_off : Z;
  t_index_len : Z;
  t_bloom_off : Z;
  t_bloom_len : Z;
  t_crc32 : Z;
  t_version : Z
}.

(** [Trailer::footer_offset], [Trailer::footer_len]. *)
Definition footer_offset (t : Trailer) : Z := t_labels_off t.

Definition footer_len (t : Trailer) : Z :=
  wrap 64 (t_bloom_off t + t_bloom_len t + TRAILER_LEN - t_labels_off t).

(** [fn encode_trailer], [fn decode_trailer]. *)
Definition encode_trailer (t : Trailer) : list Z :=
  to_le_bytes 8 (t_labels_off t) ++ to_le_bytes 4 (t_labels_len t)
  ++ to_le_bytes 8 (t_index_off t) ++ to_le_bytes 4 (t_index_len t)
  ++ to_le_bytes 8 (t_bloom_off t) ++ to_le_bytes 4 (t_bloom_len t)
  ++ to_le_bytes 4 (t_crc32 t) ++ to_le_bytes 2 (t_version t)
  ++ to_le_bytes 2 0 ++ to_le_bytes 4 MAGIC.

(** [u64::from_le_bytes(t[a..b])] and the narrower ones. *)
Definition le_field (t : list Z) (a b : Z) : res Z :=
  let? bytes := index (slice t a b) in Ok (from_le_bytes bytes).

Definition decode_trailer (tail : list Z) : res Trailer :=
  if blen tail <? TRAILER_LEN then Err (ChunkFormat (TrailerTooShort (blen tail)))
  else
    let? t := index (slice tail (blen tail - TRAILER_LEN) (blen tail)) in
    let? magic := le_field t 44 48 in
    if negb (magic =? MAGIC) then Err (ChunkFormat (BadMagic magic))
    else
      let? version := le_field t 40 42 in
      if negb (version =? FORMAT_VERSION) then Err (ChunkFormat (BadVersion version))
      else
        let? labels_off := le_field t 0 8 in
        let? labels_len := le_field t 8 12 in
        let? index_off := le_field t 12 20 in
        let? index_len := le_field t 20 24 in
        let? bloom_off := le_field t 24 32 in
        let? bloom_len := le_field t 32 36 in
        let? crc32 := le_field t 36 40 in
        Ok {| t_labels_off := labels_off; t_labels_len := labels_len;
              t_index_off := index_off; t_index_len := index_len;
              t_bloom_off := bloom_off; t_bloom_len := bloom_len;
              t_crc32 := crc32; t_version := version |}.

(** [struct ChunkIdentity]. *)
Record ChunkIdentity := {
  ci_project_id : Z;
  ci_external_service_id : option Z;
  ci_env : string;
  ci_service : string;
  ci_container_id : string;
  ci_deploy_id : option Z;
  ci_node_id : option Z;
  ci_node_name : option string
}.

(** [struct ChunkLabels]. *)
Record ChunkLabels `{Chrono} := {
  cl_project_id : Z;
  cl_external_service_id : option Z;
  cl_env : string;
  cl_service : string;
  cl_container_id : string;
  cl_deploy_id : option Z;
  cl_node_id : option Z;
  cl_node_name : option string;
  cl_started_at : DateTime;
  cl_ended_at : DateTime;
  cl_line_count : Z;
  cl_level_mask : Z;
  cl_level_counts : list Z
}.

(** serde's JSON of the labels and of the block index. *)
Class FooterJson `{Chrono} := {
  labels_to_vec : ChunkLabels -> option (list Z);
  labels_from_slice : list Z -> option ChunkLabels;
  metas_to_vec : list BlockMeta -> option (list Z);
  metas_from_slice : list Z -> option (list BlockMeta)
}.

(** Both derive [Serialize] and [Deserialize] on integers, strings and instants. *)
Class FooterJsonLaws `(FooterJson) := {
  labels_roundtrip l b : labels_to_vec l = Some b -> labels_from_slice b = Some l;
  metas_roundtrip l b : metas_to_vec l = Some b -> metas_from_slice b = Some l
}.

(** [crc32fast::Hasher]: the checksum of the concatenated updates, a [u32]. *)
Class Crc32 := {
  crc32 : list Z -> Z;
  crc32_fits bytes : fits 32 (crc32 bytes)
}.

Section ChunkFile.
Context `{ChronoLaws} `{ZstdLaws} `{JsonLaws} `{!FooterJson} `{Crc32} `{Xxh3} `{Unicode}.

(** The iteration order of the token set. *)
Context (order : BloomBuilder -> list Z).

(** [struct ChunkFooter], [struct EncodedChunk]. *)
Record ChunkFooter := {
  cf_labels : ChunkLabels;
  cf_blocks : list BlockMeta;
  cf_bloom : option Bloom
}.

Record EncodedChunk := {
  ec_bytes : list Z;
  ec_footer : ChunkFooter;
  ec_trailer : Trailer;
  ec_uncompressed_bytes : Z
}.

(** [struct ChunkEncoder]. *)
Record ChunkEncoder := {
  ce_identity : ChunkIdentity;
  ce_body : list Z;
  ce_block_metas : list BlockMeta;
  ce_bloom_builder : BloomBuilder;
  ce_current : CurrentBlock;
  ce_total_lines : Z;
  ce_min_ts : option DateTime;
  ce_max_ts : option DateTime;
  ce_level_mask : Z;
  ce_level_counts : list Z
}.

(** [ChunkEncoder::new]. *)
Definition encoder_new (identity : ChunkIdentity) : ChunkEncoder := {|
  ce_identity := identity;
  ce_body := [];
  ce_block_metas := [];
  ce_bloom_builder := builder_new;
  ce_current := block_new;
  ce_total_lines := 0;
  ce_min_ts := None;
  ce_max_ts := None;
  ce_level_mask := 0;
  ce_level_counts := replicate LEVEL_COUNT 0 |}.

Definition is_empty (b : CurrentBlock) : bool := bool_decide (cb_ts b = []).

(** [ChunkEncoder::seal_current_block]. *)
Definition seal_current_block (e : ChunkEncoder) : res ChunkEncoder :=
  if is_empty (ce_current e) then Ok e
  else
    let first_line_index :=
      match list.last (ce_block_metas e) with
      | Some m => wrap 32 (bm_first_line_index m + bm_line_count m)
      | None => 0
      end in
    let uncompressed := block_serialize (ce_current e) in
    match zstd_encode_all uncompressed 3 with
    | None => Err CompressionFailed
    | Some compressed =>
        let meta := {|
          bm_offset := wrap 64 (blen (ce_body e));
          bm_len := wrap 32 (blen compressed);
          bm_uncompressed_len := wrap 32 (blen uncompressed);
          bm_first_ts := default utc_now (cb_min_ts (ce_current e));
          bm_last_ts := default utc_now (cb_max_ts (ce_current e));
          bm_line_count := wrap 32 (line_count (ce_current e));
          bm_first_line_index := first_line_index;
          bm_level_mask := cb_level_mask (ce_current e);
          bm_level_counts := cb_level_counts (ce_current e) |} in
        Ok {| ce_identity := ce_identity e;
              ce_body := ce_body e ++ compressed;
              ce_block_metas := ce_block_metas e ++ [meta];
              ce_bloom_builder := ce_bloom_builder e;
              ce_current := block_new;
              ce_total_lines := ce_total_lines e;
              ce_min_ts := ce_min_ts e;
              ce_max_ts := ce_max_ts e;
              ce_level_mask := ce_level_mask e;
              ce_level_counts := ce_level_counts e |}
    end.

(** [ChunkEncoder::push]. *)
Definition encoder_push (e : ChunkEncoder) (line : LogLine) : res ChunkEncoder :=
  let bloom_builder := insert_message (ce_bloom_builder e) (ll_msg line) in
  let? current := block_push (ce_current e) line in
  let e' := {|
    ce_identity := ce_identity e;
    ce_body := ce_body e;
    ce_block_metas := ce_block_metas e;
    ce_bloom_builder := bloom_builder;
    ce_current := current;
    ce_total_lines := wrap 32 (ce_total_lines e + 1);
    ce_min_ts := min_with (ce_min_ts e) (ll_ts line);
    ce_max_ts := max_with (ce_max_ts e) (ll_ts line);
    ce_level_mask := Z.lor (ce_level_mask e) (level_bit (ll_level line));
    ce_level_counts := bump (ce_level_counts e) (level_to_u8 (ll_level line)) |} in
  if TARGET_BLOCK_BYTES <=? estimated_bytes current then seal_current_block e'
  else Ok e'.

(** The layout of the object [finish] writes. *)
Definition footer_bytes (labels_bytes index_bytes bloom_bytes : list Z) (t : Trailer) : list Z :=
  labels_bytes ++ index_bytes ++ bloom_bytes ++ encode_trailer t.

(** [ChunkEncoder::finish]. *)
Definition finish (e0 : ChunkEncoder) (with_bloom : bool) : res EncodedChunk :=
  let? e := seal_current_block e0 in
  if ce_total_lines e =? 0 then Err (ChunkFormat EmptyChunk)
  else
    let? started_at := ok_or (ChunkFormat NoMinTimestamp) (ce_min_ts e) in
    let? ended_at := ok_or (ChunkFormat NoMaxTimestamp) (ce_max_ts e) in
    let labels := {|
      cl_project_id := ci_project_id (ce_identity e);
      cl_external_service_id := ci_external_service_id (ce_identity e);
      cl_env := ci_env (ce_identity e);
      cl_service := ci_service (ce_identity e);
      cl_container_id := ci_container_id (ce_identity e);
      cl_deploy_id := ci_deploy_id (ce_identity e);
      cl_node_id := ci_node_id (ce_identity e);
      cl_node_name := ci_node_name (ce_identity e);
      cl_started_at := started_at;
      cl_ended_at := ended_at;
      cl_line_count := ce_total_lines e;
      cl_level_mask := ce_level_mask e;
      cl_level_counts := ce_level_counts e |} in
    let? labels_bytes := ok_or Serialization (labels_to_vec labels) in
    let? index_bytes := ok_or Serialization (metas_to_vec (ce_block_metas e)) in
    let? bloom :=
      if with_bloom then let? b := build order (ce_bloom_builder e) in Ok (Some b)
      else Ok None in
    let bloom_bytes := match bloom with Some b => to_bytes b | None => [] end in
    let crc := crc32 (labels_bytes ++ index_bytes ++ bloom_bytes) in
    let payload_len := blen labels_bytes + blen index_bytes + blen bloom_bytes + TRAILER_LEN in
    if 2 ^ 32 <=? payload_len then Err (ChunkFormat (FooterTooLarge payload_len))
    else
      let labels_off := blen (ce_body e) + SKIPPABLE_HEADER_LEN in
      let labels_len := wrap 32 (blen labels_bytes) in
      let index_off := labels_off + labels_len in
      let index_len := wrap 32 (blen index_bytes) in
      let bloom_off := index_off + index_len in
      let bloom_len := wrap 32 (blen bloom_bytes) in
      let trailer := {|
        t_labels_off := labels_off; t_labels_len := labels_len;
        t_index_off := index_off; t_index_len := index_len;
        t_bloom_off := bloom_off; t_bloom_len := bloom_len;
        t_crc32 := crc; t_version := FORMAT_VERSION |} in
      let bytes := ce_body e
        ++ to_le_bytes 4 SKIPPABLE_MAGIC ++ to_le_bytes 4 payload_len
        ++ footer_bytes labels_bytes index_bytes bloom_bytes trailer in
      Ok {| ec_bytes := bytes;
            ec_footer := {| cf_labels := labels; cf_blocks := ce_block_metas e; cf_bloom := bloom |};
            ec_trailer := trailer;
            ec_uncompressed_bytes := 0 |}.

(** [fn decode_footer]. *)
Definition decode_footer (bytes : list Z) (trailer : Trailer) : res ChunkFooter :=
  if blen bytes <? TRAILER_LEN then Err (ChunkFormat (FooterTooShort (blen bytes)))
  else
    let labels_len := t_labels_len trailer in
    let index_len := t_index_len trailer in
    let bloom_len := t_bloom_len trailer in
    let needed := labels_len + index_len + bloom_len + TRAILER_LEN in
    if blen bytes <? needed then Err (ChunkFormat (FooterSectionsTooShort (blen bytes) needed))
    else
      let? labels_bytes := index (slice bytes 0 labels_len) in
      let? index_bytes := index (slice bytes labels_len (labels_len + index_len)) in
      let? bloom_bytes :=
        index (slice bytes (labels_len + index_len) (labels_len + index_len + bloom_len)) in
      let computed := crc32 (labels_bytes ++ index_bytes ++ bloom_bytes) in
      if negb (computed =? t_crc32 trailer)
      then Err (ChunkFormat (CrcMismatch computed (t_crc32 trailer)))
      else
        let? labels := ok_or Serialization (labels_from_slice labels_bytes) in
        let? blocks := ok_or Serialization (metas_from_slice index_bytes) in
        let? bloom :=
          if bloom_len =? 0 then Ok None
          else let? b := from_bytes bloom_bytes in Ok (Some b) in
        Ok {| cf_labels := labels; cf_blocks := blocks; cf_bloom := bloom |}.

(** ** The trailer *)

Record trailer_fits (t : Trailer) : Prop := {
  tf_labels_off : fits 64 (t_labels_off t);
  tf_labels_len : fits 32 (t_labels_len t);
  tf_index_off : fits 64 (t_index_off t);
  tf_index_len : fits 32 (t_index_len t);
  tf_bloom_off : fits 64 (t_bloom_off t);
  tf_bloom_len : fits 32 (t_bloom_len t);
  tf_crc32 : fits 32 (t_crc32 t);
  tf_version : t_version t = FORMAT_VERSION
}.

Lemma blen_encode_trailer t : blen (encode_trailer t) = TRAILER_LEN.
Proof. unfold encode_trailer. by rewrite !blen_app, !blen_to_le_bytes. Qed.

Lemma le_field_at buf pre n v post a b :
  buf = pre ++ to_le_bytes n v ++ post -> a = blen pre -> b = a + Z.of_nat n ->
  fits (8 * Z.of_nat n) v -> le_field buf a b = Ok v.
Proof.
  intros -> -> -> Hv. unfold le_field.
  rewrite (slice_at pre (to_le_bytes n v) post) by (by rewrite ?blen_to_le_bytes).
  simpl. by rewrite from_to_le_bytes.
Qed.

Ltac le_len := rewrite ?blen_app, ?blen_to_le_bytes; reflexivity.

(** Any read that ends with the trailer decodes it. *)
Lemma decode_trailer_encode pre t :
  trailer_fits t -> decode_trailer (pre ++ encode_trailer t) = Ok t.
Proof.
  intros [Hlo Hll Hio Hil Hbo Hbl Hc Hv]. unfold decode_trailer.
  rewrite blen_app, blen_encode_trailer. pose proof (blen_nonneg pre).
  destruct (Z.ltb_spec (blen pre + TRAILER_LEN) TRAILER_LEN); [lia|].
  replace (blen pre + TRAILER_LEN - TRAILER_LEN) with (blen pre) by lia.
  rewrite <- (app_nil_r (encode_trailer t)) at 1.
  rewrite (slice_at pre (encode_trailer t) []) by (by rewrite ?blen_encode_trailer).
  cbn [index ok_or result_bind].
  set (p1 := to_le_bytes 8 (t_labels_off t)). set (p2 := to_le_bytes 4 (t_labels_len t)).
  set (p3 := to_le_bytes 8 (t_index_off t)). set (p4 := to_le_bytes 4 (t_index_len t)).
  set (p5 := to_le_bytes 8 (t_bloom_off t)). set (p6 := to_le_bytes 4 (t_bloom_len t)).
  set (p7 := to_le_bytes 4 (t_crc32 t)). set (p8 := to_le_bytes 2 (t_version t)).
  rewrite (le_field_at _ (p1 ++ p2 ++ p3 ++ p4 ++ p5 ++ p6 ++ p7 ++ p8 ++ to_le_bytes 2 0) 4
    MAGIC [] 44 48) by (first [done | by (unfold encode_trailer; rewrite app_nil_r, <- !app_assoc)
      | unfold p1, p2, p3, p4, p5, p6, p7, p8; le_len]).
  cbn [result_bind]. change (MAGIC =? MAGIC) with true. cbn [negb].
  rewrite (le_field_at _ (p1 ++ p2 ++ p3 ++ p4 ++ p5 ++ p6 ++ p7) 2 (t_version t) _ 40 42)
    by (first [by (unfold encode_trailer; rewrite <- !app_assoc)
      | unfold p1, p2, p3, p4, p5, p6, p7; le_len | rewrite Hv; done]).
  cbn [result_bind]. rewrite Hv at 1. change (FORMAT_VERSION =? FORMAT_VERSION) with true.
  cbn [negb].
  rewrite (le_field_at _ [] 8 (t_labels_off t) _ 0 8) by done. cbn [result_bind].
  rewrite (le_field_at _ p1 4 (t_labels_len t) _ 8 12)
    by (first [done | unfold p1; le_len]). cbn [result_bind].
  rewrite (le_field_at _ (p1 ++ p2) 8 (t_index_off t) _ 12 20)
    by (first [done | by (unfold encode_trailer; rewrite <- !app_assoc) | unfold p1, p2; le_len]).
  cbn [result_bind].
  rewrite (le_field_at _ (p1 ++ p2 ++ p3) 4 (t_index_len t) _ 20 24)
    by (first [done | by (unfold encode_trailer; rewrite <- !app_assoc)
      | unfold p1, p2, p3; le_len]).
  cbn [result_bind].
  rewrite (le_field_at _ (p1 ++ p2 ++ p3 ++ p4) 8 (t_bloom_off t) _ 24 32)
    by (first [done | by (unfold encode_trailer; rewrite <- !app_assoc)
      | unfold p1, p2, p3, p4; le_len]).
  cbn [result_bind].
  rewrite (le_field_at _ (p1 ++ p2 ++ p3 ++ p4 ++ p5) 4 (t_bloom_len t) _ 32 36)
    by (first [done | by (unfold encode_trailer; rewrite <- !app_assoc)
      | unfold p1, p2, p3, p4, p5; le_len]).
  cbn [result_bind].
  rewrite (le_field_at _ (p1 ++ p2 ++ p3 ++ p4 ++ p5 ++ p6) 4 (t_crc32 t) _ 36 40)
    by (first [done | by (unfold encode_trailer; rewrite <- !app_assoc)
      | unfold p1, p2, p3, p4, p5, p6; le_len]).
  cbn [result_bind]. by destruct t.
Qed.

(** ** Readers of the footer have no panic *)

Lemma le_field_no_panic t a b : 0 <= a -> a <= b -> b <= blen t -> no_panic (le_field t a b).
Proof.
  intros Ha Hab Hb. unfold le_field.
  destruct (slice_is_Some t a b Ha Hab Hb) as (l & -> & _). done.
Qed.

Lemma decode_trailer_no_panic tail : no_panic (decode_trailer tail).
Proof.
  unfold decode_trailer. destruct (Z.ltb_spec (blen tail) TRAILER_LEN); [done|].
  destruct (slice_is_Some tail (blen tail - TRAILER_LEN) (blen tail)) as (t & -> & Hl);
    [unfold TRAILER_LEN in *; lia..|].
  cbn [index ok_or result_bind].
  assert (blen t = 48) as Ht by (unfold TRAILER_LEN in *; lia).
  repeat first
    [ apply no_panic_bind; [apply le_field_no_panic; lia|]; intros ? _
    | case_match; try done ].
  done.
Qed.

Lemma le_field_nonneg t a b v : bytes_ok t -> le_field t a b = Ok v -> 0 <= v.
Proof.
  intros Ht. unfold le_field, slice. case_bool_decide; [|done]. simpl. intros [= <-].
  apply from_le_bytes_fits. by apply Forall_take, Forall_drop.
Qed.

Lemma decode_trailer_Ok tail t :
  bytes_ok tail -> decode_trailer tail = Ok t ->
  0 <= t_labels_len t /\ 0 <= t_index_len t /\ 0 <= t_bloom_len t.
Proof.
  intros Hb. unfold decode_trailer. destruct (blen tail <? TRAILER_LEN); [done|].
  intros Hd. apply result_bind_Ok in Hd as (t0 & Ht0 & Hd).
  assert (bytes_ok t0) as Hok.
  { unfold slice in Ht0. case_bool_decide; simplify_eq/=. by apply Forall_take, Forall_drop. }
  repeat (case_match || (apply result_bind_Ok in Hd as (? & ? & Hd)); try done).
  simplify_eq/=. split_and!; eapply le_field_nonneg; eassumption.
Qed.

Lemma from_bytes_no_panic bytes : no_panic (from_bytes bytes).
Proof.
  unfold from_bytes. destruct (Z.ltb_spec (blen bytes) HEADER_LEN); [done|].
  unfold HEADER_LEN in *.
  apply no_panic_index; [apply byte_at_is_Some; lia|]. intros v _. case_match; [done|].
  apply no_panic_index; [apply byte_at_is_Some; lia|]. intros k _.
  destruct (slice_is_Some bytes 4 12) as (nb & -> & _); [lia..|]. cbn [index ok_or result_bind].
  destruct (slice_is_Some bytes 12 (blen bytes)) as (bits & -> & _); [lia..|].
  cbn [index ok_or result_bind]. by case_match.
Qed.

(** Reading a footer never panics: whatever bytes the object store returns, the
    trailer and the footer decoder answer with a value or an error. *)
Theorem footer_reader_never_panics bytes :
  bytes_ok bytes ->
  (let? t := decode_trailer bytes in decode_footer bytes t) <> Err Panic.
Proof.
  intros Hb. apply no_panic_bind; [apply decode_trailer_no_panic|].
  intros t (Hl & Hi & Hbl)%decode_trailer_Ok; [|done]. unfold decode_footer.
  destruct (Z.ltb_spec (blen bytes) TRAILER_LEN); [done|].
  destruct (Z.ltb_spec (blen bytes)
    (t_labels_len t + t_index_len t + t_bloom_len t + TRAILER_LEN)); [done|].
  unfold TRAILER_LEN in *.
  destruct (slice_is_Some bytes 0 (t_labels_len t)) as (lb & -> & _); [lia..|].
  cbn [index ok_or result_bind].
  destruct (slice_is_Some bytes (t_labels_len t) (t_labels_len t + t_index_len t))
    as (ib & -> & _); [lia..|]. cbn [index ok_or result_bind].
  destruct (slice_is_Some bytes (t_labels_len t + t_index_len t)
    (t_labels_len t + t_index_len t + t_bloom_len t)) as (bb & -> & _); [lia..|].
  cbn [index ok_or result_bind]. case_match; [done|].
  destruct (labels_from_slice lb); [|done]. destruct (metas_from_slice ib); [|done].
  cbn [ok_or result_bind]. apply no_panic_bind; [|done]. case_match; [done|].
  apply no_panic_bind; [apply from_bytes_no_panic|done].
Qed.

(** ** What the encoder has sealed *)

(** The index entry of a block of lines [ls] stored as the frame [c] behind [body]. *)
Record meta_of (body : list Z) (before : nat) (ls : list LogLine) (c : list Z) (m : BlockMeta)
    : Prop := {
  mo_offset : bm_offset m = wrap 64 (blen body);
  mo_len : bm_len m = wrap 32 (blen c);
  mo_first : bm_first_line_index m = wrap 32 (Z.of_nat before);
  mo_count : bm_line_count m = wrap 32 (Z.of_nat (length ls));
  mo_mask : bm_level_mask m = level_mask_of ls;
  mo_min l : l ∈ ls -> dt_leb (bm_first_ts m) (ll_ts l) = true;
  mo_max l : l ∈ ls -> dt_leb (ll_ts l) (bm_last_ts m) = true
}.

(** A line that leaves room in the 32-bit fields of a block for the lines before it, and a block
    that fits them. *)
Definition line_fits (l : LogLine) : Prop := blen (msg_cell l) < 2 ^ 31 /\ blen (fields_cell l) < 2 ^ 31.
Definition block_fits (ls : list LogLine) : Prop := columns_fit ls /\ Z.of_nat (length ls) < 2 ^ 32.

(** The blocks, index entries and frames written so far. *)
Inductive sealed : list (list LogLine) -> list BlockMeta -> list Z -> Prop :=
  | sealed_nil : sealed [] [] []
  | sealed_snoc bs ms body ls m c :
      sealed bs ms body -> ls <> [] -> block_fits ls ->
      zstd_encode_all (body_of ls) 3 = Some c ->
      meta_of body (length (mjoin bs)) ls c m ->
      sealed (bs ++ [ls]) (ms ++ [m]) (body ++ c).

(** The lines [ls] pushed so far, as sealed blocks and the current one. *)
Record encoder_holds (ls : list LogLine) (bs : list (list LogLine)) (cur : list LogLine)
    (e : ChunkEncoder) : Prop := {
  eh_lines : ls = mjoin bs ++ cur;
  eh_sealed : sealed bs (ce_block_metas e) (ce_body e);
  eh_current : block_holds cur (ce_current e);
  eh_room : block_fits cur;
  eh_encodable : Forall encodable ls;
  eh_bloom : ce_bloom_builder e = fold_left insert_message (map ll_msg ls) builder_new;
  eh_total : ce_total_lines e = wrap 32 (Z.of_nat (length ls));
  eh_min : ce_min_ts e = None <-> ls = [];
  eh_max : ce_max_ts e = None <-> ls = []
}.

Lemma length_ts_holds ls b : block_holds ls b -> length (cb_ts b) = length ls.
Proof. intros Hb. by rewrite (bh_ts _ _ Hb), length_map. Qed.

(** The next first index is the number of lines sealed. *)
Lemma sealed_next_index bs ms body :
  sealed bs ms body ->
  match list.last ms with
  | Some m => wrap 32 (bm_first_line_index m + bm_line_count m)
  | None => 0
  end = wrap 32 (Z.of_nat (length (mjoin bs))).
Proof.
  intros Hs. inversion Hs as [|bs' ms' body' ls m c Hs' Hne _ Hz Hm]; subst; [done|].
  rewrite last_snoc, (mo_first _ _ _ _ _ Hm), (mo_count _ _ _ _ _ Hm).
  rewrite join_app, length_app. simpl. rewrite app_nil_r, Nat2Z.inj_add. unfold wrap.
  symmetry. apply Zplus_mod.
Qed.

Lemma block_fits_nil : block_fits [].
Proof. done. Qed.

Lemma seal_holds ls bs cur e e' :
  encoder_holds ls bs cur e -> seal_current_block e = Ok e' -> exists bs', encoder_holds ls bs' [] e'.
Proof.
  intros He Hs. unfold seal_current_block, is_empty in Hs.
  destruct He as [Hls Hse Hcur Hroom Henc Hbl Htot Hmin Hmax].
  pose proof (length_ts_holds _ _ Hcur) as Hlen. pose proof Hroom as [Hfc Hnc].
  case_bool_decide as Hemp.
  { simplify_eq. exists bs. rewrite Hemp in Hlen. destruct cur; [|done]. by split. }
  destruct (zstd_encode_all _ 3) as [c|] eqn:Hz; [|done]. simplify_eq/=.
  exists (bs ++ [cur]). split; simpl; try done.
  - rewrite join_app. simpl. by rewrite !app_nil_r.
  - rewrite (block_serialize_holds cur) in Hz by done. econstructor; try done.
    { intros ->. by destruct (cb_ts _). }
    pose proof (bh_min _ _ Hcur) as Hmi. pose proof (bh_max _ _ Hcur) as Hma.
    split; simpl; try done.
    + by eapply sealed_next_index.
    + unfold line_count, blen. by rewrite Hlen.
    + apply Hcur.
    + destruct (cb_min_ts _); [done|]. subst cur. by intros ??%elem_of_nil.
    + destruct (cb_max_ts _); [done|]. subst cur. by intros ??%elem_of_nil.
Qed.

Lemma wrap_succ a : wrap 32 (wrap 32 a + 1) = wrap 32 (a + 1).
Proof. unfold wrap. by rewrite Zplus_mod_idemp_l. Qed.

(** A block that is not full yet has room for one more line. *)
Lemma room_for_line cur b l :
  block_holds cur b -> estimated_bytes b < TARGET_BLOCK_BYTES -> line_fits l -> block_fits (cur ++ [l]).
Proof.
  intros Hb He [Hm Hf]. unfold estimated_bytes, TARGET_BLOCK_BYTES, line_count in He.
  rewrite (bh_ts _ _ Hb), (bh_msg_bytes _ _ Hb), (bh_fields_bytes _ _ Hb) in He.
  pose proof (blen_nonneg (mjoin (map msg_cell cur))). pose proof (blen_nonneg (mjoin (map fields_cell cur))).
  unfold blen in He at 1 2 3 4 6. rewrite length_map in He. unfold block_fits, columns_fit.
  rewrite !map_app, !join_app, !blen_app, length_app. cbn [map mjoin list_join length]. rewrite !app_nil_r. lia.
Qed.

Lemma push_holds ls bs cur e l e' :
  encoder_holds ls bs cur e -> estimated_bytes (ce_current e) < TARGET_BLOCK_BYTES -> line_fits l ->
  encoder_push e l = Ok e' ->
  exists bs' cur', encoder_holds (ls ++ [l]) bs' cur' e' /\ estimated_bytes (ce_current e') < TARGET_BLOCK_BYTES.
Proof.
  intros He Hsmall Hl Hp. unfold encoder_push in Hp.
  apply result_bind_Ok in Hp as (b & Hb & Hp).
  set (e1 := Build_ChunkEncoder _ _ _ _ b _ _ _ _ _) in Hp.
  pose proof (room_for_line cur _ l (eh_current _ _ _ _ He) Hsmall Hl) as Hroom'.
  assert (encoder_holds (ls ++ [l]) bs (cur ++ [l]) e1) as He1.
  { destruct He as [Hls Hse Hcur Hroom Henc Hbl Htot Hmin Hmax]. split; simpl; try done.
    - by rewrite app_assoc, <- Hls.
    - eapply block_push_holds; [done|apply Hroom'|done].
    - apply Forall_app. split; [done|]. eapply (pushes_encodable [l]). simpl. by rewrite Hb.
    - rewrite map_app, fold_left_app. simpl. by rewrite <- Hbl.
    - rewrite Htot, wrap_succ, length_app. simpl. do 2 f_equal. lia.
    - destruct (min_with_spec (ce_min_ts e) (ll_ts l)) as (? & -> & _).
      split; [done|]. intros Hnil. by destruct ls.
    - destruct (max_with_spec (ce_max_ts e) (ll_ts l)) as (? & -> & _).
      split; [done|]. intros Hnil. by destruct ls. }
  destruct (Z.leb_spec TARGET_BLOCK_BYTES (estimated_bytes b)); [|by simplify_eq; exists bs, (cur ++ [l])].
  destruct (seal_holds _ _ _ _ _ He1 Hp) as [bs' Hbs']. exists bs', []. split; [done|].
  pose proof (eh_current _ _ _ _ Hbs') as Hc. unfold estimated_bytes, line_count.
  rewrite (bh_ts _ _ Hc), (bh_msg_bytes _ _ Hc), (bh_fields_bytes _ _ Hc). done.
Qed.

Lemma pushes_encoder_holds identity ls e :
  result_fold encoder_push ls (encoder_new identity) = Ok e -> Forall line_fits ls ->
  exists bs cur, encoder_holds ls bs cur e.
Proof.
  intros Hf Hfit. cut (exists bs cur, encoder_holds ls bs cur e /\ estimated_bytes (ce_current e) < TARGET_BLOCK_BYTES); [naive_solver|].
  revert e Hf. induction ls as [|l ls IH] using rev_ind; intros e Hf.
  - simplify_eq/=. exists [], []. split; [|done]. split; simpl; try done; constructor.
  - rewrite result_fold_app in Hf. apply result_bind_Ok in Hf as (e0 & Hf0 & Hf).
    simpl in Hf. apply result_bind_Ok in Hf as (e1 & Hp & Hf). simplify_eq/=.
    apply Forall_app in Hfit as [Hfit Hl]. inversion Hl as [|? ? Hl1 _]; subst.
    destruct (IH Hfit e0 Hf0) as (bs & cur & He & Hs). exact (push_holds _ _ _ _ _ _ He Hs Hl1 Hp).
Qed.

(** ** Reading the footer back *)

Lemma footer_bytes_sections lb ib bb t :
  t_labels_len t = blen lb -> t_index_len t = blen ib -> t_bloom_len t = blen bb ->
  let fb := footer_bytes lb ib bb t in
  blen fb = blen lb + blen ib + blen bb + TRAILER_LEN /\
  slice fb 0 (t_labels_len t) = Some lb /\
  slice fb (t_labels_len t) (t_labels_len t + t_index_len t) = Some ib /\
  slice fb (t_labels_len t + t_index_len t) (t_labels_len t + t_index_len t + t_bloom_len t) =
    Some bb.
Proof.
  intros Hl Hi Hb fb. unfold fb, footer_bytes. rewrite Hl, Hi, Hb.
  rewrite !blen_app, blen_encode_trailer. split_and!; [lia| | |].
  - apply (slice_at [] lb); done.
  - by apply slice_at.
  - rewrite (app_assoc lb ib). apply slice_at; by rewrite blen_app.
Qed.

Context `{!FooterJsonLaws _}.

Lemma decode_footer_sections labels blocks bloom lb ib bb t :
  labels_to_vec labels = Some lb -> metas_to_vec blocks = Some ib ->
  bb = match bloom with Some b => to_bytes b | None => [] end ->
  (forall b, bloom = Some b -> from_bytes (to_bytes b) = Ok b) ->
  t_labels_len t = blen lb -> t_index_len t = blen ib -> t_bloom_len t = blen bb ->
  t_crc32 t = crc32 (lb ++ ib ++ bb) ->
  decode_footer (footer_bytes lb ib bb t) t =
  Ok {| cf_labels := labels; cf_blocks := blocks; cf_bloom := bloom |}.
Proof.
  intros Hlb Hib Hbb Hbloom Hll Hil Hbl Hcrc.
  destruct (footer_bytes_sections lb ib bb t Hll Hil Hbl) as (Hlen & Hs1 & Hs2 & Hs3).
  pose proof (blen_nonneg lb). pose proof (blen_nonneg ib). pose proof (blen_nonneg bb).
  unfold decode_footer. rewrite Hlen.
  destruct (Z.ltb_spec (blen lb + blen ib + blen bb + TRAILER_LEN) TRAILER_LEN); [lia|].
  destruct (Z.ltb_spec (blen lb + blen ib + blen bb + TRAILER_LEN)
    (t_labels_len t + t_index_len t + t_bloom_len t + TRAILER_LEN)); [lia|].
  rewrite Hs1, Hs2, Hs3. cbn [index ok_or result_bind].
  rewrite Hcrc, Z.eqb_refl. cbn [negb].
  rewrite (labels_roundtrip _ _ Hlb), (metas_roundtrip _ _ Hib). cbn [ok_or result_bind].
  rewrite Hbl. destruct bloom as [b|]; subst bb; [|done].
  assert (0 < blen (to_bytes b)) as Hpos.
  { unfold to_bytes. simpl. rewrite blen_cons.
    match goal with |- context [blen ?x] => pose proof (blen_nonneg x) end. lia. }
  destruct (Z.eqb_spec (blen (to_bytes b)) 0); [lia|]. by rewrite Hbloom.
Qed.

Lemma build_bytes_roundtrip entries b :
  build order entries = Ok b -> blen (to_bytes b) < 2 ^ 32 ->
  (forall es x, x ∈ order es <-> x ∈ es) -> from_bytes (to_bytes b) = Ok b.
Proof.
  intros Hb Hlen Hord. destruct (build_holds order entries Hord) as (b' & Hb' & [Hn Hl] & _).
  rewrite Hb in Hb'. injection Hb' as <-. apply from_bytes_to_bytes; [|done].
  unfold to_bytes in Hlen. rewrite !blen_app in Hlen. rewrite Hl in Hlen.
  pose proof (blen_nonneg [BLOOM_VERSION; bl_k b]). rewrite !blen_to_le_bytes in Hlen.
  unfold div_ceil in Hlen. unfold fits. split; [lia|]. zlia.
Qed.

(** What [finish] puts into the object. *)
Lemma finish_layout e0 with_bloom chunk :
  (forall es x, x ∈ order es <-> x ∈ es) ->
  finish e0 with_bloom = Ok chunk -> blen (ec_bytes chunk) < 2 ^ 32 ->
  exists e lb ib bb, seal_current_block e0 = Ok e /\
    ec_bytes chunk = (ce_body e ++ to_le_bytes 4 SKIPPABLE_MAGIC
      ++ to_le_bytes 4 (blen lb + blen ib + blen bb + TRAILER_LEN))
      ++ footer_bytes lb ib bb (ec_trailer chunk) /\
    cf_blocks (ec_footer chunk) = ce_block_metas e /\
    cf_bloom (ec_footer chunk) = (if with_bloom then cf_bloom (ec_footer chunk) else None) /\
    (with_bloom = true -> exists b, build order (ce_bloom_builder e) = Ok b /\
       cf_bloom (ec_footer chunk) = Some b) /\
    footer_offset (ec_trailer chunk) = blen (ce_body e) + 8 /\
    footer_len (ec_trailer chunk) = blen (footer_bytes lb ib bb (ec_trailer chunk)) /\
    trailer_fits (ec_trailer chunk) /\
    decode_footer (footer_bytes lb ib bb (ec_trailer chunk)) (ec_trailer chunk) =
      Ok (ec_footer chunk).
Proof.
  intros Hord Hf Hlen. unfold finish in Hf. apply result_bind_Ok in Hf as (e & He & Hf).
  destruct (ce_total_lines e =? 0); [done|].
  apply result_bind_Ok in Hf as (sa & _ & Hf). apply result_bind_Ok in Hf as (ea & _ & Hf).
  apply result_bind_Ok in Hf as (lb & Hlb & Hf). apply result_bind_Ok in Hf as (ib & Hib & Hf).
  apply result_bind_Ok in Hf as (bloom & Hbloom & Hf).
  set (bb := match bloom with Some b => to_bytes b | None => [] end) in Hf.
  destruct (2 ^ 32 <=? _) eqn:Hpay; [done|]. apply Ok_inj in Hf. subst chunk. cbn [ec_bytes ec_trailer ec_footer
    cf_blocks cf_bloom] in *.
  apply ok_or_Ok in Hlb, Hib.
  apply Z.leb_gt in Hpay. unfold TRAILER_LEN, SKIPPABLE_HEADER_LEN in *.
  pose proof (blen_nonneg lb). pose proof (blen_nonneg ib). pose proof (blen_nonneg bb).
  pose proof (blen_nonneg (ce_body e)).
  assert (wrap 32 (blen lb) = blen lb /\ wrap 32 (blen ib) = blen ib /\ wrap 32 (blen bb) = blen bb)
    as (Hwl & Hwi & Hwb) by (split_and!; apply wrap_id; unfold fits; lia).
  rewrite Hwl, Hwi, Hwb in *.
  set (t := Build_Trailer _ _ _ _ _ _ _ _) in *.
  rewrite !blen_app, !blen_to_le_bytes in Hlen. unfold footer_bytes in Hlen.
  rewrite !blen_app, blen_encode_trailer in Hlen. unfold TRAILER_LEN in Hlen.
  exists e, lb, ib, bb. split_and!.
  - done.
  - by rewrite <- !app_assoc.
  - done.
  - destruct with_bloom; [done|]. by simplify_eq.
  - intros ->. apply result_bind_Ok in Hbloom as (b & Hb & Hbl). simplify_eq. eauto.
  - done.
  - unfold footer_len, footer_bytes. rewrite !blen_app, blen_encode_trailer. cbn.
    unfold TRAILER_LEN. rewrite wrap_id; unfold fits; lia.
  - split; cbn [t_labels_off t_labels_len t_index_off t_index_len t_bloom_off t_bloom_len
      t_crc32 t_version t]; 
      try (unfold fits; lia); first [apply crc32_fits | done].
  - apply decode_footer_sections; try done. intros b ->.
    destruct with_bloom; [|done]. apply result_bind_Ok in Hbloom as (b' & Hb & Hbl).
    simplify_eq. eapply build_bytes_roundtrip; [done| |done]. unfold bb in *. lia.
Qed.
End ChunkFile.

(** ** A concrete instance *)

Definition no_footer_json : @FooterJson nanos_chrono := {|
  labels_to_vec _ := None; labels_from_slice _ := None;
  metas_to_vec _ := None; metas_from_slice _ := None |}.

Lemma seven_fits (bytes : list Z) : fits 32 7.
Proof. unfold fits. lia. Qed.

Definition seven_crc : Crc32 := {| crc32 _ := 7; crc32_fits := seven_fits |}.

(** A trailer that declares five label bytes in a buffer that has none. *)
Definition bad_footer : list Z := encode_trailer (Build_Trailer 8 5 13 2 15 0 7 2).

Lemma footer_reader_never_panics_witness :
  (let? t := decode_trailer bad_footer in @decode_footer _ no_footer_json seven_crc bad_footer t)
  <> Err Panic.
Proof.
  apply (@footer_reader_never_panics nanos_chrono no_footer_json seven_crc bad_footer).
  unfold bad_footer, encode_trailer. repeat apply Forall_app_2; apply to_le_bytes_ok.
Defined.
