(* ===== verification/ChunkScan.v ===== *)
(** * Scanning one chunk or one head buffer for a query

    [crates/temps-log-aggregator/src/store/chunk_store.rs] ([LineFilter], [scan_sealed],
    [scan_head], [footer], [record]) with the keys of [store/mod.rs], and [decode_v1] of
    [chunk/format.rs].

    The object store behind [read_range] and [read_whole] is a parameter, and so are
    memchr's searcher ([Memmem]), the JSON of a v1 line and the predicate on extracted
    attributes ([AttrPredicate::matches]). *)

From S2P Require Import Prelude Bytes Utf8 ChunkBlock Bloom ChunkFile.
Local Open Scope Z_scope.

(** [str::contains] on characters, and the same search on bytes. *)
Fixpoint prefixb (p s : list Z) : bool :=
  match p, s with
  | [], _ => true
  | a :: p', b :: s' => (a =? b) && prefixb p' s'
  | _ :: _, [] => false
  end.

Fixpoint infixb (p s : list Z) : bool :=
  prefixb p s || match s with [] => false | _ :: s' => infixb p s' end.

Lemma prefixb_spec p s : prefixb p s = true <-> exists post, s = p ++ post.
Proof.
  revert s. induction p as [|a p IH]; intros s; simpl; [naive_solver|].
  destruct s as [|b s]; [naive_solver|].
  rewrite andb_true_iff, IH, Z.eqb_eq. naive_solver.
Qed.

Lemma infixb_spec p s : infixb p s = true <-> exists pre post, s = pre ++ p ++ post.
Proof.
  induction s as [|c s IH]; simpl; rewrite orb_true_iff, prefixb_spec.
  - split; [intros [[post ->]|]; [by exists [], post|done]|].
    intros (pre & post & Hs). left. exists []. symmetry in Hs.
    apply app_eq_nil in Hs as [_ [-> ->]%app_eq_nil]. done.
  - rewrite IH. split.
    + intros [[post ->]|(pre & post & ->)]; [by exists [], post|by exists (c :: pre), post].
    + intros ([|d pre] & post & Hs); simplify_eq/=; [left|right]; eauto.
Qed.

(** [memchr::memmem::Finder::find]. *)
Class Memmem := {
  memmem_find : list Z -> list Z -> option Z;
  memmem_find_spec hay needle :
    is_Some (memmem_find hay needle) <-> exists pre post, hay = pre ++ needle ++ post
}.

Section Scan.
Context `{ChronoLaws} `{ZstdLaws} `{JsonLaws} `{!FooterJson} `{Crc32} `{Xxh3} `{Unicode}
  `{Memmem}.

(** ** Keys *)

(** [struct LogLineKey], its derived order, [sealed_line_id] and [chunk_position]. *)
Record LogLineKey := {
  k_timestamp : DateTime;
  k_container_id : string;
  k_line_id : Z
}.

Definition LINE_INDEX_BITS : Z := 20.
Definition HEAD_LINE_ID_BASE : Z := Z.shiftr (2 ^ 63 - 1) 1.

Definition chunk_position (k : LogLineKey) : option (Z * Z) :=
  if (HEAD_LINE_ID_BASE <=? k_line_id k) || (k_line_id k <? 0) then None
  else Some (Z.shiftr (k_line_id k) LINE_INDEX_BITS,
             wrap 32 (Z.land (k_line_id k) (Z.shiftl 1 LINE_INDEX_BITS - 1))).

Definition sealed_line_id (chunk_id line_index : Z) : Z :=
  Z.lor (swrap 64 (Z.shiftl chunk_id LINE_INDEX_BITS)) line_index.

Definition dt_eqb (a b : DateTime) : bool := dt_leb a b && dt_leb b a.

Definition key_ltb (a b : LogLineKey) : bool :=
  if dt_eqb (k_timestamp a) (k_timestamp b) then
    match String.compare (k_container_id a) (k_container_id b) with
    | Lt => true
    | Gt => false
    | Eq => k_line_id a <? k_line_id b
    end
  else dt_ltb (k_timestamp a) (k_timestamp b).

(** ** [struct LineFilter] *)

Context {AttrPredicate : Type} (attr_matches : AttrPredicate -> option Value -> bool).
Context (is_whitespace : Z -> bool).

(** The fields of [LogQuery] a compiled filter uses. *)
Record LogQuery := {
  q_text : option (list Z);
  q_start_time : DateTime;
  q_end_time : DateTime;
  q_before : option LogLineKey;
  q_levels : list LogLevel;
  q_limit : Z;
  q_attrs : list AttrPredicate
}.

Record LineFilter := {
  lf_start : DateTime;
  lf_end : DateTime;
  lf_level_mask : Z;
  lf_needle : option (list Z);
  lf_finder : option (list Z);
  lf_needle_entries : list Z;
  lf_before : option LogLineKey;
  lf_limit : nat;
  lf_attrs : list AttrPredicate
}.

(** [str::trim]. *)
Fixpoint trim_start (s : list Z) : list Z :=
  match s with
  | c :: s' => if is_whitespace c then trim_start s' else s
  | [] => []
  end.

Definition trim (s : list Z) : list Z := reverse (trim_start (reverse (trim_start s))).

Definition is_ascii (s : list Z) : bool := forallb (fun c => (0 <=? c) && (c <? 128)) s.

(** [LineFilter::compile]. *)
Definition compile (query : LogQuery) : LineFilter :=
  let needle :=
    match q_text query with
    | Some t => let t := trim t in
                if bool_decide (t = []) then None else Some (to_lowercase t)
    | None => None
    end in
  let needle_entries := match needle with Some n => query_entries n | None => [] end in
  let e := match q_before query with
           | Some b => if dt_leb (q_end_time query) (k_timestamp b)
                       then q_end_time query else k_timestamp b
           | None => q_end_time query
           end in
  let finder := match needle with
                | Some n => if is_ascii n then Some (encode_str n) else None
                | None => None
                end in
  {| lf_start := q_start_time query;
     lf_end := e;
     lf_level_mask := level_mask_for (q_levels query);
     lf_needle := needle;
     lf_finder := finder;
     lf_needle_entries := needle_entries;
     lf_before := q_before query;
     lf_limit := Z.to_nat (Z.max (q_limit query) 1);
     lf_attrs := q_attrs query |}.

(** [LineFilter::attrs_match], [block_filter], [text_matches], [key_allowed]. *)
Definition attrs_match (f : LineFilter) (fields : option Value) : bool :=
  forallb (fun p => attr_matches p fields) (lf_attrs f).

Definition block_filter (f : LineFilter) : BlockFilter :=
  {| bf_start := Some (lf_start f); bf_end := Some (lf_end f); bf_level_mask := lf_level_mask f |}.

Definition text_matches (f : LineFilter) (message : list Z) : bool :=
  match lf_finder f, lf_needle f with
  | _, None => true
  | Some finder, _ =>
      match memmem_find (map to_ascii_lowercase (encode_str message)) finder with
      | Some _ => true
      | None => false
      end
  | None, Some n => infixb n (to_lowercase message)
  end.

Definition key_allowed (f : LineFilter) (key : LogLineKey) : bool :=
  match lf_before f with
  | None => true
  | Some b => key_ltb key b
  end.

(** ** Records *)

(** [struct LogLineRecord], without the context the scan leaves empty. *)
Record LogLineRecord := {
  r_timestamp : DateTime;
  r_project_id : option Z;
  r_external_service_id : option Z;
  r_env : string;
  r_service : string;
  r_level : LogLevel;
  r_stream : LogStream;
  r_container_id : string;
  r_node_id : option Z;
  r_node_name : option string;
  r_deploy_id : option Z;
  r_message : list Z;
  r_fields : option Value;
  r_line_id : Z
}.

(** [ChunkStore::record]. *)
Definition record (labels : ChunkLabels) (line : DecodedLine) (line_id : Z) : LogLineRecord := {|
  r_timestamp := dl_ts line;
  r_project_id := match cl_external_service_id labels with
                  | Some _ => None
                  | None => Some (cl_project_id labels)
                  end;
  r_external_service_id := cl_external_service_id labels;
  r_env := cl_env labels;
  r_service := cl_service labels;
  r_level := dl_level line;
  r_stream := dl_stream line;
  r_container_id := cl_container_id labels;
  r_node_id := cl_node_id labels;
  r_node_name := cl_node_name labels;
  r_deploy_id := cl_deploy_id labels;
  r_message := dl_message line;
  r_fields := dl_fields line;
  r_line_id := line_id |}.

(** The fields of [struct Manifest] a scan reads. *)
Record Manifest := {
  mf_seq : Z;
  mf_labels : ChunkLabels;
  mf_storage_key : string;
  mf_format_version : Z;
  mf_footer_offset : option Z;
  mf_footer_len : option Z
}.

(** [struct ChunkScan]. *)
Record ChunkScan := { cs_matches : list LogLineRecord; cs_bytes : Z }.

(** The errors of a scan: those of the codec, and those of the object store. *)
Inductive ScanError :=
  | ChunkError (e : LogAggregatorError)
  | NoFooterLocation
  | V1Malformed (line_number : Z)
  | ChunkNotFound (storage_key : string)
  | StorageError.

Definition lift {A} (m : res A) : result ScanError A :=
  match m with
  | Ok a => Ok a
  | Err e => Err (ChunkError e)
  end.

(** ** Legacy objects: [fn decode_v1] *)

Context (log_line_from_str : list Z -> option LogLine).

(** [str::lines]: split at line feeds, a carriage return before one dropped, and no
    empty line behind the last one. *)
Definition strip_cr (l : list Z) : list Z :=
  match list.last l with
  | Some c => if c =? 13 then removelast l else l
  | None => l
  end.

Fixpoint split_lines (cur : list Z) (s : list Z) : list (list Z) :=
  match s with
  | [] => match cur with [] => [] | _ => [reverse cur] end
  | c :: s' => if c =? 10 then strip_cr (reverse cur) :: split_lines [] s'
               else split_lines (c :: cur) s'
  end.

Definition str_lines (s : list Z) : list (list Z) := split_lines [] s.

Fixpoint decode_v1_lines (line_number : Z) (lines : list (list Z))
    : result ScanError (list DecodedLine) :=
  match lines with
  | [] => Ok []
  | raw :: rest =>
      if bool_decide (trim raw = []) then decode_v1_lines (line_number + 1) rest
      else
        let? line := ok_or (V1Malformed (line_number + 1)) (log_line_from_str raw) in
        let? out := decode_v1_lines (line_number + 1) rest in
        Ok ({| dl_ts := ll_ts line; dl_level := ll_level line; dl_stream := ll_stream line;
               dl_message := ll_msg line; dl_fields := ll_fields line;
               dl_line_index := wrap 32 line_number |} :: out)
  end.

Definition decode_v1 (compressed : list Z) : result ScanError (list DecodedLine) :=
  match zstd_decode_all compressed with
  | None => Err (ChunkError DecompressionFailed)
  | Some body => decode_v1_lines 0 (str_lines (from_utf8_lossy body))
  end.

(** ** The scan *)

(** [ChunkStore::read_range] and [read_whole]: the cached object store. *)
Context (read_range : string -> Z -> Z -> result ScanError (list Z)).
Context (read_whole : string -> result ScanError (list Z)).

(** [ChunkStore::footer]. *)
Definition footer (m : Manifest) : result ScanError ChunkFooter :=
  match mf_footer_offset m, mf_footer_len m with
  | Some off, Some len =>
      let? bytes := read_range (mf_storage_key m) off (off + len) in
      let? trailer := lift (decode_trailer bytes) in
      lift (decode_footer bytes trailer)
  | _, _ => Err NoFooterLocation
  end.

(** The closure [accept] of [scan_sealed]: the line's id when it is on the page. *)
Definition accept (m : Manifest) (f : LineFilter) (line : DecodedLine) : option Z :=
  if dt_ltb (dl_ts line) (lf_start f) || dt_ltb (lf_end f) (dl_ts line) then None
  else if Z.land (lf_level_mask f) (level_bit (dl_level line)) =? 0 then None
  else
    let line_id := sealed_line_id (mf_seq m) (dl_line_index line) in
    let key := {| k_timestamp := dl_ts line;
                  k_container_id := cl_container_id (mf_labels m);
                  k_line_id := line_id |} in
    if negb (key_allowed f key) || negb (text_matches f (dl_message line))
       || negb (attrs_match f (dl_fields line)) then None
    else Some line_id.

(** The records of the accepted lines. *)
Definition accepted (m : Manifest) (f : LineFilter) (lines : list DecodedLine)
    : list LogLineRecord :=
  omap (fun line => (fun id => record (mf_labels m) line id) <$> accept m f line) lines.

(** The closure [keep_newest]: [v.drain(..v.len() - limit)]. *)
Definition keep_newest {A} (limit : nat) (v : list A) : list A :=
  if (limit <? length v)%nat then drop (length v - limit) v else v.

(** The block loop of [scan_sealed], over the blocks newest first. *)
Fixpoint scan_blocks (m : Manifest) (f : LineFilter) (blocks : list BlockMeta)
    (matches : list LogLineRecord) (bytes : Z) : result ScanError ChunkScan :=
  match blocks with
  | [] => Ok {| cs_matches := matches; cs_bytes := bytes |}
  | meta :: rest =>
      if (lf_limit f <=? length matches)%nat
      then Ok {| cs_matches := matches; cs_bytes := bytes |}
      else if negb (may_match meta (lf_start f) (lf_end f) (lf_level_mask f))
      then scan_blocks m f rest matches bytes
      else
        let? compressed :=
          read_range (mf_storage_key m) (bm_offset meta) (bm_offset meta + bm_len meta) in
        let? lines := lift (decode_block compressed meta (block_filter f)) in
        let block_matches := keep_newest (lf_limit f) (accepted m f lines) in
        scan_blocks m f rest (block_matches ++ matches)
          (wrap 64 (bytes + bm_uncompressed_len meta))
  end.

(** [ChunkStore::scan_sealed]. *)
Definition scan_sealed (m : Manifest) (f : LineFilter) : result ScanError ChunkScan :=
  if mf_format_version m <? 2 then
    let? raw := read_whole (mf_storage_key m) in
    let? lines := decode_v1 raw in
    let bytes := fold_left (fun n l => wrap 64 (n + blen (encode_str (dl_message l)))) lines 0 in
    Ok {| cs_matches := keep_newest (lf_limit f) (accepted m f lines); cs_bytes := bytes |}
  else
    let? ft := footer m in
    let? pruned :=
      if bool_decide (lf_needle_entries f = []) then Ok false
      else match cf_bloom ft with
           | Some bloom => let? all := lift (contains_all bloom (lf_needle_entries f)) in
                           Ok (negb all)
           | None => Ok false
           end in
    if pruned then Ok {| cs_matches := []; cs_bytes := 0 |}
    else
      let? scan := scan_blocks m f (reverse (cf_blocks ft)) [] 0 in
      Ok {| cs_matches := keep_newest (lf_limit f) (cs_matches scan);
            cs_bytes := cs_bytes scan |}.

(** ** Head buffers *)

(** [struct HeadSnapshot] and [HeadSnapshot::iter_rev]. *)
Definition HeadSnapshot := list (list LogLine).

Fixpoint segment_offsets (acc : Z) (segments : HeadSnapshot) : list (list LogLine * Z) :=
  match segments with
  | [] => []
  | s :: rest => (s, acc) :: segment_offsets (acc + Z.of_nat (length s)) rest
  end.

Definition iter_rev (snapshot : HeadSnapshot) : list (Z * LogLine) :=
  flat_map (fun '(segment, offset) =>
      map (fun '(i, l) => (offset + Z.of_nat i, l)) (reverse (imap pair segment)))
    (reverse (segment_offsets 0 snapshot)).

(** [ChunkStore::head_line]. *)
Definition head_line (line : LogLine) (i : Z) : DecodedLine := {|
  dl_ts := ll_ts line; dl_level := ll_level line; dl_stream := ll_stream line;
  dl_message := ll_msg line; dl_fields := ll_fields line; dl_line_index := wrap 32 i |}.

Definition head_line_id (i : Z) : Z := Z.lor HEAD_LINE_ID_BASE i.

(** [ChunkStore::scan_head]. *)
Fixpoint scan_head_loop (labels : ChunkLabels) (f : LineFilter) (lines : list (Z * LogLine))
    (matches : list LogLineRecord) (bytes : Z) : ChunkScan :=
  match lines with
  | [] => {| cs_matches := matches; cs_bytes := bytes |}
  | (i, line) :: rest =>
      if (lf_limit f <=? length matches)%nat
      then {| cs_matches := matches; cs_bytes := bytes |}
      else
        let bytes := wrap 64 (bytes + blen (encode_str (ll_msg line))) in
        if dt_ltb (ll_ts line) (lf_start f) || dt_ltb (lf_end f) (ll_ts line)
        then scan_head_loop labels f rest matches bytes
        else if Z.land (lf_level_mask f) (level_bit (ll_level line)) =? 0
        then scan_head_loop labels f rest matches bytes
        else if negb (text_matches f (ll_msg line)) || negb (attrs_match f (ll_fields line))
        then scan_head_loop labels f rest matches bytes
        else
          let line_id := head_line_id i in
          let key := {| k_timestamp := ll_ts line;
                        k_container_id := cl_container_id labels;
                        k_line_id := line_id |} in
          if negb (key_allowed f key) then scan_head_loop labels f rest matches bytes
          else scan_head_loop labels f rest
                 (matches ++ [record labels (head_line line i) line_id]) bytes
  end.

Definition scan_head (snapshot : HeadSnapshot) (labels : ChunkLabels) (f : LineFilter)
    : ChunkScan :=
  scan_head_loop labels f (iter_rev snapshot) [] 0.

(** ** Lowercasing is idempotent, and ASCII letters keep their place *)

Section Lowercase.
Context `{!UnicodeLaws _}.

Lemma lowercase_fixed before s :
  Forall (fun d => lower_char d = [d] /\ d <> SIGMA) s -> to_lowercase_after before s = s.
Proof.
  intros Hs. revert before. induction Hs as [|d s [Hd Hn] Hs IH]; intros before; [done|].
  simpl. rewrite (proj2 (Z.eqb_neq _ _) Hn), Hd, IH. done.
Qed.

Lemma lowercase_chars before s :
  Forall (fun d => lower_char d = [d] /\ d <> SIGMA) (to_lowercase_after before s).
Proof.
  revert before. induction s as [|c s IH]; intros before; [constructor|]. simpl.
  apply Forall_app. split; [|done].
  destruct (Z.eqb_spec c SIGMA).
  - constructor; [|constructor].
    destruct (first_cased before && negb (first_cased s)); (split; [apply lower_sigma; auto|done]).
  - apply Forall_forall. intros d Hd%list_elem_of_In. by apply (lower_fixed c d).
Qed.

Lemma to_lowercase_idem s : to_lowercase (to_lowercase s) = to_lowercase s.
Proof. apply lowercase_fixed, lowercase_chars. Qed.

Lemma lowercase_app before s rest : exists x,
  to_lowercase_after before (s ++ rest) = x ++ to_lowercase_after (reverse s ++ before) rest.
Proof.
  revert before. induction s as [|c s IH]; intros before; [by exists []|]. simpl.
  destruct (IH (c :: before)) as [x Hx]. rewrite Hx, reverse_cons, <- app_assoc. simpl.
  eexists. by rewrite app_assoc.
Qed.

Definition ascii_char (c : Z) : Prop := 0 <= c < 128.

Lemma lowercase_ascii before s rest :
  Forall ascii_char s ->
  exists y, to_lowercase_after before (s ++ rest) = map to_ascii_lowercase s ++ y.
Proof.
  intros Hs. revert before. induction Hs as [|c s Hc Hs IH]; intros before; [by eexists|].
  simpl. destruct (Z.eqb_spec c SIGMA) as [->|]; [by destruct Hc|].
  destruct (IH (c :: before)) as [y Hy]. rewrite Hy, lower_ascii by done. by exists y.
Qed.
End Lowercase.

(** ** An ASCII run found in the bytes is one of the characters *)

Lemma ascii_lowercase_lt b : to_ascii_lowercase b < 128 -> b < 128.
Proof.
  unfold to_ascii_lowercase. destruct (Z.leb_spec 65 b), (Z.leb_spec b 90); simpl; lia.
Qed.

Lemma encode_char_high c b : is_scalar c -> 128 <= c -> b ∈ encode_char c -> 128 <= b.
Proof.
  unfold is_scalar, encode_char. intros Hs Hc. rewrite (proj2 (Z.ltb_ge _ _)) by lia.
  destruct (c <? 2048); [|destruct (c <? 65536)]; rewrite list_elem_of_In; simpl; intros;
    destruct_or?; subst; try done;
    match goal with
    | |- 128 <= 0x80 + ?x mod 64 => pose proof (Z.mod_pos_bound x 64); lia
    | |- _ => assert (0 <= c / 64 /\ 0 <= c / 4096 /\ 0 <= c / 262144)
        by (split_and!; apply Z.div_pos; lia); lia
    end.
Qed.

Lemma encode_char_ascii c : c < 128 -> encode_char c = [c].
Proof. intros Hc. unfold encode_char. by rewrite (proj2 (Z.ltb_lt _ _)). Qed.

Lemma encode_char_head c : is_scalar c -> exists b bs, encode_char c = b :: bs /\ (b < 128 -> c < 128).
Proof.
  intros Hs. destruct (encode_char c) as [|b bs] eqn:He; [by apply encode_char_nonempty in He|].
  exists b, bs. split; [done|]. intros Hb. destruct (Z.lt_ge_cases c 128) as [|Hc]; [done|].
  assert (128 <= b) by (eapply (encode_char_high c); [done|done|rewrite He; left]). lia.
Qed.

Lemma ascii_prefix_chars s n post :
  is_str s -> Forall ascii_char n ->
  map to_ascii_lowercase (encode_str s) = n ++ post ->
  exists s2 s3, s = s2 ++ s3 /\ Forall ascii_char s2 /\ map to_ascii_lowercase s2 = n.
Proof.
  intros Hs Hn. revert s Hs. induction Hn as [|a n Ha Hn IH]; intros s Hs He.
  { exists [], s. split_and!; [done|constructor|done]. }
  destruct s as [|c s]; [done|]. apply Forall_cons_1 in Hs as [Hc Hs].
  simpl in He. destruct (encode_char_head c Hc) as (b & bs & Hb & Hlt).
  rewrite Hb in He. simpl in He. injection He as Hab He.
  assert (c < 128) as Hc128.
  { apply Hlt, ascii_lowercase_lt. unfold ascii_char in Ha. lia. }
  rewrite encode_char_ascii in Hb by done. injection Hb as -> <-. simpl in He.
  destruct (IH s Hs He) as (s2 & s3 & -> & Hs2 & <-).
  exists (b :: s2), s3. split_and!; [done| |by rewrite <- Hab].
  apply Forall_cons_2; [|done]. unfold ascii_char, is_scalar in *. lia.
Qed.

Lemma ascii_infix_chars s n pre post :
  is_str s -> Forall ascii_char n -> n <> [] ->
  map to_ascii_lowercase (encode_str s) = pre ++ n ++ post ->
  exists s1 s2 s3, s = s1 ++ s2 ++ s3 /\ Forall ascii_char s2 /\ map to_ascii_lowercase s2 = n.
Proof.
  intros Hs Hn Hne. revert pre. induction Hs as [|c s Hc Hs IH]; intros pre He.
  { destruct pre, n; done. }
  destruct pre as [|x pre].
  { destruct (ascii_prefix_chars (c :: s) n post) as (s2 & s3 & Heq & ? & ?);
      [by apply Forall_cons_2|done|done|]. exists [], s2, s3. done. }
  simpl in He. rewrite map_app, app_comm_cons in He.
  apply app_eq_app in He as (k & [[He1 He2]|[He1 He2]]).
  - (* the run would begin inside the bytes of [c] *)
    destruct k as [|k0 k].
    { simpl in He2. destruct (IH []) as (s1 & s2 & s3 & -> & ? & ?); [by rewrite <- He2|].
      exists (c :: s1), s2, s3. done. }
    destruct n as [|a n]; [done|]. simpl in He2. injection He2 as <- _.
    exfalso. apply Forall_cons_1 in Hn as [Ha _].
    destruct (Z.lt_ge_cases c 128) as [Hlt|Hge].
    + rewrite encode_char_ascii in He1 by done. simpl in He1. injection He1 as _ He1.
      by destruct pre.
    + assert (a ∈ map to_ascii_lowercase (encode_char c)) as Hin.
      { rewrite He1. set_solver. }
      apply list_elem_of_In, in_map_iff in Hin as (b & Hb & Hin).
      apply list_elem_of_In, encode_char_high in Hin; [|done..].
      assert (b < 128) by (apply ascii_lowercase_lt; unfold ascii_char in Ha; lia). lia.
  - destruct (IH k) as (s1 & s2 & s3 & -> & ? & ?); [done|]. exists (c :: s1), s2, s3. done.
Qed.

(** ** The newest matches *)

Lemma keep_newest_drop {A} n (v : list A) : keep_newest n v = drop (length v - n) v.
Proof.
  unfold keep_newest. destruct (Nat.ltb_spec n (length v)); [done|].
  by replace (length v - n)%nat with 0%nat by lia.
Qed.

Lemma keep_newest_app_enough {A} n (a b : list A) :
  (n <= length b)%nat -> keep_newest n (a ++ b) = keep_newest n b.
Proof.
  intros Hn. rewrite !keep_newest_drop, length_app, drop_app_ge by lia. f_equal. lia.
Qed.

Lemma keep_newest_app_few {A} n (a b : list A) :
  (length b <= n)%nat -> keep_newest n (a ++ b) = keep_newest (n - length b) a ++ b.
Proof.
  intros Hn. rewrite !keep_newest_drop, length_app.
  destruct (decide (length a + length b <= n)%nat).
  - replace (length a + length b - n)%nat with 0%nat by lia.
    by replace (length a - (n - length b))%nat with 0%nat by lia.
  - rewrite drop_app_le by lia. do 2 f_equal. lia.
Qed.

Lemma keep_newest_idem {A} n k (a : list A) :
  (k <= n)%nat -> keep_newest k (keep_newest n a) = keep_newest k a.
Proof.
  intros Hk. rewrite !keep_newest_drop, length_drop, drop_drop. f_equal. lia.
Qed.

Lemma length_keep_newest {A} n (a : list A) : length (keep_newest n a) = Nat.min n (length a).
Proof. rewrite keep_newest_drop, length_drop. lia. Qed.

(** Dropping old matches early, of the older block or of what is kept, loses nothing. *)
Lemma keep_newest_app {A} n (a b b' : list A) :
  keep_newest n b = keep_newest n b' ->
  keep_newest n (keep_newest n a ++ b) = keep_newest n (a ++ b').
Proof.
  intros Hb. pose proof (f_equal length Hb) as Hl. rewrite !length_keep_newest in Hl.
  destruct (decide (n <= length b)%nat) as [Hge|Hlt].
  - rewrite !keep_newest_app_enough by lia. done.
  - assert (b = b') as <-.
    { rewrite !keep_newest_drop in Hb.
      replace (length b - n)%nat with 0%nat in Hb by lia.
      by replace (length b' - n)%nat with 0%nat in Hb by lia. }
    rewrite !keep_newest_app_few by lia. by rewrite keep_newest_idem by lia.
Qed.

(** ** The lines of a stored chunk *)

Definition no_filter : BlockFilter := {| bf_start := None; bf_end := None; bf_level_mask := 0 |}.

(** The lines of a chunk as a full read decodes them. *)
Definition chunk_lines (ls : list LogLine) : list DecodedLine := expected_lines 0 no_filter 0 ls.

Lemma expected_lines_app first bf i l1 l2 :
  expected_lines first bf i (l1 ++ l2) =
  expected_lines first bf i l1 ++ expected_lines first bf (i + length l1) l2.
Proof.
  revert i. induction l1 as [|l l1 IH]; intros i; simpl; [by rewrite Nat.add_0_r|].
  rewrite IH. replace (S i + length l1)%nat with (i + S (length l1))%nat by lia.
  by case_match.
Qed.

Lemma expected_lines_shift n bf i ls :
  expected_lines (wrap 32 (Z.of_nat n)) bf i ls = expected_lines 0 bf (n + i) ls.
Proof.
  revert i. induction ls as [|l ls IH]; intros i; simpl; [done|].
  rewrite IH, Nat.add_succ_r.
  replace (wrap 32 (wrap 32 (Z.of_nat n) + wrap 32 (Z.of_nat i)))
    with (wrap 32 (wrap 32 (Z.of_nat (n + i)))); [done|].
  unfold wrap. rewrite Nat2Z.inj_add. rewrite <- Zplus_mod. by rewrite Zmod_mod.
Qed.

(** An accepted line passes the block filter, and its block is not skipped. *)
Lemma accept_in_window m f line id :
  accept m f line = Some id ->
  dt_leb (lf_start f) (dl_ts line) = true /\ dt_leb (dl_ts line) (lf_end f) = true /\
  Z.land (lf_level_mask f) (level_bit (dl_level line)) <> 0.
Proof.
  unfold accept. destruct (dt_ltb (dl_ts line) _ || _) eqn:Hw; [done|].
  destruct (Z.eqb_spec (Z.land (lf_level_mask f) (level_bit (dl_level line))) 0); [done|].
  intros _. apply orb_false_iff in Hw as [Hs He]. unfold dt_ltb in *.
  rewrite negb_false_iff in Hs, He. done.
Qed.

Lemma accept_block_filter m f line id :
  accept m f line = Some id -> filter_matches (block_filter f) (dl_ts line) (dl_level line) = true.
Proof.
  intros (Hs & He & Hm)%accept_in_window. unfold filter_matches, block_filter, dt_ltb. simpl.
  rewrite Hs, He. simpl. rewrite (proj2 (Z.eqb_neq _ _) Hm). by rewrite andb_false_r.
Qed.

Lemma accepted_block_filter m f first i ls :
  accepted m f (expected_lines first (block_filter f) i ls) =
  accepted m f (expected_lines first no_filter i ls).
Proof.
  revert i. induction ls as [|l ls IH]; intros i; simpl; [done|].
  destruct (filter_matches (block_filter f) _ _) eqn:Hf; simpl; rewrite IH; [done|].
  destruct (accept m f _) eqn:Ha; [|done]. apply accept_block_filter in Ha. simpl in Ha. congruence.
Qed.

Lemma lor_land_same a b : Z.lor b (Z.land a b) = b.
Proof.
  apply Z.bits_inj'. intros n Hn. rewrite Z.lor_spec, Z.land_spec.
  by destruct (Z.testbit a n), (Z.testbit b n).
Qed.

Lemma level_bit_mask l ls m :
  l ∈ ls -> Z.land m (level_bit (ll_level l)) <> 0 -> Z.land (level_mask_of ls) m <> 0.
Proof.
  intros Hin Hm Hz. apply Hm.
  assert (forall acc, Z.land acc (level_bit (ll_level l)) = level_bit (ll_level l) \/ l ∈ ls ->
    Z.land (fold_left (fun m l => Z.lor m (level_bit (ll_level l))) ls acc) (level_bit (ll_level l))
    = level_bit (ll_level l)) as Hfold.
  { clear. induction ls as [|l' ls IH]; intros acc [Ha|Hin]; simpl; [done|set_solver| |].
    - apply IH. left. rewrite Z.land_lor_distr_l, Ha. apply lor_land_same.
    - apply elem_of_cons in Hin as [->|Hin]; apply IH; [left|by right].
      rewrite Z.land_lor_distr_l, Z.land_diag, Z.lor_comm. apply lor_land_same. }
  specialize (Hfold 0 (or_intror Hin)). unfold level_mask_of in Hz.
  rewrite <- Hfold, Z.land_assoc, (Z.land_comm m), Hz. apply Z.land_0_l.
Qed.

(** ** The scan of a stored chunk is exact *)

Section Stored.
Context (m : Manifest) (f : LineFilter) (object : list Z).
Context (Hread : forall a b x, slice object a b = Some x ->
  read_range (mf_storage_key m) a b = Ok x).
Context (Hobject : blen object < 2 ^ 32).

Lemma accepted_app l1 l2 : accepted m f (l1 ++ l2) = accepted m f l1 ++ accepted m f l2.
Proof. apply omap_app. Qed.

(** A block the index rules out has no line on the page. *)
Lemma skipped_block body before ls c meta i :
  meta_of body before ls c meta ->
  may_match meta (lf_start f) (lf_end f) (lf_level_mask f) = false ->
  accepted m f (expected_lines 0 no_filter i ls) = [].
Proof.
  intros Hm Hno.
  assert (forall l, l ∈ ls -> forall idx, accept m f (decoded idx l) = None) as Hnone.
  { intros l Hl idx. destruct (accept m f (decoded idx l)) as [id|] eqn:Ha; [|done]. exfalso.
    apply accept_in_window in Ha as (Hs & He & Hk). simpl in *.
    unfold may_match in Hno.
    rewrite (dt_le_trans _ _ _ Hs (mo_max _ _ _ _ _ Hm l Hl)) in Hno.
    rewrite (dt_le_trans _ _ _ (mo_min _ _ _ _ _ Hm l Hl) He) in Hno.
    simpl in Hno. apply negb_false_iff, Z.eqb_eq in Hno.
    rewrite (mo_mask _ _ _ _ _ Hm) in Hno. by eapply level_bit_mask in Hno. }
  clear Hm Hno. revert i. induction ls as [|l ls IH]; intros i; [done|]. simpl.
  rewrite Hnone by set_solver. simpl. apply IH. set_solver.
Qed.

Lemma block_read body rest before ls c meta :
  object = (body ++ c) ++ rest -> meta_of body before ls c meta ->
  zstd_encode_all (body_of ls) 3 = Some c ->
  Forall line_ok ls -> Forall encodable ls -> block_fits ls ->
  read_range (mf_storage_key m) (bm_offset meta) (bm_offset meta + bm_len meta) = Ok c /\
  decode_block c meta (block_filter f) =
    Ok (expected_lines 0 (block_filter f) before ls).
Proof.
  intros Hobj Hm Hz Hok Henc [Hfit Hn].
  assert (blen body < 2 ^ 32 /\ blen c < 2 ^ 32) as [Hb Hc].
  { rewrite Hobj, !blen_app in Hobject. pose proof (blen_nonneg body).
    pose proof (blen_nonneg c). pose proof (blen_nonneg rest). lia. }
  split.
  - apply Hread. rewrite (mo_offset _ _ _ _ _ Hm), (mo_len _ _ _ _ _ Hm).
    pose proof (blen_nonneg body). pose proof (blen_nonneg c).
    rewrite !wrap_id by (unfold fits; lia). rewrite Hobj, <- app_assoc. apply slice_app.
  - unfold decode_block. rewrite (zstd_roundtrip _ _ _ Hz), decode_body_of by done.
    rewrite (mo_first _ _ _ _ _ Hm), expected_lines_shift. by rewrite Nat.add_0_r.
Qed.

Lemma scan_blocks_sealed bs ms body :
  sealed bs ms body ->
  Forall line_ok (mjoin bs) -> Forall encodable (mjoin bs) ->
  forall rest M A bytes, object = body ++ rest ->
  keep_newest (lf_limit f) M = keep_newest (lf_limit f) A ->
  exists M' bytes', scan_blocks m f (reverse ms) M bytes = Ok {| cs_matches := M'; cs_bytes := bytes' |} /\
    keep_newest (lf_limit f) M' =
    keep_newest (lf_limit f) (accepted m f (chunk_lines (mjoin bs)) ++ A).
Proof.
  induction 1 as [|bs ms body ls meta c Hs IH Hne Hfit Hz Hm]; intros Hok Henc rest M A bytes
    Hobj HM; [by exists M, bytes|].
  rewrite reverse_snoc. simpl. rewrite join_app in *. simpl in *. rewrite app_nil_r in *.
  apply Forall_app in Hok as [Hok Hok']. apply Forall_app in Henc as [Henc Henc'].
  unfold chunk_lines. rewrite expected_lines_app, accepted_app, <- app_assoc.
  simpl. specialize (IH Hok Henc).
  destruct (Nat.leb_spec (lf_limit f) (length M)) as [Hfull|Hroom].
  { exists M, bytes. split; [done|]. rewrite HM, app_assoc, keep_newest_app_enough; [done|].
    apply (f_equal length) in HM. rewrite !length_keep_newest in HM. lia. }
  destruct (may_match meta _ _ _) eqn:Hmay; simpl.
  - destruct (block_read body rest (length (mjoin bs)) ls c meta) as [-> Hdec]; try done.
    simpl. rewrite Hdec. simpl. rewrite accepted_block_filter.
    eapply (IH (c ++ rest)); [by rewrite Hobj, <- app_assoc|]. by apply keep_newest_app.
  - rewrite (skipped_block _ _ _ _ _ _ Hm Hmay). simpl.
    eapply (IH (c ++ rest)); [by rewrite Hobj, <- app_assoc|done].
Qed.
End Stored.

(** A needle that matches a line occurs in its message. *)
Lemma text_matches_occurs `{!UnicodeLaws _} q msg n :
  is_str msg -> lf_needle (compile q) = Some n -> text_matches (compile q) msg = true ->
  occurs n msg.
Proof.
  intros Hmsg Hn Ht.
  assert (exists t, n = to_lowercase t) as [t Ht'].
  { unfold compile in Hn. simpl in Hn. destruct (q_text q); [|done].
    case_bool_decide; simplify_eq; eauto. }
  unfold occurs. rewrite Ht', to_lowercase_idem, <- Ht'.
  unfold text_matches in Ht. rewrite Hn in Ht.
  assert (lf_finder (compile q) = if is_ascii n then Some (encode_str n) else None) as Hfi.
  { simpl in *. by rewrite Hn. }
  rewrite Hfi in Ht. destruct (is_ascii n) eqn:Hasc; [|by apply infixb_spec in Ht].
  assert (Forall ascii_char n) as Hasc'.
  { apply Forall_forall. intros c Hc. unfold is_ascii in Hasc. rewrite forallb_forall in Hasc.
    specialize (Hasc c Hc). apply andb_true_iff in Hasc. unfold ascii_char.
    rewrite Z.leb_le, Z.ltb_lt in Hasc. done. }
  assert (encode_str n = n) as Henc.
  { clear -Hasc'. induction Hasc' as [|c n Hc Hn IH]; [done|]. simpl.
    rewrite encode_char_ascii by apply Hc. simpl. by rewrite IH. }
  destruct (memmem_find _ _) as [p|] eqn:Hfind; [|done].
  destruct (proj1 (memmem_find_spec _ _) (mk_is_Some _ _ Hfind)) as (pre & post & Hbytes).
  rewrite Henc in Hbytes. destruct (decide (n = [])) as [->|Hne]; [by exists [], (to_lowercase msg)|].
  destruct (ascii_infix_chars msg n pre post Hmsg Hasc' Hne Hbytes) as (s1 & s2 & s3 & -> & Hs2 & <-).
  unfold to_lowercase. destruct (lowercase_app [] s1 (s2 ++ s3)) as [x ->].
  destruct (lowercase_ascii (reverse s1 ++ []) s2 s3 Hs2) as [y ->]. by exists x, y.
Qed.

Section Exact.
Context `{!UnicodeLaws _} `{!FooterJsonLaws _} (order : BloomBuilder -> list Z).

(** The manifest [m] locates the object [finish] wrote for the lines [ls], and the
    object store serves its byte ranges. *)
Record stored (m : Manifest) (ls : list LogLine) (with_bloom : bool) (chunk : EncodedChunk)
    : Prop := {
  st_order es e : e ∈ order es <-> e ∈ es;
  st_written : exists identity,
    (let? e := result_fold encoder_push ls (encoder_new identity) in finish order e with_bloom) =
    Ok chunk;
  st_size : blen (ec_bytes chunk) < 2 ^ 32;
  st_lines : Forall line_ok ls;
  st_fits : Forall line_fits ls;
  st_version : mf_format_version m = 2;
  st_offset : mf_footer_offset m = Some (footer_offset (ec_trailer chunk));
  st_len : mf_footer_len m = Some (footer_len (ec_trailer chunk));
  st_read a b x : slice (ec_bytes chunk) a b = Some x -> read_range (mf_storage_key m) a b = Ok x
}.

(** What reading a stored chunk finds. *)
Lemma stored_footer m ls with_bloom chunk :
  stored m ls with_bloom chunk ->
  footer m = Ok (ec_footer chunk) /\
  exists bs body rest, ls = mjoin bs /\ Forall encodable ls /\
    sealed bs (cf_blocks (ec_footer chunk)) body /\ ec_bytes chunk = body ++ rest /\
    match cf_bloom (ec_footer chunk) with
    | Some b => with_bloom = true /\
        build order (fold_left insert_message (map ll_msg ls) builder_new) = Ok b
    | None => with_bloom = false
    end.
Proof.
  intros [Hord [identity Hw] Hsize Hok Hfit Hver Hoff Hlen Hread].
  apply result_bind_Ok in Hw as (e & Hpush & Hfin).
  destruct (pushes_encoder_holds identity ls e Hpush Hfit) as (bs & cur & Heh).
  destruct (finish_layout order e with_bloom chunk Hord Hfin Hsize)
    as (e' & lb & ib & bb & Hseal & Hbytes & Hblocks & Hnb & Hb & Hfo & Hfl & Htf & Hdf).
  destruct (seal_holds _ _ _ _ _ Heh Hseal) as (bs' & [Hls Hs _ _ Henc Hbb _ _ _]).
  rewrite app_nil_r in Hls. split.
  - unfold footer. rewrite Hoff, Hlen.
    rewrite (Hread _ _ (footer_bytes lb ib bb (ec_trailer chunk))).
    2:{ rewrite Hbytes. rewrite <- (app_nil_r (footer_bytes _ _ _ _)) at 1.
        apply slice_at; rewrite !blen_app, !blen_to_le_bytes; lia. }
    cbn [result_bind].
    replace (decode_trailer (footer_bytes lb ib bb (ec_trailer chunk)))
      with (decode_trailer ((lb ++ ib ++ bb) ++ encode_trailer (ec_trailer chunk)))
      by (unfold footer_bytes; by rewrite <- !app_assoc).
    rewrite decode_trailer_encode by done. cbn [lift result_bind]. by rewrite Hdf.
  - exists bs', (ce_body e'). eexists. rewrite Hblocks, Hbytes, <- app_assoc.
    split_and!; try done. rewrite <- Hbb. destruct with_bloom.
    + destruct (Hb eq_refl) as (b & Hbuild & ->). done.
    + by rewrite Hnb.
Qed.

Lemma accepted_nil m f ls i :
  (forall l id idx, l ∈ ls -> accept m f (decoded idx l) = Some id -> False) ->
  accepted m f (expected_lines 0 no_filter i ls) = [].
Proof.
  revert i. induction ls as [|l ls IH]; intros i Hno; [done|]. simpl.
  destruct (accept m f _) as [id|] eqn:Ha; [exfalso; eapply (Hno l); [left|exact Ha]|].
  simpl. apply IH. intros l' id idx Hl'. apply Hno. by right.
Qed.

Lemma scan_sealed_spec m q ls with_bloom chunk :
  stored m ls with_bloom chunk ->
  (with_bloom = true -> Forall (fun l => tokens_short (ll_msg l)) ls) ->
  exists bytes, scan_sealed m (compile q) =
    Ok {| cs_matches := keep_newest (lf_limit (compile q)) (accepted m (compile q) (chunk_lines ls));
          cs_bytes := bytes |}.
Proof.
  intros Hst Hshort. pose proof Hst as [Hord _ Hsize Hok Hfit Hver _ _ Hread].
  destruct (stored_footer _ _ _ _ Hst) as (Hfooter & bs & body & rest & Hls & Henc & Hs & Hbytes & Hbloom).
  unfold scan_sealed. rewrite Hver. change (2 <? 2) with false. cbv iota.
  rewrite Hfooter. cbn [result_bind]. set (f := compile q).
  assert (exists bytes, (let? scan := scan_blocks m f (reverse (cf_blocks (ec_footer chunk))) [] 0 in
      Ok {| cs_matches := keep_newest (lf_limit f) (cs_matches scan); cs_bytes := cs_bytes scan |}) =
    Ok {| cs_matches := keep_newest (lf_limit f) (accepted m f (chunk_lines ls));
          cs_bytes := bytes |}) as Hscan.
  { rewrite Hls in *.
    destruct (scan_blocks_sealed m f (ec_bytes chunk) Hread Hsize bs _ body Hs Hok Henc
      rest [] [] 0 Hbytes eq_refl) as (M' & bytes' & -> & HM).
    cbn [result_bind cs_matches cs_bytes].
    rewrite app_nil_r in HM. rewrite HM. by eexists. }
  case_bool_decide as Hne; [exact Hscan|].
  destruct (cf_bloom (ec_footer chunk)) as [b|] eqn:Hbl; [|exact Hscan].
  destruct Hbloom as [Hwb Hbuild].
  destruct (build_holds order (fold_left insert_message (map ll_msg ls) builder_new) Hord)
    as (b' & Hb' & Hwf & _).
  rewrite Hbuild in Hb'. injection Hb' as <-.
  destruct (contains_all_total b (lf_needle_entries f) Hwf) as [[] Hc]; rewrite Hc;
    cbn [lift result_bind negb]; [exact Hscan|].
  exists 0. do 2 f_equal. unfold chunk_lines. rewrite accepted_nil; [done|].
  intros l id idx Hl Ha.
  assert (text_matches f (ll_msg l) = true) as Ht.
  { unfold accept in Ha. repeat case_match; try done. simplify_eq.
    match goal with H : _ || _ = false |- _ => apply orb_false_iff in H as [H _];
      apply orb_false_iff in H as [_ H]; by apply negb_false_iff in H end. }
  destruct (lf_needle f) as [n|] eqn:Hneedle; [|by unfold f in *; simpl in *; rewrite Hneedle in Hne].
  assert (lf_needle_entries f = query_entries n) as Hent
    by (unfold f in *; simpl in *; by rewrite Hneedle).
  rewrite Forall_forall in Hok. specialize (Hok l (proj1 (list_elem_of_In _ _) Hl)).
  specialize (Hshort Hwb). rewrite Forall_forall in Hshort.
  specialize (Hshort l (proj1 (list_elem_of_In _ _) Hl)).
  rewrite Hent, (built_contains order (map ll_msg ls) (ll_msg l) n b) in Hc; try done.
  - apply list_elem_of_fmap. eauto.
  - eapply text_matches_occurs; [apply Hok|exact Hneedle|exact Ht].
Qed.

End Exact.

(** ** Head buffers *)

Lemma head_id_base k : 0 <= k < 2 ^ 62 -> head_line_id k = HEAD_LINE_ID_BASE.
Proof.
  intros Hk. unfold head_line_id. change HEAD_LINE_ID_BASE with (Z.ones 62).
  apply Z.bits_inj'. intros n Hn. rewrite Z.lor_spec.
  destruct (Z.lt_ge_cases n 62) as [Hlt|Hge]; [by rewrite Z.ones_spec_low|].
  rewrite Z.ones_spec_high by lia. destruct (Z.eq_dec k 0) as [->|]; [by rewrite Z.bits_0|].
  apply Z.bits_above_log2; [lia|]. apply Z.log2_lt_pow2; [lia|].
  apply Z.lt_le_trans with (2 ^ 62); [lia|]. apply Z.pow_le_mono_r; lia.
Qed.

(** Every line of a head buffer gets the same id: the base of head ids has all
    its low bits set, so or-ing the index into it changes nothing. *)
Theorem head_line_ids_collide i j :
  0 <= i < 2 ^ 62 -> 0 <= j < 2 ^ 62 -> head_line_id i = head_line_id j.
Proof. intros Hi Hj. by rewrite !head_id_base. Qed.

(** What [scan_head] keeps of a line. *)
Definition head_accepted (labels : ChunkLabels) (f : LineFilter) (il : Z * LogLine)
    : option LogLineRecord :=
  let '(i, line) := il in
  let key := {| k_timestamp := ll_ts line; k_container_id := cl_container_id labels;
                k_line_id := head_line_id i |} in
  if dt_leb (lf_start f) (ll_ts line) && dt_leb (ll_ts line) (lf_end f)
     && negb (Z.land (lf_level_mask f) (level_bit (ll_level line)) =? 0)
     && text_matches f (ll_msg line) && attrs_match f (ll_fields line) && key_allowed f key
  then Some (record labels (head_line line i) (head_line_id i)) else None.

Lemma segment_offsets_iter acc (segs : HeadSnapshot) :
  flat_map (fun '(segment, offset) =>
      map (fun '(i, l) => (offset + Z.of_nat i, l)) (reverse (imap pair segment)))
    (reverse (segment_offsets acc segs)) =
  reverse (imap (fun i l => (acc + Z.of_nat i, l)) (mjoin segs)).
Proof.
  revert acc. induction segs as [|s segs IH]; intros acc; [done|]. simpl.
  rewrite reverse_cons, flat_map_app, IH, imap_app, reverse_app. simpl. rewrite app_nil_r. f_equal.
  - f_equal. apply imap_ext. intros i l _. simpl. f_equal. lia.
  - change (map ?g ?l) with (g <$> l). rewrite fmap_reverse, fmap_imap. done.
Qed.

Lemma scan_head_loop_spec labels f lines matches bytes :
  cs_matches (scan_head_loop labels f lines matches bytes) =
  matches ++ take (lf_limit f - length matches) (omap (head_accepted labels f) lines).
Proof.
  revert matches bytes. induction lines as [|[i line] lines IH]; intros matches bytes.
  { simpl. by rewrite take_nil, app_nil_r. }
  cbn [scan_head_loop]. destruct (Nat.leb_spec (lf_limit f) (length matches)).
  { replace (lf_limit f - length matches)%nat with 0%nat by lia. simpl. by rewrite app_nil_r. }
  cbn [omap list_omap head_accepted]. unfold dt_ltb.
  destruct (dt_leb (lf_start f) (ll_ts line)); cbn [negb orb andb]; [|by rewrite IH].
  destruct (dt_leb (ll_ts line) (lf_end f)); cbn [negb orb andb]; [|by rewrite IH].
  destruct (Z.land _ _ =? 0); cbn [negb orb andb]; [by rewrite IH|].
  destruct (text_matches _ _); cbn [negb orb andb]; [|by rewrite IH].
  destruct (attrs_match _ _); cbn [negb orb andb]; [|by rewrite IH].
  destruct (key_allowed _ _); cbn [negb orb andb]; [|by rewrite IH].
  rewrite IH, length_app, <- app_assoc. f_equal. simpl.
  replace (lf_limit f - length matches)%nat with (S (lf_limit f - (length matches + 1)))%nat by lia.
  done.
Qed.

Lemma scan_head_spec snapshot labels f :
  cs_matches (scan_head snapshot labels f) =
  take (lf_limit f) (omap (head_accepted labels f)
    (reverse (imap (fun i l => (Z.of_nat i, l)) (mjoin snapshot)))).
Proof.
  unfold scan_head. rewrite scan_head_loop_spec. simpl. rewrite Nat.sub_0_r.
  unfold iter_rev. rewrite segment_offsets_iter. do 3 f_equal.
Qed.

(** Scanning a head buffer returns the newest [limit] lines the query accepts,
    newest first, whatever the segments the snapshot is cut into. *)
Theorem scan_head_exact snapshot labels f :
  cs_matches (scan_head snapshot labels f) =
  take (lf_limit f) (omap (head_accepted labels f)
    (reverse (imap (fun i l => (Z.of_nat i, l)) (mjoin snapshot)))).
Proof. apply scan_head_spec. Qed.
End Scan.

(** ** A concrete instance: footer sections numbered by their countable encoding *)

#[local] Existing Instances nanos_chrono nanos_chrono_laws stored_zstd stored_zstd_laws
  raw_json raw_json_laws poly_hash ascii_unicode ascii_unicode_laws.

Definition labels_tuple (l : ChunkLabels) :=
  (cl_project_id l, cl_external_service_id l, cl_env l, cl_service l, cl_container_id l,
   (cl_deploy_id l, cl_node_id l, cl_node_name l, cl_line_count l, cl_level_mask l,
    (cl_level_counts l, (cl_started_at l : Z), (cl_ended_at l : Z)))).

Definition tuple_labels (t : Z * option Z * string * string * string *
    (option Z * option Z * option string * Z * Z * (list Z * Z * Z))) : ChunkLabels :=
  let '(p, x, e, s, c, (d, n, nn, lc, lm, (cs, sa, ea))) := t in {|
    cl_project_id := p; cl_external_service_id := x; cl_env := e; cl_service := s;
    cl_container_id := c; cl_deploy_id := d; cl_node_id := n; cl_node_name := nn;
    cl_started_at := (sa : DateTime); cl_ended_at := (ea : DateTime); cl_line_count := lc;
    cl_level_mask := lm; cl_level_counts := cs |}.

Definition meta_tuple (m : BlockMeta) :=
  (bm_offset m, bm_len m, bm_uncompressed_len m, (bm_first_ts m : Z), (bm_last_ts m : Z),
   (bm_line_count m, bm_first_line_index m, bm_level_mask m, bm_level_counts m)).

Definition tuple_meta (t : Z * Z * Z * Z * Z * (Z * Z * Z * list Z)) : BlockMeta :=
  let '(o, l, u, f, t, (c, i, k, cs)) := t in {|
    bm_offset := o; bm_len := l; bm_uncompressed_len := u; bm_first_ts := (f : DateTime);
    bm_last_ts := (t : DateTime); bm_line_count := c; bm_first_line_index := i;
    bm_level_mask := k; bm_level_counts := cs |}.

Definition from_code {A B} `{Countable A} (g : A -> B) (b : list Z) : option B :=
  match b with
  | [Zpos p] => g <$> decode p
  | _ => None
  end.

#[local] Instance coded_footer : FooterJson := {|
  labels_to_vec l := Some [Zpos (encode (labels_tuple l))];
  labels_from_slice := from_code tuple_labels;
  metas_to_vec ms := Some [Zpos (encode (map meta_tuple ms))];
  metas_from_slice := from_code (map tuple_meta)
|}.

#[local] Instance coded_footer_laws : FooterJsonLaws coded_footer.
Proof.
  split; simpl.
  - intros l b [= <-]. simpl. rewrite decode_encode. simpl. by destruct l.
  - intros l b [= <-]. simpl. rewrite decode_encode. simpl. f_equal. rewrite map_map.
    rewrite <- (map_id l) at 2. apply map_ext. by intros [].
Qed.

Lemma sum_fits (bytes : list Z) : fits 32 (wrap 32 (foldr Z.add 0 bytes)).
Proof. apply wrap_fits. lia. Qed.

#[local] Instance sum_crc : Crc32 := {| crc32 b := wrap 32 (foldr Z.add 0 b); crc32_fits := sum_fits |}.

Definition naive_find (hay needle : list Z) : option Z :=
  if infixb needle hay then Some 0 else None.

Lemma naive_find_spec hay needle :
  is_Some (naive_find hay needle) <-> exists pre post, hay = pre ++ needle ++ post.
Proof.
  transitivity (infixb needle hay = true); [|apply infixb_spec].
  unfold naive_find. destruct (infixb needle hay); split; intros Hx;
    [done|by eexists|by destruct Hx|done].
Qed.

#[local] Instance naive_memmem : Memmem :=
  {| memmem_find := naive_find; memmem_find_spec := naive_find_spec |}.

Definition sample_identity : ChunkIdentity := {|
  ci_project_id := 1; ci_external_service_id := None; ci_env := "1"; ci_service := "web";
  ci_container_id := "c"; ci_deploy_id := None; ci_node_id := None; ci_node_name := None |}.

(** Two lines, [Boot ok] and [GET /x]. *)
Definition scan_lines : list LogLine :=
  [sample_line 1700000000000000000 Info [66; 111; 111; 116; 32; 111; 107] None;
   sample_line 1700000000000000005 Error [71; 69; 84; 32; 47; 120] (Some [7])].

Definition empty_chunk : EncodedChunk := {|
  ec_bytes := [];
  ec_footer := {| cf_labels := tuple_labels (1, None, "", "", "", (None, None, None, 0, 0, ([], 0, 0)));
                  cf_blocks := []; cf_bloom := None |};
  ec_trailer := Build_Trailer 0 0 0 0 0 0 0 0; ec_uncompressed_bytes := 0 |}.

Definition scan_chunk : EncodedChunk :=
  match (let? e := result_fold encoder_push scan_lines (encoder_new sample_identity) in
         finish elements e true) with
  | Ok c => c
  | Err _ => empty_chunk
  end.

Definition scan_manifest : Manifest := {|
  mf_seq := 3; mf_labels := cf_labels (ec_footer scan_chunk); mf_storage_key := "k";
  mf_format_version := 2;
  mf_footer_offset := Some (footer_offset (ec_trailer scan_chunk));
  mf_footer_len := Some (footer_len (ec_trailer scan_chunk)) |}.

Definition scan_read (_ : string) (a b : Z) : result ScanError (list Z) :=
  match slice (ec_bytes scan_chunk) a b with
  | Some x => Ok x
  | None => Err StorageError
  end.

(** Search for [get]. *)
Definition scan_query : @LogQuery nanos_chrono unit := {|
  q_text := Some [71; 101; 116]; q_start_time := (0 : DateTime);
  q_end_time := (2 ^ 62 : DateTime); q_before := None; q_levels := []; q_limit := 10;
  q_attrs := [] |}.

Lemma scan_lines_ok : Forall line_ok scan_lines.
Proof.
  repeat apply Forall_cons_2; [..|constructor]; split; simpl;
    try (by eexists); try (intros ?? [= <-] [= <-]; done); try done;
    repeat constructor; unfold is_scalar; lia.
Qed.

Lemma scan_stored : stored scan_read elements scan_manifest scan_lines true scan_chunk.
Proof.
  split.
  - apply elements_order.
  - exists sample_identity. vm_cast_no_check (eq_refl (A := res EncodedChunk) (Ok scan_chunk)).
  - vm_cast_no_check (eq_refl Lt).
  - apply scan_lines_ok.
  - repeat constructor; vm_cast_no_check (eq_refl Lt).
  - reflexivity.
  - reflexivity.
  - reflexivity.
  - intros a b x Hx. unfold scan_read. by rewrite Hx.
Qed.


Lemma head_line_ids_collide_witness : head_line_id 0 = head_line_id 5.
Proof. apply head_line_ids_collide; lia. Defined.
