(* ===== verification/Permissions.v ===== *)
(** * Permissions and roles

    [crates/temps-auth/src/permissions.rs], whole file: the permissions with their
    wire names, the roles and the static permission list of each role.  Two
    permissions are equal when their names are: [permission_eq_dec] goes through the
    injective [permission_to_string]. *)

From S2P Require Import Prelude.

(** [enum Permission]. *)
Inductive Permission :=
  | ProjectsRead | ProjectsWrite | ProjectsDelete | ProjectsCreate | DeploymentsRead
  | DeploymentsWrite | DeploymentsDelete | DeploymentsCreate | DomainsRead | DomainsWrite
  | DomainsDelete | DomainsCreate | EnvironmentsRead | EnvironmentsWrite | EnvironmentsDelete
  | EnvironmentsCreate | AnalyticsRead | AnalyticsWrite | UsersRead | UsersWrite | UsersDelete
  | UsersCreate | UsersManage | SystemAdmin | SystemRead | SecretsRead | ApiKeysRead
  | ApiKeysWrite | ApiKeysDelete | ApiKeysCreate | AuditRead | BackupsRead | BackupsWrite
  | BackupsDelete | BackupsCreate | CronsRead | CronsWrite | CronsDelete | CronsCreate
  | ExternalServicesRead | ExternalServicesWrite | ExternalServicesDelete
  | ExternalServicesCreate | SettingsRead | SettingsWrite | ClusterCaRotate | DnsProvidersRead
  | DnsProvidersWrite | DnsAutomationWrite | PlatformUpdate | FilesRead | FilesWrite
  | FilesDelete | FilesUpload | FunnelRead | FunnelWrite | GithubRead | GithubWrite
  | GithubConnect | LoadBalancerRead | LoadBalancerWrite | LogsRead | LogsDelete | MetricsRead
  | NotificationsRead | NotificationsWrite | NotificationPreferencesRead
  | NotificationPreferencesWrite | NotificationProvidersRead | NotificationProvidersWrite
  | NotificationProvidersCreate | NotificationProvidersDelete | PipelinesRead | PipelinesWrite
  | PipelinesCreate | PipelinesDelete | PipelinesExecute | PlatformInfoRead
  | SessionMetricsRead | SpeedInsightsRead | WebhooksRead | WebhooksWrite | WebhooksCreate
  | WebhooksDelete | WebSocketProxyConnect | ErrorTrackingRead | ErrorTrackingWrite
  | ErrorTrackingCreate | GitProvidersRead | GitProvidersWrite | GitProvidersCreate
  | GitProvidersDelete | GitConnectionsRead | GitConnectionsWrite | GitConnectionsCreate
  | GitConnectionsDelete | GitRepositoriesRead | GitRepositoriesSync | ImportsRead
  | ImportsCreate | EmailProvidersRead | EmailProvidersWrite | EmailProvidersCreate
  | EmailProvidersDelete | EmailDomainsRead | EmailDomainsWrite | EmailDomainsCreate
  | EmailDomainsDelete | EmailsRead | EmailsSend | EmailsValidate | DeploymentTokensRead
  | DeploymentTokensWrite | DeploymentTokensCreate | DeploymentTokensDelete
  | VulnerabilityScansRead | VulnerabilityScansWrite | VulnerabilityScansCreate
  | VulnerabilityScansDelete | BlobRead | BlobWrite | BlobDelete | KvRead | KvWrite | KvDelete
  | FlagsRead | FlagsWrite | FlagsDelete | StatusPageRead | StatusPageWrite | StatusPageCreate
  | StatusPageDelete | OtelRead | OtelWrite | AiGatewayRead | AiGatewayWrite
  | AiGatewayExecute | ContainersExec | StacksRead | StacksWrite | StacksDelete | StacksCreate
  | SandboxesRead | SandboxesWrite | SandboxesExec.

(** [impl Display for Permission]. *)
Definition permission_to_string (p : Permission) : string :=
  match p with
  | ProjectsRead => "projects:read"
  | ProjectsWrite => "projects:write"
  | ProjectsDelete => "projects:delete"
  | ProjectsCreate => "projects:create"
  | DeploymentsRead => "deployments:read"
  | DeploymentsWrite => "deployments:write"
  | DeploymentsDelete => "deployments:delete"
  | DeploymentsCreate => "deployments:create"
  | DomainsRead => "domains:read"
  | DomainsWrite => "domains:write"
  | DomainsDelete => "domains:delete"
  | DomainsCreate => "domains:create"
  | EnvironmentsRead => "environments:read"
  | EnvironmentsWrite => "environments:write"
  | EnvironmentsDelete => "environments:delete"
  | EnvironmentsCreate => "environments:create"
  | AnalyticsRead => "analytics:read"
  | AnalyticsWrite => "analytics:write"
  | UsersRead => "users:read"
  | UsersWrite => "users:write"
  | UsersDelete => "users:delete"
  | UsersCreate => "users:create"
  | UsersManage => "users:manage"
  | SystemAdmin => "system:admin"
  | SystemRead => "system:read"
  | SecretsRead => "secrets:read"
  | ApiKeysRead => "api_keys:read"
  | ApiKeysWrite => "api_keys:write"
  | ApiKeysDelete => "api_keys:delete"
  | ApiKeysCreate => "api_keys:create"
  | AuditRead => "audit:read"
  | BackupsRead => "backups:read"
  | BackupsWrite => "backups:write"
  | BackupsDelete => "backups:delete"
  | BackupsCreate => "backups:create"
  | CronsRead => "crons:read"
  | CronsWrite => "crons:write"
  | CronsDelete => "crons:delete"
  | CronsCreate => "crons:create"
  | ExternalServicesRead => "external_services:read"
  | ExternalServicesWrite => "external_services:write"
  | ExternalServicesDelete => "external_services:delete"
  | ExternalServicesCreate => "external_services:create"
  | FilesRead => "files:read"
  | FilesWrite => "files:write"
  | FilesDelete => "files:delete"
  | FilesUpload => "files:upload"
  | FunnelRead => "funnel:read"
  | FunnelWrite => "funnel:write"
  | GithubRead => "github:read"
  | GithubWrite => "github:write"
  | GithubConnect => "github:connect"
  | LoadBalancerRead => "load_balancer:read"
  | LoadBalancerWrite => "load_balancer:write"
  | LogsRead => "logs:read"
  | LogsDelete => "logs:delete"
  | MetricsRead => "metrics:read"
  | NotificationsRead => "notifications:read"
  | NotificationsWrite => "notifications:write"
  | NotificationPreferencesRead => "notification_preferences:read"
  | NotificationPreferencesWrite => "notification_preferences:write"
  | NotificationProvidersRead => "notification_providers:read"
  | NotificationProvidersWrite => "notification_providers:write"
  | NotificationProvidersCreate => "notification_providers:create"
  | NotificationProvidersDelete => "notification_providers:delete"
  | PipelinesRead => "pipelines:read"
  | PipelinesWrite => "pipelines:write"
  | PipelinesCreate => "pipelines:create"
  | PipelinesDelete => "pipelines:delete"
  | PipelinesExecute => "pipelines:execute"
  | PlatformInfoRead => "platform_info:read"
  | SessionMetricsRead => "session_metrics:read"
  | SpeedInsightsRead => "speed_insights:read"
  | WebhooksRead => "webhooks:read"
  | WebhooksWrite => "webhooks:write"
  | WebhooksCreate => "webhooks:create"
  | WebhooksDelete => "webhooks:delete"
  | WebSocketProxyConnect => "websocket_proxy:connect"
  | SettingsRead => "settings:read"
  | SettingsWrite => "settings:write"
  | ClusterCaRotate => "cluster_ca:rotate"
  | DnsProvidersRead => "dns_providers:read"
  | DnsProvidersWrite => "dns_providers:write"
  | DnsAutomationWrite => "dns_automation:write"
  | PlatformUpdate => "platform:update"
  | ErrorTrackingRead => "error_tracking:read"
  | ErrorTrackingWrite => "error_tracking:write"
  | ErrorTrackingCreate => "error_tracking:create"
  | GitProvidersRead => "git_providers:read"
  | GitProvidersWrite => "git_providers:write"
  | GitProvidersCreate => "git_providers:create"
  | GitProvidersDelete => "git_providers:delete"
  | GitConnectionsRead => "git_connections:read"
  | GitConnectionsWrite => "git_connections:write"
  | GitConnectionsCreate => "git_connections:create"
  | GitConnectionsDelete => "git_connections:delete"
  | GitRepositoriesRead => "git_repositories:read"
  | GitRepositoriesSync => "git_repositories:sync"
  | ImportsRead => "imports:read"
  | ImportsCreate => "imports:create"
  | EmailProvidersRead => "email_providers:read"
  | EmailProvidersWrite => "email_providers:write"
  | EmailProvidersCreate => "email_providers:create"
  | EmailProvidersDelete => "email_providers:delete"
  | EmailDomainsRead => "email_domains:read"
  | EmailDomainsWrite => "email_domains:write"
  | EmailDomainsCreate => "email_domains:create"
  | EmailDomainsDelete => "email_domains:delete"
  | EmailsRead => "emails:read"
  | EmailsSend => "emails:send"
  | EmailsValidate => "emails:validate"
  | DeploymentTokensRead => "deployment_tokens:read"
  | DeploymentTokensWrite => "deployment_tokens:write"
  | DeploymentTokensCreate => "deployment_tokens:create"
  | DeploymentTokensDelete => "deployment_tokens:delete"
  | VulnerabilityScansRead => "vulnerability_scans:read"
  | VulnerabilityScansWrite => "vulnerability_scans:write"
  | VulnerabilityScansCreate => "vulnerability_scans:create"
  | VulnerabilityScansDelete => "vulnerability_scans:delete"
  | BlobRead => "blob:read"
  | BlobWrite => "blob:write"
  | BlobDelete => "blob:delete"
  | KvRead => "kv:read"
  | KvWrite => "kv:write"
  | KvDelete => "kv:delete"
  | FlagsRead => "flags:read"
  | FlagsWrite => "flags:write"
  | FlagsDelete => "flags:delete"
  | StatusPageRead => "status_page:read"
  | StatusPageWrite => "status_page:write"
  | StatusPageCreate => "status_page:create"
  | StatusPageDelete => "status_page:delete"
  | OtelRead => "otel:read"
  | OtelWrite => "otel:write"
  | AiGatewayRead => "ai_gateway:read"
  | AiGatewayWrite => "ai_gateway:write"
  | AiGatewayExecute => "ai_gateway:execute"
  | ContainersExec => "containers:exec"
  | StacksRead => "stacks:read"
  | StacksWrite => "stacks:write"
  | StacksDelete => "stacks:delete"
  | StacksCreate => "stacks:create"
  | SandboxesRead => "sandboxes:read"
  | SandboxesWrite => "sandboxes:write"
  | SandboxesExec => "sandboxes:exec"
  end.

(** [Permission::from_str]: the first name that is equal. *)
Definition permission_names : list (string * Permission) :=
  [
   ("projects:read", ProjectsRead); ("projects:write", ProjectsWrite);
   ("projects:delete", ProjectsDelete); ("projects:create", ProjectsCreate);
   ("deployments:read", DeploymentsRead); ("deployments:write", DeploymentsWrite);
   ("deployments:delete", DeploymentsDelete); ("deployments:create", DeploymentsCreate);
   ("domains:read", DomainsRead); ("domains:write", DomainsWrite);
   ("domains:delete", DomainsDelete); ("domains:create", DomainsCreate);
   ("environments:read", EnvironmentsRead); ("environments:write", EnvironmentsWrite);
   ("environments:delete", EnvironmentsDelete); ("environments:create", EnvironmentsCreate);
   ("analytics:read", AnalyticsRead); ("analytics:write", AnalyticsWrite);
   ("users:read", UsersRead); ("users:write", UsersWrite); ("users:delete", UsersDelete);
   ("users:create", UsersCreate); ("users:manage", UsersManage);
   ("system:admin", SystemAdmin); ("system:read", SystemRead); ("secrets:read", SecretsRead);
   ("api_keys:read", ApiKeysRead); ("api_keys:write", ApiKeysWrite);
   ("api_keys:delete", ApiKeysDelete); ("api_keys:create", ApiKeysCreate);
   ("audit:read", AuditRead); ("backups:read", BackupsRead); ("backups:write", BackupsWrite);
   ("backups:delete", BackupsDelete); ("backups:create", BackupsCreate);
   ("crons:read", CronsRead); ("crons:write", CronsWrite); ("crons:delete", CronsDelete);
   ("crons:create", CronsCreate); ("external_services:read", ExternalServicesRead);
   ("external_services:write", ExternalServicesWrite);
   ("external_services:delete", ExternalServicesDelete);
   ("external_services:create", ExternalServicesCreate); ("settings:read", SettingsRead);
   ("settings:write", SettingsWrite); ("cluster_ca:rotate", ClusterCaRotate);
   ("dns_providers:read", DnsProvidersRead); ("dns_providers:write", DnsProvidersWrite);
   ("dns_automation:write", DnsAutomationWrite); ("platform:update", PlatformUpdate);
   ("files:read", FilesRead); ("files:write", FilesWrite); ("files:delete", FilesDelete);
   ("files:upload", FilesUpload); ("funnel:read", FunnelRead); ("funnel:write", FunnelWrite);
   ("github:read", GithubRead); ("github:write", GithubWrite);
   ("github:connect", GithubConnect); ("load_balancer:read", LoadBalancerRead);
   ("load_balancer:write", LoadBalancerWrite); ("logs:read", LogsRead);
   ("logs:delete", LogsDelete); ("metrics:read", MetricsRead);
   ("notifications:read", NotificationsRead); ("notifications:write", NotificationsWrite);
   ("notification_preferences:read", NotificationPreferencesRead);
   ("notification_preferences:write", NotificationPreferencesWrite);
   ("notification_providers:read", NotificationProvidersRead);
   ("notification_providers:write", NotificationProvidersWrite);
   ("notification_providers:create", NotificationProvidersCreate);
   ("notification_providers:delete", NotificationProvidersDelete);
   ("pipelines:read", PipelinesRead); ("pipelines:write", PipelinesWrite);
   ("pipelines:create", PipelinesCreate); ("pipelines:delete", PipelinesDelete);
   ("pipelines:execute", PipelinesExecute); ("platform_info:read", PlatformInfoRead);
   ("session_metrics:read", SessionMetricsRead); ("speed_insights:read", SpeedInsightsRead);
   ("webhooks:read", WebhooksRead); ("webhooks:write", WebhooksWrite);
   ("webhooks:create", WebhooksCreate); ("webhooks:delete", WebhooksDelete);
   ("websocket_proxy:connect", WebSocketProxyConnect);
   ("error_tracking:read", ErrorTrackingRead); ("error_tracking:write", ErrorTrackingWrite);
   ("error_tracking:create", ErrorTrackingCreate); ("git_providers:read", GitProvidersRead);
   ("git_providers:write", GitProvidersWrite); ("git_providers:create", GitProvidersCreate);
   ("git_providers:delete", GitProvidersDelete); ("git_connections:read", GitConnectionsRead);
   ("git_connections:write", GitConnectionsWrite);
   ("git_connections:create", GitConnectionsCreate);
   ("git_connections:delete", GitConnectionsDelete);
   ("git_repositories:read", GitRepositoriesRead);
   ("git_repositories:sync", GitRepositoriesSync); ("imports:read", ImportsRead);
   ("imports:create", ImportsCreate); ("email_providers:read", EmailProvidersRead);
   ("email_providers:write", EmailProvidersWrite);
   ("email_providers:create", EmailProvidersCreate);
   ("email_providers:delete", EmailProvidersDelete); ("email_domains:read", EmailDomainsRead);
   ("email_domains:write", EmailDomainsWrite); ("email_domains:create", EmailDomainsCreate);
   ("email_domains:delete", EmailDomainsDelete); ("emails:read", EmailsRead);
   ("emails:send", EmailsSend); ("emails:validate", EmailsValidate);
   ("deployment_tokens:read", DeploymentTokensRead);
   ("deployment_tokens:write", DeploymentTokensWrite);
   ("deployment_tokens:create", DeploymentTokensCreate);
   ("deployment_tokens:delete", DeploymentTokensDelete);
   ("vulnerability_scans:read", VulnerabilityScansRead);
   ("vulnerability_scans:write", VulnerabilityScansWrite);
   ("vulnerability_scans:create", VulnerabilityScansCreate);
   ("vulnerability_scans:delete", VulnerabilityScansDelete); ("blob:read", BlobRead);
   ("blob:write", BlobWrite); ("blob:delete", BlobDelete); ("kv:read", KvRead);
   ("kv:write", KvWrite); ("kv:delete", KvDelete); ("flags:read", FlagsRead);
   ("flags:write", FlagsWrite); ("flags:delete", FlagsDelete);
   ("status_page:read", StatusPageRead); ("status_page:write", StatusPageWrite);
   ("status_page:create", StatusPageCreate); ("status_page:delete", StatusPageDelete);
   ("otel:read", OtelRead); ("otel:write", OtelWrite); ("ai_gateway:read", AiGatewayRead);
   ("ai_gateway:write", AiGatewayWrite); ("ai_gateway:execute", AiGatewayExecute);
   ("containers:exec", ContainersExec); ("stacks:read", StacksRead);
   ("stacks:write", StacksWrite); ("stacks:delete", StacksDelete);
   ("stacks:create", StacksCreate); ("sandboxes:read", SandboxesRead);
   ("sandboxes:write", SandboxesWrite); ("sandboxes:exec", SandboxesExec)].

Fixpoint find_name {A : Type} (s : string) (names : list (string * A)) : option A :=
  match names with
  | [] => None
  | (n, a) :: rest => if String.eqb s n then Some a else find_name s rest
  end.

Definition permission_from_str (s : string) : option Permission := find_name s permission_names.

(** [Permission::all]. *)
Definition permission_all : list Permission :=
  [
   ProjectsRead; ProjectsWrite; ProjectsDelete; ProjectsCreate; DeploymentsRead;
   DeploymentsWrite; DeploymentsDelete; DeploymentsCreate; DomainsRead; DomainsWrite;
   DomainsDelete; DomainsCreate; EnvironmentsRead; EnvironmentsWrite; EnvironmentsDelete;
   EnvironmentsCreate; AnalyticsRead; AnalyticsWrite; UsersRead; UsersWrite; UsersDelete;
   UsersCreate; UsersManage; SystemAdmin; SystemRead; SecretsRead; ApiKeysRead; ApiKeysWrite;
   ApiKeysDelete; ApiKeysCreate; AuditRead; BackupsRead; BackupsWrite; BackupsDelete;
   BackupsCreate; CronsRead; CronsWrite; CronsDelete; CronsCreate; ExternalServicesRead;
   ExternalServicesWrite; ExternalServicesDelete; ExternalServicesCreate; SettingsRead;
   SettingsWrite; ClusterCaRotate; DnsProvidersRead; DnsProvidersWrite; DnsAutomationWrite;
   PlatformUpdate; FilesRead; FilesWrite; FilesDelete; FilesUpload; FunnelRead; FunnelWrite;
   GithubRead; GithubWrite; GithubConnect; LoadBalancerRead; LoadBalancerWrite; LogsRead;
   LogsDelete; MetricsRead; NotificationsRead; NotificationsWrite;
   NotificationPreferencesRead; NotificationPreferencesWrite; NotificationProvidersRead;
   NotificationProvidersWrite; NotificationProvidersCreate; NotificationProvidersDelete;
   PipelinesRead; PipelinesWrite; PipelinesCreate; PipelinesDelete; PipelinesExecute;
   PlatformInfoRead; SessionMetricsRead; SpeedInsightsRead; WebhooksRead; WebhooksWrite;
   WebhooksCreate; WebhooksDelete; WebSocketProxyConnect; ErrorTrackingRead;
   ErrorTrackingWrite; ErrorTrackingCreate; GitProvidersRead; GitProvidersWrite;
   GitProvidersCreate; GitProvidersDelete; GitConnectionsRead; GitConnectionsWrite;
   GitConnectionsCreate; GitConnectionsDelete; GitRepositoriesRead; GitRepositoriesSync;
   ImportsRead; ImportsCreate; EmailProvidersRead; EmailProvidersWrite; EmailProvidersCreate;
   EmailProvidersDelete; EmailDomainsRead; EmailDomainsWrite; EmailDomainsCreate;
   EmailDomainsDelete; EmailsRead; EmailsSend; EmailsValidate; DeploymentTokensRead;
   DeploymentTokensWrite; DeploymentTokensCreate; DeploymentTokensDelete;
   VulnerabilityScansRead; VulnerabilityScansWrite; VulnerabilityScansCreate;
   VulnerabilityScansDelete; BlobRead; BlobWrite; BlobDelete; KvRead; KvWrite; KvDelete;
   FlagsRead; FlagsWrite; FlagsDelete; StatusPageRead; StatusPageWrite; StatusPageCreate;
   StatusPageDelete; OtelRead; OtelWrite; AiGatewayRead; AiGatewayWrite; AiGatewayExecute;
   StacksRead; StacksWrite; StacksDelete; StacksCreate; SandboxesRead; SandboxesWrite;
   SandboxesExec].

(** [enum Role], [impl Display for Role], [Role::from_str], [Role::all]. *)
Inductive Role :=
  | Admin | PlatformAdmin | User | Reader | ApiReader | Custom | MetricsIngest.

Definition role_to_string (r : Role) : string :=
  match r with
  | Admin => "admin"
  | PlatformAdmin => "platform_admin"
  | User => "user"
  | Reader => "reader"
  | ApiReader => "api_reader"
  | Custom => "custom"
  | MetricsIngest => "metrics_ingest"
  end.

Definition role_from_str (s : string) : option Role :=
  find_name s
    [("admin", Admin); ("platform_admin", PlatformAdmin); ("user", User); ("reader", Reader);
     ("api_reader", ApiReader); ("custom", Custom); ("metrics_ingest", MetricsIngest)].

Definition role_all : list Role :=
  [Admin; PlatformAdmin; User; Reader; ApiReader; Custom; MetricsIngest].

(** [Role::permissions], the arm of [Role::Admin]. *)
Definition admin_permissions : list Permission :=
  [
   AnalyticsRead; AnalyticsWrite; ApiKeysCreate; ApiKeysDelete; ApiKeysRead; ApiKeysWrite;
   AuditRead; BackupsCreate; BackupsDelete; BackupsRead; BackupsWrite; CronsCreate;
   CronsDelete; CronsRead; CronsWrite; DeploymentsCreate; DeploymentsDelete; DeploymentsRead;
   DeploymentsWrite; DomainsCreate; DomainsDelete; DomainsRead; DomainsWrite;
   EnvironmentsCreate; EnvironmentsDelete; EnvironmentsRead; EnvironmentsWrite;
   ExternalServicesCreate; ExternalServicesDelete; ExternalServicesRead;
   ExternalServicesWrite; FilesDelete; FilesRead; FilesUpload; FilesWrite; FunnelRead;
   FunnelWrite; GithubConnect; GithubRead; GithubWrite; LoadBalancerRead; LoadBalancerWrite;
   LogsRead; LogsDelete; MetricsRead; NotificationsRead; NotificationsWrite;
   NotificationPreferencesRead; NotificationPreferencesWrite; NotificationProvidersCreate;
   NotificationProvidersDelete; NotificationProvidersRead; NotificationProvidersWrite;
   PipelinesCreate; PipelinesDelete; PipelinesExecute; PipelinesRead; PipelinesWrite;
   PlatformInfoRead; PlatformUpdate; ProjectsCreate; ProjectsDelete; ProjectsRead;
   ProjectsWrite; SessionMetricsRead; SettingsRead; SettingsWrite; ClusterCaRotate;
   DnsProvidersRead; DnsProvidersWrite; DnsAutomationWrite; SecretsRead; SpeedInsightsRead;
   SystemAdmin; SystemRead; UsersCreate; UsersDelete; UsersRead; UsersWrite; UsersManage;
   WebSocketProxyConnect; WebhooksCreate; WebhooksDelete; WebhooksRead; WebhooksWrite;
   ErrorTrackingRead; ErrorTrackingWrite; ErrorTrackingCreate; GitProvidersRead;
   GitProvidersWrite; GitProvidersCreate; GitProvidersDelete; GitConnectionsRead;
   GitConnectionsWrite; GitConnectionsCreate; GitConnectionsDelete; GitRepositoriesRead;
   GitRepositoriesSync; ImportsRead; ImportsCreate; EmailProvidersRead; EmailProvidersWrite;
   EmailProvidersCreate; EmailProvidersDelete; EmailDomainsRead; EmailDomainsWrite;
   EmailDomainsCreate; EmailDomainsDelete; EmailsRead; EmailsSend; EmailsValidate;
   DeploymentTokensRead; DeploymentTokensWrite; DeploymentTokensCreate;
   DeploymentTokensDelete; VulnerabilityScansRead; VulnerabilityScansWrite;
   VulnerabilityScansCreate; VulnerabilityScansDelete; BlobRead; BlobWrite; BlobDelete;
   KvRead; KvWrite; KvDelete; FlagsRead; FlagsWrite; FlagsDelete; StatusPageRead;
   StatusPageWrite; StatusPageCreate; StatusPageDelete; OtelRead; OtelWrite; AiGatewayRead;
   AiGatewayWrite; AiGatewayExecute; ContainersExec; StacksRead; StacksWrite; StacksDelete;
   StacksCreate; SandboxesRead; SandboxesWrite; SandboxesExec].

(** [Role::permissions], the arm of [Role::PlatformAdmin]. *)
Definition platform_admin_permissions : list Permission :=
  [
   AnalyticsRead; AnalyticsWrite; ApiKeysCreate; ApiKeysDelete; ApiKeysRead; ApiKeysWrite;
   AuditRead; BackupsCreate; BackupsDelete; BackupsRead; BackupsWrite; CronsCreate;
   CronsDelete; CronsRead; CronsWrite; DeploymentsRead; DomainsCreate; DomainsDelete;
   DomainsRead; DomainsWrite; EnvironmentsCreate; EnvironmentsDelete; EnvironmentsRead;
   EnvironmentsWrite; ExternalServicesCreate; ExternalServicesDelete; ExternalServicesRead;
   ExternalServicesWrite; FilesDelete; FilesRead; FilesUpload; FilesWrite; FunnelRead;
   FunnelWrite; GithubConnect; GithubRead; GithubWrite; LoadBalancerRead; LoadBalancerWrite;
   LogsRead; LogsDelete; MetricsRead; NotificationsRead; NotificationsWrite;
   NotificationPreferencesRead; NotificationPreferencesWrite; NotificationProvidersCreate;
   NotificationProvidersDelete; NotificationProvidersRead; NotificationProvidersWrite;
   PipelinesCreate; PipelinesDelete; PipelinesRead; PipelinesWrite; PlatformInfoRead;
   PlatformUpdate; ProjectsRead; SessionMetricsRead; SettingsRead; SettingsWrite;
   DnsProvidersRead; DnsProvidersWrite; DnsAutomationWrite; SpeedInsightsRead; SystemAdmin;
   SystemRead; UsersCreate; UsersDelete; UsersRead; UsersWrite; WebSocketProxyConnect;
   WebhooksCreate; WebhooksDelete; WebhooksRead; WebhooksWrite; ErrorTrackingRead;
   ErrorTrackingWrite; ErrorTrackingCreate; GitProvidersRead; GitProvidersWrite;
   GitProvidersCreate; GitProvidersDelete; GitConnectionsRead; GitConnectionsWrite;
   GitConnectionsCreate; GitConnectionsDelete; GitRepositoriesRead; GitRepositoriesSync;
   ImportsRead; ImportsCreate; EmailProvidersRead; EmailProvidersWrite; EmailProvidersCreate;
   EmailProvidersDelete; EmailDomainsRead; EmailDomainsWrite; EmailDomainsCreate;
   EmailDomainsDelete; EmailsRead; EmailsSend; EmailsValidate; DeploymentTokensRead;
   VulnerabilityScansRead; VulnerabilityScansWrite; VulnerabilityScansCreate;
   VulnerabilityScansDelete; BlobRead; BlobWrite; BlobDelete; KvRead; KvWrite; KvDelete;
   FlagsRead; FlagsWrite; FlagsDelete; StatusPageRead; StatusPageWrite; StatusPageCreate;
   StatusPageDelete; OtelRead; OtelWrite; AiGatewayRead; AiGatewayWrite; AiGatewayExecute;
   StacksRead; StacksWrite; StacksDelete; StacksCreate; SandboxesRead].

(** [Role::permissions], the arm of [Role::User]. *)
Definition user_permissions : list Permission :=
  [
   ProjectsRead; ProjectsWrite; ProjectsCreate; DeploymentsRead; DeploymentsWrite;
   DeploymentsCreate; DomainsRead; DomainsWrite; DomainsCreate; EnvironmentsRead;
   EnvironmentsWrite; EnvironmentsCreate; AnalyticsRead; ApiKeysRead; ApiKeysWrite;
   ApiKeysCreate; BackupsRead; BackupsWrite; BackupsCreate; CronsRead; CronsWrite;
   CronsCreate; ExternalServicesRead; ExternalServicesWrite; ExternalServicesCreate;
   FilesRead; FilesWrite; FilesUpload; FunnelRead; FunnelWrite; GithubRead; GithubWrite;
   GithubConnect; LoadBalancerRead; LoadBalancerWrite; LogsRead; LogsDelete; MetricsRead;
   NotificationsRead; NotificationsWrite; NotificationPreferencesRead;
   NotificationPreferencesWrite; NotificationProvidersRead; NotificationProvidersWrite;
   NotificationProvidersCreate; PipelinesRead; PipelinesWrite; PipelinesCreate;
   PipelinesExecute; PlatformInfoRead; SessionMetricsRead; SpeedInsightsRead; WebhooksRead;
   WebhooksWrite; WebhooksCreate; WebSocketProxyConnect; ErrorTrackingRead;
   ErrorTrackingWrite; ErrorTrackingCreate; GitProvidersRead; GitProvidersWrite;
   GitProvidersCreate; GitConnectionsRead; GitConnectionsWrite; GitConnectionsCreate;
   GitRepositoriesRead; GitRepositoriesSync; ImportsRead; ImportsCreate; EmailProvidersRead;
   EmailProvidersWrite; EmailProvidersCreate; EmailDomainsRead; EmailDomainsWrite;
   EmailDomainsCreate; EmailsRead; EmailsSend; EmailsValidate; DeploymentTokensRead;
   DeploymentTokensWrite; DeploymentTokensCreate; VulnerabilityScansRead;
   VulnerabilityScansWrite; VulnerabilityScansCreate; BlobRead; BlobWrite; KvRead; KvWrite;
   FlagsRead; FlagsWrite; StatusPageRead; StatusPageWrite; StatusPageCreate; OtelRead;
   OtelWrite; AiGatewayRead; AiGatewayExecute; StacksRead; StacksWrite; StacksCreate;
   SandboxesRead; SandboxesWrite; SandboxesExec].

(** [Role::permissions], the arm of [Role::Reader]. *)
Definition reader_permissions : list Permission :=
  [
   ProjectsRead; DeploymentsRead; DomainsRead; EnvironmentsRead; AnalyticsRead; BackupsRead;
   CronsRead; ExternalServicesRead; FilesRead; FunnelRead; GithubRead; LoadBalancerRead;
   LogsRead; MetricsRead; NotificationPreferencesRead; NotificationProvidersRead;
   PipelinesRead; PlatformInfoRead; SessionMetricsRead; SpeedInsightsRead; WebhooksRead;
   ErrorTrackingRead; GitProvidersRead; GitConnectionsRead; GitRepositoriesRead; ImportsRead;
   EmailProvidersRead; EmailDomainsRead; EmailsRead; DeploymentTokensRead;
   VulnerabilityScansRead; BlobRead; KvRead; FlagsRead; StatusPageRead; OtelRead;
   AiGatewayRead; StacksRead; SandboxesRead].

(** [Role::permissions], the arm of [Role::ApiReader]. *)
Definition api_reader_permissions : list Permission :=
  [
   ProjectsRead; DeploymentsRead; AnalyticsRead].

(** [Role::permissions]. *)
Definition role_permissions (r : Role) : list Permission :=
  match r with
  | Admin => admin_permissions
  | PlatformAdmin => platform_admin_permissions
  | User => user_permissions
  | Reader => reader_permissions
  | ApiReader => api_reader_permissions
  | Custom => []
  | MetricsIngest => []
  end.

(** ** Wire names *)

Lemma permission_from_to_string p : permission_from_str (permission_to_string p) = Some p.
Proof. destruct p; reflexivity. Qed.

Lemma find_name_Some {A} (names : list (string * A)) s a :
  find_name s names = Some a -> (s, a) ∈ names.
Proof.
  induction names as [|[n b] names IH]; simpl; [done|].
  destruct (String.eqb_spec s n) as [->|]; [intros [= ->]; left|right; auto].
Qed.

Lemma permission_names_ok :
  Forall (fun '(n, p) => n = permission_to_string p) permission_names.
Proof. repeat constructor. Qed.

#[export] Instance permission_to_string_inj : Inj (=) (=) permission_to_string.
Proof.
  intros p q Hpq. apply (f_equal permission_from_str) in Hpq.
  rewrite !permission_from_to_string in Hpq. congruence.
Qed.

#[export] Instance permission_eq_dec : EqDecision Permission.
Proof.
  refine (fun p q => cast_if (decide (permission_to_string p = permission_to_string q)));
    [by apply (inj permission_to_string)|congruence].
Defined.

#[export] Instance role_eq_dec : EqDecision Role.
Proof. solve_decision. Defined.

(** [Role::has_permission]. *)
Definition has_permission (r : Role) (p : Permission) : bool :=
  bool_decide (p ∈ role_permissions r).

Lemma has_permission_spec r p : has_permission r p = true <-> p ∈ role_permissions r.
Proof. apply bool_decide_eq_true. Qed.

(** The names of the permissions are a bijection with the permissions:
    [from_str] reads back what [Display] writes and accepts nothing else, so a stored
    permission string names exactly one permission. *)
Theorem permission_names_roundtrip p s :
  permission_from_str s = Some p <-> s = permission_to_string p.
Proof.
  split; [|intros ->; apply permission_from_to_string].
  intros Hs%find_name_Some. pose proof permission_names_ok as Hok.
  rewrite Forall_forall in Hok. exact (Hok (s, p) (proj1 (list_elem_of_In _ _) Hs)).
Qed.

(** [Permission::all] lists every permission once, except [ContainersExec], which
    it leaves out. *)
Theorem permission_all_misses_exec p :
  NoDup permission_all /\ (p ∈ permission_all <-> p <> ContainersExec).
Proof.
  split; [apply (bool_decide_unpack _); vm_compute; exact I|].
  transitivity (bool_decide (p ∈ permission_all) = true); [by rewrite bool_decide_eq_true|].
  destruct p; vm_compute; split; congruence.
Qed.

(** ** Role ceilings *)

(** What [r] may do, [r'] may do. *)
Definition role_below (r r' : Role) : bool :=
  forallb (has_permission r') (role_permissions r).

Lemma role_below_spec r r' p :
  role_below r r' = true -> has_permission r p = true -> has_permission r' p = true.
Proof.
  unfold role_below. rewrite forallb_forall, has_permission_spec. intros Hall Hp.
  apply Hall. by apply list_elem_of_In.
Qed.

(** Roles are nested: an admin holds every permission, and every permission of a
    reader is one of a user and of a platform admin, who hold nothing an admin does
    not. *)
Theorem roles_nested p :
  has_permission Admin p = true /\
  (has_permission ApiReader p = true -> has_permission Reader p = true) /\
  (has_permission Reader p = true ->
   has_permission User p = true /\ has_permission PlatformAdmin p = true).
Proof.
  split_and!.
  - destruct p; vm_compute; reflexivity.
  - apply role_below_spec. vm_compute. reflexivity.
  - intros Hp. split; eapply role_below_spec; try exact Hp; vm_compute; reflexivity.
Qed.

(** The permission names that only read. *)
Definition read_only (p : Permission) : bool :=
  match split_on ":"%char (permission_to_string p) with
  | [_; action] => String.eqb action "read"
  | _ => false
  end.

(** A reader role can change nothing: every permission it holds is a [:read]. *)
Theorem readers_read_only r p :
  r = Reader \/ r = ApiReader -> has_permission r p = true -> read_only p = true.
Proof.
  rewrite has_permission_spec. intros Hr Hp%list_elem_of_In.
  assert (forallb read_only (role_permissions r) = true) as Hall
    by (destruct Hr as [-> | ->]; vm_compute; reflexivity).
  by apply (proj1 (forallb_forall _ _) Hall).
Qed.

(** Changing a project or a deployment, and minting or replacing a credential for
    one. *)
Definition above_platform_admin (p : Permission) : bool :=
  match p with
  | ProjectsWrite | ProjectsDelete | ProjectsCreate
  | DeploymentsWrite | DeploymentsDelete | DeploymentsCreate
  | DeploymentTokensWrite | DeploymentTokensCreate | DeploymentTokensDelete
  | PipelinesExecute | ContainersExec | SandboxesWrite | SandboxesExec
  | SecretsRead | ClusterCaRotate | UsersManage => true
  | _ => false
  end.

(** A platform admin holds exactly the admin's permissions that neither change a
    project or deployment, run code in one, mint a deployment credential, read
    secrets, rotate the cluster CA nor manage users. *)
Theorem platform_admin_ceiling p :
  has_permission PlatformAdmin p = negb (above_platform_admin p).
Proof. destruct p; vm_compute; reflexivity. Qed.

(** A platform admin may create, change and delete domains and environments. *)
Theorem platform_admin_changes_domains p :
  p ∈ [DomainsCreate; DomainsWrite; DomainsDelete;
       EnvironmentsCreate; EnvironmentsWrite; EnvironmentsDelete] ->
  has_permission PlatformAdmin p = true.
Proof. rewrite list_elem_of_In. simpl. intros; destruct_or?; subst; try done; vm_compute; reflexivity. Qed.

Lemma readers_read_only_witness : read_only LogsRead = true.
Proof. apply (readers_read_only Reader); [by left|vm_compute; reflexivity]. Defined.
