(* ===== verification/AuthContext.v ===== *)
(** * The authentication context

    [crates/temps-auth/src/context.rs] and the deployment-token permissions of
    [crates/temps-entities/src/deployment_tokens.rs].  A context says who calls (a
    browser session, a CLI token, an API key or a deployment token) and decides what
    the caller may do.  A user row is reduced to the columns the context reads. *)

From S2P Require Import Prelude Permissions.
Local Open Scope Z_scope.

(** ** Deployment-token permissions *)

(** [enum DeploymentTokenPermission]. *)
Inductive DeploymentTokenPermission :=
  | DtVisitorsEnrich | DtEmailsSend | DtAnalyticsRead | DtEventsWrite | DtErrorsRead
  | DtAiGatewayExecute | DtFlagsRead | DtBlobRead | DtBlobWrite | DtBlobDelete
  | DtKvRead | DtKvWrite | DtKvDelete | DtFullAccess.

#[export] Instance dt_permission_eq_dec : EqDecision DeploymentTokenPermission.
Proof. solve_decision. Defined.

(** [DeploymentTokenPermission::as_str], [from_str], [all], [grants]. *)
Definition dt_as_str (p : DeploymentTokenPermission) : string :=
  match p with
  | DtVisitorsEnrich => "visitors:enrich"
  | DtEmailsSend => "emails:send"
  | DtAnalyticsRead => "analytics:read"
  | DtEventsWrite => "events:write"
  | DtErrorsRead => "errors:read"
  | DtAiGatewayExecute => "ai_gateway:execute"
  | DtFlagsRead => "flags:read"
  | DtBlobRead => "blob:read"
  | DtBlobWrite => "blob:write"
  | DtBlobDelete => "blob:delete"
  | DtKvRead => "kv:read"
  | DtKvWrite => "kv:write"
  | DtKvDelete => "kv:delete"
  | DtFullAccess => "*"
  end.

Definition dt_from_str (s : string) : option DeploymentTokenPermission :=
  find_name s
    [("visitors:enrich", DtVisitorsEnrich); ("emails:send", DtEmailsSend);
     ("analytics:read", DtAnalyticsRead); ("events:write", DtEventsWrite);
     ("errors:read", DtErrorsRead); ("ai_gateway:execute", DtAiGatewayExecute);
     ("flags:read", DtFlagsRead); ("blob:read", DtBlobRead); ("blob:write", DtBlobWrite);
     ("blob:delete", DtBlobDelete); ("kv:read", DtKvRead); ("kv:write", DtKvWrite);
     ("kv:delete", DtKvDelete); ("*", DtFullAccess); ("full_access", DtFullAccess)].

Definition dt_all : list DeploymentTokenPermission :=
  [DtVisitorsEnrich; DtEmailsSend; DtAnalyticsRead; DtEventsWrite; DtErrorsRead;
   DtAiGatewayExecute; DtFlagsRead; DtBlobRead; DtBlobWrite; DtBlobDelete; DtKvRead; DtKvWrite;
   DtKvDelete; DtFullAccess].

Definition dt_grants (p other : DeploymentTokenPermission) : bool :=
  match p with
  | DtFullAccess => true
  | _ => bool_decide (p = other)
  end.

(** ** The context *)

(** The columns of [users::Model] the context reads. *)
Record UserModel := { u_id : Z; u_mfa_enabled : bool }.

(** [enum AuthSource]. *)
Inductive AuthSource :=
  | Session (user : UserModel) (session_id : option Z)
  | CliToken (user : UserModel)
  | ApiKey (user : UserModel) (role : option Role) (permissions : option (list Permission))
      (key_name : string) (key_id : Z)
  | DeploymentToken (project_id : Z) (environment_id deployment_id : option Z) (token_id : Z)
      (token_name : string) (permissions : list DeploymentTokenPermission).

(** [struct AuthContext]. *)
Record AuthContext := {
  ac_user : option UserModel;
  ac_source : AuthSource;
  ac_effective_role : Role;
  ac_custom_permissions : option (list Permission);
  ac_deployment_token_permissions : option (list DeploymentTokenPermission)
}.

(** [struct DeploymentTokenInfo], [enum SensitiveActionPrincipal]. *)
Record DeploymentTokenInfo := {
  dti_project_id : Z;
  dti_environment_id : option Z;
  dti_deployment_id : option Z;
  dti_token_id : Z;
  dti_token_name : string
}.

Inductive SensitiveActionPrincipal :=
  | PUserSession (user_id session_id : Z) (mfa_enabled : bool)
  | PApiKey (user_id key_id : Z)
  | PCliToken (user_id : Z)
  | PDeploymentToken (token_id : Z).

(** The constructors. *)
Definition new_session (user : UserModel) (role : Role) : AuthContext := {|
  ac_user := Some user; ac_source := Session user None; ac_effective_role := role;
  ac_custom_permissions := None; ac_deployment_token_permissions := None |}.

Definition new_persisted_session (user : UserModel) (role : Role) (session_id : Z) : AuthContext := {|
  ac_user := Some user; ac_source := Session user (Some session_id); ac_effective_role := role;
  ac_custom_permissions := None; ac_deployment_token_permissions := None |}.

Definition new_cli_token (user : UserModel) (role : Role) : AuthContext := {|
  ac_user := Some user; ac_source := CliToken user; ac_effective_role := role;
  ac_custom_permissions := None; ac_deployment_token_permissions := None |}.

Definition new_api_key (user : UserModel) (role : option Role)
    (permissions : option (list Permission)) (key_name : string) (key_id : Z) : AuthContext := {|
  ac_user := Some user; ac_source := ApiKey user role permissions key_name key_id;
  ac_effective_role := default Custom role;
  ac_custom_permissions := permissions; ac_deployment_token_permissions := None |}.

Definition new_deployment_token (project_id : Z) (environment_id deployment_id : option Z)
    (token_id : Z) (token_name : string) (permissions : list DeploymentTokenPermission)
    : AuthContext := {|
  ac_user := None;
  ac_source := DeploymentToken project_id environment_id deployment_id token_id token_name permissions;
  ac_effective_role := Custom;
  ac_custom_permissions := None;
  ac_deployment_token_permissions := Some permissions |}.

(** What kind of caller it is. *)
Definition is_api_key (c : AuthContext) : bool :=
  match ac_source c with ApiKey _ _ _ _ _ => true | _ => false end.

Definition is_session (c : AuthContext) : bool :=
  match ac_source c with Session _ _ => true | _ => false end.

Definition is_cli_token (c : AuthContext) : bool :=
  match ac_source c with CliToken _ => true | _ => false end.

Definition is_deployment_token (c : AuthContext) : bool :=
  match ac_source c with DeploymentToken _ _ _ _ _ _ => true | _ => false end.

(** The deployment-token permission a standard permission is mapped to. *)
Definition required_dt_perm (p : Permission) : option DeploymentTokenPermission :=
  match p with
  | AnalyticsRead => Some DtAnalyticsRead
  | AnalyticsWrite => Some DtVisitorsEnrich
  | EmailsSend => Some DtEmailsSend
  | AiGatewayExecute => Some DtAiGatewayExecute
  | FlagsRead => Some DtFlagsRead
  | BlobRead => Some DtBlobRead
  | BlobWrite => Some DtBlobWrite
  | BlobDelete => Some DtBlobDelete
  | KvRead => Some DtKvRead
  | KvWrite => Some DtKvWrite
  | KvDelete => Some DtKvDelete
  | _ => None
  end.

(** [AuthContext::has_permission]. *)
Definition ctx_has_permission (c : AuthContext) (p : Permission) : bool :=
  if is_deployment_token c then
    match ac_deployment_token_permissions c with
    | None => false
    | Some dt_permissions =>
        match required_dt_perm p with
        | None => false
        | Some required => existsb (fun d => dt_grants d required) dt_permissions
        end
    end
  else
    match ac_custom_permissions c with
    | Some permissions => bool_decide (p ∈ permissions)
    | None => has_permission (ac_effective_role c) p
    end.

(** [AuthContext::has_deployment_permission]. *)
Definition has_deployment_permission (c : AuthContext) (p : DeploymentTokenPermission) : bool :=
  match ac_deployment_token_permissions c with
  | Some permissions =>
      if bool_decide (DtFullAccess ∈ permissions) then true else bool_decide (p ∈ permissions)
  | None => false
  end.

(** [has_role], [is_admin], [is_instance_admin], [user_id], [user_id_opt]. *)
Definition has_role (c : AuthContext) (r : Role) : bool := bool_decide (ac_effective_role c = r).
Definition is_admin (c : AuthContext) : bool := has_role c Admin.
Definition is_instance_admin (c : AuthContext) : bool := is_admin c || has_role c PlatformAdmin.

Definition user_id_opt (c : AuthContext) : option Z := u_id <$> ac_user c.
Definition user_id (c : AuthContext) : Z := default 0 (user_id_opt c).

(** [AuthContext::sensitive_action_principal]. *)
Definition sensitive_action_principal (c : AuthContext) : option SensitiveActionPrincipal :=
  match ac_source c with
  | Session user (Some session_id) =>
      Some (PUserSession (u_id user) session_id (u_mfa_enabled user))
  | Session _ None => None
  | ApiKey user _ _ _ key_id => Some (PApiKey (u_id user) key_id)
  | CliToken user => Some (PCliToken (u_id user))
  | DeploymentToken _ _ _ token_id _ _ => Some (PDeploymentToken token_id)
  end.

(** The accessors of the source. *)
Definition ctx_session_id (c : AuthContext) : option Z :=
  match ac_source c with Session _ session_id => session_id | _ => None end.

Definition api_key_info (c : AuthContext) : option (string * Z) :=
  match ac_source c with
  | ApiKey _ _ _ key_name key_id => Some (key_name, key_id)
  | _ => None
  end.

Definition deployment_token_info (c : AuthContext) : option DeploymentTokenInfo :=
  match ac_source c with
  | DeploymentToken project environment deployment token name _ =>
      Some {| dti_project_id := project; dti_environment_id := environment;
              dti_deployment_id := deployment; dti_token_id := token; dti_token_name := name |}
  | _ => None
  end.

Definition ctx_project_id (c : AuthContext) : option Z :=
  match ac_source c with DeploymentToken project _ _ _ _ _ => Some project | _ => None end.

Definition ctx_deployment_id (c : AuthContext) : option Z :=
  match ac_source c with DeploymentToken _ _ deployment _ _ _ => deployment | _ => None end.

(** [AuthContext::require_user]. *)
Definition require_user (c : AuthContext) : result unit UserModel := ok_or () (ac_user c).

(** [AuthContext::is_scoped_to_project]. *)
Definition is_scoped_to_project (c : AuthContext) (project_id : Z) : bool :=
  match ctx_project_id c with
  | Some token_project_id => token_project_id =? project_id
  | None => true
  end.

(** ** Contexts the constructors build *)

Inductive built : AuthContext -> Prop :=
  | built_session u r : built (new_session u r)
  | built_persisted u r s : built (new_persisted_session u r s)
  | built_cli u r : built (new_cli_token u r)
  | built_api_key u r ps n k : built (new_api_key u r ps n k)
  | built_deployment p e d t n ps : built (new_deployment_token p e d t n ps).

(** The deployment-token fields and the source agree, and only a deployment token has
    no user. *)
Lemma built_consistent c :
  built c ->
  (is_deployment_token c = true <-> is_Some (ac_deployment_token_permissions c)) /\
  (is_deployment_token c = true <-> ac_user c = None) /\
  (is_deployment_token c = true -> ac_effective_role c = Custom /\ ac_custom_permissions c = None).
Proof.
  destruct 1; simpl; split_and!; split; try done; try (by eexists); try (by intros []).
Qed.

(** The standard permissions a deployment token can ever satisfy. *)
Definition dt_reachable : list Permission :=
  [AnalyticsRead; AnalyticsWrite; EmailsSend; AiGatewayExecute; FlagsRead;
   BlobRead; BlobWrite; BlobDelete; KvRead; KvWrite; KvDelete].

Lemma required_dt_perm_reachable p : is_Some (required_dt_perm p) <-> p ∈ dt_reachable.
Proof.
  transitivity (bool_decide (p ∈ dt_reachable) = true); [|by rewrite bool_decide_eq_true].
  destruct p; vm_compute; split; try done; try (by eexists); by intros [].
Qed.

(** C30: A deployment token is confined: whatever its permissions, full access
    included, it satisfies only the eleven standard permissions mapped to deployment
    ones, never administers the instance, is no user, and passes the scope check of
    its own project only. *)
Theorem deployment_token_confined project e d t n ps p other :
  let c := new_deployment_token project e d t n ps in
  (ctx_has_permission c p = true ->
     p ∈ dt_reachable /\ exists required, required_dt_perm p = Some required /\
       (required ∈ ps \/ DtFullAccess ∈ ps)) /\
  is_instance_admin c = false /\
  require_user c = Err () /\
  (is_scoped_to_project c other = true <-> other = project).
Proof.
  intros c. split_and!.
  - unfold ctx_has_permission. simpl. destruct (required_dt_perm p) as [r|] eqn:Hr; [|done].
    rewrite existsb_exists. intros (x & Hx%list_elem_of_In & Hg).
    split; [apply required_dt_perm_reachable; by eexists|]. exists r. split; [done|].
    destruct x; simpl in Hg; try (right; exact Hx); left; apply bool_decide_eq_true in Hg; by subst r.
  - done.
  - done.
  - unfold is_scoped_to_project. simpl. rewrite Z.eqb_eq. naive_solver.
Qed.

(** Custom permissions of an API key replace its role: the key may do exactly
    what its list says, also when its role would allow more. *)
Theorem api_key_custom_permissions u role ps n k p :
  ctx_has_permission (new_api_key u role (Some ps) n k) p = true <-> p ∈ ps.
Proof. apply bool_decide_eq_true. Qed.

(** The deployment-token names read back: [from_str] inverts [as_str] and [all]
    lists every permission. *)
Theorem dt_names_roundtrip p : dt_from_str (dt_as_str p) = Some p /\ p ∈ dt_all.
Proof. destruct p; split; try reflexivity; apply (bool_decide_unpack _); vm_compute; exact I. Qed.
