(* ===== verification/TeamAccess.v ===== *)
(** * Team-based project access

    [crates/temps-teams/src/role_permissions.rs] and [checker.rs], the team role of
    [crates/temps-entities/src/team_role.rs], the trait [ProjectAccessChecker] of
    [crates/temps-core/src/project_access.rs] and the guard macros of
    [crates/temps-auth/src/permission_guard.rs].

    The two tables and the user rows are a [Db] whose queries may fail; the caches are
    finite maps, an entry may disappear at any time ([Expire]); a membership resolver
    is another plugin's, a parameter.  A [Vec<String>] collected from a [HashSet] is
    the set. *)

From stdpp Require Import sorting.
From S2P Require Import Prelude Permissions AuthContext.
Local Open Scope Z_scope.

(** ** Team roles *)

(** [enum TeamRole] with [as_str] and [from_str]. *)
Inductive TeamRole := TrOwner | TrAdmin | TrDeployer | TrViewer.

#[export] Instance team_role_eq_dec : EqDecision TeamRole.
Proof. solve_decision. Defined.

Definition team_role_as_str (r : TeamRole) : string :=
  match r with
  | TrOwner => "owner"
  | TrAdmin => "admin"
  | TrDeployer => "deployer"
  | TrViewer => "viewer"
  end.

Definition team_role_from_str (s : string) : option TeamRole :=
  find_name s [("owner", TrOwner); ("admin", TrAdmin); ("deployer", TrDeployer); ("viewer", TrViewer)].

(** The read-only permissions. *)
Definition VIEWER : list Permission :=
  [
   ProjectsRead; DeploymentsRead; DomainsRead; EnvironmentsRead; LogsRead; MetricsRead;
   AnalyticsRead; BackupsRead; CronsRead; ExternalServicesRead; FilesRead; PipelinesRead;
   ErrorTrackingRead; StatusPageRead; OtelRead; VulnerabilityScansRead; BlobRead; KvRead;
   StacksRead; SandboxesRead; SpeedInsightsRead; SessionMetricsRead; FunnelRead;
   DeploymentTokensRead].

(** What a deployer holds on top. *)
Definition DEPLOYER_ADDITIONS : list Permission :=
  [
   DeploymentsCreate; DeploymentsWrite; EnvironmentsCreate; EnvironmentsWrite;
   PipelinesCreate; PipelinesWrite; PipelinesExecute; StacksWrite].

(** What an admin holds on top. *)
Definition ADMIN_ADDITIONS : list Permission :=
  [
   ProjectsWrite; DeploymentsDelete; DomainsCreate; DomainsWrite; DomainsDelete;
   EnvironmentsDelete; BackupsCreate; BackupsWrite; BackupsDelete; CronsCreate; CronsWrite;
   CronsDelete; ExternalServicesCreate; ExternalServicesWrite; ExternalServicesDelete;
   FilesWrite; FilesUpload; FilesDelete; ErrorTrackingWrite; ErrorTrackingCreate;
   StatusPageWrite; StatusPageCreate; StatusPageDelete; VulnerabilityScansWrite;
   VulnerabilityScansCreate; VulnerabilityScansDelete; BlobWrite; BlobDelete; KvWrite;
   KvDelete; StacksCreate; StacksDelete; SandboxesWrite; SandboxesExec; DeploymentTokensWrite;
   DeploymentTokensCreate; DeploymentTokensDelete; OtelWrite].

(** What an owner holds on top. *)
Definition OWNER_ADDITIONS : list Permission :=
  [
   ProjectsDelete].

(** [fn fixed_role_permissions]. *)
Definition fixed_role_permissions (role : TeamRole) : list Permission :=
  let perms := VIEWER in
  let perms := match role with
               | TrDeployer | TrAdmin | TrOwner => perms ++ DEPLOYER_ADDITIONS
               | _ => perms
               end in
  let perms := match role with
               | TrAdmin | TrOwner => perms ++ ADMIN_ADDITIONS
               | _ => perms
               end in
  match role with
  | TrOwner => perms ++ OWNER_ADDITIONS
  | _ => perms
  end.

(** [fn fixed_role_permissions_or_empty]. *)
Definition fixed_role_permissions_or_empty (role : string) : list Permission :=
  match team_role_from_str role with
  | Some r => fixed_role_permissions r
  | None => []
  end.

(** ** The tables *)

Record Grant := { g_id : Z; g_project_id : Z; g_team_id : Z; g_role : string }.
Record Membership := { mb_id : Z; mb_team_id : Z; mb_user_id : Z; mb_role : string }.

#[export] Instance grant_eq_dec : EqDecision Grant.
Proof. solve_decision. Defined.
#[export] Instance membership_eq_dec : EqDecision Membership.
Proof. solve_decision. Defined.

(** The rows, the users with whether they are soft-deleted, and whether the queries on
    the two tables succeed. *)
Record Db := {
  db_grants : list Grant;
  db_members : list Membership;
  db_users : list (Z * bool);
  db_grants_up : bool;
  db_members_up : bool
}.

Inductive CheckerError :=
  | AccessGrantQuery (project_id : Z)
  | MembershipQuery (user_id project_id : Z)
  | MembershipResolution (team_member_id user_id project_id : Z)
  | AccessGrantBatchQuery (project_ids : list Z)
  | MembershipBatchQuery (user_id : Z) (project_ids : list Z)
  | MembershipBatchResolution (team_member_id user_id : Z) (project_ids : list Z).

(** A user row that is not soft-deleted. *)
Definition live (db : Db) (user_id : Z) : bool :=
  existsb (fun '(id, deleted) => (id =? user_id) && negb deleted) (db_users db).

Definition query_grants (db : Db) (err : CheckerError) (p : Grant -> bool)
    : result CheckerError (list Grant) :=
  if db_grants_up db then Ok (List.filter p (db_grants db)) else Err err.

(** Membership rows joined with their live users. *)
Definition query_members (db : Db) (err : CheckerError) (p : Membership -> bool)
    : result CheckerError (list Membership) :=
  if db_members_up db
  then Ok (List.filter (fun m => p m && live db (mb_user_id m)) (db_members db)) else Err err.

Definition is_in (x : Z) (l : list Z) : bool := existsb (Z.eqb x) l.

(** [sort_unstable] and [dedup]. *)
Definition sort_dedup (l : list Z) : list Z := merge_sort Z.le (remove_dups l).

Section Checker.

(** [MembershipPermissionResolver::membership_permissions] of a registered resolver. *)
Context (membership_resolver : option (Z -> result unit (option (list string)))).

(** ** Resolution *)

(** [fn resolve_member_side]; strings that name no permission are dropped. *)
Definition resolve_member_side (m : Membership) : result unit (option (list Permission)) :=
  match membership_resolver with
  | None => Ok None
  | Some resolver =>
      let? answer := resolver (mb_id m) in
      match answer with
      | None => Ok None
      | Some strings => Ok (Some (omap permission_from_str strings))
      end
  end.

(** The member's side of the intersection. *)
Definition member_side (m : Membership) : result unit (list Permission) :=
  let? answer := resolve_member_side m in
  Ok (match answer with
      | Some perms => perms
      | None => fixed_role_permissions_or_empty (mb_role m)
      end).

(** [fn permissions_from_resolved_memberships]. *)
Definition permissions_from_resolved_memberships (grants : list Grant)
    (memberships : list Membership) (sides : gmap Z (list Permission)) : gset string :=
  fold_left (fun effective m =>
      match List.find (fun g => g_team_id g =? mb_team_id m) grants with
      | None => effective
      | Some grant =>
          match sides !! mb_id m with
          | None => effective
          | Some side =>
              let grant_side := fixed_role_permissions_or_empty (g_role grant) in
              effective ∪ list_to_set (map permission_to_string
                (filter (fun p => p ∈ grant_side) side))
          end
      end) memberships ∅.

(** The loops that resolve the member sides: the first error stops them. *)
Definition resolve_sides (err : Membership -> CheckerError) (memberships : list Membership)
    : result CheckerError (gmap Z (list Permission)) :=
  result_fold (fun sides m =>
      match member_side m with
      | Ok perms => Ok (<[mb_id m := perms]> sides)
      | Err _ => Err (err m)
      end) memberships ∅.

(** The batch loop also skips a membership id it has seen. *)
Definition resolve_sides_batch (err : Membership -> CheckerError) (memberships : list Membership)
    : result CheckerError (gset Z * gmap Z (list Permission)) :=
  result_fold (fun '(seen, sides) m =>
      if bool_decide (mb_id m ∈ seen) then Ok (seen, sides)
      else
        match member_side m with
        | Ok perms => Ok ({[mb_id m]} ∪ seen, <[mb_id m := perms]> sides)
        | Err _ => Err (err m)
        end) memberships (∅, ∅).

(** [fn permissions_from_grants]. *)
Definition permissions_from_grants (db : Db) (user_id project_id : Z) (grants : list Grant)
    : result CheckerError (gset string) :=
  match grants with
  | [] => Ok ∅
  | _ =>
      let granted_team_ids := map g_team_id grants in
      let? memberships := query_members db (MembershipQuery user_id project_id)
        (fun m => (mb_user_id m =? user_id) && is_in (mb_team_id m) granted_team_ids) in
      match memberships with
      | [] => Ok ∅
      | _ =>
          let? sides := resolve_sides
            (fun m => MembershipResolution (mb_id m) user_id project_id) memberships in
          Ok (permissions_from_resolved_memberships grants memberships sides)
      end
  end.

(** [check_uncached]. *)
Definition check_uncached (db : Db) (user_id project_id : Z) : result CheckerError bool :=
  let? grants := query_grants db (AccessGrantQuery project_id)
    (fun g => g_project_id g =? project_id) in
  match grants with
  | [] => Ok true
  | _ =>
      let granted_team_ids := map g_team_id grants in
      let? memberships := query_members db (MembershipQuery user_id project_id)
        (fun m => (mb_user_id m =? user_id) && is_in (mb_team_id m) granted_team_ids) in
      Ok (match memberships with [] => false | _ => true end)
  end.

(** [check_permissions_uncached]. *)
Definition check_permissions_uncached (db : Db) (user_id project_id : Z)
    : result CheckerError (option (gset string)) :=
  let? grants := query_grants db (AccessGrantQuery project_id)
    (fun g => g_project_id g =? project_id) in
  match grants with
  | [] => Ok None
  | _ => let? perms := permissions_from_grants db user_id project_id grants in Ok (Some perms)
  end.

(** [hidden_project_ids_uncached]. *)
Definition hidden_project_ids_uncached (db : Db) (user_id : Z) : result CheckerError (list Z) :=
  let? memberships := query_members db (MembershipQuery user_id 0)
    (fun m => mb_user_id m =? user_id) in
  let user_team_ids := map mb_team_id memberships in
  let? rows := query_grants db (AccessGrantQuery 0) (fun _ => true) in
  let gated := remove_dups (map g_project_id rows) in
  match gated with
  | [] => Ok []
  | _ =>
      let? allowed :=
        match user_team_ids with
        | [] => Ok []
        | _ => let? rows := query_grants db (AccessGrantQuery 0)
                 (fun g => is_in (g_team_id g) user_team_ids) in
               Ok (map g_project_id rows)
        end in
      Ok (List.filter (fun id => negb (is_in id allowed)) gated)
  end.

(** ** The checker with its caches *)

Record Checker := {
  ck_cache : gmap (Z * Z) bool;
  ck_permissions_cache : gmap (Z * Z) (option (gset string))
}.

Definition checker_new : Checker := {| ck_cache := ∅; ck_permissions_cache := ∅ |}.

(** [invalidate_project], [invalidate_user], [invalidate_all]. *)
Definition invalidate_project (project_id : Z) (c : Checker) : Checker := {|
  ck_cache := filter (fun kv => kv.1.2 <> project_id) (ck_cache c);
  ck_permissions_cache := filter (fun kv => kv.1.2 <> project_id) (ck_permissions_cache c) |}.

Definition invalidate_user (user_id : Z) (c : Checker) : Checker := {|
  ck_cache := filter (fun kv => kv.1.1 <> user_id) (ck_cache c);
  ck_permissions_cache := filter (fun kv => kv.1.1 <> user_id) (ck_permissions_cache c) |}.

Definition invalidate_all (c : Checker) : Checker := checker_new.

(** [user_can_access_project], [effective_project_permissions]. *)
Definition user_can_access_project (db : Db) (user_id project_id : Z) (c : Checker)
    : result CheckerError bool * Checker :=
  match ck_cache c !! (user_id, project_id) with
  | Some cached => (Ok cached, c)
  | None =>
      match check_uncached db user_id project_id with
      | Err e => (Err e, c)
      | Ok allowed =>
          (Ok allowed, {| ck_cache := <[(user_id, project_id) := allowed]> (ck_cache c);
                          ck_permissions_cache := ck_permissions_cache c |})
      end
  end.

Definition effective_project_permissions (db : Db) (user_id project_id : Z) (c : Checker)
    : result CheckerError (option (gset string)) * Checker :=
  match ck_permissions_cache c !! (user_id, project_id) with
  | Some cached => (Ok cached, c)
  | None =>
      match check_permissions_uncached db user_id project_id with
      | Err e => (Err e, c)
      | Ok resolved =>
          (Ok resolved, {| ck_cache := ck_cache c;
                           ck_permissions_cache :=
                             <[(user_id, project_id) := resolved]> (ck_permissions_cache c) |})
      end
  end.

(** The cache lookups of a batch: the hits, and the ids that missed. *)
Definition split_hits {A} (cache : gmap (Z * Z) A) (user_id : Z) (ids : list Z)
    : gmap Z A * list Z :=
  fold_left (fun '(hits, misses) id =>
      match cache !! (user_id, id) with
      | Some cached => (<[id := cached]> hits, misses)
      | None => (hits, misses ++ [id])
      end) ids (∅, []).

(** [grants_by_project]: the rows by project, in query order. *)
Definition group_grants (grants : list Grant) : gmap Z (list Grant) :=
  fold_left (fun by_project g =>
      <[g_project_id g := default [] (by_project !! g_project_id g) ++ [g]]> by_project)
    grants ∅.

(** The misses written back to a cache. *)
Definition fill {A} (user_id : Z) (answers : gmap Z A) (misses : list Z)
    (cache : gmap (Z * Z) A) : gmap (Z * Z) A :=
  fold_left (fun cache id =>
      match answers !! id with
      | Some a => <[(user_id, id) := a]> cache
      | None => cache
      end) misses cache.

(** Whether one of the teams granted on a project is one of the user's. *)
Definition granted_to (project_grants : list Grant) (member_team_ids : list Z) : bool :=
  existsb (fun g => is_in (g_team_id g) member_team_ids) project_grants.

(** [check_access_batch]. *)
Definition check_access_batch (db : Db) (user_id : Z) (project_ids : list Z) (c : Checker)
    : result CheckerError (gmap Z bool) * Checker :=
  let unique_project_ids := sort_dedup project_ids in
  let '(hits, misses) := split_hits (ck_cache c) user_id unique_project_ids in
  match misses with
  | [] => (Ok hits, c)
  | _ =>
      let outcome :=
        let? grants := query_grants db (AccessGrantBatchQuery misses)
          (fun g => is_in (g_project_id g) misses) in
        let grants_by_project := group_grants grants in
        let granted_team_ids := sort_dedup (map g_team_id grants) in
        let? memberships :=
          match granted_team_ids with
          | [] => Ok []
          | _ => query_members db (MembershipBatchQuery user_id misses)
                   (fun m => (mb_user_id m =? user_id) && is_in (mb_team_id m) granted_team_ids)
          end in
        let member_team_ids := map mb_team_id memberships in
        Ok (fold_left (fun access id =>
              let allowed := match grants_by_project !! id with
                             | Some project_grants => granted_to project_grants member_team_ids
                             | None => true
                             end in
              <[id := allowed]> access) misses hits) in
      match outcome with
      | Err e => (Err e, c)
      | Ok access =>
          (Ok access, {| ck_cache := fill user_id access misses (ck_cache c);
                         ck_permissions_cache := ck_permissions_cache c |})
      end
  end.

(** [check_permissions_batch]. *)
Definition check_permissions_batch (db : Db) (user_id : Z) (project_ids : list Z) (c : Checker)
    : result CheckerError (gmap Z (option (gset string))) * Checker :=
  let unique_project_ids := sort_dedup project_ids in
  let '(hits, misses) := split_hits (ck_permissions_cache c) user_id unique_project_ids in
  match misses with
  | [] => (Ok hits, c)
  | _ =>
      let outcome :=
        let? grants := query_grants db (AccessGrantBatchQuery misses)
          (fun g => is_in (g_project_id g) misses) in
        let grants_by_project := group_grants grants in
        let granted_team_ids := sort_dedup (map g_team_id grants) in
        let? memberships :=
          match granted_team_ids with
          | [] => Ok []
          | _ => query_members db (MembershipBatchQuery user_id misses)
                   (fun m => (mb_user_id m =? user_id) && is_in (mb_team_id m) granted_team_ids)
          end in
        let affected m :=
          List.filter (fun id => existsb (fun g => g_team_id g =? mb_team_id m)
                                   (default [] (grants_by_project !! id)))
            (merge_sort Z.le (elements (dom grants_by_project))) in
        let? (_, sides) := resolve_sides_batch
          (fun m => MembershipBatchResolution (mb_id m) user_id (affected m)) memberships in
        let member_team_ids := map mb_team_id memberships in
        Ok (fold_left (fun '(permissions, coarse) id =>
              let '(resolved, allowed) :=
                match grants_by_project !! id with
                | Some project_grants =>
                    (Some (permissions_from_resolved_memberships project_grants memberships sides),
                     granted_to project_grants member_team_ids)
                | None => (None, true)
                end in
              (<[id := resolved]> permissions, <[id := allowed]> coarse)) misses (hits, ∅)) in
      match outcome with
      | Err e => (Err e, c)
      | Ok (permissions, coarse_access) =>
          (Ok permissions,
           {| ck_cache := fill user_id coarse_access misses (ck_cache c);
              ck_permissions_cache := fill user_id permissions misses (ck_permissions_cache c) |})
      end
  end.

(** ** Facts about the queries *)

Lemma is_in_spec x l : is_in x l = true <-> x ∈ l.
Proof.
  unfold is_in. rewrite existsb_exists, list_elem_of_In. split.
  - intros (y & Hy & ->%Z.eqb_eq). done.
  - intros Hx. exists x. by rewrite Z.eqb_refl.
Qed.

Lemma sort_dedup_elem x l : x ∈ sort_dedup l <-> x ∈ l.
Proof. unfold sort_dedup. rewrite merge_sort_Permutation. apply elem_of_remove_dups. Qed.

Lemma sort_dedup_NoDup l : NoDup (sort_dedup l).
Proof. unfold sort_dedup. rewrite merge_sort_Permutation. apply NoDup_remove_dups. Qed.

Lemma filter_filter {A} (p q : A -> bool) l :
  List.filter q (List.filter p l) = List.filter (fun x => p x && q x) l.
Proof.
  induction l as [|x l IH]; simpl; [done|].
  destruct (p x); simpl; [|done]. by destruct (q x); rewrite IH.
Qed.

Lemma filter_ext_in' {A} (p q : A -> bool) l :
  (forall x, x ∈ l -> p x = q x) -> List.filter p l = List.filter q l.
Proof. intros Hpq. apply filter_ext_in. intros x Hx. by apply Hpq, list_elem_of_In. Qed.

(** The same rows with both tables reachable. *)
Definition up (db : Db) : Db := {|
  db_grants := db_grants db; db_members := db_members db; db_users := db_users db;
  db_grants_up := true; db_members_up := true |}.

Lemma up_id db : db_grants_up db = true -> db_members_up db = true -> db = up db.
Proof. destruct db. simpl. by intros -> ->. Qed.

Definition grants_of (db : Db) (project_id : Z) : list Grant :=
  List.filter (fun g => g_project_id g =? project_id) (db_grants db).

(** The user's rows on the given teams. *)
Definition members_of (db : Db) (user_id : Z) (teams : list Z) : list Membership :=
  List.filter (fun m => (mb_user_id m =? user_id) && is_in (mb_team_id m) teams
                        && live db (mb_user_id m)) (db_members db).

Lemma query_grants_Ok db err p l :
  query_grants db err p = Ok l -> l = List.filter p (db_grants db) /\ db_grants_up db = true.
Proof. unfold query_grants. destruct (db_grants_up db); naive_solver. Qed.

Lemma query_members_Ok db err p l :
  query_members db err p = Ok l ->
  l = List.filter (fun m => p m && live db (mb_user_id m)) (db_members db) /\
  db_members_up db = true.
Proof. unfold query_members. destruct (db_members_up db); naive_solver. Qed.

Lemma elem_members_of db u teams m :
  m ∈ members_of db u teams <->
  m ∈ db_members db /\ mb_user_id m = u /\ mb_team_id m ∈ teams /\ live db u = true.
Proof.
  unfold members_of.
  rewrite list_elem_of_In, filter_In, <- list_elem_of_In, !andb_true_iff, Z.eqb_eq, is_in_spec.
  split; [intros (? & (<- & ?) & ?)|intros (? & <- & ? & ?)]; auto.
Qed.

Lemma elem_grants_of db p g : g ∈ grants_of db p <-> g ∈ db_grants db /\ g_project_id g = p.
Proof. unfold grants_of. rewrite !list_elem_of_In, filter_In, Z.eqb_eq. done. Qed.

(** The uncached checks on reachable tables, as functions of the rows. *)
Lemma check_uncached_up db u p :
  check_uncached (up db) u p =
  Ok (match grants_of db p with
      | [] => true
      | gs => match members_of db u (map g_team_id gs) with [] => false | _ => true end
      end).
Proof.
  unfold check_uncached, query_grants, query_members. simpl. fold (grants_of db p).
  destruct (grants_of db p) as [|g gs]; [done|]. done.
Qed.

Lemma check_uncached_Ok db u p b :
  check_uncached db u p = Ok b -> check_uncached (up db) u p = Ok b.
Proof.
  unfold check_uncached. intros Hc. apply result_bind_Ok in Hc as (gs & Hg & Hc).
  apply query_grants_Ok in Hg as [-> _]. unfold query_grants. simpl.
  destruct (List.filter _ _) as [|g gs]; [done|].
  apply result_bind_Ok in Hc as (ms & Hm & Hc). apply query_members_Ok in Hm as [-> _].
  simplify_eq. done.
Qed.

Lemma permissions_from_grants_up db u p gs :
  gs <> [] ->
  permissions_from_grants (up db) u p gs =
  let ms := members_of db u (map g_team_id gs) in
  let? sides := resolve_sides (fun m => MembershipResolution (mb_id m) u p) ms in
  Ok (permissions_from_resolved_memberships gs ms sides).
Proof.
  intros Hne. unfold permissions_from_grants. destruct gs as [|g gs]; [done|].
  assert (query_members (up db) (MembershipQuery u p)
    (fun m => (mb_user_id m =? u) && is_in (mb_team_id m) (map g_team_id (g :: gs))) =
    Ok (members_of db u (map g_team_id (g :: gs)))) as -> by reflexivity.
  cbn [result_bind]. by destruct (members_of db u _).
Qed.

Lemma check_permissions_up db u p :
  check_permissions_uncached (up db) u p =
  match grants_of db p with
  | [] => Ok None
  | gs => let? perms := permissions_from_grants (up db) u p gs in Ok (Some perms)
  end.
Proof.
  unfold check_permissions_uncached.
  change (query_grants (up db) _ _) with (@Ok CheckerError _ (grants_of db p)).
  cbn [result_bind]. by destruct (grants_of db p).
Qed.

Lemma check_permissions_Ok db u p r :
  check_permissions_uncached db u p = Ok r -> check_permissions_uncached (up db) u p = Ok r.
Proof.
  unfold check_permissions_uncached. intros Hc. apply result_bind_Ok in Hc as (gs & Hg & Hc).
  apply query_grants_Ok in Hg as [-> Hup].
  change (query_grants (up db) _ _) with (@Ok CheckerError _ (grants_of db p)).
  unfold grants_of. cbn [result_bind]. destruct (List.filter _ _) as [|g gs]; [done|].
  enough (db_members_up db = true) as Hm by (by rewrite <- (up_id db Hup Hm)).
  apply result_bind_Ok in Hc as (ps & Hp & _). unfold permissions_from_grants in Hp.
  apply result_bind_Ok in Hp as (ms & Hm & _). by apply query_members_Ok in Hm as [_ ?].
Qed.

(** ** Resolved permissions *)

(** What a membership contributes under the grants of a project. *)
Definition contributes (grants : list Grant) (m : Membership) (side : list Permission) (s : string)
    : Prop :=
  exists g p, List.find (fun g => g_team_id g =? mb_team_id m) grants = Some g /\
    p ∈ side /\ p ∈ fixed_role_permissions_or_empty (g_role g) /\ s = permission_to_string p.

Lemma resolved_memberships_spec grants ms (sides : gmap Z (list Permission)) s :
  s ∈ permissions_from_resolved_memberships grants ms sides <->
  exists m side, m ∈ ms /\ sides !! mb_id m = Some side /\ contributes grants m side s.
Proof.
  unfold permissions_from_resolved_memberships.
  assert (forall acc : gset string, s ∈ fold_left (fun effective m =>
      match List.find (fun g => g_team_id g =? mb_team_id m) grants with
      | None => effective
      | Some grant =>
          match sides !! mb_id m with
          | None => effective
          | Some side => effective ∪ list_to_set (map permission_to_string
              (filter (fun p => p ∈ fixed_role_permissions_or_empty (g_role grant)) side))
          end
      end) ms acc <->
    s ∈ acc \/ exists m side, m ∈ ms /\ sides !! mb_id m = Some side /\ contributes grants m side s)
    as Hgen; [|rewrite Hgen; set_solver].
  induction ms as [|m ms IH]; intros acc; simpl; [set_solver|]. rewrite IH.
  unfold contributes. destruct (List.find _ grants) as [g|] eqn:Hg;
    [destruct (sides !! mb_id m) as [side|] eqn:Hs|].
  - rewrite elem_of_union, elem_of_list_to_set, list_elem_of_fmap.
    setoid_rewrite list_elem_of_filter. split.
    + intros [[Ha|(p & -> & Hp & Hin)]|(m' & side' & ? & ? & ?)]; [by left| |set_solver].
      right. exists m, side. split_and!; [set_solver|done|]. by exists g, p.
    + intros [Ha|(m' & side' & [->|Hm]%elem_of_cons & Hs' & g' & p & Hg' & Hp & Hin & ->)];
        [by left; left| |right; by exists m', side'; eauto 10].
      simplify_eq. left. right. by exists p.
  - split; [set_solver|]. intros [Ha|(m' & side' & [->|Hm]%elem_of_cons & Hs' & Hc)];
      [by left|congruence|right; eauto].
  - split; [set_solver|]. intros [Ha|(m' & side' & [->|Hm]%elem_of_cons & Hs' & Hc)];
      [by left| |right; eauto].
    destruct Hc as (g' & p & Hg' & _). congruence.
Qed.

(** The resolution loops find the side of every membership, keyed by its id. *)
Lemma resolve_sides_spec (err : Membership -> CheckerError) ms (sides0 sides : gmap Z (list Permission)) :
  NoDup (map mb_id ms) ->
  result_fold (fun sides m =>
      match member_side m with
      | Ok perms => Ok (<[mb_id m := perms]> sides)
      | Err _ => Err (err m)
      end) ms sides0 = Ok sides ->
  (forall m, m ∈ ms -> exists side, member_side m = Ok side /\ sides !! mb_id m = Some side) /\
  (forall i, i ∉ map mb_id ms -> sides !! i = sides0 !! i).
Proof.
  revert sides0. induction ms as [|m ms IH]; intros sides0 Hnd Hf; simpl in *.
  { simplify_eq. split; [by intros ? ?%elem_of_nil|done]. }
  inversion Hnd as [|? ? Hni Hnd']; subst; clear Hnd; rename Hnd' into Hnd.
  apply result_bind_Ok in Hf as (s1 & Hs1 & Hf).
  destruct (member_side m) as [perms|] eqn:Hm; [|done]. simplify_eq.
  destruct (IH _ Hnd Hf) as [Hin Hout]. split.
  - intros m' [->|Hm']%elem_of_cons; [|by apply Hin]. exists perms. split; [done|].
    rewrite Hout by done. by rewrite lookup_insert_eq.
  - intros i Hi. rewrite not_elem_of_cons in Hi. rewrite Hout by tauto.
    rewrite lookup_insert_ne by (destruct Hi; congruence). done.
Qed.

Lemma resolve_sides_total err err' ms sides :
  resolve_sides err ms = Ok sides -> resolve_sides err' ms = Ok sides.
Proof.
  unfold resolve_sides. generalize (∅ : gmap Z (list Permission)).
  induction ms as [|m ms IH]; intros s0; simpl; [done|].
  destruct (member_side m); simpl; [apply IH|done].
Qed.

(** ** The loops of the batches *)

Lemma split_hits_spec {A} (cache : gmap (Z * Z) A) u ids hits misses :
  split_hits cache u ids = (hits, misses) ->
  (forall p, hits !! p = if decide (p ∈ ids) then cache !! (u, p) else None) /\
  (forall p, p ∈ misses <-> p ∈ ids /\ cache !! (u, p) = None).
Proof.
  unfold split_hits.
  enough (forall h0 m0, fold_left (fun '(hits, misses) id =>
      match cache !! (u, id) with
      | Some cached => (<[id := cached]> hits, misses)
      | None => (hits, misses ++ [id])
      end) ids (h0, m0) = (hits, misses) ->
    (forall p, hits !! p = match cache !! (u, p) with
                           | Some a => if decide (p ∈ ids) then Some a else h0 !! p
                           | None => h0 !! p
                           end) /\
    (forall p, p ∈ misses <-> p ∈ m0 \/ (p ∈ ids /\ cache !! (u, p) = None))) as Hgen.
  { intros Hs. destruct (Hgen ∅ [] Hs) as [Hh Hm]. split; intros p; [rewrite Hh|rewrite Hm].
    - rewrite lookup_empty. by destruct (cache !! (u, p)), (decide (p ∈ ids)).
    - set_solver. }
  induction ids as [|id ids IH]; intros h0 m0 Hf; simpl in Hf.
  { simplify_eq. split; intros p; [by destruct (cache !! (u, p))|set_solver]. }
  destruct (cache !! (u, id)) as [a|] eqn:Hc; destruct (IH _ _ Hf) as [Hh Hm];
    (split; intros p; [rewrite Hh|rewrite Hm]).
  - destruct (decide (p = id)) as [->|Hne].
    + rewrite Hc, lookup_insert_eq. by rewrite (decide_True _ _ (list_elem_of_here id ids));
        destruct (decide (id ∈ ids)).
    + rewrite lookup_insert_ne by done. destruct (cache !! (u, p)); [|done].
      destruct (decide (p ∈ ids)), (decide (p ∈ id :: ids)); set_solver.
  - set_solver.
  - destruct (cache !! (u, p)) eqn:Hp; [|done].
    assert (p <> id) by congruence.
    destruct (decide (p ∈ ids)), (decide (p ∈ id :: ids)); set_solver.
  - set_solver.
Qed.

Lemma group_grants_spec gs p :
  group_grants gs !! p =
  match List.filter (fun g => g_project_id g =? p) gs with
  | [] => None
  | l => Some l
  end.
Proof.
  unfold group_grants.
  assert (forall acc : gmap Z (list Grant), fold_left (fun by_project g =>
      <[g_project_id g := default [] (by_project !! g_project_id g) ++ [g]]> by_project)
    gs acc !! p =
    match List.filter (fun g => g_project_id g =? p) gs with
    | [] => acc !! p
    | l => Some (default [] (acc !! p) ++ l)
    end) as Hgen.
  { induction gs as [|g gs IH]; intros acc; simpl; [done|]. rewrite IH.
    destruct (Z.eqb_spec (g_project_id g) p) as [<-|Hne].
    - rewrite lookup_insert_eq. simpl. destruct (List.filter _ gs); [done|].
      by rewrite <- app_assoc.
    - by rewrite lookup_insert_ne by done. }
  rewrite Hgen. by destruct (List.filter _ gs).
Qed.

Lemma fold_insert_spec {A} (f : Z -> A) ids (acc : gmap Z A) p :
  fold_left (fun acc id => <[id := f id]> acc) ids acc !! p =
  if decide (p ∈ ids) then Some (f p) else acc !! p.
Proof.
  revert acc. induction ids as [|id ids IH]; intros acc; simpl; [done|]. rewrite IH.
  destruct (decide (p = id)) as [->|Hne].
  - rewrite lookup_insert_eq. rewrite (decide_True _ _ (list_elem_of_here id ids)).
    by destruct (decide (id ∈ ids)).
  - rewrite lookup_insert_ne by done.
    destruct (decide (p ∈ ids)), (decide (p ∈ id :: ids)); set_solver.
Qed.

Lemma fill_spec {A} u (answers : gmap Z A) misses cache u' p :
  fill u answers misses cache !! (u', p) =
  if decide (u' = u /\ p ∈ misses)
  then match answers !! p with Some a => Some a | None => cache !! (u', p) end
  else cache !! (u', p).
Proof.
  unfold fill. revert cache. induction misses as [|id misses IH]; intros cache; simpl.
  { destruct (decide _) as [[_ Hp%elem_of_nil]|]; done. }
  rewrite IH. destruct (decide (u' = u /\ p = id)) as [[-> ->]|Hne].
  - rewrite (decide_True (P := u = u /\ id ∈ id :: misses)) by (split; [done|left]).
    destruct (answers !! id) as [a|]; [rewrite lookup_insert_eq|]; by destruct (decide _).
  - assert (match answers !! id with Some a => <[(u, id) := a]> cache | None => cache end
      !! (u', p) = cache !! (u', p)) as ->.
    { destruct (answers !! id); [|done]. apply lookup_insert_ne. naive_solver. }
    destruct (decide (u' = u /\ p ∈ misses)), (decide (u' = u /\ p ∈ id :: misses));
      set_solver.
Qed.

(** The rows a batch reads for one of its misses. *)
Lemma batch_grants db misses p :
  p ∈ misses ->
  group_grants (List.filter (fun g => is_in (g_project_id g) misses) (db_grants db)) !! p =
  match grants_of db p with [] => None | l => Some l end.
Proof.
  intros Hp. rewrite group_grants_spec, filter_filter.
  rewrite (filter_ext_in' _ (fun g => g_project_id g =? p)); [done|].
  intros g _. destruct (Z.eqb_spec (g_project_id g) p) as [->|]; [|by rewrite andb_false_r].
  by rewrite andb_true_r, (proj2 (is_in_spec _ _)).
Qed.

(** The memberships a batch reads: those on the teams granted on any miss. *)
Definition batch_teams (db : Db) (misses : list Z) : list Z :=
  sort_dedup (map g_team_id
    (List.filter (fun g => is_in (g_project_id g) misses) (db_grants db))).

Lemma batch_teams_spec db misses p g :
  p ∈ misses -> g ∈ grants_of db p -> g_team_id g ∈ batch_teams db misses.
Proof.
  intros Hp [Hg Hgp]%elem_grants_of. unfold batch_teams. rewrite sort_dedup_elem.
  apply list_elem_of_fmap. exists g. split; [done|].
  apply list_elem_of_In, filter_In. rewrite is_in_spec, Hgp. split; [|done].
  by apply list_elem_of_In.
Qed.

Lemma batch_access db u misses p gs :
  p ∈ misses -> grants_of db p = gs -> gs <> [] ->
  granted_to gs (map mb_team_id (members_of db u (batch_teams db misses))) =
  match members_of db u (map g_team_id gs) with [] => false | _ => true end.
Proof.
  intros Hp Hgs Hne. apply eq_true_iff_eq.
  assert (match members_of db u (map g_team_id gs) with [] => false | _ => true end = true <->
    exists m, m ∈ members_of db u (map g_team_id gs)) as ->.
  { destruct (members_of db u (map g_team_id gs)) as [|m l]; [|split; eauto using list_elem_of_here].
    split; [done|]. by intros [? ?%elem_of_nil]. }
  unfold granted_to. rewrite existsb_exists. split.
  - intros (g & Hg%list_elem_of_In & Hin). apply is_in_spec, list_elem_of_fmap in Hin as (m & Heq & Hm).
    apply elem_members_of in Hm as (Hm & Hu & _ & Hl). exists m. apply elem_members_of.
    split_and!; try done. apply list_elem_of_fmap. eauto.
  - intros (m & (Hm & Hu & Ht & Hl)%elem_members_of). apply list_elem_of_fmap in Ht as (g & Heq & Hg).
    exists g. split; [by apply list_elem_of_In|]. apply is_in_spec, list_elem_of_fmap. exists m.
    split; [done|]. apply elem_members_of. split_and!; try done. rewrite Heq.
    eapply batch_teams_spec; [done|]. by rewrite Hgs.
Qed.

(** ** Caches that agree with the rows *)

Definition coherent (db : Db) (c : Checker) : Prop :=
  (forall u p b, ck_cache c !! (u, p) = Some b -> check_uncached (up db) u p = Ok b) /\
  (forall u p r, ck_permissions_cache c !! (u, p) = Some r ->
     check_permissions_uncached (up db) u p = Ok r).

Lemma members_of_nil db u : members_of db u [] = [].
Proof.
  unfold members_of. induction (db_members db) as [|m l IH]; simpl; [done|].
  by rewrite andb_false_r.
Qed.

(** The membership query of a batch, also when it is skipped. *)
Lemma batch_memberships db u misses err ms :
  match batch_teams db misses with
  | [] => Ok []
  | _ => query_members db err
           (fun m => (mb_user_id m =? u) && is_in (mb_team_id m) (batch_teams db misses))
  end = Ok ms -> ms = members_of db u (batch_teams db misses).
Proof.
  destruct (batch_teams db misses) as [|t ts] eqn:Ht.
  - intros [= <-]. by rewrite members_of_nil.
  - intros Hq. by apply query_members_Ok in Hq as [-> _].
Qed.

Lemma member_ids_NoDup db u teams :
  NoDup (map mb_id (db_members db)) -> NoDup (map mb_id (members_of db u teams)).
Proof.
  unfold members_of. intros Hnd. induction (db_members db) as [|m l IH]; simpl in *; [done|].
  inversion Hnd as [|? ? Hni Hnd']; subst. case_match; [|by apply IH]. simpl.
  constructor; [|by apply IH]. intros Hin. apply Hni.
  apply list_elem_of_fmap in Hin as (m' & Heq & Hm'%list_elem_of_In). apply filter_In in Hm' as [Hm' _].
  apply list_elem_of_fmap. exists m'. split; [done|]. by apply list_elem_of_In.
Qed.

Lemma check_access_batch_spec db u ids c m c' :
  coherent db c -> check_access_batch db u ids c = (Ok m, c') ->
  coherent db c' /\ forall p,
    match m !! p with
    | Some b => p ∈ ids /\ check_uncached (up db) u p = Ok b
    | None => p ∉ ids
    end.
Proof.
  intros [Hca Hcp] Hb. unfold check_access_batch in Hb.
  destruct (split_hits _ u _) as [hits misses] eqn:Hsplit.
  apply split_hits_spec in Hsplit as [Hh Hm].
  assert (forall p, p ∉ misses -> match hits !! p with
    | Some b => p ∈ ids /\ check_uncached (up db) u p = Ok b
    | None => p ∉ ids
    end) as Hhits.
  { intros p Hnm. rewrite Hh. destruct (decide _) as [Hin|Hout]; rewrite sort_dedup_elem in *.
    - destruct (ck_cache c !! (u, p)) eqn:Hc; [eauto|]. destruct Hnm. rewrite Hm, sort_dedup_elem. done.
    - done. }
  assert (misses = [] -> m = hits /\ c' = c) as Hnil.
  { intros ->. simplify_eq. done. }
  destruct misses as [|id misses].
  { destruct (Hnil eq_refl) as [-> ->]. split; [by split|]. intros p. apply Hhits. set_solver. }
  clear Hnil. remember (id :: misses) as ms eqn:Hms. clear Hms id misses.
  destruct (result_bind _ _) as [access|] eqn:Hout; simplify_eq.
  apply result_bind_Ok in Hout as (gs & Hg & Hout). apply query_grants_Ok in Hg as [-> _].
  apply result_bind_Ok in Hout as (mem & Hmem & Hout). apply batch_memberships in Hmem as ->.
  apply Ok_inj in Hout. subst m.
  assert (forall p, match fold_left (fun access id =>
      <[id := match group_grants (List.filter (fun g => is_in (g_project_id g) ms) (db_grants db)) !! id with
              | Some project_grants => granted_to project_grants
                  (map mb_team_id (members_of db u (batch_teams db ms)))
              | None => true
              end]> access) ms hits !! p with
    | Some b => p ∈ ids /\ check_uncached (up db) u p = Ok b
    | None => p ∉ ids
    end) as Hall.
  { intros p. rewrite fold_insert_spec. destruct (decide (p ∈ ms)) as [Hin|Hnin]; [|by apply Hhits].
    split; [apply (sort_dedup_elem p ids), (proj1 (Hm p) Hin)|].
    rewrite check_uncached_up, batch_grants by done. f_equal.
    destruct (grants_of db p) as [|g l] eqn:Hgr; [done|]. symmetry.
    by apply (batch_access db u ms p). }
  split; [|exact Hall]. split; [|done]. simpl. intros u' p b. rewrite fill_spec.
  destruct (decide _) as [[-> Hin]|]; [|by apply Hca].
  specialize (Hall p). destruct (_ !! p); [|by apply Hca]. intros [= <-]. apply Hall.
Qed.

Lemma fold_pair_insert {A B} (by_project : gmap Z (list Grant)) (f : list Grant -> A)
    (g : list Grant -> B) a0 b0 ids (acc : gmap Z A) (acc' : gmap Z B) :
  fold_left (fun '(x, y) id =>
      let '(a, b) := match by_project !! id with
                     | Some gs => (f gs, g gs)
                     | None => (a0, b0)
                     end in
      (<[id := a]> x, <[id := b]> y)) ids (acc, acc') =
  (fold_left (fun x id =>
     <[id := match by_project !! id with Some gs => f gs | None => a0 end]> x) ids acc,
   fold_left (fun y id =>
     <[id := match by_project !! id with Some gs => g gs | None => b0 end]> y) ids acc').
Proof.
  revert acc acc'. induction ids as [|id ids IH]; intros acc acc'; simpl; [done|].
  destruct (by_project !! id); apply IH.
Qed.

(** With distinct ids, the batch loop resolves what the single loop does. *)
Lemma resolve_sides_batch_spec err ms seen sides :
  NoDup (map mb_id ms) -> resolve_sides_batch err ms = Ok (seen, sides) ->
  resolve_sides err ms = Ok sides.
Proof.
  unfold resolve_sides_batch, resolve_sides. generalize (∅ : gmap Z (list Permission)).
  assert (forall i, i ∈ map mb_id ms -> i ∉ (∅ : gset Z)) as Hfresh by set_solver.
  revert Hfresh. generalize (∅ : gset Z).
  induction ms as [|m ms IH]; intros sn Hfresh s0 Hnd; simpl; [naive_solver|].
  inversion Hnd as [|? ? Hni Hnd']; subst.
  rewrite bool_decide_eq_false_2 by (apply Hfresh; left).
  destruct (member_side m); simpl; [|done]. apply IH; [|done].
  intros i Hi. rewrite elem_of_union, elem_of_singleton. intros [->|Hs]; [done|].
  eapply Hfresh; [|exact Hs]. by right.
Qed.

(** Restricting the memberships to the project's teams changes no resolved
    permission. *)
Lemma batch_permissions db u misses p gs (sides : gmap Z (list Permission)) err :
  NoDup (map mb_id (db_members db)) -> p ∈ misses -> grants_of db p = gs -> gs <> [] ->
  resolve_sides err (members_of db u (batch_teams db misses)) = Ok sides ->
  permissions_from_grants (up db) u p gs =
  Ok (permissions_from_resolved_memberships gs (members_of db u (batch_teams db misses)) sides).
Proof.
  intros Hnd Hp Hgs Hne Hs. rewrite permissions_from_grants_up by done. cbv zeta.
  destruct (resolve_sides_spec err _ _ _ (member_ids_NoDup db u _ Hnd) Hs) as [Hres _].
  assert (forall m, m ∈ members_of db u (map g_team_id gs) ->
    m ∈ members_of db u (batch_teams db misses)) as Hsub.
  { intros m (Hm & Hu & (g & Heq & Hg)%list_elem_of_fmap & Hl)%elem_members_of.
    apply elem_members_of. split_and!; try done. rewrite Heq.
    eapply batch_teams_spec; [done|]. by rewrite Hgs. }
  assert (exists sides', resolve_sides (fun m => MembershipResolution (mb_id m) u p)
    (members_of db u (map g_team_id gs)) = Ok sides') as [sides' Hs'].
  { unfold resolve_sides. generalize (∅ : gmap Z (list Permission)).
    induction (members_of db u (map g_team_id gs)) as [|m l IH]; intros s0; simpl; [eauto|].
    destruct (Hres m) as (side & -> & _); [apply Hsub; left|]. simpl. apply IH.
    intros m' Hm'. apply Hsub. by right. }
  rewrite Hs'. cbn [result_bind]. f_equal.
  destruct (resolve_sides_spec _ _ _ _ (member_ids_NoDup db u _ Hnd) Hs') as [Hres' _].
  apply set_eq. intros s. rewrite !resolved_memberships_spec. split.
  - intros (m & side & Hm & Hside & Hc). exists m, side. split_and!; [by apply Hsub| |done].
    destruct (Hres m (Hsub m Hm)) as (s1 & Hm1 & ->). destruct (Hres' m Hm) as (s2 & Hm2 & Hm2').
    congruence.
  - intros (m & side & Hm & Hside & Hc). pose proof Hc as (g & q & Hfind & _).
    apply find_some in Hfind as [Hg%list_elem_of_In Heq%Z.eqb_eq].
    assert (m ∈ members_of db u (map g_team_id gs)) as Hm'.
    { apply elem_members_of in Hm as (? & ? & _ & ?). apply elem_members_of. split_and!; try done.
      apply list_elem_of_fmap. eauto. }
    exists m, side. split_and!; [done| |done].
    destruct (Hres m Hm) as (s1 & Hm1 & ?). destruct (Hres' m Hm') as (s2 & Hm2 & ->). congruence.
Qed.

Lemma check_permissions_batch_spec db u ids c m c' :
  NoDup (map mb_id (db_members db)) ->
  coherent db c -> check_permissions_batch db u ids c = (Ok m, c') ->
  coherent db c' /\ forall p,
    match m !! p with
    | Some r => p ∈ ids /\ check_permissions_uncached (up db) u p = Ok r
    | None => p ∉ ids
    end.
Proof.
  intros Hnd [Hca Hcp] Hb. unfold check_permissions_batch in Hb.
  destruct (split_hits _ u _) as [hits misses] eqn:Hsplit.
  apply split_hits_spec in Hsplit as [Hh Hm].
  assert (forall p, p ∉ misses -> match hits !! p with
    | Some r => p ∈ ids /\ check_permissions_uncached (up db) u p = Ok r
    | None => p ∉ ids
    end) as Hhits.
  { intros p Hnm. rewrite Hh. destruct (decide _) as [Hin|Hout]; rewrite sort_dedup_elem in *.
    - destruct (ck_permissions_cache c !! (u, p)) eqn:Hc; [eauto|]. destruct Hnm.
      rewrite Hm, sort_dedup_elem. done.
    - done. }
  assert (misses = [] -> m = hits /\ c' = c) as Hnil.
  { intros ->. simplify_eq. done. }
  destruct misses as [|id misses].
  { destruct (Hnil eq_refl) as [-> ->]. split; [by split|]. intros p. apply Hhits. set_solver. }
  clear Hnil. remember (id :: misses) as ms eqn:Hms. clear Hms id misses.
  destruct (result_bind _ _) as [[perms coarse]|] eqn:Hout; simplify_eq.
  apply result_bind_Ok in Hout as (gs & Hg & Hout). apply query_grants_Ok in Hg as [-> _].
  apply result_bind_Ok in Hout as (mem & Hmem & Hout). apply batch_memberships in Hmem as ->.
  apply result_bind_Ok in Hout as ([seen sides] & Hsides & Hout).
  apply resolve_sides_batch_spec in Hsides; [|by apply member_ids_NoDup].
  apply Ok_inj in Hout.
  rewrite (fold_pair_insert (A := option (gset string)) _
    (fun gs => Some (permissions_from_resolved_memberships gs
       (members_of db u (batch_teams db ms)) sides))
    (fun gs => granted_to gs (map mb_team_id (members_of db u (batch_teams db ms))))) in Hout.
  injection Hout as <- <-.
  assert (forall p, match fold_left (fun x id =>
      <[id := match group_grants (List.filter (fun g => is_in (g_project_id g) ms) (db_grants db)) !! id with
              | Some gs => Some (permissions_from_resolved_memberships gs
                  (members_of db u (batch_teams db ms)) sides)
              | None => None
              end]> x) ms hits !! p with
    | Some r => p ∈ ids /\ check_permissions_uncached (up db) u p = Ok r
    | None => p ∉ ids
    end) as Hall.
  { intros p. rewrite fold_insert_spec. destruct (decide (p ∈ ms)) as [Hin|Hnin]; [|by apply Hhits].
    split; [apply (sort_dedup_elem p ids), (proj1 (Hm p) Hin)|].
    rewrite check_permissions_up, batch_grants by done.
    destruct (grants_of db p) as [|g l] eqn:Hgr; [done|].
    by erewrite (batch_permissions db u ms p). }
  split; [|exact Hall]. split; simpl; intros u' p b; rewrite fill_spec;
    (destruct (decide _) as [[-> Hin]|]; [|by auto]).
  - rewrite fold_insert_spec, decide_True by done. intros [= <-].
    rewrite check_uncached_up, batch_grants by done. f_equal.
    destruct (grants_of db p) as [|g l] eqn:Hgr; [done|]. symmetry.
    by apply (batch_access db u ms p).
  - specialize (Hall p). destruct (_ !! p); [|by apply Hcp]. intros [= <-]. apply Hall.
Qed.

(** ** The checker over time *)

(** Rows with the primary key of [team_members] and the unique index of
    [project_team_access]. *)
Definition db_wf (db : Db) : Prop :=
  NoDup (map mb_id (db_members db)) /\
  NoDup (map (fun g => (g_project_id g, g_team_id g)) (db_grants db)).

Lemma db_wf_ids db : db_wf db -> NoDup (map mb_id (db_members db)).
Proof. by intros []. Qed.

Lemma grants_unique db g g' :
  db_wf db -> g ∈ db_grants db -> g' ∈ db_grants db ->
  g_project_id g = g_project_id g' -> g_team_id g = g_team_id g' -> g = g'.
Proof.
  intros [_ Hnd] Hg Hg' Hp Ht. apply list_elem_of_lookup in Hg as [i Hi], Hg' as [j Hj].
  assert (i = j) as <-; [|congruence].
  eapply (NoDup_lookup _ i j); [exact Hnd|..].
  - rewrite list_lookup_fmap, Hi. simpl. reflexivity.
  - rewrite list_lookup_fmap, Hj. simpl. congruence.
Qed.

Definition user_rows (db : Db) (user_id : Z) : list Membership :=
  List.filter (fun m => mb_user_id m =? user_id) (db_members db).

Definition set_up (db : Db) (grants_up members_up : bool) : Db := {|
  db_grants := db_grants db; db_members := db_members db; db_users := db_users db;
  db_grants_up := grants_up; db_members_up := members_up |}.

(** One event: a check, a write to one project's grants, to one user's memberships or
    to both tables followed by its invalidation, a table that comes or goes, entries
    that expire.  The user rows do not change: their soft delete invalidates nothing. *)
Inductive step : Db * Checker -> Db * Checker -> Prop :=
  | step_access db c u p r c' :
      user_can_access_project db u p c = (r, c') -> step (db, c) (db, c')
  | step_permissions db c u p r c' :
      effective_project_permissions db u p c = (r, c') -> step (db, c) (db, c')
  | step_access_batch db c u ids r c' :
      check_access_batch db u ids c = (r, c') -> step (db, c) (db, c')
  | step_permissions_batch db c u ids r c' :
      check_permissions_batch db u ids c = (r, c') -> step (db, c) (db, c')
  | step_grants db c p db' :
      db_wf db' -> db_members db' = db_members db -> db_users db' = db_users db ->
      (forall p', p' <> p -> grants_of db' p' = grants_of db p') ->
      step (db, c) (db', invalidate_project p c)
  | step_members db c u db' :
      db_wf db' -> db_grants db' = db_grants db -> db_users db' = db_users db ->
      (forall u', u' <> u -> user_rows db' u' = user_rows db u') ->
      step (db, c) (db', invalidate_user u c)
  | step_rewrite db c db' :
      db_wf db' -> db_users db' = db_users db -> step (db, c) (db', invalidate_all c)
  | step_outage db c g m : step (db, c) (set_up db g m, c)
  | step_expire db c c' :
      ck_cache c' ⊆ ck_cache c -> ck_permissions_cache c' ⊆ ck_permissions_cache c ->
      step (db, c) (db, c').

Definition reachable (s : Db * Checker) : Prop :=
  exists db, db_wf db /\ rtc step (db, checker_new) s.

Lemma members_of_rows db db' u teams :
  user_rows db' u = user_rows db u -> live db' u = live db u ->
  members_of db' u teams = members_of db u teams.
Proof.
  intros Hr Hl.
  assert (forall d, members_of d u teams =
    List.filter (fun m => is_in (mb_team_id m) teams && live d u) (user_rows d u)) as Hm.
  { intros d. unfold members_of, user_rows. rewrite filter_filter. apply filter_ext_in'.
    intros m _. destruct (Z.eqb_spec (mb_user_id m) u) as [->|]; [|done]. by rewrite andb_assoc. }
  by rewrite !Hm, Hr, Hl.
Qed.

Lemma check_uncached_ext db db' u p :
  grants_of db' p = grants_of db p ->
  (forall teams, members_of db' u teams = members_of db u teams) ->
  check_uncached (up db') u p = check_uncached (up db) u p /\
  check_permissions_uncached (up db') u p = check_permissions_uncached (up db) u p.
Proof.
  intros Hg Hm. rewrite !check_uncached_up, !check_permissions_up, Hg.
  destruct (grants_of db p) as [|g gs]; [done|]. rewrite Hm. split; [done|].
  rewrite !permissions_from_grants_up by done. cbv zeta. by rewrite Hm.
Qed.

Lemma step_coherent db c db' c' :
  db_wf db -> coherent db c -> step (db, c) (db', c') -> db_wf db' /\ coherent db' c'.
Proof.
  intros Hwf Hco Hs. inversion Hs; subst.
  - split; [done|]. destruct Hco as [Ha Hp].
    match goal with H : user_can_access_project _ _ _ _ = _ |- _ =>
      unfold user_can_access_project in H end.
    destruct (ck_cache c !! (u, p)) eqn:Hc; [by simplify_eq|].
    destruct (check_uncached db' u p) eqn:Hck; simplify_eq; [|done].
    split; [|done]. simpl. intros u' p' b. rewrite lookup_insert_Some.
    intros [[[= <- <-] <-]|[_ Hin]]; [by apply check_uncached_Ok|by apply Ha].
  - split; [done|]. destruct Hco as [Ha Hp].
    match goal with H : effective_project_permissions _ _ _ _ = _ |- _ =>
      unfold effective_project_permissions in H end.
    destruct (ck_permissions_cache c !! (u, p)) eqn:Hc; [by simplify_eq|].
    destruct (check_permissions_uncached db' u p) eqn:Hck; simplify_eq; [|done].
    split; [done|]. simpl. intros u' p' b. rewrite lookup_insert_Some.
    intros [[[= <- <-] <-]|[_ Hin]]; [by apply check_permissions_Ok|by apply Hp].
  - split; [done|]. destruct r as [m|e].
    + by eapply check_access_batch_spec.
    + match goal with H : check_access_batch _ _ _ _ = _ |- _ =>
        unfold check_access_batch in H end.
      destruct (split_hits _ _ _) as [hits [|i l]]; [done|]. by case_match; simplify_eq.
  - split; [done|]. destruct r as [m|e].
    + eapply check_permissions_batch_spec; eauto using db_wf_ids.
    + match goal with H : check_permissions_batch _ _ _ _ = _ |- _ =>
        unfold check_permissions_batch in H end.
      destruct (split_hits _ _ _) as [hits [|i l]]; [done|].
      destruct (result_bind _ _) as [[]|]; by simplify_eq.
  - split; [done|]. destruct Hco as [Ha Hp].
    assert (forall u p', p' <> p -> check_uncached (up db') u p' = check_uncached (up db) u p' /\
      check_permissions_uncached (up db') u p' = check_permissions_uncached (up db) u p') as Heq.
    { intros u p' Hne. apply check_uncached_ext; [by auto|]. intros teams.
      apply members_of_rows; unfold user_rows, live; congruence. }
    split; simpl; intros u p' b; rewrite map_lookup_filter_Some; simpl; intros [Hin Hne];
      destruct (Heq u p' Hne) as [E1 E2]; rewrite ?E1, ?E2; eauto.
  - split; [done|]. destruct Hco as [Ha Hp].
    assert (forall u' p, u' <> u -> check_uncached (up db') u' p = check_uncached (up db) u' p /\
      check_permissions_uncached (up db') u' p = check_permissions_uncached (up db) u' p) as Heq.
    { intros u' p Hne. apply check_uncached_ext; [unfold grants_of; congruence|]. intros teams.
      apply members_of_rows; [by auto|unfold live; congruence]. }
    split; simpl; intros u' p b; rewrite map_lookup_filter_Some; simpl; intros [Hin Hne];
      destruct (Heq u' p Hne) as [E1 E2]; rewrite ?E1, ?E2; eauto.
  - split; [done|]. by split.
  - done.
  - split; [done|]. destruct Hco as [Ha Hp]. split; intros u p b Hin; [apply Ha|apply Hp];
      by eapply lookup_weaken.
Qed.

Lemma reachable_coherent db c : reachable (db, c) -> db_wf db /\ coherent db c.
Proof.
  intros (db0 & Hwf & Hr).
  enough (forall s, rtc step (db0, checker_new) s -> db_wf s.1 /\ coherent s.1 s.2) as Hgen
    by exact (Hgen _ Hr).
  apply rtc_ind_r; [split; [done|]; by split|].
  intros [d1 c1] [d2 c2] _ Hstep [Hw Hc]. by eapply step_coherent.
Qed.

(** ** What the answers mean *)

(** The user has a live membership of a team with a grant on the project. *)
Definition granted_member (db : Db) (u p : Z) (g : Grant) (m : Membership) : Prop :=
  g ∈ db_grants db /\ g_project_id g = p /\ m ∈ db_members db /\ mb_user_id m = u /\
  mb_team_id m = g_team_id g /\ live db u = true.

Definition may_access (db : Db) (u p : Z) : Prop :=
  (forall g, g ∈ db_grants db -> g_project_id g <> p) \/ exists g m, granted_member db u p g m.

Lemma check_uncached_means db u p b :
  check_uncached (up db) u p = Ok b -> (b = true <-> may_access db u p).
Proof.
  rewrite check_uncached_up. intros Hb%Ok_inj. subst b. unfold may_access, granted_member.
  destruct (grants_of db p) as [|g gs] eqn:Hg.
  - split; [|done]. intros _. left. intros g Hin Hp.
    assert (g ∈ grants_of db p) as Hgp by (by apply elem_grants_of). rewrite Hg in Hgp. set_solver.
  - rewrite <- Hg. split.
    + destruct (members_of db u _) as [|m ms] eqn:Hm; [done|]. intros _. right.
      assert (m ∈ members_of db u (map g_team_id (grants_of db p))) as Hin
        by (rewrite Hm; apply list_elem_of_here).
      apply elem_members_of in Hin as (? & ? & (g' & Heq & Hg')%list_elem_of_fmap & ?).
      apply elem_grants_of in Hg' as [? ?]. exists g', m. done.
    + intros [Hno|(g' & m & ? & ? & ? & ? & ? & ?)].
      * assert (g ∈ grants_of db p) as Hin by (rewrite Hg; apply list_elem_of_here).
        apply elem_grants_of in Hin as [? ?]. by destruct (Hno g).
      * assert (m ∈ members_of db u (map g_team_id (grants_of db p))) as Hin.
        { apply elem_members_of. split_and!; try done. apply list_elem_of_fmap. exists g'.
          split; [done|]. by apply elem_grants_of. }
        destruct (members_of db u _); [by apply elem_of_nil in Hin|done].
Qed.

Lemma user_can_access_means db c u p b c' :
  coherent db c -> user_can_access_project db u p c = (Ok b, c') -> (b = true <-> may_access db u p).
Proof.
  intros Hco. unfold user_can_access_project. destruct (ck_cache c !! (u, p)) eqn:Hc.
  - intros [= <- <-]. apply check_uncached_means. by apply Hco.
  - destruct (check_uncached db u p) eqn:Hck; intros [= <- <-].
    by apply check_uncached_means, check_uncached_Ok.
Qed.

(** Whatever checks, team and grant writes with their invalidation, outages and
    expiries came before, a single or a batch access check that answers, answers by the current
    rows: a project without grants is open to everyone, one with grants exactly to
    the live members of a granted team. *)
Theorem access_answers_current db c u p b c' ids m c'' :
  reachable (db, c) ->
  (user_can_access_project db u p c = (Ok b, c') -> (b = true <-> may_access db u p)) /\
  (check_access_batch db u ids c = (Ok m, c'') ->
     forall p', match m !! p' with
                | Some b' => p' ∈ ids /\ (b' = true <-> may_access db u p')
                | None => p' ∉ ids
                end).
Proof.
  intros [Hwf Hco]%reachable_coherent. split; [by apply user_can_access_means|].
  intros Hb p'. destruct (check_access_batch_spec _ _ _ _ _ _ Hco Hb) as [_ Hall].
  specialize (Hall p'). destruct (m !! p'); [|done]. destruct Hall as [Hin Hck].
  split; [done|]. by apply check_uncached_means.
Qed.

Lemma effective_permissions_current db c u p r c' :
  coherent db c -> effective_project_permissions db u p c = (Ok r, c') ->
  check_permissions_uncached (up db) u p = Ok r.
Proof.
  intros Hco. unfold effective_project_permissions.
  destruct (ck_permissions_cache c !! (u, p)) eqn:Hc; [intros [= <- <-]; by apply Hco|].
  destruct (check_permissions_uncached db u p) eqn:Hck; intros [= <- <-].
  by apply check_permissions_Ok.
Qed.

(** Resolving permissions for a batch of projects gives for each the very set a
    single resolution gives, and for no project besides; a failed batch changes no
    cache entry. *)
Theorem permissions_batch_agrees db c u ids r c' :
  reachable (db, c) -> check_permissions_batch db u ids c = (r, c') ->
  match r with
  | Ok m => forall p, match m !! p with
                      | Some perms => p ∈ ids /\
                          forall single c'', effective_project_permissions db u p c = (Ok single, c'') ->
                            single = perms
                      | None => p ∉ ids
                      end
  | Err _ => c' = c
  end.
Proof.
  intros [Hwf Hco]%reachable_coherent Hb. destruct r as [m|e].
  - destruct (check_permissions_batch_spec _ _ _ _ _ _ (db_wf_ids _ Hwf) Hco Hb) as [_ Hall]. intros p.
    specialize (Hall p). destruct (m !! p) as [perms|]; [|done]. destruct Hall as [Hin Hck].
    split; [done|]. intros single c'' Hs%effective_permissions_current; [|done]. congruence.
  - unfold check_permissions_batch in Hb.
    destruct (split_hits _ _ _) as [hits [|i l]]; [done|].
    destruct (result_bind _ _) as [[]|]; by simplify_eq.
Qed.

(** The user holds a permission on a project: through a live membership of a granted
    team, from its member side and within the granted role. *)
Definition holds_on (db : Db) (u p : Z) (s : string) : Prop :=
  exists g m perm side, granted_member db u p g m /\ member_side m = Ok side /\
    perm ∈ side /\ perm ∈ fixed_role_permissions_or_empty (g_role g) /\
    s = permission_to_string perm.

Lemma find_grant_of db u p g m :
  db_wf db -> granted_member db u p g m ->
  List.find (fun g => g_team_id g =? mb_team_id m) (grants_of db p) = Some g.
Proof.
  intros Hwf (Hg & Hp & _ & _ & Ht & _).
  destruct (List.find _ _) as [g'|] eqn:Hf.
  - apply find_some in Hf as [[Hg' Hp']%list_elem_of_In%elem_grants_of Heq%Z.eqb_eq].
    f_equal. apply (grants_unique db); congruence.
  - assert (In g (grants_of db p)) as Hin by (by apply list_elem_of_In, elem_grants_of).
    pose proof (find_none _ _ Hf g Hin) as Hn. simpl in Hn. apply Z.eqb_neq in Hn. congruence.
Qed.

Lemma check_permissions_exact db u p r s :
  db_wf db -> check_permissions_uncached (up db) u p = Ok (Some r) -> s ∈ r <-> holds_on db u p s.
Proof.
  intros Hwf. rewrite check_permissions_up. destruct (grants_of db p) as [|g0 gs0] eqn:Hg; [done|].
  rewrite <- Hg, permissions_from_grants_up by (by rewrite Hg). cbv zeta. intros Hr.
  apply result_bind_Ok in Hr as (ps & Hr & Hps). simplify_eq.
  apply result_bind_Ok in Hr as (sides & Hsides & Hr). simplify_eq.
  destruct (resolve_sides_spec _ _ _ _ (member_ids_NoDup db u _ (db_wf_ids _ Hwf)) Hsides) as [Hres _].
  rewrite resolved_memberships_spec. split.
  - intros (m & side & Hm & Hside & g & perm & Hfind & Hp & Hgr & ->).
    apply find_some in Hfind as [[Hg' Hgp]%list_elem_of_In%elem_grants_of Heq%Z.eqb_eq].
    destruct (Hres m Hm) as (side' & Hms & Hside'). assert (side' = side) as -> by congruence.
    apply elem_members_of in Hm as (? & ? & _ & ?). exists g, m, perm, side. done.
  - intros (g & m & perm & side & Hgm & Hms & Hp & Hgr & ->).
    pose proof (find_grant_of _ _ _ _ _ Hwf Hgm) as Hfind.
    destruct Hgm as (Hgin & Hgp & Hm & Hu & Ht & Hl).
    assert (m ∈ members_of db u (map g_team_id (grants_of db p))) as Hin.
    { apply elem_members_of. split_and!; try done. apply list_elem_of_fmap. exists g.
      split; [done|]. by apply elem_grants_of. }
    destruct (Hres m Hin) as (side' & Hms' & Hside). exists m, side'. split_and!; [done..|].
    exists g, perm. split_and!; congruence || done.
Qed.

(** The grant is a ceiling: a user resolves to a permission on a project exactly
    when a live membership of a granted team contributes it (from its fixed role, or
    from what a plugin resolves) and it lies in the fixed set of the role that team was
    granted on the project. *)
Theorem grant_is_ceiling db c u p perms c' s :
  reachable (db, c) -> effective_project_permissions db u p c = (Ok (Some perms), c') ->
  s ∈ perms <-> holds_on db u p s.
Proof.
  intros [Hwf Hco]%reachable_coherent He. apply effective_permissions_current in He; [|done].
  by apply check_permissions_exact.
Qed.

(** The projects hidden from a user are exactly those the access check denies. *)
Theorem hidden_projects_are_denied db u l p :
  hidden_project_ids_uncached db u = Ok l ->
  p ∈ l <-> check_uncached (up db) u p = Ok false.
Proof.
  unfold hidden_project_ids_uncached. intros Hh.
  apply result_bind_Ok in Hh as (ms & Hm & Hh). apply query_members_Ok in Hm as [-> _].
  apply result_bind_Ok in Hh as (rows & Hr & Hh). apply query_grants_Ok in Hr as [-> Hup].
  set (mine := List.filter _ (db_members db)) in Hh.
  assert (forall t, t ∈ map mb_team_id mine <->
    exists m, m ∈ db_members db /\ mb_user_id m = u /\ mb_team_id m = t /\ live db u = true) as Hmine.
  { intros t. rewrite list_elem_of_fmap. unfold mine. setoid_rewrite list_elem_of_In.
    setoid_rewrite filter_In. setoid_rewrite andb_true_iff. setoid_rewrite Z.eqb_eq.
    split; intros (m & Hx); exists m; destruct_and?; subst; auto 10. }
  assert (exists allowed : list Z, l = List.filter (fun id => negb (is_in id allowed))
      (remove_dups (map g_project_id (db_grants db))) /\
    forall q, q ∈ allowed <-> exists g, g ∈ db_grants db /\ g_project_id g = q /\
      g_team_id g ∈ map mb_team_id mine) as (allowed & -> & Hall).
  { assert (List.filter (fun _ => true) (db_grants db) = db_grants db) as Htrue.
    { clear. induction (db_grants db); simpl; congruence. }
    rewrite Htrue in Hh. destruct (remove_dups _) as [|q0 qs] eqn:Hq.
    - simplify_eq. exists []. split; [done|]. intros q. split; [by intros ?%elem_of_nil|].
      intros (g & Hg & <- & _). exfalso.
      assert (g_project_id g ∈ remove_dups (map g_project_id (db_grants db))) as Hin
        by (apply elem_of_remove_dups, list_elem_of_fmap; eauto).
      rewrite Hq in Hin. by apply elem_of_nil in Hin.
    - apply result_bind_Ok in Hh as (allowed & Ha & Hh). simplify_eq. exists allowed. split; [done|].
      intros q. destruct (map mb_team_id mine) as [|t ts] eqn:Ht.
      + simplify_eq. split; [by intros ?%elem_of_nil|]. by intros (g & _ & _ & ?%elem_of_nil).
      + apply result_bind_Ok in Ha as (rs & Hrs & Ha). apply query_grants_Ok in Hrs as [-> _].
        apply Ok_inj in Ha. subst allowed. rewrite list_elem_of_fmap. split.
        * intros (g & -> & [Hg Hin]%list_elem_of_In%filter_In). exists g.
          rewrite is_in_spec in Hin. rewrite list_elem_of_In. done.
        * intros (g & Hg & <- & Hin). exists g. split; [done|].
          apply list_elem_of_In, filter_In. rewrite is_in_spec. rewrite <- list_elem_of_In. done. }
  rewrite list_elem_of_In, filter_In, <- list_elem_of_In, elem_of_remove_dups, negb_true_iff.
  rewrite <- not_true_iff_false, is_in_spec, Hall, list_elem_of_fmap.
  setoid_rewrite Hmine. rewrite check_uncached_up. split.
  - intros [(g & -> & Hg) Hno]. f_equal.
    assert (g ∈ grants_of db (g_project_id g)) as Hgp by (by apply elem_grants_of).
    destruct (grants_of db (g_project_id g)) as [|g1 gs] eqn:Hgs; [by apply elem_of_nil in Hgp|].
    rewrite <- Hgs. destruct (members_of db u _) as [|m ms] eqn:Hm; [done|]. destruct Hno.
    assert (m ∈ members_of db u (map g_team_id (grants_of db (g_project_id g)))) as Hin
      by (rewrite Hm; apply list_elem_of_here).
    apply elem_members_of in Hin as (? & ? & (g' & Heq & [? ?]%elem_grants_of)%list_elem_of_fmap & ?).
    exists g'. split_and!; try done. exists m. done.
  - destruct (grants_of db p) as [|g gs] eqn:Hgs; [done|]. rewrite <- Hgs. intros Hf.
    assert (g ∈ grants_of db p) as [Hg Hp]%elem_grants_of by (rewrite Hgs; apply list_elem_of_here).
    split; [by exists g|]. intros (g' & Hg' & Hp' & m & Hm & Hu & Ht & Hl).
    assert (m ∈ members_of db u (map g_team_id (grants_of db p))) as Hin.
    { apply elem_members_of. split_and!; try done. apply list_elem_of_fmap. exists g'.
      split; [done|]. by apply elem_grants_of. }
    destruct (members_of db u _); [by apply elem_of_nil in Hin|done].
Qed.
End Checker.

(** The team roles are a chain: each holds what the next lower one holds, none
    can delete the project except the owner, and none reaches an administration
    permission of the instance. *)
Theorem team_roles_chain p :
  (p ∈ fixed_role_permissions TrViewer -> p ∈ fixed_role_permissions TrDeployer) /\
  (p ∈ fixed_role_permissions TrDeployer -> p ∈ fixed_role_permissions TrAdmin) /\
  (p ∈ fixed_role_permissions TrAdmin <-> p ∈ fixed_role_permissions TrOwner /\ p <> ProjectsDelete) /\
  (p ∈ fixed_role_permissions TrOwner ->
   p ∉ [UsersRead; UsersWrite; UsersManage; SystemAdmin; SettingsWrite; ApiKeysCreate; AuditRead]).
Proof.
  assert (ProjectsDelete ∉ fixed_role_permissions TrAdmin) as Hdel
    by (apply (bool_decide_unpack _); vm_compute; exact I).
  split_and!.
  - intros Hin. apply elem_of_app. by left.
  - intros Hin. apply elem_of_app. by left.
  - change (fixed_role_permissions TrOwner) with (fixed_role_permissions TrAdmin ++ [ProjectsDelete]).
    rewrite elem_of_app, list_elem_of_singleton. split; [|tauto].
    intros Hin. split; [by left|]. by intros ->.
  - intros Hin. assert (forallb (fun q => bool_decide (q ∉ [UsersRead; UsersWrite; UsersManage;
      SystemAdmin; SettingsWrite; ApiKeysCreate; AuditRead])) (fixed_role_permissions TrOwner) = true)
      as Hall by (vm_compute; reflexivity).
    rewrite forallb_forall in Hall. apply (bool_decide_eq_true _), Hall. by apply list_elem_of_In.
Qed.

(** ** A concrete state: a viewer grant on project 7 for team 1, whose admin is user 5 *)

Definition sample_db : Db := {|
  db_grants := [{| g_id := 1; g_project_id := 7; g_team_id := 1; g_role := "viewer" |}];
  db_members := [{| mb_id := 10; mb_team_id := 1; mb_user_id := 5; mb_role := "admin" |}];
  db_users := [(5, false); (6, false)];
  db_grants_up := true; db_members_up := true |}.

Lemma sample_reachable : reachable None (sample_db, checker_new).
Proof.
  exists sample_db. split; [|constructor]. apply (bool_decide_unpack _). vm_compute. exact I.
Qed.

Lemma access_answers_current_witness :
  (true = true <-> may_access sample_db 5 7) /\ (false = true <-> may_access sample_db 6 7).
Proof.
  split.
  - exact (proj1 (access_answers_current None sample_db checker_new 5 7 true
      (user_can_access_project sample_db 5 7 checker_new).2 [] ∅ checker_new sample_reachable)
      eq_refl).
  - exact (proj1 (access_answers_current None sample_db checker_new 6 7 false
      (user_can_access_project sample_db 6 7 checker_new).2 [] ∅ checker_new sample_reachable)
      eq_refl).
Defined.

Definition sample_batch := check_permissions_batch None sample_db 5 [7; 8; 7] checker_new.

Lemma permissions_batch_agrees_witness :
  match sample_batch.1 with
  | Ok m => forall p, match m !! p with
                      | Some perms => p ∈ [7; 8; 7] /\
                          forall single c'', effective_project_permissions None sample_db 5 p checker_new
                            = (Ok single, c'') -> single = perms
                      | None => p ∉ [7; 8; 7]
                      end
  | Err _ => sample_batch.2 = checker_new
  end.
Proof.
  apply (permissions_batch_agrees None sample_db checker_new 5 [7; 8; 7] sample_batch.1 sample_batch.2).
  - apply sample_reachable.
  - unfold sample_batch. by destruct (check_permissions_batch _ _ _ _ _).
Defined.

Definition sample_permissions : gset string :=
  match (effective_project_permissions None sample_db 5 7 checker_new).1 with
  | Ok (Some perms) => perms
  | _ => ∅
  end.

Lemma grant_is_ceiling_witness :
  "logs:read" ∈ sample_permissions <-> holds_on None sample_db 5 7 "logs:read".
Proof.
  apply (grant_is_ceiling None sample_db checker_new 5 7 sample_permissions
    (effective_project_permissions None sample_db 5 7 checker_new).2 "logs:read").
  - apply sample_reachable.
  - vm_cast_no_check (eq_refl (effective_project_permissions None sample_db 5 7 checker_new)).
Defined.

Lemma hidden_projects_are_denied_witness :
  7 ∈ [7] <-> check_uncached (up sample_db) 6 7 = Ok false.
Proof. apply (hidden_projects_are_denied sample_db 6 [7] 7). vm_compute. reflexivity. Defined.
