(* ===== verification/Guards.v ===== *)
(** * The guards of a project-scoped handler

    The macros of [crates/temps-auth/src/permission_guard.rs] over the trait
    [ProjectAccessChecker] of [crates/temps-core/src/project_access.rs].  The trait is
    the class [AccessChecker]; the guards are proved against it, and the team checker
    of [TeamAccess] is an instance. *)

From S2P Require Import Prelude Permissions AuthContext TeamAccess.
Local Open Scope Z_scope.

(** [trait ProjectAccessChecker], the two methods the guards call, over the state of
    an implementation. *)
Class AccessChecker (S : Type) := {
  can_access : Z -> Z -> S -> result unit bool * S;
  effective_permissions : Z -> Z -> S -> result unit (option (gset string)) * S
}.

Definition erase {E A S : Type} (r : result E A * S) : result unit A * S :=
  (match r.1 with Ok a => Ok a | Err _ => Err () end, r.2).

(** The team checker over the tables. *)
Instance team_checker (resolver : option (Z -> result unit (option (list string)))) (db : Db)
    : AccessChecker Checker := {|
  can_access u p c := erase (user_can_access_project db u p c);
  effective_permissions u p c := erase (effective_project_permissions resolver db u p c)
|}.

(** The problem responses the guards return. *)
Inductive Denial :=
  | InsufficientPermissions
  | CrossProjectAccessDenied
  | DeploymentTokenNotAllowed
  | ProjectAccessDenied
  | ProjectAccessCheckFailed
  | ProjectPermissionDenied
  | ProjectPermissionCheckFailed
  | MissingPrincipal.

(** [permission_guard!], [project_scope_guard!], [deny_deployment_token!]. *)
Definition permission_guard (auth : AuthContext) (p : Permission) : result Denial unit :=
  if negb (ctx_has_permission auth p) then Err InsufficientPermissions else Ok ().

Definition project_scope_guard (auth : AuthContext) (project_id : Z) : result Denial unit :=
  if negb (is_scoped_to_project auth project_id) then Err CrossProjectAccessDenied else Ok ().

Definition deny_deployment_token (auth : AuthContext) : result Denial unit :=
  if is_deployment_token auth then Err DeploymentTokenNotAllowed else Ok ().

Section Guards.
Context {S : Type} `{AccessChecker S}.

(** [project_access_guard!]. *)
Definition project_access_guard (auth : AuthContext) (project_id : Z) (checker : option S)
    : result Denial unit * option S :=
  if is_deployment_token auth then (Ok (), checker)
  else if is_admin auth || has_role auth PlatformAdmin then (Ok (), checker)
  else
    match checker with
    | None => (Ok (), checker)
    | Some c =>
        match user_id_opt auth with
        | None => (Ok (), checker)
        | Some u =>
            let '(answer, c') := can_access u project_id c in
            (match answer with
             | Ok true => Ok ()
             | Ok false => Err ProjectAccessDenied
             | Err _ => Err ProjectAccessCheckFailed
             end, Some c')
        end
    end.

(** [project_permission_guard!]. *)
Definition project_permission_guard (auth : AuthContext) (p : Permission) (project_id : Z)
    (checker : option S) : result Denial unit * option S :=
  if negb (ctx_has_permission auth p) then (Err InsufficientPermissions, checker)
  else if is_deployment_token auth then (Ok (), checker)
  else if is_admin auth || has_role auth PlatformAdmin then (Ok (), checker)
  else
    match checker with
    | None => (Ok (), checker)
    | Some c =>
        match user_id_opt auth with
        | None => (Err MissingPrincipal, checker)
        | Some u =>
            let '(answer, c') := effective_permissions u project_id c in
            match answer with
            | Ok None =>
                let '(access, c'') := can_access u project_id c' in
                (match access with
                 | Ok true => Ok ()
                 | Ok false => Err ProjectAccessDenied
                 | Err _ => Err ProjectAccessCheckFailed
                 end, Some c'')
            | Ok (Some perms) =>
                (if bool_decide (permission_to_string p ∈ perms) then Ok ()
                 else Err ProjectPermissionDenied, Some c')
            | Err _ => (Err ProjectPermissionCheckFailed, Some c')
            end
        end
    end.

(** The project-permission guard only narrows, and fails closed: it lets a caller
    through only with the instance-wide permission and, unless the caller is a
    deployment token or an instance admin or no checker is registered, only when the
    checker positively grants the permission, or has no opinion and positively grants
    access to the project. *)
Theorem permission_guard_narrows auth p project_id checker checker' :
  project_permission_guard auth p project_id checker = (Ok (), checker') ->
  ctx_has_permission auth p = true /\
  (is_deployment_token auth = true \/ is_instance_admin auth = true \/ checker = None \/
   exists c u, checker = Some c /\ user_id_opt auth = Some u /\
     ((exists perms, (effective_permissions u project_id c).1 = Ok (Some perms) /\
         permission_to_string p ∈ perms) \/
      ((effective_permissions u project_id c).1 = Ok None /\
       (can_access u project_id (effective_permissions u project_id c).2).1 = Ok true))).
Proof.
  unfold project_permission_guard, is_instance_admin.
  destruct (ctx_has_permission auth p); simpl; [|done]. intros Hg. split; [done|].
  destruct (is_deployment_token auth); [by left|].
  destruct (is_admin auth || has_role auth PlatformAdmin); [by right; left|].
  destruct checker as [c|]; [|by right; right; left].
  destruct (user_id_opt auth) as [u|]; [|done]. do 3 right. exists c, u. split_and!; [done..|].
  destruct (effective_permissions u project_id c) as [[[perms|]|[]] c'] eqn:Heff; simpl in *; [| |done].
  - case_bool_decide; [|done]. left. eauto.
  - destruct (can_access u project_id c') as [[[]|[]] c''] eqn:Hac; simplify_eq/=.
    by right.
Qed.
End Guards.

(** With the team checker in place, a caller who is no instance admin and no
    deployment token passes the project-permission guard on a project that has grants
    only as a live member of a granted team whose granted role holds the permission. *)
Theorem team_guard_sound resolver db c auth p project_id checker' u :
  reachable resolver (db, c) ->
  user_id_opt auth = Some u -> is_deployment_token auth = false -> is_instance_admin auth = false ->
  @project_permission_guard _ (team_checker resolver db) auth p project_id (Some c)
    = (Ok (), checker') ->
  ctx_has_permission auth p = true /\
  ((forall g, g ∈ db_grants db -> g_project_id g <> project_id) \/
   exists g m, granted_member db u project_id g m /\
     p ∈ fixed_role_permissions_or_empty (g_role g)).
Proof.
  intros Hr Hu Hdt Hadm Hg. apply reachable_coherent in Hr as [Hwf Hco].
  unfold project_permission_guard in Hg. unfold is_instance_admin in Hadm.
  rewrite Hdt, Hadm, Hu in Hg. destruct (ctx_has_permission auth p); simpl in Hg; [|done].
  split; [done|].
  destruct (effective_project_permissions resolver db u project_id c) as [r c'] eqn:Heff.
  unfold erase in Hg. simpl in Hg. destruct r as [[perms|]|e]; [| |done].
  - apply effective_permissions_current in Heff; [|done]. right.
    case_bool_decide as Hin; [|done].
    apply (check_permissions_exact resolver db u project_id perms _ Hwf Heff) in Hin
      as (g & m & perm & side & Hgm & _ & _ & Hgr & Heq).
    apply (inj permission_to_string) in Heq as <-. eauto.
  - left. apply effective_permissions_current in Heff; [|done].
    rewrite check_permissions_up in Heff. intros g Hgr Hp.
    assert (g ∈ grants_of db project_id) as Hin by (by apply elem_grants_of).
    destruct (grants_of db project_id) as [|g0 gs]; [by apply elem_of_nil in Hin|].
    by apply result_bind_Ok in Heff as (? & _ & ?).
Qed.

(** A user without an administration role, member of the viewer team of project 7. *)
Definition sample_auth : AuthContext := new_session {| u_id := 5; u_mfa_enabled := false |} User.

Lemma permission_guard_narrows_witness :
  ctx_has_permission sample_auth LogsRead = true.
Proof.
  refine (proj1 (@permission_guard_narrows Checker (team_checker None sample_db) sample_auth LogsRead 7
    (Some checker_new)
    (@project_permission_guard _ (team_checker None sample_db) sample_auth LogsRead 7
      (Some checker_new)).2 _)).
  vm_cast_no_check (eq_refl (Ok () : result Denial unit, (@project_permission_guard _
    (team_checker None sample_db) sample_auth LogsRead 7 (Some checker_new)).2)).
Defined.

Lemma team_guard_sound_witness :
  ctx_has_permission sample_auth LogsRead = true /\
  ((forall g, g ∈ db_grants sample_db -> g_project_id g <> 7) \/
   exists g m, granted_member sample_db 5 7 g m /\
     LogsRead ∈ fixed_role_permissions_or_empty (g_role g)).
Proof.
  apply (team_guard_sound None sample_db checker_new sample_auth LogsRead 7
    (@project_permission_guard _ (team_checker None sample_db) sample_auth LogsRead 7
      (Some checker_new)).2 5).
  - apply sample_reachable.
  - reflexivity.
  - reflexivity.
  - reflexivity.
  - vm_cast_no_check (eq_refl (Ok () : result Denial unit, (@project_permission_guard _
      (team_checker None sample_db) sample_auth LogsRead 7 (Some checker_new)).2)).
Defined.
