(* ===== verification/TeamService.v ===== *)
(** * The team service

    [crates/temps-teams/src/service.rs]: teams, memberships and project grants, with the
    authorization of a grant change and the invalidation of the access checker of
    [TeamAccess], and [delete_user] of [crates/temps-auth/src/user_service.rs].

    An operation is one step: the transactions lock the grant rows they decide on.  The
    columns that only record who did something and when are left out, error texts are
    the values they carry. *)

From S2P Require Import Prelude Permissions AuthContext Utf8 TeamAccess.
Local Open Scope Z_scope.

(** ** State and errors *)

Record Team := { t_id : Z; t_name : list Z; t_slug : list Z; t_description : option (list Z) }.

(** The tables, the other tables the service reads, whether those answer, the next row
    id, and the access checker when one is attached. *)
Record Svc := {
  sv_db : Db;
  sv_teams : list Team;
  sv_projects : list Z;
  sv_up : bool;
  sv_next : Z;
  sv_checker : option Checker
}.

Inductive Invalid :=
  | SlugEmpty
  | SlugTooLong (len : Z)
  | SlugCharacters
  | NameEmpty
  | NameTooLong (len : Z)
  | NoSuchUser (user_id : Z)
  | NoSuchProject (project_id : Z).

(** [enum TeamError]. *)
Inductive TeamError :=
  | NotFound (team_id : Z)
  | MemberNotFound (team_id user_id : Z)
  | ProjectAccessNotFound (project_id team_id : Z)
  | SlugConflict (slug : list Z)
  | DuplicateMember (team_id user_id : Z)
  | DuplicateProjectAccess (project_id team_id : Z)
  | Validation (message : Invalid)
  | GatingRequiresAdmin
  | ProjectPermissionDenied (project_id : Z) (required : string)
  | RoleCeilingExceeded (role permission : string)
  | CorruptStoredRole (id : Z) (role : string)
  | TeamDeletionWouldUngate (team_id : Z) (projects : list Z)
  | PermissionResolution (user_id project_id : Z) (reason : CheckerError)
  | Database.

Definition with_db (s : Svc) (db : Db) : Svc := {|
  sv_db := db; sv_teams := sv_teams s; sv_projects := sv_projects s; sv_up := sv_up s;
  sv_next := sv_next s; sv_checker := sv_checker s |}.

Definition with_teams (s : Svc) (teams : list Team) : Svc := {|
  sv_db := sv_db s; sv_teams := teams; sv_projects := sv_projects s; sv_up := sv_up s;
  sv_next := sv_next s; sv_checker := sv_checker s |}.

(** The id column of an inserted row. *)
Definition bump (s : Svc) : Svc := {|
  sv_db := sv_db s; sv_teams := sv_teams s; sv_projects := sv_projects s; sv_up := sv_up s;
  sv_next := sv_next s + 1; sv_checker := sv_checker s |}.

(** [if let Some(ref checker) = self.checker { checker.invalidate_... }]. *)
Definition invalidating (f : Checker -> Checker) (s : Svc) : Svc := {|
  sv_db := sv_db s; sv_teams := sv_teams s; sv_projects := sv_projects s; sv_up := sv_up s;
  sv_next := sv_next s; sv_checker := option_map f (sv_checker s) |}.

Definition set_grants (db : Db) (grants : list Grant) : Db := {|
  db_grants := grants; db_members := db_members db; db_users := db_users db;
  db_grants_up := db_grants_up db; db_members_up := db_members_up db |}.

Definition set_members (db : Db) (members : list Membership) : Db := {|
  db_grants := db_grants db; db_members := members; db_users := db_users db;
  db_grants_up := db_grants_up db; db_members_up := db_members_up db |}.

(** A query or a write on a table that may not answer. *)
Definition ask {A} (up : bool) (a : A) : result TeamError A := if up then Ok a else Err Database.

(** ** Validation *)

(** [char::is_whitespace]. *)
Definition is_whitespace (c : Z) : bool :=
  ((9 <=? c) && (c <=? 13)) || (c =? 0x20) || (c =? 0x85) || (c =? 0xA0) || (c =? 0x1680) ||
  ((0x2000 <=? c) && (c <=? 0x200A)) || (c =? 0x2028) || (c =? 0x2029) || (c =? 0x202F) ||
  (c =? 0x205F) || (c =? 0x3000).

Fixpoint trim_start (s : list Z) : list Z :=
  match s with
  | c :: s' => if is_whitespace c then trim_start s' else s
  | [] => []
  end.

Definition trim (s : list Z) : list Z := rev (trim_start (rev (trim_start s))).

(** [str::len]. *)
Definition byte_len (s : list Z) : Z := Z.of_nat (length (encode_str s)).

(** [validate_slug], [validate_name]. *)
Definition validate_slug (slug : list Z) : result TeamError unit :=
  if bool_decide (slug = []) then Err (Validation SlugEmpty)
  else if 64 <? byte_len slug then Err (Validation (SlugTooLong (byte_len slug)))
  else if negb (forallb (fun c => ((97 <=? c) && (c <=? 122)) || ((48 <=? c) && (c <=? 57)) || (c =? 45)) slug)
  then Err (Validation SlugCharacters)
  else Ok ().

Definition validate_name (name : list Z) : result TeamError unit :=
  if bool_decide (trim name = []) then Err (Validation NameEmpty)
  else if 255 <? byte_len name then Err (Validation (NameTooLong (byte_len name)))
  else Ok ().

(** ** Teams *)

Definition get_team (s : Svc) (team_id : Z) : result TeamError Team :=
  let? teams := ask (sv_up s) (sv_teams s) in
  ok_or (NotFound team_id) (List.find (fun t => t_id t =? team_id) teams).

(** [create_team]; the slug is a unique column. *)
Definition create_team (name slug : list Z) (description : option (list Z)) (s : Svc)
    : result TeamError Team * Svc :=
  let outcome :=
    let? _ := validate_name name in
    let? _ := validate_slug slug in
    let? _ := ask (sv_up s) () in
    if existsb (fun t => bool_decide (t_slug t = slug)) (sv_teams s) then Err (SlugConflict slug)
    else Ok {| t_id := sv_next s; t_name := trim name; t_slug := slug; t_description := description |} in
  match outcome with
  | Ok team => (Ok team, bump (with_teams s (sv_teams s ++ [team])))
  | Err e => (Err e, s)
  end.

(** [update_team]. *)
Definition update_team (team_id : Z) (name description : option (list Z)) (s : Svc)
    : result TeamError Team * Svc :=
  let outcome :=
    let? existing := get_team s team_id in
    let? _ := match name with Some n => validate_name n | None => Ok () end in
    Ok {| t_id := t_id existing;
          t_name := match name with Some n => trim n | None => t_name existing end;
          t_slug := t_slug existing;
          t_description := match description with Some d => Some d | None => t_description existing end |} in
  match outcome with
  | Ok team =>
      (Ok team, with_teams s (map (fun t => if t_id t =? team_id then team else t) (sv_teams s)))
  | Err e => (Err e, s)
  end.

(** [delete_team]: the foreign keys cascade to memberships and grants. *)
Definition delete_team (team_id : Z) (is_instance_admin : bool) (s : Svc)
    : result TeamError (list Grant) * Svc :=
  let db := sv_db s in
  let outcome :=
    let? cascaded := ask (db_grants_up db) (List.filter (fun g => g_team_id g =? team_id) (db_grants db)) in
    let? _ :=
      if bool_decide (cascaded = []) || is_instance_admin then Ok ()
      else
        let affected := sort_dedup (map g_project_id cascaded) in
        let? siblings := ask (db_grants_up db)
          (List.filter (fun g => is_in (g_project_id g) affected) (db_grants db)) in
        let would_ungate := List.filter (fun pid =>
          negb (existsb (fun g => (g_project_id g =? pid) && negb (g_team_id g =? team_id)) siblings))
          affected in
        if bool_decide (would_ungate = []) then Ok ()
        else Err (TeamDeletionWouldUngate team_id would_ungate) in
    let? teams := ask (sv_up s) (sv_teams s) in
    if existsb (fun t => t_id t =? team_id) teams then Ok cascaded else Err (NotFound team_id) in
  match outcome with
  | Ok cascaded =>
      let db' := set_members
        (set_grants db (List.filter (fun g => negb (g_team_id g =? team_id)) (db_grants db)))
        (List.filter (fun m => negb (mb_team_id m =? team_id)) (db_members db)) in
      (Ok cascaded, invalidating invalidate_all
        (with_teams (with_db s db') (List.filter (fun t => negb (t_id t =? team_id)) (sv_teams s))))
  | Err e => (Err e, s)
  end.

(** ** Memberships *)

(** [add_member]; (team, user) is unique. *)
Definition add_member (team_id user_id : Z) (role : TeamRole) (s : Svc)
    : result TeamError Membership * Svc :=
  let db := sv_db s in
  let outcome :=
    let? _ := get_team s team_id in
    let? users := ask (sv_up s) (db_users db) in
    let? _ := if live db user_id then Ok () else Err (Validation (NoSuchUser user_id)) in
    let? _ := ask (db_members_up db) () in
    if existsb (fun m => (mb_team_id m =? team_id) && (mb_user_id m =? user_id)) (db_members db)
    then Err (DuplicateMember team_id user_id)
    else Ok {| mb_id := sv_next s; mb_team_id := team_id; mb_user_id := user_id;
               mb_role := team_role_as_str role |} in
  match outcome with
  | Ok member =>
      (Ok member, invalidating (invalidate_user user_id)
        (bump (with_db s (set_members db (db_members db ++ [member])))))
  | Err e => (Err e, s)
  end.

Definition is_row (team_id user_id : Z) (m : Membership) : bool :=
  (mb_team_id m =? team_id) && (mb_user_id m =? user_id).

(** [remove_member]. *)
Definition remove_member (team_id user_id : Z) (s : Svc) : result TeamError unit * Svc :=
  let db := sv_db s in
  if negb (db_members_up db) then (Err Database, s)
  else if negb (existsb (is_row team_id user_id) (db_members db))
  then (Err (MemberNotFound team_id user_id), s)
  else (Ok (), invalidating (invalidate_user user_id)
         (with_db s (set_members db
           (List.filter (fun m => negb (is_row team_id user_id m)) (db_members db))))).

Definition set_role (role : TeamRole) (m : Membership) : Membership := {|
  mb_id := mb_id m; mb_team_id := mb_team_id m; mb_user_id := mb_user_id m;
  mb_role := team_role_as_str role |}.

(** [set_member_role]: the row found is updated by its id. *)
Definition set_member_role (team_id user_id : Z) (role : TeamRole) (s : Svc)
    : result TeamError Membership * Svc :=
  let db := sv_db s in
  if negb (db_members_up db) then (Err Database, s)
  else
    match List.find (is_row team_id user_id) (db_members db) with
    | None => (Err (MemberNotFound team_id user_id), s)
    | Some existing =>
        (Ok (set_role role existing), invalidating (invalidate_user user_id)
          (with_db s (set_members db
            (map (fun m => if mb_id m =? mb_id existing then set_role role m else m) (db_members db)))))
    end.

(** ** Grants *)

Record ResolvedAuthz := { ra_is_instance_admin : bool; ra_held : gset string }.

Definition holds (authz : ResolvedAuthz) (p : Permission) : bool :=
  bool_decide (permission_to_string p ∈ ra_held authz).

(** [check_role_ceiling]. *)
Definition check_role_ceiling (authz : ResolvedAuthz) (role : TeamRole) : result TeamError unit :=
  match List.find (fun p => negb (holds authz p)) (fixed_role_permissions role) with
  | Some excess => Err (RoleCeilingExceeded (team_role_as_str role) (permission_to_string excess))
  | None => Ok ()
  end.

(** [parse_stored_role]. *)
Definition parse_stored_role (id : Z) (role : string) : result TeamError TeamRole :=
  ok_or (CorruptStoredRole id role) (team_role_from_str role).

Section Service.
Context (membership_resolver : option (Z -> result unit (option (list string)))).

(** The resolver is the attached checker's. *)
Definition resolver_of (s : Svc) : option (Z -> result unit (option (list string))) :=
  match sv_checker s with Some _ => membership_resolver | None => None end.

(** [ResolvedAuthz::resolve]. *)
Definition resolve (s : Svc) (is_instance_admin : bool) (user_id project_id : Z)
    (grants : list Grant) : result TeamError ResolvedAuthz :=
  if is_instance_admin then Ok {| ra_is_instance_admin := true; ra_held := ∅ |}
  else
    match permissions_from_grants (resolver_of s) (sv_db s) user_id project_id grants with
    | Ok held => Ok {| ra_is_instance_admin := false; ra_held := held |}
    | Err e => Err (PermissionResolution user_id project_id e)
    end.

Definition is_grant (project_id team_id : Z) (g : Grant) : bool :=
  (g_project_id g =? project_id) && (g_team_id g =? team_id).

(** The insert with its conflict clause on (project, team): the row, and the table. *)
Definition upsert (grants : list Grant) (next project_id team_id : Z) (role : TeamRole)
    : Grant * list Grant :=
  let row id := {| g_id := id; g_project_id := project_id; g_team_id := team_id;
                   g_role := team_role_as_str role |} in
  match List.find (is_grant project_id team_id) grants with
  | Some existing =>
      (row (g_id existing),
       map (fun g => if is_grant project_id team_id g then row (g_id g) else g) grants)
  | None => (row next, grants ++ [row next])
  end.

(** [grant_project_access]. *)
Definition grant_project_access (actor_user_id project_id team_id : Z) (role : TeamRole)
    (is_instance_admin : bool) (s : Svc) : result TeamError Grant * Svc :=
  let db := sv_db s in
  let outcome :=
    let? grants := ask (db_grants_up db) (grants_of db project_id) in
    let? authz := resolve s is_instance_admin actor_user_id project_id grants in
    let? _ :=
      if ra_is_instance_admin authz then Ok ()
      else
        if bool_decide (grants = []) then Err GatingRequiresAdmin
        else if negb (holds authz ProjectsWrite)
        then Err (ProjectPermissionDenied project_id (permission_to_string ProjectsWrite))
        else
          let? _ := check_role_ceiling authz role in
          match List.find (fun g => g_team_id g =? team_id) grants with
          | Some existing =>
              let? stored := parse_stored_role (g_id existing) (g_role existing) in
              check_role_ceiling authz stored
          | None => Ok ()
          end in
    let? teams := ask (sv_up s) (sv_teams s) in
    let? _ := if existsb (fun t => t_id t =? team_id) teams then Ok () else Err (NotFound team_id) in
    if existsb (Z.eqb project_id) (sv_projects s)
    then Ok (upsert (db_grants db) (sv_next s) project_id team_id role)
    else Err (Validation (NoSuchProject project_id)) in
  match outcome with
  | Ok (inserted, rows) =>
      (Ok inserted, invalidating (invalidate_project project_id) (bump (with_db s (set_grants db rows))))
  | Err e => (Err e, s)
  end.

(** [revoke_project_access]. *)
Definition revoke_project_access (actor_user_id project_id team_id : Z) (is_instance_admin : bool)
    (s : Svc) : result TeamError unit * Svc :=
  let db := sv_db s in
  let outcome :=
    let? grants := ask (db_grants_up db) (grants_of db project_id) in
    let? authz := resolve s is_instance_admin actor_user_id project_id grants in
    let? _ :=
      if negb (ra_is_instance_admin authz) && negb (holds authz ProjectsWrite)
      then Err (ProjectPermissionDenied project_id (permission_to_string ProjectsWrite))
      else Ok () in
    let? target := ok_or (ProjectAccessNotFound project_id team_id)
      (List.find (fun g => g_team_id g =? team_id) grants) in
    let? _ :=
      if negb (ra_is_instance_admin authz) then
        if (length grants =? 1)%nat then Err GatingRequiresAdmin
        else
          let? stored := parse_stored_role (g_id target) (g_role target) in
          check_role_ceiling authz stored
      else Ok () in
    if existsb (is_grant project_id team_id) (db_grants db) then Ok ()
    else Err (ProjectAccessNotFound project_id team_id) in
  match outcome with
  | Ok _ =>
      (Ok (), invalidating (invalidate_project project_id)
        (with_db s (set_grants db
          (List.filter (fun g => negb (is_grant project_id team_id g)) (db_grants db)))))
  | Err e => (Err e, s)
  end.
End Service.

(** ** The reads; a table keeps its rows in the order of their creation *)

Definition list_project_access (s : Svc) (project_id : Z) : result TeamError (list Grant) :=
  ask (db_grants_up (sv_db s)) (grants_of (sv_db s) project_id).

Definition list_team_projects (s : Svc) (team_id : Z) : result TeamError (list Grant) :=
  let? _ := get_team s team_id in
  ask (db_grants_up (sv_db s)) (List.filter (fun g => g_team_id g =? team_id) (db_grants (sv_db s))).

Definition team_ids_for_user (s : Svc) (user_id : Z) : result TeamError (list Z) :=
  let? rows := ask (db_members_up (sv_db s))
    (List.filter (fun m => mb_user_id m =? user_id) (db_members (sv_db s))) in
  Ok (map mb_team_id rows).

(** [normalize_page]. *)
Definition normalize_page (page page_size : option Z) : Z * Z :=
  (Z.max (default 1 page) 1, Z.max 1 (Z.min (default 20 page_size) 100)).

(** ** Soft deletion of a user, in the user service *)

Inductive UserServiceError := UserNotFound (user_id : Z) | AlreadyDeleted (user_id : Z).

(** [delete_user]. *)
Definition delete_user (db : Db) (user_id : Z) : result UserServiceError Db :=
  let? (_, deleted) := ok_or (UserNotFound user_id)
    (List.find (fun '(id, _) => id =? user_id) (db_users db)) in
  if (deleted : bool) then Err (AlreadyDeleted user_id)
  else Ok {| db_grants := db_grants db; db_members := db_members db;
             db_users := map (fun '(id, d) => (id, d || (id =? user_id))) (db_users db);
             db_grants_up := db_grants_up db; db_members_up := db_members_up db |}.

(** ** Helper facts *)

Lemma role_name_roundtrip r :
  fixed_role_permissions_or_empty (team_role_as_str r) = fixed_role_permissions r.
Proof. by destruct r. Qed.

Lemma ask_Ok {A} up (a b : A) : ask up a = Ok b -> up = true /\ b = a.
Proof. unfold ask. destruct up; naive_solver. Qed.

Lemma ceiling_Ok authz role p :
  check_role_ceiling authz role = Ok () -> p ∈ fixed_role_permissions role ->
  permission_to_string p ∈ ra_held authz.
Proof.
  unfold check_role_ceiling. destruct (List.find _ _) as [|] eqn:Hf; [done|]. intros _ Hp.
  pose proof (find_none _ _ Hf p (proj1 (list_elem_of_In _ _) Hp)) as Hn. simpl in Hn.
  unfold holds in Hn. by case_bool_decide.
Qed.

Lemma stored_ceiling_Ok authz id role p :
  (let? stored := parse_stored_role id role in check_role_ceiling authz stored) = Ok () ->
  p ∈ fixed_role_permissions_or_empty role -> permission_to_string p ∈ ra_held authz.
Proof.
  unfold parse_stored_role, fixed_role_permissions_or_empty. intros Hc.
  apply result_bind_Ok in Hc as (r & Hr & Hc). apply ok_or_Ok in Hr as ->. by apply ceiling_Ok.
Qed.

Section ServiceFacts.
Context (membership_resolver : option (Z -> result unit (option (list string)))).

(** What is resolved for a project-scoped caller is what the caller holds. *)
Lemma resolve_exact s u p authz :
  db_wf (sv_db s) -> db_grants_up (sv_db s) = true ->
  resolve membership_resolver s false u p (grants_of (sv_db s) p) = Ok authz ->
  ra_is_instance_admin authz = false /\
  forall x, x ∈ ra_held authz <-> holds_on (resolver_of membership_resolver s) (sv_db s) u p x.
Proof.
  intros Hwf Hup. unfold resolve.
  destruct (permissions_from_grants _ _ _ _ _) as [held|] eqn:Hp; [|done]. intros Ha%Ok_inj.
  subst authz. split; [done|]. intros x. simpl. destruct (grants_of (sv_db s) p) as [|g gs] eqn:Hg.
  - apply Ok_inj in Hp. subst held. split; [set_solver|].
    intros (g & m & _ & _ & (Hin & Hgp & _) & _).
    assert (g ∈ grants_of (sv_db s) p) as Hgin by (by apply elem_grants_of).
    rewrite Hg in Hgin. by apply elem_of_nil in Hgin.
  - apply check_permissions_exact; [done|]. apply check_permissions_Ok.
    unfold check_permissions_uncached, query_grants. rewrite Hup. fold (grants_of (sv_db s) p).
    rewrite Hg. cbn [result_bind]. by rewrite Hp.
Qed.

Lemma filter_nil_false {A} (f : A -> bool) l x : List.filter f l = [] -> In x l -> f x = false.
Proof.
  intros Hf Hx. destruct (f x) eqn:E; [|done].
  assert (In x (List.filter f l)) as Hin by (by apply filter_In). by rewrite Hf in Hin.
Qed.

(** What a successful grant went through. *)
Lemma grant_Ok s actor p t role adm row s' :
  grant_project_access membership_resolver actor p t role adm s = (Ok row, s') ->
  s' = invalidating (invalidate_project p) (bump (with_db s (set_grants (sv_db s)
         (upsert (db_grants (sv_db s)) (sv_next s) p t role).2))) /\
  db_grants_up (sv_db s) = true /\
  (adm = false -> grants_of (sv_db s) p <> [] /\
   exists authz, resolve membership_resolver s false actor p (grants_of (sv_db s) p) = Ok authz /\
     holds authz ProjectsWrite = true /\ check_role_ceiling authz role = Ok () /\
     forall g, List.find (fun g => g_team_id g =? t) (grants_of (sv_db s) p) = Some g ->
       (let? stored := parse_stored_role (g_id g) (g_role g) in check_role_ceiling authz stored) = Ok ()).
Proof.
  unfold grant_project_access. destruct (result_bind _ _) as [[ins rows]|] eqn:Ho; [|done].
  intros [= <- <-]. apply result_bind_Ok in Ho as (grants & Hg & Ho). apply ask_Ok in Hg as [Hup ->].
  apply result_bind_Ok in Ho as (authz & Ha & Ho). apply result_bind_Ok in Ho as ([] & Hauth & Ho).
  apply result_bind_Ok in Ho as (teams & _ & Ho). apply result_bind_Ok in Ho as (_ & _ & Ho).
  destruct (existsb _ _); [|done]. apply Ok_inj in Ho. rewrite Ho. split; [done|].
  split; [done|]. intros ->.
  assert (ra_is_instance_admin authz = false) as Hna.
  { unfold resolve in Ha. destruct (permissions_from_grants _ _ _ _ _); [|done].
    apply Ok_inj in Ha. by subst. }
  rewrite Hna in Hauth. case_bool_decide; [done|]. split; [done|]. exists authz. split; [done|].
  destruct (holds authz ProjectsWrite); [|done]. split; [done|]. simpl in Hauth.
  apply result_bind_Ok in Hauth as ([] & Hc & Hauth). split; [done|]. intros g Hf.
  by rewrite Hf in Hauth.
Qed.

(** What a successful revocation went through. *)
Lemma revoke_Ok s actor p t adm s' :
  revoke_project_access membership_resolver actor p t adm s = (Ok (), s') ->
  s' = invalidating (invalidate_project p) (with_db s (set_grants (sv_db s)
         (List.filter (fun g => negb (is_grant p t g)) (db_grants (sv_db s))))) /\
  db_grants_up (sv_db s) = true /\
  exists g, List.find (fun g => g_team_id g =? t) (grants_of (sv_db s) p) = Some g /\
  (adm = false -> length (grants_of (sv_db s) p) <> 1%nat /\
   exists authz, resolve membership_resolver s false actor p (grants_of (sv_db s) p) = Ok authz /\
     holds authz ProjectsWrite = true /\
     (let? stored := parse_stored_role (g_id g) (g_role g) in check_role_ceiling authz stored) = Ok ()).
Proof.
  unfold revoke_project_access. destruct (result_bind _ _) as [[]|] eqn:Ho; [|done].
  intros [= <-]. apply result_bind_Ok in Ho as (grants & Hg & Ho). apply ask_Ok in Hg as [Hup ->].
  apply result_bind_Ok in Ho as (authz & Ha & Ho). apply result_bind_Ok in Ho as ([] & Hauth & Ho).
  apply result_bind_Ok in Ho as (g & Hf & Ho). apply ok_or_Ok in Hf.
  apply result_bind_Ok in Ho as ([] & Hc & Ho). split; [done|]. split; [done|]. exists g.
  split; [done|]. intros ->.
  assert (ra_is_instance_admin authz = false) as Hna.
  { unfold resolve in Ha. destruct (permissions_from_grants _ _ _ _ _); [|done].
    apply Ok_inj in Ha. by subst. }
  rewrite Hna in Hauth, Hc. simpl in Hauth, Hc. destruct (holds authz ProjectsWrite) eqn:Hh; [|done].
  destruct (Nat.eqb_spec (length (grants_of (sv_db s) p)) 1); [done|]. eauto.
Qed.

(** ** Grant changes by a project-scoped caller *)

Lemma upsert_elem grants next p t role g :
  g ∈ (upsert grants next p t role).2 ->
  g ∈ grants \/ (g_project_id g = p /\ g_team_id g = t /\ g_role g = team_role_as_str role).
Proof.
  unfold upsert. destruct (List.find _ _) as [e|] eqn:Hf; simpl.
  - intros (g0 & -> & Hg0)%list_elem_of_fmap. destruct (is_grant p t g0); [by right|by left].
  - rewrite elem_of_app, list_elem_of_singleton. intros [Hg | ->]; [by left|by right].
Qed.

(** C3: A project-scoped caller cannot hand out what the caller does not hold: whatever
    any user holds on any project after a grant by such a caller, that user held before,
    or it is on the granted project and the caller held it there. *)
Theorem grant_never_escalates s actor p t role row s' v q x :
  db_wf (sv_db s) ->
  grant_project_access membership_resolver actor p t role false s = (Ok row, s') ->
  holds_on (resolver_of membership_resolver s) (sv_db s') v q x ->
  holds_on (resolver_of membership_resolver s) (sv_db s) v q x \/
  (q = p /\ holds_on (resolver_of membership_resolver s) (sv_db s) actor p x).
Proof.
  intros Hwf Hg (g & m & perm & side & (Hgin & Hgp & Hm & Hu & Ht & Hl) & Hms & Hp & Hr & ->).
  apply grant_Ok in Hg as (-> & Hup & Hna). destruct (Hna eq_refl) as (_ & authz & Ha & _ & Hc & _).
  destruct (resolve_exact s actor p authz Hwf Hup Ha) as [_ Hheld]. simpl in *.
  apply upsert_elem in Hgin as [Hgin|(Hgp' & Hgt & Hrole)].
  - left. exists g, m, perm, side. done.
  - right. split; [congruence|]. apply Hheld. apply (ceiling_Ok _ role); [done|].
    by rewrite <- role_name_roundtrip, <- Hrole.
Qed.

(** A grant or a revocation by a project-scoped caller succeeds only when the caller
    holds the write permission on the project and every permission of the role written
    and of the role overwritten or removed. *)
Theorem grant_change_within_ceiling s actor p t role row s' :
  db_wf (sv_db s) ->
  (grant_project_access membership_resolver actor p t role false s = (Ok row, s') ->
   holds_on (resolver_of membership_resolver s) (sv_db s) actor p "projects:write" /\
   (forall perm, perm ∈ fixed_role_permissions role ->
      holds_on (resolver_of membership_resolver s) (sv_db s) actor p (permission_to_string perm)) /\
   forall g perm, g ∈ db_grants (sv_db s) -> g_project_id g = p -> g_team_id g = t ->
     perm ∈ fixed_role_permissions_or_empty (g_role g) ->
     holds_on (resolver_of membership_resolver s) (sv_db s) actor p (permission_to_string perm)) /\
  (revoke_project_access membership_resolver actor p t false s = (Ok (), s') ->
   holds_on (resolver_of membership_resolver s) (sv_db s) actor p "projects:write" /\
   forall g perm, g ∈ db_grants (sv_db s) -> g_project_id g = p -> g_team_id g = t ->
     perm ∈ fixed_role_permissions_or_empty (g_role g) ->
     holds_on (resolver_of membership_resolver s) (sv_db s) actor p (permission_to_string perm)).
Proof.
  intros Hwf.
  assert (forall g, g ∈ db_grants (sv_db s) -> g_project_id g = p -> g_team_id g = t ->
    List.find (fun g => g_team_id g =? t) (grants_of (sv_db s) p) = Some g) as Hfind.
  { intros g Hin Hgp Hgt. destruct (List.find _ _) as [g'|] eqn:Hf.
    - apply find_some in Hf as [[Hg' Hp']%list_elem_of_In%elem_grants_of Heq%Z.eqb_eq].
      f_equal. apply (grants_unique (sv_db s)); congruence.
    - assert (In g (grants_of (sv_db s) p)) as Hi by (by apply list_elem_of_In, elem_grants_of).
      pose proof (find_none _ _ Hf g Hi) as Hn. apply Z.eqb_neq in Hn. congruence. }
  split; intros Hg.
  - apply grant_Ok in Hg as (_ & Hup & Hna). destruct (Hna eq_refl) as (_ & authz & Ha & Hw & Hc & Hov).
    destruct (resolve_exact s actor p authz Hwf Hup Ha) as [_ Hheld]. split_and!.
    + apply Hheld. unfold holds in Hw. by case_bool_decide.
    + intros perm Hp. apply Hheld. by apply (ceiling_Ok _ role).
    + intros g perm Hin Hgp Hgt Hp. apply Hheld.
      by apply (stored_ceiling_Ok _ (g_id g) (g_role g)); [apply Hov, Hfind|].
  - apply revoke_Ok in Hg as (_ & Hup & g0 & Hf & Hna). destruct (Hna eq_refl) as (_ & authz & Ha & Hw & Hov).
    destruct (resolve_exact s actor p authz Hwf Hup Ha) as [_ Hheld]. split.
    + apply Hheld. unfold holds in Hw. by case_bool_decide.
    + intros g perm Hin Hgp Hgt Hp. assert (g0 = g) as -> by (pose proof (Hfind g Hin Hgp Hgt); congruence).
      apply Hheld. by apply (stored_ceiling_Ok _ (g_id g) (g_role g)).
Qed.

(** ** Gating *)

Definition gated (db : Db) (p : Z) : Prop := exists g, g ∈ db_grants db /\ g_project_id g = p.

Lemma upsert_projects grants next p t role q :
  (exists g, g ∈ (upsert grants next p t role).2 /\ g_project_id g = q) <->
  (exists g, g ∈ grants /\ g_project_id g = q) \/ q = p.
Proof.
  split.
  - intros (g & [Hg|(Hp & _)]%upsert_elem & <-); [left; eauto|by right].
  - assert (forall e, is_grant p t e = true -> g_project_id e = p) as Hpe.
    { intros e [He _]%andb_true_iff. by apply Z.eqb_eq. }
    unfold upsert. destruct (List.find _ _) as [e|] eqn:Hf; simpl.
    + apply find_some in Hf as [He%list_elem_of_In Hee]. setoid_rewrite list_elem_of_fmap.
      assert (forall g, g ∈ grants -> exists g', (exists y, g' = (if is_grant p t y then
        {| g_id := g_id y; g_project_id := p; g_team_id := t; g_role := team_role_as_str role |}
        else y) /\ y ∈ grants) /\ g_project_id g' = g_project_id g) as Hin.
      { intros g Hg. eexists. split; [by exists g|]. destruct (is_grant p t g) eqn:Hi; [|done].
        simpl. symmetry. by apply Hpe. }
      intros [(g & Hg & <-)| ->]; [by apply Hin|]. destruct (Hin e He) as (g' & ? & Hg'). exists g'. split; [done|]. by rewrite Hg', Hpe.
    + intros [(g & Hg & <-)| ->].
      * exists g. split; [|done]. apply elem_of_app. by left.
      * eexists. split; [apply elem_of_app; right; apply list_elem_of_here|done].
Qed.

Lemma grants_of_NoDup db p : db_wf db -> NoDup (grants_of db p).
Proof.
  intros [_ Hnd]. unfold grants_of. apply NoDup_ListNoDup, NoDup_filter, NoDup_ListNoDup.
  by apply (NoDup_fmap_1 (fun g => (g_project_id g, g_team_id g))).
Qed.

Lemma other_grant db p t g :
  db_wf db -> List.find (fun g => g_team_id g =? t) (grants_of db p) = Some g ->
  length (grants_of db p) <> 1%nat ->
  exists g', g' ∈ db_grants db /\ g_project_id g' = p /\ g_team_id g' <> t.
Proof.
  intros Hwf Hf Hlen. apply find_some in Hf as [Hin%list_elem_of_In Ht%Z.eqb_eq].
  pose proof (grants_of_NoDup db p Hwf) as Hnd.
  assert (exists g', g' ∈ grants_of db p /\ g' <> g) as (g' & Hg' & Hne).
  { destruct (grants_of db p) as [|a [|b l]]; [by apply elem_of_nil in Hin|done|].
    inversion Hnd as [|? ? Hni _]; subst. apply elem_of_cons in Hin as [->|Hin].
    - exists b. split; [apply elem_of_cons; right; apply list_elem_of_here|]. intros ->.
      apply Hni, list_elem_of_here.
    - exists a. split; [apply list_elem_of_here|]. by intros ->. }
  apply elem_grants_of in Hin as [Hin Hp], Hg' as [Hg' Hp']. exists g'. split_and!; [done..|].
  intros Ht'. apply Hne. apply (grants_unique db); congruence.
Qed.

(** Without an instance admin no grant, revocation or team deletion changes which
    projects are restricted to teams: none closes an open project and none re-opens a
    restricted one. *)
Theorem gating_needs_admin s actor p t role q :
  db_wf (sv_db s) ->
  (gated (sv_db (grant_project_access membership_resolver actor p t role false s).2) q
    <-> gated (sv_db s) q) /\
  (gated (sv_db (revoke_project_access membership_resolver actor p t false s).2) q
    <-> gated (sv_db s) q) /\
  (gated (sv_db (delete_team t false s).2) q <-> gated (sv_db s) q).
Proof.
  intros Hwf. split_and!.
  - destruct (grant_project_access _ _ _ _ _ _ _) as [[row|e] s'] eqn:Hg.
    + apply grant_Ok in Hg as (-> & _ & Hna). destruct (Hna eq_refl) as [Hne _].
      unfold gated. simpl. rewrite upsert_projects. split; [|by left]. intros [?| ->]; [done|].
      destruct (grants_of (sv_db s) p) as [|g gs] eqn:Hgs; [done|]. exists g.
      apply elem_grants_of. rewrite Hgs. apply list_elem_of_here.
    + unfold grant_project_access in Hg. destruct (result_bind _ _) as [[]|]; by simplify_eq.
  - destruct (revoke_project_access _ _ _ _ _ _) as [[[]|e] s'] eqn:Hg.
    + apply revoke_Ok in Hg as (-> & _ & g & Hf & Hna). destruct (Hna eq_refl) as [Hlen _].
      unfold gated. simpl. setoid_rewrite list_elem_of_In. setoid_rewrite filter_In.
      split; [intros (g' & [? ?] & ?); eauto|]. intros (g' & Hin & <-).
      unfold is_grant. destruct (Z.eqb_spec (g_project_id g') p) as [->|Hne].
      * destruct (other_grant _ _ _ _ Hwf Hf Hlen) as (g2 & H2 & Hp2 & Ht2). exists g2.
        apply list_elem_of_In in H2. rewrite Hp2, Z.eqb_refl. apply Z.eqb_neq in Ht2. by rewrite Ht2.
      * exists g'. apply Z.eqb_neq in Hne. by rewrite Hne.
    + unfold revoke_project_access in Hg. destruct (result_bind _ _) as [[]|]; by simplify_eq.
  - unfold delete_team. destruct (result_bind _ _) as [cascaded|] eqn:Ho; [|done].
    apply result_bind_Ok in Ho as (cs & Hc & Ho). apply ask_Ok in Hc as [Hup ->].
    apply result_bind_Ok in Ho as ([] & Hu & Ho). rewrite orb_false_r in Hu. unfold gated. simpl.
    setoid_rewrite list_elem_of_In. setoid_rewrite filter_In.
    split; [intros (g' & [? ?] & ?); eauto|]. intros (g & Hin & <-).
    destruct (Z.eqb_spec (g_team_id g) t) as [Ht|Hne];
      [|exists g; apply Z.eqb_neq in Hne; by rewrite Hne].
    case_bool_decide as Hcs.
    { exfalso. assert (In g (List.filter (fun g => g_team_id g =? t) (db_grants (sv_db s)))) as Hg
        by (apply filter_In; split; [done|by apply Z.eqb_eq]). by rewrite Hcs in Hg. }
    apply result_bind_Ok in Hu as (sib & Hs & Hu). apply ask_Ok in Hs as [_ ->].
    case_bool_decide as Hwu; [|done].
    assert (In (g_project_id g) (sort_dedup (map g_project_id
      (List.filter (fun g => g_team_id g =? t) (db_grants (sv_db s)))))) as Haff.
    { apply list_elem_of_In, sort_dedup_elem, list_elem_of_In, in_map, filter_In.
      split; [done|by apply Z.eqb_eq]. }
    pose proof (filter_nil_false _ _ _ Hwu Haff) as Hsib. apply negb_false_iff, existsb_exists in Hsib
      as (g' & [Hg' _]%filter_In & [Hp%Z.eqb_eq Ht']%andb_true_iff). by exists g'.
Qed.

(** ** The service and the checker together *)

Definition with_checker (s : Svc) (c : Checker) : Svc := {|
  sv_db := sv_db s; sv_teams := sv_teams s; sv_projects := sv_projects s; sv_up := sv_up s;
  sv_next := sv_next s; sv_checker := Some c |}.

(** One call of the service or of the attached checker, a table that comes or goes,
    entries that expire. *)
Inductive svc_step : Svc -> Svc -> Prop :=
  | ss_create s name slug description : svc_step s (create_team name slug description s).2
  | ss_update s t name description : svc_step s (update_team t name description s).2
  | ss_delete s t adm : svc_step s (delete_team t adm s).2
  | ss_add s t u role : svc_step s (add_member t u role s).2
  | ss_remove s t u : svc_step s (remove_member t u s).2
  | ss_set_role s t u role : svc_step s (set_member_role t u role s).2
  | ss_grant s actor p t role adm :
      svc_step s (grant_project_access membership_resolver actor p t role adm s).2
  | ss_revoke s actor p t adm :
      svc_step s (revoke_project_access membership_resolver actor p t adm s).2
  | ss_access s c u p : sv_checker s = Some c ->
      svc_step s (with_checker s (user_can_access_project (sv_db s) u p c).2)
  | ss_permissions s c u p : sv_checker s = Some c ->
      svc_step s (with_checker s (effective_project_permissions membership_resolver (sv_db s) u p c).2)
  | ss_access_batch s c u ids : sv_checker s = Some c ->
      svc_step s (with_checker s (check_access_batch (sv_db s) u ids c).2)
  | ss_permissions_batch s c u ids : sv_checker s = Some c ->
      svc_step s (with_checker s (check_permissions_batch membership_resolver (sv_db s) u ids c).2)
  | ss_outage s grants_up members_up :
      svc_step s (with_db s (set_up (sv_db s) grants_up members_up))
  | ss_expire s c c' : sv_checker s = Some c ->
      ck_cache c' ⊆ ck_cache c -> ck_permissions_cache c' ⊆ ck_permissions_cache c ->
      svc_step s (with_checker s c').

(** The indexes of the tables and the row id sequence. *)
Definition svc_inv (s : Svc) : Prop :=
  db_wf (sv_db s) /\ Forall (fun m => mb_id m < sv_next s) (db_members (sv_db s)).

(** What a step of the service is for the checker. *)
Definition simulates (s s' : Svc) : Prop :=
  svc_inv s' /\ forall c', sv_checker s' = Some c' ->
    exists c, sv_checker s = Some c /\ rtc (step membership_resolver) (sv_db s, c) (sv_db s', c').

Lemma simulates_refl s : svc_inv s -> simulates s s.
Proof. intros Hi. split; [done|]. intros c Hc. by exists c. Qed.

(** A write that is followed by an invalidation. *)
Lemma simulates_write s s' f :
  svc_inv s' -> sv_checker s' = option_map f (sv_checker s) ->
  (forall c, step membership_resolver (sv_db s, c) (sv_db s', f c)) -> simulates s s'.
Proof.
  intros Hi Hc Hs. split; [done|]. intros c' Hc'. rewrite Hc in Hc'.
  destruct (sv_checker s) as [c|]; [|done]. simpl in Hc'. simplify_eq. exists c.
  split; [done|]. apply rtc_once, Hs.
Qed.

Lemma simulates_check s c c' :
  svc_inv s -> sv_checker s = Some c -> step membership_resolver (sv_db s, c) (sv_db s, c') ->
  simulates s (with_checker s c').
Proof.
  intros Hi Hc Hs. split; [done|]. intros c'' [= <-]. exists c. split; [done|]. by apply rtc_once.
Qed.

Lemma upsert_keys grants next p t role :
  NoDup (map (fun g => (g_project_id g, g_team_id g)) grants) ->
  NoDup (map (fun g => (g_project_id g, g_team_id g)) (upsert grants next p t role).2).
Proof.
  intros Hnd. unfold upsert. destruct (List.find _ _) as [e|] eqn:Hf; simpl.
  - rewrite map_map. erewrite map_ext; [exact Hnd|]. intros g. simpl.
    destruct (is_grant p t g) eqn:Hg; [|done]. unfold is_grant in Hg.
    apply andb_true_iff in Hg as [->%Z.eqb_eq ->%Z.eqb_eq]. done.
  - rewrite map_app. apply list.NoDup_app. split_and!; [done| |apply NoDup_singleton].
    intros k (g & -> & Hg)%list_elem_of_fmap [= Hp Ht]%list_elem_of_singleton.
    pose proof (find_none _ _ Hf g (proj1 (list_elem_of_In _ _) Hg)) as Hn.
    unfold is_grant in Hn. by rewrite Hp, Ht, !Z.eqb_refl in Hn.
Qed.

Lemma filter_map_NoDup {A B} (key : A -> B) (f : A -> bool) l :
  NoDup (map key l) -> NoDup (map key (List.filter f l)).
Proof.
  induction l as [|a l IH]; simpl; [done|]. intros Hnd. inversion Hnd as [|? ? Hni Hnd']; subst.
  destruct (f a); [|by apply IH]. simpl. constructor; [|by apply IH].
  intros (b & Hab & [Hb _]%list_elem_of_In%filter_In)%list_elem_of_fmap. apply Hni.
  apply list_elem_of_fmap. exists b. by rewrite list_elem_of_In.
Qed.

Lemma grants_write_simulates s p rows n :
  svc_inv s -> sv_next s <= n ->
  NoDup (map (fun g => (g_project_id g, g_team_id g)) rows) ->
  (forall q, q <> p -> List.filter (fun g => g_project_id g =? q) rows = grants_of (sv_db s) q) ->
  simulates s {| sv_db := set_grants (sv_db s) rows; sv_teams := sv_teams s;
                 sv_projects := sv_projects s; sv_up := sv_up s; sv_next := n;
                 sv_checker := option_map (invalidate_project p) (sv_checker s) |}.
Proof.
  intros [[Hids Hkeys] Hlt] Hn Hnd Hrows.
  assert (svc_inv {| sv_db := set_grants (sv_db s) rows; sv_teams := sv_teams s;
    sv_projects := sv_projects s; sv_up := sv_up s; sv_next := n;
    sv_checker := option_map (invalidate_project p) (sv_checker s) |}) as Hi.
  { split; [done|]. simpl. eapply Forall_impl; [|exact Hlt]. simpl. lia. }
  apply (simulates_write _ _ (invalidate_project p)); [done..|]. intros c. by apply step_grants; [apply Hi|..].
Qed.

Lemma members_write_simulates s u rows n :
  db_wf (sv_db s) -> NoDup (map mb_id rows) -> Forall (fun m => mb_id m < n) rows ->
  (forall v, v <> u -> List.filter (fun m => mb_user_id m =? v) rows = user_rows (sv_db s) v) ->
  simulates s {| sv_db := set_members (sv_db s) rows; sv_teams := sv_teams s;
                 sv_projects := sv_projects s; sv_up := sv_up s; sv_next := n;
                 sv_checker := option_map (invalidate_user u) (sv_checker s) |}.
Proof.
  intros [Hids Hkeys] Hnd Hlt Hrows.
  apply (simulates_write _ _ (invalidate_user u)); [done..|]. intros c. by apply step_members.
Qed.

(** Rows of other keys survive a filter or a map that only touches one key. *)
Lemma filter_filter_other {A} (f g : A -> bool) l :
  (forall x, f x = true -> g x = true) -> List.filter f (List.filter g l) = List.filter f l.
Proof.
  intros Hfg. induction l as [|x l IH]; simpl; [done|]. destruct (g x) eqn:Hg; simpl; rewrite IH; [done|].
  destruct (f x) eqn:Hf; [|done]. apply Hfg in Hf. congruence.
Qed.

Lemma filter_map_other {A} (f : A -> bool) (h : A -> A) l :
  (forall x, x ∈ l -> h x = x \/ (f x = false /\ f (h x) = false)) ->
  List.filter f (map h l) = List.filter f l.
Proof.
  induction l as [|x l IH]; simpl; [done|]. intros Hh. rewrite IH by (intros y Hy; apply Hh; by right).
  destruct (Hh x) as [->|[-> ->]]; [apply list_elem_of_here|done..].
Qed.

Lemma grant_simulates s actor p t role adm :
  svc_inv s -> simulates s (grant_project_access membership_resolver actor p t role adm s).2.
Proof.
  intros Hi. destruct (grant_project_access _ _ _ _ _ _ _) as [[row|e] s'] eqn:Hg; simpl.
  - apply grant_Ok in Hg as (-> & _ & _).
    apply (grants_write_simulates s p _ (sv_next s + 1)); [done|lia|..].
    + apply upsert_keys, Hi.
    + intros q Hq. unfold upsert, grants_of. destruct (List.find _ _) as [e|]; simpl.
      * apply filter_map_other. intros g _. unfold is_grant.
        destruct (Z.eqb_spec (g_project_id g) p) as [->|]; simpl; [|by left].
        destruct (g_team_id g =? t); [right|by left]. simpl.
        by rewrite (proj2 (Z.eqb_neq p q)) by congruence.
      * rewrite List.filter_app. simpl. rewrite (proj2 (Z.eqb_neq p q)) by congruence. apply app_nil_r.
  - unfold grant_project_access in Hg. destruct (result_bind _ _) as [[]|]; simplify_eq.
    by apply simulates_refl.
Qed.

Lemma revoke_simulates s actor p t adm :
  svc_inv s -> simulates s (revoke_project_access membership_resolver actor p t adm s).2.
Proof.
  intros Hi. destruct (revoke_project_access _ _ _ _ _ _) as [[[]|e] s'] eqn:Hg; simpl.
  - apply revoke_Ok in Hg as (-> & _ & _).
    apply (grants_write_simulates s p _ (sv_next s)); [done|lia|..].
    + apply filter_map_NoDup, Hi.
    + intros q Hq. apply filter_filter_other. intros g Hgq%Z.eqb_eq. unfold is_grant.
      by rewrite (proj2 (Z.eqb_neq (g_project_id g) p)) by congruence.
  - unfold revoke_project_access in Hg. destruct (result_bind _ _) as [[]|]; simplify_eq.
    by apply simulates_refl.
Qed.

Lemma add_member_simulates s t u role : svc_inv s -> simulates s (add_member t u role s).2.
Proof.
  intros Hi. unfold add_member. destruct (result_bind _ _) as [m|] eqn:Ho; [|by apply simulates_refl].
  assert (mb_id m = sv_next s /\ mb_user_id m = u) as [Hid Hu].
  { repeat (apply result_bind_Ok in Ho as (? & _ & Ho)). destruct (existsb _ _); [done|].
    apply Ok_inj in Ho. by subst. }
  destruct Hi as [[Hids Hkeys] Hlt].
  apply (members_write_simulates s u (db_members (sv_db s) ++ [m]) (sv_next s + 1)); [done|..].
  - rewrite map_app. apply list.NoDup_app. split_and!; [done| |apply NoDup_singleton].
    intros i (m' & -> & Hm')%list_elem_of_fmap Heq%list_elem_of_singleton.
    rewrite List.Forall_forall in Hlt. apply list_elem_of_In, Hlt in Hm'. lia.
  - apply Forall_app. split; [|repeat constructor; lia].
    eapply Forall_impl; [|exact Hlt]. simpl. lia.
  - intros v Hv. rewrite List.filter_app. simpl. rewrite (proj2 (Z.eqb_neq _ v)) by congruence.
    apply app_nil_r.
Qed.

Lemma remove_member_simulates s t u : svc_inv s -> simulates s (remove_member t u s).2.
Proof.
  intros Hi. unfold remove_member. destruct (negb (db_members_up _)); [by apply simulates_refl|].
  destruct (negb _); [by apply simulates_refl|]. destruct Hi as [[Hids Hkeys] Hlt].
  apply (members_write_simulates s u _ (sv_next s)); [done|..].
  - by apply filter_map_NoDup.
  - rewrite List.Forall_forall in *. intros m [Hm _]%filter_In. by apply Hlt.
  - intros v Hv. apply filter_filter_other. intros m Hmv%Z.eqb_eq. unfold is_row.
    rewrite (proj2 (Z.eqb_neq (mb_user_id m) u)) by congruence. by rewrite andb_false_r.
Qed.

Lemma set_member_role_simulates s t u role : svc_inv s -> simulates s (set_member_role t u role s).2.
Proof.
  intros Hi. unfold set_member_role. destruct (negb (db_members_up _)); [by apply simulates_refl|].
  destruct (List.find _ _) as [e|] eqn:Hf; [|by apply simulates_refl]. destruct Hi as [[Hids Hkeys] Hlt].
  apply find_some in Hf as [He%list_elem_of_In [_ Hu%Z.eqb_eq]%andb_true_iff].
  assert (map mb_id (map (fun m => if mb_id m =? mb_id e then set_role role m else m)
    (db_members (sv_db s))) = map mb_id (db_members (sv_db s))) as Hmap.
  { rewrite map_map. apply map_ext. intros m. by destruct (mb_id m =? mb_id e). }
  apply (members_write_simulates s u _ (sv_next s)); [done|..].
  - by rewrite Hmap.
  - rewrite List.Forall_forall in *. intros m (m0 & <- & Hm0)%in_map_iff. apply Hlt in Hm0.
    by destruct (mb_id m0 =? mb_id e).
  - intros v Hv. apply filter_map_other. intros m Hm.
    destruct (Z.eqb_spec (mb_id m) (mb_id e)) as [Heq|]; [|by left]. right. simpl.
    assert (m = e) as ->; [|by rewrite (proj2 (Z.eqb_neq (mb_user_id e) v)) by congruence].
    apply list_elem_of_lookup in Hm as [i Hm], He as [j He].
    assert (i = j) as <-; [|congruence]. eapply (NoDup_lookup _ i j); [exact Hids|..].
    + rewrite list_lookup_fmap, Hm. reflexivity.
    + rewrite list_lookup_fmap, He. simpl. congruence.
Qed.

Lemma delete_team_simulates s t adm : svc_inv s -> simulates s (delete_team t adm s).2.
Proof.
  intros Hi. unfold delete_team. destruct (result_bind _ _) as [cs|]; [|by apply simulates_refl].
  destruct Hi as [[Hids Hkeys] Hlt]. apply (simulates_write _ _ invalidate_all); [|done|].
  - split; [split; simpl; by apply filter_map_NoDup|]. simpl. rewrite List.Forall_forall in *.
    intros m [Hm _]%filter_In. by apply Hlt.
  - intros c. apply step_rewrite; [|done]. split; simpl; by apply filter_map_NoDup.
Qed.

Lemma svc_step_simulates s s' : svc_inv s -> svc_step s s' -> simulates s s'.
Proof.
  intros Hi Hs. destruct Hs.
  - unfold create_team. destruct (result_bind _ _) as [m|]; [|by apply simulates_refl].
    destruct Hi as [Hw Hlt]. split; [|intros c Hc; by exists c]. split; [done|]. simpl.
    eapply Forall_impl; [|exact Hlt]. simpl. lia.
  - unfold update_team. destruct (result_bind _ _) as [m|]; [|by apply simulates_refl].
    split; [done|]. intros c Hc. by exists c.
  - by apply delete_team_simulates.
  - by apply add_member_simulates.
  - by apply remove_member_simulates.
  - by apply set_member_role_simulates.
  - by apply grant_simulates.
  - by apply revoke_simulates.
  - apply (simulates_check _ c); [done..|]. eapply step_access, surjective_pairing.
  - apply (simulates_check _ c); [done..|]. eapply step_permissions, surjective_pairing.
  - apply (simulates_check _ c); [done..|]. eapply step_access_batch, surjective_pairing.
  - apply (simulates_check _ c); [done..|]. eapply step_permissions_batch, surjective_pairing.
  - split; [done|]. intros c Hc. exists c. split; [done|]. apply rtc_once, step_outage.
  - apply (simulates_check _ c); [done..|]. by apply step_expire.
Qed.

Lemma service_reachable s0 s c :
  svc_inv s0 -> sv_checker s0 = Some checker_new -> rtc svc_step s0 s -> sv_checker s = Some c ->
  reachable membership_resolver (sv_db s, c).
Proof.
  intros Hi H0 Hr. revert c.
  enough (svc_inv s /\ forall c, sv_checker s = Some c ->
    rtc (step membership_resolver) (sv_db s0, checker_new) (sv_db s, c)) as [_ Hc].
  { intros c Hs. exists (sv_db s0). split; [apply Hi|by apply Hc]. }
  revert s Hr. apply rtc_ind_r.
  - split; [done|]. intros c Hc. rewrite H0 in Hc. by simplify_eq.
  - intros s1 s2 _ Hs [Hi1 Hc1]. destruct (svc_step_simulates s1 s2 Hi1 Hs) as [Hi2 Hsim].
    split; [done|]. intros c2 Hc2. destruct (Hsim c2 Hc2) as (c1 & Hs1 & Hr12).
    etrans; [by apply Hc1|done].
Qed.

End ServiceFacts.

(** ** A deleted user *)

Lemma delete_user_not_live db u db' : delete_user db u = Ok db' -> live db' u = false.
Proof.
  unfold delete_user. intros Hd. apply result_bind_Ok in Hd as ([i d] & _ & Hd).
  destruct d; [done|]. apply Ok_inj in Hd. subst db'. unfold live. simpl.
  induction (db_users db) as [|[j e] l IH]; simpl; [done|]. rewrite IH.
  by destruct (j =? u), e.
Qed.

(** The soft delete of a user leaves the cache of the checker alone: a user who was
    answered access to a restricted project before is still answered access after it,
    although by the rows the user has none. *)
Theorem deleted_user_stays_cached db u p c c' db' :
  gated db p -> user_can_access_project db u p c = (Ok true, c') -> delete_user db u = Ok db' ->
  (user_can_access_project db' u p c').1 = Ok true /\ ~ may_access db' u p.
Proof.
  intros (g & Hg & Hp) Ha Hd. pose proof (delete_user_not_live _ _ _ Hd) as Hl. split.
  - assert (ck_cache c' !! (u, p) = Some true) as Hc.
    { unfold user_can_access_project in Ha. destruct (ck_cache c !! (u, p)) eqn:Hc; [by simplify_eq|].
      destruct (check_uncached db u p); simplify_eq. simpl. apply lookup_insert_eq. }
    unfold user_can_access_project. by rewrite Hc.
  - unfold delete_user in Hd. apply result_bind_Ok in Hd as ([i d] & _ & Hd).
    destruct d; [done|]. apply Ok_inj in Hd. subst db'.
    intros [Hno|(g' & m & _ & _ & _ & _ & _ & Hlive)]; [by apply (Hno g)|congruence].
Qed.

(** ** A concrete service: team 1 administers project 7, user 6 is in team 2 *)

Definition sample_svc : Svc := {|
  sv_db := {| db_grants := [{| g_id := 1; g_project_id := 7; g_team_id := 1; g_role := "admin" |}];
              db_members := [{| mb_id := 10; mb_team_id := 1; mb_user_id := 5; mb_role := "admin" |};
                             {| mb_id := 11; mb_team_id := 2; mb_user_id := 6; mb_role := "owner" |}];
              db_users := [(5, false); (6, false)];
              db_grants_up := true; db_members_up := true |};
  sv_teams := [{| t_id := 1; t_name := [65]; t_slug := [97]; t_description := None |};
               {| t_id := 2; t_name := [66]; t_slug := [98]; t_description := None |}];
  sv_projects := [7]; sv_up := true; sv_next := 12; sv_checker := Some checker_new |}.

Lemma sample_inv : svc_inv sample_svc.
Proof.
  split; [apply (bool_decide_unpack _); vm_compute; exact I|]. repeat constructor.
Qed.

(** User 5 grants team 2 the viewer role. *)
Definition sample_row : Grant := {| g_id := 12; g_project_id := 7; g_team_id := 2; g_role := "viewer" |}.
Definition sample_granted : Svc := {|
  sv_db := set_grants (sv_db sample_svc) (db_grants (sv_db sample_svc) ++ [sample_row]);
  sv_teams := sv_teams sample_svc; sv_projects := [7]; sv_up := true; sv_next := 13;
  sv_checker := Some checker_new |}.

Lemma sample_granted_eq :
  grant_project_access None 5 7 2 TrViewer false sample_svc = (Ok sample_row, sample_granted).
Proof. vm_cast_no_check (eq_refl (Ok sample_row : result TeamError Grant, sample_granted)). Qed.

Lemma grant_never_escalates_witness :
  holds_on None (sv_db sample_svc) 6 7 "logs:read" \/
  (7 = 7 /\ holds_on None (sv_db sample_svc) 5 7 "logs:read").
Proof.
  apply (grant_never_escalates None sample_svc 5 7 2 TrViewer sample_row sample_granted).
  - apply sample_inv.
  - exact sample_granted_eq.
  - exists sample_row, {| mb_id := 11; mb_team_id := 2; mb_user_id := 6; mb_role := "owner" |}, LogsRead,
      (fixed_role_permissions TrOwner).
    unfold granted_member.
    split_and!; try reflexivity; apply (bool_decide_unpack _); vm_compute; exact I.
Defined.

(** Then user 5 revokes the grant again. *)
Lemma grant_change_within_ceiling_witness :
  holds_on None (sv_db sample_granted) 5 7 "projects:write".
Proof.
  refine (proj1 (proj2 (grant_change_within_ceiling None sample_granted 5 7 2 TrViewer sample_row
    (revoke_project_access None 5 7 2 false sample_granted).2 _) _)).
  - apply (bool_decide_unpack _). vm_compute. exact I.
  - vm_cast_no_check (eq_refl (revoke_project_access None 5 7 2 false sample_granted)).
Defined.

Lemma gating_needs_admin_witness :
  gated (sv_db (delete_team 1 false sample_svc).2) 7.
Proof.
  apply (proj2 (proj2 (gating_needs_admin None sample_svc 5 7 1 TrViewer 7 (proj1 sample_inv)))).
  eexists. split; [apply list_elem_of_here|reflexivity].
Defined.


Lemma deleted_user_stays_cached_witness :
  exists db', delete_user sample_db 5 = Ok db' /\
    (user_can_access_project db' 5 7 (user_can_access_project sample_db 5 7 checker_new).2).1 = Ok true /\
    ~ may_access db' 5 7.
Proof.
  eexists. split; [reflexivity|].
  apply (deleted_user_stays_cached sample_db 5 7 checker_new).
  - eexists. split; [apply list_elem_of_here|reflexivity].
  - reflexivity.
  - reflexivity.
Defined.
