(* ===== verification/Workflow.v ===== *)
(** * Workflows: tasks, contexts, results and the builder

    [crates/temps-core/src/workflow.rs].  A deployment is a workflow: jobs with
    dependencies that hand a context of variables, outputs and artifacts to each other.

    The jobs themselves are other code: a [WorkflowTask] is what the executor asks of
    one.  A JSON value is opaque ([V]).  Writing a log line has no effect on a run, its
    errors are ignored wherever the executor logs, so the log writer is left out. *)

From S2P Require Import Prelude.
Local Open Scope string_scope.

(** [enum WorkflowError]; an error of another crate is its text. *)
Inductive WorkflowError :=
  | JobExecutionFailed (message : string)
  | JobValidationFailed (message : string)
  | DependencyCycleDetected (message : string)
  | JobNotFound (message : string)
  | WorkflowCancelled
  | BuildCancelled
  | IoError (text : string)
  | SerializationError (text : string)
  | Other (message : string)
  | InvalidArchiveEntry (path reason : string)
  | ArchiveTooLarge (limit_bytes : string)
  | InvalidBundlePath (path reason : string)
  | CrossNodeServiceUnreachable (node_name blocker_count details : string)
  | LocalWorkloadsDisabled (message : string)
  | DockerSocketNotMounted (node project_slug env : string)
  | DockerSocketDeployRequiresAdmin (project_slug reason : string).

(** [is_workload_outcome]. *)
Definition is_workload_outcome (e : WorkflowError) : bool :=
  match e with
  | JobValidationFailed _ | WorkflowCancelled | BuildCancelled | InvalidArchiveEntry _ _
  | ArchiveTooLarge _ | InvalidBundlePath _ _ | CrossNodeServiceUnreachable _ _ _
  | LocalWorkloadsDisabled _ | DockerSocketNotMounted _ _ _
  | DockerSocketDeployRequiresAdmin _ _ => true
  | JobExecutionFailed _ | DependencyCycleDetected _ | JobNotFound _ | IoError _
  | SerializationError _ | Other _ => false
  end.

(** The [#[error]] texts. *)
Definition error_text (e : WorkflowError) : string :=
  match e with
  | JobExecutionFailed m => "Job execution failed: " ++ m
  | JobValidationFailed m => "Job validation failed: " ++ m
  | DependencyCycleDetected m => "Dependency cycle detected: " ++ m
  | JobNotFound m => "Job not found: " ++ m
  | WorkflowCancelled => "Workflow was cancelled"
  | BuildCancelled => "Build was cancelled"
  | IoError t => "IO error: " ++ t
  | SerializationError t => "Serialization error: " ++ t
  | Other m => "Other error: " ++ m
  | InvalidArchiveEntry p r => "Invalid archive entry '" ++ p ++ "': " ++ r
  | ArchiveTooLarge l =>
      "Archive exceeds maximum allowed decompressed size of " ++ l ++ " bytes"
  | InvalidBundlePath p r => "Invalid bundle path '" ++ p ++ "': " ++ r
  | CrossNodeServiceUnreachable n c d =>
      "Replica scheduled on node '" ++ n ++ "' cannot reach " ++ c ++
      " linked service(s) of this project: " ++ d
  | LocalWorkloadsDisabled m => m
  | DockerSocketNotMounted n p env =>
      "Deployment of project '" ++ p ++ "' was placed on host '" ++ n ++
      "' because it requires host Docker access (ADR 045), but that host reported it did not mount " ++
      "/var/run/docker.sock. Set " ++ env ++ "=" ++ p ++ " on '" ++ n ++
      "' — `temps agent` on a worker node, `temps serve` on the control plane — and restart it, then redeploy"
  | DockerSocketDeployRequiresAdmin _ reason => reason
  end.

(** [detail]. *)
Definition detail (e : WorkflowError) : string :=
  match e with
  | JobExecutionFailed m => m
  | other => error_text other
  end.

Inductive JobStatus := Pending | Waiting | Running | Success | Failure | Cancelled | Skipped.

#[export] Instance job_status_eq_dec : EqDecision JobStatus.
Proof. solve_decision. Defined.

(** Display. *)
Definition status_text (s : JobStatus) : string :=
  match s with
  | Pending => "pending" | Waiting => "waiting" | Running => "running" | Success => "success"
  | Failure => "failure" | Cancelled => "cancelled" | Skipped => "skipped"
  end.

Definition is_terminal (s : JobStatus) : bool :=
  match s with Success | Failure | Cancelled | Skipped => true | _ => false end.

Section Workflow.
Context {V : Type}.

(** [struct WorkflowContext]. *)
Record WorkflowContext := {
  workflow_run_id : string;
  deployment_id : Z;
  project_id : Z;
  environment_id : Z;
  vars : gmap string V;
  outputs : gmap string (gmap string V);
  artifacts : gmap string (gmap string string);
  work_dir : option string
}.

Definition context_new (run : string) (deployment project environment : Z) : WorkflowContext := {|
  workflow_run_id := run; deployment_id := deployment; project_id := project;
  environment_id := environment; vars := ∅; outputs := ∅; artifacts := ∅; work_dir := None |}.

(** [set_var], [set_output], [set_artifact] and their reads, on serialized values. *)
Definition set_var (key : string) (value : V) (c : WorkflowContext) : WorkflowContext := {|
  workflow_run_id := workflow_run_id c; deployment_id := deployment_id c; project_id := project_id c;
  environment_id := environment_id c; vars := <[key := value]> (vars c); outputs := outputs c;
  artifacts := artifacts c; work_dir := work_dir c |}.

Definition set_output (job_id name : string) (value : V) (c : WorkflowContext) : WorkflowContext := {|
  workflow_run_id := workflow_run_id c; deployment_id := deployment_id c; project_id := project_id c;
  environment_id := environment_id c; vars := vars c;
  outputs := <[job_id := <[name := value]> (default ∅ (outputs c !! job_id))]> (outputs c);
  artifacts := artifacts c; work_dir := work_dir c |}.

Definition set_artifact (job_id name path : string) (c : WorkflowContext) : WorkflowContext := {|
  workflow_run_id := workflow_run_id c; deployment_id := deployment_id c; project_id := project_id c;
  environment_id := environment_id c; vars := vars c; outputs := outputs c;
  artifacts := <[job_id := <[name := path]> (default ∅ (artifacts c !! job_id))]> (artifacts c);
  work_dir := work_dir c |}.

Definition get_var (key : string) (c : WorkflowContext) : option V := vars c !! key.
Definition get_output (job_id name : string) (c : WorkflowContext) : option V :=
  outputs c !! job_id ≫= lookup name.
Definition get_artifact (job_id name : string) (c : WorkflowContext) : option string :=
  artifacts c !! job_id ≫= lookup name.

(** [struct JobResult] and its constructors. *)
Record JobResult := {
  r_context : WorkflowContext;
  r_status : JobStatus;
  r_message : option string;
  r_logs : list string
}.

Definition success (c : WorkflowContext) : JobResult :=
  {| r_context := c; r_status := Success; r_message := None; r_logs := [] |}.
Definition failure (c : WorkflowContext) (message : string) : JobResult :=
  {| r_context := c; r_status := Failure; r_message := Some message; r_logs := [] |}.
Definition cancelled (c : WorkflowContext) : JobResult :=
  {| r_context := c; r_status := Cancelled; r_message := Some "Job was cancelled"; r_logs := [] |}.
Definition skipped (c : WorkflowContext) (reason : string) : JobResult :=
  {| r_context := c; r_status := Skipped; r_message := Some reason; r_logs := [] |}.

(** What a spawned task ends with: its result, or the text of its panic. *)
Definition TaskEnd := result string (result WorkflowError JobResult).

(** [trait WorkflowTask]: what the executor asks of a job, as the answers it gives. *)
Record WorkflowTask := {
  t_job_id : string;
  t_name : string;
  t_depends_on : list string;
  t_should_skip : WorkflowContext -> result WorkflowError bool;
  t_validate_prerequisites : WorkflowContext -> result WorkflowError unit;
  t_execute_with_cancellation : WorkflowContext -> TaskEnd;
  t_cleanup_after_workflow : bool
}.

(** The default body of [execute_with_cancellation], over the job's [execute] and the
    answers of the cancellation provider before and after it. *)
Definition default_execute_with_cancellation (name : string)
    (execute : WorkflowContext -> TaskEnd) (before after : result WorkflowError bool)
    (c : WorkflowContext) : TaskEnd :=
  match before with
  | Err e => Ok (Err e)
  | Ok true =>
      Ok (Ok {| r_context := c; r_status := Cancelled; r_message := Some "Job was cancelled";
                  r_logs := ["🛑 DEPLOYMENT CANCELLED: Job '" ++ name ++ "' will not execute"] |})
  | Ok false =>
      match execute c with
      | Ok (Ok job_result) =>
          match after with
          | Err e => Ok (Err e)
          | Ok true =>
              Ok (Ok {| r_context := r_context job_result; r_status := Cancelled;
                          r_message := Some "Job was cancelled";
                          r_logs := ["🛑 DEPLOYMENT CANCELLED: Job '" ++ name ++
                                     "' was cancelled after completion"] |})
          | Ok false => Ok (Ok job_result)
          end
      | other => other
      end
  end.

(** [struct JobConfig], [struct WorkflowConfig]. *)
Record JobConfig := {
  jc_job : WorkflowTask;
  jc_required : bool;
  jc_condition : option string;
  jc_dependencies_override : option (list string)
}.

Record WorkflowConfig := {
  wc_workflow_run_id : string;
  wc_deployment_id : Z;
  wc_project_id : Z;
  wc_environment_id : Z;
  wc_initial_context : gmap string V;
  wc_jobs : list JobConfig;
  wc_continue_on_failure : bool;
  wc_max_parallel_jobs : nat
}.

(** [struct WorkflowBuilder]; the log writer is whether one was set. *)
Record WorkflowBuilder := {
  b_workflow_run_id : option string;
  b_deployment_context : option (Z * Z * Z);
  b_initial_context : gmap string V;
  b_jobs : list JobConfig;
  b_continue_on_failure : bool;
  b_max_parallel_jobs : nat;
  b_log_writer : bool
}.

Definition workflow_builder_new : WorkflowBuilder := {|
  b_workflow_run_id := None; b_deployment_context := None; b_initial_context := ∅; b_jobs := [];
  b_continue_on_failure := true; b_max_parallel_jobs := 1; b_log_writer := false |}.

(** [with_job], [with_optional_job], [with_conditional_job], [with_job_and_dependencies],
    [with_job_config]: one more job. *)
Definition push_job (j : JobConfig) (b : WorkflowBuilder) : WorkflowBuilder := {|
  b_workflow_run_id := b_workflow_run_id b; b_deployment_context := b_deployment_context b;
  b_initial_context := b_initial_context b; b_jobs := b_jobs b ++ [j];
  b_continue_on_failure := b_continue_on_failure b; b_max_parallel_jobs := b_max_parallel_jobs b;
  b_log_writer := b_log_writer b |}.

Definition with_job (job : WorkflowTask) : WorkflowBuilder -> WorkflowBuilder :=
  push_job {| jc_job := job; jc_required := true; jc_condition := None; jc_dependencies_override := None |}.
Definition with_optional_job (job : WorkflowTask) : WorkflowBuilder -> WorkflowBuilder :=
  push_job {| jc_job := job; jc_required := false; jc_condition := None; jc_dependencies_override := None |}.
Definition with_conditional_job (job : WorkflowTask) (condition : string)
    : WorkflowBuilder -> WorkflowBuilder :=
  push_job {| jc_job := job; jc_required := false; jc_condition := Some condition;
              jc_dependencies_override := None |}.
Definition with_job_and_dependencies (job : WorkflowTask) (dependencies : list string)
    : WorkflowBuilder -> WorkflowBuilder :=
  push_job {| jc_job := job; jc_required := true; jc_condition := None;
              jc_dependencies_override := Some dependencies |}.
Definition with_job_config (job : WorkflowTask) (dependencies : list string) (required : bool)
    : WorkflowBuilder -> WorkflowBuilder :=
  push_job {| jc_job := job; jc_required := required; jc_condition := None;
              jc_dependencies_override := Some dependencies |}.
Definition with_jobs (jobs : list WorkflowTask) (b : WorkflowBuilder) : WorkflowBuilder :=
  fold_left (fun b job => with_job job b) jobs b.

(** [build]; the three ids of a deployment context are set together. *)
Definition build_workflow (b : WorkflowBuilder) : result WorkflowError WorkflowConfig :=
  let? run := ok_or (JobValidationFailed "workflow_run_id is required") (b_workflow_run_id b) in
  let? (deployment, project, environment) :=
    ok_or (JobValidationFailed "deployment_id is required") (b_deployment_context b) in
  if negb (b_log_writer b) then Err (JobValidationFailed "log_writer is required")
  else Ok {| wc_workflow_run_id := run; wc_deployment_id := deployment; wc_project_id := project;
             wc_environment_id := environment; wc_initial_context := b_initial_context b;
             wc_jobs := b_jobs b; wc_continue_on_failure := b_continue_on_failure b;
             wc_max_parallel_jobs := b_max_parallel_jobs b |}.
End Workflow.

Arguments WorkflowContext : clear implicits.
Arguments JobResult : clear implicits.
Arguments WorkflowTask : clear implicits.
Arguments JobConfig : clear implicits.
Arguments WorkflowConfig : clear implicits.
Arguments WorkflowBuilder : clear implicits.
Arguments TaskEnd : clear implicits.
