(* ===== verification/WorkflowGraph.v ===== *)
(** * The dependency graph of a workflow

    [build_job_dependency_graph], [validate_dependency_graph], [has_cycle] and
    [calculate_execution_order] of [crates/temps-core/src/workflow_executor.rs].

    A [HashMap] is a [gmap]; the order in which its keys are iterated is not fixed, so
    each pass takes it as an argument ([keys]).  The recursion of [has_cycle] and the
    loop over the levels run on fuel; [validate_exact] and [execution_order_exact] show
    that the fuel given is enough and that no counter underflows. *)

From S2P Require Import Prelude Workflow.

(** What stops an evaluation: fuel, a counter below zero, or a task that waits forever
    for a permit. *)
Inductive Stuck := OutOfFuel | Underflow | NoPermit.

Section Graph.
Context {V : Type}.

(** [struct JobExecutionState]. *)
Record JobExecutionState := {
  js_config : JobConfig V;
  js_status : JobStatus;
  js_dependencies : list string;
  js_dependents : list string;
  js_execution_id : option Z;
  js_result : option (JobResult V)
}.

#[warnings="-notation-for-abbreviation"]
Notation JobStates := (gmap string JobExecutionState).

(** The keys of the map, in the order of an iteration. *)
Definition iterates {A} (m : gmap string A) (keys : list string) : Prop :=
  NoDup keys /\ forall k, k ∈ keys <-> is_Some (m !! k).

(** ** [build_job_dependency_graph] *)

Definition new_state (jc : JobConfig V) : JobExecutionState := {|
  js_config := jc; js_status := Pending;
  js_dependencies := match jc_dependencies_override jc with
                     | Some deps => deps
                     | None => t_depends_on (jc_job jc)
                     end;
  js_dependents := []; js_execution_id := None; js_result := None |}.

Definition first_pass (jobs : list (JobConfig V)) : JobStates :=
  fold_left (fun states jc => <[t_job_id (jc_job jc) := new_state jc]> states) jobs ∅.

Definition push_dependent (job_id : string) (st : JobExecutionState) : JobExecutionState := {|
  js_config := js_config st; js_status := js_status st; js_dependencies := js_dependencies st;
  js_dependents := js_dependents st ++ [job_id]; js_execution_id := js_execution_id st;
  js_result := js_result st |}.

Definition add_dependents (job_id : string) (dependencies : list string) (states : JobStates)
    : result WorkflowError JobStates :=
  result_fold (fun (states : JobStates) dep_job_id =>
      match states !! dep_job_id with
      | Some dep_state => Ok (<[dep_job_id := push_dependent job_id dep_state]> states)
      | None => Err (JobNotFound ("Job '" ++ job_id ++ "' depends on '" ++ dep_job_id
                                  ++ "' which doesn't exist")%string)
      end) dependencies states.

(** The dependencies of a job. *)
Definition deps (states : JobStates) (job_id : string) : list string :=
  match states !! job_id with Some st => js_dependencies st | None => [] end.

Definition build_job_dependency_graph (keys : list string) (jobs : list (JobConfig V))
    : result WorkflowError JobStates :=
  result_fold (fun states job_id => add_dependents job_id (deps states job_id) states)
    keys (first_pass jobs).

(** ** [has_cycle] and [validate_dependency_graph] *)

(** The loop over the dependencies of [job_id], with the recursive call. *)
Fixpoint visit_deps
    (visit : string -> gset string -> gset string -> option (bool * gset string * gset string))
    (job_id : string) (dependencies : list string) (visited rec_stack : gset string)
    : option (bool * gset string * gset string) :=
  match dependencies with
  | [] => Some (false, visited, rec_stack ∖ {[job_id]})
  | dep_id :: rest =>
      if bool_decide (dep_id ∉ visited) then
        match visit dep_id visited rec_stack with
        | Some (false, visited', rec_stack') => visit_deps visit job_id rest visited' rec_stack'
        | other => other
        end
      else if bool_decide (dep_id ∈ rec_stack) then Some (true, visited, rec_stack)
      else visit_deps visit job_id rest visited rec_stack
  end.

Fixpoint has_cycle (fuel : nat) (states : JobStates) (job_id : string)
    (visited rec_stack : gset string) : option (bool * gset string * gset string) :=
  match fuel with
  | O => None
  | S fuel =>
      visit_deps (has_cycle fuel states) job_id (deps states job_id)
        ({[job_id]} ∪ visited) ({[job_id]} ∪ rec_stack)
  end.

Fixpoint validate_loop (fuel : nat) (states : JobStates) (keys : list string)
    (visited rec_stack : gset string) : result Stuck (result WorkflowError unit) :=
  match keys with
  | [] => Ok (Ok ())
  | job_id :: keys =>
      if bool_decide (job_id ∈ visited) then validate_loop fuel states keys visited rec_stack
      else
        match has_cycle fuel states job_id visited rec_stack with
        | None => Err OutOfFuel
        | Some (true, _, _) =>
            Ok (Err (DependencyCycleDetected
                       ("Dependency cycle detected involving job '" ++ job_id ++ "'")%string))
        | Some (false, visited, rec_stack) => validate_loop fuel states keys visited rec_stack
        end
  end.

Definition validate_dependency_graph (keys : list string) (states : JobStates)
    : result Stuck (result WorkflowError unit) :=
  validate_loop (S (size states)) states keys ∅ ∅.

(** ** [calculate_execution_order] *)

(** One dependent's in-degree goes down; at zero it is queued. *)
Definition reduce (acc : gmap string nat * list string) (dependent_id : string)
    : result Stuck (gmap string nat * list string) :=
  let '(in_degree, queue) := acc in
  match in_degree !! dependent_id with
  | None => Ok acc
  | Some O => Err Underflow
  | Some (S n) =>
      Ok (<[dependent_id := n]> in_degree,
          match n with O => queue ++ [dependent_id] | _ => queue end)
  end.

Definition process_batch (states : JobStates) (batch : list string) (in_degree : gmap string nat)
    : result Stuck (gmap string nat * list string) :=
  result_fold (fun acc job_id =>
      match states !! job_id with
      | Some st => result_fold reduce (js_dependents st) acc
      | None => Ok acc
      end) batch (in_degree, []).

Fixpoint levels (fuel : nat) (states : JobStates) (queue : list string)
    (in_degree : gmap string nat) (order : list (list string)) : result Stuck (list (list string)) :=
  match queue with
  | [] => Ok order
  | _ =>
      match fuel with
      | O => Err OutOfFuel
      | S fuel =>
          let? (in_degree', queue') := process_batch states queue in_degree in
          levels fuel states queue' in_degree' (order ++ [queue])
      end
  end.

Definition calculate_execution_order (keys : list string) (states : JobStates)
    : result Stuck (result WorkflowError (list (list string))) :=
  let in_degree := (fun st => length (js_dependencies st)) <$> states in
  let queue := List.filter (fun job_id => match in_degree !! job_id with Some O => true | _ => false end)
                 keys in
  let? order := levels (S (size states)) states queue in_degree [] in
  if (list_sum (map (@length _) order) =? size states)%nat then Ok (Ok order)
  else Ok (Err (DependencyCycleDetected "Unable to resolve all dependencies - cycle detected")).

(** ** Cycles *)

(** A job and one of its dependencies. *)
Definition depends (states : JobStates) (j d : string) : Prop := d ∈ deps states j.

Definition acyclic (states : JobStates) : Prop := forall j, ~ tc (depends states) j j.

(** Every dependency is a job of the workflow. *)
Definition closed (states : JobStates) : Prop :=
  forall j d, depends states j d -> is_Some (states !! d).

Lemma no_deps_outside states j d : depends states j d -> is_Some (states !! j).
Proof. unfold depends, deps. destruct (states !! j); [by eauto|]. by intros ?%elem_of_nil. Qed.

Lemma tc_first {A} (R : A -> A -> Prop) x y : tc R x y -> exists z, R x z /\ rtc R z y.
Proof. destruct 1 as [x y Hxy|x y z Hxy Htc]; [by eauto using rtc|]. eauto using tc_rtc. Qed.

Lemma tc_last {A} (R : A -> A -> Prop) x y : tc R x y -> exists z, R z y.
Proof. induction 1; eauto. Qed.

Section Dfs.
Context (states : JobStates).

(** The jobs that were left: closed under dependencies and on no cycle. *)
Definition done_inv (visited rec_stack : gset string) : Prop :=
  rec_stack ⊆ visited /\
  (forall x y, x ∈ visited ∖ rec_stack -> depends states x y -> y ∈ visited ∖ rec_stack) /\
  (forall x, x ∈ visited ∖ rec_stack -> ~ tc (depends states) x x).

Definition visit_spec (visited rec_stack : gset string)
    (out : option (bool * gset string * gset string)) : Prop :=
  match out with
  | None => True
  | Some (true, _, _) => exists x, tc (depends states) x x
  | Some (false, visited', rec_stack') =>
      rec_stack' = rec_stack /\ visited ⊆ visited' /\ done_inv visited' rec_stack
  end.

Lemma done_rtc visited rec_stack x y :
  done_inv visited rec_stack -> rtc (depends states) x y -> x ∈ visited ∖ rec_stack -> y ∈ visited ∖ rec_stack.
Proof. intros (_ & Hcl & _). induction 1; eauto. Qed.

(** A job all of whose dependencies were left is left too. *)
Lemma done_leave visited rec_stack j :
  j ∈ visited -> j ∉ rec_stack -> done_inv visited ({[j]} ∪ rec_stack) ->
  (forall d, depends states j d -> d ∈ visited ∖ ({[j]} ∪ rec_stack)) -> done_inv visited rec_stack.
Proof.
  intros Hv Hs Hd Hall. pose proof Hd as (Hsub & Hcl & Hac). split_and!; [set_solver|..].
  - intros x y Hx Hxy. destruct (decide (x = j)) as [->|Hne].
    + apply Hall in Hxy. set_solver.
    + assert (x ∈ visited ∖ ({[j]} ∪ rec_stack)) as Hx' by set_solver.
      pose proof (Hcl x y Hx' Hxy). set_solver.
  - intros x Hx Htc. destruct (decide (x = j)) as [->|Hne].
    + apply tc_first in Htc as (d & Hjd & Hdj). apply Hall in Hjd.
      pose proof (done_rtc _ _ _ _ Hd Hdj Hjd). set_solver.
    + apply (Hac x); [set_solver|done].
Qed.

Lemma visit_deps_spec visit j ds visited rec_stack :
  (forall d v s, done_inv v s -> d ∉ v -> (forall x, x ∈ s -> rtc (depends states) x d) ->
     visit_spec ({[d]} ∪ v) s (visit d v s)) ->
  j ∉ rec_stack -> j ∈ visited -> done_inv visited ({[j]} ∪ rec_stack) ->
  (forall x, x ∈ rec_stack -> rtc (depends states) x j) ->
  (forall d, d ∈ ds -> depends states j d) ->
  (forall d, depends states j d -> d ∈ ds \/ d ∈ visited ∖ ({[j]} ∪ rec_stack)) ->
  visit_spec visited rec_stack (visit_deps visit j ds visited ({[j]} ∪ rec_stack)).
Proof.
  intros Hvisit Hjs. revert visited.
  induction ds as [|d ds IH]; intros visited Hjv Hd Hst Hin Hall; simpl.
  { split_and!; [set_solver|done|]. apply (done_leave _ _ j); [done..|].
    intros d Hjd. destruct (Hall d Hjd) as [[]%elem_of_nil|]; done. }
  assert (depends states j d) as Hjd by (apply Hin; left).
  assert (forall x, x ∈ {[j]} ∪ rec_stack -> rtc (depends states) x j) as Hst'.
  { intros x [->%elem_of_singleton|Hx]%elem_of_union; [done|by apply Hst]. }
  case_bool_decide as Hdv.
  - assert (forall x, x ∈ {[j]} ∪ rec_stack -> rtc (depends states) x d) as Hstd
      by (intros x Hx; eapply rtc_r; [by apply Hst'|done]).
    specialize (Hvisit d visited ({[j]} ∪ rec_stack) Hd Hdv Hstd).
    destruct (visit d visited ({[j]} ∪ rec_stack)) as [[[[] v'] s']|]; [done| |done].
    destruct Hvisit as (-> & Hsub & Hd'). pose proof (proj1 Hd) as Hsv.
    assert (visit_spec v' rec_stack (visit_deps visit j ds v' ({[j]} ∪ rec_stack))) as Hrest.
    { apply IH; [set_solver|done|done|set_solver|]. intros d' Hjd'. destruct (Hall d' Hjd') as [[->|Hd'']%elem_of_cons|Hd'']; [|by left|].
      - right. set_solver.
      - right. set_solver. }
    destruct (visit_deps _ _ _ _ _) as [[[[] v''] s'']|]; [done| |done].
    destruct Hrest as (-> & Hsub' & ?). split_and!; [done|set_solver|done].
  - case_bool_decide as Hds.
    + exists j. apply tc_rtc_r with d; [by apply tc_once|by apply Hst'].
    + apply IH; try done; [set_solver|].
      intros d' Hjd'. destruct (Hall d' Hjd') as [[->|Hd'']%elem_of_cons|Hd'']; [|by left|by right].
      right. set_solver.
Qed.

Lemma has_cycle_spec fuel j visited rec_stack :
  done_inv visited rec_stack -> j ∉ visited -> (forall x, x ∈ rec_stack -> rtc (depends states) x j) ->
  visit_spec ({[j]} ∪ visited) rec_stack (has_cycle fuel states j visited rec_stack).
Proof.
  revert j visited rec_stack. induction fuel as [|fuel IH]; intros j v s Hd Hj Hst; simpl; [done|].
  pose proof Hd as (Hsub & Hcl & Hac). apply visit_deps_spec; try done; [set_solver..| |].
  - split_and!; [set_solver|..].
    + intros x y Hx Hxy. assert (x ∈ v ∖ s) as Hx' by set_solver.
      pose proof (Hcl x y Hx' Hxy). set_solver.
    + intros x Hx. apply Hac. set_solver.
  - intros d Hjd. by left.
Qed.

(** The fuel is a bound on the jobs not visited yet. *)
Lemma has_cycle_total fuel j visited rec_stack :
  closed states -> is_Some (states !! j) -> j ∉ visited ->
  (size (dom states ∖ visited) < fuel)%nat ->
  exists b v s, has_cycle fuel states j visited rec_stack = Some (b, v, s) /\ visited ⊆ v.
Proof.
  intros Hcl. revert j visited rec_stack.
  induction fuel as [|fuel IH]; intros j visited rec_stack Hj Hv Hsz; [lia|]. simpl.
  assert (forall ds v s, {[j]} ∪ visited ⊆ v -> (forall d, d ∈ ds -> depends states j d) ->
    exists b v' s', visit_deps (has_cycle fuel states) j ds v s = Some (b, v', s') /\ v ⊆ v') as Hloop.
  { induction ds as [|d ds IHds]; intros v s Hsub Hin; simpl; [by eauto 10|].
    case_bool_decide as Hdv; [|case_bool_decide; [by eauto 10|]; apply IHds; set_solver].
    destruct (IH d v s) as (b & v' & s' & Heq & Hv').
    - apply (Hcl j). apply Hin. left.
    - done.
    - assert (size (dom states ∖ v) < size (dom states ∖ visited))%nat; [|lia].
      apply subset_size. apply elem_of_dom in Hj. set_solver.
    - rewrite Heq. destruct b; [by eauto 10|].
      destruct (IHds v' s') as (b & v'' & s'' & -> & ?); [set_solver..|].
      do 3 eexists. split; [done|set_solver]. }
  destruct (Hloop (deps states j) ({[j]} ∪ visited) ({[j]} ∪ rec_stack))
    as (b & v & s & -> & ?); [done..|]. do 3 eexists. split; [done|set_solver].
Qed.

Lemma validate_loop_spec fuel keys visited :
  closed states -> (size states < fuel)%nat -> (forall j, j ∈ keys -> is_Some (states !! j)) ->
  done_inv visited ∅ -> (forall j, is_Some (states !! j) -> j ∈ keys \/ j ∈ visited) ->
  (validate_loop fuel states keys visited ∅ = Ok (Ok ()) /\ acyclic states) \/
  (exists m, validate_loop fuel states keys visited ∅ = Ok (Err (DependencyCycleDetected m))) /\
    ~ acyclic states.
Proof.
  intros Hcl Hfuel. revert visited. induction keys as [|j keys IH]; intros v Hk Hd Hall; simpl.
  - left. split; [done|]. intros j Htc. pose proof Hd as (_ & _ & Hac). apply (Hac j); [|done].
    apply tc_first in Htc as (d & Hjd & _). apply no_deps_outside in Hjd.
    destruct (Hall j Hjd) as [[]%elem_of_nil|]. set_solver.
  - case_bool_decide as Hjv.
    { apply IH; [by intros; apply Hk; right|done|].
      intros j' Hj'. destruct (Hall j' Hj') as [[->|]%elem_of_cons|]; eauto. }
    destruct (has_cycle_total fuel j v ∅) as (b & v' & s' & Heq & _);
      [done|apply Hk; left|done|eapply Nat.le_lt_trans; [|exact Hfuel]|].
    { rewrite <- (size_dom (D := gset string) states). apply subseteq_size. set_solver. }
    pose proof (has_cycle_spec fuel j v ∅ Hd Hjv) as Hspec. rewrite Heq in *.
    destruct b.
    + right. split; [by eauto|]. intros Hac. destruct Hspec as [x Hx]; [set_solver|]. by apply (Hac x).
    + destruct Hspec as (-> & Hsub & Hd'); [set_solver|].
      apply IH; [by intros; apply Hk; right|done|].
      intros j' Hj'. destruct (Hall j' Hj') as [[->|]%elem_of_cons|]; [right; set_solver|by left|].
      right. set_solver.
Qed.
End Dfs.

(** ** The graph that is built *)

Definition add_deps (l : list string) (st : JobExecutionState) : JobExecutionState := {|
  js_config := js_config st; js_status := js_status st; js_dependencies := js_dependencies st;
  js_dependents := js_dependents st ++ l; js_execution_id := js_execution_id st;
  js_result := js_result st |}.

Lemma add_deps_nil st : add_deps [] st = st.
Proof. destruct st. unfold add_deps. simpl. by rewrite app_nil_r. Qed.

Lemma add_deps_app l1 l2 st : add_deps l2 (add_deps l1 st) = add_deps (l1 ++ l2) st.
Proof. unfold add_deps. simpl. by rewrite app_assoc. Qed.

(** Occurrences of a name. *)
Definition occ (x : string) (l : list string) : nat := count_occ String.string_dec l x.
Arguments occ : simpl never.

Lemma occ_cons x y l : occ x (y :: l) = ((if decide (y = x) then 1 else 0) + occ x l)%nat.
Proof. unfold occ. simpl. by destruct (String.string_dec y x), (decide (y = x)). Qed.

Lemma add_dependents_lookup job ds (states states' : JobStates) :
  add_dependents job ds states = Ok states' ->
  (forall k, states' !! k = add_deps (replicate (occ k ds) job) <$> states !! k) /\
  (forall d, d ∈ ds -> is_Some (states !! d)).
Proof.
  unfold add_dependents. revert states. induction ds as [|d ds IH]; intros states Hf; simpl in Hf.
  { apply Ok_inj in Hf. subst. split; [|by intros ? ?%elem_of_nil]. intros k. simpl.
    destruct (states' !! k); simpl; [|done]. by rewrite add_deps_nil. }
  apply result_bind_Ok in Hf as (states1 & Hs1 & Hf). destruct (states !! d) as [st|] eqn:Hd; [|done].
  apply Ok_inj in Hs1. subst states1. destruct (IH _ Hf) as [Hk Hin]. split.
  - intros k. rewrite Hk, occ_cons. destruct (decide (d = k)) as [->|Hne].
    + rewrite lookup_insert_eq, Hd. simpl. f_equal. change (push_dependent job st) with (add_deps [job] st).
      by rewrite add_deps_app.
    + by rewrite lookup_insert_ne.
  - intros x [->|Hx]%elem_of_cons; [by rewrite Hd|]. apply Hin in Hx as [s1 Hs1].
    destruct (decide (d = x)) as [->|Hne]; [by rewrite Hd|]. rewrite lookup_insert_ne in Hs1 by done.
    by rewrite Hs1.
Qed.

Lemma deps_add_deps (states states' : JobStates) l k :
  states' !! k = add_deps l <$> states !! k -> deps states' k = deps states k.
Proof. unfold deps. intros ->. by destruct (states !! k). Qed.

Lemma build_lookup keys jobs (states : JobStates) :
  build_job_dependency_graph keys jobs = Ok states ->
  (forall k, states !! k =
     add_deps (flat_map (fun j => replicate (occ k (deps (first_pass jobs) j)) j) keys)
       <$> first_pass jobs !! k) /\
  (forall j d, j ∈ keys -> d ∈ deps (first_pass jobs) j -> is_Some (first_pass jobs !! d)).
Proof.
  unfold build_job_dependency_graph. intros Hb. remember (first_pass jobs) as fp eqn:Hfp.
  assert (forall (pre : list string) cur, (forall k, cur !! k =
      add_deps (flat_map (fun j => replicate (occ k (deps fp j)) j) pre) <$> fp !! k) ->
    result_fold (fun states job_id => add_dependents job_id (deps states job_id) states) keys cur
      = Ok states ->
    (forall k, states !! k =
      add_deps (flat_map (fun j => replicate (occ k (deps fp j)) j) (pre ++ keys)) <$> fp !! k) /\
    (forall j d, j ∈ keys -> d ∈ deps fp j -> is_Some (fp !! d))) as Hgen.
  { clear Hb. induction keys as [|j keys IH]; intros pre cur Hcur Hb; simpl in Hb.
    - apply Ok_inj in Hb. subst. rewrite app_nil_r. split; [done|by intros ? ? ?%elem_of_nil].
    - apply result_bind_Ok in Hb as (cur1 & Ha & Hb).
      assert (deps cur j = deps fp j) as Hdj by (eapply deps_add_deps, Hcur).
      rewrite Hdj in Ha. apply add_dependents_lookup in Ha as [Hk Hin].
      destruct (IH (pre ++ [j]) cur1) as [Hl Hr]; [|done|].
      + intros k. rewrite Hk, Hcur, flat_map_app. simpl. rewrite app_nil_r.
        destruct (fp !! k); simpl; [|done]. by rewrite add_deps_app.
      + rewrite <- app_assoc in Hl. simpl in Hl. split; [done|].
        intros j' d [->|Hj']%elem_of_cons Hd; [|by eapply Hr]. apply Hin in Hd as [s1 Hs1].
        rewrite Hcur in Hs1. by destruct (fp !! d). }
  apply (Hgen [] fp); [|done]. intros k. simpl. destruct (fp !! k); simpl; [|done].
  by rewrite add_deps_nil.
Qed.

(** The two directions of the graph agree. *)
Definition dual (states : JobStates) : Prop :=
  forall d st, states !! d = Some st -> forall j, occ j (js_dependents st) = occ d (deps states j).

Lemma occ_app x l1 l2 : occ x (l1 ++ l2) = (occ x l1 + occ x l2)%nat.
Proof. unfold occ. apply count_occ_app. Qed.

Lemma occ_zero x l : occ x l = 0%nat <-> x ∉ l.
Proof. unfold occ. rewrite <- count_occ_not_In, list_elem_of_In. done. Qed.

Lemma occ_replicate x y n : occ x (replicate n y) = if decide (y = x) then n else 0%nat.
Proof.
  induction n as [|n IH]; [by destruct (decide (y = x))|]. cbn [replicate].
  rewrite occ_cons, IH. by destruct (decide (y = x)).
Qed.

Lemma first_pass_fresh jobs d st : first_pass jobs !! d = Some st ->
  exists jc, jc ∈ jobs /\ t_job_id (jc_job jc) = d /\ st = new_state jc.
Proof.
  unfold first_pass. induction jobs as [|jc jobs IH] using rev_ind; simpl; [done|].
  rewrite fold_left_app. simpl. rewrite lookup_insert_Some. setoid_rewrite elem_of_app.
  intros [[<- <-]|[_ Hst]].
  - exists jc. split_and!; [right; by apply list_elem_of_singleton|done..].
  - destruct (IH Hst) as (jc' & ? & ? & ?). exists jc'. by auto.
Qed.

Lemma build_graph keys jobs (states : JobStates) :
  iterates (first_pass jobs) keys -> build_job_dependency_graph keys jobs = Ok states ->
  closed states /\ dual states /\ (forall keys', iterates states keys' <-> iterates (first_pass jobs) keys').
Proof.
  intros [Hnd Hk] Hb.
  assert (forall d st, first_pass jobs !! d = Some st -> js_dependents st = []) as Hempty.
  { intros d st (jc & _ & _ & ->)%first_pass_fresh. done. }
  apply build_lookup in Hb as [Hl Hin].
  assert (forall j, deps states j = deps (first_pass jobs) j) as Hdeps
    by (intros j; eapply deps_add_deps, Hl).
  assert (forall k, is_Some (states !! k) <-> is_Some (first_pass jobs !! k)) as Hsome
    by (intros k; rewrite Hl; by rewrite fmap_is_Some).
  split_and!.
  - intros j d Hjd. rewrite Hsome. unfold depends in Hjd. rewrite Hdeps in Hjd.
    apply (Hin j); [|done]. apply Hk. apply (no_deps_outside _ j d Hjd).
  - intros d st Hd j. rewrite Hl in Hd. destruct (first_pass jobs !! d) as [st0|] eqn:Hd0; [|done].
    simpl in Hd. injection Hd as <-. simpl. rewrite (Hempty _ _ Hd0), Hdeps. simpl.
    assert (forall ks, NoDup ks -> occ j (flat_map (fun j => replicate (occ d (deps (first_pass jobs) j)) j) ks)
      = if decide (j ∈ ks) then occ d (deps (first_pass jobs) j) else 0%nat) as Hcnt.
    { induction ks as [|k ks IH]; intros Hks; simpl; [done|]. inversion Hks as [|? ? Hni Hks']; subst.
      rewrite occ_app, occ_replicate, (IH Hks'). destruct (decide (k = j)) as [->|Hne].
      - rewrite (decide_True _ _ (list_elem_of_here j ks)), decide_False by done. lia.
      - destruct (decide (j ∈ ks)), (decide (j ∈ k :: ks)); set_solver. }
    rewrite (Hcnt keys Hnd). destruct (decide (j ∈ keys)) as [|Hni]; [done|].
    rewrite Hk in Hni. unfold deps. destruct (first_pass jobs !! j); [|done]. by destruct Hni.
  - intros keys'. unfold iterates. by setoid_rewrite Hsome.
Qed.

(** ** The levels *)

Definition dependents (states : JobStates) (j : string) : list string :=
  match states !! j with Some st => js_dependents st | None => [] end.

Lemma process_batch_flat (states : JobStates) batch deg :
  process_batch states batch deg = result_fold reduce (flat_map (dependents states) batch) (deg, []).
Proof.
  unfold process_batch. generalize (deg, @nil string). induction batch as [|j batch IH]; intros acc; [done|].
  cbn [flat_map result_fold]. rewrite result_fold_app. unfold dependents at 1.
  destruct (states !! j) as [st|]; simpl.
  - destruct (result_fold reduce (js_dependents st) acc); simpl; [apply IH|done].
  - apply IH.
Qed.

(** Lowering the in-degrees by a list of names. *)
Lemma reduce_all L deg q :
  (forall d n, deg !! d = Some n -> (occ d L <= n)%nat) ->
  exists deg' new, result_fold reduce L (deg, q) = Ok (deg', q ++ new) /\ NoDup new /\
    (forall d, deg' !! d = (fun n => (n - occ d L)%nat) <$> deg !! d) /\
    (forall d, d ∈ new <-> exists n, deg !! d = Some n /\ n = occ d L /\ (0 < n)%nat).
Proof.
  revert deg q. induction L as [|x L IH]; intros deg q Hle; simpl.
  { exists deg, []. rewrite app_nil_r. split_and!; [done|constructor| |].
    - intros d. destruct (deg !! d); simpl; [|done]. f_equal. change (occ d []) with 0%nat. lia.
    - intros d. split; [by intros ?%elem_of_nil|]. intros (n & _ & -> & ?).
      change (occ d []) with 0%nat in *. lia. }
  destruct (deg !! x) as [nx|] eqn:Hx.
  - assert (1 + occ x L <= nx)%nat as Hnx.
    { pose proof (Hle x nx Hx) as Ho. rewrite occ_cons, decide_True in Ho by done. done. }
    destruct nx as [|nx]; [lia|]. cbn [result_bind].
    destruct (IH (<[x := nx]> deg) (match nx with O => q ++ [x] | _ => q end))
      as (deg' & new & -> & Hnd & Hdeg & Hnew).
    { intros d n. rewrite lookup_insert_Some. intros [[<- <-]|[Hne Hd]]; [lia|].
      pose proof (Hle d n Hd) as Ho. rewrite occ_cons in Ho. lia. }
    exists deg', (match nx with O => x :: new | _ => new end). split_and!.
    + destruct nx; [|done]. by rewrite <- app_assoc.
    + destruct nx; [|done]. constructor; [|done]. rewrite Hnew, lookup_insert_eq.
      intros (n & [= <-] & _ & ?). lia.
    + intros d. rewrite Hdeg, occ_cons. destruct (decide (x = d)) as [->|Hne].
      * by rewrite lookup_insert_eq, Hx.
      * by rewrite lookup_insert_ne by done.
    + intros d. assert (d ∈ match nx with O => x :: new | _ => new end <->
        (nx = O /\ d = x) \/ d ∈ new) as ->.
      { destruct nx; [rewrite elem_of_cons|]; naive_solver. }
      rewrite Hnew, occ_cons. destruct (decide (x = d)) as [->|Hne].
      * rewrite lookup_insert_eq, Hx. split.
        { intros [[-> _]|(n & [= <-] & -> & ?)]; [exists 1%nat|eexists]; split_and!; try done; lia. }
        intros (n & [= <-] & Hn & _). destruct nx; [by left|right]. eexists. split_and!; [reflexivity|lia..].
      * rewrite lookup_insert_ne by done. simpl. split; [|by right]. by intros [[_ ->]|?].
  - cbn [result_bind]. destruct (IH deg q) as (deg' & new & -> & Hnd & Hdeg & Hnew).
    { intros d n Hd. pose proof (Hle d n Hd) as Ho. rewrite occ_cons in Ho. lia. }
    exists deg', new. split_and!; [done..| |].
    + intros d. rewrite Hdeg, occ_cons. destruct (decide (x = d)) as [->|]; [by rewrite Hx|done].
    + intros d. rewrite Hnew, occ_cons. destruct (decide (x = d)) as [->|]; [rewrite Hx; naive_solver|done].
Qed.

(** The dependencies outside a list of processed jobs. *)
Definition open_deps (processed ds : list string) : nat :=
  length (filter (fun d => d ∉ processed) ds).

Lemma open_deps_app P Q ds :
  NoDup (P ++ Q) -> open_deps P ds = (open_deps (P ++ Q) ds + list_sum (map (fun j => occ j ds) Q))%nat.
Proof.
  intros Hnd. unfold open_deps. induction ds as [|d ds IH]; simpl.
  - replace (list_sum _) with 0%nat; [done|]. clear. by induction Q.
  - assert (list_sum (map (fun j => occ j (d :: ds)) Q) =
      ((if decide (d ∈ Q) then 1 else 0) + list_sum (map (fun j => occ j ds) Q))%nat) as ->.
    { apply list.NoDup_app in Hnd as (_ & _ & HQ). clear IH. induction Q as [|j Q IHQ]; simpl; [done|].
      inversion HQ as [|? ? Hni HQ']; subst. rewrite IHQ by done. rewrite occ_cons.
      destruct (decide (d = j)) as [->|Hne].
      - rewrite (decide_False (P := j ∈ Q)), (decide_True (P := j ∈ j :: Q)) by (done || left). lia.
      - destruct (decide (d ∈ Q)), (decide (d ∈ j :: Q)); set_solver by lia. }
    apply list.NoDup_app in Hnd as (_ & Hdis & _). rewrite !filter_cons.
    destruct (decide (d ∈ Q)) as [HQ|HQ].
    + rewrite decide_True by (intros HP; by apply (Hdis d)). rewrite decide_False by set_solver. simpl. lia.
    + destruct (decide (d ∉ P)) as [HP|HP].
      * rewrite decide_True by set_solver. simpl. lia.
      * rewrite decide_False by set_solver. lia.
Qed.

Lemma open_deps_zero P ds : open_deps P ds = 0%nat <-> forall d, d ∈ ds -> d ∈ P.
Proof.
  unfold open_deps. rewrite length_zero_iff_nil. split.
  - intros Hf d Hd. destruct (decide (d ∈ P)); [done|].
    assert (d ∈ filter (fun d => d ∉ P) ds) as Hin by (by apply list_elem_of_filter).
    rewrite Hf in Hin. by apply elem_of_nil in Hin.
  - intros Hall. destruct (filter _ ds) as [|d l] eqn:Hf; [done|].
    assert (d ∈ filter (fun d => d ∉ P) ds) as [Hn Hin]%list_elem_of_filter by (rewrite Hf; left).
    by apply Hall in Hin.
Qed.

(** Every dependency of a job is in an earlier batch. *)
Definition layered (states : JobStates) (order : list (list string)) : Prop :=
  forall pre batch post, order = pre ++ batch :: post ->
  forall j d, j ∈ batch -> depends states j d -> d ∈ concat pre.

Record level_inv (states : JobStates) (order : list (list string)) (queue : list string)
    (deg : gmap string nat) : Prop := {
  li_nodup : NoDup (concat order ++ queue);
  li_jobs j : j ∈ concat order ++ queue -> is_Some (states !! j);
  li_deg j : deg !! j = (fun st => open_deps (concat order) (js_dependencies st)) <$> states !! j;
  li_ready j : is_Some (states !! j) ->
    open_deps (concat order) (deps states j) = 0%nat <-> j ∈ concat order ++ queue;
  li_layered : layered states order
}.

Lemma layered_snoc (states : JobStates) order queue :
  layered states order -> (forall j d, j ∈ queue -> depends states j d -> d ∈ concat order) ->
  layered states (order ++ [queue]).
Proof.
  intros Hl Hq pre batch post Heq. destruct post as [|b post _] using rev_ind.
  - apply app_inj_tail in Heq as [<- <-]. apply Hq.
  - rewrite app_comm_cons, app_assoc in Heq. apply app_inj_tail in Heq as [-> _]. by apply (Hl pre batch post).
Qed.

Lemma batch_occ (states : JobStates) queue d :
  dual states -> (forall j, j ∈ queue -> is_Some (states !! j)) ->
  occ d (flat_map (dependents states) queue) = list_sum (map (fun j => occ j (deps states d)) queue).
Proof.
  intros Hdual. induction queue as [|j queue IH]; intros Hq; simpl; [done|]. rewrite occ_app, IH.
  - f_equal. unfold dependents. destruct (Hq j) as [st Hst]; [left|]. rewrite Hst. by apply Hdual.
  - intros j' Hj'. apply Hq. by right.
Qed.

Lemma level_step (states : JobStates) order queue deg :
  dual states -> level_inv states order queue deg ->
  exists deg' queue', process_batch states queue deg = Ok (deg', queue') /\
    level_inv states (order ++ [queue]) queue' deg'.
Proof.
  intros Hdual [Hnd Hjobs Hdeg Hready Hlay]. rewrite process_batch_flat.
  assert (forall d, occ d (flat_map (dependents states) queue) =
    list_sum (map (fun j => occ j (deps states d)) queue)) as Hocc.
  { intros d. apply batch_occ; [done|]. intros j Hj. apply Hjobs, elem_of_app. by right. }
  assert (forall d, open_deps (concat order) (deps states d) =
    (open_deps (concat (order ++ [queue])) (deps states d)
     + occ d (flat_map (dependents states) queue))%nat) as Hsplit.
  { intros d. rewrite Hocc, concat_app. simpl. rewrite app_nil_r. by apply open_deps_app. }
  assert (forall d n, deg !! d = Some n -> n = open_deps (concat order) (deps states d)) as Hn.
  { intros d n Hd. rewrite Hdeg in Hd. unfold deps. destruct (states !! d); simpl in Hd; congruence. }
  destruct (reduce_all (flat_map (dependents states) queue) deg []) as (deg' & new & Heq & Hndn & Hdeg' & Hnew).
  { intros d n Hd. apply Hn in Hd. rewrite Hsplit in Hd. lia. }
  exists deg', new. split; [done|]. clear Heq.
  assert (forall j, j ∈ new -> is_Some (states !! j) /\
    open_deps (concat order) (deps states j) <> 0%nat /\
    open_deps (concat (order ++ [queue])) (deps states j) = 0%nat) as Hnew1.
  { intros j (n & Hj & Hno & Hpos)%Hnew. pose proof (Hn j n Hj) as Hjn.
    rewrite Hdeg in Hj. specialize (Hsplit j).
    split_and!; [by destruct (states !! j)|lia..]. }
  assert (concat (order ++ [queue]) = concat order ++ queue) as Hcat
    by (rewrite concat_app; simpl; by rewrite app_nil_r).
  split.
  - rewrite Hcat. apply list.NoDup_app. split_and!; [done| |done]. intros j Hj (Hs & Hne & _)%Hnew1.
    apply Hne. by apply Hready.
  - intros j. rewrite Hcat, elem_of_app. intros [Hj|Hj%Hnew1]; [by apply Hjobs|apply Hj].
  - intros j. rewrite Hdeg', Hdeg. specialize (Hsplit j). unfold deps in Hsplit.
    destruct (states !! j); simpl; [|done]. f_equal. lia.
  - intros j Hj. rewrite elem_of_app, Hcat. rewrite <- Hcat. split.
    + intros Hz. destruct (decide (j ∈ concat order ++ queue)) as [|Hni]; [left; by rewrite Hcat|right].
      rewrite <- (Hready j Hj) in Hni. apply Hnew. destruct (states !! j) as [st|] eqn:Hst; [|by destruct Hj].
      exists (open_deps (concat order) (deps states j)). specialize (Hsplit j).
      rewrite Hdeg, Hst. simpl. unfold deps in *. rewrite Hst in *. split_and!; [done|lia..].
    + intros [Hin|Hin%Hnew1]; [|apply Hin]. rewrite Hcat in Hin. apply (Hready j Hj) in Hin.
      specialize (Hsplit j). lia.
  - apply layered_snoc; [done|]. intros j d Hj. assert (j ∈ concat order ++ queue) as Hin
      by (apply elem_of_app; by right). pose proof (Hjobs j Hin) as Hs.
    apply (Hready j Hs) in Hin. rewrite open_deps_zero in Hin. apply Hin.
Qed.

Lemma NoDup_bounded (states : JobStates) l :
  NoDup l -> (forall j, j ∈ l -> is_Some (states !! j)) -> (length l <= size states)%nat.
Proof.
  intros Hnd Hin. rewrite <- (size_list_to_set (C := gset string) l) by done.
  rewrite <- (size_dom (D := gset string) states). apply subseteq_size. intros j.
  rewrite elem_of_list_to_set, elem_of_dom. apply Hin.
Qed.

Lemma levels_spec fuel (states : JobStates) queue deg order :
  dual states -> level_inv states order queue deg ->
  (size states - length (concat order) < fuel)%nat ->
  exists order' deg', levels fuel states queue deg order = Ok order' /\ level_inv states order' [] deg'.
Proof.
  intros Hdual. revert queue deg order. induction fuel as [|fuel IH]; intros queue deg order Hinv Hf; [lia|].
  destruct queue as [|j queue]; [by exists order, deg|]. cbn [levels].
  destruct (level_step _ _ _ _ Hdual Hinv) as (deg' & queue' & Heq & Hinv').
  cbn [levels]. rewrite Heq. cbn [result_bind]. apply IH; [done|].
  pose proof (NoDup_bounded states _ (li_nodup _ _ _ _ Hinv) (li_jobs _ _ _ _ Hinv)) as Hle.
  rewrite length_app in Hle. rewrite concat_app, length_app. simpl in *. rewrite app_nil_r. simpl. lia.
Qed.

(** A finished run of levels holds every job exactly when there is no cycle. *)
Lemma acyclic_sn (states : JobStates) j : closed states -> acyclic states -> sn (depends states) j.
Proof.
  intros Hcl Hac. apply tc_finite_sn; [exact Hac|].
  exists (elements (dom states)). intros d Htc. apply elem_of_elements, elem_of_dom.
  apply tc_last in Htc as (z & Hz). by apply (Hcl z).
Qed.

Lemma sn_no_loop {A} (R : A -> A -> Prop) x : sn R x -> ~ tc R x x.
Proof.
  induction 1 as [x _ IH]. intros Htc. apply tc_first in Htc as (y & Hxy & Hyx).
  apply (IH y Hxy). apply tc_rtc_l with x; [done|by apply tc_once].
Qed.

Lemma layered_sn (states : JobStates) order j :
  layered states order -> j ∈ concat order -> sn (depends states) j.
Proof.
  revert j. induction order as [|batch order IH] using rev_ind; intros j Hl; [by intros ?%elem_of_nil|].
  assert (layered states order) as Hl'.
  { intros pre b post -> j' d. apply (Hl pre b (post ++ [batch])). by rewrite <- app_assoc. }
  rewrite concat_app, elem_of_app. intros [Hj|Hj]; [by apply IH|]. simpl in Hj. rewrite app_nil_r in Hj.
  constructor. intros d Hd. apply IH; [done|]. by apply (Hl order batch [] eq_refl j).
Qed.

Lemma levels_complete (states : JobStates) order deg :
  closed states -> level_inv states order [] deg ->
  (length (concat order) = size states <-> acyclic states) /\
  (acyclic states -> forall j, j ∈ concat order <-> is_Some (states !! j)).
Proof.
  intros Hcl [Hnd Hjobs _ Hready Hlay]. rewrite app_nil_r in Hnd.
  assert (forall j, j ∈ concat order -> is_Some (states !! j)) as Hj1
    by (intros j Hj; apply Hjobs; by rewrite app_nil_r).
  assert (acyclic states -> forall j, is_Some (states !! j) -> j ∈ concat order) as Hall.
  { intros Hac j. pose proof (acyclic_sn states j Hcl Hac) as Hsn. induction Hsn as [j _ IH].
    intros Hj. rewrite <- (app_nil_r (concat order)). apply (Hready j Hj), open_deps_zero.
    intros d Hd. apply (IH d Hd). by apply (Hcl j). }
  assert (length (concat order) = size (list_to_set (concat order) : gset string)) as Hlen
    by (by rewrite size_list_to_set).
  split; [|by split; [apply Hj1|apply Hall]]. rewrite <- (size_dom (D := gset string) states), Hlen. split.
  - intros Hsz. assert (dom states ⊆ (list_to_set (concat order) : gset string)) as Hsub.
    { rewrite (set_subseteq_size_eq (list_to_set (concat order)) (dom states)); [done| |lia].
      intros j. rewrite elem_of_list_to_set, elem_of_dom. apply Hj1. }
    intros j Htc. apply (sn_no_loop (depends states) j); [|done]. apply (layered_sn _ order); [done|].
    apply tc_first in Htc as (d & Hd & _). apply no_deps_outside, elem_of_dom, Hsub in Hd.
    by apply elem_of_list_to_set in Hd.
  - intros Hac. f_equal. apply leibniz_equiv. intros j. rewrite elem_of_list_to_set, elem_of_dom.
    split; [apply Hj1|by apply Hall].
Qed.

Lemma initial_levels (states : JobStates) keys :
  iterates states keys ->
  level_inv states []
    (List.filter (fun job_id => match ((fun st => length (js_dependencies st)) <$> states) !! job_id with
                                | Some O => true | _ => false end) keys)
    ((fun st => length (js_dependencies st)) <$> states).
Proof.
  intros [Hnd Hk].
  assert (forall ds, open_deps [] ds = length ds) as Hopen.
  { intros ds. unfold open_deps. induction ds as [|d ds IH]; [done|]. rewrite filter_cons.
    destruct (decide (d ∉ [])) as [|[]]; [cbn [length]; by f_equal|]. by intros ?%elem_of_nil. }
  assert (forall j, j ∈ List.filter (fun job_id =>
    match ((fun st => length (js_dependencies st)) <$> states) !! job_id with
    | Some O => true | _ => false end) keys <->
    exists st, states !! j = Some st /\ length (js_dependencies st) = 0%nat) as Hin.
  { intros j. rewrite list_elem_of_In, filter_In, <- list_elem_of_In, Hk, lookup_fmap.
    destruct (states !! j) as [st|]; simpl; [|by split; [intros [[] ?]|intros (? & ? & ?)]].
    split; [intros [_ Hz]; exists st; split; [done|]; by destruct (length (js_dependencies st))|].
    intros (st' & [= <-] & ->). by eauto. }
  split; simpl.
  - by apply NoDup_ListNoDup, NoDup_filter, NoDup_ListNoDup.
  - intros j (st & Hst & _)%Hin. by eauto.
  - intros j. rewrite lookup_fmap. destruct (states !! j); simpl; [|done]. by rewrite Hopen.
  - intros j [st Hst]. rewrite Hin, Hopen. unfold deps. rewrite Hst. split; [by eauto|]. naive_solver.
  - intros pre batch post Heq. by destruct pre.
Qed.

Lemma validate_spec keys (states : JobStates) :
  closed states -> iterates states keys ->
  (validate_dependency_graph keys states = Ok (Ok ()) /\ acyclic states) \/
  (exists m, validate_dependency_graph keys states = Ok (Err (DependencyCycleDetected m))) /\
    ~ acyclic states.
Proof.
  intros Hcl [_ Hk]. apply validate_loop_spec; [done|lia|by intros; apply Hk|split_and!; set_solver|].
  intros j Hj. left. by apply Hk.
Qed.

(** Cycle detection is exact, whatever orders the maps are iterated in: on the graph
    built from any jobs it terminates, and refuses the workflow exactly when some job
    depends on itself, directly or not. *)
Theorem validate_exact jobs keys states keys' :
  iterates (first_pass jobs) keys -> build_job_dependency_graph keys jobs = Ok states ->
  iterates states keys' ->
  (validate_dependency_graph keys' states = Ok (Ok ()) <-> acyclic states) /\
  ((exists m, validate_dependency_graph keys' states = Ok (Err (DependencyCycleDetected m)))
    <-> ~ acyclic states).
Proof.
  intros Hit Hb Hit'. destruct (build_graph keys jobs states Hit Hb) as (Hcl & _ & _).
  destruct (validate_spec keys' states Hcl Hit') as [[-> Hac]|[[m ->] Hac]].
  - split; split; try done. by intros [m ?].
  - split; split; try done. by eauto.
Qed.

Lemma execution_order_spec keys (states : JobStates) :
  closed states -> dual states -> iterates states keys ->
  exists order, calculate_execution_order keys states =
    (if (list_sum (map (@length _) order) =? size states)%nat then Ok (Ok order)
     else Ok (Err (DependencyCycleDetected "Unable to resolve all dependencies - cycle detected"))) /\
  (list_sum (map (@length _) order) = size states <-> acyclic states) /\
  NoDup (concat order) /\ layered states order /\
  (acyclic states -> forall j, j ∈ concat order <-> is_Some (states !! j)).
Proof.
  intros Hcl Hdual Hit. unfold calculate_execution_order.
  destruct (levels_spec (S (size states)) states _ _ _ Hdual (initial_levels states keys Hit))
    as (order & deg & Heq & Hinv); [simpl; lia|].
  exists order. rewrite Heq. cbn [result_bind]. split; [done|].
  destruct (levels_complete _ _ _ Hcl Hinv) as [Hlen Hall]. rewrite <- length_concat.
  destruct Hinv as [Hnd _ _ _ Hlay]. by rewrite app_nil_r in Hnd.
Qed.

(** C5: The execution order is right, whatever orders the maps are iterated in: the
    computation terminates without a counter below zero; on a graph without cycles it
    gives batches that hold every job exactly once, each behind all its dependencies, and
    on a graph with a cycle it gives the cycle error. *)
Theorem execution_order_exact jobs keys states keys' :
  iterates (first_pass jobs) keys -> build_job_dependency_graph keys jobs = Ok states ->
  iterates states keys' ->
  (acyclic states -> exists order, calculate_execution_order keys' states = Ok (Ok order) /\
     NoDup (concat order) /\ (forall j, j ∈ concat order <-> is_Some (states !! j)) /\
     layered states order) /\
  (~ acyclic states -> exists m, calculate_execution_order keys' states
     = Ok (Err (DependencyCycleDetected m))).
Proof.
  intros Hit Hb Hit'. destruct (build_graph keys jobs states Hit Hb) as (Hcl & Hdual & _).
  destruct (execution_order_spec keys' states Hcl Hdual Hit')
    as (order & -> & Hlen & Hnd & Hlay & Hall).
  destruct (Nat.eqb_spec (list_sum (map (@length _) order)) (size states)) as [Heq|Hne]; split; intros Hac.
  - exists order. split_and!; try done. by apply Hall.
  - by apply Hlen in Heq.
  - by apply Hlen in Hac.
  - by eauto.
Qed.
End Graph.

Arguments JobExecutionState : clear implicits.

Lemma iterates_dom {A} (m : gmap string A) keys :
  NoDup keys -> dom m = list_to_set keys -> iterates m keys.
Proof.
  intros Hnd Hd. split; [done|]. intros k. by rewrite <- elem_of_dom, Hd, elem_of_list_to_set.
Qed.

(** ** A concrete pipeline *)

Definition sample_task (id : string) (dependencies : list string) : WorkflowTask nat := {|
  t_job_id := id; t_name := id; t_depends_on := dependencies; t_should_skip := fun _ => Ok false;
  t_validate_prerequisites := fun _ => Ok (); t_execute_with_cancellation := fun c => Ok (Ok (success c));
  t_cleanup_after_workflow := false |}.

Definition sample_job (id : string) (dependencies : list string) : JobConfig nat := {|
  jc_job := sample_task id dependencies; jc_required := true; jc_condition := None;
  jc_dependencies_override := None |}.

Definition sample_jobs : list (JobConfig nat) :=
  [sample_job "deploy" ["build"; "build"]; sample_job "build" []; sample_job "crons" ["deploy"];
   sample_job "screenshot" ["deploy"; "build"]].

Definition sample_keys : list string := ["screenshot"; "build"; "deploy"; "crons"].

Definition sample_states : gmap string (JobExecutionState nat) :=
  match build_job_dependency_graph sample_keys sample_jobs with Ok st => st | Err _ => ∅ end.

Definition sample_order : list (list string) :=
  match calculate_execution_order sample_keys sample_states with Ok (Ok order) => order | _ => [] end.

Example sample_order_is : sample_order = [["build"]; ["deploy"]; ["screenshot"; "crons"]].
Proof. vm_compute. reflexivity. Qed.

Lemma sample_iterates : iterates (first_pass sample_jobs) sample_keys.
Proof. apply iterates_dom; apply (bool_decide_unpack _); vm_compute; exact I. Qed.

Lemma sample_states_iterates : iterates sample_states sample_keys.
Proof. apply iterates_dom; apply (bool_decide_unpack _); vm_compute; exact I. Qed.

Lemma sample_built : build_job_dependency_graph sample_keys sample_jobs = Ok sample_states.
Proof. vm_cast_no_check (eq_refl (build_job_dependency_graph sample_keys sample_jobs)). Qed.

Lemma validate_exact_witness : acyclic sample_states.
Proof.
  apply (proj1 (validate_exact sample_jobs sample_keys sample_states sample_keys
    sample_iterates sample_built sample_states_iterates)).
  vm_cast_no_check (eq_refl (@Ok Stuck _ (@Ok WorkflowError _ ()))).
Defined.

Lemma sample_acyclic : acyclic sample_states.
Proof.
  destruct (build_graph _ _ _ sample_iterates sample_built) as (Hcl & _ & _).
  destruct (validate_spec sample_keys sample_states Hcl sample_states_iterates)
    as [[_ Hac]|[[m Hm] _]]; [done|].
  vm_compute in Hm. discriminate.
Qed.

Lemma execution_order_exact_witness :
  exists order, calculate_execution_order sample_keys sample_states = Ok (Ok order) /\
    NoDup (concat order) /\ (forall j, j ∈ concat order <-> is_Some (sample_states !! j)) /\
    layered sample_states order.
Proof.
  exact (proj1 (execution_order_exact sample_jobs sample_keys sample_states sample_keys
    sample_iterates sample_built sample_states_iterates) sample_acyclic).
Defined.
