(* ===== verification/WorkflowExec.v ===== *)
(** * The workflow executor and the tracker of its jobs

    [crates/temps-core/src/workflow_executor.rs] ([execute_workflow], [execute_job_batch]
    and what they call) over the trait [JobTracker], and its implementation
    [DeploymentJobTracker] of [crates/temps-deployments/src/services/job_tracker.rs] on
    the rows of [deployment_jobs].

    The jobs of a batch run concurrently on clones of one context; what a job answers is
    a function of that context ([WorkflowTask]), so their order does not matter to the
    results, which are joined in batch order.  The answers of the cancellation provider
    at the head of each batch are an argument.  When a batch returns early, the tasks it
    has spawned run on detached and nobody reads their results. *)

From S2P Require Import Prelude Workflow WorkflowGraph.

(** [trait JobTracker], the methods the executor calls. *)
Class JobTracker (V T : Type) := {
  create_job_execution : string -> string -> JobStatus -> T -> result WorkflowError Z * T;
  update_job_status : Z -> JobStatus -> option string -> T -> result WorkflowError unit * T;
  add_job_logs : Z -> list string -> T -> result WorkflowError unit * T;
  save_job_outputs : Z -> gmap string V -> T -> result WorkflowError unit * T;
  cancel_pending_jobs : string -> string -> T -> result WorkflowError unit * T
}.

Definition required_job_failed (job_id : string) (message : option string) : WorkflowError :=
  JobExecutionFailed ("Required job '" ++ job_id ++ "' failed: " ++ default "Unknown error" message)%string.

Definition is_cancellation_error (e : WorkflowError) : bool :=
  match e with WorkflowCancelled | BuildCancelled => true | _ => false end.

Section Executor.
Context {V T : Type} `{JobTracker V T}.
Implicit Types (tracker : option T) (context : WorkflowContext V).

(** The state of a run: jobs, context, tracker, and the cleanup calls made. *)
Record Exec := {
  ex_states : gmap string (JobExecutionState V);
  ex_context : WorkflowContext V;
  ex_tracker : option T;
  ex_cleaned : list string
}.

Definition set_tracker (x : Exec) tracker : Exec := {|
  ex_states := ex_states x; ex_context := ex_context x; ex_tracker := tracker;
  ex_cleaned := ex_cleaned x |}.

(** ** Tracker calls whose errors are only logged *)

Definition cancel_remaining_pending (run reason : string) tracker : option T :=
  match tracker with
  | None => None
  | Some t => Some (cancel_pending_jobs run reason t).2
  end.

Definition persist_terminal_status context (job_id : string) (status : JobStatus)
    (message : option string) tracker : option T :=
  match tracker with
  | None => None
  | Some t =>
      match create_job_execution (workflow_run_id context) job_id status t with
      | (Err _, t') => Some t'
      | (Ok execution_id, t') => Some (update_job_status execution_id status message t').2
      end
  end.

(** [cleanup_terminal_resources]. *)
Definition cleanup_terminal_resources (jobs : list (JobConfig V)) (x : Exec) : Exec := {|
  ex_states := ex_states x; ex_context := ex_context x; ex_tracker := ex_tracker x;
  ex_cleaned := ex_cleaned x ++ map (fun c => t_job_id (jc_job c))
    (List.filter (fun c => t_cleanup_after_workflow (jc_job c)) jobs) |}.

(** ** [execute_job_batch] *)

Definition set_status (s : JobStatus) (st : JobExecutionState V) : JobExecutionState V := {|
  js_config := js_config st; js_status := s; js_dependencies := js_dependencies st;
  js_dependents := js_dependents st; js_execution_id := js_execution_id st; js_result := js_result st |}.

Definition set_execution_id (id : Z) (st : JobExecutionState V) : JobExecutionState V := {|
  js_config := js_config st; js_status := js_status st; js_dependencies := js_dependencies st;
  js_dependents := js_dependents st; js_execution_id := Some id; js_result := js_result st |}.

Definition set_job (job_id : string) (st : JobExecutionState V) tracker (x : Exec) : Exec := {|
  ex_states := <[job_id := st]> (ex_states x); ex_context := ex_context x; ex_tracker := tracker;
  ex_cleaned := ex_cleaned x |}.

(** One job of the loop that spawns: the task it adds, if any. *)
Definition spawn_job (continue_on_failure : bool) (job_id : string) (x : Exec)
    : result WorkflowError (list (string * WorkflowTask V)) * Exec :=
  match ex_states x !! job_id with
  | None => (Ok [], x)
  | Some st =>
      let job := jc_job (js_config st) in
      match t_should_skip job (ex_context x) with
      | Err e => (Err e, x)
      | Ok true =>
          (Ok [], set_job job_id (set_status Skipped st)
                    (persist_terminal_status (ex_context x) job_id Skipped None (ex_tracker x)) x)
      | Ok false =>
          match t_validate_prerequisites job (ex_context x) with
          | Err e =>
              let error_msg :=
                ("Prerequisites not met for job '" ++ job_id ++ "': " ++ error_text e)%string in
              let x' := set_job job_id (set_status Failure st)
                (persist_terminal_status (ex_context x) job_id Failure (Some error_msg) (ex_tracker x)) x in
              if jc_required (js_config st) && negb continue_on_failure then (Err e, x') else (Ok [], x')
          | Ok _ =>
              match ex_tracker x with
              | None => (Ok [(job_id, job)], x)
              | Some t =>
                  match create_job_execution (workflow_run_id (ex_context x)) job_id Running t with
                  | (Err e, t') => (Err e, set_tracker x (Some t'))
                  | (Ok execution_id, t') =>
                      (Ok [(job_id, job)], set_job job_id (set_execution_id execution_id st) (Some t') x)
                  end
              end
          end
      end
  end.

Fixpoint spawn_batch (continue_on_failure : bool) (batch : list string) (x : Exec)
    : result WorkflowError (list (string * WorkflowTask V)) * Exec :=
  match batch with
  | [] => (Ok [], x)
  | job_id :: batch =>
      match spawn_job continue_on_failure job_id x with
      | (Err e, x') => (Err e, x')
      | (Ok task, x') =>
          match spawn_batch continue_on_failure batch x' with
          | (Err e, x'') => (Err e, x'')
          | (Ok tasks, x'') => (Ok (task ++ tasks), x'')
          end
      end
  end.

(** The body of a spawned task, on the clone of the context; [Err] is a panic. *)
Definition run_task context (job_id : string) (job : WorkflowTask V) (x : Exec)
    : result string (JobResult V) * Exec :=
  let cleaned := {| ex_states := ex_states x; ex_context := ex_context x; ex_tracker := ex_tracker x;
                    ex_cleaned := ex_cleaned x ++ [job_id] |} in
  match t_execute_with_cancellation job context with
  | Err panic => (Err panic, x)
  | Ok (Ok job_result) =>
      let logged (y : Exec) :=
        match ex_tracker y, r_logs job_result with
        | Some t, _ :: _ => set_tracker y (Some (add_job_logs 0 (r_logs job_result) t).2)
        | _, _ => y
        end in
      (Ok job_result,
       match r_status job_result with
       | Failure | Cancelled => logged cleaned
       | _ => logged x
       end)
  | Ok (Err e) =>
      (Ok (if is_cancellation_error e then cancelled context else failure context (detail e)), cleaned)
  end.

Fixpoint run_tasks context (tasks : list (string * WorkflowTask V)) (x : Exec)
    : list (string * result string (JobResult V)) * Exec :=
  match tasks with
  | [] => ([], x)
  | (job_id, job) :: tasks =>
      let '(r, x') := run_task context job_id job x in
      let '(rs, x'') := run_tasks context tasks x' in
      ((job_id, r) :: rs, x'')
  end.

(** The loop over the joined tasks. *)
Fixpoint join_results (results : list (string * result string (JobResult V)))
    : result WorkflowError (list (string * JobResult V)) :=
  match results with
  | [] => Ok []
  | (job_id, Ok r) :: rest => let? rs := join_results rest in Ok ((job_id, r) :: rs)
  | (_, Err panic) :: _ => Err (Other ("Task execution failed: " ++ panic)%string)
  end.

Definition execute_job_batch (permits : nat) (continue_on_failure : bool) (batch : list string)
    (x : Exec) : result Stuck (result WorkflowError (list (string * JobResult V)) * Exec) :=
  match spawn_batch continue_on_failure batch x with
  | (Err e, x') => Ok (Err e, x')
  | (Ok tasks, x') =>
      match tasks, permits with
      | _ :: _, O => Err NoPermit
      | _, _ => let '(results, x'') := run_tasks (ex_context x') tasks x' in
                Ok (join_results results, x'')
      end
  end.

(** ** [execute_workflow] *)

(** The merge of a result's context. *)
Definition merge_context context (r : WorkflowContext V) : WorkflowContext V := {|
  workflow_run_id := workflow_run_id context; deployment_id := deployment_id context;
  project_id := project_id context; environment_id := environment_id context;
  vars := vars r ∪ vars context;
  outputs := union_with (fun old new => Some (new ∪ old)) (outputs context) (outputs r);
  artifacts := union_with (fun old new => Some (new ∪ old)) (artifacts context) (artifacts r);
  work_dir := match work_dir r with Some d => Some d | None => work_dir context end |}.

Definition set_result (r : JobResult V) (st : JobExecutionState V) : JobExecutionState V := {|
  js_config := js_config st; js_status := r_status r; js_dependencies := js_dependencies st;
  js_dependents := js_dependents st; js_execution_id := js_execution_id st; js_result := Some r |}.

(** What the tracker is told of a result. *)
Definition record_result context (job_id : string) (execution_id : option Z) (r : JobResult V) tracker
    : option T :=
  match tracker, execution_id with
  | Some t, Some id =>
      let message := match r_status r with
                     | Success => None
                     | Failure => Some (default "Job failed" (r_message r))
                     | _ => r_message r
                     end in
      let t' := (update_job_status id (r_status r) message t).2 in
      Some (match r_status r, outputs context !! job_id with
            | Success, Some job_outputs => (save_job_outputs id job_outputs t').2
            | _, _ => t'
            end)
  | _, _ => tracker
  end.

(** The pending rows cancelled and the resources cleaned up on the way out. *)
Definition abort (config : WorkflowConfig V) (reason : string) (x : Exec) : Exec :=
  cleanup_terminal_resources (wc_jobs config)
    (set_tracker x (cancel_remaining_pending (wc_workflow_run_id config) reason (ex_tracker x))).

(** One result of a batch. *)
Definition handle_result (config : WorkflowConfig V) (job_id : string) (r : JobResult V) (x : Exec)
    : result WorkflowError unit * Exec :=
  match ex_states x !! job_id with
  | None => (Ok (), x)
  | Some st =>
      let context := merge_context (ex_context x) (r_context r) in
      let x' := {| ex_states := <[job_id := set_result r st]> (ex_states x); ex_context := context;
                   ex_tracker := record_result context job_id (js_execution_id st) r (ex_tracker x);
                   ex_cleaned := ex_cleaned x |} in
      if jc_required (js_config st) && bool_decide (r_status r = Failure)
         && negb (wc_continue_on_failure config)
      then
        let reason := ("Required job '" ++ job_id ++ "' failed: " ++
                       default "Unknown error" (r_message r))%string in
        (Err (required_job_failed job_id (r_message r)), abort config reason x')
      else (Ok (), x')
  end.

Fixpoint handle_results (config : WorkflowConfig V) (results : list (string * JobResult V)) (x : Exec)
    : result WorkflowError unit * Exec :=
  match results with
  | [] => (Ok (), x)
  | (job_id, r) :: rest =>
      match handle_result config job_id r x with
      | (Err e, x') => (Err e, x')
      | (Ok _, x') => handle_results config rest x'
      end
  end.

(** The loop over the batches; [is_cancelled n] is the provider's answer at the head of
    batch [n]. *)
Fixpoint run_batches (config : WorkflowConfig V) (is_cancelled : nat -> result WorkflowError bool)
    (n : nat) (batches : list (list string)) (x : Exec)
    : result Stuck (result WorkflowError unit * Exec) :=
  match batches with
  | [] => Ok (Ok (), cleanup_terminal_resources (wc_jobs config) x)
  | batch :: batches =>
      match is_cancelled n with
      | Err e =>
          Ok (Err e, abort config ("Cancellation status check failed: " ++ error_text e)%string x)
      | Ok true => Ok (Err WorkflowCancelled, abort config "Workflow cancelled by user" x)
      | Ok false =>
          let? (batch_results, x') := execute_job_batch (wc_max_parallel_jobs config)
            (wc_continue_on_failure config) batch x in
          match batch_results with
          | Err e => Ok (Err e, abort config ("Workflow aborted: " ++ error_text e)%string x')
          | Ok results =>
              match handle_results config results x' with
              | (Err e, x'') => Ok (Err e, x'')
              | (Ok _, x'') => run_batches config is_cancelled (S n) batches x''
              end
          end
      end
  end.

(** The graph passes, each with the order of its iteration. *)
Definition plan (keys1 keys2 keys3 : list string) (jobs : list (JobConfig V))
    : result Stuck (result WorkflowError (gmap string (JobExecutionState V) * list (list string))) :=
  match build_job_dependency_graph keys1 jobs with
  | Err e => Ok (Err e)
  | Ok states =>
      let? valid := validate_dependency_graph keys2 states in
      match valid with
      | Err e => Ok (Err e)
      | Ok _ =>
          let? order := calculate_execution_order keys3 states in
          Ok (match order with Err e => Err e | Ok order => Ok (states, order) end)
      end
  end.

Definition execute_workflow (keys1 keys2 keys3 : list string) (config : WorkflowConfig V)
    (is_cancelled : nat -> result WorkflowError bool) tracker
    : result Stuck (result WorkflowError (WorkflowContext V) * Exec) :=
  let context0 := context_new (wc_workflow_run_id config) (wc_deployment_id config)
    (wc_project_id config) (wc_environment_id config) in
  let context := {| workflow_run_id := workflow_run_id context0; deployment_id := deployment_id context0;
    project_id := project_id context0; environment_id := environment_id context0;
    vars := wc_initial_context config; outputs := outputs context0; artifacts := artifacts context0;
    work_dir := work_dir context0 |} in
  let? planned := plan keys1 keys2 keys3 (wc_jobs config) in
  match planned with
  | Err e => Ok (Err e, {| ex_states := ∅; ex_context := context; ex_tracker := tracker; ex_cleaned := [] |})
  | Ok (states, order) =>
      let? (outcome, x) := run_batches config is_cancelled 0 order
        {| ex_states := states; ex_context := context; ex_tracker := tracker; ex_cleaned := [] |} in
      Ok (match outcome with Ok _ => Ok (ex_context x) | Err e => Err e end, x)
  end.
End Executor.
Arguments Exec : clear implicits.

(** ** [DeploymentJobTracker] *)

Record JobRow (V : Type) := {
  row_id : Z;
  row_job_id : string;
  row_status : JobStatus;
  row_error_message : option string;
  row_outputs : option (gmap string V);
  row_started : bool;
  row_finished : bool
}.
Arguments row_id {V}.
Arguments row_job_id {V}.
Arguments row_status {V}.
Arguments row_error_message {V}.
Arguments row_outputs {V}.
Arguments row_started {V}.
Arguments row_finished {V}.

(** The rows of one deployment, and the text of a database that does not answer. *)
Record DeploymentJobs (V : Type) := { rows : list (JobRow V); fault : option string }.
Arguments rows {V}.
Arguments fault {V}.

Section Tracker.
Context {V : Type}.

Definition set_rows (t : DeploymentJobs V) (l : list (JobRow V)) : DeploymentJobs V :=
  {| rows := l; fault := fault t |}.

(** An update of the row with an id. *)
Definition update_row (id : Z) (f : JobRow V -> JobRow V) (t : DeploymentJobs V) : DeploymentJobs V :=
  set_rows t (map (fun r => if (row_id r =? id)%Z then f r else r) (rows t)).

Definition find_row (p : JobRow V -> bool) (missing failed : string) (t : DeploymentJobs V)
    : result WorkflowError (JobRow V) :=
  match fault t with
  | Some text => Err (Other (failed ++ ": " ++ text)%string)
  | None => ok_or (Other missing) (List.find p (rows t))
  end.

(** [create_job_execution]: the planner's row takes the status. *)
Definition tracker_create (job_id : string) (status : JobStatus) (t : DeploymentJobs V)
    : result WorkflowError Z * DeploymentJobs V :=
  match find_row (fun r => bool_decide (row_job_id r = job_id))
          ("Job " ++ job_id ++ " not found in deployment_jobs")%string
          ("Failed to find job " ++ job_id)%string t with
  | Err e => (Err e, t)
  | Ok job =>
      (Ok (row_id job), update_row (row_id job) (fun r => {|
         row_id := row_id r; row_job_id := row_job_id r; row_status := status;
         row_error_message := row_error_message r; row_outputs := row_outputs r;
         row_started := match status with Running => true | _ => row_started r end;
         row_finished := row_finished r |}) t)
  end.

(** [update_job_status]. *)
Definition tracker_update (id : Z) (status : JobStatus) (message : option string)
    (t : DeploymentJobs V) : result WorkflowError unit * DeploymentJobs V :=
  match find_row (fun r => (row_id r =? id)%Z) "Job not found" "Failed to find job" t with
  | Err e => (Err e, t)
  | Ok _ =>
      (Ok (), update_row id (fun r => {|
         row_id := row_id r; row_job_id := row_job_id r; row_status := status;
         row_error_message := match message with Some m => Some m | None => row_error_message r end;
         row_outputs := row_outputs r;
         row_started := match status with Running => true | _ => row_started r end;
         row_finished := is_terminal status || row_finished r |}) t)
  end.

(** [save_job_outputs]. *)
Definition tracker_save (id : Z) (job_outputs : gmap string V) (t : DeploymentJobs V)
    : result WorkflowError unit * DeploymentJobs V :=
  match find_row (fun r => (row_id r =? id)%Z) "Job not found" "Failed to find job" t with
  | Err e => (Err e, t)
  | Ok _ =>
      (Ok (), update_row id (fun r => {|
         row_id := row_id r; row_job_id := row_job_id r; row_status := row_status r;
         row_error_message := row_error_message r; row_outputs := Some job_outputs;
         row_started := row_started r; row_finished := row_finished r |}) t)
  end.

(** [cancel_pending_jobs]: one update of all pending rows. *)
Definition tracker_cancel (reason : string) (t : DeploymentJobs V)
    : result WorkflowError unit * DeploymentJobs V :=
  match fault t with
  | Some text => (Err (Other ("Failed to cancel pending jobs: " ++ text)%string), t)
  | None =>
      (Ok (), set_rows t (map (fun r =>
         if bool_decide (row_status r = Pending) then {|
           row_id := row_id r; row_job_id := row_job_id r; row_status := Cancelled;
           row_error_message := Some reason; row_outputs := row_outputs r;
           row_started := row_started r; row_finished := true |}
         else r) (rows t)))
  end.

#[export] Instance deployment_tracker : JobTracker V (DeploymentJobs V) := {|
  create_job_execution _ job_id status t := tracker_create job_id status t;
  update_job_status id status message t := tracker_update id status message t;
  add_job_logs _ _ t := (Ok (), t);
  save_job_outputs id job_outputs t := tracker_save id job_outputs t;
  cancel_pending_jobs _ reason t := tracker_cancel reason t
|}.
End Tracker.

(** ** The rows under the tracker's operations *)

Section Rows.
Context {V : Type}.
Implicit Types (t : DeploymentJobs V) (P : JobStatus -> Prop).

Definition row_keys t : list (Z * string) := map (fun r => (row_id r, row_job_id r)) (rows t).

(** A database that answers, with rows under the given ids and jobs. *)
Definition tracker_ok (keys : list (Z * string)) t : Prop := fault t = None /\ row_keys t = keys.

(** Every row of the job has a status in [P]. *)
Definition row_sat t (j : string) P : Prop :=
  forall r, r ∈ rows t -> row_job_id r = j -> P (row_status r).

Context (keys : list (Z * string)) (Hids : NoDup (map fst keys)) (Hjobs : NoDup (map snd keys)).

Lemma keys_id_inj id j j' : (id, j) ∈ keys -> (id, j') ∈ keys -> j = j'.
Proof.
  intros H1 H2. apply list_elem_of_lookup in H1 as [a Ha], H2 as [b Hb].
  assert (a = b) as <-; [|congruence]. eapply (NoDup_lookup (map fst keys) a b); [done|..].
  - rewrite list_lookup_fmap, Ha. reflexivity.
  - rewrite list_lookup_fmap, Hb. reflexivity.
Qed.

Lemma row_in_keys t r : tracker_ok keys t -> r ∈ rows t -> (row_id r, row_job_id r) ∈ keys.
Proof. intros [_ <-] Hr. apply list_elem_of_fmap. eauto. Qed.

(** An update of one row is one of its job alone. *)
Lemma update_row_spec t id j f :
  tracker_ok keys t -> (id, j) ∈ keys ->
  (forall r, row_id (f r) = row_id r) -> (forall r, row_job_id (f r) = row_job_id r) ->
  tracker_ok keys (update_row id f t) /\
  (forall P, (forall r, r ∈ rows t -> row_job_id r = j -> P (row_status (f r))) ->
     row_sat (update_row id f t) j P) /\
  (forall j' P, j' <> j -> row_sat t j' P -> row_sat (update_row id f t) j' P).
Proof.
  intros Ht Hid Hf1 Hf2. pose proof Ht as [Hfault Hkeys]. split_and!.
  - split; [done|]. rewrite <- Hkeys. unfold row_keys. simpl. rewrite map_map. apply map_ext.
    intros r. destruct (row_id r =? id)%Z; [by rewrite Hf1, Hf2|done].
  - intros P HP r' (r & -> & Hr)%list_elem_of_fmap Hj'. destruct (Z.eqb_spec (row_id r) id) as [Heq|Hne].
    + apply HP; [done|]. by rewrite Hf2 in Hj'.
    + destruct Hne. pose proof (row_in_keys t r Ht Hr) as Hk. rewrite Hj' in Hk.
      clear -Hjobs Hk Hid. apply list_elem_of_lookup in Hk as [a Ha], Hid as [b Hb].
      assert (a = b) as <-; [|congruence]. eapply (NoDup_lookup (map snd keys) a b); [done|..].
      * rewrite list_lookup_fmap, Ha. reflexivity.
      * rewrite list_lookup_fmap, Hb. reflexivity.
  - intros j' P Hne HP r' (r & -> & Hr)%list_elem_of_fmap Hj'.
    destruct (Z.eqb_spec (row_id r) id) as [<-|_]; [|by apply HP]. destruct Hne.
    rewrite Hf2 in Hj'. rewrite <- Hj'. apply (keys_id_inj (row_id r)); [by apply (row_in_keys t)|done].
Qed.

(** What an operation does to the row of one job. *)
Definition touches t t' (j : string) (s : JobStatus) : Prop :=
  tracker_ok keys t' /\ row_sat t' j (fun s' => s' = s) /\
  (forall j' P, j' <> j -> row_sat t j' P -> row_sat t' j' P).

Lemma find_row_by_id t id j missing failed :
  tracker_ok keys t -> (id, j) ∈ keys ->
  exists r, find_row (fun r => (row_id r =? id)%Z) missing failed t = Ok r.
Proof.
  intros [Hf Hk] Hid. unfold find_row. rewrite Hf. rewrite <- Hk in Hid.
  apply list_elem_of_fmap in Hid as (r & [= -> ->] & Hr).
  destruct (List.find _ _) as [r'|] eqn:Hfind; [by exists r'|].
  pose proof (find_none _ _ Hfind r (proj1 (list_elem_of_In _ _) Hr)) as Hn. simpl in Hn.
  by rewrite Z.eqb_refl in Hn.
Qed.

Lemma tracker_create_spec t j s :
  tracker_ok keys t -> j ∈ map snd keys ->
  exists id t', tracker_create j s t = (Ok id, t') /\ (id, j) ∈ keys /\ touches t t' j s.
Proof.
  intros Ht Hj. unfold tracker_create, find_row. pose proof Ht as [Hf Hk]. rewrite Hf.
  destruct (List.find _ _) as [r|] eqn:Hfind; simpl.
  - apply find_some in Hfind as [Hr%list_elem_of_In Heq%bool_decide_eq_true].
    assert ((row_id r, j) ∈ keys) as Hid by (rewrite <- Heq; by apply (row_in_keys t)).
    do 2 eexists. split; [done|]. split; [done|].
    destruct (update_row_spec t (row_id r) j (fun r => {|
         row_id := row_id r; row_job_id := row_job_id r; row_status := s;
         row_error_message := row_error_message r; row_outputs := row_outputs r;
         row_started := match s with Running => true | _ => row_started r end;
         row_finished := row_finished r |}) Ht Hid) as (Ha & Hb & Hc); [done..|].
    split_and!; [done| |done]. by apply Hb.
  - apply list_elem_of_fmap in Hj as ((id & j') & -> & Hid). rewrite <- Hk in Hid.
    apply list_elem_of_fmap in Hid as (r & [= -> ->] & Hr).
    pose proof (find_none _ _ Hfind r (proj1 (list_elem_of_In _ _) Hr)) as Hn. simpl in Hn.
    by apply bool_decide_eq_false in Hn.
Qed.

Lemma tracker_update_spec t id j s m :
  tracker_ok keys t -> (id, j) ∈ keys -> touches t (tracker_update id s m t).2 j s.
Proof.
  intros Ht Hid. unfold tracker_update.
  destruct (find_row_by_id t id j "Job not found" "Failed to find job" Ht Hid) as [r ->]. simpl.
  match goal with |- touches _ (update_row _ ?f _) _ _ =>
    destruct (update_row_spec t id j f Ht Hid) as (Ha & Hb & Hc); [done..|] end.
  split_and!; [done| |done]. by apply Hb.
Qed.

Lemma tracker_save_spec t id o :
  tracker_ok keys t -> tracker_ok keys (tracker_save id o t).2 /\
  forall j P, row_sat t j P -> row_sat (tracker_save id o t).2 j P.
Proof.
  intros Ht. unfold tracker_save. destruct (find_row _ _ _ t) as [r|]; [|done]. simpl. split.
  - destruct Ht as [Hf Hk]. split; [done|]. rewrite <- Hk. unfold row_keys. simpl. rewrite map_map.
    apply map_ext. intros r'. by destruct (row_id r' =? id)%Z.
  - intros j P HP r' (r0 & -> & Hr)%list_elem_of_fmap Hj.
    destruct (row_id r0 =? id)%Z; simpl in *; by apply HP.
Qed.

Lemma tracker_cancel_spec t reason :
  fault t = None -> forall r, r ∈ rows (tracker_cancel reason t).2 -> row_status r <> Pending.
Proof.
  intros Hf r. unfold tracker_cancel. rewrite Hf. simpl. intros (r0 & -> & _)%list_elem_of_fmap.
  by case_bool_decide.
Qed.
End Rows.

(** ** A run keeps the rows in step *)

Section Run.
Context {V : Type} (keys : list (Z * string)).
Context (Hids : NoDup (map fst keys)) (Hjobs : NoDup (map snd keys)).
Context (configs : gmap string (JobConfig V)) (cof : bool).
Context (Hcover : forall j, is_Some (configs !! j) -> j ∈ map snd keys).
Context (Hterm : forall j c ctx r, configs !! j = Some c ->
  t_execute_with_cancellation (jc_job c) ctx = Ok (Ok r) -> is_terminal (r_status r) = true).
Implicit Types (x : Exec V (DeploymentJobs V)).

(** What a finished job may show: a final status, and no failure when the job is required
    and failures stop the workflow. *)
Definition good (j : string) (s : JobStatus) : Prop :=
  is_terminal s = true /\
  forall c, configs !! j = Some c -> jc_required c = true -> cof = false -> s <> Failure.

Definition run_inv x : Prop :=
  (exists t, ex_tracker x = Some t /\ tracker_ok keys t) /\
  forall j, js_config <$> ex_states x !! j = configs !! j.

Definition settled x (j : string) : Prop :=
  forall t, ex_tracker x = Some t -> row_sat t j (good j).

(** A job whose row the executor holds the id of. *)
Definition started x (j : string) : Prop :=
  exists st id, ex_states x !! j = Some st /\ js_execution_id st = Some id /\ (id, j) ∈ keys.

(** Nothing but job [j] changed. *)
Definition only x x' (j : string) : Prop :=
  forall j', j' <> j -> (settled x j' -> settled x' j') /\ (started x j' -> started x' j').

Lemma touches_trans t1 t2 t3 j s s' :
  touches (V := V) keys t1 t2 j s -> touches keys t2 t3 j s' -> touches keys t1 t3 j s'.
Proof. intros (_ & _ & Hf) (? & ? & Hf'). split_and!; auto. Qed.

Lemma persist_touches (ctx : WorkflowContext V) (t : DeploymentJobs V) j s m :
  tracker_ok keys t -> j ∈ map snd keys ->
  exists t', persist_terminal_status ctx j s m (Some t) = Some t' /\ touches keys t t' j s.
Proof.
  intros Ht Hj. unfold persist_terminal_status. simpl.
  destruct (tracker_create_spec keys Hids Hjobs t j s Ht Hj) as (id & t1 & -> & Hid & H1).
  eexists. split; [done|]. eapply touches_trans; [done|].
  apply tracker_update_spec; [done..|apply H1|done].
Qed.

Lemma set_job_inv x j st st' t t' s :
  ex_tracker x = Some t -> touches keys t t' j s -> run_inv x -> ex_states x !! j = Some st ->
  js_config st' = js_config st ->
  run_inv (set_job j st' (Some t') x) /\ only x (set_job j st' (Some t') x) j.
Proof.
  intros Ht (Hok & _ & Hframe) [_ Hcfg] Hst Hst'. split.
  - split; [by exists t'|]. intros j'. simpl. destruct (decide (j = j')) as [->|Hne].
    + rewrite lookup_insert_eq. simpl. rewrite <- Hcfg, Hst. simpl. congruence.
    + by rewrite lookup_insert_ne.
  - intros j' Hne. split.
    + intros Hs u. simpl. intros [= <-]. by apply Hframe, Hs.
    + intros (st0 & id & Hst0 & Hid & Hk). exists st0, id. simpl. by rewrite lookup_insert_ne.
Qed.

Lemma spawn_job_spec x j r x' :
  run_inv x -> is_Some (configs !! j) -> spawn_job cof j x = (r, x') ->
  run_inv x' /\ only x x' j /\
  match r with
  | Err _ => True
  | Ok ts => (ts = [] /\ settled x' j) \/
             (exists c, configs !! j = Some c /\ ts = [(j, jc_job c)] /\ started x' j)
  end.
Proof.
  intros Hinv Hj. pose proof Hinv as [(t & Ht & Hok) Hcfg]. unfold spawn_job.
  pose proof (Hcover j Hj) as Hjk. specialize (Hcfg j) as Hcj.
  destruct (ex_states x !! j) as [st|] eqn:Hst; [|by rewrite <- Hcj in Hj; destruct Hj].
  simpl in Hcj. rewrite Ht.
  assert (only x x j) as Hrefl by (by intros j' _).
  destruct (t_should_skip _ _) as [[]|e]; [| |intros [= <- <-]; done].
  - destruct (persist_touches (ex_context x) t j Skipped None Hok Hjk) as (t' & Hp & Htch).
    rewrite Hp. intros [= <- <-].
    destruct (set_job_inv x j st (set_status Skipped st) t t' Skipped) as [Hi Ho]; [done..|].
    split_and!; [done..|]. left. split; [done|]. intros u [= <-] row Hrow Hrj.
    rewrite (proj1 (proj2 Htch) row Hrow Hrj). by split.
  - destruct (t_validate_prerequisites _ _) as [[]|e].
    + simpl. destruct (tracker_create_spec keys Hids Hjobs t j Running Hok Hjk) as (id & t' & -> & Hid & Htch).
      intros [= <- <-].
      destruct (set_job_inv x j st (set_execution_id id st) t t' Running) as [Hi Ho]; [done..|].
      split_and!; [done..|]. right. exists (js_config st). split_and!; [done..|].
      exists (set_execution_id id st), id. simpl. by rewrite lookup_insert_eq.
    + destruct (persist_touches (ex_context x) t j Failure
        (Some ("Prerequisites not met for job '" ++ j ++ "': " ++ error_text e)%string) Hok Hjk)
        as (t' & Hp & Htch). rewrite Hp.
      destruct (set_job_inv x j st (set_status Failure st) t t' Failure) as [Hi Ho]; [done..|].
      destruct (jc_required (js_config st) && negb cof) eqn:Hreq; intros [= <- <-]; [done|].
      split_and!; [done..|]. left. split; [done|]. intros u [= <-] row Hrow Hrj.
      rewrite (proj1 (proj2 Htch) row Hrow Hrj). split; [done|]. intros c Hc Hr Hcof.
      rewrite Hc in Hcj. injection Hcj as Hcj. rewrite Hcj, Hr, Hcof in Hreq. done.
Qed.

Lemma spawn_batch_spec batch x r x' :
  run_inv x -> NoDup batch -> (forall j, j ∈ batch -> is_Some (configs !! j)) ->
  spawn_batch cof batch x = (r, x') ->
  run_inv x' /\ (forall j, j ∉ batch -> (settled x j -> settled x' j) /\ (started x j -> started x' j)) /\
  match r with
  | Err _ => True
  | Ok ts => NoDup (map fst ts) /\
      (forall j job, (j, job) ∈ ts -> j ∈ batch /\ started x' j /\
         exists c, configs !! j = Some c /\ job = jc_job c) /\
      (forall j, j ∈ batch -> j ∉ map fst ts -> settled x' j)
  end.
Proof.
  revert x r x'. induction batch as [|j batch IH]; intros x r x' Hinv Hnd Hin; cbn [spawn_batch].
  { intros [= <- <-]. split; [done|]. split; [done|]. simpl. split; [constructor|].
    split; [by intros ? ? ?%elem_of_nil|by intros ? ?%elem_of_nil]. }
  inversion Hnd as [|? ? Hni Hnd']; subst.
  destruct (spawn_job cof j x) as [[ts1|e] x1] eqn:H1.
  - destruct (spawn_job_spec x j _ _ Hinv (Hin j (list_elem_of_here j batch)) H1) as (Hi1 & Ho1 & Hr1).
    destruct (spawn_batch cof batch x1) as [[ts2|e] x2] eqn:H2; intros [= <- <-];
      destruct (IH x1 _ _ Hi1 Hnd' (fun j' Hj' => Hin j' (list_elem_of_further j' j batch Hj')) H2)
        as (Hi2 & Ho2 & Hr2).
    + assert (forall j', j' ∉ j :: batch -> (settled x j' -> settled x2 j') /\ (started x j' -> started x2 j'))
        as Ho.
      { intros j' Hj'. rewrite not_elem_of_cons in Hj'. destruct Hj' as [Hne Hj'].
        destruct (Ho1 j' Hne), (Ho2 j' Hj'). split; auto. }
      destruct Hr2 as (Hnd2 & Hts2 & Hset2). split; [done|]. split; [done|].
      destruct Hr1 as [[-> Hs1]|(c & Hc & -> & Hst1)]; simpl.
      * split_and!; [done| |].
        { intros j' job Hjt. destruct (Hts2 j' job Hjt) as (? & ? & ?). split_and!; [by right|done..]. }
        intros j' [->|Hj']%elem_of_cons Hni'; [|by apply Hset2]. by apply (Ho2 j Hni).
      * split_and!.
        { constructor; [|done]. intros ((j' & job) & Heq & Hjt)%list_elem_of_fmap. simpl in Heq. subst j'.
          by apply Hni, (Hts2 _ _ Hjt). }
        { intros j' job [[= -> ->]|Hjt]%elem_of_cons.
          - split_and!; [left|by apply (Ho2 j Hni)|by exists c].
          - destruct (Hts2 j' job Hjt) as (? & ? & ?). split_and!; [by right|done..]. }
        intros j' [->|Hj']%elem_of_cons Hni'; [destruct Hni'; left|]. apply Hset2; [done|].
        intros Hx. apply Hni'. by right.
    + split; [done|]. split; [|done]. intros j' Hj'. rewrite not_elem_of_cons in Hj'.
      destruct Hj' as [Hne Hj']. destruct (Ho1 j' Hne), (Ho2 j' Hj'). split; auto.
  - intros [= <- <-]. destruct (spawn_job_spec x j _ _ Hinv (Hin j (list_elem_of_here j batch)) H1)
      as (Hi1 & Ho1 & _). split; [done|]. split; [|done].
    intros j' Hj'. rewrite not_elem_of_cons in Hj'. apply Ho1, Hj'.
Qed.

(** Running the tasks only adds cleanup calls. *)
Lemma run_tasks_spec ctx tasks x results x' :
  run_tasks ctx tasks x = (results, x') ->
  ex_states x' = ex_states x /\ ex_tracker x' = ex_tracker x /\ ex_context x' = ex_context x /\
  map fst results = map fst tasks /\
  forall j r, (j, Ok r) ∈ results -> exists job, (j, job) ∈ tasks /\
    (t_execute_with_cancellation job ctx = Ok (Ok r) \/ r_status r = Failure \/ r_status r = Cancelled).
Proof.
  revert x results x'. induction tasks as [|[j job] tasks IH]; intros x results x'; cbn [run_tasks].
  { intros [= <- <-]. split_and!; try done. by intros ? ? ?%elem_of_nil. }
  destruct (run_task ctx j job x) as [r1 x1] eqn:H1. destruct (run_tasks ctx tasks x1) as [rs x2] eqn:H2.
  intros [= <- <-]. destruct (IH _ _ _ H2) as (Hs & Ht & Hc & Hm & Hr).
  assert (ex_states x1 = ex_states x /\ ex_tracker x1 = ex_tracker x /\ ex_context x1 = ex_context x /\
    forall r, r1 = Ok r ->
      t_execute_with_cancellation job ctx = Ok (Ok r) \/ r_status r = Failure \/ r_status r = Cancelled)
    as (Hs1 & Ht1 & Hc1 & Hr1).
  { unfold run_task in H1. destruct (t_execute_with_cancellation job ctx) as [[jr|e]|p]; simplify_eq.
    - split_and!; [..|naive_solver]; destruct (r_status jr), (r_logs jr), (ex_tracker x) eqn:Hx;
        simpl; rewrite ?Hx; done.
    - split_and!; try done. intros r [= <-]. destruct (is_cancellation_error e); naive_solver.
    - naive_solver. }
  split_and!; [congruence..|simpl; congruence|].
  intros j' r [[= -> <-]|Hin]%elem_of_cons.
  - exists job. split; [left|by apply Hr1].
  - destruct (Hr j' r Hin) as (job' & ? & ?). exists job'. split; [by right|done].
Qed.

Lemma join_results_Ok (results : list (string * result string (JobResult V))) l :
  join_results results = Ok l -> map fst l = map fst results /\
  forall j r, (j, r) ∈ l -> (j, Ok r) ∈ results.
Proof.
  revert l. induction results as [|[j [r|p]] results IH]; intros l; cbn [join_results]; [| |done].
  { intros [= <-]. split; [done|]. by intros ? ? ?%elem_of_nil. }
  intros Hj. apply result_bind_Ok in Hj as (rs & Hrs & Hl). apply Ok_inj in Hl. subst l.
  destruct (IH rs Hrs) as [Hm Hin]. split; [simpl; congruence|].
  intros j' r' [[= -> ->]|Hx]%elem_of_cons; [left|right; by apply Hin].
Qed.

Lemma record_touches ctx t j id (r : JobResult V) :
  tracker_ok keys t -> (id, j) ∈ keys ->
  exists t', record_result ctx j (Some id) r (Some t) = Some t' /\ touches keys t t' j (r_status r).
Proof.
  intros Ht Hid. unfold record_result. simpl.
  set (m := match r_status r with Success => None | Failure => _ | _ => _ end).
  pose proof (tracker_update_spec keys Hids Hjobs t id j (r_status r) m Ht Hid) as (Ha & Hb & Hc).
  eexists. split; [done|].
  assert (forall o, touches keys t (tracker_save id o (tracker_update id (r_status r) m t).2).2 j
    (r_status r)) as Hsave.
  { intros o. destruct (tracker_save_spec keys _ id o Ha) as [Hok Hp]. split_and!; [done|by apply Hp|].
    intros j' P Hne HP. by apply Hp, Hc. }
  destruct (r_status r); try done. by destruct (outputs ctx !! j).
Qed.

(** A workflow that was left: its resources are cleaned up, and with an error no row is
    pending. *)
Definition cleaned_up (config : WorkflowConfig V) x : Prop :=
  forall c, c ∈ wc_jobs config -> t_cleanup_after_workflow (jc_job c) = true ->
  t_job_id (jc_job c) ∈ ex_cleaned x.

Definition none_pending x : Prop :=
  forall t row, ex_tracker x = Some t -> row ∈ rows t -> row_status row <> Pending.

Lemma cleanup_cleaned config x : cleaned_up config (cleanup_terminal_resources (wc_jobs config) x).
Proof.
  intros c Hc Hcl. simpl. apply elem_of_app. right. apply list_elem_of_fmap. exists c.
  split; [done|]. apply list_elem_of_In, filter_In. by rewrite <- list_elem_of_In.
Qed.

Lemma abort_none_pending config reason x : run_inv x -> none_pending (abort config reason x).
Proof.
  intros [(t & Ht & Hok) _] t' row. simpl. rewrite Ht. simpl. intros [= <-].
  apply tracker_cancel_spec, Hok.
Qed.

Lemma handle_result_spec config j r x res x' :
  wc_continue_on_failure config = cof -> run_inv x -> started x j -> is_terminal (r_status r) = true ->
  handle_result config j r x = (res, x') ->
  match res with
  | Ok _ => run_inv x' /\ only x x' j /\ settled x' j
  | Err _ => none_pending x' /\ cleaned_up config x'
  end.
Proof.
  intros Hcof Hinv (st & id & Hst & Hid & Hk) Hterm'. pose proof Hinv as [(t & Ht & Hok) Hcfg].
  unfold handle_result. rewrite Hst. cbv zeta. rewrite Hid, Ht.
  destruct (record_touches (merge_context (ex_context x) (r_context r)) t j id r Hok Hk)
    as (t' & -> & Htch).
  set (x1 := Build_Exec _ _ _ _).
  assert (run_inv x1) as Hi1.
  { split; [exists t'; split; [done|apply Htch]|]. intros j'. simpl.
    destruct (decide (j = j')) as [->|Hne]; [|by rewrite lookup_insert_ne].
    rewrite lookup_insert_eq. simpl. rewrite <- Hcfg, Hst. done. }
  destruct (_ && _ && _) eqn:Hfail; intros [<- <-]%pair_equal_spec.
  - split; [by apply abort_none_pending|apply cleanup_cleaned].
  - split_and!; [done| |].
    + intros j' Hne. split.
      * intros Hs u [= <-]. apply Htch; [done|]. by apply Hs.
      * intros (st0 & id0 & Hst0 & Hid0 & Hk0). exists st0, id0. simpl. by rewrite lookup_insert_ne.
    + intros u [= <-] row Hrow Hrj. rewrite (proj1 (proj2 Htch) row Hrow Hrj). split; [done|].
      intros c Hc Hreq Hc0 Hf. specialize (Hcfg j). rewrite Hst, Hc in Hcfg. injection Hcfg as Hcfg.
      by rewrite Hcfg, Hreq, Hf, Hcof, Hc0 in Hfail.
Qed.

Lemma handle_results_spec config results x res x' :
  wc_continue_on_failure config = cof -> run_inv x -> NoDup (map fst results) ->
  (forall j r, (j, r) ∈ results -> started x j /\ is_terminal (r_status r) = true) ->
  handle_results config results x = (res, x') ->
  match res with
  | Ok _ => run_inv x' /\ (forall j, j ∈ map fst results -> settled x' j) /\
            (forall j, j ∉ map fst results -> settled x j -> settled x' j)
  | Err _ => none_pending x' /\ cleaned_up config x'
  end.
Proof.
  intros Hcof. revert x res x'. induction results as [|[j r] results IH];
    intros x res x' Hinv Hnd Hall; cbn [handle_results].
  { intros [= <- <-]. split_and!; [done|by intros ? ?%elem_of_nil|done]. }
  simpl in Hnd. inversion Hnd as [|? ? Hni Hnd']; subst.
  destruct (Hall j r) as [Hst Hterm']; [left|].
  destruct (handle_result config j r x) as [r1 x1] eqn:H1.
  pose proof (handle_result_spec config j r x r1 x1 Hcof Hinv Hst Hterm' H1) as Hs1.
  destruct r1 as [u|e]; [|by intros [= <- <-]]. destruct Hs1 as (Hi1 & Ho1 & Hset1). intros H2.
  assert (forall j' r', (j', r') ∈ results -> started x1 j' /\ is_terminal (r_status r') = true) as Hall1.
  { intros j' r' Hin. destruct (Hall j' r') as [Hs Ht]; [by right|]. split; [|done].
    apply Ho1; [|done]. intros ->. apply Hni, list_elem_of_fmap. by exists (j, r'). }
  specialize (IH x1 res x' Hi1 Hnd' Hall1 H2). destruct res as [v|e]; [|done].
  destruct IH as (Hi & Hin & Hout). split_and!; [done|..]; simpl.
  - intros j' [->|Hj']%elem_of_cons; [|by apply Hin]. by apply Hout.
  - intros j'. rewrite not_elem_of_cons. intros [Hne Hj'] Hs. apply Hout; [done|]. by apply Ho1.
Qed.

Lemma batch_spec permits batch x :
  run_inv x -> NoDup batch -> permits <> O ->
  (forall j, j ∈ batch -> is_Some (configs !! j)) ->
  exists res x', execute_job_batch permits cof batch x = Ok (res, x') /\ run_inv x' /\
  match res with
  | Err _ => True
  | Ok results => NoDup (map fst results) /\
      (forall j r, (j, r) ∈ results -> started x' j /\ is_terminal (r_status r) = true) /\
      (forall j, j ∈ batch -> j ∈ map fst results \/ settled x' j) /\
      (forall j, j ∈ map fst results -> j ∈ batch) /\
      (forall j, j ∉ batch -> settled x j -> settled x' j)
  end.
Proof.
  intros Hinv Hnd Hperm Hin. unfold execute_job_batch.
  destruct (spawn_batch cof batch x) as [res x1] eqn:H1.
  destruct (spawn_batch_spec batch x res x1 Hinv Hnd Hin H1) as (Hi1 & Ho1 & Hr1).
  destruct res as [ts|e]; [|by exists (Err e), x1]. destruct Hr1 as (Hndt & Hts & Hset).
  destruct (run_tasks (ex_context x1) ts x1) as [rs x2] eqn:H2.
  destruct (run_tasks_spec _ _ _ _ _ H2) as (Hs & Ht & _ & Hm & Hr).
  assert (forall j, settled x1 j -> settled x2 j) as Hset12
    by (intros j Hj t; rewrite Ht; apply Hj).
  exists (join_results rs), x2. split; [destruct ts, permits; done|]. split.
  { destruct Hi1 as [Htr Hcf]. split; [by rewrite Ht|]. intros j. by rewrite Hs. }
  destruct (join_results rs) as [l|] eqn:Hj; [|done]. apply join_results_Ok in Hj as [Hml Hl].
  rewrite Hml, Hm. split_and!; [done|..].
  - intros j r Hjr. apply Hl, Hr in Hjr as (job & Hjt & Hcase).
    destruct (Hts j job Hjt) as (_ & Hst & c & Hc & ->). split.
    + destruct Hst as (st & id & ? & ? & ?). exists st, id. by rewrite Hs.
    + destruct Hcase as [He|[->| ->]]; [by eapply Hterm|done..].
  - intros j Hjb. destruct (decide (j ∈ map fst ts)); [by left|right]. by apply Hset12, Hset.
  - intros j ((j' & job) & -> & Hjt)%list_elem_of_fmap. by apply (Hts j' job).
  - intros j Hjb Hsj. by apply Hset12, Ho1.
Qed.

Lemma run_batches_spec config is_cancelled n batches x :
  wc_continue_on_failure config = cof -> wc_max_parallel_jobs config <> O -> run_inv x ->
  NoDup (concat batches) -> (forall j, j ∈ concat batches -> is_Some (configs !! j)) ->
  exists res x', run_batches config is_cancelled n batches x = Ok (res, x') /\ cleaned_up config x' /\
  match res with
  | Err _ => none_pending x'
  | Ok _ => forall j, j ∈ concat batches \/ settled x j -> settled x' j
  end.
Proof.
  intros Hcof Hperm. revert n x. induction batches as [|batch batches IH]; intros n x Hinv Hnd Hin; cbn [run_batches].
  { do 2 eexists. split; [done|]. split; [apply cleanup_cleaned|]. simpl.
    intros j [[]%elem_of_nil|Hs] t. simpl. apply Hs. }
  destruct (is_cancelled n) as [[]|e].
  - do 2 eexists. split; [done|]. split; [apply cleanup_cleaned|by apply abort_none_pending].
  - simpl in Hnd. apply list.NoDup_app in Hnd as (Hnd1 & Hdis & Hnd2).
    destruct (batch_spec (wc_max_parallel_jobs config) batch x Hinv Hnd1 Hperm)
      as (res & x1 & Heq & Hi1 & Hres).
    { intros j Hj. apply Hin. simpl. apply elem_of_app. by left. }
    rewrite Hcof, Heq. cbn [result_bind]. destruct res as [results|e].
    + destruct Hres as (Hndr & Hall & Hcov & Hsub & Hout).
      destruct (handle_results config results x1) as [r2 x2] eqn:H2.
      pose proof (handle_results_spec config results x1 r2 x2 Hcof Hi1 Hndr Hall H2) as Hh.
      destruct r2 as [u|e]; [|do 2 eexists; split; [done|]; by destruct Hh].
      destruct Hh as (Hi2 & Hin2 & Hout2).
      destruct (IH (S n) x2 Hi2 Hnd2) as (res & x' & -> & Hcl & Hfin).
      { intros j Hj. apply Hin. simpl. apply elem_of_app. by right. }
      exists res, x'. split_and!; [done..|]. destruct res as [v|e]; [|done].
      intros j Hj. apply Hfin. simpl in Hj. rewrite elem_of_app in Hj.
      destruct (decide (j ∈ concat batches)) as [|Hnj]; [by left|right].
      destruct (decide (j ∈ map fst results)) as [Hjr|Hjr]; [by apply Hin2|]. apply Hout2; [done|].
      destruct (decide (j ∈ batch)) as [Hjb|Hjb]; [by destruct (Hcov j Hjb)|].
      apply Hout; [done|]. by destruct Hj as [[?|?]|?].
    + do 2 eexists. split; [done|]. split; [apply cleanup_cleaned|by apply abort_none_pending].
  - do 2 eexists. split; [done|]. split; [apply cleanup_cleaned|by apply abort_none_pending].
Qed.
End Run.

(** ** The whole workflow *)

Lemma plan_spec {V} keys1 keys2 keys3 (jobs : list (JobConfig V)) :
  iterates (first_pass jobs) keys1 -> iterates (first_pass jobs) keys2 ->
  iterates (first_pass jobs) keys3 ->
  exists p, plan keys1 keys2 keys3 jobs = Ok p /\
  match p with
  | Err _ => True
  | Ok (states, order) => build_job_dependency_graph keys1 jobs = Ok states /\ NoDup (concat order) /\
      forall j, j ∈ concat order <-> is_Some (states !! j)
  end.
Proof.
  intros H1 H2 H3. unfold plan. destruct (build_job_dependency_graph keys1 jobs) as [states|e] eqn:Hb;
    [|by exists (Err e)].
  destruct (build_graph keys1 jobs states H1 Hb) as (Hcl & Hdual & Hit). apply Hit in H2, H3.
  destruct (validate_spec keys2 states Hcl H2) as [[-> Hac]|[[m ->] Hac]]; cbn [result_bind];
    [|by eexists].
  destruct (execution_order_spec keys3 states Hcl Hdual H3) as (order & -> & Hlen & Hnd & _ & Hall).
  apply Hlen in Hac as Hsz. rewrite Hsz, Nat.eqb_refl. cbn [result_bind]. eexists. split; [done|].
  split_and!; [done..|]. by apply Hall.
Qed.

Lemma first_pass_lookup {V} (jobs : list (JobConfig V)) c :
  NoDup (map (fun c => t_job_id (jc_job c)) jobs) -> c ∈ jobs ->
  first_pass jobs !! t_job_id (jc_job c) = Some (new_state c).
Proof.
  unfold first_pass. induction jobs as [|c' jobs IH] using rev_ind; [by intros _ ?%elem_of_nil|].
  rewrite map_app, fold_left_app. simpl. intros (Hnd & Hdis & _)%list.NoDup_app.
  intros [Hc| ->%list_elem_of_singleton]%elem_of_app; [|apply lookup_insert_eq].
  rewrite lookup_insert_ne; [by apply IH|]. intros Heq.
  apply (Hdis (t_job_id (jc_job c))); [apply list_elem_of_fmap; eauto|].
  apply list_elem_of_singleton. done.
Qed.


(** ** Concrete runs *)

Definition task (id : string) (dependencies : list string) (ends : WorkflowContext nat -> TaskEnd nat)
    : WorkflowTask nat := {|
  t_job_id := id; t_name := id; t_depends_on := dependencies; t_should_skip := fun _ => Ok false;
  t_validate_prerequisites := fun _ => Ok (); t_execute_with_cancellation := ends;
  t_cleanup_after_workflow := true |}.

Definition job (required : bool) (t : WorkflowTask nat) : JobConfig nat :=
  {| jc_job := t; jc_required := required; jc_condition := None; jc_dependencies_override := None |}.

Definition pending_row (id : Z) (j : string) : JobRow nat := {|
  row_id := id; row_job_id := j; row_status := Pending; row_error_message := None; row_outputs := None;
  row_started := false; row_finished := false |}.

Definition two_jobs (a b : JobConfig nat) : WorkflowConfig nat := {|
  wc_workflow_run_id := "run"; wc_deployment_id := 1; wc_project_id := 2; wc_environment_id := 3;
  wc_initial_context := ∅; wc_jobs := [a; b]; wc_continue_on_failure := false;
  wc_max_parallel_jobs := 3 |}.

Definition two_rows : DeploymentJobs nat :=
  {| rows := [pending_row 1 "a"; pending_row 2 "b"]; fault := None |}.

(** The outcome of a run of two jobs, and the statuses of their rows. *)
Definition run_two (config : WorkflowConfig nat) : option (result WorkflowError unit * list JobStatus) :=
  match execute_workflow ["a"; "b"] ["a"; "b"] ["a"; "b"] config (fun _ => Ok false) (Some two_rows) with
  | Ok (res, x) =>
      Some (match res with Ok _ => Ok () | Err e => Err e end,
            match ex_tracker x with Some t => map row_status (rows t) | None => [] end)
  | Err _ => None
  end.

Definition succeeds (c : WorkflowContext nat) : TaskEnd nat := Ok (Ok (success c)).
Definition fails (c : WorkflowContext nat) : TaskEnd nat := Ok (Err (JobExecutionFailed "boom")).

(** A job that ran beside a failed required job keeps its row at running: the
    executor stops at the first failed result of a batch and never records the results
    behind it, although the job has ended. *)
Theorem sibling_stays_running :
  run_two (two_jobs (job true (task "a" [] fails)) (job true (task "b" [] succeeds)))
  = Some (Err (required_job_failed "a" (Some "boom")), [Failure; Running]).
Proof. vm_compute. reflexivity. Qed.

(** A job runs although the optional job it depends on has failed. *)
Lemma dependent_of_failed_runs :
  run_two (two_jobs (job false (task "a" [] fails)) (job true (task "b" ["a"] succeeds)))
  = Some (Ok (), [Failure; Success]).
Proof. vm_compute. reflexivity. Qed.

(** A workflow whose last required job was cancelled succeeds. *)
Lemma cancelled_required_job_succeeds :
  run_two (two_jobs (job true (task "a" [] succeeds))
    (job true (task "b" ["a"] (default_execute_with_cancellation "b" succeeds (Ok false) (Ok true)))))
  = Some (Ok (), [Success; Cancelled]).
Proof. vm_compute. reflexivity. Qed.

Definition fine : WorkflowConfig nat :=
  two_jobs (job true (task "a" [] succeeds)) (job true (task "b" ["a"] succeeds)).

