(* ===== verification/IpText.v ===== *)
(** * Addresses and their texts, as the standard library reads them

    [std::net::IpAddr] as 32 and 128 bit numbers, [IpAddr::from_str] (the parser of
    [core::net::parser]) and [str::trim].  A string is the list of its characters.  The
    theorem is that the dotted form of an IPv4 address reads as that address. *)

From S2P Require Import Prelude Bytes.
Local Open Scope Z_scope.

Inductive IpAddr := V4 (address : Z) | V6 (address : Z).

#[export] Instance ip_addr_eq_dec : EqDecision IpAddr.
Proof. solve_decision. Defined.

#[export] Instance ip_addr_countable : Countable IpAddr.
Proof.
  refine (inj_countable' (fun a => match a with V4 x => inl x | V6 x => inr x end)
    (fun s => match s with inl x => V4 x | inr x => V6 x end) _).
  by intros [].
Defined.

(** ** [str::trim] *)

(** [char::is_whitespace]: the property White_Space. *)
Definition is_whitespace (c : Z) : bool :=
  ((9 <=? c) && (c <=? 13)) || (c =? 0x20) || (c =? 0x85) || (c =? 0xA0) || (c =? 0x1680)
  || ((0x2000 <=? c) && (c <=? 0x200A)) || (c =? 0x2028) || (c =? 0x2029) || (c =? 0x202F)
  || (c =? 0x205F) || (c =? 0x3000).

Fixpoint trim_start (s : list Z) : list Z :=
  match s with
  | c :: s' => if is_whitespace c then trim_start s' else s
  | [] => []
  end.

Definition trim (s : list Z) : list Z := rev (trim_start (rev (trim_start s))).

(** ** The parser of addresses *)

(** A reader consumes a prefix of the characters or fails and consumes nothing. *)
Definition reader (A : Type) : Type := list Z -> option (A * list Z).

Definition read_given_char (c : Z) : reader unit := fun s =>
  match s with
  | x :: s' => if x =? c then Some ((), s') else None
  | [] => None
  end.

(** [char::to_digit]. *)
Definition to_digit (radix c : Z) : option Z :=
  let d := if (48 <=? c) && (c <=? 57) then c - 48
           else if (97 <=? c) && (c <=? 122) then c - 87
           else if (65 <=? c) && (c <=? 90) then c - 55
           else radix in
  if d <? radix then Some d else None.

(** The digits at the head of [s] as a number, with how many there were; [None] when there are
    more than [max_digits]. *)
Fixpoint read_digits (radix : Z) (max_digits digit_count : nat) (result : Z) (s : list Z)
    : option (Z * nat * list Z) :=
  match s with
  | c :: s' =>
      match to_digit radix c with
      | Some d =>
          if (max_digits <? S digit_count)%nat then None
          else read_digits radix max_digits (S digit_count) (result * radix + d) s'
      | None => Some (result, digit_count, s)
      end
  | [] => Some (result, digit_count, s)
  end.

(** [read_number]; the number must stay below [bound]. *)
Definition read_number (radix : Z) (max_digits : nat) (allow_zero_prefix : bool) (bound : Z) : reader Z :=
  fun s =>
    '(n, digit_count, rest) ← read_digits radix max_digits 0 0 s;
    if negb (n <? bound) then None
    else if (digit_count =? 0)%nat then None
    else if negb allow_zero_prefix && match s with 48 :: _ => true | _ => false end
            && (1 <? digit_count)%nat then None
    else Some (n, rest).

(** [read_separator]: the separator stands before every group but the first. *)
Definition read_separator {A} (sep : Z) (index : nat) (inner : reader A) : reader A := fun s =>
  if (0 <? index)%nat then '(_, s') ← read_given_char sep s; inner s' else inner s.

Definition read_octet (index : nat) : reader Z :=
  read_separator 46 index (read_number 10 3 false 256).

Definition read_ipv4_addr : reader Z := fun s =>
  '(a, s) ← read_octet 0 s;
  '(b, s) ← read_octet 1 s;
  '(c, s) ← read_octet 2 s;
  '(d, s) ← read_octet 3 s;
  Some (a * 2 ^ 24 + b * 2 ^ 16 + c * 2 ^ 8 + d, s).

(** [read_groups]: up to [left] groups from index [i] on; an embedded IPv4 address ends them and
    needs two of them. *)
Fixpoint read_groups (left i : nat) (s : list Z) : list Z * bool * list Z :=
  match left with
  | O => ([], false, s)
  | S left' =>
      match (if (0 <? left')%nat then read_separator 58 i read_ipv4_addr s else None) with
      | Some (v4, s') => ([v4 / 2 ^ 16; v4 mod 2 ^ 16], true, s')
      | None =>
          match read_separator 58 i (read_number 16 4 true (2 ^ 16)) s with
          | Some (g, s') =>
              let '(gs, v4, rest) := read_groups left' (S i) s' in (g :: gs, v4, rest)
          | None => ([], false, s)
          end
      end
  end.

(** The 128 bits of eight groups. *)
Definition of_groups (groups : list Z) : Z := fold_left (fun n g => n * 2 ^ 16 + g) groups 0.

Definition read_ipv6_addr : reader Z := fun s =>
  let '(head, head_ipv4, s) := read_groups 8 0 s in
  if (length head =? 8)%nat then Some (of_groups head, s)
  else if head_ipv4 then None
  else
    '(_, s) ← read_given_char 58 s;
    '(_, s) ← read_given_char 58 s;
    let '(tail, _, s) := read_groups (8 - (length head + 1)) 0 s in
    Some (of_groups (head ++ replicate (8 - length head - length tail) 0 ++ tail), s).

(** [IpAddr::from_str]: the whole string must be an address. *)
Definition ip_from_str (s : list Z) : option IpAddr :=
  '(ip, rest) ← match read_ipv4_addr s with
                | Some (a, rest) => Some (V4 a, rest)
                | None => '(a, rest) ← read_ipv6_addr s; Some (V6 a, rest)
                end;
  match rest with [] => Some ip | _ => None end.

(** [Ipv6Addr::to_ipv4_mapped]: [::ffff:0:0/96]. *)
Definition to_ipv4_mapped (a : Z) : option Z :=
  if Z.shiftr a 32 =? 0xFFFF then Some (Z.land a (Z.ones 32)) else None.

(** ** Examples *)

Example from_str_examples :
  map (fun s => ip_from_str (chars s))
    ["10.0.0.1"; "010.0.0.1"; "256.0.0.1"; "1.2.3"; "1.2.3.4.5"; "::1"; "::ffff:10.0.0.1";
     "1:2:3:4:5:6:7:8"; "1:2:3:4:5:6:7::"; "1::2::3"; "fe80::1%1"; "12345::"; "1.2.3.4::"]%string =
  [Some (V4 0x0A000001); None; None; None; None; Some (V6 1); Some (V6 0xFFFF0A000001);
   Some (V6 0x00010002000300040005000600070008); Some (V6 0x00010002000300040005000600070000);
   None; None; None; None].
Proof. vm_compute. reflexivity. Qed.

(** ** The dotted form *)

(** [lia] with quotients and remainders. *)
Ltac div_lia := Z.to_euclidean_division_equations; lia.

(** The decimal digits of an octet, and the four octets of an address. *)
Definition octet_digits (n : Z) : list Z :=
  if n <? 10 then [48 + n]
  else if n <? 100 then [48 + n / 10; 48 + n mod 10]
  else [48 + n / 100; 48 + n / 10 mod 10; 48 + n mod 10].

Definition dotted (a : Z) : list Z :=
  octet_digits (a / 2 ^ 24) ++ [46] ++ octet_digits (a / 2 ^ 16 mod 256) ++ [46]
  ++ octet_digits (a / 2 ^ 8 mod 256) ++ [46] ++ octet_digits (a mod 256).

Lemma to_digit_10 k : 0 <= k < 10 -> to_digit 10 (48 + k) = Some k.
Proof.
  intros Hk. unfold to_digit. destruct (Z.leb_spec 48 (48 + k)); [|lia].
  destruct (Z.leb_spec (48 + k) 57); [|lia]. simpl. destruct (Z.ltb_spec (48 + k - 48) 10); [|lia].
  f_equal. lia.
Qed.

(** No digit stands at the head of [s]. *)
Definition no_digit (s : list Z) : Prop :=
  match s with c :: _ => to_digit 10 c = None | [] => True end.

Lemma read_digits_stop k n s : no_digit s -> read_digits 10 3 k n s = Some (n, k, s).
Proof. destruct s as [|c s]; simpl; [done|]. by intros ->. Qed.

Lemma head_zero k s : 0 < k < 10 -> match (48 + k) :: s with 48 :: _ => true | _ => false end = false.
Proof. intros Hk. assert (k ∈ seqZ 1 9) as Hin by (apply elem_of_seqZ; lia). by vm_compute in Hin; set_unfold; naive_solver. Qed.

Lemma read_number_octet n s :
  0 <= n < 256 -> no_digit s -> read_number 10 3 false 256 (octet_digits n ++ s) = Some (n, s).
Proof.
  intros Hn Hs. unfold octet_digits, read_number.
  destruct (Z.ltb_spec n 10); [|destruct (Z.ltb_spec n 100)]; cbn [app read_digits];
    rewrite ?to_digit_10 by div_lia; cbn [Nat.ltb Nat.leb]; rewrite ?read_digits_stop by done;
    cbn [mbind option_bind].
  - destruct (Z.ltb_spec (0 * 10 + n) 256); [|lia]. cbn. rewrite andb_false_r. repeat f_equal; lia.
  - assert (0 < n / 10 < 10) by div_lia. rewrite head_zero by done.
    destruct (Z.ltb_spec ((0 * 10 + n / 10) * 10 + n mod 10) 256); [|div_lia]. cbn. repeat f_equal; div_lia.
  - assert (0 < n / 100 < 10) by div_lia. rewrite head_zero by done.
    destruct (Z.ltb_spec (((0 * 10 + n / 100) * 10 + n / 10 mod 10) * 10 + n mod 10) 256); [|div_lia].
    cbn. repeat f_equal; div_lia.
Qed.

Lemma read_octet_at i n s :
  0 <= n < 256 -> no_digit s ->
  read_octet i ((if (0 <? i)%nat then [46] else []) ++ octet_digits n ++ s) = Some (n, s).
Proof.
  intros Hn Hs. unfold read_octet, read_separator. destruct (0 <? i)%nat; cbn [app read_given_char mbind option_bind];
    by apply read_number_octet.
Qed.

Lemma ip_from_str_dotted a : 0 <= a < 2 ^ 32 -> ip_from_str (dotted a) = Some (V4 a).
Proof.
  intros Ha. unfold ip_from_str, dotted, read_ipv4_addr.
  pose proof (read_octet_at 0 (a / 2 ^ 24)) as R0. pose proof (read_octet_at 1 (a / 2 ^ 16 mod 256)) as R1.
  pose proof (read_octet_at 2 (a / 2 ^ 8 mod 256)) as R2. pose proof (read_octet_at 3 (a mod 256) []) as R3.
  cbn [Nat.ltb Nat.leb app] in *. rewrite R0; [|div_lia|done]. cbn [mbind option_bind].
  rewrite R1; [|div_lia|done]. cbn [mbind option_bind]. rewrite R2; [|div_lia|done]. cbn [mbind option_bind].
  rewrite app_nil_r in R3. rewrite R3; [|div_lia|done]. cbn [mbind option_bind]. do 2 f_equal. div_lia.
Qed.
