(* ===== verification/NetAlloc.v ===== *)
(** * The overlay network allocator

    [crates/temps-network/src/allocator.rs] with [cidrs_overlap] of [config.rs]: the pool
    of the cluster, the subnet of each worker node, and the reservation of the control
    plane with the generation that fences stale setups.

    A transaction is one step: the configuration row is locked by every operation that
    picks a subnet.  The crates [ipnet] and [uuid] and the texts of addresses are
    interfaces ([Ipnet], [AddrText]); addresses are 32 and 128 bit numbers. *)

From S2P Require Import Prelude IpText.
Local Open Scope Z_scope.

(** ** Addresses and networks *)

(** An address and the length of its prefix. *)
Record Ipv4Net := { net_addr : Z; net_prefix : Z }.

#[export] Instance ipv4net_eq_dec : EqDecision Ipv4Net.
Proof. solve_decision. Defined.

Definition net_valid (n : Ipv4Net) : Prop :=
  0 <= net_addr n < 2 ^ 32 /\ 0 <= net_prefix n <= 32.

(** The addresses of a network of the given prefix. *)
Definition net_size (prefix : Z) : Z := 2 ^ (32 - prefix).

(** [ipnet::Ipv4Net]: reading and writing, first and last address, membership, and the
    subnets of a longer prefix in ascending order. *)
Class Ipnet := {
  net_parse : string -> result string Ipv4Net;
  net_show : Ipv4Net -> string;
  network : Ipv4Net -> Z;
  broadcast : Ipv4Net -> Z;
  net_contains : Ipv4Net -> Z -> bool;
  subnets : Ipv4Net -> Z -> option (list Ipv4Net);
  net_new : Z -> Z -> option Ipv4Net
}.

Class IpnetLaws (I : Ipnet) := {
  net_parse_show n : net_valid n -> net_parse (net_show n) = Ok n;
  net_parse_valid s n : net_parse s = Ok n -> net_valid n;
  network_law n : net_valid n -> network n = net_addr n / net_size (net_prefix n) * net_size (net_prefix n);
  broadcast_law n : net_valid n -> broadcast n = network n + net_size (net_prefix n) - 1;
  contains_law n ip : net_valid n -> net_contains n ip = (network n <=? ip) && (ip <=? broadcast n);
  subnets_law n p : net_valid n -> net_prefix n <= p <= 32 ->
    subnets n p = Some (map (fun i => {| net_addr := network n + i * net_size p; net_prefix := p |})
                         (seqZ 0 (2 ^ (p - net_prefix n))));
  net_new_law a p : 0 <= p <= 32 -> net_new a p = Some {| net_addr := a; net_prefix := p |}
}.

(** The text of an address. *)
Class AddrText := {
  addr_parse : string -> result string IpAddr;
  addr_show : IpAddr -> string
}.

(** ** State *)

(** The singleton row of [network_config]. *)
Record NetworkConfigRow := {
  nc_compute_pool_cidr : string;
  nc_subnet_prefix_len : Z;
  nc_control_plane_compute_cidr : option string;
  nc_control_plane_underlay_address : option string;
  nc_control_plane_overlay_ready : bool;
  nc_control_plane_setup_generation : Z
}.

Record NodeRow := { nd_id : Z; nd_compute_cidr : option string; nd_underlay_address : option string }.

Record NetDb := { db_config : option NetworkConfigRow; db_nodes : list NodeRow; db_answers : bool }.

Inductive ConfigFault :=
  | RowMissing
  | PoolText (error : string)
  | PrefixOutOfRange (prefix : Z)
  | PrefixTooShort (prefix pool_prefix : Z)
  | TooManySubnets (pool : Ipv4Net) (prefix : Z)
  | NotPrivate (pool : Ipv4Net)
  | GenerationExhausted.

Inductive AllocatorError :=
  | NodeNotFound (node_id : Z)
  | PoolExhausted (pool : Ipv4Net) (prefix_len : Z) (used_count : nat)
  | InvalidConfig (reason : ConfigFault)
  | PoolChangeAfterAllocation (current_pool : Ipv4Net) (current_prefix : Z)
      (requested_pool : Ipv4Net) (requested_prefix : Z) (allocation_count : nat)
  | SupersededControlPlaneSetup (compute_cidr : Ipv4Net) (underlay : IpAddr)
  | ReadyControlPlaneRelease (compute_cidr : Ipv4Net) (underlay : IpAddr)
  | UnderlayOverlapsComputePool (address : IpAddr) (pool : Ipv4Net)
  | AlreadyAllocated (node_id : Z) (existing : Ipv4Net)
  | UnderlayMissing (node_id : Z)
  | UnderlayInvalid (node_id : Z) (raw reason : string)
  | PublicUnderlayAddress (node_id : Z) (address : IpAddr)
  | ComputeCidrInvalid (node_id : Z) (raw reason : string)
  | DatabaseError.

Record ClusterNetworkConfig := { compute_pool_cidr : Ipv4Net; subnet_prefix_len : Z }.

#[export] Instance cluster_config_eq_dec : EqDecision ClusterNetworkConfig.
Proof. solve_decision. Defined.

Record NodeAllocPersisted := {
  na_node_id : Z;
  na_external_id : Z;
  na_compute_cidr : Ipv4Net;
  na_bridge_address : IpAddr;
  na_underlay_address : IpAddr
}.

Record ControlPlaneReservation := {
  res_alloc : NodeAllocPersisted;
  res_was_ready : bool;
  res_cluster_config : ClusterNetworkConfig;
  res_setup_generation : Z
}.

Record Peer := { peer_node_id : Z; peer_compute_cidr : Ipv4Net; peer_underlay_address : IpAddr }.

Definition CONTROL_PLANE_NODE_UUID : Z := 0x74656d70732d63702d6f7665726c6179.

Section Allocator.
Context `{Ipnet} `{AddrText} (node_uuid : Z -> Z).

(** ** Validation *)

(** [Ipv4Addr::is_private], [is_link_local] and their IPv6 counterparts. *)
Definition is_private_v4 (a : Z) : bool :=
  (Z.shiftr a 24 =? 10) || (Z.shiftr a 20 =? 0xAC1) || (Z.shiftr a 16 =? 0xC0A8).

Definition is_private_underlay (a : IpAddr) : bool :=
  match a with
  | V4 a => is_private_v4 a || (Z.shiftr a 16 =? 0xA9FE)
  | V6 a => (Z.shiftr a 121 =? 0x7E) || (Z.shiftr a 118 =? 0x3FA)
  end.

Definition validate_private_underlay (node_id : Z) (a : IpAddr) : result AllocatorError unit :=
  if is_private_underlay a then Ok () else Err (PublicUnderlayAddress node_id a).

Definition validate_subnet_prefix (pool : Ipv4Net) (p : Z) : result AllocatorError unit :=
  if (p <=? net_prefix pool) || (30 <? p) then Err (InvalidConfig (PrefixTooShort p (net_prefix pool)))
  else if 20 <? p - net_prefix pool then Err (InvalidConfig (TooManySubnets pool p))
  else Ok ().

Definition validate_underlay_outside_pool (a : IpAddr) (pool : Ipv4Net) : result AllocatorError unit :=
  match a with
  | V4 ip => if net_contains pool ip then Err (UnderlayOverlapsComputePool a pool) else Ok ()
  | V6 _ => Ok ()
  end.

Definition validate_pool (pool : Ipv4Net) (p : Z) : result AllocatorError unit :=
  if negb (is_private_v4 (network pool)) || negb (is_private_v4 (broadcast pool))
  then Err (InvalidConfig (NotPrivate pool))
  else validate_subnet_prefix pool p.

Definition map_err {E E' A} (f : E -> E') (r : result E A) : result E' A :=
  match r with Ok a => Ok a | Err e => Err (f e) end.

(** [u8::try_from] of the prefix column. *)
Definition prefix_of (cfg : NetworkConfigRow) : result AllocatorError Z :=
  let p := nc_subnet_prefix_len cfg in
  if (0 <=? p) && (p <=? 255) then Ok p else Err (InvalidConfig (PrefixOutOfRange p)).

Definition pool_of (cfg : NetworkConfigRow) : result AllocatorError Ipv4Net :=
  map_err (fun e => InvalidConfig (PoolText e)) (net_parse (nc_compute_pool_cidr cfg)).

Definition cluster_config_from_model (cfg : NetworkConfigRow) : result AllocatorError ClusterNetworkConfig :=
  let? pool := pool_of cfg in
  let? p := prefix_of cfg in
  let? _ := validate_pool pool p in
  Ok {| compute_pool_cidr := pool; subnet_prefix_len := p |}.

(** ** Choosing a subnet *)

Definition cidrs_overlap (a b : Ipv4Net) : bool :=
  net_contains a (network b) || net_contains b (network a).

Definition bridge_address_for (cidr : Ipv4Net) : IpAddr := V4 (Z.min (network cidr + 1) (2 ^ 32 - 1)).

Definition is_free (used : list Ipv4Net) (candidate : Ipv4Net) : bool :=
  negb (existsb (fun u => cidrs_overlap u candidate) used).

Definition pick_free_subnet (pool : Ipv4Net) (p : Z) (used : list Ipv4Net) : option Ipv4Net :=
  match subnets pool p with
  | None => None
  | Some candidates => List.find (is_free used) candidates
  end.

(** [checked_shl], [checked_sub] and a conversion, [None] where they fail. *)
Definition checked_shl (k : Z) : option Z := if k <? 64 then Some (2 ^ k) else None.
Definition checked_sub (a b : Z) : option Z := if b <=? a then Some (a - b) else None.
Definition checked (bound v : Z) : option Z := if v <? bound then Some v else None.

Fixpoint highest_loop (pool_start subnet_size p : Z) (used : list Ipv4Net) (indices : list Z)
    : option Ipv4Net :=
  match indices with
  | [] => None
  | index :: indices =>
      offset ← checked (2 ^ 64) (index * subnet_size);
      address ← checked (2 ^ 64) (pool_start + offset);
      address ← checked (2 ^ 32) address;
      candidate ← net_new address p;
      if is_free used candidate then Some candidate
      else highest_loop pool_start subnet_size p used indices
  end.

Definition pick_highest_free_subnet (pool : Ipv4Net) (p : Z) (used : list Ipv4Net) : option Ipv4Net :=
  bits ← checked_sub p (net_prefix pool);
  subnet_count ← checked_shl bits;
  host ← checked_sub 32 p;
  subnet_size ← checked_shl host;
  highest_loop (network pool) subnet_size p used (reverse (seqZ 0 subnet_count)).

(** ** Queries *)

Definition query {A} (db : NetDb) (a : A) : result AllocatorError A :=
  if db_answers db then Ok a else Err DatabaseError.

Definition load_config (db : NetDb) : result AllocatorError NetworkConfigRow :=
  let? row := query db (db_config db) in
  ok_or (InvalidConfig RowMissing) row.

Definition parse_used (raws : list string) : result AllocatorError (list Ipv4Net) :=
  result_fold (fun used raw =>
      let? c := map_err (fun e => ComputeCidrInvalid 0 raw e) (net_parse raw) in Ok (used ++ [c])) raws [].

Definition next_generation (cfg : NetworkConfigRow) : result AllocatorError Z :=
  let g := nc_control_plane_setup_generation cfg + 1 in
  if g <? 2 ^ 63 then Ok g else Err (InvalidConfig GenerationExhausted).

Definition set_config (db : NetDb) (cfg : NetworkConfigRow) : NetDb :=
  {| db_config := Some cfg; db_nodes := db_nodes db; db_answers := db_answers db |}.

Definition set_node_cidr (db : NetDb) (node_id : Z) (cidr : option string) : NetDb := {|
  db_config := db_config db;
  db_nodes := map (fun n => if nd_id n =? node_id then
                     {| nd_id := nd_id n; nd_compute_cidr := cidr; nd_underlay_address := nd_underlay_address n |}
                   else n) (db_nodes db);
  db_answers := db_answers db |}.

(** A transaction that ends with an error writes nothing. *)
Definition commit {A} (db : NetDb) (outcome : result AllocatorError (A * NetDb))
    : result AllocatorError A * NetDb :=
  match outcome with Ok (a, db') => (Ok a, db') | Err e => (Err e, db) end.

(** ** Operations *)

Definition cluster_config (db : NetDb) : result AllocatorError ClusterNetworkConfig :=
  let? cfg := load_config db in cluster_config_from_model cfg.

Definition configure_pool (requested_pool : Ipv4Net) (requested_prefix : Z) (db : NetDb)
    : result AllocatorError ClusterNetworkConfig * NetDb :=
  commit db (
    let? _ := validate_pool requested_pool requested_prefix in
    let? cfg := load_config db in
    let? current := cluster_config_from_model cfg in
    let requested := {| compute_pool_cidr := requested_pool; subnet_prefix_len := requested_prefix |} in
    if bool_decide (current = requested) then Ok (current, db)
    else
      let worker_allocations := length (omap nd_compute_cidr (db_nodes db)) in
      let control_plane_allocations :=
        match nc_control_plane_compute_cidr cfg with Some _ => 1%nat | None => 0%nat end in
      let allocation_count := (worker_allocations + control_plane_allocations)%nat in
      if (0 <? allocation_count)%nat
      then Err (PoolChangeAfterAllocation (compute_pool_cidr current) (subnet_prefix_len current)
                  requested_pool requested_prefix allocation_count)
      else
        let? g := next_generation cfg in
        Ok (requested, set_config db {|
          nc_compute_pool_cidr := net_show requested_pool; nc_subnet_prefix_len := requested_prefix;
          nc_control_plane_compute_cidr := None; nc_control_plane_underlay_address := None;
          nc_control_plane_overlay_ready := false; nc_control_plane_setup_generation := g |})).

Definition ensure_control_plane_reservation (underlay : IpAddr) (db : NetDb)
    : result AllocatorError ControlPlaneReservation * NetDb :=
  commit db (
    let? cfg := load_config db in
    let? pool := pool_of cfg in
    let? p := prefix_of cfg in
    let? _ := validate_subnet_prefix pool p in
    let? _ := validate_underlay_outside_pool underlay pool in
    let was_ready := nc_control_plane_overlay_ready cfg in
    let? cidr :=
      match nc_control_plane_compute_cidr cfg with
      | Some raw => map_err (fun e => ComputeCidrInvalid 0 raw e) (net_parse raw)
      | None =>
          let? used := parse_used (omap nd_compute_cidr (db_nodes db)) in
          ok_or (PoolExhausted pool p (length used)) (pick_highest_free_subnet pool p used)
      end in
    let unchanged := bool_decide (nc_control_plane_compute_cidr cfg = Some (net_show cidr)) &&
                     bool_decide (nc_control_plane_underlay_address cfg = Some (addr_show underlay)) in
    let? g := next_generation cfg in
    Ok ({| res_alloc := {| na_node_id := 0; na_external_id := CONTROL_PLANE_NODE_UUID;
                           na_compute_cidr := cidr; na_bridge_address := bridge_address_for cidr;
                           na_underlay_address := underlay |};
           res_was_ready := was_ready && unchanged;
           res_cluster_config := {| compute_pool_cidr := pool; subnet_prefix_len := p |};
           res_setup_generation := g |},
        set_config db {|
          nc_compute_pool_cidr := nc_compute_pool_cidr cfg; nc_subnet_prefix_len := nc_subnet_prefix_len cfg;
          nc_control_plane_compute_cidr := Some (net_show cidr);
          nc_control_plane_underlay_address := Some (addr_show underlay);
          nc_control_plane_overlay_ready := was_ready && unchanged;
          nc_control_plane_setup_generation := g |})).

(** The comparison of a reservation with the row. *)
Definition matches_reservation (r : ControlPlaneReservation) (cfg : NetworkConfigRow) : bool :=
  bool_decide (nc_control_plane_compute_cidr cfg = Some (net_show (na_compute_cidr (res_alloc r)))) &&
  bool_decide (nc_control_plane_underlay_address cfg = Some (addr_show (na_underlay_address (res_alloc r)))) &&
  bool_decide (nc_compute_pool_cidr cfg = net_show (compute_pool_cidr (res_cluster_config r))) &&
  (nc_subnet_prefix_len cfg =? subnet_prefix_len (res_cluster_config r)) &&
  (nc_control_plane_setup_generation cfg =? res_setup_generation r).

Definition superseded (r : ControlPlaneReservation) : AllocatorError :=
  SupersededControlPlaneSetup (na_compute_cidr (res_alloc r)) (na_underlay_address (res_alloc r)).

Definition set_control_plane_ready_for (r : ControlPlaneReservation) (ready : bool) (db : NetDb)
    : result AllocatorError unit * NetDb :=
  commit db (
    let? row := query db (db_config db) in
    match row with
    | Some cfg =>
        if matches_reservation r cfg then
          Ok ((), set_config db {|
            nc_compute_pool_cidr := nc_compute_pool_cidr cfg; nc_subnet_prefix_len := nc_subnet_prefix_len cfg;
            nc_control_plane_compute_cidr := nc_control_plane_compute_cidr cfg;
            nc_control_plane_underlay_address := nc_control_plane_underlay_address cfg;
            nc_control_plane_overlay_ready := ready;
            nc_control_plane_setup_generation := nc_control_plane_setup_generation cfg |})
        else Err (superseded r)
    | None => Err (superseded r)
    end).

Definition release_unready_control_plane_reservation (r : ControlPlaneReservation) (db : NetDb)
    : result AllocatorError unit * NetDb :=
  commit db (
    let? cfg := load_config db in
    if negb (matches_reservation r cfg) then Err (superseded r)
    else if nc_control_plane_overlay_ready cfg
    then Err (ReadyControlPlaneRelease (na_compute_cidr (res_alloc r)) (na_underlay_address (res_alloc r)))
    else
      let? g := next_generation cfg in
      Ok ((), set_config db {|
        nc_compute_pool_cidr := nc_compute_pool_cidr cfg; nc_subnet_prefix_len := nc_subnet_prefix_len cfg;
        nc_control_plane_compute_cidr := None; nc_control_plane_underlay_address := None;
        nc_control_plane_overlay_ready := false; nc_control_plane_setup_generation := g |})).

Definition parse_underlay (node_id : Z) (raw : string) : result AllocatorError IpAddr :=
  map_err (fun e => UnderlayInvalid node_id raw e) (addr_parse raw).

Definition get_control_plane_alloc (db : NetDb) : result AllocatorError (option NodeAllocPersisted) :=
  let? cfg := load_config db in
  if negb (nc_control_plane_overlay_ready cfg) then Ok None
  else
    match nc_control_plane_compute_cidr cfg, nc_control_plane_underlay_address cfg with
    | Some cidr_raw, Some underlay_raw =>
        let? cidr := map_err (fun e => ComputeCidrInvalid 0 cidr_raw e) (net_parse cidr_raw) in
        let? underlay := parse_underlay 0 underlay_raw in
        let? _ := validate_private_underlay 0 underlay in
        Ok (Some {| na_node_id := 0; na_external_id := CONTROL_PLANE_NODE_UUID; na_compute_cidr := cidr;
                    na_bridge_address := bridge_address_for cidr; na_underlay_address := underlay |})
    | _, _ => Ok None
    end.

(** [allocate_for_node]. *)
Definition allocate_for_node (node_id : Z) (db : NetDb) : result AllocatorError NodeAllocPersisted * NetDb :=
  commit db (
    let? cfg := load_config db in
    let? pool := pool_of cfg in
    let? p := prefix_of cfg in
    let? _ := validate_subnet_prefix pool p in
    let? node := ok_or (NodeNotFound node_id) (List.find (fun n => nd_id n =? node_id) (db_nodes db)) in
    match nd_compute_cidr node with
    | Some existing =>
        let? parsed := map_err (fun e => ComputeCidrInvalid node_id existing e) (net_parse existing) in
        Err (AlreadyAllocated node_id parsed)
    | None =>
        let? underlay_raw := ok_or (UnderlayMissing node_id) (nd_underlay_address node) in
        let? underlay := parse_underlay node_id underlay_raw in
        let? _ := validate_underlay_outside_pool underlay pool in
        let? _ := if nc_control_plane_overlay_ready cfg
                  then validate_private_underlay node_id underlay else Ok () in
        let? used := parse_used (omap nd_compute_cidr (db_nodes db)) in
        let? used :=
          match nc_control_plane_compute_cidr cfg with
          | Some raw => let? c := map_err (fun e => ComputeCidrInvalid 0 raw e) (net_parse raw) in
                        Ok (used ++ [c])
          | None => Ok used
          end in
        let? chosen := ok_or (PoolExhausted pool p (length used)) (pick_free_subnet pool p used) in
        Ok ({| na_node_id := node_id; na_external_id := node_uuid node_id; na_compute_cidr := chosen;
               na_bridge_address := bridge_address_for chosen; na_underlay_address := underlay |},
            set_node_cidr db node_id (Some (net_show chosen)))
    end).

(** [release]. *)
Definition release (node_id : Z) (db : NetDb) : result AllocatorError unit * NetDb :=
  commit db (let? _ := query db () in Ok ((), set_node_cidr db node_id None)).

(** [get_alloc]. *)
Definition get_alloc (node_id : Z) (db : NetDb) : result AllocatorError (option NodeAllocPersisted) :=
  let? nodes := query db (db_nodes db) in
  match List.find (fun n => nd_id n =? node_id) nodes with
  | None => Ok None
  | Some node =>
      match nd_compute_cidr node with
      | None => Ok None
      | Some cidr_raw =>
          let? cidr := map_err (fun e => ComputeCidrInvalid node_id cidr_raw e) (net_parse cidr_raw) in
          let? underlay_raw := ok_or (UnderlayMissing node_id) (nd_underlay_address node) in
          let? underlay := parse_underlay node_id underlay_raw in
          Ok (Some {| na_node_id := node_id; na_external_id := node_uuid node_id; na_compute_cidr := cidr;
                      na_bridge_address := bridge_address_for cidr; na_underlay_address := underlay |})
      end
  end.

(** [worker_peers] and [peer_list]; the rows are in the order of their ids. *)
Definition worker_peers (excluded : option Z) (db : NetDb) : result AllocatorError (list Peer) :=
  let? nodes := query db (db_nodes db) in
  result_fold (fun peers n =>
      match nd_compute_cidr n, nd_underlay_address n with
      | Some cidr_raw, Some underlay_raw =>
          if bool_decide (excluded = Some (nd_id n)) then Ok peers
          else
            let? cidr := map_err (fun e => ComputeCidrInvalid (nd_id n) cidr_raw e) (net_parse cidr_raw) in
            let? underlay := parse_underlay (nd_id n) underlay_raw in
            Ok (peers ++ [{| peer_node_id := node_uuid (nd_id n); peer_compute_cidr := cidr;
                             peer_underlay_address := underlay |}])
      | _, _ => Ok peers
      end) nodes [].

Definition peer_list (viewer : Z) (db : NetDb) : result AllocatorError (list Peer) :=
  let? peers := worker_peers (Some viewer) db in
  let? control_plane := get_control_plane_alloc db in
  Ok (match control_plane with
      | Some a => peers ++ [{| peer_node_id := na_external_id a; peer_compute_cidr := na_compute_cidr a;
                               peer_underlay_address := na_underlay_address a |}]
      | None => peers
      end).
End Allocator.

(** ** Subnets of a pool *)

Section Facts.
Context `{I : Ipnet} `{!IpnetLaws I} `{AddrText} (node_uuid : Z -> Z).

Definition subnet (pool : Ipv4Net) (p i : Z) : Ipv4Net :=
  {| net_addr := network pool + i * net_size p; net_prefix := p |}.

(** A subnet of the pool with the given prefix. *)
Definition aligned (pool : Ipv4Net) (p : Z) (n : Ipv4Net) : Prop :=
  exists i, 0 <= i < 2 ^ (p - net_prefix pool) /\ n = subnet pool p i.

(** A pool that validation lets through. *)
Definition splits (pool : Ipv4Net) (p : Z) : Prop :=
  net_valid pool /\ net_prefix pool < p <= 30 /\ p - net_prefix pool <= 20.

Lemma validate_subnet_prefix_Ok pool p :
  validate_subnet_prefix pool p = Ok () <-> net_prefix pool < p <= 30 /\ p - net_prefix pool <= 20.
Proof.
  unfold validate_subnet_prefix. destruct (Z.leb_spec p (net_prefix pool)), (Z.ltb_spec 30 p); simpl;
    try (split; [done|lia]). destruct (Z.ltb_spec 20 (p - net_prefix pool)); split; first [done|lia].
Qed.

Lemma net_size_pos p : p <= 32 -> 0 < net_size p.
Proof. intros. unfold net_size. apply Z.pow_pos_nonneg; lia. Qed.

Lemma net_size_split q p : 0 <= q <= p -> p <= 32 -> net_size q = 2 ^ (p - q) * net_size p.
Proof. intros. unfold net_size. rewrite <- Z.pow_add_r by lia. f_equal. lia. Qed.

Lemma net_size_total q : 0 <= q <= 32 -> 2 ^ 32 = 2 ^ q * net_size q.
Proof. intros. unfold net_size. rewrite <- Z.pow_add_r by lia. f_equal. lia. Qed.

(** The pool starts at a multiple of its size and ends within 32 bits. *)
Lemma pool_bounds pool :
  net_valid pool -> exists k, network pool = k * net_size (net_prefix pool) /\ 0 <= network pool /\
    network pool + net_size (net_prefix pool) <= 2 ^ 32.
Proof.
  intros Hv. pose proof Hv as [Ha Hp]. rewrite (network_law _ Hv).
  pose proof (net_size_pos (net_prefix pool)) as Hpos.
  set (s := net_size (net_prefix pool)) in *. exists (net_addr pool / s).
  pose proof (net_size_total (net_prefix pool) Hp) as Ht. fold s in Ht.
  assert (0 < s) by lia. split; [done|].
  pose proof (Z.div_mod (net_addr pool) s). pose proof (Z.mod_pos_bound (net_addr pool) s).
  pose proof (Z.div_pos (net_addr pool) s). split; [nia|].
  assert (net_addr pool / s < 2 ^ net_prefix pool) as Hlt.
  { apply Z.div_lt_upper_bound; [lia|]. rewrite Z.mul_comm. lia. }
  rewrite Ht. nia.
Qed.

Lemma subnet_valid pool p i :
  splits pool p -> 0 <= i < 2 ^ (p - net_prefix pool) ->
  net_valid (subnet pool p i) /\ network (subnet pool p i) = net_addr (subnet pool p i).
Proof.
  intros (Hv & Hp & _) Hi. destruct (pool_bounds pool Hv) as (k & Hk & Hlo & Hhi).
  pose proof Hv as [_ Hq]. pose proof (net_size_split (net_prefix pool) p) as Hs.
  pose proof (net_size_pos p) as Hpos. rewrite Hs in Hk, Hhi by lia.
  assert (net_valid (subnet pool p i)) as Hvs.
  { split; simpl; [|lia]. set (m := 2 ^ (p - net_prefix pool)) in *. set (s := net_size p) in *.
    assert (0 < s) by lia. split; [nia|]. assert (i * s + s <= m * s) by nia. lia. }
  split; [done|]. rewrite (network_law _ Hvs). simpl. rewrite Hk, Z.mul_assoc, <- Z.mul_add_distr_r.
  rewrite Z.div_mul by lia. done.
Qed.

Lemma subnet_inj pool p i j : p <= 32 -> subnet pool p i = subnet pool p j -> i = j.
Proof.
  intros Hp [= Heq]. pose proof (net_size_pos p Hp). nia.
Qed.

(** Two subnets of one pool and prefix share an address only when they are the same. *)
Lemma subnet_contains pool p i ip :
  splits pool p -> 0 <= i < 2 ^ (p - net_prefix pool) ->
  net_contains (subnet pool p i) ip = true <->
  network pool + i * net_size p <= ip < network pool + (i + 1) * net_size p.
Proof.
  intros Hsp Hi. destruct (subnet_valid pool p i Hsp Hi) as [Hv Hn].
  rewrite contains_law, broadcast_law, Hn by done. simpl. rewrite andb_true_iff, !Z.leb_le. lia.
Qed.

Lemma subnet_disjoint pool p a b ip :
  splits pool p -> aligned pool p a -> aligned pool p b ->
  net_contains a ip = true -> net_contains b ip = true -> a = b.
Proof.
  intros Hsp (i & Hi & ->) (j & Hj & ->). rewrite !(subnet_contains pool p) by done. intros H1 H2.
  pose proof (net_size_pos p). destruct Hsp as (_ & ? & _). assert (i = j) as ->; [nia|done].
Qed.

Lemma overlap_iff pool p a b :
  splits pool p -> aligned pool p a -> aligned pool p b -> cidrs_overlap a b = true <-> a = b.
Proof.
  intros Hsp Ha Hb. pose proof Ha as (i & Hi & Hai). pose proof Hb as (j & Hj & Hbj).
  assert (forall n, aligned pool p n -> net_contains n (network n) = true) as Hself.
  { intros n (k & Hk & ->). rewrite (proj2 (subnet_valid pool p k Hsp Hk)).
    rewrite (subnet_contains pool p) by done. simpl. pose proof (net_size_pos p).
    destruct Hsp as (_ & ? & _). nia. }
  unfold cidrs_overlap. rewrite orb_true_iff. split; [|intros ->; left; by apply Hself].
  intros [Hc|Hc]; [apply (subnet_disjoint pool p a b (network b))|apply (subnet_disjoint pool p a b (network a))];
    auto.
Qed.

Lemma is_free_iff pool p used n :
  splits pool p -> Forall (aligned pool p) used -> aligned pool p n -> is_free used n = true <-> n ∉ used.
Proof.
  intros Hsp Hused Hn. unfold is_free. rewrite negb_true_iff, <- not_true_iff_false, existsb_exists.
  rewrite List.Forall_forall in Hused. split.
  - intros Hno Hin. apply Hno. exists n. split; [by apply list_elem_of_In|]. by apply (overlap_iff pool p).
  - intros Hni (u & Hu & Ho). apply (overlap_iff pool p) in Ho; auto. subst u. apply Hni.
    by apply list_elem_of_In.
Qed.

(** ** The choice of a subnet *)

Lemma find_first {A} (P : A -> bool) l x :
  List.find P l = Some x -> exists k, l !! k = Some x /\ P x = true /\
    forall j y, (j < k)%nat -> l !! j = Some y -> P y = false.
Proof.
  induction l as [|y l IH]; simpl; [done|]. destruct (P y) eqn:Hy.
  - intros [= ->]. exists 0%nat. split_and!; [done..|lia].
  - intros (k & Hk & Hx & Hj)%IH. exists (S k). split_and!; [done..|].
    intros [|j] z Hlt Hz; simpl in Hz; [congruence|]. apply (Hj j); [lia|done].
Qed.

Lemma pick_free_spec pool p used :
  splits pool p -> Forall (aligned pool p) used ->
  match pick_free_subnet pool p used with
  | Some c => exists i, 0 <= i < 2 ^ (p - net_prefix pool) /\ c = subnet pool p i /\ (c ∉ used) /\
      forall j, 0 <= j < i -> subnet pool p j ∈ used
  | None => forall i, 0 <= i < 2 ^ (p - net_prefix pool) -> subnet pool p i ∈ used
  end.
Proof.
  intros Hsp Hused. pose proof Hsp as (Hv & Hp & _). unfold pick_free_subnet.
  rewrite subnets_law by (done || lia). fold (subnet pool p).
  assert (forall i, 0 <= i < 2 ^ (p - net_prefix pool) ->
    is_free used (subnet pool p i) = false -> subnet pool p i ∈ used) as Htaken.
  { intros i Hi Hf. destruct (decide (subnet pool p i ∈ used)) as [|Hni]; [done|].
    apply (is_free_iff pool p) in Hni; [congruence|done..|by exists i]. }
  destruct (List.find _ _) as [c|] eqn:Hf.
  - apply find_first in Hf as (k & Hk & Hfree & Hlow).
    apply list_lookup_fmap_Some in Hk as (i & -> & Hi). apply lookup_seqZ in Hi as [-> Hlt].
    exists (0 + Z.of_nat k). split; [lia|]. split; [done|]. split.
    + apply (is_free_iff pool p used); [done..| |done]. exists (0 + Z.of_nat k). split; [lia|done].
    + intros j Hj. apply Htaken; [lia|]. apply (Hlow (Z.to_nat j)); [lia|].
      rewrite list_lookup_fmap, (proj2 (lookup_seqZ _ _ _ j)); [done|]. split; lia.
  - intros i Hi. apply Htaken; [done|]. apply (find_none _ _ Hf), in_map, list_elem_of_In, elem_of_seqZ. lia.
Qed.

Lemma highest_loop_find pool p used indices :
  splits pool p -> Forall (fun i => 0 <= i < 2 ^ (p - net_prefix pool)) indices ->
  highest_loop (network pool) (net_size p) p used indices =
  List.find (is_free used) (map (subnet pool p) indices).
Proof.
  intros Hsp. pose proof Hsp as (Hv & Hp & _). pose proof Hv as [_ Hq].
  induction 1 as [|i indices Hi _ IH]; simpl; [done|].
  destruct (subnet_valid pool p i Hsp Hi) as [[Ha _] _]. simpl in Ha.
  destruct (pool_bounds pool Hv) as (_ & _ & Hlo & _). pose proof (net_size_pos p).
  assert (0 <= i * net_size p) by nia. unfold checked.
  rewrite (proj2 (Z.ltb_lt (i * net_size p) (2 ^ 64))) by lia. simpl.
  rewrite (proj2 (Z.ltb_lt (network pool + i * net_size p) (2 ^ 64))) by lia. simpl.
  rewrite (proj2 (Z.ltb_lt (network pool + i * net_size p) (2 ^ 32))) by lia. simpl.
  rewrite net_new_law by lia. simpl. by rewrite IH.
Qed.

Lemma pick_highest_spec pool p used c :
  splits pool p -> Forall (aligned pool p) used -> pick_highest_free_subnet pool p used = Some c ->
  aligned pool p c /\ c ∉ used.
Proof.
  intros Hsp Hused. pose proof Hsp as (Hv & Hp & Hd). pose proof Hv as [_ Hq].
  unfold pick_highest_free_subnet, checked_sub, checked_shl.
  rewrite (proj2 (Z.leb_le (net_prefix pool) p)), (proj2 (Z.leb_le p 32)) by lia. simpl.
  rewrite (proj2 (Z.ltb_lt (p - net_prefix pool) 64)), (proj2 (Z.ltb_lt (32 - p) 64)) by lia. simpl.
  fold (net_size p). rewrite highest_loop_find; [|done|].
  - intros [Hin%list_elem_of_In Hfree]%find_some. apply list_elem_of_fmap in Hin as (i & -> & Hi).
    apply elem_of_reverse, elem_of_seqZ in Hi. assert (aligned pool p (subnet pool p i)) as Hal
      by (exists i; split; [lia|done]). split; [done|]. by apply (is_free_iff pool p).
  - apply List.Forall_forall. intros i Hi%list_elem_of_In. apply elem_of_reverse, elem_of_seqZ in Hi. lia.
Qed.

(** ** The invariant *)

(** The subnets in use, as they are stored. *)
Definition node_raws (db : NetDb) : list string := omap nd_compute_cidr (db_nodes db).

Definition raws (db : NetDb) : list string :=
  match db_config db with
  | Some cfg => match nc_control_plane_compute_cidr cfg with
                | Some raw => raw :: node_raws db
                | None => node_raws db
                end
  | None => node_raws db
  end.

Definition parsed (raw : string) : option Ipv4Net :=
  match net_parse raw with Ok n => Some n | Err _ => None end.

Definition pool_is (db : NetDb) (pool : Ipv4Net) (p : Z) : Prop :=
  exists cfg, db_config db = Some cfg /\ net_parse (nc_compute_pool_cidr cfg) = Ok pool /\
    nc_subnet_prefix_len cfg = p /\ splits pool p.

(** Every stored subnet is one of the pool, none is stored twice. *)
Definition subnets_ok (pool : Ipv4Net) (p : Z) (l : list string) : Prop :=
  Forall (fun raw => exists n, net_parse raw = Ok n /\ aligned pool p n) l /\ NoDup (omap parsed l).

Definition net_inv (db : NetDb) : Prop :=
  NoDup (map nd_id (db_nodes db)) /\
  exists pool p, pool_is db pool p /\ subnets_ok pool p (raws db).

Lemma subnets_ok_perm pool p l l' : l ≡ₚ l' -> subnets_ok pool p l -> subnets_ok pool p l'.
Proof.
  intros Hl [Hf Hnd]. split; [by rewrite <- Hl|]. by rewrite <- (omap_Permutation _ _ _ Hl).
Qed.

Lemma subnets_ok_app pool p l l' : subnets_ok pool p (l ++ l') -> subnets_ok pool p l'.
Proof.
  intros [Hf Hnd]. split; [by apply Forall_app in Hf as [_ ?]|].
  rewrite omap_app in Hnd. by apply list.NoDup_app in Hnd as (_ & _ & ?).
Qed.

Lemma subnets_ok_cons pool p raw l n :
  net_parse raw = Ok n -> aligned pool p n -> n ∉ omap parsed l ->
  subnets_ok pool p l -> subnets_ok pool p (raw :: l).
Proof.
  intros Hr Ha Hni [Hf Hnd]. split; [constructor; [by exists n|done]|].
  simpl. unfold parsed at 1. rewrite Hr. by constructor.
Qed.

Lemma parse_used_spec l used : parse_used l = Ok used -> used = omap parsed l /\ Forall (fun raw => is_Some (parsed raw)) l.
Proof.
  unfold parse_used. enough (forall acc, result_fold (fun used raw =>
      let? c := map_err (fun e => ComputeCidrInvalid 0 raw e) (net_parse raw) in Ok (used ++ [c])) l acc
      = Ok used -> used = acc ++ omap parsed l /\ Forall (fun raw => is_Some (parsed raw)) l) as Hgen
    by apply Hgen.
  induction l as [|raw l IH]; intros acc; cbn [result_fold].
  - intros [= <-]. by rewrite app_nil_r.
  - intros Hf. apply result_bind_Ok in Hf as (acc' & Ha & Hf). apply result_bind_Ok in Ha as (c & Hc & Ha).
    apply Ok_inj in Ha. subst acc'. destruct (IH _ Hf) as [-> Hall].
    assert (parsed raw = Some c) as Hp by (unfold parsed; destruct (net_parse raw); simpl in Hc; congruence).
    simpl. rewrite Hp, <- app_assoc. split; [done|]. constructor; [by rewrite Hp|done].
Qed.

Lemma subnets_ok_aligned pool p l : subnets_ok pool p l -> Forall (aligned pool p) (omap parsed l).
Proof.
  intros [Hf _]. apply List.Forall_forall. intros n Hn%list_elem_of_In.
  apply list_elem_of_omap in Hn as (raw & Hraw & Hp). rewrite List.Forall_forall in Hf.
  apply list_elem_of_In, Hf in Hraw as (n' & Hn' & Ha). unfold parsed in Hp. rewrite Hn' in Hp. by simplify_eq.
Qed.

Lemma aligned_parse_show pool p n : splits pool p -> aligned pool p n -> net_parse (net_show n) = Ok n.
Proof. intros Hsp (i & Hi & ->). apply net_parse_show. by apply subnet_valid. Qed.

(** ** Rows *)

Lemma set_node_ids db id c : map nd_id (db_nodes (set_node_cidr db id c)) = map nd_id (db_nodes db).
Proof. simpl. rewrite map_map. apply map_ext. intros n. by destruct (nd_id n =? id). Qed.

Lemma set_node_some db id node raw :
  NoDup (map nd_id (db_nodes db)) -> List.find (fun n => nd_id n =? id) (db_nodes db) = Some node ->
  nd_compute_cidr node = None -> node_raws (set_node_cidr db id (Some raw)) ≡ₚ raw :: node_raws db.
Proof.
  unfold node_raws. simpl. induction (db_nodes db) as [|n l IH]; simpl; [done|].
  intros Hnd. inversion Hnd as [|? ? Hni Hnd']; subst.
  destruct (Z.eqb_spec (nd_id n) id) as [Heq|Hne].
  - intros [= ->] Hnone. simpl. rewrite Hnone.
    assert (map (fun n => if nd_id n =? id then {| nd_id := nd_id n; nd_compute_cidr := Some raw;
      nd_underlay_address := nd_underlay_address n |} else n) l = l) as ->; [|done].
    rewrite <- (map_id l) at 2. apply map_ext_in. intros m Hm.
    destruct (Z.eqb_spec (nd_id m) id) as [Hm'|]; [|done]. destruct Hni. rewrite Heq, <- Hm'.
    by apply list_elem_of_In, in_map.
  - intros Hf Hnone. specialize (IH Hnd' Hf Hnone). destruct (nd_compute_cidr n); [|done].
    rewrite IH. apply perm_swap.
Qed.

Lemma set_node_none db id :
  exists removed, node_raws db ≡ₚ removed ++ node_raws (set_node_cidr db id None).
Proof.
  unfold node_raws. simpl. induction (db_nodes db) as [|n l (removed & IH)]; simpl; [by exists []|].
  destruct (nd_id n =? id); simpl; destruct (nd_compute_cidr n) as [c|].
  - exists (c :: removed). by rewrite IH.
  - by exists removed.
  - exists removed. rewrite IH. apply Permutation_middle.
  - by exists removed.
Qed.

Lemma raws_perm db db' l :
  db_config db' = db_config db -> node_raws db' ≡ₚ l ++ node_raws db -> raws db' ≡ₚ l ++ raws db.
Proof.
  intros Hc Hn. unfold raws. rewrite Hc. destruct (db_config db) as [cfg|]; [|done].
  destruct (nc_control_plane_compute_cidr cfg) as [c|]; [|done]. rewrite Hn. apply Permutation_middle.
Qed.

Lemma commit_Ok {A} db (o : result AllocatorError (A * NetDb)) a db' :
  commit db o = (Ok a, db') -> o = Ok (a, db').
Proof. unfold commit. destruct o as [[]|]; by intros [= -> ->]. Qed.

Lemma commit_Err {A} db (o : result AllocatorError (A * NetDb)) e db' :
  commit db o = (Err e, db') -> db' = db /\ o = Err e.
Proof. unfold commit. destruct o as [[]|]; by intros [= -> ->]. Qed.

Lemma map_err_Ok {E E' A} (f : E -> E') (r : result E A) a : map_err f r = Ok a -> r = Ok a.
Proof. destruct r; [|done]. by intros [= ->]. Qed.

Lemma load_config_Ok db cfg : load_config db = Ok cfg -> db_config db = Some cfg /\ db_answers db = true.
Proof.
  unfold load_config, query. destruct (db_answers db); [|done]. cbn [result_bind].
  intros Hc. by apply ok_or_Ok in Hc.
Qed.

Lemma pool_of_is db cfg pool p pool' p' :
  pool_is db pool p -> db_config db = Some cfg -> pool_of cfg = Ok pool' -> prefix_of cfg = Ok p' ->
  pool' = pool /\ p' = p.
Proof.
  intros (cfg' & Hc & Hpool & Hp & _) Hcfg Hpo Hpr. apply map_err_Ok in Hpo.
  unfold prefix_of in Hpr. destruct (_ && _); [|done]. split; congruence.
Qed.

(** The subnets in use, as the operations read them. *)
Definition used_of (db : NetDb) : list Ipv4Net := omap parsed (raws db).

Lemma used_matches db cfg used' :
  db_config db = Some cfg ->
  match nc_control_plane_compute_cidr cfg with
  | Some raw => let? c := map_err (fun e => ComputeCidrInvalid 0 raw e) (net_parse raw) in
                Ok (omap parsed (node_raws db) ++ [c])
  | None => Ok (omap parsed (node_raws db))
  end = Ok used' -> forall n, n ∈ used' <-> n ∈ used_of db.
Proof.
  intros Hcfg Hused' n. unfold used_of, raws. rewrite Hcfg.
  destruct (nc_control_plane_compute_cidr cfg) as [r|]; [|by apply Ok_inj in Hused'; subst].
  apply result_bind_Ok in Hused' as (c & Hcp & Hused'). apply Ok_inj in Hused'. subst used'.
  apply map_err_Ok in Hcp. simpl. unfold parsed at 2. rewrite Hcp. set_solver.
Qed.

(** What a successful allocation went through. *)
Lemma allocate_Ok db id a db' pool p :
  NoDup (map nd_id (db_nodes db)) -> pool_is db pool p -> subnets_ok pool p (raws db) ->
  allocate_for_node node_uuid id db = (Ok a, db') ->
  exists i node raw, 0 <= i < 2 ^ (p - net_prefix pool) /\ na_compute_cidr a = subnet pool p i /\
    (na_compute_cidr a ∉ used_of db) /\ (forall j, 0 <= j < i -> subnet pool p j ∈ used_of db) /\
    db' = set_node_cidr db id (Some (net_show (na_compute_cidr a))) /\
    List.find (fun n => nd_id n =? id) (db_nodes db) = Some node /\ nd_compute_cidr node = None /\
    nd_underlay_address node = Some raw /\ addr_parse raw = Ok (na_underlay_address a) /\
    na_node_id a = id /\ na_external_id a = node_uuid id /\
    na_bridge_address a = bridge_address_for (na_compute_cidr a) /\ db_answers db = true.
Proof.
  intros Hnd Hpool Hok Ha. apply commit_Ok in Ha.
  apply result_bind_Ok in Ha as (cfg & Hcfg & Ha). apply load_config_Ok in Hcfg as [Hcfg Hup].
  apply result_bind_Ok in Ha as (pool' & Hpo & Ha). apply result_bind_Ok in Ha as (p' & Hpr & Ha).
  destruct (pool_of_is _ _ _ _ _ _ Hpool Hcfg Hpo Hpr) as [-> ->].
  apply result_bind_Ok in Ha as (_ & _ & Ha). apply result_bind_Ok in Ha as (node & Hnode & Ha).
  apply ok_or_Ok in Hnode. destruct (nd_compute_cidr node) as [existing|] eqn:Hc.
  { by apply result_bind_Ok in Ha as (? & _ & ?). }
  apply result_bind_Ok in Ha as (raw & Hraw & Ha). apply ok_or_Ok in Hraw.
  apply result_bind_Ok in Ha as (underlay & Hu & Ha). apply map_err_Ok in Hu.
  apply result_bind_Ok in Ha as (_ & _ & Ha). apply result_bind_Ok in Ha as (_ & _ & Ha).
  apply result_bind_Ok in Ha as (used & Hused & Ha). apply parse_used_spec in Hused as [-> _].
  apply result_bind_Ok in Ha as (used' & Hused' & Ha).
  pose proof (used_matches db cfg used' Hcfg Hused') as Heq.
  assert (Forall (aligned pool p) used') as Hal.
  { pose proof (subnets_ok_aligned _ _ _ Hok) as Hall. rewrite List.Forall_forall in *.
    intros n Hn%list_elem_of_In. apply Hall, list_elem_of_In. by apply Heq. }
  apply result_bind_Ok in Ha as (chosen & Hch & Ha). apply ok_or_Ok in Hch. apply Ok_inj in Ha.
  destruct Hpool as (_ & _ & _ & _ & Hsp).
  pose proof (pick_free_spec pool p used' Hsp Hal) as Hpick. rewrite Hch in Hpick.
  destruct Hpick as (i & Hi & Hci & Hni & Hlow). injection Ha as <- <-. exists i, node, raw. simpl.
  split_and!; try done; [lia..| |].
  - by rewrite <- Heq.
  - intros j Hj. apply Heq. by apply Hlow.
Qed.

(** What a successful reservation went through. *)
Lemma ensure_Ok db u r db' pool p :
  pool_is db pool p -> subnets_ok pool p (raws db) ->
  ensure_control_plane_reservation u db = (Ok r, db') ->
  exists cfg ready, db_config db = Some cfg /\
    res_setup_generation r = nc_control_plane_setup_generation cfg + 1 /\
    db' = set_config db {|
      nc_compute_pool_cidr := nc_compute_pool_cidr cfg; nc_subnet_prefix_len := nc_subnet_prefix_len cfg;
      nc_control_plane_compute_cidr := Some (net_show (na_compute_cidr (res_alloc r)));
      nc_control_plane_underlay_address := Some (addr_show u);
      nc_control_plane_overlay_ready := ready;
      nc_control_plane_setup_generation := nc_control_plane_setup_generation cfg + 1 |} /\
    aligned pool p (na_compute_cidr (res_alloc r)) /\
    match nc_control_plane_compute_cidr cfg with
    | Some raw => net_parse raw = Ok (na_compute_cidr (res_alloc r))
    | None => na_compute_cidr (res_alloc r) ∉ used_of db
    end.
Proof.
  intros Hpool Hok Ha. apply commit_Ok in Ha.
  apply result_bind_Ok in Ha as (cfg & Hcfg & Ha). apply load_config_Ok in Hcfg as [Hcfg Hup].
  apply result_bind_Ok in Ha as (pool' & Hpo & Ha). apply result_bind_Ok in Ha as (p' & Hpr & Ha).
  destruct (pool_of_is _ _ _ _ _ _ Hpool Hcfg Hpo Hpr) as [-> ->].
  apply result_bind_Ok in Ha as (_ & _ & Ha). apply result_bind_Ok in Ha as (_ & _ & Ha).
  apply result_bind_Ok in Ha as (cidr & Hc & Ha). apply result_bind_Ok in Ha as (g & Hg & Ha).
  unfold next_generation in Hg. destruct (_ <? _); [|done]. apply Ok_inj in Hg. subst g.
  apply Ok_inj in Ha. injection Ha as <- <-. do 2 eexists. split; [done|]. split; [done|].
  split; [done|]. simpl. destruct Hpool as (_ & _ & _ & _ & Hsp).
  pose proof (subnets_ok_aligned _ _ _ Hok) as Hall. pose proof Hok as [Hparse _].
  unfold used_of, raws in *. rewrite Hcfg in *.
  destruct (nc_control_plane_compute_cidr cfg) as [raw|].
  - apply map_err_Ok in Hc. split; [|done]. inversion Hparse as [|? ? (n & Hn & Hal) _]; subst. congruence.
  - apply result_bind_Ok in Hc as (used & Hused & Hc). apply parse_used_spec in Hused as [-> _].
    apply ok_or_Ok in Hc. by apply (pick_highest_spec pool p).
Qed.

(** One operation, a change of the node rows that hands out no subnet, an outage. *)
Inductive net_step : NetDb -> NetDb -> Prop :=
  | ns_configure db pool p : net_valid pool -> net_step db (configure_pool pool p db).2
  | ns_ensure db u : net_step db (ensure_control_plane_reservation u db).2
  | ns_ready db r ready : net_step db (set_control_plane_ready_for r ready db).2
  | ns_release_reservation db r : net_step db (release_unready_control_plane_reservation r db).2
  | ns_allocate db id : net_step db (allocate_for_node node_uuid id db).2
  | ns_release db id : net_step db (release id db).2
  | ns_nodes db nodes removed : NoDup (map nd_id nodes) ->
      omap nd_compute_cidr (db_nodes db) ≡ₚ removed ++ omap nd_compute_cidr nodes ->
      net_step db {| db_config := db_config db; db_nodes := nodes; db_answers := db_answers db |}
  | ns_outage db up :
      net_step db {| db_config := db_config db; db_nodes := db_nodes db; db_answers := up |}.

Lemma net_inv_nodes db db' removed :
  net_inv db -> db_config db' = db_config db -> NoDup (map nd_id (db_nodes db')) ->
  node_raws db ≡ₚ removed ++ node_raws db' -> net_inv db'.
Proof.
  intros (_ & pool & p & Hpool & Hok) Hc Hnd Hr. split; [done|]. exists pool, p. split.
  - destruct Hpool as (cfg & Hcfg & ?). exists cfg. by rewrite Hc.
  - apply (subnets_ok_app pool p removed). eapply subnets_ok_perm; [|exact Hok].
    by apply raws_perm.
Qed.

Lemma configure_inv pool p db : net_valid pool -> net_inv db -> net_inv (configure_pool pool p db).2.
Proof.
  intros Hv Hinv. destruct (configure_pool pool p db) as [[c|e] db'] eqn:Hc; simpl.
  - apply commit_Ok in Hc. apply result_bind_Ok in Hc as ([] & Hval & Hc).
    apply result_bind_Ok in Hc as (cfg & Hcfg & Hc). apply load_config_Ok in Hcfg as [Hcfg _].
    apply result_bind_Ok in Hc as (current & _ & Hc). cbv beta zeta in Hc.
    destruct (bool_decide (current = _)); [by simplify_eq|].
    destruct (Nat.ltb_spec 0 (length (omap nd_compute_cidr (db_nodes db)) +
      match nc_control_plane_compute_cidr cfg with Some _ => 1 | None => 0 end)) as [|Hzero]; [done|].
    apply result_bind_Ok in Hc as (g & _ & Hc). apply Ok_inj in Hc. injection Hc as <- <-.
    destruct Hinv as [Hnd _]. split; [done|]. exists pool, p. split.
    + eexists. split; [done|]. simpl. split; [by apply net_parse_show|]. split; [done|].
      unfold validate_pool in Hval. destruct (_ || _); [done|].
      apply validate_subnet_prefix_Ok in Hval. by split.
    + unfold raws, node_raws. simpl. destruct (omap nd_compute_cidr (db_nodes db)); [|simpl in Hzero; lia].
      split; constructor.
  - by apply commit_Err in Hc as [-> _].
Qed.

Lemma ensure_inv u db : net_inv db -> net_inv (ensure_control_plane_reservation u db).2.
Proof.
  intros Hinv. destruct (ensure_control_plane_reservation u db) as [[r|e] db'] eqn:He; simpl.
  - destruct Hinv as (Hnd & pool & p & Hpool & Hok).
    destruct (ensure_Ok _ _ _ _ _ _ Hpool Hok He) as (cfg & ready & Hcfg & _ & -> & Hal & Hcp).
    pose proof Hpool as (cfg' & Hcfg' & Hpar & Hpre & Hsp). assert (cfg' = cfg) as -> by congruence.
    split; [done|]. exists pool, p. split; [eexists; by split_and!|].
    pose proof (aligned_parse_show pool p _ Hsp Hal) as Hps.
    unfold raws, used_of, raws in *. rewrite Hcfg in *. simpl. fold (node_raws db).
    destruct (nc_control_plane_compute_cidr cfg) as [raw|].
    + destruct Hok as [Hf Hd]. inversion Hf as [|? ? _ Hf']; subst. split.
      { constructor; [by eexists|done]. }
      simpl in *. unfold parsed at 1 in Hd. rewrite Hcp in Hd. unfold parsed at 1. by rewrite Hps.
    + by eapply subnets_ok_cons.
  - by apply commit_Err in He as [-> _].
Qed.

Lemma allocate_inv db id : net_inv db -> net_inv (allocate_for_node node_uuid id db).2.
Proof.
  intros Hinv. destruct (allocate_for_node node_uuid id db) as [[a|e] db'] eqn:Ha; simpl.
  - destruct Hinv as (Hnd & pool & p & Hpool & Hok).
    destruct (allocate_Ok _ _ _ _ _ _ Hnd Hpool Hok Ha)
      as (i & node & raw & Hi & Hc & Hni & _ & -> & Hnode & Hnone & _).
    split; [by rewrite set_node_ids|]. exists pool, p. split; [by destruct Hpool as (cfg & ?); exists cfg|].
    destruct Hpool as (_ & _ & _ & _ & Hsp).
    assert (aligned pool p (na_compute_cidr a)) as Hal by (exists i; split; [lia|done]).
    eapply subnets_ok_perm.
    + symmetry. apply (raws_perm db _ [net_show (na_compute_cidr a)]); [done|].
      by eapply set_node_some.
    + eapply subnets_ok_cons; [by eapply aligned_parse_show|done..].
  - by apply commit_Err in Ha as [-> _].
Qed.

Lemma net_step_inv db db' : net_inv db -> net_step db db' -> net_inv db'.
Proof.
  intros Hinv Hs. destruct Hs as [db pool p Hv|db u|db r ready|db r|db id|db id|db nodes removed Hnd Hr|db up].
  - by apply configure_inv.
  - by apply ensure_inv.
  - destruct (set_control_plane_ready_for r ready db) as [[[]|e] db'] eqn:He; simpl;
      [|by apply commit_Err in He as [-> _]].
    apply commit_Ok in He. apply result_bind_Ok in He as (row & Hrow & He).
    unfold query in Hrow. destruct (db_answers db); [|done]. apply Ok_inj in Hrow. subst row.
    destruct (db_config db) as [cfg|] eqn:Hcfg; [|done]. destruct (matches_reservation r cfg); [|done].
    apply Ok_inj in He. injection He as <-. destruct Hinv as (Hn & pool & p & (cfg' & Hc' & Hrest) & Hok).
    split; [done|]. exists pool, p. assert (cfg' = cfg) as -> by congruence. split; [eexists; by split|].
    unfold raws in *. by rewrite Hcfg in Hok.
  - destruct (release_unready_control_plane_reservation r db) as [[[]|e] db'] eqn:He; simpl;
      [|by apply commit_Err in He as [-> _]].
    apply commit_Ok in He. apply result_bind_Ok in He as (cfg & Hcfg & He).
    apply load_config_Ok in Hcfg as [Hcfg _]. destruct (negb _); [done|].
    destruct (nc_control_plane_overlay_ready cfg); [done|]. apply result_bind_Ok in He as (g & _ & He).
    apply Ok_inj in He. injection He as <-. destruct Hinv as (Hn & pool & p & (cfg' & Hc' & Hrest) & Hok).
    split; [done|]. exists pool, p. assert (cfg' = cfg) as -> by congruence. split; [eexists; by split|].
    unfold raws in *. rewrite Hcfg in Hok. simpl.
    destruct (nc_control_plane_compute_cidr cfg) as [raw|]; [|done].
    by apply (subnets_ok_app pool p [raw]).
  - by apply allocate_inv.
  - unfold release, query. destruct (db_answers db); simpl; [|done].
    destruct (set_node_none db id) as (removed & Hr).
    eapply net_inv_nodes; [done|done| |exact Hr]. rewrite set_node_ids. apply Hinv.
  - by eapply net_inv_nodes.
  - apply (net_inv_nodes db _ []); [done|done|apply Hinv|done].
Qed.

Lemma net_steps_inv db db' : net_inv db -> rtc net_step db db' -> net_inv db'.
Proof. intros Hi. induction 1 as [|a b c Hs _ IH]; [done|]. apply IH. by eapply net_step_inv. Qed.

(** C32: Whatever operations came before, no two holders of a subnet (nodes, control plane)
    share an address, and every subnet lies in the configured pool. *)
Theorem allocations_disjoint db0 db i j ri rj a b ip :
  net_inv db0 -> rtc net_step db0 db ->
  raws db !! i = Some ri -> raws db !! j = Some rj -> i <> j ->
  net_parse ri = Ok a -> net_parse rj = Ok b ->
  ~ (net_contains a ip = true /\ net_contains b ip = true) /\
  exists pool p, pool_is db pool p /\ (net_contains a ip = true -> net_contains pool ip = true).
Proof.
  intros H0 Hr Hi Hj Hne Ha Hb. apply net_steps_inv in Hr as (_ & pool & p & Hpool & Hok); [|done].
  pose proof Hpool as (cfg & _ & _ & _ & Hsp). pose proof Hok as [Hf Hnd].
  assert (forall k r n, raws db !! k = Some r -> net_parse r = Ok n -> aligned pool p n) as Hal.
  { intros k r n Hk Hn. rewrite List.Forall_forall in Hf.
    assert (In r (raws db)) as Hin by (apply list_elem_of_In; eapply list_elem_of_lookup_2, Hk).
    destruct (Hf r Hin) as (n' & Hn' & ?). congruence. }
  split.
  - intros [Hca Hcb]. assert (a = b) as <-
      by (apply (subnet_disjoint pool p a b ip); eauto).
    assert (forall l x y, x <> y -> l !! x = Some ri -> l !! y = Some rj -> ~ NoDup (omap parsed l)) as Hdup;
      [|by eapply (Hdup (raws db) i j)].
    assert (parsed ri = Some a /\ parsed rj = Some a) as [Hpi Hpj]
      by (unfold parsed; rewrite Ha, Hb; done).
    assert (forall (l : list string) y r, l !! y = Some r -> parsed r = Some a -> a ∈ omap parsed l) as Hmem.
    { intros l y r Hy Hp. apply list_elem_of_omap. exists r. split; [by eapply list_elem_of_lookup_2|done]. }
    induction l as [|r l IH]; intros x y Hxy Hx Hy HN; [done|]. simpl in HN.
    destruct x as [|x], y as [|y]; simplify_eq/=.
    + rewrite Hpi in HN. inversion HN as [|? ? Hni _]; subst. by eapply Hni, Hmem.
    + rewrite Hpj in HN. inversion HN as [|? ? Hni _]; subst. by eapply Hni, Hmem.
    + apply (IH x y); [congruence|done..|]. destruct (parsed r); [by inversion HN|done].
  - exists pool, p. split; [done|]. destruct (Hal i ri a Hi Ha) as (k & Hk & ->).
    rewrite (subnet_contains pool p) by done. destruct Hsp as (Hv & Hp & _).
    rewrite contains_law, broadcast_law, andb_true_iff, !Z.leb_le by done.
    pose proof Hv as [_ Hq]. pose proof (net_size_split (net_prefix pool) p) as Hs. rewrite Hs by lia.
    pose proof (net_size_pos p) as Hpos. set (m := 2 ^ (p - net_prefix pool)) in *.
    set (z := net_size p) in *. assert (0 < z) by lia. intros Hip. assert ((k + 1) * z <= m * z) by nia. nia.
Qed.

Lemma parse_used_Err l e : parse_used l = Err e -> exists raw m, e = ComputeCidrInvalid 0 raw m.
Proof.
  unfold parse_used. enough (forall acc, result_fold (fun used raw =>
      let? c := map_err (fun e => ComputeCidrInvalid 0 raw e) (net_parse raw) in Ok (used ++ [c])) l acc
      = Err e -> exists raw m, e = ComputeCidrInvalid 0 raw m) as Hgen by apply Hgen.
  induction l as [|raw l IH]; intros acc; cbn [result_fold]; [done|].
  intros Hf. apply result_bind_Err in Hf as [Hf|(acc' & _ & Hf)]; [|exact (IH _ Hf)].
  destruct (net_parse raw) as [n|m]; simpl in Hf; [done|]. simplify_eq. by eauto.
Qed.

(** A step that fails for another reason than exhaustion. *)
Ltac other_reason Ha :=
  exfalso; unfold load_config, query, pool_of, prefix_of, validate_subnet_prefix,
    validate_underlay_outside_pool, validate_private_underlay, parse_underlay, map_err, ok_or in Ha;
  repeat (cbn [result_bind] in Ha; case_match); cbn [result_bind] in Ha; simplify_eq; done.

Lemma allocate_exhausted db id pool p pool' p' n e :
  pool_is db pool p -> subnets_ok pool p (raws db) -> e = PoolExhausted pool' p' n ->
  (exists db', allocate_for_node node_uuid id db = (Err e, db')) ->
  forall i, 0 <= i < 2 ^ (p - net_prefix pool) -> subnet pool p i ∈ used_of db.
Proof.
  intros Hpool Hok -> (db' & Ha) i Hi. apply commit_Err in Ha as [_ Ha].
  apply result_bind_Err in Ha as [Ha|(cfg & Hcfg & Ha)]; [other_reason Ha|].
  apply load_config_Ok in Hcfg as [Hcfg _].
  apply result_bind_Err in Ha as [Ha|(pool1 & Hpo & Ha)]; [other_reason Ha|].
  apply result_bind_Err in Ha as [Ha|(p1 & Hpr & Ha)]; [other_reason Ha|].
  destruct (pool_of_is _ _ _ _ _ _ Hpool Hcfg Hpo Hpr) as [-> ->].
  apply result_bind_Err in Ha as [Ha|(_ & _ & Ha)]; [other_reason Ha|].
  apply result_bind_Err in Ha as [Ha|(node & _ & Ha)]; [other_reason Ha|].
  destruct (nd_compute_cidr node).
  { apply result_bind_Err in Ha as [Ha|(? & _ & Ha)]; other_reason Ha. }
  apply result_bind_Err in Ha as [Ha|(raw & _ & Ha)]; [other_reason Ha|].
  apply result_bind_Err in Ha as [Ha|(underlay & _ & Ha)]; [other_reason Ha|].
  apply result_bind_Err in Ha as [Ha|(_ & _ & Ha)]; [other_reason Ha|].
  apply result_bind_Err in Ha as [Ha|(_ & _ & Ha)]; [other_reason Ha|].
  apply result_bind_Err in Ha as [Ha|(used & Hused & Ha)].
  { by apply parse_used_Err in Ha as (? & ? & ?). }
  apply parse_used_spec in Hused as [-> _].
  apply result_bind_Err in Ha as [Ha|(used' & Hused' & Ha)].
  { exfalso. destruct (nc_control_plane_compute_cidr cfg) as [r|]; [|done].
    apply result_bind_Err in Ha as [Ha|(? & _ & Ha)]; [other_reason Ha|done]. }
  pose proof (used_matches db cfg used' Hcfg Hused') as Heq.
  apply result_bind_Err in Ha as [Ha|(? & _ & ?)]; [|done].
  destruct (pick_free_subnet pool p used') eqn:Hpick; [done|].
  pose proof (pick_free_spec pool p used') as Hspec. rewrite Hpick in Hspec. apply Heq, Hspec; [..|done].
  - by destruct Hpool as (_ & _ & _ & _ & ?).
  - pose proof (subnets_ok_aligned _ _ _ Hok) as Hall. rewrite List.Forall_forall in *.
    intros m Hm%list_elem_of_In. apply Hall, list_elem_of_In. by apply Heq.
Qed.

(** An allocation takes the lowest free subnet of the pool, is what a later lookup of
    the node returns, and is refused for exhaustion only when every subnet of the pool is
    in use. *)
Theorem allocate_lowest_free db id pool p :
  net_inv db -> pool_is db pool p ->
  match allocate_for_node node_uuid id db with
  | (Ok a, db') => exists i, 0 <= i < 2 ^ (p - net_prefix pool) /\ na_compute_cidr a = subnet pool p i /\
      (subnet pool p i ∉ used_of db) /\ (forall j, 0 <= j < i -> subnet pool p j ∈ used_of db) /\
      get_alloc node_uuid id db' = Ok (Some a)
  | (Err (PoolExhausted _ _ _), db') =>
      db' = db /\ forall i, 0 <= i < 2 ^ (p - net_prefix pool) -> subnet pool p i ∈ used_of db
  | (Err _, db') => db' = db
  end.
Proof.
  intros (Hnd & pool' & p' & Hpool' & Hok) Hpool.
  assert (pool' = pool /\ p' = p) as [-> ->].
  { destruct Hpool as (c & Hc & Hp & <- & _), Hpool' as (c' & Hc' & Hp' & <- & _).
    assert (c' = c) as -> by congruence. split; congruence. }
  destruct (allocate_for_node node_uuid id db) as [[a|e] db'] eqn:Ha.
  - destruct (allocate_Ok _ _ _ _ _ _ Hnd Hpool Hok Ha) as (i & node & raw & Hi & Hc & Hni & Hlow & -> &
      Hnode & Hnone & Hraw & Hua & Hid & Hext & Hbr & Hup).
    exists i. split; [done|]. split; [done|]. split; [by rewrite <- Hc|]. split; [done|].
    unfold get_alloc, query. simpl. rewrite Hup. cbn [result_bind].
    assert (List.find (fun n => nd_id n =? id) (db_nodes (set_node_cidr db id
      (Some (net_show (na_compute_cidr a))))) = Some {| nd_id := nd_id node;
      nd_compute_cidr := Some (net_show (na_compute_cidr a)); nd_underlay_address := Some raw |}) as Hf.
    { simpl. clear -Hnode Hraw. induction (db_nodes db) as [|n l IH]; simpl in *; [done|].
      destruct (nd_id n =? id) eqn:Hn; simpl; rewrite Hn; [|by apply IH]. simplify_eq. by rewrite Hraw. }
    simpl in Hf. rewrite Hf. simpl. destruct Hpool as (_ & _ & _ & _ & Hsp).
    rewrite (aligned_parse_show pool p) by (done || by exists i). simpl.
    unfold parse_underlay. rewrite Hua. simpl. destruct a. simpl in *. by subst.
  - pose proof (commit_Err _ _ _ _ Ha) as [-> _]. destruct e; try done. split; [done|].
    eapply (allocate_exhausted db id pool p); eauto.
Qed.

(** ** The setup generation *)

(** The row is still there and its generation has not gone down. *)
Definition gen_le (db db' : NetDb) : Prop :=
  forall cfg, db_config db = Some cfg -> exists cfg', db_config db' = Some cfg' /\
    nc_control_plane_setup_generation cfg <= nc_control_plane_setup_generation cfg'.

Lemma gen_le_refl db : gen_le db db.
Proof. intros cfg Hc. exists cfg. split; [done|lia]. Qed.

Lemma gen_le_config db db' : db_config db' = db_config db -> gen_le db db'.
Proof. intros Heq cfg Hc. exists cfg. split; [congruence|lia]. Qed.

Lemma next_generation_Ok cfg g :
  next_generation cfg = Ok g -> g = nc_control_plane_setup_generation cfg + 1.
Proof. unfold next_generation. destruct (_ <? _); by intros [= <-]. Qed.

Lemma gen_le_set db cfg cfg' :
  db_config db = Some cfg ->
  nc_control_plane_setup_generation cfg <= nc_control_plane_setup_generation cfg' ->
  gen_le db (set_config db cfg').
Proof. intros Hc Hle c Hc'. exists cfg'. split; [done|]. congruence. Qed.

Lemma ensure_generation u db r db' :
  ensure_control_plane_reservation u db = (Ok r, db') ->
  gen_le db db' /\ exists cfg cfg', db_config db = Some cfg /\ db_config db' = Some cfg' /\
    res_setup_generation r = nc_control_plane_setup_generation cfg' /\
    nc_control_plane_setup_generation cfg < nc_control_plane_setup_generation cfg'.
Proof.
  intros Ha. apply commit_Ok in Ha.
  apply result_bind_Ok in Ha as (cfg & Hcfg & Ha). apply load_config_Ok in Hcfg as [Hcfg _].
  do 4 (apply result_bind_Ok in Ha as (? & _ & Ha)). cbv zeta in Ha.
  apply result_bind_Ok in Ha as (? & _ & Ha).
  apply result_bind_Ok in Ha as (g & ->%next_generation_Ok & Ha). apply Ok_inj in Ha. injection Ha as <- <-.
  split; [eapply gen_le_set; [done|simpl; lia]|].
  do 2 eexists. split_and!; [done|reflexivity|done|simpl; lia].
Qed.

Lemma net_step_gen db db' : net_step db db' -> gen_le db db'.
Proof.
  intros Hs. destruct Hs as [db pool p Hv|db u|db r ready|db r|db id|db id|db nodes removed Hnd Hr|db up];
    try (by apply gen_le_config).
  - destruct (configure_pool pool p db) as [[c|e] db'] eqn:Hc; simpl;
      [|apply commit_Err in Hc as [-> _]; apply gen_le_refl].
    apply commit_Ok in Hc. apply result_bind_Ok in Hc as (? & _ & Hc).
    apply result_bind_Ok in Hc as (cfg & Hcfg & Hc). apply load_config_Ok in Hcfg as [Hcfg _].
    apply result_bind_Ok in Hc as (current & _ & Hc). cbv beta zeta in Hc.
    destruct (bool_decide (current = _)); [simplify_eq; apply gen_le_refl|].
    destruct (_ <? _)%nat; [done|]. apply result_bind_Ok in Hc as (g & ->%next_generation_Ok & Hc).
    apply Ok_inj in Hc. injection Hc as <- <-. eapply gen_le_set; [done|simpl; lia].
  - destruct (ensure_control_plane_reservation u db) as [[r|e] db'] eqn:He; simpl.
    + by apply ensure_generation in He as [? _].
    + apply commit_Err in He as [-> _]. apply gen_le_refl.
  - destruct (set_control_plane_ready_for r ready db) as [[[]|e] db'] eqn:He; simpl;
      [|apply commit_Err in He as [-> _]; apply gen_le_refl].
    apply commit_Ok in He. apply result_bind_Ok in He as (row & Hrow & He).
    unfold query in Hrow. destruct (db_answers db); [|done]. apply Ok_inj in Hrow. subst row.
    destruct (db_config db) as [cfg|] eqn:Hcfg; [|done]. destruct (matches_reservation r cfg); [|done].
    apply Ok_inj in He. injection He as <-. eapply gen_le_set; [done|simpl; lia].
  - destruct (release_unready_control_plane_reservation r db) as [[[]|e] db'] eqn:He; simpl;
      [|apply commit_Err in He as [-> _]; apply gen_le_refl].
    apply commit_Ok in He. apply result_bind_Ok in He as (cfg & Hcfg & He).
    apply load_config_Ok in Hcfg as [Hcfg _]. destruct (negb _); [done|].
    destruct (nc_control_plane_overlay_ready cfg); [done|].
    apply result_bind_Ok in He as (g & ->%next_generation_Ok & He).
    apply Ok_inj in He. injection He as <-. eapply gen_le_set; [done|simpl; lia].
  - destruct (allocate_for_node node_uuid id db) as [[a|e] db'] eqn:Ha; simpl;
      [|apply commit_Err in Ha as [-> _]; apply gen_le_refl].
    apply gen_le_config. apply commit_Ok in Ha. do 5 (apply result_bind_Ok in Ha as (? & _ & Ha)).
    destruct (nd_compute_cidr _); [by apply result_bind_Ok in Ha as (? & _ & ?)|].
    do 7 (apply result_bind_Ok in Ha as (? & _ & Ha)). apply Ok_inj in Ha. by injection Ha as <- <-.
  - apply gen_le_config. unfold release, query. by destruct (db_answers db).
Qed.

Lemma net_steps_gen db db' : rtc net_step db db' -> gen_le db db'.
Proof.
  induction 1 as [db|a b c Hs _ IH]; [apply gen_le_refl|]. intros cfg Hc.
  destruct (net_step_gen a b Hs cfg Hc) as (cfg1 & H1 & ?). destruct (IH cfg1 H1) as (cfg2 & ? & ?).
  exists cfg2. split; [done|lia].
Qed.

(** A stale setup is fenced: once another setup has reserved the control plane's
    subnet, the earlier one can neither publish nor withdraw it, whatever happens in
    between and after. *)
Theorem stale_setup_fenced u db0 r db1 db2 u' r' db3 db4 ready :
  ensure_control_plane_reservation u db0 = (Ok r, db1) -> rtc net_step db1 db2 ->
  ensure_control_plane_reservation u' db2 = (Ok r', db3) -> rtc net_step db3 db4 ->
  db_answers db4 = true ->
  set_control_plane_ready_for r ready db4 = (Err (superseded r), db4) /\
  release_unready_control_plane_reservation r db4 = (Err (superseded r), db4).
Proof.
  intros H1 H12 H2 H34 Hup.
  apply ensure_generation in H1 as (_ & cfg0 & cfg1 & _ & Hc1 & Hg1 & _).
  apply net_steps_gen in H12. destruct (H12 cfg1 Hc1) as (cfg2 & Hc2 & Hle12).
  apply ensure_generation in H2 as (_ & cfg2' & cfg3 & Hc2' & Hc3 & _ & Hlt).
  assert (cfg2' = cfg2) as -> by congruence.
  apply net_steps_gen in H34. destruct (H34 cfg3 Hc3) as (cfg4 & Hc4 & Hle34).
  assert (matches_reservation r cfg4 = false) as Hm.
  { unfold matches_reservation. rewrite (proj2 (Z.eqb_neq (nc_control_plane_setup_generation cfg4) _)) by lia.
    by rewrite andb_false_r. }
  unfold set_control_plane_ready_for, release_unready_control_plane_reservation, load_config, query.
  rewrite Hup. cbn [result_bind]. rewrite Hc4. cbn [ok_or result_bind]. by rewrite Hm.
Qed.
End Facts.

(** ** Concrete interfaces and a concrete cluster *)

(** A number as the text of its bits. *)
Fixpoint pos_text (p : positive) : string :=
  match p with
  | xH => EmptyString
  | xO p => String "0" (pos_text p)
  | xI p => String "1" (pos_text p)
  end.

Fixpoint text_pos (s : string) : positive :=
  match s with
  | EmptyString => xH
  | String c s => if bool_decide (c = "0"%char) then xO (text_pos s) else xI (text_pos s)
  end.

Lemma text_pos_text p : text_pos (pos_text p) = p.
Proof. induction p; simpl; congruence. Qed.

Definition valid_b (n : Ipv4Net) : bool :=
  (0 <=? net_addr n) && (net_addr n <? 2 ^ 32) && (0 <=? net_prefix n) && (net_prefix n <=? 32).

Instance bits_ipnet : Ipnet := {|
  net_parse s := match decode (text_pos s) : option (Z * Z) with
                 | Some (a, p) => let n := {| net_addr := a; net_prefix := p |} in
                                  if valid_b n then Ok n else Err "invalid"
                 | None => Err "invalid"
                 end;
  net_show n := pos_text (encode (net_addr n, net_prefix n));
  network n := net_addr n / net_size (net_prefix n) * net_size (net_prefix n);
  broadcast n := net_addr n / net_size (net_prefix n) * net_size (net_prefix n) + net_size (net_prefix n) - 1;
  net_contains n ip :=
    (net_addr n / net_size (net_prefix n) * net_size (net_prefix n) <=? ip) &&
    (ip <=? net_addr n / net_size (net_prefix n) * net_size (net_prefix n) + net_size (net_prefix n) - 1);
  subnets n p :=
    if (net_prefix n <=? p) && (p <=? 32) then
      Some (map (fun i => {| net_addr := net_addr n / net_size (net_prefix n) * net_size (net_prefix n)
                                         + i * net_size p; net_prefix := p |})
              (seqZ 0 (2 ^ (p - net_prefix n))))
    else None;
  net_new a p := if (0 <=? p) && (p <=? 32) then Some {| net_addr := a; net_prefix := p |} else None
|}.

Lemma valid_b_iff n : valid_b n = true <-> net_valid n.
Proof. unfold valid_b, net_valid. rewrite !andb_true_iff, !Z.leb_le, Z.ltb_lt. lia. Qed.

Instance bits_ipnet_laws : IpnetLaws bits_ipnet.
Proof.
  split; try done.
  - intros [a p] Hv. simpl. rewrite text_pos_text, decode_encode. by rewrite (proj2 (valid_b_iff _) Hv).
  - intros s n. simpl. destruct (decode _) as [[a p]|]; [|done].
    destruct (valid_b _) eqn:Hv; [|done]. intros [= <-]. by apply valid_b_iff.
  - intros n p _ Hp. simpl. by rewrite (proj2 (Z.leb_le _ _)), (proj2 (Z.leb_le p 32)) by lia.
  - intros a p Hp. simpl. by rewrite (proj2 (Z.leb_le 0 p)), (proj2 (Z.leb_le p 32)) by lia.
Qed.

Instance bits_addr : AddrText := {|
  addr_parse s := match decode (text_pos s) : option (bool * Z) with
                  | Some (true, a) => Ok (V4 a)
                  | Some (false, a) => Ok (V6 a)
                  | None => Err "invalid"
                  end;
  addr_show a := pos_text (match a with V4 a => encode (true, a) | V6 a => encode (false, a) end)
|}.

(** The pool 10.0.0.0/16 in subnets of 24 bits, node 1 at 192.168.0.1 and node 2 at
    192.168.0.2. *)
Definition sample_pool : Ipv4Net := {| net_addr := 0x0A000000; net_prefix := 16 |}.

Definition sample_net : NetDb := {|
  db_config := Some {| nc_compute_pool_cidr := net_show sample_pool; nc_subnet_prefix_len := 24;
    nc_control_plane_compute_cidr := None; nc_control_plane_underlay_address := None;
    nc_control_plane_overlay_ready := false; nc_control_plane_setup_generation := 0 |};
  db_nodes := [{| nd_id := 1; nd_compute_cidr := None; nd_underlay_address := Some (addr_show (V4 0xC0A80001)) |};
               {| nd_id := 2; nd_compute_cidr := None; nd_underlay_address := Some (addr_show (V4 0xC0A80002)) |}];
  db_answers := true |}.

Lemma sample_pool_is : pool_is sample_net sample_pool 24.
Proof.
  eexists. split; [reflexivity|]. split; [vm_compute; reflexivity|]. split; [reflexivity|].
  unfold splits, net_valid. simpl. lia.
Qed.

Lemma sample_net_inv : net_inv sample_net.
Proof.
  split; [apply (bool_decide_unpack _); vm_compute; exact I|]. exists sample_pool, 24.
  split; [apply sample_pool_is|]. split; constructor.
Qed.

(** Both nodes allocated, then the control plane. *)
Definition sample_allocated : NetDb :=
  (ensure_control_plane_reservation (V4 0xC0A80003)
    (allocate_for_node (fun i => i) 2 (allocate_for_node (fun i => i) 1 sample_net).2).2).2.

Lemma sample_steps : rtc (net_step (fun i => i)) sample_net sample_allocated.
Proof.
  eapply rtc_l; [apply (ns_allocate _ _ 1)|]. eapply rtc_l; [apply (ns_allocate _ _ 2)|].
  apply rtc_once, ns_ensure.
Qed.

Definition sample_subnet (i : Z) : Ipv4Net := subnet sample_pool 24 i.

Lemma allocations_disjoint_witness :
  ~ (net_contains (sample_subnet 255) 0x0A000001 = true /\
     net_contains (sample_subnet 0) 0x0A000001 = true) /\
  exists pool p, pool_is sample_allocated pool p /\
    (net_contains (sample_subnet 255) 0x0A000001 = true -> net_contains pool 0x0A000001 = true).
Proof.
  apply (allocations_disjoint (fun i => i) sample_net sample_allocated 0 1
    (net_show (sample_subnet 255)) (net_show (sample_subnet 0))).
  - apply sample_net_inv.
  - apply sample_steps.
  - vm_compute. reflexivity.
  - vm_compute. reflexivity.
  - discriminate.
  - vm_compute. reflexivity.
  - vm_compute. reflexivity.
Defined.

Lemma allocate_lowest_free_witness :
  match allocate_for_node (fun i => i) 1 sample_net with
  | (Ok a, db') => exists i, 0 <= i < 2 ^ 8 /\ na_compute_cidr a = sample_subnet i /\
      (sample_subnet i ∉ used_of sample_net) /\
      (forall j, 0 <= j < i -> sample_subnet j ∈ used_of sample_net) /\
      get_alloc (fun i => i) 1 db' = Ok (Some a)
  | (Err (PoolExhausted _ _ _), db') =>
      db' = sample_net /\ forall i, 0 <= i < 2 ^ 8 -> sample_subnet i ∈ used_of sample_net
  | (Err _, db') => db' = sample_net
  end.
Proof.
  exact (allocate_lowest_free (fun i => i) sample_net 1 sample_pool 24 sample_net_inv sample_pool_is).
Defined.

Definition first_setup := ensure_control_plane_reservation (V4 0xC0A80003) sample_net.
Definition second_setup := ensure_control_plane_reservation (V4 0xC0A80004) first_setup.2.

Lemma stale_setup_fenced_witness :
  match first_setup.1 with
  | Ok r => set_control_plane_ready_for r true second_setup.2 = (Err (superseded r), second_setup.2) /\
            release_unready_control_plane_reservation r second_setup.2
              = (Err (superseded r), second_setup.2)
  | Err _ => False
  end.
Proof.
  destruct first_setup as [[r|e] db1] eqn:H1; [|vm_compute in H1; discriminate].
  destruct second_setup as [[r'|e'] db2] eqn:H2; [|vm_compute in H2; discriminate].
  simpl.
  apply (stale_setup_fenced (fun i => i) (V4 0xC0A80003) sample_net r db1 db1 (V4 0xC0A80004) r' db2 db2 true).
  - exact H1.
  - constructor.
  - unfold second_setup in H2. rewrite H1 in H2. exact H2.
  - constructor.
  - assert (second_setup.2 = db2) as <- by (by rewrite H2). vm_compute. reflexivity.
Defined.
