(* ===== verification/TailBuffer.v ===== *)
(** * Captured command output

    [crates/temps-agent/src/output_buffer.rs]: the ring that keeps the newest bytes of a
    container's output ([BoundedTailBuffer]), the text made of it, and the response body
    that hands it out in frames while it holds its permit ([CaptureResponseStream]).

    Lengths and offsets are natural numbers.  A slice that is out of range and a
    subtraction below zero are [None], where the source panics. *)

From S2P Require Import Prelude Bytes Utf8.
Local Open Scope nat_scope.

Definition MAX_CAPTURED_STREAM_BYTES : Z := (4 * 1024 * 1024)%Z.
Definition CAPTURE_RESPONSE_CHUNK_BYTES : nat := N.to_nat (64 * 1024).

(** [&l[a..b]]. *)
Definition range {A} (l : list A) (a b : nat) : option (list A) :=
  if (a <=? b) && (b <=? length l) then Some (take (b - a) (drop a l)) else None.

(** [a - b] on [usize]. *)
Definition checked_sub (a b : nat) : option nat :=
  if b <=? a then Some (a - b) else None.

(** [l[a..b].copy_from_slice(src)]: the range must exist and have the length of [src]. *)
Definition copy_from_slice {A} (l : list A) (a b : nat) (src : list A) : option (list A) :=
  if (a <=? b) && (b <=? length l) && (length src =? b - a)
  then Some (take a l ++ src ++ drop b l) else None.

(** [rotate_left]. *)
Definition rotate_left {A} (mid : nat) (l : list A) : option (list A) :=
  if mid <=? length l then Some (drop mid l ++ take mid l) else None.

(** ** The ring *)

Record BoundedTailBuffer := {
  tb_bytes : list Z;
  tb_start : nat;
  tb_limit : nat;
  tb_truncated : bool
}.

Definition new (limit : nat) : BoundedTailBuffer :=
  {| tb_bytes := []; tb_start := 0; tb_limit := limit; tb_truncated := false |}.

Definition len (b : BoundedTailBuffer) : nat := length (tb_bytes b).

(** The end of [push]: [overwrite] goes over the oldest bytes, around the end of the ring. *)
Definition overwrite_oldest (bytes : list Z) (start limit : nat) (overwrite : list Z)
    : option (list Z) :=
  behind ← checked_sub limit start;
  let first := Nat.min (length overwrite) behind in
  head ← range overwrite 0 first;
  bytes ← copy_from_slice bytes start (start + first) head;
  if first <? length overwrite
  then tail ← range overwrite first (length overwrite);
       copy_from_slice bytes 0 (length overwrite - first) tail
  else Some bytes.

Definition push (b : BoundedTailBuffer) (chunk : list Z) : option BoundedTailBuffer :=
  if length chunk =? 0 then Some b
  else if tb_limit b =? 0 then
    Some {| tb_bytes := tb_bytes b; tb_start := tb_start b; tb_limit := tb_limit b; tb_truncated := true |}
  else if tb_limit b <=? length chunk then
    from ← checked_sub (length chunk) (tb_limit b);
    newest ← range chunk from (length chunk);
    Some {| tb_bytes := newest; tb_start := 0; tb_limit := tb_limit b;
            tb_truncated := tb_truncated b || ((0 <? len b) || (tb_limit b <? length chunk)) |}
  else
    let room := length (tb_bytes b) <? tb_limit b in
    append_bytes ← (if room
                    then free ← checked_sub (tb_limit b) (length (tb_bytes b));
                         Some (Nat.min (length chunk) free)
                    else Some 0);
    appended ← range chunk 0 append_bytes;
    let bytes := if room then tb_bytes b ++ appended else tb_bytes b in
    if room && (append_bytes =? length chunk) then
      Some {| tb_bytes := bytes; tb_start := tb_start b; tb_limit := tb_limit b;
              tb_truncated := tb_truncated b |}
    else
      overwrite ← range chunk append_bytes (length chunk);
      bytes ← overwrite_oldest bytes (tb_start b) (tb_limit b) overwrite;
      Some {| tb_bytes := bytes; tb_start := (tb_start b + length overwrite) mod tb_limit b;
              tb_limit := tb_limit b; tb_truncated := true |}.

(** ** The text *)

(** [char::is_control]: the general category Cc. *)
Definition is_control (c : Z) : bool :=
  ((0 <=? c) && (c <=? 0x1F) || (0x7F <=? c) && (c <=? 0x9F))%Z.

Definition QUESTION : Z := 63.

(** The loop body of [append_printable_utf8]. *)
Definition printable_char (c : Z) : Z :=
  if is_control c && negb ((c =? 10) || (c =? 13) || (c =? 9))%Z then QUESTION else c.

Definition append_printable_utf8 (output input : list Z) : list Z :=
  output ++ map printable_char input.

(** The loop of [append_sanitized_utf8]; a round drops at least one byte of the input. *)
Fixpoint append_sanitized_loop (fuel : nat) (output input : list Z) : list Z :=
  match fuel with
  | O => output
  | S fuel' =>
      if length input =? 0 then output
      else match from_utf8 input with
           | Utf8Ok valid => append_printable_utf8 output valid
           | Utf8Err _ from_error error_len =>
               let valid_bytes := length input - length from_error in
               let output :=
                 match from_utf8 (take valid_bytes input) with
                 | Utf8Ok valid => append_printable_utf8 output valid
                 | Utf8Err _ _ _ => output
                 end ++ [QUESTION] in
               match error_len with
               | Some invalid_bytes =>
                   append_sanitized_loop fuel' output (drop (valid_bytes + invalid_bytes) input)
               | None => output
               end
           end
  end.

Definition append_sanitized_utf8 (output input : list Z) : list Z :=
  append_sanitized_loop (S (length input)) output input.

Definition ELLIPSIS : Z := 0x2026.
Definition TRUNCATION_NOTICE : list Z :=
  chars "[" ++ [ELLIPSIS] ++ chars " earlier output truncated by worker " ++ [ELLIPSIS]
  ++ chars "]" ++ [10%Z].

Definition into_string (b : BoundedTailBuffer) : option (list Z) :=
  let output := if tb_truncated b then TRUNCATION_NOTICE else [] in
  bytes ← (if (length (tb_bytes b) =? tb_limit b) && (0 <? tb_start b)
           then rotate_left (tb_start b) (tb_bytes b) else Some (tb_bytes b));
  Some (append_sanitized_utf8 output bytes).

(** ** The response body *)

Record CaptureResponseStream := {
  cs_payload : list Z;
  cs_offset : nat;
  cs_permit : bool  (** whether the permit is held *)
}.

(** One [poll_next]: the frame handed out, [None] at the end, and the stream afterwards. *)
Definition poll_next (s : CaptureResponseStream) : option (option (list Z) * CaptureResponseStream) :=
  if length (cs_payload s) <=? cs_offset s then
    Some (None, {| cs_payload := []; cs_offset := cs_offset s; cs_permit := false |})
  else
    let stop := Nat.min (cs_offset s + CAPTURE_RESPONSE_CHUNK_BYTES) (length (cs_payload s)) in
    chunk ← range (cs_payload s) (cs_offset s) stop;
    Some (Some chunk, {| cs_payload := cs_payload s; cs_offset := stop; cs_permit := cs_permit s |}).

(** The stream [json_response_with_capture_permit] answers with. *)
Definition capture_stream (payload : list Z) : CaptureResponseStream :=
  {| cs_payload := payload; cs_offset := 0; cs_permit := true |}.

(** ** The ring keeps the newest bytes *)

(** The last [n] elements. *)
Definition last_n {A} (n : nat) (l : list A) : list A := drop (length l - n) l.

(** The bytes a ring holds, oldest first. *)
Definition contents (b : BoundedTailBuffer) : list Z :=
  drop (tb_start b) (tb_bytes b) ++ take (tb_start b) (tb_bytes b).

(** [b] is what is left of the output [s]. *)
Record holds (s : list Z) (b : BoundedTailBuffer) : Prop := {
  h_contents : contents b = last_n (tb_limit b) s;
  h_truncated : tb_truncated b = (tb_limit b <? length s);
  h_start : tb_start b = 0 \/ tb_start b < tb_limit b /\ length (tb_bytes b) = tb_limit b
}.

Lemma range_Some {A} (l : list A) a b :
  a <= b <= length l -> range l a b = Some (take (b - a) (drop a l)).
Proof.
  intros Hab. unfold range. destruct (Nat.leb_spec a b); [|lia].
  by destruct (Nat.leb_spec b (length l)); [|lia].
Qed.

Lemma checked_sub_Some a b : b <= a -> checked_sub a b = Some (a - b).
Proof. intros. unfold checked_sub. by destruct (Nat.leb_spec b a); [|lia]. Qed.

Lemma copy_from_slice_app {A} (l1 l2 l3 src : list A) a b :
  a = length l1 -> b = length l1 + length l2 -> length src = length l2 ->
  copy_from_slice (l1 ++ l2 ++ l3) a b src = Some (l1 ++ src ++ l3).
Proof.
  intros -> -> Hl. unfold copy_from_slice. rewrite !length_app.
  destruct (Nat.leb_spec (length l1) (length l1 + length l2)); [|lia].
  destruct (Nat.leb_spec (length l1 + length l2) (length l1 + (length l2 + length l3))); [|lia].
  destruct (Nat.eqb_spec (length src) (length l1 + length l2 - length l1)); [|lia]. simpl.
  rewrite take_app_length, (app_assoc l1 l2 l3), drop_app_length'; [done|by rewrite length_app].
Qed.

Lemma last_n_app {A} n (s t : list A) : length t <= n -> last_n n (s ++ t) = last_n (n - length t) s ++ t.
Proof.
  intros Ht. unfold last_n. rewrite length_app, drop_app.
  replace (length s + length t - n - length s) with 0 by lia. rewrite drop_0.
  by replace (length s + length t - n) with (length s - (n - length t)) by lia.
Qed.

Lemma last_n_drop {A} n k (s : list A) : k <= n -> n <= length s -> drop k (last_n n s) = last_n (n - k) s.
Proof. intros. unfold last_n. rewrite drop_drop. f_equal. lia. Qed.

Lemma last_n_all {A} n (s : list A) : length s <= n -> last_n n s = s.
Proof. intros. unfold last_n. by replace (length s - n) with 0 by lia. Qed.

Lemma length_last_n {A} n (s : list A) : length (last_n n s) = Nat.min n (length s).
Proof. unfold last_n. rewrite length_drop. lia. Qed.

Lemma length_contents b : length (contents b) = length (tb_bytes b).
Proof. unfold contents. rewrite length_app, length_drop, length_take. lia. Qed.

(** Overwriting a full ring drops as many of its oldest bytes: without going around its end, *)
Lemma overwrite_fits bytes start limit ov :
  length bytes = limit -> start < limit -> 0 < length ov < limit -> start + length ov <= limit ->
  exists bytes', overwrite_oldest bytes start limit ov = Some bytes' /\ length bytes' = limit /\
    let start' := (start + length ov) mod limit in
    drop start' bytes' ++ take start' bytes' =
    drop (length ov) (drop start bytes ++ take start bytes) ++ ov.
Proof.
  intros Hl Hs Hov Hfit. unfold overwrite_oldest. rewrite checked_sub_Some by lia. cbn [mbind option_bind].
  rewrite (range_Some ov 0) by lia. cbn [mbind option_bind]. rewrite drop_0, Nat.sub_0_r.
  rewrite Nat.min_l, take_ge, Nat.ltb_irrefl by lia.
  set (B := take (length ov) (drop start bytes)). set (C := drop (length ov) (drop start bytes)).
  assert (bytes = take start bytes ++ B ++ C) as Hb by (unfold B, C; by rewrite !take_drop).
  assert (length B = length ov) as HB by (unfold B; rewrite length_take, length_drop; lia).
  assert (copy_from_slice bytes start (start + length ov) ov = Some (take start bytes ++ ov ++ C)) as ->.
  { transitivity (copy_from_slice (take start bytes ++ B ++ C) start (start + length ov) ov);
      [by rewrite <- Hb|apply copy_from_slice_app; rewrite ?length_take; lia]. }
  cbn [mbind option_bind]. eexists. split; [done|]. split.
  { rewrite !length_app, <- HB, <- !length_app. by rewrite <- Hb. }
  assert (drop (length ov) (drop start bytes ++ take start bytes) = C ++ take start bytes) as ->.
  { rewrite drop_app_le; [done|]. rewrite length_drop. lia. }
  cbv zeta. destruct (decide (start + length ov = limit)) as [He|Hne].
  + rewrite He, Nat.Div0.mod_same, drop_0, take_0, app_nil_r.
    assert (C = []) as -> by (apply nil_length_inv; unfold C; rewrite !length_drop; lia).
    by rewrite app_nil_r.
  + rewrite Nat.mod_small by lia.
    rewrite (app_assoc (take start bytes) ov C), drop_app_length', take_app_length'; [by rewrite app_assoc|..];
      rewrite length_app, length_take; lia.
Qed.

(** and around it. *)
Lemma overwrite_wraps bytes start limit ov :
  length bytes = limit -> start < limit -> 0 < length ov < limit -> limit < start + length ov ->
  exists bytes', overwrite_oldest bytes start limit ov = Some bytes' /\ length bytes' = limit /\
    let start' := (start + length ov) mod limit in
    drop start' bytes' ++ take start' bytes' =
    drop (length ov) (drop start bytes ++ take start bytes) ++ ov.
Proof.
  intros Hl Hs Hov Hwrap. unfold overwrite_oldest. rewrite checked_sub_Some by lia. cbn [mbind option_bind].
  rewrite (range_Some ov 0) by lia. cbn [mbind option_bind]. rewrite drop_0, Nat.sub_0_r.
  rewrite Nat.min_r by lia. set (n1 := limit - start).
  destruct (Nat.ltb_spec n1 (length ov)); [|lia].
  set (k := length ov - n1).
  set (A := take k bytes). set (M := drop k (take start bytes)). set (B := drop start bytes).
  assert (take start bytes = A ++ M) as HAM.
  { unfold A, M. rewrite <- (take_drop k (take start bytes)) at 1. f_equal.
    rewrite take_take. f_equal. unfold k, n1. lia. }
  assert (bytes = (A ++ M) ++ B ++ []) as Hb by (rewrite <- HAM, app_nil_r; unfold B; by rewrite take_drop).
  assert (length A = k) as HA by (unfold A; rewrite length_take; unfold k, n1; lia).
  assert (length M = start - k) as HM by (unfold M; rewrite length_drop, length_take; lia).
  assert (length B = n1) as HB by (unfold B; rewrite length_drop; unfold n1; lia).
  assert (k <= start) by (unfold k, n1; lia).
  assert (copy_from_slice bytes start (start + n1) (take n1 ov) = Some ((A ++ M) ++ take n1 ov ++ [])) as ->.
  { transitivity (copy_from_slice ((A ++ M) ++ B ++ []) start (start + n1) (take n1 ov));
      [by rewrite <- Hb|apply copy_from_slice_app; rewrite ?length_app, ?length_take; lia]. }
  cbn [mbind option_bind]. rewrite range_Some by lia. cbn [mbind option_bind].
  rewrite (take_ge (drop n1 ov)) by (rewrite length_drop; lia).
  rewrite app_nil_r, <- app_assoc. change (A ++ M ++ take n1 ov) with ([] ++ A ++ (M ++ take n1 ov)).
  rewrite copy_from_slice_app; [|rewrite ?length_drop; simpl; lia..]. eexists. split; [done|]. split.
  { simpl. rewrite !length_app, length_drop, length_take. unfold k, n1 in *. lia. }
  cbv zeta. simpl. fold B. rewrite HAM.
  replace ((start + length ov) mod limit) with k.
  2:{ replace (start + length ov) with (k + 1 * limit) by (unfold k, n1; lia).
      rewrite Nat.Div0.mod_add, Nat.mod_small; [done|unfold k, n1; lia]. }
  rewrite drop_app_length', take_app_length' by (rewrite length_drop; unfold k; lia).
  rewrite drop_app_ge, drop_app_length' by (unfold k in *; lia).
  rewrite <- !app_assoc. by rewrite take_drop.
Qed.

Lemma overwrite_oldest_spec bytes start limit ov :
  length bytes = limit -> start < limit -> 0 < length ov < limit ->
  exists bytes', overwrite_oldest bytes start limit ov = Some bytes' /\ length bytes' = limit /\
    let start' := (start + length ov) mod limit in
    drop start' bytes' ++ take start' bytes' =
    drop (length ov) (drop start bytes ++ take start bytes) ++ ov.
Proof.
  intros. destruct (le_lt_dec (start + length ov) limit);
    [by apply overwrite_fits|by apply overwrite_wraps].
Qed.

Lemma holds_length s b : holds s b -> length (tb_bytes b) = Nat.min (tb_limit b) (length s).
Proof. intros [Hc _ _]. by rewrite <- length_contents, Hc, length_last_n. Qed.

Lemma contents_start_0 b : tb_start b = 0 -> contents b = tb_bytes b.
Proof. intros H0. unfold contents. by rewrite H0, drop_0, take_0, app_nil_r. Qed.

(** A push into a ring with room left: all of the chunk, or what fits and the rest over the
    oldest bytes. *)
Lemma push_into_room s b chunk :
  tb_bytes b = s -> tb_start b = 0 -> tb_truncated b = (tb_limit b <? length s) ->
  length s < tb_limit b -> 0 < length chunk < tb_limit b ->
  let fit := Nat.min (length chunk) (tb_limit b - length (tb_bytes b)) in
  exists b',
    (if fit =? length chunk
     then Some {| tb_bytes := tb_bytes b ++ take fit chunk; tb_start := tb_start b;
                  tb_limit := tb_limit b; tb_truncated := tb_truncated b |}
     else overwrite ← range chunk fit (length chunk);
          bytes ← overwrite_oldest (tb_bytes b ++ take fit chunk) (tb_start b) (tb_limit b) overwrite;
          Some {| tb_bytes := bytes; tb_start := (tb_start b + length overwrite) mod tb_limit b;
                  tb_limit := tb_limit b; tb_truncated := true |}) = Some b' /\
    tb_limit b' = tb_limit b /\ holds (s ++ chunk) b'.
Proof.
  intros Hb Hs Ht Hroom Hch fit.
  assert (fit = Nat.min (length chunk) (tb_limit b - length s)) as Hfit by (unfold fit; by rewrite Hb).
  clearbody fit. rewrite Hb. destruct (Nat.eqb_spec fit (length chunk)) as [He|Hne].
  - rewrite take_ge by lia. eexists. split; [done|]. split; [done|]. split; simpl; [| |by left].
    + rewrite contents_start_0 by done. simpl. rewrite last_n_all; [done|]. rewrite length_app. lia.
    + rewrite Ht, length_app. apply Bool.eq_iff_eq_true. rewrite !Nat.ltb_lt. lia.
  - rewrite range_Some by lia. cbn [mbind option_bind].
    rewrite (take_ge (drop fit chunk)) by (rewrite length_drop; lia).
    destruct (overwrite_oldest_spec (s ++ take fit chunk) (tb_start b) (tb_limit b) (drop fit chunk))
      as (bytes & -> & Hl & Hcont); [rewrite ?length_app, ?length_take, ?length_drop; lia..|].
    eexists. split; [done|]. split; [done|]. split; simpl.
    + unfold contents at 1. simpl. rewrite Hcont, Hs, drop_0, take_0, app_nil_r.
      rewrite <- (take_drop fit chunk) at 4. rewrite (app_assoc s), last_n_app by (rewrite length_drop; lia).
      f_equal. unfold last_n. f_equal. rewrite !length_app, length_take, length_drop. lia.
    + rewrite length_app. symmetry. apply Nat.ltb_lt. lia.
    + right. split; [apply Nat.mod_upper_bound; lia|done].
Qed.

(** A push keeps what is left of the longer output. *)
Lemma ring_push_holds s b chunk :
  holds s b -> exists b', push b chunk = Some b' /\ tb_limit b' = tb_limit b /\ holds (s ++ chunk) b'.
Proof.
  intros Hh. pose proof (holds_length s b Hh) as Hlen. destruct Hh as [Hc Ht Hst]. unfold push.
  destruct (Nat.eqb_spec (length chunk) 0) as [H0|H0].
  { apply nil_length_inv in H0 as ->. exists b. rewrite app_nil_r. done. }
  destruct (Nat.eqb_spec (tb_limit b) 0) as [HL|HL].
  { eexists. split; [done|]. split; [done|]. split; simpl.
    - rewrite HL, Nat.min_0_l in *. apply nil_length_inv in Hlen. unfold contents. simpl.
      rewrite Hlen, drop_nil, take_nil. unfold last_n. symmetry. apply drop_ge. lia.
    - rewrite length_app. symmetry. apply Nat.ltb_lt. lia.
    - lia. }
  destruct (Nat.leb_spec (tb_limit b) (length chunk)) as [Hbig|Hsmall].
  { rewrite checked_sub_Some by lia. cbn [mbind option_bind]. rewrite range_Some by lia. cbn [mbind option_bind].
    eexists. split; [done|]. split; [done|]. split; simpl; [|rewrite Ht, length_app|by left].
    - rewrite contents_start_0 by done. simpl. rewrite take_ge by (rewrite length_drop; lia).
      unfold last_n. rewrite length_app, drop_app_ge by lia. f_equal. lia.
    - unfold len. rewrite Hlen. apply Bool.eq_iff_eq_true. rewrite !orb_true_iff, !Nat.ltb_lt. lia. }
  destruct (Nat.ltb_spec (length (tb_bytes b)) (tb_limit b)) as [Hroom|Hfull].
  - assert (tb_start b = 0) as Hs0 by lia. rewrite contents_start_0 in Hc by done.
    rewrite last_n_all in Hc by lia. rewrite checked_sub_Some by lia. cbn [mbind option_bind].
    rewrite (range_Some chunk 0) by lia. cbn [mbind option_bind andb]. rewrite drop_0, Nat.sub_0_r.
    apply push_into_room; [done..|lia|lia].
  - cbn [mbind option_bind andb]. rewrite (range_Some chunk 0) by lia. cbn [mbind option_bind].
    rewrite range_Some by lia. cbn [mbind option_bind]. rewrite drop_0, take_ge by lia.
    destruct (overwrite_oldest_spec (tb_bytes b) (tb_start b) (tb_limit b) chunk)
      as (bytes & -> & Hl & Hcont); [lia..|].
    eexists. split; [done|]. split; [done|]. split; simpl.
    + unfold contents at 1. simpl. rewrite Hcont. fold (contents b). rewrite Hc, last_n_drop, last_n_app by lia.
      done.
    + rewrite length_app. symmetry. apply Nat.ltb_lt. lia.
    + right. split; [apply Nat.mod_upper_bound; lia|done].
Qed.

Fixpoint push_all (b : BoundedTailBuffer) (chunks : list (list Z)) : option BoundedTailBuffer :=
  match chunks with
  | [] => Some b
  | chunk :: rest => b' ← push b chunk; push_all b' rest
  end.

Lemma push_all_holds chunks s b :
  holds s b ->
  exists b', push_all b chunks = Some b' /\ tb_limit b' = tb_limit b /\ holds (s ++ concat chunks) b'.
Proof.
  revert s b. induction chunks as [|c chunks IH]; intros s b Hb; simpl.
  { exists b. by rewrite app_nil_r. }
  destruct (ring_push_holds s b c Hb) as (b1 & -> & Hl1 & Hb1). simpl.
  destruct (IH _ _ Hb1) as (b2 & -> & Hl2 & Hb2). exists b2. rewrite app_assoc. by rewrite <- Hl1.
Qed.

Lemma new_holds limit : holds [] (new limit).
Proof. split; simpl; [by unfold last_n|done|by left]. Qed.

(** ** The text, character by character *)

(** What a reader of the bytes makes of them: a character, or a question mark for a
    sequence that is none. *)
Fixpoint readable (fuel : nat) (l : list Z) : list Z :=
  match fuel, l with
  | O, _ | _, [] => []
  | S fuel', _ =>
      match decode_head l with
      | HChar c rest => printable_char c :: readable fuel' rest
      | HBad (Some n) => QUESTION :: readable fuel' (drop n l)
      | HBad None => [QUESTION]
      end
  end.

Definition readable_text (l : list Z) : list Z := readable (length l) l.

Lemma readable_enough f1 f2 l : length l <= f1 -> length l <= f2 -> readable f1 l = readable f2 l.
Proof.
  revert f2 l. induction f1 as [|f1 IH]; intros [|f2] [|b l] H1 H2; try (simpl in *; lia); [done..|].
  cbn [readable]. destruct (decode_head (b :: l)) as [c rest|[n|]] eqn:Hd; [| |done].
  - apply decode_head_shorter in Hd. f_equal. apply IH; simpl in *; lia.
  - apply decode_head_error_len in Hd; [|done]. f_equal. apply IH; rewrite length_drop; simpl in *; lia.
Qed.

Lemma readable_text_char l c rest :
  decode_head l = HChar c rest -> readable_text l = printable_char c :: readable_text rest.
Proof.
  intros Hd. pose proof (decode_head_shorter _ _ _ Hd). unfold readable_text.
  destruct l as [|b l]; [simpl in *; lia|]. cbn [readable length]. rewrite Hd. f_equal.
  apply readable_enough; simpl in *; lia.
Qed.

Lemma readable_text_bad l n :
  l <> [] -> decode_head l = HBad n ->
  readable_text l = QUESTION :: match n with Some k => readable_text (drop k l) | None => [] end.
Proof.
  intros Hne Hd. unfold readable_text. destruct l as [|b l]; [done|]. cbn [readable length].
  rewrite Hd. destruct n as [k|]; [|done]. apply decode_head_error_len in Hd; [|done]. f_equal.
  apply readable_enough; rewrite length_drop; simpl in *; lia.
Qed.

(** What [from_utf8] finds, in characters. *)
Lemma readable_from_utf8 fuel l :
  length l <= fuel ->
  readable_text l =
  match from_utf8_fuel fuel l with
  | Utf8Ok s => map printable_char s
  | Utf8Err s e n =>
      map printable_char s ++ QUESTION :: match n with Some k => readable_text (drop k e) | None => [] end
  end.
Proof.
  revert l. induction fuel as [|fuel IH]; intros l Hf; (destruct l as [|b l']; [done|]); [simpl in Hf; lia|].
  cbn [from_utf8_fuel]. remember (b :: l') as l eqn:Hl. destruct (decode_head l) as [c rest|n] eqn:Hd.
  - rewrite (readable_text_char _ _ _ Hd). apply decode_head_shorter in Hd.
    rewrite (IH rest) by lia. by destruct (from_utf8_fuel fuel rest).
  - apply readable_text_bad; [by subst|done].
Qed.

(** Decoding does not look behind the character it returns. *)
Lemma decode_head_prefix l c rest :
  decode_head l = HChar c rest ->
  exists pre, l = pre ++ rest /\ forall rest', decode_head (pre ++ rest') = HChar c rest'.
Proof.
  unfold decode_head. split_cases; intros; simplify_eq;
    (first [eexists [_]; split; [reflexivity|] | eexists [_; _]; split; [reflexivity|]
           | eexists [_; _; _]; split; [reflexivity|] | eexists [_; _; _; _]; split; [reflexivity|]]);
    intros rest'; simpl; repeat match goal with H : _ = true |- _ => rewrite H | H : _ = false |- _ => rewrite H end;
    reflexivity.
Qed.

(** The valid prefix of a malformed buffer reads as the characters before the error. *)
Lemma from_utf8_valid_prefix fuel l s e n :
  length l <= fuel -> from_utf8_fuel fuel l = Utf8Err s e n ->
  exists pre, l = pre ++ e /\ forall f, length pre <= f -> from_utf8_fuel f pre = Utf8Ok s.
Proof.
  revert l s. induction fuel as [|fuel IH]; intros l s Hf; (destruct l as [|b l']; [done|]); [simpl in Hf; lia|].
  cbn [from_utf8_fuel]. remember (b :: l') as l eqn:Hl. destruct (decode_head l) as [c rest|m] eqn:Hd.
  - pose proof (decode_head_shorter _ _ _ Hd). destruct (decode_head_prefix _ _ _ Hd) as (p & -> & Hp).
    destruct (from_utf8_fuel fuel rest) as [|s' e' n'] eqn:Hr; [done|]. intros [= <- <- <-].
    destruct (IH rest s' ltac:(lia) Hr) as (pre & -> & Hpre). exists (p ++ pre).
    split; [by rewrite app_assoc|]. rewrite !length_app in *.
    intros [|f] Hlf; [lia|]. destruct (p ++ pre) as [|x y] eqn:Hpp.
    { apply app_nil in Hpp as [-> ->]. simpl in *. lia. }
    cbn [from_utf8_fuel]. rewrite <- Hpp, Hp, Hpre; [done|lia].
  - intros [= <- <- <-]. exists []. split; [done|]. by intros [|].
Qed.

Lemma append_sanitized_readable fuel output l :
  length l < fuel -> append_sanitized_loop fuel output l = output ++ readable_text l.
Proof.
  revert output l. induction fuel as [|fuel IH]; intros output l Hf; [lia|]. cbn [append_sanitized_loop].
  destruct (Nat.eqb_spec (length l) 0) as [H0|H0].
  { apply nil_length_inv in H0 as ->. by rewrite app_nil_r. }
  rewrite (readable_from_utf8 (length l) l) by lia. fold (from_utf8 l). unfold append_printable_utf8.
  destruct (from_utf8 l) as [s|s e n] eqn:Hr; [done|].
  destruct (from_utf8_error _ _ _ _ Hr) as (He & Hle & Hn).
  destruct (from_utf8_valid_prefix _ _ _ _ _ (le_n _) Hr) as (pre & Hl & Hpre).
  assert (length l - length e = length pre) as -> by (rewrite Hl, length_app; lia).
  rewrite Hl, take_app_length. change (from_utf8 pre) with (from_utf8_fuel (length pre) pre).
  rewrite (Hpre (length pre) (le_n _)).
  destruct n as [k|]; [|by rewrite <- app_assoc]. destruct (Hn k eq_refl).
  rewrite IH by (rewrite length_drop, length_app; rewrite Hl, length_app in Hf; lia).
  rewrite <- drop_drop, drop_app_length. by rewrite <- !app_assoc.
Qed.

Lemma readable_text_str s : is_str s -> readable_text (encode_str s) = map printable_char s.
Proof.
  intros Hs. rewrite (readable_from_utf8 (length (encode_str s))) by lia.
  change (from_utf8_fuel (length (encode_str s)) (encode_str s)) with (from_utf8 (encode_str s)).
  by rewrite from_utf8_encode.
Qed.

(** Only line breaks and tabs are left of the control characters. *)
Definition displayable (c : Z) : Prop := is_control c = false \/ c ∈ [10; 13; 9]%Z.

Lemma printable_displayable c : displayable (printable_char c).
Proof.
  unfold displayable, printable_char. destruct (is_control c) eqn:Hc; simpl; [|by left].
  destruct (_ || _) eqn:Hk; simpl; [|by left].
  right. apply orb_true_iff in Hk as [Hk|Hk]; [apply orb_true_iff in Hk as [Hk|Hk]|];
    apply Z.eqb_eq in Hk as ->; set_solver.
Qed.

Lemma readable_displayable fuel l : Forall displayable (readable fuel l).
Proof.
  revert l. induction fuel as [|fuel IH]; intros l; [by destruct l; constructor|].
  destruct l as [|b l]; [constructor|]. cbn [readable].
  destruct (decode_head (b :: l)) as [c rest|[n|]]; constructor; try done.
  - apply printable_displayable.
  - by left.
  - by left.
Qed.

(** A character takes as many bytes as it was read from. *)
Lemma decode_head_width l c rest :
  decode_head l = HChar c rest -> length l = length (encode_char c) + length rest.
Proof.
  unfold decode_head, second_ok3, second_ok4, is_cont. split_cases; intros; simplify_eq;
    unfold encode_char;
    repeat match goal with |- context [(?a <? ?b)%Z] => destruct (Z.ltb_spec a b) end; simpl; try lia;
    exfalso; lia.
Qed.

Lemma printable_width c : length (encode_char (printable_char c)) <= length (encode_char c).
Proof.
  unfold printable_char. case_match; [|done]. change (length (encode_char QUESTION)) with 1.
  pose proof (encode_char_nonempty c). destruct (encode_char c); [done|simpl; lia].
Qed.

Lemma readable_width fuel l : length l <= fuel -> length (encode_str (readable fuel l)) <= length l.
Proof.
  revert l. induction fuel as [|fuel IH]; intros l Hf; (destruct l as [|b l']; [simpl; lia|]); [simpl in Hf; lia|].
  cbn [readable]. remember (b :: l') as l eqn:Hl.
  destruct (decode_head l) as [c rest|[n|]] eqn:Hd; unfold encode_str; cbn [flat_map]; fold (encode_str);
    rewrite length_app.
  - apply decode_head_width in Hd. pose proof (printable_width c).
    pose proof (encode_char_nonempty c). assert (0 < length (encode_char c)) by (destruct (encode_char c); [done|simpl; lia]).
    specialize (IH rest ltac:(lia)). unfold encode_str in IH. lia.
  - apply decode_head_error_len in Hd; [|by subst].
    specialize (IH (drop n l)). rewrite length_drop in IH. specialize (IH ltac:(lia)).
    unfold encode_str in IH. change (length (encode_char QUESTION)) with 1. lia.
  - subst. simpl. lia.
Qed.

Lemma into_string_holds s b :
  holds s b ->
  into_string b = Some ((if tb_limit b <? length s then TRUNCATION_NOTICE else [])
                        ++ readable_text (last_n (tb_limit b) s)).
Proof.
  intros [Hc Ht Hs]. unfold into_string, append_sanitized_utf8. rewrite Ht.
  assert ((if (length (tb_bytes b) =? tb_limit b) && (0 <? tb_start b)
           then rotate_left (tb_start b) (tb_bytes b) else Some (tb_bytes b)) = Some (contents b)) as ->.
  { destruct Hs as [H0|[Hlt Hlen]].
    - rewrite H0, andb_false_r, contents_start_0; done.
    - rewrite Hlen, Nat.eqb_refl. simpl. destruct (Nat.ltb_spec 0 (tb_start b)).
      + unfold rotate_left. by destruct (Nat.leb_spec (tb_start b) (length (tb_bytes b))); [|lia].
      + rewrite contents_start_0; [done|lia]. }
  cbn [mbind option_bind]. by rewrite append_sanitized_readable, Hc by lia.
Qed.

(** C37: However a command's output is cut into chunks, capturing it never panics and keeps at
    most [limit] bytes, the newest ones: the text is the readable form of the last [limit] bytes
    of the whole output, behind the notice exactly when bytes were discarded.  The text holds no
    control characters but line breaks and tabs, takes at most [limit] bytes and the notice's,
    and output that is UTF-8 and fits is kept character by character. *)
Theorem captured_text_is_tail limit chunks :
  exists b text, push_all (new limit) chunks = Some b /\ into_string b = Some text /\
    let output := concat chunks in
    len b = Nat.min limit (length output) /\
    text = (if limit <? length output then TRUNCATION_NOTICE else []) ++ readable_text (last_n limit output) /\
    Forall displayable text /\
    length (encode_str text) <= length (encode_str TRUNCATION_NOTICE) + limit /\
    (forall s, is_str s -> output = encode_str s -> length output <= limit -> text = map printable_char s).
Proof.
  destruct (push_all_holds chunks [] (new limit) (new_holds limit)) as (b & Hb & Hl & Hh).
  simpl in Hl, Hh. exists b. eexists. split; [done|]. split; [by apply into_string_holds|].
  cbv zeta. rewrite Hl. split; [unfold len; by rewrite (holds_length _ _ Hh), Hl|]. split; [done|]. split; [|split].
  - apply Forall_app. split; [|apply readable_displayable].
    case_match; [|constructor]. repeat constructor; by (left; vm_compute).
  - rewrite encode_str_app, length_app.
    pose proof (readable_width _ (last_n limit (concat chunks)) (le_n _)) as Hw.
    fold (readable_text (last_n limit (concat chunks))) in Hw. rewrite length_last_n in Hw.
    case_match; [lia|]. cbn [encode_str flat_map length]. lia.
  - intros s Hs Ho Hlen. destruct (Nat.ltb_spec limit (length (concat chunks))); [lia|].
    rewrite last_n_all by lia. simpl. by rewrite Ho, readable_text_str.
Qed.

(** ** The response body *)

Arguments CAPTURE_RESPONSE_CHUNK_BYTES : simpl never.

Lemma chunk_bytes_pos : 0 < CAPTURE_RESPONSE_CHUNK_BYTES.
Proof. unfold CAPTURE_RESPONSE_CHUNK_BYTES. lia. Qed.

(** Polling up to the end: the frames with whether the permit was held behind each of them, and
    the stream at the end. *)
Inductive drains : CaptureResponseStream -> list (list Z) -> CaptureResponseStream -> Prop :=
  | drains_end s s' : poll_next s = Some (None, s') -> drains s [] s'
  | drains_frame s s1 frame frames s' :
      poll_next s = Some (Some frame, s1) -> cs_permit s1 = cs_permit s ->
      drains s1 frames s' -> drains s (frame :: frames) s'.

Lemma poll_frame s :
  cs_offset s < length (cs_payload s) ->
  exists frame s1, poll_next s = Some (Some frame, s1) /\
    cs_payload s1 = cs_payload s /\ cs_permit s1 = cs_permit s /\
    0 < length frame <= CAPTURE_RESPONSE_CHUNK_BYTES /\ cs_offset s1 = cs_offset s + length frame /\
    cs_offset s1 <= length (cs_payload s) /\
    drop (cs_offset s) (cs_payload s) = frame ++ drop (cs_offset s1) (cs_payload s).
Proof.
  intros Ho. pose proof chunk_bytes_pos. unfold poll_next.
  destruct (Nat.leb_spec (length (cs_payload s)) (cs_offset s)); [lia|].
  rewrite range_Some by lia. cbn [mbind option_bind]. do 2 eexists. split; [done|]. cbn.
  rewrite length_take, length_drop. split_and!; [done|done|lia..|].
  set (e := Nat.min _ _) in *. replace e with (cs_offset s + (e - cs_offset s)) at 2 by lia.
  by rewrite <- drop_drop, take_drop.
Qed.

Lemma drains_rest n s :
  length (cs_payload s) - cs_offset s <= n ->
  exists frames s', drains s frames s' /\ concat frames = drop (cs_offset s) (cs_payload s) /\
    Forall (fun f => 0 < length f <= CAPTURE_RESPONSE_CHUNK_BYTES) frames /\
    cs_permit s' = false /\ cs_payload s' = [].
Proof.
  revert s. induction n as [|n IH]; intros s Hn;
    (destruct (le_lt_dec (length (cs_payload s)) (cs_offset s)) as [He|Hlt];
     [exists [], {| cs_payload := []; cs_offset := cs_offset s; cs_permit := false |};
      split_and!; [apply drains_end; unfold poll_next; by destruct (Nat.leb_spec (length (cs_payload s)) (cs_offset s)); [|lia]
                  |by rewrite drop_ge|constructor|done|done]|]); [lia|].
  destruct (poll_frame s Hlt) as (f & s1 & Hp & Hpay & Hperm & Hf & Hoff & Hle & Hd).
  destruct (IH s1) as (fs & s' & Hdr & Hc & Hfs & ? & ?); [rewrite Hpay; lia|].
  exists (f :: fs), s'. split_and!; [by eapply drains_frame| |by constructor|done|done].
  simpl. by rewrite Hc, Hpay, Hd.
Qed.

(** Polling the response body of a capture ends: after finitely many frames, none of them
    empty and none larger than the frame size, that together are the payload, with the permit held
    behind every frame; the poll that reports the end gives the permit and the payload back. *)
Theorem capture_body_drains payload :
  exists frames s', drains (capture_stream payload) frames s' /\ concat frames = payload /\
    Forall (fun f => 0 < length f <= CAPTURE_RESPONSE_CHUNK_BYTES) frames /\
    cs_permit s' = false /\ cs_payload s' = [].
Proof.
  destruct (drains_rest _ (capture_stream payload) (le_n _)) as (frames & s' & Hd & Hc & Hf & ? & ?).
  exists frames, s'. by rewrite drop_0 in Hc.
Qed.
