(* ===== verification/RateLimiter.v ===== *)
(** * Request rate limiting of the proxy

    [crates/temps-proxy/src/rate_limiter.rs]: policies and their resolution, the packed
    fixed-window counters, the table of clients with its overflow buckets and sweeps.

    A request is one step on the state; the compare-and-swap loop of a single counter is a
    step machine of its own, interleaved in [concurrent_takes_exact].  [ipnetwork] is a
    section variable, and so is the seeded hash that picks a bucket. *)

From S2P Require Import Prelude Bytes IpText.
Local Open Scope Z_scope.

Definition MAX_TRACKED_CLIENTS : Z := 100000.
Definition OVERFLOW_BUCKETS : Z := 16384.
Definition SWEEP_INTERVAL_SECS : Z := 60.
Definition INSTANCE_SCOPE : Z := -1.

Record RateLimitPolicy := {
  per_minute : Z;
  per_hour : Z;
  whitelist : list (list Z);
  blacklist : list (list Z)
}.

Definition has_limits (p : RateLimitPolicy) : bool := (0 <? per_minute p) || (0 <? per_hour p).

Inductive RateLimitWindow := Minute | Hour.

Inductive RateLimitDecision :=
  | Allow
  | Blacklisted
  | Limited (window : RateLimitWindow) (retry_after_secs : Z).

Inductive RateLimitScope := Instance_ | Environment (id : Z).

Definition scope_key (s : RateLimitScope) : Z :=
  match s with Instance_ => INSTANCE_SCOPE | Environment id => id end.

(** ** Counters *)

Record ClientWindows := { cw_minute : Z; cw_hour : Z }.

Definition default_windows : ClientWindows := {| cw_minute := 0; cw_hour := 0 |}.

Definition seeded_from (bucket : ClientWindows) : ClientWindows :=
  {| cw_minute := cw_minute bucket; cw_hour := cw_hour bucket |}.

Definition pack (window count : Z) : Z := Z.lor (Z.shiftl window 32) count.

Definition unpack (cell : Z) : Z * Z := (wrap 32 (Z.shiftr cell 32), wrap 32 cell).

(** [try_take] by atomic accesses: before the load, in the loop with the value last seen, or
    returned. *)
Inductive TakePc := TkLoad | TkLoop (current : Z) | TkDone (taken : bool).

(** One access to the cell.  [compare_exchange_weak] may fail although the cell holds the
    expected value ([spurious]). *)
Definition try_take_step (window limit : Z) (spurious : bool) (pc : TakePc) (cell : Z) : TakePc * Z :=
  match pc with
  | TkLoad => if limit =? 0 then (TkDone true, cell) else (TkLoop cell, cell)
  | TkLoop current =>
      let '(current_window, count) := unpack current in
      let swap next :=
        if (cell =? current) && negb spurious then (TkDone true, next) else (TkLoop cell, cell) in
      if negb (current_window =? window) then swap (pack window 1)
      else if limit <=? count then (TkDone false, cell)
      else swap (pack window (count + 1))
  | TkDone _ => (pc, cell)
  end.

(** [try_take] when no other thread touches the cell: the load and one round of the loop. *)
Definition try_take (cell window limit : Z) : bool * Z :=
  let '(pc, cell) := try_take_step window limit false TkLoad cell in
  let '(pc, cell) := try_take_step window limit false pc cell in
  match pc with
  | TkDone taken => (taken, cell)
  | _ => (false, cell)
  end.

(** ** Lists of addresses *)

Definition normalize (ip : IpAddr) : IpAddr :=
  match ip with
  | V6 a => match to_ipv4_mapped a with Some v4 => V4 v4 | None => V6 a end
  | V4 a => V4 a
  end.

Section Limiter.
Context
  (** [IpNetwork::from_str] with [contains]. *)
  (network_from_str : list Z -> option (IpAddr -> bool))
  (** [RandomState::hash_one] of the process. *)
  (hash_one : Z * IpAddr -> Z).

Definition ip_listed (entries : list (list Z)) (ip : IpAddr) : bool :=
  existsb (fun entry =>
    let entry := trim entry in
    if (length entry =? 0)%nat then false
    else if existsb (Z.eqb 47) entry then
      match network_from_str entry with Some contains => contains ip | None => false end
    else
      match ip_from_str entry with Some listed => bool_decide (normalize listed = ip) | None => false end)
    entries.

(** ** The table *)

Record RateLimiter := {
  rl_clients : gmap (Z * IpAddr) ClientWindows;
  rl_capacity : nat;
  rl_overflow : list ClientWindows;
  rl_last_sweep_secs : Z;
  rl_overflow_admissions : Z
}.

Definition with_capacity (capacity : nat) : RateLimiter := {|
  rl_clients := ∅;
  rl_capacity := capacity;
  rl_overflow := replicate (Z.to_nat OVERFLOW_BUCKETS) default_windows;
  rl_last_sweep_secs := 0;
  rl_overflow_admissions := 0
|}.

Definition set_clients (s : RateLimiter) (clients : gmap (Z * IpAddr) ClientWindows) : RateLimiter :=
  {| rl_clients := clients; rl_capacity := rl_capacity s; rl_overflow := rl_overflow s;
     rl_last_sweep_secs := rl_last_sweep_secs s; rl_overflow_admissions := rl_overflow_admissions s |}.

Definition minute_window (now_secs : Z) : Z := wrap 32 (now_secs / 60).
Definition hour_window (now_secs : Z) : Z := wrap 32 (now_secs / 3600).

Definition take_windows (windows : ClientWindows) (policy : RateLimitPolicy) (now_secs : Z)
    : RateLimitDecision * ClientWindows :=
  let '(ok, minute) := try_take (cw_minute windows) (minute_window now_secs) (per_minute policy) in
  let windows := {| cw_minute := minute; cw_hour := cw_hour windows |} in
  if negb ok then (Limited Minute (60 - now_secs mod 60), windows)
  else
    let '(ok, hour) := try_take (cw_hour windows) (hour_window now_secs) (per_hour policy) in
    let windows := {| cw_minute := minute; cw_hour := hour |} in
    if negb ok then (Limited Hour (3600 - now_secs mod 3600), windows)
    else (Allow, windows).

(** [maybe_sweep]; the compare-and-swap of the time of the last sweep succeeds when no other
    request runs. *)
Definition maybe_sweep (now_secs : Z) (s : RateLimiter) : RateLimiter :=
  if now_secs <? Z.min (rl_last_sweep_secs s + SWEEP_INTERVAL_SECS) (2 ^ 64 - 1) then s
  else
    {| rl_clients := filter (fun kv =>
         (unpack (cw_minute kv.2)).1 = minute_window now_secs \/
         (unpack (cw_hour kv.2)).1 = hour_window now_secs) (rl_clients s);
       rl_capacity := rl_capacity s; rl_overflow := rl_overflow s;
       rl_last_sweep_secs := now_secs; rl_overflow_admissions := rl_overflow_admissions s |}.

(** The index [overflow_bucket] picks. *)
Definition overflow_bucket (key : Z * IpAddr) (s : RateLimiter) : nat :=
  Z.to_nat (hash_one key mod Z.of_nat (length (rl_overflow s))).

(** [take] on the entry of [key]. *)
Definition take_entry (key : Z * IpAddr) (windows : ClientWindows) (policy : RateLimitPolicy)
    (now_secs : Z) (s : RateLimiter) : RateLimitDecision * RateLimiter :=
  let '(d, windows) := take_windows windows policy now_secs in
  (d, set_clients s (<[key := windows]> (rl_clients s))).

Definition take_untracked (key : Z * IpAddr) (full : bool) (policy : RateLimitPolicy)
    (now_secs : Z) (s : RateLimiter) : RateLimitDecision * RateLimiter :=
  let i := overflow_bucket key s in
  let bucket := default default_windows (rl_overflow s !! i) in
  match rl_clients s !! key with
  | Some existing => take_entry key existing policy now_secs s
  | None =>
      if full then
        let '(d, windows) := take_windows bucket policy now_secs in
        (d, {| rl_clients := rl_clients s; rl_capacity := rl_capacity s;
               rl_overflow := <[i := windows]> (rl_overflow s);
               rl_last_sweep_secs := rl_last_sweep_secs s;
               rl_overflow_admissions := wrap 64 (rl_overflow_admissions s + 1) |})
      else take_entry key (seeded_from bucket) policy now_secs s
  end.

Definition check (scope : RateLimitScope) (ip : IpAddr) (policy : RateLimitPolicy) (now_secs : Z)
    (s : RateLimiter) : RateLimitDecision * RateLimiter :=
  let ip := normalize ip in
  if ip_listed (blacklist policy) ip then (Blacklisted, s)
  else if negb (has_limits policy) || ip_listed (whitelist policy) ip then (Allow, s)
  else
    let s := maybe_sweep now_secs s in
    let key := (scope_key scope, ip) in
    match rl_clients s !! key with
    | Some existing => take_entry key existing policy now_secs s
    | None =>
        let full := (rl_capacity s <=? size (rl_clients s))%nat in
        take_untracked key full policy now_secs s
    end.

(** ** Policies *)

Record RateLimitSettings := {
  rs_enabled : bool;
  rs_max_requests_per_minute : Z;
  rs_max_requests_per_hour : Z;
  rs_whitelist_ips : list (list Z);
  rs_blacklist_ips : list (list Z)
}.

Record RateLimitConfig := {
  rc_max_requests_per_minute : option Z;
  rc_max_requests_per_hour : option Z;
  rc_whitelist_ips : list (list Z);
  rc_blacklist_ips : list (list Z)
}.

(** The two fields of [SecurityConfig] the limiter reads. *)
Record SecurityConfig := { sc_enabled : option bool; sc_rate_limiting : option RateLimitConfig }.

Record ResolvedRateLimit := {
  rr_scope : RateLimitScope;
  rr_policy : RateLimitPolicy;
  rr_instance_blacklist : list (list Z)
}.

Definition resolve_policy (instance : RateLimitSettings) (project : option SecurityConfig)
    (environment_id : Z) : option ResolvedRateLimit :=
  let project_rl :=
    match project with
    | Some security =>
        if bool_decide (sc_enabled security = Some true) then sc_rate_limiting security else None
    | None => None
    end in
  let instance_blacklist := if rs_enabled instance then rs_blacklist_ips instance else [] in
  match project_rl with
  | Some rl =>
      Some {| rr_scope := Environment environment_id;
              rr_policy := {|
                per_minute := default (rs_max_requests_per_minute instance) (rc_max_requests_per_minute rl);
                per_hour := default (rs_max_requests_per_hour instance) (rc_max_requests_per_hour rl);
                whitelist := rc_whitelist_ips rl;
                blacklist := rc_blacklist_ips rl |};
              rr_instance_blacklist := instance_blacklist |}
  | None =>
      if rs_enabled instance then
        Some {| rr_scope := Instance_;
                rr_policy := {|
                  per_minute := rs_max_requests_per_minute instance;
                  per_hour := rs_max_requests_per_hour instance;
                  whitelist := rs_whitelist_ips instance;
                  blacklist := rs_blacklist_ips instance |};
                rr_instance_blacklist := [] |}
      else None
  end.

(** [ResolvedRateLimit::check]. *)
Definition resolved_check (r : ResolvedRateLimit) (ip : IpAddr) (now_secs : Z) (s : RateLimiter)
    : RateLimitDecision * RateLimiter :=
  if ip_listed (rr_instance_blacklist r) (normalize ip) then (Blacklisted, s)
  else check (rr_scope r) ip (rr_policy r) now_secs s.

(** ** Runs *)

Record Request := { rq_scope : RateLimitScope; rq_ip : IpAddr; rq_policy : RateLimitPolicy; rq_now : Z }.

(** Serving requests one after the other: what was decided, and the limiter afterwards. *)
Fixpoint serve (reqs : list Request) (s : RateLimiter) : list (Request * RateLimitDecision) * RateLimiter :=
  match reqs with
  | [] => ([], s)
  | r :: rest =>
      let '(d, s1) := check (rq_scope r) (rq_ip r) (rq_policy r) (rq_now r) s in
      let '(h, s2) := serve rest s1 in ((r, d) :: h, s2)
  end.

Definition rq_key (r : Request) : Z * IpAddr := (scope_key (rq_scope r), normalize (rq_ip r)).

Definition limit_of (w : RateLimitWindow) (p : RateLimitPolicy) : Z :=
  match w with Minute => per_minute p | Hour => per_hour p end.
Definition window_of (w : RateLimitWindow) (now : Z) : Z :=
  match w with Minute => minute_window now | Hour => hour_window now end.
Definition cell_of (w : RateLimitWindow) (c : ClientWindows) : Z :=
  match w with Minute => cw_minute c | Hour => cw_hour c end.

(** Whether a decision took a slot of the minute or of the hour. *)
Definition took (w : RateLimitWindow) (d : RateLimitDecision) : bool :=
  match w, d with
  | _, Allow | Minute, Limited Hour _ => true
  | _, _ => false
  end.

(** Whether the policy of the request counts it. *)
Definition counted (w : RateLimitWindow) (r : Request) : bool :=
  negb (ip_listed (whitelist (rq_policy r)) (normalize (rq_ip r))) && (0 <? limit_of w (rq_policy r)).

Definition takes_slot (w : RateLimitWindow) (key : Z * IpAddr) (window : Z)
    (rd : Request * RateLimitDecision) : bool :=
  took w rd.2 && counted w rd.1 && bool_decide (rq_key rd.1 = key)
  && (window_of w (rq_now rd.1) =? window).

(** The slots a client took in a window. *)
Definition taken (w : RateLimitWindow) (key : Z * IpAddr) (window : Z)
    (h : list (Request * RateLimitDecision)) : Z :=
  Z.of_nat (length (List.filter (takes_slot w key window) h)).

End Limiter.

(** ** One counter *)

(** The slots of [window] a cell has counted. *)
Definition eff (window cell : Z) : Z :=
  if (unpack cell).1 =? window then (unpack cell).2 else 0.

Lemma unpack_pack w c : fits 32 w -> fits 32 c -> unpack (pack w c) = (w, c).
Proof.
  unfold fits, unpack, pack. intros Hw Hc.
  rewrite Z.lor_comm, lor_disjoint by lia. unfold wrap. f_equal.
  - rewrite Z.shiftr_div_pow2, Z.div_add, Z.div_small, Z.mod_small; lia.
  - rewrite Z.mod_add, Z.mod_small; lia.
Qed.

Lemma unpack_fits cell : fits 32 (unpack cell).1 /\ fits 32 (unpack cell).2.
Proof. split; by apply wrap_fits. Qed.

Lemma eff_fits window cell : fits 32 (eff window cell).
Proof. unfold eff. destruct (unpack_fits cell). case_match; [done|]. unfold fits. lia. Qed.

Lemma eff_pack w c : fits 32 w -> fits 32 c -> eff w (pack w c) = c.
Proof. intros. unfold eff. rewrite unpack_pack by done. simpl. by rewrite Z.eqb_refl. Qed.

(** The cell a round of the loop writes. *)
Definition bump (window cell : Z) : Z := pack window (eff window cell + 1).

Lemma eff_bump w cell limit :
  fits 32 w -> fits 32 limit -> eff w cell < limit -> eff w (bump w cell) = eff w cell + 1.
Proof.
  intros Hw Hl He. apply eff_pack; [done|]. pose proof (eff_fits w cell). unfold fits in *. lia.
Qed.

(** A round of the loop in terms of [eff]. *)
Lemma try_take_round w limit sp current cell :
  0 < limit ->
  try_take_step w limit sp (TkLoop current) cell =
  if limit <=? eff w current then (TkDone false, cell)
  else if (cell =? current) && negb sp then (TkDone true, bump w current) else (TkLoop cell, cell).
Proof.
  intros Hl. unfold try_take_step, bump, eff. destruct (unpack current) as [cw c]. simpl.
  destruct (Z.eqb_spec cw w); simpl; [done|]. by destruct (Z.leb_spec limit 0); [lia|].
Qed.

Lemma try_take_eff cell w limit :
  0 <= limit ->
  try_take cell w limit =
  if limit =? 0 then (true, cell)
  else if limit <=? eff w cell then (false, cell) else (true, bump w cell).
Proof.
  intros Hl. unfold try_take. cbn [try_take_step]. destruct (Z.eqb_spec limit 0); [done|].
  rewrite try_take_round by lia. rewrite Z.eqb_refl. by destruct (limit <=? eff w cell).
Qed.

(** ** Many threads on one counter *)

(** A thread that tries to take a slot under its limit. *)
Record Taker := { tk_limit : Z; tk_pc : TakePc }.

(** One access of thread [i] to the cell. *)
Inductive take_access (window : Z) : list Taker * Z -> list Taker * Z -> Prop :=
  | access_step ts cell i t sp pc cell' :
      ts !! i = Some t -> try_take_step window (tk_limit t) sp (tk_pc t) cell = (pc, cell') ->
      take_access window (ts, cell) (<[i := {| tk_limit := tk_limit t; tk_pc := pc |}]> ts, cell').

Definition grant (t : Taker) : bool :=
  (0 <? tk_limit t) && match tk_pc t with TkDone true => true | _ => false end.

Definition grants (ts : list Taker) : Z := Z.of_nat (length (List.filter grant ts)).

Lemma grants_insert ts i t t' :
  ts !! i = Some t -> grants (<[i := t']> ts) = grants ts - Z.b2z (grant t) + Z.b2z (grant t').
Proof. apply count_insert. Qed.

Lemma grants_nonneg ts : 0 <= grants ts.
Proof. unfold grants. lia. Qed.

(** What holds of a thread while the cell has counted [count] slots. *)
Definition taker_ok (window max count : Z) (t : Taker) : Prop :=
  0 <= tk_limit t <= max /\
  match tk_pc t with
  | TkLoop current => 0 < tk_limit t /\ eff window current <= count
  | TkDone false => 0 < tk_limit t <= count
  | _ => True
  end.

Definition takes_inv (window max c0 : Z) (st : list Taker * Z) : Prop :=
  eff window st.2 = c0 + grants st.1 /\ (0 < grants st.1 -> c0 + grants st.1 <= max) /\
  Forall (taker_ok window max (c0 + grants st.1)) st.1.

Lemma taker_ok_mono window max count count' t :
  count <= count' -> taker_ok window max count t -> taker_ok window max count' t.
Proof. unfold taker_ok. destruct (tk_pc t) as [|c|[]]; naive_solver lia. Qed.

Lemma taker_step_ok window max t sp pc cell cell' :
  fits 32 window -> fits 32 max -> taker_ok window max (eff window cell) t ->
  try_take_step window (tk_limit t) sp (tk_pc t) cell = (pc, cell') ->
  let t' := {| tk_limit := tk_limit t; tk_pc := pc |} in
  eff window cell' = eff window cell - Z.b2z (grant t) + Z.b2z (grant t') /\
  eff window cell <= eff window cell' /\ taker_ok window max (eff window cell') t' /\
  (eff window cell < eff window cell' -> eff window cell' <= max).
Proof.
  intros Hw Hm [Hlim Hpc] Hs. unfold grant, taker_ok. simpl.
  destruct (tk_pc t) as [|current|b] eqn:Ht.
  - cbn in Hs. destruct (Z.eqb_spec (tk_limit t) 0) as [H0|H0]; injection Hs as <- <-.
    + rewrite H0. simpl. split_and!; lia || done.
    + rewrite andb_false_r. simpl. split_and!; lia.
  - destruct Hpc as [Hpos He]. rewrite try_take_round in Hs by done.
    destruct (Z.leb_spec (tk_limit t) (eff window current)).
    { injection Hs as <- <-. rewrite andb_false_r. simpl. split_and!; lia. }
    destruct (Z.eqb_spec cell current) as [<-|]; [destruct sp|]; simpl in Hs; injection Hs as <- <-.
    + rewrite andb_false_r. simpl. split_and!; lia.
    + rewrite (eff_bump window cell (tk_limit t)) by (unfold fits in *; lia || done).
      rewrite andb_false_r. destruct (Z.ltb_spec 0 (tk_limit t)); [|lia]. simpl. split_and!; lia || done.
    + rewrite andb_false_r. simpl. split_and!; lia.
  - cbn in Hs. injection Hs as <- <-. split_and!; lia || done.
Qed.

Lemma takes_inv_step window max c0 st st' :
  fits 32 window -> fits 32 max -> takes_inv window max c0 st -> take_access window st st' ->
  takes_inv window max c0 st'.
Proof.
  intros Hw Hm (He & Hg & Hts) Hstep. destruct Hstep as [ts cell i t sp pc cell' Hi Hs]. simpl in *.
  rewrite <- He in *. pose proof (Forall_lookup_1 _ _ _ _ Hts Hi) as Ht.
  destruct (taker_step_ok window max t sp pc cell cell' Hw Hm Ht Hs) as (He' & Hmono & Ht' & Hmax).
  assert (c0 + grants (<[i:={| tk_limit := tk_limit t; tk_pc := pc |}]> ts) = eff window cell') as Heq.
  { rewrite (grants_insert _ _ _ _ Hi). lia. }
  unfold takes_inv. simpl. rewrite Heq. split; [done|]. split.
  - intros Hpos. destruct (Z.ltb_spec (eff window cell) (eff window cell')); [auto|].
    assert (eff window cell' = eff window cell) as -> by lia. apply Hg. lia.
  - apply Forall_insert; [|done]. eapply Forall_impl; [|exact Hts]. intros x. by apply taker_ok_mono.
Qed.

Lemma takes_inv_run window max c0 st st' :
  fits 32 window -> fits 32 max -> rtc (take_access window) st st' ->
  takes_inv window max c0 st -> takes_inv window max c0 st'.
Proof. intros Hw Hm. induction 1; eauto using takes_inv_step. Qed.

(** A thread in the loop has its answer after one round with the current value, one after the
    other in between. *)
Lemma try_take_alone window limit pc cell :
  0 <= limit -> match pc with TkLoop _ => 0 < limit | _ => True end ->
  let alone '(pc, c) := try_take_step window limit false pc c in
  exists b, (alone (alone (alone (pc, cell)))).1 = TkDone b.
Proof.
  intros Hl Hpc alone.
  assert (forall b c, alone (TkDone b, c) = (TkDone b, c)) as Hdone by done.
  assert (0 < limit -> forall c, exists b c', alone (TkLoop c, c) = (TkDone b, c')) as Hfresh.
  { intros Hpos c. unfold alone. rewrite try_take_round by done. rewrite Z.eqb_refl. simpl.
    destruct (limit <=? eff window c); do 2 eexists; reflexivity. }
  destruct pc as [|current|b].
  - unfold alone at 3. cbn [try_take_step]. destruct (Z.eqb_spec limit 0); [by exists true|].
    destruct (Hfresh ltac:(lia) cell) as (b & c' & ->). rewrite Hdone. by exists b.
  - unfold alone at 3. rewrite try_take_round by done.
    destruct (limit <=? eff window current); [by eexists|].
    destruct (_ && _); [by eexists|]. destruct (Hfresh Hpc cell) as (b & c' & Hf).
    rewrite Hf, Hdone. by exists b.
  - rewrite !Hdone. by exists b.
Qed.

(** However the accesses of threads that try to take a slot of one window interleave, and
    however often a compare-and-swap fails for no reason, no slot is lost and none is given
    twice: the counter has gone up by the number of threads that were let through, it does not
    exceed the largest of their limits when there is one, and a thread that was refused found its
    limit reached.  A thread that makes three accesses in a row, none of them failing for no
    reason, has its answer. *)
Theorem concurrent_takes_exact window max cell ts ts' cell' :
  fits 32 window -> fits 32 max ->
  Forall (fun t => tk_pc t = TkLoad /\ 0 <= tk_limit t <= max) ts ->
  rtc (take_access window) (ts, cell) (ts', cell') ->
  eff window cell' = eff window cell + grants ts' /\
  (0 < grants ts' -> eff window cell + grants ts' <= max) /\
  (forall t, t ∈ ts' -> tk_pc t = TkDone false -> 0 < tk_limit t <= eff window cell') /\
  (forall t, t ∈ ts' ->
    let alone '(pc, c) := try_take_step window (tk_limit t) false pc c in
    exists b, (alone (alone (alone (tk_pc t, cell')))).1 = TkDone b).
Proof.
  intros Hw Hm Hts Hrun.
  assert (takes_inv window max (eff window cell) (ts, cell)) as Hinit.
  { assert (grants ts = 0) as Hg.
    { clear Hrun. unfold grants. induction Hts as [|t ts [Hpc _] _ IH]; [done|]. simpl.
      unfold grant at 1. by rewrite Hpc, andb_false_r. }
    unfold takes_inv. simpl. rewrite Hg. split; [lia|]. split; [lia|].
    eapply Forall_impl; [|exact Hts]. intros t [Hpc Hl]. unfold taker_ok. by rewrite Hpc. }
  assert (takes_inv window max (eff window cell) (ts', cell')) as (He & Hmax & Hok).
  { by eapply takes_inv_run. }
  simpl in *. split; [done|]. split; [done|]. rewrite He in *.
  split; intros t Ht; pose proof (proj1 (list.Forall_forall _ _) Hok t Ht) as [Hl Hpc].
  - intros Hd. by rewrite Hd in Hpc.
  - apply try_take_alone; [lia|]. destruct (tk_pc t); naive_solver.
Qed.

(** ** Decisions *)

Definition policy_ok (p : RateLimitPolicy) : Prop := fits 32 (per_minute p) /\ fits 32 (per_hour p).

(** What a client is told that has used [m] slots of the minute and [h] of the hour. *)
Definition decide_by (m h : Z) (p : RateLimitPolicy) (now : Z) : RateLimitDecision :=
  if (0 <? per_minute p) && (per_minute p <=? m) then Limited Minute (60 - now mod 60)
  else if (0 <? per_hour p) && (per_hour p <=? h) then Limited Hour (3600 - now mod 3600)
  else Allow.

(** The slot a decision takes of a window that is limited. *)
Definition slot (w : RateLimitWindow) (d : RateLimitDecision) (p : RateLimitPolicy) : Z :=
  Z.b2z (took w d && (0 <? limit_of w p)).

Definition used (w : RateLimitWindow) (now : Z) (c : ClientWindows) : Z := eff (window_of w now) (cell_of w c).

Lemma window_fits w now : fits 32 (window_of w now).
Proof. destruct w; by apply wrap_fits. Qed.

Lemma try_take_spec cell w limit :
  fits 32 w -> fits 32 limit ->
  let '(ok, cell') := try_take cell w limit in
  ok = negb ((0 <? limit) && (limit <=? eff w cell)) /\
  eff w cell' = eff w cell + Z.b2z (ok && (0 <? limit)) /\
  (Z.b2z (ok && (0 <? limit)) = 1 -> eff w cell < limit).
Proof.
  intros Hw Hl. rewrite try_take_eff by (unfold fits in Hl; lia).
  destruct (Z.eqb_spec limit 0) as [->|]; [simpl; lia|].
  destruct (Z.ltb_spec 0 limit); [|unfold fits in Hl; lia].
  destruct (Z.leb_spec limit (eff w cell)); simpl; [lia|].
  rewrite (eff_bump w cell limit) by done. lia.
Qed.

(** [take] in terms of the slots used. *)
Lemma take_windows_spec c p now d c' :
  policy_ok p -> take_windows c p now = (d, c') ->
  d = decide_by (used Minute now c) (used Hour now c) p now /\
  forall w, used w now c' = used w now c + slot w d p /\
            (slot w d p = 1 -> used w now c < limit_of w p).
Proof.
  intros [Hm Hh]. unfold take_windows, decide_by, used, slot.
  pose proof (try_take_spec (cw_minute c) _ _ (window_fits Minute now) Hm) as Sm.
  pose proof (try_take_spec (cw_hour c) _ _ (window_fits Hour now) Hh) as Sh.
  cbn [window_of cell_of cw_hour] in *.
  destruct (try_take (cw_minute c) _ _) as [okm m]. destruct Sm as (Om & Em & Lm).
  destruct (try_take (cw_hour c) _ _) as [okh h]. destruct Sh as (Oh & Eh & Lh).
  destruct ((0 <? per_minute p) && _); simpl in Om; subst okm; cbn [negb].
  { intros [= <- <-]. split; [done|]. intros []; cbn in *; lia. }
  destruct ((0 <? per_hour p) && _); simpl in Oh; subst okh; cbn [negb]; intros [= <- <-];
    (split; [done|]); intros []; cbn in *; lia.
Qed.

(** ** Runs of requests *)

Arguments minute_window : simpl never.
Arguments hour_window : simpl never.
Arguments unpack : simpl never.
Arguments overflow_bucket : simpl never.

(** Times the 32 bit windows can tell apart. *)
Definition in_range (t : Z) : Prop := 0 <= t < 60 * 2 ^ 32.

Lemma window_mono w t t' : in_range t -> in_range t' -> t <= t' -> window_of w t <= window_of w t'.
Proof.
  unfold in_range. intros Ht Ht' Hle.
  assert (forall x n, 60 <= n -> 0 <= x < 60 * 2 ^ 32 -> 0 <= x / n < 2 ^ 32) as Hdiv.
  { intros x n Hn Hx. split; [apply Z.div_pos; lia|]. apply Z.div_lt_upper_bound; nia. }
  destruct w; simpl; unfold minute_window, hour_window;
    rewrite !wrap_id by (apply Hdiv; lia); apply Z.div_le_mono; lia.
Qed.

Section Runs.
Context (network_from_str : list Z -> option (IpAddr -> bool)) (hash_one : Z * IpAddr -> Z).
#[local] Abbreviation check := (check network_from_str hash_one).
#[local] Abbreviation serve := (serve network_from_str hash_one).
#[local] Abbreviation taken := (taken network_from_str).
#[local] Abbreviation counted := (counted network_from_str).

(** The counters a request of [key] is checked against. *)
Definition current (s : RateLimiter) (key : Z * IpAddr) : ClientWindows :=
  match rl_clients s !! key with
  | Some c => c
  | None => default default_windows (rl_overflow s !! overflow_bucket hash_one key s)
  end.

(** [check] behind the lists and the sweep. *)
Definition count_request (key : Z * IpAddr) (policy : RateLimitPolicy) (now : Z) (s : RateLimiter)
    : RateLimitDecision * RateLimiter :=
  match rl_clients s !! key with
  | Some existing => take_entry key existing policy now s
  | None => take_untracked hash_one key (rl_capacity s <=? size (rl_clients s))%nat policy now s
  end.

Lemma check_unfold sc ip p now s :
  check sc ip p now s =
  if ip_listed network_from_str (blacklist p) (normalize ip) then (Blacklisted, s)
  else if negb (has_limits p) || ip_listed network_from_str (whitelist p) (normalize ip) then (Allow, s)
  else count_request (scope_key sc, normalize ip) p now (maybe_sweep now s).
Proof. done. Qed.

Lemma bucket_lt key s : (0 < length (rl_overflow s))%nat -> (overflow_bucket hash_one key s < length (rl_overflow s))%nat.
Proof.
  intros Hl. unfold overflow_bucket.
  pose proof (Z.mod_pos_bound (hash_one key) (Z.of_nat (length (rl_overflow s)))). lia.
Qed.

(** A request takes from the counters of its client, and only clients that share them see it. *)
Lemma count_request_current key p now s d s' :
  (0 < length (rl_overflow s))%nat -> count_request key p now s = (d, s') ->
  exists c', take_windows (current s key) p now = (d, c') /\ current s' key = c' /\
    length (rl_overflow s') = length (rl_overflow s) /\
    forall k, current s' k = current s k \/ current s k = current s key /\ current s' k = c'.
Proof.
  intros Hl. unfold count_request, take_untracked, take_entry, current.
  assert (forall c, seeded_from c = c) as Hseed by by intros [].
  destruct (rl_clients s !! key) as [c|] eqn:Hk; rewrite ?Hseed;
    [|set (b := default default_windows _); destruct (_ <=? _)%nat];
    destruct (take_windows _ _ _) as [d' c'] eqn:Ht; intros [= <- <-]; exists c'; simpl.
  - rewrite lookup_insert_eq. split_and!; [done..|]. intros k. destruct (decide (k = key)) as [->|Hne].
    + right. by rewrite lookup_insert_eq, Hk.
    + left. by rewrite lookup_insert_ne.
  - unfold overflow_bucket. simpl. rewrite Hk, length_insert.
    fold (overflow_bucket hash_one key s). pose proof (bucket_lt key s Hl).
    rewrite list_lookup_insert_eq by done. split_and!; [done..|]. intros k.
    destruct (rl_clients s !! k) as [ck|]; [by left|].
    fold (overflow_bucket hash_one k s).
    destruct (decide (overflow_bucket hash_one k s = overflow_bucket hash_one key s)) as [->|Hne].
    + right. by rewrite list_lookup_insert_eq.
    + left. by rewrite list_lookup_insert_ne.
  - rewrite lookup_insert_eq. split_and!; [done..|]. intros k. destruct (decide (k = key)) as [->|Hne].
    + right. by rewrite lookup_insert_eq, Hk.
    + left. by rewrite lookup_insert_ne.
Qed.

(** ** Counting the history *)

Lemma taken_snoc w key x h r d :
  taken w key x (h ++ [(r, d)]) = taken w key x h + Z.b2z (takes_slot network_from_str w key x (r, d)).
Proof.
  unfold RateLimiter.taken. rewrite List.filter_app, length_app. simpl.
  destruct (takes_slot _ _ _ _ _); simpl; lia.
Qed.

Lemma taken_later w key x h :
  Forall (fun rd => window_of w (rq_now rd.1) < x) h -> taken w key x h = 0.
Proof.
  intros Hh. unfold RateLimiter.taken. induction Hh as [|[r d] h Hr _ IH]; [done|]. simpl.
  unfold takes_slot at 1. simpl in *. destruct (Z.eqb_spec (window_of w (rq_now r)) x); [lia|].
  by rewrite andb_false_r.
Qed.

(** Every request of the history came at [t] or before. *)
Definition before (t : Z) (h : list (Request * RateLimitDecision)) : Prop :=
  Forall (fun rd => in_range (rq_now rd.1) /\ rq_now rd.1 <= t) h.

Lemma before_window t h w key x :
  in_range t -> before t h -> window_of w t < x -> taken w key x h = 0.
Proof.
  intros Ht Hb Hx. apply taken_later. eapply Forall_impl; [|exact Hb]. intros [r d] [Hr Hle]; simpl in *.
  pose proof (window_mono w _ _ Hr Ht Hle). lia.
Qed.

(** A request that is counted, and one that is not. *)
Lemma takes_slot_self w r d :
  takes_slot network_from_str w (rq_key r) (window_of w (rq_now r)) (r, d) = took w d && counted w r.
Proof. unfold takes_slot. simpl. rewrite bool_decide_true, Z.eqb_refl by done. by rewrite !andb_true_r. Qed.

Lemma takes_slot_other w r d key x : rq_key r <> key -> takes_slot network_from_str w key x (r, d) = false.
Proof. intros Hk. unfold takes_slot. simpl. rewrite bool_decide_false by done. by rewrite andb_false_r. Qed.

Lemma counted_slot w r d :
  ip_listed network_from_str (whitelist (rq_policy r)) (normalize (rq_ip r)) = false ->
  Z.b2z (took w d && counted w r) = slot w d (rq_policy r).
Proof. intros Hw. unfold RateLimiter.counted, slot. by rewrite Hw. Qed.

Lemma not_counted w r :
  policy_ok (rq_policy r) ->
  negb (has_limits (rq_policy r)) || ip_listed network_from_str (whitelist (rq_policy r)) (normalize (rq_ip r)) = true ->
  counted w r = false.
Proof.
  intros Hp Ho. unfold RateLimiter.counted. apply orb_true_iff in Ho as [Ho|Ho]; [|by rewrite Ho].
  apply andb_false_intro2. unfold has_limits in Ho. apply negb_true_iff, orb_false_iff in Ho as [Hm Hh].
  by destruct w.
Qed.

(** ** The budget *)

(** No client has used more slots than its counters say. *)
Record budget_inv (t : Z) (h : list (Request * RateLimitDecision)) (s : RateLimiter) : Prop := {
  bi_overflow : (0 < length (rl_overflow s))%nat;
  bi_before : before t h;
  bi_taken w key : taken w key (window_of w t) h <= used w t (current s key)
}.

Lemma before_mono t t' h : t <= t' -> before t h -> before t' h.
Proof. intros Hle. apply Forall_impl. intros rd [? ?]. split; [done|lia]. Qed.

Lemma budget_advance t t' h s :
  in_range t -> in_range t' -> t <= t' -> budget_inv t h s -> budget_inv t' h s.
Proof.
  intros Ht Ht' Hle [Ho Hb Htk]. split; [done|by eapply before_mono|]. intros w key.
  pose proof (window_mono w t t' Ht Ht' Hle) as Hw. unfold used in *.
  destruct (Z.eqb_spec (window_of w t') (window_of w t)) as [->|]; [done|].
  rewrite (before_window t) by (done || lia). apply eff_fits.
Qed.

(** A sweep only drops counters that have counted nothing in the windows of now. *)
Lemma sweep_current now s key :
  current (maybe_sweep now s) key = current s key \/
  (forall w, used w now (current s key) = 0) /\ rl_clients (maybe_sweep now s) !! key = None.
Proof.
  unfold maybe_sweep. destruct (_ <? _); [by left|]. unfold current. cbn [rl_clients rl_overflow].
  change (overflow_bucket hash_one key _) with (overflow_bucket hash_one key s).
  destruct (rl_clients s !! key) as [c|] eqn:Hk.
  - destruct (decide ((unpack (cw_minute c)).1 = minute_window now \/ (unpack (cw_hour c)).1 = hour_window now)) as [Hp|Hp].
    + left. rewrite map_lookup_filter_Some_2 with (x := c); done.
    + right. split; [|apply map_lookup_filter_None_2; right; intros x Hx; simplify_eq; done].
      intros w. unfold used, eff. destruct w; cbn [cell_of window_of].
      * destruct (Z.eqb_spec (unpack (cw_minute c)).1 (minute_window now)); [tauto|done].
      * destruct (Z.eqb_spec (unpack (cw_hour c)).1 (hour_window now)); [tauto|done].
  - left. rewrite map_lookup_filter_None_2; [done|by left].
Qed.

Lemma budget_sweep t h s : budget_inv t h s -> budget_inv t h (maybe_sweep t s).
Proof.
  intros [Ho Hb Htk]. split; [|done|].
  - unfold maybe_sweep. by destruct (_ <? _).
  - intros w key. destruct (sweep_current t s key) as [->|[H0 _]]; [apply Htk|].
    specialize (Htk w key). rewrite H0 in Htk. pose proof (eff_fits (window_of w t) (cell_of w (current (maybe_sweep t s) key))) as [? _].
    unfold used. lia.
Qed.

Lemma before_snoc t h r d : in_range t -> before t h -> rq_now r = t -> before t (h ++ [(r, d)]).
Proof.
  intros Ht Hb <-. apply Forall_app. split; [done|]. constructor; [|constructor]. simpl. split; [done|lia].
Qed.

(** The history after a request, for its client and for the others. *)
Lemma taken_after w key h r d :
  taken w key (window_of w (rq_now r)) (h ++ [(r, d)]) =
  taken w key (window_of w (rq_now r)) h
  + (if decide (key = rq_key r) then Z.b2z (took w d && counted w r) else 0).
Proof.
  rewrite taken_snoc. destruct (decide (key = rq_key r)) as [->|Hne].
  - by rewrite takes_slot_self.
  - rewrite takes_slot_other by congruence. simpl. lia.
Qed.

(** What [check] does to the state: nothing, when the request is not counted, or a sweep and a
    slot. *)
Lemma check_cases r s d s' :
  policy_ok (rq_policy r) ->
  check (rq_scope r) (rq_ip r) (rq_policy r) (rq_now r) s = (d, s') ->
  s' = s /\ (forall w, took w d && counted w r = false) \/
  count_request (rq_key r) (rq_policy r) (rq_now r) (maybe_sweep (rq_now r) s) = (d, s') /\
  (forall w, Z.b2z (took w d && counted w r) = slot w d (rq_policy r)).
Proof.
  intros Hp. rewrite check_unfold.
  destruct (ip_listed _ (blacklist _) _).
  { intros [= <- <-]. left. split; [done|]. by intros []. }
  destruct (negb _ || _) eqn:Ho.
  - intros [= <- <-]. left. split; [done|]. intros w. by rewrite not_counted, andb_false_r.
  - intros Hc. right. split; [done|]. intros w. apply counted_slot. by apply orb_false_iff in Ho as [_ Ho].
Qed.

Lemma check_budget h r s d s' :
  policy_ok (rq_policy r) -> in_range (rq_now r) -> budget_inv (rq_now r) h s ->
  check (rq_scope r) (rq_ip r) (rq_policy r) (rq_now r) s = (d, s') ->
  budget_inv (rq_now r) (h ++ [(r, d)]) s' /\
  forall w, took w d && counted w r = true ->
    taken w (rq_key r) (window_of w (rq_now r)) h < limit_of w (rq_policy r).
Proof.
  intros Hp Ht Hinv Hc. destruct (check_cases r s d s' Hp Hc) as [[-> Hno]|[Hcr Hslot]].
  - destruct Hinv as [Ho Hb Htk]. split; [|intros w Hw; by rewrite Hno in Hw].
    split; [done|by apply before_snoc|]. intros w key. rewrite taken_after, Hno. simpl.
    specialize (Htk w key). destruct (decide _); lia.
  - apply budget_sweep in Hinv as [Ho Hb Htk].
    destruct (count_request_current _ _ _ _ _ _ Ho Hcr) as (c' & Htake & Hcur & Hlen & Hothers).
    destruct (take_windows_spec _ _ _ _ _ Hp Htake) as [_ Huse].
    split; [split; [by rewrite Hlen|by apply before_snoc|]|].
    + intros w key. rewrite taken_after, Hslot. destruct (Huse w) as [Hu _].
      specialize (Htk w key). assert (0 <= slot w d (rq_policy r)) by (unfold slot; destruct (_ && _); simpl; lia).
      destruct (decide (key = rq_key r)) as [->|Hne]; [rewrite Hcur; lia|].
      destruct (Hothers key) as [->|[Heq ->]]; [lia|]. rewrite Heq in Htk. lia.
    + intros w Hw. destruct (Huse w) as [_ Hlim]. specialize (Hslot w). rewrite Hw in Hslot.
      specialize (Hlim (eq_sym Hslot)). specialize (Htk w (rq_key r)). lia.
Qed.

(** Requests a proxy gets: their times do not go back and fit the windows, their limits are
    32 bit numbers. *)
Fixpoint orderly (t : Z) (reqs : list Request) : Prop :=
  match reqs with
  | [] => True
  | r :: rest => t <= rq_now r /\ in_range (rq_now r) /\ policy_ok (rq_policy r) /\ orderly (rq_now r) rest
  end.

Lemma orderly_last t reqs r : orderly t (reqs ++ [r]) -> in_range (rq_now r) /\ policy_ok (rq_policy r).
Proof.
  revert t. induction reqs as [|q reqs IH]; intros t; simpl; [tauto|]. intros (_ & _ & _ & Hrest). by eapply IH.
Qed.

Lemma serve_budget reqs t h s r :
  in_range t -> orderly t (reqs ++ [r]) -> budget_inv t h s ->
  budget_inv (rq_now r) (h ++ (serve reqs s).1) (serve reqs s).2.
Proof.
  revert t h s. induction reqs as [|q reqs IH]; intros t h s Ht; cbn [app orderly RateLimiter.serve].
  - intros (Hle & Hr & _ & _) Hinv. simpl. rewrite app_nil_r. by apply (budget_advance t).
  - intros (Hle & Hq & Hp & Hrest) Hinv.
    apply (budget_advance _ (rq_now q)) in Hinv; [|done..].
    destruct (check _ _ _ _ s) as [d s1] eqn:Hc.
    destruct (check_budget _ _ _ _ _ Hp Hq Hinv Hc) as [Hinv1 _].
    specialize (IH _ _ _ Hq Hrest Hinv1).
    destruct (serve reqs s1) as [h2 s2]. simpl in *. by rewrite <- app_assoc in IH.
Qed.

Lemma new_budget capacity : budget_inv 0 [] (with_capacity capacity).
Proof.
  split; [|constructor|].
  - unfold with_capacity. cbn [rl_overflow]. rewrite length_replicate. unfold OVERFLOW_BUCKETS. lia.
  - intros w key. apply eff_fits.
Qed.

(** ** Exactness while the table has room *)

Definition keys_of (h : list (Request * RateLimitDecision)) : gset (Z * IpAddr) :=
  list_to_set (map (fun rd => rq_key rd.1) h).

(** The counters say what the clients have used, and nothing was counted in overflow. *)
Record exact_inv (t : Z) (h : list (Request * RateLimitDecision)) (s : RateLimiter) : Prop := {
  ei_overflow : Forall (eq default_windows) (rl_overflow s);
  ei_before : before t h;
  ei_keys : dom (rl_clients s) ⊆ keys_of h;
  ei_taken w key : taken w key (window_of w t) h = used w t (current s key);
  ei_stale w key x : window_of w t < x -> eff x (cell_of w (current s key)) = 0
}.

Lemma overflow_default l i :
  Forall (eq default_windows) l -> default default_windows (l !! i) = default_windows.
Proof.
  intros Hl. destruct (l !! i) as [c|] eqn:Hi; [|done]. simpl. symmetry. by eapply (Forall_lookup_1 _ _ _ _ Hl).
Qed.

Lemma eff_default w x : eff x (cell_of w default_windows) = 0.
Proof. unfold eff. destruct w; simpl; by case_match. Qed.

Lemma exact_advance t t' h s :
  in_range t -> in_range t' -> t <= t' -> exact_inv t h s -> exact_inv t' h s.
Proof.
  intros Ht Ht' Hle [Ho Hb Hk Htk Hst].
  split; [done|by eapply before_mono|done| |]; intros w key; pose proof (window_mono w t t' Ht Ht' Hle) as Hw.
  - unfold used in *. destruct (Z.eqb_spec (window_of w t') (window_of w t)) as [->|]; [done|].
    rewrite (before_window t) by (done || lia). symmetry. apply Hst. lia.
  - intros x Hx. apply Hst. lia.
Qed.

Lemma exact_sweep t h s : exact_inv t h s -> exact_inv t h (maybe_sweep t s).
Proof.
  intros [Ho Hb Hk Htk Hst].
  assert (rl_overflow (maybe_sweep t s) = rl_overflow s) as Hov by (unfold maybe_sweep; by destruct (_ <? _)).
  assert (forall key, current (maybe_sweep t s) key = current s key \/
            (forall w, used w t (current s key) = 0) /\ current (maybe_sweep t s) key = default_windows) as Hcur.
  { intros key. destruct (sweep_current t s key) as [?|[H0 HN]]; [by left|right]. split; [done|].
    unfold current. rewrite HN, Hov. by apply overflow_default. }
  split; [by rewrite Hov|done| | |]; [|intros w key; destruct (Hcur key) as [->|[H0 ->]]..].
  - unfold maybe_sweep. destruct (_ <? _); [done|]. cbn [rl_clients].
    etransitivity; [apply dom_filter_subseteq|done].
  - done.
  - unfold used. by rewrite Htk, H0, eff_default.
  - apply Hst.
  - intros x _. apply eff_default.
Qed.

(** A counter that has counted nothing of a later window still has not. *)
Lemma try_take_stale cell w limit x :
  fits 32 w -> fits 32 limit -> x <> w -> eff x cell = 0 -> eff x (try_take cell w limit).2 = 0.
Proof.
  intros Hw Hl Hx He. rewrite try_take_eff by (unfold fits in Hl; lia). destruct (limit =? 0); [done|].
  destruct (Z.leb_spec limit (eff w cell)); [done|]. simpl. pose proof (eff_fits w cell).
  unfold eff at 1. unfold bump. rewrite unpack_pack by (unfold fits in *; lia || done). simpl.
  by destruct (Z.eqb_spec w x); [congruence|].
Qed.

Lemma take_windows_stale c p now d c' w x :
  policy_ok p -> take_windows c p now = (d, c') -> window_of w now < x ->
  eff x (cell_of w c) = 0 -> eff x (cell_of w c') = 0.
Proof.
  intros [Hm Hh] Ht Hx He. unfold take_windows in Ht.
  pose proof (try_take_stale (cw_minute c) _ _ x (window_fits Minute now) Hm) as Sm.
  pose proof (try_take_stale (cw_hour c) _ _ x (window_fits Hour now) Hh) as Sh.
  cbn [window_of cw_hour] in *.
  destruct (try_take (cw_minute c) _ _) as [okm m]. destruct okm; cbn [negb cw_hour] in Ht.
  - destruct (try_take (cw_hour c) _ _) as [okh hr]. cbn [snd] in *.
    destruct okh; injection Ht as <- <-; destruct w; cbn [cell_of cw_minute cw_hour window_of] in *; auto with lia.
  - injection Ht as <- <-. cbn [snd] in *. destruct w; cbn [cell_of cw_minute cw_hour window_of] in *; auto with lia.
Qed.

(** Without overflow a request goes to the entry of its client. *)
Lemma count_request_tracked key p now s d s' :
  is_Some (rl_clients s !! key) \/ (size (rl_clients s) < rl_capacity s)%nat ->
  count_request key p now s = (d, s') ->
  exists c', take_windows (current s key) p now = (d, c') /\ s' = set_clients s (<[key := c']> (rl_clients s)).
Proof.
  intros Hroom. unfold count_request, take_untracked, take_entry, current.
  assert (forall c, seeded_from c = c) as Hseed by by intros [].
  destruct (rl_clients s !! key) as [c|] eqn:Hk; rewrite ?Hseed.
  - destruct (take_windows c p now) as [d' c']. intros [= <- <-]. by exists c'.
  - destruct Hroom as [[? ?]|Hlt]; [done|].
    destruct (Nat.leb_spec (rl_capacity s) (size (rl_clients s))); [lia|].
    destruct (take_windows _ p now) as [d' c']. intros [= <- <-]. by exists c'.
Qed.

Lemma room_by_keys (s : RateLimiter) (keys : gset (Z * IpAddr)) (key : Z * IpAddr) :
  dom (rl_clients s) ⊆ keys -> key ∈ keys -> (size keys <= rl_capacity s)%nat ->
  is_Some (rl_clients s !! key) \/ (size (rl_clients s) < rl_capacity s)%nat.
Proof.
  intros Hd Hk Hsz. destruct (rl_clients s !! key) as [c|] eqn:Hc; [by left|right].
  apply not_elem_of_dom in Hc.
  assert ({[key]} ∪ dom (rl_clients s) ⊆ keys) as Hsub by set_solver.
  apply subseteq_size in Hsub. rewrite size_union, size_singleton, size_dom in Hsub by set_solver. lia.
Qed.

(** The decision the history calls for. *)
Definition due (h : list (Request * RateLimitDecision)) (r : Request) : RateLimitDecision :=
  if ip_listed network_from_str (blacklist (rq_policy r)) (normalize (rq_ip r)) then Blacklisted
  else if negb (has_limits (rq_policy r))
          || ip_listed network_from_str (whitelist (rq_policy r)) (normalize (rq_ip r)) then Allow
  else decide_by (taken Minute (rq_key r) (minute_window (rq_now r)) h)
                 (taken Hour (rq_key r) (hour_window (rq_now r)) h) (rq_policy r) (rq_now r).

Lemma keys_of_snoc h r d : keys_of (h ++ [(r, d)]) = keys_of h ∪ {[rq_key r]}.
Proof. unfold keys_of. rewrite map_app, list_to_set_app_L. simpl. set_solver. Qed.

Lemma current_set_clients s key c k :
  current (set_clients s (<[key := c]> (rl_clients s))) k = if decide (k = key) then c else current s k.
Proof.
  unfold current. cbn [set_clients rl_clients rl_overflow].
  change (overflow_bucket hash_one k (set_clients s _)) with (overflow_bucket hash_one k s).
  destruct (decide (k = key)) as [->|Hne]; [by rewrite lookup_insert_eq|by rewrite lookup_insert_ne].
Qed.

Lemma check_capacity r s d s' :
  check (rq_scope r) (rq_ip r) (rq_policy r) (rq_now r) s = (d, s') -> rl_capacity s' = rl_capacity s.
Proof.
  assert (rl_capacity (maybe_sweep (rq_now r) s) = rl_capacity s) as Hsw
    by (unfold maybe_sweep; by destruct (_ <? _)).
  rewrite check_unfold. destruct (ip_listed _ _ _); [by intros [= _ <-]|].
  destruct (negb _ || _); [by intros [= _ <-]|].
  unfold count_request, take_untracked, take_entry. intros Hc.
  repeat case_match; simplify_eq; done.
Qed.

Lemma sweep_capacity now s : rl_capacity (maybe_sweep now s) = rl_capacity s.
Proof. unfold maybe_sweep. by destruct (_ <? _). Qed.

(** A counted request, after the sweep. *)
Lemma count_request_exact h r s d s' :
  policy_ok (rq_policy r) -> in_range (rq_now r) -> exact_inv (rq_now r) h s ->
  (size (keys_of h ∪ {[rq_key r]}) <= rl_capacity s)%nat ->
  count_request (rq_key r) (rq_policy r) (rq_now r) s = (d, s') ->
  (forall w, Z.b2z (took w d && counted w r) = slot w d (rq_policy r)) ->
  d = decide_by (taken Minute (rq_key r) (minute_window (rq_now r)) h)
                (taken Hour (rq_key r) (hour_window (rq_now r)) h) (rq_policy r) (rq_now r) /\
  exact_inv (rq_now r) (h ++ [(r, d)]) s'.
Proof.
  intros Hp Ht [Ho Hb Hk Htk Hst] Hroom Hcr Hslot.
  destruct (count_request_tracked _ _ _ _ _ _ (room_by_keys s (keys_of h ∪ {[rq_key r]}) (rq_key r)
    ltac:(set_solver) ltac:(set_solver) Hroom) Hcr) as (c' & Htake & ->).
  destruct (take_windows_spec _ _ _ _ _ Hp Htake) as [Hd Huse]. split.
  { rewrite Hd. by rewrite <- !Htk. }
  split; [done|by apply before_snoc| | |].
  - rewrite keys_of_snoc. cbn [set_clients rl_clients]. rewrite dom_insert_L. set_solver.
  - intros w key. rewrite taken_after, Hslot, current_set_clients.
    destruct (decide (key = rq_key r)) as [->|Hne]; [|rewrite Htk; lia].
    destruct (Huse w) as [-> _]. by rewrite Htk.
  - intros w key x Hx. rewrite current_set_clients. destruct (decide (key = rq_key r)) as [->|Hne].
    + eapply take_windows_stale; [done..|]. by apply Hst.
    + by apply Hst.
Qed.

Lemma check_exact h r s d s' :
  policy_ok (rq_policy r) -> in_range (rq_now r) -> exact_inv (rq_now r) h s ->
  (size (keys_of h ∪ {[rq_key r]}) <= rl_capacity s)%nat ->
  check (rq_scope r) (rq_ip r) (rq_policy r) (rq_now r) s = (d, s') ->
  d = due h r /\ exact_inv (rq_now r) (h ++ [(r, d)]) s'.
Proof.
  intros Hp Ht Hinv Hroom Hc.
  assert (s' = s -> (forall w, took w d && counted w r = false) -> exact_inv (rq_now r) (h ++ [(r, d)]) s') as Hsame.
  { intros -> Hno. destruct Hinv as [Ho Hb Hk Htk Hst]. split; [done|by apply before_snoc| | |done].
    - rewrite keys_of_snoc. set_solver.
    - intros w key. rewrite taken_after, Hno, <- Htk. destruct (decide _); simpl; lia. }
  unfold due. rewrite check_unfold in Hc. destruct (ip_listed _ (blacklist _) _).
  { injection Hc as <- <-. split; [done|]. apply Hsame; [done|]. by intros []. }
  destruct (negb _ || _) eqn:Hu.
  { injection Hc as <- <-. split; [done|]. apply Hsame; [done|]. intros w. by rewrite not_counted, andb_false_r. }
  apply count_request_exact with (s := maybe_sweep (rq_now r) s); [done|done|by apply exact_sweep| |done|].
  - by rewrite sweep_capacity.
  - intros w. apply counted_slot. by apply orb_false_iff in Hu as [_ Hu].
Qed.

Lemma serve_exact reqs t h s r :
  in_range t -> orderly t (reqs ++ [r]) -> exact_inv t h s ->
  (size (keys_of h ∪ list_to_set (map rq_key (reqs ++ [r]))) <= rl_capacity s)%nat ->
  exact_inv (rq_now r) (h ++ (serve reqs s).1) (serve reqs s).2 /\
  rl_capacity (serve reqs s).2 = rl_capacity s /\
  keys_of (h ++ (serve reqs s).1) = keys_of h ∪ list_to_set (map rq_key reqs).
Proof.
  revert t h s. induction reqs as [|q reqs IH]; intros t h s Ht; cbn [app orderly RateLimiter.serve map list_to_set].
  - intros (Hle & Hr & _ & _) Hinv _. simpl. rewrite app_nil_r.
    split; [by apply (exact_advance t)|]. split; [done|set_solver].
  - intros (Hle & Hq & Hp & Hrest) Hinv Hroom. apply (exact_advance _ (rq_now q)) in Hinv; [|done..].
    destruct (check _ _ _ _ s) as [d s1] eqn:Hc. pose proof (check_capacity _ _ _ _ Hc) as Hcap.
    assert (size (keys_of h ∪ {[rq_key q]}) <= rl_capacity s)%nat as Hroom1.
    { etransitivity; [|exact Hroom]. apply subseteq_size. set_solver. }
    destruct (check_exact _ _ _ _ _ Hp Hq Hinv Hroom1 Hc) as [_ Hinv1].
    destruct (IH _ _ _ Hq Hrest Hinv1) as (Hi & Hc' & Hkeys).
    { rewrite Hcap, keys_of_snoc. etransitivity; [|exact Hroom]. apply subseteq_size. set_solver. }
    destruct (serve reqs s1) as [h2 s2]. simpl in *. rewrite <- app_assoc in Hi, Hkeys. simpl in *.
    split; [done|]. split; [congruence|]. rewrite Hkeys, keys_of_snoc. set_solver.
Qed.

Lemma new_exact capacity : exact_inv 0 [] (with_capacity capacity).
Proof.
  assert (forall key, current (with_capacity capacity) key = default_windows) as Hcur.
  { intros key. unfold current. cbn [rl_clients with_capacity]. rewrite lookup_empty.
    apply overflow_default. by apply Forall_replicate. }
  split; [by apply Forall_replicate|constructor| | |].
  - cbn [rl_clients with_capacity]. rewrite dom_empty_L. set_solver.
  - intros w key. unfold used. by rewrite Hcur, eff_default.
  - intros w key x _. by rewrite Hcur, eff_default.
Qed.


(** While no more clients were seen than the table holds, every decision is the one the
    history calls for: the lists first, and a client is limited exactly when it has used up the
    limit of the current minute or hour, with the seconds left of it. *)
Theorem rate_limit_exact capacity reqs r :
  orderly 0 (reqs ++ [r]) ->
  (size (list_to_set (map rq_key (reqs ++ [r])) : gset (Z * IpAddr)) <= capacity)%nat ->
  let '(h, s) := serve reqs (with_capacity capacity) in
  (check (rq_scope r) (rq_ip r) (rq_policy r) (rq_now r) s).1 = due h r.
Proof.
  intros Hord Hsz. assert (in_range 0) as H0 by (unfold in_range; lia).
  destruct (serve_exact reqs 0 [] _ r H0 Hord (new_exact capacity)) as (Hinv & Hcap & Hkeys).
  { etransitivity; [|exact Hsz]. apply subseteq_size. set_solver. }
  destruct (serve reqs (with_capacity capacity)) as [h s]. simpl in *.
  destruct (check _ _ _ _ s) as [d s'] eqn:Hc. simpl.
  destruct (orderly_last _ _ _ Hord) as [Hr Hp].
  eapply check_exact; [done..| |exact Hc]. rewrite Hcap, Hkeys. cbn [rl_capacity with_capacity].
  etransitivity; [|exact Hsz]. apply subseteq_size. rewrite map_app, list_to_set_app_L. simpl. set_solver.
Qed.

End Runs.

(** ** Concrete runs *)

Definition no_networks : list Z -> option (IpAddr -> bool) := fun _ => None.
Definition one_bucket : Z * IpAddr -> Z := fun _ => 0.

Definition sample_policy : RateLimitPolicy :=
  {| per_minute := 2; per_hour := 100; whitelist := []; blacklist := [chars " 10.0.0.9 "] |}.
Definition sample_request (client now : Z) : Request :=
  {| rq_scope := Environment 7; rq_ip := V6 (0xFFFF0A000000 + client); rq_policy := sample_policy; rq_now := now |}.

(** Client 1 has the only entry, client 2 is counted in overflow. *)
Definition sample_run : list Request :=
  [sample_request 1 100; sample_request 2 100; sample_request 2 101].

Lemma sample_orderly : orderly 0 (sample_run ++ [sample_request 1 102]).
Proof. repeat split; by vm_compute. Qed.


Lemma rate_limit_exact_witness :
  map snd (serve no_networks one_bucket
    (sample_run ++ [sample_request 2 102; sample_request 9 110; sample_request 2 125]) (with_capacity 3)).1
  = [Allow; Allow; Allow; Limited Minute 18; Blacklisted; Allow] /\
  (let '(h, s) := serve no_networks one_bucket sample_run (with_capacity 2) in
   (check no_networks one_bucket (Environment 7) (V6 0xFFFF0A000001) sample_policy 102 s).1
   = due no_networks h (sample_request 1 102)).
Proof.
  split; [vm_compute; reflexivity|].
  apply (rate_limit_exact no_networks one_bucket 2 sample_run (sample_request 1 102) sample_orderly).
  vm_compute. lia.
Defined.

(** Two threads race for the last slot. *)
Lemma concurrent_takes_exact_witness :
  grants [{| tk_limit := 1; tk_pc := TkDone true |}; {| tk_limit := 1; tk_pc := TkDone false |}] = 1 /\
  eff 5 (pack 5 1) = eff 5 (pack 4 9) + 1.
Proof.
  split; [reflexivity|].
  apply (concurrent_takes_exact 5 1 (pack 4 9)
    [{| tk_limit := 1; tk_pc := TkLoad |}; {| tk_limit := 1; tk_pc := TkLoad |}]
    [{| tk_limit := 1; tk_pc := TkDone true |}; {| tk_limit := 1; tk_pc := TkDone false |}]).
  - unfold fits; lia.
  - unfold fits; lia.
  - repeat constructor; simpl; lia.
  - eapply rtc_l; [eapply (access_step 5 _ _ 0 _ false); reflexivity|].
    eapply rtc_l; [eapply (access_step 5 _ _ 1 _ false); reflexivity|].
    eapply rtc_l; [eapply (access_step 5 _ _ 0 _ false); reflexivity|].
    eapply rtc_l; [eapply (access_step 5 _ _ 1 _ false); reflexivity|].
    eapply rtc_l; [eapply (access_step 5 _ _ 1 _ false); reflexivity|]. apply rtc_refl.
Defined.
