(* ===== verification/ConnLimiter.v ===== *)
(** * Connection limiting of the proxy

    [crates/temps-proxy/src/connection_limiter.rs]: permits per project or environment,
    counted in shared atomics that the table of keys points to.

    Requests run concurrently, so a request is a thread with a program counter and the
    model interleaves their accesses: one step is one access to the table (which locks a
    shard) or to one counter.  Counters are cells of a heap, because a request holds on to
    the counter it was given even when the table has dropped it. *)

From S2P Require Import Prelude.
Local Open Scope Z_scope.

Definition MAX_TRACKED_ENTRIES : Z := 50000.

(** The table points into the heap of counters. *)
Record ConnectionLimiter := { counts : gmap Z nat; heap : list Z }.

Definition fresh_limiter : ConnectionLimiter := {| counts := ∅; heap := [] |}.

(** Where a request is in [try_acquire], or what it was answered: a permit with its counter (none
    when the key is unlimited), or nothing.  [Dropped] is behind the drop of the permit. *)
Inductive AcquirePc :=
  | AcqContains
  | AcqLen
  | AcqScan
  | AcqRemove (victim : Z)
  | AcqEntry
  | AcqLoad (counter : nat)
  | AcqSwap (counter : nat) (current : Z)
  | Permit (counter : option nat)
  | Refused
  | Dropped.

Record Conn := { cn_key : Z; cn_limit : Z; cn_pc : AcquirePc }.

Definition at_pc (t : Conn) (pc : AcquirePc) : Conn :=
  {| cn_key := cn_key t; cn_limit := cn_limit t; cn_pc := pc |}.

Definition with_heap (s : ConnectionLimiter) (h : list Z) : ConnectionLimiter :=
  {| counts := counts s; heap := h |}.

(** [try_acquire] begins. *)
Definition arriving (key limit : Z) : Conn :=
  {| cn_key := key; cn_limit := limit; cn_pc := if limit =? 0 then Permit None else AcqContains |}.

(** One access.  The scan for an idle entry walks the shards one after the other, so it may find
    any entry that is idle when it is visited ([choice]), or none; a weak compare-and-swap may
    fail for no reason ([spurious]). *)
Definition try_acquire_step (choice : option Z) (spurious : bool) (t : Conn) (s : ConnectionLimiter)
    : option (Conn * ConnectionLimiter) :=
  match cn_pc t with
  | AcqContains =>
      Some (at_pc t (if bool_decide (is_Some (counts s !! cn_key t)) then AcqEntry else AcqLen), s)
  | AcqLen =>
      Some (at_pc t (if MAX_TRACKED_ENTRIES <=? Z.of_nat (size (counts s)) then AcqScan else AcqEntry), s)
  | AcqScan =>
      match choice with
      | Some victim =>
          l ← counts s !! victim;
          v ← heap s !! l;
          if v =? 0 then Some (at_pc t (AcqRemove victim), s) else None
      | None => Some (at_pc t AcqEntry, s)
      end
  | AcqRemove victim =>
      Some (at_pc t AcqEntry, {| counts := delete victim (counts s); heap := heap s |})
  | AcqEntry =>
      match counts s !! cn_key t with
      | Some l => Some (at_pc t (AcqLoad l), s)
      | None =>
          let l := length (heap s) in
          Some (at_pc t (AcqLoad l), {| counts := <[cn_key t := l]> (counts s); heap := heap s ++ [0] |})
      end
  | AcqLoad l => v ← heap s !! l; Some (at_pc t (AcqSwap l v), s)
  | AcqSwap l current =>
      if cn_limit t <=? current then Some (at_pc t Refused, s)
      else
        v ← heap s !! l;
        if (v =? current) && negb spurious
        then Some (at_pc t (Permit (Some l)), with_heap s (<[l := current + 1]> (heap s)))
        else Some (at_pc t (AcqLoad l), s)
  | Permit (Some l) =>
      v ← heap s !! l; Some (at_pc t Dropped, with_heap s (<[l := v - 1]> (heap s)))
  | Permit None => Some (at_pc t Dropped, s)
  | Refused | Dropped => None
  end.

(** A step of one of the requests. *)
Inductive conn_step : list Conn * ConnectionLimiter -> list Conn * ConnectionLimiter -> Prop :=
  | conn_access ts s i t choice spurious t' s' :
      ts !! i = Some t -> try_acquire_step choice spurious t s = Some (t', s') ->
      conn_step (ts, s) (<[i := t']> ts, s').

(** ** Counting permits *)

Definition holds_counter (l : nat) (t : Conn) : bool :=
  match cn_pc t with Permit (Some l') => Nat.eqb l' l | _ => false end.

(** The permits out on a counter, and those a key has. *)
Definition permits_on (l : nat) (ts : list Conn) : Z := Z.of_nat (length (List.filter (holds_counter l) ts)).

Definition counted_permit (t : Conn) : bool :=
  match cn_pc t with Permit (Some _) => true | _ => false end.

Definition permits_of (key : Z) (ts : list Conn) : Z :=
  Z.of_nat (length (List.filter (fun t => (cn_key t =? key) && counted_permit t) ts)).

Lemma elem_of_insert_inv {A} (l : list A) i x y : x ∈ <[i := y]> l -> x = y \/ x ∈ l.
Proof.
  intros [j Hj]%list_elem_of_lookup. apply list_lookup_insert_Some in Hj as [(_ & <- & _)|[_ Hj]]; [by left|right].
  by eapply list_elem_of_lookup_2.
Qed.

(** The counter a request was given. *)
Definition counter_of (t : Conn) : option nat :=
  match cn_pc t with
  | AcqLoad l | AcqSwap l _ | Permit (Some l) => Some l
  | _ => None
  end.

(** The requests of a run, whose keys and limits do not change. *)
Definition callers (ts : list Conn) : list (Z * Z) := map (fun t => (cn_key t, cn_limit t)) ts.

Definition max_limit (max : Z -> Z) (ts : list Conn) : Prop :=
  Forall (fun t => cn_limit t <= max (cn_key t)) ts.

(** What holds at any time: a counter counts the permits out on it, belongs to one key, and has
    not exceeded the largest limit of that key. *)
Record conn_inv (max : Z -> Z) (ts : list Conn) (s : ConnectionLimiter) (owner : list Z) : Prop := {
  ci_count l v : heap s !! l = Some v -> v = permits_on l ts;
  ci_max : max_limit max ts;
  ci_owner : length owner = length (heap s);
  ci_table k l : counts s !! k = Some l -> owner !! l = Some k;
  ci_given t l : t ∈ ts -> counter_of t = Some l -> owner !! l = Some (cn_key t);
  ci_bound l k : owner !! l = Some k -> 0 < permits_on l ts -> permits_on l ts <= max k
}.

Lemma permits_on_nonneg l ts : 0 <= permits_on l ts.
Proof. unfold permits_on. lia. Qed.

Lemma permits_on_new max ts s owner : conn_inv max ts s owner -> permits_on (length (heap s)) ts = 0.
Proof.
  intros Hinv. unfold permits_on. destruct (List.filter _ ts) as [|t ts'] eqn:Hf; [done|]. exfalso.
  assert (In t (List.filter (holds_counter (length (heap s))) ts)) as [Hin Hh]%List.filter_In
    by (rewrite Hf; by left).
  apply list_elem_of_In in Hin. unfold holds_counter in Hh. destruct (cn_pc t) as [| | | | | | |[l|]| |] eqn:Hpc; try done.
  apply Nat.eqb_eq in Hh as ->.
  assert (owner !! length (heap s) = Some (cn_key t)) as Ho
    by (eapply ci_given; [done..|]; unfold counter_of; by rewrite Hpc).
  apply lookup_lt_Some in Ho. rewrite (ci_owner _ _ _ _ Hinv) in Ho. lia.
Qed.

Lemma max_limit_insert max ts i t pc :
  ts !! i = Some t -> max_limit max ts -> max_limit max (<[i := at_pc t pc]> ts).
Proof.
  intros Hi Hm. apply Forall_insert; [done|]. simpl. by apply (Forall_lookup_1 _ _ _ _ Hm Hi).
Qed.

Lemma permits_on_insert l ts i t t' :
  ts !! i = Some t ->
  permits_on l (<[i := t']> ts) = permits_on l ts - Z.b2z (holds_counter l t) + Z.b2z (holds_counter l t').
Proof. apply count_insert. Qed.

(** A step that gives no counter and changes none. *)
Lemma conn_inv_quiet max ts s owner i t pc counts' :
  conn_inv max ts s owner -> ts !! i = Some t -> counts' ⊆ counts s ->
  (forall l, holds_counter l (at_pc t pc) = holds_counter l t) ->
  (forall l, counter_of (at_pc t pc) = Some l -> owner !! l = Some (cn_key t)) ->
  conn_inv max (<[i := at_pc t pc]> ts) {| counts := counts'; heap := heap s |} owner.
Proof.
  intros [Hc Hm Ho Ht Hg Hb] Hi Hsub Hh Hco.
  assert (forall l, permits_on l (<[i := at_pc t pc]> ts) = permits_on l ts) as Hp.
  { intros l. rewrite (permits_on_insert _ _ _ _ _ Hi), Hh. lia. }
  split; simpl.
  - intros l v Hv. rewrite Hp. by apply Hc.
  - by apply max_limit_insert.
  - done.
  - intros k l Hk. apply Ht. by eapply lookup_weaken.
  - intros t' l [->|Hin]%elem_of_insert_inv Hcl; [by apply Hco|by apply Hg].
  - intros l k. rewrite Hp. apply Hb.
Qed.

(** A request gets a new counter, under a key the table does not have. *)
Lemma conn_inv_new max ts s owner i t :
  conn_inv max ts s owner -> ts !! i = Some t -> counter_of t = None -> (forall l, holds_counter l t = false) ->
  conn_inv max (<[i := at_pc t (AcqLoad (length (heap s)))]> ts)
    {| counts := <[cn_key t := length (heap s)]> (counts s); heap := heap s ++ [0] |} (owner ++ [cn_key t]).
Proof.
  intros Hinv Hi Hnone Hno. pose proof (permits_on_new _ _ _ _ Hinv) as Hnew.
  destruct Hinv as [Hc Hm Ho Ht Hg Hb].
  assert (forall l, permits_on l (<[i := at_pc t (AcqLoad (length (heap s)))]> ts) = permits_on l ts) as Hp.
  { intros l. rewrite (permits_on_insert _ _ _ _ _ Hi), Hno. simpl. lia. }
  split; simpl.
  - intros l v. rewrite Hp. intros [Hv|[? Hv]]%lookup_app_Some; [by apply Hc|].
    apply list_lookup_singleton_Some in Hv as [Hl <-].
    replace l with (length (heap s)) by lia. by rewrite Hnew.
  - by apply max_limit_insert.
  - rewrite !length_app. simpl. lia.
  - intros k l [[<- <-]|[Hne Hk]]%lookup_insert_Some.
    + rewrite <- Ho. by apply list_lookup_middle.
    + apply lookup_app_l_Some. by apply Ht.
  - intros t' l [->|Hin]%elem_of_insert_inv Hcl.
    + injection Hcl as <-. simpl. rewrite <- Ho. by apply list_lookup_middle.
    + apply lookup_app_l_Some. by apply Hg.
  - intros l k [Hk|[? Hk]]%lookup_app_Some; rewrite Hp; [by apply Hb|].
    apply list_lookup_singleton_Some in Hk as [Hl _].
    replace l with (length (heap s)) by lia. rewrite Hnew. lia.
Qed.

(** A step that moves one permit on or off a counter. *)
Lemma conn_inv_count max ts s owner i t pc l v delta :
  conn_inv max ts s owner -> ts !! i = Some t -> heap s !! l = Some v ->
  (forall l', Z.b2z (holds_counter l' (at_pc t pc)) - Z.b2z (holds_counter l' t) = if Nat.eqb l l' then delta else 0) ->
  (forall l', counter_of (at_pc t pc) = Some l' -> counter_of t = Some l') ->
  (forall k, owner !! l = Some k -> 0 < v + delta -> v + delta <= max k) ->
  conn_inv max (<[i := at_pc t pc]> ts) (with_heap s (<[l := v + delta]> (heap s))) owner.
Proof.
  intros [Hc Hm Ho Ht Hg Hb] Hi Hv Hd Hco Hmax.
  assert (forall l', permits_on l' (<[i := at_pc t pc]> ts) = permits_on l' ts + (if Nat.eqb l l' then delta else 0)) as Hp.
  { intros l'. rewrite (permits_on_insert _ _ _ _ _ Hi), <- Hd. lia. }
  pose proof (Hc _ _ Hv) as Hvp.
  split; simpl.
  - intros l' v' Hv'. rewrite Hp. apply list_lookup_insert_Some in Hv' as [(<- & <- & _)|[Hne Hv']].
    + rewrite Nat.eqb_refl. lia.
    + destruct (Nat.eqb_spec l l'); [done|]. rewrite (Hc _ _ Hv'). lia.
  - by apply max_limit_insert.
  - by rewrite length_insert.
  - apply Ht.
  - intros t' l' [->|Hin]%elem_of_insert_inv Hcl; [|by apply Hg].
    apply (Hg t); [by eapply list_elem_of_lookup_2|]. by apply Hco.
  - intros l' k Hk. rewrite Hp. destruct (Nat.eqb_spec l l') as [<-|]; [rewrite <- Hvp; by apply Hmax|].
    rewrite Z.add_0_r. by apply Hb.
Qed.

Lemma conn_inv_step max ts s owner ts' s' :
  conn_inv max ts s owner -> conn_step (ts, s) (ts', s') -> exists owner', conn_inv max ts' s' owner'.
Proof.
  intros Hinv Hstep. inversion Hstep as [? ? i t choice sp t1 ? Hi Hs]; subst; clear Hstep.
  assert (forall pc, (forall l, holds_counter l (at_pc t pc) = holds_counter l t) ->
    (forall l, counter_of (at_pc t pc) = Some l -> counter_of t = Some l \/ counts s !! cn_key t = Some l) ->
    exists owner', conn_inv max (<[i := at_pc t pc]> ts) s owner') as Hquiet.
  { intros pc Hh Hco. exists owner. destruct s as [c h]. apply (conn_inv_quiet max ts {| counts := c; heap := h |} owner i t pc c); [done..|].
    intros l Hl. destruct (Hco l Hl) as [Hl'|Hl'].
    - eapply ci_given; [done|by eapply list_elem_of_lookup_2|done].
    - by eapply ci_table. }
  unfold try_acquire_step in Hs. destruct t as [k lim pc]. cbn [cn_pc cn_key cn_limit] in *.
  destruct pc as [| | |victim| |l|l cur|[l|]| |]; cbn [mbind option_bind] in Hs; simplify_eq.
  - apply Hquiet; intros l; cbn; by destruct (bool_decide _).
  - apply Hquiet; intros l; cbn; by destruct (_ <=? _).
  - destruct choice as [victim|]; [|simplify_eq; by apply Hquiet].
    destruct (counts s !! victim) as [l|]; [|done]. cbn in Hs. destruct (heap s !! l) as [v|]; [|done]. cbn in Hs.
    destruct (v =? 0); [|done]. simplify_eq. by apply Hquiet.
  - exists owner. apply conn_inv_quiet; [done..|apply delete_subseteq|done|done].
  - destruct (counts s !! k) as [l|] eqn:Hk; simplify_eq.
    + apply Hquiet; [done|]. cbn. intros l' [= <-]. by right.
    + eexists. by eapply (conn_inv_new max ts s owner i {| cn_key := k; cn_limit := lim; cn_pc := AcqEntry |}).
  - destruct (heap s !! l) as [v|]; [|done]. cbn in Hs. simplify_eq. apply Hquiet; [done|]. cbn. auto.
  - destruct (Z.leb_spec lim cur); [simplify_eq; by apply Hquiet|].
    destruct (heap s !! l) as [v|] eqn:Hv; [|done]. cbn in Hs.
    destruct (Z.eqb_spec v cur) as [->|]; [destruct sp|]; cbn in Hs; simplify_eq;
      try (apply Hquiet; [done|]; cbn; auto; fail).
    exists owner. eapply conn_inv_count; [done..| |done|].
    + intros l'. cbn. rewrite Z.sub_0_r. by destruct (Nat.eqb l l').
    + intros k' Hk' _. pose proof (ci_max _ _ _ _ Hinv) as Hm.
      pose proof (Forall_lookup_1 _ _ _ _ Hm Hi) as Hlim. cbn in Hlim.
      assert (owner !! l = Some k) as Hk by (by apply (ci_given _ _ _ _ Hinv _ l (list_elem_of_lookup_2 _ _ _ Hi))).
      assert (k' = k) as -> by congruence. lia.
  - destruct (heap s !! l) as [v|] eqn:Hv; [|done]. cbn in Hs. simplify_eq. exists owner.
    eapply conn_inv_count; [done..| |done|].
    + intros l'. cbn. by destruct (Nat.eqb l l').
    + intros k' Hk' Hpos. pose proof (ci_count _ _ _ _ Hinv _ _ Hv).
      pose proof (ci_bound _ _ _ _ Hinv _ _ Hk'). lia.
  - by apply Hquiet.
Qed.

(** ** Runs with fewer keys than the table holds *)

Definition in_eviction (t : Conn) : bool :=
  match cn_pc t with AcqScan | AcqRemove _ => true | _ => false end.

(** Nothing is evicted, so a request holds the counter the table has for its key. *)
Record calm_inv (keys : gset Z) (ts : list Conn) (s : ConnectionLimiter) : Prop := {
  ca_dom : dom (counts s) ⊆ keys;
  ca_keys t : t ∈ ts -> cn_key t ∈ keys;
  ca_calm t : t ∈ ts -> in_eviction t = false;
  ca_given t l : t ∈ ts -> counter_of t = Some l -> counts s !! cn_key t = Some l
}.

Lemma calm_inv_insert (keys : gset Z) ts s s' i t pc :
  calm_inv keys ts s -> ts !! i = Some t -> counts s ⊆ counts s' -> dom (counts s') ⊆ keys ->
  in_eviction (at_pc t pc) = false ->
  (forall l, counter_of (at_pc t pc) = Some l -> counts s' !! cn_key t = Some l) ->
  calm_inv keys (<[i := at_pc t pc]> ts) s'.
Proof.
  intros [Hd Hk Hc Hg] Hi Hsub Hd' He Hco. pose proof (list_elem_of_lookup_2 _ _ _ Hi) as Hin.
  split; [done|..]; intros t'.
  - intros [->|Ht']%elem_of_insert_inv; [by apply (Hk t)|by apply Hk].
  - intros [->|Ht']%elem_of_insert_inv; [done|by apply Hc].
  - intros l [->|Ht']%elem_of_insert_inv Hl; [by apply Hco|]. eapply lookup_weaken; [|exact Hsub]. by apply Hg.
Qed.

Lemma calm_inv_step keys ts s ts' s' :
  Z.of_nat (size keys) < MAX_TRACKED_ENTRIES ->
  calm_inv keys ts s -> conn_step (ts, s) (ts', s') -> calm_inv keys ts' s'.
Proof.
  intros Hroom Hinv Hstep. inversion Hstep as [? ? i t choice sp t1 ? Hi Hs]; subst; clear Hstep.
  pose proof (list_elem_of_lookup_2 _ _ _ Hi) as Hin.
  pose proof (ca_calm _ _ _ Hinv t Hin) as Hcalm. pose proof (ca_keys _ _ _ Hinv t Hin) as Hkey.
  pose proof (ca_dom _ _ _ Hinv) as Hdom. pose proof (subseteq_size _ _ Hdom) as Hsize. rewrite size_dom in Hsize.
  assert (forall l, counter_of t = Some l -> counts s !! cn_key t = Some l) as Hg by (intros l; by apply (ca_given _ _ _ Hinv)).
  assert (forall pc h, in_eviction (at_pc t pc) = false ->
    (forall l, counter_of (at_pc t pc) = Some l -> counts s !! cn_key t = Some l) ->
    calm_inv keys (<[i := at_pc t pc]> ts) (with_heap s h)) as Hquiet.
  { intros pc h He Hco. eapply calm_inv_insert; done. }
  assert (forall pc, in_eviction (at_pc t pc) = false ->
    (forall l, counter_of (at_pc t pc) = Some l -> counts s !! cn_key t = Some l) ->
    calm_inv keys (<[i := at_pc t pc]> ts) s) as Hsame.
  { intros pc He Hco. eapply calm_inv_insert; done. }
  unfold try_acquire_step in Hs. destruct t as [k lim pc]. cbn [cn_pc cn_key cn_limit] in *.
  destruct pc as [| | |victim| |l|l cur|[l|]| |]; cbn [mbind option_bind] in Hs; simplify_eq; try done.
  - apply Hsame; [|intros l; cbn]; by destruct (bool_decide _).
  - destruct (Z.leb_spec MAX_TRACKED_ENTRIES (Z.of_nat (size (counts s')))); [lia|]. by apply Hsame.
  - destruct (counts s !! k) as [l|] eqn:Hk; simplify_eq.
    + apply Hsame; [done|]. cbn. congruence.
    + eapply (calm_inv_insert keys ts s _ i {| cn_key := k; cn_limit := lim; cn_pc := AcqEntry |}); [done..| | |done|].
      * by apply insert_subseteq.
      * cbn. rewrite dom_insert_L. set_solver.
      * cbn. intros l [= <-]. by rewrite lookup_insert_eq.
  - destruct (heap s !! l) as [v|]; [|done]. cbn in Hs. simplify_eq. apply Hsame; [done|]. cbn. auto.
  - destruct (Z.leb_spec lim cur); [simplify_eq; by apply Hsame|].
    destruct (heap s !! l) as [v|] eqn:Hv; [|done]. cbn in Hs.
    destruct ((v =? cur) && negb sp); simplify_eq; [apply Hquiet|apply Hsame]; cbn; auto.
  - destruct (heap s !! l) as [v|] eqn:Hv; [|done]. cbn in Hs. simplify_eq. by apply Hquiet.
  - by apply Hsame.
Qed.

Definition arrivals (calls : list (Z * Z)) : list Conn := map (fun c => arriving c.1 c.2) calls.

Lemma arriving_no_counter k l : counter_of (arriving k l) = None.
Proof. unfold counter_of, arriving. simpl. by destruct (l =? 0). Qed.

Lemma elem_of_arrivals t calls : t ∈ arrivals calls -> exists k l, (k, l) ∈ calls /\ t = arriving k l.
Proof.
  unfold arrivals. intros Ht. apply list_elem_of_fmap in Ht as ([k l] & -> & Hin). by exists k, l.
Qed.

Lemma arrivals_inv max calls :
  Forall (fun c => c.2 <= max c.1) calls -> conn_inv max (arrivals calls) fresh_limiter [].
Proof.
  intros Hm.
  assert (forall l, permits_on l (arrivals calls) = 0) as Hp.
  { intros l. unfold permits_on. induction calls as [|[k lim] calls IH]; [done|]. simpl.
    apply Forall_cons_1 in Hm as [_ Hm]. unfold holds_counter at 1. simpl.
    destruct (lim =? 0); by apply IH. }
  split; simpl; try done.
  - unfold max_limit, arrivals. apply Forall_fmap. eapply Forall_impl; [|exact Hm]. by intros [k l].
  - intros t l (k & lim & _ & ->)%elem_of_arrivals. by rewrite arriving_no_counter.
Qed.

Lemma arrivals_calm calls : calm_inv (list_to_set (map fst calls)) (arrivals calls) fresh_limiter.
Proof.
  split; simpl.
  - rewrite dom_empty_L. set_solver.
  - intros t (k & lim & Hin & ->)%elem_of_arrivals. simpl. apply elem_of_list_to_set, list_elem_of_fmap. by exists (k, lim).
  - intros t (k & lim & _ & ->)%elem_of_arrivals. unfold in_eviction. simpl. by destruct (lim =? 0).
  - intros t l (k & lim & _ & ->)%elem_of_arrivals. by rewrite arriving_no_counter.
Qed.

Lemma conn_inv_run max st st' :
  rtc conn_step st st' -> (exists owner, conn_inv max st.1 st.2 owner) -> exists owner, conn_inv max st'.1 st'.2 owner.
Proof.
  induction 1 as [|[ts s] [ts1 s1] st2 Hs _ IH]; [done|]. intros [owner Hinv]. apply IH. by eapply conn_inv_step.
Qed.

Lemma calm_inv_run keys st st' :
  Z.of_nat (size keys) < MAX_TRACKED_ENTRIES ->
  rtc conn_step st st' -> calm_inv keys st.1 st.2 -> calm_inv keys st'.1 st'.2.
Proof.
  intros Hroom. induction 1 as [|[ts s] [ts1 s1] st2 Hs _ IH]; [done|]. intros Hinv. apply IH. by eapply calm_inv_step.
Qed.

(** [current]: the count of a key. *)
Definition current_count (s : ConnectionLimiter) (key : Z) : Z :=
  default 0 (l ← counts s !! key; heap s !! l).

Lemma permits_of_counter max keys ts s owner key :
  conn_inv max ts s owner -> calm_inv keys ts s ->
  permits_of key ts = match counts s !! key with Some l => permits_on l ts | None => 0 end.
Proof.
  intros Hinv Hcalm.
  assert (forall t, t ∈ ts -> (cn_key t =? key) && counted_permit t =
    match counts s !! key with Some l => holds_counter l t | None => false end) as Heq.
  { intros t Ht. pose proof (fun l => ca_given _ _ _ Hcalm t l Ht) as Hg. unfold counter_of in Hg.
    unfold counted_permit, holds_counter.
    destruct (cn_pc t) as [| | | | | | |[l|]| |]; rewrite ?andb_false_r; try by destruct (counts s !! key).
    specialize (Hg l eq_refl). destruct (Z.eqb_spec (cn_key t) key) as [<-|Hne]; simpl.
    - rewrite Hg. by rewrite Nat.eqb_refl.
    - destruct (counts s !! key) as [l'|] eqn:Hk; [|done]. symmetry. apply Nat.eqb_neq. intros <-.
      apply (ci_table _ _ _ _ Hinv) in Hk, Hg. congruence. }
  unfold permits_of, permits_on. destruct (counts s !! key) as [l|].
  - f_equal. f_equal. clear - Heq. induction ts as [|t ts IH]; [done|]. simpl.
    rewrite Heq by set_solver. rewrite IH by set_solver. done.
  - clear - Heq. induction ts as [|t ts IH]; [done|]. simpl.
    rewrite Heq by set_solver. apply IH. set_solver.
Qed.


(** ** A counter that is evicted while a request holds on to it *)

(** Steps of some requests are steps of all. *)
Lemma conn_step_frame pre post ts s ts' s' :
  conn_step (ts, s) (ts', s') -> conn_step (pre ++ ts ++ post, s) (pre ++ ts' ++ post, s').
Proof.
  intros Hs. inversion Hs as [? ? i t choice sp t1 ? Hi Hst]; subst.
  replace (pre ++ <[i := t1]> ts ++ post) with (<[(length pre + i)%nat := t1]> (pre ++ ts ++ post)).
  - eapply conn_access; [|exact Hst]. rewrite lookup_app_r by lia.
    replace (length pre + i - length pre)%nat with i by lia. by apply lookup_app_l_Some.
  - rewrite insert_app_r. f_equal. apply insert_app_l. by eapply lookup_lt_Some.
Qed.

Lemma conn_run_frame pre post ts s ts' s' :
  rtc conn_step (ts, s) (ts', s') -> rtc conn_step (pre ++ ts ++ post, s) (pre ++ ts' ++ post, s').
Proof.
  intros Hrun. remember (ts, s) as st. remember (ts', s') as st'. revert ts s Heqst.
  induction Hrun as [|st [ts1 s1] st2 Hs _ IH]; intros ts s ->; [simplify_eq; apply rtc_refl|].
  eapply rtc_l; [by apply conn_step_frame|]. by apply IH.
Qed.

Lemma insert_last {A} (l : list A) x y : <[length l := y]> (l ++ [x]) = l ++ [y].
Proof. rewrite <- (Nat.add_0_r (length l)). by rewrite insert_app_r. Qed.

(** A request of a new key that comes and goes leaves an idle counter behind. *)
Definition visited (key : Z) (s : ConnectionLimiter) : ConnectionLimiter :=
  {| counts := <[key := length (heap s)]> (counts s); heap := heap s ++ [0] |}.

Lemma acquire_new key s :
  counts s !! key = None -> Z.of_nat (size (counts s)) < MAX_TRACKED_ENTRIES ->
  rtc conn_step ([arriving key 1], s)
    ([at_pc (arriving key 1) (Permit (Some (length (heap s))))],
     {| counts := <[key := length (heap s)]> (counts s); heap := heap s ++ [1] |}).
Proof.
  intros Hk Hsz. set (t := arriving key 1).
  assert (forall pc pc' s0 s1, try_acquire_step None false (at_pc t pc) s0 = Some (at_pc t pc', s1) ->
    conn_step ([at_pc t pc], s0) ([at_pc t pc'], s1)) as Hstep.
  { intros pc pc' s0 s1 Hs. by apply (conn_access [at_pc t pc] s0 0 (at_pc t pc) None false (at_pc t pc') s1). }
  change [t] with [at_pc t AcqContains].
  assert ((heap s ++ [0]) !! length (heap s) = Some 0) as Hl by (by apply list_lookup_middle).
  eapply rtc_l; [apply (Hstep _ AcqLen)|].
  { cbn. rewrite Hk. done. }
  eapply rtc_l; [apply (Hstep _ AcqEntry)|].
  { cbn. by destruct (Z.leb_spec MAX_TRACKED_ENTRIES (Z.of_nat (size (counts s)))); [lia|]. }
  eapply rtc_l; [apply (Hstep _ (AcqLoad (length (heap s))) _ (visited key s))|].
  { cbn. by rewrite Hk. }
  eapply rtc_l; [apply (Hstep _ (AcqSwap (length (heap s)) 0) _ (visited key s))|].
  { cbn. by rewrite Hl. }
  eapply rtc_l; [apply Hstep|apply rtc_refl].
  cbn. rewrite Hl. cbn. unfold with_heap. cbn. do 2 f_equal.
  f_equal. apply insert_last.
Qed.

Lemma acquire_and_drop key s :
  counts s !! key = None -> Z.of_nat (size (counts s)) < MAX_TRACKED_ENTRIES ->
  rtc conn_step ([arriving key 1], s) ([at_pc (arriving key 1) Dropped], visited key s).
Proof.
  intros Hk Hsz. eapply rtc_r; [by apply acquire_new|].
  apply (conn_access [_] _ 0 _ None false (at_pc (arriving key 1) Dropped) (visited key s) eq_refl). cbn.
  assert ((heap s ++ [1]) !! length (heap s) = Some 1) as -> by (by apply list_lookup_middle).
  cbn. unfold with_heap, visited. cbn. do 3 f_equal.
  apply insert_last.
Qed.

(** The limiter after requests of the keys [0 .. n-1] have come and gone. *)
Fixpoint filled (n : nat) : ConnectionLimiter :=
  match n with
  | O => fresh_limiter
  | S n' => visited (Z.of_nat n') (filled n')
  end.

Definition fillers (n : nat) : list (Z * Z) := map (fun i => (Z.of_nat i, 1)) (seq 0 n).

Lemma filled_heap n : heap (filled n) = replicate n 0.
Proof.
  induction n as [|n IH]; [done|]. cbn [filled visited heap]. rewrite IH.
  by rewrite replicate_S_end.
Qed.

Lemma filled_lookup n k : counts (filled n) !! k = if decide (0 <= k < Z.of_nat n) then Some (Z.to_nat k) else None.
Proof.
  induction n as [|n IH]; [by destruct (decide _); [lia|]|]. cbn [filled visited counts].
  rewrite filled_heap, length_replicate. destruct (decide (k = Z.of_nat n)) as [->|Hne].
  - clear IH. rewrite lookup_insert_eq. destruct (decide _); [|lia]. f_equal. lia.
  - rewrite lookup_insert_ne, IH by done. clear IH. destruct (decide _), (decide _); done || lia.
Qed.

Lemma filled_size n : size (counts (filled n)) = n.
Proof.
  induction n as [|n IH]; [done|]. cbn [filled visited counts]. rewrite map_size_insert_None, IH; [done|].
  rewrite filled_lookup. destruct (decide _); [lia|done].
Qed.

Definition gone (calls : list (Z * Z)) : list Conn := map (fun t => at_pc t Dropped) (arrivals calls).

Lemma fill_run n :
  Z.of_nat n <= MAX_TRACKED_ENTRIES ->
  rtc conn_step (arrivals (fillers n), fresh_limiter) (gone (fillers n), filled n).
Proof.
  induction n as [|n IH]; intros Hn; [apply rtc_refl|].
  assert (fillers (S n) = fillers n ++ [(Z.of_nat n, 1)]) as ->.
  { unfold fillers. by rewrite seq_S, map_app. }
  unfold gone, arrivals. rewrite !map_app. fold (arrivals (fillers n)). fold (gone (fillers n)).
  etransitivity.
  - apply (conn_run_frame [] _ (arrivals (fillers n)) _ (gone (fillers n)) (filled n)). apply IH. lia.
  - simpl. rewrite <- (app_nil_r [arriving _ _]), <- (app_nil_r [at_pc _ _]).
    apply (conn_run_frame (gone (fillers n)) [] [_] (filled n)). apply acquire_and_drop.
    + rewrite filled_lookup. destruct (decide _); [lia|done].
    + rewrite filled_size. lia.
Qed.

Lemma permits_of_app key l1 l2 : permits_of key (l1 ++ l2) = permits_of key l1 + permits_of key l2.
Proof. unfold permits_of. rewrite List.filter_app, length_app. lia. Qed.

Lemma gone_permits key calls : permits_of key (gone calls) = 0.
Proof. unfold permits_of. induction calls as [|c calls IH]; [done|]. simpl. by rewrite andb_false_r. Qed.

(** Key 0 has an idle counter in a full table.  The first request of it has read the pointer and
    not yet the counter, when a request of a new key evicts the entry; the second request of key 0
    gets a counter of its own. *)
Lemma split_run s n :
  s = filled n -> Z.of_nat n = MAX_TRACKED_ENTRIES ->
  rtc conn_step ([arriving 0 1; arriving (Z.of_nat n) 1; arriving 0 1], s)
    ([at_pc (arriving 0 1) (Permit (Some 0%nat)); at_pc (arriving (Z.of_nat n) 1) AcqEntry;
      at_pc (arriving 0 1) (Permit (Some n))],
     {| counts := <[0 := n]> (delete 0 (counts s)); heap := <[0%nat := 1]> (heap s) ++ [1] |}).
Proof.
  intros -> Hn. assert (0 < Z.of_nat n) as Hpos by (by rewrite Hn). set (s := filled n). set (key := Z.of_nat n).
  assert (counts s !! 0 = Some 0%nat) as H0.
  { unfold s. rewrite filled_lookup. by destruct (decide _); [|lia]. }
  assert (counts s !! key = None) as Hkey.
  { unfold s, key. rewrite filled_lookup. by destruct (decide _); [lia|]. }
  assert (heap s !! 0%nat = Some 0) as Hh.
  { unfold s. rewrite filled_heap. apply lookup_replicate_2. lia. }
  assert (forall i ts s0 t choice t' s1, ts !! i = Some t -> try_acquire_step choice false t s0 = Some (t', s1) ->
    conn_step (ts, s0) (<[i := t']> ts, s1)) as Hstep by (intros; by eapply conn_access).
  set (a := arriving 0 1). set (b := arriving key 1).
  eapply rtc_l; [apply (Hstep 0%nat _ _ a None (at_pc a AcqEntry) s); [done|cbn; by rewrite H0]|].
  eapply rtc_l; [apply (Hstep 0%nat _ _ (at_pc a AcqEntry) None (at_pc a (AcqLoad 0)) s); [done|cbn; by rewrite H0]|].
  eapply rtc_l; [apply (Hstep 1%nat _ _ b None (at_pc b AcqLen) s); [done|cbn; by rewrite Hkey]|].
  eapply rtc_l; [apply (Hstep 1%nat _ _ (at_pc b AcqLen) None (at_pc b AcqScan) s); [done|]|].
  { cbn [try_acquire_step at_pc cn_pc]. unfold s. rewrite filled_size, Hn. by rewrite Z.leb_refl. }
  eapply rtc_l; [apply (Hstep 1%nat _ _ (at_pc b AcqScan) (Some 0) (at_pc b (AcqRemove 0)) s); [done|]|].
  { cbn. rewrite H0. cbn. by rewrite Hh. }
  set (s2 := {| counts := delete 0 (counts s); heap := heap s |}).
  eapply rtc_l; [by apply (Hstep 1%nat _ _ (at_pc b (AcqRemove 0)) None (at_pc b AcqEntry) s2)|].
  eapply rtc_l; [apply (Hstep 0%nat _ _ (at_pc a (AcqLoad 0)) None (at_pc a (AcqSwap 0 0)) s2); [done|cbn; by rewrite Hh]|].
  set (s3 := {| counts := delete 0 (counts s); heap := <[0%nat := 1]> (heap s) |}).
  eapply rtc_l; [apply (Hstep 0%nat _ _ (at_pc a (AcqSwap 0 0)) None (at_pc a (Permit (Some 0%nat))) s3);
    [done|cbn; by rewrite Hh]|].
  assert (length (heap s3) = n) as Hlen.
  { cbn. rewrite length_insert. unfold s. by rewrite filled_heap, length_replicate. }
  pose proof (acquire_new 0 s3) as Hnew. rewrite Hlen in Hnew.
  apply (conn_run_frame [at_pc a (Permit (Some 0%nat)); at_pc b AcqEntry] [] [a] s3 [at_pc a (Permit (Some n))]
    {| counts := <[0 := n]> (counts s3); heap := heap s3 ++ [1] |}). apply Hnew.
  - apply lookup_delete_eq.
  - cbn. rewrite map_size_delete_Some by (by exists 0%nat). unfold s. rewrite filled_size.
    unfold MAX_TRACKED_ENTRIES in *. lia.
Qed.

(** At capacity the limit can be exceeded: the scan finds an entry idle and removes it without
    looking again, although a request holds the pointer and takes its permit on a counter that is
    no longer in the table.  There are requests, all with limit 1, after which a key has two
    permits out. *)
Theorem evicted_counter_splits_limit :
  exists calls ts s, Forall (fun c => c.2 = 1) calls /\
    rtc conn_step (arrivals calls, fresh_limiter) (ts, s) /\ permits_of 0 ts = 2.
Proof.
  set (n := Z.to_nat MAX_TRACKED_ENTRIES).
  assert (Z.of_nat n = MAX_TRACKED_ENTRIES) as Hn by (unfold n, MAX_TRACKED_ENTRIES; lia).
  clearbody n. exists (fillers n ++ [(0, 1); (Z.of_nat n, 1); (0, 1)]). do 2 eexists. split; [|split].
  - apply Forall_app. split; [|by repeat constructor]. unfold fillers. apply Forall_fmap, Forall_true. done.
  - unfold arrivals. rewrite map_app. etransitivity.
    + apply (conn_run_frame [] _ (arrivals (fillers n)) _ (gone (fillers n)) (filled n)). apply fill_run. lia.
    + simpl. rewrite <- (app_nil_r [_; _; _]). apply (conn_run_frame (gone (fillers n)) []). by apply split_run.
  - rewrite permits_of_app, gone_permits. unfold permits_of. simpl. by rewrite andb_false_r.
Qed.

