(* ===== verification/OverlaySync.v ===== *)
(** * Keeping a node's overlay in step with its peers

    [crates/temps-network/src]: the configuration and its validation ([config.rs]), the diff
    of two peer lists ([diff.rs]), the calls that apply it to the kernel ([linux/mod.rs],
    [linux/vxlan.rs], [linux/route.rs]) and the manager around them ([manager.rs]).

    The kernel and the tools that drive it ([bridge], rtnetlink, nftables) are an interface
    ([Kernel]) whose operations may fail; its laws say what a successful operation does to the
    forwarding entries of the VXLAN device and to the routes.  The order in which a [HashMap]
    is iterated and the order on networks are arguments. *)

From S2P Require Import Prelude IpText NetAlloc.
From stdpp Require Import sorting.
Local Open Scope Z_scope.

(** ** Configuration *)

Inductive Transport := Vxlan (vni port : Z) | Native.

(** [saturating_sub] on [u32]. *)
Definition bridge_mtu (t : Transport) (underlay_mtu : Z) : Z :=
  match t with
  | Vxlan _ _ => Z.max 0 (underlay_mtu - 50)
  | Native => underlay_mtu
  end.

Record NodeAlloc := {
  al_node_id : Z;
  al_compute_cidr : Ipv4Net;
  al_bridge_address : IpAddr;
  al_underlay_address : IpAddr
}.

Record NetworkConfig := {
  bridge_name : string;
  docker_network_name : string;
  transport : Transport;
  underlay_mtu : Z;
  underlay_dev : string;
  vxlan_dev_name : string
}.

(** Which of the checks a configuration failed, in place of its text. *)
Inductive InvalidReason :=
  | NameEmpty (field : string)
  | NameTooLong (field : string)
  | NameUnsafe (field : string)
  | DockerNameEmpty
  | MtuTooSmall (minimum : Z)
  | PortZero
  | BridgeIpv6
  | BridgeOutside
  | OverlapsLocal
  | LocalNode
  | OverlapsPeer
  | NoPeerForCidr (cidr : Ipv4Net)
  | NotBootstrapped.

Inductive NetworkError :=
  | InvalidConfig (reason : InvalidReason)
  | InvalidPeer (node_id : Z) (reason : InvalidReason)
  | NetlinkError (link reason : string)
  | VxlanError (device reason : string)
  | RouteError (op : string) (cidr : Ipv4Net) (reason : string)
  | NftablesError (op reason : string).

(** The characters of [[a-zA-Z0-9._@:-]]. *)
Definition name_char_ok (c : ascii) : bool :=
  let n := Z.of_nat (Ascii.nat_of_ascii c) in
  ((97 <=? n) && (n <=? 122)) || ((65 <=? n) && (n <=? 90)) || ((48 <=? n) && (n <=? 57))
  || (n =? 46) || (n =? 95) || (n =? 64) || (n =? 58) || (n =? 45).

Definition validate_interface_name (name field : string) : result NetworkError unit :=
  if (String.length name =? 0)%nat then Err (InvalidConfig (NameEmpty field))
  else if (15 <? String.length name)%nat then Err (InvalidConfig (NameTooLong field))
  else if forallb name_char_ok (String.list_ascii_of_string name) then Ok ()
  else Err (InvalidConfig (NameUnsafe field)).

(** [NetworkConfig::validate]. *)
Definition validate (c : NetworkConfig) : result NetworkError unit :=
  let? _ := validate_interface_name (bridge_name c) "bridge_name" in
  let? _ := validate_interface_name (vxlan_dev_name c) "vxlan_dev_name" in
  if (String.length (docker_network_name c) =? 0)%nat then Err (InvalidConfig DockerNameEmpty)
  else
    let minimum := match transport c with Vxlan _ _ => 1330 | Native => 1280 end in
    if underlay_mtu c <? minimum then Err (InvalidConfig (MtuTooSmall minimum))
    else
      match transport c with
      | Vxlan _ port =>
          if port =? 0 then Err (InvalidConfig PortZero)
          else validate_interface_name (underlay_dev c) "underlay_dev"
      | Native => Ok ()
      end.

Section Validation.
Context `{Ipnet}.

(** The first loop of [validate_with]: a peer against the local node. *)
Definition validate_peer (alloc : NodeAlloc) (_ : unit) (peer : Peer) : result NetworkError unit :=
  if cidrs_overlap (peer_compute_cidr peer) (al_compute_cidr alloc)
  then Err (InvalidPeer (peer_node_id peer) OverlapsLocal)
  else if peer_node_id peer =? al_node_id alloc then Err (InvalidPeer (peer_node_id peer) LocalNode)
  else Ok ().

(** The second loop: no two peers overlap. *)
Fixpoint validate_pairs (peers : list Peer) : result NetworkError unit :=
  match peers with
  | [] => Ok ()
  | a :: rest =>
      match List.find (fun b => cidrs_overlap (peer_compute_cidr a) (peer_compute_cidr b)) rest with
      | Some b => Err (InvalidPeer (peer_node_id b) OverlapsPeer)
      | None => validate_pairs rest
      end
  end.

Definition validate_with (c : NetworkConfig) (alloc : NodeAlloc) (peers : list Peer) : result NetworkError unit :=
  let? _ := validate c in
  match al_bridge_address alloc with
  | V6 _ => Err (InvalidConfig BridgeIpv6)
  | V4 bridge =>
      if negb (net_contains (al_compute_cidr alloc) bridge) then Err (InvalidConfig BridgeOutside)
      else
        let? _ := result_fold (validate_peer alloc) peers () in
        validate_pairs peers
  end.

End Validation.

(** ** Diffs *)

#[export] Instance peer_eq_dec : EqDecision Peer.
Proof. solve_decision. Defined.

#[export] Instance ipv4net_countable : Countable Ipv4Net.
Proof.
  refine (inj_countable' (fun n => (net_addr n, net_prefix n)) (fun p => {| net_addr := p.1; net_prefix := p.2 |}) _).
  by intros [].
Defined.

(** [Ord] of [IpAddr]: IPv4 first, then by value. *)
Definition ip_le (a b : IpAddr) : Prop :=
  match a, b with
  | V4 x, V4 y | V6 x, V6 y => x <= y
  | V4 _, V6 _ => True
  | V6 _, V4 _ => False
  end.
#[export] Instance ip_le_dec : RelDecision ip_le.
Proof. intros [x|x] [y|y]; cbn [ip_le]; apply _. Defined.

Definition by_node_id (a b : Peer) : Prop := peer_node_id a <= peer_node_id b.
Definition by_wanted_id (a b : Peer * Peer) : Prop := peer_node_id a.2 <= peer_node_id b.2.
#[export] Instance by_node_id_dec : RelDecision by_node_id.
Proof. intros a b. unfold by_node_id. apply _. Defined.
#[export] Instance by_wanted_id_dec : RelDecision by_wanted_id.
Proof. intros a b. unfold by_wanted_id. apply _. Defined.

Record PeerDiff := {
  pd_to_add : list Peer;
  pd_fdb_to_remove : list IpAddr;
  pd_to_replace : list (Peer * Peer)
}.

Record RouteDiff := { rd_to_add : list Ipv4Net; rd_to_remove : list Ipv4Net }.

(** A list of peers collected into a [HashMap]: of two with one id the later stays. *)
Definition by_id (peers : list Peer) : gmap Z Peer :=
  fold_left (fun m p => <[peer_node_id p := p]> m) peers ∅.

Definition pd_is_noop (d : PeerDiff) : bool :=
  match pd_to_add d, pd_fdb_to_remove d, pd_to_replace d with [], [], [] => true | _, _, _ => false end.

Definition rd_is_noop (d : RouteDiff) : bool :=
  match rd_to_add d, rd_to_remove d with [], [] => true | _, _ => false end.

Section Diff.
(** The order a map is iterated in, and [Ord] of [Ipv4Net]. *)
Context (iter : gmap Z Peer -> list (Z * Peer)) (net_le : Ipv4Net -> Ipv4Net -> Prop) `{!RelDecision net_le}.

Definition wanted_new (current : gmap Z Peer) (entry : Z * Peer) : option Peer :=
  match current !! entry.1 with None => Some entry.2 | Some _ => None end.

Definition wanted_changed (current : gmap Z Peer) (entry : Z * Peer) : option (Peer * Peer) :=
  match current !! entry.1 with
  | Some have => if bool_decide (have = entry.2) then None else Some (have, entry.2)
  | None => None
  end.

Definition no_longer_wanted (desired : gmap Z Peer) (entry : Z * Peer) : option IpAddr :=
  match desired !! entry.1 with None => Some (peer_underlay_address entry.2) | Some _ => None end.

(** [PeerDiff::compute]. *)
Definition peer_diff (current desired : list Peer) : PeerDiff :=
  let by_id_current := by_id current in
  let by_id_desired := by_id desired in
  {| pd_to_add := merge_sort by_node_id (omap (wanted_new by_id_current) (iter by_id_desired));
     pd_fdb_to_remove := merge_sort ip_le (omap (no_longer_wanted by_id_desired) (iter by_id_current));
     pd_to_replace := merge_sort by_wanted_id (omap (wanted_changed by_id_current) (iter by_id_desired)) |}.

Definition cidrs (peers : list Peer) : gset Ipv4Net := list_to_set (map peer_compute_cidr peers).

(** [RouteDiff::compute]. *)
Definition route_diff (current desired : list Peer) : RouteDiff :=
  {| rd_to_add := merge_sort net_le (elements (cidrs desired ∖ cidrs current));
     rd_to_remove := merge_sort net_le (elements (cidrs current ∖ cidrs desired)) |}.

(** [RouteDiff::from_peer_diff]. *)
Definition from_peer_diff (d : PeerDiff) : RouteDiff :=
  let changed := List.filter (fun hw => negb (bool_decide (peer_compute_cidr hw.1 = peer_compute_cidr hw.2))) (pd_to_replace d) in
  {| rd_to_add := merge_sort net_le (elements (cidrs (pd_to_add d) ∪ list_to_set (map (fun hw => peer_compute_cidr hw.2) changed)));
     rd_to_remove := merge_sort net_le (elements (list_to_set (map (fun hw => peer_compute_cidr hw.1) changed) : gset Ipv4Net)) |}.

End Diff.

(** ** The kernel *)

Inductive Hop := ViaDev (index : Z) (pref_src : option Z) | ViaGateway (gateway : Z).

Inductive RouteAddError := RouteExists | RouteAddFailed (reason : string).

(** What the code calls, with the forwarding entries of a VXLAN device and the routes as they can
    be observed.  The firewall is called through [firewall_install] and [firewall_current]. *)
Class Kernel (K : Type) := {
  open_handle : K -> result string unit;
  link_index_by_name : string -> K -> result string (option Z);
  bridge_fdb_append : string -> IpAddr -> K -> result string unit * K;
  bridge_fdb_delete : string -> IpAddr -> K -> result string unit * K;
  rt_add : Ipv4Net -> Hop -> K -> result RouteAddError unit * K;
  rt_dump : K -> result string (list Ipv4Net);
  rt_del : Ipv4Net -> K -> result string unit * K;
  firewall_install : NetworkConfig -> NodeAlloc -> list Peer -> K -> result string unit * K;
  firewall_current : NetworkConfig -> NodeAlloc -> list Peer -> K -> result string bool;
  fdb : string -> K -> gset IpAddr;
  routes : K -> gmap Ipv4Net Hop
}.

Definition str_contains (needle s : string) : bool :=
  match String.index 0 needle s with Some _ => true | None => false end.

(** The two texts [remove_fdb] takes for an entry that is already gone. *)
Definition already_gone (reason : string) : bool :=
  str_contains "No such" reason || str_contains "Cannot find" reason.

Class KernelLaws {K} (L : Kernel K) := {
  fdb_append_ok d a k k' : bridge_fdb_append d a k = (Ok (), k') ->
    fdb d k' = {[a]} ∪ fdb d k /\ routes k' = routes k;
  fdb_delete_ok d a k k' : bridge_fdb_delete d a k = (Ok (), k') ->
    fdb d k' = fdb d k ∖ {[a]} /\ routes k' = routes k;
  fdb_delete_gone d a k k' e : bridge_fdb_delete d a k = (Err e, k') -> already_gone e = true ->
    (a ∉ fdb d k) /\ fdb d k' = fdb d k /\ routes k' = routes k;
  rt_add_ok d n h k k' : rt_add n h k = (Ok (), k') ->
    routes k' = <[n := h]> (routes k) /\ fdb d k' = fdb d k;
  rt_add_exists d n h k k' : rt_add n h k = (Err RouteExists, k') ->
    is_Some (routes k !! n) /\ routes k' = routes k /\ fdb d k' = fdb d k;
  rt_dump_ok k l n : rt_dump k = Ok l -> n ∈ l <-> is_Some (routes k !! n);
  rt_del_ok d n k k' : rt_del n k = (Ok (), k') ->
    routes k' = delete n (routes k) /\ fdb d k' = fdb d k;
  firewall_install_ok d c a p k k' : firewall_install c a p k = (Ok (), k') ->
    routes k' = routes k /\ fdb d k' = fdb d k
}.

(** Calls on the kernel in sequence. *)
#[local] Abbreviation Act K A := (Prelude.Act K NetworkError A).

Section Linux.
Context {K : Type} `{Kernel K} `{Ipnet}.
Context (iter : gmap Z Peer -> list (Z * Peer)) (net_le : Ipv4Net -> Ipv4Net -> Prop) `{!RelDecision net_le}.

Definition lift_state {E A} (err : E -> NetworkError) (m : K -> result E A * K) : Act K A := fun k =>
  match m k with (Ok a, k') => (Ok a, k') | (Err e, k') => (Err (err e), k') end.

Definition lift_read {E A} (err : E -> NetworkError) (m : K -> result E A) : Act K A := fun k =>
  match m k with Ok a => (Ok a, k) | Err e => (Err (err e), k) end.

Definition add_fdb (dev : string) (dst : IpAddr) : Act K unit :=
  lift_state (VxlanError dev) (bridge_fdb_append dev dst).

Definition remove_fdb (dev : string) (dst : IpAddr) : Act K unit := fun k =>
  match bridge_fdb_delete dev dst k with
  | (Ok _, k') => (Ok (), k')
  | (Err reason, k') => if already_gone reason then (Ok (), k') else (Err (VxlanError dev reason), k')
  end.

(** The destination of a route: network address and prefix. *)
Definition route_key (cidr : Ipv4Net) : Ipv4Net :=
  {| net_addr := network cidr; net_prefix := net_prefix cidr |}.

Definition handle_route_result (op : string) (cidr : Ipv4Net) (m : K -> result RouteAddError unit * K)
    : Act K unit := fun k =>
  match m k with
  | (Ok _, k') => (Ok (), k')
  | (Err RouteExists, k') => (Ok (), k')
  | (Err (RouteAddFailed reason), k') => (Err (RouteError op cidr reason), k')
  end.

Definition add_via_dev (cidr : Ipv4Net) (dev : string) (pref_src : option Z) : Act K unit :=
  let! index := lift_read (NetlinkError dev) (link_index_by_name dev) in
  match index with
  | None => act_fail (RouteError "add_via_dev" cidr "device not found")
  | Some dev_idx => handle_route_result "add_via_dev" cidr (rt_add (route_key cidr) (ViaDev dev_idx pref_src))
  end.

Definition add_via_gateway (cidr : Ipv4Net) (gw : IpAddr) : Act K unit :=
  match gw with
  | V6 _ => act_fail (RouteError "add_via_gateway" cidr "ipv6 gateway not supported")
  | V4 v4 => handle_route_result "add_via_gateway" cidr (rt_add (route_key cidr) (ViaGateway v4))
  end.

(** [route::remove]: the listed route is deleted, if there is one. *)
Definition remove_route (cidr : Ipv4Net) : Act K unit :=
  let! listed := lift_read (RouteError "list_routes" cidr) rt_dump in
  if bool_decide (route_key cidr ∈ listed)
  then lift_state (RouteError "remove" cidr) (rt_del (route_key cidr))
  else act_ret ().

Definition install_baseline (config : NetworkConfig) (alloc : NodeAlloc) (peers : list Peer) : Act K unit :=
  lift_state (NftablesError "install_baseline") (firewall_install config alloc peers).

(** The forwarding entries, for VXLAN. *)
Definition apply_fdb (dev : string) (d : PeerDiff) : Act K unit :=
  let! _ := act_for (remove_fdb dev) (pd_fdb_to_remove d) in
  let! _ := act_for (fun hw =>
              if bool_decide (peer_underlay_address hw.1 = peer_underlay_address hw.2) then act_ret ()
              else let! _ := remove_fdb dev (peer_underlay_address hw.1) in
                   add_fdb dev (peer_underlay_address hw.2)) (pd_to_replace d) in
  act_for (fun peer => add_fdb dev (peer_underlay_address peer)) (pd_to_add d).

(** The route of an added network. *)
Definition add_route (config : NetworkConfig) (alloc : NodeAlloc) (desired : list Peer) (cidr : Ipv4Net) : Act K unit :=
  let pref_src_v4 := match al_bridge_address alloc with V4 v4 => Some v4 | V6 _ => None end in
  match transport config with
  | Vxlan _ _ => add_via_dev cidr (bridge_name config) pref_src_v4
  | Native =>
      match List.find (fun p => bool_decide (peer_compute_cidr p = cidr)) desired with
      | Some p => add_via_gateway cidr (peer_underlay_address p)
      | None => act_fail (InvalidConfig (NoPeerForCidr cidr))
      end
  end.

(** [linux::reconcile_peers]. *)
Definition linux_reconcile (config : NetworkConfig) (alloc : NodeAlloc) (current desired : list Peer) : Act K bool :=
  let pd := peer_diff iter current desired in
  let rd := route_diff net_le current desired in
  if pd_is_noop pd && rd_is_noop rd then
    let! is_current := lift_read (NftablesError "baseline_is_current") (firewall_current config alloc desired) in
    let! _ := if is_current then act_ret () else install_baseline config alloc desired in
    act_ret false
  else
    let! _ := lift_read (NetlinkError "") open_handle in
    let! _ := match transport config with
              | Vxlan _ _ => apply_fdb (vxlan_dev_name config) pd
              | Native => act_ret ()
              end in
    let! _ := act_for remove_route (rd_to_remove rd) in
    let! _ := act_for (add_route config alloc desired) (rd_to_add rd) in
    let! _ := install_baseline config alloc desired in
    act_ret true.

(** ** The manager *)

Record ManagerState := {
  ms_alloc : option NodeAlloc;
  ms_peers : list Peer;
  ms_last_firewall_check : option Z
}.

Definition FIREWALL_DRIFT_CHECK_INTERVAL : Z := 60.

(** [NetworkManager::reconcile_peers] at time [now] (seconds). *)
Definition reconcile_peers (config : NetworkConfig) (now : Z) (peers : list Peer) (m : ManagerState) (k : K)
    : result NetworkError bool * ManagerState * K :=
  match ms_alloc m with
  | None => (Err (InvalidConfig NotBootstrapped), m, k)
  | Some alloc =>
      match validate_with config alloc peers with
      | Err e => (Err e, m, k)
      | Ok _ =>
          let due := match ms_last_firewall_check m with
                     | None => true
                     | Some checked => FIREWALL_DRIFT_CHECK_INTERVAL <=? now - checked
                     end in
          if bool_decide (ms_peers m = peers) && negb due then (Ok false, m, k)
          else
            match linux_reconcile config alloc (ms_peers m) peers k with
            | (Ok changed, k') =>
                (Ok changed, {| ms_alloc := ms_alloc m; ms_peers := peers; ms_last_firewall_check := Some now |}, k')
            | (Err e, k') => (Err e, m, k')
            end
      end
  end.

End Linux.

(** ** What a diff holds *)

Lemma by_id_snoc l p : by_id (l ++ [p]) = <[peer_node_id p := p]> (by_id l).
Proof. unfold by_id. by rewrite fold_left_app. Qed.

Lemma by_id_lookup l id p :
  NoDup (map peer_node_id l) -> by_id l !! id = Some p <-> p ∈ l /\ peer_node_id p = id.
Proof.
  induction l as [|q l IH] using rev_ind; intros Hnd; [unfold by_id; simpl; rewrite lookup_empty; set_solver|].
  rewrite by_id_snoc, lookup_insert_Some, elem_of_app, list_elem_of_singleton.
  rewrite map_app in Hnd. apply list.NoDup_app in Hnd as (Hnd & Hq & _). rewrite IH by done.
  split; [naive_solver|]. intros [[Hin| ->] Hid]; [|by left]. right. split; [|done].
  intros Heq. apply (Hq (peer_node_id p)).
  - apply list_elem_of_fmap. by exists p.
  - simpl. rewrite Hid, Heq. set_solver.
Qed.

Lemma by_id_perm l l' : NoDup (map peer_node_id l) -> l ≡ₚ l' -> by_id l = by_id l'.
Proof.
  intros Hnd Hp. apply map_eq. intros id. apply option_eq. intros p.
  rewrite !by_id_lookup; [by rewrite Hp|by rewrite <- Hp|done].
Qed.

Section DiffFacts.
Context (iter : gmap Z Peer -> list (Z * Peer)).
Hypothesis iter_perm : forall m, iter m ≡ₚ map_to_list m.

Lemma elem_of_iter m id p : (id, p) ∈ iter m <-> m !! id = Some p.
Proof. rewrite iter_perm. apply elem_of_map_to_list. Qed.

Lemma elem_of_to_add current desired p :
  p ∈ pd_to_add (peer_diff iter current desired) <->
  exists id, by_id desired !! id = Some p /\ by_id current !! id = None.
Proof.
  simpl. rewrite merge_sort_Permutation, list_elem_of_omap. split.
  - intros ([id q] & Hin%elem_of_iter & Hw). unfold wanted_new in Hw. simpl in Hw.
    exists id. destruct (by_id current !! id); [done|]. by simplify_eq.
  - intros (id & Hd & Hc). exists (id, p). split; [by apply elem_of_iter|]. unfold wanted_new. simpl. by rewrite Hc.
Qed.

Lemma elem_of_fdb_to_remove current desired a :
  a ∈ pd_fdb_to_remove (peer_diff iter current desired) <->
  exists id p, by_id current !! id = Some p /\ by_id desired !! id = None /\ a = peer_underlay_address p.
Proof.
  simpl. rewrite merge_sort_Permutation, list_elem_of_omap. split.
  - intros ([id q] & Hin%elem_of_iter & Hw). unfold no_longer_wanted in Hw. simpl in Hw.
    exists id, q. destruct (by_id desired !! id); [done|]. by simplify_eq.
  - intros (id & p & Hc & Hd & ->). exists (id, p). split; [by apply elem_of_iter|].
    unfold no_longer_wanted. simpl. by rewrite Hd.
Qed.

Lemma elem_of_to_replace current desired h w :
  (h, w) ∈ pd_to_replace (peer_diff iter current desired) <->
  exists id, by_id current !! id = Some h /\ by_id desired !! id = Some w /\ h <> w.
Proof.
  simpl. rewrite merge_sort_Permutation, list_elem_of_omap. split.
  - intros ([id q] & Hin%elem_of_iter & Hw). unfold wanted_changed in Hw. simpl in Hw.
    exists id. destruct (by_id current !! id); [|done]. case_bool_decide; [done|]. by simplify_eq.
  - intros (id & Hc & Hd & Hne). exists (id, w). split; [by apply elem_of_iter|].
    unfold wanted_changed. simpl. rewrite Hc. by rewrite bool_decide_false.
Qed.

End DiffFacts.

(** ** A sorted list is determined by its elements when their keys differ *)

Lemma merge_sort_unique {A} (R : A -> A -> Prop) `{!RelDecision R} `{!Total R, !Transitive R} l l' :
  (forall x y, x ∈ l -> y ∈ l -> R x y -> R y x -> x = y) -> l ≡ₚ l' -> merge_sort R l = merge_sort R l'.
Proof.
  intros Hanti Hp. apply StronglySorted_unique_strong with (R := R).
  - intros x y Hx Hy. rewrite merge_sort_Permutation in Hx. rewrite merge_sort_Permutation in Hy.
    apply Hanti; [done|by rewrite Hp].
  - by apply StronglySorted_merge_sort.
  - by apply StronglySorted_merge_sort.
  - by rewrite !merge_sort_Permutation.
Qed.

#[export] Instance by_node_id_total : Total by_node_id.
Proof. intros a b. unfold by_node_id. lia. Qed.
#[export] Instance by_node_id_trans : Transitive by_node_id.
Proof. intros a b c. unfold by_node_id. lia. Qed.
#[export] Instance by_wanted_id_total : Total by_wanted_id.
Proof. intros a b. unfold by_wanted_id. lia. Qed.
#[export] Instance by_wanted_id_trans : Transitive by_wanted_id.
Proof. intros a b c. unfold by_wanted_id. lia. Qed.
#[export] Instance ip_le_total : Total ip_le.
Proof. intros [x|x] [y|y]; simpl; lia. Qed.
#[export] Instance ip_le_trans : Transitive ip_le.
Proof. intros [x|x] [y|y] [z|z]; simpl; tauto || lia. Qed.

Lemma ip_le_antisym a b : ip_le a b -> ip_le b a -> a = b.
Proof. destruct a, b; simpl; intros; f_equal; tauto || lia. Qed.

Lemma by_id_key l id p : by_id l !! id = Some p -> peer_node_id p = id.
Proof.
  induction l as [|q l IH] using rev_ind; [unfold by_id; simpl; by rewrite lookup_empty|].
  rewrite by_id_snoc, lookup_insert_Some. naive_solver.
Qed.

(** The diff of two peer lists does not depend on the order of the lists or on the order the
    maps are iterated in: equal sets of peers with distinct ids give equal diffs, lists sorted by
    id and by address. *)
Theorem peer_diff_deterministic iter iter' current current' desired desired' :
  (forall m, iter m ≡ₚ map_to_list m) -> (forall m, iter' m ≡ₚ map_to_list m) ->
  NoDup (map peer_node_id current) -> NoDup (map peer_node_id desired) ->
  current ≡ₚ current' -> desired ≡ₚ desired' ->
  peer_diff iter current desired = peer_diff iter' current' desired'.
Proof.
  intros Hi Hi' Hnc Hnd Hc Hd. unfold peer_diff.
  rewrite (by_id_perm current current'), (by_id_perm desired desired') by done.
  assert (forall m, iter m ≡ₚ iter' m) as Hii by (intros m; by rewrite Hi, Hi').
  pose proof (elem_of_iter iter Hi) as He.
  f_equal; apply merge_sort_unique; try apply _; try (by rewrite Hii); try (intros a b _ _; apply ip_le_antisym).
  - intros x y Hx Hy Hxy Hyx. apply list_elem_of_omap in Hx as ([i p] & Hp & Hx), Hy as ([j q] & Hq & Hy).
    apply He in Hp, Hq. unfold wanted_new in Hx, Hy. simpl in *.
    destruct (by_id current' !! i); [done|]. destruct (by_id current' !! j); [done|]. simplify_eq.
    pose proof (by_id_key _ _ _ Hp). pose proof (by_id_key _ _ _ Hq). unfold by_node_id in *.
    assert (i = j) as -> by lia. congruence.
  - intros [h x] [h' y] Hx Hy Hxy Hyx. apply list_elem_of_omap in Hx as ([i p] & Hp & Hx), Hy as ([j q] & Hq & Hy).
    apply He in Hp, Hq. unfold wanted_changed in Hx, Hy. simpl in *.
    destruct (by_id current' !! i) as [hi|] eqn:Hci; [|done]. destruct (by_id current' !! j) as [hj|] eqn:Hcj; [|done].
    do 2 (case_bool_decide; [done|]). simplify_eq.
    pose proof (by_id_key _ _ _ Hp). pose proof (by_id_key _ _ _ Hq). unfold by_wanted_id in *. simpl in *.
    assert (i = j) as -> by lia. congruence.
Qed.

(** ** Applying a diff *)

Section Apply.
Context {K : Type} {L : Kernel K} `{!KernelLaws L} `{Ipnet}.

Lemma add_fdb_Ok dev a k k' :
  add_fdb dev a k = (Ok (), k') -> fdb dev k' = {[a]} ∪ fdb dev k /\ routes k' = routes k.
Proof.
  unfold add_fdb, lift_state. destruct (bridge_fdb_append dev a k) as [[[]|e] k1] eqn:Hb; [|done].
  intros [= <-]. by apply fdb_append_ok.
Qed.

Lemma remove_fdb_Ok dev a k k' :
  remove_fdb dev a k = (Ok (), k') -> fdb dev k' = fdb dev k ∖ {[a]} /\ routes k' = routes k.
Proof.
  unfold remove_fdb. destruct (bridge_fdb_delete dev a k) as [[[]|e] k1] eqn:Hb.
  - intros [= <-]. by apply fdb_delete_ok.
  - destruct (already_gone e) eqn:Hg; [|done]. intros [= <-].
    destruct (fdb_delete_gone _ _ _ _ _ Hb Hg) as (Hn & -> & ->). split; [set_solver|done].
Qed.

Lemma for_remove_fdb dev l k k' :
  act_for (remove_fdb dev) l k = (Ok (), k') -> fdb dev k' = fdb dev k ∖ list_to_set l /\ routes k' = routes k.
Proof.
  revert k. induction l as [|a l IH]; intros k; cbn [act_for].
  - intros [= <-]. split; [set_solver|done].
  - intros ([] & k1 & H1 & H2)%act_bind_Ok. apply remove_fdb_Ok in H1 as [Hf Hr]. apply IH in H2 as [-> ->].
    rewrite Hf. split; [set_solver|done].
Qed.

Lemma for_add_fdb dev (l : list Peer) k k' :
  act_for (fun p => add_fdb dev (peer_underlay_address p)) l k = (Ok (), k') ->
  fdb dev k' = fdb dev k ∪ list_to_set (map peer_underlay_address l) /\ routes k' = routes k.
Proof.
  revert k. induction l as [|a l IH]; intros k; cbn [act_for map list_to_set].
  - intros [= <-]. split; [set_solver|done].
  - intros ([] & k1 & H1 & H2)%act_bind_Ok. apply add_fdb_Ok in H1 as [Hf Hr]. apply IH in H2 as [-> ->].
    rewrite Hf. split; [set_solver|done].
Qed.

(** The replacements that move an address: what they give up and what they take. *)
Definition moves (l : list (Peer * Peer)) : list (Peer * Peer) :=
  List.filter (fun hw => negb (bool_decide (peer_underlay_address hw.1 = peer_underlay_address hw.2))) l.
Definition given_up (l : list (Peer * Peer)) : gset IpAddr :=
  list_to_set (map (fun hw => peer_underlay_address hw.1) (moves l)).
Definition taken_up (l : list (Peer * Peer)) : gset IpAddr :=
  list_to_set (map (fun hw => peer_underlay_address hw.2) (moves l)).

Lemma given_up_cons h w l :
  given_up ((h, w) :: l) = (if bool_decide (peer_underlay_address h = peer_underlay_address w) then ∅
                            else {[peer_underlay_address h]}) ∪ given_up l.
Proof. unfold given_up, moves. cbn [List.filter fst snd]. case_bool_decide; simpl; [by rewrite union_empty_l_L|done]. Qed.

Lemma taken_up_cons h w l :
  taken_up ((h, w) :: l) = (if bool_decide (peer_underlay_address h = peer_underlay_address w) then ∅
                            else {[peer_underlay_address w]}) ∪ taken_up l.
Proof. unfold taken_up, moves. cbn [List.filter fst snd]. case_bool_decide; simpl; [by rewrite union_empty_l_L|done]. Qed.

Lemma for_replace_fdb dev l k k' :
  given_up l ## taken_up l ->
  act_for (fun hw =>
    if bool_decide (peer_underlay_address hw.1 = peer_underlay_address hw.2) then act_ret ()
    else let! _ := remove_fdb dev (peer_underlay_address hw.1) in
         add_fdb dev (peer_underlay_address hw.2)) l k = (Ok (), k') ->
  fdb dev k' = fdb dev k ∖ given_up l ∪ taken_up l /\ routes k' = routes k.
Proof.
  revert k. induction l as [|[h w] l IH]; intros k Hd; cbn [act_for].
  - intros [= <-]. unfold given_up, taken_up. simpl. split; [set_solver|done].
  - rewrite given_up_cons, taken_up_cons in *. intros ([] & k1 & H1 & H2)%act_bind_Ok. cbn [fst snd] in H1.
    revert Hd IH H2. generalize (given_up l) (taken_up l). intros G T Hd IH H2.
    case_bool_decide as Hsame.
    + injection H1 as <-. rewrite !union_empty_l_L in *. apply IH; [set_solver|done].
    + apply act_bind_Ok in H1 as ([] & k2 & H1 & H3). apply remove_fdb_Ok in H1 as [Hf1 Hr1].
      apply add_fdb_Ok in H3 as [Hf2 Hr2]. apply IH in H2 as [-> ->]; [|set_solver].
      rewrite Hf2, Hf1, Hr2, Hr1. split; [|done]. set_solver.
Qed.

Lemma handle_route_result_Ok d op cidr n h k k' :
  handle_route_result op cidr (rt_add n h) k = (Ok (), k') ->
  is_Some (routes k' !! n) /\ (forall n', n' <> n -> routes k' !! n' = routes k !! n') /\ fdb d k' = fdb d k.
Proof.
  unfold handle_route_result. destruct (rt_add n h k) as [[[]|[|e]] k1] eqn:Hr; [| |done]; intros [= <-].
  - destruct (rt_add_ok d _ _ _ _ Hr) as [-> Hf]. rewrite lookup_insert_eq. split; [done|].
    split; [|done]. intros n' Hn. by rewrite lookup_insert_ne.
  - destruct (rt_add_exists d _ _ _ _ Hr) as (Hs & -> & Hf). by split.
Qed.

Lemma add_route_Ok d config alloc desired cidr k k' :
  add_route config alloc desired cidr k = (Ok (), k') ->
  is_Some (routes k' !! route_key cidr) /\
  (forall n, n <> route_key cidr -> routes k' !! n = routes k !! n) /\ fdb d k' = fdb d k.
Proof.
  unfold add_route. destruct (transport config).
  - unfold add_via_dev. intros ([index|] & k1 & H1 & H2)%act_bind_Ok; [|done].
    unfold lift_read in H1. destruct (link_index_by_name _ k); [|done]. injection H1 as _ <-.
    by eapply handle_route_result_Ok.
  - destruct (List.find _ desired) as [p|]; [|done]. unfold add_via_gateway.
    destruct (peer_underlay_address p); [|done]. apply handle_route_result_Ok.
Qed.

Lemma remove_route_Ok d cidr k k' :
  remove_route cidr k = (Ok (), k') ->
  routes k' !! route_key cidr = None /\
  (forall n, n <> route_key cidr -> routes k' !! n = routes k !! n) /\ fdb d k' = fdb d k.
Proof.
  unfold remove_route. intros (listed & k1 & H1 & H2)%act_bind_Ok. unfold lift_read in H1.
  destruct (rt_dump k) as [l|] eqn:Hl; [|done]. injection H1 as -> <-. case_bool_decide as Hin.
  - unfold lift_state in H2. destruct (rt_del _ k) as [[[]|] k2] eqn:Hdel; [|done]. injection H2 as <-.
    destruct (rt_del_ok d _ _ _ Hdel) as [-> Hf]. rewrite lookup_delete_eq. split; [done|]. split; [|done].
    intros n Hn. by rewrite lookup_delete_ne.
  - injection H2 as <-. rewrite (rt_dump_ok _ _ _ Hl) in Hin. apply eq_None_not_Some in Hin. by split.
Qed.

Lemma for_remove_routes d l k k' :
  act_for remove_route l k = (Ok (), k') ->
  (forall n, n ∈ map route_key l -> routes k' !! n = None) /\
  (forall n, n ∉ map route_key l -> routes k' !! n = routes k !! n) /\ fdb d k' = fdb d k.
Proof.
  revert k. induction l as [|c l IH]; intros k; cbn [act_for map].
  - intros [= <-]. split; [set_solver|by split].
  - intros ([] & k1 & H1 & H2)%act_bind_Ok. destruct (remove_route_Ok d _ _ _ H1) as (Hn & Ho & Hf).
    destruct (IH _ H2) as (Hn' & Ho' & Hf'). split; [|split; [|congruence]].
    + intros n Hin. destruct (decide (n ∈ map route_key l)) as [Hl|Hl]; [by apply Hn'|].
      rewrite Ho' by done. apply elem_of_cons in Hin as [->|Hin]; [done|contradiction].
    + intros n Hin. apply not_elem_of_cons in Hin as [Hne Hl]. by rewrite Ho', Ho.
Qed.

Lemma for_add_routes d config alloc desired l k k' :
  act_for (add_route config alloc desired) l k = (Ok (), k') ->
  (forall n, n ∈ map route_key l -> is_Some (routes k' !! n)) /\
  (forall n, n ∉ map route_key l -> routes k' !! n = routes k !! n) /\ fdb d k' = fdb d k.
Proof.
  revert k. induction l as [|c l IH]; intros k; cbn [act_for map].
  - intros [= <-]. split; [set_solver|by split].
  - intros ([] & k1 & H1 & H2)%act_bind_Ok. destruct (add_route_Ok d _ _ _ _ _ _ H1) as (Hn & Ho & Hf).
    destruct (IH _ H2) as (Hn' & Ho' & Hf'). split; [|split; [|congruence]].
    + intros n Hin. destruct (decide (n ∈ map route_key l)) as [Hl|Hl]; [by apply Hn'|].
      rewrite Ho' by done. apply elem_of_cons in Hin as [->|Hin]; [done|contradiction].
    + intros n Hin. apply not_elem_of_cons in Hin as [Hne Hl]. by rewrite Ho', Ho.
Qed.

(** ** Reconciliation *)

Definition underlays (peers : list Peer) : gset IpAddr := list_to_set (map peer_underlay_address peers).

Lemma elem_of_underlays a peers : a ∈ underlays peers <-> exists p, p ∈ peers /\ a = peer_underlay_address p.
Proof. unfold underlays. rewrite elem_of_list_to_set, list_elem_of_fmap. naive_solver. Qed.

Lemma elem_of_cidrs c peers : c ∈ cidrs peers <-> exists p, p ∈ peers /\ c = peer_compute_cidr p.
Proof. unfold cidrs. rewrite elem_of_list_to_set, list_elem_of_fmap. naive_solver. Qed.

Lemma elem_of_moves hw l :
  hw ∈ moves l <-> hw ∈ l /\ peer_underlay_address hw.1 <> peer_underlay_address hw.2.
Proof. unfold moves. rewrite !list_elem_of_In, List.filter_In, negb_true_iff, bool_decide_eq_false. done. Qed.

Lemma elem_of_given_up a l :
  a ∈ given_up l <-> exists h w, (h, w) ∈ l /\ peer_underlay_address h <> peer_underlay_address w /\ a = peer_underlay_address h.
Proof.
  unfold given_up. rewrite elem_of_list_to_set, list_elem_of_fmap. setoid_rewrite elem_of_moves. split.
  - intros ([h w] & -> & Hin & Hne). by exists h, w.
  - intros (h & w & Hin & Hne & ->). by exists (h, w).
Qed.

Lemma elem_of_taken_up a l :
  a ∈ taken_up l <-> exists h w, (h, w) ∈ l /\ peer_underlay_address h <> peer_underlay_address w /\ a = peer_underlay_address w.
Proof.
  unfold taken_up. rewrite elem_of_list_to_set, list_elem_of_fmap. setoid_rewrite elem_of_moves. split.
  - intros ([h w] & -> & Hin & Hne). by exists h, w.
  - intros (h & w & Hin & Hne & ->). by exists (h, w).
Qed.

Section Reconcile.
Context (iter : gmap Z Peer -> list (Z * Peer)) (net_le : Ipv4Net -> Ipv4Net -> Prop) `{!RelDecision net_le}.
Hypothesis iter_perm : forall m, iter m ≡ₚ map_to_list m.
Context (current desired : list Peer).

(** The lists a control plane sends: ids differ, addresses differ, networks are written with
    their network address; and no peer moves away from an address that is used afterwards. *)
Record well_formed : Prop := {
  wf_current_ids : NoDup (map peer_node_id current);
  wf_desired_ids : NoDup (map peer_node_id desired);
  wf_current_underlays : NoDup (map peer_underlay_address current);
  wf_networks c : c ∈ cidrs current ∪ cidrs desired -> route_key c = c
}.

Definition no_handover : Prop :=
  given_up (pd_to_replace (peer_diff iter current desired)) ## underlays desired.

Lemma underlay_owner p q :
  well_formed -> p ∈ current -> q ∈ current -> peer_underlay_address p = peer_underlay_address q -> p = q.
Proof.
  intros Hwf Hp Hq Heq. apply list_elem_of_lookup in Hp as [i Hi], Hq as [j Hj].
  pose proof (wf_current_underlays Hwf) as Hnd. rewrite NoDup_alt in Hnd.
  assert (i = j) as ->; [|congruence].
  apply (Hnd i j (peer_underlay_address p)); rewrite list_lookup_fmap; [by rewrite Hi|by rewrite Hj, Heq].
Qed.

(** What is left of the old addresses, with the new ones, are the addresses wanted. *)
Lemma diff_reaches_underlays :
  well_formed -> no_handover ->
  let d := peer_diff iter current desired in
  (underlays current ∖ list_to_set (pd_fdb_to_remove d)) ∖ given_up (pd_to_replace d)
    ∪ taken_up (pd_to_replace d) ∪ underlays (pd_to_add d) = underlays desired.
Proof.
  intros Hwf Hho. cbv zeta. apply set_eq. intros a.
  pose proof (fun p => by_id_lookup current (peer_node_id p) p (wf_current_ids Hwf)) as Hcur.
  pose proof (fun p => by_id_lookup desired (peer_node_id p) p (wf_desired_ids Hwf)) as Hdes.
  rewrite !elem_of_union, !elem_of_difference, elem_of_list_to_set. split.
  - intros [[[[Hin Hrem] Hgive]|Htake]|Hadd].
    + apply elem_of_underlays in Hin as (h & Hh & ->). apply elem_of_underlays.
      pose proof (proj2 (Hcur h) (conj Hh eq_refl)) as Hch.
      destruct (by_id desired !! peer_node_id h) as [w|] eqn:Hw.
      * pose proof (by_id_key _ _ _ Hw) as Hid. exists w. split; [apply Hdes; by rewrite Hid|].
        destruct (decide (peer_underlay_address h = peer_underlay_address w)) as [|Hne]; [done|]. exfalso. apply Hgive.
        apply elem_of_given_up. exists h, w. split_and!; [|done..]. apply elem_of_to_replace; [done|].
        exists (peer_node_id h). split_and!; [done..|congruence].
      * exfalso. apply Hrem. apply elem_of_fdb_to_remove; [done|]. by exists (peer_node_id h), h.
    + apply elem_of_taken_up in Htake as (h & w & Hr & _ & ->). apply elem_of_to_replace in Hr as (id & _ & Hw & _); [|done].
      apply elem_of_underlays. exists w. split; [|done]. apply Hdes. by rewrite (by_id_key _ _ _ Hw).
    + apply elem_of_underlays in Hadd as (p & Hp & ->). apply elem_of_to_add in Hp as (id & Hw & _); [|done].
      apply elem_of_underlays. exists p. split; [|done]. apply Hdes. by rewrite (by_id_key _ _ _ Hw).
  - intros Ha. pose proof Ha as (w & Hw & ->)%elem_of_underlays.
    pose proof (proj2 (Hdes w) (conj Hw eq_refl)) as Hdw.
    destruct (by_id current !! peer_node_id w) as [h|] eqn:Hh.
    + destruct (decide (peer_underlay_address h = peer_underlay_address w)) as [Heq|Hne].
      * left. left. pose proof (by_id_key _ _ _ Hh) as Hid.
        assert (h ∈ current) as Hhc by (apply Hcur; by rewrite Hid).
        split; [split|].
        -- apply elem_of_underlays. exists h. by rewrite Heq.
        -- intros (id & p & Hp & Hno & Hpa)%elem_of_fdb_to_remove; [|done].
           pose proof (by_id_key _ _ _ Hp) as Hpid. subst id. apply Hcur in Hp as [Hp _].
           assert (p = h) as -> by (apply underlay_owner; [done..|congruence]). congruence.
        -- intros Hg. by apply (Hho (peer_underlay_address w)).
      * left. right. apply elem_of_taken_up. exists h, w. split_and!; [|done..]. apply elem_of_to_replace; [done|].
        exists (peer_node_id w). split_and!; [done..|congruence].
    + right. apply elem_of_underlays. exists w. split; [|done]. apply elem_of_to_add; [done|]. by exists (peer_node_id w).
Qed.

Lemma apply_fdb_Ok dev k k' :
  well_formed -> no_handover -> fdb dev k = underlays current ->
  apply_fdb dev (peer_diff iter current desired) k = (Ok (), k') ->
  fdb dev k' = underlays desired /\ routes k' = routes k.
Proof.
  intros Hwf Hho Hk Hrun. pose proof (diff_reaches_underlays Hwf Hho) as Hreach. cbv zeta in Hreach.
  unfold apply_fdb in Hrun. apply act_bind_Ok in Hrun as ([] & k1 & H1 & Hrun).
  apply act_bind_Ok in Hrun as ([] & k2 & H2 & H3). apply for_remove_fdb in H1 as [Hf1 Hr1].
  apply for_replace_fdb in H2 as [Hf2 Hr2].
  - apply for_add_fdb in H3 as [Hf3 Hr3]. split; [|congruence]. rewrite Hf3, Hf2, Hf1, Hk. exact Hreach.
  - intros a Hg Ht. apply (Hho a Hg). rewrite <- Hreach. apply elem_of_union. left. apply elem_of_union. by right.
Qed.

(** The keys of the routes a diff adds and removes. *)
Lemma route_keys (cs : gset Ipv4Net) n :
  (forall c, c ∈ cs -> route_key c = c) -> n ∈ map route_key (merge_sort net_le (elements cs)) <-> n ∈ cs.
Proof.
  intros Hk. rewrite list_elem_of_fmap. split.
  - intros (c & -> & Hin). rewrite merge_sort_Permutation, elem_of_elements in Hin. by rewrite Hk.
  - intros Hn. exists n. rewrite merge_sort_Permutation, elem_of_elements. by rewrite Hk.
Qed.

(** The kernel carries what a list of peers asks for. *)
Definition synced (config : NetworkConfig) (peers : list Peer) (k : K) : Prop :=
  match transport config with
  | Vxlan _ _ => fdb (vxlan_dev_name config) k = underlays peers
  | Native => True
  end /\ forall c, c ∈ cidrs peers -> is_Some (routes k !! c).

(** The routes move to the wanted networks and others stay. *)
Definition routes_moved (k k' : K) : Prop :=
  (forall c, c ∈ cidrs desired -> is_Some (routes k' !! c)) /\
  (forall c, c ∈ cidrs current ∖ cidrs desired -> routes k' !! c = None) /\
  (forall c, c ∉ cidrs current ∪ cidrs desired -> routes k' !! c = routes k !! c).

Lemma install_baseline_Ok d config alloc peers k k' :
  install_baseline config alloc peers k = (Ok (), k') -> routes k' = routes k /\ fdb d k' = fdb d k.
Proof.
  unfold install_baseline, lift_state. destruct (firewall_install _ _ _ k) as [[[]|] k1] eqn:Hf; [|done].
  intros [= <-]. by eapply firewall_install_ok.
Qed.

Lemma apply_routes_Ok d config alloc k k1 k' :
  well_formed -> (forall c, c ∈ cidrs current -> is_Some (routes k !! c)) ->
  act_for remove_route (rd_to_remove (route_diff net_le current desired)) k = (Ok (), k1) ->
  act_for (add_route config alloc desired) (rd_to_add (route_diff net_le current desired)) k1 = (Ok (), k') ->
  routes_moved k k' /\ fdb d k' = fdb d k.
Proof.
  intros Hwf Hr H1 H2. pose proof (wf_networks Hwf) as Hnet.
  destruct (for_remove_routes d _ _ _ H1) as (Hgone & Hkeep & Hf1).
  destruct (for_add_routes d _ _ _ _ _ _ H2) as (Hnew & Hkeep' & Hf2). cbn [rd_to_remove rd_to_add route_diff] in *.
  assert (forall n, n ∈ map route_key (merge_sort net_le (elements (cidrs desired ∖ cidrs current))) <-> n ∈ cidrs desired ∖ cidrs current) as Kadd
    by (intros n; apply route_keys; intros c Hc; apply Hnet; set_solver).
  assert (forall n, n ∈ map route_key (merge_sort net_le (elements (cidrs current ∖ cidrs desired))) <-> n ∈ cidrs current ∖ cidrs desired) as Krem
    by (intros n; apply route_keys; intros c Hc; apply Hnet; set_solver).
  setoid_rewrite Kadd in Hnew. setoid_rewrite Kadd in Hkeep'. setoid_rewrite Krem in Hgone. setoid_rewrite Krem in Hkeep.
  split; [|congruence]. clear - Hr Hgone Hkeep Hnew Hkeep'.
  revert Hr Hgone Hkeep Hnew Hkeep'. unfold routes_moved. generalize (cidrs current) (cidrs desired). intros C D Hr Hgone Hkeep Hnew Hkeep'.
  split_and!; intros c Hc.
  - destruct (decide (c ∈ C)) as [Hin|Hin]; [|apply Hnew; set_solver]. rewrite Hkeep', Hkeep by set_solver. by apply Hr.
  - rewrite Hkeep' by set_solver. by apply Hgone.
  - rewrite Hkeep', Hkeep by set_solver. done.
Qed.

Lemma difference_empty_subseteq (C D : gset Ipv4Net) : C ∖ D ≡ ∅ -> C ⊆ D.
Proof. intros He c Hc. destruct (decide (c ∈ D)) as [|Hn]; [done|]. exfalso.
  apply (not_elem_of_empty (C := gset Ipv4Net) c), He. by apply elem_of_difference. Qed.

(** A diff without changes leaves nothing to do. *)
Lemma noop_same :
  well_formed -> no_handover ->
  pd_is_noop (peer_diff iter current desired) && rd_is_noop (route_diff net_le current desired) = true ->
  underlays current = underlays desired /\ cidrs current = cidrs desired.
Proof.
  intros Hwf Hho Hno. apply andb_true_iff in Hno as [Hp Hr].
  pose proof (diff_reaches_underlays Hwf Hho) as Hreach. cbv zeta in Hreach.
  unfold pd_is_noop in Hp. destruct (pd_to_add _); [|done]. destruct (pd_fdb_to_remove _); [|done].
  destruct (pd_to_replace _); [|done]. split.
  - rewrite <- Hreach. unfold given_up, taken_up, underlays. simpl. set_solver.
  - unfold rd_is_noop, route_diff in Hr. cbn [rd_to_add rd_to_remove] in Hr.
    pose proof (merge_sort_Permutation net_le (elements (cidrs desired ∖ cidrs current))) as Pa.
    pose proof (merge_sort_Permutation net_le (elements (cidrs current ∖ cidrs desired))) as Pr.
    destruct (merge_sort net_le (elements (cidrs desired ∖ cidrs current))); [|done].
    destruct (merge_sort net_le (elements (cidrs current ∖ cidrs desired))); [|done].
    apply Permutation_nil_l, eq_sym, elements_empty_inv in Pa. apply Permutation_nil_l, eq_sym, elements_empty_inv in Pr.
    apply difference_empty_subseteq in Pa, Pr. by apply (anti_symm (⊆)).
Qed.

Lemma linux_reconcile_Ok config alloc k b k' :
  well_formed -> no_handover -> synced config current k ->
  linux_reconcile iter net_le config alloc current desired k = (Ok b, k') ->
  synced config desired k' /\ routes_moved k k'.
Proof.
  intros Hwf Hho [Hf Hr] Hrun. set (d := vxlan_dev_name config) in *. unfold linux_reconcile in Hrun.
  destruct (pd_is_noop _ && rd_is_noop _) eqn:Hno.
  - destruct (noop_same Hwf Hho Hno) as [Hu Hc].
    assert (routes k' = routes k /\ fdb d k' = fdb d k) as [Hr' Hf'].
    { apply act_bind_Ok in Hrun as (isc & k1 & H1 & Hrun). unfold lift_read in H1.
      destruct (firewall_current _ _ _ k); [|done]. injection H1 as _ <-.
      apply act_bind_Ok in Hrun as ([] & k2 & H2 & H3). injection H3 as _ <-.
      destruct isc; [by injection H2 as <-|by eapply install_baseline_Ok]. }
    split; [split|].
    + fold d. rewrite Hf', <- Hu. done.
    + intros c Hin. rewrite Hr'. apply Hr. by rewrite Hc.
    + unfold routes_moved. rewrite Hr', Hc in *. split_and!; [done|set_solver|done].
  - apply act_bind_Ok in Hrun as ([] & k0 & H0 & Hrun). unfold lift_read in H0.
    destruct (open_handle k); [|done]. injection H0 as _ <-.
    apply act_bind_Ok in Hrun as ([] & k1 & H1 & Hrun). apply act_bind_Ok in Hrun as ([] & k2 & H2 & Hrun).
    apply act_bind_Ok in Hrun as ([] & k3 & H3 & Hrun). apply act_bind_Ok in Hrun as ([] & k4 & H4 & Hrun).
    injection Hrun as _ <-. destruct (install_baseline_Ok d _ _ _ _ _ H4) as [Hr4 Hf4].
    assert (routes k1 = routes k /\ match transport config with Vxlan _ _ => fdb d k1 = underlays desired | Native => True end) as [Hr1 Hf1].
    { destruct (transport config); [|injection H1 as <-; done].
      destruct (apply_fdb_Ok d k k1 Hwf Hho Hf H1). done. }
    destruct (apply_routes_Ok d config alloc k1 k2 k3 Hwf) as [(Ha & Hg & Hs) Hf3]; [by rewrite Hr1|done..|].
    split; [split|].
    + fold d. rewrite Hf4, Hf3. done.
    + by rewrite Hr4.
    + unfold routes_moved. rewrite Hr4, <- Hr1. done.
Qed.

End Reconcile.
End Apply.


(** ** A kernel in memory *)

Record MemKernel := { mk_fdb : gset IpAddr; mk_routes : gmap Ipv4Net Hop; mk_routes_fail : bool }.

#[export] Instance mem_kernel : Kernel MemKernel := {|
  open_handle _ := Ok ();
  link_index_by_name _ _ := Ok (Some 3);
  bridge_fdb_append _ a k :=
    (Ok (), {| mk_fdb := {[a]} ∪ mk_fdb k; mk_routes := mk_routes k; mk_routes_fail := mk_routes_fail k |});
  bridge_fdb_delete _ a k :=
    if bool_decide (a ∈ mk_fdb k)
    then (Ok (), {| mk_fdb := mk_fdb k ∖ {[a]}; mk_routes := mk_routes k; mk_routes_fail := mk_routes_fail k |})
    else (Err "RTNETLINK answers: No such file or directory"%string, k);
  rt_add n h k :=
    if mk_routes_fail k then (Err (RouteAddFailed "interrupted"), k)
    else match mk_routes k !! n with
         | Some _ => (Err RouteExists, k)
         | None => (Ok (), {| mk_fdb := mk_fdb k; mk_routes := <[n := h]> (mk_routes k); mk_routes_fail := mk_routes_fail k |})
         end;
  rt_dump k := Ok (map fst (map_to_list (mk_routes k)));
  rt_del n k := (Ok (), {| mk_fdb := mk_fdb k; mk_routes := delete n (mk_routes k); mk_routes_fail := mk_routes_fail k |});
  firewall_install _ _ _ k := (Ok (), k);
  firewall_current _ _ _ _ := Ok true;
  fdb _ k := mk_fdb k;
  routes k := mk_routes k
|}.

#[export] Instance mem_kernel_laws : KernelLaws mem_kernel.
Proof.
  split; cbn.
  - by intros d a k k' [= <-].
  - intros d a k k' Hd. case_bool_decide; [|done]. by injection Hd as <-.
  - intros d a k k' e Hd _. case_bool_decide; [done|]. by injection Hd as _ <-.
  - intros d n h k k' Ha. destruct (mk_routes_fail k); [done|]. destruct (mk_routes k !! n); [done|]. by injection Ha as <-.
  - intros d n h k k' Ha. destruct (mk_routes_fail k); [done|]. destruct (mk_routes k !! n) eqn:Hn; [|done]. injection Ha as <-.
    by split.
  - intros k l n [= <-]. rewrite list_elem_of_fmap. split.
    + intros ([n' h] & -> & Hin%elem_of_map_to_list). by exists h.
    + intros [h Hn]. exists (n, h). split; [done|]. by apply elem_of_map_to_list.
  - by intros d n k k' [= <-].
  - by intros d c a p k k' [= <-].
Qed.

Definition cidr_of (third : Z) : Ipv4Net := {| net_addr := 0xAC140000 + third * 256; net_prefix := 24 |}.
Definition node (id third host : Z) : Peer :=
  {| peer_node_id := id; peer_compute_cidr := cidr_of third; peer_underlay_address := V4 (0x0A000000 + host) |}.
Definition sample_config (t : Transport) : NetworkConfig :=
  {| bridge_name := "br-temps0"; docker_network_name := "temps0"; transport := t; underlay_mtu := 1500;
     underlay_dev := "eth0"; vxlan_dev_name := "vxlan-temps0" |}.
Definition sample_alloc : NodeAlloc :=
  {| al_node_id := 100; al_compute_cidr := cidr_of 100; al_bridge_address := V4 0xAC146401;
     al_underlay_address := V4 0x0A000064 |}.
Definition net_addr_le (a b : Ipv4Net) : Prop := net_addr a <= net_addr b.
#[export] Instance net_addr_le_dec : RelDecision net_addr_le.
Proof. intros a b. unfold net_addr_le. apply _. Defined.

(** The kernel a node with these peers runs on, and its manager. *)
Definition kernel_for (t : Transport) (peers : list Peer) : MemKernel :=
  {| mk_fdb := underlays peers;
     mk_routes := list_to_map (map (fun p => (peer_compute_cidr p,
       match t, peer_underlay_address p with
       | Native, V4 a => ViaGateway a
       | _, _ => ViaDev 3 (Some 0xAC146401)
       end)) peers);
     mk_routes_fail := false |}.
Definition manager_for (peers : list Peer) : ManagerState :=
  {| ms_alloc := Some sample_alloc; ms_peers := peers; ms_last_firewall_check := None |}.
Definition reconcile_sample (t : Transport) (m : ManagerState) (peers : list Peer) (k : MemKernel) :=
  reconcile_peers map_to_list net_addr_le (sample_config t) 0 peers m k.

(** ** Concrete runs *)

Definition old_peers : list Peer := [node 1 1 1; node 2 2 2; node 3 3 3].
Definition new_peers : list Peer := [node 4 4 4; node 3 9 8; node 2 2 2].

Lemma peer_diff_deterministic_witness :
  peer_diff map_to_list old_peers new_peers = peer_diff (fun m => reverse (map_to_list m)) (reverse old_peers) (reverse new_peers).
Proof.
  apply peer_diff_deterministic.
  - reflexivity.
  - intros m. apply reverse_Permutation.
  - apply (bool_decide_unpack _). vm_compute. exact I.
  - apply (bool_decide_unpack _). vm_compute. exact I.
  - symmetry. apply reverse_Permutation.
  - symmetry. apply reverse_Permutation.
Defined.

Lemma sample_well_formed : well_formed old_peers new_peers.
Proof.
  split; apply (bool_decide_unpack _); vm_compute; exact I.
Qed.


(** Evaluate both sides; sets are compared by a decision. *)
Ltac by_vm := first [apply (bool_decide_unpack _); vm_compute; exact I | vm_compute; reflexivity].

(** Peers that pass an address on in one update lose it: with VXLAN, when node 1 moves to the
    address node 2 leaves, the entry is added for node 1 (it is still there) and then removed for
    node 2.  The update succeeds, and the kernel has no entry for the address of node 1; further
    updates with the same peers find nothing to do. *)
Theorem handover_drops_entry :
  let old := [node 1 1 1; node 2 2 2] in
  let new := [node 1 1 2; node 2 2 3] in
  let once := reconcile_sample (Vxlan 42 4789) (manager_for old) new (kernel_for (Vxlan 42 4789) old) in
  let twice := reconcile_sample (Vxlan 42 4789) once.1.2 new once.2 in
  once.1.1 = Ok true /\ ms_peers once.1.2 = new /\ mk_fdb once.2 = {[V4 0x0A000003]} /\
  twice.1.1 = Ok false /\ mk_fdb twice.2 = {[V4 0x0A000003]}.
Proof. cbv zeta. split_and!; by_vm. Qed.

(** With native transport a peer that changes its address keeps its old gateway: the route is
    only replaced when the network changes, so the update succeeds and the packets still go to the
    old address. *)
Example native_gateway_stale :
  let run := reconcile_sample Native (manager_for [node 1 1 1]) [node 1 1 7] (kernel_for Native [node 1 1 1]) in
  run.1.1 = Ok true /\ ms_peers run.1.2 = [node 1 1 7] /\ mk_routes run.2 !! cidr_of 1 = Some (ViaGateway 0x0A000001).
Proof. cbv zeta. split_and!; by_vm. Qed.

(** An update that failed half-way and is then taken back leaves the entry it had added. *)
Example interrupted_update_leaks :
  let m := manager_for [node 1 1 1] in
  let k := kernel_for (Vxlan 42 4789) [node 1 1 1] in
  let broken := {| mk_fdb := mk_fdb k; mk_routes := mk_routes k; mk_routes_fail := true |} in
  let tried := reconcile_sample (Vxlan 42 4789) m [node 1 1 1; node 2 2 2] broken in
  let back := reconcile_sample (Vxlan 42 4789) tried.1.2 [node 1 1 1] tried.2 in
  is_ok tried.1.1 = false /\ back.1.1 = Ok false /\ mk_fdb back.2 = {[V4 0x0A000001; V4 0x0A000002]}.
Proof. cbv zeta. split_and!; by_vm. Qed.
