(* ===== verification/Flags.v ===== *)
(** * Feature flags

    [crates/temps-flags/src]: evaluation of one flag ([eval.rs]) and the service that stores flags
    and hands out the snapshot an application evaluates ([services/flag_service.rs]).

    JSON values are an interface of which only the kind matters.  A table is a list of rows;
    queries fail while the database does not answer.  A salt and the time are arguments of the
    calls that draw them, and the order by key is an argument of the queries that ask for it. *)

From S2P Require Import Prelude Utf8.
From Stdlib Require Import SpecFloat.
Local Open Scope Z_scope.

(** ** Values and their types *)

(** The kinds of [serde_json::Value]. *)
Inductive JsonKind := KNull | KBool | KNumber | KString | KArray | KObject.

Class JsonValue (V : Type) := { json_kind : V -> JsonKind; json_null : V; json_null_kind : json_kind json_null = KNull }.

Inductive FlagValueType := FvBool | FvString | FvNumber | FvJson.

#[export] Instance flag_value_type_eq_dec : EqDecision FlagValueType.
Proof. solve_decision. Defined.

Definition fv_as_str (t : FlagValueType) : string :=
  match t with FvBool => "bool" | FvString => "string" | FvNumber => "number" | FvJson => "json" end.

Definition fv_parse (raw : string) : option FlagValueType :=
  if String.eqb raw "bool" then Some FvBool
  else if String.eqb raw "string" then Some FvString
  else if String.eqb raw "number" then Some FvNumber
  else if String.eqb raw "json" then Some FvJson
  else None.

Definition fv_matches `{JsonValue V} (t : FlagValueType) (v : V) : bool :=
  match t, json_kind v with
  | FvBool, KBool | FvString, KString | FvNumber, KNumber => true
  | FvJson, KNull => false
  | FvJson, _ => true
  | _, _ => false
  end.

(** ** Evaluation *)

Inductive EvalReason :=
  | FlagNotFound
  | Disabled
  | RuleMatch (index : nat)
  | PercentageRollout (index : nat)
  | EnvironmentValue
  | Default
  | EvalError.

Record FlagSnapshot (V : Type) := {
  fs_key : list Z;
  fs_value_type : FlagValueType;
  fs_default_value : V;
  fs_enabled : bool;
  fs_environment_value : option V
}.
Arguments fs_key {V}.
Arguments fs_value_type {V}.
Arguments fs_default_value {V}.
Arguments fs_enabled {V}.
Arguments fs_environment_value {V}.

Record Evaluation (V : Type) := { ev_value : V; ev_variant : option string; ev_reason : EvalReason }.
Arguments ev_value {V}.
Arguments ev_variant {V}.
Arguments ev_reason {V}.
Arguments Build_Evaluation {V}.

Section Eval.
Context `{JsonValue V}.

Definition new_evaluation (value : V) (reason : EvalReason) : Evaluation V :=
  {| ev_value := value; ev_variant := None; ev_reason := reason |}.

Definition sanitized (flag : FlagSnapshot V) (value : V) (reason : EvalReason) : Evaluation V :=
  if fv_matches (fs_value_type flag) value then new_evaluation value reason
  else if fv_matches (fs_value_type flag) (fs_default_value flag)
  then new_evaluation (fs_default_value flag) EvalError
  else new_evaluation json_null EvalError.

Definition evaluate (flag : FlagSnapshot V) : Evaluation V :=
  if negb (fs_enabled flag) then sanitized flag (fs_default_value flag) Disabled
  else
    match fs_environment_value flag with
    | Some value => sanitized flag value EnvironmentValue
    | None => sanitized flag (fs_default_value flag) Default
    end.

Definition not_found (fallback : V) : Evaluation V :=
  {| ev_value := fallback; ev_variant := None; ev_reason := FlagNotFound |}.

End Eval.

(** [f64::from] of a [u32] and the arithmetic of [bucket], in binary64. *)
Definition f64_of (n : Z) : spec_float := binary_normalize 53 1024 n 0 false.

(** The end of [bucket]: the percentage of the first four bytes of the digest. *)
Definition bucket_of (n : Z) : spec_float :=
  SFmul 53 1024 (SFdiv 53 1024 (f64_of n) (f64_of (2 ^ 32 - 1))) (f64_of 100).

(** [bucket]; the digest is that of SHA-256. *)
Definition bucket (sha256 : list Z -> list Z) (flag_key salt subject : list Z) : spec_float :=
  let digest := sha256 (encode_str flag_key ++ [58] ++ encode_str salt ++ [58] ++ encode_str subject) in
  bucket_of (fold_left (fun n b => n * 256 + b) (take 4 digest) 0).

(** ** The service *)

Definition DEFAULT_PAGE_SIZE : Z := 20.
Definition MAX_PAGE_SIZE : Z := 100.
Definition MAX_EXPOSURE_KEYS : nat := 500.
Definition EXPOSURE_STALENESS_SECS : Z := 3600.
Definition MAX_KEY_LEN : nat := 128.
Definition MAX_DESCRIPTION_LEN : nat := 512.

Inductive KeyFault := KeyEmpty | KeyTooLong (bytes : nat) | KeyFirst (c : Z) | KeyChar (c : Z).

Inductive FlagError :=
  | FlagMissing (project_id : Z) (key : list Z)
  | DuplicateKey (project_id : Z) (key : list Z)
  | EnvironmentNotInProject (project_id environment_id : Z)
  | EnvironmentNotFound (environment_id : Z)
  | InvalidKey (key : list Z) (reason : KeyFault)
  | InvalidValueType (key : list Z) (value_type : string)
  | ValueTypeMismatch (key : list Z) (value_type : string) (field : string)
  | Validation (key : list Z) (length : nat)
  | FlagDatabase.

Definition is_ascii_lowercase (c : Z) : bool := (97 <=? c) && (c <=? 122).
Definition is_ascii_digit (c : Z) : bool := (48 <=? c) && (c <=? 57).

(** [str::len]. *)
Definition byte_len (s : list Z) : nat := length (encode_str s).

Definition validate_key (key : list Z) : result FlagError unit :=
  match key with
  | [] => Err (InvalidKey key KeyEmpty)
  | first :: chars =>
      if (MAX_KEY_LEN <? byte_len key)%nat then Err (InvalidKey key (KeyTooLong (byte_len key)))
      else if negb (is_ascii_lowercase first) && negb (is_ascii_digit first) then Err (InvalidKey key (KeyFirst first))
      else
        match List.find (fun c => negb (is_ascii_lowercase c || is_ascii_digit c || (c =? 46) || (c =? 95) || (c =? 45))) chars with
        | Some c => Err (InvalidKey key (KeyChar c))
        | None => Ok ()
        end
  end.

Definition validate_description (key : list Z) (description : option (list Z)) : result FlagError unit :=
  match description with
  | Some text => if (MAX_DESCRIPTION_LEN <? byte_len text)%nat then Err (Validation key (byte_len text)) else Ok ()
  | None => Ok ()
  end.

Definition validate_value `{JsonValue V} (key : list Z) (t : FlagValueType) (value : V) (field : string)
    : result FlagError unit :=
  if fv_matches t value then Ok () else Err (ValueTypeMismatch key (fv_as_str t) field).

Definition normalize_pagination (page page_size : option Z) : Z * Z :=
  (Z.max (default 1 page) 1, Z.min (Z.max (default DEFAULT_PAGE_SIZE page_size) 1) MAX_PAGE_SIZE).

Section Service.
Context {V : Type} `{JsonValue V}.

Record FlagRow := {
  fl_id : Z;
  fl_project_id : Z;
  fl_key : list Z;
  fl_value_type : string;
  fl_default_value : V;
  fl_description : option (list Z);
  fl_salt : string;
  fl_client_visible : bool;
  fl_archived_at : option Z;
  fl_last_evaluated_at : option Z
}.

Record OverrideRow := {
  ov_id : Z;
  ov_flag_id : Z;
  ov_environment_id : Z;
  ov_enabled : bool;
  ov_value : option V
}.

Record EnvironmentRow := { en_id : Z; en_project_id : Z }.

(** The tables, with the numbers the next rows get. *)
Record FlagDb := {
  fd_flags : list FlagRow;
  fd_overrides : list OverrideRow;
  fd_environments : list EnvironmentRow;
  fd_next : Z;
  fd_answers : bool
}.

Record CreateFlag := {
  cf_key : list Z;
  cf_value_type : FlagValueType;
  cf_default_value : V;
  cf_description : option (list Z);
  cf_client_visible : bool
}.

Record UpdateFlag := {
  uf_default_value : option V;
  uf_description : option (option (list Z));
  uf_client_visible : option bool
}.

Record SetEnvironmentValue := { sv_value : option (option V); sv_enabled : option bool }.

Record FlagWithEnvironments := { fw_flag : FlagRow; fw_environments : list OverrideRow }.

Definition fquery {A} (db : FlagDb) (a : A) : result FlagError A :=
  if fd_answers db then Ok a else Err FlagDatabase.

Definition set_flags (db : FlagDb) (flags : list FlagRow) : FlagDb :=
  {| fd_flags := flags; fd_overrides := fd_overrides db; fd_environments := fd_environments db;
     fd_next := fd_next db; fd_answers := fd_answers db |}.

(** A row written over the one with its id. *)
Definition update_flag_row (db : FlagDb) (row : FlagRow) : FlagDb :=
  set_flags db (map (fun f => if fl_id f =? fl_id row then row else f) (fd_flags db)).

Definition find_flag (db : FlagDb) (project_id : Z) (key : list Z) : option FlagRow :=
  List.find (fun f => (fl_project_id f =? project_id) && bool_decide (fl_key f = key)) (fd_flags db).

(** [get]. *)
Definition get (db : FlagDb) (project_id : Z) (key : list Z) : result FlagError FlagWithEnvironments :=
  let? found := fquery db (find_flag db project_id key) in
  let? flag := ok_or (FlagMissing project_id key) found in
  let? environments := fquery db (List.filter (fun o => ov_flag_id o =? fl_id flag) (fd_overrides db)) in
  Ok {| fw_flag := flag; fw_environments := environments |}.

(** [create]. *)
Definition create (salt : string) (project_id : Z) (request : CreateFlag) (db : FlagDb) : result FlagError FlagRow * FlagDb :=
  let checked :=
    let? _ := validate_key (cf_key request) in
    let? _ := validate_description (cf_key request) (cf_description request) in
    let? _ := validate_value (cf_key request) (cf_value_type request) (cf_default_value request) "default_value" in
    let? existing := fquery db (find_flag db project_id (cf_key request)) in
    match existing with
    | Some _ => Err (DuplicateKey project_id (cf_key request))
    | None => Ok ()
    end in
  match checked with
  | Err e => (Err e, db)
  | Ok _ =>
      let row := {| fl_id := fd_next db; fl_project_id := project_id; fl_key := cf_key request;
                    fl_value_type := fv_as_str (cf_value_type request); fl_default_value := cf_default_value request;
                    fl_description := cf_description request; fl_salt := salt;
                    fl_client_visible := cf_client_visible request; fl_archived_at := None;
                    fl_last_evaluated_at := None |} in
      (Ok row, {| fd_flags := fd_flags db ++ [row]; fd_overrides := fd_overrides db;
                  fd_environments := fd_environments db; fd_next := fd_next db + 1; fd_answers := fd_answers db |})
  end.

(** [apply_update]. *)
Definition apply_update (key : list Z) (existing : FlagRow) (request : UpdateFlag) (db : FlagDb) : result FlagError FlagRow * FlagDb :=
  let changed :=
    let? value_type := ok_or (InvalidValueType key (fl_value_type existing)) (fv_parse (fl_value_type existing)) in
    let? default_value :=
      match uf_default_value request with
      | Some v => let? _ := validate_value key value_type v "default_value" in Ok v
      | None => Ok (fl_default_value existing)
      end in
    let? description :=
      match uf_description request with
      | Some d => let? _ := validate_description key d in Ok d
      | None => Ok (fl_description existing)
      end in
    fquery db {| fl_id := fl_id existing; fl_project_id := fl_project_id existing; fl_key := fl_key existing;
                 fl_value_type := fl_value_type existing; fl_default_value := default_value;
                 fl_description := description; fl_salt := fl_salt existing;
                 fl_client_visible := default (fl_client_visible existing) (uf_client_visible request);
                 fl_archived_at := fl_archived_at existing; fl_last_evaluated_at := fl_last_evaluated_at existing |} in
  match changed with
  | Err e => (Err e, db)
  | Ok row => (Ok row, update_flag_row db row)
  end.

Definition update (project_id : Z) (key : list Z) (request : UpdateFlag) (db : FlagDb) : result FlagError FlagRow * FlagDb :=
  match get db project_id key with
  | Err e => (Err e, db)
  | Ok found => apply_update key (fw_flag found) request db
  end.

Definition with_archived (row : FlagRow) (at_ : option Z) : FlagRow :=
  {| fl_id := fl_id row; fl_project_id := fl_project_id row; fl_key := fl_key row; fl_value_type := fl_value_type row;
     fl_default_value := fl_default_value row; fl_description := fl_description row; fl_salt := fl_salt row;
     fl_client_visible := fl_client_visible row; fl_archived_at := at_; fl_last_evaluated_at := fl_last_evaluated_at row |}.

(** [archive] at time [now]. *)
Definition archive (now : Z) (project_id : Z) (key : list Z) (db : FlagDb) : result FlagError FlagRow * FlagDb :=
  match get db project_id key with
  | Err e => (Err e, db)
  | Ok found =>
      match fl_archived_at (fw_flag found) with
      | Some _ => (Ok (fw_flag found), db)
      | None => let row := with_archived (fw_flag found) (Some now) in (Ok row, update_flag_row db row)
      end
  end.

Definition restore (project_id : Z) (key : list Z) (db : FlagDb) : result FlagError FlagRow * FlagDb :=
  match get db project_id key with
  | Err e => (Err e, db)
  | Ok found =>
      match fl_archived_at (fw_flag found) with
      | None => (Ok (fw_flag found), db)
      | Some _ => let row := with_archived (fw_flag found) None in (Ok row, update_flag_row db row)
      end
  end.

(** The environment, which must be one of the project. *)
Definition environment_of_project (db : FlagDb) (project_id environment_id : Z) : result FlagError unit :=
  let? found := fquery db (List.find (fun e => en_id e =? environment_id) (fd_environments db)) in
  let? environment := ok_or (EnvironmentNotFound environment_id) found in
  if negb (en_project_id environment =? project_id) then Err (EnvironmentNotInProject project_id environment_id) else Ok ().

(** [set_environment_value]; its transaction is one step. *)
Definition set_environment_value (project_id : Z) (key : list Z) (environment_id : Z) (request : SetEnvironmentValue)
    (db : FlagDb) : result FlagError OverrideRow * FlagDb :=
  let checked :=
    let? found := get db project_id key in
    let flag := fw_flag found in
    let? value_type := ok_or (InvalidValueType key (fl_value_type flag)) (fv_parse (fl_value_type flag)) in
    let? _ := environment_of_project db project_id environment_id in
    let? _ := match sv_value request with
              | Some (Some value) => validate_value key value_type value "value"
              | _ => Ok ()
              end in
    fquery db flag in
  match checked with
  | Err e => (Err e, db)
  | Ok flag =>
      let set_overrides rows next :=
        {| fd_flags := fd_flags db; fd_overrides := rows; fd_environments := fd_environments db;
           fd_next := next; fd_answers := fd_answers db |} in
      match List.find (fun o => (ov_flag_id o =? fl_id flag) && (ov_environment_id o =? environment_id)) (fd_overrides db) with
      | Some row =>
          let row' := {| ov_id := ov_id row; ov_flag_id := ov_flag_id row; ov_environment_id := ov_environment_id row;
                         ov_enabled := default (ov_enabled row) (sv_enabled request);
                         ov_value := default (ov_value row) (sv_value request) |} in
          (Ok row', set_overrides (map (fun o => if ov_id o =? ov_id row then row' else o) (fd_overrides db)) (fd_next db))
      | None =>
          let row := {| ov_id := fd_next db; ov_flag_id := fl_id flag; ov_environment_id := environment_id;
                        ov_enabled := default true (sv_enabled request);
                        ov_value := default None (sv_value request) |} in
          (Ok row, set_overrides (fd_overrides db ++ [row]) (fd_next db + 1))
      end
  end.

(** [record_exposure] at time [now]. *)
Definition record_exposure (now : Z) (project_id : Z) (keys : list (list Z)) (db : FlagDb) : result FlagError Z * FlagDb :=
  match keys with
  | [] => (Ok 0, db)
  | _ =>
      if (MAX_EXPOSURE_KEYS <? length keys)%nat then (Err (Validation (chars "<exposure>") (length keys)), db)
      else
        let candidates := List.filter (fun k => (byte_len k <=? MAX_KEY_LEN)%nat) keys in
        match candidates with
        | [] => (Ok 0, db)
        | _ =>
            match fquery db () with
            | Err e => (Err e, db)
            | Ok _ =>
                let stale_before := now - EXPOSURE_STALENESS_SECS in
                let stamp f :=
                  if (fl_project_id f =? project_id) && bool_decide (fl_key f ∈ candidates)
                     && match fl_last_evaluated_at f with None => true | Some t => t <? stale_before end
                  then {| fl_id := fl_id f; fl_project_id := fl_project_id f; fl_key := fl_key f;
                          fl_value_type := fl_value_type f; fl_default_value := fl_default_value f;
                          fl_description := fl_description f; fl_salt := fl_salt f;
                          fl_client_visible := fl_client_visible f; fl_archived_at := fl_archived_at f;
                          fl_last_evaluated_at := Some now |}
                  else f in
                (Ok (Z.of_nat (length candidates)), set_flags db (map stamp (fd_flags db)))
            end
        end
  end.

Definition collapse_to_environment (flag : FlagRow) (overrides : list OverrideRow) (environment_id : Z) : option (FlagSnapshot V) :=
  value_type ← fv_parse (fl_value_type flag);
  let '(enabled, environment_value) :=
    match List.find (fun row => ov_environment_id row =? environment_id) overrides with
    | Some row => (ov_enabled row, ov_value row)
    | None => (true, None)
    end in
  Some {| fs_key := fl_key flag; fs_value_type := value_type; fs_default_value := fl_default_value flag;
          fs_enabled := enabled; fs_environment_value := environment_value |}.

(** Rows in the order of their keys, as the database sorts them. *)
Context (order_by_key : list FlagRow -> list FlagRow).

(** Overrides grouped by flag: the rows of one flag, in the order they were returned. *)
Definition by_flag (overrides : list OverrideRow) (flag_id : Z) : list OverrideRow :=
  List.filter (fun o => ov_flag_id o =? flag_id) overrides.

Definition snapshot (db : FlagDb) (project_id environment_id : Z) (client_visible_only : bool)
    : result FlagError (list (FlagSnapshot V)) :=
  let? _ := environment_of_project db project_id environment_id in
  let? flags := fquery db (order_by_key (List.filter (fun f =>
      (fl_project_id f =? project_id) && match fl_archived_at f with None => true | Some _ => false end
      && (negb client_visible_only || fl_client_visible f)) (fd_flags db))) in
  let? overrides := fquery db (List.filter (fun o =>
      existsb (fun f => ov_flag_id o =? fl_id f) flags && (ov_environment_id o =? environment_id)) (fd_overrides db)) in
  Ok (omap (fun flag => collapse_to_environment flag (by_flag overrides (fl_id flag)) environment_id) flags).

(** [list]. *)
Definition list_flags (db : FlagDb) (project_id : Z) (include_archived : bool) (page page_size : option Z)
    : result FlagError (list FlagWithEnvironments * Z) :=
  let '(page, page_size) := normalize_pagination page page_size in
  let? matching := fquery db (order_by_key (List.filter (fun f =>
      (fl_project_id f =? project_id) && (include_archived || match fl_archived_at f with None => true | Some _ => false end))
      (fd_flags db))) in
  let total := Z.of_nat (length matching) in
  let flags := take (Z.to_nat page_size) (drop (Z.to_nat ((page - 1) * page_size)) matching) in
  match flags with
  | [] => Ok ([], total)
  | _ =>
      let? overrides := fquery db (List.filter (fun o => existsb (fun f => ov_flag_id o =? fl_id f) flags) (fd_overrides db)) in
      Ok (map (fun flag => {| fw_flag := flag; fw_environments := by_flag overrides (fl_id flag) |}) flags, total)
  end.

End Service.

Arguments FlagRow : clear implicits.
Arguments OverrideRow : clear implicits.
Arguments FlagDb : clear implicits.
Arguments CreateFlag : clear implicits.
Arguments UpdateFlag : clear implicits.
Arguments SetEnvironmentValue : clear implicits.

Lemma fv_parse_as_str t : fv_parse (fv_as_str t) = Some t.
Proof. by destruct t. Qed.

(** ** What the tables hold *)

Section Invariant.
Context {V : Type} `{JsonValue V}.
Implicit Types (db : FlagDb V) (f : FlagRow V) (o : OverrideRow V).

Definition typed (f : FlagRow V) (v : V) : Prop :=
  exists t, fv_parse (fl_value_type f) = Some t /\ fv_matches t v = true.

Record flag_inv (db : FlagDb V) : Prop := {
  fi_ids : NoDup (map fl_id (fd_flags db));
  fi_next f : f ∈ fd_flags db -> fl_id f < fd_next db;
  fi_keys f g : f ∈ fd_flags db -> g ∈ fd_flags db ->
    fl_project_id f = fl_project_id g -> fl_key f = fl_key g -> f = g;
  fi_default f : f ∈ fd_flags db -> typed f (fl_default_value f);
  fi_ov_ids : NoDup (map ov_id (fd_overrides db));
  fi_ov_next o : o ∈ fd_overrides db -> ov_id o < fd_next db /\ ov_flag_id o < fd_next db;
  fi_ov_unique o o' : o ∈ fd_overrides db -> o' ∈ fd_overrides db ->
    ov_flag_id o = ov_flag_id o' -> ov_environment_id o = ov_environment_id o' -> o = o';
  fi_ov_typed o f v : o ∈ fd_overrides db -> f ∈ fd_flags db -> ov_flag_id o = fl_id f ->
    ov_value o = Some v -> typed f v
}.

Lemma flag_by_id db f g : flag_inv db -> f ∈ fd_flags db -> g ∈ fd_flags db -> fl_id f = fl_id g -> f = g.
Proof.
  intros Hinv Hf Hg Heq. apply list_elem_of_lookup in Hf as [i Hi], Hg as [j Hj].
  pose proof (fi_ids _ Hinv) as Hnd. rewrite NoDup_alt in Hnd.
  assert (i = j) as ->; [|congruence].
  apply (Hnd i j (fl_id f)); rewrite list_lookup_fmap; [by rewrite Hi|by rewrite Hj, Heq].
Qed.

Lemma find_flag_Some db p k f :
  find_flag db p k = Some f -> f ∈ fd_flags db /\ fl_project_id f = p /\ fl_key f = k.
Proof.
  intros Hf. apply List.find_some in Hf as [Hin Hb]. apply andb_true_iff in Hb as [Hp Hk].
  apply bool_decide_eq_true in Hk. split_and!; [by apply list_elem_of_In|lia|done].
Qed.

Lemma find_flag_None db p k f :
  find_flag db p k = None -> f ∈ fd_flags db -> fl_project_id f = p -> fl_key f <> k.
Proof.
  intros Hf Hin Hp Hk. apply list_elem_of_In in Hin. pose proof (List.find_none _ _ Hf _ Hin) as Hb. cbv beta in Hb.
  rewrite bool_decide_true in Hb by done. apply andb_false_iff in Hb as [Hb|Hb]; [lia|done].
Qed.

Lemma get_Ok db p k r :
  get db p k = Ok r -> fw_flag r ∈ fd_flags db /\ fl_project_id (fw_flag r) = p /\ fl_key (fw_flag r) = k.
Proof.
  unfold get, fquery. destruct (fd_answers db); [|done]. cbn [result_bind].
  destruct (find_flag db p k) as [f|] eqn:Hf; [|done]. cbn [result_bind ok_or]. intros [= <-]. by apply find_flag_Some.
Qed.

(** A row is replaced by one with the same identity whose default is of its type. *)
Lemma flag_inv_update db f row :
  flag_inv db -> f ∈ fd_flags db -> fl_id row = fl_id f -> fl_project_id row = fl_project_id f ->
  fl_key row = fl_key f -> fl_value_type row = fl_value_type f -> typed row (fl_default_value row) ->
  flag_inv (update_flag_row db row).
Proof.
  intros Hinv Hf Hid Hp Hk Ht Hd.
  assert (forall g, g ∈ map (fun f0 => if fl_id f0 =? fl_id row then row else f0) (fd_flags db) ->
    exists g', g' ∈ fd_flags db /\ fl_id g = fl_id g' /\ fl_project_id g = fl_project_id g' /\ fl_key g = fl_key g' /\
      fl_value_type g = fl_value_type g' /\ (fl_id g' <> fl_id row /\ g = g' \/ g' = f /\ g = row)) as Hback.
  { intros g (g' & -> & Hg')%list_elem_of_fmap. destruct (Z.eqb_spec (fl_id g') (fl_id row)) as [Heq|Hne].
    - exists f. assert (g' = f) as -> by (eapply flag_by_id; [done..|congruence]). split_and!; congruence || auto.
    - exists g'. split_and!; auto. }
  assert (map fl_id (map (fun f0 => if fl_id f0 =? fl_id row then row else f0) (fd_flags db)) = map fl_id (fd_flags db)) as Hids.
  { rewrite map_map. apply map_ext. intros g. destruct (Z.eqb_spec (fl_id g) (fl_id row)); congruence. }
  pose proof Hinv as [Hnd Hnx Hu Hdef Hond Honx Hou Hot]. split; cbn [fd_flags fd_overrides fd_next update_flag_row set_flags].
  - by rewrite Hids.
  - intros g (g' & Hg' & -> & _)%Hback. by apply Hnx.
  - intros g h (g' & Hg' & Ig & Pg & Kg & _ & Cg)%Hback (h' & Hh' & Ih & Ph & Kh & _ & Ch)%Hback Heqp Heqk.
    assert (g' = h') as <- by (apply Hu; congruence). destruct Cg as [[? ?]|[? ?]], Ch as [[? ?]|[? ?]]; congruence.
  - intros g (g' & Hg' & _ & _ & _ & _ & [[_ ->]|[_ ->]])%Hback; [by apply Hdef|done].
  - done.
  - done.
  - done.
  - intros o g v Ho (g' & Hg' & Ig & _ & _ & Tg & _)%Hback Hog Hv. unfold typed. rewrite Tg.
    eapply Hot; [done..|congruence|done].
Qed.

(** ** Every call keeps it *)

Lemma create_inv salt p r db : flag_inv db -> flag_inv (create salt p r db).2.
Proof.
  intros Hinv. unfold create. destruct (result_bind (validate_key _) _) as [[]|e] eqn:Hc; [|done].
  repeat (apply result_bind_Ok in Hc as (? & ? & Hc)).
  destruct x2 as [|] eqn:Hfound; [done|]. unfold fquery in *. destruct (fd_answers db); [|done].
  assert (find_flag db p (cf_key r) = None) as Hnone by congruence.
  unfold validate_value in *. destruct (fv_matches (cf_value_type r) (cf_default_value r)) eqn:Hm; [|done].
  set (row := Build_FlagRow _ _ _ _ _ _ _ _ _ _).
  assert (typed row (fl_default_value row)) as Hty by (exists (cf_value_type r); split; [apply fv_parse_as_str|done]).
  destruct Hinv as [Hnd Hnx Hu Hdef Hond Honx Hou Hot].
  split; cbn [snd fd_flags fd_overrides fd_next].
  - rewrite map_app. apply list.NoDup_app. split; [done|]. split; [|apply NoDup_singleton].
    intros i (f & -> & Hf)%list_elem_of_fmap Hi. apply Hnx in Hf. simpl in Hi. set_unfold in Hi. lia.
  - intros f [Hf| ->%list_elem_of_singleton]%elem_of_app; [apply Hnx in Hf; lia|simpl; lia].
  - assert (forall f, f ∈ fd_flags db -> fl_project_id f = p -> fl_key f <> cf_key r) as Hnew
      by (intros f; by apply find_flag_None).
    intros f g [Hf| ->%list_elem_of_singleton]%elem_of_app [Hg| ->%list_elem_of_singleton]%elem_of_app Hp Hk;
      [by apply Hu| | |done]; exfalso; simpl in *; [by eapply (Hnew f)|by eapply (Hnew g)].
  - intros f [Hf| ->%list_elem_of_singleton]%elem_of_app; [by apply Hdef|done].
  - done.
  - intros o Ho. destruct (Honx o Ho). lia.
  - done.
  - intros o f v Ho [Hf| ->%list_elem_of_singleton]%elem_of_app Hof; [by apply (Hot o)|].
    destruct (Honx o Ho). simpl in Hof. lia.
Qed.

Lemma update_inv p k r db : flag_inv db -> flag_inv (update p k r db).2.
Proof.
  intros Hinv. unfold update. destruct (get db p k) as [found|] eqn:Hg; [|done]. apply get_Ok in Hg as (Hf & _ & _).
  unfold apply_update. destruct (result_bind (ok_or _ _) _) as [row|e] eqn:Hc; [|done]. simpl.
  apply result_bind_Ok in Hc as (t & Ht%ok_or_Ok & Hc). apply result_bind_Ok in Hc as (d & Hd & Hc).
  apply result_bind_Ok in Hc as (desc & _ & Hc). unfold fquery in Hc. destruct (fd_answers db); [|done].
  apply Ok_inj in Hc. subst row. eapply flag_inv_update; [done|exact Hf|done..|].
  destruct (uf_default_value r) as [v|].
  - unfold validate_value in Hd. destruct (fv_matches t v) eqn:Hm; [|done]. apply Ok_inj in Hd as <-. by exists t.
  - apply Ok_inj in Hd as <-. destruct (fi_default _ Hinv _ Hf) as (t' & Ht' & Hm). by exists t'.
Qed.

Lemma archived_inv db f at_ : flag_inv db -> f ∈ fd_flags db -> flag_inv (update_flag_row db (with_archived f at_)).
Proof. intros Hinv Hf. eapply flag_inv_update; [done|exact Hf|done..|]. exact (fi_default _ Hinv f Hf). Qed.

Lemma archive_inv now p k db : flag_inv db -> flag_inv (archive now p k db).2.
Proof.
  intros Hinv. unfold archive. destruct (get db p k) as [found|] eqn:Hg; [|done]. apply get_Ok in Hg as (Hf & _ & _).
  destruct (fl_archived_at _); [done|]. by apply archived_inv.
Qed.

Lemma restore_inv p k db : flag_inv db -> flag_inv (restore p k db).2.
Proof.
  intros Hinv. unfold restore. destruct (get db p k) as [found|] eqn:Hg; [|done]. apply get_Ok in Hg as (Hf & _ & _).
  destruct (fl_archived_at _); [|done]. by apply archived_inv.
Qed.

Lemma stamped_inv db (g : FlagRow V -> FlagRow V) :
  (forall f, fl_id (g f) = fl_id f /\ fl_project_id (g f) = fl_project_id f /\ fl_key (g f) = fl_key f /\
     fl_value_type (g f) = fl_value_type f /\ fl_default_value (g f) = fl_default_value f) ->
  flag_inv db -> flag_inv (set_flags db (map g (fd_flags db))).
Proof.
  intros Hg Hinv. pose proof Hinv as [Hnd Hnx Hu Hdef Hond Honx Hou Hot].
  assert (forall f v, typed (g f) v <-> typed f v) as Hty by (intros f v; unfold typed; by rewrite (proj1 (proj2 (proj2 (proj2 (Hg f)))))).
  split; cbn [fd_flags fd_overrides fd_next set_flags]; try done.
  - rewrite map_map. erewrite map_ext; [done|]. intros f. apply Hg.
  - intros f (f' & -> & Hf')%list_elem_of_fmap. rewrite (proj1 (Hg f')). by apply Hnx.
  - intros f h (f' & -> & Hf')%list_elem_of_fmap (h' & -> & Hh')%list_elem_of_fmap.
    destruct (Hg f') as (_ & -> & -> & _), (Hg h') as (_ & -> & -> & _). intros Hp Hk. f_equal. by apply Hu.
  - intros f (f' & -> & Hf')%list_elem_of_fmap. destruct (Hg f') as (_ & _ & _ & _ & ->). apply Hty. by apply Hdef.
  - intros o f v Ho (f' & -> & Hf')%list_elem_of_fmap. rewrite (proj1 (Hg f')), Hty. by apply Hot.
Qed.

Lemma exposure_inv now p keys db : flag_inv db -> flag_inv (record_exposure now p keys db).2.
Proof.
  intros Hinv. unfold record_exposure. destruct keys as [|k keys]; [done|].
  destruct (_ <? _)%nat; [done|]. destruct (List.filter _ _) as [|c cs]; [done|].
  unfold fquery. destruct (fd_answers db); [|done]. cbn [snd].
  apply stamped_inv; [|done]. intros f. by destruct (_ && _ && _).
Qed.

(** The tables with other overrides. *)
Definition set_overrides db (rows : list (OverrideRow V)) (next : Z) : FlagDb V :=
  {| fd_flags := fd_flags db; fd_overrides := rows; fd_environments := fd_environments db;
     fd_next := next; fd_answers := fd_answers db |}.

Lemma override_by_id db o o' : flag_inv db -> o ∈ fd_overrides db -> o' ∈ fd_overrides db -> ov_id o = ov_id o' -> o = o'.
Proof.
  intros Hinv Ho Ho' Heq. apply list_elem_of_lookup in Ho as [i Hi], Ho' as [j Hj].
  pose proof (fi_ov_ids _ Hinv) as Hnd. rewrite NoDup_alt in Hnd.
  assert (i = j) as ->; [|congruence].
  apply (Hnd i j (ov_id o)); rewrite list_lookup_fmap; [by rewrite Hi|by rewrite Hj, Heq].
Qed.

Lemma override_replace db row row' :
  flag_inv db -> row ∈ fd_overrides db -> ov_id row' = ov_id row -> ov_flag_id row' = ov_flag_id row ->
  ov_environment_id row' = ov_environment_id row ->
  (forall f v, f ∈ fd_flags db -> ov_flag_id row = fl_id f -> ov_value row' = Some v -> typed f v) ->
  flag_inv (set_overrides db (map (fun o => if ov_id o =? ov_id row then row' else o) (fd_overrides db)) (fd_next db)).
Proof.
  intros Hinv Hrow Hid Hfl Hen Hty.
  assert (forall o, o ∈ map (fun o => if ov_id o =? ov_id row then row' else o) (fd_overrides db) ->
    exists o', o' ∈ fd_overrides db /\ ov_id o = ov_id o' /\ ov_flag_id o = ov_flag_id o' /\
      ov_environment_id o = ov_environment_id o' /\ (ov_id o' <> ov_id row /\ o = o' \/ o' = row /\ o = row')) as Hback.
  { intros o (o' & -> & Ho')%list_elem_of_fmap. destruct (Z.eqb_spec (ov_id o') (ov_id row)) as [Heq|Hne].
    - exists row. assert (o' = row) as -> by (eapply override_by_id; done). split_and!; auto.
    - exists o'. split_and!; auto. }
  pose proof Hinv as [Hnd Hnx Hu Hdef Hond Honx Hou Hot]. split; cbn [fd_flags fd_overrides fd_next set_overrides]; try done.
  - rewrite map_map. erewrite map_ext; [done|]. intros o. simpl. destruct (Z.eqb_spec (ov_id o) (ov_id row)); congruence.
  - intros o (o' & Ho' & -> & -> & _)%Hback. by apply Honx.
  - intros o q (o' & Ho' & _ & Fo & Eo & Co)%Hback (q' & Hq' & _ & Fq & Eq & Cq)%Hback Hf He.
    assert (o' = q') as <- by (apply Hou; congruence). destruct Co as [[? ?]|[? ?]], Cq as [[? ?]|[? ?]]; congruence.
  - intros o f v (o' & Ho' & _ & Fo & _ & Co)%Hback Hf Hof Hv. destruct Co as [[_ ->]|[-> ->]].
    + by apply (Hot o').
    + apply Hty; [done|congruence|done].
Qed.

Lemma override_insert db row :
  flag_inv db -> ov_id row = fd_next db -> ov_flag_id row < fd_next db ->
  (forall o, o ∈ fd_overrides db -> ov_flag_id o = ov_flag_id row -> ov_environment_id o <> ov_environment_id row) ->
  (forall f v, f ∈ fd_flags db -> ov_flag_id row = fl_id f -> ov_value row = Some v -> typed f v) ->
  flag_inv (set_overrides db (fd_overrides db ++ [row]) (fd_next db + 1)).
Proof.
  intros [Hnd Hnx Hu Hdef Hond Honx Hou Hot] Hid Hfl Hnew Hty.
  split; cbn [fd_flags fd_overrides fd_next set_overrides]; try done.
  - intros f Hf. apply Hnx in Hf. lia.
  - rewrite map_app. apply list.NoDup_app. split; [done|]. split; [|apply NoDup_singleton].
    intros i (o & -> & Ho)%list_elem_of_fmap Hi. destruct (Honx o Ho). simpl in Hi. set_unfold in Hi. lia.
  - intros o [Ho| ->%list_elem_of_singleton]%elem_of_app; [destruct (Honx o Ho)|]; lia.
  - intros o q [Ho| ->%list_elem_of_singleton]%elem_of_app [Hq| ->%list_elem_of_singleton]%elem_of_app Hf He;
      [by apply Hou| | |done]; exfalso; [by eapply (Hnew o)|by eapply (Hnew q)].
  - intros o f v [Ho| ->%list_elem_of_singleton]%elem_of_app Hf Hof Hv; [by eapply Hot|by eapply Hty].
Qed.

Lemma set_environment_inv p k e r db : flag_inv db -> flag_inv (set_environment_value p k e r db).2.
Proof.
  intros Hinv. unfold set_environment_value. destruct (result_bind (get _ _ _) _) as [flag|] eqn:Hc; [|done].
  apply result_bind_Ok in Hc as (found & Hg & Hc). apply get_Ok in Hg as (Hf & _ & _).
  apply result_bind_Ok in Hc as (t & Ht%ok_or_Ok & Hc). apply result_bind_Ok in Hc as ([] & _ & Hc).
  apply result_bind_Ok in Hc as ([] & Hv & Hc).
  assert (flag = fw_flag found) as -> by (unfold fquery in Hc; destruct (fd_answers db); congruence).
  set (flag := fw_flag found) in *. cbv zeta.
  assert (forall f v, f ∈ fd_flags db -> fl_id flag = fl_id f -> sv_value r = Some (Some v) -> typed f v) as Hty.
  { intros f v Hf' Hid Hr. assert (f = flag) as -> by (eapply flag_by_id; done). exists t. split; [done|].
    rewrite Hr in Hv. unfold validate_value in Hv. by destruct (fv_matches t v). }
  destruct (List.find _ (fd_overrides db)) as [row|] eqn:Hrow.
  - apply List.find_some in Hrow as [Hin Hb]. apply list_elem_of_In in Hin.
    apply andb_true_iff in Hb as [Hb1 Hb2]. apply Z.eqb_eq in Hb1, Hb2.
    apply override_replace; [done..|]. cbn [ov_value]. intros f v Hf' Hrf Hv'.
    destruct (sv_value r) as [[v'|]|] eqn:Hsv; simpl in Hv'; [|done|].
    + injection Hv' as ->. by apply Hty; [|congruence|].
    + by apply (fi_ov_typed _ Hinv row).
  - apply override_insert; [done|done|by apply (fi_next _ Hinv)| |]; cbn [ov_flag_id ov_environment_id ov_value].
    + intros o Ho Hof He. apply list_elem_of_In in Ho. pose proof (List.find_none _ _ Hrow _ Ho) as Hb. cbv beta in Hb.
      apply andb_false_iff in Hb as [Hb|Hb]; lia.
    + intros f v Hf' Hid Hv'. destruct (sv_value r) as [[v'|]|] eqn:Hsv; simpl in Hv'; [|done..].
      injection Hv' as ->. by apply Hty.
Qed.

(** ** What is served *)

Definition override_of db (flag_id environment_id : Z) : option (OverrideRow V) :=
  List.find (fun o => (ov_flag_id o =? flag_id) && (ov_environment_id o =? environment_id)) (fd_overrides db).

(** What the rows say a flag serves in an environment. *)
Definition served db f (environment_id : Z) : Evaluation V :=
  match override_of db (fl_id f) environment_id with
  | Some o =>
      if negb (ov_enabled o) then new_evaluation (fl_default_value f) Disabled
      else match ov_value o with
           | Some v => new_evaluation v EnvironmentValue
           | None => new_evaluation (fl_default_value f) Default
           end
  | None => new_evaluation (fl_default_value f) Default
  end.

Lemma find_filter {A} (p q : A -> bool) l : List.find p (List.filter q l) = List.find (fun x => q x && p x) l.
Proof. induction l as [|x l IH]; [done|]. simpl. destruct (q x); simpl; [by destruct (p x)|done]. Qed.

Lemma find_ext {A} (p q : A -> bool) l : (forall x, p x = q x) -> List.find p l = List.find q l.
Proof. intros Heq. induction l as [|x l IH]; [done|]. simpl. by rewrite Heq, IH. Qed.

Lemma override_typed db f e o v :
  flag_inv db -> f ∈ fd_flags db -> override_of db (fl_id f) e = Some o -> ov_value o = Some v -> typed f v.
Proof.
  intros Hinv Hf Ho Hv. apply List.find_some in Ho as [Hin Hb]. apply andb_true_iff in Hb as [Hb _].
  apply (fi_ov_typed _ Hinv o); [by apply list_elem_of_In|done|lia|done].
Qed.

(** One flag of the snapshot. *)
Lemma collapse_served db f e rows :
  flag_inv db -> f ∈ fd_flags db ->
  List.find (fun row => ov_environment_id row =? e) rows = override_of db (fl_id f) e ->
  exists s t, collapse_to_environment f rows e = Some s /\ fs_key s = fl_key f /\
    fs_value_type s = t /\ fv_parse (fl_value_type f) = Some t /\
    evaluate s = served db f e /\ fv_matches t (ev_value (served db f e)) = true.
Proof.
  intros Hinv Hf Hrows. destruct (fi_default _ Hinv _ Hf) as (t & Ht & Hd). unfold collapse_to_environment, served.
  rewrite Ht, Hrows. cbn [mbind option_bind].
  assert (forall o v, override_of db (fl_id f) e = Some o -> ov_value o = Some v -> fv_matches t v = true) as Hov.
  { intros o v Ho Hv. destruct (override_typed _ _ _ _ _ Hinv Hf Ho Hv) as (t' & Ht' & Hm). congruence. }
  destruct (override_of db (fl_id f) e) as [o|]; (eexists; exists t; split; [done|]); split_and!; try done;
    unfold evaluate, sanitized; cbn [fs_enabled fs_environment_value fs_default_value fs_value_type].
  - destruct (ov_enabled o); simpl; [|by rewrite Hd]. destruct (ov_value o) as [v|] eqn:Hv; [|by rewrite Hd].
    by rewrite (Hov o v).
  - destruct (ov_enabled o); simpl; [|done]. destruct (ov_value o) as [v|] eqn:Hv; [|done]. by apply (Hov o v).
  - simpl. by rewrite Hd.
Qed.

Section Snapshot.
Context (order_by_key : list (FlagRow V) -> list (FlagRow V)).
Hypothesis order_perm : forall l, order_by_key l ≡ₚ l.

(** The live flags of a project, in the order of their keys. *)
Definition live_flags db (project_id : Z) (client_visible_only : bool) : list (FlagRow V) :=
  order_by_key (List.filter (fun f =>
      (fl_project_id f =? project_id) && match fl_archived_at f with None => true | Some _ => false end
      && (negb client_visible_only || fl_client_visible f)) (fd_flags db)).

Lemma live_flags_in db p c f : f ∈ live_flags db p c -> f ∈ fd_flags db.
Proof.
  unfold live_flags. rewrite order_perm. intros Hf. apply list_elem_of_In, List.filter_In in Hf as [Hf _].
  by apply list_elem_of_In.
Qed.

Lemma snapshot_rows db p e c snaps :
  snapshot order_by_key db p e c = Ok snaps ->
  let flags := live_flags db p c in
  let overrides := List.filter (fun o =>
      existsb (fun f => ov_flag_id o =? fl_id f) flags && (ov_environment_id o =? e)) (fd_overrides db) in
  snaps = omap (fun flag => collapse_to_environment flag (by_flag overrides (fl_id flag)) e) flags.
Proof.
  unfold snapshot, fquery. intros Hs. apply result_bind_Ok in Hs as ([] & _ & Hs).
  destruct (fd_answers db); [|done]. cbn [result_bind] in Hs. by apply Ok_inj in Hs as <-.
Qed.

Lemma snapshot_override db p e c f :
  f ∈ live_flags db p c ->
  List.find (fun row => ov_environment_id row =? e)
    (by_flag (List.filter (fun o => existsb (fun f => ov_flag_id o =? fl_id f) (live_flags db p c)
                                    && (ov_environment_id o =? e)) (fd_overrides db)) (fl_id f))
  = override_of db (fl_id f) e.
Proof.
  intros Hf. unfold by_flag, override_of. rewrite !find_filter. apply find_ext. intros o.
  destruct (Z.eqb_spec (ov_flag_id o) (fl_id f)) as [Heq|]; simpl; [|by rewrite andb_false_r].
  assert (existsb (fun f0 => ov_flag_id o =? fl_id f0) (live_flags db p c) = true) as ->.
  { apply existsb_exists. exists f. split; [by apply list_elem_of_In|lia]. }
  simpl. by destruct (_ =? _).
Qed.

End Snapshot.
End Invariant.

(** ** Runs *)

Section Runs.
Context {V : Type} `{JsonValue V}.

Definition empty_flags : FlagDb V :=
  {| fd_flags := []; fd_overrides := []; fd_environments := []; fd_next := 1; fd_answers := true |}.

(** The calls of the service, and what happens around it: environments are created, and the
    database stops and resumes answering. *)
Inductive flag_step : FlagDb V -> FlagDb V -> Prop :=
  | fs_create db salt p r : flag_step db (create salt p r db).2
  | fs_update db p k r : flag_step db (update p k r db).2
  | fs_archive db now p k : flag_step db (archive now p k db).2
  | fs_restore db p k : flag_step db (restore p k db).2
  | fs_set db p k e r : flag_step db (set_environment_value p k e r db).2
  | fs_exposure db now p keys : flag_step db (record_exposure now p keys db).2
  | fs_environment db env : flag_step db
      {| fd_flags := fd_flags db; fd_overrides := fd_overrides db; fd_environments := fd_environments db ++ [env];
         fd_next := fd_next db; fd_answers := fd_answers db |}
  | fs_outage db up : flag_step db
      {| fd_flags := fd_flags db; fd_overrides := fd_overrides db; fd_environments := fd_environments db;
         fd_next := fd_next db; fd_answers := up |}.

Lemma flag_step_inv db db' : flag_step db db' -> flag_inv db -> flag_inv db'.
Proof.
  intros Hs Hinv. destruct Hs.
  - by apply create_inv.
  - by apply update_inv.
  - by apply archive_inv.
  - by apply restore_inv.
  - by apply set_environment_inv.
  - by apply exposure_inv.
  - by destruct Hinv.
  - by destruct Hinv.
Qed.

Lemma reachable_flags_inv db : rtc flag_step empty_flags db -> flag_inv db.
Proof.
  assert (flag_inv empty_flags) as H0 by (split; simpl; try apply NoDup_nil_2; set_solver).
  intros Hr. revert H0. induction Hr; eauto using flag_step_inv.
Qed.

(** C35: After any calls of the service, a snapshot that is returned holds every live flag of the
    project, in the order of the keys and none dropped, and evaluating it gives what the rows say:
    the default while the switch is off, else the value of the environment, else the default.
    Each value is of the declared type and none is an error. *)
Theorem flags_served_as_stored order_by_key db p e c snaps :
  (forall l, order_by_key l ≡ₚ l) -> rtc flag_step empty_flags db ->
  snapshot order_by_key db p e c = Ok snaps ->
  map (fun s => (fs_key s, evaluate s)) snaps =
    map (fun f => (fl_key f, served db f e)) (live_flags order_by_key db p c) /\
  Forall (fun s => fv_matches (fs_value_type s) (ev_value (evaluate s)) = true /\ ev_reason (evaluate s) <> EvalError) snaps.
Proof.
  intros Hperm Hrun%reachable_flags_inv Hs. apply snapshot_rows in Hs. cbv zeta in Hs. subst snaps.
  set (overrides := List.filter _ (fd_overrides db)).
  assert (forall f, f ∈ live_flags order_by_key db p c -> exists s,
    collapse_to_environment f (by_flag overrides (fl_id f)) e = Some s /\ fs_key s = fl_key f /\ evaluate s = served db f e /\
    fv_matches (fs_value_type s) (ev_value (served db f e)) = true) as Hone.
  { intros f Hf. destruct (collapse_served db f e (by_flag overrides (fl_id f)) Hrun) as (s & t & Hc & Hk & Ht & _ & He & Hm).
    - by eapply live_flags_in.
    - by apply snapshot_override.
    - exists s. rewrite Ht. done. }
  assert (forall f, ev_reason (served db f e) <> EvalError) as Hreason.
  { intros f. unfold served. repeat case_match; done. }
  clearbody overrides. induction (live_flags order_by_key db p c) as [|f l IH]; [done|].
  destruct (Hone f ltac:(set_solver)) as (s & Hc & Hk & He & Hm).
  destruct IH as [IH1 IH2]; [set_solver|]. simpl. rewrite Hc. simpl. split.
  - f_equal; [by rewrite Hk, He|exact IH1].
  - constructor; [by rewrite He|exact IH2].
Qed.

(** What a request makes of an override. *)
Definition after_set (f : FlagRow V) (o : option (OverrideRow V)) (r : SetEnvironmentValue V) : Evaluation V :=
  let enabled := default (match o with Some o => ov_enabled o | None => true end) (sv_enabled r) in
  let value := default (match o with Some o => ov_value o | None => None end) (sv_value r) in
  if negb enabled then new_evaluation (fl_default_value f) Disabled
  else match value with
       | Some v => new_evaluation v EnvironmentValue
       | None => new_evaluation (fl_default_value f) Default
       end.

Lemma served_override db f e : served db f e = after_set f (override_of db (fl_id f) e) {| sv_value := None; sv_enabled := None |}.
Proof. unfold served, after_set. by destruct (override_of db (fl_id f) e). Qed.

Lemma find_map_in {A} (p : A -> bool) (g : A -> A) l :
  (forall x, x ∈ l -> p (g x) = p x) -> List.find p (map g l) = option_map g (List.find p l).
Proof.
  intros Hp. induction l as [|x l IH]; [done|]. simpl. rewrite Hp by set_solver.
  destruct (p x); [done|]. apply IH. set_solver.
Qed.

Lemma find_app_last {A} (p : A -> bool) l x :
  List.find p (l ++ [x]) = match List.find p l with Some y => Some y | None => if p x then Some x else None end.
Proof. induction l as [|y l IH]; [done|]. simpl. by destruct (p y). Qed.

(** The overrides after a call that succeeded. *)
Lemma set_environment_override db p k e r row db' flag_id e' :
  flag_inv db -> set_environment_value p k e r db = (Ok row, db') ->
  exists f, find_flag db p k = Some f /\ fd_flags db' = fd_flags db /\
    override_of db' flag_id e' =
    (if (flag_id =? fl_id f) && (e' =? e) then Some row else override_of db flag_id e') /\
    ov_enabled row = default (match override_of db (fl_id f) e with Some o => ov_enabled o | None => true end) (sv_enabled r) /\
    ov_value row = default (match override_of db (fl_id f) e with Some o => ov_value o | None => None end) (sv_value r).
Proof.
  intros Hinv. unfold set_environment_value. destruct (result_bind (get _ _ _) _) as [flag|] eqn:Hc; [|done].
  apply result_bind_Ok in Hc as (found & Hg & Hc).
  assert (find_flag db p k = Some (fw_flag found)) as Hff.
  { unfold get, fquery in Hg. destruct (fd_answers db); [|done]. cbn [result_bind] in Hg.
    destruct (find_flag db p k); [|done]. cbn in Hg. by apply Ok_inj in Hg as <-. }
  apply result_bind_Ok in Hc as (t & _ & Hc). apply result_bind_Ok in Hc as ([] & _ & Hc).
  apply result_bind_Ok in Hc as ([] & _ & Hc).
  assert (flag = fw_flag found) as -> by (unfold fquery in Hc; destruct (fd_answers db); congruence).
  set (f := fw_flag found) in *. cbv zeta. destruct (List.find _ (fd_overrides db)) as [old|] eqn:Hold; intros Hset;
    apply pair_equal_spec in Hset as [Hrow <-]; apply Ok_inj in Hrow; exists f; (split; [done|]); (split; [done|]);
    unfold override_of; cbn [fd_overrides]; rewrite ?Hold; (split; [|by subst row]).
  - apply List.find_some in Hold as Hold'. destruct Hold' as [Hin Hb]. apply list_elem_of_In in Hin.
    apply andb_true_iff in Hb as [Hb1 Hb2]. apply Z.eqb_eq in Hb1, Hb2. rewrite Hrow.
    assert (ov_id row = ov_id old /\ ov_flag_id row = ov_flag_id old /\ ov_environment_id row = ov_environment_id old) as (Ri & Rf & Re) by by subst row.
    rewrite find_map_in.
    2:{ intros o Ho. destruct (Z.eqb_spec (ov_id o) (ov_id old)) as [Heq|]; [|done].
        assert (o = old) as -> by (eapply override_by_id; done). by rewrite Rf, Re. }
    destruct (Z.eqb_spec flag_id (fl_id f)) as [->|Hnf]; simpl; [destruct (Z.eqb_spec e' e) as [->|Hne]|].
    + rewrite Hold. simpl. by rewrite Z.eqb_refl.
    + clear Hold. destruct (List.find _ (fd_overrides db)) as [o|] eqn:Ho; [|done]. simpl.
      apply List.find_some in Ho as [Hino Hbo]. destruct (Z.eqb_spec (ov_id o) (ov_id old)) as [Heq|]; [|done].
      apply list_elem_of_In in Hino. assert (o = old) as -> by (eapply override_by_id; done).
      apply andb_true_iff in Hbo as [_ Hbo]. lia.
    + clear Hold. destruct (List.find _ (fd_overrides db)) as [o|] eqn:Ho; [|done]. simpl.
      apply List.find_some in Ho as [Hino Hbo]. destruct (Z.eqb_spec (ov_id o) (ov_id old)) as [Heq|]; [|done].
      apply list_elem_of_In in Hino. assert (o = old) as -> by (eapply override_by_id; done).
      apply andb_true_iff in Hbo as [Hbo _]. lia.
  - rewrite find_app_last, Hrow. subst row. cbn [ov_flag_id ov_environment_id].
    destruct (Z.eqb_spec flag_id (fl_id f)) as [->|Hnf]; simpl; [destruct (Z.eqb_spec e' e) as [->|Hne]|].
    + rewrite Hold. by rewrite !Z.eqb_refl.
    + clear Hold. destruct (List.find _ _); [done|]. destruct (Z.eqb_spec e e'); [congruence|]. by rewrite andb_false_r.
    + clear Hold. destruct (List.find _ _); [done|]. by destruct (Z.eqb_spec (fl_id f) flag_id); [congruence|].
Qed.

(** A call that sets the value of an environment, after any calls, changes what the flag gives
    in that environment and nothing else.  There the request replaces the switch and the value it
    names and keeps the others; every other flag, and the same flag elsewhere, is served as before. *)
Theorem set_environment_value_effect db p k e r row db' :
  rtc flag_step empty_flags db -> set_environment_value p k e r db = (Ok row, db') ->
  exists f, find_flag db p k = Some f /\ fd_flags db' = fd_flags db /\
    forall g e', served db' g e' =
      if (fl_id g =? fl_id f) && (e' =? e) then after_set g (override_of db (fl_id g) e) r else served db g e'.
Proof.
  intros Hinv%reachable_flags_inv Hset.
  destruct (set_environment_override db p k e r row db' 0 e Hinv Hset) as (f & Hf & Hflags & _).
  exists f. split; [done|]. split; [done|]. intros g e'.
  destruct (set_environment_override db p k e r row db' (fl_id g) e' Hinv Hset) as (f' & Hf' & _ & Ho & He & Hv).
  assert (f' = f) as -> by congruence. rewrite !served_override, Ho.
  destruct (Z.eqb_spec (fl_id g) (fl_id f)) as [Hg|]; [|done]. destruct (Z.eqb_spec e' e); [|done].
  simpl. unfold after_set. rewrite Hg, <-He, <-Hv. done.
Qed.

End Runs.

(** ** A run *)

(** Values that are truth values or null. *)
#[export] Instance bool_json : JsonValue (option bool) := {
  json_kind v := match v with Some _ => KBool | None => KNull end;
  json_null := None;
  json_null_kind := eq_refl
}.

(** The range of [bucket] is closed: the greatest digest gives 100. *)
Example bucket_reaches_hundred : bucket_of (2 ^ 32 - 1) = f64_of 100.
Proof. vm_compute. reflexivity. Qed.

(** A project with one environment and one flag, which is set there. *)
Definition demo_created : FlagDb (option bool) :=
  (create "salt" 1 {| cf_key := chars "beta"; cf_value_type := FvBool; cf_default_value := Some false;
                      cf_description := None; cf_client_visible := true |}
    {| fd_flags := []; fd_overrides := []; fd_environments := [{| en_id := 7; en_project_id := 1 |}];
       fd_next := 1; fd_answers := true |}).2.

Definition demo_request : SetEnvironmentValue (option bool) :=
  {| sv_value := Some (Some (Some true)); sv_enabled := None |}.

Definition demo_db : FlagDb (option bool) := (set_environment_value 1 (chars "beta") 7 demo_request demo_created).2.

Definition beta_snapshot : FlagSnapshot (option bool) :=
  {| fs_key := chars "beta"; fs_value_type := FvBool; fs_default_value := Some false; fs_enabled := true;
     fs_environment_value := Some (Some true) |}.

Lemma demo_created_reachable : rtc flag_step empty_flags demo_created.
Proof.
  eapply rtc_l; [exact (fs_environment empty_flags {| en_id := 7; en_project_id := 1 |})|].
  eapply rtc_l; [|apply rtc_refl]. apply fs_create.
Qed.

Lemma demo_db_reachable : rtc flag_step empty_flags demo_db.
Proof. eapply rtc_r; [exact demo_created_reachable|]. apply fs_set. Qed.

Lemma flags_served_as_stored_witness :
  snapshot (fun l => l) demo_db 1 7 true = Ok [beta_snapshot] /\
  map (fun s => (fs_key s, evaluate s)) [beta_snapshot] =
    map (fun f => (fl_key f, served demo_db f 7)) (live_flags (fun l => l) demo_db 1 true).
Proof.
  assert (snapshot (fun l => l) demo_db 1 7 true = Ok [beta_snapshot]) as Hs by (vm_compute; reflexivity).
  split; [exact Hs|].
  exact (proj1 (flags_served_as_stored (fun l => l) demo_db 1 7 true [beta_snapshot]
    (fun l => Permutation_refl l) demo_db_reachable Hs)).
Defined.

Lemma set_environment_value_effect_witness :
  exists f, find_flag demo_created 1 (chars "beta") = Some f /\
    served demo_db f 7 = new_evaluation (Some true) EnvironmentValue /\
    served demo_db f 8 = new_evaluation (Some false) Default.
Proof.
  destruct (set_environment_value_effect demo_created 1 (chars "beta") 7 demo_request
    {| ov_id := 2; ov_flag_id := 1; ov_environment_id := 7; ov_enabled := true; ov_value := Some (Some true) |}
    demo_db demo_created_reachable ltac:(vm_compute; reflexivity)) as (f & Hf & _ & Hserved).
  exists f. split; [exact Hf|]. rewrite !Hserved. vm_compute in Hf. injection Hf as <-. split; vm_compute; reflexivity.
Defined.
