(* ===== verification/Wal.v ===== *)
(** * The write-ahead log of the log store

    [crates/temps-log-aggregator/src/chunk/wal.rs]: one append-only file per container for the
    lines that are not sealed into a chunk yet, its rotation into immutable generations, and the
    recovery that replays what a crash left behind.

    The disk is explicit: the names of the WAL directory and of its subdirectory for deferred
    generations lead to inodes, open files keep their inode whatever happens to the name, and an
    inode remembers how much of it was synced.  Every system call consumes one element of a list
    of faults, so that a theorem about all lists is a theorem about failures at any point; a list
    that fails from some point on is a crash there.  Bytes that wait in the process for their write
    count as bytes of the file that are not synced, and directory entries are durable at once.
    The JSON of a line, the checksum and fresh UUIDs are interfaces. *)

From S2P Require Import Prelude Bytes Utf8 ChunkBlock Bloom ChunkFile.
From stdpp Require Import sorting.
Local Open Scope Z_scope.

(** ** The disk *)

(** The outcome of a system call: done, or failed after so many bytes were transferred. *)
Inductive Fault := Fine | Fails (after : nat).

Record Inode := { in_bytes : list Z; in_synced : nat }.

(** What a name in the directory leads to. *)
Inductive Node := Regular (ino : nat) | Irregular.

Inductive Problem :=
  | HeaderUnreadable (offset : Z)
  | RecordTooLong (offset len : Z)
  | PayloadUnreadable (offset : Z)
  | ChecksumMismatch (offset : Z)
  | NotALogLine (offset : Z).

(** The notes beside deferred generations, in place of their text. *)
Inductive DeferReason :=
  | TooLargeToReplay (file_len limit : Z)
  | NothingReplayed (problem : Problem)
  | PrefixReplayed (problem : Problem) (records : Z).

Record Disk := {
  dk_root : gmap string Node;
  dk_deferred : gmap string Node;
  dk_notes : gmap string DeferReason;
  dk_inodes : gmap nat Inode;
  dk_next : nat;
  dk_uuids : nat;
  dk_faults : list Fault
}.

Inductive WalError :=
  | NotFound
  | IoFailed
  | WalSerialization
  | RecordTooLarge (len : Z)
  | Frozen
  | LostGeneration
  | NotRegular (name : string)
  | InvalidGenerationName (name : string)
  | CursorLost
  | BatchWithoutOffset
  | WalRecoveryIncomplete (name : string).

Abbreviation Io A := (Act Disk WalError A).

Definition with_root (d : Disk) (root : gmap string Node) : Disk :=
  {| dk_root := root; dk_deferred := dk_deferred d; dk_notes := dk_notes d; dk_inodes := dk_inodes d;
     dk_next := dk_next d; dk_uuids := dk_uuids d; dk_faults := dk_faults d |}.
Definition with_inodes (d : Disk) (inodes : gmap nat Inode) : Disk :=
  {| dk_root := dk_root d; dk_deferred := dk_deferred d; dk_notes := dk_notes d; dk_inodes := inodes;
     dk_next := dk_next d; dk_uuids := dk_uuids d; dk_faults := dk_faults d |}.
Definition with_faults (d : Disk) (faults : list Fault) : Disk :=
  {| dk_root := dk_root d; dk_deferred := dk_deferred d; dk_notes := dk_notes d; dk_inodes := dk_inodes d;
     dk_next := dk_next d; dk_uuids := dk_uuids d; dk_faults := faults |}.

(** The fault of the next call; none is left when the list is used up. *)
Definition next_fault : Io Fault := fun d =>
  match dk_faults d with
  | [] => (Ok Fine, d)
  | f :: rest => (Ok f, with_faults d rest)
  end.

(** A call that does nothing when it fails. *)
Definition syscall {A} (m : Io A) : Io A :=
  let! f := next_fault in match f with Fine => m | Fails _ => act_fail IoFailed end.

Definition inode_of (name : string) : Io nat := fun d =>
  match dk_root d !! name with
  | Some (Regular ino) => (Ok ino, d)
  | Some Irregular => (Err IoFailed, d)
  | None => (Err NotFound, d)
  end.

Definition bytes_of (ino : nat) (d : Disk) : list Z :=
  match dk_inodes d !! ino with Some i => in_bytes i | None => [] end.

(** The bytes a name leads to. *)
Definition bytes_at (d : Disk) (name : string) : list Z :=
  match dk_root d !! name with Some (Regular ino) => bytes_of ino d | _ => [] end.

(** [fs::metadata(path).len()] and [File::open]. *)
Definition file_len (name : string) : Io Z :=
  syscall (let! ino := inode_of name in fun d => (Ok (blen (bytes_of ino d)), d)).

(** Bytes that can still be read, and whether an error follows them instead of the end. *)
Record Reader := { rd_bytes : list Z; rd_fails : bool }.

(** A file opened for reading; the second fault says how far reading it will get. *)
Definition open_read (name : string) : Io Reader :=
  let! ino := syscall (inode_of name) in
  let! f := next_fault in
  fun d => (Ok match f with
               | Fine => {| rd_bytes := bytes_of ino d; rd_fails := false |}
               | Fails k => {| rd_bytes := take k (bytes_of ino d); rd_fails := true |}
               end, d).

(** [OpenOptions::new().create(true).append(true).open(path)]. *)
Definition open_append (name : string) : Io nat :=
  syscall (fun d =>
    match dk_root d !! name with
    | Some (Regular ino) => (Ok ino, d)
    | Some Irregular => (Err IoFailed, d)
    | None =>
        let ino := dk_next d in
        (Ok ino, {| dk_root := <[name := Regular ino]> (dk_root d); dk_deferred := dk_deferred d;
                    dk_notes := dk_notes d; dk_inodes := <[ino := {| in_bytes := []; in_synced := 0 |}]> (dk_inodes d);
                    dk_next := S ino; dk_uuids := dk_uuids d; dk_faults := dk_faults d |})
    end).

(** [write_all] on an open file: a failed call may leave a part of the data behind. *)
Definition write_all (ino : nat) (data : list Z) : Io unit :=
  let put bytes d :=
    match dk_inodes d !! ino with
    | Some i => with_inodes d (<[ino := {| in_bytes := in_bytes i ++ bytes; in_synced := in_synced i |}]> (dk_inodes d))
    | None => d
    end in
  let! f := next_fault in
  fun d => match f with
           | Fine => (Ok (), put data d)
           | Fails k => (Err IoFailed, put (take k data) d)
           end.

(** [flush] and [sync_data]. *)
Definition sync_data (ino : nat) : Io unit :=
  syscall (fun d =>
    match dk_inodes d !! ino with
    | Some i => (Ok (), with_inodes d (<[ino := {| in_bytes := in_bytes i; in_synced := length (in_bytes i) |}]> (dk_inodes d)))
    | None => (Ok (), d)
    end).

Definition set_len_zero (ino : nat) : Io unit :=
  syscall (fun d =>
    match dk_inodes d !! ino with
    | Some _ => (Ok (), with_inodes d (<[ino := {| in_bytes := []; in_synced := 0 |}]> (dk_inodes d)))
    | None => (Ok (), d)
    end).

Definition rename (from to : string) : Io unit :=
  syscall (fun d =>
    match dk_root d !! from with
    | Some n => (Ok (), with_root d (<[to := n]> (delete from (dk_root d))))
    | None => (Err NotFound, d)
    end).

Definition remove_file (name : string) : Io unit :=
  syscall (fun d =>
    match dk_root d !! name with
    | Some (Regular _) => (Ok (), with_root d (delete name (dk_root d)))
    | Some Irregular => (Err IoFailed, d)
    | None => (Err NotFound, d)
    end).

(** [File::open(parent).sync_all()]. *)
Definition sync_parent : Io unit := syscall (act_ret ()).

(** A fresh UUID, by its number. *)
Definition new_uuid : Io nat := fun d =>
  (Ok (dk_uuids d), {| dk_root := dk_root d; dk_deferred := dk_deferred d; dk_notes := dk_notes d;
                       dk_inodes := dk_inodes d; dk_next := dk_next d; dk_uuids := S (dk_uuids d);
                       dk_faults := dk_faults d |}).

(** ** File names *)

Fixpoint split_last_dot (s : string) : option (string * string) :=
  match s with
  | EmptyString => None
  | String c s' =>
      match split_last_dot s' with
      | Some (before, after) => Some (String c before, after)
      | None => if Ascii.eqb c "." then Some (EmptyString, s') else None
      end
  end.

(** [Path::file_stem] and [Path::extension] of a single name. *)
Definition name_parts (name : string) : string * option string :=
  if String.eqb name ".." then (name, None)
  else match split_last_dot name with
       | None => (name, None)
       | Some (before, after) => if String.eqb before "" then (name, None) else (before, Some after)
       end.
Definition file_stem (name : string) : string := (name_parts name).1.
Definition extension (name : string) : option string := (name_parts name).2.
Definition with_extension (name ext : string) : string := file_stem name +:+ "." +:+ ext.

(** [rsplit('.').next()]. *)
Definition last_segment (s : string) : string :=
  match split_last_dot s with Some (_, after) => after | None => s end.

Definition is_ascii_alphanumeric (c : ascii) : bool :=
  let n := N_of_ascii c in
  ((48 <=? n) && (n <=? 57) || (65 <=? n) && (n <=? 90) || (97 <=? n) && (n <=? 122))%N.

Fixpoint sanitise (container_id : string) : string :=
  match container_id with
  | EmptyString => EmptyString
  | String c rest =>
      String (if is_ascii_alphanumeric c || Ascii.eqb c "_" || Ascii.eqb c "-" then c else "_"%char) (sanitise rest)
  end.

Definition wal_file_name (container_id : string) : string := sanitise container_id +:+ ".wal".

(** The files of the directory by extension. *)
Inductive WalKind := ActiveWal | SealedWal | RecoveryWal.

Definition wal_kind (name : string) : option WalKind :=
  match extension name with
  | Some ext =>
      if String.eqb ext "wal" then Some ActiveWal
      else if String.eqb ext "sealed-wal" then Some SealedWal
      else if String.eqb ext "recovery-wal" then Some RecoveryWal
      else None
  | None => None
  end.

(** The bloom choice in a generation's name. *)
Definition bloom_choice (name : string) : option bool :=
  let segment := last_segment (file_stem name) in
  if String.eqb segment "b" then Some true else if String.eqb segment "n" then Some false else None.

(** ** Records and generations *)

Definition RECORD_HEADER_LEN : Z := 8.
Definition MAX_RECORD_BYTES : Z := 16 * 1024 * 1024.
Definition MAX_GENERATION_BYTES : Z := 256 * 1024 * 1024.
Definition WHOLE_GENERATION_LIMIT : Z := MAX_GENERATION_BYTES + (RECORD_HEADER_LEN + MAX_RECORD_BYTES).
Definition DEFERRED_DIR : string := "deferred".

Inductive AfterCommit := Remove | Retain | Defer (reason : DeferReason).

Record WalGeneration := {
  wg_path : string;
  wg_with_bloom : bool;
  wg_after_commit : AfterCommit;
  wg_recovery_identity : option (string * Z * Z)
}.

(** [serde_json::to_vec] and [from_slice] of a line. *)
Class LineJson `{Chrono} `{Json} := {
  line_to_vec : LogLine -> option (list Z);
  line_from_slice : list Z -> option LogLine
}.

(** [defer_file]. *)
Definition defer_file (path : string) (reason : DeferReason) : Io unit :=
  let! _ := syscall (act_ret ()) in
  let! _ := syscall (fun d =>
    (Ok (), {| dk_root := dk_root d; dk_deferred := dk_deferred d; dk_notes := <[path := reason]> (dk_notes d);
               dk_inodes := dk_inodes d; dk_next := dk_next d; dk_uuids := dk_uuids d; dk_faults := dk_faults d |})) in
  let! _ := syscall (fun d =>
    match dk_root d !! path with
    | Some n =>
        (Ok (), {| dk_root := delete path (dk_root d); dk_deferred := <[path := n]> (dk_deferred d);
                   dk_notes := dk_notes d; dk_inodes := dk_inodes d; dk_next := dk_next d; dk_uuids := dk_uuids d;
                   dk_faults := dk_faults d |})
    | None => (Err NotFound, d)
    end) in
  let! _ := sync_parent in
  sync_parent.

(** [remove_file] that takes a missing file for removed. *)
Definition removing (name : string) (after : Io unit) : Io unit := fun d =>
  match remove_file name d with
  | (Ok _, d') => after d'
  | (Err NotFound, d') => (Ok (), d')
  | (Err e, d') => (Err e, d')
  end.

(** [WalGeneration::remove]. *)
Definition generation_remove (g : WalGeneration) : Io unit :=
  match wg_after_commit g with
  | Retain => act_ret ()
  | Defer reason => defer_file (wg_path g) reason
  | Remove => removing (wg_path g) sync_parent
  end.

(** ** One stream *)

Record StreamWal := {
  sw_path : string;
  sw_writer : option nat;
  sw_frozen : option WalGeneration;
  sw_bytes_written : Z
}.

Definition bloom_suffix (with_bloom : bool) : string := if with_bloom then "b" else "n".

Section Streams.
Context (uuid_text : nat -> string).

(** [WalDir::stream]. *)
Definition wal_stream (container_id : string) : Io StreamWal :=
  let path := wal_file_name container_id in
  let! ino := open_append path in
  let! bytes_written := syscall (fun d => (Ok (blen (bytes_of ino d)), d)) in
  act_ret {| sw_path := path; sw_writer := Some ino; sw_frozen := None; sw_bytes_written := bytes_written |}.

(** [WalDir::remove]. *)
Definition wal_remove (container_id : string) : Io unit := removing (wal_file_name container_id) (act_ret ()).

(** The open file, or the error of a frozen stream. *)
Definition writer (w : StreamWal) : Io nat :=
  match sw_writer w with Some ino => act_ret ino | None => act_fail Frozen end.

(** [StreamWal::sync]. *)
Definition wal_sync (w : StreamWal) : Io unit :=
  let! ino := writer w in
  let! _ := syscall (act_ret ()) in
  sync_data ino.

(** [StreamWal::freeze]; the stream is returned also when the call fails, as it was then. *)
Definition freeze (w : StreamWal) (with_bloom : bool) : Disk -> result WalError unit * StreamWal * Disk := fun d =>
  match sw_frozen w with
  | Some _ => (Ok (), w, d)
  | None =>
      let renamed :=
        let! _ := wal_sync w in
        let! n := new_uuid in
        let path := with_extension (sw_path w) (uuid_text n +:+ "." +:+ bloom_suffix with_bloom +:+ ".sealed-wal") in
        let! _ := rename (sw_path w) path in
        act_ret path in
      match renamed d with
      | (Ok path, d') =>
          (Ok (), {| sw_path := sw_path w; sw_writer := None;
                     sw_frozen := Some {| wg_path := path; wg_with_bloom := with_bloom;
                                          wg_after_commit := Remove; wg_recovery_identity := None |};
                     sw_bytes_written := sw_bytes_written w |}, d')
      | (Err e, d') => (Err e, w, d')
      end
  end.

(** [StreamWal::rotate]. *)
Definition wal_rotate (w : StreamWal) (with_bloom : bool) : Disk -> result WalError WalGeneration * StreamWal * Disk := fun d =>
  match freeze w with_bloom d with
  | (Err e, w', d') => (Err e, w', d')
  | (Ok _, w', d') =>
      let opened :=
        let! _ := sync_parent in
        let! ino := open_append (sw_path w') in
        let! _ := sync_parent in
        act_ret ino in
      match opened d' with
      | (Err e, d2) => (Err e, w', d2)
      | (Ok ino, d2) =>
          let fresh := {| sw_path := sw_path w'; sw_writer := Some ino; sw_frozen := None; sw_bytes_written := 0 |} in
          match sw_frozen w' with
          | Some g => (Ok g, fresh, d2)
          | None => (Err LostGeneration, fresh, d2)
          end
      end
  end.

Context `{LineJson} `{Crc32}.

Definition record_of (payload : list Z) : list Z :=
  to_le_bytes 4 (blen payload) ++ to_le_bytes 4 (crc32 payload) ++ payload.

(** [StreamWal::append]. *)
Definition wal_append (w : StreamWal) (line : LogLine) : Disk -> result WalError unit * StreamWal * Disk := fun d =>
  match line_to_vec line with
  | None => (Err WalSerialization, w, d)
  | Some payload =>
      if MAX_RECORD_BYTES <? blen payload then (Err (RecordTooLarge (blen payload)), w, d)
      else if 2 ^ 32 <=? blen payload then (Err (RecordTooLarge (blen payload)), w, d)
      else
        let header := to_le_bytes 4 (blen payload) ++ to_le_bytes 4 (crc32 payload) in
        let written :=
          let! ino := writer w in
          let! _ := write_all ino header in
          let! ino := writer w in
          write_all ino payload in
        match written d with
        | (Err e, d') => (Err e, w, d')
        | (Ok _, d') =>
            (Ok (), {| sw_path := sw_path w; sw_writer := sw_writer w; sw_frozen := sw_frozen w;
                       sw_bytes_written := sw_bytes_written w + (RECORD_HEADER_LEN + blen payload) |}, d')
        end
  end.

(** [StreamWal::truncate]. *)
Definition wal_truncate (w : StreamWal) : Disk -> result WalError unit * StreamWal * Disk := fun d =>
  let truncated :=
    let! ino := writer w in
    let! _ := syscall (act_ret ()) in
    let! _ := set_len_zero ino in
    sync_data ino in
  match truncated d with
  | (Err e, d') => (Err e, w, d')
  | (Ok _, d') => (Ok (), {| sw_path := sw_path w; sw_writer := sw_writer w; sw_frozen := sw_frozen w; sw_bytes_written := 0 |}, d')
  end.

(** ** Reading a generation back *)

Inductive ReadError := UnexpectedEof | ReadFailed.

Definition read_exact (n : nat) (r : Reader) : result ReadError (list Z) * Reader :=
  if (n <=? length (rd_bytes r))%nat
  then (Ok (take n (rd_bytes r)), {| rd_bytes := drop n (rd_bytes r); rd_fails := rd_fails r |})
  else (Err (if rd_fails r then ReadFailed else UnexpectedEof), {| rd_bytes := []; rd_fails := rd_fails r |}).

(** [read] into a buffer of one byte: nothing at the end. *)
Definition read_one (r : Reader) : result ReadError (list Z) * Reader :=
  match rd_bytes r with
  | [] => if rd_fails r then (Err ReadFailed, r) else (Ok [], r)
  | b :: rest => (Ok [b], {| rd_bytes := rest; rd_fails := rd_fails r |})
  end.

Record RecoveryFile := {
  rf_reader : Reader;
  rf_generation : WalGeneration;
  rf_offset : Z;
  rf_pending_header : option (Z * Z * Z);
  rf_batchable : bool;
  rf_records : Z;
  rf_unreadable : option Problem
}.

Definition with_reader (f : RecoveryFile) (r : Reader) (offset : Z) : RecoveryFile :=
  {| rf_reader := r; rf_generation := rf_generation f; rf_offset := offset; rf_pending_header := rf_pending_header f;
     rf_batchable := rf_batchable f; rf_records := rf_records f; rf_unreadable := rf_unreadable f |}.
Definition with_pending (f : RecoveryFile) (h : option (Z * Z * Z)) : RecoveryFile :=
  {| rf_reader := rf_reader f; rf_generation := rf_generation f; rf_offset := rf_offset f; rf_pending_header := h;
     rf_batchable := rf_batchable f; rf_records := rf_records f; rf_unreadable := rf_unreadable f |}.
Definition with_unreadable (f : RecoveryFile) (p : Problem) : RecoveryFile :=
  {| rf_reader := rf_reader f; rf_generation := rf_generation f; rf_offset := rf_offset f;
     rf_pending_header := rf_pending_header f; rf_batchable := rf_batchable f; rf_records := rf_records f;
     rf_unreadable := Some p |}.
Definition count_record (f : RecoveryFile) : RecoveryFile :=
  {| rf_reader := rf_reader f; rf_generation := rf_generation f; rf_offset := rf_offset f;
     rf_pending_header := rf_pending_header f; rf_batchable := rf_batchable f; rf_records := rf_records f + 1;
     rf_unreadable := rf_unreadable f |}.

(** [read_record_header]; nothing at the end of the file and at a torn header. *)
Definition read_record_header (current : RecoveryFile) : result Problem (option (Z * Z * Z)) * RecoveryFile :=
  let record_offset := rf_offset current in
  match read_one (rf_reader current) with
  | (Err _, r) => (Err (HeaderUnreadable record_offset), with_reader current r record_offset)
  | (Ok [], r) => (Ok None, with_reader current r record_offset)
  | (Ok first, r) =>
      match read_exact 7 r with
      | (Err UnexpectedEof, r') => (Ok None, with_reader current r' record_offset)
      | (Err ReadFailed, r') => (Err (HeaderUnreadable record_offset), with_reader current r' record_offset)
      | (Ok rest, r') =>
          let header := first ++ rest in
          (Ok (Some (from_le_bytes (take 4 header), from_le_bytes (drop 4 header), record_offset)),
           with_reader current r' (record_offset + RECORD_HEADER_LEN))
      end
  end.

Record Batch := { bt_lines : list LogLine; bt_start : option Z; bt_reached_end : bool }.

Definition saturating_add (a b : Z) : Z := Z.min (a + b) (2 ^ 64 - 1).

(** The loop body of [read_batch] behind the header; [again] is the loop. *)
Definition read_record (again : RecoveryFile -> list LogLine -> Z -> option Z -> Batch * RecoveryFile)
    (batch_bytes : Z) (header : Z * Z * Z) (current : RecoveryFile) (lines : list LogLine) (payload_bytes : Z)
    (start : option Z) : Batch * RecoveryFile :=
  let '(len, crc, record_offset) := header in
  if MAX_RECORD_BYTES <? len
  then ({| bt_lines := lines; bt_start := start; bt_reached_end := true |},
        with_unreadable current (RecordTooLong record_offset len))
  else if rf_batchable current && negb (bool_decide (lines = [])) && (batch_bytes <? saturating_add payload_bytes len)
  then ({| bt_lines := lines; bt_start := start; bt_reached_end := false |},
        with_pending current (Some (len, crc, record_offset)))
  else
    let start := match start with None => Some record_offset | s => s end in
    let stop current := ({| bt_lines := lines; bt_start := start; bt_reached_end := true |}, current) in
    match read_exact (Z.to_nat len) (rf_reader current) with
    | (Err UnexpectedEof, r) => stop (with_reader current r (rf_offset current))
    | (Err ReadFailed, r) =>
        stop (with_unreadable (with_reader current r (rf_offset current)) (PayloadUnreadable record_offset))
    | (Ok payload, r) =>
        let current := with_reader current r (rf_offset current + len) in
        if negb (crc32 payload =? crc) then stop (with_unreadable current (ChecksumMismatch record_offset))
        else match line_from_slice payload with
             | None => stop (with_unreadable current (NotALogLine record_offset))
             | Some line => again (count_record current) (lines ++ [line]) (saturating_add payload_bytes len) start
             end
    end.

(** The loop of [read_batch]. *)
Fixpoint read_batch_loop (fuel : nat) (batch_bytes : Z) (current : RecoveryFile) (lines : list LogLine)
    (payload_bytes : Z) (start : option Z) : Batch * RecoveryFile :=
  match fuel with
  | O => ({| bt_lines := lines; bt_start := start; bt_reached_end := true |}, current)
  | S fuel =>
      let next := match rf_pending_header current with
                  | Some header => (Ok (Some header), with_pending current None)
                  | None => read_record_header current
                  end in
      match next with
      | (Ok None, current) => ({| bt_lines := lines; bt_start := start; bt_reached_end := true |}, current)
      | (Err problem, current) =>
          ({| bt_lines := lines; bt_start := start; bt_reached_end := true |}, with_unreadable current problem)
      | (Ok (Some header), current) =>
          read_record (read_batch_loop fuel batch_bytes) batch_bytes header current lines payload_bytes start
      end
  end.

(** [read_batch]: a round reads a record or ends, so the bytes left bound the rounds. *)
Definition read_batch (current : RecoveryFile) (batch_bytes : Z) : Batch * RecoveryFile :=
  read_batch_loop (length (rd_bytes (rf_reader current)) + 2) batch_bytes current [] 0 None.

(** ** Recovery *)

Record RecoveredStream := {
  rs_container_id : string;
  rs_lines : list LogLine;
  rs_generation : option WalGeneration
}.

(** The paths are in the order they are taken. *)
Record WalRecovery := {
  wr_paths : list (string * bool * bool);
  wr_batch_bytes : Z;
  wr_whole_generation_limit : Z;
  wr_current : option RecoveryFile
}.

Definition recovery_new (paths : list (string * bool * bool)) (batch_bytes : Z) : WalRecovery :=
  {| wr_paths := paths; wr_batch_bytes := Z.max batch_bytes 1; wr_whole_generation_limit := WHOLE_GENERATION_LIMIT;
     wr_current := None |}.

Definition with_current (s : WalRecovery) (current : option RecoveryFile) : WalRecovery :=
  {| wr_paths := wr_paths s; wr_batch_bytes := wr_batch_bytes s;
     wr_whole_generation_limit := wr_whole_generation_limit s; wr_current := current |}.
Definition with_paths (s : WalRecovery) (paths : list (string * bool * bool)) : WalRecovery :=
  {| wr_paths := paths; wr_batch_bytes := wr_batch_bytes s;
     wr_whole_generation_limit := wr_whole_generation_limit s; wr_current := wr_current s |}.

Definition committing (g : WalGeneration) (after : AfterCommit) (identity : option (string * Z * Z)) : WalGeneration :=
  {| wg_path := wg_path g; wg_with_bloom := wg_with_bloom g; wg_after_commit := after; wg_recovery_identity := identity |}.

(** What [next] makes of a batch: the stream to seal, or the file to be done with. *)
Definition batch_outcome (batch : Batch) (current : RecoveryFile) : result WalError (RecoveredStream + WalGeneration) :=
  match bt_lines batch with
  | [] =>
      Ok (inr (committing (rf_generation current)
        (match rf_unreadable current with
         | None => Remove
         | Some problem => Defer (NothingReplayed problem)
         end) (wg_recovery_identity (rf_generation current))))
  | first :: _ =>
      let after :=
        match bt_reached_end batch, rf_unreadable current with
        | false, _ => Retain
        | true, None => Remove
        | true, Some problem => Defer (PrefixReplayed problem (rf_records current))
        end in
      let? identity :=
        if rf_batchable current then
          match bt_start batch with
          | Some start => Ok (Some (wg_path (rf_generation current), start, rf_offset current))
          | None => Err BatchWithoutOffset
          end
        else Ok (wg_recovery_identity (rf_generation current)) in
      Ok (inl {| rs_container_id := ll_container_id first; rs_lines := bt_lines batch;
                 rs_generation := Some (committing (rf_generation current) after identity) |})
  end.

(** The file of [path] with nothing read yet. *)
Definition recovery_file (reader : Reader) (path : string) (with_bloom batchable : bool) : RecoveryFile :=
  {| rf_reader := reader;
     rf_generation := {| wg_path := path; wg_with_bloom := with_bloom; wg_after_commit := Retain;
                         wg_recovery_identity := None |};
     rf_offset := 0; rf_pending_header := None; rf_batchable := batchable; rf_records := 0; rf_unreadable := None |}.

(** A batch of the file in hand; [again] is the loop of [WalRecovery::next]. *)
Definition next_batch (again : WalRecovery -> Io (option RecoveredStream * WalRecovery)) (current : RecoveryFile)
    (s : WalRecovery) : Io (option RecoveredStream * WalRecovery) :=
  let '(batch, current) := read_batch current (wr_batch_bytes s) in
  match batch_outcome batch current with
  | Err e => act_fail e
  | Ok (inr g) => let! _ := generation_remove g in again (with_current s None)
  | Ok (inl stream) => act_ret (Some stream, with_current s (if bt_reached_end batch then None else Some current))
  end.

(** The loop of [WalRecovery::next]. *)
Fixpoint next_loop (fuel : nat) (s : WalRecovery) : Io (option RecoveredStream * WalRecovery) :=
  match fuel with
  | O => act_fail CursorLost
  | S fuel =>
      match wr_current s with
      | Some current => next_batch (next_loop fuel) current s
      | None =>
          match wr_paths s with
          | [] => act_ret (None, s)
          | (path, with_bloom, batchable) :: paths =>
              let s := with_paths s paths in
              let! len := file_len path in
              if negb batchable && (wr_whole_generation_limit s <? len) then
                let! _ := defer_file path (TooLargeToReplay len (wr_whole_generation_limit s)) in
                next_loop fuel s
              else
                let! reader := open_read path in
                next_batch (next_loop fuel) (recovery_file reader path with_bloom batchable) s
          end
      end
  end.

(** [WalRecovery::next]: every further round is done with a file. *)
Definition next (s : WalRecovery) : Io (option RecoveredStream * WalRecovery) :=
  next_loop (length (wr_paths s) + 2) s.

(** The order a directory is listed in, and the order of paths. *)
Context (dir_order : gmap string Node -> list (string * Node)) (path_le : string -> string -> Prop) `{!RelDecision path_le}.

Definition generation_le (a b : string * bool * bool) : Prop :=
  match a, b with
  | (p, _, batchable), (q, _, batchable') => (batchable = false /\ batchable' = true) \/ (batchable = batchable' /\ path_le p q)
  end.
#[local] Instance generation_le_dec : RelDecision generation_le.
Proof. intros [[p b] c] [[q b'] c']. unfold generation_le. apply _. Defined.

(** One entry of the directory: the generations and the active files it adds. *)
Definition classify (len : nat -> Z) (acc : list (string * bool * bool) * list string) (entry : string * Node)
    : result WalError (list (string * bool * bool) * list string) :=
  let '(paths, active) := acc in
  let '(name, node) := entry in
  match wal_kind name with
  | None => Ok (paths, active)
  | Some kind =>
      match node, kind with
      | Irregular, _ => Err (NotRegular name)
      | Regular ino, ActiveWal => Ok (paths, if 0 <? len ino then active ++ [name] else active)
      | Regular _, _ =>
          let batchable := match kind with RecoveryWal => true | _ => false end in
          match bloom_choice name with
          | Some with_bloom => Ok (paths ++ [(name, with_bloom, batchable)], active)
          | None => Err (InvalidGenerationName name)
          end
      end
  end.

(** An active file becomes a generation that is replayed in batches. *)
Definition freeze_active_file (with_bloom : bool) (name : string) : Io (string * bool * bool) :=
  let! n := new_uuid in
  let path := with_extension name (uuid_text n +:+ "." +:+ bloom_suffix with_bloom +:+ ".recovery-wal") in
  let! _ := rename name path in
  let! _ := sync_parent in
  act_ret (path, with_bloom, true).

Fixpoint freeze_active_files (with_bloom : bool) (names : list string) (paths : list (string * bool * bool))
    : Io (list (string * bool * bool)) :=
  match names with
  | [] => act_ret paths
  | name :: rest =>
      let! path := freeze_active_file with_bloom name in
      freeze_active_files with_bloom rest (paths ++ [path])
  end.

(** [WalDir::recover_batched], once the directory exists. *)
Definition recover_batched (batch_bytes : Z) (with_bloom : bool) : Io WalRecovery :=
  let! listed := syscall (fun d =>
    (result_fold (classify (fun ino => blen (bytes_of ino d))) (dir_order (dk_root d)) ([], []), d)) in
  let '(paths, active) := listed in
  let! paths := freeze_active_files with_bloom (merge_sort path_le active) (merge_sort generation_le paths) in
  act_ret (recovery_new paths batch_bytes).

(** [WalDir::ensure_recovery_complete]. *)
Definition ensure_recovery_complete : Io unit :=
  syscall (fun d =>
    match List.find (fun '(name, _) => match wal_kind name with
                                       | Some SealedWal | Some RecoveryWal => true
                                       | _ => false
                                       end) (dir_order (dk_root d)) with
    | Some (name, _) => (Err (WalRecoveryIncomplete name), d)
    | None => (Ok (), d)
    end).

(** ** What a file holds *)

Inductive Ending := Clean | Torn | Bad (problem : Problem).

(** One payload behind its header, and what [rest] makes of the bytes behind it. *)
Definition parse_payload (rest : Z -> list Z -> list LogLine * Ending) (fails : bool) (header : Z * Z * Z)
    (pos : Z) (bytes : list Z) : list LogLine * Ending :=
  let '(len, crc, offset) := header in
  if MAX_RECORD_BYTES <? len then ([], Bad (RecordTooLong offset len))
  else if (length bytes <? Z.to_nat len)%nat then ([], if fails then Bad (PayloadUnreadable offset) else Torn)
  else
    let payload := take (Z.to_nat len) bytes in
    if negb (crc32 payload =? crc) then ([], Bad (ChecksumMismatch offset))
    else match line_from_slice payload with
         | None => ([], Bad (NotALogLine offset))
         | Some line => let '(lines, ending) := rest (pos + len) (drop (Z.to_nat len) bytes) in (line :: lines, ending)
         end.

Definition header_at (pos : Z) (bytes : list Z) : Z * Z * Z :=
  (from_le_bytes (take 4 bytes), from_le_bytes (take 4 (drop 4 bytes)), pos).

(** The records of [bytes], which an error follows if [fails]. *)
Fixpoint parse (fuel : nat) (fails : bool) (pos : Z) (bytes : list Z) : list LogLine * Ending :=
  match fuel, bytes with
  | O, _ => ([], Clean)
  | S fuel, [] => ([], if fails then Bad (HeaderUnreadable pos) else Clean)
  | S fuel, _ =>
      if (length bytes <? 8)%nat then ([], if fails then Bad (HeaderUnreadable pos) else Torn)
      else parse_payload (parse fuel fails) fails (header_at pos bytes) (pos + RECORD_HEADER_LEN) (drop 8 bytes)
  end.

Definition parse_all (fails : bool) (pos : Z) (bytes : list Z) : list LogLine * Ending :=
  parse (S (length bytes)) fails pos bytes.

Lemma parse_payload_ext rest rest' fails h pos bytes :
  (forall pos' bytes', (length bytes' <= length bytes)%nat -> rest pos' bytes' = rest' pos' bytes') ->
  parse_payload rest fails h pos bytes = parse_payload rest' fails h pos bytes.
Proof.
  intros Hr. unfold parse_payload. destruct h as [[len crc] off]. repeat case_match; try done.
  all: rewrite Hr in *; [congruence|]; rewrite length_drop; lia.
Qed.

Lemma parse_fuel fuel fuel' fails pos bytes :
  (length bytes < fuel)%nat -> (length bytes < fuel')%nat -> parse fuel fails pos bytes = parse fuel' fails pos bytes.
Proof.
  revert fuel' pos bytes. induction fuel as [|fuel IH]; intros [|fuel'] pos bytes Hf Hf'; [lia..|].
  cbn [parse]. destruct bytes as [|b bytes]; [done|]. case_match; [done|].
  apply parse_payload_ext. intros pos' bytes' Hl. rewrite length_drop in Hl. apply IH; simpl in *; lia.
Qed.

Lemma parse_all_unfold fails pos bytes :
  parse_all fails pos bytes =
  match bytes with
  | [] => ([], if fails then Bad (HeaderUnreadable pos) else Clean)
  | _ =>
      if (length bytes <? 8)%nat then ([], if fails then Bad (HeaderUnreadable pos) else Torn)
      else parse_payload (parse_all fails) fails (header_at pos bytes) (pos + RECORD_HEADER_LEN) (drop 8 bytes)
  end.
Proof.
  unfold parse_all at 1. cbn [parse]. destruct bytes as [|b bytes]; [done|].
  destruct (Nat.ltb_spec (length (b :: bytes)) 8); [done|]. apply parse_payload_ext. intros pos' bytes' Hl.
  rewrite length_drop in Hl. apply parse_fuel; lia.
Qed.

(** What is left to read of a file. *)
Definition unread (f : RecoveryFile) : list LogLine * Ending :=
  let r := rf_reader f in
  match rf_pending_header f with
  | Some h => parse_payload (parse_all (rd_fails r)) (rd_fails r) h (rf_offset f) (rd_bytes r)
  | None => parse_all (rd_fails r) (rf_offset f) (rd_bytes r)
  end.

Definition work (f : RecoveryFile) : nat :=
  length (rd_bytes (rf_reader f)) + (match rf_pending_header f with Some _ => 1 | None => 0 end).

Definition problem_of (e : Ending) : option Problem := match e with Bad p => Some p | _ => None end.

Lemma read_record_header_spec f :
  rf_pending_header f = None ->
  read_record_header f =
  match rd_bytes (rf_reader f) with
  | [] => (if rd_fails (rf_reader f) then Err (HeaderUnreadable (rf_offset f)) else Ok None, with_reader f (rf_reader f) (rf_offset f))
  | bytes =>
      if (length bytes <? 8)%nat
      then (if rd_fails (rf_reader f) then Err (HeaderUnreadable (rf_offset f)) else Ok None,
            with_reader f {| rd_bytes := []; rd_fails := rd_fails (rf_reader f) |} (rf_offset f))
      else (Ok (Some (header_at (rf_offset f) bytes)),
            with_reader f {| rd_bytes := drop 8 bytes; rd_fails := rd_fails (rf_reader f) |} (rf_offset f + RECORD_HEADER_LEN))
  end.
Proof.
  intros _. unfold read_record_header, read_one, read_exact. destruct (rf_reader f) as [[|b bytes] fails]; cbn [rd_bytes rd_fails].
  - by destruct fails.
  - change (length (b :: bytes)) with (S (length bytes)).
    destruct (Nat.leb_spec 7 (length bytes)), (Nat.ltb_spec (S (length bytes)) 8); try lia; [|by destruct fails].
    cbv zeta. unfold header_at. do 7 (destruct bytes as [|? bytes]; [simpl in *; lia|]). done.
Qed.

(** One round of the loop is one step of [unread]: a batch holds the next records, up to the end
    or up to a record that waits for the next batch. *)
Record batch_of (f : RecoveryFile) (lines : list LogLine) (start : option Z) (batch : Batch) (f' : RecoveryFile)
    (taken : list LogLine) : Prop := {
  bo_lines : bt_lines batch = lines ++ taken;
  bo_generation : rf_generation f' = rf_generation f;
  bo_batchable : rf_batchable f' = rf_batchable f;
  bo_records : rf_records f' = rf_records f + Z.of_nat (length taken);
  bo_start : (lines <> [] -> is_Some start) -> bt_lines batch <> [] -> is_Some (bt_start batch);
  bo_end : bt_reached_end batch = true -> exists e, unread f = (taken, e) /\ rf_unreadable f' = problem_of e;
  bo_more : bt_reached_end batch = false ->
    bt_lines batch <> [] /\ rf_unreadable f' = None /\ rf_batchable f = true /\
    (work f' + length taken <= work f)%nat /\ unread f = (taken ++ (unread f').1, (unread f').2)
}.

Lemma batch_of_stop f lines start start' f' e :
  (is_Some start -> is_Some start') ->
  unread f = ([], e) -> rf_unreadable f' = problem_of e -> rf_generation f' = rf_generation f ->
  rf_batchable f' = rf_batchable f -> rf_records f' = rf_records f ->
  batch_of f lines start {| bt_lines := lines; bt_start := start'; bt_reached_end := true |} f' [].
Proof. intros Hst Hu Hp Hg Hb Hr. split; simpl; eauto; [by rewrite app_nil_r|lia|done]. Qed.

(** Reading behind a header, with what the rest of the loop does. *)
Lemma read_record_spec again batch_bytes h f f1 lines pb start batch f' :
  (forall g lines' pb' start' batch g', (work g < work f)%nat -> rf_unreadable g = None ->
    again g lines' pb' start' = (batch, g') -> exists taken, batch_of g lines' start' batch g' taken) ->
  rf_pending_header f1 = None -> rf_unreadable f1 = None -> rf_generation f1 = rf_generation f ->
  rf_batchable f1 = rf_batchable f -> rf_records f1 = rf_records f -> (S (length (rd_bytes (rf_reader f1))) <= work f)%nat ->
  unread f = parse_payload (parse_all (rd_fails (rf_reader f1))) (rd_fails (rf_reader f1)) h (rf_offset f1) (rd_bytes (rf_reader f1)) ->
  read_record again batch_bytes h f1 lines pb start = (batch, f') ->
  exists taken, batch_of f lines start batch f' taken.
Proof.
  intros Hagain Hpend Hun Hg Hb Hr Hw Hu. destruct h as [[len crc] off]. unfold read_record, parse_payload in *.
  destruct (Z.ltb_spec MAX_RECORD_BYTES len).
  { intros [= <- <-]. exists []. by (eapply batch_of_stop; [by destruct start|..]). }
  destruct (rf_batchable f1 && _ && _) eqn:Hfull.
  { intros [= <- <-]. exists []. rewrite !andb_true_iff, negb_true_iff, bool_decide_eq_false in Hfull.
    destruct Hfull as [[Hbt Hne] _]. split; cbn [bt_lines bt_start bt_reached_end length]; [by rewrite app_nil_r|done|done| |naive_solver|done|].
    { cbn. lia. }
    intros _. split_and!; [done|done|congruence|unfold work at 1; simpl; lia|].
    assert (unread (with_pending f1 (Some (len, crc, off))) = unread f) as ->; [|by destruct (unread f)].
    rewrite Hu. unfold unread, parse_payload. cbn [with_pending rf_pending_header rf_reader rf_offset].
    destruct (Z.ltb_spec MAX_RECORD_BYTES len); [lia|done]. }
  clear Hfull. unfold read_exact. set (r1 := rf_reader f1) in *.
  destruct (Nat.leb_spec (Z.to_nat len) (length (rd_bytes r1))), (Nat.ltb_spec (length (rd_bytes r1)) (Z.to_nat len)); try lia.
  2:{ destruct (rd_fails r1); intros [= <- <-]; exists []; by (eapply batch_of_stop; [by destruct start|exact Hu|..]). }
  cbv zeta. destruct (negb _) eqn:Hcrc.
  { intros [= <- <-]. exists []. by (eapply batch_of_stop; [by destruct start|..]). }
  destruct (line_from_slice _) as [line|].
  2:{ intros [= <- <-]. exists []. by (eapply batch_of_stop; [by destruct start|..]). }
  intros Hrun. apply Hagain in Hrun as (taken & [Hl Hg' Hb' Hr' Hs He Hm]); [|unfold work in *; simpl in *|done].
  2:{ rewrite Hpend. rewrite length_drop. lia. }
  exists (line :: taken). destruct (parse_all _ _ (drop _ _)) as [ls e0] eqn:Hrest.
  assert (unread (count_record (with_reader f1 {| rd_bytes := drop (Z.to_nat len) (rd_bytes r1); rd_fails := rd_fails r1 |}
    (rf_offset f1 + len))) = (ls, e0)) as Hun'.
  { unfold unread. cbn. rewrite Hpend. exact Hrest. }
  rewrite Hun' in *. split; cbn [bt_lines bt_start bt_reached_end] in *.
  - by rewrite Hl, <- app_assoc.
  - by rewrite Hg'.
  - by rewrite Hb'.
  - rewrite Hr'. simpl. lia.
  - intros _ Hne. apply Hs; [|done]. intros _. by destruct start; eexists.
  - intros Hend. destruct (He Hend) as (e & [= -> ->] & Hp). exists e. by rewrite Hu.
  - intros Hend. destruct (Hm Hend) as (? & ? & ? & Hwk & Hsp). split_and!; [done|done| |unfold work in *; simpl in *|].
    + simpl in *. congruence.
    + rewrite Hpend in Hwk. rewrite length_drop in Hwk. lia.
    + rewrite Hu. injection Hsp as -> ->. done.
Qed.

Lemma read_batch_loop_spec fuel batch_bytes f lines pb start batch f' :
  (work f < fuel)%nat -> rf_unreadable f = None ->
  read_batch_loop fuel batch_bytes f lines pb start = (batch, f') ->
  exists taken, batch_of f lines start batch f' taken.
Proof.
  revert f lines pb start batch f'. induction fuel as [|fuel IH]; intros f lines pb start batch f' Hf Hun; [lia|].
  cbn [read_batch_loop]. cbv zeta.
  assert (forall g lines' pb' start' batch g', (work g < work f)%nat -> rf_unreadable g = None ->
    read_batch_loop fuel batch_bytes g lines' pb' start' = (batch, g') ->
    exists taken, batch_of g lines' start' batch g' taken) as Hagain.
  { intros. eapply IH; [|done..]. lia. }
  destruct (rf_pending_header f) as [h|] eqn:Hp.
  - eapply read_record_spec; try done; [unfold work; rewrite Hp; simpl; lia|]. unfold unread. by rewrite Hp.
  - rewrite read_record_header_spec by done. assert (Hu : unread f = parse_all (rd_fails (rf_reader f)) (rf_offset f) (rd_bytes (rf_reader f))).
    { unfold unread. by rewrite Hp. }
    rewrite parse_all_unfold in Hu. unfold work in Hagain, Hf. rewrite Hp in Hagain, Hf.
    destruct (rf_reader f) as [bytes fails] eqn:Hr. cbn [rd_bytes rd_fails] in *. destruct bytes as [|b bytes].
    { destruct fails; intros [= <- <-]; exists []; by (eapply batch_of_stop; [by destruct start|exact Hu|..]). }
    destruct (Nat.ltb_spec (length (b :: bytes)) 8).
    { destruct fails; intros [= <- <-]; exists []; by (eapply batch_of_stop; [by destruct start|exact Hu|..]). }
    eapply read_record_spec; try done; unfold work; rewrite Hp, Hr; cbn; [done|]. rewrite length_drop. simpl in *. lia.
Qed.

(** A batch of a file that is read for the first time or behind an earlier batch. *)
Lemma read_batch_spec f batch_bytes batch f' :
  rf_unreadable f = None -> read_batch f batch_bytes = (batch, f') -> exists taken, batch_of f [] None batch f' taken.
Proof. intros Hun. apply read_batch_loop_spec; [|done]. unfold work. case_match; lia. Qed.

(** ** The records a stream appends *)

(** A line that its JSON gives back and that fits a record. *)
Definition replayable (l : LogLine) : Prop :=
  exists payload, line_to_vec l = Some payload /\ line_from_slice payload = Some l /\ blen payload <= MAX_RECORD_BYTES.

Definition record_bytes (l : LogLine) : list Z := match line_to_vec l with Some payload => record_of payload | None => [] end.
Definition records (ls : list LogLine) : list Z := flat_map record_bytes ls.

(** The lines of a file, in order, up to the first record that cannot be read. *)
Definition file_lines (bytes : list Z) : list LogLine := (parse_all false 0 bytes).1.

(** Reading on never takes back a record that was read. *)
Lemma parse_prefix fails fails' pos pos' a b :
  (parse_all fails pos a).1 `prefix_of` (parse_all fails' pos' (a ++ b)).1.
Proof.
  remember (length a) as n eqn:Hn. revert pos pos' a Hn. induction n as [n IH] using lt_wf_ind. intros pos pos' a ->.
  rewrite (parse_all_unfold _ _ a), (parse_all_unfold _ _ (a ++ b)).
  destruct a as [|x a]; [apply prefix_nil|]. cbn [app]. change (x :: a ++ b) with ((x :: a) ++ b).
  set (l := x :: a) in *. destruct (Nat.ltb_spec (length l) 8); [apply prefix_nil|].
  destruct (Nat.ltb_spec (length (l ++ b)) 8) as [Hs|_]; [rewrite length_app in Hs; lia|].
  unfold header_at. rewrite !drop_app_le, !take_app_le by (rewrite ?length_drop; lia).
  unfold parse_payload. set (len := from_le_bytes (take 4 l)).
  destruct (MAX_RECORD_BYTES <? len); [apply prefix_nil|].
  destruct (Nat.ltb_spec (length (drop 8 l)) (Z.to_nat len)); [apply prefix_nil|].
  destruct (Nat.ltb_spec (length (drop 8 l ++ b)) (Z.to_nat len)) as [Hs|_]; [rewrite length_app in Hs; lia|].
  rewrite take_app_le, drop_app_le by lia. destruct (negb _); [apply prefix_nil|].
  destruct (line_from_slice _) as [line|]; [|apply prefix_nil].
  specialize (IH (length (drop (Z.to_nat len) (drop 8 l))) ltac:(rewrite !length_drop; lia)
    (pos + RECORD_HEADER_LEN + len) (pos' + RECORD_HEADER_LEN + len) _ eq_refl).
  destruct (parse_all fails _ _), (parse_all fails' _ _). cbn [fst] in *. by apply prefix_cons.
Qed.

Lemma file_lines_app a b : file_lines a `prefix_of` file_lines (a ++ b).
Proof. apply parse_prefix. Qed.

Lemma parse_lines fails pos bytes : (parse_all fails pos bytes).1 = file_lines bytes.
Proof.
  apply (anti_symm prefix).
  - rewrite <- (app_nil_r bytes) at 2. apply parse_prefix.
  - rewrite <- (app_nil_r bytes) at 2. apply parse_prefix.
Qed.

(** A record in front of anything is read and passed. *)
Lemma parse_record fails pos l rest :
  replayable l ->
  parse_all fails pos (record_bytes l ++ rest) =
    (l :: (parse_all fails (pos + blen (record_bytes l)) rest).1, (parse_all fails (pos + blen (record_bytes l)) rest).2).
Proof.
  intros (payload & Hv & Hs & Hmax). unfold record_bytes. rewrite Hv. unfold record_of.
  set (h1 := to_le_bytes 4 (blen payload)). set (h2 := to_le_bytes 4 (crc32 payload)).
  assert (length h1 = 4%nat) as H4 by apply length_to_le_bytes.
  assert (length h2 = 4%nat) as H5 by apply length_to_le_bytes.
  rewrite parse_all_unfold. destruct (((h1 ++ h2 ++ payload) ++ rest)) as [|x y] eqn:Hb.
  { apply (f_equal length) in Hb. rewrite !length_app in Hb. simpl in Hb. lia. }
  rewrite <- Hb. clear x y Hb. destruct (Nat.ltb_spec (length ((h1 ++ h2 ++ payload) ++ rest)) 8) as [Hl|_].
  { rewrite !length_app in Hl. lia. }
  unfold header_at. rewrite <- !app_assoc, take_app_length', drop_app_length', take_app_length' by lia.
  assert (drop 8 (h1 ++ h2 ++ payload ++ rest) = payload ++ rest) as ->.
  { rewrite app_assoc. apply drop_app_length'. rewrite length_app. lia. }
  pose proof (blen_nonneg payload) as Hnn. unfold MAX_RECORD_BYTES in Hmax.
  assert (from_le_bytes h1 = blen payload) as ->.
  { apply from_to_le_bytes. unfold fits. split; [lia|]. change (2 ^ (8 * Z.of_nat 4)) with 4294967296. lia. }
  assert (from_le_bytes h2 = crc32 payload) as ->.
  { apply from_to_le_bytes. apply crc32_fits. }
  unfold parse_payload, MAX_RECORD_BYTES. destruct (Z.ltb_spec (16 * 1024 * 1024) (blen payload)); [lia|].
  assert (Z.to_nat (blen payload) = length payload) as -> by (unfold blen; lia).
  destruct (Nat.ltb_spec (length (payload ++ rest)) (length payload)) as [Hl|_]; [rewrite length_app in Hl; lia|].
  rewrite take_app_length, drop_app_length, Z.eqb_refl. cbn [negb]. rewrite Hs.
  assert (blen (h1 ++ h2 ++ payload) = RECORD_HEADER_LEN + blen payload) as ->.
  { unfold RECORD_HEADER_LEN. rewrite !blen_app. unfold h1, h2. rewrite !blen_to_le_bytes. lia. }
  rewrite Z.add_assoc. by destruct (parse_all _ _ rest).
Qed.

Lemma parse_records fails pos ls rest :
  Forall replayable ls ->
  parse_all fails pos (records ls ++ rest) =
    (ls ++ (parse_all fails (pos + blen (records ls)) rest).1, (parse_all fails (pos + blen (records ls)) rest).2).
Proof.
  intros Hls. revert pos. induction Hls as [|l ls Hl Hls IH]; intros pos.
  - cbn [records flat_map app]. unfold blen. simpl. rewrite Z.add_0_r. by destruct (parse_all _ _ _).
  - cbn [records flat_map]. rewrite <- app_assoc, parse_record, IH by done. cbn [fst snd].
    rewrite blen_app, Z.add_assoc. done.
Qed.

Lemma file_lines_records ls : Forall replayable ls -> file_lines (records ls) = ls.
Proof.
  intros Hls. unfold file_lines. rewrite <- (app_nil_r (records ls)), parse_records by done. simpl. by rewrite app_nil_r.
Qed.

Lemma records_app a b : records (a ++ b) = records a ++ records b.
Proof. apply flat_map_app. Qed.

(** A file cut short inside the records it held: the whole records in front of the cut, and
    nothing that has to be deferred. *)
Lemma parse_torn_record l n pos :
  replayable l -> (n < length (record_bytes l))%nat ->
  (parse_all false pos (take n (record_bytes l))).1 = [] /\ problem_of (parse_all false pos (take n (record_bytes l))).2 = None.
Proof.
  intros (payload & Hv & Hs & Hmax) Hn. unfold record_bytes in *. rewrite Hv in *. unfold record_of in *.
  set (h1 := to_le_bytes 4 (blen payload)) in *. set (h2 := to_le_bytes 4 (crc32 payload)) in *.
  assert (length h1 = 4%nat) as H4 by apply length_to_le_bytes.
  assert (length h2 = 4%nat) as H5 by apply length_to_le_bytes.
  rewrite parse_all_unfold. destruct (take n (h1 ++ h2 ++ payload)) as [|x y] eqn:Hb; [done|]. rewrite <- Hb.
  destruct (Nat.ltb_spec (length (take n (h1 ++ h2 ++ payload))) 8) as [|Hl]; [done|].
  rewrite length_take, !length_app in Hl. rewrite !length_app in Hn.
  unfold header_at. rewrite take_take, (Nat.min_l 4 n) by lia. rewrite take_app_length' by lia.
  pose proof (blen_nonneg payload) as Hnn. unfold MAX_RECORD_BYTES in Hmax.
  assert (from_le_bytes h1 = blen payload) as ->.
  { apply from_to_le_bytes. unfold fits. split; [lia|]. change (2 ^ (8 * Z.of_nat 4)) with 4294967296. lia. }
  unfold parse_payload, MAX_RECORD_BYTES. destruct (Z.ltb_spec (16 * 1024 * 1024) (blen payload)); [lia|].
  assert (Z.to_nat (blen payload) = length payload) as -> by (unfold blen; lia).
  rewrite length_drop, length_take, !length_app.
  match goal with |- context [(?a <? ?b)%nat] => destruct (Nat.ltb_spec a b); [done|lia] end.
Qed.

Lemma parse_cut ls n pos :
  Forall replayable ls ->
  (parse_all false pos (take n (records ls))).1 `prefix_of` ls /\
  problem_of (parse_all false pos (take n (records ls))).2 = None /\
  forall k, (length (records (take k ls)) <= n)%nat -> take k ls `prefix_of` (parse_all false pos (take n (records ls))).1.
Proof.
  intros Hls. revert n pos. induction Hls as [|l ls Hl Hls IH]; intros n pos.
  - cbn [records flat_map]. rewrite take_nil. split_and!; [done|done|]. intros k _. by rewrite take_nil.
  - cbn [records flat_map]. fold (records ls). destruct (Nat.lt_ge_cases n (length (record_bytes l))) as [Hn|Hn].
    + rewrite take_app_le by lia. destruct (parse_torn_record l n pos Hl Hn) as [-> ->].
      split_and!; [apply prefix_nil|done|]. intros [|k]; [done|]. cbn [take records flat_map]. rewrite length_app. lia.
    + rewrite take_app_ge, parse_record by done. cbn [fst snd].
      destruct (IH (n - length (record_bytes l))%nat (pos + blen (record_bytes l))) as (H3 & H4 & H5).
      split_and!; [by apply prefix_cons|done|]. intros [|k]; [intros; apply prefix_nil|]. cbn [take records flat_map].
      rewrite length_app. fold (records (take k ls)). intros Hk. apply prefix_cons, H5. lia.
Qed.

(** Behind bytes that an error follows there is always something to defer for. *)
Lemma parse_fails pos bytes : exists p, (parse_all true pos bytes).2 = Bad p.
Proof.
  remember (length bytes) as n eqn:Hn. revert pos bytes Hn. induction n as [n IH] using lt_wf_ind. intros pos bytes ->.
  rewrite parse_all_unfold. destruct bytes as [|b bytes]; [by eexists|]. set (l := b :: bytes) in *.
  destruct (Nat.ltb_spec (length l) 8); [by eexists|]. unfold header_at, parse_payload. set (len := from_le_bytes (take 4 l)).
  case_match; [by eexists|]. case_match; [by eexists|]. case_match; [by eexists|]. case_match; [|by eexists].
  destruct (IH (length (drop (Z.to_nat len) (drop 8 l))) ltac:(rewrite !length_drop; lia) (pos + RECORD_HEADER_LEN + len) _ eq_refl) as [p Hp].
  exists p. by destruct (parse_all _ _ _).
Qed.

(** ** A file in batches *)

(** The batches of a file up to its end. *)
Inductive batches (batch_bytes : Z) : RecoveryFile -> list Batch -> RecoveryFile -> Prop :=
  | batches_end f b f' :
      read_batch f batch_bytes = (b, f') -> bt_reached_end b = true -> batches batch_bytes f [b] f'
  | batches_more f b f1 bs f' :
      read_batch f batch_bytes = (b, f1) -> bt_reached_end b = false -> bt_lines b <> [] ->
      batches batch_bytes f1 bs f' -> batches batch_bytes f (b :: bs) f'.

Lemma batches_exact batch_bytes f :
  rf_unreadable f = None ->
  exists bs f', batches batch_bytes f bs f' /\ concat (map bt_lines bs) = (unread f).1 /\
    rf_unreadable f' = problem_of (unread f).2 /\ rf_records f' = rf_records f + Z.of_nat (length (unread f).1) /\
    (rf_batchable f = false -> length bs = 1%nat).
Proof.
  remember (work f) as n eqn:Hn. revert f Hn. induction n as [n IH] using lt_wf_ind. intros f -> Hun.
  destruct (read_batch f batch_bytes) as [b f1] eqn:Hb. destruct (read_batch_spec _ _ _ _ Hun Hb) as (taken & Hof).
  destruct Hof as [Hl Hg Hbt Hr _ He Hm]. destruct (bt_reached_end b) eqn:Hend.
  - destruct (He eq_refl) as (e & Hu & Hp). exists [b], f1. rewrite Hu. cbn [map concat fst snd].
    rewrite app_nil_r. split_and!; [by apply batches_end|done|done|done|done].
  - destruct (Hm eq_refl) as (Hne & Hun1 & Hbt1 & Hw & Hu).
    assert (0 < length taken)%nat by (rewrite Hl in Hne; destruct taken; simpl in *; [done|lia]).
    destruct (IH (work f1) ltac:(lia) f1 eq_refl Hun1) as (bs & f' & Hbs & Hc & Hp & Hr' & Hone).
    exists (b :: bs), f'. rewrite Hu. cbn [map concat fst snd]. rewrite Hc, Hl, Hr', Hr, length_app.
    split_and!; [by eapply batches_more|done|done|lia|congruence].
Qed.

Lemma unread_file reader path with_bloom batchable :
  unread (recovery_file reader path with_bloom batchable) = parse_all (rd_fails reader) 0 (rd_bytes reader).
Proof. done. Qed.

(** C22: A write-ahead log file survives a crash that cut it anywhere: reading it back in batches of
    any size ends, gives whole records in the order they were appended and none twice, loses only
    records that the cut reaches into, and finds nothing that would defer the file. *)
Theorem wal_cut_replays ls n batch_bytes path with_bloom batchable :
  Forall replayable ls ->
  exists bs f', let lines := concat (map bt_lines bs) in
    batches batch_bytes (recovery_file {| rd_bytes := take n (records ls); rd_fails := false |} path with_bloom batchable) bs f' /\
    lines `prefix_of` ls /\ (forall k, (length (records (take k ls)) <= n)%nat -> take k ls `prefix_of` lines) /\
    rf_unreadable f' = None /\ rf_records f' = Z.of_nat (length lines).
Proof.
  intros Hls. set (f := recovery_file _ _ _ _).
  destruct (batches_exact batch_bytes f eq_refl) as (bs & f' & Hbs & Hc & Hp & Hr & _).
  exists bs, f'. cbv zeta. rewrite Hc, Hp, Hr. unfold f. rewrite unread_file. cbn [rd_fails rd_bytes].
  destruct (parse_cut ls n 0 Hls) as (H3 & H4 & H5). split_and!; [done|done|done|done|]. simpl. lia.
Qed.

End Streams.

(** ** A concrete instance: lines numbered by their countable encoding *)

#[local] Existing Instances nanos_chrono raw_json.

Definition level_code (l : LogLevel) : Z :=
  match l with Trace => 0 | Debug => 1 | Info => 2 | Warn => 3 | Error => 4 end.
Definition code_level (n : Z) : LogLevel :=
  if n =? 0 then Trace else if n =? 1 then Debug else if n =? 2 then Info else if n =? 3 then Warn else Error.
Definition stream_code (s : LogStream) : bool := match s with Stdout => true | Stderr => false end.
Definition code_stream (b : bool) : LogStream := if b then Stdout else Stderr.

Definition line_tuple (l : LogLine) :=
  ((ll_ts l : Z), stream_code (ll_stream l), level_code (ll_level l), ll_msg l, (ll_fields l : option (list Z)),
   (ll_container_id l, ll_service l, ll_env l, ll_project_id l, ll_external_service_id l,
    (ll_deploy_id l, ll_node_id l, ll_node_name l))).

Definition tuple_line (t : Z * bool * Z * list Z * option (list Z) *
    (string * string * string * Z * option Z * (option Z * option Z * option string))) : LogLine :=
  let '(ts, st, lv, msg, fields, (c, sv, env, p, x, (dp, n, nn))) := t in {|
    ll_ts := (ts : DateTime); ll_stream := code_stream st; ll_level := code_level lv; ll_msg := msg;
    ll_fields := (fields : option Value); ll_container_id := c; ll_service := sv; ll_env := env; ll_project_id := p;
    ll_external_service_id := x; ll_deploy_id := dp; ll_node_id := n; ll_node_name := nn |}.

Definition coded_line : LineJson := {|
  line_to_vec l := Some [Zpos (encode (line_tuple l))];
  line_from_slice b := match b with [Zpos p] => tuple_line <$> decode p | _ => None end
|}.

Lemma coded_replayable l : @replayable _ _ coded_line l.
Proof.
  exists [Zpos (encode (line_tuple l))]. split_and!; [done| |by vm_compute]. cbn [line_from_slice coded_line].
  rewrite decode_encode. cbn. by destruct l as [ts [] []].
Qed.

Lemma length_fits (bytes : list Z) : fits 32 (wrap 32 (blen bytes)).
Proof. apply wrap_fits. lia. Qed.
Definition length_crc : Crc32 := {| crc32 b := wrap 32 (blen b); crc32_fits := length_fits |}.

(** Two lines, cut inside the second record. *)
Lemma wal_cut_replays_witness : exists bs f',
  let ls := [sample_line 5 Info [104; 105] None; sample_line 6 Error [] None] in
  let lines := concat (map bt_lines bs) in
  @batches _ _ coded_line length_crc 1
    (recovery_file {| rd_bytes := take 12 (@records _ _ coded_line length_crc ls); rd_fails := false |} "c.u.b.recovery-wal" true true) bs f' /\
  lines `prefix_of` ls /\ take 1 ls `prefix_of` lines /\ rf_unreadable f' = None.
Proof.
  set (ls := [sample_line 5 Info [104; 105] None; sample_line 6 Error [] None]).
  destruct (@wal_cut_replays _ _ coded_line length_crc ls 12 1 "c.u.b.recovery-wal" true true
    ltac:(repeat constructor; apply coded_replayable)) as (bs & f' & H1 & H2 & H3 & H4 & _).
  exists bs, f'. cbv zeta. split_and!; [exact H1|exact H2| |exact H4].
  apply (H3 1%nat). vm_compute. lia.
Defined.
