(* ===== verification/WalDisk.v ===== *)
(** * What the calls of the write-ahead log leave on the disk

    Each operation of [Wal] as one of a few changes of the directory and of the inodes, whatever
    the faults, and the lines that are durable: those of the synced part of a file that a name
    leads to.  Only the removal of a file takes such lines away. *)

From S2P Require Import Prelude Bytes Utf8 ChunkBlock Bloom ChunkFile Wal.
Local Open Scope Z_scope.

(** ** The disk without its notes and faults *)

Definition core (d : Disk) : Disk :=
  {| dk_root := dk_root d; dk_deferred := dk_deferred d; dk_notes := ∅; dk_inodes := dk_inodes d; dk_next := dk_next d;
     dk_uuids := dk_uuids d; dk_faults := [] |}.

Lemma core_parts d d' :
  core d' = core d <->
  dk_root d' = dk_root d /\ dk_deferred d' = dk_deferred d /\ dk_inodes d' = dk_inodes d /\ dk_next d' = dk_next d /\
  dk_uuids d' = dk_uuids d.
Proof.
  split.
  - intros Hc. split_and!; [exact (f_equal dk_root Hc)|exact (f_equal dk_deferred Hc)|exact (f_equal dk_inodes Hc)
      |exact (f_equal dk_next Hc)|exact (f_equal dk_uuids Hc)].
  - intros (H1 & H2 & H3 & H4 & H5). unfold core. by rewrite H1, H2, H3, H4, H5.
Qed.

Lemma next_fault_core d r d' : next_fault d = (r, d') -> core d' = core d /\ is_ok r = true.
Proof. unfold next_fault. by destruct (dk_faults d) as [|f fs]; intros [= <- <-]. Qed.

Lemma syscall_cases {A} (m : Io A) d r d' :
  syscall m d = (r, d') ->
  (core d' = core d /\ r = Err IoFailed) \/ exists d1, core d1 = core d /\ m d1 = (r, d').
Proof.
  unfold syscall, act_bind. destruct (next_fault d) as [[f|e] d1] eqn:Hf; apply next_fault_core in Hf as [Hc Hok]; [|done].
  destruct f; [by right; exists d1|]. intros [= <- <-]. by left.
Qed.

(** A disk with other names, inodes or numbers. *)
Definition put_inode (d : Disk) (ino : nat) (i : Inode) : Disk := with_inodes d (<[ino := i]> (dk_inodes d)).
Definition move_root (d : Disk) (from to : string) (n : Node) : Disk := with_root d (<[to := n]> (delete from (dk_root d))).
Definition drop_root (d : Disk) (name : string) : Disk := with_root d (delete name (dk_root d)).
Definition move_deferred (d : Disk) (name : string) (n : Node) : Disk :=
  {| dk_root := delete name (dk_root d); dk_deferred := <[name := n]> (dk_deferred d); dk_notes := dk_notes d;
     dk_inodes := dk_inodes d; dk_next := dk_next d; dk_uuids := dk_uuids d; dk_faults := dk_faults d |}.
Definition create_root (d : Disk) (name : string) : Disk :=
  {| dk_root := <[name := Regular (dk_next d)]> (dk_root d); dk_deferred := dk_deferred d; dk_notes := dk_notes d;
     dk_inodes := <[dk_next d := {| in_bytes := []; in_synced := 0 |}]> (dk_inodes d); dk_next := S (dk_next d);
     dk_uuids := dk_uuids d; dk_faults := dk_faults d |}.
Definition draw_uuid (d : Disk) : Disk :=
  {| dk_root := dk_root d; dk_deferred := dk_deferred d; dk_notes := dk_notes d; dk_inodes := dk_inodes d;
     dk_next := dk_next d; dk_uuids := S (dk_uuids d); dk_faults := dk_faults d |}.

(** Turn an equation between cores into equations between the parts. *)
Ltac cores := repeat match goal with H : core _ = core _ |- _ => apply core_parts in H; destruct H as (? & ? & ? & ? & ?) end.
Ltac core_eq := apply core_parts; cbn in *; split_and!; congruence.

Lemma open_append_cases name d r d' :
  open_append name d = (r, d') ->
  (core d' = core d /\ is_ok r = false) \/
  (exists ino, r = Ok ino /\ dk_root d !! name = Some (Regular ino) /\ core d' = core d) \/
  (r = Ok (dk_next d) /\ dk_root d !! name = None /\ core d' = core (create_root d name)).
Proof.
  intros [[Hc ->]|(d1 & Hc & Hm)]%syscall_cases; [by left|]. cores.
  destruct (dk_root d1 !! name) as [[ino|]|] eqn:Hn; injection Hm as <- <-.
  - right. left. exists ino. split_and!; [done|congruence|core_eq].
  - left. split; [core_eq|done].
  - right. right. split_and!; [congruence|congruence|]. apply core_parts. unfold create_root. cbn. by split_and!; congruence.
Qed.

Lemma sync_data_cases ino d r d' :
  sync_data ino d = (r, d') ->
  (core d' = core d /\ (is_ok r = true -> dk_inodes d !! ino = None)) \/
  exists i, r = Ok () /\ dk_inodes d !! ino = Some i /\
    core d' = core (put_inode d ino {| in_bytes := in_bytes i; in_synced := length (in_bytes i) |}).
Proof.
  intros [[Hc ->]|(d1 & Hc & Hm)]%syscall_cases; [by left|]. cores.
  destruct (dk_inodes d1 !! ino) as [i|] eqn:Hi; injection Hm as <- <-.
  - right. exists i. split_and!; [done|congruence|core_eq].
  - left. split; [core_eq|congruence].
Qed.

Lemma write_all_cases ino data d r d' :
  write_all ino data d = (r, d') ->
  match dk_inodes d !! ino with
  | None => core d' = core d
  | Some i => exists n, core d' = core (put_inode d ino {| in_bytes := in_bytes i ++ take n data; in_synced := in_synced i |}) /\
      (is_ok r = true -> take n data = data)
  end.
Proof.
  unfold write_all, act_bind. destruct (next_fault d) as [[f|e] d1] eqn:Hf; apply next_fault_core in Hf as [Hc Hok]; [|done].
  apply core_parts in Hc as (Hr & Hd & Hi & Hx & Hv). rewrite <- Hi. intros Hm.
  destruct f as [|k]; injection Hm as <- <-; destruct (dk_inodes d1 !! ino) as [i|]; try (by core_eq).
  - exists (length data). rewrite take_ge by lia. split; [core_eq|done].
  - exists k. split; [core_eq|done].
Qed.

Lemma rename_cases from to d r d' :
  rename from to d = (r, d') ->
  (core d' = core d /\ is_ok r = false) \/
  exists n, r = Ok () /\ dk_root d !! from = Some n /\ core d' = core (move_root d from to n).
Proof.
  intros [[Hc ->]|(d1 & Hc & Hm)]%syscall_cases; [by left|]. cores.
  destruct (dk_root d1 !! from) as [n|] eqn:Hn; injection Hm as <- <-.
  - right. exists n. split_and!; [done|congruence|core_eq].
  - left. split; [core_eq|done].
Qed.

Lemma remove_file_cases name d r d' :
  remove_file name d = (r, d') ->
  (core d' = core d /\ is_ok r = false /\ (r = Err NotFound -> dk_root d !! name = None)) \/
  exists ino, r = Ok () /\ dk_root d !! name = Some (Regular ino) /\ core d' = core (drop_root d name).
Proof.
  intros [[Hc ->]|(d1 & Hc & Hm)]%syscall_cases; [by left|]. cores.
  destruct (dk_root d1 !! name) as [[ino|]|] eqn:Hn; injection Hm as <- <-.
  - right. exists ino. split_and!; [done|congruence|core_eq].
  - left. split_and!; [core_eq|done|done].
  - left. split_and!; [core_eq|done|congruence].
Qed.

Lemma sync_parent_core d r d' : sync_parent d = (r, d') -> core d' = core d.
Proof.
  intros [[Hc ->]|(d1 & Hc & Hm)]%syscall_cases; [done|]. injection Hm as <- <-. done.
Qed.

Lemma in_prefix {A} (x : A) l l' : l `prefix_of` l' -> x ∈ l -> x ∈ l'.
Proof. intros [r ->] Hx. apply elem_of_app. by left. Qed.

(** ** Names *)

Definition no_dot (s : string) : Prop := split_last_dot s = None.

Lemma split_at_dot a b : no_dot b -> split_last_dot (a +:+ "." +:+ b) = Some (a, b).
Proof.
  intros Hb. induction a as [|c a IH].
  - change ("" +:+ "." +:+ b)%string with (String "." b). cbn [split_last_dot]. by rewrite Hb.
  - change (String c a +:+ "." +:+ b)%string with (String c (a +:+ "." +:+ b)). cbn [split_last_dot]. by rewrite IH.
Qed.

Lemma sanitise_no_dot id : no_dot (sanitise id).
Proof.
  unfold no_dot. induction id as [|c id IH]; [done|]. cbn [sanitise split_last_dot]. rewrite IH.
  destruct (is_ascii_alphanumeric c || _ || _) eqn:Hc; [|done].
  destruct (Ascii.eqb_spec c "."); [|done]. subst c. vm_compute in Hc. done.
Qed.

Lemma sanitise_nil id : sanitise id = ""%string -> id = ""%string.
Proof. by destruct id. Qed.

Lemma name_parts_dot a b : a <> ""%string -> no_dot b -> b <> ""%string -> name_parts (a +:+ "." +:+ b) = (a, Some b).
Proof.
  intros Ha Hb Hbn. unfold name_parts. destruct (String.eqb_spec (a +:+ "." +:+ b) "..") as [He|_].
  - exfalso. apply (f_equal split_last_dot) in He. rewrite split_at_dot in He by done. vm_compute in He. congruence.
  - rewrite split_at_dot by done. by destruct (String.eqb_spec a "").
Qed.

(** The stem of the container and the UUID in a name. *)
Definition owner (name : string) : option string :=
  '(before, ext) ← split_last_dot name;
  if String.eqb ext "wal" then Some before
  else '(before, _) ← split_last_dot before; '(before, _) ← split_last_dot before; Some before.
Definition uuid_of (name : string) : option string :=
  '(before, ext) ← split_last_dot name;
  if String.eqb ext "wal" then None
  else '(before, _) ← split_last_dot before; '(_, uuid) ← split_last_dot before; Some uuid.

(** The UUIDs in names differ, and their text has no dot. *)
Class UuidLaws (uuid_text : nat -> string) : Prop := {
  uuid_inj m n : uuid_text m = uuid_text n -> m = n;
  uuid_no_dot n : no_dot (uuid_text n)
}.

Section Names.
Context (uuid_text : nat -> string) `{!UuidLaws uuid_text}.

(** The name a rotation or the start of a recovery gives a file. *)
Definition gen_path (id : string) (n : nat) (with_bloom : bool) (ext : string) : string :=
  sanitise id +:+ "." +:+ (uuid_text n +:+ "." +:+ (bloom_suffix with_bloom +:+ "." +:+ ext)).

Lemma file_stem_wal id : id <> ""%string -> file_stem (wal_file_name id) = sanitise id.
Proof.
  intros Hid. unfold file_stem, wal_file_name.
  change ".wal"%string with ("." +:+ "wal")%string. rewrite name_parts_dot; [done| |done|done].
  intros Hn. by apply Hid, sanitise_nil.
Qed.

Lemma extension_wal id : id <> ""%string -> extension (wal_file_name id) = Some "wal"%string.
Proof.
  intros Hid. unfold extension, wal_file_name.
  change ".wal"%string with ("." +:+ "wal")%string. rewrite name_parts_dot; [done| |done|done].
  intros Hn. by apply Hid, sanitise_nil.
Qed.

Lemma with_extension_wal id n wb ext :
  id <> ""%string ->
  with_extension (wal_file_name id) (uuid_text n +:+ "." +:+ bloom_suffix wb +:+ String "." ext) = gen_path id n wb ext.
Proof. intros Hid. unfold with_extension. by rewrite file_stem_wal. Qed.

Lemma string_assoc (a b c : string) : ((a +:+ b) +:+ c)%string = (a +:+ (b +:+ c))%string.
Proof. induction a as [|x a IH]; [done|]. exact (f_equal (String x) IH). Qed.

Lemma bloom_suffix_no_dot wb : no_dot (bloom_suffix wb).
Proof. by destruct wb. Qed.

Lemma gen_path_splits id n wb ext :
  no_dot ext ->
  split_last_dot (gen_path id n wb ext) = Some ((sanitise id +:+ "." +:+ uuid_text n) +:+ "." +:+ bloom_suffix wb, ext)%string /\
  split_last_dot ((sanitise id +:+ "." +:+ uuid_text n) +:+ "." +:+ bloom_suffix wb)
    = Some (sanitise id +:+ "." +:+ uuid_text n, bloom_suffix wb)%string /\
  split_last_dot (sanitise id +:+ "." +:+ uuid_text n)%string = Some (sanitise id, uuid_text n).
Proof.
  intros He. split_and!.
  - unfold gen_path. rewrite <- !string_assoc. rewrite string_assoc. by apply split_at_dot.
  - apply split_at_dot, bloom_suffix_no_dot.
  - by apply split_at_dot, uuid_no_dot.
Qed.

Lemma owner_wal id : owner (wal_file_name id) = Some (sanitise id) /\ uuid_of (wal_file_name id) = None.
Proof.
  unfold owner, uuid_of, wal_file_name. change ".wal"%string with ("." +:+ "wal")%string. by rewrite split_at_dot.
Qed.

Lemma string_length_app (a b : string) : String.length (a +:+ b) = (String.length a + String.length b)%nat.
Proof. induction a as [|c a IH]; [done|]. exact (f_equal S IH). Qed.

Definition generation_ext (ext : string) : Prop := ext = "sealed-wal"%string \/ ext = "recovery-wal"%string.

Lemma owner_gen id n wb ext :
  generation_ext ext -> owner (gen_path id n wb ext) = Some (sanitise id) /\ uuid_of (gen_path id n wb ext) = Some (uuid_text n).
Proof.
  intros Hext. assert (no_dot ext /\ String.eqb ext "wal" = false) as [Hn Hw] by (destruct Hext; subst ext; done).
  unfold owner, uuid_of. destruct (gen_path_splits id n wb ext Hn) as (-> & H2 & H3). cbn [mbind option_bind].
  rewrite Hw, H2. cbn [mbind option_bind]. rewrite H3. done.
Qed.

End Names.

(** A sealed or frozen file, by its extension. *)
Definition is_generation (name : string) : bool :=
  match wal_kind name with Some SealedWal | Some RecoveryWal => true | _ => false end.

Lemma active_no_generation id : is_generation (wal_file_name id) = false.
Proof.
  unfold is_generation, wal_kind. destruct (decide (id = ""%string)) as [->|Hid]; [done|]. by rewrite extension_wal.
Qed.

(** A name that recovery can replay. *)
Definition generation_name (name : string) : Prop := is_generation name = true /\ is_Some (bloom_choice name).

Lemma generation_name_dot before with_bloom ext :
  before <> ""%string -> generation_ext ext -> generation_name ((before +:+ "." +:+ bloom_suffix with_bloom) +:+ "." +:+ ext).
Proof.
  intros Hb Hext. assert (no_dot ext /\ ext <> ""%string) as [Hn He] by (by destruct Hext; subst ext).
  assert ((before +:+ "." +:+ bloom_suffix with_bloom)%string <> ""%string) as Hne by (by destruct before).
  unfold generation_name, is_generation, wal_kind, bloom_choice, extension, file_stem. rewrite name_parts_dot by done.
  cbn [fst snd]. split; [by destruct Hext; subst ext|]. unfold last_segment. rewrite split_at_dot by apply bloom_suffix_no_dot.
  by destruct with_bloom; eexists.
Qed.

Lemma gen_name uuid_text id n with_bloom ext : generation_ext ext -> generation_name (gen_path uuid_text id n with_bloom ext).
Proof.
  intros Hext. unfold gen_path. rewrite <- !string_assoc, (string_assoc _ "."%string ext), (string_assoc _ "."%string (bloom_suffix _)).
  apply generation_name_dot; [|done]. intros He%(f_equal String.length). rewrite !string_length_app in He. cbn in He. lia.
Qed.

Lemma gen_is_generation uuid_text id n with_bloom ext :
  generation_ext ext -> is_generation (gen_path uuid_text id n with_bloom ext) = true.
Proof. apply gen_name. Qed.

Lemma active_kind id : id <> ""%string -> wal_kind (wal_file_name id) = Some ActiveWal.
Proof. intros Hid. unfold wal_kind. by rewrite extension_wal. Qed.

Lemma active_uuid name : wal_kind name = Some ActiveWal -> uuid_of name = None.
Proof.
  unfold wal_kind, extension, name_parts, uuid_of. destruct (String.eqb name ".."); [done|].
  destruct (split_last_dot name) as [[before ext]|]; [|done]. destruct (String.eqb before ""); [done|]. cbn [snd].
  cbn [mbind option_bind]. destruct (String.eqb ext "wal"); [done|]. by repeat case_match.
Qed.

(** ** Well-formed disks and durable lines *)

Definition entry (d : Disk) (k : bool * string) : option Node := if k.1 then dk_deferred d !! k.2 else dk_root d !! k.2.

Section Durable.
Context (uuid_text : nat -> string) `{!UuidLaws uuid_text} `{LineJson} `{Crc32}.

(** The lines that are written. *)
Context (good : LogLine -> Prop).

(** A file that was cut somewhere in the records of such lines. *)
Definition file_ok (bytes : list Z) : Prop := exists ls n, Forall good ls /\ bytes = take n (records ls).

Lemma file_ok_records ls : Forall good ls -> file_ok (records ls).
Proof. intros Hls. exists ls, (length (records ls)). split; [done|]. by rewrite take_ge. Qed.

Record disk_ok (d : Disk) : Prop := {
  ok_ino k ino : entry d k = Some (Regular ino) -> is_Some (dk_inodes d !! ino) /\ (ino < dk_next d)%nat;
  ok_inj k k' ino : entry d k = Some (Regular ino) -> entry d k' = Some (Regular ino) -> k = k';
  ok_uuid k n : is_Some (entry d k) -> uuid_of k.2 = Some (uuid_text n) -> (n < dk_uuids d)%nat;
  ok_deferred name : is_Some (dk_deferred d !! name) -> is_Some (uuid_of name) /\ dk_root d !! name = None;
  ok_files ino i : dk_inodes d !! ino = Some i -> file_ok (in_bytes i);
  ok_kind k : is_Some (entry d k) -> wal_kind k.2 = Some ActiveWal \/ (generation_name k.2 /\ is_Some (uuid_of k.2));
  ok_regular k n : entry d k = Some n -> exists ino, n = Regular ino
}.

Lemma generation_uuid d : disk_ok d -> forall k, is_Some (entry d k) -> is_generation k.2 = true -> is_Some (uuid_of k.2).
Proof.
  intros Hok k Hk Hg. destruct (ok_kind d Hok k Hk) as [Ha|[_ ?]]; [|done]. unfold is_generation in Hg. by rewrite Ha in Hg.
Qed.

(** A line in the synced part of a file, in the directory or deferred. *)
Definition durable (d : Disk) (l : LogLine) : Prop :=
  exists k ino i, entry d k = Some (Regular ino) /\ dk_inodes d !! ino = Some i /\
    l ∈ file_lines (take (in_synced i) (in_bytes i)).

Definition more_synced (i i' : Inode) : Prop :=
  in_bytes i `prefix_of` in_bytes i' /\ take (in_synced i) (in_bytes i) `prefix_of` take (in_synced i') (in_bytes i').

(** The changes the operations are made of, with the names of the directory they concern. *)
Inductive change : Disk -> Disk -> (string -> Prop) -> Prop :=
  | ch_none d d' : core d' = core d -> change d d' (fun _ => False)
  | ch_write d d' name ino i i' :
      dk_root d !! name = Some (Regular ino) -> dk_inodes d !! ino = Some i -> more_synced i i' ->
      file_ok (in_bytes i') -> core d' = core (put_inode d ino i') -> change d d' (eq name)
  | ch_create d d' name :
      dk_root d !! name = None -> wal_kind name = Some ActiveWal ->
      core d' = core (create_root d name) -> change d d' (eq name)
  | ch_uuid d d' : core d' = core (draw_uuid d) -> change d d' (fun _ => False)
  | ch_move d d' from to n :
      dk_root d !! from = Some n -> uuid_of to = Some (uuid_text (dk_uuids d)) -> generation_name to ->
      core d' = core (draw_uuid (move_root d from to n)) -> change d d' (fun name => name = from \/ name = to)
  | ch_defer d d' name n :
      dk_root d !! name = Some n -> is_Some (uuid_of name) -> core d' = core (move_deferred d name n) -> change d d' (eq name).

(** Names that are not concerned keep their files. *)
Record frame (T : string -> Prop) (d d' : Disk) : Prop := {
  fr_root name : ~ T name -> dk_root d' !! name = dk_root d !! name;
  fr_inode name ino : ~ T name -> dk_root d !! name = Some (Regular ino) -> dk_inodes d' !! ino = dk_inodes d !! ino;
  fr_uuids : (dk_uuids d <= dk_uuids d')%nat
}.

Lemma entry_core d d' k : core d' = core d -> entry d' k = entry d k.
Proof. intros Hc. cores. unfold entry. destruct k as [[] name]; simpl; congruence. Qed.

(** A name with a UUID that was not drawn yet leads nowhere. *)
Lemma fresh_name d name :
  disk_ok d -> uuid_of name = Some (uuid_text (dk_uuids d)) -> dk_root d !! name = None /\ dk_deferred d !! name = None.
Proof.
  intros Hok Hu. split.
  - destruct (dk_root d !! name) eqn:Hr; [|done].
    pose proof (ok_uuid d Hok (false, name) (dk_uuids d) ltac:(by eexists) Hu). lia.
  - destruct (dk_deferred d !! name) eqn:Hr; [|done].
    pose proof (ok_uuid d Hok (true, name) (dk_uuids d) ltac:(by eexists) Hu). lia.
Qed.

Lemma change_frame d d' T : disk_ok d -> change d d' T -> frame T d d'.
Proof.
  intros Hok Hc. destruct Hc as [d d' Hc|d d' name ino i i' Hn Hi Hm Hfo Hc|d d' name Hn Hkn Hc|d d' Hc|d d' from to n Hn Hu Hgt Hc
    |d d' name n Hn Hu Hc]; apply core_parts in Hc as (Hr & Hd & Hi' & Hx & Hv); split; intros;
    rewrite ?Hr, ?Hi', ?Hv; cbn; try done; try lia.
  - rewrite lookup_insert_ne; [done|]. intros <-.
    pose proof (ok_inj d Hok (false, name0) (false, name) _ ltac:(eassumption) Hn). naive_solver.
  - by rewrite lookup_insert_ne.
  - rewrite lookup_insert_ne; [done|]. intros <-.
    pose proof (ok_ino d Hok (false, name0) _ ltac:(eassumption)). lia.
  - rewrite lookup_insert_ne, lookup_delete_ne by naive_solver. done.
  - by rewrite lookup_delete_ne.
Qed.

Lemma disk_ok_core d d' : core d' = core d -> disk_ok d -> disk_ok d'.
Proof.
  intros Hc Hok. pose proof (fun k => entry_core _ _ k Hc) as He. apply core_parts in Hc as (Hr & Hd & Hi & Hx & Hv). split.
  - intros k ino Hk. rewrite He in Hk. rewrite Hi, Hx. by apply (ok_ino d Hok k).
  - intros k k' ino Hk Hk'. rewrite He in Hk, Hk'. by eapply (ok_inj d Hok).
  - intros k n Hk Hu. rewrite He in Hk. rewrite Hv. by eapply (ok_uuid d Hok).
  - intros name Hn. rewrite Hd in Hn. rewrite Hr. by apply (ok_deferred d Hok).
  - intros ino i. rewrite Hi. apply (ok_files d Hok).
  - intros k Hk. rewrite He in Hk. by apply (ok_kind d Hok).
  - intros k n Hk. rewrite He in Hk. by apply (ok_regular d Hok k).
Qed.

(** A disk whose names are some of the names of another, under which they lead to the same nodes. *)
Lemma disk_ok_fewer d d' :
  disk_ok d -> (forall k n, entry d' k = Some n -> entry d k = Some n) ->
  (forall ino, is_Some (dk_inodes d !! ino) -> is_Some (dk_inodes d' !! ino)) ->
  (forall ino i, dk_inodes d' !! ino = Some i -> file_ok (in_bytes i)) ->
  dk_next d' = dk_next d -> (dk_uuids d <= dk_uuids d')%nat -> disk_ok d'.
Proof.
  intros Hok He Hi Hfiles Hx Hv. split; [..|done| |].
  - intros k ino Hk. apply He in Hk. destruct (ok_ino d Hok _ _ Hk). rewrite Hx. eauto.
  - intros k k' ino Hk Hk'. eapply (ok_inj d Hok); eauto.
  - intros k n [x Hk] Hu. apply He in Hk. pose proof (ok_uuid d Hok k n ltac:(by eexists) Hu). lia.
  - intros name [x Hn]. apply (He (true, name)) in Hn. destruct (ok_deferred d Hok name ltac:(by eexists)) as [Hu Hr].
    split; [done|]. destruct (dk_root d' !! name) as [y|] eqn:Hy; [|done]. apply (He (false, name)) in Hy.
    unfold entry in Hy. simpl in Hy. congruence.
  - intros k [x Hk]. apply (ok_kind d Hok). eauto.
  - intros k n Hk. eapply (ok_regular d Hok k). eauto.
Qed.

(** A node that gets another name, which has not been used. *)
Lemma disk_ok_moved d d' k k' n :
  disk_ok d -> entry d k = Some n -> generation_name k'.2 -> is_Some (uuid_of k'.2) ->
  (forall m, uuid_of k'.2 = Some (uuid_text m) -> (m < dk_uuids d')%nat) ->
  (k'.1 = true -> k = (false, k'.2)) -> (k'.1 = false -> dk_deferred d !! k'.2 = None) -> k.1 = false ->
  (forall j, entry d' j = if decide (j = k') then Some n else if decide (j = k) then None else entry d j) ->
  dk_inodes d' = dk_inodes d -> dk_next d' = dk_next d -> (dk_uuids d <= dk_uuids d')%nat -> disk_ok d'.
Proof.
  intros Hok Hk Hgen Huu Hu Htrue Hfalse Hk1 He Hi Hx Hv.
  assert (forall j x, entry d' j = Some x -> (j = k' /\ x = n) \/ (j <> k' /\ j <> k /\ entry d j = Some x)) as Hin.
  { intros j x Hj. rewrite He in Hj. destruct (decide (j = k')); [left; by simplify_eq|]. destruct (decide (j = k)); [done|]. by right. }
  split.
  - intros j ino [[-> Hn]|(_ & _ & Hj)]%Hin; rewrite Hi, Hx; [subst n; by eapply (ok_ino d Hok)|by eapply (ok_ino d Hok)].
  - intros j j' ino [[-> Hn]|(? & ? & Hj)]%Hin [[-> Hn']|(? & ? & Hj')]%Hin; [done| | |by eapply (ok_inj d Hok)].
    + subst n. by pose proof (ok_inj d Hok _ _ _ Hk Hj').
    + subst n. by pose proof (ok_inj d Hok _ _ _ Hk Hj).
  - intros j m [x [[-> _]|(_ & _ & Hj)]%Hin] Hum; [by apply Hu|].
    pose proof (ok_uuid d Hok j m ltac:(by eexists) Hum). lia.
  - intros name [x Hn]. apply (Hin (true, name)) in Hn as [[<- _]|(Hne & _ & Hj)].
    + split; [done|]. change (entry d' (false, name) = None). rewrite He. specialize (Htrue eq_refl). simpl in Htrue. subst k.
      rewrite decide_False by done. by rewrite decide_True.
    + destruct (ok_deferred d Hok name ltac:(by eexists)) as [Hd Hr]. split; [done|].
      change (entry d' (false, name) = None). rewrite He. destruct (decide ((false, name) = k')) as [Heq|].
      { subst k'. simpl in *. specialize (Hfalse eq_refl). unfold entry in Hj. simpl in Hj. congruence. }
      by destruct (decide ((false, name) = k)).
  - intros ino i. rewrite Hi. apply (ok_files d Hok).
  - intros j [x [[-> _]|(_ & _ & Hj)]%Hin]; [by right|]. apply (ok_kind d Hok). eauto.
  - intros j x [[-> ->]|(_ & _ & Hj)]%Hin; by eapply (ok_regular d Hok).
Qed.

Lemma change_ok d d' T : disk_ok d -> change d d' T -> disk_ok d'.
Proof.
  intros Hok Hc. destruct Hc as [d d' Hc|d d' name ino i i' Hn Hi Hm Hfo Hc|d d' name Hn Hkn Hc|d d' Hc|d d' from to n Hn Hu Hgt Hc
    |d d' name n Hn Hu Hc]; (eapply disk_ok_core; [exact Hc|]).
  - done.
  - apply (disk_ok_fewer d); try done; cbn.
    + intros j Hj. by apply lookup_insert_is_Some'; right.
    + intros j x [[_ <-]|[_ Hx]]%lookup_insert_Some; [done|]. by eapply (ok_files d Hok).
  - split; cbn.
    + intros [[] j] ino Hj; cbn in *; [|apply lookup_insert_Some in Hj as [[<- [= <-]]|[Hj1 Hj]]].
      * pose proof (ok_ino d Hok (true, j) _ Hj) as [? ?]. split; [by apply lookup_insert_is_Some'; right|lia].
      * rewrite lookup_insert_eq. split; [by eexists|lia].
      * pose proof (ok_ino d Hok (false, j) _ Hj) as [? ?]. split; [by apply lookup_insert_is_Some'; right|lia].
    + assert (forall k, entry d k <> Some (Regular (dk_next d))) as Hfresh.
      { intros k Hk. pose proof (ok_ino d Hok _ _ Hk). lia. }
      intros [[] j] [[] j'] ino Hj Hj'; cbn in *; rewrite ?lookup_insert_Some in *;
        repeat match goal with H : _ \/ _ |- _ => destruct H | H : _ /\ _ |- _ => destruct H end; simplify_eq; try done.
      all: first
        [ exfalso; eapply (Hfresh (true, _)); unfold entry; cbn; eassumption
        | exfalso; eapply (Hfresh (false, _)); unfold entry; cbn; eassumption
        | eapply (ok_inj d Hok (true, _) (true, _)); unfold entry; cbn; eassumption
        | eapply (ok_inj d Hok (true, _) (false, _)); unfold entry; cbn; eassumption
        | eapply (ok_inj d Hok (false, _) (true, _)); unfold entry; cbn; eassumption
        | eapply (ok_inj d Hok (false, _) (false, _)); unfold entry; cbn; eassumption ].
    + intros [[] j] m [x Hx] Hum; unfold entry in Hx; cbn [fst snd create_root dk_root dk_deferred] in Hx, Hum; [by apply (ok_uuid d Hok (true, j)); [eexists|]|].
      apply lookup_insert_Some in Hx as [[<- _]|[_ Hx]]; [rewrite (active_uuid _ Hkn) in Hum; done|]. by apply (ok_uuid d Hok (false, j)); [eexists|].
    + intros j Hj. destruct (ok_deferred d Hok j Hj) as [Hd Hr]. split; [done|].
      rewrite lookup_insert_ne; [done|]. intros <-. rewrite (active_uuid _ Hkn) in Hd. by destruct Hd.
    + intros j x [[_ <-]|[_ Hx]]%lookup_insert_Some; [by apply (file_ok_records [])|]. by eapply (ok_files d Hok).
    + intros [[] j] [x Hx]; unfold entry in Hx; cbn in Hx; [by apply (ok_kind d Hok (true, j)); eexists|].
      apply lookup_insert_Some in Hx as [[<- _]|[_ Hx]]; [by left|]. by apply (ok_kind d Hok (false, j)); eexists.
    + intros [[] j] x Hx; unfold entry in Hx; cbn in Hx; [by apply (ok_regular d Hok (true, j))|].
      apply lookup_insert_Some in Hx as [[_ <-]|[_ Hx]]; [by eexists|]. by apply (ok_regular d Hok (false, j)).
  - apply (disk_ok_fewer d); try done; [apply (ok_files d Hok)|cbn; lia].
  - destruct (fresh_name d to Hok Hu) as [Hto Hto'].
    apply (disk_ok_moved d _ (false, from) (false, to) n); try done; try (cbn; lia).
    + intros m Hm. cbn [snd] in Hm. rewrite Hu in Hm. simplify_eq. apply uuid_inj in Hm. cbn. lia.
    + intros [[] j]; cbn; [done|]. destruct (decide _) as [[= ->]|Hne]; [by rewrite lookup_insert_eq|].
      rewrite lookup_insert_ne by congruence. destruct (decide _) as [[= ->]|]; [by rewrite lookup_delete_eq|].
      by rewrite lookup_delete_ne by congruence.
  - apply (disk_ok_moved d _ (false, name) (true, name) n); try done; try (cbn; lia).
    + destruct (ok_kind d Hok (false, name) ltac:(by eexists)) as [Ha|[? _]]; [|done]. cbn [snd] in Ha. rewrite (active_uuid _ Ha) in Hu. by destruct Hu.
    + intros m Hm. cbn. by apply (ok_uuid d Hok (false, name)); [eexists|].
    + intros [[] j]; cbn.
      * destruct (decide _) as [[= ->]|Hne]; [by rewrite lookup_insert_eq|]. by rewrite lookup_insert_ne by congruence.
      * destruct (decide ((false, j) = (true, name))); [done|]. destruct (decide _) as [[= ->]|]; [by rewrite lookup_delete_eq|].
        by rewrite lookup_delete_ne by congruence.
Qed.

Lemma file_lines_prefix a b : a `prefix_of` b -> file_lines a `prefix_of` file_lines b.
Proof. intros [r ->]. apply file_lines_app. Qed.

Lemma change_durable d d' T l : disk_ok d -> change d d' T -> durable d l -> durable d' l.
Proof.
  intros Hok Hc (k & j & x & Hk & Hj & Hl).
  destruct Hc as [d d' Hc|d d' name ino i i' Hn Hi Hm Hfo Hc|d d' name Hn Hkn Hc|d d' Hc|d d' from to n Hn Hu Hgt Hc
    |d d' name n Hn Hu Hc]; pose proof (entry_core _ _ k Hc) as He; apply core_parts in Hc as (Hr & Hd & Hi' & Hx & Hv).
  - exists k, j, x. by rewrite He, Hi'.
  - destruct (decide (j = ino)) as [->|Hne].
    + exists k, ino, i'. rewrite He, Hi'. cbn. rewrite lookup_insert_eq. split_and!; [done|done|].
      simplify_eq. eapply in_prefix; [|done]. apply file_lines_prefix, Hm.
    + exists k, j, x. rewrite He, Hi'. cbn. by rewrite lookup_insert_ne.
  - exists k, j, x. rewrite He, Hi'. cbn. pose proof (ok_ino d Hok _ _ Hk). rewrite lookup_insert_ne by lia.
    split_and!; [|done|done]. unfold entry in *. destruct k as [[] nm]; cbn in *; [done|]. rewrite lookup_insert_ne; [done|congruence].
  - exists k, j, x. by rewrite He, Hi'.
  - destruct (fresh_name d to Hok Hu) as [Hto Hto']. destruct (decide (k = (false, from))) as [->|Hne].
    + exists (false, to), j, x. rewrite Hi'. split_and!; [|done|done]. unfold entry in *. cbn in *. rewrite Hr. cbn.
      rewrite lookup_insert_eq. congruence.
    + exists k, j, x. rewrite He, Hi'. split_and!; [|done|done]. unfold entry in *. destruct k as [[] nm]; cbn in *; [done|].
      rewrite lookup_insert_ne, lookup_delete_ne by congruence. done.
  - destruct (decide (k = (false, name))) as [->|Hne].
    + exists (true, name), j, x. rewrite Hi'. split_and!; [|done|done]. unfold entry in *. cbn in *. rewrite Hd. cbn.
      rewrite lookup_insert_eq. congruence.
    + exists k, j, x. rewrite He, Hi'. split_and!; [|done|done]. unfold entry in *. destruct k as [[] nm]; cbn in *.
      * rewrite lookup_insert_ne; [done|]. intros <-. pose proof (ok_deferred d Hok name ltac:(by eexists)) as [_ ?]. congruence.
      * rewrite lookup_delete_ne by congruence. done.
Qed.

(** A change of the names [T] that keeps the disk well-formed and every durable line. *)
Record evolves (T : string -> Prop) (d d' : Disk) : Prop := {
  ev_ok : disk_ok d';
  ev_frame : frame T d d';
  ev_durable l : durable d l -> durable d' l
}.

Lemma change_evolves d d' T : disk_ok d -> change d d' T -> evolves T d d'.
Proof. intros Hok Hc. split; [by eapply change_ok|by apply change_frame|]. intros l. by eapply change_durable. Qed.

Lemma evolves_mono (T T' : string -> Prop) d d' : (forall name, T name -> T' name) -> evolves T d d' -> evolves T' d d'.
Proof.
  intros HT [Hok [Hr Hi Hu] Hd]. split; [done| |done].
  split; [intros name Hn; apply Hr; eauto|intros name ino Hn; apply Hi; eauto|done].
Qed.

Lemma evolves_trans T d d1 d2 : evolves T d d1 -> evolves T d1 d2 -> evolves T d d2.
Proof.
  intros [_ [Hr Hi Hu] Hd] [Hok [Hr' Hi' Hu'] Hd']. split; [done| |eauto]. split; [|intros name ino Hn Hx|lia].
  - intros name Hn. by rewrite Hr', Hr.
  - rewrite (Hi' name), (Hi name); [done|done|done|done|]. by rewrite Hr.
Qed.

Lemma evolves_core T d d' : disk_ok d -> core d' = core d -> evolves T d d'.
Proof. intros Hok Hc. eapply evolves_mono; [|by apply change_evolves, ch_none]. done. Qed.

(** The removal of a name: only its file's lines are gone. *)
Lemma drop_ok d d' name : disk_ok d -> core d' = core (drop_root d name) -> disk_ok d'.
Proof.
  intros Hok Hc. eapply disk_ok_core; [exact Hc|]. apply (disk_ok_fewer d); try done; [|apply (ok_files d Hok)].
  intros [[] j] x; cbn; [done|]. by intros [_ ?]%lookup_delete_Some.
Qed.

Lemma drop_frame d d' name : core d' = core (drop_root d name) -> frame (eq name) d d'.
Proof.
  intros (Hr & Hd & Hi & Hx & Hv)%core_parts. split; intros; rewrite ?Hr, ?Hi, ?Hv; cbn; [by rewrite lookup_delete_ne|done|done].
Qed.

Lemma drop_durable d d' name l :
  core d' = core (drop_root d name) -> durable d l ->
  durable d' l \/ exists ino i, dk_root d !! name = Some (Regular ino) /\ dk_inodes d !! ino = Some i /\ l ∈ file_lines (in_bytes i).
Proof.
  intros Hc (k & j & x & Hk & Hj & Hl). pose proof (entry_core _ _ k Hc) as He. apply core_parts in Hc as (Hr & Hd & Hi & Hx & Hv).
  destruct (decide (k = (false, name))) as [->|Hne].
  - right. exists j, x. split_and!; [done|done|]. eapply in_prefix; [|done]. apply file_lines_prefix, prefix_take.
  - left. exists k, j, x. rewrite He, Hi. split_and!; [|done|done]. unfold entry in *. destruct k as [[] nm]; cbn in *; [done|].
    rewrite lookup_delete_ne by congruence. done.
Qed.

(** ** Streams *)

Lemma append_frozen w l d r w' d' : wal_append w l d = (r, w', d') -> sw_frozen w' = sw_frozen w.
Proof.
  unfold wal_append. intros Hrun. repeat case_match; by injection Hrun as _ <- _.
Qed.

Lemma rotate_fresh w with_bloom d g w' d' : wal_rotate uuid_text w with_bloom d = (Ok g, w', d') -> sw_frozen w' = None.
Proof. unfold wal_rotate. intros Hrun. repeat case_match; try discriminate; by injection Hrun as _ <- _. Qed.

Lemma stream_open id d w d' : wal_stream id d = (Ok w, d') -> sw_frozen w = None.
Proof. intros (ino & d1 & _ & (n & d2 & _ & Hr)%act_bind_Ok)%act_bind_Ok. by injection Hr as <- _. Qed.


Definition holds_at (d : Disk) (name : string) (ls : list LogLine) : Prop :=
  exists ino i, dk_root d !! name = Some (Regular ino) /\ dk_inodes d !! ino = Some i /\ in_bytes i = records ls.

(** A generation of a container that was rotated with these lines. *)
Definition gen_ok (id : string) (d : Disk) (g : WalGeneration) (ls : list LogLine) : Prop :=
  exists n wb, wg_path g = gen_path uuid_text id n wb "sealed-wal" /\ (n < dk_uuids d)%nat /\ wg_after_commit g = Remove /\
    holds_at d (wg_path g) ls.

Definition active_empty (id : string) (d : Disk) : Prop :=
  dk_root d !! wal_file_name id = None \/ holds_at d (wal_file_name id) [].

(** A stream whose unsealed lines are [ls]: open, or frozen by a rotation that was interrupted. *)
Definition stream_ok (id : string) (d : Disk) (w : StreamWal) (ls : list LogLine) : Prop :=
  sw_path w = wal_file_name id /\
  match sw_frozen w with
  | None => exists ino i, sw_writer w = Some ino /\ dk_root d !! wal_file_name id = Some (Regular ino) /\
              dk_inodes d !! ino = Some i /\ in_bytes i = records ls
  | Some g => sw_writer w = None /\ gen_ok id d g ls /\ active_empty id d
  end.

Lemma holds_at_frame T d d' name ls : frame T d d' -> ~ T name -> holds_at d name ls -> holds_at d' name ls.
Proof.
  intros Hf Hn (ino & i & Hr & Hi & Hb). exists ino, i. rewrite (fr_root _ _ _ Hf) by done.
  by rewrite (fr_inode _ _ _ Hf name).
Qed.

Lemma gen_ok_frame T id d d' g ls : frame T d d' -> ~ T (wg_path g) -> gen_ok id d g ls -> gen_ok id d' g ls.
Proof.
  intros Hf Hn (n & wb & Hp & Hu & Ha & Hh). exists n, wb. pose proof (fr_uuids _ _ _ Hf).
  split_and!; [done|lia|done|by eapply holds_at_frame].
Qed.

Lemma active_empty_frame T id d d' : frame T d d' -> ~ T (wal_file_name id) -> active_empty id d -> active_empty id d'.
Proof.
  intros Hf Hn [Hr|Hh]; [left; by rewrite (fr_root _ _ _ Hf)|right; by eapply holds_at_frame].
Qed.

(** An open stream depends on its own file only. *)
Lemma stream_open_frame T id d d' w ls :
  frame T d d' -> ~ T (wal_file_name id) -> sw_frozen w = None -> stream_ok id d w ls -> stream_ok id d' w ls.
Proof.
  intros Hf Hna Hn [Hp Hs]. split; [done|]. rewrite Hn in *. destruct Hs as (ino & i & Hw & Hr & Hi & Hb). exists ino, i.
  rewrite (fr_root _ _ _ Hf), (fr_inode _ _ _ Hf (wal_file_name id)) by done. done.
Qed.

(** A stream without unsealed lines has an empty active file. *)
Lemma stream_ok_empty id d w : stream_ok id d w [] -> active_empty id d.
Proof.
  intros [_ Hs]. destruct (sw_frozen w) as [g|]; [apply Hs|]. destruct Hs as (ino & i & _ & Hr & Hi & Hb). right. by exists ino, i.
Qed.

Lemma stream_ok_frame T id d d' w ls :
  frame T d d' -> ~ T (wal_file_name id) -> (forall n wb, (n < dk_uuids d)%nat -> ~ T (gen_path uuid_text id n wb "sealed-wal")) ->
  stream_ok id d w ls -> stream_ok id d' w ls.
Proof.
  intros Hf Hna Hng [Hp Hs]. split; [done|]. destruct (sw_frozen w) as [g|].
  - destruct Hs as (Hw & Hg & Ha). split_and!; [done| |by eapply active_empty_frame].
    eapply gen_ok_frame; [done| |done]. destruct Hg as (n & wb & -> & Hn & _). by apply Hng.
  - destruct Hs as (ino & i & Hw & Hr & Hi & Hb). exists ino, i.
    rewrite (fr_root _ _ _ Hf) by done. by rewrite (fr_inode _ _ _ Hf (wal_file_name id)).
Qed.

Lemma active_empty_core id d d' : core d' = core d -> active_empty id d -> active_empty id d'.
Proof. intros (Hr & _ & Hi & _)%core_parts. unfold active_empty, holds_at. by rewrite Hr, Hi. Qed.

(** Opening the active file of a container that has no line in it. *)
Lemma open_active_ok id d r d' :
  id <> ""%string -> disk_ok d -> active_empty id d -> open_append (wal_file_name id) d = (r, d') ->
  evolves (eq (wal_file_name id)) d d' /\ active_empty id d' /\
  (forall ino, r = Ok ino -> dk_root d' !! wal_file_name id = Some (Regular ino) /\
     exists i, dk_inodes d' !! ino = Some i /\ in_bytes i = records []).
Proof.
  intros Hid Hok Ha [[Hc Hr]|[(ino & -> & Hr & Hc)|(-> & Hr & Hc)]]%open_append_cases.
  - split_and!; [by apply evolves_core|by eapply active_empty_core|]. by intros ino ->.
  - split_and!; [by apply evolves_core|by eapply active_empty_core|]. intros ino' [= <-].
    apply core_parts in Hc as (Hr1 & _ & Hi1 & _). rewrite Hr1, Hi1. split; [done|].
    destruct Ha as [Ha|(ino' & i & Hr' & Hi & Hb)]; [congruence|]. exists i. split; [congruence|done].
  - assert (evolves (eq (wal_file_name id)) d d') as Hev.
    { eapply change_evolves; [done|]. eapply ch_create; [done|by apply active_kind|done]. }
    apply core_parts in Hc as (Hr1 & _ & Hi1 & _).
    assert (dk_root d' !! wal_file_name id = Some (Regular (dk_next d)) /\
      exists i, dk_inodes d' !! dk_next d = Some i /\ in_bytes i = records []) as [Hx (i & Hi & Hb)].
    { rewrite Hr1, Hi1. cbn. rewrite !lookup_insert_eq. split; [done|]. by eexists. }
    split_and!; [done|right; by exists (dk_next d), i|]. intros ino [= <-]. split; [done|by exists i].
Qed.

Lemma wal_stream_ok id d r d' :
  id <> ""%string -> disk_ok d -> active_empty id d -> wal_stream id d = (r, d') ->
  evolves (eq (wal_file_name id)) d d' /\ active_empty id d' /\ (forall w, r = Ok w -> stream_ok id d' w []).
Proof.
  intros Hid Hok Ha. unfold wal_stream, act_bind. destruct (open_append (wal_file_name id) d) as [[ino|e] d1] eqn:Ho.
  all: destruct (open_active_ok _ _ _ _ Hid Hok Ha Ho) as (Hev & Ha1 & Hino).
  2:{ by intros [= <- <-]. }
  destruct (Hino _ eq_refl) as (Hr1 & i & Hi1 & Hb1).
  destruct (syscall _ d1) as [[n|e] d2] eqn:Hs; apply syscall_cases in Hs as Hs'.
  all: assert (core d2 = core d1) as Hc by (destruct Hs' as [[? _]|(d3 & Hc3 & [= _ <-])]; done).
  all: pose proof (evolves_core (eq (wal_file_name id)) _ _ (ev_ok _ _ _ Hev) Hc) as Hev2.
  all: intros [= <- <-]; split_and!; [by eapply evolves_trans|by eapply active_empty_core|]; intros w [= <-].
  split; [done|]. cbn. apply core_parts in Hc as (Hr2 & _ & Hi2 & _). exists ino, i. by rewrite Hr2, Hi2.
Qed.

(** Opening a file that is there changes nothing. *)
Lemma wal_stream_there id d r d' ino :
  dk_root d !! wal_file_name id = Some (Regular ino) -> wal_stream id d = (r, d') -> core d' = core d.
Proof.
  intros Hroot. unfold wal_stream, act_bind. destruct (open_append (wal_file_name id) d) as [ro d1] eqn:Ho.
  apply open_append_cases in Ho as [[Hc Hno]|[(ino' & -> & _ & Hc)|(_ & Hn & _)]]; [| |congruence].
  - destruct ro; [done|]. by intros [= <- <-].
  - destruct (syscall _ d1) as [rs d2] eqn:Hs. assert (core d2 = core d1) as Hc2.
    { apply syscall_cases in Hs as [[? _]|(d3 & Hc3 & [= _ <-])]; done. }
    destruct rs; intros [= <- <-]; congruence.
Qed.

(** The same disk to a stream. *)
Lemma stream_ok_core id d d' w ls : core d' = core d -> stream_ok id d w ls -> stream_ok id d' w ls.
Proof.
  intros Hc. apply stream_ok_frame with (T := fun _ => False); [|naive_solver..].
  apply core_parts in Hc as (Hr & Hd & Hi & Hx & Hv). split; intros; rewrite ?Hr, ?Hi, ?Hv; done.
Qed.

(** An append that wrote the whole record, or nothing. *)
Lemma wal_append_ok id d w ls l r w' d' :
  disk_ok d -> stream_ok id d w ls -> Forall good ls -> good l -> replayable l -> wal_append w l d = (r, w', d') ->
  is_ok r = true \/ core d' = core d ->
  evolves (eq (wal_file_name id)) d d' /\ stream_ok id d' w' (if is_ok r then ls ++ [l] else ls).
Proof.
  intros Hok Hst Hgls Hgl (payload & Hv & Hfs & Hmax) Hrun Hwhole. unfold wal_append in Hrun. rewrite Hv in Hrun.
  unfold MAX_RECORD_BYTES in *. destruct (Z.ltb_spec (16 * 1024 * 1024) (blen payload)); [lia|].
  destruct (Z.leb_spec (2 ^ 32) (blen payload)); [lia|]. cbv zeta in Hrun.
  set (header := to_le_bytes 4 (blen payload) ++ to_le_bytes 4 (crc32 payload)) in *.
  destruct (act_bind _ _ d) as [r0 d1] eqn:Hw. unfold act_bind, writer in Hw.
  assert (is_ok r = is_ok r0 /\ d' = d1 /\ (is_ok r0 = false -> w' = w) /\ (is_ok r0 = true -> sw_path w' = sw_path w /\
    sw_writer w' = sw_writer w /\ sw_frozen w' = sw_frozen w)) as (Hr & -> & Hsame & Hkeep).
  { by destruct r0; injection Hrun as <- <- <-. }
  rewrite Hr in *. destruct (is_ok r0) eqn:Hr0.
  2:{ destruct Hwhole as [|Hc]; [done|]. rewrite (Hsame eq_refl). split; [by apply evolves_core|by eapply stream_ok_core]. }
  destruct (Hkeep eq_refl) as (Hp' & Hw' & Hf'). destruct Hst as [Hp Hst]. destruct (sw_frozen w) as [g|] eqn:Hfz.
  { destruct Hst as (Hn & _). rewrite Hn in Hw. injection Hw as <- <-. done. }
  destruct Hst as (ino & i & Hwr & Hroot & Hi & Hb). rewrite Hwr in Hw. cbn [act_ret] in Hw.
  destruct (write_all ino header d) as [r1 d2] eqn:Hw1. pose proof (write_all_cases _ _ _ _ _ Hw1) as Hc1. rewrite Hi in Hc1.
  destruct Hc1 as (n1 & Hc1 & Hall1). destruct r1 as [[]|]; [|by injection Hw as <- <-]. rewrite (Hall1 eq_refl) in Hc1.
  apply core_parts in Hc1 as (Ar & Ad & Ai & Ax & Av). pose proof (write_all_cases _ _ _ _ _ Hw) as Hc2.
  rewrite Ai in Hc2. cbn in Hc2. rewrite lookup_insert_eq in Hc2.
  destruct Hc2 as (n2 & Hc2 & Hall2). rewrite (Hall2 Hr0) in Hc2. cbn [in_bytes in_synced] in Hc2.
  set (i' := {| in_bytes := (in_bytes i ++ header) ++ payload; in_synced := in_synced i |}) in *.
  assert (core d1 = core (put_inode d ino i')) as Hc.
  { apply core_parts in Hc2 as (Br & Bd & Bi & Bx & Bv). apply core_parts. cbn in *.
    rewrite Bi, Ai, insert_insert_eq. split_and!; congruence. }
  assert (in_bytes i' = records (ls ++ [l])) as Hi'.
  { unfold i'. cbn [in_bytes]. rewrite records_app, Hb, <- app_assoc. f_equal. cbn [records flat_map].
    rewrite app_nil_r. unfold record_bytes. rewrite Hv. unfold record_of, header. by rewrite <- app_assoc. }
  split.
  - eapply change_evolves; [done|]. eapply ch_write; [done|done| | |done].
    2:{ rewrite Hi'. apply file_ok_records, Forall_app. by repeat constructor. }
    unfold i', more_synced. cbn.
    rewrite <- app_assoc. split; [by apply prefix_app_r|]. rewrite take_app. by apply prefix_app_r.
  - apply core_parts in Hc as (Er & _ & Ei & _ & _). split; [congruence|]. rewrite Hf'. exists ino, i'.
    rewrite Hw', Er, Ei. cbn. rewrite lookup_insert_eq.
    by split_and!.
Qed.

(** A failed append that left no byte behind has done nothing. *)
Lemma append_clean id d w ls l e w' d' :
  stream_ok id d w ls -> wal_append w l d = (Err e, w', d') ->
  (forall ino, bytes_of ino d' = bytes_of ino d) -> core d' = core d.
Proof.
  intros [_ Hst] Hrun Hsame. unfold wal_append in Hrun. destruct (line_to_vec l) as [payload|]; [|by injection Hrun as _ _ <-].
  destruct (MAX_RECORD_BYTES <? _); [by injection Hrun as _ _ <-|]. destruct (2 ^ 32 <=? _); [by injection Hrun as _ _ <-|].
  cbv zeta in Hrun. set (header := to_le_bytes 4 (blen payload) ++ to_le_bytes 4 (crc32 payload)) in *.
  destruct (act_bind _ _ d) as [r0 d1] eqn:Hw. unfold act_bind, writer in Hw.
  assert (d' = d1 /\ is_ok r0 = false) as [-> Hr0] by (by destruct r0; injection Hrun).
  destruct (sw_frozen w) as [g|]; [destruct Hst as (Hn & _); rewrite Hn in Hw; by injection Hw as _ <-|].
  destruct Hst as (ino & i & Hwr & _ & Hi & _). rewrite Hwr in Hw. cbn [act_ret] in Hw. specialize (Hsame ino).
  destruct (write_all ino header d) as [r1 d2] eqn:Hw1. pose proof (write_all_cases _ _ _ _ _ Hw1) as Hc1. rewrite Hi in Hc1.
  destruct Hc1 as (n1 & Hc1 & Hall1). apply core_parts in Hc1 as (Ar & Ad & Ai & Ax & Av). destruct r1 as [[]|].
  - exfalso. rewrite (Hall1 eq_refl) in Ai. cbn in Ai. pose proof (write_all_cases _ _ _ _ _ Hw) as Hc2.
    rewrite Ai in Hc2. cbn in Hc2. rewrite lookup_insert_eq in Hc2. destruct Hc2 as (n2 & Hc2 & _).
    apply core_parts in Hc2 as (_ & _ & Bi & _ & _). unfold bytes_of in Hsame. rewrite Bi, Hi in Hsame. cbn in Hsame.
    rewrite lookup_insert_eq in Hsame. cbn [in_bytes] in Hsame. apply (f_equal length) in Hsame. unfold header in Hsame.
    rewrite !length_app, !length_to_le_bytes in Hsame. lia.
  - injection Hw as _ <-. unfold bytes_of in Hsame. rewrite Ai, Hi in Hsame. cbn in Hsame.
    rewrite lookup_insert_eq in Hsame. cbn [in_bytes] in Hsame. apply core_parts. cbn in Ar, Ad, Ai, Ax, Av.
    split_and!; try done. rewrite Ai. apply insert_id. rewrite Hi. f_equal. destruct i as [b sy]. cbn in *. by rewrite Hsame.
Qed.

Lemma wal_sync_ok id d w ls r d' :
  disk_ok d -> stream_ok id d w ls -> wal_sync w d = (r, d') ->
  evolves (eq (wal_file_name id)) d d' /\ stream_ok id d' w ls /\
  (is_ok r = true -> Forall replayable ls -> forall l, l ∈ ls -> durable d' l).
Proof.
  intros Hok Hst. unfold wal_sync, writer, act_bind. destruct (sw_writer w) as [ino|] eqn:Hw; cbn [act_ret act_fail].
  2:{ intros [= <- <-]. split_and!; [by apply evolves_core|done|done]. }
  destruct (syscall (act_ret ()) d) as [[[]|e] d1] eqn:Hs; apply sync_parent_core in Hs as Hc1.
  2:{ intros [= <- <-]. split_and!; [by apply evolves_core|by eapply stream_ok_core|done]. }
  pose proof (disk_ok_core _ _ Hc1 Hok) as Hok1. pose proof (stream_ok_core _ _ _ _ _ Hc1 Hst) as Hst1.
  pose proof (evolves_core (eq (wal_file_name id)) _ _ Hok Hc1) as Hev1.
  destruct Hst1 as [Hp Hst1]. destruct (sw_frozen w) as [g|] eqn:Hf; [destruct Hst1 as [? _]; congruence|].
  destruct Hst1 as (ino' & i & Hw' & Hroot & Hi & Hb). assert (ino' = ino) as -> by congruence.
  intros [[Hc Hn]|(i' & -> & Hi' & Hc)]%sync_data_cases.
  - split_and!.
    + eapply evolves_trans; [done|]. by apply evolves_core.
    + eapply stream_ok_core; [exact Hc|]. split; [done|]. rewrite Hf. by exists ino, i.
    + intros Hr. rewrite Hn in Hi by done. done.
  - assert (i = i') as -> by congruence. set (i2 := {| in_bytes := in_bytes i'; in_synced := length (in_bytes i') |}) in *.
    assert (change d1 d' (eq (wal_file_name id))) as Hch.
    { eapply (ch_write d1 d' _ ino i' i2); [done|done| |unfold i2; exact (ok_files _ Hok1 _ _ Hi)|exact Hc].
      split; [done|]. unfold i2. cbn. rewrite (take_ge _ (length _)) by lia. apply prefix_take. }
    pose proof (change_evolves _ _ _ Hok1 Hch) as Hev2. apply core_parts in Hc as (Hr2 & _ & Hi2 & _).
    assert (dk_inodes d' !! ino = Some i2) as Hi3 by (rewrite Hi2; cbn; by rewrite lookup_insert_eq).
    split_and!; [by eapply evolves_trans| |].
    + split; [done|]. rewrite Hf. exists ino, i2. rewrite Hr2. done.
    + intros _ Hls l Hl. exists (false, wal_file_name id), ino, i2. unfold entry. cbn [fst snd]. rewrite Hr2. split_and!; [done|done|].
      unfold i2. cbn. rewrite take_ge by lia. by rewrite Hb, file_lines_records.
Qed.

(** The names a rotation concerns: the active file, and one with a UUID that was not drawn before. *)
Definition rotated (id : string) (d : Disk) (name : string) : Prop :=
  name = wal_file_name id \/ exists n, (dk_uuids d <= n)%nat /\ uuid_of name = Some (uuid_text n).

Lemma freeze_ok id d w ls wb r w' d' :
  id <> ""%string -> disk_ok d -> stream_ok id d w ls -> freeze uuid_text w wb d = (r, w', d') ->
  evolves (rotated id d) d d' /\ stream_ok id d' w' ls /\ (is_ok r = true -> is_Some (sw_frozen w')).
Proof.
  intros Hid Hok Hst. unfold freeze. destruct (sw_frozen w) as [g|] eqn:Hf.
  { intros [= <- <- <-]. split_and!; [by apply evolves_core|done|by intros _; rewrite Hf]. }
  cbv zeta. unfold act_bind at 1. destruct (wal_sync w d) as [[[]|e] d1] eqn:Hs; destruct (wal_sync_ok _ _ _ _ _ _ Hok Hst Hs) as (Hev & Hst1 & _).
  all: apply (evolves_mono _ (rotated id d)) in Hev; [|intros name <-; by left].
  2:{ intros [= <- <- <-]. done. }
  unfold act_bind at 1. cbn [new_uuid]. change {| dk_root := _ |} with (draw_uuid d1).
  assert (sw_path w = wal_file_name id) as Hpath by apply Hst. rewrite Hpath, with_extension_wal by done.
  set (to := gen_path uuid_text id (dk_uuids d1) wb "sealed-wal").
  assert (uuid_of to = Some (uuid_text (dk_uuids d1))) as Hu by (apply owner_gen; [done|by left]).
  pose proof (fr_uuids _ _ _ (ev_frame _ _ _ Hev)) as Hle.
  unfold act_bind. destruct (rename (wal_file_name id) to (draw_uuid d1)) as [[[]|e] d2] eqn:Hr; cbn [act_ret]; intros [= <- <- <-].
  - apply rename_cases in Hr as [[_ [=]]|(n & _ & Hn & Hc)]. cbn [draw_uuid dk_root] in Hn.
    assert (core d2 = core (draw_uuid (move_root d1 (wal_file_name id) to n))) as Hc'.
    { apply core_parts in Hc as (Hr2 & Hd2 & Hi2 & Hx2 & Hv2). by apply core_parts. }
    assert (change d1 d2 (fun name => name = wal_file_name id \/ name = to)) as Hch.
    { eapply ch_move; [done|done|apply gen_name; by left|done]. }
    pose proof (change_evolves _ _ _ (ev_ok _ _ _ Hev) Hch) as Hev2. split_and!; [|split; [done|]|done].
    + eapply evolves_trans; [done|]. eapply evolves_mono; [|exact Hev2]. intros name [Hnm|Hnm]; subst name; [by left|right; eauto].
    + destruct Hst1 as [_ Hst1]. rewrite Hf in Hst1. destruct Hst1 as (ino & i & Hw & Hroot & Hi & Hb).
      assert (n = Regular ino) as -> by congruence. apply core_parts in Hc' as (Hr2 & _ & Hi2 & _ & Hv2). cbn [sw_frozen sw_writer].
      assert (to <> wal_file_name id) as Hne.
      { intros He. rewrite He in Hu. by rewrite (proj2 (owner_wal id)) in Hu. }
      split_and!; [done| |left; rewrite Hr2; cbn; by rewrite lookup_insert_ne, lookup_delete_eq].
      exists (dk_uuids d1), wb. rewrite Hv2. split_and!; [done|cbn; lia|done|]. exists ino, i. rewrite Hr2, Hi2. cbn.
      by rewrite lookup_insert_eq.
  - apply rename_cases in Hr as [[Hc _]|(n & [=] & _)].
    assert (change d1 d2 (fun _ => False)) as Hch by by apply ch_uuid.
    pose proof (change_evolves _ _ _ (ev_ok _ _ _ Hev) Hch) as Hev2. split_and!; [| |done].
    + eapply evolves_trans; [done|]. by eapply evolves_mono; [|exact Hev2].
    + eapply stream_ok_frame; [apply Hev2|naive_solver..].
Qed.

(** A rotation that succeeds hands over the lines as a generation; one that fails keeps them. *)
Lemma rotate_ok id d w ls wb r w' d' :
  id <> ""%string -> disk_ok d -> stream_ok id d w ls -> wal_rotate uuid_text w wb d = (r, w', d') ->
  evolves (rotated id d) d d' /\
  match r with
  | Ok g => stream_ok id d' w' [] /\ gen_ok id d' g ls
  | Err _ => stream_ok id d' w' ls
  end.
Proof.
  intros Hid Hok Hst. unfold wal_rotate. destruct (freeze uuid_text w wb d) as [[[u|e] w1] d1] eqn:Hf;
    destruct (freeze_ok _ _ _ _ _ _ _ _ Hid Hok Hst Hf) as (Hev & Hst1 & Hfz).
  2:{ intros [= <- <- <-]. done. }
  destruct (Hfz eq_refl) as [g Hg]. destruct Hst1 as [Hp Hst1]. rewrite Hg in Hst1. destruct Hst1 as (Hwn & Hgen & Hae).
  rewrite Hp. cbv zeta. unfold act_bind.
  assert (forall d2, evolves (eq (wal_file_name id)) d1 d2 -> active_empty id d2 ->
    evolves (rotated id d) d d2 /\ gen_ok id d2 g ls /\ stream_ok id d2 w1 ls) as Hkeep.
  { intros d2 Hev2 Hae2. assert (gen_ok id d2 g ls) as Hgen2.
    { eapply gen_ok_frame; [apply Hev2| |done]. destruct Hgen as (n & wb' & -> & _). intros He.
      pose proof (owner_gen uuid_text id n wb' "sealed-wal" ltac:(by left)) as [_ Hu].
      rewrite <- He in Hu. by rewrite (proj2 (owner_wal id)) in Hu. }
    split_and!; [|done|split; [done|by rewrite Hg]]. eapply evolves_trans; [done|].
    eapply evolves_mono; [|exact Hev2]. intros name <-. by left. }
  destruct (sync_parent d1) as [[[]|e] d2] eqn:Hs2; apply sync_parent_core in Hs2;
    pose proof (evolves_core (eq (wal_file_name id)) _ _ (ev_ok _ _ _ Hev) Hs2) as Hev2;
    pose proof (active_empty_core _ _ _ Hs2 Hae) as Hae2.
  2:{ intros [= <- <- <-]. split; by apply Hkeep. }
  destruct (open_append (wal_file_name id) d2) as [[ino|e] d3] eqn:Ho;
    destruct (open_active_ok _ _ _ _ Hid (ev_ok _ _ _ Hev2) Hae2 Ho) as (Hev3 & Hae3 & Hino);
    pose proof (evolves_trans _ _ _ _ Hev2 Hev3) as Hev13.
  2:{ intros [= <- <- <-]. split; by apply Hkeep. }
  destruct (sync_parent d3) as [[[]|e] d4] eqn:Hs4; apply sync_parent_core in Hs4;
    pose proof (evolves_trans _ _ _ _ Hev13 (evolves_core (eq (wal_file_name id)) _ _ (ev_ok _ _ _ Hev3) Hs4)) as Hev14;
    pose proof (active_empty_core _ _ _ Hs4 Hae3) as Hae4.
  2:{ intros [= <- <- <-]. split; by apply Hkeep. }
  cbn [act_ret]. rewrite Hg. intros [= <- <- <-]. destruct (Hkeep d4 Hev14 Hae4) as (? & ? & _).
  split_and!; [done| |done]. split; [done|]. cbn. destruct (Hino _ eq_refl) as (Hr3 & i & Hi3 & Hb3).
  apply core_parts in Hs4 as (Hr4 & _ & Hi4 & _). exists ino, i. by rewrite Hr4, Hi4.
Qed.

(** A generation that is done with: kept, removed, or deferred. *)
Lemma removing_cases name after d r d' :
  (forall d r d', after d = (r, d') -> core d' = core d) -> removing name after d = (r, d') ->
  (core d' = core d /\ (is_ok r = true -> dk_root d !! name = None)) \/ core d' = core (drop_root d name).
Proof.
  intros Hafter. unfold removing. destruct (remove_file name d) as [r1 d1] eqn:Hr.
  apply remove_file_cases in Hr as [(Hc & Hno & Hnf)|(ino & -> & Hn & Hc)].
  - destruct r1 as [|[]]; try done; intros [= <- <-]; left; (split; [done|]); intros; try done. by apply Hnf.
  - intros Ha. right. rewrite <- Hc. by apply Hafter in Ha.
Qed.

Lemma syscall_ret_core d r d' : syscall (act_ret ()) d = (r, d') -> core d' = core d.
Proof. apply sync_parent_core. Qed.

Lemma defer_file_cases name reason d r d' :
  defer_file name reason d = (r, d') ->
  core d' = core d \/ exists n, dk_root d !! name = Some n /\ core d' = core (move_deferred d name n).
Proof.
  unfold defer_file, act_bind. destruct (syscall (act_ret ()) d) as [[[]|e] d1] eqn:H3; apply sync_parent_core in H3.
  2:{ intros [= <- <-]. by left. }
  destruct (syscall _ d1) as [[[]|e] d2] eqn:H4.
  all: assert (core d2 = core d1) as Hc2 by
    (apply syscall_cases in H4 as [[? _]|(dx & Hcx & [= <-])]; first [done|by rewrite <- Hcx]).
  2:{ intros [= <- <-]. left. congruence. }
  destruct (syscall _ d2) as [r3 d3] eqn:H5.
  assert (core d2 = core d) as Hc by congruence.
  assert ((core d3 = core d /\ is_ok r3 = false) \/ exists n, dk_root d !! name = Some n /\ core d3 = core (move_deferred d name n)) as Hd3.
  { apply syscall_cases in H5 as [[? ->]|(dx & Hcx & Hm)]; [left; split; [congruence|done]|].
    rewrite Hc in Hcx. apply core_parts in Hcx as (Hr & Hd & Hi & Hx & Hv).
    destruct (dk_root dx !! name) as [n|] eqn:Hn; injection Hm as <- <-.
    - right. exists n. split; [congruence|]. apply core_parts. unfold move_deferred. cbn. split_and!; congruence.
    - left. split; [by apply core_parts|done]. }
  destruct r3 as [[]|e3]; [|intros [= <- <-]; destruct Hd3 as [[? _]|?]; [by left|by right]].
  destruct Hd3 as [[_ [=]]|(n & Hn & Hc3)].
  destruct (sync_parent d3) as [[[]|e] d4] eqn:H6; apply sync_parent_core in H6; [intros H7%sync_parent_core|intros [= <- <-]];
    right; exists n; (split; [done|]); congruence.
Qed.

(** Removing the active file of a container without unsealed lines. *)
Lemma wal_remove_ok id d r d' :
  disk_ok d -> active_empty id d -> wal_remove id d = (r, d') ->
  evolves (eq (wal_file_name id)) d d' /\ active_empty id d'.
Proof.
  intros Hok Ha [[Hc _]|Hc]%removing_cases; [| |by intros ? ? ? [= _ <-]].
  - split; [by apply evolves_core|by eapply active_empty_core].
  - split; [split; [by eapply drop_ok|by apply drop_frame|]|].
    + intros l Hl. destruct (drop_durable _ _ _ _ Hc Hl) as [|(ino & i & Hr & Hi & Hin)]; [done|].
      destruct Ha as [Ha|(ino' & i' & Hr' & Hi' & Hb')]; [congruence|].
      assert (ino' = ino) as -> by congruence. assert (i' = i) as -> by congruence. rewrite Hb' in Hin. by apply elem_of_nil in Hin.
    + left. apply core_parts in Hc as (Hr & _). rewrite Hr. cbn. by rewrite lookup_delete_eq.
Qed.

(** ** Names of different containers *)

(** The names an operation on a container can concern. *)
Definition touches (id : string) (d : Disk) (name : string) : Prop :=
  rotated id d name \/ exists n wb ext, generation_ext ext /\ name = gen_path uuid_text id n wb ext.

Lemma gen_not_active id n wb ext id' : generation_ext ext -> gen_path uuid_text id n wb ext <> wal_file_name id'.
Proof.
  intros He Heq. pose proof (proj2 (owner_gen uuid_text id n wb ext He)) as Hu.
  rewrite Heq in Hu. by rewrite (proj2 (owner_wal id')) in Hu.
Qed.

Lemma gen_not_rotated id n wb ext id' d : generation_ext ext -> (n < dk_uuids d)%nat -> ~ rotated id' d (gen_path uuid_text id n wb ext).
Proof.
  intros He Hn [Ha|(m & Hm & Hu)]; [by eapply gen_not_active|].
  rewrite (proj2 (owner_gen uuid_text id n wb ext He)) in Hu. injection Hu as Hu. apply uuid_inj in Hu. lia.
Qed.

Lemma active_not_touched id id' d : sanitise id <> sanitise id' -> ~ touches id' d (wal_file_name id).
Proof.
  intros Hne [[Ha|(m & Hm & Hu)]|(n & wb & ext & He & Ha)].
  - apply Hne. pose proof (proj1 (owner_wal id)) as Ho. rewrite Ha in Ho. rewrite (proj1 (owner_wal id')) in Ho. congruence.
  - by rewrite (proj2 (owner_wal id)) in Hu.
  - symmetry in Ha. by eapply gen_not_active.
Qed.

Lemma gen_not_touched id id' d n wb ext :
  sanitise id <> sanitise id' -> generation_ext ext -> (n < dk_uuids d)%nat -> ~ touches id' d (gen_path uuid_text id n wb ext).
Proof.
  intros Hne He Hn [Hr|(n' & wb' & ext' & He' & Ha)]; [by eapply gen_not_rotated|].
  apply Hne. pose proof (proj1 (owner_gen uuid_text id n wb ext He)) as Ho. rewrite Ha in Ho.
  rewrite (proj1 (owner_gen uuid_text id' n' wb' ext' He')) in Ho. congruence.
Qed.

Lemma touched_active id d name : name = wal_file_name id -> touches id d name.
Proof. intros ->. by left; left. Qed.

(** What belongs to another container stays as it is. *)
Lemma stream_ok_other T id id' d d' w ls :
  frame T d d' -> (forall name, T name -> touches id' d name) -> sanitise id <> sanitise id' ->
  stream_ok id d w ls -> stream_ok id d' w ls.
Proof.
  intros Hf HT Hne. apply (stream_ok_frame T); [done| |].
  - intros Ht. by eapply active_not_touched, HT.
  - intros n wb Hn Ht. eapply gen_not_touched; [done|by left|done|by apply HT].
Qed.

Lemma gen_ok_other T id id' d d' g ls :
  frame T d d' -> (forall name, T name -> touches id' d name) -> sanitise id <> sanitise id' ->
  gen_ok id d g ls -> gen_ok id d' g ls.
Proof.
  intros Hf HT Hne Hg. eapply gen_ok_frame; [done| |done]. destruct Hg as (n & wb & -> & Hn & _).
  intros Ht. eapply gen_not_touched; [done|by left|done|by apply HT].
Qed.

Lemma active_empty_other T id id' d d' :
  frame T d d' -> (forall name, T name -> touches id' d name) -> sanitise id <> sanitise id' ->
  active_empty id d -> active_empty id d'.
Proof. intros Hf HT Hne. eapply active_empty_frame; [done|]. intros Ht. by eapply active_not_touched, HT. Qed.

(** ** Losing only what is safe elsewhere *)

(** A change of the names [T] that keeps the disk well-formed and every durable line but those of [C]. *)
Record evolves_upto (C : LogLine -> Prop) (T : string -> Prop) (d d' : Disk) : Prop := {
  eu_ok : disk_ok d';
  eu_frame : frame T d d';
  eu_durable l : durable d l -> durable d' l \/ C l
}.

Lemma evolves_evolves_upto C T d d' : evolves T d d' -> evolves_upto C T d d'.
Proof. intros [Hok Hf Hd]. split; [done|done|]. intros l Hl. left. by apply Hd. Qed.

Lemma frame_mono (T T' : string -> Prop) d d' : (forall name, T name -> T' name) -> frame T d d' -> frame T' d d'.
Proof.
  intros HT [Hr Hi Hu]. split; [intros name Hn; apply Hr; eauto|intros name ino Hn; apply Hi; eauto|done].
Qed.

Lemma frame_trans T d d1 d2 : frame T d d1 -> frame T d1 d2 -> frame T d d2.
Proof.
  intros [Hr Hi Hu] [Hr' Hi' Hu']. split; [|intros name ino Hn Hx|lia].
  - intros name Hn. by rewrite Hr', Hr.
  - rewrite (Hi' name), (Hi name); [done|done|done|done|]. by rewrite Hr.
Qed.

Lemma evolves_upto_mono (C C' : LogLine -> Prop) (T T' : string -> Prop) d d' :
  (forall l, C l -> C' l) -> (forall name, T name -> T' name) -> evolves_upto C T d d' -> evolves_upto C' T' d d'.
Proof. intros HC HT [Hok Hf Hd]. split; [done|by eapply frame_mono|]. intros l Hl. destruct (Hd l Hl); auto. Qed.

Lemma evolves_upto_lines (C C' : LogLine -> Prop) T d d' :
  evolves_upto C T d d' -> (forall l, C l -> C' l) -> evolves_upto C' T d d'.
Proof. intros Hev HC. eapply evolves_upto_mono; [exact HC| |exact Hev]. done. Qed.

Lemma evolves_upto_trans C T d d1 d2 : evolves_upto C T d d1 -> evolves_upto C T d1 d2 -> evolves_upto C T d d2.
Proof.
  intros [_ Hf Hd] [Hok Hf' Hd']. split; [done|by eapply frame_trans|]. intros l Hl. destruct (Hd l Hl); auto.
Qed.

(** The lines of a name, whatever part of its file is synced. *)
Definition lines_at (d : Disk) (name : string) (l : LogLine) : Prop :=
  exists ino i, dk_root d !! name = Some (Regular ino) /\ dk_inodes d !! ino = Some i /\ l ∈ file_lines (in_bytes i).

Lemma lines_at_frame T d d' name l : frame T d d' -> ~ T name -> lines_at d' name l -> lines_at d name l.
Proof.
  intros Hf Hn (ino & i & Hr & Hi & Hl). rewrite (fr_root _ _ _ Hf) in Hr by done.
  rewrite (fr_inode _ _ _ Hf name) in Hi by done. by exists ino, i.
Qed.

(** Lines that come back from a file are lines that were written. *)
Lemma lines_at_good d name l : disk_ok d -> (forall x, good x -> replayable x) -> lines_at d name l -> good l.
Proof.
  intros Hok Hgood (ino & i & _ & Hi & Hl). destruct (ok_files d Hok _ _ Hi) as (ls & n & Hls & Hb).
  rewrite Hb in Hl. destruct (parse_cut ls n 0) as (Hp & _ & _).
  { eapply list.Forall_impl; [exact Hls|]. done. }
  eapply in_prefix in Hl; [|exact Hp]. by eapply list.Forall_forall in Hls.
Qed.

(** Being done with a generation whose lines are safe, unless it is kept or deferred. *)
Lemma generation_remove_ok (C : LogLine -> Prop) g d r d' :
  disk_ok d -> is_generation (wg_path g) = true ->
  (wg_after_commit g = Remove -> forall l, lines_at d (wg_path g) l -> C l) ->
  generation_remove g d = (r, d') -> evolves_upto C (fun name => wg_after_commit g <> Retain /\ name = wg_path g) d d'.
Proof.
  intros Hok Hg HC. unfold generation_remove. destruct (wg_after_commit g) as [| |reason].
  - specialize (HC eq_refl). intros [[Hc _]|Hc]%removing_cases; [| |intros ? ? ?; apply sync_parent_core].
    + by apply evolves_evolves_upto, evolves_core.
    + split; [by eapply drop_ok|eapply frame_mono; [|by apply drop_frame]; by intros name <-|]. intros l Hl.
      destruct (drop_durable _ _ _ _ Hc Hl) as [|(ino & i & Hr & Hi & Hin)]; [by left|]. right. apply HC. by exists ino, i.
  - intros [= <- <-]. by apply evolves_evolves_upto, evolves_core.
  - intros [Hc|(n & Hn & Hc)]%defer_file_cases; apply evolves_evolves_upto; [by apply evolves_core|].
    eapply evolves_mono; [|apply change_evolves; [done|]; eapply ch_defer; [done| |done]]; [by intros name <-|].
    by apply (generation_uuid d Hok (false, wg_path g)); [eexists|].
Qed.

(** ** A crash *)

(** Behind the synced part of a file [keep] says how much reached the disk; what is left is all there is. *)
Definition crash_disk (keep : nat -> nat) (faults : list Fault) (d : Disk) : Disk :=
  {| dk_root := dk_root d; dk_deferred := dk_deferred d; dk_notes := dk_notes d;
     dk_inodes := map_imap (fun ino i =>
       let bytes := take (Nat.max (in_synced i) (keep ino)) (in_bytes i) in
       Some {| in_bytes := bytes; in_synced := length bytes |}) (dk_inodes d);
     dk_next := dk_next d; dk_uuids := dk_uuids d; dk_faults := faults |}.

Lemma crash_inode keep faults d ino i' :
  dk_inodes (crash_disk keep faults d) !! ino = Some i' <->
  exists i, dk_inodes d !! ino = Some i /\ in_bytes i' = take (Nat.max (in_synced i) (keep ino)) (in_bytes i) /\
    in_synced i' = length (in_bytes i').
Proof.
  cbn [crash_disk dk_inodes]. rewrite map_lookup_imap. destruct (dk_inodes d !! ino) as [i|]; cbn; [|naive_solver]. split.
  - intros [= <-]. by exists i.
  - intros (i0 & [= <-] & Hb & Hs). destruct i' as [b s]. cbn in *. by subst.
Qed.

Lemma crash_at keep faults d ino i :
  dk_inodes d !! ino = Some i ->
  let bytes := take (Nat.max (in_synced i) (keep ino)) (in_bytes i) in
  dk_inodes (crash_disk keep faults d) !! ino = Some {| in_bytes := bytes; in_synced := length bytes |}.
Proof. intros Hi bytes. apply crash_inode. by exists i. Qed.

Lemma crash_ok keep faults d : disk_ok d -> disk_ok (crash_disk keep faults d).
Proof.
  intros Hok. apply (disk_ok_fewer d); try done.
  - intros ino [i Hi]. eexists. by apply crash_at.
  - intros ino i' (i & Hi & Hb & _)%crash_inode. rewrite Hb. destruct (ok_files d Hok _ _ Hi) as (ls & n & Hls & Hn).
    exists ls, (Nat.min (Nat.max (in_synced i) (keep ino)) n). by rewrite Hn, take_take.
Qed.

Lemma crash_durable keep faults d l : durable d l -> durable (crash_disk keep faults d) l.
Proof.
  intros (k & ino & i & Hk & Hi & Hl). exists k, ino. eexists. split_and!; [done|by apply crash_at|].
  cbn [in_bytes in_synced]. rewrite firstn_all. eapply in_prefix; [|done]. apply file_lines_prefix.
  set (n := Nat.max _ _). assert (take (in_synced i) (in_bytes i) = take (in_synced i) (take n (in_bytes i))) as ->.
  { rewrite take_take. f_equal. unfold n. lia. }
  apply prefix_take.
Qed.

End Durable.
