(* ===== verification/WalReplay.v ===== *)
(** * What recovery does to the write-ahead log

    [WalRecovery::next] and [WalDir::recover_batched] of
    [crates/temps-log-aggregator/src/chunk/wal.rs] against the disk of [WalDisk]: whatever fails,
    a file is removed only when every line it holds has been handed out before, and the files of
    running containers are empty when the first batch comes. *)

From S2P Require Import Prelude Bytes Utf8 ChunkBlock Bloom ChunkFile Wal WalDisk.
From stdpp Require Import sorting.
Local Open Scope Z_scope.

Section Replay.
Context (uuid_text : nat -> string) `{!UuidLaws uuid_text} `{LineJson} `{Crc32}.
Context (good : LogLine -> Prop).
Hypothesis good_replayable : forall l, good l -> replayable l.

#[local] Abbreviation disk_ok := (disk_ok uuid_text good).
#[local] Abbreviation evolves := (evolves uuid_text good).
#[local] Abbreviation evolves_upto := (evolves_upto uuid_text good).

(** ** Batches *)

(** A file half read: what was handed out is in [C], the rest is still to come, unless the file ends
    in something unreadable and will be deferred. *)
Record file_ready (C : LogLine -> Prop) (d : Disk) (f : RecoveryFile) : Prop := {
  fr_readable : rf_unreadable f = None;
  fr_generation : is_generation (wg_path (rf_generation f)) = true;
  fr_rest : (exists p, (unread f).2 = Bad p) \/
            forall l, lines_at d (wg_path (rf_generation f)) l -> C l \/ l ∈ (unread f).1;
  fr_good : Forall good (unread f).1
}.

Record recovery_ok (C : LogLine -> Prop) (d : Disk) (r : WalRecovery) : Prop := {
  ro_paths : Forall (fun p => is_generation p.1.1 = true) (wr_paths r);
  ro_current f : wr_current r = Some f -> file_ready C d f
}.

(** A batch handed out: its generation may be removed once its lines are safe. *)
Record stream_due (C : LogLine -> Prop) (d : Disk) (stream : RecoveredStream) : Prop := {
  sd_first : exists first rest, rs_lines stream = first :: rest /\ rs_container_id stream = ll_container_id first;
  sd_good : Forall good (rs_lines stream);
  sd_generation : exists g, rs_generation stream = Some g /\ is_generation (wg_path g) = true /\
    (wg_after_commit g = Remove -> forall l, lines_at d (wg_path g) l -> C l \/ l ∈ rs_lines stream)
}.

(** The file of a batch that is not its last is left alone. *)
Definition retained (stream : RecoveredStream) : Prop := exists g, rs_generation stream = Some g /\ wg_after_commit g = Retain.

Lemma file_ready_mono (C C' : LogLine -> Prop) d f : (forall l, C l -> C' l) -> file_ready C d f -> file_ready C' d f.
Proof. intros HC [Hr Hg Hrest Hgood]. split; [done|done| |done]. destruct Hrest as [|Hrest]; [by left|]. right. intros l Hl. destruct (Hrest l Hl); auto. Qed.

Lemma inode_of_cases path d r d' :
  syscall (inode_of path) d = (r, d') ->
  core d' = core d /\ forall ino, r = Ok ino -> dk_root d' !! path = Some (Regular ino).
Proof.
  intros [[Hc ->]|(d2 & Hc2 & Hi)]%syscall_cases; [done|]. unfold inode_of in Hi.
  destruct (dk_root d2 !! path) as [[ino|]|] eqn:Hp; injection Hi as <- <-; (split; [done|]); intros; by simplify_eq.
Qed.

(** A file that was just opened. *)
Lemma open_read_ready C path with_bloom batchable d r d' :
  disk_ok d -> is_generation path = true -> open_read path d = (r, d') ->
  core d' = core d /\ forall reader, r = Ok reader -> file_ready C d' (recovery_file reader path with_bloom batchable).
Proof.
  intros Hok Hg. unfold open_read, act_bind. destruct (syscall (inode_of path) d) as [[ino|e] d1] eqn:Ho;
    apply inode_of_cases in Ho as [Hc Hroot]; [|by intros [= <- <-]].
  specialize (Hroot _ eq_refl).
  destruct (next_fault d1) as [[f|e] d2] eqn:Hf; apply next_fault_core in Hf as [Hc2 Hfok]; [|done].
  intros [= <- <-]. split; [congruence|]. intros reader [= <-].
  assert (disk_ok d2) as Hok2 by (eapply disk_ok_core; [|exact Hok]; congruence).
  apply core_parts in Hc2 as (Hr2 & _ & Hi2 & _ & _).
  assert (is_Some (dk_inodes d2 !! ino)) as [i Hi].
  { apply (ok_ino _ _ d2 Hok2 (false, path)). unfold entry. cbn. congruence. }
  assert (bytes_of ino d2 = in_bytes i) as Hb by (unfold bytes_of; by rewrite Hi).
  assert (forall l, l ∈ file_lines (in_bytes i) -> good l) as Hgood.
  { intros l Hl. eapply (lines_at_good uuid_text); [exact Hok2|exact good_replayable|]. exists ino, i. by rewrite Hr2. }
  split; [done|done| |].
  - rewrite unread_file. destruct f as [|k]; cbn [rd_bytes rd_fails]; [right|left; apply parse_fails].
    cbn [rf_generation recovery_file wg_path]. intros l (ino' & i' & Hr' & Hi' & Hl). right.
    assert (ino' = ino) as -> by congruence. assert (i' = i) as -> by congruence. by rewrite Hb.
  - rewrite unread_file, parse_lines. apply list.Forall_forall. intros l Hl. apply Hgood.
    destruct f as [|k]; cbn [rd_bytes] in Hl; rewrite Hb in Hl; [done|]. revert Hl. apply in_prefix.
    apply file_lines_prefix, prefix_take.
Qed.

(** The next batch of a file, and what becomes of the file. *)
Lemma batch_ok C d f batch_bytes batch f' :
  file_ready C d f -> read_batch f batch_bytes = (batch, f') ->
  match batch_outcome batch f' with
  | Err _ => False
  | Ok (inr g) =>
      is_generation (wg_path g) = true /\ (wg_after_commit g = Remove -> forall l, lines_at d (wg_path g) l -> C l)
  | Ok (inl stream) =>
      stream_due C d stream /\
      (bt_reached_end batch = false -> file_ready (fun l => C l \/ l ∈ rs_lines stream) d f' /\ retained stream)
  end.
Proof.
  intros [Hr Hg Hrest Hgood] (taken & Hof)%read_batch_spec; [|done]. destruct Hof as [Hl Hg' Hb' _ Hs He Hm].
  cbn [app] in Hl. unfold batch_outcome. rewrite Hl in *. destruct (bt_reached_end batch) eqn:Hend.
  - destruct (He eq_refl) as (e & Hu & Hp). clear Hm He. rewrite Hu in *. cbn [fst snd] in *.
    assert (problem_of e = None -> forall l, lines_at d (wg_path (rf_generation f)) l -> C l \/ l ∈ taken) as Hall.
    { intros Hne. destruct Hrest as [[p ->]|Hrest]; [done|]. done. }
    destruct taken as [|first rest].
    + rewrite Hp, Hg'. cbn [committing wg_path wg_after_commit]. split; [done|]. destruct (problem_of e); [done|].
      intros _ l Hin. destruct (Hall eq_refl l Hin) as [|Hx]; [done|]. by apply elem_of_nil in Hx.
    + assert (is_Some (bt_start batch)) as [start Hst] by (by apply Hs).
      rewrite Hst, Hp, Hg'. destruct (rf_batchable f'); cbn [result_bind]; (split; [|done]); (split; [by exists first, rest|done|]);
        eexists; (split; [reflexivity|]); cbn [committing wg_path wg_after_commit rs_lines]; (split; [done|]);
        destruct (problem_of e); try done; intros _; by apply Hall.
  - destruct (Hm eq_refl) as (Hne & Hun & Hbt & _ & Hu). destruct taken as [|first rest]; [done|].
    assert (is_Some (bt_start batch)) as [start Hst] by (by apply Hs).
    rewrite Hb', Hbt, Hst. cbn [result_bind]. rewrite Hu in Hrest, Hgood. cbn [fst snd] in Hrest, Hgood.
    apply Forall_app in Hgood as [Hg1 Hg2]. split.
    + split; [by exists first, rest|done|]. eexists. split; [reflexivity|]. rewrite Hg'. by split.
    + intros _. split; [|by eexists]. split; [done|by rewrite Hg'| |done]. rewrite Hg'. destruct Hrest as [|Hrest]; [by left|]. right.
      intros l Hin. destruct (Hrest l Hin) as [|[|]%elem_of_app]; auto.
Qed.

Lemma file_len_core path d r d' : file_len path d = (r, d') -> core d' = core d.
Proof.
  intros [[Hc _]|(d1 & Hc & Hm)]%syscall_cases; [done|]. unfold act_bind, inode_of in Hm.
  destruct (dk_root d1 !! path) as [[]|]; injection Hm as _ <-; done.
Qed.

(** What a call of [next] has done when it returns, with or without a batch. *)
Definition handed_out (C : LogLine -> Prop) (d : Disk) (r : result WalError (option RecoveredStream * WalRecovery))
    (d' : Disk) : Prop :=
  evolves_upto C (fun name => is_generation name = true) d d' /\
  forall stream r', r = Ok (Some stream, r') ->
    stream_due C d' stream /\ recovery_ok (fun l => C l \/ l ∈ rs_lines stream) d' r' /\
    (wr_current r' <> None -> retained stream).

Lemma handed_out_trans C d d1 r d' :
  evolves_upto C (fun name => is_generation name = true) d d1 -> handed_out C d1 r d' -> handed_out C d r d'.
Proof. intros Hev [Hev' Hr]. split; [by eapply evolves_upto_trans|done]. Qed.

Lemma next_loop_ok fuel C r d res d' :
  disk_ok d -> recovery_ok C d r -> next_loop fuel r d = (res, d') -> handed_out C d res d'.
Proof.
  revert r d res d'. induction fuel as [|fuel IH]; intros r d res d' Hok Hro.
  { intros [= <- <-]. split; [by apply evolves_evolves_upto, evolves_core|done]. }
  cbn [next_loop]. cbv zeta.
  assert (forall f s d, disk_ok d -> file_ready C d f ->
    Forall (fun p => is_generation p.1.1 = true) (wr_paths s) -> forall res d', next_batch (next_loop fuel) f s d = (res, d') -> handed_out C d res d') as Hstep.
  { intros f s d0 Hok0 Hf Hp res0 d0'. unfold next_batch. destruct (read_batch f (wr_batch_bytes s)) as [batch f'] eqn:Hb.
    pose proof (batch_ok _ _ _ _ _ _ Hf Hb) as Hout. destruct (batch_outcome batch f') as [[stream|g]|e]; [..|done].
    - destruct Hout as [Hdue Hmore]. intros [= <- <-]. split; [by apply evolves_evolves_upto, evolves_core|].
      intros stream' r' [= <- <-]. split; [done|]. cbn [with_current wr_current].
      destruct (bt_reached_end batch); [by split|]. destruct (Hmore eq_refl) as [Hready Hret]. split; [|done].
      split; [done|]. by intros f1 [= <-].
    - destruct Hout as [Hg HC]. unfold act_bind. destruct (generation_remove g d0) as [[[]|e] d1] eqn:Hrm.
      all: pose proof (generation_remove_ok _ _ C _ _ _ _ Hok0 Hg HC Hrm) as Hev;
        apply (evolves_upto_mono _ _ C C _ (fun name => is_generation name = true)) in Hev; [|done|by intros name [_ ->]].
      2:{ intros [= <- <-]. by split. }
      intros Hn. eapply handed_out_trans; [exact Hev|]. eapply IH; [apply Hev| |exact Hn].
      split; [done|]. intros f1 [=]. }
  destruct Hro as [Hpaths Hcur]. destruct (wr_current r) as [f|] eqn:Hc.
  { apply Hstep; [done|by apply Hcur|done]. }
  destruct (wr_paths r) as [|[[path wb] batchable] paths] eqn:Hp.
  { intros [= <- <-]. split; [by apply evolves_evolves_upto, evolves_core|done]. }
  apply Forall_cons in Hpaths as [Hg Hpaths]. cbn [fst] in Hg. unfold act_bind.
  destruct (file_len path d) as [[len|e] d1] eqn:Hl; apply file_len_core in Hl;
    pose proof (evolves_core uuid_text good (fun name => is_generation name = true) _ _ Hok Hl) as Hev1.
  2:{ intros [= <- <-]. split; [by apply evolves_evolves_upto|done]. }
  apply (evolves_evolves_upto _ _ C) in Hev1. destruct (negb batchable && _).
  - destruct (defer_file path _ d1) as [r2 d2] eqn:Hd. set (reason := TooLargeToReplay _ _) in Hd.
    pose proof (generation_remove_ok uuid_text good C
      {| wg_path := path; wg_with_bloom := wb; wg_after_commit := Defer reason; wg_recovery_identity := None |} _ _ _
      (eu_ok _ _ _ _ _ _ Hev1) Hg ltac:(done) Hd) as Hev2.
    apply (evolves_upto_mono _ _ C C _ (fun name => is_generation name = true)) in Hev2; [|done|by intros name [_ ->]].
    pose proof (evolves_upto_trans _ _ _ _ _ _ _ Hev1 Hev2) as Hev. destruct r2 as [[]|e]; [|by intros [= <- <-]].
    intros Hn. eapply handed_out_trans; [exact Hev|]. eapply IH; [apply Hev| |exact Hn]. split; [done|].
    intros f1 Hf1. cbn in Hf1. congruence.
  - destruct (open_read path d1) as [r2 d2] eqn:Ho.
    destruct (open_read_ready C path wb batchable _ _ _ (eu_ok _ _ _ _ _ _ Hev1) Hg Ho) as [Hc2 Hready].
    pose proof (evolves_upto_trans _ _ _ _ _ _ _ Hev1 (evolves_evolves_upto _ _ _ _ _ _
      (evolves_core _ _ _ _ _ (eu_ok _ _ _ _ _ _ Hev1) Hc2))) as Hev.
    destruct r2 as [reader|e]; [|by intros [= <- <-]]. intros Hs. eapply handed_out_trans; [exact Hev|].
    eapply Hstep; [apply Hev|by apply Hready| |exact Hs]. done.
Qed.

(** ** The start of a recovery *)

Lemma split_last_dot_join s a b : split_last_dot s = Some (a, b) -> s = (a +:+ "." +:+ b)%string.
Proof.
  revert a b. induction s as [|c s IH]; intros a b; [done|]. cbn [split_last_dot].
  destruct (split_last_dot s) as [[x y]|].
  - intros [= <- <-]. by rewrite (IH x y eq_refl).
  - destruct (Ascii.eqb_spec c "."); [|done]. intros [= <- <-]. by subst.
Qed.

Lemma append_not_empty (a b : string) c : (a +:+ String c b)%string <> ""%string.
Proof. by destruct a. Qed.

(** The name a file frozen for recovery gets. *)
Lemma recovery_name name n with_bloom :
  let to := with_extension name (uuid_text n +:+ "." +:+ bloom_suffix with_bloom +:+ ".recovery-wal") in
  uuid_of to = Some (uuid_text n) /\ generation_name to.
Proof.
  cbv zeta. unfold with_extension. set (stem := file_stem name).
  assert ((stem +:+ "." +:+ uuid_text n +:+ "." +:+ bloom_suffix with_bloom +:+ ".recovery-wal")%string =
    ((stem +:+ "." +:+ uuid_text n) +:+ "." +:+ bloom_suffix with_bloom) +:+ "." +:+ "recovery-wal")%string as ->.
  { change ".recovery-wal"%string with ("." +:+ "recovery-wal")%string. by rewrite !string_assoc. }
  split.
  - unfold uuid_of. rewrite split_at_dot by done. cbn [mbind option_bind]. rewrite split_at_dot by apply bloom_suffix_no_dot.
    cbn [mbind option_bind]. by rewrite split_at_dot by apply uuid_no_dot.
  - apply generation_name_dot; [apply append_not_empty|by right].
Qed.

(** Names that have a UUID which was not drawn yet. *)
Definition fresh_uuid (d : Disk) (name : string) : Prop := exists n, (dk_uuids d <= n)%nat /\ uuid_of name = Some (uuid_text n).

Lemma freeze_active_file_ok with_bloom name d r d' :
  disk_ok d -> freeze_active_file uuid_text with_bloom name d = (r, d') ->
  evolves (fun x => x = name \/ fresh_uuid d x) d d' /\
  forall p, r = Ok p -> is_generation p.1.1 = true /\ (uuid_of name = None -> dk_root d' !! name = None).
Proof.
  intros Hok. unfold freeze_active_file, act_bind at 1. cbn [new_uuid].
  change {| dk_root := _ |} with (draw_uuid d). destruct (recovery_name name (dk_uuids d) with_bloom) as [Hu Hg].
  set (to := with_extension _ _) in *. unfold act_bind.
  assert (fresh_uuid d to) as Hfresh by by exists (dk_uuids d).
  destruct (rename name to (draw_uuid d)) as [r1 d1] eqn:Hr.
  apply rename_cases in Hr as [[Hc Hno]|(n & -> & Hn & Hc)].
  { destruct r1 as [|e]; [done|]. intros [= <- <-]. split; [|done].
    eapply evolves_mono; [|exact (change_evolves uuid_text good _ _ _ Hok (ch_uuid uuid_text good _ _ Hc))]. done. }
  assert (change uuid_text good d d1 (fun x => x = name \/ x = to)) as Hch.
  { eapply ch_move; [exact Hn|exact Hu|exact Hg|]. apply core_parts in Hc as (H3 & H4 & H5 & H6 & H7). by apply core_parts. }
  pose proof (change_evolves _ _ _ _ _ Hok Hch) as Hev.
  apply (evolves_mono _ _ _ (fun x => x = name \/ fresh_uuid d x)) in Hev; [|intros x [Hx|Hx]; subst x; [by left|by right]].
  destruct (sync_parent d1) as [[[]|e] d2] eqn:Hs; apply sync_parent_core in Hs;
    pose proof (evolves_trans _ _ _ _ _ _ Hev (evolves_core _ _ _ _ _ (ev_ok _ _ _ _ _ Hev) Hs)) as Hev2; intros [= <- <-];
    (split; [done|]); intros p [= <-].
  split; [apply Hg|]. intros Hnone. apply core_parts in Hs as (-> & _). apply core_parts in Hc as (-> & _). cbn.
  rewrite lookup_insert_ne, lookup_delete_eq; [done|]. congruence.
Qed.

Lemma freeze_active_files_ok with_bloom names paths d r d' :
  disk_ok d -> Forall (fun name => uuid_of name = None) names ->
  freeze_active_files uuid_text with_bloom names paths d = (r, d') ->
  evolves (fun x => x ∈ names \/ fresh_uuid d x) d d' /\
  forall ps, r = Ok ps ->
    (Forall (fun p => is_generation p.1.1 = true) paths -> Forall (fun p => is_generation p.1.1 = true) ps) /\
    forall name, name ∈ names -> dk_root d' !! name = None.
Proof.
  revert paths d r d'. induction names as [|name names IH]; intros paths d r d' Hok Hn.
  { intros [= <- <-]. split; [by apply evolves_core|]. intros ps [= <-]. split; [done|]. intros name Hx. by apply elem_of_nil in Hx. }
  apply Forall_cons in Hn as [Hn Hns]. cbn [freeze_active_files]. unfold act_bind.
  destruct (freeze_active_file uuid_text with_bloom name d) as [r1 d1] eqn:Hf.
  destruct (freeze_active_file_ok _ _ _ _ _ Hok Hf) as [Hev Hp].
  apply (evolves_mono _ _ _ (fun x => x ∈ name :: names \/ fresh_uuid d x)) in Hev.
  2:{ intros x [Hx|Hx]; [left; subst x; by apply list_elem_of_here|by right]. }
  destruct r1 as [p|e]; [|intros [= <- <-]; by split]. destruct (Hp p eq_refl) as [Hg Hgone].
  intros Hrun. destruct (IH _ _ _ _ (ev_ok _ _ _ _ _ Hev) Hns Hrun) as [Hev2 Hps].
  pose proof (fr_uuids _ _ _ (ev_frame _ _ _ _ _ Hev)) as Hle.
  assert (forall x, x ∈ names \/ fresh_uuid d1 x -> x ∈ name :: names \/ fresh_uuid d x) as Hsub.
  { intros x [Hx|(m & Hm & Hx)]; [left; by apply list_elem_of_further|right; exists m; split; [lia|done]]. }
  split; [eapply evolves_trans; [exact Hev|]; exact (evolves_mono _ _ _ _ _ _ Hsub Hev2)|].
  intros ps Hr. destruct (Hps ps Hr) as [Hgen Hgone2]. split.
  - intros Hall. apply Hgen, Forall_app. by repeat constructor.
  - intros x [-> |Hx]%elem_of_cons; [|by apply Hgone2]. destruct (decide (name ∈ names)); [by apply Hgone2|].
    rewrite (fr_root _ _ _ (ev_frame _ _ _ _ _ Hev2)); [by apply Hgone|]. intros [?|(m & _ & Hm)]; [done|]. congruence.
Qed.

Context (dir_order : gmap string Node -> list (string * Node)) (path_le : string -> string -> Prop) `{!RelDecision path_le}.
Hypothesis dir_order_all : forall m, dir_order m ≡ₚ map_to_list m.

(** The listing has the generations of the directory, and its active files that hold something. *)
Record listed (len : nat -> Z) (entries : list (string * Node)) (acc : list (string * bool * bool) * list string) : Prop := {
  li_paths : Forall (fun p => is_generation p.1.1 = true) acc.1;
  li_active name : name ∈ acc.2 -> wal_kind name = Some ActiveWal /\ exists ino, (name, Regular ino) ∈ entries /\ 0 < len ino;
  li_all name ino : (name, Regular ino) ∈ entries -> wal_kind name = Some ActiveWal -> 0 < len ino -> name ∈ acc.2;
  li_regular name : (name, Irregular) ∈ entries -> wal_kind name = None
}.

Lemma classify_listed len done_ acc x acc' :
  listed len done_ acc -> classify len acc x = Ok acc' -> listed len (done_ ++ [x]) acc'.
Proof.
  destruct acc as [paths active], x as [name node]. intros [Hp Ha Hall Hreg]. cbn [fst snd] in *. unfold classify.
  assert (forall more more_active,
    Forall (fun p => is_generation p.1.1 = true) more ->
    (forall x, x ∈ more_active -> wal_kind x = Some ActiveWal /\ exists ino, (x, Regular ino) = (name, node) /\ 0 < len ino) ->
    (forall ino, node = Regular ino -> wal_kind name = Some ActiveWal -> 0 < len ino -> name ∈ more_active) ->
    (node = Irregular -> wal_kind name = None) ->
    listed len (done_ ++ [(name, node)]) (paths ++ more, active ++ more_active)) as Hadd.
  { intros more more_active Hm1 Hm2 Hm3 Hm4. split; cbn [fst snd].
    - by apply Forall_app.
    - intros x [Hx|Hx]%elem_of_app; [destruct (Ha x Hx) as (Hk & ino & Hin & Hl)|destruct (Hm2 x Hx) as (Hk & ino & Hin & Hl)];
        (split; [done|]); exists ino; (split; [|done]); apply elem_of_app; [by left|right; rewrite Hin; by apply list_elem_of_singleton].
    - intros x ino [Hin|[= -> <-]%list_elem_of_singleton]%elem_of_app Hk Hl; apply elem_of_app; [left; by eapply Hall|right; by eapply Hm3].
    - intros x [Hin|[= -> <-]%list_elem_of_singleton]%elem_of_app; [by apply Hreg|by apply Hm4]. }
  pose proof (Hadd [] []) as Hsame. rewrite !app_nil_r in Hsame.
  assert (forall p, is_generation p.1.1 = true -> wal_kind name <> Some ActiveWal -> node <> Irregular ->
    listed len (done_ ++ [(name, node)]) (paths ++ [p], active)) as Hgen.
  { intros p Hg Hk Hn. rewrite <- (app_nil_r active). apply Hadd; [by repeat constructor| |done|done].
    intros x Hx. by apply elem_of_nil in Hx. }
  assert (forall x, x ∈ @nil string -> wal_kind x = Some ActiveWal /\ exists ino, (x, Regular ino) = (name, node) /\ 0 < len ino) as Hnil.
  { intros x Hx. by apply elem_of_nil in Hx. }
  destruct (wal_kind name) as [[]|] eqn:Hk; destruct node as [ino|]; try done.
  2,3: destruct (bloom_choice name) as [b|]; [|done]; intros [= <-]; apply Hgen; [|done|done]; cbn; unfold is_generation; by rewrite Hk.
  2,3: intros [= <-]; by apply Hsame.
  intros [= <-]. destruct (Z.ltb_spec 0 (len ino)); [|apply Hsame; [done|done|intros i [= <-]; lia|done]].
  rewrite <- (app_nil_r paths). apply Hadd; [done| |intros; by apply list_elem_of_singleton|done].
  intros x ->%list_elem_of_singleton. by eauto.
Qed.

Lemma classify_all len entries done_ acc acc' :
  listed len done_ acc -> result_fold (classify len) entries acc = Ok acc' -> listed len (done_ ++ entries) acc'.
Proof.
  revert done_ acc. induction entries as [|x entries IH]; intros done_ acc Hl; cbn [result_fold].
  { intros [= <-]. by rewrite app_nil_r. }
  destruct (classify len acc x) as [acc1|] eqn:Hc; [|done]. intros Hr.
  rewrite cons_middle, app_assoc. eapply IH; [|exact Hr]. by eapply classify_listed.
Qed.

(** The active files of the directory that hold something. *)
Definition filled (d : Disk) (name : string) : Prop :=
  wal_kind name = Some ActiveWal /\ exists ino, dk_root d !! name = Some (Regular ino) /\ bytes_of ino d <> [].

Lemma recover_batched_ok C batch_bytes with_bloom d r d' :
  disk_ok d -> recover_batched uuid_text dir_order path_le batch_bytes with_bloom d = (r, d') ->
  evolves (fun x => filled d x \/ fresh_uuid d x) d d' /\
  forall rec, r = Ok rec ->
    recovery_ok C d' rec /\ forall name, wal_kind name = Some ActiveWal -> dk_root d' !! name = None \/ holds_at d' name [].
Proof.
  intros Hok. unfold recover_batched, act_bind at 1. destruct (syscall _ d) as [r1 d1] eqn:Hs.
  assert (core d1 = core d /\ forall acc, r1 = Ok acc -> listed (fun ino => blen (bytes_of ino d)) (dir_order (dk_root d)) acc) as [Hc Hlist].
  { apply syscall_cases in Hs as [[Hc ->]|(d2 & Hc2 & Hm)]; [by split|]. injection Hm as Hr <-. split; [done|]. intros acc ->.
    apply core_parts in Hc2 as (Hr2 & _ & Hi2 & _). rewrite Hr2 in Hr. rewrite <- (app_nil_l (dir_order _)).
    eapply (classify_all _ _ []); [|unfold bytes_of in *; rewrite Hi2 in Hr; exact Hr].
    split; cbn; [done|..]; intros; by match goal with Hx : _ ∈ [] |- _ => apply elem_of_nil in Hx end. }
  pose proof (evolves_core uuid_text good (fun x => filled d x \/ fresh_uuid d x) _ _ Hok Hc) as Hev1.
  destruct r1 as [[paths active]|e]; [|intros [= <- <-]; by split].
  destruct (Hlist _ eq_refl) as [Hp Ha Hall Hreg]. cbn [fst snd] in *. clear Hlist Hs. unfold act_bind.
  assert (forall x node, (x, node) ∈ dir_order (dk_root d) <-> dk_root d !! x = Some node) as Hdir.
  { intros x node. rewrite (dir_order_all (dk_root d)). apply elem_of_map_to_list. }
  destruct (freeze_active_files _ _ _ _ d1) as [r2 d2] eqn:Hf.
  assert (forall x, x ∈ merge_sort path_le active <-> x ∈ active) as Hsort.
  { intros x. by rewrite merge_sort_Permutation. }
  destruct (freeze_active_files_ok _ _ _ _ _ _ (ev_ok _ _ _ _ _ Hev1)
    ltac:(apply list.Forall_forall; intros x [Hx _]%Hsort%Ha; by apply active_uuid) Hf) as [Hev2 Hps].
  apply core_parts in Hc as (Hr1 & _ & Hi1 & _ & Hu1).
  assert (evolves (fun x => filled d x \/ fresh_uuid d x) d d2) as Hev.
  { eapply evolves_trans; [exact Hev1|]. eapply evolves_mono; [|exact Hev2]. intros x [Hx%Hsort|Hx].
    - left. destruct (Ha x Hx) as (Hk & ino & Hin%Hdir & Hl). split; [done|]. exists ino. split; [done|].
      intros Hb. rewrite Hb in Hl. done.
    - right. unfold fresh_uuid in *. by rewrite <- Hu1. }
  destruct r2 as [ps|e]; intros [= <- <-]; (split; [done|]); intros rec [= <-].
  destruct (Hps ps eq_refl) as [Hgen Hgone]. split.
  { split; [|done]. cbn. apply Hgen. rewrite merge_sort_Permutation. done. }
  intros name Hk.
  destruct (decide (name ∈ active)) as [Hin|Hin]; [left; apply Hgone; by apply Hsort|].
  assert (~ (filled d name \/ fresh_uuid d name)) as HnT.
  { intros [(_ & ino & Hr & Hb)|(n & _ & Hn)]; [|rewrite (active_uuid name Hk) in Hn; done].
    apply Hin, (Hall name ino); [by apply Hdir|done|]. unfold blen. destruct (bytes_of ino d); [done|]. cbn. lia. }
  destruct (dk_root d !! name) as [[ino|]|] eqn:Hr.
  - right. destruct (ok_ino _ _ _ Hok (false, name) ino Hr) as [[i Hi] _]. exists ino, i.
    rewrite (fr_root _ _ _ (ev_frame _ _ _ _ _ Hev)), (fr_inode _ _ _ (ev_frame _ _ _ _ _ Hev) name) by done.
    split_and!; [done|done|]. destruct (decide (in_bytes i = [])) as [->|Hne]; [done|]. exfalso. apply HnT. left.
    split; [done|]. exists ino. split; [done|]. unfold bytes_of. by rewrite Hi.
  - exfalso. apply Hdir in Hr. rewrite (Hreg _ Hr) in Hk. done.
  - left. by rewrite (fr_root _ _ _ (ev_frame _ _ _ _ _ Hev)).
Qed.

End Replay.
