(* ===== verification/WalCalm.v ===== *)
(** * Recovery without failures

    The same calls of [Wal] when none fails: every file of the directory is read to its end, in
    finitely many batches, and none is left behind. *)

From S2P Require Import Prelude Bytes Utf8 ChunkBlock Bloom ChunkFile Wal WalDisk WalReplay.
From stdpp Require Import sorting.
Local Open Scope Z_scope.

(** ** Calls *)

Definition calm (d : Disk) : Prop := dk_faults d = [].

Lemma syscall_calm {A} (m : Io A) d : calm d -> syscall m d = m d.
Proof. intros Hd. unfold syscall, act_bind, next_fault. by rewrite Hd. Qed.

Lemma file_len_calm path ino d : calm d -> dk_root d !! path = Some (Regular ino) -> file_len path d = (Ok (blen (bytes_of ino d)), d).
Proof. intros Hd Hr. unfold file_len. rewrite syscall_calm by done. unfold act_bind, inode_of. by rewrite Hr. Qed.

Lemma open_read_calm path ino d :
  calm d -> dk_root d !! path = Some (Regular ino) -> open_read path d = (Ok {| rd_bytes := bytes_of ino d; rd_fails := false |}, d).
Proof.
  intros Hd Hr. unfold open_read, act_bind. rewrite syscall_calm by done. unfold inode_of. rewrite Hr.
  unfold next_fault. by rewrite Hd.
Qed.

Lemma defer_file_calm path reason n d :
  calm d -> dk_root d !! path = Some n ->
  exists d', defer_file path reason d = (Ok (), d') /\ calm d' /\ dk_inodes d' = dk_inodes d /\ dk_root d' = delete path (dk_root d).
Proof.
  intros Hd Hr. unfold defer_file, sync_parent. unfold act_bind at 1. rewrite syscall_calm by done. cbn [act_ret].
  unfold act_bind at 1. rewrite syscall_calm by done. cbv beta iota. unfold act_bind at 1. rewrite syscall_calm by done.
  cbn [dk_root]. rewrite Hr. cbv iota. unfold act_bind. rewrite syscall_calm by done. cbn [act_ret].
  rewrite syscall_calm by done. by eexists.
Qed.

Lemma open_append_calm name d :
  calm d -> (forall n, dk_root d !! name = Some n -> exists ino, n = Regular ino) ->
  exists ino d', open_append name d = (Ok ino, d') /\ calm d'.
Proof.
  intros Hd Hn. unfold open_append. rewrite syscall_calm by done. destruct (dk_root d !! name) as [[ino|]|].
  - by exists ino, d.
  - by destruct (Hn _ eq_refl).
  - by do 2 eexists.
Qed.

(** Being done with a file. *)
Lemma generation_remove_calm g ino d :
  calm d -> dk_root d !! wg_path g = Some (Regular ino) ->
  exists d', generation_remove g d = (Ok (), d') /\ calm d' /\ dk_inodes d' = dk_inodes d /\
    dk_root d' = match wg_after_commit g with Retain => dk_root d | _ => delete (wg_path g) (dk_root d) end.
Proof.
  intros Hd Hr. unfold generation_remove. destruct (wg_after_commit g) as [| |reason].
  - unfold removing, remove_file, sync_parent. rewrite syscall_calm, Hr by done. eexists. rewrite syscall_calm by done. by split_and!.
  - by exists d.
  - by eapply defer_file_calm.
Qed.

(** ** Batches *)

(** The files that recovery has still to deal with. *)
Definition names_of (r : WalRecovery) : list string :=
  match wr_current r with Some f => [wg_path (rf_generation f)] | None => [] end ++ map (fun p => p.1.1) (wr_paths r).

Record pending (root : gmap string Node) (names : list string) : Prop := {
  pe_nodup : NoDup names;
  pe_exact name : name ∈ names <-> is_generation name = true /\ is_Some (root !! name);
  pe_regular name n : is_generation name = true -> root !! name = Some n -> exists ino, n = Regular ino
}.

(** A bound on the batches to come. *)
Definition left (d : Disk) (r : WalRecovery) : nat :=
  match wr_current r with Some f => S (work f) | None => 0 end
  + sum_list_with (fun p => S (S (length (bytes_at d p.1.1)))) (wr_paths r).

Lemma pending_at root names name : pending root names -> name ∈ names -> exists ino, root !! name = Some (Regular ino).
Proof. intros [_ He Hr] Hin. apply He in Hin as [Hg [n Hn]]. destruct (Hr _ _ Hg Hn) as [ino ->]. by exists ino. Qed.

(** Only the generations matter. *)
Lemma pending_ext root root' names :
  (forall name, is_generation name = true -> root' !! name = root !! name) -> pending root names -> pending root' names.
Proof.
  intros Hsame [Hnd He Hr]. split; [done| |].
  - intros name. rewrite He. split; intros [Hg Hx]; (split; [done|]); by rewrite ?Hsame in *.
  - intros name n Hg Hn. rewrite Hsame in Hn by done. by eapply Hr.
Qed.

Lemma pending_delete root name names : pending root (name :: names) -> pending (delete name root) names.
Proof.
  intros [Hnd He Hr]. apply NoDup_cons in Hnd as [Hn Hnd]. split; [done| |].
  - intros x. destruct (decide (x = name)) as [->|Hne].
    + rewrite lookup_delete_eq. split; [done|]. intros [_ [? [=]]].
    + rewrite lookup_delete_ne by done. rewrite <- He, elem_of_cons. naive_solver.
  - intros x n Hg [_ Hx]%lookup_delete_Some. by eapply Hr.
Qed.

Lemma left_same d d' r :
  dk_inodes d' = dk_inodes d -> (forall name, name ∈ map (fun p => p.1.1) (wr_paths r) -> dk_root d' !! name = dk_root d !! name) ->
  left d' r = left d r.
Proof.
  intros Hi Hr. unfold left. f_equal. revert Hr. induction (wr_paths r) as [|p ps IH]; intros Hr; [done|].
  cbn [sum_list_with]. rewrite IH.
  - unfold bytes_at. rewrite (Hr p.1.1) by apply list_elem_of_here. unfold bytes_of. by rewrite Hi.
  - intros name Hn. apply Hr. by apply list_elem_of_further.
Qed.

Section Calm.
Context (uuid_text : nat -> string) `{!UuidLaws uuid_text} `{LineJson} `{Crc32}.

Lemma wal_stream_calm id d : calm d -> active_empty id d -> exists w d', wal_stream id d = (Ok w, d') /\ calm d'.
Proof.
  intros Hd Ha. unfold wal_stream, act_bind. destruct (open_append_calm (wal_file_name id) d Hd) as (ino & d1 & -> & Hd1).
  - intros n Hn. destruct Ha as [Ha|(ino & i & Ha & _)]; [congruence|]. exists ino. congruence.
  - rewrite syscall_calm by done. by do 2 eexists.
Qed.

Lemma batch_calm f batch_bytes batch f' :
  rf_unreadable f = None -> read_batch f batch_bytes = (batch, f') ->
  match batch_outcome batch f' with
  | Err _ => False
  | Ok (inr g) => wg_path g = wg_path (rf_generation f) /\ wg_after_commit g <> Retain
  | Ok (inl stream) =>
      exists g, rs_generation stream = Some g /\ wg_path g = wg_path (rf_generation f) /\
        if bt_reached_end batch then wg_after_commit g <> Retain
        else wg_after_commit g = Retain /\ wg_path (rf_generation f') = wg_path (rf_generation f) /\ (S (work f') <= work f)%nat
  end.
Proof.
  intros Hr (taken & Hof)%read_batch_spec; [|done]. destruct Hof as [Hl Hg' Hb' _ Hs He Hm].
  cbn [app] in Hl. unfold batch_outcome. rewrite Hl in *. destruct taken as [|first rest].
  { rewrite Hg'. cbn. split; [done|]. by destruct (rf_unreadable f'). }
  assert (is_Some (bt_start batch)) as [start Hst] by (by apply Hs).
  rewrite Hst, Hg'. destruct (rf_batchable f'); cbn [result_bind]; eexists; (split; [reflexivity|]); cbn; (split; [done|]);
    (destruct (bt_reached_end batch); [by destruct (rf_unreadable f')|]); destruct (Hm eq_refl) as (_ & _ & _ & Hw & _); cbn in Hw;
    (split; [done|]); (split; [done|lia]).
Qed.

(** What a call of [next] gives when nothing fails. *)
Definition calm_next (d : Disk) (bound : nat) (m : Io (option RecoveredStream * WalRecovery)) : Prop :=
  exists res d', m d = (Ok res, d') /\ calm d' /\ dk_inodes d' = dk_inodes d /\
    match res with
    | (None, _) => pending (dk_root d') []
    | (Some stream, r') =>
        exists g, rs_generation stream = Some g /\ (exists ino, dk_root d' !! wg_path g = Some (Regular ino)) /\
          pending (match wg_after_commit g with Retain => dk_root d' | _ => delete (wg_path g) (dk_root d') end) (names_of r') /\
          (left d' r' < bound)%nat
    end.

Lemma calm_next_step d d1 bound bound' m m1 :
  (forall res d', m1 d1 = (res, d') -> m d = (res, d')) -> dk_inodes d1 = dk_inodes d -> (bound' <= bound)%nat ->
  calm_next d1 bound' m1 -> calm_next d bound m.
Proof.
  intros Hm Hi Hb (res & d' & Hrun & Hc & Hi' & Hres). exists res, d'. split_and!; [by apply Hm|done|congruence|].
  destruct res as [[stream|] r']; [|done]. destruct Hres as (g & Hg & Hino & Hp & Hlt). exists g. split_and!; [done|done|done|lia].
Qed.

Lemma next_batch_calm again f s d :
  calm d -> rf_unreadable f = None -> pending (dk_root d) (wg_path (rf_generation f) :: map (fun p => p.1.1) (wr_paths s)) ->
  (forall d1, calm d1 -> pending (dk_root d1) (map (fun p => p.1.1) (wr_paths s)) ->
     calm_next d1 (left d1 (with_current s None)) (again (with_current s None))) ->
  calm_next d (S (work f) + left d (with_current s None)) (next_batch again f s).
Proof.
  intros Hd Hr Hp Hagain. destruct (pending_at _ _ _ Hp (list_elem_of_here _ _)) as [ino Hino].
  unfold next_batch. destruct (read_batch f (wr_batch_bytes s)) as [batch f'] eqn:Hb.
  pose proof (batch_calm _ _ _ _ Hr Hb) as Hout. destruct (batch_outcome batch f') as [[stream|g]|e] eqn:Ho; [..|done].
  - destruct Hout as (g & Hg & Hpath & Hend). eexists _, d. split_and!; [reflexivity|done|done|]. exists g. rewrite Hpath.
    split_and!; [done|by exists ino| |].
    + unfold names_of. cbn. destruct (bt_reached_end batch).
      * destruct (wg_after_commit g); [|done|]; by apply pending_delete.
      * destruct Hend as (-> & -> & _). exact Hp.
    + unfold left. cbn. destruct (bt_reached_end batch); [lia|]. destruct Hend as (_ & _ & Hw). lia.
  - destruct Hout as [Hpath Hnr]. destruct (generation_remove_calm g ino d Hd ltac:(by rewrite Hpath)) as (d1 & Hrun & Hc1 & Hi1 & Hroot1).
    assert (dk_root d1 = delete (wg_path (rf_generation f)) (dk_root d)) as Hroot by (rewrite Hroot1, Hpath; by destruct (wg_after_commit g)).
    assert (left d1 (with_current s None) = left d (with_current s None)) as Hleft.
    { apply left_same; [done|]. intros name Hn. rewrite Hroot, lookup_delete_ne; [done|]. intros <-.
      destruct Hp as [Hnd _ _]. by apply NoDup_cons in Hnd as [? _]. }
    apply (calm_next_step d d1 _ (left d1 (with_current s None)) _ (again (with_current s None))); [|done|lia|].
    + intros res d' Hx. unfold act_bind. by rewrite Hrun.
    + apply Hagain; [done|]. rewrite Hroot. by apply pending_delete.
Qed.

Lemma with_current_id r : wr_current r = None -> with_current r None = r.
Proof. destruct r. cbn. by intros ->. Qed.

Lemma next_loop_calm fuel r d :
  calm d -> (forall f, wr_current r = Some f -> rf_unreadable f = None) -> pending (dk_root d) (names_of r) ->
  (length (names_of r) < fuel)%nat -> calm_next d (left d r) (next_loop fuel r).
Proof.
  revert r d. induction fuel as [|fuel IH]; intros r d Hd Hcur Hp Hf; [lia|].
  assert (forall s d1, (length (wr_paths s) < fuel)%nat -> calm d1 -> pending (dk_root d1) (map (fun p => p.1.1) (wr_paths s)) ->
    calm_next d1 (left d1 (with_current s None)) (next_loop fuel (with_current s None))) as Hagain.
  { intros s d1 Hs Hd1 Hp1. apply IH; [done|done|done|]. unfold names_of. cbn. by rewrite length_map. }
  cbn [next_loop]. unfold names_of in *. destruct (wr_current r) as [f|] eqn:Hc.
  { assert (left d r = S (work f) + left d (with_current r None))%nat as ->.
    { unfold left. by rewrite Hc. }
    cbn [app length] in *. rewrite length_map in Hf. apply next_batch_calm; [done|by apply Hcur|done|].
    intros d1. apply Hagain. lia. }
  destruct (wr_paths r) as [|[[path wb] batchable] paths] eqn:Hps.
  { exists (None, r), d. split_and!; try done. }
  cbn [app map length fst] in *. rewrite length_map in Hf.
  destruct (pending_at _ _ _ Hp (list_elem_of_here _ _)) as [ino Hino]. cbv zeta.
  set (s := with_paths r paths). assert (wr_current s = None) as Hcs by done. rewrite <- (with_current_id s Hcs).
  assert (left d r = S (S (length (bytes_of ino d))) + left d (with_current s None))%nat as Hleft.
  { unfold left. rewrite Hc, Hps. cbn. unfold bytes_at at 1. by rewrite Hino. }
  rewrite Hleft. pose proof (file_len_calm path ino d Hd Hino) as Hlen.
  destruct (negb batchable && (wr_whole_generation_limit (with_current s None) <? blen (bytes_of ino d))) eqn:Hbig.
  - destruct (defer_file_calm path (TooLargeToReplay (blen (bytes_of ino d)) (wr_whole_generation_limit (with_current s None))) _ d Hd Hino)
      as (d1 & Hrun & Hc1 & Hi1 & Hroot1).
    assert (left d1 (with_current s None) = left d (with_current s None)) as Hsame.
    { apply left_same; [done|]. intros name Hn. rewrite Hroot1, lookup_delete_ne; [done|]. intros <-.
      destruct Hp as [Hnd _ _]. by apply NoDup_cons in Hnd as [? _]. }
    apply (calm_next_step d d1 _ (left d1 (with_current s None)) _ (next_loop fuel (with_current s None))); [|done|lia|].
    + intros res d' Hx. unfold act_bind. by rewrite Hlen, Hbig, Hrun.
    + apply Hagain; [cbn; lia|done|]. rewrite Hroot1. by apply pending_delete.
  - set (f := recovery_file {| rd_bytes := bytes_of ino d; rd_fails := false |} path wb batchable).
    apply (calm_next_step d d _ (S (work f) + left d (with_current s None)) _ (next_batch (next_loop fuel) f (with_current s None))).
    + intros res d' Hx. unfold act_bind. by rewrite Hlen, Hbig, (open_read_calm path ino d Hd Hino).
    + done.
    + unfold work, f. cbn. lia.
    + apply (next_batch_calm _ f (with_current s None)); [done|done|done|]. intros d1. apply Hagain. cbn. lia.
Qed.

(** ** The start of a recovery *)

Context (good : LogLine -> Prop).
#[local] Abbreviation disk_ok := (disk_ok uuid_text good).

Lemma freeze_active_file_calm with_bloom name n d :
  calm d -> dk_root d !! name = Some n -> let to := with_extension name (uuid_text (dk_uuids d) +:+ "." +:+ bloom_suffix with_bloom +:+ ".recovery-wal") in
  exists d', freeze_active_file uuid_text with_bloom name d = (Ok (to, with_bloom, true), d') /\ calm d' /\
    dk_root d' = <[to := n]> (delete name (dk_root d)).
Proof.
  intros Hd Hn to. unfold freeze_active_file, act_bind, new_uuid, rename, sync_parent. rewrite syscall_calm by done.
  cbn [dk_root dk_uuids]. rewrite Hn. rewrite syscall_calm by done. by eexists.
Qed.

Lemma pending_rename root names from to ino :
  let n := Regular ino in
  pending root names -> root !! from = Some n -> is_generation from = false -> is_generation to = true -> root !! to = None ->
  pending (<[to := n]> (delete from root)) (names ++ [to]).
Proof.
  intros n [Hnd He Hr] Hfrom Hgf Hgt Hto. split.
  - apply list.NoDup_app. split_and!; [done| |by apply list.NoDup_singleton]. intros x Hx ->%list_elem_of_singleton.
    apply He in Hx as [_ Hx]. rewrite Hto in Hx. by destruct Hx.
  - intros x. rewrite elem_of_app, list_elem_of_singleton, He. destruct (decide (x = to)) as [->|Hne].
    + rewrite lookup_insert_eq. split; [by eauto|by right].
    + rewrite lookup_insert_ne by done. destruct (decide (x = from)) as [->|Hne'].
      * rewrite lookup_delete_eq, Hgf. split; [by intros [[? _]|?]|by intros [? _]].
      * rewrite lookup_delete_ne by done. naive_solver.
  - intros x m Hg [[_ <-]|[_ [_ Hx]%lookup_delete_Some]]%lookup_insert_Some; [by exists ino|by eapply Hr].
Qed.

Lemma freeze_active_files_calm with_bloom names paths d :
  calm d -> disk_ok d -> NoDup names -> (forall name, name ∈ names -> wal_kind name = Some ActiveWal /\ is_Some (dk_root d !! name)) ->
  pending (dk_root d) (map (fun p => p.1.1) paths) ->
  exists ps d', freeze_active_files uuid_text with_bloom names paths d = (Ok ps, d') /\ calm d' /\
    pending (dk_root d') (map (fun p => p.1.1) ps).
Proof.
  revert paths d. induction names as [|name names IH]; intros paths d Hd Hok Hnd Hn Hp; [by exists paths, d|].
  apply NoDup_cons in Hnd as [Hnot Hnd]. destruct (Hn name (list_elem_of_here _ _)) as [Hk [n Hnode]].
  destruct (ok_regular _ _ d Hok (false, name) n Hnode) as [ino ->]. set (n := Regular ino) in *.
  destruct (freeze_active_file_calm with_bloom name n d Hd Hnode) as (d1 & Hrun & Hd1 & Hroot1). set (to := with_extension _ _) in *.
  destruct (recovery_name uuid_text name (dk_uuids d) with_bloom) as [Hu [Hgt _]]. fold to in Hu, Hgt.
  destruct (fresh_name uuid_text good d to Hok Hu) as [Hto _].
  assert (is_generation name = false) as Hgf by (unfold is_generation; by rewrite Hk).
  cbn [freeze_active_files]. unfold act_bind at 1. rewrite Hrun.
  destruct (IH (paths ++ [(to, with_bloom, true)]) d1) as (ps & d2 & Hrun2 & Hd2 & Hp2); [done| |done| | |by exists ps, d2].
  - by destruct (freeze_active_file_ok uuid_text good _ _ _ _ _ Hok Hrun) as [[? _ _] _].
  - intros x Hx. destruct (Hn x) as [Hkx Hsx]; [by apply list_elem_of_further|]. split; [done|]. rewrite Hroot1.
    rewrite lookup_insert_ne, lookup_delete_ne; [done|by intros <-|]. intros Hxt. subst x. rewrite Hto in Hsx. by destruct Hsx.
  - rewrite Hroot1, map_app. by apply pending_rename.
Qed.

(** The listing takes up every generation, and active files once each. *)
Record taken_up (entries : list string) (acc acc' : list (string * bool * bool) * list string) : Prop := {
  tu_paths : map (fun p => p.1.1) acc'.1 = map (fun p => p.1.1) acc.1 ++ List.filter is_generation entries;
  tu_active : exists more, acc'.2 = acc.2 ++ more /\ more `sublist_of` entries /\ Forall (fun name => wal_kind name = Some ActiveWal) more
}.

Lemma classify_calm len acc name ino :
  wal_kind name = Some ActiveWal \/ generation_name name ->
  exists acc', classify len acc (name, Regular ino) = Ok acc' /\ taken_up [name] acc acc'.
Proof.
  destruct acc as [paths active]. unfold classify, generation_name. intros Hk.
  assert (is_generation name = false /\ wal_kind name = Some ActiveWal \/ is_generation name = true /\ is_Some (bloom_choice name) /\
    (wal_kind name = Some SealedWal \/ wal_kind name = Some RecoveryWal)) as [[Hg Ha]|(Hg & [wb Hb] & Hs)].
  { unfold is_generation in *. destruct Hk as [->|[Hg Hb]]; [by left|]. right. destruct (wal_kind name) as [[]|]; try done; auto. }
  - rewrite Ha. eexists. split; [reflexivity|]. split; cbn [fst snd List.filter]; [rewrite Hg; by rewrite app_nil_r|].
    destruct (0 <? len ino); [exists [name]|exists []; rewrite app_nil_r]; split_and!; try done; [by repeat constructor|apply sublist_nil_l].
  - rewrite Hb. assert (exists batchable, classify len (paths, active) (name, Regular ino) = Ok (paths ++ [(name, wb, batchable)], active)) as [batchable Hc].
    { unfold classify. rewrite Hb. destruct Hs as [-> | ->]; by eexists. }
    unfold classify in Hc. rewrite Hb in Hc. rewrite Hc. eexists. split; [reflexivity|]. split; cbn [fst snd List.filter]; rewrite ?Hg.
    + by rewrite map_app.
    + exists []. rewrite app_nil_r. split_and!; [done|apply sublist_nil_l|done].
Qed.

Lemma classify_all_calm len entries acc :
  (forall name n, (name, n) ∈ entries -> (exists ino, n = Regular ino) /\ (wal_kind name = Some ActiveWal \/ generation_name name)) ->
  exists acc', result_fold (classify len) entries acc = Ok acc' /\ taken_up (map fst entries) acc acc'.
Proof.
  revert acc. induction entries as [|[name n] entries IH]; intros acc Hall.
  { exists acc. split; [done|]. split; [by rewrite app_nil_r|]. exists []. by rewrite app_nil_r. }
  destruct (Hall name n (list_elem_of_here _ _)) as [[ino ->] Hk].
  destruct (classify_calm len acc name ino Hk) as (acc1 & Hc & [Hm (more & Ha & Hsub & Hact)]).
  destruct (IH acc1) as (acc2 & Hr & [Hm2 (more2 & Ha2 & Hsub2 & Hact2)]).
  { intros x m Hx. apply Hall. by apply list_elem_of_further. }
  exists acc2. cbn [result_fold]. rewrite Hc. cbn [result_bind]. split; [done|]. split.
  - rewrite Hm2, Hm, <- app_assoc. cbn [map fst List.filter]. by destruct (is_generation name).
  - exists (more ++ more2). rewrite Ha2, Ha, <- app_assoc. split_and!; [done| |by apply Forall_app].
    change (map fst ((name, Regular ino) :: entries)) with ([name] ++ map fst entries). by apply sublist_app.
Qed.

Context (dir_order : gmap string Node -> list (string * Node)) (path_le : string -> string -> Prop) `{!RelDecision path_le}.
Hypothesis dir_order_all : forall m, dir_order m ≡ₚ map_to_list m.

#[local] Existing Instance generation_le_dec.

Lemma recover_batched_calm batch_bytes with_bloom d :
  calm d -> disk_ok d ->
  exists rec d', recover_batched uuid_text dir_order path_le batch_bytes with_bloom d = (Ok rec, d') /\ calm d' /\
    wr_current rec = None /\ pending (dk_root d') (names_of rec).
Proof.
  intros Hd Hok. unfold recover_batched. unfold act_bind at 1. rewrite syscall_calm by done.
  set (len := fun ino => blen (bytes_of ino d)).
  assert (forall name n, (name, n) ∈ dir_order (dk_root d) <-> dk_root d !! name = Some n) as Hdir.
  { intros name n. rewrite (dir_order_all (dk_root d)). apply elem_of_map_to_list. }
  assert (NoDup (map fst (dir_order (dk_root d)))) as Hnd.
  { rewrite (dir_order_all (dk_root d)). apply NoDup_fst_map_to_list. }
  assert (forall name, name ∈ map fst (dir_order (dk_root d)) <-> is_Some (dk_root d !! name)) as Hnames.
  { intros name. rewrite list_elem_of_fmap. split.
    - intros ([x n] & -> & Hx%Hdir). by exists n.
    - intros [n Hn]. exists (name, n). by split; [|apply Hdir]. }
  destruct (classify_all_calm len (dir_order (dk_root d)) ([], [])) as ([paths active] & Hrun & [Hm (more & Ha & Hsub & Hact)]).
  { intros name n Hn%Hdir. split; [by apply (ok_regular _ _ d Hok (false, name))|].
    destruct (ok_kind _ _ d Hok (false, name) ltac:(by exists n)) as [|[? _]]; [by left|by right]. }
  rewrite Hrun. cbn [fst snd map app] in Hm, Ha. subst active. unfold act_bind.
  destruct (freeze_active_files_calm with_bloom (merge_sort path_le more) (merge_sort (generation_le path_le) paths) d) as (ps & d' & Hf & Hd' & Hp').
  - done.
  - done.
  - rewrite merge_sort_Permutation. by eapply sublist_NoDup.
  - intros name Hn. rewrite merge_sort_Permutation in Hn. split; [by eapply list.Forall_forall in Hact|].
    apply Hnames. by eapply elem_of_sublist.
  - assert (map (fun p => p.1.1) (merge_sort (generation_le path_le) paths) ≡ₚ List.filter is_generation (map fst (dir_order (dk_root d)))) as Hperm.
    { rewrite <- Hm. apply Permutation_map, merge_sort_Permutation. }
    split.
    + rewrite Hperm. by apply NoDup_ListNoDup, List.NoDup_filter, NoDup_ListNoDup.
    + intros name. rewrite Hperm. rewrite <- Hnames. rewrite !list_elem_of_In, List.filter_In. naive_solver.
    + intros name n _ Hn. by apply (ok_regular _ _ d Hok (false, name)).
  - rewrite Hf. eexists _, d'. split_and!; [reflexivity|done|done|]. done.
Qed.

End Calm.
