(* ===== verification/HeadBuffer.v ===== *)
(** * Head buffers

    The per-container buffer of unsealed lines of
    [crates/temps-log-aggregator/src/services/chunk_writer.rs] ([HeadBuffer], [BufferStats]): frozen
    segments, the active tail, the lines a seal is working on, and the running statistics that
    stand in for the lines when a query looks for buffers to read. *)

From S2P Require Import Prelude Bytes Utf8 ChunkBlock Bloom ChunkFile ChunkScan Wal.
Local Open Scope Z_scope.

Definition LINE_OVERHEAD_BYTES : Z := 64.
Definition SEGMENT_MAX_LINES : Z := 1024.
Definition SEGMENT_MAX_BYTES : Z := 256 * 1024.
Definition DEFAULT_HEAD_MAX_BYTES : Z := 8 * 1024 * 1024.
Definition FLUSH_AGE_SECS : Z := 5 * 60.
Definition MIN_FLUSH_BYTES : Z := 64 * 1024.
Definition MAX_FLUSH_AGE_SECS : Z := 30 * 60.

Record Thresholds := {
  th_head_max_bytes : Z;
  th_flush_age_secs : Z;
  th_min_flush_bytes : Z;
  th_max_flush_age_secs : Z;
  th_generation_max_bytes : Z
}.

Definition default_thresholds : Thresholds := {|
  th_head_max_bytes := DEFAULT_HEAD_MAX_BYTES;
  th_flush_age_secs := FLUSH_AGE_SECS;
  th_min_flush_bytes := MIN_FLUSH_BYTES;
  th_max_flush_age_secs := MAX_FLUSH_AGE_SECS;
  th_generation_max_bytes := MAX_GENERATION_BYTES |}.

Section HeadBuffer.
Context `{Chrono} `{Json}.

Record BufferStats := {
  bs_started_at : option DateTime;
  bs_ended_at : option DateTime;
  bs_level_mask : Z;
  bs_line_count : Z;
  bs_level_counts : list Z
}.

Definition default_stats : BufferStats := {|
  bs_started_at := None; bs_ended_at := None; bs_level_mask := 0; bs_line_count := 0;
  bs_level_counts := replicate LEVEL_COUNT 0 |}.

(** [BufferStats::record]. *)
Definition stats_record (s : BufferStats) (line : LogLine) : BufferStats := {|
  bs_started_at := min_with (bs_started_at s) (ll_ts line);
  bs_ended_at := max_with (bs_ended_at s) (ll_ts line);
  bs_level_mask := Z.lor (bs_level_mask s) (level_bit (ll_level line));
  bs_line_count := wrap 32 (bs_line_count s + 1);
  bs_level_counts := bump (bs_level_counts s) (level_to_u8 (ll_level line)) |}.

(** [BufferStats::merge]. *)
Definition stats_merge (a b : BufferStats) : BufferStats := {|
  bs_started_at := match bs_started_at a, bs_started_at b with
                   | Some x, Some y => Some (if dt_leb x y then x else y)
                   | x, y => match x with Some _ => x | None => y end
                   end;
  bs_ended_at := match bs_ended_at a, bs_ended_at b with
                 | Some x, Some y => Some (if dt_leb y x then x else y)
                 | x, y => match x with Some _ => x | None => y end
                 end;
  bs_level_mask := Z.lor (bs_level_mask a) (bs_level_mask b);
  bs_line_count := wrap 32 (bs_line_count a + bs_line_count b);
  bs_level_counts := zip_with (fun x y => wrap 32 (x + y)) (bs_level_counts a) (bs_level_counts b) |}.

Record HeadBuffer := {
  hb_identity : ChunkIdentity;
  hb_segments : list (list LogLine);
  hb_active : list LogLine;
  hb_active_bytes : Z;
  hb_bytes : Z;
  hb_opened_at : Z;
  hb_sealing : option (list (list LogLine));
  hb_stats : BufferStats;
  hb_sealing_stats : option BufferStats;
  hb_wal : option StreamWal;
  hb_recovered_generation : option WalGeneration
}.

(** [HeadBuffer::new] at time [now]. *)
Definition buffer_new (identity : ChunkIdentity) (wal : option StreamWal) (now : Z) : HeadBuffer := {|
  hb_identity := identity; hb_segments := []; hb_active := []; hb_active_bytes := 0; hb_bytes := 0; hb_opened_at := now;
  hb_sealing := None; hb_stats := default_stats; hb_sealing_stats := None; hb_wal := wal;
  hb_recovered_generation := None |}.

(** [HeadBuffer::is_empty]. *)
Definition buffer_is_empty (b : HeadBuffer) : bool := bool_decide (hb_segments b = []) && bool_decide (hb_active b = []).

(** [HeadBuffer::freeze_active]. *)
Definition freeze_active (b : HeadBuffer) : HeadBuffer :=
  match hb_active b with
  | [] => b
  | _ =>
      {| hb_identity := hb_identity b; hb_segments := hb_segments b ++ [hb_active b]; hb_active := []; hb_active_bytes := 0;
         hb_bytes := hb_bytes b; hb_opened_at := hb_opened_at b; hb_sealing := hb_sealing b; hb_stats := hb_stats b;
         hb_sealing_stats := hb_sealing_stats b; hb_wal := hb_wal b; hb_recovered_generation := hb_recovered_generation b |}
  end.

(** [HeadBuffer::push_line]. *)
Definition push_line (b : HeadBuffer) (line : LogLine) : HeadBuffer :=
  let msg_len := blen (encode_str (ll_msg line)) in
  let b' :=
    {| hb_identity := hb_identity b; hb_segments := hb_segments b; hb_active := hb_active b ++ [line];
       hb_active_bytes := hb_active_bytes b + msg_len; hb_bytes := hb_bytes b + (msg_len + LINE_OVERHEAD_BYTES);
       hb_opened_at := hb_opened_at b; hb_sealing := hb_sealing b; hb_stats := stats_record (hb_stats b) line;
       hb_sealing_stats := hb_sealing_stats b; hb_wal := hb_wal b; hb_recovered_generation := hb_recovered_generation b |} in
  if (SEGMENT_MAX_LINES <=? Z.of_nat (length (hb_active b'))) || (SEGMENT_MAX_BYTES <=? hb_active_bytes b')
  then freeze_active b' else b'.

(** [HeadBuffer::should_seal] at time [now]. *)
Definition should_seal (b : HeadBuffer) (t : Thresholds) (head_max_bytes now : Z) : bool :=
  if buffer_is_empty b then false
  else if head_max_bytes <=? hb_bytes b then true
  else
    let age_secs := now - hb_opened_at b in
    if (th_flush_age_secs t <=? age_secs) && (th_min_flush_bytes t <=? hb_bytes b) then true
    else if th_max_flush_age_secs t <=? age_secs then true
    else false.

(** [HeadBuffer::build_snapshot]. *)
Definition build_snapshot (b : HeadBuffer) : option HeadSnapshot :=
  let segments := default [] (hb_sealing b) ++ hb_segments b ++ match hb_active b with [] => [] | a => [a] end in
  match segments with
  | [] => None
  | _ => Some segments
  end.

(** [HeadBuffer::summary_labels]. *)
Definition summary_labels (b : HeadBuffer) : option ChunkLabels :=
  let combined := match hb_sealing_stats b with
                  | Some sealing => stats_merge sealing (hb_stats b)
                  | None => hb_stats b
                  end in
  if bs_line_count combined =? 0 then None
  else
    started_at ← bs_started_at combined;
    ended_at ← bs_ended_at combined;
    Some {| cl_project_id := ci_project_id (hb_identity b);
            cl_external_service_id := ci_external_service_id (hb_identity b);
            cl_env := ci_env (hb_identity b);
            cl_service := ci_service (hb_identity b);
            cl_container_id := ci_container_id (hb_identity b);
            cl_deploy_id := ci_deploy_id (hb_identity b);
            cl_node_id := ci_node_id (hb_identity b);
            cl_node_name := ci_node_name (hb_identity b);
            cl_started_at := started_at;
            cl_ended_at := ended_at;
            cl_line_count := bs_line_count combined;
            cl_level_mask := bs_level_mask combined;
            cl_level_counts := bs_level_counts combined |}.

Definition identity_from_line (line : LogLine) : ChunkIdentity := {|
  ci_project_id := ll_project_id line;
  ci_external_service_id := ll_external_service_id line;
  ci_env := ll_env line;
  ci_service := ll_service line;
  ci_container_id := ll_container_id line;
  ci_deploy_id := ll_deploy_id line;
  ci_node_id := ll_node_id line;
  ci_node_name := ll_node_name line |}.

(** The lock section of [seal_inner] once a generation is there: the lines move to [sealing]. *)
Definition begin_sealing (b : HeadBuffer) (now : Z) : HeadBuffer :=
  {| hb_identity := hb_identity b; hb_segments := []; hb_active := hb_active b; hb_active_bytes := hb_active_bytes b;
     hb_bytes := 0; hb_opened_at := now; hb_sealing := Some (hb_segments b); hb_stats := default_stats;
     hb_sealing_stats := Some (hb_stats b); hb_wal := hb_wal b; hb_recovered_generation := hb_recovered_generation b |}.

(** [drop_sealing] and the end of [seal_inner]. *)
Definition end_sealing (b : HeadBuffer) : HeadBuffer :=
  {| hb_identity := hb_identity b; hb_segments := hb_segments b; hb_active := hb_active b; hb_active_bytes := hb_active_bytes b;
     hb_bytes := hb_bytes b; hb_opened_at := hb_opened_at b; hb_sealing := None; hb_stats := hb_stats b;
     hb_sealing_stats := None; hb_wal := hb_wal b; hb_recovered_generation := hb_recovered_generation b |}.

Definition with_wal (b : HeadBuffer) (wal : option StreamWal) (recovered : option WalGeneration) : HeadBuffer :=
  {| hb_identity := hb_identity b; hb_segments := hb_segments b; hb_active := hb_active b; hb_active_bytes := hb_active_bytes b;
     hb_bytes := hb_bytes b; hb_opened_at := hb_opened_at b; hb_sealing := hb_sealing b; hb_stats := hb_stats b;
     hb_sealing_stats := hb_sealing_stats b; hb_wal := wal; hb_recovered_generation := recovered |}.

(** ** Lines and statistics *)

(** The lines that no seal has taken, and those a reader sees. *)
Definition unsealed (b : HeadBuffer) : list LogLine := mjoin (hb_segments b) ++ hb_active b.
Definition in_seal (b : HeadBuffer) : list LogLine := mjoin (default [] (hb_sealing b)).
Definition visible (b : HeadBuffer) : list LogLine := in_seal b ++ unsealed b.

Definition stats_of (ls : list LogLine) : BufferStats := fold_left stats_record ls default_stats.

Record buffer_ok (b : HeadBuffer) : Prop := {
  bk_stats : hb_stats b = stats_of (unsealed b);
  bk_sealing : hb_sealing_stats b = option_map (fun segs => stats_of (mjoin segs)) (hb_sealing b);
  bk_segments : Forall (fun s => s <> []) (hb_segments b);
  bk_in_seal : match hb_sealing b with Some segs => segs <> [] /\ Forall (fun s => s <> []) segs | None => True end
}.

Lemma unsealed_freeze b : unsealed (freeze_active b) = unsealed b.
Proof.
  unfold unsealed, freeze_active. destruct (hb_active b) as [|l a] eqn:Ha; [by rewrite Ha|]. cbn.
  rewrite join_app. cbn. by rewrite !app_nil_r.
Qed.

Lemma freeze_active_same b :
  hb_sealing (freeze_active b) = hb_sealing b /\ hb_wal (freeze_active b) = hb_wal b /\
  hb_identity (freeze_active b) = hb_identity b /\ hb_recovered_generation (freeze_active b) = hb_recovered_generation b /\
  hb_active (freeze_active b) = [].
Proof. unfold freeze_active. by destruct (hb_active b) eqn:Ha. Qed.

Lemma freeze_active_ok b : buffer_ok b -> buffer_ok (freeze_active b).
Proof.
  intros [Hs Hse Hf Hi]. split; rewrite ?unsealed_freeze; unfold freeze_active;
    destruct (hb_active b) as [|l a] eqn:Ha; cbn; try done.
  apply Forall_app. by repeat constructor.
Qed.

Lemma unsealed_push b line : unsealed (push_line b line) = unsealed b ++ [line].
Proof.
  unfold push_line. cbv zeta. destruct (_ || _); rewrite ?unsealed_freeze; unfold unsealed; cbn; by rewrite app_assoc.
Qed.

Lemma push_line_same b line :
  hb_sealing (push_line b line) = hb_sealing b /\ hb_wal (push_line b line) = hb_wal b /\
  hb_identity (push_line b line) = hb_identity b /\ hb_recovered_generation (push_line b line) = hb_recovered_generation b.
Proof.
  unfold push_line. cbv zeta. destruct (_ || _); [|done]. match goal with |- context [freeze_active ?x] =>
    destruct (freeze_active_same x) as (-> & -> & -> & -> & _) end. done.
Qed.

Lemma push_line_ok b line : buffer_ok b -> buffer_ok (push_line b line).
Proof.
  intros [Hs Hse Hf Hi].
  assert (forall b', hb_sealing b' = hb_sealing b -> hb_sealing_stats b' = hb_sealing_stats b -> hb_segments b' = hb_segments b ->
    hb_stats b' = stats_record (hb_stats b) line -> unsealed b' = unsealed b ++ [line] -> buffer_ok b') as Hpush.
  { intros b' H1 H2 H3 H4 H5. split; rewrite ?H1, ?H2, ?H3, ?H4, ?H5; try done.
    rewrite Hs. unfold stats_of. by rewrite fold_left_app. }
  unfold push_line. cbv zeta. destruct (_ || _); [apply freeze_active_ok|]; apply Hpush; try done; unfold unsealed; cbn; by rewrite app_assoc.
Qed.

Lemma begin_sealing_ok b now :
  buffer_ok b -> hb_active b = [] -> hb_segments b <> [] ->
  buffer_ok (begin_sealing b now) /\ unsealed (begin_sealing b now) = [] /\ in_seal (begin_sealing b now) = unsealed b.
Proof.
  intros [Hs Hse Hf Hi] Ha Hn. split_and!.
  - split; cbn; try done. + unfold unsealed. cbn. by rewrite Ha. + rewrite Hs. unfold unsealed. by rewrite Ha, app_nil_r.
  - unfold unsealed. cbn. by rewrite Ha.
  - unfold in_seal, unsealed. cbn. by rewrite Ha, app_nil_r.
Qed.

Lemma end_sealing_ok b : buffer_ok b -> buffer_ok (end_sealing b).
Proof. intros [Hs Hse Hf Hi]. by split. Qed.

Lemma buffer_new_ok identity wal now : buffer_ok (buffer_new identity wal now).
Proof. by split; cbn. Qed.

Lemma snapshot_visible b : mjoin (default [] (build_snapshot b)) = visible b.
Proof.
  unfold build_snapshot, visible, in_seal, unsealed.
  set (tail := match hb_active b with [] => [] | a => [a] end).
  assert (mjoin tail = hb_active b) as Ht by (unfold tail; destruct (hb_active b); [done|]; cbn; by rewrite app_nil_r).
  destruct (default [] (hb_sealing b) ++ hb_segments b ++ tail) as [|s ss] eqn:He.
  - apply app_eq_nil in He as [H1 [H2 H3]%app_eq_nil]. rewrite H1, H2, <- Ht, H3. done.
  - transitivity (mjoin (default [] (hb_sealing b) ++ hb_segments b ++ tail)); [by rewrite He|].
    rewrite !join_app, Ht. done.
Qed.

Definition at_level (i : nat) (ls : list LogLine) : Z :=
  Z.of_nat (length (List.filter (fun l => level_to_u8 (ll_level l) =? Z.of_nat i) ls)).

(** What statistics say of the lines they were taken from. *)
Record covers (ls : list LogLine) (s : BufferStats) : Prop := {
  cv_started : match bs_started_at s with Some t => forall l, l ∈ ls -> dt_leb t (ll_ts l) = true | None => ls = [] end;
  cv_ended : match bs_ended_at s with Some t => forall l, l ∈ ls -> dt_leb (ll_ts l) t = true | None => ls = [] end;
  cv_mask : bs_level_mask s = level_mask_of ls;
  cv_count : bs_line_count s = wrap 32 (Z.of_nat (length ls));
  cv_counts : bs_level_counts s = map (fun i => wrap 32 (at_level i ls)) (seq 0 LEVEL_COUNT)
}.

Lemma wrap_add a b : wrap 32 (wrap 32 a + wrap 32 b) = wrap 32 (a + b).
Proof. unfold wrap. by rewrite <- Zplus_mod. Qed.

Lemma wrap_add_l a b : wrap 32 (wrap 32 a + b) = wrap 32 (a + b).
Proof. unfold wrap. by rewrite Zplus_mod_idemp_l. Qed.

Lemma at_level_app i a b : at_level i (a ++ b) = at_level i a + at_level i b.
Proof. unfold at_level. rewrite List.filter_app, length_app. lia. Qed.

Lemma bump_levels ls l :
  bump (map (fun i => wrap 32 (at_level i ls)) (seq 0 LEVEL_COUNT)) (level_to_u8 (ll_level l)) =
  map (fun i => wrap 32 (at_level i (ls ++ [l]))) (seq 0 LEVEL_COUNT).
Proof.
  assert (forall i, at_level i (ls ++ [l]) = at_level i ls + if level_to_u8 (ll_level l) =? Z.of_nat i then 1 else 0) as Ha.
  { intros i. rewrite at_level_app. unfold at_level at 2. cbn. by destruct (_ =? _). }
  unfold bump. cbn [LEVEL_COUNT seq map]. rewrite !Ha.
  destruct (ll_level l); cbv -[wrap Z.add at_level]; rewrite ?Z.add_0_r, ?wrap_add_l; done.
Qed.

Context `{!ChronoLaws _}.

Lemma stats_covers ls : covers ls (stats_of ls).
Proof.
  induction ls as [|l ls IH] using rev_ind; [by split; cbn|]. unfold stats_of. rewrite fold_left_app. cbn [fold_left].
  fold (stats_of ls). destruct IH as [Hs He Hm Hc Hk]. split; cbn [stats_record bs_started_at bs_ended_at bs_level_mask bs_line_count bs_level_counts].
  - destruct (min_with_spec (bs_started_at (stats_of ls)) (ll_ts l)) as (t & -> & Ht & Hold).
    intros l' [Hin| ->%list_elem_of_singleton]%elem_of_app; [|done].
    destruct (bs_started_at (stats_of ls)) as [t0|]; [|subst ls; by apply elem_of_nil in Hin].
    eapply dt_le_trans; [by apply Hold|by apply Hs].
  - destruct (max_with_spec (bs_ended_at (stats_of ls)) (ll_ts l)) as (t & -> & Ht & Hold).
    intros l' [Hin| ->%list_elem_of_singleton]%elem_of_app; [|done].
    destruct (bs_ended_at (stats_of ls)) as [t0|]; [|subst ls; by apply elem_of_nil in Hin].
    eapply dt_le_trans; [by apply He|by apply Hold].
  - rewrite Hm. unfold level_mask_of. by rewrite fold_left_app.
  - rewrite Hc, wrap_add_l, length_app. f_equal. cbn. lia.
  - by rewrite Hk, bump_levels.
Qed.

Lemma level_mask_of_app a b : level_mask_of (a ++ b) = Z.lor (level_mask_of a) (level_mask_of b).
Proof.
  unfold level_mask_of. rewrite fold_left_app. set (m := fold_left _ a 0). clearbody m. revert m.
  induction b as [|l b IH] using rev_ind; intros m; [by rewrite Z.lor_0_r|]. rewrite !fold_left_app. cbn.
  by rewrite IH, Z.lor_assoc.
Qed.

Lemma merge_covers a b sa sb : covers a sa -> covers b sb -> covers (a ++ b) (stats_merge sa sb).
Proof.
  intros [Hs He Hm Hc Hk] [Hs' He' Hm' Hc' Hk']. split; cbn [stats_merge bs_started_at bs_ended_at bs_level_mask bs_line_count bs_level_counts].
  - destruct (bs_started_at sa) as [x|], (bs_started_at sb) as [y|]; try subst a; try subst b; rewrite ?app_nil_r; try done.
    intros l [Hin|Hin]%elem_of_app; destruct (dt_leb x y) eqn:Hle; auto; eapply dt_le_trans; eauto.
    destruct (dt_le_total x y); congruence.
  - destruct (bs_ended_at sa) as [x|], (bs_ended_at sb) as [y|]; try subst a; try subst b; rewrite ?app_nil_r; try done.
    intros l [Hin|Hin]%elem_of_app; destruct (dt_leb y x) eqn:Hle; auto; (eapply dt_le_trans; [eauto|]); [|done].
    destruct (dt_le_total x y); congruence.
  - by rewrite Hm, Hm', level_mask_of_app.
  - rewrite Hc, Hc', wrap_add, length_app. f_equal. lia.
  - rewrite Hk, Hk'. cbn [LEVEL_COUNT seq map zip_with]. rewrite !at_level_app, !wrap_add. done.
Qed.

(** The running statistics of a head buffer are exact whatever was pushed, frozen and handed to
    a seal: there is a summary exactly when a reader would see a line, and it has the number of
    lines, the count of every level, the set of levels, and bounds on the timestamps, of the lines in
    the snapshot. *)
Theorem head_summary_exact b :
  buffer_ok b -> Z.of_nat (length (visible b)) < 2 ^ 32 ->
  match summary_labels b with
  | None => build_snapshot b = None
  | Some labels =>
      is_Some (build_snapshot b) /\
      cl_line_count labels = Z.of_nat (length (visible b)) /\
      cl_level_counts labels = map (fun i => at_level i (visible b)) (seq 0 LEVEL_COUNT) /\
      cl_level_mask labels = level_mask_of (visible b) /\
      forall l, l ∈ visible b -> dt_leb (cl_started_at labels) (ll_ts l) = true /\ dt_leb (ll_ts l) (cl_ended_at labels) = true
  end.
Proof.
  intros [Hs Hse Hf Hi] Hlen. unfold summary_labels. set (combined := match hb_sealing_stats b with Some _ => _ | None => _ end).
  assert (covers (visible b) combined) as [Cs Ce Cm Cc Ck].
  { unfold combined, visible, in_seal. rewrite Hse, Hs. destruct (hb_sealing b) as [segs|]; cbn [option_map default].
    - apply merge_covers; apply stats_covers.
    - apply stats_covers. }
  rewrite wrap_id in Cc by (unfold fits; lia).
  assert (build_snapshot b = None <-> visible b = []) as Hnone.
  { rewrite <- snapshot_visible. destruct (build_snapshot b) as [segs|] eqn:Hb; [|done]. cbn [default]. split; [done|]. intros Hj. exfalso.
    unfold build_snapshot in Hb. destruct (default [] (hb_sealing b) ++ _) as [|s ss] eqn:He; [done|]. injection Hb as <-.
    assert (Forall (fun x => x <> []) (s :: ss)) as Hall.
    { rewrite <- He. repeat apply Forall_app_2; [by destruct (hb_sealing b) as [?|]; [apply Hi|constructor]|done|].
      destruct (hb_active b); repeat constructor. done. }
    inversion Hall as [|? ? Hne _]; subst. apply app_eq_nil in Hj as [? _]. done. }
  destruct (Z.eqb_spec (bs_line_count combined) 0) as [Hz|Hnz].
  { apply Hnone. rewrite Cc in Hz. destruct (visible b); [done|]. cbn in Hz. lia. }
  assert (visible b <> []) as Hvis by (intros Hv; rewrite Cc, Hv in Hnz; done).
  destruct (bs_started_at combined) as [t|]; [|done]. destruct (bs_ended_at combined) as [t'|]; [|done].
  cbn [mbind option_bind]. split_and!; [|done| |done|by intros l Hl; split; cbn; auto].
  - destruct (build_snapshot b); [by eexists|]. exfalso. by apply Hvis, Hnone.
  - cbn [cl_level_counts]. rewrite Ck. apply map_ext. intros i. apply wrap_id. unfold fits, at_level.
    pose proof (List.filter_length_le (fun l => level_to_u8 (ll_level l) =? Z.of_nat i) (visible b)). lia.
Qed.

End HeadBuffer.

(** A buffer with a line in a seal and one that came later. *)
Lemma head_summary_exact_witness :
  let l1 := sample_line 5 Info [104; 105] None in
  let l2 := sample_line 6 Error [] None in
  let b0 := push_line (buffer_new (identity_from_line l1) None 0) l1 in
  let b := push_line (begin_sealing (freeze_active b0) 1) l2 in
  visible b = [l1; l2] /\
  match summary_labels b with
  | None => build_snapshot b = None
  | Some labels => is_Some (build_snapshot b) /\ cl_line_count labels = 2
  end.
Proof.
  intros l1 l2 b0 b. assert (visible b = [l1; l2]) as Hv by reflexivity. split; [exact Hv|].
  assert (buffer_ok b) as Hb.
  { apply push_line_ok. apply begin_sealing_ok; [|reflexivity|discriminate].
    apply freeze_active_ok, push_line_ok, buffer_new_ok. }
  assert (Z.of_nat (length (visible b)) < 2 ^ 32) as Hlen by (rewrite Hv; reflexivity).
  pose proof (@head_summary_exact nanos_chrono raw_json nanos_chrono_laws b Hb Hlen) as Hx.
  destruct (summary_labels b); [|exact Hx]. destruct Hx as (Hs & Hc & _). split; [exact Hs|]. rewrite Hc, Hv. reflexivity.
Defined.
