(* ===== verification/ChunkWriter.v ===== *)
(** * The chunk writer

    [ChunkWriterService] of [crates/temps-log-aggregator/src/services/chunk_writer.rs] with
    [build_storage_key_v2] of [storage/traits.rs]: lines go to the write-ahead log and to the head
    buffer of their container, a seal moves them through encoding, the object store and the
    manifest, and only then its generation of the log is removed; a restart replays what is left.

    A call that holds the buffer lock is one step, and so is each of the stages of a seal between
    two of them, so writes, syncs and seals of all containers interleave.  What runs under the
    exclusive gate of a project, and recovery, which runs while everything else waits, are
    functions.  The object store and the manifest answer by a list of faults like the disk. *)

From S2P Require Import Prelude Bytes Utf8 ChunkBlock Bloom ChunkFile ChunkScan Wal WalDisk HeadBuffer.
From stdpp Require Import pretty.
Local Open Scope Z_scope.

(** ** The object store and the manifest *)

(** A call that fails may be worth another attempt, and may have had its effect. *)
Inductive StoreFault := SFine | SFails (transient done : bool).

Inductive WriterError :=
  | WalFailed (e : WalError)
  | EncodeFailed (e : LogAggregatorError)
  | StoreFailed (transient : bool)
  | OperationTimedOut.

Definition RETRY_DELAYS : list Z := [250; 1000; 4000].
Definition V2_EXTENSION : string := "zst".

Section ChunkWriter.
Context `{Chrono} `{Zstd} `{Json} `{!FooterJson} `{Crc32} `{Xxh3} `{Unicode} `{!LineJson}.
Context (order : BloomBuilder -> list Z).

(** The fields of [struct ChunkMeta] the writer fills in, apart from its random id. *)
Record ChunkMeta := {
  cm_labels : ChunkLabels;
  cm_storage_key : string;
  cm_compressed_size_bytes : Z;
  cm_has_errors : bool;
  cm_format_version : Z;
  cm_footer_offset : option Z;
  cm_footer_len : option Z;
  cm_bloom_len : Z
}.

Record Store := {
  so_objects : gmap string (list Z);
  so_rows : list (Z * ChunkMeta);
  so_indexed : gset Z;
  so_next_seq : Z;
  so_faults : list StoreFault
}.

Abbreviation StoreIo A := (Act Store WriterError A).

Definition store_fault : StoreIo StoreFault := fun st =>
  match so_faults st with
  | [] => (Ok SFine, st)
  | f :: rest =>
      (Ok f, {| so_objects := so_objects st; so_rows := so_rows st; so_indexed := so_indexed st;
                so_next_seq := so_next_seq st; so_faults := rest |})
  end.

(** A call with this effect. *)
Definition store_call {A} (effect : Store -> A * Store) : StoreIo A :=
  let! f := store_fault in
  fun st => match f with
            | SFine => let '(a, st') := effect st in (Ok a, st')
            | SFails transient done => (Err (StoreFailed transient), if done then (effect st).2 else st)
            end.

(** [LogStorage::write_chunk]: the size of the object. *)
Definition write_chunk (key : string) (bytes : list Z) : StoreIo Z :=
  store_call (fun st =>
    (blen bytes, {| so_objects := <[key := bytes]> (so_objects st); so_rows := so_rows st; so_indexed := so_indexed st;
                    so_next_seq := so_next_seq st; so_faults := so_faults st |})).

(** [ManifestSink::insert]: a row whose key is there already is the row. *)
Definition manifest_insert (meta : ChunkMeta) : StoreIo Z :=
  store_call (fun st =>
    match List.find (fun row => String.eqb (cm_storage_key row.2) (cm_storage_key meta)) (so_rows st) with
    | Some (seq, _) => (seq, st)
    | None =>
        (so_next_seq st, {| so_objects := so_objects st; so_rows := so_rows st ++ [(so_next_seq st, meta)];
                            so_indexed := so_indexed st; so_next_seq := so_next_seq st + 1; so_faults := so_faults st |})
    end).

(** [ManifestSink::mark_indexed], and the line index, which may not be configured. *)
Definition mark_indexed (seq : Z) : StoreIo unit :=
  store_call (fun st =>
    ((), {| so_objects := so_objects st; so_rows := so_rows st; so_indexed := {[seq]} ∪ so_indexed st;
            so_next_seq := so_next_seq st; so_faults := so_faults st |})).
Definition index_chunk (configured : bool) : StoreIo bool := store_call (fun st => (configured, st)).

(** [retry_log_operation_with_backoff], with the delays that are left. *)
Fixpoint retry_op {A} (delays : list Z) (f : StoreIo A) : StoreIo A := fun st =>
  match f st with
  | (Ok value, st') => (Ok value, st')
  | (Err error, st') =>
      match delays with
      | [] => (Err error, st')
      | _ :: rest =>
          match error with
          | StoreFailed true => retry_op rest f st'
          | _ => (Err error, st')
          end
      end
  end.

(** ** Keys and rows *)

(** The date and hour in a key ([%Y-%m-%d/%H]), and the hash of a chunk: SHA-256 of its bytes, or of
    its bytes behind the identity of the batch it was recovered from. *)
Context (date_hour : DateTime -> string) (content_hash : option (string * Z * Z) -> list Z -> string).

Definition build_storage_key_v2 (project_id : Z) (external_service_id : option Z) (env service : string)
    (first_ts : DateTime) (container_id : string) (suffix : option string) : string :=
  let scope := match external_service_id with
               | Some id => "external-services/" +:+ pretty id
               | None => pretty project_id
               end in
  let short_container := String.substring 0 12 container_id in
  let suffix_part := match suffix with Some s => "-" +:+ s | None => "" end in
  ("logs/" +:+ scope +:+ "/" +:+ env +:+ "/" +:+ service +:+ "/" +:+ date_hour first_ts +:+ "/" +:+ short_container
   +:+ "-" +:+ pretty (ts_nanos first_ts)) +:+ suffix_part +:+ "." +:+ V2_EXTENSION.

Definition storage_key (identity : option (string * Z * Z)) (encoded : EncodedChunk) : string :=
  let labels := cf_labels (ec_footer encoded) in
  build_storage_key_v2 (cl_project_id labels) (cl_external_service_id labels) (cl_env labels) (cl_service labels)
    (cl_started_at labels) (cl_container_id labels) (Some (content_hash identity (ec_bytes encoded))).

Definition build_chunk_meta (encoded : EncodedChunk) (key : string) (compressed_size : Z) : ChunkMeta :=
  let labels := cf_labels (ec_footer encoded) in
  {| cm_labels := labels; cm_storage_key := key; cm_compressed_size_bytes := swrap 32 compressed_size;
     cm_has_errors := negb (Z.land (cl_level_mask labels) (Z.lor (level_bit Warn) (level_bit Error)) =? 0);
     cm_format_version := FORMAT_VERSION; cm_footer_offset := Some (footer_offset (ec_trailer encoded));
     cm_footer_len := Some (wrap 32 (footer_len (ec_trailer encoded))); cm_bloom_len := t_bloom_len (ec_trailer encoded) |}.

(** The row as a reader of the manifest gets it. *)
Definition manifest_of (row : Z * ChunkMeta) : Manifest :=
  {| mf_seq := row.1; mf_labels := cm_labels row.2; mf_storage_key := cm_storage_key row.2;
     mf_format_version := cm_format_version row.2; mf_footer_offset := cm_footer_offset row.2;
     mf_footer_len := cm_footer_len row.2 |}.

(** [encode_segments]. *)
Definition encode_segments (identity : ChunkIdentity) (segments : list (list LogLine)) (with_bloom : bool)
    : res EncodedChunk :=
  let? encoder := result_fold encoder_push (mjoin segments) (encoder_new identity) in
  finish order encoder with_bloom.

(** ** The service *)

Inductive Stage :=
  | Encoding
  | Inserting (encoded : EncodedChunk) (key : string) (compressed_size : Z)
  | Indexing (seq : Z)
  | Cleaning
  | Finishing (outcome : result WalError unit).

(** A seal under way. *)
Record SealTask := {
  tk_identity : ChunkIdentity;
  tk_segments : list (list LogLine);
  tk_generation : option WalGeneration;
  tk_fail_on_persistence_error : bool;
  tk_stage : Stage
}.

Record Writer := {
  cw_disk : Disk;
  cw_store : Store;
  cw_wal_dir : bool;
  cw_line_index : bool;
  cw_buffers : gmap string HeadBuffer;
  cw_tasks : gmap string SealTask;
  cw_purged_before : gmap Z DateTime;
  cw_thresholds : Thresholds;
  cw_head_max_bytes : Z;
  cw_shed_bloom : bool;
  cw_dropped_chunks : Z;
  cw_unindexed_chunks : Z;
  cw_recovery_ready : bool;
  cw_now : Z
}.

Definition set_disk (s : Writer) (d : Disk) : Writer :=
  {| cw_disk := d; cw_store := cw_store s; cw_wal_dir := cw_wal_dir s; cw_line_index := cw_line_index s;
     cw_buffers := cw_buffers s; cw_tasks := cw_tasks s; cw_purged_before := cw_purged_before s;
     cw_thresholds := cw_thresholds s; cw_head_max_bytes := cw_head_max_bytes s; cw_shed_bloom := cw_shed_bloom s;
     cw_dropped_chunks := cw_dropped_chunks s; cw_unindexed_chunks := cw_unindexed_chunks s;
     cw_recovery_ready := cw_recovery_ready s; cw_now := cw_now s |}.
Definition set_store (s : Writer) (st : Store) : Writer :=
  {| cw_disk := cw_disk s; cw_store := st; cw_wal_dir := cw_wal_dir s; cw_line_index := cw_line_index s;
     cw_buffers := cw_buffers s; cw_tasks := cw_tasks s; cw_purged_before := cw_purged_before s;
     cw_thresholds := cw_thresholds s; cw_head_max_bytes := cw_head_max_bytes s; cw_shed_bloom := cw_shed_bloom s;
     cw_dropped_chunks := cw_dropped_chunks s; cw_unindexed_chunks := cw_unindexed_chunks s;
     cw_recovery_ready := cw_recovery_ready s; cw_now := cw_now s |}.
Definition set_buffers (s : Writer) (buffers : gmap string HeadBuffer) : Writer :=
  {| cw_disk := cw_disk s; cw_store := cw_store s; cw_wal_dir := cw_wal_dir s; cw_line_index := cw_line_index s;
     cw_buffers := buffers; cw_tasks := cw_tasks s; cw_purged_before := cw_purged_before s;
     cw_thresholds := cw_thresholds s; cw_head_max_bytes := cw_head_max_bytes s; cw_shed_bloom := cw_shed_bloom s;
     cw_dropped_chunks := cw_dropped_chunks s; cw_unindexed_chunks := cw_unindexed_chunks s;
     cw_recovery_ready := cw_recovery_ready s; cw_now := cw_now s |}.
Definition set_tasks (s : Writer) (tasks : gmap string SealTask) : Writer :=
  {| cw_disk := cw_disk s; cw_store := cw_store s; cw_wal_dir := cw_wal_dir s; cw_line_index := cw_line_index s;
     cw_buffers := cw_buffers s; cw_tasks := tasks; cw_purged_before := cw_purged_before s;
     cw_thresholds := cw_thresholds s; cw_head_max_bytes := cw_head_max_bytes s; cw_shed_bloom := cw_shed_bloom s;
     cw_dropped_chunks := cw_dropped_chunks s; cw_unindexed_chunks := cw_unindexed_chunks s;
     cw_recovery_ready := cw_recovery_ready s; cw_now := cw_now s |}.
(** The counters and settings. *)
Definition set_misc (s : Writer) (dropped unindexed : Z) (ready : bool) (purged : gmap Z DateTime) (head_max now : Z)
    (shed : bool) : Writer :=
  {| cw_disk := cw_disk s; cw_store := cw_store s; cw_wal_dir := cw_wal_dir s; cw_line_index := cw_line_index s;
     cw_buffers := cw_buffers s; cw_tasks := cw_tasks s; cw_purged_before := purged;
     cw_thresholds := cw_thresholds s; cw_head_max_bytes := head_max; cw_shed_bloom := shed;
     cw_dropped_chunks := dropped; cw_unindexed_chunks := unindexed; cw_recovery_ready := ready; cw_now := now |}.

Definition set_buffer (s : Writer) (id : string) (b : HeadBuffer) : Writer := set_buffers s (<[id := b]> (cw_buffers s)).
Definition set_task (s : Writer) (id : string) (t : SealTask) : Writer := set_tasks s (<[id := t]> (cw_tasks s)).
Definition count_dropped (s : Writer) : Writer :=
  set_misc s (wrap 64 (cw_dropped_chunks s + 1)) (cw_unindexed_chunks s) (cw_recovery_ready s) (cw_purged_before s)
    (cw_head_max_bytes s) (cw_now s) (cw_shed_bloom s).
Definition count_unindexed (s : Writer) : Writer :=
  set_misc s (cw_dropped_chunks s) (wrap 64 (cw_unindexed_chunks s + 1)) (cw_recovery_ready s) (cw_purged_before s)
    (cw_head_max_bytes s) (cw_now s) (cw_shed_bloom s).

(** The buffer of a container, opened with its stream when there is none. *)
Definition buffer_for (line : LogLine) (s : Writer) : result WriterError HeadBuffer * Writer :=
  let id := ll_container_id line in
  match cw_buffers s !! id with
  | Some b => (Ok b, s)
  | None =>
      if cw_wal_dir s then
        match wal_stream id (cw_disk s) with
        | (Err e, d) => (Err (WalFailed e), set_disk s d)
        | (Ok w, d) =>
            let b := buffer_new (identity_from_line line) (Some w) (cw_now s) in
            (Ok b, set_buffer (set_disk s d) id b)
        end
      else
        let b := buffer_new (identity_from_line line) None (cw_now s) in
        (Ok b, set_buffer s id b)
  end.

(** [write_line] up to the seal: whether one is due. *)
Definition write_line (line : LogLine) (s : Writer) : result WriterError bool * Writer :=
  if negb (cw_recovery_ready s) then (Err OperationTimedOut, s)
  else if match cw_purged_before s !! ll_project_id line with
          | Some purged_before => negb (dt_leb purged_before (ll_ts line))
          | None => false
          end then (Ok false, s)
  else
    let id := ll_container_id line in
    match buffer_for line s with
    | (Err e, s) => (Err e, s)
    | (Ok b, s) =>
        let pushed b s :=
          let b := push_line b line in
          (Ok ((cw_head_max_bytes s <=? hb_bytes b)
               || match hb_wal b with
                  | Some w => th_generation_max_bytes (cw_thresholds s) <=? sw_bytes_written w
                  | None => false
                  end), set_buffer s id b) in
        match hb_wal b with
        | None => pushed b s
        | Some w =>
            match wal_append w line (cw_disk s) with
            | (Err e, w, d) =>
                (Err (WalFailed e), set_buffer (set_disk s d) id (with_wal b (Some w) (hb_recovered_generation b)))
            | (Ok _, w, d) => pushed (with_wal b (Some w) (hb_recovered_generation b)) (set_disk s d)
            end
        end
    end.

Context (uuid_text : nat -> string).

(** The lock section of [seal_inner]: [None] while a seal of the container is under way, else whether
    there was anything to seal. *)
Definition seal_start (id : string) (fail_on_persistence_error : bool) (s : Writer)
    : option (result WriterError bool) * Writer :=
  match cw_buffers s !! id with
  | None => (Some (Ok false), s)
  | Some b =>
      match hb_sealing b with
      | Some _ => (None, s)
      | None =>
          let b := freeze_active b in
          let start generation b s :=
            let sealing := begin_sealing b (cw_now s) in
            (Some (Ok true),
             set_task (set_buffer s id sealing) id
               {| tk_identity := hb_identity b; tk_segments := hb_segments b; tk_generation := generation;
                  tk_fail_on_persistence_error := fail_on_persistence_error; tk_stage := Encoding |}) in
          match hb_segments b with
          | [] => (Some (Ok false), set_buffer s id b)
          | _ =>
              match hb_recovered_generation b, hb_wal b with
              | Some g, w => start (Some g) (with_wal b w None) s
              | None, Some w =>
                  match wal_rotate uuid_text w (negb (cw_shed_bloom s)) (cw_disk s) with
                  | (Err e, w, d) => (Some (Err (WalFailed e)), set_buffer (set_disk s d) id (with_wal b (Some w) None))
                  | (Ok g, w, d) => start (Some g) (with_wal b (Some w) None) (set_disk s d)
                  end
              | None, None => start None b s
              end
          end
      end
  end.

(** The buffer of a seal that is over, and the end of its task. *)
Definition stop_task (id : string) (s : Writer) : Writer :=
  let s := match cw_buffers s !! id with Some b => set_buffer s id (end_sealing b) | None => s end in
  set_tasks s (delete id (cw_tasks s)).

Definition at_stage (t : SealTask) (stage : Stage) : SealTask :=
  {| tk_identity := tk_identity t; tk_segments := tk_segments t; tk_generation := tk_generation t;
     tk_fail_on_persistence_error := tk_fail_on_persistence_error t; tk_stage := stage |}.

Definition task_identity (t : SealTask) : option (string * Z * Z) :=
  match tk_generation t with Some g => wg_recovery_identity g | None => None end.

(** The rest of [seal_inner], stage by stage; the result when it is the last. *)
Definition seal_step (id : string) (s : Writer) : option (result WriterError unit) * Writer :=
  match cw_tasks s !! id with
  | None => (None, s)
  | Some t =>
      let persistence_error e s :=
        (Some (if tk_fail_on_persistence_error t then Err e else Ok ()), stop_task id (count_dropped s)) in
      match tk_stage t with
      | Encoding =>
          let with_bloom := match tk_generation t with Some g => wg_with_bloom g | None => negb (cw_shed_bloom s) end in
          match encode_segments (tk_identity t) (tk_segments t) with_bloom with
          | Err e => (Some (Err (EncodeFailed e)), stop_task id s)
          | Ok encoded =>
              let key := storage_key (task_identity t) encoded in
              match retry_op RETRY_DELAYS (write_chunk key (ec_bytes encoded)) (cw_store s) with
              | (Err e, st) => persistence_error e (set_store s st)
              | (Ok size, st) => (None, set_task (set_store s st) id (at_stage t (Inserting encoded key size)))
              end
          end
      | Inserting encoded key compressed_size =>
          match retry_op RETRY_DELAYS (manifest_insert (build_chunk_meta encoded key compressed_size)) (cw_store s) with
          | (Err e, st) => persistence_error e (set_store s st)
          | (Ok seq, st) => (None, set_task (set_store s st) id (at_stage t (Indexing seq)))
          end
      | Indexing seq =>
          match retry_op RETRY_DELAYS (index_chunk (cw_line_index s)) (cw_store s) with
          | (Ok true, st) => (None, set_task (set_store s (mark_indexed seq st).2) id (at_stage t Cleaning))
          | (Ok false, st) => (None, set_task (set_store s st) id (at_stage t Cleaning))
          | (Err _, st) => (None, set_task (count_unindexed (set_store s st)) id (at_stage t Cleaning))
          end
      | Cleaning =>
          match tk_generation t with
          | Some g =>
              let '(outcome, d) := generation_remove g (cw_disk s) in
              (None, set_task (set_disk s d) id (at_stage t (Finishing outcome)))
          | None => (None, set_task s id (at_stage t (Finishing (Ok ()))))
          end
      | Finishing outcome =>
          (Some (match outcome with Ok _ => Ok () | Err e => Err (WalFailed e) end), stop_task id s)
      end
  end.

(** The stages one after the other. *)
Fixpoint seal_rest (fuel : nat) (id : string) (s : Writer) : result WriterError unit * Writer :=
  match fuel with
  | O => (Err OperationTimedOut, s)
  | S fuel => match seal_step id s with
              | (Some r, s) => (r, s)
              | (None, s) => seal_rest fuel id s
              end
  end.

(** [seal_inner] where nothing interferes; a seal has five stages. *)
Definition seal_inner (id : string) (fail_on_persistence_error : bool) (s : Writer) : result WriterError unit * Writer :=
  match seal_start id fail_on_persistence_error s with
  | (Some (Ok true), s) => seal_rest 5 id s
  | (Some (Ok false), s) => (Ok (), s)
  | (Some (Err e), s) => (Err e, s)
  | (None, s) => (Err OperationTimedOut, s)
  end.

(** Seals one after the other: the errors of [flush_expired] and [flush_all] are only logged, the
    first error of [flush_project_for_purge] ends it. *)
Definition seal_each (ids : list string) (s : Writer) : Writer := fold_left (fun s id => (seal_inner id false s).2) ids s.
Fixpoint seal_all (ids : list string) (s : Writer) : result WriterError unit * Writer :=
  match ids with
  | [] => (Ok (), s)
  | id :: rest => match seal_inner id true s with
                  | (Err e, s) => (Err e, s)
                  | (Ok _, s) => seal_all rest s
                  end
  end.

(** The order a [HashMap] of buffers is iterated in. *)
Context (buffer_order : gmap string HeadBuffer -> list (string * HeadBuffer)).

Definition buffer_ids (p : HeadBuffer -> bool) (s : Writer) : list string :=
  map fst (List.filter (fun '(_, b) => p b) (buffer_order (cw_buffers s))).

Definition is_sealing (b : HeadBuffer) : bool := match hb_sealing b with Some _ => true | None => false end.

Definition flush_expired (s : Writer) : Writer :=
  if negb (cw_recovery_ready s) then s
  else seal_each (buffer_ids (fun b => negb (is_sealing b) && should_seal b (cw_thresholds s) (cw_head_max_bytes s) (cw_now s)) s) s.

Definition flush_all (s : Writer) : Writer :=
  if negb (cw_recovery_ready s) then s else seal_each (buffer_ids (fun b => negb (buffer_is_empty b)) s) s.

(** [lock_project_for_purge] refuses while recovery runs, then [flush_project_for_purge]. *)
Definition prepare_project_for_purge (project_id : Z) (s : Writer) : result WriterError unit * Writer :=
  if negb (cw_recovery_ready s) then (Err OperationTimedOut, s)
  else seal_all (buffer_ids (fun b => (ci_project_id (hb_identity b) =? project_id) && (negb (buffer_is_empty b) || is_sealing b)) s) s.

(** What a query sees of the buffers: [summaries] and [snapshot]. *)
Definition summaries (s : Writer) : list ChunkLabels := omap (fun '(_, b) => summary_labels b) (buffer_order (cw_buffers s)).
Definition head_snapshot (id : string) (s : Writer) : option HeadSnapshot := b ← cw_buffers s !! id; build_snapshot b.

(** The settings that change while the service runs. *)
Definition set_head_max_bytes (bytes : Z) (s : Writer) : Writer :=
  set_misc s (cw_dropped_chunks s) (cw_unindexed_chunks s) (cw_recovery_ready s) (cw_purged_before s) (Z.max bytes 1) (cw_now s)
    (cw_shed_bloom s).
Definition set_shed_bloom (shed : bool) (s : Writer) : Writer :=
  set_misc s (cw_dropped_chunks s) (cw_unindexed_chunks s) (cw_recovery_ready s) (cw_purged_before s) (cw_head_max_bytes s) (cw_now s)
    shed.

(** [sync_wals], for one container. *)
Definition sync_wal (id : string) (s : Writer) : result WriterError unit * Writer :=
  match cw_buffers s !! id with
  | Some b =>
      match hb_wal b with
      | Some w => match wal_sync w (cw_disk s) with
                  | (Ok _, d) => (Ok (), set_disk s d)
                  | (Err e, d) => (Err (WalFailed e), set_disk s d)
                  end
      | None => (Ok (), s)
      end
  | None => (Ok (), s)
  end.

Definition sync_wals (s : Writer) : Writer :=
  if negb (cw_recovery_ready s) then s
  else fold_left (fun s id => (sync_wal id s).2) (buffer_ids (fun _ => true) s) s.

(** [remove_container], which holds the gate of the project throughout. *)
Definition remove_container (id : string) (s : Writer) : result WriterError unit * Writer :=
  if negb (cw_recovery_ready s) then (Err OperationTimedOut, s)
  else match cw_buffers s !! id with
       | None => (Ok (), s)
       | Some _ =>
           match seal_inner id true s with
           | (Err e, s) => (Err e, s)
           | (Ok _, s) =>
               let s := set_buffers s (delete id (cw_buffers s)) in
               if cw_wal_dir s then
                 match wal_remove id (cw_disk s) with
                 | (Ok _, d) => (Ok (), set_disk s d)
                 | (Err e, d) => (Err (WalFailed e), set_disk s d)
                 end
               else (Ok (), s)
           end
       end.

(** ** Recovery *)

(** [recover_stream]. *)
Definition recover_stream (stream : RecoveredStream) (s : Writer) : result WriterError unit * Writer :=
  match rs_lines stream with
  | [] => (Ok (), s)
  | first :: _ =>
      let id := rs_container_id stream in
      let seal w s :=
        let b := fold_left push_line (rs_lines stream)
                   (with_wal (buffer_new (identity_from_line first) w (cw_now s)) w (rs_generation stream)) in
        seal_inner id true (set_buffer s id b) in
      if cw_wal_dir s then
        match wal_stream id (cw_disk s) with
        | (Err e, d) => (Err (WalFailed e), set_disk s d)
        | (Ok w, d) => seal (Some w) (set_disk s d)
        end
      else seal None s
  end.

Context (dir_order : gmap string Node -> list (string * Node)) (path_le : string -> string -> Prop) `{!RelDecision path_le}.

Fixpoint recover_loop (fuel : nat) (recovered : WalRecovery) (s : Writer) : result WriterError unit * Writer :=
  match fuel with
  | O => (Err OperationTimedOut, s)
  | S fuel =>
      match next recovered (cw_disk s) with
      | (Err e, d) => (Err (WalFailed e), set_disk s d)
      | (Ok (None, _), d) => (Ok (), set_disk s d)
      | (Ok (Some stream, recovered), d) =>
          match recover_stream stream (set_disk s d) with
          | (Err e, s) => (Err e, s)
          | (Ok _, s) => recover_loop fuel recovered s
          end
      end
  end.

(** Every batch holds a line, so the bytes of the files bound the batches. *)
Definition recovery_fuel (recovered : WalRecovery) (d : Disk) : nat :=
  S (sum_list_with (fun p => S (S (length (bytes_at d p.1.1)))) (wr_paths recovered)).

(** [recover_wal]. *)
Definition recover_wal (s : Writer) : result WriterError unit * Writer :=
  if cw_wal_dir s then
    match recover_batched uuid_text dir_order path_le (cw_head_max_bytes s) (negb (cw_shed_bloom s)) (cw_disk s) with
    | (Err e, d) => (Err (WalFailed e), set_disk s d)
    | (Ok recovered, d) => recover_loop (recovery_fuel recovered d) recovered (set_disk s d)
    end
  else (Ok (), s).

(** One pass of [start_background_recovery]; writes are let in when it succeeds. *)
Definition recovery_pass (s : Writer) : result WriterError unit * Writer :=
  match recover_wal s with
  | (Err e, s) => (Err e, s)
  | (Ok _, s) =>
      let mark s := set_misc s (cw_dropped_chunks s) (cw_unindexed_chunks s) true (cw_purged_before s) (cw_head_max_bytes s) (cw_now s) (cw_shed_bloom s) in
      if cw_wal_dir s then
        match ensure_recovery_complete dir_order (cw_disk s) with
        | (Err e, d) => (Err (WalFailed e), set_disk s d)
        | (Ok _, d) => (Ok (), mark (set_disk s d))
        end
      else (Ok (), mark s)
  end.
End ChunkWriter.
