(* ===== verification/WriterStore.v ===== *)
(** * The object store and the manifest under the chunk writer

    What the calls of [seal_inner] ([crates/temps-log-aggregator/src/services/chunk_writer.rs])
    leave in the object store and in the manifest, whichever of their attempts fail and whether or
    not a failed attempt had its effect: objects never change, every row leads to a complete chunk,
    and a line of a committed chunk is found by the scan of [ChunkScan]. *)

From S2P Require Import Prelude Bytes Utf8 ChunkBlock Bloom ChunkFile ChunkScan Wal WalDisk HeadBuffer ChunkWriter.
Local Open Scope Z_scope.

(** ** Keys *)

Definition no_dash (s : string) : Prop := forall a b, s <> (a +:+ String "-" b)%string.

Lemma last_dash_inj a a' h h' :
  no_dash h -> no_dash h' -> (a +:+ String "-" h)%string = (a' +:+ String "-" h')%string -> h = h'.
Proof.
  intros Hh Hh'. revert a'. induction a as [|c a IH]; intros [|c' a'] He.
  - by injection He.
  - injection He as _ He. by destruct (Hh a' h').
  - injection He as _ He. by destruct (Hh' a h).
  - injection He as _ He. by eapply IH.
Qed.

Lemma string_app_cancel (a a' b : string) : (a +:+ b)%string = (a' +:+ b)%string -> a = a'.
Proof.
  revert a'. induction a as [|c a IH]; intros [|c' a'] He; [done|..].
  1,2: apply (f_equal String.length) in He; rewrite !string_length_app in He; cbn in He; lia.
  injection He as -> He. f_equal. by apply IH.
Qed.

Lemma no_dash_nil : no_dash "".
Proof. by intros []. Qed.
Lemma no_dash_cons c s : c <> "-"%char -> no_dash s -> no_dash (String c s).
Proof. intros Hc Hs [|x a] b He; injection He as -> He; [done|]. by apply (Hs a b). Qed.
#[local] Hint Resolve no_dash_nil : core.

Lemma no_dash_app a b : no_dash a -> no_dash b -> no_dash (a +:+ b).
Proof.
  intros Ha Hb x y. revert x Ha. induction a as [|c a IH]; intros x Ha; [apply Hb|].
  destruct x as [|c' x]; intros He.
  - injection He as -> He. by destruct (Ha "" a)%string.
  - injection He as -> He. apply (IH x); [|exact He]. intros u v Hu. apply (Ha (String c' u) v). by rewrite Hu.
Qed.

(** The hash tells contents apart, and its text is hexadecimal. *)
Class HashLaws (content_hash : option (string * Z * Z) -> list Z -> string) : Prop := {
  hash_inj i b i' b' : content_hash i b = content_hash i' b' -> b = b';
  hash_no_dash i b : no_dash (content_hash i b)
}.

Section WriterStore.
Context `{Chrono} `{Zstd} `{Json} `{!FooterJson} `{Crc32} `{Xxh3} `{Unicode}.
Context (order : BloomBuilder -> list Z) (date_hour : DateTime -> string)
  (content_hash : option (string * Z * Z) -> list Z -> string) `{!HashLaws content_hash}.

#[local] Abbreviation storage_key := (storage_key date_hour content_hash).
#[local] Abbreviation encode_segments := (encode_segments order).

(** A key names one content. *)
Lemma storage_key_bytes rid enc rid' enc' : storage_key rid enc = storage_key rid' enc' -> ec_bytes enc = ec_bytes enc'.
Proof.
  unfold ChunkWriter.storage_key, build_storage_key_v2, V2_EXTENSION. cbv zeta.
  set (h := content_hash rid (ec_bytes enc)). set (h' := content_hash rid' (ec_bytes enc')).
  match goal with |- (?x +:+ ("-" +:+ h) +:+ ?e)%string = (?y +:+ _ +:+ _)%string -> _ => set (p := x); set (q := y) end.
  change ("-" +:+ h)%string with (String "-" h). change ("-" +:+ h')%string with (String "-" h'). intros He.
  change (p +:+ String "-" (h +:+ ".zst") = q +:+ String "-" (h' +:+ ".zst"))%string in He.
  apply last_dash_inj in He; [|apply no_dash_app; [apply hash_no_dash|]..].
  - apply string_app_cancel in He. by eapply hash_inj.
  - repeat apply no_dash_cons; done.
  - repeat apply no_dash_cons; done.
Qed.

(** ** What the store holds *)

Record store_ok (st : Store) : Prop := {
  so_object key bytes : so_objects st !! key = Some bytes -> exists rid enc, key = storage_key rid enc /\ bytes = ec_bytes enc;
  so_row row : row ∈ so_rows st ->
    row.1 < so_next_seq st /\
    exists identity segments with_bloom enc rid size,
      encode_segments identity segments with_bloom = Ok enc /\ row.2 = build_chunk_meta enc (storage_key rid enc) size /\
      so_objects st !! storage_key rid enc = Some (ec_bytes enc);
  so_seqs : NoDup (map fst (so_rows st));
  so_keys : NoDup (map (fun row => cm_storage_key row.2) (so_rows st))
}.

(** Rows stay, and objects stay as they are. *)
Record grows (st st' : Store) : Prop := {
  gr_rows row : row ∈ so_rows st -> row ∈ so_rows st';
  gr_objects key bytes : so_objects st !! key = Some bytes -> so_objects st' !! key = Some bytes
}.

#[global] Instance grows_preorder : PreOrder grows.
Proof. split; [by split|]. intros a b c [Hr Ho] [Hr' Ho']. split; eauto. Qed.

(** A line of a chunk whose row is in the manifest and whose object is in the store. *)
Definition committed (st : Store) (l : LogLine) : Prop :=
  exists row identity segments with_bloom enc,
    row ∈ so_rows st /\ encode_segments identity segments with_bloom = Ok enc /\
    so_objects st !! cm_storage_key row.2 = Some (ec_bytes enc) /\ l ∈ mjoin segments.

Lemma committed_grows st st' l : grows st st' -> committed st l -> committed st' l.
Proof. intros [Hr Ho] (row & i & segs & wb & enc & Hrow & He & Hobj & Hl). exists row, i, segs, wb, enc. split_and!; eauto. Qed.

(** Only rows, objects, indexes and the next number matter. *)
Lemma store_ok_same st st' :
  so_objects st' = so_objects st -> so_rows st' = so_rows st -> so_next_seq st' = so_next_seq st -> store_ok st -> store_ok st'.
Proof. intros Eo Er En [Ho Hr Hs Hk]. split; rewrite ?Eo, ?Er, ?En; done. Qed.

Lemma grows_same st st' : so_objects st' = so_objects st -> so_rows st' = so_rows st -> grows st st'.
Proof. intros Eo Er. split; rewrite ?Eo, ?Er; done. Qed.

(** A call either does nothing or has its effect, and has it when it succeeds. *)
Lemma store_call_cases {A} (effect : Store -> A * Store) st r st' :
  store_call effect st = (r, st') ->
  exists st0, so_objects st0 = so_objects st /\ so_rows st0 = so_rows st /\ so_next_seq st0 = so_next_seq st /\
    so_indexed st0 = so_indexed st /\
    ((is_ok r = false /\ st' = st0) \/ (st' = (effect st0).2 /\ forall a, r = Ok a -> a = (effect st0).1)).
Proof.
  unfold store_call, act_bind. destruct (store_fault st) as [[f|e] st0] eqn:Hf; unfold store_fault in Hf.
  2:{ destruct (so_faults st); discriminate. }
  assert (so_objects st0 = so_objects st /\ so_rows st0 = so_rows st /\ so_next_seq st0 = so_next_seq st /\
    so_indexed st0 = so_indexed st) as (H1' & H2' & H3' & H4').
  { by destruct (so_faults st); injection Hf as _ <-. }
  clear Hf. intros Hr. exists st0. split_and!; [done|done|done|done|]. destruct f as [|transient done_].
  - right. destruct (effect st0) as [a st1] eqn:He. injection Hr as <- <-. split; [done|]. by intros a' [= <-].
  - destruct done_; injection Hr as <- <-; [by right|by left].
Qed.

(** What every attempt keeps, and what the last one promises. *)
Lemma retry_op_ind {A} (P : Store -> Prop) (Q : A -> Store -> Prop) (f : Act Store WriterError A) :
  (forall st r st', P st -> f st = (r, st') -> P st' /\ forall a, r = Ok a -> Q a st') ->
  forall delays st r st', P st -> retry_op delays f st = (r, st') -> P st' /\ forall a, r = Ok a -> Q a st'.
Proof.
  intros Hf. induction delays as [|x delays IH]; intros st r st' HP; cbn [retry_op];
    destruct (f st) as [[a|e] st1] eqn:He; destruct (Hf _ _ _ HP He) as [HP1 HQ1].
  1-3: by intros [= <- <-].
  destruct e as [e|e|transient|]; try (by intros [= <- <-]). destruct transient; [|by intros [= <- <-]].
  by apply IH.
Qed.

Lemma write_chunk_ok rid enc delays st r st' :
  store_ok st -> retry_op delays (write_chunk (storage_key rid enc) (ec_bytes enc)) st = (r, st') ->
  (store_ok st' /\ grows st st') /\ forall size, r = Ok size -> so_objects st' !! storage_key rid enc = Some (ec_bytes enc).
Proof.
  intros Hok. apply (retry_op_ind (fun st' => store_ok st' /\ grows st st')
    (fun _ st' => so_objects st' !! storage_key rid enc = Some (ec_bytes enc))); [|done].
  intros st1 r1 st2 [Hok1 Hgr] (st0 & Ho & Hr & Hn & _ & Hc)%store_call_cases.
  assert (store_ok st0) as Hok0 by by eapply store_ok_same.
  assert (grows st st0) as Hgr0 by by (etrans; [exact Hgr|apply grows_same]).
  destruct Hc as [[Hno ->]|[-> _]]; [split; [done|]; by intros a ->|]. cbn.
  assert (forall k b, so_objects st0 !! k = Some b -> <[storage_key rid enc := ec_bytes enc]> (so_objects st0) !! k = Some b) as Hkeep.
  { intros k b Hk. destruct (decide (k = storage_key rid enc)) as [->|]; [|by rewrite lookup_insert_ne].
    destruct (so_object _ Hok0 _ _ Hk) as (rid' & enc' & Hkey & ->). rewrite lookup_insert_eq. f_equal.
    by eapply storage_key_bytes. }
  split; [split|].
  - destruct Hok0 as [Hobj Hrow Hs Hk]. split; cbn; [| |done|done].
    + intros key bytes [[<- <-]|[_ Hx]]%lookup_insert_Some; [by exists rid, enc|by eapply Hobj].
    + intros row Hin. destruct (Hrow row Hin) as (? & identity & segs & wb & enc' & rid' & size & He & Hm & Hb).
      split; [done|]. exists identity, segs, wb, enc', rid', size. eauto.
  - etrans; [exact Hgr0|]. by split.
  - intros _ _. by rewrite lookup_insert_eq.
Qed.

Lemma found_row key rows row :
  List.find (fun row : Z * ChunkMeta => String.eqb (cm_storage_key row.2) key) rows = Some row ->
  row ∈ rows /\ cm_storage_key row.2 = key.
Proof. intros [Hin Hk]%List.find_some. split; [by apply list_elem_of_In|by apply String.eqb_eq]. Qed.

Lemma no_row key rows :
  List.find (fun row : Z * ChunkMeta => String.eqb (cm_storage_key row.2) key) rows = None ->
  key ∉ map (fun row => cm_storage_key row.2) rows.
Proof.
  intros Hf Hin. apply list_elem_of_fmap in Hin as (row & -> & Hin).
  pose proof (List.find_none _ _ Hf row ltac:(by apply list_elem_of_In)) as Hx. cbv beta in Hx. by rewrite String.eqb_refl in Hx.
Qed.

Lemma manifest_insert_ok identity segments with_bloom enc rid size delays st r st' :
  store_ok st -> encode_segments identity segments with_bloom = Ok enc ->
  so_objects st !! storage_key rid enc = Some (ec_bytes enc) ->
  retry_op delays (manifest_insert (build_chunk_meta enc (storage_key rid enc) size)) st = (r, st') ->
  (store_ok st' /\ grows st st') /\
  forall seq, r = Ok seq -> exists row, row ∈ so_rows st' /\ row.1 = seq /\ cm_storage_key row.2 = storage_key rid enc.
Proof.
  intros Hok Henc Hobj. apply (retry_op_ind (fun st' => store_ok st' /\ grows st st')
    (fun seq st' => exists row, row ∈ so_rows st' /\ row.1 = seq /\ cm_storage_key row.2 = storage_key rid enc)); [|done].
  intros st1 r1 st2 [Hok1 Hgr] (st0 & Ho & Hr & Hn & _ & Hc)%store_call_cases.
  assert (store_ok st0) as Hok0 by by eapply store_ok_same.
  assert (grows st st0) as Hgr0 by by (etrans; [exact Hgr|apply grows_same]).
  destruct Hc as [[Hno ->]|[-> Hres]]; [split; [done|]; by intros a ->|]. set (meta := build_chunk_meta _ _ _) in *.
  change (cm_storage_key meta) with (storage_key rid enc) in *.
  destruct (List.find _ (so_rows st0)) as [[seq m]|] eqn:Hf; cbn [fst snd] in *.
  { split; [done|]. intros a Ha. rewrite (Hres a Ha). apply found_row in Hf as [Hin Hk]. by exists (seq, m). }
  pose proof Hok0 as [Hobj0 Hrow0 Hs0 Hk0]. split; [split|].
  - split; cbn; [done| | |].
    + intros row [Hin| ->%list_elem_of_singleton]%elem_of_app.
      * destruct (Hrow0 row Hin) as [Hlt Hx]. split; [lia|done].
      * split; [cbn; lia|]. exists identity, segments, with_bloom, enc, rid, size. split_and!; [done|done|].
        by apply (gr_objects _ _ Hgr0).
    + rewrite map_app. apply list.NoDup_app. split_and!; [done| |by apply list.NoDup_singleton].
      intros x Hx ->%list_elem_of_singleton. apply list_elem_of_fmap in Hx as (row & Hseq & Hin).
      destruct (Hrow0 row Hin) as [Hlt _]. cbn in Hseq. lia.
    + rewrite map_app. apply list.NoDup_app. split_and!; [done| |by apply list.NoDup_singleton].
      intros x Hx ->%list_elem_of_singleton. by apply (no_row _ _ Hf).
  - etrans; [exact Hgr0|]. split; [|done]. intros row Hin. cbn. apply elem_of_app. by left.
  - intros a Ha. rewrite (Hres a Ha). exists (so_next_seq st0, meta). split; [|done]. cbn. apply elem_of_app. right.
    by apply list_elem_of_singleton.
Qed.

(** The index is beside the point. *)
Lemma index_chunk_ok configured delays st r st' :
  store_ok st -> retry_op delays (index_chunk configured) st = (r, st') -> store_ok st' /\ grows st st'.
Proof.
  intros Hok Hr. apply (retry_op_ind (fun st' => store_ok st' /\ grows st st') (fun _ _ => True)) in Hr; [by apply Hr| |done].
  intros st1 r1 st2 [Hok1 Hgr] (st0 & Ho & Hrw & Hn & _ & Hc)%store_call_cases. split; [|done].
  assert (st2 = st0) as -> by (by destruct Hc as [[_ ->]|[-> _]]).
  split; [by eapply store_ok_same|]. etrans; [exact Hgr|]. by apply grows_same.
Qed.

Lemma mark_indexed_ok seq st : store_ok st -> store_ok (mark_indexed seq st).2 /\ grows st (mark_indexed seq st).2.
Proof.
  intros Hok. destruct (mark_indexed seq st) as [r st'] eqn:Hr. cbn [snd].
  apply store_call_cases in Hr as (st0 & Ho & Hrw & Hn & _ & Hc).
  assert (so_objects st' = so_objects st /\ so_rows st' = so_rows st /\ so_next_seq st' = so_next_seq st) as (H1' & H2' & H3').
  { by destruct Hc as [[_ ->]|[-> _]]. }
  split; [by eapply store_ok_same|by apply grows_same].
Qed.

(** ** Reading it back *)

(** The object store as the scan reads it. *)
Definition store_read (st : Store) (key : string) (a b : Z) : result ScanError (list Z) :=
  match so_objects st !! key with
  | Some bytes => ok_or StorageError (slice bytes a b)
  | None => Err StorageError
  end.

Context `{!FooterJsonLaws _}.
Hypothesis order_all : forall es e, e ∈ order es <-> e ∈ es.

(** The bytes of an object determine its trailer and its footer. *)
Lemma same_bytes identity segments with_bloom enc identity' segments' with_bloom' enc' :
  encode_segments identity segments with_bloom = Ok enc -> encode_segments identity' segments' with_bloom' = Ok enc' ->
  ec_bytes enc = ec_bytes enc' -> blen (ec_bytes enc) < 2 ^ 32 ->
  ec_trailer enc = ec_trailer enc' /\ ec_footer enc = ec_footer enc'.
Proof.
  intros (e & _ & Hf)%result_bind_Ok (e' & _ & Hf')%result_bind_Ok Hb Hlen.
  destruct (finish_layout order _ _ _ order_all Hf Hlen) as (e1 & lb & ib & bb & _ & Hbytes & _ & _ & _ & _ & Hl & Hfit & Hd).
  rewrite Hb in Hlen.
  destruct (finish_layout order _ _ _ order_all Hf' Hlen) as (e1' & lb' & ib' & bb' & _ & Hbytes' & _ & _ & _ & _ & Hl' & Hfit' & Hd').
  rewrite Hbytes, Hbytes' in Hb. match type of Hb with ?x ++ _ = ?y ++ _ => set (pre := x) in Hb; set (pre' := y) in Hb end.
  assert (ec_trailer enc = ec_trailer enc') as Ht.
  { assert (decode_trailer (pre ++ footer_bytes lb ib bb (ec_trailer enc)) = Ok (ec_trailer enc)) as Hx.
    { unfold footer_bytes. rewrite !app_assoc. by apply decode_trailer_encode. }
    rewrite Hb in Hx. unfold footer_bytes in Hx. rewrite !app_assoc, decode_trailer_encode in Hx by done.
    by apply Ok_inj in Hx. }
  split; [done|]. assert (footer_bytes lb ib bb (ec_trailer enc) = footer_bytes lb' ib' bb' (ec_trailer enc')) as Hfb.
  { assert (blen (footer_bytes lb ib bb (ec_trailer enc)) = blen (footer_bytes lb' ib' bb' (ec_trailer enc'))) as Hll by congruence.
    unfold blen in Hll. apply app_inj_2 in Hb; [apply Hb|]. lia. }
  rewrite Hfb, Ht, Hd' in Hd. by apply Ok_inj in Hd.
Qed.

(** A row leads to the lines of every chunk with the bytes of its object. *)
Lemma committed_stored st row identity segments with_bloom enc :
  store_ok st -> row ∈ so_rows st -> encode_segments identity segments with_bloom = Ok enc ->
  so_objects st !! cm_storage_key row.2 = Some (ec_bytes enc) -> blen (ec_bytes enc) < 2 ^ 32 ->
  Forall line_ok (mjoin segments) -> Forall line_fits (mjoin segments) ->
  stored (store_read st) order (manifest_of row) (mjoin segments) with_bloom enc.
Proof.
  intros Hok Hrow Henc Hobj Hsize Hlines Hfit.
  destruct (so_row _ Hok row Hrow) as (_ & identity' & segments' & wb' & enc' & rid & size & Henc' & Hmeta & Hobj').
  assert (cm_storage_key row.2 = storage_key rid enc') as Hkey by by rewrite Hmeta.
  assert (ec_bytes enc = ec_bytes enc') as Hb by (rewrite Hkey in Hobj; congruence).
  destruct (same_bytes _ _ _ _ _ _ _ _ Henc Henc' Hb Hsize) as [Ht Hfoot].
  split; [done|by exists identity|done|done|done|..].
  - unfold manifest_of. cbn. by rewrite Hmeta.
  - unfold manifest_of. cbn. rewrite Hmeta. cbn. by rewrite Ht.
  - unfold manifest_of. cbn. rewrite Hmeta. cbn. rewrite <- Ht. f_equal. apply wrap_id.
    apply result_bind_Ok in Henc as (e & _ & Hf).
    destruct (finish_layout order _ _ _ order_all Hf Hsize) as (e1 & lb & ib & bb & _ & Hbytes & _ & _ & _ & _ & Hl & _).
    rewrite Hl. rewrite Hbytes, blen_app in Hsize. unfold fits.
    pose proof (blen_nonneg (footer_bytes lb ib bb (ec_trailer enc))).
    match type of Hsize with blen ?x + _ < _ => pose proof (blen_nonneg x) end. lia.
  - intros a b x Hx. unfold store_read. cbn. by rewrite Hobj, Hx.
Qed.

End WriterStore.
