(* ===== verification/WriterSafety.v ===== *)
(** * The chunk writer loses no synced line

    The service of [ChunkWriter] as a transition system: writes, syncs, the stages of the seals of
    all containers, the removal of containers, changes of the settings, crashes and recoveries, in
    any order, with any of the calls to the disk, the object store and the manifest failing.  Its
    invariant ties every head buffer to its stream on the disk and every seal under way to the
    generation it came from, and gives that a line which was synced once is, for ever after, either
    in the synced part of a file of the write-ahead log or in a chunk of the manifest. *)

From S2P Require Import Prelude Bytes Utf8 ChunkBlock Bloom ChunkFile ChunkScan Wal WalDisk WalReplay HeadBuffer ChunkWriter WriterStore.
Local Open Scope Z_scope.

(** The containers whose lines are written: they have names, and different files. *)
Class KnownIds (known : string -> Prop) : Prop := {
  known_named id : known id -> id <> ""%string;
  known_inj id id' : known id -> known id' -> sanitise id = sanitise id' -> id = id'
}.

Section WriterSafety.
Context `{Chrono} `{Zstd} `{Json} `{!FooterJson} `{Crc32} `{Xxh3} `{Unicode} `{!LineJson}.
Context (order : BloomBuilder -> list Z) (date_hour : DateTime -> string)
  (content_hash : option (string * Z * Z) -> list Z -> string) `{!HashLaws content_hash}.
Context (uuid_text : nat -> string) `{!UuidLaws uuid_text}.
Context (known : string -> Prop) `{!KnownIds known}.

#[local] Abbreviation store_ok := (store_ok order date_hour content_hash).
#[local] Abbreviation committed := (committed order).
#[local] Abbreviation encode_segments := (encode_segments order).
#[local] Abbreviation storage_key := (storage_key date_hour content_hash).
#[local] Abbreviation seal_step := (seal_step order date_hour content_hash).
#[local] Abbreviation seal_rest := (seal_rest order date_hour content_hash).

(** The lines that are written. *)
Definition good (l : LogLine) : Prop := replayable l /\ known (ll_container_id l).

#[local] Abbreviation disk_ok := (disk_ok uuid_text good).
#[local] Abbreviation evolves := (evolves uuid_text good).
#[local] Abbreviation evolves_upto := (evolves_upto uuid_text good).
#[local] Abbreviation stream_ok := (stream_ok uuid_text).

Lemma good_replayable l : good l -> replayable l.
Proof. by intros [? _]. Qed.

(** ** A seal *)

(** A generation that may be done with once [lines] are committed. *)
Definition gen_safe (d : Disk) (st : Store) (g : WalGeneration) (lines : list LogLine) : Prop :=
  is_generation (wg_path g) = true /\
  (wg_after_commit g = Remove -> forall l, lines_at d (wg_path g) l -> committed st l \/ l ∈ lines).

Definition finishing (t : SealTask) : Prop := match tk_stage t with Finishing _ => True | _ => False end.

Definition stage_ok (st : Store) (t : SealTask) : Prop :=
  match tk_stage t with
  | Encoding => True
  | Inserting enc key size =>
      exists with_bloom, encode_segments (tk_identity t) (tk_segments t) with_bloom = Ok enc /\
        key = storage_key (task_identity t) enc /\ so_objects st !! key = Some (ec_bytes enc)
  | Indexing _ | Cleaning | Finishing _ => forall l, l ∈ mjoin (tk_segments t) -> committed st l
  end.

Definition rank (stage : Stage) : nat :=
  match stage with Encoding => 0 | Inserting _ _ _ => 1 | Indexing _ => 2 | Cleaning => 3 | Finishing _ => 4 end.

(** The name a seal may be done with. *)
Definition concerns (t : SealTask) (name : string) : Prop :=
  exists g, tk_generation t = Some g /\ wg_after_commit g <> Retain /\ name = wg_path g.

(** What a step of the seal [t] of [id] does: the next stage, or the end of the seal. *)
Record seal_stepped (id : string) (t : SealTask) (s : Writer) (r : option (result WriterError unit)) (s' : Writer) : Prop := {
  ss_store : store_ok (cw_store s');
  ss_grows : grows (cw_store s) (cw_store s');
  ss_disk : evolves_upto (committed (cw_store s)) (concerns t) (cw_disk s) (cw_disk s');
  ss_wal_dir : cw_wal_dir s' = cw_wal_dir s;
  ss_ready : cw_recovery_ready s' = cw_recovery_ready s;
  ss_next : match r with
    | None => exists stage, cw_tasks s' = <[id := at_stage t stage]> (cw_tasks s) /\ cw_buffers s' = cw_buffers s /\
        stage_ok (cw_store s') (at_stage t stage) /\ rank stage = S (rank (tk_stage t)) /\
        (finishing (at_stage t stage) \/ cw_disk s' = cw_disk s)
    | Some result => cw_tasks s' = delete id (cw_tasks s) /\ cw_buffers s' = alter end_sealing id (cw_buffers s) /\
        (result = Ok () -> tk_fail_on_persistence_error t = true -> forall l, l ∈ mjoin (tk_segments t) -> committed (cw_store s') l)
    end
}.

Lemma stop_task_parts id s :
  cw_disk (stop_task id s) = cw_disk s /\ cw_store (stop_task id s) = cw_store s /\ cw_wal_dir (stop_task id s) = cw_wal_dir s /\
  cw_recovery_ready (stop_task id s) = cw_recovery_ready s /\ cw_tasks (stop_task id s) = delete id (cw_tasks s) /\
  cw_buffers (stop_task id s) = alter end_sealing id (cw_buffers s).
Proof.
  unfold stop_task. destruct (cw_buffers s !! id) as [b|] eqn:Hb; cbn; split_and!; try done.
  - apply map_eq. intros j. destruct (decide (id = j)) as [<-|].
    + by rewrite lookup_insert_eq, lookup_alter_eq, Hb.
    + by rewrite lookup_insert_ne, lookup_alter_ne.
  - apply map_eq. intros j. destruct (decide (id = j)) as [<-|]; [by rewrite lookup_alter_eq, Hb|by rewrite lookup_alter_ne].
Qed.

(** A step that ends the seal, with this store. *)
Lemma stepped_stop id t s s1 result st' :
  disk_ok (cw_disk s) -> store_ok st' -> grows (cw_store s) st' ->
  cw_disk s1 = cw_disk s -> cw_store s1 = st' -> cw_wal_dir s1 = cw_wal_dir s -> cw_recovery_ready s1 = cw_recovery_ready s ->
  cw_tasks s1 = cw_tasks s -> cw_buffers s1 = cw_buffers s ->
  (result = Ok () -> tk_fail_on_persistence_error t = true -> forall l, l ∈ mjoin (tk_segments t) -> committed st' l) ->
  seal_stepped id t s (Some result) (stop_task id s1).
Proof.
  intros Hd Hst Hg E1 E2 E3 E4 E5 E6 Hres. destruct (stop_task_parts id s1) as (F1 & F2 & F3 & F4 & F5 & F6).
  split; rewrite ?F1, ?F2, ?F3, ?F4, ?F5, ?F6, ?E1, ?E2, ?E3, ?E4, ?E5, ?E6; try done.
  by apply evolves_evolves_upto, evolves_core.
Qed.

(** A step to the next stage that leaves the disk alone. *)
Lemma stepped_next id t s s' stage st' :
  disk_ok (cw_disk s) -> store_ok st' -> grows (cw_store s) st' ->
  cw_disk s' = cw_disk s -> cw_store s' = st' -> cw_wal_dir s' = cw_wal_dir s -> cw_recovery_ready s' = cw_recovery_ready s ->
  cw_tasks s' = <[id := at_stage t stage]> (cw_tasks s) -> cw_buffers s' = cw_buffers s ->
  stage_ok st' (at_stage t stage) -> rank stage = S (rank (tk_stage t)) -> seal_stepped id t s None s'.
Proof.
  intros Hd Hst Hg E1 E2 E3 E4 E5 E6 Hstage Hrank. split; rewrite ?E1, ?E2; try done.
  - by apply evolves_evolves_upto, evolves_core.
  - exists stage. rewrite E5, E6. split_and!; try done. by right.
Qed.

Lemma seal_step_ok id s t r s' :
  cw_tasks s !! id = Some t -> disk_ok (cw_disk s) -> store_ok (cw_store s) -> stage_ok (cw_store s) t ->
  (forall g, tk_generation t = Some g -> finishing t \/ gen_safe (cw_disk s) (cw_store s) g (mjoin (tk_segments t))) ->
  seal_step id s = (r, s') -> seal_stepped id t s r s'.
Proof.
  intros Ht Hd Hst Hstage Hgen. unfold ChunkWriter.seal_step. rewrite Ht. cbv zeta.
  assert (forall e st', store_ok st' -> grows (cw_store s) st' ->
    seal_stepped id t s (Some (if tk_fail_on_persistence_error t then Err e else Ok ())) (stop_task id (count_dropped (set_store s st')))) as Hdrop.
  { intros e st' Hst' Hg. eapply stepped_stop; try done. by destruct (tk_fail_on_persistence_error t). }
  unfold stage_ok in Hstage. destruct (tk_stage t) as [|enc key size|seq| |outcome] eqn:Hs.
  - set (wb := match tk_generation t with Some g => wg_with_bloom g | None => _ end).
    destruct (encode_segments (tk_identity t) (tk_segments t) wb) as [enc|e] eqn:Henc.
    2:{ intros [= <- <-]. by eapply stepped_stop. }
    destruct (retry_op _ _ (cw_store s)) as [res st'] eqn:Hw.
    destruct (write_chunk_ok order date_hour content_hash (task_identity t) enc _ _ _ _ Hst Hw) as [[Hst' Hg] Hobj].
    destruct res as [size|e]; intros [= <- <-]; [|by apply Hdrop]. eapply stepped_next; try done; [|by rewrite Hs].
    cbn. exists wb. split_and!; [done|done|]. by eapply Hobj.
  - destruct Hstage as (wb & Henc & -> & Hobj). destruct (retry_op _ _ (cw_store s)) as [res st'] eqn:Hw.
    destruct (manifest_insert_ok order date_hour content_hash _ _ _ _ _ _ _ _ _ _ Hst Henc Hobj Hw) as [[Hst' Hg] Hrow].
    destruct res as [seq|e]; intros [= <- <-]; [|by apply Hdrop]. eapply stepped_next; try done; [|by rewrite Hs].
    cbn. intros l Hl. destruct (Hrow _ eq_refl) as (row & Hin & _ & Hk).
    exists row, (tk_identity t), (tk_segments t), wb, enc. split_and!; [done|done| |done]. rewrite Hk. by apply (gr_objects _ _ Hg).
  - destruct (retry_op _ _ (cw_store s)) as [res st'] eqn:Hw.
    destruct (index_chunk_ok order date_hour content_hash _ _ _ _ _ Hst Hw) as [Hst' Hg].
    destruct (mark_indexed_ok order date_hour content_hash seq _ Hst') as [Hst2 Hg2].
    assert (grows (cw_store s) (mark_indexed seq st').2) as Hg3 by (etrans; [exact Hg|exact Hg2]).
    assert (forall st2, grows (cw_store s) st2 -> stage_ok st2 (at_stage t Cleaning)) as Hclean.
    { intros st2 Hg4 l Hl. eapply committed_grows; [exact Hg4|]. by apply Hstage. }
    destruct res as [[]|e]; intros [= <- <-].
    + apply (stepped_next _ _ _ _ Cleaning (mark_indexed seq st').2); try done; [by apply Hclean|by rewrite Hs].
    + apply (stepped_next _ _ _ _ Cleaning st'); try done; [by apply Hclean|by rewrite Hs].
    + apply (stepped_next _ _ _ _ Cleaning st'); try done; [by apply Hclean|by rewrite Hs].
  - destruct (tk_generation t) as [g|] eqn:Hg.
    2:{ intros [= <- <-]. apply (stepped_next _ _ _ _ (Finishing (Ok ())) (cw_store s)); try done. by rewrite Hs. }
    destruct (generation_remove g (cw_disk s)) as [outcome d'] eqn:Hr. intros [= <- <-].
    destruct (Hgen g eq_refl) as [Hf|[Hgn Hsafe]]; [unfold finishing in Hf; by rewrite Hs in Hf|].
    split; cbn; try done.
    + eapply evolves_upto_mono; [| |eapply (generation_remove_ok uuid_text good (committed (cw_store s))); [exact Hd|exact Hgn| |exact Hr]]; [done| |].
      * intros name [Hnr ->]. by exists g.
      * intros Hrm l Hl. destruct (Hsafe Hrm l Hl) as [|Hin]; [done|]. by apply Hstage.
    + exists (Finishing outcome). split_and!; try done; [by rewrite Hs|by left].
  - intros [= <- <-]. eapply stepped_stop; try done.
Qed.

Lemma gen_safe_grows d st st' g lines : grows st st' -> gen_safe d st g lines -> gen_safe d st' g lines.
Proof.
  intros Hg [Hn Hs]. split; [done|]. intros Hr l Hl. destruct (Hs Hr l Hl) as [|]; [left|by right]. by eapply committed_grows.
Qed.

Lemma stage_ok_grows st st' t : grows st st' -> stage_ok st t -> stage_ok st' t.
Proof.
  intros Hg. assert (forall l, committed st l -> committed st' l) as Hc by (intros l; by apply committed_grows).
  unfold stage_ok. destruct (tk_stage t); [done| |by eauto..].
  intros (wb & He & Hk & Ho). exists wb. split_and!; [done|done|]. by apply (gr_objects _ _ Hg).
Qed.

(** The rest of a seal that nothing interrupts. *)
Record seal_done (id : string) (t : SealTask) (s : Writer) (r : result WriterError unit) (s' : Writer) : Prop := {
  sn_store : store_ok (cw_store s');
  sn_grows : grows (cw_store s) (cw_store s');
  sn_disk : evolves_upto (committed (cw_store s')) (concerns t) (cw_disk s) (cw_disk s');
  sn_wal_dir : cw_wal_dir s' = cw_wal_dir s;
  sn_ready : cw_recovery_ready s' = cw_recovery_ready s;
  sn_tasks : cw_tasks s' = delete id (cw_tasks s);
  sn_buffers : cw_buffers s' = alter end_sealing id (cw_buffers s);
  sn_result : r = Ok () -> tk_fail_on_persistence_error t = true -> forall l, l ∈ mjoin (tk_segments t) -> committed (cw_store s') l
}.

Lemma seal_rest_ok fuel id s t r s' :
  (4 < fuel + rank (tk_stage t))%nat ->
  cw_tasks s !! id = Some t -> disk_ok (cw_disk s) -> store_ok (cw_store s) -> stage_ok (cw_store s) t ->
  (forall g, tk_generation t = Some g -> finishing t \/ gen_safe (cw_disk s) (cw_store s) g (mjoin (tk_segments t))) ->
  seal_rest fuel id s = (r, s') -> seal_done id t s r s'.
Proof.
  revert s t. induction fuel as [|fuel IH]; intros s t Hf Ht Hd Hst Hstage Hgen Hrun.
  { exfalso. destruct (tk_stage t); simpl in Hf; lia. }
  cbn [ChunkWriter.seal_rest] in Hrun. destruct (seal_step id s) as [r1 s1] eqn:Hs.
  destruct (seal_step_ok _ _ _ _ _ Ht Hd Hst Hstage Hgen Hs) as [Hst1 Hg1 Hd1 Hw1 Hr1 Hn1].
  assert (evolves_upto (committed (cw_store s1)) (concerns t) (cw_disk s) (cw_disk s1)) as Hd2.
  { eapply evolves_upto_lines; [exact Hd1|]. intros l. by apply committed_grows. }
  destruct r1 as [res|].
  { injection Hrun as <- <-. destruct Hn1 as (Ht1 & Hb1 & Hres). split; done. }
  destruct Hn1 as (stage & Ht1 & Hb1 & Hstage1 & Hrank & Hfin).
  assert (seal_done id (at_stage t stage) s1 r s') as [Hst2 Hg2 Hd3 Hw2 Hr2 Ht2 Hb2 Hres].
  { apply IH; try done; [cbn [at_stage tk_stage]; lia|by rewrite Ht1, lookup_insert_eq|apply Hd1|]. cbn. intros g Hg.
    destruct Hfin as [|Hsame]; [by left|]. destruct (Hgen g Hg) as [Hx|Hx]; [|right; rewrite Hsame; by eapply gen_safe_grows].
    unfold finishing in Hx. left. unfold finishing. cbn. destruct (tk_stage t); try done. destruct stage; simpl in Hrank; lia. }
  split; try done.
  - by etrans.
  - eapply evolves_upto_trans; [|exact Hd3]. eapply evolves_upto_lines; [exact Hd2|]. intros l. by apply committed_grows.
  - congruence.
  - congruence.
  - by rewrite Ht2, Ht1, delete_insert_eq.
  - by rewrite Hb2, Hb1.
Qed.

(** ** The invariant *)

(** The seal under way of a container that was not recovered. *)
Definition task_ok (id : string) (d : Disk) (st : Store) (t : SealTask) : Prop :=
  stage_ok st t /\
  exists g n with_bloom, tk_generation t = Some g /\ wg_path g = gen_path uuid_text id n with_bloom "sealed-wal" /\
    (n < dk_uuids d)%nat /\ (finishing t \/ gen_safe d st g (mjoin (tk_segments t))).

(** A container with the buffer [ob] and the seal [ot]. *)
Definition head_ok (id : string) (ready : bool) (d : Disk) (st : Store) (ob : option HeadBuffer) (ot : option SealTask) : Prop :=
  match ob with
  | Some b =>
      known id /\ buffer_ok b /\ hb_recovered_generation b = None /\ Forall good (unsealed b) /\ hb_sealing b = tk_segments <$> ot /\
      exists w, hb_wal b = Some w /\ stream_ok id d w (unsealed b) /\ (ot <> None -> sw_frozen w = None)
  | None => ot = None /\ (ready = true -> known id -> active_empty id d)
  end /\ match ot with Some t => task_ok id d st t | None => True end.

(** Nothing happens before recovery is through. *)
Definition waiting (s : Writer) : Prop :=
  cw_tasks s = ∅ /\
  forall id b, cw_buffers s !! id = Some b -> unsealed b = [] /\ forall w, hb_wal b = Some w -> sw_frozen w = None.

Record writer_ok (s : Writer) : Prop := {
  wo_wal_dir : cw_wal_dir s = true;
  wo_disk : disk_ok (cw_disk s);
  wo_store : store_ok (cw_store s);
  wo_head id : head_ok id (cw_recovery_ready s) (cw_disk s) (cw_store s) (cw_buffers s !! id) (cw_tasks s !! id);
  wo_waiting : cw_recovery_ready s = false -> waiting s
}.

(** A line that a crash cannot take. *)
Definition safe (s : Writer) (l : LogLine) : Prop := durable (cw_disk s) l \/ committed (cw_store s) l.

Lemma task_ok_other T id id' d d' st st' t :
  frame T d d' -> (forall name, T name -> touches uuid_text id' d name) -> sanitise id <> sanitise id' -> grows st st' ->
  task_ok id d st t -> task_ok id d' st' t.
Proof.
  intros Hf HT Hne Hg [Hst (g & n & wb & Hgen & Hp & Hn & Hsafe)]. split; [by eapply stage_ok_grows|].
  exists g, n, wb. split_and!; [done|done|pose proof (fr_uuids _ _ _ Hf); lia|].
    destruct Hsafe as [|[Hgn Hsafe]]; [by left|]. right. split; [done|]. intros Hr l Hl.
    eapply lines_at_frame in Hl; [|done|].
    + destruct (Hsafe Hr l Hl) as [|]; [left|by right]. by eapply committed_grows.
    + intros Ht%HT. rewrite Hp in Ht. revert Ht. apply (gen_not_touched uuid_text); [done|by left|done].
Qed.

Lemma head_ok_other T id id' ready d d' st st' ob ot :
  frame T d d' -> (forall name, T name -> touches uuid_text id' d name) -> known id' -> id <> id' -> grows st st' ->
  head_ok id ready d st ob ot -> head_ok id ready d' st' ob ot.
Proof.
  intros Hf HT Hk' Hne Hg [Hb Ht]. destruct ob as [b|].
  - destruct Hb as (Hk & Hbok & Hr & Hgood & Hs & w & Hw & Hstr & Hfz).
    assert (sanitise id <> sanitise id') as Hsan by (intros He; by apply Hne, known_inj).
    split; [split_and!; try done; exists w; split_and!; [done|by eapply stream_ok_other|done]|]. destruct ot as [t|]; [|done].
    by eapply task_ok_other.
  - destruct Hb as [-> Hae]. split; [|done]. split; [done|]. intros Hready Hk.
    apply (active_empty_other uuid_text T id id' d d' Hf HT); [|by apply Hae]. intros He. by apply Hne, known_inj.
Qed.

(** An operation on one container. *)
Lemma writer_ok_update id T s s' :
  writer_ok s -> known id -> cw_wal_dir s' = cw_wal_dir s -> cw_recovery_ready s' = cw_recovery_ready s ->
  cw_recovery_ready s = true ->
  disk_ok (cw_disk s') -> frame T (cw_disk s) (cw_disk s') -> (forall name, T name -> touches uuid_text id (cw_disk s) name) ->
  store_ok (cw_store s') -> grows (cw_store s) (cw_store s') ->
  (forall j, j <> id -> cw_buffers s' !! j = cw_buffers s !! j /\ cw_tasks s' !! j = cw_tasks s !! j) ->
  head_ok id true (cw_disk s') (cw_store s') (cw_buffers s' !! id) (cw_tasks s' !! id) ->
  writer_ok s'.
Proof.
  intros [Hw Hd Hst Hh Hwait] Hk E1 E2 Hready Hd' Hf HT Hst' Hg Hother Hid.
  split; [congruence|done|done| |congruence]. intros j. rewrite E2, Hready. destruct (decide (j = id)) as [->|Hne]; [done|].
  destruct (Hother j Hne) as [-> ->]. rewrite <- Hready. by eapply head_ok_other.
Qed.

(** ** The operations keep it *)

Record keeps (s s' : Writer) : Prop := {
  kp_ok : writer_ok s';
  kp_safe l : safe s l -> safe s' l
}.

Lemma keeps_trans s s1 s2 : keeps s s1 -> keeps s1 s2 -> keeps s s2.
Proof. intros [_ Hs] [Hok Hs']. split; eauto. Qed.

Lemma keeps_refl s : writer_ok s -> keeps s s.
Proof. by split. Qed.

Lemma safe_kept T s s' l :
  evolves_upto (committed (cw_store s')) T (cw_disk s) (cw_disk s') -> grows (cw_store s) (cw_store s') -> safe s l -> safe s' l.
Proof.
  intros Hev Hg [Hd|Hc]; [by apply (eu_durable _ _ _ _ _ _ Hev) in Hd as [|]; [left|right]|]. right. by eapply committed_grows.
Qed.

Lemma keeps_update id T s s' :
  writer_ok s -> known id -> cw_wal_dir s' = cw_wal_dir s -> cw_recovery_ready s' = cw_recovery_ready s ->
  cw_recovery_ready s = true ->
  evolves_upto (committed (cw_store s')) T (cw_disk s) (cw_disk s') ->
  (forall name, T name -> touches uuid_text id (cw_disk s) name) ->
  store_ok (cw_store s') -> grows (cw_store s) (cw_store s') ->
  (forall j, j <> id -> cw_buffers s' !! j = cw_buffers s !! j /\ cw_tasks s' !! j = cw_tasks s !! j) ->
  head_ok id true (cw_disk s') (cw_store s') (cw_buffers s' !! id) (cw_tasks s' !! id) ->
  keeps s s'.
Proof.
  intros Hok Hk E1 E2 Hready Hev HT Hst Hg Hother Hid. split.
  - eapply writer_ok_update; try done; apply Hev.
  - intros l. by eapply safe_kept.
Qed.

(** An operation that leaves the store alone. *)
Lemma keeps_disk id T s s' :
  writer_ok s -> known id -> cw_wal_dir s' = cw_wal_dir s -> cw_recovery_ready s' = cw_recovery_ready s ->
  cw_recovery_ready s = true -> cw_store s' = cw_store s -> evolves T (cw_disk s) (cw_disk s') ->
  (forall name, T name -> touches uuid_text id (cw_disk s) name) ->
  (forall j, j <> id -> cw_buffers s' !! j = cw_buffers s !! j /\ cw_tasks s' !! j = cw_tasks s !! j) ->
  head_ok id true (cw_disk s') (cw_store s) (cw_buffers s' !! id) (cw_tasks s' !! id) ->
  keeps s s'.
Proof.
  intros Hok Hk E1 E2 Hready E3 Hev HT Hother Hid. eapply (keeps_update id T); try done; rewrite ?E3; try done.
  - by apply evolves_evolves_upto.
  - apply (wo_store s Hok).
Qed.

Lemma touches_active id d name : wal_file_name id = name -> touches uuid_text id d name.
Proof. intros <-. by apply touched_active. Qed.

(** The task of a container while only its active file is written to. *)
Lemma task_ok_active id d d' st t : frame (eq (wal_file_name id)) d d' -> task_ok id d st t -> task_ok id d' st t.
Proof.
  intros Hf [Hst (g & n & wb & Hgen & Hp & Hn & Hsafe)]. split; [done|]. exists g, n, wb.
  split_and!; [done|done|pose proof (fr_uuids _ _ _ Hf); lia|]. destruct Hsafe as [|[Hgn Hsafe]]; [by left|]. right.
  split; [done|]. intros Hr l Hl. apply (Hsafe Hr). eapply lines_at_frame; [exact Hf| |exact Hl]. rewrite Hp. intros He.
  symmetry in He. revert He. apply (gen_not_active uuid_text). by left.
Qed.

Lemma buffer_for_ok line s r s1 :
  writer_ok s -> cw_recovery_ready s = true -> known (ll_container_id line) -> buffer_for line s = (r, s1) ->
  keeps s s1 /\ cw_recovery_ready s1 = true /\ forall b, r = Ok b -> cw_buffers s1 !! ll_container_id line = Some b.
Proof.
  intros Hok Hready Hk. unfold buffer_for. set (id := ll_container_id line) in *. cbv zeta.
  pose proof (wo_head s Hok id) as Hh. rewrite Hready in Hh. destruct (cw_buffers s !! id) as [b|] eqn:Hb.
  { intros [= <- <-]. split_and!; [by apply keeps_refl|done|]. by intros b' [= <-]. }
  destruct Hh as [[Ht Hae] _]. rewrite (wo_wal_dir s Hok). specialize (Hae eq_refl Hk).
  destruct (wal_stream id (cw_disk s)) as [[w|e] d'] eqn:Hw;
    destruct (wal_stream_ok uuid_text good _ _ _ _ (known_named _ Hk) (wo_disk s Hok) Hae Hw) as (Hev & Hae' & Hstr); intros [= <- <-].
  - split_and!; [|done|by intros b [= <-]; cbn; rewrite lookup_insert_eq].
    eapply (keeps_disk id); try done; [apply touches_active|intros j Hj; cbn; by rewrite lookup_insert_ne|].
    cbn. rewrite lookup_insert_eq, Ht. split; [|done]. split_and!; [done|apply buffer_new_ok|done|by constructor|done|].
    exists w. split_and!; [done|by apply Hstr|done].
  - split_and!; [|done|done]. eapply (keeps_disk id); try done; [apply touches_active|]. cbn. rewrite Hb, Ht. by split.
Qed.

Lemma with_wal_ok b w g : buffer_ok b -> buffer_ok (with_wal b w g).
Proof. by intros [Hs Hse Hf Hi]. Qed.

(** An append that fails leaves no part of its record behind. *)
Definition write_clean (line : LogLine) (s : Writer) : Prop :=
  match buffer_for line s with
  | (Ok b, s1) =>
      match hb_wal b with
      | Some w =>
          match wal_append w line (cw_disk s1) with
          | (Err _, _, d) => forall ino, bytes_of ino d = bytes_of ino (cw_disk s1)
          | _ => True
          end
      | None => True
      end
  | _ => True
  end.

Lemma write_line_ok line s r s' :
  writer_ok s -> good line -> write_clean line s -> write_line line s = (r, s') -> keeps s s'.
Proof.
  intros Hok Hgood Hclean. unfold write_line. destruct (cw_recovery_ready s) eqn:Hready; cbn [negb].
  2:{ intros [= <- <-]. by apply keeps_refl. }
  set (purged := match cw_purged_before s !! _ with Some _ => _ | None => _ end). destruct purged.
  { intros [= <- <-]. by apply keeps_refl. }
  unfold write_clean in Hclean. destruct (buffer_for line s) as [[b|e] s1] eqn:Hb; cbv zeta;
    destruct (buffer_for_ok _ _ _ _ Hok Hready (proj2 Hgood) Hb) as (Hk1 & Hready1 & Hbuf); [|by intros [= <- <-]].
  set (id := ll_container_id line) in *. specialize (Hbuf b eq_refl). pose proof (kp_ok _ _ Hk1) as Hok1.
  pose proof (wo_head s1 Hok1 id) as Hh. rewrite Hbuf, Hready1 in Hh.
  destruct Hh as [(Hk & Hbok & Hrec & Hall & Hseal & w & Hw & Hstr & Hfz) Ht]. rewrite Hw in *.
  destruct (wal_append w line (cw_disk s1)) as [[ra w'] d'] eqn:Ha.
  assert (is_ok ra = true \/ core d' = core (cw_disk s1)) as Hwhole.
  { destruct ra as [|e]; [by left|right]. by eapply append_clean. }
  destruct (wal_append_ok uuid_text good _ _ _ _ _ _ _ _ (wo_disk s1 Hok1) Hstr Hall Hgood (proj1 Hgood) Ha Hwhole) as [Hev Hstr'].
  assert (forall b', known id -> buffer_ok b' -> hb_recovered_generation b' = None -> hb_sealing b' = hb_sealing b -> hb_wal b' = Some w' ->
    unsealed b' = (if is_ok ra then unsealed b ++ [line] else unsealed b) ->
    keeps s (set_buffer (set_disk s1 d') id b')) as Hput.
  { intros b' _ Hbok' Hrec' Hseal' Hw' Hun. eapply keeps_trans; [exact Hk1|].
    eapply (keeps_disk id); try done; [apply touches_active|intros j Hj; cbn; by rewrite lookup_insert_ne|].
    cbn. rewrite lookup_insert_eq. split; [|destruct (cw_tasks s1 !! id); [|done]; eapply task_ok_active; [apply Hev|done]].
    split_and!; try done; [|congruence|exists w'; rewrite Hun; split_and!; [done|done|]; by rewrite (append_frozen _ _ _ _ _ _ Ha)].
    rewrite Hun. destruct (is_ok ra); [|done]. apply Forall_app. split; [done|]. by apply list.Forall_singleton. }
  destruct ra as [[]|e]; cbn [is_ok] in Hput; intros [= <- <-].
  - destruct (push_line_same (with_wal b (Some w') (hb_recovered_generation b)) line) as (E1 & E2 & E3 & E4).
    apply Hput; [done|by apply push_line_ok, with_wal_ok|by rewrite E4|by rewrite E1|by rewrite E2|by rewrite unsealed_push].
  - apply Hput; try done. by apply with_wal_ok.
Qed.

(** A sync that succeeds makes every line of the buffer safe. *)
Lemma sync_wal_ok id s r s' :
  writer_ok s -> cw_recovery_ready s = true -> sync_wal id s = (r, s') ->
  keeps s s' /\ (r = Ok () -> forall b l, cw_buffers s !! id = Some b -> l ∈ unsealed b -> safe s' l).
Proof.
  intros Hok Hready. unfold sync_wal. pose proof (wo_head s Hok id) as Hh. destruct (cw_buffers s !! id) as [b|] eqn:Hb.
  2:{ intros [= <- <-]. by split; [apply keeps_refl|]. }
  rewrite Hready in Hh. destruct Hh as [(Hk & Hbok & Hrec & Hall & Hseal & w & Hw & Hstr & Hfz) Ht]. rewrite Hw.
  destruct (wal_sync w (cw_disk s)) as [rs d'] eqn:Hs.
  destruct (wal_sync_ok uuid_text good _ _ _ _ _ _ (wo_disk s Hok) Hstr Hs) as (Hev & Hstr' & Hdur).
  assert (keeps s (set_disk s d')) as Hkeeps.
  { eapply (keeps_disk id); try done; [apply touches_active|]. cbn. rewrite Hb.
    split; [|destruct (cw_tasks s !! id); [|done]; eapply task_ok_active; [apply Hev|done]]. split_and!; try done. by exists w. }
  destruct rs as [[]|e]; intros [= <- <-]; (split; [done|]); [|done]. intros _ b' l [= <-] Hl. left. apply Hdur; [done| |done].
  eapply list.Forall_impl; [exact Hall|]. apply good_replayable.
Qed.

Lemma gen_ok_safe id d st g ls : Forall good ls -> gen_ok uuid_text id d g ls -> gen_safe d st g ls.
Proof.
  intros Hls (n & wb & Hp & Hn & Hr & ino & i & Hroot & Hi & Hb). split; [rewrite Hp; apply (gen_is_generation uuid_text); by left|].
  intros _ l (ino' & i' & Hroot' & Hi' & Hl). right. assert (ino' = ino) as -> by congruence. assert (i' = i) as -> by congruence.
  rewrite Hb, file_lines_records in Hl; [done|]. eapply list.Forall_impl; [exact Hls|]. apply good_replayable.
Qed.

Lemma set_buffer_same s id b : cw_buffers s !! id = Some b -> set_buffer s id b = s.
Proof. intros Hb. unfold set_buffer, set_buffers. rewrite insert_id by done. by destruct s. Qed.

Lemma freeze_empty b : hb_segments (freeze_active b) = [] -> freeze_active b = b /\ unsealed b = [].
Proof.
  unfold freeze_active, unsealed. destruct (hb_active b) eqn:Ha.
  - intros ->. by split.
  - cbn. intros Hx. by apply app_eq_nil in Hx as [_ ?].
Qed.

(** What the lock section of a seal leaves. *)
Record seal_started (id : string) (flag : bool) (s : Writer) (r : option (result WriterError bool)) (s' : Writer) : Prop := {
  sr_keeps : keeps s s';
  sr_ready : cw_recovery_ready s' = cw_recovery_ready s;
  sr_none : r = Some (Ok false) -> cw_tasks s' !! id = None /\ forall b, cw_buffers s' !! id = Some b -> unsealed b = [];
  sr_begun : r = Some (Ok true) -> exists b t, cw_buffers s' !! id = Some b /\ cw_tasks s' !! id = Some t /\ unsealed b = [] /\
    tk_fail_on_persistence_error t = flag /\ tk_stage t = Encoding;
  sr_before b : cw_buffers s !! id = Some b -> r = Some (Ok true) -> exists t, cw_tasks s' !! id = Some t /\ mjoin (tk_segments t) = unsealed b;
  sr_store : cw_store s' = cw_store s;
  sr_other j : j <> id -> cw_buffers s' !! j = cw_buffers s !! j;
  sr_same b : cw_buffers s !! id = Some b -> exists b', cw_buffers s' !! id = Some b' /\ hb_identity b' = hb_identity b /\
    (r = Some (Ok false) -> b' = b) /\ (r <> None -> hb_sealing b = None)
}.

Lemma seal_start_ok id flag s r s' :
  writer_ok s -> seal_start uuid_text id flag s = (r, s') -> seal_started id flag s r s'.
Proof.
  intros Hok. unfold seal_start. pose proof (wo_head s Hok id) as Hh. destruct (cw_buffers s !! id) as [b|] eqn:Hb.
  2:{ intros [= <- <-]. destruct Hh as [[Hnt _] _].
      split; [by apply keeps_refl|done|intros _; split; [done|congruence]|done|congruence|done|done|congruence]. }
  destruct Hh as [(Hk & Hbok & Hrec & Hall & Hseal & w & Hw & Hstr & Hfz) Ht].
  destruct (hb_sealing b) as [x|] eqn:Hsl.
  { intros [= <- <-]. split; [by apply keeps_refl|done|done|done|done|done|done|]. intros b'. rewrite Hb. intros [= <-]. by exists b. }
  assert (cw_tasks s !! id = None) as Hnt by (by destruct (cw_tasks s !! id)). clear Hseal Ht.
  destruct (freeze_active_same b) as (E1 & E2 & E3 & E4 & E5). pose proof (freeze_active_ok b Hbok) as Hbok'.
  pose proof (unsealed_freeze b) as Hun. cbv zeta. destruct (hb_segments (freeze_active b)) as [|seg segs] eqn:Hsegs.
  { destruct (freeze_empty b Hsegs) as [-> Hnil]. intros [= <- <-]. rewrite set_buffer_same by done.
    split; [by apply keeps_refl|done| |done|done|done|done|].
    - intros _. split; [done|]. intros b'. rewrite Hb. by intros [= <-].
    - intros b'. rewrite Hb. intros [= <-]. by exists b. }
  rewrite <- Hsegs in *. rewrite E4, Hrec, E2, Hw.
  assert (unsealed b <> []) as Hne.
  { rewrite <- Hun. unfold unsealed. destruct Hbok' as [_ _ Hf _]. rewrite Hsegs in *. inversion Hf; subst. by destruct seg. }
  assert (cw_recovery_ready s = true) as Hready.
  { destruct (cw_recovery_ready s) eqn:Hr; [done|]. destruct (wo_waiting s Hok Hr) as [_ Hwait]. by destruct (Hwait id b Hb). }
  destruct (wal_rotate uuid_text w (negb (cw_shed_bloom s)) (cw_disk s)) as [[rr w'] d'] eqn:Hrot.
  destruct (rotate_ok uuid_text good _ _ _ _ _ _ _ _ (known_named id Hk) (wo_disk s Hok) Hstr Hrot) as [Hev Hpost].
  assert (forall name, rotated uuid_text id (cw_disk s) name -> touches uuid_text id (cw_disk s) name) as HT by by left.
  destruct rr as [g|e]; intros [= <- <-].
  - destruct Hpost as [Hstr' Hgen]. set (b1 := with_wal (freeze_active b) (Some w') None).
    destruct (begin_sealing_ok b1 (cw_now s) (with_wal_ok _ _ _ Hbok') E5 ltac:(cbn; by rewrite Hsegs)) as (Hbok2 & Hun2 & Hin2).
    assert (mjoin (hb_segments (freeze_active b)) = unsealed b) as Hj.
    { rewrite <- Hun. unfold unsealed. by rewrite E5, app_nil_r. }
    split; [|done|done| | |done|intros j Hj'; cbn; by rewrite lookup_insert_ne|].
    + eapply (keeps_disk id); try done; [intros j Hj'; cbn; by rewrite !lookup_insert_ne|]. cbn. rewrite !lookup_insert_eq. split.
      * split_and!; [done|done|done|by rewrite Hun2|done|]. exists w'. rewrite Hun2. split_and!; [done|done|]. intros _. by eapply rotate_fresh.
      * split; [done|]. destruct Hgen as (n & wb & Hp & Hn & Hg). exists g, n, wb. split_and!; [done|done|done|]. right. cbn. rewrite Hj.
        eapply gen_ok_safe; [exact Hall|]. by exists n, wb.
    + intros _. do 2 eexists. cbn. rewrite !lookup_insert_eq. split_and!; done.
    + intros b' Hb' _. rewrite Hb in Hb'. injection Hb' as <-. eexists. cbn. by rewrite lookup_insert_eq.
    + intros b' Hb'. rewrite Hb in Hb'. injection Hb' as <-. eexists. cbn. rewrite lookup_insert_eq. split_and!; [done|by cbn|done|done].
  - split; [|done|done|done|done|done|intros j Hj; cbn; by rewrite lookup_insert_ne|].
    2:{ intros b' Hb'. rewrite Hb in Hb'. injection Hb' as <-. eexists. cbn. rewrite lookup_insert_eq. by split_and!. }
    eapply (keeps_disk id); try done; [intros j Hj; cbn; by rewrite lookup_insert_ne|]. cbn. rewrite lookup_insert_eq, Hnt. split; [|done].
    split_and!; [done|by apply with_wal_ok|done|by rewrite <- Hun in Hall|cbn; by rewrite E1|]. exists w'. split_and!; [done| |done].
    change (stream_ok id d' w' (unsealed (freeze_active b))). by rewrite Hun.
Qed.

Lemma ready_task s id t : writer_ok s -> cw_tasks s !! id = Some t -> cw_recovery_ready s = true.
Proof.
  intros Hok Ht. destruct (cw_recovery_ready s) eqn:Hr; [done|]. destruct (wo_waiting s Hok Hr) as [He _].
  rewrite He, lookup_empty in Ht. done.
Qed.

Lemma end_sealing_same b :
  unsealed (end_sealing b) = unsealed b /\ hb_wal (end_sealing b) = hb_wal b /\
  hb_recovered_generation (end_sealing b) = hb_recovered_generation b /\ hb_sealing (end_sealing b) = None.
Proof. done. Qed.

(** A step of a seal, whatever the other containers do in between. *)
Lemma seal_step_keeps id s r s' :
  writer_ok s -> seal_step id s = (r, s') ->
  keeps s s' /\ cw_recovery_ready s' = cw_recovery_ready s /\
  forall b, cw_buffers s !! id = Some b -> exists b', cw_buffers s' !! id = Some b' /\ unsealed b' = unsealed b.
Proof.
  intros Hok Hs. destruct (cw_tasks s !! id) as [t|] eqn:Ht.
  2:{ unfold ChunkWriter.seal_step in Hs. rewrite Ht in Hs. injection Hs as <- <-. split_and!; [by apply keeps_refl|done|eauto]. }
  pose proof (ready_task s id t Hok Ht) as Hready. pose proof (wo_head s Hok id) as Hh. rewrite Ht, Hready in Hh.
  destruct (cw_buffers s !! id) as [b|] eqn:Hb; [|by destruct Hh as [[? _] _]].
  destruct Hh as [(Hk & Hbok & Hrec & Hall & Hseal & w & Hw & Hstr & Hfz) (Hstage & g & n & wb & Hgen & Hp & Hn & Hsafe)].
  specialize (Hfz ltac:(done)).
  assert (seal_stepped id t s r s') as [Hst' Hg Hd E1 E2 Hnext].
  { eapply seal_step_ok; try done; [apply Hok|apply Hok|]. intros g' Hg'. rewrite Hgen in Hg'. by injection Hg' as <-. }
  assert (evolves_upto (committed (cw_store s')) (eq (gen_path uuid_text id n wb "sealed-wal")) (cw_disk s) (cw_disk s')) as Hev.
  { eapply evolves_upto_lines; [eapply evolves_upto_mono; [| |exact Hd]|]; [done| |].
    - intros name (g' & Hg' & _ & ->). rewrite Hgen in Hg'. injection Hg' as <-. by rewrite Hp.
    - intros l. by apply committed_grows. }
  assert (stream_ok id (cw_disk s') w (unsealed b)) as Hstr'.
  { eapply stream_open_frame; [apply Hev| |done|done]. apply (gen_not_active uuid_text). by left. }
  pose proof (fr_uuids _ _ _ (eu_frame _ _ _ _ _ _ Hev)) as Hle.
  assert ((forall j, j <> id -> cw_buffers s' !! j = cw_buffers s !! j /\ cw_tasks s' !! j = cw_tasks s !! j) ->
    head_ok id true (cw_disk s') (cw_store s') (cw_buffers s' !! id) (cw_tasks s' !! id) -> keeps s s') as Hkeep.
  { intros. eapply (keeps_update id); try done. intros name <-. right. exists n, wb, "sealed-wal"%string. by split; [left|]. }
  destruct r as [res|].
  - destruct Hnext as (Et & Eb & _). split_and!; [|congruence|].
    + apply Hkeep; rewrite ?Et, ?Eb.
      * intros j Hj. by rewrite lookup_alter_ne, lookup_delete_ne.
      * rewrite lookup_alter_eq, lookup_delete_eq, Hb. split; [|done]. split_and!; [done|by apply end_sealing_ok|done|done|done|].
        by exists w.
    + intros b' [= <-]. exists (end_sealing b). by rewrite Eb, lookup_alter_eq, Hb.
  - destruct Hnext as (stage & Et & Eb & Hstage' & Hrank & Hfin). split_and!; [|congruence|].
    + apply Hkeep; rewrite ?Et, ?Eb.
      * intros j Hj. by rewrite lookup_insert_ne.
      * rewrite lookup_insert_eq, Hb. split; [split_and!; try done; by exists w|]. split; [done|]. exists g, n, wb.
        split_and!; [done|done|lia|]. destruct Hfin as [|Hsame]; [by left|]. destruct Hsafe as [Hf|Hsafe].
        -- left. unfold finishing in *. cbn. destruct (tk_stage t); try done. destruct stage; simpl in Hrank; lia.
        -- right. rewrite Hsame. cbn. by eapply gen_safe_grows.
    + intros b' [= <-]. exists b. by rewrite Eb.
Qed.

#[local] Abbreviation seal_inner := (seal_inner order date_hour content_hash uuid_text).
#[local] Abbreviation remove_container := (remove_container order date_hour content_hash uuid_text).

Lemma seal_rest_keeps fuel id s r s' :
  writer_ok s -> seal_rest fuel id s = (r, s') ->
  keeps s s' /\ cw_recovery_ready s' = cw_recovery_ready s /\
  forall b, cw_buffers s !! id = Some b -> exists b', cw_buffers s' !! id = Some b' /\ unsealed b' = unsealed b.
Proof.
  revert s. induction fuel as [|fuel IH]; intros s Hok; cbn [ChunkWriter.seal_rest].
  { intros [= <- <-]. split_and!; [by apply keeps_refl|done|eauto]. }
  destruct (seal_step id s) as [[res|] s1] eqn:Hs; destruct (seal_step_keeps _ _ _ _ Hok Hs) as (Hk & Hr & Hb).
  { by intros [= <- <-]. }
  intros Hrun. destruct (IH _ (kp_ok _ _ Hk) Hrun) as (Hk2 & Hr2 & Hb2). split_and!; [by eapply keeps_trans|congruence|].
  intros b Hbb. destruct (Hb b Hbb) as (b1 & Hb1 & Hu1). destruct (Hb2 b1 Hb1) as (b2 & Hb2' & Hu2). exists b2. split; [done|congruence].
Qed.

(** The rest of a seal that has just begun, with nothing in between. *)
Lemma seal_rest_done id s t r s' :
  writer_ok s -> cw_tasks s !! id = Some t -> tk_stage t = Encoding -> seal_rest 5 id s = (r, s') -> seal_done id t s r s'.
Proof.
  intros Hok Ht Hstage Hrun. pose proof (wo_head s Hok id) as [_ Htask]. rewrite Ht in Htask.
  destruct Htask as (Hst & g & n & wb & Hg & _ & _ & Hsafe).
  eapply seal_rest_ok; try done; [rewrite Hstage; cbn; lia|apply Hok|apply Hok|]. intros g' Hg'. rewrite Hg in Hg'. by injection Hg' as <-.
Qed.

(** A seal with nothing in between: when it succeeds nothing is left unsealed, nor under way. *)
Lemma seal_inner_keeps id flag s r s' :
  writer_ok s -> seal_inner id flag s = (r, s') ->
  keeps s s' /\ cw_recovery_ready s' = cw_recovery_ready s /\
  (r = Ok () -> cw_tasks s' !! id = None /\ forall b, cw_buffers s' !! id = Some b -> unsealed b = []).
Proof.
  intros Hok. unfold ChunkWriter.seal_inner. destruct (seal_start uuid_text id flag s) as [r1 s1] eqn:Hs.
  destruct (seal_start_ok _ _ _ _ _ Hok Hs) as [Hk Hr Hnone Hbegun _ _ _ _]. pose proof (kp_ok _ _ Hk) as Hok1.
  destruct r1 as [[[]|e]|]; [|intros [= <- <-]; split_and!; try done; intros _; by apply Hnone|by intros [= <- <-]..].
  intros Hrun. destruct (Hbegun eq_refl) as (b & t & Hb & Ht & Hun & Hflag & Hstage).
  destruct (seal_rest_keeps _ _ _ _ _ Hok1 Hrun) as (Hk2 & Hr2 & Hb2).
  destruct (Hb2 b Hb) as (b2 & Hb2' & Hu2). split_and!; [by eapply keeps_trans|congruence|].
  intros _. split; [|intros b' Hb'; congruence].
  rewrite (sn_tasks _ _ _ _ _ (seal_rest_done _ _ _ _ _ Hok1 Ht Hstage Hrun)). apply lookup_delete_eq.
Qed.

(** A buffer whose lines have all gone to the manifest. *)
Definition emptied (st : Store) (b b' : HeadBuffer) : Prop :=
  hb_identity b' = hb_identity b /\ visible b' = [] /\ forall l, l ∈ visible b -> committed st l.

(** What has become of the buffers when those of [ids] were sealed. *)
Definition flushed (ids : list string) (s s' : Writer) : Prop :=
  forall id, match cw_buffers s !! id with
             | None => cw_buffers s' !! id = None
             | Some b => exists b', cw_buffers s' !! id = Some b' /\ (emptied (cw_store s') b b' \/ (id ∉ ids) /\ b' = b)
             end.

(** A seal that reports persistence errors and none came. *)
Lemma seal_inner_flushes id s s' :
  writer_ok s -> seal_inner id true s = (Ok (), s') -> grows (cw_store s) (cw_store s') /\ flushed [id] s s'.
Proof.
  intros Hok. unfold ChunkWriter.seal_inner. destruct (seal_start uuid_text id true s) as [r1 s1] eqn:Hs.
  destruct (seal_start_ok _ _ _ _ _ Hok Hs) as [Hk _ Hnone Hbegun Hbefore Hstore Hother Hsame].
  assert (cw_buffers s !! id = None -> r1 = Some (Ok false) /\ s1 = s) as Habsent.
  { intros Hb. unfold seal_start in Hs. rewrite Hb in Hs. by injection Hs as <- <-. }
  assert (forall s2, cw_buffers s2 = cw_buffers s1 \/ cw_buffers s2 = alter end_sealing id (cw_buffers s1) -> forall j, j <> id ->
    match cw_buffers s !! j with
    | None => cw_buffers s2 !! j = None
    | Some b => exists b', cw_buffers s2 !! j = Some b' /\ (emptied (cw_store s2) b b' \/ (j ∉ [id]) /\ b' = b)
    end) as Hrest.
  { intros s2 Hb2 j Hj. assert (cw_buffers s2 !! j = cw_buffers s !! j) as ->.
    { rewrite <- Hother by done. destruct Hb2 as [-> | ->]; by rewrite ?lookup_alter_ne. }
    destruct (cw_buffers s !! j) as [b|]; [|done]. exists b. split; [done|]. right. split; [|done]. by rewrite list_elem_of_singleton. }
  destruct r1 as [[[]|e]|]; [|intros [= <-]|done..].
  - intros Hrun. destruct (Hbegun eq_refl) as (b1 & t & Hb1 & Ht & Hun & Hflag & Hstage).
    destruct (seal_rest_done _ _ _ _ _ (kp_ok _ _ Hk) Ht Hstage Hrun) as [_ Hg _ _ _ _ Hbuf Hres]. rewrite Hstore in Hg. split; [done|].
    intros j. destruct (decide (j = id)) as [->|Hj]; [|by apply Hrest; [right|]].
    destruct (cw_buffers s !! id) as [b|] eqn:Hb; [|by destruct (Habsent eq_refl)].
    destruct (Hsame b eq_refl) as (b' & Hb' & Hid & _ & Hsl). assert (b' = b1) as -> by congruence.
    exists (end_sealing b1). rewrite Hbuf, lookup_alter_eq, Hb1. split; [done|]. left. split; [done|]. split.
    + exact Hun.
    + intros l. unfold visible, in_seal. rewrite Hsl by done. cbn. intros Hl.
      destruct (Hbefore b eq_refl eq_refl) as (t' & Ht' & Hj). assert (t' = t) as -> by congruence. apply Hres; [done|done|by rewrite Hj].
  - rewrite Hstore. split; [done|]. intros j. destruct (decide (j = id)) as [->|Hj]; [|by apply Hrest; [left|]].
    destruct (cw_buffers s !! id) as [b|] eqn:Hb; [|destruct (Habsent eq_refl) as [_ ->]; done].
    destruct (Hsame b eq_refl) as (b' & Hb' & Hid & Heq & Hsl). rewrite (Heq eq_refl) in *. exists b. split; [done|]. left.
    assert (visible b = []) as Hv.
    { unfold visible, in_seal. rewrite Hsl by done. cbn. by apply (proj2 (Hnone eq_refl)). }
    split_and!; [done|done|]. intros l. rewrite Hv. by intros ?%elem_of_nil.
Qed.

#[local] Abbreviation seal_all := (seal_all order date_hour content_hash uuid_text).
#[local] Abbreviation seal_each := (seal_each order date_hour content_hash uuid_text).

Lemma flushed_cons id ids s s1 s2 :
  grows (cw_store s1) (cw_store s2) -> flushed [id] s s1 -> flushed ids s1 s2 -> flushed (id :: ids) s s2.
Proof.
  intros Hg F1 F2 j. specialize (F1 j). specialize (F2 j). destruct (cw_buffers s !! j) as [b|]; [|by rewrite F1 in F2].
  destruct F1 as (b1 & Hb1 & F1). rewrite Hb1 in F2. destruct F2 as (b2 & Hb2 & F2). exists b2. split; [done|].
  destruct F1 as [(Hid & Hv & Hc)|[Hn ->]].
  - left. destruct F2 as [(Hid' & Hv' & _)|[_ ->]].
    + split_and!; [congruence|done|]. intros l Hl. by eapply committed_grows, Hc.
    + split_and!; [done|done|]. intros l Hl. by eapply committed_grows, Hc.
  - destruct F2 as [|[Hn' ->]]; [by left|]. right. split; [|done]. rewrite list_elem_of_singleton in Hn. rewrite elem_of_cons. tauto.
Qed.

Lemma seal_all_flushes ids s s' :
  writer_ok s -> seal_all ids s = (Ok (), s') -> keeps s s' /\ grows (cw_store s) (cw_store s') /\ flushed ids s s'.
Proof.
  revert s. induction ids as [|id ids IH]; intros s Hok; cbn [ChunkWriter.seal_all].
  { intros [= <-]. split_and!; [by apply keeps_refl|done|]. intros j. destruct (cw_buffers s !! j) as [b|]; [|done].
    exists b. split; [done|]. right. split; [apply not_elem_of_nil|done]. }
  destruct (seal_inner id true s) as [[[]|e] s1] eqn:Hs; [|done]. intros Hrun.
  destruct (seal_inner_keeps _ _ _ _ _ Hok Hs) as [Hk _]. destruct (seal_inner_flushes _ _ _ Hok Hs) as [Hg Hf].
  destruct (IH _ (kp_ok _ _ Hk) Hrun) as (Hk2 & Hg2 & Hf2). split_and!; [by eapply keeps_trans|by etrans|by eapply flushed_cons].
Qed.

(** The flushes of the ticker and of the shutdown, whatever fails in them. *)
Lemma seal_each_keeps ids s : writer_ok s -> keeps s (seal_each ids s).
Proof.
  revert s. induction ids as [|id ids IH]; intros s Hok; [by apply keeps_refl|]. unfold ChunkWriter.seal_each. cbn [fold_left].
  destruct (seal_inner id false s) as [r s1] eqn:Hs. destruct (seal_inner_keeps _ _ _ _ _ Hok Hs) as [Hk _].
  eapply keeps_trans; [exact Hk|]. apply IH, Hk.
Qed.

Lemma remove_container_keeps id s r s' : writer_ok s -> remove_container id s = (r, s') -> keeps s s'.
Proof.
  intros Hok. unfold ChunkWriter.remove_container. destruct (cw_recovery_ready s) eqn:Hready; cbn [negb].
  2:{ intros [= <- <-]. by apply keeps_refl. }
  pose proof (wo_head s Hok id) as Hh0. destruct (cw_buffers s !! id) as [b0|] eqn:Hb0; [|intros [= <- <-]; by apply keeps_refl].
  destruct Hh0 as [(Hknown & _) _]. destruct (seal_inner id true s) as [[[]|e] s1] eqn:Hs;
    destruct (seal_inner_keeps _ _ _ _ _ Hok Hs) as (Hk & Hr & Hdone); [|by intros [= <- <-]].
  destruct (Hdone eq_refl) as [Hnt Hun]. pose proof (kp_ok _ _ Hk) as Hok1. rewrite Hready in Hr. cbv zeta. cbn [set_buffers cw_wal_dir cw_disk].
  rewrite (wo_wal_dir s1 Hok1). assert (active_empty id (cw_disk s1)) as Hae.
  { pose proof (wo_head s1 Hok1 id) as Hh. destruct (cw_buffers s1 !! id) as [b|] eqn:Hb; [|apply Hh; done].
    destruct Hh as [(_ & _ & _ & _ & _ & w & _ & Hstr & _) _]. rewrite (Hun b eq_refl) in Hstr. by eapply stream_ok_empty. }
  destruct (wal_remove id (cw_disk s1)) as [rr d'] eqn:Hrm.
  destruct (wal_remove_ok uuid_text good _ _ _ _ (wo_disk s1 Hok1) Hae Hrm) as [Hev Hae'].
  intros Hres. eapply keeps_trans; [exact Hk|].
  assert (s' = set_disk (set_buffers s1 (delete id (cw_buffers s1))) d') as -> by (by destruct rr; injection Hres as _ <-).
  eapply (keeps_disk id); try done; [apply touches_active|intros j Hj; cbn; by rewrite lookup_delete_ne|].
  cbn. rewrite lookup_delete_eq, Hnt. by split.
Qed.

(** ** Crashes, and what the environment does *)

(** The process dies and starts again: its memory is gone, and nothing runs before recovery. *)
Definition crash (keep : nat -> nat) (faults : list Fault) (s : Writer) : Writer :=
  {| cw_disk := crash_disk keep faults (cw_disk s); cw_store := cw_store s; cw_wal_dir := cw_wal_dir s;
     cw_line_index := cw_line_index s; cw_buffers := ∅; cw_tasks := ∅; cw_purged_before := ∅;
     cw_thresholds := cw_thresholds s; cw_head_max_bytes := cw_head_max_bytes s; cw_shed_bloom := cw_shed_bloom s;
     cw_dropped_chunks := 0; cw_unindexed_chunks := 0; cw_recovery_ready := false; cw_now := cw_now s |}.

Lemma crash_keeps keep faults s : writer_ok s -> keeps s (crash keep faults s).
Proof.
  intros [Hw Hd Hst _ _]. split.
  - split; cbn; [done|by apply crash_ok|done| |].
    + intros id. rewrite !lookup_empty. split; [|done]. by split.
    + intros _. split; [done|]. intros id b. cbn. by rewrite lookup_empty.
  - intros l [Hl|Hl]; [left; by apply crash_durable|by right].
Qed.

(** The same data: settings, counters, the clock and the faults to come may differ. *)
Record same_data (s s' : Writer) : Prop := {
  sd_disk : core (cw_disk s') = core (cw_disk s);
  sd_objects : so_objects (cw_store s') = so_objects (cw_store s);
  sd_rows : so_rows (cw_store s') = so_rows (cw_store s);
  sd_next : so_next_seq (cw_store s') = so_next_seq (cw_store s);
  sd_wal_dir : cw_wal_dir s' = cw_wal_dir s;
  sd_buffers : cw_buffers s' = cw_buffers s;
  sd_tasks : cw_tasks s' = cw_tasks s;
  sd_ready : cw_recovery_ready s' = cw_recovery_ready s
}.

Lemma head_ok_core id ready d d' st st' ob ot :
  core d' = core d -> grows st st' -> head_ok id ready d st ob ot -> head_ok id ready d' st' ob ot.
Proof.
  intros Hc Hg [Hb Ht]. pose proof Hc as Hc'. apply core_parts in Hc' as (Hr & _ & Hi & _ & Hu).
  assert (frame (eq (wal_file_name id)) d d') as Hf by (split; intros; rewrite ?Hr, ?Hi, ?Hu; done). split.
  - destruct ob as [b|].
    + destruct Hb as (Hk & Hbok & Hrec & Hgood & Hs & w & Hw & Hstr & Hfz). split_and!; try done. exists w. split_and!; [done| |done].
      by eapply stream_ok_core.
    + destruct Hb as [-> Hae]. split; [done|]. intros Hready Hk. eapply active_empty_core; [done|by apply Hae].
  - destruct ot as [t|]; [|done]. apply (task_ok_active id d d' st' t Hf). destruct Ht as [Hst (g & n & wb & Hgen & Hp & Hn & Hsafe)].
    split; [by eapply stage_ok_grows|]. exists g, n, wb. split_and!; try done. destruct Hsafe as [|Hsafe]; [by left|right; by eapply gen_safe_grows].
Qed.

Lemma same_data_keeps s s' : writer_ok s -> same_data s s' -> keeps s s'.
Proof.
  intros [Hw Hd Hst Hh Hwait] [E1 E2 E3 E4 E5 E6 E7 E8].
  assert (grows (cw_store s) (cw_store s')) as Hg by by apply grows_same. split.
  - split; [congruence|by eapply disk_ok_core|by eapply store_ok_same| |].
    + intros id. rewrite E6, E7, E8. by eapply head_ok_core.
    + intros Hr. unfold waiting. rewrite E6, E7. apply Hwait. congruence.
  - intros l [Hl|Hl]; [left|right; by eapply committed_grows].
    apply (ev_durable uuid_text good (fun _ => False) (cw_disk s)); [|done]. by apply evolves_core.
Qed.

(** ** Recovery *)

(** A container that has nothing to seal and an open stream. *)
Definition idle_head (id : string) (d : Disk) (b : HeadBuffer) : Prop :=
  known id /\ buffer_ok b /\ hb_recovered_generation b = None /\ unsealed b = [] /\ hb_sealing b = None /\
  exists w, hb_wal b = Some w /\ stream_ok id d w [] /\ sw_frozen w = None.

(** The service before its recovery is through. *)
Record recovering (s : Writer) : Prop := {
  rc_wal_dir : cw_wal_dir s = true;
  rc_ready : cw_recovery_ready s = false;
  rc_disk : disk_ok (cw_disk s);
  rc_store : store_ok (cw_store s);
  rc_tasks : cw_tasks s = ∅;
  rc_idle id b : cw_buffers s !! id = Some b -> idle_head id (cw_disk s) b
}.

Lemma recovering_iff s : recovering s <-> writer_ok s /\ cw_recovery_ready s = false.
Proof.
  split.
  - intros [Hw Hr Hd Hst Ht Hidle]. split; [|done]. split; [done|done|done| |].
    + intros id. rewrite Hr, Ht, lookup_empty. destruct (cw_buffers s !! id) as [b|] eqn:Hb; [|by split].
      destruct (Hidle id b Hb) as (Hk & Hbok & Hrec & Hun & Hsl & w & Hwl & Hstr & Hfz). split; [|done]. rewrite Hun.
      split_and!; [done|done|done|by constructor|done|]. exists w. by split_and!.
    + intros _. split; [done|]. intros id b Hb. destruct (Hidle id b Hb) as (_ & _ & _ & Hun & _ & w & Hwl & _ & Hfz).
      split; [done|]. intros w' Hw'. congruence.
  - intros [[Hw Hd Hst Hh Hwait] Hr]. destruct (Hwait Hr) as [Ht Hun]. split; try done. intros id b Hb.
    specialize (Hh id). rewrite Hb, Ht, lookup_empty in Hh. destruct Hh as [(Hk & Hbok & Hrec & _ & Hsl & w & Hwl & Hstr & _) _].
    destruct (Hun id b Hb) as [Hnil Hfz]. rewrite Hnil in Hstr. split_and!; try done. exists w. split_and!; [done|done|by apply Hfz].
Qed.

Lemma idle_frame T id d d' b : frame T d d' -> ~ T (wal_file_name id) -> idle_head id d b -> idle_head id d' b.
Proof.
  intros Hf HT (Hk & Hbok & Hrec & Hun & Hsl & w & Hw & Hstr & Hfz). split_and!; try done. exists w. split_and!; [done| |done].
  by eapply stream_open_frame.
Qed.

Lemma push_lines_ok ls b :
  buffer_ok b -> let b' := fold_left push_line ls b in
  buffer_ok b' /\ unsealed b' = unsealed b ++ ls /\ hb_sealing b' = hb_sealing b /\ hb_wal b' = hb_wal b /\
  hb_recovered_generation b' = hb_recovered_generation b.
Proof.
  cbv zeta. revert b. induction ls as [|l ls IH]; intros b Hb; cbn [fold_left].
  { by rewrite app_nil_r. }
  destruct (IH _ (push_line_ok b l Hb)) as (H1' & H2' & H3' & H4' & H5').
  destruct (push_line_same b l) as (E1 & E2 & _ & E4). rewrite H2', H3', H4', H5', unsealed_push, E1, E2, E4, <- app_assoc.
  done.
Qed.

(** The active files of all containers hold nothing. *)
Definition all_empty (d : Disk) : Prop :=
  forall name, wal_kind name = Some ActiveWal -> dk_root d !! name = None \/ holds_at d name [].

Lemma all_empty_known d id : all_empty d -> known id -> active_empty id d.
Proof. intros Hall Hk. by apply Hall, active_kind, known_named. Qed.

Lemma empty_frame T d d' name :
  frame T d d' -> ~ T name -> dk_root d !! name = None \/ holds_at d name [] -> dk_root d' !! name = None \/ holds_at d' name [].
Proof. intros Hf HT [Hn|Hh]; [left; by rewrite (fr_root _ _ _ Hf)|right; by eapply holds_at_frame]. Qed.

Lemma all_empty_frame T d d' : frame T d d' -> (forall name, T name -> is_generation name = true) -> all_empty d -> all_empty d'.
Proof.
  intros Hf HT Ha name Hk. eapply empty_frame; [exact Hf| |by apply Ha].
  intros Hx%HT. unfold is_generation in Hx. by rewrite Hk in Hx.
Qed.

#[local] Abbreviation recover_stream := (recover_stream order date_hour content_hash uuid_text).

(** The seal of a batch: what its lock section makes of the buffer with the recovered lines. *)
Lemma seal_recovered id s b g :
  cw_buffers s !! id = Some b -> hb_sealing b = None -> hb_recovered_generation b = Some g -> unsealed b <> [] -> buffer_ok b ->
  exists t sealing, seal_start uuid_text id true s = (Some (Ok true), set_task (set_buffer s id sealing) id t) /\
    mjoin (tk_segments t) = unsealed b /\ tk_generation t = Some g /\ tk_stage t = Encoding /\
    tk_fail_on_persistence_error t = true /\ hb_recovered_generation sealing = None /\ hb_wal sealing = hb_wal b /\
    unsealed sealing = [] /\ buffer_ok sealing.
Proof.
  intros Hb Hsl Hrec Hne Hbok. unfold seal_start. rewrite Hb, Hsl. cbv zeta.
  destruct (freeze_active_same b) as (E1 & E2 & E3 & E4 & E5). pose proof (freeze_active_ok b Hbok) as Hbok'.
  destruct (hb_segments (freeze_active b)) as [|seg segs] eqn:Hsegs.
  { exfalso. by destruct (freeze_empty b Hsegs). }
  rewrite <- Hsegs. rewrite E4, Hrec. set (b1 := with_wal (freeze_active b) (hb_wal (freeze_active b)) None).
  destruct (begin_sealing_ok b1 (cw_now s) (with_wal_ok _ _ _ Hbok') E5 ltac:(cbn; by rewrite Hsegs)) as (Hbok2 & Hun2 & _).
  do 2 eexists. split; [reflexivity|]. cbn [tk_segments tk_generation tk_stage tk_fail_on_persistence_error].
  split_and!; try done. rewrite <- (unsealed_freeze b). unfold unsealed. by rewrite E5, app_nil_r.
Qed.

(** The names the recovery of a batch is about. *)
Definition batch_names (stream : RecoveredStream) (name : string) : Prop :=
  name = wal_file_name (rs_container_id stream) \/
  exists g, rs_generation stream = Some g /\ wg_after_commit g <> Retain /\ name = wg_path g.

Record batch_recovered (stream : RecoveredStream) (s : Writer) (r : result WriterError unit) (s' : Writer) : Prop := {
  br_state : recovering s';
  br_grows : grows (cw_store s) (cw_store s');
  br_disk : evolves_upto (committed (cw_store s')) (batch_names stream) (cw_disk s) (cw_disk s');
  br_empty : all_empty (cw_disk s');
  br_result : r = Ok () -> forall l, l ∈ rs_lines stream -> committed (cw_store s') l
}.

Lemma active_names id id' : known id -> known id' -> wal_file_name id = wal_file_name id' -> id = id'.
Proof.
  intros Hk Hk' He. apply known_inj; [done|done|]. pose proof (proj1 (owner_wal id)) as Ho. rewrite He in Ho.
  rewrite (proj1 (owner_wal id')) in Ho. congruence.
Qed.

(** A stream is opened for a container while everything else is quiet. *)
Lemma open_quiet id s r d :
  recovering s -> all_empty (cw_disk s) -> known id -> wal_stream id (cw_disk s) = (r, d) ->
  evolves (eq (wal_file_name id)) (cw_disk s) d /\ all_empty d /\ recovering (set_disk s d) /\
  forall w, r = Ok w -> stream_ok id d w [] /\ sw_frozen w = None.
Proof.
  intros [Hw Hr Hd Hst Ht Hidle] Hall Hk Hrun.
  destruct (wal_stream_ok uuid_text good _ _ _ _ (known_named id Hk) Hd (all_empty_known _ _ Hall Hk) Hrun) as (Hev & Hae & Hstr).
  assert (all_empty d) as Hall'.
  { intros name Hn. destruct (decide (name = wal_file_name id)) as [->|Hne]; [done|].
    eapply empty_frame; [apply Hev| |by apply Hall]. congruence. }
  split_and!; [done|done| |].
  - split; cbn; try done; [apply Hev|]. intros j b Hb. destruct (decide (j = id)) as [->|Hne].
    + destruct (Hidle id b Hb) as (Hkj & Hbok & Hrec & Hun & Hsl & w & Hwl & Hs & Hfz). split_and!; try done. exists w.
      split_and!; [done| |done]. pose proof (proj2 Hs) as Hs'. rewrite Hfz in Hs'. destruct Hs' as (ino & i & _ & Hroot & _).
      eapply stream_ok_core; [by eapply wal_stream_there|done].
    + eapply idle_frame; [apply Hev| |by apply Hidle]. intros He. apply Hne. apply active_names; [apply (Hidle j b Hb)|done|done].
  - intros w ->. split; [by apply Hstr|by eapply stream_open].
Qed.

Lemma recover_stream_ok stream s r s' :
  recovering s -> all_empty (cw_disk s) -> stream_due good (committed (cw_store s)) (cw_disk s) stream ->
  recover_stream stream s = (r, s') -> batch_recovered stream s r s'.
Proof.
  intros Hrc Hall [(first & rest & Hlines & Hid) Hgood (g & Hg & Hgen & Hsafe)]. unfold ChunkWriter.recover_stream.
  rewrite Hlines. cbv zeta. rewrite <- Hlines. set (id := rs_container_id stream) in *.
  assert (known id) as Hk by (rewrite Hlines in Hgood; inversion Hgood as [|? ? [_ ?] _]; subst; by rewrite Hid).
  rewrite (rc_wal_dir s Hrc). destruct (wal_stream id (cw_disk s)) as [[w|e] d1] eqn:Hw;
    destruct (open_quiet _ _ _ _ Hrc Hall Hk Hw) as (Hev1 & Hall1 & Hrc1 & Hstr1).
  2:{ intros [= <- <-]. split; try done. eapply evolves_upto_mono; [| |by apply (evolves_evolves_upto _ _ (committed (cw_store s)))]; [done|].
      intros name <-. by left. }
  destruct (Hstr1 w eq_refl) as [Hstr Hfz]. rewrite Hg.
  set (b0 := with_wal (buffer_new _ _ _) _ _).
  destruct (push_lines_ok (rs_lines stream) b0 (with_wal_ok _ _ _ (buffer_new_ok _ _ _))) as (Hbok & Hun & Hsl & Hwl & Hrec).
  set (b := fold_left push_line (rs_lines stream) b0) in *. set (s2 := set_buffer _ id b).
  unfold ChunkWriter.seal_inner. destruct (seal_recovered id s2 b g) as (t & sealing & -> & Hj & Htg & Hts & Htf & Hsr & Hsw & Hsu & Hsok);
    [by cbn; rewrite lookup_insert_eq|done|done|rewrite Hun, Hlines; done|done|].
  intros Hrun. destruct Hrc1 as [Ew Er Hd1 Hst1 Ht1 Hidle1]. cbn in *.
  set (s3 := set_task (set_buffer s2 id sealing) id t) in *.
  assert (seal_done id t s3 r s') as [Sst Sg Sd Sw Sr St Sb Sres].
  { eapply (seal_rest_ok 5); try done; [rewrite Hts; cbn; lia|by cbn; rewrite lookup_insert_eq|by unfold stage_ok; rewrite Hts|].
    intros g' Hg'. rewrite Htg in Hg'. injection Hg' as <-. right. split; [done|]. cbn. rewrite Hj, Hun. intros Hrm l Hl.
    apply (Hsafe Hrm). eapply lines_at_frame; [apply Hev1| |exact Hl]. intros He. rewrite <- He in Hgen. by rewrite active_no_generation in Hgen. }
  cbn in Sg, Sd, Sw, Sr, St, Sb.
  assert (forall name, concerns t name -> is_generation name = true) as HT.
  { intros name (g' & Hg' & _ & ->). rewrite Htg in Hg'. by injection Hg' as <-. }
  assert (forall j, ~ concerns t (wal_file_name j)) as Hactive.
  { intros j Hx%HT. by rewrite active_no_generation in Hx. }
  split.
  - split; [congruence|congruence|apply Sd|done| |].
    + rewrite St, Ht1, insert_empty, delete_singleton_eq. done.
    + intros j b'. rewrite Sb, insert_insert_eq. destruct (decide (id = j)) as [<-|Hne].
      * rewrite lookup_alter_eq, lookup_insert_eq. intros [= <-]. split_and!; try done; [by apply end_sealing_ok|]. exists w.
        split_and!; [by cbn; rewrite Hsw, Hwl| |done]. eapply stream_open_frame; [apply Sd|apply Hactive|done|done].
      * rewrite lookup_alter_ne, lookup_insert_ne by done. intros Hb'. eapply idle_frame; [apply Sd|apply Hactive|]. by apply Hidle1.
  - done.
  - eapply (evolves_upto_trans _ _ _ _ _ d1).
    + eapply evolves_upto_mono; [| |by apply (evolves_evolves_upto _ _ (committed (cw_store s')))]; [done|]. intros name <-. by left.
    + eapply evolves_upto_mono; [| |exact Sd]; [done|]. intros name (g' & Hg' & Hnr & ->). right. rewrite Htg in Hg'.
      injection Hg' as <-. by exists g.
  - eapply all_empty_frame; [apply Sd|exact HT|done].
  - intros Hr l Hl. apply Sres; [done|done|]. by rewrite Hj, Hun.
Qed.

Context (dir_order : gmap string Node -> list (string * Node)) (path_le : string -> string -> Prop) `{!RelDecision path_le}.
Hypothesis dir_order_all : forall m, dir_order m ≡ₚ map_to_list m.

#[local] Abbreviation recover_loop := (recover_loop order date_hour content_hash uuid_text).
#[local] Abbreviation recover_wal := (recover_wal order date_hour content_hash uuid_text dir_order path_le).
#[local] Abbreviation recovery_pass := (recovery_pass order date_hour content_hash uuid_text dir_order path_le).

(** What recovery may do to the disk while everything else is quiet. *)
Lemma recovering_disk C T s d :
  recovering s -> evolves_upto C T (cw_disk s) d -> (forall id b, cw_buffers s !! id = Some b -> ~ T (wal_file_name id)) ->
  recovering (set_disk s d).
Proof.
  intros [Hw Hr Hd Hst Ht Hidle] Hev HT. split; cbn; try done; [apply Hev|]. intros id b Hb.
  eapply idle_frame; [apply Hev|by eapply HT|by apply Hidle].
Qed.

Lemma recovering_safe s : recovering s -> keeps s s.
Proof. intros [Hok _]%recovering_iff. by apply keeps_refl. Qed.

Lemma recovery_ok_later C C' T d d' rec :
  recovery_ok good C d rec -> (forall l, C l -> C' l) -> frame T d d' ->
  (wr_current rec <> None -> forall name, is_generation name = true -> ~ T name) -> recovery_ok good C' d' rec.
Proof.
  intros [Hp Hc] HC Hf HT. split; [done|]. intros f Hcur. destruct (Hc f Hcur) as [Hr Hg Hrest Hgood]. split; try done.
  destruct Hrest as [|Hrest]; [by left|]. right. intros l Hl. eapply lines_at_frame in Hl; [|exact Hf|].
  - destruct (Hrest l Hl); auto.
  - apply HT; [congruence|done].
Qed.

Lemma recover_loop_ok fuel rec s r s' :
  recovering s -> all_empty (cw_disk s) -> recovery_ok good (committed (cw_store s)) (cw_disk s) rec ->
  recover_loop fuel rec s = (r, s') -> keeps s s' /\ recovering s' /\ all_empty (cw_disk s').
Proof.
  revert rec s. induction fuel as [|fuel IH]; intros rec s Hrc Hall Hro; cbn [ChunkWriter.recover_loop].
  { intros [= <- <-]. split_and!; [by apply recovering_safe|done|done]. }
  destruct (next rec (cw_disk s)) as [res d1] eqn:Hn.
  destruct (next_loop_ok uuid_text good good_replayable _ _ _ _ _ _ (rc_disk s Hrc) Hro Hn) as [Hev1 Hout].
  assert (recovering (set_disk s d1)) as Hrc1.
  { eapply recovering_disk; [done|exact Hev1|]. intros id b _ Hx. by rewrite active_no_generation in Hx. }
  assert (all_empty d1) as Hall1 by (eapply all_empty_frame; [apply Hev1|done|done]).
  assert (keeps s (set_disk s d1)) as Hk1.
  { split; [by apply recovering_iff|]. intros l. by eapply safe_kept. }
  destruct res as [[[stream|] rec']|e]; [|by intros [= <- <-]..].
  destruct (Hout _ _ eq_refl) as (Hdue & Hro' & Hret).
  destruct (recover_stream stream (set_disk s d1)) as [r2 s2] eqn:Hs.
  destruct (recover_stream_ok _ _ _ _ Hrc1 Hall1 Hdue Hs) as [Hrc2 Hg2 Hd2 Hall2 Hres2].
  assert (keeps s s2) as Hk2.
  { eapply keeps_trans; [exact Hk1|]. split; [by apply recovering_iff|]. intros l. by eapply safe_kept. }
  destruct r2 as [[]|e]; [|by intros [= <- <-]]. intros Hrun.
  destruct (IH rec' s2 Hrc2 Hall2) as (Hk3 & Hrc3 & Hall3); [|done|split_and!; [by eapply keeps_trans|done|done]].
  eapply recovery_ok_later; [exact Hro'| |apply Hd2|].
  - intros l [Hl|Hl]; [by eapply committed_grows|by apply Hres2].
  - intros Hcur name Hgn [Hx|(g & Hg & Hnr & Hx)]; [rewrite Hx, active_no_generation in Hgn; done|].
    destruct (Hret Hcur) as (g' & Hg' & Hr'). congruence.
Qed.

(** The start of a recovery leaves the files of idle containers alone. *)
Lemma idle_not_filled s id b :
  recovering s -> cw_buffers s !! id = Some b -> ~ (filled (cw_disk s) (wal_file_name id) \/ fresh_uuid uuid_text (cw_disk s) (wal_file_name id)).
Proof.
  intros Hrc Hb. destruct (rc_idle s Hrc id b Hb) as (_ & _ & _ & _ & _ & w & _ & [_ Hstr] & Hfz). rewrite Hfz in Hstr.
  destruct Hstr as (ino & i & _ & Hroot & Hi & Hbytes). intros [(_ & ino' & Hroot' & Hne)|(n & _ & Hu)].
  - apply Hne. assert (ino' = ino) as -> by congruence. unfold bytes_of. by rewrite Hi, Hbytes.
  - by rewrite (proj2 (owner_wal id)) in Hu.
Qed.

Lemma recover_wal_ok s r s' :
  recovering s -> recover_wal s = (r, s') -> keeps s s' /\ recovering s' /\ (r = Ok () -> all_empty (cw_disk s')).
Proof.
  intros Hrc. unfold ChunkWriter.recover_wal. rewrite (rc_wal_dir s Hrc).
  destruct (recover_batched _ _ _ _ _ (cw_disk s)) as [rb d1] eqn:Hb.
  destruct (recover_batched_ok uuid_text good dir_order path_le dir_order_all (committed (cw_store s)) _ _ _ _ _ (rc_disk s Hrc) Hb) as [Hev Hrec].
  assert (recovering (set_disk s d1)) as Hrc1.
  { eapply recovering_disk; [done|by apply (evolves_evolves_upto _ _ (committed (cw_store s)))|]. intros id b Hbb. by eapply idle_not_filled. }
  assert (keeps s (set_disk s d1)) as Hk1.
  { split; [by apply recovering_iff|]. intros l. eapply safe_kept; [by apply evolves_evolves_upto|done]. }
  destruct rb as [rec|e]; [|by intros [= <- <-]]. destruct (Hrec rec eq_refl) as [Hro Hae]. intros Hrun.
  destruct (recover_loop_ok _ _ _ _ _ Hrc1 Hae Hro Hrun) as (Hk2 & Hrc2 & Hall2).
  split_and!; [by eapply keeps_trans|done|done].
Qed.

(** A line in the synced part of a file that was set aside. *)
Definition deferred (d : Disk) (l : LogLine) : Prop :=
  exists name ino i, dk_deferred d !! name = Some (Regular ino) /\ dk_inodes d !! ino = Some i /\
    l ∈ file_lines (take (in_synced i) (in_bytes i)).

Lemma complete_deferred d r d' l :
  disk_ok d -> all_empty d -> ensure_recovery_complete dir_order d = (r, d') -> r = Ok () -> durable d l -> deferred d l.
Proof.
  intros Hok Hall Hrun -> ([[] name] & ino & i & Hk & Hi & Hl); unfold entry in Hk; cbn in Hk; [by exists name, ino, i|]. exfalso.
  destruct (ok_kind _ _ _ Hok (false, name) ltac:(by eexists)) as [Ha|[[Hg _] _]].
  - destruct (Hall name Ha) as [Hn|(ino' & i' & Hr' & Hi' & Hb')]; [congruence|].
    assert (ino' = ino) as -> by congruence. assert (i' = i) as -> by congruence. rewrite Hb' in Hl. cbn [records flat_map] in Hl.
    rewrite take_nil in Hl. by apply elem_of_nil in Hl.
  - apply syscall_cases in Hrun as [[_ [=]]|(d1 & Hc & Hm)]. apply core_parts in Hc as (Hr & _).
    destruct (List.find _ _) as [[]|] eqn:Hf; [done|].
    assert (List.In (name, Regular ino) (dir_order (dk_root d1))) as Hin.
    { apply list_elem_of_In. rewrite Hr, (dir_order_all (dk_root d)). by apply elem_of_map_to_list. }
    pose proof (List.find_none _ _ Hf _ Hin) as Hx. cbn in Hx. unfold is_generation in Hg. cbn in Hg. congruence.
Qed.

Lemma recovery_pass_keeps s r s' :
  writer_ok s -> cw_recovery_ready s = false -> recovery_pass s = (r, s') ->
  keeps s s' /\
  (r = Ok () -> cw_recovery_ready s' = true /\ forall l, durable (cw_disk s') l -> deferred (cw_disk s') l).
Proof.
  intros Hok Hready. assert (recovering s) as Hrc by by apply recovering_iff. unfold ChunkWriter.recovery_pass.
  destruct (recover_wal s) as [[[]|e] s1] eqn:Hw; destruct (recover_wal_ok _ _ _ Hrc Hw) as (Hk1 & Hrc1 & Hall1); [|by intros [= <- <-]].
  specialize (Hall1 eq_refl). rewrite (rc_wal_dir s1 Hrc1).
  destruct (ensure_recovery_complete dir_order (cw_disk s1)) as [re d2] eqn:He.
  assert (core d2 = core (cw_disk s1)) as Hc.
  { apply syscall_cases in He as [[? _]|(d3 & Hc3 & Hm)]; [done|]. destruct (List.find _ _) as [[]|]; injection Hm as _ <-; done. }
  assert (keeps s (set_disk s1 d2)) as Hk2.
  { eapply keeps_trans; [exact Hk1|]. apply same_data_keeps; [apply Hk1|by split]. }
  assert (forall l, re = Ok () -> durable d2 l -> deferred d2 l) as Hdef.
  { intros l Hre Hl. destruct (complete_deferred _ _ _ l (rc_disk s1 Hrc1) Hall1 He Hre) as (name & ino & i & Hx).
    - apply (ev_durable uuid_text good (fun _ => False) d2); [|done].
      exact (evolves_core uuid_text good _ _ _ (disk_ok_core _ _ _ _ Hc (rc_disk s1 Hrc1)) (eq_sym Hc)).
    - exists name, ino, i. apply core_parts in Hc as (_ & -> & -> & _). done. }
  destruct re as [[]|e]; intros [= <- <-]; [|by split]. split; [|intros _; split; [done|]; intros l; by apply Hdef].
  eapply keeps_trans; [exact Hk2|]. destruct (kp_ok _ _ Hk2) as [Hw2 Hd2 Hst2 Hh2 Hwait2]. split; [|done]. split; cbn in *; try done.
  intros id. specialize (Hh2 id). rewrite (rc_ready s1 Hrc1), (rc_tasks s1 Hrc1) in *. rewrite lookup_empty in *.
  destruct (cw_buffers s1 !! id) as [b|]; [done|]. split; [|done]. split; [done|]. intros _ Hk. eapply active_empty_core; [exact Hc|].
  by apply all_empty_known.
Qed.

End WriterSafety.
