(* ===== verification/WriterCalm.v ===== *)
(** * A restart without failures completes

    Recovery of [ChunkWriter] when no call to the disk, the object store and the manifest fails: it
    ends after as many batches as the files have, has replayed every file, and lets writes in; only
    a chunk that cannot be encoded stops it. *)

From S2P Require Import Prelude Bytes Utf8 ChunkBlock Bloom ChunkFile ChunkScan Wal WalDisk WalReplay WalCalm HeadBuffer ChunkWriter WriterStore WriterSafety.
Local Open Scope Z_scope.

Section WriterCalm.
Context `{Chrono} `{Zstd} `{Json} `{!FooterJson} `{Crc32} `{Xxh3} `{Unicode} `{!LineJson}.
Context (order : BloomBuilder -> list Z) (date_hour : DateTime -> string)
  (content_hash : option (string * Z * Z) -> list Z -> string) `{!HashLaws content_hash}.
Context (uuid_text : nat -> string) `{!UuidLaws uuid_text} (known : string -> Prop) `{!KnownIds known}.

#[local] Abbreviation seal_step := (seal_step order date_hour content_hash).
#[local] Abbreviation seal_rest := (seal_rest order date_hour content_hash).

Definition all_calm (s : Writer) : Prop := calm (cw_disk s) /\ so_faults (cw_store s) = [].

(** ** A seal *)

Lemma store_call_calm {A} (effect : Store -> A * Store) st :
  so_faults st = [] -> store_call effect st = (Ok (effect st).1, (effect st).2).
Proof. intros Hf. unfold store_call, act_bind, store_fault. rewrite Hf. by destruct (effect st). Qed.

Lemma retry_op_calm {A} delays (f : Act Store WriterError A) st a st' : f st = (Ok a, st') -> retry_op delays f st = (Ok a, st').
Proof. intros Hf. destruct delays; cbn [retry_op]; by rewrite Hf. Qed.

(** A seal that nothing hinders: its next stage, with the names of the directory as they were. *)
Definition calm_task (id : string) (t : SealTask) (root : gmap string Node) (s : Writer) : Prop :=
  cw_tasks s !! id = Some t /\ all_calm s /\ dk_root (cw_disk s) = root.

Lemma seal_encoding id t root s :
  calm_task id t root s -> tk_stage t = Encoding ->
  (exists e, seal_step id s = (Some (Err (EncodeFailed e)), stop_task id s)) \/
  exists enc key size s', seal_step id s = (None, s') /\ calm_task id (at_stage t (Inserting enc key size)) root s'.
Proof.
  intros (Ht & [Hd Hf] & Hr) Hs. unfold ChunkWriter.seal_step. rewrite Ht, Hs. cbv zeta.
  destruct (encode_segments _ _ _ _) as [enc|e]; [right|left; by eexists]. set (key := storage_key _ _ _ _).
  unfold write_chunk. rewrite (retry_op_calm _ _ _ _ _ (store_call_calm _ _ Hf)). exists enc, key. do 2 eexists.
  split; [reflexivity|]. split; [cbn; by rewrite lookup_insert_eq|]. by split.
Qed.

Lemma seal_inserting id t root s enc key size :
  calm_task id t root s -> tk_stage t = Inserting enc key size ->
  exists seq s', seal_step id s = (None, s') /\ calm_task id (at_stage t (Indexing seq)) root s'.
Proof.
  intros (Ht & [Hd Hf] & Hr) Hs. unfold ChunkWriter.seal_step. rewrite Ht, Hs. cbv zeta. unfold manifest_insert.
  rewrite (retry_op_calm _ _ _ _ _ (store_call_calm _ _ Hf)). do 2 eexists. split; [reflexivity|].
  split; [cbn; by rewrite lookup_insert_eq|]. split; [split; [done|]|done]. cbn. by destruct (List.find _ _) as [[]|].
Qed.

Lemma seal_indexing id t root s seq :
  calm_task id t root s -> tk_stage t = Indexing seq ->
  exists s', seal_step id s = (None, s') /\ calm_task id (at_stage t Cleaning) root s'.
Proof.
  intros (Ht & [Hd Hf] & Hr) Hs. unfold ChunkWriter.seal_step. rewrite Ht, Hs. cbv zeta. unfold index_chunk, mark_indexed.
  rewrite (retry_op_calm _ _ _ _ _ (store_call_calm _ _ Hf)). cbn [fst snd].
  destruct (cw_line_index s); eexists; (split; [reflexivity|]); (split; [cbn; by rewrite lookup_insert_eq|]); (split; [split; [done|]|done]).
  - cbn. rewrite store_call_calm by done. by cbn.
  - done.
Qed.

Lemma seal_cleaning id t root s g ino :
  calm_task id t root s -> tk_stage t = Cleaning -> tk_generation t = Some g -> root !! wg_path g = Some (Regular ino) ->
  exists s', seal_step id s = (None, s') /\
    calm_task id (at_stage t (Finishing (Ok ()))) (match wg_after_commit g with Retain => root | _ => delete (wg_path g) root end) s'.
Proof.
  intros (Ht & [Hd Hf] & Hr) Hs Hg Hino. unfold ChunkWriter.seal_step. rewrite Ht, Hs, Hg. cbv zeta.
  destruct (generation_remove_calm g ino (cw_disk s) Hd ltac:(by rewrite Hr)) as (d' & -> & Hd' & _ & Hroot). eexists.
  split; [reflexivity|]. split; [cbn; by rewrite lookup_insert_eq|]. split; [by split|]. cbn. by rewrite Hroot, Hr.
Qed.

Lemma stop_task_calm id s : all_calm s -> all_calm (stop_task id s) /\ dk_root (cw_disk (stop_task id s)) = dk_root (cw_disk s).
Proof. intros [Hd Hf]. destruct (stop_task_parts id s) as (E1 & E2 & _). unfold all_calm. by rewrite E1, E2. Qed.

Lemma seal_rest_calm id t root s g ino :
  calm_task id t root s -> tk_stage t = Encoding -> tk_generation t = Some g -> root !! wg_path g = Some (Regular ino) ->
  exists r s', seal_rest 5 id s = (r, s') /\ all_calm s' /\
    ((exists e, r = Err (EncodeFailed e)) \/
     (r = Ok () /\ dk_root (cw_disk s') = match wg_after_commit g with Retain => root | _ => delete (wg_path g) root end)).
Proof.
  intros Hc Hs Hg Hino. cbn [ChunkWriter.seal_rest].
  destruct (seal_encoding _ _ _ _ Hc Hs) as [[e ->]|(enc & key & size & s1 & -> & Hc1)].
  { do 2 eexists. split; [reflexivity|]. split; [by apply stop_task_calm, Hc|]. left. by exists e. }
  destruct (seal_inserting _ _ _ _ _ _ _ Hc1 eq_refl) as (seq & s2 & -> & Hc2).
  destruct (seal_indexing _ _ _ _ _ Hc2 eq_refl) as (s3 & -> & Hc3).
  destruct (seal_cleaning _ _ _ _ g ino Hc3 eq_refl Hg Hino) as (s4 & -> & Hc4).
  destruct Hc4 as (Ht & Hcalm & Hroot). unfold ChunkWriter.seal_step. rewrite Ht. cbn [at_stage tk_stage].
  destruct (stop_task_calm id s4 Hcalm) as [Hcalm' Hroot']. do 2 eexists. split; [reflexivity|]. split; [done|]. right.
  by rewrite Hroot'.
Qed.

(** ** A batch *)

#[local] Abbreviation recovering := (recovering order date_hour content_hash uuid_text known).
#[local] Abbreviation committed := (committed order).
#[local] Abbreviation good := (good known).
#[local] Abbreviation recover_stream := (recover_stream order date_hour content_hash uuid_text).

Definition after_commit (g : WalGeneration) (root : gmap string Node) : gmap string Node :=
  match wg_after_commit g with Retain => root | _ => delete (wg_path g) root end.

Lemma recover_stream_calm stream s g ino :
  recovering s -> all_calm s -> all_empty (cw_disk s) -> stream_due good (committed (cw_store s)) (cw_disk s) stream ->
  rs_generation stream = Some g -> dk_root (cw_disk s) !! wg_path g = Some (Regular ino) ->
  exists r s', recover_stream stream s = (r, s') /\ all_calm s' /\
    ((exists e, r = Err (EncodeFailed e)) \/
     (r = Ok () /\ forall name, is_generation name = true ->
        dk_root (cw_disk s') !! name = after_commit g (dk_root (cw_disk s)) !! name)).
Proof.
  intros Hrc [Hd Hf] Hall Hdue Hg Hino. pose proof Hdue as [(first & rest & Hlines & Hid) Hgood (g' & Hg' & Hgen & _)].
  assert (g' = g) as -> by congruence. unfold ChunkWriter.recover_stream. rewrite Hlines. cbv zeta. rewrite <- Hlines.
  set (id := rs_container_id stream) in *.
  assert (known id) as Hk by (rewrite Hlines in Hgood; inversion Hgood as [|? ? [_ ?] _]; subst; by rewrite Hid).
  rewrite (rc_wal_dir _ _ _ _ _ s Hrc).
  destruct (wal_stream_calm id (cw_disk s) Hd (all_empty_known known _ _ Hall Hk)) as (w & d1 & Hw & Hd1).
  destruct (open_quiet order date_hour content_hash uuid_text known _ _ _ _ Hrc Hall Hk Hw) as (Hev1 & _ & _ & _).
  rewrite Hw, Hg. set (b0 := with_wal (buffer_new _ _ _) _ _).
  destruct (push_lines_ok (rs_lines stream) b0 (with_wal_ok _ _ _ (buffer_new_ok _ _ _))) as (Hbok & Hun & Hsl & _ & Hrec).
  set (b := fold_left push_line (rs_lines stream) b0) in *. set (s2 := set_buffer _ id b). unfold ChunkWriter.seal_inner.
  destruct (seal_recovered uuid_text id s2 b g) as (t & sealing & -> & _ & Htg & Hts & _);
    [by cbn; rewrite lookup_insert_eq|done|done|rewrite Hun, Hlines; done|done|].
  assert (forall name, is_generation name = true -> dk_root d1 !! name = dk_root (cw_disk s) !! name) as Hsame.
  { intros name Hn. apply (fr_root _ _ _ (ev_frame _ _ _ _ _ Hev1)). intros <-. by rewrite active_no_generation in Hn. }
  destruct (seal_rest_calm id t (dk_root d1) (set_task (set_buffer s2 id sealing) id t) g ino) as (r & s' & -> & Hcalm & Hres); [|done|done| |].
  - split; [cbn; by rewrite lookup_insert_eq|]. by split.
  - by rewrite Hsame.
  - exists r, s'. split_and!; [done|done|]. destruct Hres as [|[-> Hroot]]; [by left|]. right. split; [done|]. intros name Hn.
    rewrite Hroot. unfold after_commit. destruct (wg_after_commit g); [|by apply Hsame|];
      (destruct (decide (name = wg_path g)) as [->|Hne]; [by rewrite !lookup_delete_eq|rewrite !lookup_delete_ne by done; by apply Hsame]).
Qed.

(** ** The whole pass *)

Context (dir_order : gmap string Node -> list (string * Node)) (path_le : string -> string -> Prop) `{!RelDecision path_le}.
Hypothesis dir_order_all : forall m, dir_order m ≡ₚ map_to_list m.

Lemma recover_loop_calm fuel rec s :
  recovering s -> all_calm s -> all_empty (cw_disk s) -> recovery_ok good (committed (cw_store s)) (cw_disk s) rec ->
  pending (dk_root (cw_disk s)) (names_of rec) -> (left (cw_disk s) rec < fuel)%nat ->
  exists r s', recover_loop order date_hour content_hash uuid_text fuel rec s = (r, s') /\ all_calm s' /\
    ((exists e, r = Err (EncodeFailed e)) \/ (r = Ok () /\ pending (dk_root (cw_disk s')) [])).
Proof.
  revert rec s. induction fuel as [|fuel IH]; intros rec s Hrc [Hd Hf] Hall Hro Hp Hfuel; [lia|]. cbn [ChunkWriter.recover_loop].
  destruct (next_loop_calm (length (wr_paths rec) + 2) rec (cw_disk s) Hd) as (res & d1 & Hn & Hd1 & Hi1 & Hres).
  { intros f Hcur. by destruct (ro_current _ _ _ _ Hro f Hcur). }
  { done. }
  { unfold names_of. rewrite length_app, length_map. destruct (wr_current rec); cbn; lia. }
  unfold next. rewrite Hn.
  destruct (next_loop_ok uuid_text good (good_replayable known) _ _ _ _ _ _ (rc_disk _ _ _ _ _ s Hrc) Hro Hn) as [Hev1 Hout].
  assert (recovering (set_disk s d1)) as Hrc1.
  { eapply recovering_disk; [done|exact Hev1|]. intros id b _ Hx. by rewrite active_no_generation in Hx. }
  assert (all_empty d1) as Hall1 by (eapply all_empty_frame; [apply Hev1|done|done]).
  destruct res as [[stream|] rec']; [|do 2 eexists; split_and!; [reflexivity|done|by right]].
  destruct (Hout _ _ eq_refl) as (Hdue & Hro' & Hret). destruct Hres as (g & Hg & [ino Hino] & Hp' & Hlt).
  destruct (recover_stream_calm stream (set_disk s d1) g ino Hrc1 (conj Hd1 Hf) Hall1 Hdue Hg Hino) as (r2 & s2 & Hs & Hcalm2 & Hres2).
  rewrite Hs. destruct Hres2 as [[e ->]|[-> Hroot2]].
  { do 2 eexists. split_and!; [reflexivity|done|]. left. by exists e. }
  destruct (recover_stream_ok order date_hour content_hash uuid_text known _ _ _ _ Hrc1 Hall1 Hdue Hs) as [Hrc2 Hg2 Hd2 Hall2 Hcom2].
  assert (forall name, name ∈ names_of rec' -> ~ batch_names stream name) as Hnot.
  { intros name Hn' [Hx|(g' & Hg' & Hnr & Hx)].
    - apply (pe_exact _ _ Hp') in Hn' as [Hgn _]. by rewrite Hx, active_no_generation in Hgn.
    - assert (g' = g) as -> by congruence. subst name. apply (pe_exact _ _ Hp') in Hn' as [_ Hx].
      destruct (wg_after_commit g); [|done|]; rewrite lookup_delete_eq in Hx; by destruct Hx. }
  apply IH; try done.
  - eapply recovery_ok_later; [exact Hro'| |apply Hd2|].
    + intros l [Hl|Hl]; [by eapply committed_grows|by apply Hcom2].
    + intros Hcur name Hgn [Hx|(g' & Hg' & Hnr & Hx)]; [rewrite Hx, active_no_generation in Hgn; done|].
      destruct (Hret Hcur) as (g2 & Hg2' & Hr'). congruence.
  - eapply pending_ext; [exact Hroot2|exact Hp'].
  - assert (left (cw_disk s2) rec' = left d1 rec')%nat as ->; [|lia]. unfold left. f_equal.
    assert (forall name, name ∈ map (fun p => p.1.1) (wr_paths rec') -> bytes_at (cw_disk s2) name = bytes_at d1 name) as Hbytes.
    { intros name Hin. assert (name ∈ names_of rec') as Hin' by (unfold names_of; apply elem_of_app; by right).
      pose proof (Hnot name Hin') as HnT. unfold bytes_at. rewrite (fr_root _ _ _ (eu_frame _ _ _ _ _ _ Hd2) name HnT). cbn.
      destruct (dk_root d1 !! name) as [[ino'|]|] eqn:Hr; [|done..]. unfold bytes_of.
      by rewrite (fr_inode _ _ _ (eu_frame _ _ _ _ _ _ Hd2) name ino' HnT Hr). }
    clear -Hbytes. induction (wr_paths rec') as [|p ps IHp]; [done|]. cbn [sum_list_with].
    rewrite IHp, (Hbytes p.1.1); [done|apply list_elem_of_here|]. intros name Hin. apply Hbytes. by apply list_elem_of_further.
Qed.

Lemma recovery_pass_calm s :
  writer_ok order date_hour content_hash uuid_text known s -> cw_recovery_ready s = false -> all_calm s ->
  exists r s', recovery_pass order date_hour content_hash uuid_text dir_order path_le s = (r, s') /\
    ((exists e, r = Err (EncodeFailed e)) \/ (r = Ok () /\ cw_recovery_ready s' = true)).
Proof.
  intros Hok Hready Hcalm. assert (recovering s) as Hrc by by apply recovering_iff. destruct Hcalm as [Hd Hf].
  unfold ChunkWriter.recovery_pass, ChunkWriter.recover_wal. rewrite (rc_wal_dir _ _ _ _ _ s Hrc).
  destruct (recover_batched_calm uuid_text good dir_order path_le dir_order_all (cw_head_max_bytes s) (negb (cw_shed_bloom s)) (cw_disk s) Hd
    (rc_disk _ _ _ _ _ s Hrc)) as (rec & d1 & Hb & Hd1 & Hcur & Hp).
  destruct (recover_batched_ok uuid_text good dir_order path_le dir_order_all (committed (cw_store s)) _ _ _ _ _ (rc_disk _ _ _ _ _ s Hrc) Hb) as [Hev Hrec].
  destruct (Hrec rec eq_refl) as [Hro Hae]. rewrite Hb.
  assert (recovering (set_disk s d1)) as Hrc1.
  { eapply recovering_disk; [done|by apply (evolves_evolves_upto _ _ (committed (cw_store s)))|]. intros id b Hbb. by eapply idle_not_filled. }
  destruct (recover_loop_calm (recovery_fuel rec d1) rec (set_disk s d1)) as (r & s1 & Hrun & [Hd2 Hf2] & Hres); try done.
  { unfold left, recovery_fuel. rewrite Hcur. cbn. lia. }
  rewrite Hrun. destruct Hres as [[e ->]|[-> Hp2]].
  { do 2 eexists. split; [reflexivity|]. left. by exists e. }
  destruct (recover_loop_ok order date_hour content_hash uuid_text known _ _ _ _ _ Hrc1 Hae Hro Hrun) as (_ & Hrc2 & _).
  rewrite (rc_wal_dir _ _ _ _ _ s1 Hrc2). unfold ensure_recovery_complete. rewrite syscall_calm by done.
  destruct (List.find _ _) as [[name n]|] eqn:Hfind.
  - exfalso. apply List.find_some in Hfind as [Hin Hk]. apply list_elem_of_In in Hin.
    rewrite (dir_order_all (dk_root (cw_disk s1))) in Hin. apply elem_of_map_to_list in Hin.
    assert (name ∈ @nil string) as Hx; [|by apply elem_of_nil in Hx]. apply (pe_exact _ _ Hp2). split; [exact Hk|by exists n].
  - do 2 eexists. split; [reflexivity|]. by right.
Qed.

End WriterCalm.
