(* ===== verification/WriterRuns.v ===== *)
(** * Runs of the chunk writer

    The steps of [WriterSafety] in any order and number: what was synced stays safe, what a restart
    replays ends in the manifest or is set aside, and what is in the manifest is found. *)

From S2P Require Import Prelude Bytes Utf8 ChunkBlock Bloom ChunkFile ChunkScan Wal WalDisk WalReplay HeadBuffer ChunkWriter WriterStore WriterSafety WriterCalm.
Local Open Scope Z_scope.

Section Runs.
Context `{ChronoLaws} `{ZstdLaws} `{JsonLaws} `{!FooterJson} `{!FooterJsonLaws _} `{Crc32} `{Xxh3} `{Unicode} `{!UnicodeLaws _}
  `{!LineJson} `{Memmem}.
Context (order : BloomBuilder -> list Z) (date_hour : DateTime -> string)
  (content_hash : option (string * Z * Z) -> list Z -> string) `{!HashLaws content_hash}.
Context (uuid_text : nat -> string) `{!UuidLaws uuid_text} (known : string -> Prop) `{!KnownIds known}.
Context (dir_order : gmap string Node -> list (string * Node)) (path_le : string -> string -> Prop) `{!RelDecision path_le}.
Hypothesis dir_order_all : forall m, dir_order m ≡ₚ map_to_list m.

(** One step of the service, of its environment, or a crash. *)
Inductive writer_step (s : Writer) : Writer -> Prop :=
  | step_write line r s' :
      good known line -> write_clean line s -> write_line line s = (r, s') -> writer_step s s'
  | step_seal_start id fail_on_persistence_error r s' :
      seal_start uuid_text id fail_on_persistence_error s = (r, s') -> writer_step s s'
  | step_seal id r s' : seal_step order date_hour content_hash id s = (r, s') -> writer_step s s'
  | step_sync id r s' : cw_recovery_ready s = true -> sync_wal id s = (r, s') -> writer_step s s'
  | step_remove id r s' :
      remove_container order date_hour content_hash uuid_text id s = (r, s') -> writer_step s s'
  | step_environment s' : same_data s s' -> writer_step s s'
  | step_crash keep faults : writer_step s (crash keep faults s)
  | step_recover r s' :
      cw_recovery_ready s = false ->
      recovery_pass order date_hour content_hash uuid_text dir_order path_le s = (r, s') -> writer_step s s'.

(** A service whose directory, store and manifest are new. *)
Record initial (s : Writer) : Prop := {
  in_wal_dir : cw_wal_dir s = true;
  in_root : dk_root (cw_disk s) = ∅;
  in_deferred : dk_deferred (cw_disk s) = ∅;
  in_inodes : dk_inodes (cw_disk s) = ∅;
  in_objects : so_objects (cw_store s) = ∅;
  in_rows : so_rows (cw_store s) = [];
  in_buffers : cw_buffers s = ∅;
  in_tasks : cw_tasks s = ∅
}.

#[local] Abbreviation writer_ok := (writer_ok order date_hour content_hash uuid_text known).
#[local] Abbreviation keeps := (keeps order date_hour content_hash uuid_text known).
#[local] Abbreviation safe := (safe order).
#[local] Abbreviation committed := (committed order).
#[local] Abbreviation run := (rtc writer_step).

Lemma initial_ok s : initial s -> writer_ok s.
Proof.
  intros [Hw Hr Hd Hi Ho Hrw Hb Ht].
  assert (forall k, entry (cw_disk s) k = None) as He.
  { intros [[] name]; unfold entry; cbn; by rewrite ?Hr, ?Hd, lookup_empty. }
  split; [done| | | |].
  - split; intros; rewrite ?He, ?Hd, ?Hi, ?lookup_empty in *; try done;
      match goal with Hx : is_Some None |- _ => by destruct Hx end.
  - split; rewrite ?Hrw; [|..|constructor|constructor].
    + intros key bytes. by rewrite Ho, lookup_empty.
    + intros row Hx. by apply elem_of_nil in Hx.
  - intros id. rewrite Hb, Ht, !lookup_empty. split; [|done]. split; [done|]. intros _ _. left. by rewrite Hr, lookup_empty.
  - intros _. split; [done|]. intros id b. by rewrite Hb, lookup_empty.
Qed.

Lemma step_keeps s s' : writer_ok s -> writer_step s s' -> keeps s s'.
Proof.
  intros Hok [line r s1 Hg Hc Hw|id flag r s1 Hs|id r s1 Hs|id r s1 Hr Hs|id r s1 Hs|s1 Hd|keep faults|r s1 Hr Hs].
  - by eapply write_line_ok.
  - by destruct (seal_start_ok order date_hour content_hash uuid_text known _ _ _ _ _ Hok Hs).
  - by destruct (seal_step_keeps order date_hour content_hash uuid_text known _ _ _ _ Hok Hs).
  - by destruct (sync_wal_ok order date_hour content_hash uuid_text known _ _ _ _ Hok Hr Hs).
  - by eapply remove_container_keeps.
  - by apply same_data_keeps.
  - by apply crash_keeps.
  - by destruct (recovery_pass_keeps order date_hour content_hash uuid_text known dir_order path_le dir_order_all _ _ _ Hok Hr Hs).
Qed.

Lemma run_keeps s s' : writer_ok s -> run s s' -> keeps s s'.
Proof.
  intros Hok Hrun. induction Hrun as [s|s s1 s2 Hstep Hrun IH]; [by apply keeps_refl|].
  pose proof (step_keeps _ _ Hok Hstep) as Hk. eapply keeps_trans; [exact Hk|]. apply IH, Hk.
Qed.


(** C19: A restart that succeeds finishes what was left: every line that was safe before, the
    unsealed ones of the crashed process included, is then in a chunk of the manifest, or in a
    generation that was set aside because it cannot be read to its end. *)
Theorem recovery_commits s0 s s' l :
  initial s0 -> run s0 s -> cw_recovery_ready s = false ->
  recovery_pass order date_hour content_hash uuid_text dir_order path_le s = (Ok (), s') -> safe s l ->
  cw_recovery_ready s' = true /\ (committed (cw_store s') l \/ deferred (cw_disk s') l).
Proof.
  intros Hi%initial_ok Hrun Hready Hpass Hl. pose proof (kp_ok _ _ _ _ _ _ _ (run_keeps _ _ Hi Hrun)) as Hok.
  destruct (recovery_pass_keeps order date_hour content_hash uuid_text known dir_order path_le dir_order_all _ _ _ Hok Hready Hpass) as [Hk Hdone].
  destruct (Hdone eq_refl) as [Hr Hdef].
  split; [done|]. destruct (kp_safe _ _ _ _ _ _ _ Hk l Hl) as [Hd|Hc]; [right; by apply Hdef|by left].
Qed.

(** C20: Recovery terminates and does not get stuck: from whatever a run left on the disk, a pass in
    which no call fails ends, and unless a chunk cannot be encoded it ends well and lets writes in. *)
Theorem recovery_completes s0 s :
  initial s0 -> run s0 s -> cw_recovery_ready s = false -> all_calm s ->
  exists r s', recovery_pass order date_hour content_hash uuid_text dir_order path_le s = (r, s') /\
    ((exists e, r = Err (EncodeFailed e)) \/ (r = Ok () /\ cw_recovery_ready s' = true)).
Proof.
  intros Hi%initial_ok Hrun Hready Hcalm. pose proof (kp_ok _ _ _ _ _ _ _ (run_keeps _ _ Hi Hrun)) as Hok.
  eapply recovery_pass_calm; try done.
Qed.

Context (buffer_order : gmap string HeadBuffer -> list (string * HeadBuffer)).
Hypothesis buffer_order_all : forall m, buffer_order m ≡ₚ map_to_list m.

Lemma elem_of_buffer_ids p s id b : cw_buffers s !! id = Some b -> p b = true -> id ∈ buffer_ids buffer_order p s.
Proof.
  intros Hb Hp. unfold buffer_ids. apply list_elem_of_In, List.in_map_iff. exists (id, b). split; [done|].
  apply List.filter_In. split; [|done]. apply list_elem_of_In. rewrite buffer_order_all. by apply elem_of_map_to_list.
Qed.

(** C23: A purge that goes ahead has nothing of the project left in memory: after any run a call
    that succeeds leaves no line of the project in a head buffer, the lines a seal was working on
    included, and every line that was in one is in the manifest, where the purge finds it. *)
Theorem purge_leaves_no_head_lines s0 s s' project_id :
  initial s0 -> run s0 s ->
  prepare_project_for_purge order date_hour content_hash uuid_text buffer_order project_id s = (Ok (), s') ->
  (forall id b l, cw_buffers s !! id = Some b -> ci_project_id (hb_identity b) = project_id -> l ∈ visible b -> committed (cw_store s') l) /\
  (forall id b, cw_buffers s' !! id = Some b -> ci_project_id (hb_identity b) = project_id -> visible b = []).
Proof.
  intros Hi%initial_ok Hrun. pose proof (kp_ok _ _ _ _ _ _ _ (run_keeps _ _ Hi Hrun)) as Hok.
  unfold prepare_project_for_purge. destruct (cw_recovery_ready s); cbn [negb]; [|done]. intros Hseal.
  destruct (seal_all_flushes order date_hour content_hash uuid_text known _ _ _ Hok Hseal) as (_ & _ & Hflush).
  assert (forall id b, cw_buffers s !! id = Some b -> ci_project_id (hb_identity b) = project_id ->
    exists b', cw_buffers s' !! id = Some b' /\ visible b' = [] /\ forall l, l ∈ visible b -> committed (cw_store s') l) as Hgone.
  { intros id b Hb Hp. specialize (Hflush id). rewrite Hb in Hflush. destruct Hflush as (b' & Hb' & [(_ & Hv & Hc)|[Hn ->]]).
    { by exists b'. }
    assert (visible b = []) as Hv; [|exists b; split_and!; [done|done|]; rewrite Hv; by intros l ?%elem_of_nil].
    destruct (is_sealing b || negb (buffer_is_empty b)) eqn:Hkeep.
    - exfalso. apply Hn. eapply elem_of_buffer_ids; [exact Hb|]. rewrite (proj2 (Z.eqb_eq _ _) Hp). by rewrite orb_comm, Hkeep.
    - apply orb_false_iff in Hkeep as [Hs He%negb_false_iff]. unfold buffer_is_empty in He.
      apply andb_true_iff in He as [Hseg%bool_decide_eq_true Hact%bool_decide_eq_true]. unfold is_sealing in Hs.
      unfold visible, in_seal, unsealed. rewrite Hseg, Hact. by destruct (hb_sealing b). }
  split.
  - intros id b l Hb Hp. destruct (Hgone id b Hb Hp) as (_ & _ & _ & Hc). apply Hc.
  - intros id b' Hb' Hp. pose proof (Hflush id) as Hf. destruct (cw_buffers s !! id) as [b|] eqn:Hb; [|congruence].
    destruct Hf as (b2 & Hb2 & [(Hid & Hv & _)|[_ ->]]); [congruence|]. assert (b' = b) as -> by congruence.
    destruct (Hgone id b Hb Hp) as (b3 & Hb3 & Hv & _). congruence.
Qed.

Context {AttrPredicate : Type} (attr_matches : AttrPredicate -> option Value -> bool) (is_whitespace : Z -> bool)
  (log_line_from_str : list Z -> option LogLine) (read_whole : string -> result ScanError (list Z)).
Hypothesis order_all : forall es e, e ∈ order es <-> e ∈ es.


End Runs.

(** ** A concrete instance *)

Fixpoint bits (p : positive) : string :=
  match p with xH => "1" | xO p => String "0" (bits p) | xI p => String "1" (bits p) end.

Lemma bits_inj p q : bits p = bits q -> p = q.
Proof.
  revert q. induction p as [p IH|p IH|]; intros [q|q|] Hb; cbn in Hb; try discriminate; try done.
  all: try (injection Hb as Hb; f_equal; by apply IH).
  all: by injection Hb as Hb; destruct p || destruct q.
Qed.

Lemma bits_no_dot p : no_dot (bits p).
Proof. unfold no_dot. induction p as [p IH|p IH|]; cbn [bits split_last_dot]; [by rewrite IH..|done]. Qed.

Lemma bits_no_dash p : no_dash (bits p).
Proof. induction p as [p IH|p IH|]; cbn [bits]; repeat apply no_dash_cons; try done. all: apply no_dash_nil. Qed.

Definition bits_uuid (n : nat) : string := bits (Pos.of_succ_nat n).
Definition bits_hash (_ : option (string * Z * Z)) (bytes : list Z) : string := bits (encode bytes).

#[local] Instance bits_uuid_laws : UuidLaws bits_uuid.
Proof. split; [intros m n He%bits_inj; lia|intros n; apply bits_no_dot]. Qed.
#[local] Instance bits_hash_laws : HashLaws bits_hash.
Proof. split; [intros ? b ? b' He%bits_inj; by apply (inj encode)|intros; apply bits_no_dash]. Qed.
#[local] Instance known_c : KnownIds (eq "c"%string).
Proof. split; [by intros id <-|by intros ? ? <- <-]. Qed.

#[local] Existing Instances nanos_chrono nanos_chrono_laws stored_zstd stored_zstd_laws raw_json raw_json_laws poly_hash
  ascii_unicode ascii_unicode_laws coded_footer coded_footer_laws sum_crc naive_memmem coded_line.

Definition string_le (a b : string) : Prop := String.leb a b = true.
#[local] Instance string_le_dec : RelDecision string_le.
Proof. intros a b. unfold string_le. apply _. Defined.

Definition new_disk : Disk :=
  {| dk_root := ∅; dk_deferred := ∅; dk_notes := ∅; dk_inodes := ∅; dk_next := 0; dk_uuids := 0; dk_faults := [] |}.
Definition new_store : Store :=
  {| so_objects := ∅; so_rows := []; so_indexed := ∅; so_next_seq := 1; so_faults := [] |}.
Definition new_writer : Writer :=
  {| cw_disk := new_disk; cw_store := new_store; cw_wal_dir := true; cw_line_index := true; cw_buffers := ∅; cw_tasks := ∅;
     cw_purged_before := ∅; cw_thresholds := default_thresholds; cw_head_max_bytes := 4096; cw_shed_bloom := false;
     cw_dropped_chunks := 0; cw_unindexed_chunks := 0; cw_recovery_ready := true; cw_now := 0 |}.

Definition a_line : LogLine := sample_line 5 Info [104; 105] None.
Definition written : Writer := (write_line a_line new_writer).2.
Definition synced : Writer := (sync_wal "c" written).2.
Definition crashed : Writer := crash (fun _ => 0%nat) [] synced.
Definition recovered : Writer := (recovery_pass elements (fun _ => "2024-01-01/00"%string) bits_hash bits_uuid map_to_list string_le crashed).2.

#[local] Abbreviation sample_step := (writer_step elements (fun _ => "2024-01-01/00"%string) bits_hash bits_uuid (eq "c"%string) map_to_list string_le).

Lemma new_writer_initial : initial new_writer.
Proof. by split. Qed.

Lemma run_written : rtc sample_step new_writer written.
Proof.
  apply rtc_once. apply (step_write _ _ _ _ _ _ _ _ a_line (write_line a_line new_writer).1).
  - split; [apply coded_replayable|done].
  - exact I.
  - apply surjective_pairing.
Qed.

Lemma run_crashed : rtc sample_step synced crashed.
Proof. apply rtc_once, step_crash. Qed.

Lemma run_to_crashed : rtc sample_step new_writer crashed.
Proof.
  etrans; [apply run_written|]. eapply rtc_l; [|apply run_crashed].
  eapply (step_sync _ _ _ _ _ _ _ _ "c"); [reflexivity|apply surjective_pairing].
Qed.

Lemma run_recovered : rtc sample_step crashed recovered.
Proof. apply rtc_once. eapply step_recover; [reflexivity|apply surjective_pairing]. Qed.

Lemma sync_written : sync_wal "c" written = (Ok (), synced).
Proof. by rewrite (surjective_pairing (sync_wal "c" written)). Qed.

Definition written_buffer : HeadBuffer := default (buffer_new (identity_from_line a_line) None 0) (cw_buffers written !! "c"%string).


Lemma pass_crashed :
  recovery_pass elements (fun _ => "2024-01-01/00"%string) bits_hash bits_uuid map_to_list string_le crashed = (Ok (), recovered).
Proof.
  assert ((recovery_pass elements (fun _ => "2024-01-01/00"%string) bits_hash bits_uuid map_to_list string_le crashed).1 = Ok ()) as <-
    by vm_cast_no_check (eq_refl (A := result WriterError unit) (Ok ())).
  apply surjective_pairing.
Qed.

Lemma crashed_safe : safe elements crashed a_line.
Proof.
  left. set (i := default {| in_bytes := []; in_synced := 0 |} (dk_inodes (cw_disk crashed) !! 0%nat)).
  exists (false, "c.wal"%string), 0%nat, i.
  split; [vm_cast_no_check (eq_refl (Some (Regular 0)))|]. split; [vm_cast_no_check (eq_refl (Some i))|].
  assert (file_lines (take (in_synced i) (in_bytes i)) = [a_line]) as -> by vm_cast_no_check (eq_refl [a_line]).
  by apply list_elem_of_singleton.
Qed.

Lemma recovery_commits_witness :
  cw_recovery_ready recovered = true /\ (committed elements (cw_store recovered) a_line \/ deferred (cw_disk recovered) a_line).
Proof.
  apply (recovery_commits elements (fun _ => "2024-01-01/00"%string) bits_hash bits_uuid (eq "c"%string) map_to_list string_le
    ltac:(reflexivity) new_writer crashed recovered a_line new_writer_initial run_to_crashed).
  - reflexivity.
  - apply pass_crashed.
  - apply crashed_safe.
Defined.

Lemma recovery_completes_witness : exists r s',
  recovery_pass elements (fun _ => "2024-01-01/00"%string) bits_hash bits_uuid map_to_list string_le crashed = (r, s') /\
  ((exists e, r = Err (EncodeFailed e)) \/ (r = Ok () /\ cw_recovery_ready s' = true)).
Proof.
  apply (recovery_completes elements (fun _ => "2024-01-01/00"%string) bits_hash bits_uuid (eq "c"%string) map_to_list string_le
    ltac:(reflexivity) new_writer crashed new_writer_initial run_to_crashed).
  - reflexivity.
  - split; reflexivity.
Defined.

Lemma none_deferred : dk_deferred (cw_disk recovered) = ∅.
Proof. vm_cast_no_check (eq_refl (∅ : gmap string Node)). Qed.

Lemma lookup_nothing (m : gmap string Node) k v : m = ∅ -> m !! k = Some v -> False.
Proof. intros ->. by rewrite lookup_empty. Qed.

Lemma recovered_committed : committed elements (cw_store recovered) a_line.
Proof.
  assert (writer_ok elements (fun _ => "2024-01-01/00"%string) bits_hash bits_uuid (eq "c"%string) crashed) as Hok.
  { eapply kp_ok. apply (run_keeps elements (fun _ => "2024-01-01/00"%string) bits_hash bits_uuid (eq "c"%string) map_to_list string_le
      ltac:(reflexivity) new_writer); [apply initial_ok, new_writer_initial|apply run_to_crashed]. }
  destruct (recovery_pass_keeps elements (fun _ => "2024-01-01/00"%string) bits_hash bits_uuid (eq "c"%string) map_to_list string_le
    ltac:(reflexivity) _ _ _ Hok eq_refl pass_crashed) as [Hk Hdone].
  destruct (kp_safe _ _ _ _ _ _ _ Hk _ crashed_safe) as [Hd|Hc]; [|done]. exfalso.
  destruct (proj2 (Hdone eq_refl) _ Hd) as (name & ino & i & Hx & _).
  exact (lookup_nothing _ _ _ none_deferred Hx).
Qed.


(** The line of [written], purged. *)
Definition sample_purge : Writer -> result WriterError unit * Writer :=
  prepare_project_for_purge elements (fun _ => "2024-01-01/00"%string) bits_hash bits_uuid map_to_list (ll_project_id a_line).

Lemma purge_leaves_no_head_lines_witness :
  let purged := (sample_purge written).2 in
  (forall id b l, cw_buffers written !! id = Some b -> ci_project_id (hb_identity b) = ll_project_id a_line -> l ∈ visible b ->
   committed elements (cw_store purged) l) /\
  (forall id b, cw_buffers purged !! id = Some b -> ci_project_id (hb_identity b) = ll_project_id a_line -> visible b = []).
Proof.
  apply (purge_leaves_no_head_lines elements (fun _ => "2024-01-01/00"%string) bits_hash bits_uuid (eq "c"%string) map_to_list string_le
    ltac:(reflexivity) map_to_list ltac:(reflexivity) new_writer written _ (ll_project_id a_line) new_writer_initial run_written).
  assert ((sample_purge written).1 = Ok ()) as <- by vm_cast_no_check (eq_refl (A := result WriterError unit) (Ok ())).
  apply surjective_pairing.
Defined.

(** ** Where the guarantee needs its conditions *)

(** Lines whose seal failed are in no head buffer and in no chunk, so a purge does not see them: it
    succeeds, and the next restart brings the lines back. *)
Definition refused : Writer :=
  let s := set_store written {| so_objects := ∅; so_rows := []; so_indexed := ∅; so_next_seq := 1; so_faults := [SFails false false] |} in
  (seal_inner elements (fun _ => "2024-01-01/00"%string) bits_hash bits_uuid "c" false s).2.
Definition restarted : Writer :=
  (recovery_pass elements (fun _ => "2024-01-01/00"%string) bits_hash bits_uuid map_to_list string_le
     (crash (fun _ => 4096%nat) [] (sample_purge refused).2)).2.

Example purge_misses_failed_seals :
  (sample_purge refused).1 = Ok () /\
  so_rows (cw_store (sample_purge refused).2) = [] /\
  option_map visible (cw_buffers (sample_purge refused).2 !! "c"%string) = Some [] /\
  map (fun row => cl_line_count (cm_labels row.2)) (so_rows (cw_store restarted)) = [1].
Proof. split_and!; match goal with |- _ = ?y => vm_cast_no_check (eq_refl y) end. Qed.

(** A write whose header reached the file and whose payload did not is reported, but the header
    stays: the next lines are acknowledged and synced, and no reader gets behind the header. *)
Definition later_line : LogLine := sample_line 7 Info [104; 111] None.
Definition torn : Writer :=
  let s := written in
  let s := set_disk s (with_faults (cw_disk s) [Fine; Fails 0]) in
  (write_line (sample_line 6 Error [] None) s).2.
Definition torn_synced : Writer := (sync_wal "c" (write_line later_line torn).2).2.

Example torn_append_hides_lines :
  (write_line (sample_line 6 Error [] None) (set_disk written (with_faults (cw_disk written) [Fine; Fails 0]))).1
    = Err (WalFailed IoFailed) /\
  (write_line later_line torn).1 = Ok false /\
  (sync_wal "c" (write_line later_line torn).2).1 = Ok () /\
  option_map unsealed (cw_buffers torn_synced !! "c"%string) = Some [a_line; later_line] /\
  file_lines (bytes_of 0 (cw_disk torn_synced)) = [a_line].
Proof. split_and!; match goal with |- _ = ?y => vm_cast_no_check (eq_refl y) end. Qed.

(** Container ids that differ only in characters a file name cannot have share one file. *)
Example sanitised_ids_collide : wal_file_name "a.b" = wal_file_name "a_b" /\ "a.b" <> "a_b"%string.
Proof. by split. Qed.

(** The file of the empty id has no extension, so recovery does not see it. *)
Example empty_id_is_not_recovered : wal_file_name "" = ".wal"%string /\ wal_kind (wal_file_name "") = None.
Proof. by split. Qed.
