(* ===== verification/ChunkQuery.v ===== *)
(** * Which chunks a log query reads

    The label filters of a query in the two forms the code has them: [labels_match] of
    [crates/temps-log-aggregator/src/store/chunk_store.rs] for head buffers, and the SQL of
    [store/manifest.rs] ([build_conditions], [candidates]) for sealed chunks.  A condition of the SQL
    is a function from a row to true, false or unknown, the last for a comparison with NULL. *)

From S2P Require Import Prelude Bytes Utf8 ChunkBlock Bloom ChunkFile ChunkScan.
From stdpp Require Import sorting.
Local Open Scope Z_scope.

Definition MAX_PAGE_SIZE : Z := 1000.

Inductive LogAccessScope :=
  | ScopeAll
  | ScopeAllowed (project_ids external_service_ids : list Z).

Inductive LogSourceKind := Collected | Application | Service.

Record LogSelection := { sel_project_ids : list Z; sel_external_service_ids : list Z }.

(** What [validate] refuses. *)
Inductive QueryProblem := WindowEmpty | PageSizeOutOfRange | TextTooLong | FiltersTooLarge | FiltersTooMany.

Definition mem_z (x : Z) (l : list Z) : bool := bool_decide (x ∈ l).
Definition mem_str (x : string) (l : list string) : bool := bool_decide (x ∈ l).

Section Query.
Context `{Chrono} {AttrPredicate : Type}.

(** [struct LogQuery]: the fields the scan of a chunk uses, and those that choose chunks. *)
Record SearchQuery := {
  sq_lines : LogQuery (AttrPredicate := AttrPredicate);
  sq_scope : LogAccessScope;
  sq_source : LogSourceKind;
  sq_selection : option LogSelection;
  sq_envs : list string;
  sq_services : list string;
  sq_container_ids : list string;
  sq_node_ids : list Z;
  sq_deploy_id : option Z;
  sq_chunk_seqs : option (list Z)
}.

(** [LogQuery::validate]. *)
Definition validate (q : SearchQuery) : result QueryProblem unit :=
  if dt_leb (q_end_time (sq_lines q)) (q_start_time (sq_lines q)) then Err WindowEmpty
  else if (q_limit (sq_lines q) =? 0) || (MAX_PAGE_SIZE <? q_limit (sq_lines q)) then Err PageSizeOutOfRange
  else if match q_text (sq_lines q) with Some t => 1024 <? blen (encode_str t) | None => false end then Err TextTooLong
  else if existsb (fun values => (100 <? Z.of_nat (length values))
                                 || existsb (fun v => 256 <? Z.of_nat (String.length v)) values)
            [sq_envs q; sq_services q; sq_container_ids q] then Err FiltersTooLarge
  else
    let selected := match sq_selection q with
                    | Some s => Z.of_nat (length (sel_project_ids s) + length (sel_external_service_ids s))
                    | None => 0
                    end in
    if (1000 <? selected) || (100 <? Z.of_nat (length (sq_node_ids q))) then Err FiltersTooMany else Ok ().

(** ** Labels in memory *)

(** A stream is one of the external services or one of the projects. *)
Definition one_of (labels : ChunkLabels) (project_ids external_service_ids : list Z) : bool :=
  match cl_external_service_id labels with
  | Some id => mem_z id external_service_ids
  | None => mem_z (cl_project_id labels) project_ids
  end.

Definition scope_ok (scope : LogAccessScope) (labels : ChunkLabels) : bool :=
  match scope with
  | ScopeAll => true
  | ScopeAllowed project_ids external_service_ids => one_of labels project_ids external_service_ids
  end.

Definition empty_or {A} (l : list A) (b : bool) : bool := match l with [] => true | _ => b end.

Definition labels_match (labels : ChunkLabels) (q : SearchQuery) : bool :=
  let external := cl_external_service_id labels in
  if negb (scope_ok (sq_scope q) labels) then false
  else if match sq_source q, external with
          | Application, Some _ => true
          | Service, None => true
          | _, _ => false
          end then false
  else if match sq_selection q with
          | Some s => negb (one_of labels (sel_project_ids s) (sel_external_service_ids s))
          | None => false
          end then false
  else if negb (empty_or (sq_envs q) (mem_str (cl_env labels) (sq_envs q))) then false
  else if negb (empty_or (sq_services q) (mem_str (cl_service labels) (sq_services q))) then false
  else if negb (empty_or (sq_container_ids q) (mem_str (cl_container_id labels) (sq_container_ids q))) then false
  else if negb (empty_or (sq_node_ids q)
                  (match cl_node_id labels with Some n => mem_z n (sq_node_ids q) | None => false end)) then false
  else match sq_deploy_id q with
       | Some deploy => bool_decide (cl_deploy_id labels = Some deploy)
       | None => true
       end.

(** ** The manifest table *)

(** A row of [log_chunks]: [id] is a UUID by its number. *)
Record Row := { rw_id : Z; rw_manifest : Manifest; rw_deleted : bool }.

Definition rw_labels (r : Row) : ChunkLabels := mf_labels (rw_manifest r).
Definition rw_ended_at (r : Row) : DateTime := cl_ended_at (rw_labels r).

Definition Condition : Type := Row -> option bool.

Definition sql_and (a b : option bool) : option bool :=
  match a, b with
  | Some false, _ | _, Some false => Some false
  | Some true, Some true => Some true
  | _, _ => None
  end.
Definition sql_or (a b : option bool) : option bool :=
  match a, b with
  | Some true, _ | _, Some true => Some true
  | Some false, Some false => Some false
  | _, _ => None
  end.

(** [x = ANY(l)] for an array without NULLs. *)
Definition sql_any (x : option Z) (l : list Z) : option bool := (fun x => mem_z x l) <$> x.

Definition either_of (project_ids external_service_ids : list Z) : Condition := fun r =>
  let external := cl_external_service_id (rw_labels r) in
  sql_or (sql_and (Some (match external with None => true | Some _ => false end))
                  (sql_any (Some (cl_project_id (rw_labels r))) project_ids))
         (sql_any external external_service_ids).

Definition one_of_condition (project_ids external_service_ids : list Z) : Condition :=
  match project_ids, external_service_ids with
  | [], [] => fun _ => Some false
  | _, _ => either_of project_ids external_service_ids
  end.

Definition scope_condition (scope : LogAccessScope) : option Condition :=
  match scope with
  | ScopeAll => None
  | ScopeAllowed project_ids external_service_ids => Some (one_of_condition project_ids external_service_ids)
  end.

Definition selection_condition (selection : option LogSelection) : option Condition :=
  s ← selection; Some (one_of_condition (sel_project_ids s) (sel_external_service_ids s)).

Definition source_condition (source : LogSourceKind) : option Condition :=
  let is_null r := match cl_external_service_id (rw_labels r) with None => true | Some _ => false end in
  match source with
  | Application => Some (fun r => Some (is_null r))
  | Service => Some (fun r => Some (negb (is_null r)))
  | Collected => None
  end.

Definition level_condition (levels : list LogLevel) : Condition := fun r =>
  Some (negb (Z.land (cl_level_mask (rw_labels r)) (swrap 16 (level_mask_for levels)) =? 0)).

Definition deploy_condition (deploy_id : option Z) : option Condition :=
  deploy ← deploy_id; Some (fun r => (fun d => d =? deploy) <$> cl_deploy_id (rw_labels r)).

Definition seq_condition (chunk_seqs : option (list Z)) : option Condition :=
  seqs ← chunk_seqs; Some (fun r => Some (mem_z (mf_seq (rw_manifest r)) seqs)).

(** A condition that is there when the list is not empty. *)
Definition when {A} (l : list A) (c : Condition) : list Condition := match l with [] => [] | _ => [c] end.

(** [build_conditions], for the window up to [end_time]. *)
Definition build_conditions (q : SearchQuery) (end_time : DateTime) (with_level : bool) : list Condition :=
  [ (fun r => Some (negb (rw_deleted r)));
    (fun r => Some (dt_leb (cl_started_at (rw_labels r)) end_time
                    && dt_leb (q_start_time (sq_lines q)) (rw_ended_at r))) ]
  ++ option_list (scope_condition (sq_scope q))
  ++ option_list (source_condition (sq_source q))
  ++ option_list (selection_condition (sq_selection q))
  ++ when (sq_envs q) (fun r => Some (mem_str (cl_env (rw_labels r)) (sq_envs q)))
  ++ when (sq_services q) (fun r => Some (mem_str (cl_service (rw_labels r)) (sq_services q)))
  ++ when (sq_container_ids q) (fun r => Some (mem_str (cl_container_id (rw_labels r)) (sq_container_ids q)))
  ++ when (sq_node_ids q) (fun r => sql_any (cl_node_id (rw_labels r)) (sq_node_ids q))
  ++ option_list (deploy_condition (sq_deploy_id q))
  ++ option_list (seq_condition (sq_chunk_seqs q))
  ++ (if with_level then [level_condition (q_levels (sq_lines q))] else []).

(** [WHERE c1 AND c2 ...] keeps a row when every condition is true. *)
Definition where_holds (conditions : list Condition) (r : Row) : bool :=
  match foldr (fun (c : Condition) => sql_and (c r)) (Some true) conditions with
  | Some b => b
  | None => false
  end.

Record ManifestCursor := { mc_ended_at : DateTime; mc_id : Z }.

(** [ORDER BY ended_at DESC, id DESC], strictly: [a] comes before [b]. *)
Definition comes_before (at_a : DateTime) (id_a : Z) (at_b : DateTime) (id_b : Z) : bool :=
  if dt_eqb at_a at_b then id_b <? id_a else dt_ltb at_b at_a.

Definition cursor_condition (after : ManifestCursor) : Condition := fun r =>
  Some (comes_before (mc_ended_at after) (mc_id after) (rw_ended_at r) (rw_id r)).

Definition row_le (a b : Row) : Prop := comes_before (rw_ended_at b) (rw_id b) (rw_ended_at a) (rw_id a) = false.
#[export] Instance row_le_dec : RelDecision row_le.
Proof. intros a b. unfold row_le. apply _. Defined.

(** [ManifestRepo::candidates]. *)
Definition candidates (rows : list Row) (q : SearchQuery) (end_time : DateTime) (after : option ManifestCursor) (limit : nat)
    : list Row :=
  let conditions := build_conditions q end_time true ++ match after with Some c => [cursor_condition c] | None => [] end in
  take limit (merge_sort row_le (List.filter (where_holds conditions) rows)).

(** ** The two forms agree *)

Lemma where_holds_nil r : where_holds [] r = true.
Proof. done. Qed.

Lemma where_holds_cons c cs r : where_holds (c :: cs) r = bool_decide (c r = Some true) && where_holds cs r.
Proof.
  unfold where_holds. cbn. destruct (c r) as [[]|], (foldr _ _ cs) as [[]|]; done.
Qed.

Lemma where_holds_app cs ds r : where_holds (cs ++ ds) r = where_holds cs r && where_holds ds r.
Proof.
  induction cs as [|c cs IH]; [done|]. rewrite <- app_comm_cons, !where_holds_cons, IH. apply andb_assoc.
Qed.

Lemma true_is (b : bool) : bool_decide (Some b = Some true) = b.
Proof. by destruct b. Qed.

Lemma one_of_condition_spec ps es r : bool_decide (one_of_condition ps es r = Some true) = one_of (rw_labels r) ps es.
Proof.
  assert (bool_decide (either_of ps es r = Some true) = one_of (rw_labels r) ps es) as He.
  { unfold either_of, one_of, sql_any. destruct (cl_external_service_id (rw_labels r)) as [e|]; cbn.
    - by destruct (mem_z e es).
    - by destruct (mem_z _ ps). }
  unfold one_of_condition. destruct ps, es; try exact He. unfold one_of. by destruct (cl_external_service_id (rw_labels r)).
Qed.

Lemma level_bits_bound ls acc : 0 <= acc < 32 -> 0 <= fold_left Z.lor (map level_bit ls) acc < 32.
Proof.
  revert acc. induction ls as [|l ls IH]; intros acc Hacc; [done|]. cbn. apply IH.
  assert (0 <= level_bit l < 32) as Hl by (by destruct l).
  split; [apply Z.lor_nonneg; lia|]. destruct (decide (Z.lor acc (level_bit l) = 0)) as [->|Hne]; [lia|].
  apply Z.log2_lt_cancel. change (Z.log2 32) with 5. rewrite Z.log2_lor by lia. apply Z.max_lub_lt.
  - destruct (decide (acc = 0)) as [->|]; [done|]. apply Z.log2_lt_pow2; lia.
  - by destruct l.
Qed.

Lemma level_mask_i16 levels : swrap 16 (level_mask_for levels) = level_mask_for levels.
Proof.
  apply swrap_id; [done|]. assert (forall m, 0 <= m < 32 -> sfits 16 m) as Hf by (unfold sfits; lia). apply Hf.
  destruct levels as [|l ls]; [done|]. apply (level_bits_bound (l :: ls)). lia.
Qed.

Lemma where_option c r : where_holds (option_list c) r = match c with Some c => bool_decide (c r = Some true) | None => true end.
Proof. destruct c as [c|]; [|done]. change (option_list (Some c)) with [c]. by rewrite where_holds_cons, where_holds_nil, andb_true_r. Qed.

Lemma where_when {A} (l : list A) c r : where_holds (when l c) r = empty_or l (bool_decide (c r = Some true)).
Proof. destruct l; [done|]. cbn [when empty_or]. by rewrite where_holds_cons, where_holds_nil, andb_true_r. Qed.

Lemma if_false (b c : bool) : (if b then false else c) = negb b && c.
Proof. by destruct b. Qed.

(** The level filter, and the chunks the index has named. *)
Definition level_wanted (q : SearchQuery) (labels : ChunkLabels) : bool :=
  negb (Z.land (cl_level_mask labels) (level_mask_for (q_levels (sq_lines q))) =? 0).
Definition seq_wanted (q : SearchQuery) (m : Manifest) : bool :=
  match sq_chunk_seqs q with Some seqs => mem_z (mf_seq m) seqs | None => true end.

Definition overlaps (q : SearchQuery) (end_time : DateTime) (labels : ChunkLabels) : bool :=
  dt_leb (cl_started_at labels) end_time && dt_leb (q_start_time (sq_lines q)) (cl_ended_at labels).

Lemma conditions_spec q end_time r :
  where_holds (build_conditions q end_time true) r =
  negb (rw_deleted r) && overlaps q end_time (rw_labels r) && labels_match (rw_labels r) q &&
  seq_wanted q (rw_manifest r) && level_wanted q (rw_labels r).
Proof.
  unfold build_conditions, labels_match. rewrite !if_false, !negb_involutive, !where_holds_app, !where_holds_cons, where_holds_nil.
  rewrite !where_option, !where_when, !true_is.
  assert (match scope_condition (sq_scope q) with Some c => bool_decide (c r = Some true) | None => true end =
          scope_ok (sq_scope q) (rw_labels r)) as ->.
  { destruct (sq_scope q); [done|]. cbn. apply one_of_condition_spec. }
  assert (match selection_condition (sq_selection q) with Some c => bool_decide (c r = Some true) | None => true end =
          negb match sq_selection q with
               | Some s => negb (one_of (rw_labels r) (sel_project_ids s) (sel_external_service_ids s))
               | None => false
               end) as ->.
  { destruct (sq_selection q) as [s|]; [|done]. cbn. rewrite negb_involutive. apply one_of_condition_spec. }
  assert (match source_condition (sq_source q) with Some c => bool_decide (c r = Some true) | None => true end =
          negb match sq_source q, cl_external_service_id (rw_labels r) with
               | Application, Some _ => true | Service, None => true | _, _ => false
               end) as ->.
  { by destruct (sq_source q), (cl_external_service_id (rw_labels r)) eqn:He; cbn; rewrite ?He. }
  assert (bool_decide (sql_any (cl_node_id (rw_labels r)) (sq_node_ids q) = Some true) =
          match cl_node_id (rw_labels r) with Some n => mem_z n (sq_node_ids q) | None => false end) as ->.
  { unfold sql_any. destruct (cl_node_id (rw_labels r)) as [n|]; [|done]. apply true_is. }
  assert (match deploy_condition (sq_deploy_id q) with Some c => bool_decide (c r = Some true) | None => true end =
          match sq_deploy_id q with Some deploy => bool_decide (cl_deploy_id (rw_labels r) = Some deploy) | None => true end) as ->.
  { destruct (sq_deploy_id q) as [d|]; [|done]. cbn. apply bool_decide_ext.
    destruct (cl_deploy_id (rw_labels r)) as [e|]; cbn; [|done]. destruct (Z.eqb_spec e d); naive_solver. }
  assert (match seq_condition (sq_chunk_seqs q) with Some c => bool_decide (c r = Some true) | None => true end =
          seq_wanted q (rw_manifest r)) as ->.
  { unfold seq_wanted. destruct (sq_chunk_seqs q) as [seqs|]; [|done]. apply true_is. }
  unfold level_condition, level_wanted, overlaps, rw_ended_at. rewrite level_mask_i16, !true_is, !andb_true_r, !andb_assoc. done.
Qed.

(** The SQL of the manifest and the filter of the head buffers choose alike, NULLs included: a
    row is a candidate exactly when it is live, overlaps the window, has a wanted level, is one of
    the chunks the index named, and its labels pass [labels_match]. *)
Theorem sql_matches_labels q end_time r :
  where_holds (build_conditions q end_time true) r = true <->
  rw_deleted r = false /\ overlaps q end_time (rw_labels r) = true /\ labels_match (rw_labels r) q = true /\
  seq_wanted q (rw_manifest r) = true /\ level_wanted q (rw_labels r) = true.
Proof. rewrite conditions_spec, !andb_true_iff, negb_true_iff. tauto. Qed.
End Query.
