(* ===== verification/ChunkSearch.v ===== *)
(** * Searching the log store

    [ChunkStore::search] of [crates/temps-log-aggregator/src/store/chunk_store.rs]: candidates, the
    sealed chunks of the manifest and the head buffers, are read in the order of their newest line,
    matches wait in a heap until no candidate that is still unread can precede them, and a page ends
    when it is full, when nothing is left, or when the budget is used up.

    One search sees one state of the manifest and of the head buffers.  Which rounds find the time
    used up and which queries of the manifest fail are arguments; a heap is a list in the order it is
    popped in. *)

From S2P Require Import Prelude Bytes Utf8 ChunkBlock Bloom ChunkFile ChunkScan ChunkQuery.
From stdpp Require Import sorting.
Local Open Scope Z_scope.

Record SearchBudget := { bd_bytes : Z; bd_parallel : nat; bd_batch : nat }.

Definition default_budget : SearchBudget := {| bd_bytes := 1024 * 1024 * 1024; bd_parallel := 16; bd_batch := 64 |}.

Inductive SearchError :=
  | InvalidQuery (p : QueryProblem)
  | DatabaseFailed
  | ScanFailed (e : ScanError)
  | RoundsExhausted.

Section Search.
Context `{ChronoLaws} `{ZstdLaws} `{JsonLaws} `{!FooterJson} `{Crc32} `{Xxh3} `{Unicode} `{Memmem}.
Context {AttrPredicate : Type} (attr_matches : AttrPredicate -> option Value -> bool) (is_whitespace : Z -> bool)
  (log_line_from_str : list Z -> option LogLine)
  (read_range : string -> Z -> Z -> result ScanError (list Z)) (read_whole : string -> result ScanError (list Z)).

#[local] Abbreviation SearchQuery := (SearchQuery (AttrPredicate := AttrPredicate)).
#[local] Abbreviation LineFilter := (LineFilter (AttrPredicate := AttrPredicate)).

(** ** Candidates *)

Inductive Candidate := Sealed (r : Row) | Head (labels : ChunkLabels).

Definition candidate_labels (c : Candidate) : ChunkLabels := match c with Sealed r => rw_labels r | Head labels => labels end.
Definition ended_at (c : Candidate) : DateTime := cl_ended_at (candidate_labels c).

(** [LogLineRecord::key] and the order of [Pending]. *)
Definition key (r : LogLineRecord) : LogLineKey :=
  {| k_timestamp := r_timestamp r; k_container_id := r_container_id r; k_line_id := r_line_id r |}.

Definition newer (a b : LogLineRecord) : Prop := key_ltb (key b) (key a) = true.
Definition not_older (a b : LogLineRecord) : Prop := key_ltb (key a) (key b) = false.
#[export] Instance not_older_dec : RelDecision not_older.
Proof. intros a b. unfold not_older. apply _. Defined.

(** The head buffers as [HeadSource] shows them, and the manifest table. *)
Context (summaries : list ChunkLabels) (snapshot : string -> option HeadSnapshot) (rows : list Row).

(** [ChunkStore::scan]. *)
Definition scan (c : Candidate) (f : LineFilter) : result ScanError ChunkScan :=
  match c with
  | Head labels =>
      Ok match snapshot (cl_container_id labels) with
         | Some segments => scan_head attr_matches segments labels f
         | None => {| cs_matches := []; cs_bytes := 0 |}
         end
  | Sealed r => scan_sealed attr_matches is_whitespace log_line_from_str read_range read_whole (rw_manifest r) f
  end.

Definition labels_le (a b : ChunkLabels) : Prop := dt_leb (cl_ended_at b) (cl_ended_at a) = true.
#[export] Instance labels_le_dec : RelDecision labels_le.
Proof. intros a b. unfold labels_le. apply _. Defined.

(** [ChunkStore::head_candidates]. *)
Definition head_candidate (q : SearchQuery) (f : LineFilter) (labels : ChunkLabels) : bool :=
  if negb (labels_match labels q) then false
  else if dt_ltb (cl_ended_at labels) (lf_start f) || dt_ltb (lf_end f) (cl_started_at labels) then false
  else if Z.land (cl_level_mask labels) (lf_level_mask f) =? 0 then false
  else true.

Definition head_candidates (q : SearchQuery) (f : LineFilter) : list Candidate :=
  map Head (merge_sort labels_le (List.filter (head_candidate q f) summaries)).

(** [ChunkStore::sealed_batch]. *)
Definition sealed_batch (budget : SearchBudget) (q : SearchQuery) (f : LineFilter) (after : option ManifestCursor) : list Row :=
  candidates rows q (lf_end f) after (bd_batch budget).

(** ** The walk *)

Record Walk := {
  wk_heads : list Candidate;
  wk_sealed : list Row;
  wk_sealed_exhausted : bool;
  wk_sealed_cursor : option ManifestCursor
}.

Definition next_ended_at (w : Walk) : option DateTime :=
  let h := option_map ended_at (head (wk_heads w)) in
  let s := option_map rw_ended_at (head (wk_sealed w)) in
  match h, s with
  | Some a, Some b => Some (if dt_leb a b then b else a)
  | Some a, None => Some a
  | None, s => s
  end.

Definition pop (w : Walk) : option Candidate * Walk :=
  let take_head := match wk_heads w, wk_sealed w with
                   | h :: _, s :: _ => dt_leb (rw_ended_at s) (ended_at h)
                   | _ :: _, [] => true
                   | [], _ => false
                   end in
  if take_head then
    match wk_heads w with
    | [] => (None, w)
    | h :: heads => (Some h, {| wk_heads := heads; wk_sealed := wk_sealed w; wk_sealed_exhausted := wk_sealed_exhausted w;
                                wk_sealed_cursor := wk_sealed_cursor w |})
    end
  else
    match wk_sealed w with
    | [] => (None, w)
    | s :: sealed => (Some (Sealed s),
                      {| wk_heads := wk_heads w; wk_sealed := sealed; wk_sealed_exhausted := wk_sealed_exhausted w;
                         wk_sealed_cursor := Some {| mc_ended_at := rw_ended_at s; mc_id := rw_id s |} |})
    end.

Fixpoint take_batch (n : nat) (w : Walk) : list Candidate * Walk :=
  match n with
  | O => ([], w)
  | S n => match pop w with
           | (None, w) => ([], w)
           | (Some c, w) => let '(batch, w) := take_batch n w in (c :: batch, w)
           end
  end.

(** U+FFFF in UTF-8. *)
Definition last_container_id : string := String "239" (String "191" (String "191" EmptyString)).

Definition resume_cursor (e : DateTime) : LogLineKey :=
  {| k_timestamp := e; k_container_id := last_container_id; k_line_id := 2 ^ 63 - 1 |}.

(** ** A page *)

Record LogPage := {
  lp_lines : list LogLineRecord;
  lp_next_cursor : option LogLineKey;
  lp_scanned_back_to : option DateTime
}.

Definition refill (budget : SearchBudget) (db_up : nat -> bool) (q : SearchQuery) (f : LineFilter) (round : nat) (w : Walk)
    : result SearchError Walk :=
  match wk_sealed w with
  | [] =>
      if wk_sealed_exhausted w then Ok w
      else if negb (db_up round) then Err DatabaseFailed
      else
        let batch := sealed_batch budget q f (wk_sealed_cursor w) in
        Ok {| wk_heads := wk_heads w; wk_sealed := batch;
              wk_sealed_exhausted := (length batch <? bd_batch budget)%nat; wk_sealed_cursor := wk_sealed_cursor w |}
  | _ => Ok w
  end.

(** Matches that no unread candidate can precede, up to the limit. *)
Fixpoint promote (horizon : option DateTime) (limit : nat) (pending finals : list LogLineRecord)
    : list LogLineRecord * list LogLineRecord :=
  match pending with
  | [] => (pending, finals)
  | top :: rest =>
      if match horizon with None => true | Some h => dt_ltb h (r_timestamp top) end then
        let finals := finals ++ [top] in
        if (limit <=? length finals)%nat then (rest, finals) else promote horizon limit rest finals
      else (pending, finals)
  end.

(** The results of a batch: the matches to the heap, a missing object is skipped. *)
Fixpoint absorb (f : LineFilter) (batch : list Candidate) (pending : list LogLineRecord) (bytes_used : Z)
    : result SearchError (list LogLineRecord * Z) :=
  match batch with
  | [] => Ok (pending, bytes_used)
  | c :: rest =>
      match scan c f with
      | Ok cs => absorb f rest (merge_sort not_older (pending ++ cs_matches cs)) (wrap 64 (bytes_used + cs_bytes cs))
      | Err (ChunkNotFound _) => absorb f rest pending bytes_used
      | Err e => Err (ScanFailed e)
      end
  end.

Fixpoint search_loop (budget : SearchBudget) (time_up db_up : nat -> bool) (q : SearchQuery) (f : LineFilter) (limit : nat)
    (fuel round : nat) (w : Walk) (pending finals : list LogLineRecord) (bytes_used : Z) : result SearchError LogPage :=
  match fuel with
  | O => Err RoundsExhausted
  | S fuel =>
      let? w := refill budget db_up q f round w in
      let horizon := next_ended_at w in
      let '(pending, finals) := promote horizon limit pending finals in
      if (limit <=? length finals)%nat then
        let finals := take limit finals in
        Ok {| lp_lines := finals; lp_next_cursor := option_map key (list.last finals); lp_scanned_back_to := None |}
      else
        match horizon with
        | None => Ok {| lp_lines := finals; lp_next_cursor := None; lp_scanned_back_to := None |}
        | Some h =>
            let over_budget := time_up round || (bd_bytes budget <=? bytes_used) in
            if over_budget && dt_ltb h (lf_end f) then
              Ok {| lp_lines := finals; lp_next_cursor := Some (resume_cursor h); lp_scanned_back_to := Some h |}
            else
              let '(batch, w) := take_batch (bd_parallel budget) w in
              let? (pending, bytes_used) := absorb f batch pending bytes_used in
              search_loop budget time_up db_up q f limit fuel (S round) w pending finals bytes_used
        end
  end.

(** [ChunkStore::search]; a round reads at least one candidate. *)
Definition search (budget : SearchBudget) (time_up db_up : nat -> bool) (q : SearchQuery) : result SearchError LogPage :=
  match validate q with
  | Err p => Err (InvalidQuery p)
  | Ok _ =>
      let f := compile is_whitespace (sq_lines q) in
      search_loop budget time_up db_up q f (Z.to_nat (q_limit (sq_lines q))) (length summaries + length rows + 1) 0
        {| wk_heads := head_candidates q f; wk_sealed := []; wk_sealed_exhausted := false; wk_sealed_cursor := None |} [] [] 0
  end.
End Search.
