(* ===== verification/SearchWalk.v ===== *)
(** * A page of a search is exact

    The order of log lines, and the invariant of the loop of [ChunkSearch]: the lines that were
    promoted and those that wait are the newest ones of every candidate read so far, in order, and
    what was promoted is newer than anything an unread candidate holds. *)

From S2P Require Import Prelude Bytes Utf8 ChunkBlock Bloom ChunkFile ChunkScan ChunkQuery ChunkSearch.
From stdpp Require Import sorting.
Local Open Scope Z_scope.

(** ** The order of keys *)

Lemma ascii_compare_N c d : Ascii.compare c d = N.compare (N_of_ascii c) (N_of_ascii d).
Proof. done. Qed.

Lemma string_compare_refl s : String.compare s s = Eq.
Proof. induction s as [|c s IH]; [done|]. cbn. by rewrite ascii_compare_N, N.compare_refl. Qed.

Lemma string_lt_trans a b c : String.compare a b = Lt -> String.compare b c = Lt -> String.compare a c = Lt.
Proof.
  revert b c. induction a as [|x a IH]; intros [|y b] [|z c]; cbn; try done. rewrite !ascii_compare_N.
  destruct (N.compare_spec (N_of_ascii x) (N_of_ascii y)) as [Hx|Hx|Hx]; try done.
  - rewrite Hx. destruct (N.compare_spec (N_of_ascii y) (N_of_ascii z)) as [Hy|Hy|Hy]; try done. apply IH.
  - intros _. destruct (N.compare_spec (N_of_ascii y) (N_of_ascii z)) as [Hy|Hy|Hy]; try done; intros _.
    + rewrite <- Hy. by rewrite (proj2 (N.compare_lt_iff _ _) Hx).
    + by rewrite (proj2 (N.compare_lt_iff _ _) (N.lt_trans _ _ _ Hx Hy)).
Qed.

Section Order.
Context `{ChronoLaws}.

Lemma dt_refl a : dt_leb a a = true.
Proof. by destruct (dt_le_total a a). Qed.

Lemma dt_ltb_spec a b : dt_ltb a b = true <-> dt_leb b a = false.
Proof. unfold dt_ltb. by rewrite negb_true_iff. Qed.

Lemma dt_lt_le a b : dt_ltb a b = true -> dt_leb a b = true.
Proof. rewrite dt_ltb_spec. destruct (dt_le_total a b); congruence. Qed.

Lemma dt_lt_le_trans a b c : dt_ltb a b = true -> dt_leb b c = true -> dt_ltb a c = true.
Proof.
  rewrite !dt_ltb_spec. intros Hab Hbc. destruct (dt_leb c a) eqn:Hca; [|done]. by rewrite (dt_le_trans _ _ _ Hbc Hca) in Hab.
Qed.

Lemma dt_le_lt_trans a b c : dt_leb a b = true -> dt_ltb b c = true -> dt_ltb a c = true.
Proof.
  rewrite !dt_ltb_spec. intros Hab Hbc. destruct (dt_leb c a) eqn:Hca; [|done]. by rewrite (dt_le_trans _ _ _ Hca Hab) in Hbc.
Qed.

Lemma dt_not_lt a b : dt_ltb a b = false <-> dt_leb b a = true.
Proof. unfold dt_ltb. by rewrite negb_false_iff. Qed.

(** The order of keys: by time, then by container, then by line. *)
Definition same_time (a b : DateTime) : Prop := dt_leb a b = true /\ dt_leb b a = true.

Lemma key_ltb_spec a b :
  key_ltb a b = true <->
  dt_ltb (k_timestamp a) (k_timestamp b) = true \/
  (same_time (k_timestamp a) (k_timestamp b) /\
   (String.compare (k_container_id a) (k_container_id b) = Lt \/
    (k_container_id a = k_container_id b /\ k_line_id a < k_line_id b))).
Proof.
  unfold key_ltb, dt_eqb, same_time. destruct (dt_leb (k_timestamp a) (k_timestamp b)) eqn:Hab.
  - destruct (dt_leb (k_timestamp b) (k_timestamp a)) eqn:Hba; cbn.
    + rewrite dt_ltb_spec, Hba. destruct (String.compare _ _) eqn:Hc.
      * apply String.compare_eq_iff in Hc as <-. rewrite Z.ltb_lt. naive_solver.
      * naive_solver.
      * split; [done|]. intros [|[_ [|[He _]]]]; [done|done|]. by rewrite He, string_compare_refl in Hc.
    + rewrite dt_ltb_spec, Hba. naive_solver.
  - cbn. rewrite dt_ltb_spec. naive_solver.
Qed.

Lemma key_irrefl a : key_ltb a a = false.
Proof.
  apply not_true_is_false. rewrite key_ltb_spec, dt_ltb_spec, dt_refl.
  intros [|[_ [Hc|[_ Hl]]]]; [done| |lia]. by rewrite string_compare_refl in Hc.
Qed.

Lemma key_trans a b c : key_ltb a b = true -> key_ltb b c = true -> key_ltb a c = true.
Proof.
  rewrite !key_ltb_spec. intros [Hab|[[Hab Hba] Hab']] [Hbc|[[Hbc Hcb] Hbc']].
  - left. by apply (dt_lt_le_trans _ (k_timestamp b)), dt_lt_le.
  - left. by apply (dt_lt_le_trans _ (k_timestamp b)).
  - left. by apply (dt_le_lt_trans _ (k_timestamp b)).
  - right. split; [split; by eapply dt_le_trans|]. destruct Hab' as [Hab'|[Eab Hab']], Hbc' as [Hbc'|[Ebc Hbc']].
    + left. by eapply string_lt_trans.
    + left. by rewrite <- Ebc.
    + left. by rewrite Eab.
    + right. split; [congruence|lia].
Qed.

Lemma key_time a b : key_ltb a b = true -> dt_leb (k_timestamp a) (k_timestamp b) = true.
Proof. rewrite key_ltb_spec. intros [?|[[? _] _]]; [by apply dt_lt_le|done]. Qed.

Lemma key_later a b : dt_ltb (k_timestamp a) (k_timestamp b) = true -> key_ltb a b = true.
Proof. rewrite key_ltb_spec. by left. Qed.

(** Either way around, or the same place. *)
Lemma key_cases a b c : key_ltb a c = true -> key_ltb a b = true \/ key_ltb b c = true.
Proof.
  rewrite !key_ltb_spec. intros Hac. destruct (dt_ltb (k_timestamp a) (k_timestamp b)) eqn:Hab; [by left; left|].
  apply dt_not_lt in Hab. destruct Hac as [Hac|[[Hac Hca] Hac']].
  { right. left. by apply (dt_le_lt_trans _ (k_timestamp a)). }
  destruct (dt_ltb (k_timestamp b) (k_timestamp c)) eqn:Hbc; [by right; left|]. apply dt_not_lt in Hbc.
  assert (same_time (k_timestamp a) (k_timestamp b)) as Sab by (split; [by eapply dt_le_trans|done]).
  assert (same_time (k_timestamp b) (k_timestamp c)) as Sbc by (split; [by eapply dt_le_trans|done]).
  destruct (String.compare (k_container_id a) (k_container_id b)) eqn:Cab.
  - apply String.compare_eq_iff in Cab. rewrite Cab in Hac'. destruct Hac' as [Hc|[Hc Hl]]; [right; right; by split; [|left]|].
    destruct (decide (k_line_id a < k_line_id b)); [left; right; by split; [|right]|right; right; split; [done|right; split; [done|lia]]].
  - left. right. by split; [|left].
  - assert (String.compare (k_container_id b) (k_container_id a) = Lt) as Cba by (rewrite String.compare_antisym, Cab; done).
    right. right. split; [done|]. left. destruct Hac' as [Hc|[Hc _]]; [by eapply string_lt_trans|by rewrite <- Hc].
Qed.
End Order.

(** ** Lists in order *)

Section Sorted.
Context {A : Type} (R : relation A) `{!Transitive R} (R_irrefl : forall x, ~ R x x).

#[local] Abbreviation comparable := (fun a b => R a b \/ R b a).

Lemma comparable_perm l l' : l ≡ₚ l' -> StronglySorted comparable l -> StronglySorted comparable l'.
Proof.
  assert (forall a b, comparable a b -> comparable b a) as Hsym by tauto.
  induction 1 as [|x l l' Hp IH|x y l|l1 l2 l3 _ IH1 _ IH2]; intros Hs; [done| | |by auto].
  - inversion_clear Hs as [|? ? Hs' Hf]. constructor; [by auto|]. by rewrite <- Hp.
  - inversion_clear Hs as [|? ? Hs' Hf]. inversion_clear Hs' as [|? ? Hs'' Hf']. inversion_clear Hf as [|? ? Hxy Hf''].
    rewrite !StronglySorted_cons. split_and!; [|done|done]. constructor; [tauto|done].
Qed.

Lemma sorted_asym x y : R x y -> ~ R y x.
Proof. intros Hxy Hyx. by apply (R_irrefl x), (transitivity Hxy). Qed.

Lemma sorted_NoDup l : StronglySorted R l -> NoDup l.
Proof.
  induction 1 as [|x l Hs IH Hf]; constructor; [|done]. intros Hx. rewrite list.Forall_forall in Hf. by apply (R_irrefl x), Hf.
Qed.

Lemma comparable_NoDup l : StronglySorted comparable l -> NoDup l.
Proof.
  induction 1 as [|x l Hs IH Hf]; constructor; [|done]. intros Hx. rewrite list.Forall_forall in Hf.
  by destruct (Hf x Hx) as [?%R_irrefl|?%R_irrefl].
Qed.

Lemma sorted_perm_eq l l' : l ≡ₚ l' -> StronglySorted R l -> StronglySorted R l' -> l = l'.
Proof.
  intros Hp Hl Hl'. apply (StronglySorted_unique_strong R); [|done|done|done].
  intros x y _ _ Hxy Hyx. by destruct (sorted_asym x y).
Qed.

(** What comes before the element at [i]. *)
Lemma sorted_before l i x K :
  StronglySorted R l -> l !! i = Some x -> NoDup K -> (forall k, k ∈ K -> k ∈ l /\ R k x) -> (length K <= i)%nat.
Proof.
  intros Hl Hx HK Hin. assert (length (take i l) = i) as <- by (rewrite length_take; apply lookup_lt_Some in Hx; lia).
  apply NoDup_ListNoDup in HK. apply NoDup_incl_length; [done|]. intros k Hk%list_elem_of_In. apply list_elem_of_In.
  destruct (Hin k Hk) as [Hkl HR]. pose proof (take_drop_middle l i x Hx) as Hm. rewrite <- Hm in Hl, Hkl.
  apply elem_of_app in Hkl as [|Hkl]; [done|]. exfalso.
  apply StronglySorted_app_1_r, StronglySorted_cons in Hl as [Hf _]. rewrite list.Forall_forall in Hf.
  apply elem_of_cons in Hkl as [->|Hkl]; [by apply (R_irrefl x)|]. by apply (sorted_asym k x HR), Hf.
Qed.

(** Enough of [K] is in [l] for it to be longer. *)
Lemma covered_length (K l : list A) : NoDup K -> (forall k, k ∈ K -> k ∈ l) -> (length K <= length l)%nat.
Proof.
  intros HK%NoDup_ListNoDup Hin. apply NoDup_incl_length; [done|]. intros k Hk%list_elem_of_In. apply list_elem_of_In. auto.
Qed.
End Sorted.

(** ** Lines and rows in order *)

Section Walk.
Context `{ChronoLaws} `{ZstdLaws} `{JsonLaws} `{!FooterJson} `{Crc32} `{Xxh3} `{Unicode} `{Memmem}.

#[export] Instance newer_trans : Transitive newer.
Proof. intros a b c. unfold newer. intros Hab Hbc. by eapply key_trans. Qed.

Lemma newer_irrefl r : ~ newer r r.
Proof. unfold newer. by rewrite key_irrefl. Qed.

#[export] Instance not_older_trans : Transitive not_older.
Proof.
  intros a b c. unfold not_older. intros Hab Hbc. apply not_true_is_false. intros Hac.
  destruct (key_cases _ (key b) _ Hac); congruence.
Qed.
#[export] Instance not_older_total : Total not_older.
Proof.
  intros a b. unfold not_older. destruct (key_ltb (key a) (key b)) eqn:Hab; [right|by left].
  apply not_true_is_false. intros Hba. pose proof (key_trans _ _ _ Hab Hba). by rewrite key_irrefl in *.
Qed.

(** Lines at different places. *)
Definition apart (ls : list LogLineRecord) : Prop := StronglySorted (fun a b => newer a b \/ newer b a) ls.

Lemma apart_perm l l' : l ≡ₚ l' -> apart l -> apart l'.
Proof. apply comparable_perm. Qed.

Lemma apart_sorted ls : apart ls -> StronglySorted not_older ls -> StronglySorted newer ls.
Proof.
  unfold apart. induction ls as [|x ls IH]; [constructor|]. rewrite !StronglySorted_cons, !list.Forall_forall. intros [Ha Hs] [Hn Hs'].
  split; [|by auto]. intros y Hy. destruct (Ha y Hy) as [|Hyx]; [done|]. pose proof (Hn y Hy) as Hxy. unfold newer, not_older in *. congruence.
Qed.

Lemma sort_newer ls : apart ls -> StronglySorted newer (merge_sort not_older ls).
Proof.
  intros Ha. apply apart_sorted; [|apply (StronglySorted_merge_sort not_older)].
  eapply apart_perm; [symmetry; apply (merge_sort_Permutation not_older)|done].
Qed.

(** Rows in the order of the manifest. *)
Definition row_before (a b : Row) : Prop := comes_before (rw_ended_at a) (rw_id a) (rw_ended_at b) (rw_id b) = true.

Lemma comes_before_spec t i t' i' :
  comes_before t i t' i' = true <-> dt_ltb t' t = true \/ (same_time t t' /\ i' < i).
Proof.
  unfold comes_before, dt_eqb, same_time. destruct (dt_leb t t') eqn:Ha; cbn.
  - rewrite dt_ltb_spec, Ha. destruct (dt_leb t' t) eqn:Hb; cbn.
    + rewrite Z.ltb_lt. split; [auto|]. by intros [|[_ ?]].
    + rewrite dt_ltb_spec, Ha. split; [done|]. by intros [|[[_ ?] _]].
  - rewrite !dt_ltb_spec, Ha. split; [auto|]. by intros [|[[? _] _]].
Qed.

Lemma row_before_irrefl r : ~ row_before r r.
Proof. unfold row_before. rewrite comes_before_spec, dt_ltb_spec, dt_refl. intros [|[_ ?]]; [done|lia]. Qed.

#[export] Instance row_before_trans : Transitive row_before.
Proof.
  intros a b c. unfold row_before. rewrite !comes_before_spec. intros [Hab|[[Hab Hba] Hi]] [Hbc|[[Hbc Hcb] Hj]].
  - left. apply (dt_lt_le_trans _ (rw_ended_at b)); [done|by apply dt_lt_le].
  - left. by apply (dt_le_lt_trans _ (rw_ended_at b)).
  - left. by apply (dt_lt_le_trans _ (rw_ended_at b)).
  - right. split; [split; by eapply dt_le_trans|lia].
Qed.

Lemma row_le_spec a b : row_le a b <-> ~ row_before b a.
Proof. unfold row_le, row_before. by rewrite not_true_iff_false. Qed.

Lemma row_before_cases a b : rw_id a <> rw_id b -> row_before a b \/ row_before b a.
Proof.
  intros Hne. unfold row_before. rewrite !comes_before_spec. unfold same_time.
  destruct (dt_ltb (rw_ended_at b) (rw_ended_at a)) eqn:Hab; [by left; left|].
  destruct (dt_ltb (rw_ended_at a) (rw_ended_at b)) eqn:Hba; [by right; left|]. apply dt_not_lt in Hab, Hba.
  destruct (decide (rw_id b < rw_id a)); [left; right; auto|right; right; split; [auto|lia]].
Qed.

#[export] Instance row_le_total : Total row_le.
Proof.
  intros a b. rewrite !row_le_spec. destruct (decide (rw_id a = rw_id b)) as [He|Hne].
  - unfold row_before. rewrite !comes_before_spec, He. destruct (dt_le_total (rw_ended_at a) (rw_ended_at b)) as [Hl|Hl]; [right|left];
      rewrite dt_ltb_spec, Hl; intros [|[_ ?]]; (done || lia).
  - destruct (row_before_cases a b Hne) as [Hb|Hb]; [left|right]; intros Hx; by apply (row_before_irrefl _ (transitivity Hb Hx)).
Qed.

#[export] Instance row_le_transitive : Transitive row_le.
Proof.
  intros a b c Hab Hbc. rewrite row_le_spec in *. intros Hca. apply Hbc. clear Hbc. revert Hca Hab. unfold row_before.
  rewrite !comes_before_spec. intros [Hca|[[Hca Hac] Hi]] Hab.
  - left. destruct (dt_ltb (rw_ended_at b) (rw_ended_at c)) eqn:Hx; [done|]. apply dt_not_lt in Hx. exfalso. apply Hab.
    left. by apply (dt_lt_le_trans _ (rw_ended_at c)).
  - destruct (dt_ltb (rw_ended_at b) (rw_ended_at c)) eqn:Hx; [by left|right]. apply dt_not_lt in Hx.
    assert (dt_leb (rw_ended_at b) (rw_ended_at c) = true) as Hy.
    { destruct (dt_leb (rw_ended_at b) (rw_ended_at c)) eqn:Hy; [done|]. exfalso. apply Hab. left. apply dt_ltb_spec.
      destruct (dt_leb (rw_ended_at b) (rw_ended_at a)) eqn:Hz; [|done]. by rewrite (dt_le_trans _ _ _ Hz Hac) in Hy. }
    split; [by split|]. destruct (decide (rw_id b < rw_id c)); [done|]. exfalso. apply Hab. right. split; [|lia].
    split; by eapply dt_le_trans.
Qed.

Lemma sort_rows l : NoDup (map rw_id l) -> StronglySorted row_before (merge_sort row_le l).
Proof.
  intros Hid. assert (StronglySorted row_le (merge_sort row_le l)) as Hs by apply (StronglySorted_merge_sort row_le).
  rewrite <- (merge_sort_Permutation row_le l) in Hid. revert Hid Hs. generalize (merge_sort row_le l). clear l.
  induction l as [|x l IH]; [constructor|]. cbn [map]. rewrite NoDup_cons, !StronglySorted_cons, !list.Forall_forall. intros [Hx Hid] [Hf Hs].
  split; [|by auto]. intros y Hy. destruct (row_before_cases x y) as [|Hyx]; [|done|].
  - intros He. apply Hx. rewrite He. by apply list_elem_of_fmap_2.
  - exfalso. by apply (proj1 (row_le_spec _ _) (Hf y Hy)).
Qed.

Lemma filter_all {A} (p : A -> bool) l : (forall x, x ∈ l -> p x = true) -> List.filter p l = l.
Proof.
  induction l as [|x l IH]; [done|]. intros Hp. cbn. rewrite (Hp x) by apply list_elem_of_here. f_equal. apply IH.
  intros y Hy. apply Hp. by apply list_elem_of_further.
Qed.

Lemma filter_none {A} (p : A -> bool) l : (forall x, x ∈ l -> p x = false) -> List.filter p l = [].
Proof.
  induction l as [|x l IH]; [done|]. intros Hp. cbn. rewrite (Hp x) by apply list_elem_of_here. apply IH.
  intros y Hy. apply Hp. by apply list_elem_of_further.
Qed.

Lemma filter_and {A} (p r : A -> bool) l : List.filter (fun x => p x && r x) l = List.filter r (List.filter p l).
Proof. induction l as [|x l IH]; [done|]. cbn. destruct (p x) eqn:Hp; cbn; [|done]. by rewrite IH. Qed.

(** ** The walk *)

Context {AttrPredicate : Type} (attr_matches : AttrPredicate -> option Value -> bool) (is_whitespace : Z -> bool)
  (log_line_from_str : list Z -> option LogLine)
  (read_range : string -> Z -> Z -> result ScanError (list Z)) (read_whole : string -> result ScanError (list Z)).
Context (summaries : list ChunkLabels) (snapshot : string -> option HeadSnapshot) (rows : list Row).
Hypothesis rows_ids : NoDup (map rw_id rows).

#[local] Abbreviation scan := (scan attr_matches is_whitespace log_line_from_str read_range read_whole snapshot).
#[local] Abbreviation absorb := (absorb attr_matches is_whitespace log_line_from_str read_range read_whole snapshot).
#[local] Abbreviation search_loop := (search_loop attr_matches is_whitespace log_line_from_str read_range read_whole snapshot rows).

Context (q : SearchQuery (AttrPredicate := AttrPredicate)) (f : LineFilter (AttrPredicate := AttrPredicate)) (budget : SearchBudget).
Hypothesis batch_pos : (0 < bd_batch budget)%nat.

(** The rows of the manifest the search reads, and all candidates. *)
Definition chosen_rows : list Row := merge_sort row_le (List.filter (where_holds (build_conditions q (lf_end f) true)) rows).
Definition all_candidates : list Candidate := head_candidates summaries q f ++ map Sealed chosen_rows.

Lemma NoDup_filter_map {A B} (g : A -> B) p l : NoDup (map g l) -> NoDup (map g (List.filter p l)).
Proof.
  induction l as [|x l IH]; [done|]. cbn. rewrite NoDup_cons. intros [Hx Hl]. destruct (p x); [|by auto]. cbn.
  rewrite NoDup_cons. split; [|by auto]. intros Hin. apply Hx. apply list_elem_of_fmap in Hin as (y & -> & Hy).
  apply list_elem_of_fmap_2. apply list_elem_of_In, List.filter_In in Hy as [Hy _]. by apply list_elem_of_In.
Qed.

Lemma chosen_sorted : StronglySorted row_before chosen_rows.
Proof. by apply sort_rows, NoDup_filter_map. Qed.

Definition cursor_of (popped : list Row) : option ManifestCursor :=
  (fun r => {| mc_ended_at := rw_ended_at r; mc_id := rw_id r |}) <$> list.last popped.

(** The rows behind those that were popped. *)
Lemma candidates_behind popped unfetched n :
  chosen_rows = popped ++ unfetched -> candidates rows q (lf_end f) (cursor_of popped) n = take n unfetched.
Proof.
  intros Hc. unfold candidates. f_equal. destruct (list.last popped) as [r|] eqn:Hl; unfold cursor_of; rewrite Hl; cbn [fmap option_fmap option_map].
  2:{ apply last_None in Hl as ->. rewrite app_nil_r. exact Hc. }
  apply list.last_Some in Hl as [before ->]. set (c := {| mc_ended_at := _; mc_id := _ |}).
  pose proof chosen_sorted as Hs. apply (sorted_perm_eq row_before row_before_irrefl).
  2:{ apply sort_rows. by apply NoDup_filter_map. }
  2:{ rewrite Hc in Hs. by apply StronglySorted_app_1_r in Hs. }
  rewrite (merge_sort_Permutation row_le).
  transitivity (List.filter (where_holds [cursor_condition c]) chosen_rows).
  { unfold chosen_rows. rewrite (filter_perm _ _ _ (merge_sort_Permutation row_le _)), <- filter_and.
    erewrite List.filter_ext; [reflexivity|]. intros x. apply where_holds_app. }
  assert (forall x, where_holds [cursor_condition c] x = true <-> row_before r x) as Hcur.
  { intros x. rewrite where_holds_cons, where_holds_nil, andb_true_r, bool_decide_eq_true. unfold cursor_condition, row_before. cbn.
    by split; [intros [= ?]|intros ->]. }
  rewrite Hc in *. rewrite List.filter_app. apply StronglySorted_app in Hs as (Hx & Hp & _).
  rewrite (filter_none _ (before ++ [r])), (filter_all _ unfetched); [done| |].
  - intros x Hxu. apply Hcur, Hx; [|done]. apply elem_of_app. right. by apply list_elem_of_singleton.
  - intros x Hxp. apply not_true_is_false. rewrite Hcur. intros Hrx. apply elem_of_app in Hxp as [Hxb| ->%list_elem_of_singleton].
    + apply StronglySorted_app in Hp as (Hb & _ & _). apply (row_before_irrefl r), (transitivity Hrx), Hb; [done|by apply list_elem_of_singleton].
    + by apply (row_before_irrefl r).
Qed.

(** Candidates whose newest line is older and older. *)
Definition ends_later (a b : Candidate) : Prop := dt_leb (ended_at b) (ended_at a) = true.

(** Where a walk stands: what it has popped of the rows, and what is still to be read. *)
Record walk_at (w : Walk) (todo : list Candidate) : Prop := {
  wa_heads : StronglySorted ends_later (wk_heads w);
  wa_rows : exists popped unfetched, chosen_rows = popped ++ wk_sealed w ++ unfetched /\
    wk_sealed_cursor w = cursor_of popped /\ (wk_sealed_exhausted w = true -> unfetched = []) /\
    todo ≡ₚ wk_heads w ++ map Sealed (wk_sealed w ++ unfetched)
}.

Lemma rows_end_later a b : row_before a b -> ends_later (Sealed a) (Sealed b).
Proof. unfold row_before, ends_later, ended_at. cbn. rewrite comes_before_spec. intros [?%dt_lt_le|[[_ ?] _]]; done. Qed.

Lemma refill_at db_up round w todo :
  walk_at w todo -> db_up round = true ->
  exists w', refill rows budget db_up q f round w = Ok w' /\ walk_at w' todo /\
    match next_ended_at w' with
    | None => todo = []
    | Some h => (exists c, c ∈ todo /\ ended_at c = h) /\ forall c, c ∈ todo -> dt_leb (ended_at c) h = true
    end.
Proof.
  intros [Hh (popped & unfetched & Hc & Hcur & Hex & Htodo)] Hdb.
  assert (exists w', refill rows budget db_up q f round w = Ok w' /\ wk_heads w' = wk_heads w /\
    exists unfetched', wk_sealed w' ++ unfetched' = wk_sealed w ++ unfetched /\ wk_sealed_cursor w' = wk_sealed_cursor w /\
      (wk_sealed_exhausted w' = true -> unfetched' = []) /\ (wk_sealed w' = [] -> unfetched' = [])) as
    (w' & -> & Eh & unfetched' & Es & Ec & Ex & En).
  { unfold refill. destruct (wk_sealed w) as [|s sealed] eqn:Hs; [|exists w; split_and!; [done|done|]; exists unfetched; by rewrite Hs].
    destruct (wk_sealed_exhausted w) eqn:Hx; [exists w; split_and!; [done|done|]; exists unfetched; rewrite Hs; split_and!; auto|].
    rewrite Hdb. cbn [negb]. eexists. split; [done|]. split; [done|]. cbn [wk_sealed wk_sealed_cursor wk_sealed_exhausted].
    unfold sealed_batch. rewrite Hcur, (candidates_behind popped unfetched) by done.
    exists (drop (bd_batch budget) unfetched). rewrite take_drop. split_and!; [done|done| |].
    - intros Hl%Nat.ltb_lt. rewrite length_take in Hl. apply drop_ge. lia.
    - intros Hn. apply drop_ge. destruct unfetched; [cbn; lia|]. by destruct (bd_batch budget); [lia|]. }
  exists w'. split; [done|]. assert (todo ≡ₚ wk_heads w' ++ map Sealed (wk_sealed w' ++ unfetched')) as Ht by by rewrite Eh, Es.
  split; [split; [by rewrite Eh|exists popped, unfetched'; split_and!; [by rewrite Es|congruence|done|done]]|].
  pose proof chosen_sorted as Hsrt. rewrite Hc, <- Es in Hsrt. apply StronglySorted_app_1_r in Hsrt. rewrite <- Eh in Hh.
  assert (forall h heads, wk_heads w' = h :: heads -> forall c, c ∈ wk_heads w' -> dt_leb (ended_at c) (ended_at h) = true) as Hmh.
  { intros h heads He c. rewrite He in *. apply StronglySorted_cons in Hh as [Hf _]. rewrite list.Forall_forall in Hf.
    intros [-> | Hin]%elem_of_cons; [apply dt_refl|by apply Hf]. }
  assert (forall s sealed, wk_sealed w' = s :: sealed ->
    forall c, c ∈ map Sealed (wk_sealed w' ++ unfetched') -> dt_leb (ended_at c) (rw_ended_at s) = true) as Hms.
  { intros s sealed He c (r & -> & Hr)%list_elem_of_fmap. rewrite He, <- app_comm_cons in *. apply StronglySorted_cons in Hsrt as [Hf _].
    rewrite list.Forall_forall in Hf. apply elem_of_cons in Hr as [-> | Hr]; [apply dt_refl|by apply (rows_end_later s r), Hf]. }
  unfold next_ended_at. destruct (wk_heads w') as [|h heads] eqn:Ehd, (wk_sealed w') as [|s sealed] eqn:Esd; cbn [head option_map].
  - rewrite (En eq_refl) in Ht. by apply Permutation_nil_r in Ht.
  - split; [exists (Sealed s); split; [rewrite Ht; apply list_elem_of_here|done]|].
    intros c. rewrite Ht, app_nil_l. apply (Hms _ _ eq_refl).
  - rewrite (En eq_refl) in Ht. cbn in Ht. rewrite app_nil_r in Ht. split; [exists h; split; [rewrite Ht; apply list_elem_of_here|done]|].
    intros c. rewrite Ht. apply (Hmh _ _ eq_refl).
  - specialize (Hmh _ _ eq_refl). specialize (Hms _ _ eq_refl). destruct (dt_leb (ended_at h) (rw_ended_at s)) eqn:Hle.
    + split; [exists (Sealed s); split; [rewrite Ht; apply elem_of_app; right; apply list_elem_of_here|done]|].
      intros c. rewrite Ht, elem_of_app. intros [Hin|Hin]; [by eapply dt_le_trans; [apply Hmh|]|by apply Hms].
    + assert (dt_leb (rw_ended_at s) (ended_at h) = true) as Hge by (apply dt_lt_le, dt_ltb_spec; done).
      split; [exists h; split; [rewrite Ht; apply list_elem_of_here|done]|].
      intros c. rewrite Ht, elem_of_app. intros [Hin|Hin]; [by apply Hmh|by eapply dt_le_trans; [apply Hms|]].
Qed.

Lemma pop_at w todo c w' :
  walk_at w todo -> pop w = (Some c, w') -> exists todo', todo ≡ₚ c :: todo' /\ walk_at w' todo'.
Proof.
  intros [Hh (popped & unfetched & Hc & Hcur & Hex & Htodo)]. unfold pop.
  destruct (match wk_heads w with [] => false | _ => _ end) eqn:Htake.
  - destruct (wk_heads w) as [|h heads] eqn:Ehd; [done|]. intros [= <- <-].
    exists (heads ++ map Sealed (wk_sealed w ++ unfetched)). split; [done|]. split; cbn.
    + by apply StronglySorted_cons in Hh as [_ ?].
    + exists popped, unfetched. done.
  - clear Htake. destruct (wk_sealed w) as [|s sealed] eqn:Esd; [done|]. intros [= <- <-].
    exists (wk_heads w ++ map Sealed (sealed ++ unfetched)). split; [rewrite Htodo; cbn; by rewrite Permutation_middle|]. split; cbn; [done|].
    exists (popped ++ [s]), unfetched. split_and!; [by rewrite <- app_assoc|unfold cursor_of; by rewrite last_snoc|done|done].
Qed.

Lemma take_batch_at n w todo batch w' :
  walk_at w todo -> take_batch n w = (batch, w') -> exists todo', todo ≡ₚ batch ++ todo' /\ walk_at w' todo'.
Proof.
  revert w todo batch w'. induction n as [|n IH]; intros w todo batch w' Hw; cbn; [intros [= <- <-]; by exists todo|].
  destruct (pop w) as [[c|] w1] eqn:Hp.
  - destruct (take_batch n w1) as [b1 w2] eqn:Hb. intros [= <- <-]. destruct (pop_at _ _ _ _ Hw Hp) as (todo1 & Hp1 & Hw1).
    destruct (IH _ _ _ _ Hw1 Hb) as (todo2 & Hp2 & Hw2). exists todo2. split; [|done]. rewrite Hp1, Hp2. done.
  - intros [= <- <-]. unfold pop in Hp. exists todo. split; [done|]. repeat case_match; simplify_eq; done.
Qed.

Lemma take_batch_progress n w h batch w' :
  (0 < n)%nat -> next_ended_at w = Some h -> take_batch n w = (batch, w') -> batch <> [].
Proof.
  intros Hn Hh. destruct n as [|n]; [lia|]. cbn. unfold pop, next_ended_at in *.
  destruct (wk_heads w) as [|c heads], (wk_sealed w) as [|s sealed]; cbn in *; try done;
    repeat (case_match; simplify_eq; try done); by intros [= <- <-].
Qed.

(** ** The lines *)

(** The matches of a candidate, in the order of the candidate, and the newest of them. *)
Context (records : Candidate -> list LogLineRecord).
Definition kept (c : Candidate) : list LogLineRecord := keep_newest (lf_limit f) (records c).
Definition passed_over (c : Candidate) : list LogLineRecord := take (length (records c) - lf_limit f) (records c).

Hypothesis scan_kept : forall c, c ∈ all_candidates ->
  exists ms bytes, scan c f = Ok {| cs_matches := ms; cs_bytes := bytes |} /\ ms ≡ₚ kept c.
Hypothesis records_sorted : forall c, c ∈ all_candidates -> StronglySorted (flip newer) (records c).
Hypothesis records_end : forall c r, c ∈ all_candidates -> r ∈ records c -> dt_leb (r_timestamp r) (ended_at c) = true.
Hypothesis all_apart : apart (flat_map records all_candidates).

Lemma elem_of_flat {A B} (g : A -> list B) l y : y ∈ flat_map g l <-> exists x, x ∈ l /\ y ∈ g x.
Proof. rewrite list_elem_of_In, List.in_flat_map. by setoid_rewrite list_elem_of_In. Qed.

Lemma split_kept c : records c = passed_over c ++ kept c.
Proof. unfold passed_over, kept. by rewrite keep_newest_drop, take_drop. Qed.

Lemma elem_of_kept c r : r ∈ kept c -> r ∈ records c.
Proof. rewrite split_kept. rewrite elem_of_app. by right. Qed.

Lemma elem_of_records c r : r ∈ records c -> r ∈ passed_over c \/ r ∈ kept c.
Proof. rewrite split_kept at 1. by rewrite elem_of_app. Qed.

(** A line that was passed over has a full page of newer lines in its own candidate. *)
Lemma passed_over_full c r :
  c ∈ all_candidates -> r ∈ passed_over c -> length (kept c) = lf_limit f /\ forall k, k ∈ kept c -> newer k r.
Proof.
  intros Hc Hr. split.
  - unfold kept. rewrite length_keep_newest. unfold passed_over in Hr.
    destruct (decide (length (records c) <= lf_limit f)%nat); [|lia]. replace (length (records c) - lf_limit f)%nat with 0%nat in Hr by lia.
    by apply elem_of_nil in Hr.
  - intros k Hk. pose proof (records_sorted c Hc) as Hs. rewrite split_kept in Hs.
    exact (StronglySorted_app_1_elem_of _ _ _ _ _ Hs Hr Hk).
Qed.

(** Candidates read and to be read, lines waiting and lines promoted. *)
Record page_at (read todo : list Candidate) (pending finals : list LogLineRecord) : Prop := {
  pa_all : all_candidates ≡ₚ read ++ todo;
  pa_lines : finals ++ pending ≡ₚ flat_map kept read;
  pa_sorted : StronglySorted newer (finals ++ pending);
  pa_final x c : x ∈ finals -> c ∈ todo -> dt_ltb (ended_at c) (r_timestamp x) = true
}.

Lemma all_elem read todo pending finals c : page_at read todo pending finals -> c ∈ read ++ todo -> c ∈ all_candidates.
Proof. intros Hp Hc. by rewrite (pa_all _ _ _ _ Hp). Qed.

Lemma apart_read read todo pending finals : page_at read todo pending finals -> apart (flat_map records (read ++ todo)).
Proof. intros Hp. eapply apart_perm; [|exact all_apart]. apply Permutation_flat_map, (pa_all _ _ _ _ Hp). Qed.

Lemma kept_NoDup c : c ∈ all_candidates -> NoDup (kept c).
Proof.
  intros Hc. pose proof (records_sorted c Hc) as Hs. rewrite split_kept in Hs. apply StronglySorted_app_1_r in Hs.
  eapply (sorted_NoDup (flip newer)); [|exact Hs]. intros x. apply newer_irrefl.
Qed.

Lemma elem_of_pending read todo pending finals c k :
  page_at read todo pending finals -> c ∈ read -> k ∈ kept c -> k ∈ finals ++ pending.
Proof. intros Hp Hc Hk. rewrite (pa_lines _ _ _ _ Hp). apply elem_of_flat. by exists c. Qed.

Lemma promote_spec horizon limit pending finals pending' finals' :
  promote horizon limit pending finals = (pending', finals') -> (length finals < limit)%nat ->
  finals' ++ pending' = finals ++ pending /\ (length finals' <= limit)%nat /\
  (forall x, x ∈ finals' -> x ∈ finals \/ match horizon with None => True | Some h => dt_ltb h (r_timestamp x) = true end) /\
  ((length finals' < limit)%nat -> match horizon with
                                  | None => pending' = []
                                  | Some h => forall x, head pending' = Some x -> dt_leb (r_timestamp x) h = true
                                  end).
Proof.
  revert finals. induction pending as [|top rest IH]; intros finals; cbn.
  { intros [= <- <-] Hl. split_and!; [done|lia|auto|]. by destruct horizon. }
  destruct (match horizon with None => true | Some h => dt_ltb h (r_timestamp top) end) eqn:Hf.
  2:{ intros [= <- <-] Hl. split_and!; [done|lia|auto|]. intros _. destruct horizon as [h|]; [|done]. intros x [= <-]. by apply dt_not_lt. }
  assert (match horizon with None => True | Some h => dt_ltb h (r_timestamp top) = true end) as Hf' by by destruct horizon.
  destruct (Nat.leb_spec limit (length (finals ++ [top]))) as [Hlen|Hlen]; rewrite length_app in Hlen; cbn in Hlen.
  - intros [= <- <-] Hl. rewrite <- app_assoc. split_and!; [done|rewrite length_app; cbn; lia| |rewrite length_app; cbn; lia].
    intros x. rewrite elem_of_app, list_elem_of_singleton. intros [?| ->]; auto.
  - intros Hp Hl. destruct (IH _ Hp) as (He & Hle & Hfin & Hrest); [rewrite length_app; cbn; lia|].
    rewrite <- app_assoc in He. split_and!; [done|done| |done].
    intros x Hx. destruct (Hfin x Hx) as [Hx'|]; [|auto]. rewrite elem_of_app, list_elem_of_singleton in Hx'.
    destruct Hx' as [?| ->]; auto.
Qed.

(** Everything that has not been promoted. *)
Definition behind (read todo : list Candidate) (pending : list LogLineRecord) : list LogLineRecord :=
  pending ++ flat_map passed_over read ++ flat_map records todo.

Lemma flat_map_kept l : flat_map records l ≡ₚ flat_map kept l ++ flat_map passed_over l.
Proof.
  induction l as [|c l IH]; [done|]. cbn. rewrite IH, (split_kept c).
  rewrite <- !app_assoc. rewrite (Permutation_app_comm (passed_over c)), <- !app_assoc. apply Permutation_app_head.
  rewrite (Permutation_app_comm (flat_map passed_over l)), (Permutation_app_comm (flat_map kept l)), <- !app_assoc. done.
Qed.

Lemma universe_split read todo pending finals :
  page_at read todo pending finals -> flat_map records all_candidates ≡ₚ finals ++ behind read todo pending.
Proof.
  intros Hp. rewrite (Permutation_flat_map records (pa_all _ _ _ _ Hp)), flat_map_app, flat_map_kept, <- (pa_lines _ _ _ _ Hp).
  unfold behind. by rewrite <- !app_assoc.
Qed.

Lemma promoted_newer read todo pending finals x y :
  page_at read todo pending finals -> (length finals <= lf_limit f)%nat -> x ∈ finals -> y ∈ behind read todo pending -> newer x y.
Proof.
  intros Hp Hlen Hx Hy. pose proof (apart_perm _ _ (universe_split _ _ _ _ Hp) all_apart) as Ha.
  pose proof (StronglySorted_app_1_elem_of _ _ _ _ _ Ha Hx Hy) as Hxy. unfold behind in Hy.
  rewrite !elem_of_app, !elem_of_flat in Hy. destruct Hy as [Hy|[(c & Hc & Hy)|(c & Hc & Hy)]].
  - exact (StronglySorted_app_1_elem_of _ _ _ _ _ (pa_sorted _ _ _ _ Hp) Hx Hy).
  - destruct Hxy as [|Hyx]; [done|]. exfalso. assert (c ∈ all_candidates) as Hall.
    { eapply all_elem; [exact Hp|]. apply elem_of_app. by left. }
    destruct (passed_over_full c y Hall Hy) as [Hfull Hk]. apply list_elem_of_lookup in Hx as (i & Hx).
    assert (length (kept c) <= i)%nat; [|apply lookup_lt_Some in Hx; lia].
    apply (sorted_before newer newer_irrefl (finals ++ pending) i x); [apply Hp|by apply lookup_app_l_Some|by apply kept_NoDup|].
    intros k Hkc. split; [by eapply elem_of_pending|]. etrans; [by apply Hk|done].
  - apply key_later. cbn. eapply dt_le_lt_trans; [apply records_end; [|exact Hy]|by eapply pa_final].
    eapply all_elem; [exact Hp|]. apply elem_of_app. by right.
Qed.

(** Behind a page that is not full: nothing, or nothing newer than the horizon. *)
Lemma behind_old read todo pending finals h y :
  page_at read todo pending finals -> (length finals < lf_limit f)%nat ->
  (forall x, head pending = Some x -> dt_leb (r_timestamp x) h = true) -> (forall c, c ∈ todo -> dt_leb (ended_at c) h = true) ->
  y ∈ behind read todo pending -> dt_leb (r_timestamp y) h = true.
Proof.
  intros Hp Hlen Hhead Htodo Hy. assert (forall x, x ∈ pending -> dt_leb (r_timestamp x) h = true) as Hpend.
  { pose proof (StronglySorted_app_1_r _ _ _ (pa_sorted _ _ _ _ Hp)) as Hs. destruct pending as [|top rest]; [by intros x ?%elem_of_nil|].
    specialize (Hhead top eq_refl). apply StronglySorted_cons in Hs as [Hs _]. rewrite list.Forall_forall in Hs.
    intros x [->|Hx]%elem_of_cons; [done|]. eapply dt_le_trans; [|exact Hhead]. apply (key_time (key x) (key top)), Hs, Hx. }
  unfold behind in Hy. rewrite !elem_of_app, !elem_of_flat in Hy. destruct Hy as [Hy|[(c & Hc & Hy)|(c & Hc & Hy)]].
  - by apply Hpend.
  - assert (c ∈ all_candidates) as Hall by (eapply all_elem; [exact Hp|]; apply elem_of_app; by left).
    destruct (passed_over_full c y Hall Hy) as [Hfull Hk].
    destruct (existsb (fun k => dt_leb (r_timestamp k) h) (kept c)) eqn:Hex.
    + apply existsb_exists in Hex as (k & Hkin%list_elem_of_In & Hkh). eapply dt_le_trans; [|exact Hkh].
      apply (key_time (key y) (key k)), Hk, Hkin.
    + exfalso. assert (length (kept c) <= length finals)%nat; [|lia]. apply covered_length; [by apply kept_NoDup|].
      intros k Hkc. destruct (proj1 (elem_of_app _ _ _) (elem_of_pending _ _ _ _ _ _ Hp Hc Hkc)) as [|Hkp%Hpend]; [done|].
      apply not_true_iff_false in Hex. destruct Hex. apply existsb_exists. exists k. split; [by apply list_elem_of_In|done].
  - eapply dt_le_trans; [apply records_end; [|exact Hy]|by apply Htodo]. eapply all_elem; [exact Hp|]. apply elem_of_app. by right.
Qed.

Lemma behind_nothing read pending finals :
  page_at read [] pending finals -> (length finals < lf_limit f)%nat -> pending = [] -> behind read [] pending = [].
Proof.
  intros Hp Hlen ->. unfold behind. cbn. rewrite app_nil_r.
  destruct (flat_map passed_over read) as [|y ys] eqn:He; [done|]. exfalso.
  assert (y ∈ flat_map passed_over read) as Hy by (rewrite He; apply list_elem_of_here). apply elem_of_flat in Hy as (c & Hc & Hy).
  assert (c ∈ all_candidates) as Hall by (eapply all_elem; [exact Hp|]; apply elem_of_app; by left).
  destruct (passed_over_full c y Hall Hy) as [Hfull Hk]. assert (length (kept c) <= length finals)%nat; [|lia].
  apply covered_length; [by apply kept_NoDup|]. intros k Hkc. pose proof (elem_of_pending _ _ _ _ _ _ Hp Hc Hkc) as Hin.
  by rewrite app_nil_r in Hin.
Qed.

Lemma apart_submseteq l l' : l ⊆+ l' -> apart l' -> apart l.
Proof.
  intros (k & Hk)%submseteq_Permutation Ha. apply (apart_perm _ _ Hk) in Ha. by apply StronglySorted_app in Ha as (_ & ? & _).
Qed.

Lemma absorb_at batch read todo pending finals bytes :
  page_at read (batch ++ todo) pending finals ->
  exists pending' bytes', absorb f batch pending bytes = Ok (pending', bytes') /\ page_at (read ++ batch) todo pending' finals.
Proof.
  revert read pending bytes. induction batch as [|c batch IH]; intros read pending bytes Hp; cbn.
  { exists pending, bytes. split; [done|]. by rewrite app_nil_r. }
  assert (c ∈ all_candidates) as Hall by (eapply all_elem; [exact Hp|]; apply elem_of_app; right; apply list_elem_of_here).
  destruct (scan_kept c Hall) as (ms & n & -> & Hms). cbn. set (pending1 := merge_sort not_older (pending ++ ms)).
  assert (pending1 ≡ₚ pending ++ ms) as Hp1 by apply (merge_sort_Permutation not_older).
  destruct (IH (read ++ [c]) pending1 (wrap 64 (bytes + n))) as (pending' & bytes' & Hrun & Hp').
  2:{ exists pending', bytes'. split; [done|]. by rewrite <- app_assoc in Hp'. }
  pose proof (universe_split _ _ _ _ Hp) as Hu. destruct Hp as [Hpa Hpl Hps Hpf]. split.
  - by rewrite Hpa, <- app_assoc.
  - rewrite Hp1, app_assoc, Hpl, flat_map_app. cbn. by rewrite app_nil_r, Hms.
  - apply StronglySorted_app_2.
    + intros x y Hx. rewrite Hp1, elem_of_app. intros [Hy|Hy].
      { exact (StronglySorted_app_1_elem_of _ _ _ _ _ Hps Hx Hy). }
      rewrite Hms in Hy. apply key_later. eapply dt_le_lt_trans; [apply records_end; [exact Hall|by apply elem_of_kept]|].
      apply Hpf; [done|apply list_elem_of_here].
    + by apply StronglySorted_app in Hps as (_ & ? & _).
    + apply sort_newer. eapply apart_submseteq; [|exact all_apart]. rewrite Hu. unfold behind. cbn.
      apply submseteq_inserts_l, submseteq_app; [done|]. apply submseteq_inserts_l, submseteq_inserts_r.
      rewrite Hms, (split_kept c). by apply submseteq_inserts_l.
  - intros x c' Hx Hc'. apply Hpf; [done|]. by apply list_elem_of_further.
Qed.

(** ** A page *)

(** The page is the newest lines of the universe; the rest is what the cursor leads to. *)
Definition page_of (universe : list LogLineRecord) (page : LogPage) : Prop :=
  exists rest, universe ≡ₚ lp_lines page ++ rest /\ StronglySorted newer (lp_lines page) /\
    (forall x y, x ∈ lp_lines page -> y ∈ rest -> newer x y) /\
    match lp_next_cursor page, lp_scanned_back_to page with
    | None, _ => rest = [] /\ lp_scanned_back_to page = None
    | Some k, None => length (lp_lines page) = lf_limit f /\ exists r, list.last (lp_lines page) = Some r /\ k = key r
    | Some k, Some h => k = resume_cursor h /\ dt_ltb h (lf_end f) = true /\ (exists c, c ∈ all_candidates /\ ended_at c = h) /\
        (forall x, x ∈ lp_lines page -> dt_ltb h (r_timestamp x) = true) /\ (forall y, y ∈ rest -> dt_leb (r_timestamp y) h = true)
    end.

Lemma search_loop_page time_up db_up fuel round w read todo pending finals bytes :
  (0 < bd_parallel budget)%nat -> (forall n, db_up n = true) -> (length todo < fuel)%nat -> (length finals < lf_limit f)%nat ->
  walk_at w todo -> page_at read todo pending finals ->
  exists page, search_loop budget time_up db_up q f (lf_limit f) fuel round w pending finals bytes = Ok page /\
    page_of (flat_map records all_candidates) page.
Proof.
  intros Hpar Hdb. revert round w read todo pending finals bytes.
  induction fuel as [|fuel IH]; intros round w read todo pending finals bytes Hfuel Hlen Hw Hp; [lia|]. cbn [ChunkSearch.search_loop].
  destruct (refill_at db_up round w todo Hw (Hdb round)) as (w1 & -> & Hw1 & Hh). cbn [result_bind].
  destruct (promote (next_ended_at w1) (lf_limit f) pending finals) as [pending' finals'] eqn:Hpr.
  destruct (promote_spec _ _ _ _ _ _ Hpr Hlen) as (Happ & Hle & Hfin & Hshort).
  assert (page_at read todo pending' finals') as Hp'.
  { destruct Hp as [Hpa Hpl Hps Hpf]. split; [done|by rewrite Happ|by rewrite Happ|]. intros x c Hx Hc.
    destruct (Hfin x Hx) as [Hx'|Hx']; [by apply Hpf|]. destruct (next_ended_at w1) as [h|]; [|by rewrite Hh in Hc; apply elem_of_nil in Hc].
    eapply dt_le_lt_trans; [by apply Hh|done]. }
  pose proof (universe_split _ _ _ _ Hp') as Hu. pose proof (StronglySorted_app_1_l _ _ _ (pa_sorted _ _ _ _ Hp')) as Hsf.
  destruct (Nat.leb_spec (lf_limit f) (length finals')) as [Hfull|Hmore].
  - eexists. split; [done|]. assert (length finals' = lf_limit f) as He by lia. rewrite firstn_all2 by lia.
    exists (behind read todo pending'). cbn. split_and!; [done|done|intros x y; by eapply promoted_newer|].
    destruct (list.last finals') as [r|] eqn:Hlast; [cbn; split; [done|by exists r]|]. apply last_None in Hlast as ->. cbn in *. lia.
  - specialize (Hshort Hmore). destruct (next_ended_at w1) as [h|] eqn:Hn.
    2:{ eexists. split; [done|]. exists (behind read todo pending'). cbn. split_and!; [done|done|intros x y; eapply promoted_newer; [done|lia]| |done].
        rewrite Hh in *. by apply (behind_nothing read pending' finals'). }
    destruct Hh as [(c & Hc & Hce) Hmax]. destruct ((time_up round || _) && _) eqn:Hover.
    + apply andb_true_iff in Hover as [_ Hlt]. eexists. split; [done|]. exists (behind read todo pending'). cbn.
      split_and!; [done|done|intros x y; eapply promoted_newer; [done|lia]|done|done| | |].
      * exists c. split; [|done]. eapply all_elem; [exact Hp'|]. apply elem_of_app. by right.
      * intros x Hx. rewrite <- Hce. by eapply pa_final.
      * intros y Hy. by eapply behind_old.
    + destruct (take_batch (bd_parallel budget) w1) as [batch w2] eqn:Hb.
      destruct (take_batch_at _ _ _ _ _ Hw1 Hb) as (todo' & Hperm & Hw2). pose proof (take_batch_progress _ _ _ _ _ Hpar Hn Hb) as Hne.
      assert (page_at read (batch ++ todo') pending' finals') as Hp2.
      { destruct Hp' as [Hpa Hpl Hps Hpf]. split; [by rewrite Hpa, Hperm|done|done|]. intros x c' Hx Hc'. apply Hpf; [done|]. by rewrite Hperm. }
      destruct (absorb_at batch read todo' pending' finals' bytes Hp2) as (pending2 & bytes2 & -> & Hp3). cbn [result_bind].
      apply (IH _ _ (read ++ batch) todo'); [|done|done|done].
      apply Permutation_length in Hperm. rewrite length_app in Hperm. destruct batch; [done|cbn in Hperm; lia].
Qed.
End Walk.
