(* ===== verification/SearchPages.v ===== *)
(** * Searching returns every matching line once, newest first

    What the candidates of [ChunkSearch] hold, and the theorems about whole searches: a page is the
    newest lines of the store that match, and reading page after page with the cursors that come
    with them gives all of them, without gaps and without repetitions. *)

From S2P Require Import Prelude Bytes Utf8 ChunkBlock Bloom ChunkFile ChunkScan ChunkQuery ChunkSearch SearchWalk.
From stdpp Require Import sorting.
Local Open Scope Z_scope.

Section Pages.
Context `{ChronoLaws} `{ZstdLaws} `{JsonLaws} `{!FooterJson} `{!FooterJsonLaws _} `{Crc32} `{Xxh3} `{Unicode} `{!UnicodeLaws _} `{Memmem}.
Context (order : BloomBuilder -> list Z).
Context {AttrPredicate : Type} (attr_matches : AttrPredicate -> option Value -> bool) (is_whitespace : Z -> bool)
  (log_line_from_str : list Z -> option LogLine)
  (read_range : string -> Z -> Z -> result ScanError (list Z)) (read_whole : string -> result ScanError (list Z)).
Context (summaries : list ChunkLabels) (snapshot : string -> option HeadSnapshot) (rows : list Row).

#[local] Abbreviation SearchQuery := (SearchQuery (AttrPredicate := AttrPredicate)).
#[local] Abbreviation LineFilter := (LineFilter (AttrPredicate := AttrPredicate)).
#[local] Abbreviation scan := (scan attr_matches is_whitespace log_line_from_str read_range read_whole snapshot).
#[local] Abbreviation search := (search attr_matches is_whitespace log_line_from_str read_range read_whole summaries snapshot rows).
#[local] Abbreviation compile := (compile is_whitespace).

(** ** The lines of a candidate *)

(** The lines a candidate holds, oldest first. *)
Context (content : Candidate -> list LogLine).

Definition line_id (c : Candidate) (i : nat) : Z :=
  match c with
  | Sealed r => sealed_line_id (mf_seq (rw_manifest r)) (Z.of_nat i)
  | Head _ => head_line_id (Z.of_nat i)
  end.

(** The line at [i] as a result, and where it stands. *)
Definition made (c : Candidate) (i : nat) (l : LogLine) : LogLineRecord := record (candidate_labels c) (decoded 0 l) (line_id c i).
Definition place (c : Candidate) (i : nat) (l : LogLine) : LogLineKey :=
  {| k_timestamp := ll_ts l; k_container_id := cl_container_id (candidate_labels c); k_line_id := line_id c i |}.

(** What a filter asks of a line apart from its place. *)
Definition passes (f : LineFilter) (l : LogLine) : bool :=
  dt_leb (lf_start f) (ll_ts l) && dt_leb (ll_ts l) (lf_end f) &&
  negb (Z.land (lf_level_mask f) (level_bit (ll_level l)) =? 0) && text_matches f (ll_msg l) && attrs_match attr_matches f (ll_fields l).

Definition result_line (f : LineFilter) (c : Candidate) (i : nat) (l : LogLine) : option LogLineRecord :=
  if passes f l && key_allowed f (place c i l) then Some (made c i l) else None.

Definition records (f : LineFilter) (c : Candidate) : list LogLineRecord :=
  omap (fun '(i, l) => result_line f c i l) (imap pair (content c)).

Lemma key_made c i l : key (made c i l) = place c i l.
Proof. done. Qed.

(** What has to be true of a candidate: it can be read, its labels describe its lines, and its lines
    are in order.  Lines of a head buffer share their id, so their times have to tell them apart. *)
Record candidate_ok (c : Candidate) : Prop := {
  co_read : match c with
    | Sealed r => exists with_bloom chunk, stored read_range order (rw_manifest r) (content c) with_bloom chunk /\
        (with_bloom = true -> Forall (fun l => tokens_short (ll_msg l)) (content c))
    | Head labels => exists segments, snapshot (cl_container_id labels) = Some segments /\ mjoin segments = content c
    end;
  co_size : Z.of_nat (length (content c)) <= 2 ^ 20;
  co_seq : match c with Sealed r => 0 <= mf_seq (rw_manifest r) < 2 ^ 41 | Head _ => True end;
  co_started l : l ∈ content c -> dt_leb (cl_started_at (candidate_labels c)) (ll_ts l) = true;
  co_ended l : l ∈ content c -> dt_leb (ll_ts l) (cl_ended_at (candidate_labels c)) = true;
  co_levels l : l ∈ content c -> Z.land (cl_level_mask (candidate_labels c)) (level_bit (ll_level l)) <> 0;
  co_container : String.compare (cl_container_id (candidate_labels c)) last_container_id = Lt;
  co_sorted : match c with
    | Sealed _ => StronglySorted (fun a b => dt_leb (ll_ts a) (ll_ts b) = true) (content c)
    | Head _ => StronglySorted (fun a b => dt_ltb (ll_ts a) (ll_ts b) = true) (content c)
    end
}.

(** The store as one search sees it. *)
Definition store_candidates (q : SearchQuery) : list Candidate :=
  map Head (List.filter (fun labels => labels_match labels q) summaries) ++
  map Sealed (List.filter (fun r => negb (rw_deleted r) && labels_match (rw_labels r) q && seq_wanted q (rw_manifest r)) rows).

Record snapshot_ok : Prop := {
  so_ids : NoDup (map rw_id rows);
  so_seqs : NoDup (map (fun r => mf_seq (rw_manifest r)) rows);
  so_heads : NoDup (map cl_container_id summaries);
  so_sealed r : r ∈ rows -> rw_deleted r = false -> candidate_ok (Sealed r);
  so_head labels : labels ∈ summaries -> candidate_ok (Head labels)
}.

(** Every line of the store that matches. *)
Definition matching (q : SearchQuery) : list LogLineRecord := flat_map (records (compile (sq_lines q))) (store_candidates q).

(** ** What a scan returns *)

Lemma omap_ext_in {A B} (g h : A -> option B) (l : list A) : (forall x, x ∈ l -> g x = h x) -> omap g l = omap h l.
Proof.
  induction l as [|x l IH]; intros Hgh; [done|]. cbn. rewrite (Hgh x) by apply list_elem_of_here.
  rewrite IH; [done|]. intros y Hy. apply Hgh. by apply list_elem_of_further.
Qed.

Lemma omap_reverse {A B} (g : A -> option B) (l : list A) : omap g (reverse l) = reverse (omap g l).
Proof.
  induction l as [|x l IH]; [done|]. rewrite reverse_cons, omap_app, IH. cbn [omap list_omap].
  destruct (g x); [by rewrite reverse_cons|by rewrite app_nil_r].
Qed.

Lemma omap_map {A B C} (g : B -> option C) (h : A -> B) (l : list A) : omap g (h <$> l) = omap (fun x => g (h x)) l.
Proof. induction l as [|x l IH]; [done|]. cbn. by rewrite IH. Qed.

Lemma chunk_lines_imap ls i :
  expected_lines 0 no_filter i ls = imap (fun j l => decoded (wrap 32 (wrap 32 (Z.of_nat (i + j)))) l) ls.
Proof.
  revert i. induction ls as [|l ls IH]; intros i; [done|]. cbn. rewrite Nat.add_0_r, IH. f_equal. apply imap_ext. intros j x _.
  cbn. by rewrite Nat.add_succ_r.
Qed.

Lemma index_fits c i l : Z.of_nat (length (content c)) <= 2 ^ 20 -> (i, l) ∈ imap pair (content c) -> 0 <= Z.of_nat i < 2 ^ 20 /\ l ∈ content c.
Proof.
  intros Hs (j & Hj)%list_elem_of_lookup. rewrite list_lookup_imap in Hj.
  destruct (content c !! j) as [x|] eqn:Hx; cbn in Hj; [|done]. injection Hj as <- <-.
  pose proof (lookup_lt_Some _ _ _ Hx). split; [lia|]. by eapply list_elem_of_lookup_2.
Qed.

Lemma wrap32_small i : 0 <= i < 2 ^ 20 -> wrap 32 (wrap 32 i) = i.
Proof. intros Hi. rewrite !wrap_id; unfold fits; rewrite ?wrap_id; unfold fits; lia. Qed.

Lemma accepted_records f r :
  Z.of_nat (length (content (Sealed r))) <= 2 ^ 20 ->
  accepted attr_matches (rw_manifest r) f (chunk_lines (content (Sealed r))) = records f (Sealed r).
Proof.
  intros Hs. unfold accepted, chunk_lines, records. rewrite chunk_lines_imap.
  assert (imap (fun j l => decoded (wrap 32 (wrap 32 (Z.of_nat (0 + j)))) l) (content (Sealed r)) =
    (fun '(i, l) => decoded (wrap 32 (wrap 32 (Z.of_nat i))) l) <$> imap pair (content (Sealed r))) as ->.
  { rewrite fmap_imap. done. }
  rewrite omap_map. apply omap_ext_in. intros [i l] Hin. destruct (index_fits (Sealed r) i l Hs Hin) as [Hi Hl]. cbn.
  rewrite wrap32_small by done. unfold accept, result_line, passes, dt_ltb. cbn [dl_ts dl_level dl_message dl_fields dl_line_index decoded].
  unfold place. cbn [candidate_labels line_id].
  destruct (dt_leb (lf_start f) (ll_ts l)), (dt_leb (ll_ts l) (lf_end f)); cbn [negb orb andb]; try done.
  destruct (Z.land _ _ =? 0); cbn [negb orb andb]; try done.
  destruct (key_allowed _ _), (text_matches _ _), (attrs_match _ _ _); cbn; done.
Qed.

Lemma head_records f labels segments :
  Z.of_nat (length (content (Head labels))) <= 2 ^ 20 -> mjoin segments = content (Head labels) ->
  cs_matches (scan_head attr_matches segments labels f) ≡ₚ keep_newest (lf_limit f) (records f (Head labels)).
Proof.
  intros Hs Hseg. rewrite scan_head_spec, Hseg, omap_reverse.
  assert (omap (head_accepted attr_matches labels f) (imap (fun i l => (Z.of_nat i, l)) (content (Head labels))) = records f (Head labels)) as ->.
  { unfold records. assert (imap (fun i l => (Z.of_nat i, l)) (content (Head labels)) =
      (fun '(i, l) => (Z.of_nat i, l)) <$> imap pair (content (Head labels))) as -> by by rewrite fmap_imap.
    rewrite omap_map. apply omap_ext_in. intros [i l] _. cbn. unfold result_line, passes, place. cbn [candidate_labels line_id].
    by destruct (key_allowed _ _), (_ && attrs_match _ _ _). }
  rewrite keep_newest_drop, take_reverse. apply reverse_Permutation.
Qed.

Lemma scan_candidate q c :
  candidate_ok c ->
  exists ms bytes, scan c (compile (sq_lines q)) = Ok {| cs_matches := ms; cs_bytes := bytes |} /\
    ms ≡ₚ kept (compile (sq_lines q)) (records (compile (sq_lines q))) c.
Proof.
  intros [Hread Hsize _ _ _ _ _ _]. unfold kept. destruct c as [r|labels]; cbn [ChunkSearch.scan].
  - destruct Hread as (with_bloom & chunk & Hst & Htok).
    destruct (scan_sealed_spec attr_matches is_whitespace log_line_from_str read_range read_whole order _ (sq_lines q) _ _ _ Hst Htok) as [bytes ->].
    do 2 eexists. split; [done|]. by rewrite accepted_records.
  - destruct Hread as (segments & -> & Hseg). pose proof (head_records (compile (sq_lines q)) labels segments Hsize Hseg) as Hp.
    destruct (scan_head _ _ _ _) as [ms bytes]. by exists ms, bytes.
Qed.

(** ** The order within a candidate *)

Lemma StronglySorted_omap {A B} (R : relation A) (R' : relation B) (g : A -> option B) l :
  (forall x y a b, R x y -> x ∈ l -> y ∈ l -> g x = Some a -> g y = Some b -> R' a b) -> StronglySorted R l -> StronglySorted R' (omap g l).
Proof.
  induction l as [|x l IH]; intros Hg; [constructor|]. rewrite StronglySorted_cons, list.Forall_forall. intros [Hf Hs]. cbn.
  assert (StronglySorted R' (omap g l)) as Hl.
  { apply IH; [|done]. intros y z a b Hyz Hy Hz. apply Hg; [done|by apply list_elem_of_further..]. }
  destruct (g x) as [a|] eqn:Hx; [|done]. apply StronglySorted_cons. split; [|done]. apply list.Forall_forall. intros b Hb.
  apply list_elem_of_omap in Hb as (y & Hy & Hyb). eapply (Hg x y); [by apply Hf|apply list_elem_of_here|by apply list_elem_of_further|done|done].
Qed.

Lemma imap_pair_sorted {A} (T : relation A) l k :
  StronglySorted T l -> StronglySorted (fun x y => (x.1 < y.1)%nat /\ T x.2 y.2) (imap (fun i x => ((k + i)%nat, x)) l).
Proof.
  revert k. induction l as [|x l IH]; intros k; [constructor|]. rewrite StronglySorted_cons, list.Forall_forall. intros [Hf Hs].
  cbn [imap]. apply StronglySorted_cons. split.
  - apply list.Forall_forall. intros y (j & Hj)%list_elem_of_lookup. rewrite list_lookup_imap in Hj.
    destruct (l !! j) as [z|] eqn:Hz; cbn in Hj; [|done]. injection Hj as <-. cbn. split; [lia|]. apply Hf. by eapply list_elem_of_lookup_2.
  - specialize (IH (S k) Hs). erewrite imap_ext; [exact IH|]. intros j z _. cbn. f_equal. lia.
Qed.

Lemma sealed_id_sum seq i : 0 <= seq < 2 ^ 41 -> 0 <= i < 2 ^ 20 -> sealed_line_id seq i = seq * 2 ^ 20 + i.
Proof.
  intros Hs Hi. unfold sealed_line_id, LINE_INDEX_BITS. rewrite swrap_id; [|done|unfold sfits; rewrite Z.shiftl_mul_pow2; lia].
  rewrite Z.lor_comm, lor_disjoint; lia.
Qed.

Lemma head_id_bound i : 0 <= i < 2 ^ 20 -> head_line_id i = 2 ^ 62 - 1.
Proof. intros Hi. rewrite head_id_base by lia. done. Qed.

Lemma records_ascending f c : candidate_ok c -> StronglySorted (flip newer) (records f c).
Proof.
  intros [_ Hsize Hseq _ _ _ _ Hsorted]. unfold records.
  assert (forall x y a b, x ∈ imap pair (content c) -> y ∈ imap pair (content c) -> (x.1 < y.1)%nat ->
    match c with Sealed _ => dt_leb (ll_ts x.2) (ll_ts y.2) | Head _ => dt_ltb (ll_ts x.2) (ll_ts y.2) end = true ->
    (fun '(i, l) => result_line f c i l) x = Some a -> (fun '(i, l) => result_line f c i l) y = Some b -> flip newer a b) as Hstep.
  { intros [i l] [j m] a b Hx Hy Hij Ht. cbn in *. unfold result_line.
    destruct (passes f l && _); [|done]. destruct (passes f m && _); [|done]. intros [= <-] [= <-].
    destruct (index_fits c i l Hsize Hx) as [Hi _]. destruct (index_fits c j m Hsize Hy) as [Hj _].
    unfold newer, flip. rewrite !key_made. apply key_ltb_spec. cbn. destruct c as [r|labels]; cbn in *; [|by left].
    destruct (dt_leb (ll_ts m) (ll_ts l)) eqn:Hml; [right|left; by apply dt_ltb_spec]. split; [by split|]. right. split; [done|].
    rewrite !sealed_id_sum by done. lia. }
  destruct c as [r|labels].
  - eapply StronglySorted_omap; [|exact (imap_pair_sorted _ _ 0 Hsorted)]. intros x y a b [Hij Ht] Hx Hy. by apply Hstep.
  - eapply StronglySorted_omap; [|exact (imap_pair_sorted _ _ 0 Hsorted)]. intros x y a b [Hij Ht] Hx Hy. by apply Hstep.
Qed.

Lemma elem_of_records_inv f c r :
  Z.of_nat (length (content c)) <= 2 ^ 20 -> r ∈ records f c ->
  exists i l, 0 <= Z.of_nat i < 2 ^ 20 /\ l ∈ content c /\ r = made c i l /\ passes f l = true /\ key_allowed f (place c i l) = true.
Proof.
  intros Hs Hr. apply list_elem_of_omap in Hr as ([i l] & Hin & Hr). destruct (index_fits c i l Hs Hin) as [Hi Hl]. exists i, l.
  unfold result_line in Hr. destruct (passes f l && key_allowed f (place c i l)) eqn:Hp; [|done]. injection Hr as <-.
  apply andb_true_iff in Hp as [? ?]. done.
Qed.

Lemma records_before_end f c r : candidate_ok c -> r ∈ records f c -> dt_leb (r_timestamp r) (ended_at c) = true.
Proof. intros Hc (i & l & _ & Hl & -> & _)%elem_of_records_inv; [|apply Hc]. by apply (co_ended c Hc). Qed.

(** ** Lines of different candidates *)

Lemma places_comparable a b :
  k_container_id a <> k_container_id b \/ k_line_id a <> k_line_id b -> key_ltb a b = true \/ key_ltb b a = true.
Proof.
  intros Hne. rewrite !key_ltb_spec. destruct (dt_ltb (k_timestamp a) (k_timestamp b)) eqn:Hab; [by left; left|].
  destruct (dt_ltb (k_timestamp b) (k_timestamp a)) eqn:Hba; [by right; left|]. apply dt_not_lt in Hab, Hba.
  destruct (String.compare (k_container_id a) (k_container_id b)) eqn:Hc.
  - apply String.compare_eq_iff in Hc. destruct (decide (k_line_id a < k_line_id b)).
    + left. right. split; [by split|]. by right.
    + right. right. split; [by split|]. right. split; [done|]. destruct Hne; [done|lia].
  - left. right. split; [by split|]. by left.
  - right. right. split; [by split|]. left. by rewrite String.compare_antisym, Hc.
Qed.

Definition told_apart (f : LineFilter) (c d : Candidate) : Prop :=
  forall x y, x ∈ records f c -> y ∈ records f d -> newer x y \/ newer y x.

Lemma flat_map_apart f cs :
  StronglySorted (told_apart f) cs -> (forall c, c ∈ cs -> candidate_ok c) -> apart (flat_map (records f) cs).
Proof.
  unfold apart. induction cs as [|c cs IH]; [constructor|]. rewrite StronglySorted_cons, list.Forall_forall. intros [Hf Hs] Hok. cbn.
  apply StronglySorted_app_2.
  - intros x y Hx (d & Hd & Hy)%elem_of_flat. by apply (Hf d Hd).
  - pose proof (records_ascending f c (Hok c (list_elem_of_here _ _))) as Ha. induction Ha as [|x l Hl IHl Hx]; constructor; [done|].
    eapply list.Forall_impl; [exact Hx|]. cbn. by right.
  - apply IH; [done|]. intros d Hd. apply Hok. by apply list_elem_of_further.
Qed.

Lemma NoDup_sorted {A B} (g : A -> B) l : NoDup (map g l) -> StronglySorted (fun x y => g x <> g y) l.
Proof.
  induction l as [|x l IH]; [constructor|]. cbn. rewrite NoDup_cons. intros [Hx Hl]. constructor; [by auto|].
  apply list.Forall_forall. intros y Hy He. apply Hx. rewrite He. by apply list_elem_of_fmap_2.
Qed.

Lemma StronglySorted_map {A B} (R : relation A) (R' : relation B) (g : A -> B) l :
  (forall x y, x ∈ l -> y ∈ l -> R x y -> R' (g x) (g y)) -> StronglySorted R l -> StronglySorted R' (map g l).
Proof.
  intros Hg. induction l as [|x l IH]; [constructor|]. rewrite StronglySorted_cons, list.Forall_forall. intros [Hf Hs]. cbn.
  apply StronglySorted_cons. split.
  - apply list.Forall_forall. intros y (z & -> & Hz)%list_elem_of_fmap. apply Hg; [apply list_elem_of_here|by apply list_elem_of_further|by apply Hf].
  - apply IH; [|done]. intros y z Hy Hz. apply Hg; by apply list_elem_of_further.
Qed.

Lemma store_apart f q : snapshot_ok -> (forall c, c ∈ store_candidates q -> candidate_ok c) -> StronglySorted (told_apart f) (store_candidates q).
Proof.
  intros Hsnap Hok. unfold store_candidates in *. set (hs := List.filter _ summaries) in *. set (rs := List.filter _ rows) in *.
  assert (forall c d, c ∈ map Head hs ++ map Sealed rs -> d ∈ map Head hs ++ map Sealed rs ->
    (cl_container_id (candidate_labels c) <> cl_container_id (candidate_labels d) \/
     forall i j, 0 <= Z.of_nat i < 2 ^ 20 -> 0 <= Z.of_nat j < 2 ^ 20 -> line_id c i <> line_id d j) -> told_apart f c d) as Htell.
  { intros c d Hc Hd Hne x y (i & l & Hi & _ & -> & _)%elem_of_records_inv (j & m & Hj & _ & -> & _)%elem_of_records_inv.
    2:{ apply Hok, Hd. } 2:{ apply Hok, Hc. }
    unfold newer. rewrite !key_made. destruct (places_comparable (place c i l) (place d j m)); [|by right|by left].
    destruct Hne as [|Hne]; [by left|right]. by apply Hne. }
  assert (forall r, Sealed r ∈ map Head hs ++ map Sealed rs -> 0 <= mf_seq (rw_manifest r) < 2 ^ 41) as Hseq.
  { intros r Hr. exact (co_seq _ (Hok _ Hr)). }
  apply StronglySorted_app_2.
  - intros c d Hc Hd. apply Htell; [apply elem_of_app; by left|apply elem_of_app; by right|]. right.
    apply list_elem_of_fmap in Hc as (labels & -> & _). apply list_elem_of_fmap in Hd as (r & -> & Hr). intros i j Hi Hj. cbn.
    rewrite head_id_bound, sealed_id_sum by (try apply Hseq; try apply elem_of_app; try right; try apply list_elem_of_fmap_2; done).
    pose proof (Hseq r ltac:(apply elem_of_app; right; by apply list_elem_of_fmap_2)). lia.
  - eapply StronglySorted_map; [|apply (NoDup_sorted cl_container_id), NoDup_filter_map, Hsnap]. intros a b Ha Hb Hab.
    apply Htell; [apply elem_of_app; left; by apply list_elem_of_fmap_2..|]. by left.
  - eapply StronglySorted_map; [|apply (NoDup_sorted (fun r => mf_seq (rw_manifest r))), NoDup_filter_map, Hsnap]. intros a b Ha Hb Hab.
    assert (Sealed a ∈ map Head hs ++ map Sealed rs) as Hina by (apply elem_of_app; right; by apply list_elem_of_fmap_2).
    assert (Sealed b ∈ map Head hs ++ map Sealed rs) as Hinb by (apply elem_of_app; right; by apply list_elem_of_fmap_2).
    apply Htell; [done|done|]. right. intros i j Hi Hj. cbn in *. rewrite !sealed_id_sum by auto. lia.
Qed.

(** ** Nothing is lost by choosing candidates *)

Lemma store_candidate_ok q c : snapshot_ok -> c ∈ store_candidates q -> candidate_ok c.
Proof.
  intros Hsnap. unfold store_candidates. rewrite elem_of_app. intros [Hc|Hc]; apply list_elem_of_fmap in Hc as (x & -> & Hx);
    apply list_elem_of_In, List.filter_In in Hx as [Hx%list_elem_of_In Hp]; [by apply Hsnap|].
  apply Hsnap; [done|]. rewrite !andb_true_iff, negb_true_iff in Hp. apply Hp.
Qed.

Lemma flat_map_filter {A B} (p r : A -> bool) (g : A -> list B) l :
  (forall x, x ∈ l -> p x = true -> r x = false -> g x = []) ->
  flat_map g (List.filter (fun x => p x && r x) l) = flat_map g (List.filter p l).
Proof.
  induction l as [|x l IH]; intros Hg; [done|]. cbn. assert (forall y, y ∈ l -> p y = true -> r y = false -> g y = []) as Hg'.
  { intros y Hy. apply Hg. by apply list_elem_of_further. }
  specialize (Hg x (list_elem_of_here _ _)). destruct (p x), (r x); cbn; rewrite ?IH by done; try done. by rewrite Hg.
Qed.

(** A candidate outside the window, or without a wanted level, has no match. *)
Lemma pruned_empty q c :
  candidate_ok c ->
  overlaps q (lf_end (compile (sq_lines q))) (candidate_labels c) && level_wanted q (candidate_labels c) = false ->
  records (compile (sq_lines q)) c = [].
Proof.
  intros Hc Hp. destruct (records (compile (sq_lines q)) c) as [|r rs] eqn:He; [done|]. exfalso.
  assert (r ∈ records (compile (sq_lines q)) c) as Hr by (rewrite He; apply list_elem_of_here).
  destruct (elem_of_records_inv _ _ _ (co_size c Hc) Hr) as (i & l & _ & Hl & _ & Hpass & _).
  unfold passes in Hpass. rewrite !andb_true_iff in Hpass. destruct Hpass as [[[[Hs Hend] Hlev] _] _].
  unfold overlaps, level_wanted in Hp. rewrite (dt_le_trans _ _ _ (co_started c Hc l Hl) Hend) in Hp.
  assert (dt_leb (q_start_time (sq_lines q)) (cl_ended_at (candidate_labels c)) = true) as Hov.
  { eapply dt_le_trans; [exact Hs|by apply (co_ended c Hc)]. }
  rewrite Hov in Hp. cbn in Hp. apply negb_false_iff, Z.eqb_eq in Hp. apply negb_true_iff, Z.eqb_neq in Hlev. cbn in Hlev.
  pose proof (co_levels c Hc l Hl) as Hmask.
  assert (exists k, level_bit (ll_level l) = 2 ^ k /\ 0 <= k) as (k & Hk & Hk0).
  { destruct (ll_level l); [exists 0|exists 1|exists 2|exists 3|exists 4]; done. }
  assert (forall m, Z.land m (level_bit (ll_level l)) <> 0 -> Z.testbit m k = true) as Hbit.
  { intros m Hm. destruct (Z.testbit m k) eqn:Ht; [done|]. destruct Hm. rewrite Hk. apply Z.bits_inj'. intros n Hn.
    rewrite Z.land_spec, Z.pow2_bits_eqb, Z.bits_0 by done. destruct (Z.eqb_spec k n) as [<-|]; [by rewrite Ht|by rewrite andb_false_r]. }
  assert (Z.testbit (Z.land (cl_level_mask (candidate_labels c)) (level_mask_for (q_levels (sq_lines q)))) k = true) as Hx.
  { rewrite Z.land_spec. by rewrite !Hbit. }
  by rewrite Hp, Z.bits_0 in Hx.
Qed.

Lemma head_candidate_spec (q : SearchQuery) labels :
  head_candidate q (compile (sq_lines q)) labels =
  labels_match labels q && (overlaps q (lf_end (compile (sq_lines q))) labels && level_wanted q labels).
Proof.
  unfold head_candidate, overlaps, level_wanted, dt_ltb. cbn [lf_start lf_level_mask ChunkScan.compile].
  destruct (labels_match labels q); [|done]. cbn [negb].
  destruct (dt_leb (q_start_time (sq_lines q)) (cl_ended_at labels)), (dt_leb (cl_started_at labels) _); cbn [negb orb andb]; try done.
Qed.

#[local] Abbreviation all_candidates q := (all_candidates summaries rows q (compile (sq_lines q))).

Lemma chosen_matching q : snapshot_ok -> flat_map (records (compile (sq_lines q))) (all_candidates q) ≡ₚ matching q.
Proof.
  intros Hsnap. unfold matching, SearchWalk.all_candidates, store_candidates, head_candidates, chosen_rows. rewrite !flat_map_app.
  rewrite (merge_sort_Permutation labels_le), (merge_sort_Permutation row_le).
  assert (forall {A} (g : A -> Candidate) l, flat_map (records (compile (sq_lines q))) (map g l) =
    flat_map (fun x => records (compile (sq_lines q)) (g x)) l) as Hmap.
  { intros A g l. induction l as [|x l IH]; [done|]. cbn. by rewrite IH. }
  rewrite !Hmap. erewrite (List.filter_ext (head_candidate q _)); [|apply head_candidate_spec].
  erewrite (List.filter_ext (where_holds _)).
  2:{ intros r. rewrite conditions_spec. instantiate (1 := fun r =>
        (negb (rw_deleted r) && labels_match (rw_labels r) q && seq_wanted q (rw_manifest r)) &&
        (overlaps q (lf_end (compile (sq_lines q))) (rw_labels r) && level_wanted q (rw_labels r))). cbn beta.
      destruct (negb (rw_deleted r)), (overlaps _ _ _), (labels_match _ _), (seq_wanted _ _), (level_wanted _ _); done. }
  apply Permutation_app.
  - rewrite flat_map_filter; [done|]. intros labels Hl _ Hx. apply pruned_empty; [|done]. by apply Hsnap.
  - rewrite (flat_map_filter (fun r => negb (rw_deleted r) && labels_match (rw_labels r) q && seq_wanted q (rw_manifest r))); [done|].
    intros r Hr Hp Hx. apply pruned_empty; [|done]. apply Hsnap; [done|]. rewrite !andb_true_iff, negb_true_iff in Hp. apply Hp.
Qed.

Lemma chosen_in_store q c : c ∈ all_candidates q -> c ∈ store_candidates q.
Proof.
  unfold SearchWalk.all_candidates, store_candidates, head_candidates, chosen_rows. rewrite !elem_of_app.
  intros [Hc|Hc]; [left|right]; apply list_elem_of_fmap in Hc as (x & -> & Hx); apply list_elem_of_fmap_2.
  - rewrite (merge_sort_Permutation labels_le), list_elem_of_In, List.filter_In, head_candidate_spec, andb_true_iff in Hx.
    rewrite list_elem_of_In, List.filter_In. tauto.
  - rewrite (merge_sort_Permutation row_le), list_elem_of_In, List.filter_In, conditions_spec, !andb_true_iff in Hx.
    rewrite list_elem_of_In, List.filter_In, !andb_true_iff. tauto.
Qed.

(** ** A page *)

#[export] Instance labels_le_total : Total labels_le.
Proof. intros a b. unfold labels_le. apply dt_le_total. Qed.
#[export] Instance labels_le_trans : Transitive labels_le.
Proof. intros a b c. unfold labels_le. intros Hab Hbc. by eapply dt_le_trans. Qed.

Lemma heads_sorted (q : SearchQuery) f : StronglySorted ends_later (head_candidates summaries q f).
Proof.
  unfold head_candidates. eapply StronglySorted_map; [|apply (StronglySorted_merge_sort labels_le)]. by intros a b _ _.
Qed.

Lemma limit_exact (q : SearchQuery) : validate q = Ok () -> 0 <= q_limit (sq_lines q) ->
  Z.to_nat (q_limit (sq_lines q)) = lf_limit (compile (sq_lines q)) /\ (0 < lf_limit (compile (sq_lines q)))%nat.
Proof.
  unfold validate. cbn [lf_limit ChunkScan.compile]. destruct (dt_leb _ _); [done|].
  destruct (Z.eqb_spec (q_limit (sq_lines q)) 0); cbn [orb]; [done|]. intros _ Hl. rewrite Z.max_l by lia. split; [done|]. lia.
Qed.

Lemma search_page budget time_up db_up q :
  snapshot_ok -> (0 < bd_parallel budget)%nat -> (0 < bd_batch budget)%nat -> (forall n, db_up n = true) ->
  validate q = Ok () -> 0 <= q_limit (sq_lines q) ->
  exists page, search budget time_up db_up q = Ok page /\
    page_of summaries rows q (compile (sq_lines q)) (matching q) page.
Proof.
  intros Hsnap Hpar Hbatch Hdb Hval Hpos. destruct (limit_exact q Hval Hpos) as [Hlim Hlim0].
  pose proof (fun c Hc => store_candidate_ok q c Hsnap (chosen_in_store q c Hc)) as Hok.
  unfold ChunkSearch.search. rewrite Hval, Hlim.
  destruct (search_loop_page attr_matches is_whitespace log_line_from_str read_range read_whole summaries snapshot rows (so_ids Hsnap)
    q (compile (sq_lines q)) budget Hbatch (records (compile (sq_lines q)))
    (fun c Hc => scan_candidate q c (Hok c Hc)) (fun c Hc => records_ascending _ c (Hok c Hc))
    (fun c r Hc => records_before_end _ c r (Hok c Hc))
    (apart_perm _ _ (symmetry (chosen_matching q Hsnap))
       (flat_map_apart _ _ (store_apart _ q Hsnap (fun c => store_candidate_ok q c Hsnap)) (fun c => store_candidate_ok q c Hsnap)))
    time_up db_up (length summaries + length rows + 1) 0
    {| wk_heads := head_candidates summaries q (compile (sq_lines q)); wk_sealed := []; wk_sealed_exhausted := false; wk_sealed_cursor := None |}
    [] (all_candidates q) [] [] 0 Hpar Hdb) as (page & -> & Hpage).
  - unfold SearchWalk.all_candidates, head_candidates, chosen_rows. rewrite length_app, !length_map.
    rewrite (Permutation_length (merge_sort_Permutation labels_le _)), (Permutation_length (merge_sort_Permutation row_le _)).
    pose proof (filter_length_le (head_candidate q (compile (sq_lines q))) summaries).
    pose proof (filter_length_le (where_holds (build_conditions q (lf_end (compile (sq_lines q))) true)) rows). lia.
  - done.
  - split; [apply heads_sorted|]. exists [], (chosen_rows rows q (compile (sq_lines q))). done.
  - by split; [done|done|constructor|intros x c ?%elem_of_nil].
  - exists page. split; [done|]. destruct Hpage as (rest & Hp & Hrest). exists rest. split; [|done]. by rewrite <- (chosen_matching q Hsnap).
Qed.

(** ** Page after page *)

Definition with_before (q : SearchQuery) (k : LogLineKey) : SearchQuery :=
  {| sq_lines := {| q_text := q_text (sq_lines q); q_start_time := q_start_time (sq_lines q); q_end_time := q_end_time (sq_lines q);
                    q_before := Some k; q_levels := q_levels (sq_lines q); q_limit := q_limit (sq_lines q);
                    q_attrs := q_attrs (sq_lines q) |};
     sq_scope := sq_scope q; sq_source := sq_source q; sq_selection := sq_selection q; sq_envs := sq_envs q;
     sq_services := sq_services q; sq_container_ids := sq_container_ids q; sq_node_ids := sq_node_ids q;
     sq_deploy_id := sq_deploy_id q; sq_chunk_seqs := sq_chunk_seqs q |}.

(** A caller that follows the cursors until there is none; pages may be slow or not. *)
Fixpoint all_pages (budget : SearchBudget) (time_up : nat -> nat -> bool) (fuel : nat) (q : SearchQuery)
    : result SearchError (list LogLineRecord) :=
  match fuel with
  | O => Err RoundsExhausted
  | S fuel =>
      let? page := search budget (time_up fuel) (fun _ => true) q in
      match lp_next_cursor page with
      | None => Ok (lp_lines page)
      | Some k => let? rest := all_pages budget time_up fuel (with_before q k) in Ok (lp_lines page ++ rest)
      end
  end.

(** A cursor that is within what the query allows. *)
Definition tightens (q : SearchQuery) (k : LogLineKey) : Prop :=
  dt_leb (k_timestamp k) (lf_end (compile (sq_lines q))) = true /\
  forall x, key_ltb x k = true -> key_allowed (compile (sq_lines q)) x = true.

Lemma end_bound (q : SearchQuery) : dt_leb (lf_end (compile (sq_lines q))) (q_end_time (sq_lines q)) = true.
Proof.
  cbn [lf_end ChunkScan.compile]. destruct (q_before (sq_lines q)) as [b|]; [|apply dt_refl].
  destruct (dt_leb (q_end_time (sq_lines q)) (k_timestamp b)) eqn:Hb; [apply dt_refl|]. apply dt_lt_le, dt_ltb_spec, Hb.
Qed.

Lemma new_end (q : SearchQuery) k : lf_end (compile (sq_lines (with_before q k))) =
  if dt_leb (q_end_time (sq_lines q)) (k_timestamp k) then q_end_time (sq_lines q) else k_timestamp k.
Proof. done. Qed.

Lemma end_tightened q k : tightens q k ->
  dt_leb (lf_end (compile (sq_lines (with_before q k)))) (lf_end (compile (sq_lines q))) = true.
Proof.
  intros [Hk _]. rewrite new_end. destruct (dt_leb (q_end_time (sq_lines q)) (k_timestamp k)) eqn:He; [|done]. by eapply dt_le_trans.
Qed.

Lemma end_at_cursor q k : dt_leb (lf_end (compile (sq_lines (with_before q k)))) (k_timestamp k) = true.
Proof. rewrite new_end. destruct (dt_leb (q_end_time (sq_lines q)) (k_timestamp k)) eqn:He; [done|apply dt_refl]. Qed.

Lemma passes_before q k l :
  passes (compile (sq_lines (with_before q k))) l =
  dt_leb (q_start_time (sq_lines q)) (ll_ts l) && dt_leb (ll_ts l) (lf_end (compile (sq_lines (with_before q k)))) &&
  (negb (Z.land (level_mask_for (q_levels (sq_lines q))) (level_bit (ll_level l)) =? 0)
   && text_matches (compile (sq_lines q)) (ll_msg l) && attrs_match attr_matches (compile (sq_lines q)) (ll_fields l)).
Proof. unfold passes. cbn [lf_start lf_level_mask ChunkScan.compile with_before sq_lines q_start_time q_levels]. by rewrite !andb_assoc. Qed.

Lemma result_line_before q k c i l : tightens q k ->
  result_line (compile (sq_lines (with_before q k))) c i l =
  match result_line (compile (sq_lines q)) c i l with
  | Some r => if key_ltb (key r) k then Some r else None
  | None => None
  end.
Proof.
  intros Ht. pose proof (end_tightened q k Ht) as Hend. destruct Ht as [Hk Hx]. unfold result_line.
  assert (passes (compile (sq_lines (with_before q k))) l && key_allowed (compile (sq_lines (with_before q k))) (place c i l) =
    passes (compile (sq_lines q)) l && key_allowed (compile (sq_lines q)) (place c i l) && key_ltb (place c i l) k) as ->.
  { change (key_allowed (compile (sq_lines (with_before q k))) (place c i l)) with (key_ltb (place c i l) k).
    destruct (key_ltb (place c i l) k) eqn:Hkey; [|by rewrite !andb_false_r]. rewrite (Hx _ Hkey), !andb_true_r.
    rewrite passes_before. unfold passes. cbn [lf_start lf_level_mask ChunkScan.compile].
    rewrite <- !andb_assoc. f_equal. f_equal. pose proof (key_time _ _ Hkey) as Hts. cbn in Hts.
    destruct (dt_leb (ll_ts l) (lf_end (compile (sq_lines (with_before q k))))) eqn:Ha.
    - symmetry. by eapply dt_le_trans.
    - symmetry. apply not_true_is_false. intros Hb. revert Ha. rewrite new_end.
      destruct (dt_leb (q_end_time (sq_lines q)) (k_timestamp k)) eqn:He; [|by rewrite Hts].
      by rewrite (dt_le_trans _ _ _ Hb (end_bound q)). }
  destruct (passes _ _ && key_allowed _ _); cbn; [|done]. rewrite key_made. done.
Qed.

Lemma records_before q k c : tightens q k ->
  records (compile (sq_lines (with_before q k))) c = List.filter (fun r => key_ltb (key r) k) (records (compile (sq_lines q)) c).
Proof.
  intros Ht. unfold records. induction (imap pair (content c)) as [|[i l] ls IH]; [done|]. cbn [omap list_omap].
  rewrite (result_line_before q k c i l Ht). destruct (result_line _ c i l) as [r|]; [|done]. cbn [List.filter].
  destruct (key_ltb (key r) k); [f_equal|]; exact IH.
Qed.

Lemma filter_flat_map {A B} (p : B -> bool) (g : A -> list B) l : List.filter p (flat_map g l) = flat_map (fun x => List.filter p (g x)) l.
Proof. induction l as [|x l IH]; [done|]. cbn. by rewrite List.filter_app, IH. Qed.

Lemma matching_before q k : tightens q k -> matching (with_before q k) = List.filter (fun r => key_ltb (key r) k) (matching q).
Proof.
  intros Ht. unfold matching. rewrite filter_flat_map. change (store_candidates (with_before q k)) with (store_candidates q).
  induction (store_candidates q) as [|c cs IH]; [done|]. cbn [flat_map]. by rewrite IH, records_before.
Qed.

Lemma matching_inv q r : snapshot_ok -> r ∈ matching q ->
  String.compare (r_container_id r) last_container_id = Lt /\ dt_leb (r_timestamp r) (lf_end (compile (sq_lines q))) = true /\
  key_allowed (compile (sq_lines q)) (key r) = true.
Proof.
  intros Hsnap (c & Hc & Hr)%elem_of_flat. pose proof (store_candidate_ok q c Hsnap Hc) as Hok.
  destruct (elem_of_records_inv _ _ _ (co_size c Hok) Hr) as (i & l & _ & _ & -> & Hp & Hk). split_and!; [apply Hok| |done].
  unfold passes in Hp. rewrite !andb_true_iff in Hp. apply Hp.
Qed.

Lemma before_resume r h : String.compare (r_container_id r) last_container_id = Lt ->
  dt_leb (r_timestamp r) h = true -> key_ltb (key r) (resume_cursor h) = true.
Proof.
  intros Hc Ht. apply key_ltb_spec. cbn. destruct (dt_leb h (r_timestamp r)) eqn:Hh; [|left; by apply dt_ltb_spec].
  right. split; [by split|]. by left.
Qed.

#[local] Abbreviation page_of q := (page_of summaries rows q (compile (sq_lines q))).

(** The candidates that end before the window does; a partial page leaves fewer of them. *)
Definition ends_inside (q : SearchQuery) (c : Candidate) : bool := dt_ltb (ended_at c) (lf_end (compile (sq_lines q))).
Definition ending (q : SearchQuery) : nat := length (List.filter (ends_inside q) (store_candidates q)).

Lemma filter_length_mono {A} (p r : A -> bool) l : (forall x, p x = true -> r x = true) -> (length (List.filter p l) <= length (List.filter r l))%nat.
Proof.
  intros Hpr. induction l as [|x l IH]; [done|]. cbn. destruct (p x) eqn:Hp; [rewrite (Hpr x Hp); cbn; lia|]. destruct (r x); cbn; lia.
Qed.

Lemma filter_length_lt {A} (p r : A -> bool) l x :
  (forall x, p x = true -> r x = true) -> x ∈ l -> p x = false -> r x = true -> (length (List.filter p l) < length (List.filter r l))%nat.
Proof.
  intros Hpr. induction l as [|y l IH]; [by intros ?%elem_of_nil|]. intros [->|Hx]%elem_of_cons Hp Hr; cbn.
  - rewrite Hp, Hr. cbn. pose proof (filter_length_mono p r l Hpr). lia.
  - specialize (IH Hx Hp Hr). destruct (p y) eqn:Hy; [rewrite (Hpr y Hy); cbn; lia|]. destruct (r y); cbn; lia.
Qed.

Lemma ends_inside_before q k c : tightens q k -> ends_inside (with_before q k) c = true -> ends_inside q c = true.
Proof. intros Ht Hc. eapply dt_lt_le_trans; [exact Hc|by apply end_tightened]. Qed.

Lemma cursor_tightens q page k :
  snapshot_ok -> page_of q (matching q) page -> lp_next_cursor page = Some k -> tightens q k.
Proof.
  intros Hsnap (rest & Hp & _ & _ & Hnext) Hk. rewrite Hk in Hnext. destruct (lp_scanned_back_to page) as [h|].
  - destruct Hnext as (-> & Hh & _). split; [by apply dt_lt_le|]. intros x Hx%key_time. cbn in Hx. unfold key_allowed.
    cbn [lf_before ChunkScan.compile]. cbn [lf_end ChunkScan.compile] in Hh. destruct (q_before (sq_lines q)) as [b|]; [|done].
    apply key_later. eapply dt_le_lt_trans; [exact Hx|]. destruct (dt_leb (q_end_time (sq_lines q)) (k_timestamp b)) eqn:Hb; [|done].
    by eapply dt_lt_le_trans.
  - destruct Hnext as (_ & r & Hr & ->). assert (r ∈ matching q) as Hin.
    { rewrite Hp. apply elem_of_app. left. apply list.last_Some in Hr as [l' ->]. apply elem_of_app. right. by apply list_elem_of_singleton. }
    destruct (matching_inv q r Hsnap Hin) as (_ & Ht & Hall). split; [done|]. intros x Hx. unfold key_allowed in *.
    destruct (lf_before (compile (sq_lines q))); [|done]. by eapply key_trans.
Qed.

(** What a page leaves is what its cursor leads to. *)
Lemma page_next q page k :
  snapshot_ok -> page_of q (matching q) page -> lp_next_cursor page = Some k -> (0 < lf_limit (compile (sq_lines q)))%nat ->
  matching q ≡ₚ lp_lines page ++ matching (with_before q k) /\ StronglySorted newer (lp_lines page) /\
  (forall x y, x ∈ lp_lines page -> y ∈ matching (with_before q k) -> newer x y) /\
  (length (matching (with_before q k)) + ending (with_before q k) < length (matching q) + ending q)%nat.
Proof.
  intros Hsnap Hpage Hk Hlim. pose proof (cursor_tightens q page k Hsnap Hpage Hk) as Ht.
  destruct Hpage as (rest & Hp & Hs & Hnew & Hnext). rewrite Hk in Hnext.
  assert ((forall x, x ∈ lp_lines page -> key_ltb (key x) k = false) /\ (forall y, y ∈ rest -> key_ltb (key y) k = true)) as [Hlines Hrest].
  { destruct (lp_scanned_back_to page) as [h|].
    - destruct Hnext as (-> & _ & _ & Hl & Hr). split.
      + intros x Hx%Hl. apply not_true_is_false. intros Hle%key_time. cbn in Hle. apply dt_ltb_spec in Hx. congruence.
      + intros y Hy. apply before_resume; [|by apply Hr]. apply (matching_inv q y Hsnap). rewrite Hp. apply elem_of_app. by right.
    - destruct Hnext as (_ & r & Hr & ->). apply list.last_Some in Hr as [l' Hl]. split.
      + intros x Hx. rewrite Hl in *. apply not_true_is_false. intros Hxr. apply elem_of_app in Hx as [Hx|Hx].
        * pose proof (StronglySorted_app_1_elem_of _ _ _ _ _ Hs Hx (proj2 (list_elem_of_singleton _ _) eq_refl)) as Hn.
          unfold newer in Hn. pose proof (key_trans _ _ _ Hn Hxr) as Hx'. by rewrite key_irrefl in Hx'.
        * apply list_elem_of_singleton in Hx as ->. by rewrite key_irrefl in Hxr.
      + intros y Hy. apply Hnew; [|done]. rewrite Hl. apply elem_of_app. right. by apply list_elem_of_singleton. }
  assert (matching (with_before q k) ≡ₚ rest) as Hm.
  { rewrite matching_before by done. rewrite (filter_perm _ _ _ Hp), List.filter_app, (filter_none _ _ Hlines), (filter_all _ _ Hrest). done. }
  split_and!; [by rewrite Hm|done|intros x y Hx; rewrite Hm; by apply Hnew|].
  pose proof (Permutation_length Hp) as Hlen. rewrite length_app in Hlen. rewrite (Permutation_length Hm).
  unfold ending. change (store_candidates (with_before q k)) with (store_candidates q).
  pose proof (filter_length_mono _ _ (store_candidates q) (fun c => ends_inside_before q k c Ht)) as Hle.
  destruct (lp_scanned_back_to page) as [h|]; [|lia].
  destruct Hnext as (-> & Hh & (c & Hc & Hce) & _).
  assert (length (List.filter (ends_inside (with_before q (resume_cursor h))) (store_candidates q)) <
          length (List.filter (ends_inside q) (store_candidates q)))%nat; [|lia].
  apply (filter_length_lt _ _ _ c (fun c => ends_inside_before q _ c Ht)); [by apply chosen_in_store| |unfold ends_inside; by rewrite Hce].
  unfold ends_inside. rewrite Hce. apply dt_not_lt. apply (end_at_cursor q (resume_cursor h)).
Qed.

Lemma validate_before q k : validate (with_before q k) = validate q.
Proof. done. Qed.

Lemma all_pages_lines budget time_up fuel q :
  snapshot_ok -> (0 < bd_parallel budget)%nat -> (0 < bd_batch budget)%nat -> validate q = Ok () -> 0 <= q_limit (sq_lines q) ->
  (length (matching q) + ending q < fuel)%nat ->
  exists lines, all_pages budget time_up fuel q = Ok lines /\ lines ≡ₚ matching q /\ StronglySorted newer lines.
Proof.
  intros Hsnap Hpar Hbatch. revert q. induction fuel as [|fuel IH]; intros q Hval Hpos Hfuel; [lia|]. cbn [all_pages].
  destruct (search_page budget (time_up fuel) (fun _ => true) q Hsnap Hpar Hbatch (fun _ => eq_refl) Hval Hpos) as (page & -> & Hpage).
  cbn [result_bind]. destruct (lp_next_cursor page) as [k|] eqn:Hk.
  - destruct (page_next q page k Hsnap Hpage Hk (proj2 (limit_exact q Hval Hpos))) as (Hp & Hs & Hnew & Hless).
    destruct (IH (with_before q k) Hval Hpos ltac:(lia)) as (lines & -> & Hl & Hls). cbn [result_bind].
    exists (lp_lines page ++ lines). split; [done|]. split; [by rewrite Hl|]. apply StronglySorted_app_2; [|done|done].
    intros x y Hx Hy. rewrite Hl in Hy. by apply Hnew.
  - destruct Hpage as (rest & Hp & Hs & _ & Hnext). rewrite Hk in Hnext. destruct Hnext as [-> _]. rewrite app_nil_r in Hp.
    by exists (lp_lines page).
Qed.

Lemma ending_bound q : (ending q <= length (store_candidates q))%nat.
Proof. apply filter_length_le. Qed.


End Pages.
