(* ===== verification/SearchScope.v ===== *)
(** * What a search may show, and searches run on a small store

    Whatever the object store returns, a page has only lines of streams the query may read: the labels
    of a candidate are checked before it is opened, and a result takes its owner from those labels.
    Then a store of one sealed chunk, on which the theorems of [SearchPages] apply, and the orders of
    lines they exclude. *)

From S2P Require Import Prelude Bytes Utf8 ChunkBlock Bloom ChunkFile ChunkScan ChunkQuery ChunkSearch SearchWalk SearchPages.
From stdpp Require Import sorting.
Local Open Scope Z_scope.

Section Scope.
Context `{ChronoLaws} `{ZstdLaws} `{JsonLaws} `{!FooterJson} `{Crc32} `{Xxh3} `{Unicode} `{Memmem}.
Context {AttrPredicate : Type} (attr_matches : AttrPredicate -> option Value -> bool) (is_whitespace : Z -> bool)
  (log_line_from_str : list Z -> option LogLine)
  (read_range : string -> Z -> Z -> result ScanError (list Z)) (read_whole : string -> result ScanError (list Z)).
Context (summaries : list ChunkLabels) (snapshot : string -> option HeadSnapshot) (rows : list Row).

#[local] Abbreviation SearchQuery := (SearchQuery (AttrPredicate := AttrPredicate)).
#[local] Abbreviation LineFilter := (LineFilter (AttrPredicate := AttrPredicate)).
#[local] Abbreviation scan := (scan attr_matches is_whitespace log_line_from_str read_range read_whole snapshot).
#[local] Abbreviation search := (search attr_matches is_whitespace log_line_from_str read_range read_whole summaries snapshot rows).
#[local] Abbreviation compile := (compile is_whitespace).

(** ** Results carry the labels of their candidate *)

Definition of_labels (labels : ChunkLabels) (r : LogLineRecord) : Prop := exists line id, r = record labels line id.

Lemma keep_newest_sub {A} n (v : list A) x : x ∈ keep_newest n v -> x ∈ v.
Proof. unfold keep_newest. destruct (_ <? _)%nat; [|done]. intros Hx. by apply (subseteq_drop _ v) in Hx. Qed.

Lemma accepted_of m (f : LineFilter) lines r : r ∈ accepted attr_matches m f lines -> of_labels (mf_labels m) r.
Proof.
  intros (line & _ & Hr)%list_elem_of_omap. destruct (accept _ _ _ _) as [id|]; [|done]. injection Hr as <-. by exists line, id.
Qed.

Lemma scan_blocks_of m (f : LineFilter) blocks ms bytes cs :
  Forall (of_labels (mf_labels m)) ms -> scan_blocks attr_matches read_range m f blocks ms bytes = Ok cs ->
  Forall (of_labels (mf_labels m)) (cs_matches cs).
Proof.
  revert ms bytes. induction blocks as [|b blocks IH]; intros ms bytes Hms; cbn [scan_blocks]; [by intros [= <-]|].
  destruct (_ <=? _)%nat; [by intros [= <-]|]. destruct (negb _); [by apply IH|].
  destruct (read_range _ _ _) as [x|]; [|done]. cbn [result_bind]. destruct (lift _) as [lines|]; [|done]. cbn [result_bind].
  apply IH. apply Forall_app. split; [|done]. apply list.Forall_forall. intros r Hr%keep_newest_sub. by eapply accepted_of.
Qed.

Lemma scan_sealed_of m (f : LineFilter) cs :
  scan_sealed attr_matches is_whitespace log_line_from_str read_range read_whole m f = Ok cs ->
  Forall (of_labels (mf_labels m)) (cs_matches cs).
Proof.
  unfold scan_sealed. destruct (_ <? 2).
  - destruct (read_whole _) as [raw|]; [|done]. cbn [result_bind]. destruct (decode_v1 _ _) as [lines|]; [|done]. cbn [result_bind].
    intros [= <-]. apply list.Forall_forall. intros r Hr%keep_newest_sub. by eapply accepted_of.
  - destruct (footer _ _) as [ft|]; [|done]. cbn [result_bind]. destruct (if bool_decide _ then _ else _) as [[]|]; [| |done]; cbn [result_bind].
    + intros [= <-]. constructor.
    + destruct (scan_blocks _ _ _ _ _ _ _) as [c|] eqn:Hs; [|done]. cbn [result_bind]. intros [= <-].
      apply scan_blocks_of in Hs; [|constructor]. rewrite list.Forall_forall in *. intros r Hr%keep_newest_sub. by apply Hs.
Qed.

Lemma scan_head_of labels (f : LineFilter) lines ms bytes :
  Forall (of_labels labels) ms -> Forall (of_labels labels) (cs_matches (scan_head_loop attr_matches labels f lines ms bytes)).
Proof.
  revert ms bytes. induction lines as [|[i l] lines IH]; intros ms bytes Hms; cbn [scan_head_loop]; [done|].
  repeat case_match; try (by apply IH); try done. apply IH, Forall_app. split; [done|]. constructor; [by do 2 eexists|constructor].
Qed.

Lemma scan_of c (f : LineFilter) cs : scan c f = Ok cs -> Forall (of_labels (candidate_labels c)) (cs_matches cs).
Proof.
  destruct c as [r|labels]; cbn [ChunkSearch.scan]; [apply scan_sealed_of|]. intros [= <-].
  destruct (snapshot _) as [segments|]; [|constructor]. apply scan_head_of. constructor.
Qed.

(** ** Only matching candidates are read *)

Definition in_store (labels : ChunkLabels) : Prop :=
  labels ∈ summaries \/ exists r, r ∈ rows /\ rw_deleted r = false /\ rw_labels r = labels.

Definition readable (q : SearchQuery) (c : Candidate) : Prop := in_store (candidate_labels c) /\ labels_match (candidate_labels c) q = true.

(** A result of a stream that is in the store and that the query asks for. *)
Definition shown (q : SearchQuery) (r : LogLineRecord) : Prop :=
  exists labels, in_store labels /\ labels_match labels q = true /\ of_labels labels r.

Definition walk_readable (q : SearchQuery) (w : Walk) : Prop := Forall (readable q) (wk_heads w ++ map Sealed (wk_sealed w)).

Lemma head_readable q (f : LineFilter) : Forall (readable q) (head_candidates summaries q f).
Proof.
  apply list.Forall_forall. intros c (labels & -> & Hl)%list_elem_of_fmap. rewrite merge_sort_Permutation in Hl.
  rewrite list_elem_of_In, filter_In in Hl. destruct Hl as [Hin Hc]. apply list_elem_of_In in Hin. split; [by left|].
  unfold head_candidate in Hc. destruct (labels_match labels q) eqn:Hm; [done|]. by cbn in Hc.
Qed.

Lemma batch_readable budget q (f : LineFilter) after : Forall (readable q) (map Sealed (sealed_batch rows budget q f after)).
Proof.
  apply list.Forall_forall. intros c (r & -> & Hr)%list_elem_of_fmap. unfold sealed_batch, candidates in Hr.
  apply subseteq_take in Hr as Hi. rewrite merge_sort_Permutation in Hi.
  rewrite list_elem_of_In, filter_In, where_holds_app, conditions_spec, !andb_true_iff, negb_true_iff in Hi.
  destruct Hi as (Hin & Hc & _). apply list_elem_of_In in Hin. destruct_and! Hc. split; [right; by exists r|done].
Qed.

Lemma refill_readable budget db_up q (f : LineFilter) round w w' :
  walk_readable q w -> refill rows budget db_up q f round w = Ok w' -> walk_readable q w'.
Proof.
  unfold walk_readable, refill. intros Hw. destruct (wk_sealed w) as [|s sealed] eqn:Hs; [|intros [= <-]; by rewrite Hs].
  destruct (wk_sealed_exhausted w); [intros [= <-]; by rewrite Hs|]. destruct (negb _); [done|]. intros [= <-]. cbn [wk_heads wk_sealed].
  rewrite app_nil_r in Hw. apply Forall_app. split; [done|]. apply batch_readable.
Qed.

Lemma pop_readable q w c w' : walk_readable q w -> pop w = (c, w') -> walk_readable q w' /\ from_option (readable q) True c.
Proof.
  unfold walk_readable, pop. rewrite Forall_app. intros [Hh Hs]. destruct (match wk_heads w with [] => _ | _ => _ end).
  - destruct (wk_heads w) as [|h heads] eqn:He; intros [= <- <-]; cbn [wk_heads wk_sealed]; rewrite ?He.
    + by rewrite Forall_app.
    + inv Hh. by rewrite Forall_app.
  - destruct (wk_sealed w) as [|s sealed] eqn:He; intros [= <- <-]; cbn [wk_heads wk_sealed]; rewrite ?He.
    + by rewrite Forall_app.
    + inv Hs. by rewrite Forall_app.
Qed.

Lemma take_batch_readable q n w batch w' :
  walk_readable q w -> take_batch n w = (batch, w') -> walk_readable q w' /\ Forall (readable q) batch.
Proof.
  revert w batch w'. induction n as [|n IH]; intros w batch w' Hw; cbn [take_batch]; [by intros [= <- <-]|].
  destruct (pop w) as [[c|] w1] eqn:Hp; destruct (pop_readable _ _ _ _ Hw Hp) as [Hw1 Hc]; [|by intros [= <- <-]].
  destruct (take_batch n w1) as [b w2] eqn:Ht. intros [= <- <-]. destruct (IH _ _ _ Hw1 Ht). split; [done|by constructor].
Qed.

Lemma absorb_shown q (f : LineFilter) batch pending bytes pending' bytes' :
  Forall (readable q) batch -> Forall (shown q) pending ->
  absorb attr_matches is_whitespace log_line_from_str read_range read_whole snapshot f batch pending bytes = Ok (pending', bytes') ->
  Forall (shown q) pending'.
Proof.
  revert pending bytes. induction batch as [|c batch IH]; intros pending bytes Hb Hp; cbn [absorb]; [by intros [= <- <-]|].
  apply Forall_cons in Hb as [[Hin Hm] Hb]. destruct (scan c f) as [cs|e] eqn:Hs; [|destruct e; try done; by apply IH]. apply IH; [done|].
  rewrite merge_sort_Permutation. apply Forall_app. split; [done|]. apply scan_of in Hs. eapply Forall_impl; [exact Hs|].
  intros r Hr. by exists (candidate_labels c).
Qed.

Lemma promote_shown q horizon limit pending finals pending' finals' :
  Forall (shown q) pending -> Forall (shown q) finals -> promote horizon limit pending finals = (pending', finals') ->
  Forall (shown q) pending' /\ Forall (shown q) finals'.
Proof.
  revert finals. induction pending as [|x pending IH]; intros finals Hp Hf; cbn [promote]; [by intros [= <- <-]|].
  inv Hp. assert (Forall (shown q) (finals ++ [x])) by (apply Forall_app; split; [done|by constructor]).
  destruct (match horizon with None => _ | _ => _ end); [|intros [= <- <-]; split; [by constructor|done]].
  destruct (_ <=? _)%nat; [by intros [= <- <-]|by apply IH].
Qed.

Lemma search_loop_shown budget time_up db_up q (f : LineFilter) limit fuel round w pending finals bytes page :
  walk_readable q w -> Forall (shown q) pending -> Forall (shown q) finals ->
  search_loop attr_matches is_whitespace log_line_from_str read_range read_whole snapshot rows
    budget time_up db_up q f limit fuel round w pending finals bytes = Ok page ->
  Forall (shown q) (lp_lines page).
Proof.
  revert round w pending finals bytes. induction fuel as [|fuel IH]; intros round w pending finals bytes Hw Hp Hf; cbn [search_loop]; [done|].
  destruct (refill _ _ _ _ _ _ _) as [w1|] eqn:Hr; [|done]. cbn [result_bind]. pose proof (refill_readable _ _ _ _ _ _ _ Hw Hr) as Hw1.
  destruct (promote _ _ _ _) as [p1 f1] eqn:Hpr. destruct (promote_shown _ _ _ _ _ _ _ Hp Hf Hpr) as [Hp1 Hf1].
  destruct (_ <=? _)%nat; [intros [= <-]; by apply Forall_take|]. destruct (next_ended_at w1) as [h|]; [|by intros [= <-]].
  destruct (_ && _); [by intros [= <-]|]. destruct (take_batch _ w1) as [batch w2] eqn:Ht.
  destruct (take_batch_readable _ _ _ _ _ Hw1 Ht) as [Hw2 Hb].
  destruct (absorb _ _ _ _ _ _ _ _ _ _) as [[p2 b2]|] eqn:Ha; [|done]. cbn [result_bind]. apply IH; [done| |done].
  exact (absorb_shown _ _ _ _ _ _ _ Hb Hp1 Ha).
Qed.

(** A result the scope allows, by the owner it names. *)
Definition in_scope (scope : LogAccessScope) (r : LogLineRecord) : Prop :=
  match scope with
  | ScopeAll => True
  | ScopeAllowed project_ids external_service_ids =>
      match r_external_service_id r with
      | Some id => id ∈ external_service_ids
      | None => exists id, r_project_id r = Some id /\ id ∈ project_ids
      end
  end.

Lemma shown_in_scope q r : shown q r -> in_scope (sq_scope q) r.
Proof.
  intros (labels & _ & Hm & line & id & ->). unfold labels_match in Hm. destruct (scope_ok (sq_scope q) labels) eqn:Hs; [clear Hm|done].
  unfold in_scope, scope_ok, one_of, mem_z in *. destruct (sq_scope q) as [|ps es]; [done|]. cbn.
  destruct (cl_external_service_id labels) as [e|]; apply bool_decide_eq_true in Hs; [done|]. by exists (cl_project_id labels).
Qed.

(** C9: Whatever the objects contain and whichever reads fail, every line a search returns belongs
    to a project or an external service the caller's scope allows, and to a stream of the store that
    is not deleted and that passes every label filter of the query. *)
Theorem search_within_scope budget time_up db_up q page :
  search budget time_up db_up q = Ok page ->
  Forall (fun r => in_scope (sq_scope q) r /\
    exists labels, in_store labels /\ labels_match labels q = true /\ of_labels labels r) (lp_lines page).
Proof.
  unfold ChunkSearch.search. destruct (validate q); [|done]. intros Hs. apply search_loop_shown in Hs; [|..|constructor|constructor].
  - eapply Forall_impl; [exact Hs|]. intros r Hr. split; [by apply shown_in_scope|done].
  - unfold walk_readable. cbn [wk_heads wk_sealed map]. rewrite app_nil_r. apply head_readable.
Qed.
End Scope.

(** ** A store of one sealed chunk and one head buffer *)

#[local] Existing Instances nanos_chrono nanos_chrono_laws stored_zstd stored_zstd_laws
  raw_json raw_json_laws poly_hash ascii_unicode ascii_unicode_laws coded_footer coded_footer_laws sum_crc naive_memmem.

Definition stored_row : Row := {| rw_id := 5; rw_manifest := scan_manifest; rw_deleted := false |}.

Definition head_line_at (t : Z) : LogLine := sample_line t Info [71; 69; 84] None.

Definition head_labels : ChunkLabels :=
  tuple_labels (1, None, "1", "web", "d", (None, None, None, 1, 4, ([], 1700000000000000002, 1700000000000000002)))%string.

Definition small_heads (id : string) : option HeadSnapshot :=
  if bool_decide (id = "d"%string) then Some [[head_line_at 1700000000000000002]] else None.

Definition store_content (c : Candidate) : list LogLine :=
  match c with Sealed _ => scan_lines | Head _ => [head_line_at 1700000000000000002] end.

Definition asks_for (lines : @LogQuery nanos_chrono unit) : SearchQuery := {|
  sq_lines := lines; sq_scope := ScopeAllowed [1] []; sq_source := Collected; sq_selection := None; sq_envs := []; sq_services := [];
  sq_container_ids := []; sq_node_ids := []; sq_deploy_id := None; sq_chunk_seqs := None |}.

Lemma stored_tuple : labels_tuple (mf_labels scan_manifest) =
  (1, None, "1", "web", "c", (None, None, None, 2, 20, ([0; 0; 1; 0; 1], 1700000000000000000, 1700000000000000005)))%string.
Proof. vm_compute. reflexivity. Qed.

Lemma row_labels : candidate_labels (Sealed stored_row) =
  tuple_labels (1, None, "1", "web", "c", (None, None, None, 2, 20, ([0; 0; 1; 0; 1], 1700000000000000000, 1700000000000000005)))%string.
Proof. rewrite <- stored_tuple. cbn [candidate_labels]. unfold rw_labels. cbn [rw_manifest stored_row]. by destruct (mf_labels scan_manifest). Qed.

#[local] Abbreviation small_ok := (snapshot_ok elements scan_read [head_labels] small_heads [stored_row] store_content).

Lemma small_store : small_ok.
Proof.
  split; try (cbn; repeat constructor; by intros ?%elem_of_nil).
  - intros r ->%list_elem_of_singleton _. split.
    + exists true, scan_chunk. split; [apply scan_stored|]. intros _. repeat constructor; vm_compute; congruence.
    + done.
    + done.
    + rewrite row_labels. by intros l [-> | [-> | []%elem_of_nil]%elem_of_cons]%elem_of_cons.
    + rewrite row_labels. by intros l [-> | [-> | []%elem_of_nil]%elem_of_cons]%elem_of_cons.
    + rewrite row_labels. by intros l [-> | [-> | []%elem_of_nil]%elem_of_cons]%elem_of_cons.
    + by rewrite row_labels.
    + repeat constructor.
  - intros labels ->%list_elem_of_singleton. split; try done.
    + by eexists.
    + by intros l ->%list_elem_of_singleton.
    + by intros l ->%list_elem_of_singleton.
    + by intros l ->%list_elem_of_singleton.
    + repeat constructor.
Qed.

#[local] Abbreviation attr_any := (fun (_ : unit) (_ : option Value) => true).
#[local] Abbreviation is_space := (fun c : Z => c =? 32).
#[local] Abbreviation no_v1 := (fun _ : list Z => @None LogLine).
#[local] Abbreviation no_whole := (fun _ : string => Err (A := list Z) StorageError).
#[local] Abbreviation small_search := (search attr_any is_space no_v1 scan_read no_whole [head_labels] small_heads [stored_row]).
#[local] Abbreviation small_matching := (matching attr_any is_space [head_labels] [stored_row] store_content).

Lemma asked_valid : validate (asks_for scan_query) = Ok ().
Proof. reflexivity. Qed.



Lemma search_within_scope_witness : exists page,
  small_search default_budget (fun _ => false) (fun _ => true) (asks_for scan_query) = Ok page /\
  Forall (fun r => in_scope (ScopeAllowed [1] []) r /\
    exists labels, in_store [head_labels] [stored_row] labels /\ labels_match labels (asks_for scan_query) = true /\ of_labels labels r)
    (lp_lines page).
Proof.
  destruct (search_page elements attr_any is_space no_v1 scan_read no_whole [head_labels] small_heads [stored_row] store_content
    default_budget (fun _ => false) (fun _ => true) (asks_for scan_query) small_store ltac:(cbn; lia) ltac:(cbn; lia) (fun _ => eq_refl)
    asked_valid ltac:(cbn; lia)) as (page & Hs & _).
  exists page. split; [exact Hs|]. exact (search_within_scope attr_any is_space no_v1 scan_read no_whole [head_labels] small_heads
    [stored_row] default_budget (fun _ => false) (fun _ => true) (asks_for scan_query) page Hs).
Defined.

(** ** Orders of lines the theorems exclude *)

#[local] Abbreviation head_pages lines q := (all_pages attr_any is_space no_v1 scan_read no_whole
  [tuple_labels (1, None, "1", "web", "d", (None, None, None, 2, 4, ([], 3, 5)))%string] (fun _ => Some [lines]) []
  default_budget (fun _ _ => false) 9 q).

(** One line per page. *)
Definition one_by_one : SearchQuery := asks_for {|
  q_text := None; q_start_time := (0 : DateTime); q_end_time := (2 ^ 62 : DateTime); q_before := None; q_levels := []; q_limit := 1;
  q_attrs := [] |}.

Definition times (ls : result SearchError (list LogLineRecord)) : result SearchError (list Z) :=
  match ls with Ok ls => Ok (map (fun r => (r_timestamp r : Z)) ls) | Err e => Err e end.

(** In order, both lines are found. *)
Example ordered_lines_are_found : times (head_pages [head_line_at 3; head_line_at 5] one_by_one) = Ok [5; 3].
Proof. vm_compute. reflexivity. Qed.

(** A buffer keeps the order of arrival; the last line that arrived ends the first page, and the
    cursor passes over the newer line that arrived before it. *)
Example out_of_order_line_is_skipped : times (head_pages [head_line_at 5; head_line_at 3] one_by_one) = Ok [3].
Proof. vm_compute. reflexivity. Qed.

(** Lines of a head buffer have one id, so of two lines of the same time the second is behind no cursor. *)
Example equal_times_line_is_skipped : times (head_pages [head_line_at 3; head_line_at 3] one_by_one) = Ok [3].
Proof. vm_compute. reflexivity. Qed.
