(* ===== verification/Prog.v ===== *)
(** * Programs of atomic accesses, and tasks that interleave

    Asynchronous code that shares state with other tasks: a program is a tree of the accesses it makes
    (a query, a call of a service, an atomic of a shared map) and of what it does with the answers.
    Tasks run in any order, one access at a time; an access may have to wait.  [pool_safe] is the
    induction every invariant of such a system goes through: each program keeps it, in whatever state
    the other tasks leave. *)

From S2P Require Import Prelude.

Lemma delete_insert_same {A} (l : list A) i x : delete i (<[i := x]> l) = delete i l.
Proof. revert i. induction l as [|y l IH]; intros [|i]; cbn; [done..|]. f_equal. apply IH. Qed.

(** ** Programs *)

Section Programs.
Context {Action : Type} {reply : Action -> Type}.

Inductive prog (A : Type) : Type :=
  | Ret (a : A)
  | Do (a : Action) (k : reply a -> prog A).

#[global] Arguments Ret {A} a.
#[global] Arguments Do {A} a k.

Fixpoint prog_bind {A B} (p : prog A) (f : A -> prog B) : prog B :=
  match p with
  | Ret a => f a
  | Do a k => Do a (fun x => prog_bind (k x) f)
  end.

Definition call (a : Action) : prog (reply a) := Do a Ret.

(** Early return: Rust's [?] on the result of a program. *)
Definition prog_try {E A B} (p : prog (result E A)) (f : A -> prog (result E B)) : prog (result E B) :=
  prog_bind p (fun r => match r with Ok a => f a | Err e => Ret (Err e) end).

(** A [for] loop whose body gives one answer per element. *)
Fixpoint prog_map {A B} (f : A -> prog B) (l : list A) : prog (list B) :=
  match l with
  | [] => Ret []
  | x :: l => prog_bind (f x) (fun y => prog_bind (prog_map f l) (fun ys => Ret (y :: ys)))
  end.

(** ** Programs that make only some of the accesses *)

Inductive only (may : Action -> bool) {A} : prog A -> Prop :=
  | only_ret x : only may (Ret x)
  | only_do a k : may a = true -> (forall x, only may (k x)) -> only may (Do a k).

Lemma only_bind may {A B} (p : prog A) (f : A -> prog B) : only may p -> (forall x, only may (f x)) -> only may (prog_bind p f).
Proof. induction 1; cbn; [done|]. intros. constructor; [done|]. eauto. Qed.

Lemma only_call may a : may a = true -> only may (call a).
Proof. intros Ha. constructor; [done|]. constructor. Qed.

Lemma only_map may {A B} (f : A -> prog B) l : (forall x, only may (f x)) -> only may (prog_map f l).
Proof. intros Hf. induction l as [|x l IH]; cbn; [constructor|]. apply only_bind; [done|]. intros y. apply only_bind; [done|]. constructor. Qed.
End Programs.

(** Goes through a program, checking each access by computation. *)
Ltac only_steps :=
  unfold prog_try;
  repeat (intros; first [ apply only_ret | assumption | match goal with |- only ?m (Do ?a ?k) => apply (only_do m a k); [reflexivity|] end
                        | apply only_bind | match goal with |- only ?m (call ?a) => exact (only_call m a eq_refl) end | apply only_map
                        | match goal with |- only _ (match ?x with _ => _ end) => destruct x end ]).

Arguments prog {Action} reply A.

Notation "'let*' x ':=' p 'in' q" := (prog_bind p (fun x => q))
  (at level 10, x pattern, p at level 100, q at level 200, format "'[v' 'let*'  x  ':='  p  'in' '/' q ']'") : temps_scope.
Notation "'try*' x ':=' p 'in' q" := (prog_try p (fun x => q))
  (at level 10, x pattern, p at level 100, q at level 200, format "'[v' 'try*'  x  ':='  p  'in' '/' q ']'") : temps_scope.

(** ** Running them *)

Section Running.
Context {Action : Type} {reply : Action -> Type} {World Choice Agent Env : Type}.
(** One access of an agent: its answer and the new state, or nothing while it has to wait.  [Choice]
    is what the world decides (a call that fails, an order), [Env] what happens by itself (time). *)
Context (perform : Agent -> Choice -> World -> forall a : Action, option (reply a * World)) (disturb : Env -> World -> World).
Context {Call R : Type} (body : Agent -> Call -> prog reply R).

Record Task := { tk_agent : Agent; tk_prog : prog reply R }.
Record System := { sy_world : World; sy_tasks : list Task }.

Inductive Event :=
  | Spawn (ag : Agent) (c : Call)
  | Turn (i : nat) (c : Choice)
  | Happen (e : Env)
  | Drop (i : nat).

(** One access of a task, if it has one to make and need not wait. *)
Definition advance (t : Task) (c : Choice) (w : World) : option (Task * World) :=
  match tk_prog t with
  | Ret _ => None
  | Do a k => match perform (tk_agent t) c w a with
              | Some (x, w) => Some ({| tk_agent := tk_agent t; tk_prog := k x |}, w)
              | None => None
              end
  end.

Definition handle (s : System) (ev : Event) : System :=
  match ev with
  | Spawn ag c => {| sy_world := sy_world s; sy_tasks := sy_tasks s ++ [{| tk_agent := ag; tk_prog := body ag c |}] |}
  | Turn i c =>
      match sy_tasks s !! i with
      | Some t => match advance t c (sy_world s) with
                  | Some (t, w) => {| sy_world := w; sy_tasks := <[i := t]> (sy_tasks s) |}
                  | None => s
                  end
      | None => s
      end
  | Happen e => {| sy_world := disturb e (sy_world s); sy_tasks := sy_tasks s |}
  | Drop i => {| sy_world := sy_world s; sy_tasks := delete i (sy_tasks s) |}
  end.

Definition exec (s : System) (evs : list Event) : System := fold_left handle evs s.

Definition finished (t : Task) : bool := match tk_prog t with Ret _ => true | Do _ _ => false end.

(** A task that is given turn after turn, alone, with what each turn finds. *)
Fixpoint run_alone (t : Task) (w : World) (turns : list (Env * Choice)) : Task * World :=
  match turns with
  | [] => (t, w)
  | (e, c) :: turns => match advance t c (disturb e w) with
                       | Some (t, w) => run_alone t w turns
                       | None => run_alone t w turns
                       end
  end.

(** ** What a program ensures when it runs alone *)

Section Alone.
Context (allowed : Choice -> Prop).

Fixpoint alone {A} (ag : Agent) (p : prog reply A) (Q : A -> World -> Prop) (w : World) : Prop :=
  match p with
  | Ret x => Q x w
  | Do a k => forall e c x w', allowed c -> perform ag c (disturb e w) a = Some (x, w') -> alone ag (k x) Q w'
  end.

Lemma alone_bind {A B} ag (p : prog reply A) (f : A -> prog reply B) Q w :
  alone ag p (fun x w => alone ag (f x) Q w) w -> alone ag (prog_bind p f) Q w.
Proof. revert w. induction p as [x|a k IH]; intros w; cbn; [done|]. eauto. Qed.

Lemma alone_mono {A} ag (p : prog reply A) (Q Q' : A -> World -> Prop) w :
  (forall x w, Q x w -> Q' x w) -> alone ag p Q w -> alone ag p Q' w.
Proof. intros HQ. revert w. induction p as [x|a k IH]; intros w; cbn; [apply HQ|]. eauto. Qed.

Lemma alone_do {A} ag a (k : reply a -> prog reply A) Q w :
  (forall e c x w', allowed c -> perform ag c (disturb e w) a = Some (x, w') -> alone ag (k x) Q w') -> alone ag (Do a k) Q w.
Proof. done. Qed.

(** A relation every access keeps holds between the start and the end. *)
Lemma alone_only {A} (may : Action -> bool) (rel : World -> World -> Prop) ag (p : prog reply A) w :
  (forall w, rel w w) -> (forall w1 w2 w3, rel w1 w2 -> rel w2 w3 -> rel w1 w3) ->
  (forall a e c w x w', may a = true -> perform ag c (disturb e w) a = Some (x, w') -> rel w w') ->
  only may p -> alone ag p (fun _ w' => rel w w') w.
Proof.
  intros Hrefl Htrans Hstep Hp. revert w. induction Hp as [x|a k Ha _ IH]; intros w; cbn [alone]; [done|].
  intros e c x w' _ Hperf. eapply alone_mono; [|apply IH]. intros y w'' Hw. eapply Htrans; [|exact Hw]. by eapply Hstep.
Qed.

Lemma run_alone_ensures (turns : list (Env * Choice)) t w Q t' w' r :
  Forall (fun turn => allowed turn.2) turns -> alone (tk_agent t) (tk_prog t) Q w ->
  run_alone t w turns = (t', w') -> tk_prog t' = Ret r -> Q r w'.
Proof.
  revert t w. induction turns as [|[e c] turns IH]; intros t w Ha Hw; cbn [run_alone].
  - intros [= <- <-] Hr. rewrite Hr in Hw. exact Hw.
  - inv Ha. unfold advance. destruct t as [ag [x|a k]]; cbn [tk_prog tk_agent] in *; [by apply IH|].
    destruct (perform ag c (disturb e w) a) as [[x w1]|] eqn:Hp; [|by apply IH]. apply IH; [done|]. by apply (Hw e c).
Qed.
End Alone.

(** ** Invariants of the pool *)

Section Pool.
Context {Role : Type} (allowed : Event -> Prop).
(** The part each task plays, with the state they share; the order of the tasks does not matter. *)
Context (Inv : World -> list Role -> Prop).
Context (Inv_perm : forall w rs rs', rs ≡ₚ rs' -> Inv w rs -> Inv w rs').

(** A program that keeps the invariant at every access, playing the part [r]; [Q] at the end. *)
Fixpoint keeps {A} (ag : Agent) (r : Role) (p : prog reply A) (Q : A -> Role -> Prop) : Prop :=
  match p with
  | Ret x => Q x r
  | Do a k => forall i c w others x w', allowed (Turn i c) -> Inv w (r :: others) -> perform ag c w a = Some (x, w') ->
      exists r', Inv w' (r' :: others) /\ keeps ag r' (k x) Q
  end.

Lemma keeps_bind {A B} ag r (p : prog reply A) (f : A -> prog reply B) Q :
  keeps ag r p (fun x r => keeps ag r (f x) Q) -> keeps ag r (prog_bind p f) Q.
Proof.
  revert r. induction p as [x|a k IH]; intros r; cbn; [done|]. intros Hk i c w others x w' Hc Hi Hp.
  destruct (Hk i c w others x w' Hc Hi Hp) as (r' & Hi' & Hk'). exists r'. eauto.
Qed.

Lemma keeps_mono {A} ag r (p : prog reply A) (Q Q' : A -> Role -> Prop) :
  (forall x r, Q x r -> Q' x r) -> keeps ag r p Q -> keeps ag r p Q'.
Proof.
  intros HQ. revert r. induction p as [x|a k IH]; intros r; cbn; [apply HQ|]. intros Hk i c w others x w' Hc Hi Hp.
  destruct (Hk i c w others x w' Hc Hi Hp) as (r' & Hi' & Hk'). exists r'. eauto.
Qed.

Context (Done : R -> Role -> Prop).

Definition plays (t : Task) (r : Role) : Prop := keeps (tk_agent t) r (tk_prog t) Done.

Definition pool_ok (s : System) : Prop := exists roles, Inv (sy_world s) roles /\ Forall2 plays (sy_tasks s) roles.

Context (spawn_ok : forall ag c w rs, allowed (Spawn ag c) -> Inv w rs -> exists r, Inv w (r :: rs) /\ keeps ag r (body ag c) Done).
Context (disturb_ok : forall e w rs, allowed (Happen e) -> Inv w rs -> Inv (disturb e w) rs).
Context (no_drop : forall i, ~ allowed (Drop i)).

Lemma turn_ok s i c : allowed (Turn i c) -> pool_ok s -> pool_ok (handle s (Turn i c)).
Proof.
  intros Hc (roles & Hi & Hf). cbn [handle]. destruct (sy_tasks s !! i) as [t|] eqn:Ht; [|by exists roles].
  destruct (Forall2_lookup_l _ _ _ _ _ Hf Ht) as (r & Hr & Hp). unfold advance, plays in *.
  destruct (tk_prog t) as [x|a k]; [by exists roles|]. cbn in Hp.
  destruct (perform (tk_agent t) c (sy_world s) a) as [[x w']|] eqn:Hperf; [|by exists roles].
  pose proof (delete_Permutation _ _ _ Hr) as Hsplit.
  destruct (Hp i c (sy_world s) _ x w' Hc (Inv_perm _ _ _ Hsplit Hi) Hperf) as (r' & Hi' & Hk).
  exists (<[i := r']> roles). cbn. split.
  - eapply Inv_perm; [|exact Hi']. pose proof (list_lookup_insert_eq roles i r' (lookup_lt_Some _ _ _ Hr)) as Hl.
    rewrite (delete_Permutation _ _ _ Hl). by rewrite delete_insert_same.
  - by apply Forall2_insert.
Qed.

Lemma handle_ok s ev : allowed ev -> pool_ok s -> pool_ok (handle s ev).
Proof.
  destruct ev as [ag c|i c|e|i]; intros Ha Hs.
  - destruct Hs as (roles & Hi & Hf). destruct (spawn_ok ag c _ _ Ha Hi) as (r & Hi' & Hk). exists (roles ++ [r]). cbn. split.
    + eapply Inv_perm; [|exact Hi']. by rewrite Permutation_app_comm.
    + apply Forall2_app; [done|]. by repeat constructor.
  - by apply turn_ok.
  - destruct Hs as (roles & Hi & Hf). exists roles. split; [by apply disturb_ok|done].
  - by apply no_drop in Ha.
Qed.

Lemma pool_safe s evs : Forall allowed evs -> pool_ok s -> pool_ok (exec s evs).
Proof.
  unfold exec. revert s. induction evs as [|ev evs IH]; intros s Ha Hs; [done|]. inv Ha. cbn. apply IH; [done|]. by apply handle_ok.
Qed.
End Pool.
End Running.

Arguments Spawn {Choice Agent Env Call} ag c.
Arguments Turn {Choice Agent Env Call} i c.
Arguments Happen {Choice Agent Env Call} e.
Arguments Drop {Choice Agent Env Call} i.
