(* ===== verification/OnDemand.v ===== *)
(** * Environments that sleep when idle and wake on request

    [crates/temps-proxy/src/on_demand.rs]: the hosts of sleeping environments, activity, the idle
    sweep, putting an environment to sleep and waking it.  Every query, call of the container runtime
    and access to a shared map is one action of a program ([Prog]); several proxies with their own
    [OnDemandManager] share the database and the containers of the node.  The rows that name an
    environment's deployment and the deployment's containers do not change during a run.  Which calls
    fail, in which order parallel calls take effect and when a container is healthy is decided by a
    [Choice]; time passes between actions. *)

From S2P Require Import Prelude Wildcard Bytes Prog.
Local Open Scope Z_scope.

(** ** The hosts of sleeping environments *)

Record SleepingEnvironmentInfo := {
  si_environment_id : Z; si_project_id : Z; si_deployment_id : Z; si_wake_timeout_seconds : Z
}.

Record SleepingDomainSnapshot := {
  sd_exact : gmap string SleepingEnvironmentInfo;
  sd_wildcard_bases : gmap string SleepingEnvironmentInfo
}.

Definition no_domains : SleepingDomainSnapshot := {| sd_exact := ∅; sd_wildcard_bases := ∅ |}.

(** [SleepingDomainSnapshot::insert]. *)
Definition domain_insert (d : SleepingDomainSnapshot) (domain : string) (info : SleepingEnvironmentInfo) : SleepingDomainSnapshot :=
  match strip_prefix "*." domain with
  | Some base =>
      if String.eqb base "" then d
      else {| sd_exact := sd_exact d; sd_wildcard_bases := <[base := info]> (sd_wildcard_bases d) |}
  | None => {| sd_exact := <[domain := info]> (sd_exact d); sd_wildcard_bases := sd_wildcard_bases d |}
  end.

(** [str::split_once]. *)
Fixpoint split_once (c : ascii) (s : string) : option (string * string) :=
  match s with
  | EmptyString => None
  | String a s => if Ascii.eqb a c then Some (EmptyString, s)
                  else match split_once c s with Some (l, r) => Some (String a l, r) | None => None end
  end.

(** [SleepingDomainSnapshot::get]. *)
Definition domain_get (d : SleepingDomainSnapshot) (domain : string) : option SleepingEnvironmentInfo :=
  match sd_exact d !! domain with
  | Some info => Some info
  | None =>
      match split_once dot domain with
      | Some (label, base) => if String.eqb label "" || String.eqb base "" then None else sd_wildcard_bases d !! base
      | None => None
      end
  end.

(** ** The manager *)

Inductive OnDemandError :=
  | Database
  | ContainerOperation (container_id : string)
  | WakeTimeout (environment_id timeout_secs : Z)
  | NoDeployment (environment_id : Z)
  | NotFound (environment_id : Z)
  | PollsExhausted.

Record OnDemandConfig := { oc_environment_id : Z; oc_idle_timeout_seconds : Z; oc_wake_timeout_seconds : Z }.

(** [struct WakeState]: the flag, and how often [notify_waiters] was called. *)
Record WakeState := { ws_waking : bool; ws_notified : nat }.

(** [struct OnDemandManager]; a wake state is shared, the map holds references to it.  Of
    [route_reloaded] the number of signals is kept, of [wake_slots] the free permits. *)
Record OnDemandManager := {
  om_last_activity : gmap Z Z;
  om_configs : gmap Z OnDemandConfig;
  om_wake_states : gmap Z nat;
  om_sleeping_domains : SleepingDomainSnapshot;
  om_local_node_id : option Z;
  om_reloads : nat;
  om_wake_slots : nat
}.

Definition MAX_CONCURRENT_WAKE_WAITERS : nat := 256.

(** [OnDemandManager::new]. *)
Definition manager_new (local_node_id : option Z) : OnDemandManager :=
  {| om_last_activity := ∅; om_configs := ∅; om_wake_states := ∅; om_sleeping_domains := no_domains; om_local_node_id := local_node_id;
     om_reloads := 0; om_wake_slots := MAX_CONCURRENT_WAKE_WAITERS |}.

(** [is_local_container]. *)
Definition is_local_container (m : OnDemandManager) (node_id : option Z) : bool :=
  match node_id with
  | None => true
  | Some id => bool_decide (om_local_node_id m = Some id)
  end.

(** A row of [deployment_containers]. *)
Record ContainerRow := { cr_container_id : string; cr_deployment_id : Z; cr_node_id : option Z; cr_deleted : bool }.

(** [Job::ForceRouteReload]. *)
Record ForceRouteReload := { fr_environment_id : option Z; fr_deployment_id : option Z }.

(** What the proxies share: the [sleeping] and [last_activity_at] columns, the running containers, the
    clock in nanoseconds, the wake states, the managers, and the reloads that were asked for. *)
Record World := {
  w_sleeping : gset Z;
  w_last_activity_at : gmap Z Z;
  w_running : gset string;
  w_clock : Z;
  w_wake : list WakeState;
  w_managers : list OnDemandManager;
  w_jobs : list ForceRouteReload;
  w_notifies : nat
}.

(** ** Actions *)

Inductive Action :=
  | DbFallAsleep (environment_id : Z)
  | DbWakeUp (environment_id : Z)
  | DbSetSleeping (environment_id : Z) (sleeping : bool)
  | DbFindEnvironment (environment_id : Z)
  | DbContainers (deployment_id : Z)
  | DbTouch (environment_id at_ns : Z) (only_awake : bool)
  | DbNotify
  | SendReload (job : ForceRouteReload)
  | StartContainer (container_id : string)
  | StopContainer (container_id : string)
  | IsHealthy (container_id : string)
  | EffectOrder (container_ids : list string)
  | Now
  | SleepUntil (at_ns : Z)
  | Self
  | Configs
  | LastActivity (environment_id : Z)
  | StoreActivity (environment_id secs : Z)
  | PutConfig (config : OnDemandConfig)
  | ClearConfigs
  | InitActivity (environment_id secs : Z)
  | DropConfig (environment_id : Z)
  | DropActivity (environment_id : Z)
  | DropWakeState (environment_id : Z)
  | PutDomains (domains : SleepingDomainSnapshot)
  | GetWakeState (environment_id : Z)
  | StartWaking (state : nat)
  | StopWaking (state : nat)
  | NotifyWaiters (state : nat)
  | Notified (state : nat)
  | AwaitNotified (state notified : nat) (deadline_ns : Z)
  | AcquireSlot
  | ReleaseSlot
  | NotifyReloaded
  | Reloads
  | AwaitReload (reloads : nat) (deadline_ns : Z)
  | ResolveContext (host : string).

Definition answer (A : Type) : Type := result OnDemandError A.

Definition reply (a : Action) : Type :=
  match a with
  | DbFallAsleep _ | DbWakeUp _ => answer bool
  | DbSetSleeping _ _ | DbTouch _ _ _ | DbNotify | SendReload _ | StartContainer _ | StopContainer _ => answer unit
  | DbFindEnvironment _ => answer (option (bool * option Z))
  | DbContainers _ => answer (list ContainerRow)
  | IsHealthy _ => answer bool
  | EffectOrder _ => list string
  | Now => Z
  | Self => OnDemandManager
  | Configs => list OnDemandConfig
  | LastActivity _ => option Z
  | GetWakeState _ | Notified _ | Reloads => nat
  | StartWaking _ | AwaitNotified _ _ _ | AcquireSlot | AwaitReload _ _ | ResolveContext _ => bool
  | _ => unit
  end.

#[local] Abbreviation program := (prog reply).
#[local] Abbreviation call := (call (reply := reply)).

(** What the world decides at a turn. *)
Record Choice := { ch_fails : Action -> bool; ch_healthy : bool; ch_routable : bool; ch_order : list nat }.

Definition permuted {A} (order : list nat) (l : list A) : list A :=
  if bool_decide (order ≡ₚ seq 0 (length l)) then omap (fun i => l !! i) order else l.

Definition set_sleeping (s : gset Z) (w : World) : World :=
  {| w_sleeping := s; w_last_activity_at := w_last_activity_at w; w_running := w_running w; w_clock := w_clock w; w_wake := w_wake w;
     w_managers := w_managers w; w_jobs := w_jobs w; w_notifies := w_notifies w |}.
Definition set_last_activity_at (l : gmap Z Z) (w : World) : World :=
  {| w_sleeping := w_sleeping w; w_last_activity_at := l; w_running := w_running w; w_clock := w_clock w; w_wake := w_wake w;
     w_managers := w_managers w; w_jobs := w_jobs w; w_notifies := w_notifies w |}.
Definition set_running (r : gset string) (w : World) : World :=
  {| w_sleeping := w_sleeping w; w_last_activity_at := w_last_activity_at w; w_running := r; w_clock := w_clock w; w_wake := w_wake w;
     w_managers := w_managers w; w_jobs := w_jobs w; w_notifies := w_notifies w |}.
Definition set_wake (s : list WakeState) (w : World) : World :=
  {| w_sleeping := w_sleeping w; w_last_activity_at := w_last_activity_at w; w_running := w_running w; w_clock := w_clock w; w_wake := s;
     w_managers := w_managers w; w_jobs := w_jobs w; w_notifies := w_notifies w |}.
Definition set_managers (ms : list OnDemandManager) (w : World) : World :=
  {| w_sleeping := w_sleeping w; w_last_activity_at := w_last_activity_at w; w_running := w_running w; w_clock := w_clock w;
     w_wake := w_wake w; w_managers := ms; w_jobs := w_jobs w; w_notifies := w_notifies w |}.
Definition add_job (j : ForceRouteReload) (w : World) : World :=
  {| w_sleeping := w_sleeping w; w_last_activity_at := w_last_activity_at w; w_running := w_running w; w_clock := w_clock w;
     w_wake := w_wake w; w_managers := w_managers w; w_jobs := w_jobs w ++ [j]; w_notifies := w_notifies w |}.
Definition add_notify (w : World) : World :=
  {| w_sleeping := w_sleeping w; w_last_activity_at := w_last_activity_at w; w_running := w_running w; w_clock := w_clock w;
     w_wake := w_wake w; w_managers := w_managers w; w_jobs := w_jobs w; w_notifies := S (w_notifies w) |}.

(** Time goes on. *)
Definition pass (ns : N) (w : World) : World :=
  {| w_sleeping := w_sleeping w; w_last_activity_at := w_last_activity_at w; w_running := w_running w; w_clock := w_clock w + Z.of_N ns;
     w_wake := w_wake w; w_managers := w_managers w; w_jobs := w_jobs w; w_notifies := w_notifies w |}.

Definition with_activity (l : gmap Z Z) (m : OnDemandManager) : OnDemandManager :=
  {| om_last_activity := l; om_configs := om_configs m; om_wake_states := om_wake_states m; om_sleeping_domains := om_sleeping_domains m;
     om_local_node_id := om_local_node_id m;
     om_reloads := om_reloads m; om_wake_slots := om_wake_slots m |}.
Definition with_configs (cs : gmap Z OnDemandConfig) (m : OnDemandManager) : OnDemandManager :=
  {| om_last_activity := om_last_activity m; om_configs := cs; om_wake_states := om_wake_states m;
     om_sleeping_domains := om_sleeping_domains m; om_local_node_id := om_local_node_id m;
     om_reloads := om_reloads m; om_wake_slots := om_wake_slots m |}.
Definition with_wake_states (ws : gmap Z nat) (m : OnDemandManager) : OnDemandManager :=
  {| om_last_activity := om_last_activity m; om_configs := om_configs m; om_wake_states := ws;
     om_sleeping_domains := om_sleeping_domains m; om_local_node_id := om_local_node_id m;
     om_reloads := om_reloads m; om_wake_slots := om_wake_slots m |}.
Definition with_domains (d : SleepingDomainSnapshot) (m : OnDemandManager) : OnDemandManager :=
  {| om_last_activity := om_last_activity m; om_configs := om_configs m; om_wake_states := om_wake_states m; om_sleeping_domains := d;
     om_local_node_id := om_local_node_id m;
     om_reloads := om_reloads m; om_wake_slots := om_wake_slots m |}.

Definition with_reloads (n : nat) (m : OnDemandManager) : OnDemandManager :=
  {| om_last_activity := om_last_activity m; om_configs := om_configs m; om_wake_states := om_wake_states m;
     om_sleeping_domains := om_sleeping_domains m; om_local_node_id := om_local_node_id m; om_reloads := n; om_wake_slots := om_wake_slots m |}.
Definition with_slots (n : nat) (m : OnDemandManager) : OnDemandManager :=
  {| om_last_activity := om_last_activity m; om_configs := om_configs m; om_wake_states := om_wake_states m;
     om_sleeping_domains := om_sleeping_domains m; om_local_node_id := om_local_node_id m; om_reloads := om_reloads m; om_wake_slots := n |}.

Section Manager.
(** The environments with their current deployment, and the containers. *)
Context (environments : gmap Z (option Z)) (containers : list ContainerRow).

(** ** What an action does *)

Definition update_manager (p : nat) (f : OnDemandManager -> OnDemandManager) (w : World) : World := set_managers (alter f p (w_managers w)) w.

Definition live_containers (deployment_id : Z) : list ContainerRow :=
  List.filter (fun c => (cr_deployment_id c =? deployment_id) && negb (cr_deleted c)) containers.

Definition exists_env (e : Z) : bool := bool_decide (is_Some (environments !! e)).

Definition perform (p : nat) (c : Choice) (w : World) (a : Action) : option (reply a * World) :=
  match lookup (M := list OnDemandManager) (A := OnDemandManager) p (w_managers w) with
  | None => None
  | Some m =>
      match a return option (reply a * World) with
      | DbFallAsleep e =>
          Some (if ch_fails c (DbFallAsleep e) then (Err Database, w)
                else if exists_env e && negb (bool_decide (e ∈ w_sleeping w)) then (Ok true, set_sleeping ({[e]} ∪ w_sleeping w) w)
                else (Ok false, w))
      | DbWakeUp e =>
          Some (if ch_fails c (DbWakeUp e) then (Err Database, w)
                else if exists_env e && bool_decide (e ∈ w_sleeping w) then (Ok true, set_sleeping (w_sleeping w ∖ {[e]}) w)
                else (Ok false, w))
      | DbSetSleeping e b =>
          Some (if ch_fails c (DbSetSleeping e b) then (Err Database, w)
                else if exists_env e then (Ok (), set_sleeping (if b then {[e]} ∪ w_sleeping w else w_sleeping w ∖ {[e]}) w)
                else (Ok (), w))
      | DbFindEnvironment e =>
          Some (if ch_fails c (DbFindEnvironment e) then (Err Database, w)
                else (Ok ((fun current => (bool_decide (e ∈ w_sleeping w), current)) <$> environments !! e), w))
      | DbContainers d => Some (if ch_fails c (DbContainers d) then (Err Database, w) else (Ok (live_containers d), w))
      | DbTouch e t only_awake =>
          Some (if ch_fails c (DbTouch e t only_awake) then (Err Database, w)
                else if exists_env e && negb (only_awake && bool_decide (e ∈ w_sleeping w))
                then (Ok (), set_last_activity_at (<[e := t]> (w_last_activity_at w)) w)
                else (Ok (), w))
      | DbNotify => Some (if ch_fails c DbNotify then (Err Database, w) else (Ok (), add_notify w))
      | SendReload j => Some (if ch_fails c (SendReload j) then (Err Database, w) else (Ok (), add_job j w))
      | StartContainer id =>
          Some (if ch_fails c (StartContainer id) then (Err (ContainerOperation id), w)
                else (Ok (), set_running ({[id]} ∪ w_running w) w))
      | StopContainer id =>
          Some (if ch_fails c (StopContainer id) then (Err (ContainerOperation id), w)
                else (Ok (), set_running (w_running w ∖ {[id]}) w))
      | IsHealthy id =>
          Some (if ch_fails c (IsHealthy id) then (Err (ContainerOperation id), w)
                else (Ok (ch_healthy c && bool_decide (id ∈ w_running w)), w))
      | EffectOrder ids => Some (permuted (ch_order c) ids, w)
      | Now => Some (w_clock w, w)
      | SleepUntil t => if w_clock w <? t then None else Some ((), w)
      | Self => Some (m, w)
      | Configs => Some (permuted (ch_order c) (map snd (map_to_list (om_configs m))), w)
      | LastActivity e => Some (om_last_activity m !! e, w)
      | StoreActivity e secs => Some ((), update_manager p (fun m => with_activity (<[e := secs]> (om_last_activity m)) m) w)
      | PutConfig oc => Some ((), update_manager p (fun m => with_configs (<[oc_environment_id oc := oc]> (om_configs m)) m) w)
      | ClearConfigs => Some ((), update_manager p (with_configs ∅) w)
      | InitActivity e secs =>
          Some ((), update_manager p (fun m => match om_last_activity m !! e with
                                               | Some _ => m
                                               | None => with_activity (<[e := secs]> (om_last_activity m)) m
                                               end) w)
      | DropConfig e => Some ((), update_manager p (fun m => with_configs (delete e (om_configs m)) m) w)
      | DropActivity e => Some ((), update_manager p (fun m => with_activity (delete e (om_last_activity m)) m) w)
      | DropWakeState e => Some ((), update_manager p (fun m => with_wake_states (delete e (om_wake_states m)) m) w)
      | PutDomains d => Some ((), update_manager p (with_domains d) w)
      | GetWakeState e =>
          Some (match om_wake_states m !! e with
                | Some r => (r, w)
                | None => (length (w_wake w),
                           set_wake (w_wake w ++ [{| ws_waking := false; ws_notified := 0 |}])
                             (update_manager p (fun m => with_wake_states (<[e := length (w_wake w)]> (om_wake_states m)) m) w))
                end)
      | StartWaking r =>
          s ← w_wake w !! r;
          Some (if ws_waking s then (false, w)
                else (true, set_wake (<[r := {| ws_waking := true; ws_notified := ws_notified s |}]> (w_wake w)) w))
      | StopWaking r =>
          s ← w_wake w !! r;
          Some ((), set_wake (<[r := {| ws_waking := false; ws_notified := ws_notified s |}]> (w_wake w)) w)
      | NotifyWaiters r =>
          s ← w_wake w !! r;
          Some ((), set_wake (<[r := {| ws_waking := ws_waking s; ws_notified := S (ws_notified s) |}]> (w_wake w)) w)
      | Notified r => s ← w_wake w !! r; Some (ws_notified s, w)
      | AwaitNotified r n deadline =>
          s ← w_wake w !! r;
          if (n <? ws_notified s)%nat then Some (true, w)
          else if deadline <=? w_clock w then Some (false, w)
          else None
      | AcquireSlot =>
          Some (match om_wake_slots m with
                | O => (false, w)
                | S n => (true, update_manager p (with_slots n) w)
                end)
      | ReleaseSlot => Some ((), update_manager p (fun m => with_slots (S (om_wake_slots m)) m) w)
      | NotifyReloaded => Some ((), update_manager p (fun m => with_reloads (S (om_reloads m)) m) w)
      | Reloads => Some (om_reloads m, w)
      | AwaitReload n deadline =>
          if (n <? om_reloads m)%nat then Some (true, w)
          else if deadline <=? w_clock w then Some (false, w)
          else None
      | ResolveContext host => Some (ch_routable c, w)
      end
  end.

(** ** Programs *)

Definition SECOND : Z := 1000000000.

(** [current_epoch_secs]. *)
Definition epoch_secs (ns : Z) : Z := Z.max 0 (ns / SECOND).

(** An [i32] cast to [u64]. *)
Definition as_u64 (x : Z) : Z := wrap 64 x.

Definition current_epoch_secs : program Z := let* ns := call Now in Ret (epoch_secs ns).

(** [record_activity]: both branches store the time. *)
Definition record_activity (e : Z) : program unit :=
  let* now := current_epoch_secs in
  let* _ := call (LastActivity e) in
  call (StoreActivity e now).

Definition register_on_demand_environment (e idle wake : Z) : program unit :=
  let* _ := call (PutConfig {| oc_environment_id := e; oc_idle_timeout_seconds := idle; oc_wake_timeout_seconds := wake |}) in
  let* now := current_epoch_secs in
  call (InitActivity e now).

Fixpoint put_configs (configs : list OnDemandConfig) : program unit :=
  match configs with
  | [] => Ret ()
  | oc :: configs =>
      let* _ := call (PutConfig oc) in
      let* now := current_epoch_secs in
      let* _ := call (InitActivity (oc_environment_id oc) now) in
      put_configs configs
  end.

Definition update_configs (configs : list OnDemandConfig) : program unit :=
  let* _ := call ClearConfigs in put_configs configs.

Definition remove_environment (e : Z) : program unit :=
  let* _ := call (DropConfig e) in
  let* _ := call (DropActivity e) in
  call (DropWakeState e).

Definition get_sleeping_environment (domain : string) : program (option SleepingEnvironmentInfo) :=
  let* m := call Self in Ret (domain_get (om_sleeping_domains m) domain).

Definition register_sleeping_domain (domain : string) (info : SleepingEnvironmentInfo) : program unit :=
  let* m := call Self in call (PutDomains (domain_insert (om_sleeping_domains m) domain info)).

Definition domains_of (entries : list (string * SleepingEnvironmentInfo)) : SleepingDomainSnapshot :=
  fold_left (fun d '(domain, info) => domain_insert d domain info) entries no_domains.

Definition replace_sleeping_domains (entries : list (string * SleepingEnvironmentInfo)) : program unit :=
  call (PutDomains (domains_of entries)).

Definition clear_sleeping_domains : program unit := call (PutDomains no_domains).

(** [notify_route_change] and [publish_route_reload]: failures are logged. *)
Definition notify_route_change : program unit := let* _ := call DbNotify in Ret ().

Definition publish_route_reload (e d : Z) : program unit :=
  let* _ := call (SendReload {| fr_environment_id := Some e; fr_deployment_id := Some d |}) in Ret ().

(** Calls of the container runtime in parallel: they take effect in some order, the results are in
    the order of the containers. *)
Definition in_parallel (f : string -> program (answer unit)) (ids : list string) : program (list (string * answer unit)) :=
  let* order := call (EffectOrder ids) in
  let* results := prog_map (fun id => let* r := f id in Ret (id, r)) order in
  Ret (omap (fun id => List.find (fun x => String.eqb x.1 id) results) ids).

Definition succeeded (results : list (string * answer unit)) : list string :=
  omap (fun '(id, r) => if is_ok r then Some id else None) results.

Definition any_failed (results : list (string * answer unit)) : bool := existsb (fun x => negb (is_ok x.2)) results.

(** [sleep_environment]. *)
Definition sleep_environment (e : Z) : program (answer bool) :=
  try* won := call (DbFallAsleep e) in
  if negb won then Ret (Ok false)
  else
    try* row := call (DbFindEnvironment e) in
    match row with
    | None => Ret (Err (NotFound e))
    | Some (_, None) => Ret (Ok false)
    | Some (_, Some d) =>
        try* all_containers := call (DbContainers d) in
        let* m := call Self in
        let local := List.filter (fun c => is_local_container m (cr_node_id c)) all_containers in
        let* results := in_parallel (fun id => call (StopContainer id)) (map cr_container_id local) in
        if any_failed results then
          let* _ := call (DbSetSleeping e false) in
          let* _ := notify_route_change in
          Ret (Err (ContainerOperation "multiple"))
        else
          let* _ := notify_route_change in
          Ret (Ok true)
    end.

(** ** Waking *)

Fixpoint stop_all (ids : list string) : program unit :=
  match ids with
  | [] => Ret ()
  | id :: ids => let* _ := call (StopContainer id) in stop_all ids
  end.

(** The polls of one container: half a second apart, until it is healthy or time is up. *)
Fixpoint poll_health (polls : nat) (health_start timeout : Z) (id : string) : program (option bool) :=
  match polls with
  | O => Ret None
  | S polls =>
      let* now := call Now in
      if timeout * SECOND <? now - health_start then Ret (Some false)
      else
        let* healthy := call (IsHealthy id) in
        match healthy with
        | Ok true => Ret (Some true)
        | _ =>
            let* now := call Now in
            let* _ := call (SleepUntil (now + SECOND / 2)) in
            poll_health polls health_start timeout id
        end
  end.

Fixpoint await_healthy (health_start timeout : Z) (ids : list string) : program (option bool) :=
  match ids with
  | [] => Ret (Some true)
  | id :: ids =>
      let* r := poll_health (Z.to_nat (2 * timeout + 2)) health_start timeout id in
      match r with
      | Some true => await_healthy health_start timeout ids
      | _ => Ret r
      end
  end.

(** [do_wake]. *)
Definition do_wake (e wake_timeout_seconds : Z) : program (answer unit) :=
  try* won := call (DbWakeUp e) in
  if negb won then Ret (Ok ())
  else
    try* row := call (DbFindEnvironment e) in
    match row with
    | None => Ret (Err (NotFound e))
    | Some (_, None) => Ret (Err (NoDeployment e))
    | Some (_, Some d) =>
        try* all_containers := call (DbContainers d) in
        match all_containers with
        | [] =>
            let* _ := publish_route_reload e d in
            let* _ := notify_route_change in
            Ret (Ok ())
        | _ =>
            let* m := call Self in
            let local := List.filter (fun c => is_local_container m (cr_node_id c)) all_containers in
            match local with
            | [] =>
                let* _ := call (DbSetSleeping e true) in
                Ret (Err (ContainerOperation "remote"))
            | _ =>
                let* results := in_parallel (fun id => call (StartContainer id)) (map cr_container_id local) in
                let started := succeeded results in
                if any_failed results then
                  let* _ := stop_all started in
                  let* _ := call (DbSetSleeping e true) in
                  Ret (Err (ContainerOperation "multiple"))
                else
                  let* health_start := call Now in
                  let* healthy := await_healthy health_start (as_u64 wake_timeout_seconds) started in
                  match healthy with
                  | None => Ret (Err PollsExhausted)
                  | Some false =>
                      let* _ := stop_all started in
                      let* _ := call (DbSetSleeping e true) in
                      Ret (Err (WakeTimeout e wake_timeout_seconds))
                  | Some true =>
                      let* _ := record_activity e in
                      let* now := call Now in
                      let* _ := call (DbTouch e now false) in
                      let* _ := publish_route_reload e d in
                      let* _ := notify_route_change in
                      Ret (Ok ())
                  end
            end
        end
    end.

(** [wake_environment]. *)
Definition wake_environment (e wake_timeout_seconds : Z) : program (answer unit) :=
  let* state := call (GetWakeState e) in
  let* won := call (StartWaking state) in
  if (won : bool) then
    let* result := do_wake e wake_timeout_seconds in
    let* _ := call (StopWaking state) in
    let* _ := call (NotifyWaiters state) in
    Ret result
  else
    let* notified := call (Notified state) in
    let* now := call Now in
    let* done := call (AwaitNotified state notified (now + as_u64 wake_timeout_seconds * SECOND)) in
    if (done : bool) then
      try* row := call (DbFindEnvironment e) in
      match row with
      | None => Ret (Err (NotFound e))
      | Some (true, _) => Ret (Err (ContainerOperation "all"))
      | Some (false, _) => Ret (Ok ())
      end
    else Ret (Err (WakeTimeout e wake_timeout_seconds)).

(** ** A request for a sleeping host *)

Definition try_acquire_wake_slot : program bool := call AcquireSlot.
Definition notify_route_reloaded : program unit := call NotifyReloaded.

Definition wait_for_route_reload (timeout_ns : Z) : program bool :=
  let* reloads := call Reloads in
  let* now := call Now in
  call (AwaitReload reloads (now + timeout_ns)).

(** The loop that waits for the route, a tenth of a second between two looks. *)
Fixpoint resolve_loop (looks : nat) (deadline : Z) (host : string) : program (option bool) :=
  match looks with
  | O => Ret None
  | S looks =>
      let* now := call Now in
      if now <? deadline then
        let* now := call Now in
        let* _ := call (SleepUntil (now + SECOND / 10)) in
        let* routable := call (ResolveContext host) in
        if (routable : bool) then Ret (Some true) else resolve_loop looks deadline host
      else Ret (Some false)
  end.

Inductive Answered := WakeThrottled | WakeFailed | WakePending | Served | LooksExhausted.

(** The wake block of the proxy's request filter: the slot is held until its end. *)
Definition answer_sleeping_host (info : SleepingEnvironmentInfo) (host : string) : program Answered :=
  let* slot := try_acquire_wake_slot in
  if negb slot then Ret WakeThrottled
  else
    let* woken := wake_environment (si_environment_id info) (si_wake_timeout_seconds info) in
    let* answered :=
      match woken with
      | Err _ => Ret WakeFailed
      | Ok _ =>
          let* _ := wait_for_route_reload (10 * SECOND) in
          let* now := call Now in
          let resolve_deadline := now + 5 * SECOND in
          let* routable := call (ResolveContext host) in
          if (routable : bool) then Ret Served
          else
            let* r := resolve_loop 51 resolve_deadline host in
            Ret match r with Some true => Served | Some false => WakePending | None => LooksExhausted end
      end in
    let* _ := call ReleaseSlot in
    Ret answered.

(** ** The sweep *)

(** Seconds that chrono can represent. *)
Context (from_timestamp : Z -> bool).

Fixpoint persist_activity_timestamps (updates : list (Z * Z)) : program unit :=
  match updates with
  | [] => Ret ()
  | (e, secs) :: updates =>
      if from_timestamp secs then
        let* _ := call (DbTouch e (secs * SECOND) true) in
        persist_activity_timestamps updates
      else persist_activity_timestamps updates
  end.

Fixpoint sweep_configs (now : Z) (configs : list OnDemandConfig) : program (list Z * list (Z * Z)) :=
  match configs with
  | [] => Ret ([], [])
  | oc :: configs =>
      let e := oc_environment_id oc in
      let* last := call (LastActivity e) in
      match last with
      | None => sweep_configs now configs
      | Some last_secs =>
          let idle_secs := Z.max 0 (now - last_secs) in
          if as_u64 (oc_idle_timeout_seconds oc) <=? idle_secs then
            let* r := sleep_environment e in
            let* (slept, updates) := sweep_configs now configs in
            Ret (match r with Ok true => e :: slept | _ => slept end, (e, last_secs) :: updates)
          else
            let* (slept, updates) := sweep_configs now configs in
            Ret (slept, (e, last_secs) :: updates)
      end
  end.

(** [sweep_idle_environments]. *)
Definition sweep_idle_environments : program (list Z) :=
  let* now := current_epoch_secs in
  let* configs := call Configs in
  let* (slept, updates) := sweep_configs now configs in
  let* _ := persist_activity_timestamps updates in
  Ret slept.

(** ** Calls of a proxy *)

Inductive Request :=
  | Wake (e wake_timeout_seconds : Z)
  | PutToSleep (e : Z)
  | Sweep
  | Activity (e : Z)
  | Register (e idle wake : Z)
  | Remove (e : Z)
  | Domains (entries : list (string * SleepingEnvironmentInfo))
  | Visit (info : SleepingEnvironmentInfo) (host : string)
  | Reloaded.

Inductive Outcome :=
  | Woken (r : answer unit)
  | Asleep (r : answer bool)
  | Swept (slept : list Z)
  | Answer (a : Answered)
  | Finished.

Definition body (_ : nat) (r : Request) : program Outcome :=
  match r with
  | Wake e t => let* r := wake_environment e t in Ret (Woken r)
  | PutToSleep e => let* r := sleep_environment e in Ret (Asleep r)
  | Sweep => let* l := sweep_idle_environments in Ret (Swept l)
  | Activity e => let* _ := record_activity e in Ret Finished
  | Register e idle wake => let* _ := register_on_demand_environment e idle wake in Ret Finished
  | Remove e => let* _ := remove_environment e in Ret Finished
  | Domains entries => let* _ := replace_sleeping_domains entries in Ret Finished
  | Visit info host => let* a := answer_sleeping_host info host in Ret (Answer a)
  | Reloaded => let* _ := notify_route_reloaded in Ret Finished
  end.
End Manager.
