(* ===== verification/OnDemandRuns.v ===== *)
(** * What sleeping and waking guarantee

    Any number of proxies and requests interleave ([Prog]).  Wakes among themselves, with containers
    that fail to start, to stop or to become healthy, leave an environment that counts as awake with its
    containers running; calls that put to sleep among themselves leave one that counts as asleep with
    its containers stopped.  The two kinds do not exclude each other: the interleavings that break
    both statements are at the end. *)

From S2P Require Import Prelude Wildcard Bytes Prog OnDemand.
Local Open Scope Z_scope.

Section Runs.
Context (environments : gmap Z (option Z)) (containers : list ContainerRow) (from_timestamp : Z -> bool).

#[local] Abbreviation perform := (perform environments containers).
#[local] Abbreviation body := (body from_timestamp).
#[local] Abbreviation program := (prog reply).
#[local] Abbreviation exec := (exec perform pass body).

(** The containers of an environment's deployment, and those of them every proxy of the node owns. *)
Definition deployed (e : Z) : list ContainerRow :=
  match environments !! e with Some (Some d) => live_containers containers d | _ => [] end.
Definition owned (e : Z) : list string := map cr_container_id (deployed e).
Definition on_node (e : Z) : list string :=
  map cr_container_id (List.filter (fun c => bool_decide (cr_node_id c = None)) (deployed e)).

(** A container belongs to one deployment, a deployment to one environment. *)
Definition separate : Prop := forall e e' id, id ∈ owned e -> id ∈ owned e' -> e = e'.

(** ** One direction at a time *)

(** [up] is waking, its opposite is putting to sleep: the environment claims to be there, and a
    container is. *)
Definition claims (up : bool) (e : Z) (w : World) : Prop := if up then e ∉ w_sleeping w else e ∈ w_sleeping w.
Definition reached (up : bool) (id : string) (w : World) : Prop := if up then id ∈ w_running w else id ∉ w_running w.

(** A task does nothing to environments, or moves one: the containers it has brought there, and a time
    it has seen. *)
Inductive Part := Idle | Moving (e : Z) (moved : list string) (seen : Z).

Definition moving (e : Z) (r : Part) : bool := match r with Idle => false | Moving e' _ _ => e =? e' end.

Record steady (up : bool) (w : World) (roles : list Part) : Prop := {
  st_one e : (length (List.filter (moving e) roles) <= 1)%nat;
  st_moving e moved seen : Moving e moved seen ∈ roles ->
    is_Some (environments !! e) /\ claims up e w /\ seen <= w_clock w /\ forall id, id ∈ moved -> id ∈ owned e /\ reached up id w;
  st_resting e id : is_Some (environments !! e) -> claims up e w -> List.filter (moving e) roles = [] -> id ∈ on_node e -> reached up id w
}.

Lemma steady_perm up w rs rs' : rs ≡ₚ rs' -> steady up w rs -> steady up w rs'.
Proof.
  intros Hp [H1 H2 H3].
  assert (forall e, List.filter (moving e) rs ≡ₚ List.filter (moving e) rs') as Hf by (intros e; by apply filter_perm).
  split.
  - intros e. rewrite <- (Permutation_length (Hf e)). apply H1.
  - intros e moved seen Hin. apply (H2 e moved seen). by rewrite Hp.
  - intros e id He Hc Hn. apply (H3 e id He Hc). apply Permutation_nil. symmetry. by rewrite <- Hn.
Qed.

(** What [steady] looks at. *)
Definition same_view (w w' : World) : Prop :=
  w_sleeping w' = w_sleeping w /\ w_running w' = w_running w /\ w_clock w <= w_clock w'.

Lemma steady_view up w w' rs : same_view w w' -> steady up w rs -> steady up w' rs.
Proof.
  intros (Hs & Hr & Hc) [H1 H2 H3]. split.
  - done.
  - intros e moved seen Hin. destruct (H2 e moved seen Hin) as (? & ? & ? & Hm). unfold claims, reached in *. rewrite Hs, Hr.
    split_and!; try done; lia.
  - intros e id. unfold claims, reached in *. rewrite Hs, Hr. apply H3.
Qed.

(** Actions that leave the view alone. *)
Definition quiet (a : Action) : bool :=
  match a with
  | DbFallAsleep _ | DbWakeUp _ | DbSetSleeping _ _ | StartContainer _ | StopContainer _ => false
  | _ => true
  end.

Lemma quiet_view p c w a x w' : quiet a = true -> perform p c w a = Some (x, w') -> same_view w w'.
Proof.
  intros Hq. unfold OnDemand.perform, same_view. destruct (w_managers w !! p) as [m|]; [|done].
  destruct a; try done; cbn; intros; simplify_option_eq; repeat case_match; simplify_eq; cbn; split_and!; (done || lia).
Qed.

(** ** Steps of a move *)

(** The calls whose failure a move does not survive: the rows it needs, and its way back. *)
Definition reliable (c : Choice) : Prop :=
  forall a, ch_fails c a = true -> match a with DbFindEnvironment _ | DbContainers _ | DbSetSleeping _ _ => False | _ => True end.

Definition toward (up : bool) (r : Request) : bool :=
  match r with Wake _ _ | Visit _ _ => up | PutToSleep _ | Sweep => negb up | _ => true end.

Definition allowed (up : bool) (ev : Event (Choice := Choice) (Agent := nat) (Env := N) (Call := Request)) : Prop :=
  match ev with
  | Spawn _ r => toward up r = true
  | Turn _ c => reliable c
  | Happen _ => True
  | Drop _ => False
  end.

#[local] Abbreviation keeps up := (keeps perform (allowed up) (steady up)).

(** A role that asks for less. *)
Inductive relax (w : World) : Part -> Part -> Prop :=
  | relax_same r : relax w r r
  | relax_arrived e moved seen : (forall id, id ∈ on_node e -> id ∈ moved) -> relax w (Moving e moved seen) Idle
  | relax_seen e moved seen seen' : seen' <= w_clock w -> relax w (Moving e moved seen) (Moving e moved seen').

Lemma filter_moving_cons e r rs : List.filter (moving e) (r :: rs) = if moving e r then r :: List.filter (moving e) rs else List.filter (moving e) rs.
Proof. done. Qed.

(** What [steady] says of the task at the front, and of the others. *)
Lemma steady_front up w e moved seen others :
  steady up w (Moving e moved seen :: others) ->
  List.filter (moving e) others = [] /\ is_Some (environments !! e) /\ claims up e w /\ seen <= w_clock w /\
  forall id, id ∈ moved -> id ∈ owned e /\ reached up id w.
Proof.
  intros [H1 H2 _]. split; [|apply (H2 e moved seen), list_elem_of_here]. specialize (H1 e). cbn in H1.
  rewrite Z.eqb_refl in H1. cbn in H1. apply length_zero_iff_nil. lia.
Qed.

Lemma filter_nil_not e rs e' moved seen : List.filter (moving e) rs = [] -> Moving e' moved seen ∈ rs -> e <> e'.
Proof.
  intros Hn Hin ->. assert (Moving e' moved seen ∈ List.filter (moving e') rs) as Hf.
  { rewrite list_elem_of_In, filter_In, <- list_elem_of_In. split; [done|]. cbn. apply Z.eqb_refl. }
  rewrite Hn in Hf. by apply elem_of_nil in Hf.
Qed.

Lemma on_node_owned e id : id ∈ on_node e -> id ∈ owned e.
Proof.
  unfold on_node, owned. rewrite !list_elem_of_fmap. intros (c & -> & Hc). exists c. split; [done|].
  rewrite list_elem_of_In, filter_In, <- list_elem_of_In in Hc. apply Hc.
Qed.

Lemma steady_relax up w r r' others : relax w r r' -> steady up w (r :: others) -> steady up w (r' :: others).
Proof.
  intros [|e moved seen Hall|e moved seen seen' Hs] Hst; [done| |].
  - destruct (steady_front _ _ _ _ _ _ Hst) as (Hn & He & Hc & _ & Hm). destruct Hst as [H1 H2 H3]. split.
    + intros e'. specialize (H1 e'). rewrite filter_moving_cons in *. destruct (moving e' (Moving e moved seen)); cbn in *; lia.
    + intros e' m s [? |Hin]%elem_of_cons; [done|]. apply (H2 e'). by apply list_elem_of_further.
    + intros e' id He' Hc' Hn' Hid. cbn in Hn'. destruct (decide (e' = e)) as [->|Hne]; [by apply Hm, Hall|].
      apply (H3 e'); try done. rewrite filter_moving_cons. cbn. by apply Z.eqb_neq in Hne as ->.
  - destruct Hst as [H1 H2 H3]. split.
    + intros e'. specialize (H1 e'). rewrite filter_moving_cons in *. by destruct (moving e' (Moving e moved seen)) eqn:Hm; cbn in Hm |- *; rewrite Hm.
    + intros e' m s [[= -> -> ->]|Hin]%elem_of_cons.
      * destruct (H2 e moved seen (list_elem_of_here _ _)) as (? & ? & _ & ?). done.
      * apply (H2 e'). by apply list_elem_of_further.
    + intros e' id He' Hc' Hn. apply (H3 e' id He' Hc'). rewrite filter_moving_cons in *. cbn in *. by destruct (e' =? e).
Qed.

Definition seen_ok (r : Part) (w : World) : Prop := match r with Idle => True | Moving e _ seen => seen <= w_clock w /\ is_Some (environments !! e) end.

Lemma keeps_quiet {A} up p r a (k : reply a -> program A) Q :
  quiet a = true ->
  (forall c w x w', reliable c -> seen_ok r w -> perform p c w a = Some (x, w') -> exists r', relax w' r r' /\ keeps up p r' (k x) Q) ->
  keeps up p r (Do a k) Q.
Proof.
  intros Hq Hk i c w others x w' Hc Hst Hp. assert (seen_ok r w) as Hs.
  { destruct r as [|e m s]; [done|]. destruct (steady_front _ _ _ _ _ _ Hst) as (_ & ? & _ & ? & _). done. }
  destruct (Hk c w x w' Hc Hs Hp) as (r' & Hr & Hk'). exists r'. split; [|done].
  eapply steady_relax; [done|]. eapply steady_view; [|done]. by eapply quiet_view.
Qed.

(** An action whose answer does not matter. *)
Lemma keeps_skip {A} up p r a (k : reply a -> program A) Q :
  quiet a = true -> (forall x, keeps up p r (k x) Q) -> keeps up p r (Do a k) Q.
Proof. intros Hq Hk. apply keeps_quiet; [done|]. intros c w x w' _ _ _. exists r. split; [constructor|done]. Qed.

(** Winning the row of an environment. *)
Lemma steady_claim up w w' e others :
  is_Some (environments !! e) -> ~ claims up e w -> claims up e w' -> (forall e', e' <> e -> claims up e' w' <-> claims up e' w) ->
  w_running w' = w_running w -> w_clock w' = w_clock w ->
  steady up w (Idle :: others) -> steady up w' (Moving e [] (w_clock w) :: others).
Proof.
  intros He Hno Hyes Hsame Hr Ht [H1 H2 H3].
  assert (forall id, reached up id w' <-> reached up id w) as Hreach by (intros id; unfold reached; by rewrite Hr).
  assert (List.filter (moving e) others = []) as Hn.
  { destruct (List.filter (moving e) others) as [|r rs] eqn:Hf; [done|]. exfalso.
    assert (r ∈ List.filter (moving e) others) as Hin by (rewrite Hf; apply list_elem_of_here).
    rewrite list_elem_of_In, filter_In, <- list_elem_of_In in Hin. destruct Hin as [Hin Hm]. destruct r as [|e' m s]; [done|].
    cbn in Hm. apply Z.eqb_eq in Hm as <-. apply Hno, (H2 e m s). by apply list_elem_of_further. }
  split.
  - intros e'. rewrite filter_moving_cons. cbn [moving]. destruct (Z.eqb_spec e' e) as [->|Hne]; [by rewrite Hn|apply (H1 e')].
  - intros e' m s [[= -> -> ->]|Hin]%elem_of_cons; [split_and!; try done; [lia|by intros ? ?%elem_of_nil]|].
    assert (e' <> e) as Hne by (pose proof (filter_nil_not _ _ _ _ _ Hn Hin); congruence).
    destruct (H2 e' m s) as (? & Hc & ? & Hm); [by apply list_elem_of_further|]. split_and!; [done|by apply Hsame|lia|].
    intros id Hid. split; [apply Hm, Hid|]. by apply Hreach, Hm.
  - intros e' id He' Hc. rewrite filter_moving_cons. cbn [moving]. destruct (Z.eqb_spec e' e) as [->|Hne]; [done|].
    intros Hf Hid. apply Hreach, (H3 e'); try done. by apply Hsame.
Qed.

Lemma keeps_wake_up {A} p e (k : answer bool -> program A) Q :
  (forall seen, keeps true p (Moving e [] seen) (k (Ok true)) Q) -> keeps true p Idle (k (Ok false)) Q ->
  (forall err, keeps true p Idle (k (Err err)) Q) -> keeps true p Idle (Do (DbWakeUp e) k) Q.
Proof.
  intros Hwon Hlost Herr i c w others x w' Hc Hst. unfold OnDemand.perform. destruct (w_managers w !! p); [|done]. cbn.
  destruct (ch_fails c _); [by intros [= <- <-]; exists Idle|]. destruct (exists_env environments e && _) eqn:Hx; intros [= <- <-]; [|by exists Idle].
  apply andb_true_iff in Hx as [He%bool_decide_eq_true Hs%bool_decide_eq_true]. exists (Moving e [] (w_clock w)). split; [|apply Hwon].
  eapply steady_claim; try done; cbn; set_solver.
Qed.

Lemma keeps_fall_asleep {A} p e (k : answer bool -> program A) Q :
  (forall seen, keeps false p (Moving e [] seen) (k (Ok true)) Q) -> keeps false p Idle (k (Ok false)) Q ->
  (forall err, keeps false p Idle (k (Err err)) Q) -> keeps false p Idle (Do (DbFallAsleep e) k) Q.
Proof.
  intros Hwon Hlost Herr i c w others x w' Hc Hst. unfold OnDemand.perform. destruct (w_managers w !! p); [|done]. cbn.
  destruct (ch_fails c _); [by intros [= <- <-]; exists Idle|]. destruct (exists_env environments e && _) eqn:Hx; intros [= <- <-]; [|by exists Idle].
  apply andb_true_iff in Hx as [He%bool_decide_eq_true Hs%negb_true_iff%bool_decide_eq_false]. exists (Moving e [] (w_clock w)).
  split; [|apply Hwon]. eapply steady_claim; try done; cbn; set_solver.
Qed.

(** Bringing a container there. *)
Lemma steady_drive up w w' e moved seen id others :
  id ∈ owned e -> reached up id w' -> (forall id', reached up id' w -> reached up id' w') ->
  w_sleeping w' = w_sleeping w -> w_clock w' = w_clock w ->
  steady up w (Moving e moved seen :: others) -> steady up w' (Moving e (id :: moved) seen :: others).
Proof.
  intros Hid Hnew Hmono Hs Ht [H1 H2 H3].
  assert (forall e', claims up e' w' <-> claims up e' w) as Hc by (intros e'; unfold claims; by rewrite Hs).
  split.
  - intros e'. specialize (H1 e'). rewrite filter_moving_cons in *. cbn in *. by destruct (e' =? e).
  - intros e' m s [[= -> -> ->]|Hin]%elem_of_cons.
    + destruct (H2 e moved seen (list_elem_of_here _ _)) as (? & ? & ? & Hm). split_and!; [done|by apply Hc|lia|].
      intros id' [->|Hid']%elem_of_cons; [done|]. split; [by apply Hm|]. by apply Hmono, Hm.
    + destruct (H2 e' m s) as (? & ? & ? & Hm); [by apply list_elem_of_further|]. split_and!; [done|by apply Hc|lia|].
      intros id' Hid'. split; [by apply Hm|]. by apply Hmono, Hm.
  - intros e' id' He' Hc' Hn Hid'. apply Hmono, (H3 e'); try done; [by apply Hc|]. rewrite filter_moving_cons in *. cbn in *.
    by destruct (e' =? e).
Qed.

Lemma keeps_start {A} p e moved seen id (k : answer unit -> program A) Q :
  id ∈ owned e -> keeps true p (Moving e (id :: moved) seen) (k (Ok ())) Q ->
  (forall err, keeps true p (Moving e moved seen) (k (Err err)) Q) -> keeps true p (Moving e moved seen) (Do (StartContainer id) k) Q.
Proof.
  intros Hid Hok Herr i c w others x w' Hc Hst. unfold OnDemand.perform. destruct (w_managers w !! p); [|done]. cbn.
  destruct (ch_fails c _); intros [= <- <-]; [by eexists|]. eexists. split; [|exact Hok]. apply (steady_drive _ w); try done; cbn; set_solver.
Qed.

Lemma keeps_stop {A} p e moved seen id (k : answer unit -> program A) Q :
  id ∈ owned e -> keeps false p (Moving e (id :: moved) seen) (k (Ok ())) Q ->
  (forall err, keeps false p (Moving e moved seen) (k (Err err)) Q) -> keeps false p (Moving e moved seen) (Do (StopContainer id) k) Q.
Proof.
  intros Hid Hok Herr i c w others x w' Hc Hst. unfold OnDemand.perform. destruct (w_managers w !! p); [|done]. cbn.
  destruct (ch_fails c _); intros [= <- <-]; [by eexists|]. eexists. split; [|exact Hok]. apply (steady_drive _ w); try done; cbn; set_solver.
Qed.

(** Going back: a container that was started is stopped again, then the row is given up. *)
Lemma keeps_stop_again {A} p e moved seen id (k : answer unit -> program A) Q :
  separate -> id ∈ owned e -> (forall x, keeps true p (Moving e [] seen) (k x) Q) ->
  keeps true p (Moving e moved seen) (Do (StopContainer id) k) Q.
Proof.
  intros Hsep Hid Hk i c w others x w' Hc Hst Hp. exists (Moving e [] seen). split; [|apply Hk].
  destruct (steady_front _ _ _ _ _ _ Hst) as (Hn & He & Hcl & Hs & Hm). destruct Hst as [H1 H2 H3].
  assert (w_sleeping w' = w_sleeping w /\ w_clock w' = w_clock w /\ forall id', id' <> id -> reached true id' w -> reached true id' w') as (Hsl & Hcl' & Hr).
  { revert Hp. unfold OnDemand.perform. destruct (w_managers w !! p); [|done]. cbn. destruct (ch_fails c _); intros [= <- <-]; cbn; set_solver. }
  assert (forall e', claims true e' w' <-> claims true e' w) as Hcc by (intros e'; unfold claims; by rewrite Hsl).
  split.
  - intros e'. specialize (H1 e'). rewrite filter_moving_cons in *. cbn in *. by destruct (e' =? e).
  - intros e' m s [[= -> -> ->]|Hin]%elem_of_cons; [split_and!; [done|by apply Hcc|lia|by intros ? ?%elem_of_nil]|].
    destruct (H2 e' m s) as (? & ? & ? & Hm'); [by apply list_elem_of_further|]. split_and!; [done|by apply Hcc|lia|].
    intros id' Hid'. split; [by apply Hm'|]. apply Hr; [|by apply Hm']. intros ->.
    apply (filter_nil_not _ _ _ _ _ Hn Hin). eapply Hsep; [done|by apply Hm'].
  - intros e' id' He' Hc' Hn' Hid'. rewrite filter_moving_cons in Hn'. cbn in Hn'. destruct (Z.eqb_spec e' e) as [->|Hne]; [done|].
    apply Hr; [intros ->; apply Hne; eapply Hsep; [by apply on_node_owned|done]|]. apply (H3 e'); try done; [by apply Hcc|].
    rewrite filter_moving_cons. cbn. by apply Z.eqb_neq in Hne as ->.
Qed.

Lemma keeps_give_up {A} up p e moved seen (k : answer unit -> program A) Q :
  (forall x, keeps up p Idle (k x) Q) -> keeps up p (Moving e moved seen) (Do (DbSetSleeping e up) k) Q.
Proof.
  intros Hk i c w others x w' Hc Hst Hp. exists Idle. split; [|apply Hk].
  destruct (steady_front _ _ _ _ _ _ Hst) as (Hn & He & Hcl & Hs & Hm). destruct Hst as [H1 H2 H3].
  assert (~ claims up e w' /\ (forall e', e' <> e -> claims up e' w' <-> claims up e' w) /\ w_running w' = w_running w /\ w_clock w' = w_clock w)
    as (Hno & Hcc & Hr & Ht).
  { revert Hp. unfold OnDemand.perform. destruct (w_managers w !! p); [|done]. cbn. destruct (ch_fails c _) eqn:Hf; [by destruct (Hc _ Hf)|].
    unfold exists_env. rewrite bool_decide_true by done. intros [= <- <-]. unfold claims. cbn. destruct up; set_solver. }
  assert (forall id, reached up id w' <-> reached up id w) as Hreach by (intros id; unfold reached; by rewrite Hr).
  split.
  - intros e'. specialize (H1 e'). rewrite filter_moving_cons in H1. cbn in *. destruct (e' =? e); cbn in *; lia.
  - intros e' m s [? |Hin]%elem_of_cons; [done|]. pose proof (filter_nil_not _ _ _ _ _ Hn Hin) as Hne.
    destruct (H2 e' m s) as (? & ? & ? & Hm'); [by apply list_elem_of_further|]. split_and!; [done|by apply Hcc|lia|].
    intros id' Hid'. split; [by apply Hm'|]. by apply Hreach, Hm'.
  - intros e' id' He' Hc' Hn' Hid'. destruct (decide (e' = e)) as [->|Hne]; [done|]. apply Hreach, (H3 e'); try done; [by apply Hcc|].
    rewrite filter_moving_cons. cbn. by apply Z.eqb_neq in Hne as ->.
Qed.

(** ** Calls in parallel *)

Lemma permuted_elem {A} order (l : list A) x : x ∈ permuted order l <-> x ∈ l.
Proof.
  unfold permuted. case_bool_decide as Hp; [|done]. rewrite list_elem_of_omap. split.
  - intros (i & _ & Hi). by eapply list_elem_of_lookup_2.
  - intros (i & Hi)%list_elem_of_lookup. exists i. split; [|done]. rewrite Hp. apply elem_of_seq. apply lookup_lt_Some in Hi. lia.
Qed.

(** The results of parallel calls, put back into the order of the containers. *)
Lemma found_results (results : list (string * answer unit)) ids :
  (forall id, id ∈ ids -> id ∈ map fst results) ->
  let found := omap (fun id => List.find (fun x => String.eqb x.1 id) results) ids in
  (forall id, id ∈ succeeded found -> id ∈ ids) /\
  (any_failed found = false -> forall id, id ∈ ids -> (id, Ok ()) ∈ results /\ id ∈ succeeded found).
Proof.
  intros Hids found. assert (forall id x, (id, x) ∈ found -> id ∈ ids /\ (id, x) ∈ results) as Hfound.
  { intros id x (id' & Hid' & Hx)%list_elem_of_omap. apply find_some in Hx as [Hx He]. apply String.eqb_eq in He. cbn in He. subst id'.
    split; [done|]. by apply list_elem_of_In. }
  split.
  - intros id ([id' x] & Hin & Hx)%list_elem_of_omap. destruct (is_ok x); [|done]. injection Hx as <-. by eapply Hfound.
  - intros Hall id Hid. assert (exists x, (id, x) ∈ found) as [x Hx].
    { apply Hids in Hid as Hf. apply list_elem_of_fmap in Hf as ([id' x] & He & Hin). cbn in He. subst id'.
      destruct (List.find (fun y => String.eqb y.1 id) results) as [[id' y]|] eqn:Hfind.
      - exists y. apply list_elem_of_omap. exists id. split; [done|]. rewrite Hfind. apply find_some in Hfind as [_ He].
        apply String.eqb_eq in He. cbn in He. by subst id'.
      - exfalso. apply list_elem_of_In in Hin. eapply find_none in Hfind; [|exact Hin]. cbn in Hfind. by rewrite String.eqb_refl in Hfind. }
    assert (is_ok x = true) as Hok.
    { destruct (is_ok x) eqn:Hok; [done|]. exfalso. apply not_true_iff_false in Hall. apply Hall. apply existsb_exists. exists (id, x).
      split; [by apply list_elem_of_In|]. cbn. by rewrite Hok. }
    destruct x as [[]|]; [|done]. split; [by apply Hfound|]. apply list_elem_of_omap. by exists (id, Ok ()).
Qed.

Lemma order_reply p c w ids x w' id : perform p c w (EffectOrder ids) = Some (x, w') -> id ∈ x <-> id ∈ ids.
Proof. unfold OnDemand.perform. destruct (w_managers w !! p); [|done]. intros [= <- <-]. apply permuted_elem. Qed.

Section Parallel.
Context (up : bool) (p : nat) (e : Z) (seen : Z) (f : string -> program (answer unit)).
Context (drive : forall A id moved (k : answer unit -> program A) Q,
  id ∈ owned e -> keeps up p (Moving e (id :: moved) seen) (k (Ok ())) Q ->
  (forall err, keeps up p (Moving e moved seen) (k (Err err)) Q) -> keeps up p (Moving e moved seen) (prog_bind (f id) k) Q).

Lemma keeps_each order moved :
  (forall id, id ∈ order -> id ∈ owned e) ->
  keeps up p (Moving e moved seen) (prog_map (fun id => prog_bind (f id) (fun r => Ret (id, r))) order)
    (fun results r => exists moved', r = Moving e moved' seen /\ map fst results = order /\ (forall id, id ∈ moved -> id ∈ moved') /\
       forall id, (id, Ok ()) ∈ results -> id ∈ moved').
Proof.
  revert moved. induction order as [|id order IH]; intros moved Hown; cbn [prog_map].
  - exists moved. split_and!; try done. by intros id ?%elem_of_nil.
  - apply keeps_bind. assert (id ∈ owned e) as Hid by (apply Hown, list_elem_of_here).
    assert (forall id', id' ∈ order -> id' ∈ owned e) as Hown' by (intros id' ?; apply Hown; by apply list_elem_of_further).
    apply drive; [done| |intros err]; apply keeps_bind; (eapply keeps_mono; [|by apply IH]); intros results r (moved' & -> & Hf & Hm & Ho);
      exists moved'; cbn; split_and!; try done.
    + by rewrite Hf.
    + intros id' Hid'. apply Hm. by apply list_elem_of_further.
    + intros id' [[= ->]|Hin]%elem_of_cons; [apply Hm, list_elem_of_here|by apply Ho].
    + by rewrite Hf.
    + intros id' [[=]|Hin]%elem_of_cons. by apply Ho.
Qed.

Lemma keeps_parallel ids :
  (forall id, id ∈ ids -> id ∈ owned e) ->
  keeps up p (Moving e [] seen) (in_parallel f ids)
    (fun results r => exists moved, r = Moving e moved seen /\ (forall id, id ∈ succeeded results -> id ∈ ids) /\
       (any_failed results = false -> forall id, id ∈ ids -> id ∈ moved /\ id ∈ succeeded results)).
Proof.
  intros Hown. unfold in_parallel. cbn [prog_bind call]. apply keeps_quiet; [done|]. intros c w order w' _ _ Hp.
  pose proof (fun id => order_reply _ _ _ _ _ _ id Hp) as Hord. exists (Moving e [] seen). split; [constructor|].
  apply keeps_bind. eapply keeps_mono; [|apply keeps_each; intros id Hid; by apply Hown, Hord].
  intros results r (moved & -> & Hf & _ & Ho). cbn [Prog.keeps]. exists moved. split; [done|].
  destruct (found_results results ids) as [Hsub Hall]; [intros id Hid; rewrite Hf; by apply Hord|]. split; [done|].
  intros Hok id Hid. destruct (Hall Hok id Hid). split; [by apply Ho|done].
Qed.
End Parallel.

(** ** Putting to sleep *)

Lemma find_reply p c w e x w' : reliable c -> perform p c w (DbFindEnvironment e) = Some (x, w') ->
  x = Ok ((fun current => (bool_decide (e ∈ w_sleeping w), current)) <$> environments !! e).
Proof.
  intros Hc. unfold OnDemand.perform. destruct (w_managers w !! p); [|done]. destruct (ch_fails c _) eqn:Hf; [by destruct (Hc _ Hf)|].
  by intros [= <- <-].
Qed.

Lemma containers_reply p c w d x w' : reliable c -> perform p c w (DbContainers d) = Some (x, w') -> x = Ok (live_containers containers d).
Proof.
  intros Hc. unfold OnDemand.perform. destruct (w_managers w !! p); [|done]. destruct (ch_fails c _) eqn:Hf; [by destruct (Hc _ Hf)|].
  by intros [= <- <-].
Qed.

Definition local_ids (m : OnDemandManager) (cs : list ContainerRow) : list string :=
  map cr_container_id (List.filter (fun c => is_local_container m (cr_node_id c)) cs).

Lemma local_ids_owned e d m id : environments !! e = Some (Some d) -> id ∈ local_ids m (live_containers containers d) -> id ∈ owned e.
Proof.
  intros He. unfold local_ids, owned, deployed. rewrite He, !list_elem_of_fmap. intros (c & -> & Hc). exists c. split; [done|].
  rewrite list_elem_of_In, filter_In, <- list_elem_of_In in Hc. apply Hc.
Qed.

Lemma on_node_local e d m id : environments !! e = Some (Some d) -> id ∈ on_node e -> id ∈ local_ids m (live_containers containers d).
Proof.
  intros He. unfold local_ids, on_node, deployed. rewrite He, !list_elem_of_fmap. intros (c & -> & Hc). exists c. split; [done|].
  rewrite list_elem_of_In, filter_In in *. destruct Hc as [Hin Hn%bool_decide_eq_true]. by rewrite Hn.
Qed.

Lemma keeps_arrived {A} up p e moved seen a (k : reply a -> program A) Q :
  quiet a = true -> (forall id, id ∈ on_node e -> id ∈ moved) -> (forall x, keeps up p Idle (k x) Q) ->
  keeps up p (Moving e moved seen) (Do a k) Q.
Proof. intros Hq Hall Hk. apply keeps_quiet; [done|]. intros c w x w' _ _ _. exists Idle. split; [by constructor|apply Hk]. Qed.

Lemma sleep_keeps p e : keeps false p Idle (sleep_environment e) (fun _ r => r = Idle).
Proof.
  unfold sleep_environment, prog_try. cbn [prog_bind call]. apply keeps_fall_asleep; [intros seen|done|done]. cbn [negb prog_bind call].
  apply keeps_quiet; [done|]. intros c w x w' Hc [_ [current He]] ->%(find_reply _ _ _ _ _ _ Hc). rewrite He. cbn [fmap option_fmap option_map].
  destruct current as [d|].
  2:{ exists Idle. split; [|done]. constructor. intros id. unfold on_node, deployed. rewrite He. by intros ?%elem_of_nil. }
  exists (Moving e [] seen). split; [constructor|]. cbn [prog_bind call].
  apply keeps_quiet; [done|]. intros c2 w2 x w2' Hc2 _ ->%(containers_reply _ _ _ _ _ _ Hc2). exists (Moving e [] seen). split; [constructor|].
  cbn [prog_bind call]. apply keeps_skip; [done|]. intros m. apply keeps_bind. eapply keeps_mono.
  2:{ apply keeps_parallel; [|intros id; exact (local_ids_owned e d m id He)]. intros A id moved k Q Hid Hok Herr. by apply keeps_stop. }
  intros results r (moved & -> & _ & Hall). destruct (any_failed results); cbn [prog_bind call notify_route_change].
  - apply keeps_give_up. intros _. apply keeps_skip; [done|]. done.
  - apply keeps_arrived; [done| |done]. intros id Hid. apply Hall; [done|]. exact (on_node_local e d m id He Hid).
Qed.

(** ** Waking *)

Lemma now_reply p c w x w' : perform p c w Now = Some (x, w') -> x = w_clock w /\ w' = w.
Proof. unfold OnDemand.perform. destruct (w_managers w !! p); [|done]. by intros [= <- <-]. Qed.

Lemma slept_reply p c w t x w' : perform p c w (SleepUntil t) = Some (x, w') -> t <= w_clock w' /\ w' = w.
Proof.
  unfold OnDemand.perform. destruct (w_managers w !! p); [|done]. destruct (Z.ltb_spec (w_clock w) t); [done|]. by intros [= <- <-].
Qed.

(** Reading the clock. *)
Lemma keeps_now {A} up p e moved seen (k : Z -> program A) Q :
  (forall now, seen <= now -> keeps up p (Moving e moved now) (k now) Q) -> keeps up p (Moving e moved seen) (Do Now k) Q.
Proof.
  intros Hk. apply keeps_quiet; [done|]. intros c w x w' _ [Hs _] [-> ->]%now_reply. exists (Moving e moved (w_clock w)).
  split; [by constructor|by apply Hk].
Qed.

Lemma keeps_sleep {A} up p e moved seen t (k : unit -> program A) Q :
  (forall now, t <= now -> keeps up p (Moving e moved now) (k ()) Q) -> keeps up p (Moving e moved seen) (Do (SleepUntil t) k) Q.
Proof.
  intros Hk. apply keeps_quiet; [done|]. intros c w [] w' _ _ [Hs ->]%slept_reply. exists (Moving e moved (w_clock w)).
  split; [by constructor|by apply Hk].
Qed.

Lemma poll_keeps p e moved hs timeout id polls seen :
  (0 < polls)%nat -> hs + (2 * timeout + 2 - Z.of_nat polls) * (SECOND / 2) <= seen ->
  keeps true p (Moving e moved seen) (poll_health polls hs timeout id)
    (fun r role => r <> None /\ exists seen', role = Moving e moved seen' /\ seen <= seen').
Proof.
  revert seen. induction polls as [|polls IH]; intros seen Hp Hs; [lia|]. cbn [poll_health prog_bind call].
  change (SECOND / 2) with 500000000 in *.
  apply keeps_now. intros now Hnow. destruct (Z.ltb_spec (timeout * SECOND) (now - hs)) as [|Hle]; [by split; [|exists now]|].
  cbn [prog_bind call]. apply keeps_skip; [done|]. intros healthy.
  assert (keeps true p (Moving e moved now)
    (prog_bind (call Now) (fun now => prog_bind (call (SleepUntil (now + 500000000))) (fun _ => poll_health polls hs timeout id)))
    (fun r role => r <> None /\ exists seen', role = Moving e moved seen' /\ seen <= seen')) as Hagain.
  { cbn [prog_bind call]. apply keeps_now. intros now2 Hnow2. apply keeps_sleep. intros now3 Hnow3. unfold SECOND in Hle.
    eapply keeps_mono; [|apply IH; lia]. intros r role (Hr & seen' & -> & Hseen). split; [done|]. exists seen'. split; [done|lia]. }
  destruct healthy as [[]|]; try exact Hagain. split; [done|]. by exists now.
Qed.

Lemma await_keeps p e moved hs timeout ids seen :
  0 <= timeout -> hs <= seen ->
  keeps true p (Moving e moved seen) (await_healthy hs timeout ids)
    (fun r role => r <> None /\ exists seen', role = Moving e moved seen').
Proof.
  intros Ht. revert seen. induction ids as [|id ids IH]; intros seen Hs; cbn [await_healthy]; [by split; [|exists seen]|].
  apply keeps_bind. eapply keeps_mono; [|apply poll_keeps; change (SECOND / 2) with 500000000; lia].
  intros r role (Hr & seen' & -> & Hseen). destruct r as [[]|]; [apply IH; lia|by split; [|exists seen']|done].
Qed.

Lemma stop_all_keeps p e moved seen ids :
  separate -> (forall id, id ∈ ids -> id ∈ owned e) ->
  keeps true p (Moving e moved seen) (stop_all ids) (fun _ role => exists moved', role = Moving e moved' seen).
Proof.
  intros Hsep. revert moved. induction ids as [|id ids IH]; intros moved Hown; cbn [stop_all prog_bind call]; [by exists moved|].
  apply keeps_stop_again; [done|apply Hown, list_elem_of_here|]. intros _. apply IH. intros id' Hid'. apply Hown.
  by apply list_elem_of_further.
Qed.

Lemma go_back_keeps p e moved seen ids (err : OnDemandError) :
  separate -> (forall id, id ∈ ids -> id ∈ owned e) ->
  keeps true p (Moving e moved seen)
    (prog_bind (stop_all ids) (fun _ => prog_bind (call (DbSetSleeping e true)) (fun _ => Ret (Err (A := unit) err)))) (fun _ r => r = Idle).
Proof.
  intros Hsep Hown. apply keeps_bind. eapply keeps_mono; [|by apply stop_all_keeps]. intros _ role (moved' & ->).
  cbn [prog_bind call]. by apply keeps_give_up.
Qed.

Lemma as_u64_nonneg x : 0 <= as_u64 x.
Proof. apply (wrap_fits 64 x). lia. Qed.

(** The end of a wake, once the containers are there. *)
Lemma announce_keeps p e d : keeps true p Idle
  (prog_bind (publish_route_reload e d) (fun _ => prog_bind notify_route_change (fun _ => Ret (Ok (E := OnDemandError) ()))))
  (fun _ r => r = Idle).
Proof. cbn [publish_route_reload notify_route_change prog_bind call]. apply keeps_skip; [done|]. intros _. by apply keeps_skip. Qed.

Lemma healthy_keeps p e d t moved seen ids :
  separate -> (forall id, id ∈ ids -> id ∈ owned e) -> (forall id, id ∈ on_node e -> id ∈ moved) ->
  keeps true p (Moving e moved seen)
    (prog_bind (call Now) (fun health_start =>
     prog_bind (await_healthy health_start (as_u64 t) ids) (fun healthy =>
     match healthy with
     | None => Ret (Err PollsExhausted)
     | Some false => prog_bind (stop_all ids) (fun _ => prog_bind (call (DbSetSleeping e true)) (fun _ => Ret (Err (WakeTimeout e t))))
     | Some true => prog_bind (record_activity e) (fun _ => prog_bind (call Now) (fun now => prog_bind (call (DbTouch e now false)) (fun _ =>
                    prog_bind (publish_route_reload e d) (fun _ => prog_bind notify_route_change (fun _ => Ret (Ok ()))))))
     end))) (fun _ r => r = Idle).
Proof.
  intros Hsep Hown Hall. cbn [prog_bind call]. apply keeps_now. intros hs _. apply keeps_bind.
  eapply keeps_mono; [|apply await_keeps; [apply as_u64_nonneg|done]]. intros r role (Hr & seen' & ->). destruct r as [[]|]; [|by apply go_back_keeps|done].
  unfold record_activity, current_epoch_secs. cbn [prog_bind call]. apply keeps_arrived; [done|done|]. intros ns.
  apply keeps_skip; [done|]. intros _. apply keeps_skip; [done|]. intros _. apply keeps_skip; [done|]. intros now.
  apply keeps_skip; [done|]. intros _. apply announce_keeps.
Qed.

Lemma do_wake_keeps p e t : separate -> keeps true p Idle (do_wake e t) (fun _ r => r = Idle).
Proof.
  intros Hsep. unfold do_wake, prog_try. cbn [prog_bind call]. apply keeps_wake_up; [intros seen|done|done]. cbn [negb prog_bind call].
  apply keeps_quiet; [done|]. intros c w x w' Hc [_ [current He]] ->%(find_reply _ _ _ _ _ _ Hc). rewrite He. cbn [fmap option_fmap option_map].
  destruct current as [d|].
  2:{ exists Idle. split; [|done]. constructor. intros id. unfold on_node, deployed. rewrite He. by intros ?%elem_of_nil. }
  exists (Moving e [] seen). split; [constructor|]. cbn [prog_bind call].
  apply keeps_quiet; [done|]. intros c2 w2 x w2' Hc2 _ ->%(containers_reply _ _ _ _ _ _ Hc2).
  destruct (live_containers containers d) as [|first rest] eqn:Hlive.
  { exists Idle. split; [|apply announce_keeps]. constructor. intros id. unfold on_node, deployed. rewrite He, Hlive. by intros ?%elem_of_nil. }
  exists (Moving e [] seen). split; [constructor|]. rewrite <- Hlive. clear Hlive. cbn [prog_bind call]. apply keeps_skip; [done|]. intros m.
  pose proof (fun id => local_ids_owned e d m id He) as Hown. pose proof (fun id => on_node_local e d m id He) as Hnode.
  unfold local_ids in *. destruct (List.filter _ (live_containers containers d)) as [|c3 cs]; [by apply keeps_give_up|].
  apply keeps_bind. eapply keeps_mono.
  2:{ apply keeps_parallel; [|exact Hown]. intros A id moved k Q Hid Hok Herr. by apply keeps_start. }
  intros results r (moved & -> & Hsub & Hall). destruct (any_failed results).
  - apply go_back_keeps; [done|]. intros id Hid. by apply Hown, Hsub.
  - apply healthy_keeps; [done| |]; intros id Hid; [by apply Hown, Hsub|]. apply Hall; [done|]. by apply Hnode.
Qed.

Lemma wake_keeps p e t : separate -> keeps true p Idle (wake_environment e t) (fun _ r => r = Idle).
Proof.
  intros Hsep. unfold wake_environment, prog_try. cbn [prog_bind call]. apply keeps_skip; [done|]. intros state.
  apply keeps_skip; [done|]. intros [].
  - apply keeps_bind. eapply keeps_mono; [|by apply do_wake_keeps]. intros result role ->. cbn [prog_bind call].
    apply keeps_skip; [done|]. intros _. apply keeps_skip; [done|]. done.
  - cbn [prog_bind call]. do 2 (apply keeps_skip; [done|]; intros ?). apply keeps_skip; [done|]. intros []; [|done].
    cbn [prog_bind call].
    apply keeps_skip; [done|]. intros row. by repeat case_match.
Qed.

(** ** Every call keeps its direction *)

Lemma sweep_configs_keeps p now configs : keeps false p Idle (sweep_configs now configs) (fun _ r => r = Idle).
Proof.
  induction configs as [|oc configs IH]; cbn [sweep_configs prog_bind call]; [done|]. apply keeps_skip; [done|]. intros [last|]; [|done].
  destruct (_ <=? _).
  - apply keeps_bind. eapply keeps_mono; [|apply sleep_keeps]. intros r role ->. apply keeps_bind.
    eapply keeps_mono; [|exact IH]. by intros [slept updates] role ->.
  - apply keeps_bind. eapply keeps_mono; [|exact IH]. by intros [slept updates] role ->.
Qed.

Lemma persist_keeps up p updates : keeps up p Idle (persist_activity_timestamps from_timestamp updates) (fun _ r => r = Idle).
Proof.
  induction updates as [|[e secs] updates IH]; cbn [persist_activity_timestamps prog_bind call]; [done|]. destruct (from_timestamp secs); [|done].
  cbn [prog_bind call]. by apply keeps_skip.
Qed.

Lemma sweep_keeps p : keeps false p Idle (sweep_idle_environments from_timestamp) (fun _ r => r = Idle).
Proof.
  unfold sweep_idle_environments, current_epoch_secs. cbn [prog_bind call]. apply keeps_skip; [done|]. intros ns. apply keeps_skip; [done|].
  intros configs. apply keeps_bind. eapply keeps_mono; [|apply sweep_configs_keeps]. intros [slept updates] role ->. apply keeps_bind.
  eapply keeps_mono; [|apply persist_keeps]. by intros [] role ->.
Qed.

Lemma quiet_keeps {A} up p r (q : program A) : only quiet q -> keeps up p r q (fun _ r' => r' = r).
Proof. induction 1; [done|]. by apply keeps_skip. Qed.

Lemma resolve_quiet looks deadline host : only quiet (resolve_loop looks deadline host).
Proof. induction looks; cbn [resolve_loop]; only_steps. Qed.

Lemma visit_keeps p info host : separate -> keeps true p Idle (answer_sleeping_host info host) (fun _ r => r = Idle).
Proof.
  intros Hsep. unfold answer_sleeping_host, try_acquire_wake_slot. cbn [prog_bind call]. apply keeps_skip; [done|]. intros []; [|done]. cbn [negb].
  apply keeps_bind. eapply keeps_mono; [|by apply wake_keeps]. intros woken role ->. apply keeps_bind.
  apply (keeps_mono _ _ _ _ _ _ (fun _ r => r = Idle)); [intros a role ->; by apply keeps_skip|].
  apply quiet_keeps. unfold wait_for_route_reload. only_steps; apply resolve_quiet.
Qed.

Lemma body_keeps up p r : separate -> toward up r = true -> keeps up p Idle (body p r) (fun _ role => role = Idle).
Proof.
  intros Hsep. destruct r as [e t|e| |e|e idle wake|e|entries|info host|]; cbn [toward OnDemand.body]; intros Ht.
  1:{ subst up. apply keeps_bind. eapply keeps_mono; [|by apply wake_keeps]. by intros x role ->. }
  1:{ apply negb_true_iff in Ht as ->. apply keeps_bind. eapply keeps_mono; [|apply sleep_keeps]. by intros x role ->. }
  1:{ apply negb_true_iff in Ht as ->. apply keeps_bind. eapply keeps_mono; [|apply sweep_keeps]. by intros x role ->. }
  5:{ subst up. apply keeps_bind. eapply keeps_mono; [|by apply visit_keeps]. by intros x role ->. }
  all: unfold record_activity, register_on_demand_environment, remove_environment, replace_sleeping_domains, notify_route_reloaded,
    current_epoch_secs; cbn [prog_bind call]; repeat (apply keeps_skip; [done|]; intros ?); done.
Qed.

(** A state in which every claim is true. *)
Definition settled (up : bool) (w : World) : Prop :=
  forall e id, is_Some (environments !! e) -> claims up e w -> id ∈ on_node e -> reached up id w.

Lemma steady_idle up w roles : Forall (fun r => r = Idle) roles -> steady up w roles <-> settled up w.
Proof.
  intros Hall. assert (forall e, List.filter (moving e) roles = []) as Hn.
  { intros e. induction Hall as [|r roles -> _ IH]; [done|exact IH]. }
  split; [intros [_ _ H3] e id He Hc Hid; by apply (H3 e)|]. intros Hs. split.
  - intros e. rewrite Hn. cbn. lia.
  - intros e moved seen Hin. rewrite list.Forall_forall in Hall. by apply Hall in Hin.
  - intros e id He Hc _. by apply Hs.
Qed.

Lemma run_settles up w evs :
  separate -> Forall (allowed up) evs -> settled up w ->
  Forall (fun t => finished t = true) (sy_tasks (exec {| sy_world := w; sy_tasks := [] |} evs)) ->
  settled up (sy_world (exec {| sy_world := w; sy_tasks := [] |} evs)).
Proof.
  intros Hsep Hevs Hw Hfin.
  assert (pool_ok perform (allowed up) (steady up) (fun _ r => r = Idle) (exec {| sy_world := w; sy_tasks := [] |} evs)) as (roles & Hst & Hplay).
  { apply pool_safe; [apply steady_perm| | |intros i Hd; exact Hd|done|].
    - intros p r w' rs Ha Hst. exists Idle. split; [|by apply body_keeps]. destruct Hst as [H1 H2 H3]. split.
      + intros e. apply H1.
      + intros e moved seen [? |Hin]%elem_of_cons; [done|]. by apply (H2 e).
      + intros e id He Hc Hn. by apply (H3 e).
    - intros ns w' rs _. apply steady_view. split; [done|]. split; [done|]. cbn. lia.
    - exists []. split; [|done]. by apply steady_idle. }
  eapply steady_idle; [|exact Hst]. clear Hst. induction Hplay as [|t r ts rs Hp _ IH]; [done|]. inv Hfin. constructor; [|by apply IH].
  unfold plays, finished in *. by destruct (tk_prog t).
Qed.


(** However sweeps and calls that put to sleep interleave on any proxies, and whatever containers
    fail to stop, once no call is in progress every environment that counts as asleep has all the
    containers of its deployment on the node stopped. *)
Theorem sleeps_leave_stopped w evs :
  separate -> Forall (allowed false) evs ->
  (forall e id, is_Some (environments !! e) -> e ∈ w_sleeping w -> id ∈ on_node e -> id ∉ w_running w) ->
  let s := exec {| sy_world := w; sy_tasks := [] |} evs in
  Forall (fun t => finished t = true) (sy_tasks s) ->
  forall e id, is_Some (environments !! e) -> e ∈ w_sleeping (sy_world s) -> id ∈ on_node e -> id ∉ w_running (sy_world s).
Proof. intros Hsep Hevs Hw. exact (run_settles false w evs Hsep Hevs Hw). Qed.
End Runs.
