(* ===== verification/OnDemandFlag.v ===== *)
(** * Flags and slots are given back

    Whatever calls fail and however tasks interleave, a wake state whose flag is set has a task that
    is still at work; a wake that has returned, failed or not, has cleared it.  The same for the slots
    of requests that wait for a wake. *)

From S2P Require Import Prelude Wildcard Bytes Prog OnDemand OnDemandRuns.
Local Open Scope Z_scope.

Section Flag.
Context (environments : gmap Z (option Z)) (containers : list ContainerRow) (from_timestamp : Z -> bool).

#[local] Abbreviation perform := (perform environments containers).
#[local] Abbreviation body := (body from_timestamp).
#[local] Abbreviation program := (prog reply).
#[local] Abbreviation exec := (exec perform pass body).

(** The wake state whose flag a task has set, if any. *)
Definition holding (r : nat) (held : option nat) : bool := bool_decide (held = Some r).

Definition holders (r : nat) (roles : list (option nat)) : nat := length (List.filter (holding r) roles).

Definition flags_held (w : World) (roles : list (option nat)) : Prop :=
  forall r, holders r roles = match w_wake w !! r with Some s => if ws_waking s then 1%nat else 0%nat | None => 0%nat end.

Definition no_drop (ev : Event (Choice := Choice) (Agent := nat) (Env := N) (Call := Request)) : Prop :=
  match ev with Drop _ => False | _ => True end.

#[local] Abbreviation keeps := (keeps perform no_drop flags_held).

Lemma flags_perm w rs rs' : rs ≡ₚ rs' -> flags_held w rs -> flags_held w rs'.
Proof. intros Hp Hf r. rewrite <- (Hf r). unfold holders. by rewrite (Permutation_length (filter_perm (holding r) _ _ Hp)). Qed.

Lemma holders_cons r h roles : holders r (h :: roles) = ((if holding r h then 1 else 0) + holders r roles)%nat.
Proof. unfold holders. cbn. by destruct (holding r h). Qed.

(** The accesses that touch a flag. *)
Definition flagless (a : Action) : bool := match a with StartWaking _ | StopWaking _ => false | _ => true end.

Definition flag_of (w : World) (r : nat) : bool := match w_wake w !! r with Some s => ws_waking s | None => false end.

Lemma flags_held_of w roles : flags_held w roles <-> forall r, holders r roles = if flag_of w r then 1%nat else 0%nat.
Proof. unfold flags_held, flag_of. split; intros Hf r; rewrite (Hf r); by destruct (w_wake w !! r). Qed.

Lemma flag_new (l : list WakeState) r :
  match (l ++ [{| ws_waking := false; ws_notified := 0 |}]) !! r with Some s => ws_waking s | None => false end =
  match l !! r with Some s => ws_waking s | None => false end.
Proof.
  destruct (decide (r < length l)%nat); [by rewrite lookup_app_l|]. rewrite lookup_app_r, (lookup_ge_None_2 l) by lia.
  by destruct (r - length l)%nat as [|[]].
Qed.

Lemma flag_insert (l : list WakeState) r r' s :
  is_Some (l !! r) ->
  match <[r := s]> l !! r' with Some s => ws_waking s | None => false end =
  if decide (r = r') then ws_waking s else match l !! r' with Some s => ws_waking s | None => false end.
Proof.
  intros Hr%lookup_lt_is_Some. destruct (decide (r = r')) as [<-|Hne]; [by rewrite list_lookup_insert_eq|]. by rewrite list_lookup_insert_ne.
Qed.

Lemma flagless_flags p c w a x w' r : flagless a = true -> perform p c w a = Some (x, w') -> flag_of w' r = flag_of w r.
Proof.
  intros Hq. unfold OnDemand.perform, flag_of. destruct (w_managers w !! p) as [m|]; [|done].
  destruct a; try done; cbn.
  27: { destruct (w_wake w !! state) as [s|] eqn:Hs; [|done]. intros [= <- <-]. cbn. rewrite flag_insert by done. cbn.
        case_decide as Hd; [|done]. subst. by rewrite Hs. }
  26: { destruct (om_wake_states m !! environment_id); intros [= <- <-]; [done|]. apply flag_new. }
  all: intros Hp; assert (w_wake w' = w_wake w) as ->; [|done].
  all: simplify_option_eq; repeat case_match; by simplify_eq.
Qed.

Lemma keeps_flagless {A} p held a (k : reply a -> program A) Q :
  flagless a = true -> (forall x, keeps p held (k x) Q) -> keeps p held (Do a k) Q.
Proof.
  intros Hq Hk i c w others x w' _ Hf Hp. exists held. split; [|apply Hk]. rewrite flags_held_of in *. intros r. rewrite (Hf r).
  by rewrite (flagless_flags _ _ _ _ _ _ r Hq Hp).
Qed.

Lemma keeps_start_waking {A} p r (k : bool -> program A) Q :
  keeps p (Some r) (k true) Q -> keeps p None (k false) Q -> keeps p None (Do (StartWaking r) k) Q.
Proof.
  intros Hwon Hlost i c w others x w' _ Hf. unfold OnDemand.perform. destruct (w_managers w !! p); [|done].
  destruct (w_wake w !! r) as [s|] eqn:Hs; [|done]. cbn. destruct (ws_waking s) eqn:Hw; intros [= <- <-]; [by exists None|].
  exists (Some r). split; [|done]. rewrite flags_held_of in *. intros r'. specialize (Hf r'). rewrite holders_cons in *. unfold flag_of in *. cbn.
  rewrite flag_insert by done. unfold holding in *. rewrite (bool_decide_false (None = Some r')) in Hf by done. cbn in Hf.
  destruct (decide (r = r')) as [<-|Hne].
  - rewrite bool_decide_true by done. rewrite Hs, Hw in Hf. cbn. lia.
  - rewrite bool_decide_false by congruence. exact Hf.
Qed.

Lemma keeps_stop_waking {A} p r (k : unit -> program A) Q :
  keeps p None (k ()) Q -> keeps p (Some r) (Do (StopWaking r) k) Q.
Proof.
  intros Hk i c w others x w' _ Hf. unfold OnDemand.perform. destruct (w_managers w !! p); [|done].
  destruct (w_wake w !! r) as [s|] eqn:Hs; [|done]. cbn. intros [= <- <-]. exists None. split; [|done].
  rewrite flags_held_of in *. intros r'. specialize (Hf r'). rewrite holders_cons in *. unfold flag_of in *. cbn.
  rewrite flag_insert by done. unfold holding in *. rewrite (bool_decide_false (None = Some r')) by done. cbn.
  destruct (decide (r = r')) as [<-|Hne].
  - rewrite bool_decide_true, Hs in Hf by done. destruct (ws_waking s); cbn in Hf |- *; lia.
  - rewrite bool_decide_false in Hf by congruence. exact Hf.
Qed.

(** ** Programs that do not touch a flag *)

#[local] Abbreviation no_flags := (only flagless).

Lemma no_flags_keeps {A} p held (q : program A) : no_flags q -> keeps p held q (fun _ h => h = held).
Proof. induction 1; [done|]. by apply keeps_flagless. Qed.

Ltac flagless := unfold in_parallel, record_activity, publish_route_reload, notify_route_change, current_epoch_secs,
    register_on_demand_environment, remove_environment, replace_sleeping_domains, notify_route_reloaded; only_steps.

Lemma sleep_flagless e : no_flags (sleep_environment e).
Proof. unfold sleep_environment. flagless. Qed.

Lemma stop_all_flagless ids : no_flags (stop_all ids).
Proof. induction ids; cbn [stop_all]; flagless. Qed.

Lemma poll_flagless polls hs t id : no_flags (poll_health polls hs t id).
Proof. induction polls; cbn [poll_health]; flagless. Qed.

Lemma await_flagless hs t ids : no_flags (await_healthy hs t ids).
Proof. induction ids; cbn [await_healthy]; flagless. apply poll_flagless. Qed.

Lemma resolve_flagless looks deadline host : no_flags (resolve_loop looks deadline host).
Proof. induction looks; cbn [resolve_loop]; only_steps. Qed.

Lemma do_wake_flagless e t : no_flags (do_wake e t).
Proof. unfold do_wake. flagless; auto using stop_all_flagless, await_flagless. Qed.

Lemma sweep_configs_flagless now configs : no_flags (sweep_configs now configs).
Proof. induction configs; cbn [sweep_configs]; flagless; apply sleep_flagless. Qed.

Lemma persist_flagless updates : no_flags (persist_activity_timestamps from_timestamp updates).
Proof. induction updates as [|[e secs] updates IH]; cbn [persist_activity_timestamps]; flagless. Qed.

(** ** A wake gives its flag back *)

Lemma wake_flag p e t : keeps p None (wake_environment e t) (fun _ held => held = None).
Proof.
  unfold wake_environment, prog_try. cbn [prog_bind call]. apply keeps_flagless; [done|]. intros state. apply keeps_start_waking.
  - apply keeps_bind. eapply keeps_mono; [|apply no_flags_keeps, do_wake_flagless]. intros result held ->. cbn [prog_bind call].
    apply keeps_stop_waking. by apply keeps_flagless.
  - eapply keeps_mono; [|apply no_flags_keeps; flagless]. done.
Qed.

Lemma visit_flag p info host : keeps p None (answer_sleeping_host info host) (fun _ held => held = None).
Proof.
  unfold answer_sleeping_host, try_acquire_wake_slot. cbn [prog_bind call]. apply keeps_flagless; [done|]. intros []; [|done]. cbn [negb].
  apply keeps_bind. eapply keeps_mono; [|apply wake_flag]. intros woken held ->. apply no_flags_keeps. unfold wait_for_route_reload.
  only_steps; apply resolve_flagless.
Qed.

Lemma body_flag p r : keeps p None (body p r) (fun _ held => held = None).
Proof.
  destruct r; cbn [OnDemand.body].
  1:{ apply keeps_bind. eapply keeps_mono; [|apply wake_flag]. by intros ? ? ->. }
  7:{ apply keeps_bind. eapply keeps_mono; [|apply visit_flag]. by intros ? ? ->. }
  all: apply no_flags_keeps; flagless; auto using sleep_flagless, sweep_configs_flagless, persist_flagless.
Qed.


(** ** Slots *)

Definition slots_of (w : World) (q : nat) : option nat := om_wake_slots <$> w_managers w !! q.

(** Free slots and those that tasks hold. *)
Definition slots_held (w : World) (roles : list (option nat)) : Prop :=
  forall q n, slots_of w q = Some n -> (n + holders q roles)%nat = MAX_CONCURRENT_WAKE_WAITERS.

#[local] Abbreviation keeps_slots := (Prog.keeps perform no_drop slots_held).

Definition slotless (a : Action) : bool := match a with AcquireSlot | ReleaseSlot => false | _ => true end.

Lemma alter_slots f (ms : list OnDemandManager) p q :
  (forall m, om_wake_slots (f m) = om_wake_slots m) -> om_wake_slots <$> alter f p ms !! q = om_wake_slots <$> ms !! q.
Proof.
  intros Hf. destruct (decide (p = q)) as [->|Hne]; [|by rewrite list_lookup_alter_ne]. rewrite list_lookup_alter_eq.
  destruct (ms !! q); cbn; [|done]. by rewrite Hf.
Qed.

Lemma slotless_slots p c w a x w' q : slotless a = true -> perform p c w a = Some (x, w') -> slots_of w' q = slots_of w q.
Proof.
  intros Ha. unfold OnDemand.perform, slots_of. destruct (w_managers w !! p) as [m|]; [|done].
  destruct a; try done; cbn; intros Hp; simplify_option_eq; repeat case_match; simplify_eq; try done;
    cbn; apply alter_slots; intros m'; by repeat case_match.
Qed.

Lemma keeps_slotless {A} p held a (k : reply a -> program A) Q :
  slotless a = true -> (forall x, keeps_slots p held (k x) Q) -> keeps_slots p held (Do a k) Q.
Proof.
  intros Ha Hk i c w others x w' _ Hs Hp. exists held. split; [|apply Hk]. intros q n. rewrite (slotless_slots _ _ _ _ _ _ q Ha Hp). apply Hs.
Qed.

Lemma only_slotless {A} p held (q : program A) : only slotless q -> keeps_slots p held q (fun _ h => h = held).
Proof. induction 1; [done|]. by apply keeps_slotless. Qed.

Lemma keeps_acquire {A} p (k : bool -> program A) Q :
  keeps_slots p (Some p) (k true) Q -> keeps_slots p None (k false) Q -> keeps_slots p None (Do AcquireSlot k) Q.
Proof.
  intros Hyes Hno i c w others x w' _ Hs. unfold OnDemand.perform. destruct (w_managers w !! p) as [m|] eqn:Hm; [|done].
  destruct (om_wake_slots m) as [|n] eqn:Hn; intros [= <- <-]; [by exists None|]. exists (Some p). split; [|done].
  intros q k' Hq. rewrite holders_cons. unfold holding. unfold slots_of in Hq. cbn in Hq. destruct (decide (p = q)) as [<-|Hne].
  - rewrite list_lookup_alter_eq, Hm in Hq. injection Hq as <-. specialize (Hs p (S n)). unfold slots_of in Hs. rewrite Hm in Hs.
    rewrite holders_cons in Hs. cbn [fmap option_fmap option_map] in Hs. rewrite Hn in Hs. specialize (Hs eq_refl).
    rewrite bool_decide_true by done. unfold holding in Hs. rewrite bool_decide_false in Hs by done. cbn [om_wake_slots with_slots]. lia.
  - rewrite list_lookup_alter_ne in Hq by done. rewrite bool_decide_false by congruence. exact (Hs q k' Hq).
Qed.

Lemma keeps_release {A} p (k : unit -> program A) Q : keeps_slots p None (k ()) Q -> keeps_slots p (Some p) (Do ReleaseSlot k) Q.
Proof.
  intros Hk i c w others x w' _ Hs. unfold OnDemand.perform. destruct (w_managers w !! p) as [m|] eqn:Hm; [|done].
  intros [= <- <-]. exists None. split; [|done]. intros q k' Hq. rewrite holders_cons. unfold slots_of in Hq. cbn in Hq.
  destruct (decide (p = q)) as [<-|Hne].
  - rewrite list_lookup_alter_eq, Hm in Hq. injection Hq as <-. specialize (Hs p (om_wake_slots m)). unfold slots_of in Hs. rewrite Hm in Hs.
    rewrite holders_cons in Hs. unfold holding in Hs. rewrite bool_decide_true in Hs by done. specialize (Hs eq_refl). cbn [om_wake_slots with_slots].
    unfold holding. rewrite bool_decide_false by done. lia.
  - rewrite list_lookup_alter_ne in Hq by done. specialize (Hs q k' Hq). rewrite holders_cons in Hs. unfold holding in Hs.
    rewrite bool_decide_false in Hs by congruence. exact Hs.
Qed.

Ltac slotless := unfold in_parallel, record_activity, publish_route_reload, notify_route_change, current_epoch_secs,
    register_on_demand_environment, remove_environment, replace_sleeping_domains, notify_route_reloaded; only_steps.

Lemma sleep_slotless e : only slotless (sleep_environment e).
Proof. unfold sleep_environment. slotless. Qed.

Lemma do_wake_slotless e t : only slotless (do_wake e t).
Proof.
  assert (forall ids, only slotless (stop_all ids)) by (induction ids; cbn [stop_all]; slotless).
  assert (forall polls hs t id, only slotless (poll_health polls hs t id)) by (intros polls hs' t' id; induction polls; cbn [poll_health]; slotless).
  assert (forall hs t ids, only slotless (await_healthy hs t ids)) by (induction ids; cbn [await_healthy]; slotless; auto).
  unfold do_wake. slotless; auto.
Qed.

Lemma wake_slotless e t : only slotless (wake_environment e t).
Proof. pose proof (do_wake_slotless e t). unfold wake_environment. slotless. Qed.

Lemma sweep_slotless : only slotless (sweep_idle_environments from_timestamp).
Proof.
  assert (forall updates, only slotless (persist_activity_timestamps from_timestamp updates)).
  { induction updates as [|[e secs] updates IH]; cbn [persist_activity_timestamps]; slotless. }
  assert (forall now configs, only slotless (sweep_configs now configs)).
  { induction configs; cbn [sweep_configs]; slotless; apply sleep_slotless. }
  unfold sweep_idle_environments. slotless; auto.
Qed.

Lemma visit_slots p info host : keeps_slots p None (answer_sleeping_host info host) (fun _ held => held = None).
Proof.
  assert (forall looks deadline, only slotless (resolve_loop looks deadline host)) by (intros looks deadline; induction looks; cbn [resolve_loop]; slotless).
  unfold answer_sleeping_host, try_acquire_wake_slot. cbn [prog_bind call]. apply keeps_acquire; [|done]. cbn [negb].
  apply keeps_bind. eapply keeps_mono; [|apply only_slotless, wake_slotless]. intros woken held ->. apply keeps_bind.
  apply (keeps_mono _ _ _ _ _ _ (fun _ h => h = Some p)); [intros a h ->; by apply keeps_release|].
  apply only_slotless. unfold wait_for_route_reload. slotless; auto.
Qed.

Lemma body_slots p r : keeps_slots p None (body p r) (fun _ held => held = None).
Proof.
  destruct r; cbn [OnDemand.body].
  8:{ apply keeps_bind. eapply keeps_mono; [|apply visit_slots]. by intros ? ? ->. }
  all: apply only_slotless; (apply only_bind; [|intros; apply only_ret]); auto using wake_slotless, sleep_slotless, sweep_slotless; slotless.
Qed.

Lemma slots_perm w rs rs' : rs ≡ₚ rs' -> slots_held w rs -> slots_held w rs'.
Proof. intros Hp Hs q n Hq. rewrite <- (Hs q n Hq). unfold holders. by rewrite (Permutation_length (filter_perm (holding q) _ _ Hp)). Qed.

(** A proxy never has more slots free than the limit, so never more requests than that wait for
    a wake at once, and once no call is in progress all of them are free again, however the
    requests ended. *)
Theorem wake_slots_returned w evs q m :
  Forall no_drop evs -> (forall q m, w_managers w !! q = Some m -> om_wake_slots m = MAX_CONCURRENT_WAKE_WAITERS) ->
  let sys := exec {| sy_world := w; sy_tasks := [] |} evs in
  w_managers (sy_world sys) !! q = Some m ->
  (om_wake_slots m <= MAX_CONCURRENT_WAKE_WAITERS)%nat /\
  (Forall (fun t => finished t = true) (sy_tasks sys) -> om_wake_slots m = MAX_CONCURRENT_WAKE_WAITERS).
Proof.
  intros Hevs Hw sys Hm.
  assert (pool_ok perform no_drop slots_held (fun _ held => held = None) sys) as (roles & Hs & Hplay).
  { apply pool_safe; [apply slots_perm| | |intros i Hd; exact Hd|done|].
    - intros p r w' rs _ Hs. exists None. split; [|apply body_slots]. intros q' n Hq. rewrite holders_cons. exact (Hs q' n Hq).
    - intros ns w' rs _ Hs. exact Hs.
    - exists []. split; [|done]. intros q' n. unfold slots_of. cbn. destruct (w_managers w !! q') as [m'|] eqn:Hm'; [|done].
      intros [= <-]. rewrite (Hw q' m' Hm'). lia. }
  specialize (Hs q (om_wake_slots m)). unfold slots_of in Hs. rewrite Hm in Hs. specialize (Hs eq_refl). split; [lia|]. intros Hfin.
  assert (holders q roles = 0%nat) as H0; [|lia]. clear Hs. induction Hplay as [|t role ts rs Hp _ IH]; [done|]. inv Hfin. rewrite holders_cons, IH by done.
  unfold plays, finished in *. destruct (tk_prog t); [|done]. cbn in Hp. by subst role.
Qed.
End Flag.
