(* ===== verification/OnDemandSpec.v ===== *)
(** * Calls on their own, and runs of a small node

    Which environment a host wakes, what a wake leaves behind when nothing interferes, which
    environments a sweep puts to sleep; and a node with two containers, on which the theorems apply
    and on which the interleavings that break an environment are computed. *)

From S2P Require Import Prelude Wildcard Bytes Prog OnDemand OnDemandRuns OnDemandFlag.
Local Open Scope Z_scope.

(** ** The hosts of sleeping environments *)

Lemma split_once_app c l r : contains_char c l = false -> split_once c (String.append l (String c r)) = Some (l, r).
Proof.
  induction l as [|a l IH]; cbn; [by rewrite Ascii.eqb_refl|]. intros [Ha Hl]%orb_false_elim. by rewrite Ha, (IH Hl).
Qed.

Lemma split_once_none c s : contains_char c s = false -> split_once c s = None.
Proof. induction s as [|a s IH]; cbn; [done|]. intros [Ha Hs]%orb_false_elim. by rewrite Ha, (IH Hs). Qed.

(** The awake routes of the same names. *)
Definition route_insert (m : Wildcard.WildcardMatcher SleepingEnvironmentInfo) (entry : string * SleepingEnvironmentInfo) :=
  (Wildcard.insert m entry.1 entry.2).2.

Definition routes_of (entries : list (string * SleepingEnvironmentInfo)) : Wildcard.WildcardMatcher SleepingEnvironmentInfo :=
  fold_left route_insert entries Wildcard.new.

Definition no_inner_star (entry : string * SleepingEnvironmentInfo) : Prop :=
  forall base, strip_prefix "*." entry.1 = Some base -> contains_char "*" base = false.

Lemma same_patterns entries d m :
  Forall no_inner_star entries -> (forall base, sd_wildcard_bases d !! base = Wildcard.patterns m !! Wildcard.reverse_domain base) ->
  forall base, sd_wildcard_bases (fold_left (fun d '(domain, info) => domain_insert d domain info) entries d) !! base =
    Wildcard.patterns (fold_left route_insert entries m) !! Wildcard.reverse_domain base.
Proof.
  revert d m. induction entries as [|[domain info] entries IH]; intros d m Hs Hb; [done|]. inv Hs. cbn [fold_left]. apply IH; [done|].
  intros base. unfold domain_insert, route_insert, Wildcard.insert. cbn [fst snd]. unfold strip_prefix.
  destruct (String.prefix "*." domain) eqn:Hp; cbn [negb]; [|apply Hb].
  assert (contains_char "*" (str_drop 2 domain) = false) as Hstar.
  { apply H1. unfold strip_prefix. cbn [fst]. by rewrite Hp. }
  cbn [String.length]. rewrite Hstar. destruct (String.eqb (str_drop 2 domain) ""); [apply Hb|]. cbn.
  destruct (decide (str_drop 2 domain = base)) as [<-|Hne]; [by rewrite !lookup_insert_eq|]. rewrite !lookup_insert_ne; [apply Hb| |done].
  intros Heq. apply Hne. rewrite <- (Wildcard.reverse_domain_involutive base), <- Heq. by rewrite Wildcard.reverse_domain_involutive.
Qed.

Lemma no_empty_base entries d : sd_wildcard_bases d !! ""%string = None ->
  sd_wildcard_bases (fold_left (fun d '(domain, info) => domain_insert d domain info) entries d) !! ""%string = None.
Proof.
  revert d. induction entries as [|[domain info] entries IH]; intros d Hd; [done|]. cbn [fold_left]. apply IH. unfold domain_insert.
  destruct (strip_prefix "*." domain) as [base|]; [|done]. destruct (String.eqb_spec base ""); [done|]. cbn. by rewrite lookup_insert_ne.
Qed.

(** A host that no exact name covers finds the sleeping environment that the route table's wildcard
    matcher would find among the same names: exactly one label deep, never for a host that starts
    with a dot. *)
Theorem sleeping_lookup_agrees entries host :
  Forall no_inner_star entries -> sd_exact (domains_of entries) !! host = None ->
  domain_get (domains_of entries) host = if String.prefix "." host then None else Wildcard.match_domain (routes_of entries) host.
Proof.
  intros Hs Hex. unfold domain_get. rewrite Hex. destruct (Wildcard.domain_cases host) as [Hd|(label & base & Hl & ->)].
  - rewrite split_once_none, Wildcard.match_domain_single by done. by destruct (String.prefix "." host).
  - rewrite split_once_app by done. rewrite Wildcard.match_domain_cons by done.
    pose proof (same_patterns entries no_domains Wildcard.new Hs (fun base => eq_refl) base) as Hsame. fold (domains_of entries) in Hsame.
    fold (routes_of entries) in Hsame. rewrite <- Hsame. destruct label as [|a label]; [by destruct base|]. cbn [String.eqb orb].
    assert (String.prefix "." (String.append (String a label) (String dot base)) = false) as ->.
    { cbn in Hl. apply orb_false_elim in Hl as [Ha _]. change (String.append (String a label) (String dot base)) with (String a (String.append label (String dot base))).
      cbv [String.prefix]. destruct (ascii_dec "." a) as [<-|]; [discriminate Ha|reflexivity]. }
    destruct (String.eqb_spec base "") as [->|]; [|done]. symmetry. by apply no_empty_base.
Qed.

(** ** A wake on its own *)

Section WakeAlone.
Context (environments : gmap Z (option Z)) (containers : list ContainerRow) (from_timestamp : Z -> bool) (p : nat).

#[local] Abbreviation perform := (perform environments containers).
#[local] Abbreviation program := (prog reply).
#[local] Abbreviation alone := (alone perform pass reliable p).
#[local] Abbreviation call := (call (reply := reply)).

(** Nothing a wake cares about has changed, time apart. *)
Definition stays (w w' : World) : Prop :=
  w_sleeping w' = w_sleeping w /\ w_running w' = w_running w /\ w_managers w' = w_managers w /\ w_clock w <= w_clock w'.

Lemma stays_refl w : stays w w.
Proof. split_and!; try done; lia. Qed.

Lemma stays_trans w1 w2 w3 : stays w1 w2 -> stays w2 w3 -> stays w1 w3.
Proof. intros (? & ? & ? & ?) (? & ? & ? & ?). split_and!; try congruence; lia. Qed.

Definition calm (a : Action) : bool :=
  match a with
  | DbFindEnvironment _ | DbContainers _ | DbTouch _ _ _ | DbNotify | SendReload _ | IsHealthy _ | EffectOrder _ | Now | SleepUntil _
  | Self | LastActivity _ | Reloads | AwaitReload _ _ | ResolveContext _ => true
  | _ => false
  end.

Lemma calm_stays c ns w a x w' : calm a = true -> perform p c (pass ns w) a = Some (x, w') -> stays w w'.
Proof.
  intros Ha. unfold OnDemand.perform, stays. destruct (w_managers (pass ns w) !! p); [|done].
  destruct a; try done; cbn; intros; simplify_option_eq; repeat case_match; simplify_eq; cbn; split_and!; try done; lia.
Qed.

Lemma alone_calm {A} a (k : reply a -> program A) Q w :
  calm a = true ->
  (forall c ns x w', reliable c -> perform p c (pass ns w) a = Some (x, w') -> stays w w' -> alone (k x) Q w') -> alone (Do a k) Q w.
Proof. intros Ha Hk ns c x w' Hc Hp. apply (Hk c ns x w' Hc Hp). by eapply calm_stays. Qed.

(** Calls that change the containers only. *)
Definition moves (w w' : World) : Prop :=
  w_sleeping w' = w_sleeping w /\ w_managers w' = w_managers w /\ w_clock w <= w_clock w'.

Lemma moves_trans w1 w2 w3 : moves w1 w2 -> moves w2 w3 -> moves w1 w3.
Proof. intros (? & ? & ?) (? & ? & ?). split_and!; try congruence; lia. Qed.

Lemma stays_moves w w' : stays w w' -> moves w w'.
Proof. by intros (? & ? & ? & ?). Qed.

Lemma alone_start {A} id (k : answer unit -> program A) Q w :
  (forall w', moves w w' -> w_running w ⊆ w_running w' -> (id ∈ w_running w' -> alone (k (Ok ())) Q w') /\
     forall err, alone (k (Err err)) Q w') ->
  alone (Do (StartContainer id) k) Q w.
Proof.
  intros Hk ns c x w' Hc. unfold OnDemand.perform. destruct (w_managers (pass ns w) !! p); [|done].
  destruct (ch_fails c _); intros [= <- <-]; apply Hk; unfold moves; cbn; try split_and!; try done; try lia; set_solver.
Qed.

Lemma alone_stop_all ids Q w : (forall w', moves w w' -> Q () w') -> alone (stop_all ids) Q w.
Proof.
  revert w. induction ids as [|id ids IH]; intros w HQ; cbn [stop_all prog_bind call].
  - apply HQ. split_and!; try done; lia.
  - intros ns c x w' Hc Hp. apply IH. intros w'' Hw. apply HQ. eapply moves_trans; [|done]. revert Hp.
    unfold OnDemand.perform, moves. destruct (w_managers (pass ns w) !! p); [|done].
    destruct (ch_fails c _); intros [= <- <-]; cbn; split_and!; try done; lia.
Qed.

Lemma alone_poll polls hs timeout id seen Q w :
  (0 < polls)%nat -> hs + (2 * timeout + 2 - Z.of_nat polls) * (SECOND / 2) <= seen -> seen <= w_clock w ->
  (forall b w', stays w w' -> Q (Some b) w') -> alone (poll_health polls hs timeout id) Q w.
Proof.
  change (SECOND / 2) with 500000000. revert seen w. induction polls as [|polls IH]; intros seen w Hp Hs Hw HQ; [lia|].
  cbn [poll_health prog_bind call]. change (SECOND / 2) with 500000000. apply alone_calm; [done|]. intros c1 ns1 now w1 _ [-> _]%now_reply Hw1.
  cbn [pass w_clock]. destruct (Z.ltb_spec (timeout * SECOND) (w_clock w + Z.of_N ns1 - hs)) as [|Hle]; [by apply HQ|].
  cbn [prog_bind call]. apply alone_calm; [done|]. intros c2 ns2 healthy w2 _ _ Hw2. pose proof (stays_trans _ _ _ Hw1 Hw2) as Hw02.
  assert (alone (prog_bind (call Now) (fun now => prog_bind (call (SleepUntil (now + 500000000))) (fun _ => poll_health polls hs timeout id))) Q w2)
    as Hagain.
  { cbn [prog_bind call]. apply alone_calm; [done|]. intros c3 ns3 now w3 _ [-> _]%now_reply Hw3. apply alone_calm; [done|].
    intros c4 ns4 [] w4 _ Hslept Hw4. apply slept_reply in Hslept as [Hslept _].
    pose proof (stays_trans _ _ _ Hw02 (stays_trans _ _ _ Hw3 Hw4)) as Hw04. unfold SECOND in Hle. cbn [pass w_clock] in Hslept.
    destruct Hw02 as (_ & _ & _ & Hc02). apply (IH (w_clock w4)).
    - lia.
    - lia.
    - lia.
    - intros b w' Hw'. apply HQ. by eapply stays_trans. }
  destruct healthy as [[]|]; try exact Hagain. by apply HQ.
Qed.

Lemma alone_await hs timeout ids Q w :
  0 <= timeout -> hs <= w_clock w -> (forall b w', stays w w' -> Q (Some b) w') -> alone (await_healthy hs timeout ids) Q w.
Proof.
  intros Ht. revert w. induction ids as [|id ids IH]; intros w Hs HQ; cbn [await_healthy]; [apply HQ, stays_refl|].
  apply alone_bind. apply (alone_poll _ _ _ _ (w_clock w)); [lia|change (SECOND / 2) with 500000000; lia|lia|].
  intros [] w' Hw; [|by apply HQ]. apply IH; [destruct Hw as (_ & _ & _ & ?); lia|]. intros b w'' Hw'. apply HQ. by eapply stays_trans.
Qed.

Lemma alone_each order Q w :
  (forall (results : list (string * answer unit)) w', moves w w' -> w_running w ⊆ w_running w' -> map fst results = order ->
     (forall id, (id, Ok ()) ∈ results -> id ∈ w_running w') -> Q results w') ->
  alone (prog_map (fun id => prog_bind (call (StartContainer id) : program (answer unit)) (fun r => Ret (id, r))) order) Q w.
Proof.
  revert Q w. induction order as [|id order IH]; intros Q w HQ; cbn [prog_map prog_bind call].
  - apply HQ; [split_and!; [done|done|lia]|done|done|by intros id ?%elem_of_nil].
  - apply alone_start. intros w1 Hw1 Hr1. split; [intros Hid|intros err]; cbn [prog_bind]; apply alone_bind, IH; intros results w2 Hw2 Hr2 Hf Ho;
      cbn [Prog.alone]; apply HQ; try (by eapply moves_trans); try (by etrans); try (by cbn; rewrite Hf).
    + intros id' [[= ->]|Hin]%elem_of_cons; [by apply Hr2|by apply Ho].
    + intros id' [[=]|Hin]%elem_of_cons. by apply Ho.
Qed.

Lemma alone_start_all ids Q w :
  (forall results w', moves w w' -> (any_failed results = false -> forall id, id ∈ ids -> id ∈ w_running w') -> Q results w') ->
  alone (in_parallel (fun id => call (StartContainer id)) ids) Q w.
Proof.
  intros HQ. unfold in_parallel. cbn [prog_bind call]. apply alone_calm; [done|]. intros c ns order w1 _ Hp Hw1.
  pose proof (fun id => order_reply _ _ _ _ _ _ _ _ id Hp) as Hord. apply alone_bind, alone_each. intros results w2 Hw2 _ Hf Ho. cbn [Prog.alone].
  destruct (found_results results ids) as [_ Hall]; [intros id Hid; rewrite Hf; by apply Hord|].
  apply HQ; [eapply moves_trans; [by apply stays_moves|done]|]. intros Hok id Hid. by apply Ho, Hall.
Qed.

Lemma alone_sleep_again {A} e (k : answer unit -> program A) Q w :
  is_Some (environments !! e) ->
  (forall x w', w_sleeping w' = {[e]} ∪ w_sleeping w -> alone (k x) Q w') -> alone (Do (DbSetSleeping e true) k) Q w.
Proof.
  intros He Hk ns c x w' Hc. unfold OnDemand.perform. destruct (w_managers (pass ns w) !! p); [|done].
  destruct (ch_fails c _) eqn:Hf; [by destruct (Hc _ Hf)|]. unfold exists_env. rewrite bool_decide_true by done. intros [= <- <-]. by apply Hk.
Qed.

(** What a wake of a sleeping environment leaves behind. *)
Definition wake_result (e d : Z) (m : OnDemandManager) (w : World) (r : answer unit) (w' : World) : Prop :=
  match r with
  | Ok _ => w_sleeping w' = w_sleeping w ∖ {[e]} /\
      (forall id, id ∈ local_ids m (live_containers containers d) -> id ∈ w_running w') /\
      (live_containers containers d <> [] -> exists m' secs, w_managers w' !! p = Some m' /\ om_last_activity m' !! e = Some secs /\
         epoch_secs (w_clock w) <= secs)
  | Err err => w_sleeping w' = w_sleeping w /\ err <> PollsExhausted
  end.

Lemma epoch_mono a b : a <= b -> epoch_secs a <= epoch_secs b.
Proof. intros Hab. unfold epoch_secs, SECOND. pose proof (Z.div_le_mono a b 1000000000 ltac:(lia) Hab). lia. Qed.

Lemma alone_record {A} e (k : unit -> program A) Q m w :
  w_managers w !! p = Some m ->
  (forall w' secs, w_sleeping w' = w_sleeping w -> w_running w' = w_running w -> epoch_secs (w_clock w) <= secs ->
     w_managers w' !! p = Some (with_activity (<[e := secs]> (om_last_activity m)) m) -> alone (k ()) Q w') ->
  alone (prog_bind (record_activity e) k) Q w.
Proof.
  intros Hm Hk. unfold record_activity, current_epoch_secs. cbn [prog_bind call]. apply alone_calm; [done|].
  intros c1 ns1 now w1 _ [-> _]%now_reply (Hs1 & Hr1 & Hm1 & Hc1). apply alone_calm; [done|]. intros c2 ns2 _ w2 _ _ (Hs2 & Hr2 & Hm2 & Hc2).
  intros ns3 c3 [] w3 _ Hp. assert (w_managers (pass ns3 w2) !! p = Some m) as Hm3 by (cbn [pass w_managers]; by rewrite Hm2, Hm1).
  unfold OnDemand.perform in Hp. rewrite Hm3 in Hp. injection Hp as <-.
  apply (Hk _ (epoch_secs (w_clock w + Z.of_N ns1))); cbn [pass set_managers update_manager w_sleeping w_running w_managers w_clock];
    [congruence|congruence|apply epoch_mono; lia|]. by rewrite Hm2, Hm1, list_lookup_alter_eq, Hm.
Qed.

Lemma self_reply c w x w' (m : OnDemandManager) : w_managers w !! p = Some m -> perform p c w Self = Some (x, w') -> x = m.
Proof. intros Hm. unfold OnDemand.perform. rewrite Hm. by intros [= <- <-]. Qed.

Lemma go_back_alone e d m w0 w ids err :
  e ∈ w_sleeping w0 -> is_Some (environments !! e) -> w_sleeping w = w_sleeping w0 ∖ {[e]} -> err <> PollsExhausted ->
  alone (prog_bind (stop_all ids) (fun _ => prog_bind (call (DbSetSleeping e true)) (fun _ => Ret (Err err)))) (wake_result e d m w0) w.
Proof.
  intros Hin He Hs Herr. apply alone_bind, alone_stop_all. intros w1 (Hs1 & _). cbn [prog_bind call]. apply alone_sleep_again; [done|].
  intros x w2 Hs2. cbn. split; [|done]. rewrite Hs2, Hs1, Hs. apply leibniz_equiv. rewrite <- union_difference_singleton by done. done.
Qed.

Lemma announce_alone e d m w0 w :
  wake_result e d m w0 (Ok ()) w ->
  alone (prog_bind (publish_route_reload e d) (fun _ => prog_bind notify_route_change (fun _ => Ret (Ok ())))) (wake_result e d m w0) w.
Proof.
  intros (Hs & Hr & Ha). unfold publish_route_reload, notify_route_change. cbn [prog_bind call].
  apply alone_calm; [done|]. intros c1 ns1 x1 w1 _ _ Hw1. apply alone_calm; [done|]. intros c2 ns2 x2 w2 _ _ Hw2.
  destruct (stays_trans _ _ _ Hw1 Hw2) as (Hs' & Hr' & Hm' & _). cbn. rewrite Hs', Hr', Hm'. done.
Qed.

Lemma healthy_alone e d m t w0 w ids :
  e ∈ w_sleeping w0 -> is_Some (environments !! e) -> w_managers w !! p = Some m -> w_clock w0 <= w_clock w ->
  w_sleeping w = w_sleeping w0 ∖ {[e]} ->
  (forall id, id ∈ local_ids m (live_containers containers d) -> id ∈ w_running w) ->
  alone (prog_bind (call Now) (fun health_start =>
     prog_bind (await_healthy health_start (as_u64 t) ids) (fun healthy =>
     match healthy with
     | None => Ret (Err PollsExhausted)
     | Some false => prog_bind (stop_all ids) (fun _ => prog_bind (call (DbSetSleeping e true)) (fun _ => Ret (Err (WakeTimeout e t))))
     | Some true => prog_bind (record_activity e) (fun _ => prog_bind (call Now) (fun now => prog_bind (call (DbTouch e now false)) (fun _ =>
                    prog_bind (publish_route_reload e d) (fun _ => prog_bind notify_route_change (fun _ => Ret (Ok ()))))))
     end))) (wake_result e d m w0) w.
Proof.
  intros Hin He Hm Hc Hs Hr. cbn [prog_bind call]. apply alone_calm; [done|]. intros c1 ns1 hs w1 _ [Hhs Hw']%now_reply Hw1.
  apply alone_bind, alone_await; [apply as_u64_nonneg|subst; cbn; lia|]. intros b w2 Hw2.
  destruct (stays_trans _ _ _ Hw1 Hw2) as (Hs2 & Hr2 & Hm2 & Hc2). destruct b; [|apply go_back_alone; [done|done|congruence|done]].
  apply (alone_record e _ _ m); [congruence|]. intros w3 secs Hs3 Hr3 Hsecs Hm3. cbn [prog_bind call].
  apply alone_calm; [done|]. intros c4 ns4 now w4 _ _ Hw4. apply alone_calm; [done|]. intros c5 ns5 x5 w5 _ _ Hw5.
  destruct (stays_trans _ _ _ Hw4 Hw5) as (Hs5 & Hr5 & Hm5 & _). apply announce_alone. split_and!; [congruence| |].
  - intros id Hid. rewrite Hr5, Hr3, Hr2. by apply Hr.
  - intros _. exists (with_activity (<[e := secs]> (om_last_activity m)) m), secs. split_and!; [congruence|cbn; by rewrite lookup_insert_eq|].
    pose proof (epoch_mono (w_clock w0) (w_clock w2)). lia.
Qed.

Lemma do_wake_alone e d t m w :
  w_managers w !! p = Some m -> environments !! e = Some (Some d) -> e ∈ w_sleeping w ->
  alone (do_wake e t) (wake_result e d m w) w.
Proof.
  intros Hm He Hin. unfold do_wake, prog_try. cbn [prog_bind call]. intros ns c x w1 Hc Hp.
  assert ((x = Err Database /\ w1 = pass ns w) \/ (x = Ok true /\ w1 = set_sleeping (w_sleeping w ∖ {[e]}) (pass ns w))) as [[-> ->]|[-> ->]].
  { revert Hp. unfold OnDemand.perform. cbn [pass w_managers]. rewrite Hm. destruct (ch_fails c _); [intros [= <- <-]; by left|].
    unfold exists_env. rewrite !bool_decide_true by (done || by rewrite He). intros [= <- <-]. by right. }
  { by split. }
  cbn [negb]. apply alone_calm; [done|]. intros c2 ns2 x2 w2 Hc2 ->%(find_reply _ _ _ _ _ _ _ _ Hc2) Hw2. rewrite He. cbn [fmap option_fmap option_map].
  apply alone_calm; [done|]. intros c3 ns3 x3 w3 Hc3 ->%(containers_reply _ _ _ _ _ _ _ _ Hc3) Hw3.
  destruct (stays_trans _ _ _ Hw2 Hw3) as (Hs3 & Hr3 & Hm3 & Hc3'). cbn in Hs3, Hr3, Hm3, Hc3'.
  destruct (live_containers containers d) as [|first rest] eqn:Hlive.
  { apply announce_alone. unfold wake_result. rewrite Hlive. split_and!; [done|by intros id ?%elem_of_nil|done]. }
  rewrite <- Hlive. assert (live_containers containers d <> []) as Hne by (by rewrite Hlive). clear Hlive.
  cbn [prog_bind call]. apply alone_calm; [done|]. intros c4 ns4 x4 w4 _ Hself Hw4.
  assert (w_managers (pass ns4 w3) !! p = Some m) as Hm3' by (cbn; by rewrite Hm3). rewrite (self_reply _ _ _ _ _ Hm3' Hself). clear x4 Hself.
  destruct Hw4 as (Hs4 & Hr4 & Hm4 & Hc4).
  destruct (List.filter _ (live_containers containers d)) as [|c5 cs] eqn:Hloc.
  { cbn [prog_bind call]. apply alone_sleep_again; [by rewrite He|]. intros x w5 Hs5. cbn. split; [|done]. rewrite Hs5, Hs4, Hs3.
    apply leibniz_equiv. by rewrite <- union_difference_singleton. }
  apply alone_bind, alone_start_all. intros results w5 (Hs5 & Hm5 & Hc5) Hall. destruct (any_failed results).
  - apply go_back_alone; [done|by rewrite He|congruence|done].
  - apply healthy_alone; [done|by rewrite He|congruence|lia|congruence|]. intros id Hid. apply Hall; [done|]. unfold local_ids in Hid.
    by rewrite Hloc in Hid.
Qed.

(** A wake of a sleeping environment that nothing interferes with, whatever containers fail: on
    success the environment counts as awake, every container of this node that its deployment has
    is running and the activity is recorded no earlier than the call; on an error the row is as it
    was; and the polls for health always end. *)
Theorem wake_alone_exact e d t m w turns t' w' r :
  w_managers w !! p = Some m -> environments !! e = Some (Some d) -> e ∈ w_sleeping w ->
  Forall (fun turn => reliable turn.2) turns ->
  run_alone perform pass {| tk_agent := p; tk_prog := do_wake e t |} w turns = (t', w') -> tk_prog t' = Ret r ->
  match r with
  | Ok _ => w_sleeping w' = w_sleeping w ∖ {[e]} /\
      (forall id, id ∈ local_ids m (live_containers containers d) -> id ∈ w_running w') /\
      (live_containers containers d <> [] -> exists m' secs, w_managers w' !! p = Some m' /\ om_last_activity m' !! e = Some secs /\
         epoch_secs (w_clock w) <= secs)
  | Err err => w_sleeping w' = w_sleeping w /\ err <> PollsExhausted
  end.
Proof.
  intros Hm He Hin Hturns Hrun Hr. 
  exact (run_alone_ensures perform pass reliable turns {| tk_agent := p; tk_prog := do_wake e t |} w (wake_result e d m w) t' w' r
    Hturns (do_wake_alone e d t m w Hm He Hin) Hrun Hr).
Qed.
End WakeAlone.

(** ** A sweep on its own *)

Section SweepAlone.
Context (environments : gmap Z (option Z)) (containers : list ContainerRow) (from_timestamp : Z -> bool) (p : nat).

#[local] Abbreviation perform := (perform environments containers).
#[local] Abbreviation program := (prog reply).
#[local] Abbreviation alone := (alone perform pass (fun _ => True) p).

(** The accesses of a call that puts [e] to sleep. *)
Definition sleeps_only (e : Z) (a : Action) : bool :=
  match a with
  | DbFallAsleep e' => e' =? e
  | DbSetSleeping e' b => (e' =? e) && negb b
  | StopContainer _ => true
  | _ => calm a
  end.

(** At most [e] is asleep that was not; the managers are the same. *)
Definition may_sleep (e : Z) (w w' : World) : Prop :=
  w_managers w' = w_managers w /\ w_clock w <= w_clock w' /\ forall e', e' ∈ w_sleeping w' -> e' ∈ w_sleeping w \/ e' = e.

Lemma sleeps_only_step e a ns c w x w' : sleeps_only e a = true -> perform p c (pass ns w) a = Some (x, w') -> may_sleep e w w'.
Proof.
  intros Ha Hp. destruct (calm a) eqn:Hcalm.
  { destruct (calm_stays _ _ _ _ _ _ _ _ _ Hcalm Hp) as (Hs & _ & Hm & Hc). unfold may_sleep. rewrite Hs, Hm. split_and!; [done|done|by left]. }
  revert Hp. unfold OnDemand.perform, may_sleep. destruct (w_managers (pass ns w) !! p); [|done].
  destruct a; try done; cbn in Ha; cbn; rewrite ?andb_true_iff, ?Z.eqb_eq, ?negb_true_iff in Ha; intros; simplify_eq; repeat case_match; simplify_eq;
    cbn; split_and!; try done; try lia; set_solver.
Qed.

Lemma sleep_may e w : alone (sleep_environment e) (fun _ w' => may_sleep e w w') w.
Proof.
  apply (alone_only perform pass (fun _ => True) (sleeps_only e)).
  - intros w1. unfold may_sleep. split_and!; [done|lia|by left].
  - intros w1 w2 w3 (Hm1 & Hc1 & Hs1) (Hm2 & Hc2 & Hs2). unfold may_sleep. split_and!; [congruence|lia|].
    intros e' [He'| ->]%Hs2; [by apply Hs1|by right].
  - intros a ns c w1 x w2. apply sleeps_only_step.
  - unfold sleep_environment, in_parallel, notify_route_change. only_steps; constructor; try (intros; constructor); cbn; by rewrite ?Z.eqb_refl.
Qed.

(** Idle for as long as its configuration says, by the activity the proxy has seen. *)
Definition idle (now : Z) (m : OnDemandManager) (oc : OnDemandConfig) : Prop :=
  exists last, om_last_activity m !! oc_environment_id oc = Some last /\ as_u64 (oc_idle_timeout_seconds oc) <= Z.max 0 (now - last).

Definition swept (now : Z) (m : OnDemandManager) (configs : list OnDemandConfig) (w w' : World) : Prop :=
  w_managers w' = w_managers w /\ w_clock w <= w_clock w' /\
  forall e, e ∈ w_sleeping w' -> e ∈ w_sleeping w \/ exists oc, oc ∈ configs /\ oc_environment_id oc = e /\ idle now m oc.

Lemma activity_reply c w e x w' (m : OnDemandManager) :
  w_managers w !! p = Some m -> perform p c w (LastActivity e) = Some (x, w') -> x = om_last_activity m !! e.
Proof. intros Hm. unfold OnDemand.perform. rewrite Hm. by intros [= <- <-]. Qed.

Lemma alone_do_calm {A} a (k : reply a -> program A) Q w :
  calm a = true -> (forall c ns x w', perform p c (pass ns w) a = Some (x, w') -> stays w w' -> alone (k x) Q w') -> alone (Do a k) Q w.
Proof. intros Ha Hk ns c x w' _ Hp. apply (Hk c ns x w' Hp). by eapply calm_stays. Qed.

Lemma sweep_configs_alone now configs m w :
  w_managers w !! p = Some m -> alone (sweep_configs now configs) (fun _ w' => swept now m configs w w') w.
Proof.
  revert w. induction configs as [|oc configs IH]; intros w Hm; cbn [sweep_configs prog_bind call]; [split_and!; [done|lia|by left]|].
  apply alone_do_calm; [done|]. intros c ns last w1 Hlast (Hs1 & _ & Hm1 & Hc1).
  rewrite (activity_reply _ (pass ns w) _ _ _ m Hm Hlast). assert (w_managers w1 !! p = Some m) as Hm1' by congruence. clear Hlast last.
  assert (forall w2 w3, may_sleep (oc_environment_id oc) w1 w2 -> idle now m oc -> swept now m configs w2 w3 -> swept now m (oc :: configs) w w3) as Hboth.
  { intros w2 w3 (Hm2 & Hc2 & Hs2) Hidle (Hm3 & Hc3 & Hs3). split_and!; [congruence|lia|]. intros e He.
    destruct (Hs3 e He) as [He2|(oc' & Hin & Hoc)]; [|right; exists oc'; split; [by apply list_elem_of_further|done]].
    destruct (Hs2 e He2) as [He1| ->]; [left; congruence|right; exists oc; split; [apply list_elem_of_here|done]]. }
  assert (forall w3, swept now m configs w1 w3 -> swept now m (oc :: configs) w w3) as Hskip.
  { intros w3 (Hm3 & Hc3 & Hs3). split_and!; [congruence|lia|]. intros e He. destruct (Hs3 e He) as [He1|(oc' & Hin & Hoc)]; [left; congruence|].
    right. exists oc'. split; [by apply list_elem_of_further|done]. }
  destruct (om_last_activity m !! oc_environment_id oc) as [last|] eqn:Hact.
  2:{ eapply alone_mono; [|by apply IH]. intros r w3. apply Hskip. }
  destruct (Z.leb_spec (as_u64 (oc_idle_timeout_seconds oc)) (Z.max 0 (now - last))) as [Hidle|_].
  - apply alone_bind. eapply alone_mono; [|apply sleep_may]. intros r w2 Hw2. apply alone_bind.
    eapply alone_mono; [|apply IH; destruct Hw2 as (-> & _); done]. intros [slept updates] w3 Hw3. cbn.
    apply (Hboth w2 w3 Hw2); [|done]. by exists last.
  - apply alone_bind. eapply alone_mono; [|by apply IH]. intros [slept updates] w3 Hw3. by apply Hskip.
Qed.

Lemma persist_alone updates w : alone (persist_activity_timestamps from_timestamp updates) (fun _ w' => stays w w') w.
Proof.
  apply (alone_only perform pass (fun _ => True) calm); [apply stays_refl|apply stays_trans| |].
  - intros a ns c w1 x w2. apply calm_stays.
  - induction updates as [|[e secs] updates IH]; cbn [persist_activity_timestamps]; only_steps.
Qed.

Lemma configs_reply c w x w' (m : OnDemandManager) oc :
  w_managers w !! p = Some m -> perform p c w Configs = Some (x, w') -> w' = w /\ (oc ∈ x -> exists e, om_configs m !! e = Some oc).
Proof.
  intros Hm. unfold OnDemand.perform. rewrite Hm. intros [= <- <-]. split; [done|]. rewrite permuted_elem, list_elem_of_fmap.
  intros ([e oc'] & -> & Hin%elem_of_map_to_list). by exists e.
Qed.

(** A sweep that nothing interferes with puts only environments to sleep that are registered and
    whose last recorded activity is at least their idle timeout ago, whatever calls fail. *)
Theorem sweep_sleeps_idle m w turns t' w' r e :
  w_managers w !! p = Some m ->
  run_alone perform pass {| tk_agent := p; tk_prog := sweep_idle_environments from_timestamp |} w turns = (t', w') -> tk_prog t' = Ret r ->
  e ∈ w_sleeping w' -> e ∉ w_sleeping w ->
  exists k oc last, om_configs m !! k = Some oc /\ oc_environment_id oc = e /\ om_last_activity m !! e = Some last /\
    as_u64 (oc_idle_timeout_seconds oc) <= Z.max 0 (epoch_secs (w_clock w') - last).
Proof.
  intros Hm Hrun Hr He Hne.
  assert (alone (sweep_idle_environments from_timestamp) (fun _ w2 => forall e, e ∈ w_sleeping w2 -> e ∈ w_sleeping w \/
    exists k oc, om_configs m !! k = Some oc /\ oc_environment_id oc = e /\ idle (epoch_secs (w_clock w2)) m oc) w) as Hsweep.
  { unfold sweep_idle_environments, current_epoch_secs. cbn [prog_bind call]. apply alone_do_calm; [done|].
    intros c1 ns1 now w1 [-> Hw1]%now_reply (Hs1 & _ & Hm1 & Hc1). intros ns2 c2 configs w2 _ Hconf.
    assert (w_managers (pass ns2 w1) !! p = Some m) as Hm1' by (cbn; congruence).
    assert (w2 = pass ns2 w1) as -> by apply (configs_reply _ _ _ _ m (Build_OnDemandConfig 0 0 0) Hm1' Hconf).
    apply alone_bind. eapply alone_mono; [|by apply sweep_configs_alone]. intros [slept updates] w3 (Hm3 & Hc3 & Hs3). apply alone_bind.
    eapply alone_mono; [|apply persist_alone]. intros [] w4 (Hs4 & _ & _ & Hc4). cbn. intros e' He'. rewrite Hs4 in He'.
    destruct (Hs3 e' He') as [He1|(oc & Hin & Henv & last & Hl & Hi)]; [left; cbn in He1; congruence|right].
    apply (configs_reply _ _ _ _ m oc Hm1' Hconf) in Hin as [k Hk]. exists k, oc. split_and!; [done|done|]. exists last. split; [done|].
    etrans; [exact Hi|]. subst w1. cbn in *. pose proof (epoch_mono (w_clock w + Z.of_N ns1) (w_clock w4) ltac:(lia)). lia. }
  pose proof (run_alone_ensures perform pass (fun _ => True) turns {| tk_agent := p; tk_prog := sweep_idle_environments from_timestamp |} w _ t' w' r
    ltac:(by apply list.Forall_forall) Hsweep Hrun Hr e He) as [?|(k & oc & Hk & Henv & last & Hl & Hi)]; [done|].
  exists k, oc, last. by subst e.
Qed.
End SweepAlone.

(** ** A node with two containers *)

Definition node_envs : gmap Z (option Z) := {[ 1 := Some 7 ]}.

Definition node_row (id : string) (node : option Z) : ContainerRow :=
  {| cr_container_id := id; cr_deployment_id := 7; cr_node_id := node; cr_deleted := false |}.

Definition node_rows : list ContainerRow := [node_row "a" None; node_row "b" None].

Definition node_world (managers : list OnDemandManager) (asleep : bool) : World := {|
  w_sleeping := if asleep then {[ 1 ]} else ∅; w_last_activity_at := ∅; w_running := if asleep then ∅ else {[ "a"%string; "b"%string ]};
  w_clock := 100 * SECOND; w_wake := []; w_managers := managers; w_jobs := []; w_notifies := 0 |}.

Definition one_proxy : list OnDemandManager := [manager_new None].

(** No call fails, but those of [bad]; containers are healthy at once. *)
Definition but (bad : Action -> bool) : Choice := {| ch_fails := bad; ch_healthy := true; ch_routable := true; ch_order := [] |}.
Definition fine : Choice := but (fun _ => false).

#[local] Abbreviation node_event := (Event (Choice := Choice) (Agent := nat) (Env := N) (Call := Request)).
#[local] Abbreviation node_run rows w evs :=
  (exec (perform node_envs rows) pass (body (fun _ => true)) {| sy_world := w; sy_tasks := [] |} (evs : list node_event)).

Definition outcomes (s : System (reply := reply) (World := World) (Agent := nat) (R := Outcome)) : list (option Outcome) :=
  map (fun t => match tk_prog t with Ret r => Some r | Do _ _ => None end) (sy_tasks s).

(** What is left: the environments that count as asleep, the containers that run, the results. *)
Definition left_behind (s : System (reply := reply) (World := World) (Agent := nat) (R := Outcome))
    : list Z * list string * list (option Outcome) :=
  (elements (w_sleeping (sy_world s)), elements (w_running (sy_world s)), outcomes s).

Definition turns (i n : nat) : list node_event := replicate n (Turn i fine).

Example wake_runs : left_behind (node_run node_rows (node_world one_proxy true) (Spawn 0%nat (Wake 1 30) :: turns 0 30)) =
  ([], ["a"; "b"]%string, [Some (Woken (Ok ()))]).
Proof. vm_compute. reflexivity. Qed.

(** Between winning the row and stopping the containers, a request wakes the environment: both calls
    succeed, and the environment is awake with nothing running. *)
Example sleep_and_wake_race :
  left_behind (node_run node_rows (node_world one_proxy false)
    (Spawn 0%nat (PutToSleep 1) :: Spawn 0%nat (Wake 1 30) :: turns 0 5 ++ turns 1 30 ++ turns 0 10)) =
  ([], [], [Some (Asleep (Ok true)); Some (Woken (Ok ()))]).
Proof. vm_compute. reflexivity. Qed.

(** A request that finds the flag set but asks to be notified after the wake is over waits until its
    timeout, and fails although the environment is awake. *)
Example late_waiter_fails :
  left_behind (node_run node_rows (node_world one_proxy true)
    (Spawn 0%nat (Wake 1 30) :: Spawn 0%nat (Wake 1 30) :: turns 0 5 ++ turns 1 2 ++ turns 0 30 ++ turns 1 3 ++ [Happen 30000000000%N] ++ turns 1 1)) =
  ([], ["a"; "b"]%string, [Some (Woken (Ok ())); Some (Woken (Err (WakeTimeout 1 30)))]).
Proof. vm_compute. reflexivity. Qed.

(** A wake whose task is dropped half-way leaves its flag set: the environment counts as awake with
    nothing running, and requests that call for a wake wait for nobody. *)
Example dropped_wake_blocks :
  left_behind (node_run node_rows (node_world one_proxy true)
    (Spawn 0%nat (Wake 1 30) :: turns 0 4 ++ [Drop 0; Spawn 0%nat (Wake 1 30)] ++ turns 0 5 ++ [Happen 30000000000%N] ++ turns 0 1)) =
  ([], [], [Some (Woken (Err (WakeTimeout 1 30)))]).
Proof. vm_compute. reflexivity. Qed.

(** A container that cannot be stopped takes the row back to awake, but the containers that were
    stopped stay so. *)
Example failed_sleep_stops_half :
  left_behind (node_run node_rows (node_world one_proxy false)
    (Spawn 0%nat (PutToSleep 1) :: replicate 12 (Turn 0 (but (fun a => match a with StopContainer "b" => true | _ => false end))))) =
  ([], ["b"]%string, [Some (Asleep (Err (ContainerOperation "multiple")))]).
Proof. vm_compute. reflexivity. Qed.

(** A query that fails after the row was won leaves the claim without the containers. *)
Example failed_query_leaves_claim :
  left_behind (node_run node_rows (node_world one_proxy true)
    (Spawn 0%nat (Wake 1 30) :: replicate 12 (Turn 0 (but (fun a => match a with DbContainers _ => true | _ => false end))))) =
  ([], [], [Some (Woken (Err Database))]).
Proof. vm_compute. reflexivity. Qed.

(** The row is won once for all nodes: the worker that owns the second container does not stop it. *)
Example worker_never_stops :
  left_behind (node_run [node_row "a" None; node_row "b" (Some 2)] (node_world [manager_new None; manager_new (Some 2)] false)
    (Spawn 0%nat (PutToSleep 1) :: turns 0 12 ++ Spawn 1%nat (PutToSleep 1) :: turns 1 12)) =
  ([1], ["b"]%string, [Some (Asleep (Ok true)); Some (Asleep (Ok false))]).
Proof. vm_compute. reflexivity. Qed.

Lemma node_separate : separate node_envs node_rows.
Proof.
  assert (forall e id, id ∈ owned node_envs node_rows e -> e = 1) as Hone.
  { intros e id. unfold owned, deployed, node_envs. destruct (decide (e = 1)) as [->|Hne]; [done|].
    rewrite lookup_singleton_ne by done. by intros ?%elem_of_nil. }
  intros e e' id He He'. apply Hone in He, He'. congruence.
Qed.

Definition one_wake : list node_event := Spawn 0%nat (Wake 1 30) :: turns 0 30.
Definition one_sleep : list node_event := Spawn 0%nat (PutToSleep 1) :: turns 0 12.

Lemma fine_turns up i n : Forall (allowed up) (turns i n).
Proof. apply Forall_replicate. by intros a. Qed.

Lemma one_wake_allowed : Forall (allowed true) one_wake.
Proof. constructor; [done|apply fine_turns]. Qed.

Lemma one_sleep_allowed : Forall (allowed false) one_sleep.
Proof. constructor; [done|apply fine_turns]. Qed.

Lemma node_asleep : forall e id, is_Some (node_envs !! e) -> e ∉ w_sleeping (node_world one_proxy true) -> id ∈ on_node node_envs node_rows e ->
  id ∈ w_running (node_world one_proxy true).
Proof. intros e id [d Hd] Hs. exfalso. apply Hs. unfold node_envs in Hd. apply lookup_singleton_Some in Hd as [<- _]. cbn. set_solver. Qed.

Lemma node_awake : forall e id, is_Some (node_envs !! e) -> e ∈ w_sleeping (node_world one_proxy false) -> id ∈ on_node node_envs node_rows e ->
  id ∉ w_running (node_world one_proxy false).
Proof. intros e id _ Hs. cbn in Hs. set_solver. Qed.

Lemma all_finished (s : System (reply := reply) (World := World) (Agent := nat) (R := Outcome)) :
  forallb finished (sy_tasks s) = true -> Forall (fun t => finished t = true) (sy_tasks s).
Proof. intros Hs. apply list.Forall_forall. intros t Ht%list_elem_of_In. by apply (proj1 (forallb_forall _ _) Hs). Qed.

#[local] Abbreviation woken := (node_run node_rows (node_world one_proxy true) one_wake).
#[local] Abbreviation put_to_sleep := (node_run node_rows (node_world one_proxy false) one_sleep).

Lemma woken_done : Forall (fun t => finished t = true) (sy_tasks woken).
Proof. apply all_finished. vm_compute. reflexivity. Qed.
Lemma woken_awake : 1 ∉ w_sleeping (sy_world woken).
Proof. apply (bool_decide_eq_true_1 _). vm_compute. reflexivity. Qed.
Lemma put_to_sleep_done : Forall (fun t => finished t = true) (sy_tasks put_to_sleep).
Proof. apply all_finished. vm_compute. reflexivity. Qed.
Lemma put_to_sleep_asleep : 1 ∈ w_sleeping (sy_world put_to_sleep).
Proof. apply (bool_decide_eq_true_1 _). vm_compute. reflexivity. Qed.
Lemma a_on_node : "a"%string ∈ on_node node_envs node_rows 1.
Proof. apply (bool_decide_eq_true_1 _). vm_compute. reflexivity. Qed.


Lemma sleeps_leave_stopped_witness : 1 ∈ w_sleeping (sy_world put_to_sleep) /\ "a"%string ∉ w_running (sy_world put_to_sleep).
Proof.
  split; [exact put_to_sleep_asleep|].
  exact (sleeps_leave_stopped node_envs node_rows (fun _ => true) (node_world one_proxy false) one_sleep node_separate one_sleep_allowed node_awake
    put_to_sleep_done 1 "a"%string (ex_intro _ (Some 7) eq_refl) put_to_sleep_asleep a_on_node).
Defined.

#[local] Abbreviation half_woken := (node_run node_rows (node_world one_proxy true) (Spawn 0%nat (Wake 1 30) :: turns 0 5)).

Lemma half_woken_flag : w_wake (sy_world half_woken) !! 0%nat = Some {| ws_waking := true; ws_notified := 0 |}.
Proof. vm_compute. reflexivity. Qed.

Lemma half_woken_events : Forall no_drop (Spawn 0%nat (Wake 1 30) :: turns 0 5).
Proof. repeat constructor. Qed.

Lemma no_flags_yet r s : w_wake (node_world one_proxy true) !! r = Some s -> ws_waking s = false.
Proof. cbn. by rewrite lookup_nil. Qed.


Lemma sleeping_lookup_agrees_witness :
  domain_get (domains_of [("*.example.com", {| si_environment_id := 1; si_project_id := 2; si_deployment_id := 7; si_wake_timeout_seconds := 30 |})]%string)
    "api.example.com" = Some {| si_environment_id := 1; si_project_id := 2; si_deployment_id := 7; si_wake_timeout_seconds := 30 |}.
Proof.
  rewrite (sleeping_lookup_agrees [("*.example.com"%string,
    {| si_environment_id := 1; si_project_id := 2; si_deployment_id := 7; si_wake_timeout_seconds := 30 |})] "api.example.com").
  - vm_compute. reflexivity.
  - constructor; [|constructor]. intros base. vm_compute. intros [= <-]. reflexivity.
  - reflexivity.
Defined.

(** A call that runs alone, every turn as it should be. *)
#[local] Abbreviation alone_run q w := (run_alone (perform node_envs node_rows) pass {| tk_agent := 0%nat; tk_prog := q |} w (replicate 40 (0%N, fine))).

Lemma fine_alone : Forall (fun turn => reliable turn.2) (replicate 40 (0%N, fine)).
Proof. apply Forall_replicate. by intros a. Qed.

Lemma alone_wake_result : tk_prog (alone_run (do_wake 1 30) (node_world one_proxy true)).1 = Ret (Ok ()).
Proof. vm_compute. reflexivity. Qed.

Lemma wake_alone_exact_witness :
  w_sleeping (alone_run (do_wake 1 30) (node_world one_proxy true)).2 = {[ 1 ]} ∖ {[ 1 ]} /\
  "b"%string ∈ w_running (alone_run (do_wake 1 30) (node_world one_proxy true)).2.
Proof.
  assert (1 ∈ w_sleeping (node_world one_proxy true)) as Hs by (cbn; by apply elem_of_singleton).
  destruct (wake_alone_exact node_envs node_rows 0 1 7 30 (manager_new None) (node_world one_proxy true) (replicate 40 (0%N, fine))
    (alone_run (do_wake 1 30) (node_world one_proxy true)).1 (alone_run (do_wake 1 30) (node_world one_proxy true)).2 (Ok ())
    eq_refl eq_refl Hs fine_alone (surjective_pairing _) alone_wake_result) as (Hsl & Hrun & _).
  split; [exact Hsl|]. apply Hrun. right. left.
Defined.

(** The proxy has seen environment 1 forty seconds ago, and its timeout is thirty. *)
Definition idle_world : World := node_world [with_configs {[ 1 := {| oc_environment_id := 1; oc_idle_timeout_seconds := 30; oc_wake_timeout_seconds := 30 |} ]}
  (with_activity {[ 1 := 60 ]} (manager_new None))] false.

#[local] Abbreviation swept_run := (alone_run (sweep_idle_environments (fun _ => true)) idle_world).

Lemma swept_result : tk_prog swept_run.1 = Ret [1].
Proof. vm_compute. reflexivity. Qed.
Lemma swept_asleep : 1 ∈ w_sleeping swept_run.2.
Proof. apply (bool_decide_eq_true_1 _). vm_compute. reflexivity. Qed.
Lemma not_yet_asleep : 1 ∉ w_sleeping idle_world.
Proof. cbn. set_solver. Qed.

Lemma sweep_sleeps_idle_witness : 1 ∈ w_sleeping swept_run.2 /\
  exists k oc last, om_configs (default (manager_new None) (w_managers idle_world !! 0%nat)) !! k = Some oc /\ oc_environment_id oc = 1 /\
    om_last_activity (default (manager_new None) (w_managers idle_world !! 0%nat)) !! 1 = Some last /\
    as_u64 (oc_idle_timeout_seconds oc) <= Z.max 0 (epoch_secs (w_clock swept_run.2) - last).
Proof.
  split; [exact swept_asleep|].
  exact (sweep_sleeps_idle node_envs node_rows (fun _ => true) 0 _ idle_world (replicate 40 (0%N, fine)) swept_run.1 swept_run.2 [1] 1
    eq_refl (surjective_pairing _) swept_result swept_asleep not_yet_asleep).
Defined.

(** A request for a sleeping host: the environment is woken, no reload is seen, the route is there. *)
Definition one_visit : list node_event :=
  Spawn 0%nat (Visit {| si_environment_id := 1; si_project_id := 2; si_deployment_id := 7; si_wake_timeout_seconds := 30 |} "app") ::
  turns 0 30 ++ [Happen 10000000000%N] ++ turns 0 10.

#[local] Abbreviation visited := (node_run node_rows (node_world one_proxy true) one_visit).

Example visit_is_served : outcomes visited = [Some (Answer Served)].
Proof. vm_compute. reflexivity. Qed.

Lemma visited_done : Forall (fun t => finished t = true) (sy_tasks visited).
Proof. apply all_finished. vm_compute. reflexivity. Qed.

Lemma one_visit_events : Forall no_drop one_visit.
Proof. repeat constructor. Qed.

Lemma all_slots_free q m : w_managers (node_world one_proxy true) !! q = Some m -> om_wake_slots m = MAX_CONCURRENT_WAKE_WAITERS.
Proof. intros Hm%list_elem_of_lookup_2. apply list_elem_of_singleton in Hm as ->. done. Qed.

Definition visited_manager : OnDemandManager := default (manager_new None) (w_managers (sy_world visited) !! 0%nat).

Lemma visited_has_manager : w_managers (sy_world visited) !! 0%nat = Some visited_manager.
Proof. unfold visited_manager. destruct (w_managers (sy_world visited) !! 0%nat) eqn:Hm; [done|]. vm_compute in Hm. discriminate Hm. Qed.

Lemma wake_slots_returned_witness : om_wake_slots visited_manager = MAX_CONCURRENT_WAKE_WAITERS.
Proof.
  exact (proj2 (wake_slots_returned node_envs node_rows (fun _ => true) (node_world one_proxy true) one_visit 0 visited_manager
    one_visit_events all_slots_free visited_has_manager) visited_done).
Defined.
