(* ===== verification/Compactor.v ===== *)
(** * Compaction, retention and garbage collection of log chunks

    [crates/temps-log-aggregator/src/services/compactor.rs] (merging the chunks of a container's day,
    reconciling manifest and bucket, deleting what was tombstoned), [services/retention.rs],
    [services/reindexer.rs] and [services/forget_sweeper.rs] over the queries of [store/manifest.rs]
    and [services/metadata.rs].

    Every query, call of the object store and call of the line index is one action of a program
    ([Prog]), so the services interleave with each other, with the chunk writer and with the clock.  A
    call may fail before or after it had its effect, and the process may be restarted between any two
    of them.  The chunk writer is part of the environment here: it writes objects under the keys of
    [ChunkWriter] and inserts their rows.  The read cache is left out, since compaction bypasses it. *)

From S2P Require Import Prelude Bytes Utf8 ChunkBlock Bloom ChunkFile ChunkScan ChunkWriter Prog.
From stdpp Require Import sorting.
Local Open Scope Z_scope.

Definition GC_GRACE : Z := 60 * 60.
Definition MIN_CHUNKS_TO_COMPACT : Z := 4.
Definition CONTAINERS_PER_RUN : nat := 200.
Definition GC_BATCH : nat := 500.
Definition MAX_COMPACTED_BYTES : Z := 64 * 1024 * 1024.
Definition V1_SUFFIX : string := ".ndjson.zst".

(** [Utc::now() - Duration::seconds(n)]. *)
Class Durations `{Chrono} := {
  dt_sub : DateTime -> Z -> DateTime;
  dt_sub_le a b n : dt_leb a b = true -> dt_leb (dt_sub a n) (dt_sub b n) = true
}.

(** The services that run over the manifest. *)
Inductive Service := Compaction | Collection | Retention | Reindexing | Forgetting.

#[global] Instance service_eq_dec : EqDecision Service.
Proof. solve_decision. Defined.

(** A task belongs to one start of the process. *)
Record Agent := { ag_epoch : nat; ag_service : Service }.

Inductive Fault := Fine | Fails (done : bool).

Inductive CompactorError :=
  | Unreachable
  | ChunkBroken (e : ScanError)
  | EncodeBroken (e : LogAggregatorError)
  | ShorterThanTrailer (key : string)
  | FooterOutsideObject (key : string)
  | ManifestConflictUnresolved (key : string)
  | Panicked.

Definition answer (A : Type) : Type := result CompactorError A.

Inductive IndexOutcome := Indexed | Skipped.

(** What may cost lines, recorded where it happens: an object written under a key that was filed
    before; an object too large for the columns of the manifest; a row without its object; a row
    removed by the compactor when the collector may already have listed it. *)
Inductive Hazard := Overwrites (key : string) | Oversized (key : string) | NoObject (key : string) | LateRemoval (key : string).

Record CompactionReport := {
  rp_containers : Z; rp_chunks_in : Z; rp_chunks_out : Z; rp_bytes_in : Z; rp_bytes_out : Z; rp_failed : Z
}.
Record ReconcileReport := { rc_adopted : Z; rc_tombstoned : Z; rc_failed : Z }.
Record GcReport := { gc_objects_deleted : Z; gc_rows_deleted : Z; gc_failed : Z }.
Record RetentionResult := { rr_chunks_deleted : Z; rr_chunks_failed : Z; rr_bytes_reclaimed : Z }.
Record ReindexReport := { ri_indexed : Z; ri_lines : Z; ri_failed : Z; ri_more : bool }.
Record ForgetSweepReport := { fs_resolved : Z; fs_failed : Z; fs_more : bool }.

(** [str::ends_with]. *)
Definition ends_with (s suffix : string) : bool :=
  (String.length suffix <=? String.length s)%nat
  && String.eqb (String.substring (String.length s - String.length suffix) (String.length suffix) s) suffix.

(** [slice::chunks]. *)
Fixpoint chunks_fuel {A} (fuel n : nat) (l : list A) : list (list A) :=
  match fuel, l with
  | S fuel, _ :: _ => take n l :: chunks_fuel fuel n (drop n l)
  | _, _ => []
  end.
Definition chunks {A} (n : nat) (l : list A) : list (list A) := chunks_fuel (length l) n l.

Section Compactor.
Context `{Chrono} `{Zstd} `{Json} `{!FooterJson} `{Crc32} `{Xxh3} `{Unicode} `{!Durations}.
Context (order : BloomBuilder -> list Z) (date_hour : DateTime -> string)
  (content_hash : option (string * Z * Z) -> list Z -> string)
  (log_line_from_str : list Z -> option LogLine) (is_whitespace : Z -> bool)
  (key_order : gmap string (list Z) -> list (string * list Z))
  (midnight : DateTime -> option DateTime).

(** ** The manifest *)

(** A row of [log_chunks]. *)
Record ChunkRow := {
  cr_id : Z;
  cr_seq : Z;
  cr_meta : ChunkMeta;
  cr_deleted_at : option DateTime;
  cr_indexed : bool
}.

Definition live (r : ChunkRow) : bool := match cr_deleted_at r with None => true | Some _ => false end.

Definition row_key (r : ChunkRow) : string := cm_storage_key (cr_meta r).
Definition row_labels (r : ChunkRow) : ChunkLabels := cm_labels (cr_meta r).

(** What [row_to_manifest] reads, behind the casts of [insert]; [li_column] is the size as the column
    has it. *)
Record Listed := { li_id : Z; li_manifest : Manifest; li_size : Z; li_column : Z; li_line_count : Z }.

Definition stored_labels (l : ChunkLabels) : ChunkLabels :=
  {| cl_project_id := cl_project_id l; cl_external_service_id := cl_external_service_id l; cl_env := cl_env l;
     cl_service := cl_service l; cl_container_id := cl_container_id l; cl_deploy_id := cl_deploy_id l; cl_node_id := cl_node_id l;
     cl_node_name := cl_node_name l; cl_started_at := cl_started_at l; cl_ended_at := cl_ended_at l;
     cl_line_count := Z.max 0 (swrap 32 (cl_line_count l)); cl_level_mask := Z.max 0 (swrap 16 (cl_level_mask l));
     cl_level_counts := map (fun c => Z.max 0 (swrap 32 c)) (cl_level_counts l) |}.

Definition meta_manifest (seq : Z) (meta : ChunkMeta) : Manifest :=
  {| mf_seq := seq; mf_labels := stored_labels (cm_labels meta); mf_storage_key := cm_storage_key meta;
     mf_format_version := Z.max 0 (swrap 16 (cm_format_version meta));
     mf_footer_offset := (fun v => Z.max 0 (swrap 64 v)) <$> cm_footer_offset meta;
     mf_footer_len := (fun v => Z.max 0 (swrap 32 v)) <$> cm_footer_len meta |}.

Definition row_to_manifest (r : ChunkRow) : Listed :=
  {| li_id := cr_id r;
     li_manifest := meta_manifest (cr_seq r) (cr_meta r);
     li_size := Z.max 0 (cm_compressed_size_bytes (cr_meta r));
     li_column := cm_compressed_size_bytes (cr_meta r);
     li_line_count := Z.max 0 (swrap 32 (cl_line_count (row_labels r))) |}.

(** ** The world *)

(** The line index by chunk, the backlog with its attempts, oldest first, the positions of the
    collectors, every row that was inserted with the object it was inserted for, less the merged ones
    the compactor took back, and the hazards. *)
Record World := {
  w_epoch : nat;
  w_started : list Service;
  w_now : DateTime;
  w_objects : gmap string (list Z);
  w_rows : list ChunkRow;
  w_next_id : Z;
  w_index : gmap Z (list LogLine);
  w_backlog : list (Z * Z);
  w_positions : gmap string DateTime;
  w_filed : list (ChunkMeta * list Z);
  w_hazards : list Hazard
}.

Definition set_objects (o : gmap string (list Z)) (w : World) : World :=
  {| w_epoch := w_epoch w; w_started := w_started w; w_now := w_now w; w_objects := o; w_rows := w_rows w; w_next_id := w_next_id w;
     w_index := w_index w; w_backlog := w_backlog w; w_positions := w_positions w; w_filed := w_filed w;
     w_hazards := w_hazards w |}.
Definition set_rows (rows : list ChunkRow) (w : World) : World :=
  {| w_epoch := w_epoch w; w_started := w_started w; w_now := w_now w; w_objects := w_objects w; w_rows := rows;
     w_next_id := w_next_id w; w_index := w_index w; w_backlog := w_backlog w; w_positions := w_positions w;
     w_filed := w_filed w; w_hazards := w_hazards w |}.
Definition set_index (i : gmap Z (list LogLine)) (w : World) : World :=
  {| w_epoch := w_epoch w; w_started := w_started w; w_now := w_now w; w_objects := w_objects w; w_rows := w_rows w;
     w_next_id := w_next_id w; w_index := i; w_backlog := w_backlog w; w_positions := w_positions w;
     w_filed := w_filed w; w_hazards := w_hazards w |}.
Definition set_backlog (b : list (Z * Z)) (w : World) : World :=
  {| w_epoch := w_epoch w; w_started := w_started w; w_now := w_now w; w_objects := w_objects w; w_rows := w_rows w;
     w_next_id := w_next_id w; w_index := w_index w; w_backlog := b; w_positions := w_positions w;
     w_filed := w_filed w; w_hazards := w_hazards w |}.
Definition set_positions (p : gmap string DateTime) (w : World) : World :=
  {| w_epoch := w_epoch w; w_started := w_started w; w_now := w_now w; w_objects := w_objects w; w_rows := w_rows w;
     w_next_id := w_next_id w; w_index := w_index w; w_backlog := w_backlog w; w_positions := p;
     w_filed := w_filed w; w_hazards := w_hazards w |}.
Definition add_hazards (h : list Hazard) (w : World) : World :=
  {| w_epoch := w_epoch w; w_started := w_started w; w_now := w_now w; w_objects := w_objects w; w_rows := w_rows w;
     w_next_id := w_next_id w; w_index := w_index w; w_backlog := w_backlog w; w_positions := w_positions w;
     w_filed := w_filed w; w_hazards := w_hazards w ++ h |}.
Definition add_row (r : ChunkRow) (bytes : list Z) (w : World) : World :=
  {| w_epoch := w_epoch w; w_started := w_started w; w_now := w_now w; w_objects := w_objects w; w_rows := w_rows w ++ [r];
     w_next_id := w_next_id w + 1; w_index := w_index w; w_backlog := w_backlog w; w_positions := w_positions w;
     w_filed := w_filed w ++ [(cr_meta r, bytes)]; w_hazards := w_hazards w |}.
Definition set_filed (filed : list (ChunkMeta * list Z)) (w : World) : World :=
  {| w_epoch := w_epoch w; w_started := w_started w; w_now := w_now w; w_objects := w_objects w; w_rows := w_rows w;
     w_next_id := w_next_id w; w_index := w_index w; w_backlog := w_backlog w; w_positions := w_positions w;
     w_filed := filed; w_hazards := w_hazards w |}.
(** The clock and the process. *)
Definition set_process (epoch : nat) (started : list Service) (now : DateTime) (w : World) : World :=
  {| w_epoch := epoch; w_started := started; w_now := now; w_objects := w_objects w; w_rows := w_rows w;
     w_next_id := w_next_id w; w_index := w_index w; w_backlog := w_backlog w; w_positions := w_positions w;
     w_filed := w_filed w; w_hazards := w_hazards w |}.

(** ** Actions *)

Inductive Action :=
  | Start
  | Now
  | ReadChunk (key : string)
  | ReadRange (key : string) (start e : Z)
  | WriteChunk (key : string) (bytes : list Z)
  | DeleteChunk (key : string)
  | ListChunks (prefix : string)
  | ChunkExists (key : string)
  | InsertRow (meta : ChunkMeta)
  | AdvancePosition (container_id : string) (ended_at : DateTime)
  | SeqOfKey (key : string)
  | MarkDeleted (ids : list Z)
  | HardDelete (ids : list Z)
  | TombstonedBefore (cutoff : DateTime) (limit : nat)
  | ForContainerWindow (container_id : string) (start e : DateTime)
  | FragmentedContainers (start e : DateTime) (min_chunks : Z) (limit : nat)
  | KnownStorageKeys (keys : list string)
  | LiveAfterSeq (after : Z) (limit : nat)
  | FindExpiredChunks (project_id : Z) (before : DateTime)
  | UnindexedBeforeSeq (before : Z) (limit : nat)
  | MarkIndexed (seq : Z)
  | EnqueueForget (seqs : list Z)
  | PendingForgets (limit : nat)
  | ResolveForgets (seqs : list Z)
  | RecordForgetFailure (seqs : list Z)
  | IndexChunk (seq : Z) (lines : list LogLine)
  | ForgetChunks (seqs : list Z)
  | Unavailable.

Definition reply (a : Action) : Type :=
  match a with
  | Start => unit
  | Now => DateTime
  | Unavailable => bool
  | ReadChunk _ | ReadRange _ _ _ => answer (list Z)
  | WriteChunk _ _ | HardDelete _ => answer Z
  | DeleteChunk _ | AdvancePosition _ _ | MarkIndexed _ | EnqueueForget _ | ResolveForgets _ | RecordForgetFailure _ | ForgetChunks _ =>
      answer unit
  | ListChunks _ | FragmentedContainers _ _ _ _ => answer (list string)
  | ChunkExists _ => answer bool
  | InsertRow _ => answer (Z * option Z)
  | SeqOfKey _ => answer (option Z)
  | MarkDeleted _ | PendingForgets _ => answer (list Z)
  | TombstonedBefore _ _ => answer (list (Z * string))
  | ForContainerWindow _ _ _ | LiveAfterSeq _ _ | FindExpiredChunks _ _ | UnindexedBeforeSeq _ _ => answer (list Listed)
  | KnownStorageKeys _ => answer (list string)
  | IndexChunk _ _ => answer IndexOutcome
  end.

#[local] Abbreviation program := (prog reply).
#[local] Abbreviation call := (call (reply := reply)).

(** ** Reading a chunk *)

(** [LogStorage::read_chunk] and [read_chunk_range], which stops at the end of the object. *)
Definition read_chunk (objects : gmap string (list Z)) (key : string) : answer (list Z) :=
  ok_or (ChunkBroken (ChunkNotFound key)) (objects !! key).
Definition read_chunk_range (objects : gmap string (list Z)) (key : string) (start e : Z) : answer (list Z) :=
  if e <=? start then Ok []
  else let? bytes := read_chunk objects key in
       Ok (take (Z.to_nat (e - start)) (drop (Z.to_nat start) bytes)).

(** The blocks of a body, one after the other. *)
Fixpoint decode_blocks (body : list Z) (blocks : list BlockMeta) : answer (list DecodedLine) :=
  match blocks with
  | [] => Ok []
  | meta :: rest =>
      let? slice := ok_or (ChunkBroken StorageError) (slice body (bm_offset meta) (bm_offset meta + bm_len meta)) in
      match decode_block slice meta no_filter with
      | Err e => Err (ChunkBroken (ChunkError e))
      | Ok lines => let? more := decode_blocks body rest in Ok (lines ++ more)
      end
  end.

Definition broken {A} (r : result ScanError A) : answer A :=
  match r with Ok a => Ok a | Err e => Err (ChunkBroken e) end.

(** [read_all_lines]. *)
Definition read_all_lines (m : Manifest) : program (answer (list DecodedLine)) :=
  if mf_format_version m <? 2 then
    try* raw := call (ReadChunk (mf_storage_key m)) in
    Ret (broken (decode_v1 is_whitespace log_line_from_str raw))
  else
    match mf_footer_offset m, mf_footer_len m with
    | Some off, Some len =>
        try* bytes := call (ReadRange (mf_storage_key m) off (off + len)) in
        try* trailer := Ret (broken (lift (decode_trailer bytes))) in
        try* footer := Ret (broken (lift (decode_footer bytes trailer))) in
        try* body := call (ReadRange (mf_storage_key m) 0 off) in
        Ret (decode_blocks body (cf_blocks footer))
    | _, _ => Ret (Err (ChunkBroken NoFooterLocation))
    end.

(** What a program finds that only reads the bucket. *)
Fixpoint look {A} (objects : gmap string (list Z)) (p : program A) : option A :=
  match p with
  | Ret x => Some x
  | Do a k =>
      match a return (reply a -> program A) -> option A with
      | ReadChunk key => fun k => look objects (k (read_chunk objects key))
      | ReadRange key start e => fun k => look objects (k (read_chunk_range objects key start e))
      | _ => fun _ => None
      end k
  end.

(** A line without its place in the chunk. *)
Definition unplaced (l : DecodedLine) : DecodedLine :=
  {| dl_ts := dl_ts l; dl_level := dl_level l; dl_stream := dl_stream l; dl_message := dl_message l; dl_fields := dl_fields l;
     dl_line_index := 0 |}.

(** The lines of an object a row was inserted for, under the container of the row, and the lines a row
    leads to. *)
Definition entry_lines (meta : ChunkMeta) (bytes : list Z) : list (string * DecodedLine) :=
  match look {[cm_storage_key meta := bytes]} (read_all_lines (meta_manifest 0 meta)) with
  | Some (Ok lines) => map (fun l => (cl_container_id (cm_labels meta), unplaced l)) lines
  | _ => []
  end.
Definition row_lines (objects : gmap string (list Z)) (r : ChunkRow) : list (string * DecodedLine) :=
  match objects !! row_key r with Some bytes => entry_lines (cr_meta r) bytes | None => [] end.

(** The lines readers can find. *)
Definition visible_lines (w : World) : list (string * DecodedLine) :=
  mjoin (map (row_lines (w_objects w)) (List.filter live (w_rows w))).

(** ** What an action does *)

Definition ended_le (a b : ChunkRow) : Prop := dt_leb (cl_ended_at (row_labels a)) (cl_ended_at (row_labels b)) = true.
#[global] Instance ended_le_dec : RelDecision ended_le.
Proof. intros a b. unfold ended_le. apply _. Defined.
Definition seq_le (a b : ChunkRow) : Prop := cr_seq a <= cr_seq b.
#[global] Instance seq_le_dec : RelDecision seq_le.
Proof. intros a b. unfold seq_le. apply _. Defined.
Definition tombstone_le (a b : ChunkRow) : Prop :=
  match cr_deleted_at a, cr_deleted_at b with Some x, Some y => dt_leb x y = true | _, _ => True end.
#[global] Instance tombstone_le_dec : RelDecision tombstone_le.
Proof. intros a b. unfold tombstone_le. destruct (cr_deleted_at a), (cr_deleted_at b); apply _. Defined.

Definition ends_within (start e : DateTime) (r : ChunkRow) : bool :=
  dt_leb start (cl_ended_at (row_labels r)) && dt_ltb (cl_ended_at (row_labels r)) e.

(** The row [insert] conflicts with. *)
Definition row_under (key : string) (rows : list ChunkRow) : option ChunkRow :=
  List.find (fun r => String.eqb (row_key r) key && (2 <=? cm_format_version (cr_meta r))) rows.
Definition filed_under (key : string) (filed : list (ChunkMeta * list Z)) : bool :=
  existsb (fun e => String.eqb (cm_storage_key e.1) key) filed.
Definition has_row (key : string) (rows : list ChunkRow) : bool := existsb (fun r => String.eqb (row_key r) key) rows.

(** [INSERT … ON CONFLICT DO NOTHING RETURNING seq], with the random id of the row; a new number of the
    sequence is the next id. *)
Definition insert_row (meta : ChunkMeta) (w : World) : (Z * option Z) * World :=
  let id := w_next_id w in
  match (if 2 <=? cm_format_version meta then row_under (cm_storage_key meta) (w_rows w) else None) with
  | Some _ => ((id, None), w)
  | None =>
      let r := {| cr_id := id; cr_seq := id; cr_meta := meta; cr_deleted_at := None; cr_indexed := false |} in
      let missing := match w_objects w !! cm_storage_key meta with
                     | Some _ => []
                     | None => [NoObject (cm_storage_key meta)]
                     end in
      ((id, Some id), add_hazards missing (add_row r (default [] (w_objects w !! cm_storage_key meta)) w))
  end.

Definition advance_position (container_id : string) (ended_at : DateTime) (w : World) : World :=
  let latest := match w_positions w !! container_id with
                | Some last_ts => if dt_leb last_ts ended_at then ended_at else last_ts
                | None => ended_at
                end in
  set_positions (<[container_id := latest]> (w_positions w)) w.

Definition mem (x : Z) (l : list Z) : bool := bool_decide (x ∈ l).

Definition tombstone_row (now : DateTime) (r : ChunkRow) : ChunkRow :=
  {| cr_id := cr_id r; cr_seq := cr_seq r; cr_meta := cr_meta r; cr_deleted_at := Some now; cr_indexed := cr_indexed r |}.
Definition index_row (r : ChunkRow) : ChunkRow :=
  {| cr_id := cr_id r; cr_seq := cr_seq r; cr_meta := cr_meta r; cr_deleted_at := cr_deleted_at r; cr_indexed := true |}.

(** [UPDATE … SET deleted_at = now() WHERE id = ANY(ids) AND deleted_at IS NULL], with the numbers of the
    rows it changed. *)
Definition mark_deleted (ids : list Z) (w : World) : list Z * World :=
  let hit r := mem (cr_id r) ids && live r in
  (map cr_seq (List.filter hit (w_rows w)),
   set_rows (map (fun r => if hit r then tombstone_row (w_now w) r else r) (w_rows w)) w).

(** Whether the collector may have listed a row. *)
Definition collectable (now : DateTime) (r : ChunkRow) : bool :=
  match cr_deleted_at r with Some at_ => dt_ltb at_ (dt_sub now GC_GRACE) | None => false end.

(** [DELETE … WHERE id = ANY(ids) AND deleted_at IS NOT NULL]. *)
Definition hard_delete (svc : Service) (ids : list Z) (w : World) : Z * World :=
  let hit r := mem (cr_id r) ids && negb (live r) in
  let gone := List.filter hit (w_rows w) in
  let w' := set_rows (List.filter (fun r => negb (hit r)) (w_rows w)) w in
  (blen (map cr_id gone),
   match svc with
   | Collection => w'
   | _ => add_hazards (map (fun r => LateRemoval (row_key r)) (List.filter (collectable (w_now w)) gone))
            (set_filed (List.filter (fun e => negb (has_row (cm_storage_key e.1) gone && ends_with (cm_storage_key e.1) "-c.zst")) (w_filed w)) w')
   end).

(** [tombstoned_before]: the object of a row stays while a row of its key is live or recent. *)
Definition tombstoned_before (cutoff : DateTime) (limit : nat) (rows : list ChunkRow) : list (Z * string) :=
  let old r := match cr_deleted_at r with Some at_ => dt_ltb at_ cutoff | None => false end in
  let protected key := existsb (fun s => String.eqb (row_key s) key && negb (old s)) rows in
  map (fun r => (cr_id r, row_key r))
    (take limit (merge_sort tombstone_le (List.filter (fun r => old r && negb (protected (row_key r))) rows))).

Definition for_container_window (container_id : string) (start e : DateTime) (rows : list ChunkRow) : list ChunkRow :=
  merge_sort ended_le
    (List.filter (fun r => live r && String.eqb (cl_container_id (row_labels r)) container_id && ends_within start e r) rows).

Definition fragmented_containers (start e : DateTime) (min_chunks : Z) (limit : nat) (rows : list ChunkRow) : list string :=
  let candidates := List.filter (fun r => live r && ends_within start e r) rows in
  let count id := blen (map cr_id (List.filter (fun r => String.eqb (cl_container_id (row_labels r)) id) candidates)) in
  take limit (List.filter (fun id => min_chunks <=? count id) (remove_dups (map (fun r => cl_container_id (row_labels r)) candidates))).

Definition live_after_seq (after : Z) (limit : nat) (rows : list ChunkRow) : list ChunkRow :=
  take limit (merge_sort seq_le (List.filter (fun r => live r && (after <? cr_seq r)) rows)).

Definition find_expired_chunks (project_id : Z) (before : DateTime) (rows : list ChunkRow) : list ChunkRow :=
  List.filter (fun r => (cl_project_id (row_labels r) =? project_id) && dt_ltb (cl_ended_at (row_labels r)) before && live r) rows.

Definition unindexed_before_seq (before : Z) (limit : nat) (rows : list ChunkRow) : list ChunkRow :=
  take limit (reverse (merge_sort seq_le (List.filter (fun r => live r && negb (cr_indexed r) && (cr_seq r <? before)) rows))).

(** The backlog: a chunk is queued once, and a failed attempt leaves it queued. *)
Definition queued (seq : Z) (b : list (Z * Z)) : bool := existsb (fun e => e.1 =? seq) b.
Definition enqueue_forget (seqs : list Z) (b : list (Z * Z)) : list (Z * Z) :=
  fold_left (fun b s => if queued s b then b else b ++ [(s, 0)]) seqs b.
Definition resolve_forgets (seqs : list Z) (b : list (Z * Z)) : list (Z * Z) := List.filter (fun e => negb (mem e.1 seqs)) b.
Definition record_forget_failure (seqs : list Z) (b : list (Z * Z)) : list (Z * Z) :=
  fold_left (fun b s => if queued s b then map (fun e => if e.1 =? s then (e.1, e.2 + 1) else e) b else b ++ [(s, 1)]) seqs b.

(** What the world decides at a turn: whether the call fails, and whether an index is configured. *)
Record Choice := { ch_fault : Fault; ch_index : bool }.

(** A call with this answer and this effect. *)
Definition served {A} (c : Choice) (w : World) (x : answer A * World) : option (answer A * World) :=
  Some (match ch_fault c with
        | Fine => x
        | Fails done => (Err Unreachable, if done then x.2 else w)
        end).

Definition perform (ag : Agent) (c : Choice) (w : World) (a : Action) : option (reply a * World) :=
  if negb (ag_epoch ag =? w_epoch w)%nat then None
  else
  let listing rows := served c w (Ok (map row_to_manifest rows), w) in
  match a return option (reply a * World) with
  | Start =>
      if bool_decide (ag_service ag ∈ w_started w) then None
      else Some ((), set_process (w_epoch w) (ag_service ag :: w_started w) (w_now w) w)
  | Now => Some (w_now w, w)
  | Unavailable => Some (negb (ch_index c), w)
  | ReadChunk key => served c w (read_chunk (w_objects w) key, w)
  | ReadRange key start e => served c w (read_chunk_range (w_objects w) key start e, w)
  | WriteChunk key bytes =>
      served c w (Ok (blen bytes),
        add_hazards ((if filed_under key (w_filed w) then [Overwrites key] else [])
                     ++ (if 2 ^ 31 <=? blen bytes then [Oversized key] else []))
          (set_objects (<[key := bytes]> (w_objects w)) w))
  | DeleteChunk key => served c w (Ok (), set_objects (delete key (w_objects w)) w)
  | ListChunks prefix => served c w (Ok (List.filter (String.prefix prefix) (map fst (map_to_list (w_objects w)))), w)
  | ChunkExists key => served c w (Ok (bool_decide (is_Some (w_objects w !! key))), w)
  | InsertRow meta => let '(x, w') := insert_row meta w in served c w (Ok x, w')
  | AdvancePosition id ended_at => served c w (Ok (), advance_position id ended_at w)
  | SeqOfKey key => served c w (Ok (cr_seq <$> row_under key (w_rows w)), w)
  | MarkDeleted ids => let '(x, w') := mark_deleted ids w in served c w (Ok x, w')
  | HardDelete ids => let '(x, w') := hard_delete (ag_service ag) ids w in served c w (Ok x, w')
  | TombstonedBefore cutoff limit => served c w (Ok (tombstoned_before cutoff limit (w_rows w)), w)
  | ForContainerWindow id start e => listing (for_container_window id start e (w_rows w))
  | FragmentedContainers start e n limit => served c w (Ok (fragmented_containers start e n limit (w_rows w)), w)
  | KnownStorageKeys keys => served c w (Ok (List.filter (fun k => has_row k (w_rows w)) keys), w)
  | LiveAfterSeq after limit => listing (live_after_seq after limit (w_rows w))
  | FindExpiredChunks p before => listing (find_expired_chunks p before (w_rows w))
  | UnindexedBeforeSeq before limit => listing (unindexed_before_seq before limit (w_rows w))
  | MarkIndexed seq =>
      served c w (Ok (), set_rows (map (fun r => if cr_seq r =? seq then index_row r else r) (w_rows w)) w)
  | EnqueueForget seqs => served c w (Ok (), set_backlog (enqueue_forget seqs (w_backlog w)) w)
  | PendingForgets limit => served c w (Ok (map fst (take limit (w_backlog w))), w)
  | ResolveForgets seqs => served c w (Ok (), set_backlog (resolve_forgets seqs (w_backlog w)) w)
  | RecordForgetFailure seqs => served c w (Ok (), set_backlog (record_forget_failure seqs (w_backlog w)) w)
  | IndexChunk seq lines =>
      served c w (if ch_index c then (Ok Indexed, set_index (<[seq := lines]> (w_index w)) w) else (Ok Skipped, w))
  | ForgetChunks seqs => served c w (Ok (), set_index (foldr delete (w_index w) seqs) w)
  end.

(** ** The compactor *)

(** [ManifestRepo::insert]: the id of the new row, and the number of the row under the key. *)
Definition manifest_insert (meta : ChunkMeta) : program (answer (Z * Z)) :=
  try* inserted := call (InsertRow meta) in
  try* _ := call (AdvancePosition (cl_container_id (cm_labels meta)) (cl_ended_at (cm_labels meta))) in
  match inserted.2 with
  | Some seq => Ret (Ok (inserted.1, seq))
  | None =>
      try* found := call (SeqOfKey (cm_storage_key meta)) in
      Ret (match found with
           | Some seq => Ok (inserted.1, seq)
           | None => Err (ManifestConflictUnresolved (cm_storage_key meta))
           end)
  end.

(** [forget_in_index]; its errors are only logged. *)
Definition forget_in_index (seqs : list Z) : program unit :=
  match seqs with
  | [] => Ret ()
  | _ =>
      let* _ := call (EnqueueForget seqs) in
      let* forgotten := call (ForgetChunks seqs) in
      match forgotten with
      | Ok _ => let* _ := call (ResolveForgets seqs) in Ret ()
      | Err _ => let* _ := call (RecordForgetFailure seqs) in Ret ()
      end
  end.

Definition estimated_raw_bytes (m : Listed) : Z := Z.min (li_size m * 10) (2 ^ 64 - 1).

Definition no_compaction : CompactionReport :=
  {| rp_containers := 0; rp_chunks_in := 0; rp_chunks_out := 0; rp_bytes_in := 0; rp_bytes_out := 0; rp_failed := 0 |}.

Definition labels_identity (l : ChunkLabels) : ChunkIdentity :=
  {| ci_project_id := cl_project_id l; ci_external_service_id := cl_external_service_id l; ci_env := cl_env l; ci_service := cl_service l;
     ci_container_id := cl_container_id l; ci_deploy_id := cl_deploy_id l; ci_node_id := cl_node_id l; ci_node_name := cl_node_name l |}.

(** A decoded line under an identity; [decoded_to_log_line]. *)
Definition identity_line (i : ChunkIdentity) (l : DecodedLine) : LogLine :=
  {| ll_ts := dl_ts l; ll_stream := dl_stream l; ll_level := dl_level l; ll_msg := dl_message l; ll_fields := dl_fields l;
     ll_container_id := ci_container_id i; ll_service := ci_service i; ll_env := ci_env i; ll_project_id := ci_project_id i;
     ll_external_service_id := ci_external_service_id i; ll_deploy_id := ci_deploy_id i; ll_node_id := ci_node_id i;
     ll_node_name := ci_node_name i |}.
Definition decoded_to_log_line (labels : ChunkLabels) (l : DecodedLine) : LogLine := identity_line (labels_identity labels) l.

(** The lines of a run, chunk by chunk. *)
Fixpoint read_run (run : list Listed) : program (answer (list DecodedLine)) :=
  match run with
  | [] => Ret (Ok [])
  | m :: rest =>
      try* lines := read_all_lines (li_manifest m) in
      try* more := read_run rest in
      Ret (Ok (lines ++ more))
  end.

Definition line_le (a b : DecodedLine) : Prop := dt_leb (dl_ts a) (dl_ts b) = true.
#[global] Instance line_le_dec : RelDecision line_le.
Proof. intros a b. unfold line_le. apply _. Defined.

Definition merged_key (encoded : EncodedChunk) (i : ChunkIdentity) : string :=
  build_storage_key_v2 date_hour (ci_project_id i) (ci_external_service_id i) (ci_env i) (ci_service i)
    (cl_started_at (cf_labels (ec_footer encoded))) (ci_container_id i) (Some "c").

(** What follows the insertion of the merged chunk: it is indexed, or given up. *)
Definition index_merged (id seq : Z) (key : string) (log_lines : list LogLine) : program (answer unit) :=
  let* outcome := call (IndexChunk seq log_lines) in
  match outcome with
  | Ok Indexed => call (MarkIndexed seq)
  | Ok Skipped => Ret (Ok ())
  | Err e =>
      try* _ := call (MarkDeleted [id]) in
      try* _ := call (HardDelete [id]) in
      let* _ := call (DeleteChunk key) in
      Ret (Err e)
  end.

(** The merged chunk takes the place of the run. *)
Definition swap_run (run : list Listed) (log_lines : list LogLine) (encoded : EncodedChunk) (key : string)
    : program (answer CompactionReport) :=
  try* size := call (WriteChunk key (ec_bytes encoded)) in
  try* inserted := manifest_insert (build_chunk_meta encoded key size) in
  try* _ := index_merged inserted.1 inserted.2 key log_lines in
  try* _ := call (MarkDeleted (map li_id run)) in
  let* _ := forget_in_index (map (fun m => mf_seq (li_manifest m)) run) in
  Ret (Ok {| rp_containers := 0; rp_chunks_in := blen (map li_id run); rp_chunks_out := 1;
             rp_bytes_in := foldr (fun m n => li_size m + n) 0 run; rp_bytes_out := size; rp_failed := 0 |}).

Definition merge_run (run : list Listed) : program (answer CompactionReport) :=
  match run with
  | [] => Ret (Err Panicked)
  | first :: _ =>
      let identity := labels_identity (mf_labels (li_manifest first)) in
      try* lines := read_run run in
      match lines with
      | [] => Ret (Ok no_compaction)
      | _ =>
          let log_lines := map (identity_line identity) (merge_sort line_le lines) in
          match encode_segments order identity [log_lines] true with
          | Err e => Ret (Err (EncodeBroken e))
          | Ok encoded => swap_run run log_lines encoded (merged_key encoded identity)
          end
      end
  end.

(** The runs of consecutive chunks that fit the cap: the runs so far, the current one and its bytes. *)
Definition group_step (acc : list (list Listed) * list Listed * Z) (m : Listed) : list (list Listed) * list Listed * Z :=
  let '(runs, current, current_bytes) := acc in
  let est := estimated_raw_bytes m in
  match current with
  | _ :: _ => if MAX_COMPACTED_BYTES <? current_bytes + est then (runs ++ [current], [m], est)
              else (runs, current ++ [m], current_bytes + est)
  | [] => (runs, [m], current_bytes + est)
  end.
Definition group_runs (ms : list Listed) : list (list Listed) :=
  let '(runs, current, _) := fold_left group_step ms ([], [], 0) in
  match current with [] => runs | _ => runs ++ [current] end.

Definition add_report (a b : CompactionReport) : CompactionReport :=
  {| rp_containers := rp_containers a; rp_chunks_in := rp_chunks_in a + rp_chunks_in b;
     rp_chunks_out := rp_chunks_out a + rp_chunks_out b; rp_bytes_in := rp_bytes_in a + rp_bytes_in b;
     rp_bytes_out := rp_bytes_out a + rp_bytes_out b; rp_failed := rp_failed a |}.
Definition count_container (r : CompactionReport) : CompactionReport :=
  {| rp_containers := rp_containers r + 1; rp_chunks_in := rp_chunks_in r; rp_chunks_out := rp_chunks_out r;
     rp_bytes_in := rp_bytes_in r; rp_bytes_out := rp_bytes_out r; rp_failed := rp_failed r |}.
Definition count_failure (r : CompactionReport) : CompactionReport :=
  {| rp_containers := rp_containers r; rp_chunks_in := rp_chunks_in r; rp_chunks_out := rp_chunks_out r;
     rp_bytes_in := rp_bytes_in r; rp_bytes_out := rp_bytes_out r; rp_failed := rp_failed r + 1 |}.

Fixpoint merge_runs (runs : list (list Listed)) (report : CompactionReport) : program (answer CompactionReport) :=
  match runs with
  | [] => Ret (Ok report)
  | run :: rest =>
      if (2 <=? length run)%nat then
        try* r := merge_run run in
        merge_runs rest (add_report report r)
      else merge_runs rest report
  end.

(** [compact_container]. *)
Definition compact_container (container_id : string) (start e : DateTime) : program (answer CompactionReport) :=
  try* ms := call (ForContainerWindow container_id start e) in
  if wrap 32 (blen (map li_id ms)) <? MIN_CHUNKS_TO_COMPACT then Ret (Ok no_compaction)
  else merge_runs (group_runs ms) no_compaction.

Fixpoint compact_containers (ids : list string) (start e : DateTime) (report : CompactionReport) : program CompactionReport :=
  match ids with
  | [] => Ret report
  | id :: rest =>
      let* outcome := compact_container id start e in
      compact_containers rest start e
        (match outcome with
         | Ok r => count_container (add_report report r)
         | Err _ => count_failure report
         end)
  end.

(** [compact_window] and [run_once]. *)
Definition compact_window (start e : DateTime) : program CompactionReport :=
  let* containers := call (FragmentedContainers start e MIN_CHUNKS_TO_COMPACT CONTAINERS_PER_RUN) in
  match containers with
  | Err _ => Ret (count_failure no_compaction)
  | Ok ids => compact_containers ids start e no_compaction
  end.

(** [previous_day]; [midnight] is [Utc.with_ymd_and_hms] of a day at 00:00:00. *)
Definition previous_day (now : DateTime) : DateTime * DateTime :=
  let today := default now (midnight now) in (dt_sub today (24 * 60 * 60), today).

Definition compact_once : program CompactionReport :=
  let* now := call Now in
  compact_window (previous_day now).1 (previous_day now).2.

(** ** Reconciling manifest and bucket *)

Definition adopted_meta (key : string) (total : Z) (trailer : Trailer) (footer : ChunkFooter) : ChunkMeta :=
  let l := cf_labels footer in
  {| cm_labels := l; cm_storage_key := key; cm_compressed_size_bytes := swrap 32 total;
     cm_has_errors := negb (Z.land (cl_level_mask l) (Z.lor (level_bit Warn) (level_bit Error)) =? 0);
     cm_format_version := t_version trailer; cm_footer_offset := Some (footer_offset trailer);
     cm_footer_len := Some (wrap 32 (footer_len trailer)); cm_bloom_len := t_bloom_len trailer |}.

(** [adopt]. *)
Definition adopt (key : string) : program (answer unit) :=
  try* bytes := call (ReadChunk key) in
  let total := blen bytes in
  if total <? TRAILER_LEN then Ret (Err (ShorterThanTrailer key))
  else
    try* trailer := Ret (broken (lift (decode_trailer (drop (Z.to_nat (total - TRAILER_LEN)) bytes)))) in
    try* section := Ret (ok_or (FooterOutsideObject key)
                          (slice bytes (footer_offset trailer) (footer_offset trailer + footer_len trailer))) in
    try* footer := Ret (broken (lift (decode_footer section trailer))) in
    try* _ := manifest_insert (adopted_meta key total trailer footer) in
    Ret (Ok ()).

Fixpoint adopt_all (keys : list string) (r : ReconcileReport) : program ReconcileReport :=
  match keys with
  | [] => Ret r
  | key :: rest =>
      let* outcome := adopt key in
      adopt_all rest (match outcome with
                      | Ok _ => {| rc_adopted := rc_adopted r + 1; rc_tombstoned := rc_tombstoned r; rc_failed := rc_failed r |}
                      | Err _ => {| rc_adopted := rc_adopted r; rc_tombstoned := rc_tombstoned r; rc_failed := rc_failed r + 1 |}
                      end)
  end.

Definition reconcile_failed (r : ReconcileReport) : ReconcileReport :=
  {| rc_adopted := rc_adopted r; rc_tombstoned := rc_tombstoned r; rc_failed := rc_failed r + 1 |}.

Fixpoint adopt_batches (batches : list (list string)) (r : ReconcileReport) : program ReconcileReport :=
  match batches with
  | [] => Ret r
  | batch :: rest =>
      let* known := call (KnownStorageKeys batch) in
      match known with
      | Err _ => adopt_batches rest (reconcile_failed r)
      | Ok known =>
          let* r := adopt_all (List.filter (fun k => negb (bool_decide (k ∈ known))) batch) r in
          adopt_batches rest r
      end
  end.

(** The rows of a page whose object is missing, and the report. *)
Fixpoint missing_objects (page : list Listed) (r : ReconcileReport) : program (list Listed * ReconcileReport) :=
  match page with
  | [] => Ret ([], r)
  | m :: rest =>
      let* there := call (ChunkExists (mf_storage_key (li_manifest m))) in
      match there with
      | Ok true => missing_objects rest r
      | Ok false => let* found := missing_objects rest r in Ret (m :: found.1, found.2)
      | Err _ => missing_objects rest (reconcile_failed r)
      end
  end.

(** The pages of live rows; [fuel] bounds how many are looked at. *)
Fixpoint tombstone_missing (fuel : nat) (after : Z) (r : ReconcileReport) : program ReconcileReport :=
  match fuel with
  | O => Ret r
  | S fuel =>
      let* page := call (LiveAfterSeq after 500) in
      match page with
      | Err _ => Ret (reconcile_failed r)
      | Ok [] => Ret r
      | Ok page =>
          let after := fold_left (fun a m => Z.max a (mf_seq (li_manifest m))) page after in
          let* found := missing_objects page r in
          match found.1 with
          | [] => tombstone_missing fuel after found.2
          | missing =>
              let* marked := call (MarkDeleted (map li_id missing)) in
              match marked with
              | Err _ => tombstone_missing fuel after (reconcile_failed found.2)
              | Ok marked =>
                  let* _ := forget_in_index (map (fun m => mf_seq (li_manifest m)) missing) in
                  tombstone_missing fuel after
                    {| rc_adopted := rc_adopted found.2; rc_tombstoned := rc_tombstoned found.2 + blen marked;
                       rc_failed := rc_failed found.2 |}
              end
          end
      end
  end.

(** [reconcile_once]. *)
Definition reconcile_once (fuel : nat) : program ReconcileReport :=
  let* listed := call (ListChunks "logs/") in
  let* r := match listed with
            | Err _ => Ret {| rc_adopted := 0; rc_tombstoned := 0; rc_failed := 1 |}
            | Ok keys =>
                let v2 := List.filter (fun k => ends_with k (String "." V2_EXTENSION) && negb (ends_with k V1_SUFFIX)) keys in
                adopt_batches (chunks 500 v2) {| rc_adopted := 0; rc_tombstoned := 0; rc_failed := 0 |}
            end in
  tombstone_missing fuel 0 r.

(** ** Garbage collection *)

Definition group_keys (rows : list (Z * string)) : gmap string (list Z) :=
  fold_left (fun m r => <[r.2 := default [] (m !! r.2) ++ [r.1]]> m) rows ∅.

(** The objects that could be deleted, their rows, and the report. *)
Fixpoint delete_objects (objects : list (string * list Z)) (r : GcReport) : program (list Z * GcReport) :=
  match objects with
  | [] => Ret ([], r)
  | (key, ids) :: rest =>
      let* deleted := call (DeleteChunk key) in
      match deleted with
      | Ok _ =>
          let* found := delete_objects rest {| gc_objects_deleted := gc_objects_deleted r + 1; gc_rows_deleted := gc_rows_deleted r;
                                               gc_failed := gc_failed r |} in
          Ret (ids ++ found.1, found.2)
      | Err _ =>
          delete_objects rest {| gc_objects_deleted := gc_objects_deleted r; gc_rows_deleted := gc_rows_deleted r;
                                 gc_failed := gc_failed r + 1 |}
      end
  end.

(** [gc_once]. *)
Definition gc_once : program GcReport :=
  let* now := call Now in
  let* rows := call (TombstonedBefore (dt_sub now GC_GRACE) GC_BATCH) in
  match rows with
  | Err _ => Ret {| gc_objects_deleted := 0; gc_rows_deleted := 0; gc_failed := 1 |}
  | Ok rows =>
      let* found := delete_objects (key_order (group_keys rows)) {| gc_objects_deleted := 0; gc_rows_deleted := 0; gc_failed := 0 |} in
      match found.1 with
      | [] => Ret found.2
      | done =>
          let* removed := call (HardDelete done) in
          Ret (match removed with
               | Ok n => {| gc_objects_deleted := gc_objects_deleted found.2; gc_rows_deleted := gc_rows_deleted found.2 + n;
                            gc_failed := gc_failed found.2 |}
               | Err _ => {| gc_objects_deleted := gc_objects_deleted found.2; gc_rows_deleted := gc_rows_deleted found.2;
                             gc_failed := gc_failed found.2 + 1 |}
               end)
      end
  end.

(** ** Retention *)

(** [tombstone]: chunks deleted, chunks that failed, bytes. *)
Definition tombstone (ms : list Listed) : program (Z * Z * Z) :=
  match ms with
  | [] => Ret (0, 0, 0)
  | _ =>
      let n := blen (map li_id ms) in
      let* marked := call (MarkDeleted (map li_id ms)) in
      match marked with
      | Err _ => Ret (0, n, 0)
      | Ok seqs =>
          let* _ := call (EnqueueForget seqs) in
          let* forgotten := call (ForgetChunks seqs) in
          let* _ := match forgotten with
                    | Ok _ => call (ResolveForgets seqs)
                    | Err _ => call (RecordForgetFailure seqs)
                    end in
          Ret (blen seqs, n - Z.min (blen seqs) n, fold_left (fun b m => wrap 64 (b + wrap 64 (li_column m))) ms 0)
      end
  end.

(** [cleanup_project] with the cutoff of its settings, and the part of [manual_purge] behind the writer's. *)
Definition cleanup_project (project_id : Z) (cutoff : DateTime) : program (answer RetentionResult) :=
  try* expired := call (FindExpiredChunks project_id cutoff) in
  let* counts := tombstone expired in
  let '(deleted, failed, bytes) := counts in
  Ret (Ok {| rr_chunks_deleted := deleted; rr_chunks_failed := failed; rr_bytes_reclaimed := bytes |}).

Definition next_purge_cutoff (previous : option DateTime) (requested : DateTime) (chunks_failed : Z) : option DateTime :=
  if 0 <? chunks_failed then previous
  else Some (match previous with
             | None => requested
             | Some cutoff => if dt_leb cutoff requested then requested else cutoff
             end).

(** ** The line index *)

(** [index_one]. *)
Definition index_one (m : Listed) : program (answer Z) :=
  try* lines := read_all_lines (li_manifest m) in
  try* outcome := call (IndexChunk (mf_seq (li_manifest m)) (map (decoded_to_log_line (mf_labels (li_manifest m))) lines)) in
  match outcome with
  | Indexed => try* _ := call (MarkIndexed (mf_seq (li_manifest m))) in Ret (Ok (blen (map dl_line_index lines)))
  | Skipped => Ret (Ok 0)
  end.

Fixpoint index_page (page : list Listed) (r : ReindexReport) : program ReindexReport :=
  match page with
  | [] => Ret r
  | m :: rest =>
      let* outcome := index_one m in
      index_page rest (match outcome with
                       | Ok lines => {| ri_indexed := ri_indexed r + 1; ri_lines := ri_lines r + lines; ri_failed := ri_failed r;
                                        ri_more := ri_more r |}
                       | Err _ => {| ri_indexed := ri_indexed r; ri_lines := ri_lines r; ri_failed := ri_failed r + 1;
                                     ri_more := ri_more r |}
                       end)
  end.

(** [ReindexService::run_once]. *)
Definition reindex_once (batch : nat) : program ReindexReport :=
  let* down := call Unavailable in
  if down then Ret {| ri_indexed := 0; ri_lines := 0; ri_failed := 0; ri_more := false |}
  else
    let* page := call (UnindexedBeforeSeq (2 ^ 63 - 1) batch) in
    match page with
    | Err _ => Ret {| ri_indexed := 0; ri_lines := 0; ri_failed := 1; ri_more := false |}
    | Ok page => index_page page {| ri_indexed := 0; ri_lines := 0; ri_failed := 0; ri_more := (batch <=? length page)%nat |}
    end.

(** [ForgetSweeper::run_once]. *)
Definition sweep_once (batch : nat) : program ForgetSweepReport :=
  let none := {| fs_resolved := 0; fs_failed := 0; fs_more := false |} in
  let* down := call Unavailable in
  if down then Ret none
  else
    let* pending := call (PendingForgets batch) in
    match pending with
    | Err _ | Ok [] => Ret none
    | Ok seqs =>
        let more := (batch <=? length seqs)%nat in
        let* forgotten := call (ForgetChunks seqs) in
        match forgotten with
        | Ok _ =>
            let* _ := call (ResolveForgets seqs) in
            Ret {| fs_resolved := blen seqs; fs_failed := 0; fs_more := more |}
        | Err _ =>
            let* _ := call (RecordForgetFailure seqs) in
            Ret {| fs_resolved := 0; fs_failed := blen seqs; fs_more := more |}
        end
    end.

(** ** The services of a process *)

Fixpoint repeat_prog (n : nat) (p : program unit) : program unit :=
  match n with O => Ret () | S n => let* _ := p in repeat_prog n p end.

(** The loops of [plugin.rs], with the number of their ticks, and one pass of the others. *)
Inductive Call :=
  | CompactionLoop (ticks fuel : nat)
  | CollectionLoop (ticks : nat)
  | CleanUp (project_id : Z) (cutoff : DateTime)
  | Reindex (batch : nat)
  | Sweep (batch : nat).

Definition body (_ : Agent) (c : Call) : program unit :=
  match c with
  | CompactionLoop ticks fuel =>
      let* _ := call Start in
      repeat_prog ticks (let* _ := reconcile_once fuel in let* _ := compact_once in Ret ())
  | CollectionLoop ticks =>
      let* _ := call Start in
      repeat_prog ticks (let* _ := gc_once in Ret ())
  | CleanUp project_id cutoff => let* _ := cleanup_project project_id cutoff in Ret ()
  | Reindex batch => let* _ := reindex_once batch in Ret ()
  | Sweep batch => let* _ := sweep_once batch in Ret ()
  end.

(** ** What happens beside the services *)

(** Time passes; the process starts again; the table is stored in another order; the writer stores a
    chunk, and inserts its row. *)
Inductive Env :=
  | Passes (now : DateTime)
  | Restart
  | Vacuum (ids : list Z)
  | SealObject (rid : option (string * Z * Z)) (identity : ChunkIdentity) (lines : list LogLine) (with_bloom : bool)
  | SealRow (rid : option (string * Z * Z)) (identity : ChunkIdentity) (lines : list LogLine) (with_bloom : bool).

#[local] Abbreviation storage_key := (storage_key date_hour content_hash).

Definition happen (e : Env) (w : World) : World :=
  match e with
  | Passes now => set_process (w_epoch w) (w_started w) (if dt_leb (w_now w) now then now else w_now w) w
  | Restart => set_process (S (w_epoch w)) [] (w_now w) w
  | Vacuum ids => if bool_decide (ids ≡ₚ map cr_id (w_rows w))
                  then set_rows (omap (fun id => List.find (fun r => cr_id r =? id) (w_rows w)) ids) w else w
  | SealObject rid identity lines with_bloom =>
      match encode_segments order identity [lines] with_bloom with
      | Ok encoded => set_objects (<[storage_key rid encoded := ec_bytes encoded]> (w_objects w)) w
      | Err _ => w
      end
  | SealRow rid identity lines with_bloom =>
      match encode_segments order identity [lines] with_bloom with
      | Ok encoded =>
          let meta := build_chunk_meta encoded (storage_key rid encoded) (blen (ec_bytes encoded)) in
          advance_position (cl_container_id (cm_labels meta)) (cl_ended_at (cm_labels meta)) (insert_row meta w).2
      | Err _ => w
      end
  end.

Definition empty_world (now : DateTime) : World :=
  {| w_epoch := 0; w_started := []; w_now := now; w_objects := ∅; w_rows := []; w_next_id := 1; w_index := ∅; w_backlog := [];
     w_positions := ∅; w_filed := []; w_hazards := [] |}.
End Compactor.
