(* ===== verification/CompactorRead.v ===== *)
(** * What the compactor reads back

    The chunk [read_all_lines] ([crates/temps-log-aggregator/src/services/compactor.rs]) finds behind a
    row: exactly the lines the encoder was given, whoever wrote the object; that merging keeps what a
    line says; and what [adopt] finds in an object that lost its row. *)

From S2P Require Import Prelude Bytes Utf8 ChunkBlock Bloom ChunkFile ChunkScan Wal WalDisk HeadBuffer ChunkWriter WriterStore Prog Compactor.
From stdpp Require Import sorting.
Local Open Scope Z_scope.

Section Read.
Context `{ChronoLaws} `{ZstdLaws} `{JsonLaws} `{!FooterJson} `{!FooterJsonLaws _} `{Crc32} `{Xxh3} `{Unicode}.
Context (order : BloomBuilder -> list Z) (log_line_from_str : list Z -> option LogLine) (is_whitespace : Z -> bool).
Hypothesis order_all : forall es e, e ∈ order es <-> e ∈ es.

#[local] Abbreviation encode_segments := (encode_segments order).
#[local] Abbreviation read_all_lines := (read_all_lines log_line_from_str is_whitespace).
#[local] Abbreviation entry_lines := (entry_lines log_line_from_str is_whitespace).

(** The chunk of these lines. *)
Record encodes (identity : ChunkIdentity) (ls : list LogLine) (enc : EncodedChunk) : Prop := {
  en_written : exists with_bloom, encode_segments identity [ls] with_bloom = Ok enc;
  en_size : blen (ec_bytes enc) < 2 ^ 31;
  en_ok : Forall line_ok ls;
  en_fits : Forall line_fits ls
}.

(** A row that says where the footer of a chunk is. *)
Record describes (meta : ChunkMeta) (enc : EncodedChunk) : Prop := {
  de_labels : cm_labels meta = cf_labels (ec_footer enc);
  de_version : cm_format_version meta = 2;
  de_offset : cm_footer_offset meta = Some (footer_offset (ec_trailer enc));
  de_len : cm_footer_len meta = Some (wrap 32 (footer_len (ec_trailer enc)))
}.

Lemma encodes_pushes identity ls enc :
  encodes identity ls enc -> exists with_bloom e, result_fold encoder_push ls (encoder_new identity) = Ok e /\
    finish order e with_bloom = Ok enc.
Proof.
  intros [(wb & Hw) _ _ _]. unfold ChunkWriter.encode_segments in Hw. apply result_bind_Ok in Hw as (e & He & Hf).
  exists wb, e. split; [|done]. by rewrite join_singleton in He || (cbn in He; rewrite app_nil_r in He).
Qed.

(** Where the parts of the object are. *)
Lemma encodes_layout identity ls enc :
  encodes identity ls enc -> exists bs body rest fb,
    ls = mjoin bs /\ Forall encodable ls /\ sealed bs (cf_blocks (ec_footer enc)) body /\
    ec_bytes enc = (body ++ rest) ++ fb /\ blen (body ++ rest) = footer_offset (ec_trailer enc) /\
    blen fb = footer_len (ec_trailer enc) /\ t_version (ec_trailer enc) = 2 /\
    (exists pre, fb = pre ++ encode_trailer (ec_trailer enc)) /\ trailer_fits (ec_trailer enc) /\
    decode_trailer fb = Ok (ec_trailer enc) /\ decode_footer fb (ec_trailer enc) = Ok (ec_footer enc).
Proof.
  intros Henc. destruct (encodes_pushes _ _ _ Henc) as (wb & e & Hpush & Hfin). destruct Henc as [_ Hsize Hok Hfit].
  destruct (pushes_encoder_holds identity ls e Hpush Hfit) as (bs & cur & Heh).
  destruct (finish_layout order e wb enc order_all Hfin ltac:(lia))
    as (e' & lb & ib & bb & Hseal & Hbytes & Hblocks & _ & _ & Hfo & Hfl & Htf & Hdf).
  destruct (seal_holds _ _ _ _ _ Heh Hseal) as (bs' & [Hls Hs _ _ Hencd _ _ _ _]). rewrite app_nil_r in Hls.
  assert (t_version (ec_trailer enc) = 2) as Hv.
  { clear -Hfin. unfold finish in Hfin. repeat (apply result_bind_Ok in Hfin as (? & _ & Hfin) || destruct (_ =? 0); try done).
    destruct (2 ^ 32 <=? _); [done|]. by apply Ok_inj in Hfin as <-. }
  exists bs', (ce_body e'). eexists. exists (footer_bytes lb ib bb (ec_trailer enc)). split_and!; [done|done|by rewrite Hblocks|exact Hbytes|..].
  - rewrite !blen_app, !blen_to_le_bytes, Hfo. lia.
  - by rewrite Hfl.
  - done.
  - exists (lb ++ ib ++ bb). unfold footer_bytes. by rewrite <- !app_assoc.
  - done.
  - replace (footer_bytes lb ib bb (ec_trailer enc)) with ((lb ++ ib ++ bb) ++ encode_trailer (ec_trailer enc))
      by (unfold footer_bytes; by rewrite <- !app_assoc). by rewrite decode_trailer_encode.
  - done.
Qed.

(** ** Decoding the body *)

Lemma decode_blocks_app body ms ms' :
  decode_blocks body (ms ++ ms') =
  (let? a := decode_blocks body ms in let? b := decode_blocks body ms' in Ok (a ++ b)).
Proof.
  induction ms as [|m ms IH]; cbn [app decode_blocks].
  { cbn. by destruct (decode_blocks body ms'). }
  destruct (slice body _ _) as [s|]; cbn [ok_or result_bind]; [|done]. destruct (decode_block s m no_filter) as [ls|e]; [|done].
  rewrite IH. destruct (decode_blocks body ms) as [a|]; cbn [result_bind]; [|done].
  destruct (decode_blocks body ms') as [b|]; cbn [result_bind]; [|done]. by rewrite app_assoc.
Qed.

Lemma decode_blocks_sealed bs ms body :
  sealed bs ms body -> Forall line_ok (mjoin bs) -> Forall encodable (mjoin bs) ->
  forall rest, blen (body ++ rest) < 2 ^ 32 -> decode_blocks (body ++ rest) ms = Ok (chunk_lines (mjoin bs)).
Proof.
  induction 1 as [|bs ms body ls meta c Hs IH Hne [Hfit Hn] Hz Hm]; intros Hok Henc rest Hlen; [done|].
  rewrite join_app in *. cbn [mjoin list_join] in *. rewrite app_nil_r in *.
  apply Forall_app in Hok as [Hok Hok']. apply Forall_app in Henc as [Henc Henc'].
  rewrite decode_blocks_app, <- app_assoc, (IH Hok Henc (c ++ rest)) by by rewrite app_assoc. cbn [result_bind decode_blocks].
  rewrite !blen_app in Hlen. pose proof (blen_nonneg body). pose proof (blen_nonneg c). pose proof (blen_nonneg rest).
  rewrite (mo_offset _ _ _ _ _ Hm), (mo_len _ _ _ _ _ Hm), !wrap_id by (unfold fits; lia).
  rewrite slice_app. cbn [ok_or result_bind]. unfold decode_block. rewrite (zstd_roundtrip _ _ _ Hz), decode_body_of by done.
  cbn [result_bind]. rewrite (mo_first _ _ _ _ _ Hm), expected_lines_shift, Nat.add_0_r, app_nil_r. unfold chunk_lines.
  by rewrite expected_lines_app.
Qed.

(** ** Reading through a row *)

Lemma read_range_at objects key pre mid post a b :
  objects !! key = Some (pre ++ mid ++ post) -> a = blen pre -> b = a + blen mid ->
  read_chunk_range objects key a b = Ok mid.
Proof.
  intros Ho -> ->. unfold read_chunk_range, read_chunk. rewrite Ho. pose proof (blen_nonneg mid).
  destruct (Z.leb_spec (blen pre + blen mid) (blen pre)).
  - destruct mid; [done|]. rewrite blen_cons in *. pose proof (blen_nonneg mid). lia.
  - cbn [ok_or result_bind]. f_equal. unfold blen in *. replace (Z.to_nat (_ - _)) with (length mid) by lia.
    rewrite Nat2Z.id, drop_app_length. by rewrite take_app_length.
Qed.

Lemma swrap_small n v : 0 <= v < 2 ^ 31 -> (32 <= n)%Z -> Z.max 0 (swrap n v) = v.
Proof.
  intros Hv Hn. assert (2 ^ 31 <= 2 ^ (n - 1)) by (apply Z.pow_le_mono_r; lia). rewrite swrap_id; unfold sfits; lia.
Qed.

Lemma read_located identity ls enc meta seq :
  encodes identity ls enc -> describes meta enc ->
  let m := meta_manifest seq meta in
  mf_format_version m = 2 /\ mf_footer_offset m = Some (footer_offset (ec_trailer enc)) /\
  mf_footer_len m = Some (footer_len (ec_trailer enc)).
Proof.
  intros Henc [_ Hv Ho Hl]. destruct (encodes_layout _ _ _ Henc) as (bs & body & rest & fb & _ & _ & _ & Hb & Hoff & Hlen & _).
  pose proof (en_size _ _ _ Henc) as Hsize. rewrite Hb, blen_app in Hsize.
  pose proof (blen_nonneg (body ++ rest)). pose proof (blen_nonneg fb).
  cbn. rewrite Hv, Ho, Hl. cbn. rewrite (wrap_id 32) by (unfold fits; lia).
  rewrite (swrap_small 64), (swrap_small 32) by lia. done.
Qed.

Lemma read_entry identity ls enc meta seq objects :
  encodes identity ls enc -> describes meta enc -> objects !! cm_storage_key meta = Some (ec_bytes enc) ->
  look objects (read_all_lines (meta_manifest seq meta)) = Some (Ok (chunk_lines ls)).
Proof.
  intros Henc Hd Ho. destruct (read_located _ _ _ _ seq Henc Hd) as (Hv & Hoff & Hlen).
  destruct (encodes_layout _ _ _ Henc) as (bs & body & rest & fb & -> & Hencd & Hs & Hb & Hbody & Hfb & _ & _ & _ & Ht & Hf).
  unfold Compactor.read_all_lines. rewrite Hv, Hoff, Hlen. change (2 <? 2) with false. cbn [look prog_bind prog_try call].
  change (mf_storage_key _) with (cm_storage_key meta).
  rewrite (read_range_at _ _ (body ++ rest) fb [] _ _); [|by rewrite app_nil_r, <- Hb|done|lia].
  rewrite Ht. cbn [broken lift prog_bind prog_try]. rewrite Hf. cbn [broken lift prog_bind look prog_try].
  rewrite (read_range_at _ _ [] (body ++ rest) fb); [|by rewrite Ho, Hb|done|rewrite <- Hbody; lia]. cbn [prog_bind look].
  rewrite (decode_blocks_sealed bs _ body Hs); [done|apply Henc|done|].
  pose proof (en_size _ _ _ Henc) as Hsize. rewrite Hb, blen_app in Hsize. pose proof (blen_nonneg fb). lia.
Qed.

Lemma unplaced_decoded i l : unplaced (decoded i l) = decoded 0 l.
Proof. done. Qed.

Lemma unplaced_chunk_lines ls : map unplaced (chunk_lines ls) = map (decoded 0) ls.
Proof.
  unfold chunk_lines. generalize 0%nat. induction ls as [|l ls IH]; intros i; [done|]. cbn. by rewrite IH.
Qed.

Lemma entry_lines_encodes identity ls enc meta :
  encodes identity ls enc -> describes meta enc ->
  entry_lines meta (ec_bytes enc) = map (fun l => (cl_container_id (cm_labels meta), decoded 0 l)) ls.
Proof.
  intros Henc Hd. unfold Compactor.entry_lines. rewrite (read_entry _ _ _ _ _ _ Henc Hd) by apply lookup_singleton_eq.
  rewrite <- (map_map unplaced (fun l => (_, l))), unplaced_chunk_lines. by rewrite map_map.
Qed.

(** ** The labels of a chunk *)

Lemma seal_keeps e e' :
  seal_current_block e = Ok e' -> ce_identity e' = ce_identity e /\ ce_min_ts e' = ce_min_ts e /\ ce_max_ts e' = ce_max_ts e.
Proof.
  unfold seal_current_block. destruct (is_empty _); [by intros [= ->]|]. destruct (zstd_encode_all _ _); [|done]. by intros [= <-].
Qed.

Lemma push_keeps e l e' :
  encoder_push e l = Ok e' ->
  ce_identity e' = ce_identity e /\ ce_min_ts e' = min_with (ce_min_ts e) (ll_ts l) /\ ce_max_ts e' = max_with (ce_max_ts e) (ll_ts l).
Proof.
  unfold encoder_push. intros (b & _ & Hp)%result_bind_Ok. destruct (_ <=? _); [|by apply Ok_inj in Hp as <-].
  apply seal_keeps in Hp. by destruct Hp as (-> & -> & ->).
Qed.

Lemma pushes_keep ls e e' :
  result_fold encoder_push ls e = Ok e' ->
  ce_identity e' = ce_identity e /\ ce_min_ts e' = fold_left min_with (map ll_ts ls) (ce_min_ts e) /\
  ce_max_ts e' = fold_left max_with (map ll_ts ls) (ce_max_ts e).
Proof.
  revert e. induction ls as [|l ls IH]; intros e; cbn [result_fold map fold_left]; [by intros [= ->]|].
  intros (e1 & (Hi & Hmin & Hmax)%push_keeps & Hf)%result_bind_Ok. apply IH in Hf as (-> & -> & ->). by rewrite Hi, Hmin, Hmax.
Qed.

Lemma max_bound ts m t :
  fold_left max_with ts m = Some t -> (forall x, x ∈ ts -> dt_leb x t = true) /\ (forall x, m = Some x -> dt_leb x t = true).
Proof.
  revert m. induction ts as [|a ts IH]; intros m; cbn [fold_left].
  { intros ->. split; [by intros x ?%elem_of_nil|]. intros x [= <-]. apply dt_le_refl. }
  intros (Hts & Hm)%IH. destruct (max_with_spec m a) as (t' & Ht' & Ha & Hm'). split.
  - intros x [->|Hx]%elem_of_cons; [|by apply Hts]. eapply dt_le_trans; [exact Ha|by apply Hm].
  - intros x ->. eapply dt_le_trans; [by apply Hm'|by apply Hm].
Qed.

(** Who the lines belong to, and when the last and the first were written. *)
Lemma encodes_labels identity ls enc :
  encodes identity ls enc ->
  labels_identity (cf_labels (ec_footer enc)) = identity /\
  fold_left min_with (map ll_ts ls) None = Some (cl_started_at (cf_labels (ec_footer enc))) /\
  (forall l, l ∈ ls -> dt_leb (ll_ts l) (cl_ended_at (cf_labels (ec_footer enc))) = true).
Proof.
  intros (wb & e & Hp & Hf)%encodes_pushes. apply pushes_keep in Hp as (Hi & Hmin & Hmax). cbn [encoder_new ce_identity ce_min_ts ce_max_ts] in *.
  unfold finish in Hf. apply result_bind_Ok in Hf as (e1 & (Hi1 & Hmin1 & Hmax1)%seal_keeps & Hf). destruct (_ =? 0); [done|].
  apply result_bind_Ok in Hf as (s & Hs%ok_or_Ok & Hf). apply result_bind_Ok in Hf as (t & Ht%ok_or_Ok & Hf).
  apply result_bind_Ok in Hf as (lb & _ & Hf). apply result_bind_Ok in Hf as (ib & _ & Hf). apply result_bind_Ok in Hf as (bl & _ & Hf).
  destruct (2 ^ 32 <=? _); [done|]. apply Ok_inj in Hf as <-. cbn. rewrite Hi1, Hi. split_and!; [by destruct identity|congruence|].
  intros l Hl. rewrite Hmax1, Hmax in Ht. apply max_bound in Ht as [Ht _]. apply Ht. apply list_elem_of_fmap. eauto.
Qed.

(** ** Merging keeps what a line says *)

Lemma identity_line_ok i k l : line_ok l -> line_ok (identity_line i (decoded k l)).
Proof. intros [Hm Ht Hf]. by split. Qed.
Lemma identity_line_fits i k l : line_fits l -> line_fits (identity_line i (decoded k l)).
Proof. done. Qed.
Lemma decoded_identity_line i l : decoded 0 (identity_line i l) = unplaced l.
Proof. by destruct l. Qed.

Lemma encoded_lines_good (P : LogLine -> Prop) i ls :
  (forall k l, P l -> P (identity_line i (decoded k l))) -> Forall P ls -> Forall P (map (identity_line i) (chunk_lines ls)).
Proof.
  intros Hi. unfold chunk_lines. generalize 0%nat. induction ls as [|l ls IH]; intros n Hf; [constructor|].
  inv Hf. cbn. constructor; [by apply Hi|by apply IH].
Qed.

(** ** What [adopt] finds *)

Lemma adopt_finds identity ls enc :
  encodes identity ls enc ->
  (blen (ec_bytes enc) <? TRAILER_LEN) = false /\
  decode_trailer (drop (Z.to_nat (blen (ec_bytes enc) - TRAILER_LEN)) (ec_bytes enc)) = Ok (ec_trailer enc) /\
  exists section, slice (ec_bytes enc) (footer_offset (ec_trailer enc)) (footer_offset (ec_trailer enc) + footer_len (ec_trailer enc)) = Some section /\
    decode_footer section (ec_trailer enc) = Ok (ec_footer enc).
Proof.
  intros Henc. destruct (encodes_layout _ _ _ Henc) as (bs & body & rest & fb & _ & _ & _ & Hb & Hoff & Hlen & _ & [pre Hpre] & Hfit & Ht & Hf).
  pose proof (blen_encode_trailer (ec_trailer enc)) as Htl. unfold TRAILER_LEN in *. split_and!.
  - apply Z.ltb_ge. rewrite Hb, Hpre, !blen_app. pose proof (blen_nonneg (body ++ rest)). rewrite blen_app in *. pose proof (blen_nonneg pre). lia.
  - rewrite Hb, Hpre, app_assoc. set (a := (body ++ rest) ++ pre).
    replace (Z.to_nat _) with (length a). 2:{ rewrite blen_app, Htl. unfold blen. lia. }
    rewrite drop_app_length. apply (decode_trailer_encode []). done.
  - exists fb. split; [|done]. replace (ec_bytes enc) with ((body ++ rest) ++ fb ++ []) by by rewrite app_nil_r. apply slice_at; lia.
Qed.

Lemma adopted_describes key total enc :
  t_version (ec_trailer enc) = 2 -> describes (adopted_meta key total (ec_trailer enc) (ec_footer enc)) enc.
Proof. intros Hv. by split. Qed.

Lemma built_describes key size enc : describes (build_chunk_meta enc key size) enc.
Proof. by split. Qed.
End Read.

(** ** Accesses *)

Section Accesses.
Context `{Chrono} `{Json} `{!Durations}.

Lemma served_cases {A} c w (y : answer A) w1 x w' :
  served c w (y, w1) = Some (x, w') -> (w' = w \/ w' = w1) /\ forall a, x = Ok a -> w' = w1 /\ y = Ok a.
Proof.
  unfold served. destruct (ch_fault c) as [|[]]; intros [= <- <-]; cbn; (split; [by auto|]); by intros ? [=].
Qed.

Lemma perform_epoch ag c w a x w' : perform ag c w a = Some (x, w') -> ag_epoch ag = w_epoch w.
Proof. unfold perform. destruct (Nat.eqb_spec (ag_epoch ag) (w_epoch w)); [done|]. by cbn. Qed.

Lemma perform_act ag c w a x w' :
  perform ag c w a = Some (x, w') -> ag_epoch ag = w_epoch w /\ perform {| ag_epoch := w_epoch w; ag_service := ag_service ag |} c w a = Some (x, w').
Proof. intros Hp. pose proof (perform_epoch _ _ _ _ _ _ Hp) as He. split; [done|]. rewrite <- He. by destruct ag. Qed.

End Accesses.

(** What an access of a running task does. *)
Ltac unserve Hp :=
  apply perform_act in Hp as [_ Hp]; unfold perform in Hp; cbn [ag_epoch ag_service] in Hp; rewrite Nat.eqb_refl in Hp; cbn [negb] in Hp.
