(* ===== verification/CompactorSafety.v ===== *)
(** * No line is lost by compaction

    The invariant behind [services/compactor.rs] and [services/retention.rs]
    ([crates/temps-log-aggregator]): every row leads to the object it was inserted for, and every line
    of every chunk that was ever filed, if no retention cutoff has passed it, is in a live chunk.  Each
    effect of the services on bucket and manifest keeps it, unless it is one of the hazards of
    [Compactor]. *)

From S2P Require Import Prelude Bytes Utf8 ChunkBlock Bloom ChunkFile ChunkScan Wal WalDisk HeadBuffer ChunkWriter WriterStore Prog Compactor CompactorRead.
From stdpp Require Import sorting.
Local Open Scope Z_scope.

Section Safety.
Context `{ChronoLaws} `{ZstdLaws} `{JsonLaws} `{!FooterJson} `{!FooterJsonLaws _} `{Crc32} `{Xxh3} `{Unicode} `{!Durations}.
Context (order : BloomBuilder -> list Z) (date_hour : DateTime -> string)
  (content_hash : option (string * Z * Z) -> list Z -> string) `{!HashLaws content_hash}
  (log_line_from_str : list Z -> option LogLine) (is_whitespace : Z -> bool).
Hypothesis order_all : forall es e, e ∈ order es <-> e ∈ es.
(** No retention cutoff is later than this. *)
Context (cutoff : DateTime).

#[local] Abbreviation encodes := (encodes order).
#[local] Abbreviation storage_key := (storage_key date_hour content_hash).
#[local] Abbreviation entry_lines := (entry_lines log_line_from_str is_whitespace).
#[local] Abbreviation row_lines := (row_lines log_line_from_str is_whitespace).
#[local] Abbreviation visible_lines := (visible_lines log_line_from_str is_whitespace).

(** ** The state *)

Definition unexpired (x : string * DecodedLine) : Prop := dt_leb cutoff (dl_ts x.2) = true.

(** A key of the chunk writer names one content. *)
Definition compatible (key : string) (bytes : list Z) : Prop := forall rid enc, key = storage_key rid enc -> ec_bytes enc = bytes.

Definition good_object (key : string) (bytes : list Z) : Prop :=
  compatible key bytes /\ exists identity ls enc, encodes identity ls enc /\ bytes = ec_bytes enc.

Definition entry_ok (objects : gmap string (list Z)) (e : ChunkMeta * list Z) : Prop :=
  compatible (cm_storage_key e.1) e.2 /\
  (exists identity ls enc, encodes identity ls enc /\ e.2 = ec_bytes enc /\ describes e.1 enc) /\
  forall b, objects !! cm_storage_key e.1 = Some b -> b = e.2.

(** The rows without their index mark. *)
Definition table (w : World) : list ChunkRow := map index_row (w_rows w).

Definition seen (w : World) (x : string * DecodedLine) : Prop :=
  exists r, r ∈ table w /\ live r = true /\ x ∈ row_lines (w_objects w) r.

Record good (w : World) : Prop := {
  g_object k b : w_objects w !! k = Some b -> good_object k b;
  g_entry e : e ∈ w_filed w -> entry_ok (w_objects w) e;
  g_row r : r ∈ table w -> cr_id r < w_next_id w /\
    exists bytes, (cr_meta r, bytes) ∈ w_filed w /\ (live r = true -> w_objects w !! row_key r = Some bytes);
  g_ids : NoDup (map cr_id (table w));
  g_keys : NoDup (map row_key (table w));
  g_kept e x : e ∈ w_filed w -> x ∈ entry_lines e.1 e.2 -> unexpired x -> seen w x
}.

Lemma seen_visible w x : seen w x <-> x ∈ visible_lines w.
Proof.
  unfold seen, table, Compactor.visible_lines. rewrite list_elem_of_join. split.
  - intros (r & (r0 & -> & Hr)%list_elem_of_fmap & Hl & Hx). exists (row_lines (w_objects w) r0). split; [exact Hx|].
    apply list_elem_of_fmap. exists r0. split; [done|]. apply list_elem_of_In, filter_In. split; [by apply list_elem_of_In|done].
  - intros (l & Hx & (r & -> & Hr)%list_elem_of_fmap). apply list_elem_of_In, filter_In in Hr as [Hr Hl].
    exists (index_row r). split_and!; [|done|done]. apply list_elem_of_fmap. exists r. split; [done|by apply list_elem_of_In].
Qed.

(** A line is not newer than its row says. *)
Lemma entry_line_bound objects e x :
  entry_ok objects e -> x ∈ entry_lines e.1 e.2 -> dt_leb (dl_ts x.2) (cl_ended_at (cm_labels e.1)) = true.
Proof.
  intros (_ & (identity & ls & enc & Henc & -> & Hd) & _). rewrite (entry_lines_encodes order _ _ order_all _ _ _ _ Henc Hd).
  intros (l & -> & Hl)%list_elem_of_fmap. cbn. rewrite (de_labels _ _ Hd). by apply (encodes_labels _ _ _ _ Henc).
Qed.

(** A live row leads to the lines it was filed with. *)
Lemma row_lines_filed w r bytes :
  good w -> r ∈ table w -> live r = true -> (cr_meta r, bytes) ∈ w_filed w -> row_lines (w_objects w) r = entry_lines (cr_meta r) bytes.
Proof.
  intros Hg Hr Hl He. destruct (g_row _ Hg r Hr) as (_ & b & _ & Hb). specialize (Hb Hl). unfold Compactor.row_lines. rewrite Hb.
  destruct (g_entry _ Hg _ He) as (_ & _ & Hsame). by rewrite (Hsame b Hb).
Qed.

Lemma live_line_bound w r x :
  good w -> r ∈ table w -> live r = true -> x ∈ row_lines (w_objects w) r -> dt_leb (dl_ts x.2) (cl_ended_at (row_labels r)) = true.
Proof.
  intros Hg Hr Hl. destruct (g_row _ Hg r Hr) as (_ & b & He & _). rewrite (row_lines_filed w r b Hg Hr Hl He). intros Hx.
  exact (entry_line_bound _ _ _ (g_entry _ Hg _ He) Hx).
Qed.

(** ** How the state may change *)

(** Rows age: they are tombstoned or removed, the objects of live ones stay, and new ones have new
    numbers. *)
Record ages (w w' : World) : Prop := {
  ag_next : w_next_id w <= w_next_id w';
  ag_row r' : r' ∈ table w' ->
    (exists r, r ∈ table w /\ cr_id r = cr_id r' /\ cr_meta r = cr_meta r' /\ (live r' = true -> live r = true)) \/
    w_next_id w <= cr_id r'
}.

#[export] Instance ages_refl : Reflexive ages.
Proof. intros w. split; [lia|]. intros r Hr. left. by exists r. Qed.

Lemma ages_rows w w' : w_next_id w' = w_next_id w -> table w' = table w -> ages w w'.
Proof. intros Hn Ht. split; [lia|]. rewrite Ht. intros r Hr. left. by exists r. Qed.

(** Nothing that matters changes. *)
Lemma good_same w w' :
  w_objects w' = w_objects w -> w_filed w' = w_filed w -> w_next_id w' = w_next_id w -> table w' ≡ₚ table w -> good w -> good w'.
Proof.
  intros Eo Ef En Et [Ho He Hr Hi Hk Hkept]. split; rewrite ?Eo, ?Ef, ?En; try done.
  - intros r. rewrite Et. apply Hr.
  - by rewrite Et.
  - by rewrite Et.
  - intros e x Hin Hx Hu. destruct (Hkept e x Hin Hx Hu) as (r & Hr' & Hl & Hx'). exists r. rewrite Et, Eo. done.
Qed.

(** Rows are tombstoned whose unexpired lines are in other live rows. *)
Lemma table_mark_deleted ids w :
  table (mark_deleted ids w).2 = map (fun r => if mem (cr_id r) ids && live r then tombstone_row (w_now w) r else r) (table w).
Proof.
  unfold table, mark_deleted. cbn [snd w_rows set_rows]. rewrite !map_map. apply map_ext. intros r.
  change (live (index_row r)) with (live r). change (cr_id (index_row r)) with (cr_id r). by destruct (mem (cr_id r) ids && live r).
Qed.

Lemma marked_row ids w r' :
  r' ∈ table (mark_deleted ids w).2 ->
  exists r, r ∈ table w /\ cr_id r' = cr_id r /\ cr_meta r' = cr_meta r /\
    (live r' = true -> r' = r /\ cr_id r ∉ ids) /\
    ((cr_deleted_at r' = cr_deleted_at r) \/ (cr_deleted_at r' = Some (w_now w) /\ live r = true)).
Proof.
  rewrite table_mark_deleted. intros (r & -> & Hr)%list_elem_of_fmap. exists r. unfold mem.
  case_bool_decide as Hin; cbn [andb]; [|by eauto 10]. destruct (live r) eqn:Hl; [|split_and!; try done; [congruence|by left]].
  split_and!; try done. by right.
Qed.

Lemma unmarked_row ids w r :
  r ∈ table w -> cr_id r ∉ ids -> r ∈ table (mark_deleted ids w).2.
Proof.
  intros Hr Hid. rewrite table_mark_deleted. apply list_elem_of_fmap. exists r. unfold mem. rewrite bool_decide_eq_false_2 by done. done.
Qed.

Lemma ages_mark_deleted ids w : ages w (mark_deleted ids w).2.
Proof.
  split; [done|]. intros r' (r & Hr & Hid & Hm & Hl & _)%marked_row. left. exists r. split_and!; [done|done|done|].
  intros Hlive. by destruct (Hl Hlive) as [-> _].
Qed.

Lemma good_mark_deleted (ids : list Z) w :
  good w ->
  (forall r x, r ∈ table w -> cr_id r ∈ ids -> live r = true -> x ∈ row_lines (w_objects w) r -> unexpired x ->
     exists r2, r2 ∈ table w /\ (cr_id r2 ∉ ids) /\ live r2 = true /\ x ∈ row_lines (w_objects w) r2) ->
  good (mark_deleted ids w).2.
Proof.
  intros [Ho He Hr Hi Hk Hkept] Hback. split; [exact Ho|exact He| | | |].
  - intros r' (r & Hin & Hid & Hm & Hl & _)%marked_row. destruct (Hr r Hin) as (Hlt & b & Hb & Hob). rewrite Hid, Hm. split; [done|].
    exists b. split; [done|]. intros Hlive. destruct (Hl Hlive) as [-> _]. by apply Hob.
  - rewrite table_mark_deleted, map_map. erewrite map_ext; [exact Hi|]. intros r. by destruct (_ && _).
  - rewrite table_mark_deleted, map_map. erewrite map_ext; [exact Hk|]. intros r. by destruct (_ && _).
  - intros e x Hin Hx Hu. destruct (Hkept e x Hin Hx Hu) as (r & Hrt & Hl & Hxr).
    destruct (decide (cr_id r ∈ ids)) as [Hids|Hids].
    + destruct (Hback r x Hrt Hids Hl Hxr Hu) as (r2 & Hr2 & Hn2 & Hl2 & Hx2). exists r2. split_and!; [by apply unmarked_row|done|done].
    + exists r. split_and!; [by apply unmarked_row|done|done].
Qed.

(** Retention only tombstones what has expired. *)
Lemma expired_back (ids : list Z) w :
  good w -> (forall r, r ∈ table w -> cr_id r ∈ ids -> live r = true -> dt_ltb (cl_ended_at (row_labels r)) cutoff = true) ->
  forall r x, r ∈ table w -> cr_id r ∈ ids -> live r = true -> x ∈ row_lines (w_objects w) r -> ~ unexpired x.
Proof.
  intros Hg Hexp r x Hr Hids Hl Hx Hu. pose proof (live_line_bound w r x Hg Hr Hl Hx) as Hle. specialize (Hexp r Hr Hids Hl).
  unfold dt_ltb in Hexp. rewrite negb_true_iff in Hexp. by rewrite (dt_le_trans _ _ _ Hu Hle) in Hexp.
Qed.

(** The live rows stay as they are, with their objects. *)
Definition spares (w w' : World) : Prop :=
  forall r, r ∈ table w -> live r = true -> r ∈ table w' /\ w_objects w' !! row_key r = w_objects w !! row_key r.

Lemma spares_lines w w' r : spares w w' -> r ∈ table w -> live r = true -> row_lines (w_objects w') r = row_lines (w_objects w) r.
Proof. intros Hm Hr Hl. unfold Compactor.row_lines. by rewrite (proj2 (Hm r Hr Hl)). Qed.

Lemma seen_mono w w' x : spares w w' -> seen w x -> seen w' x.
Proof.
  intros Hm (r & Hr & Hl & Hx). exists r. split_and!; [by apply Hm|done|]. by rewrite (spares_lines w w').
Qed.

(** Two rows do not share a key. *)
Lemma row_key_inj w r r' : good w -> r ∈ table w -> r' ∈ table w -> row_key r = row_key r' -> r = r'.
Proof.
  intros Hg Hr Hr' Hk. apply list_elem_of_lookup in Hr as [i Hi]. apply list_elem_of_lookup in Hr' as [j Hj].
  assert (i = j) as ->; [|congruence]. eapply (NoDup_lookup _ i j (row_key r) (g_keys _ Hg)); rewrite list_lookup_fmap.
  - by rewrite Hi.
  - by rewrite Hj, Hk.
Qed.

Lemma row_id_inj w r r' : good w -> r ∈ table w -> r' ∈ table w -> cr_id r = cr_id r' -> r = r'.
Proof.
  intros Hg Hr Hr' Hk. apply list_elem_of_lookup in Hr as [i Hi]. apply list_elem_of_lookup in Hr' as [j Hj].
  assert (i = j) as ->; [|congruence]. eapply (NoDup_lookup _ i j (cr_id r) (g_ids _ Hg)); rewrite list_lookup_fmap.
  - by rewrite Hi.
  - by rewrite Hj, Hk.
Qed.

Lemma has_row_spec key rows : has_row key rows = true <-> exists r, r ∈ rows /\ row_key r = key.
Proof.
  unfold has_row. rewrite existsb_exists. split.
  - intros (r & Hr & Hk%String.eqb_eq). exists r. split; [by apply list_elem_of_In|done].
  - intros (r & Hr & Hk). exists r. split; [by apply list_elem_of_In|by apply String.eqb_eq].
Qed.

Lemma filed_under_spec key filed : filed_under key filed = false -> forall e, e ∈ filed -> cm_storage_key e.1 <> key.
Proof.
  intros Hf e He Hk. assert (filed_under key filed = true) as Hx; [|congruence].
  unfold filed_under. apply existsb_exists. exists e. split; [by apply list_elem_of_In|by apply String.eqb_eq].
Qed.

Lemma NoDup_map_filter {A B} (f : A -> B) (p : A -> bool) l : NoDup (map f l) -> NoDup (map f (List.filter p l)).
Proof.
  induction l as [|x l IH]; [done|]. cbn [map List.filter]. intros [Hx Hl]%NoDup_cons. destruct (p x); [|by apply IH].
  cbn [map]. apply NoDup_cons. split; [|by apply IH]. intros (y & Hy & Hin)%list_elem_of_fmap. apply Hx. apply list_elem_of_fmap.
  exists y. split; [done|]. by apply list_elem_of_In, filter_In in Hin as [Hin%list_elem_of_In _].
Qed.

(** *** Rows are removed *)

Definition removed (ids : list Z) (r : ChunkRow) : bool := mem (cr_id r) ids && negb (live r).

Lemma table_hard_delete svc ids w : table (hard_delete svc ids w).2 = List.filter (fun r => negb (removed ids r)) (table w).
Proof.
  assert (w_rows (hard_delete svc ids w).2 = List.filter (fun r => negb (removed ids r)) (w_rows w)) as Hw by by destruct svc.
  unfold table. rewrite Hw. clear Hw. induction (w_rows w) as [|r rows IH]; [done|]. cbn [List.filter map].
  change (removed ids (index_row r)) with (removed ids r). destruct (removed ids r); cbn [negb map]; [done|]. by rewrite IH.
Qed.

Lemma kept_row svc ids w r : r ∈ table (hard_delete svc ids w).2 <-> r ∈ table w /\ removed ids r = false.
Proof.
  rewrite table_hard_delete, !list_elem_of_In, filter_In. by rewrite negb_true_iff.
Qed.

Lemma live_not_removed ids r : live r = true -> removed ids r = false.
Proof. intros Hl. unfold removed. rewrite Hl. by rewrite andb_false_r. Qed.

Lemma ages_hard_delete svc ids w : ages w (hard_delete svc ids w).2.
Proof.
  split; [by destruct svc|]. intros r [Hr _]%kept_row. left. by exists r.
Qed.

(** The entries that stay filed. *)
Lemma filed_hard_delete svc ids w e :
  e ∈ w_filed w -> (forall r, r ∈ table w -> removed ids r = true -> row_key r <> cm_storage_key e.1) -> e ∈ w_filed (hard_delete svc ids w).2.
Proof.
  intros He Hne. assert (forall rows, e ∈ List.filter (fun e => negb (has_row (cm_storage_key e.1) rows && ends_with (cm_storage_key e.1) "-c.zst")) (w_filed w)
    \/ has_row (cm_storage_key e.1) rows = true) as Hx.
  { intros rows. destruct (has_row (cm_storage_key e.1) rows) eqn:Hr; [by right|left]. apply list_elem_of_In, filter_In.
    rewrite Hr. split; [by apply list_elem_of_In|done]. }
  destruct svc; try exact He; cbn; edestruct Hx as [Hin|(r & Hr & Hk)%has_row_spec]; try exact Hin; exfalso;
    apply list_elem_of_In, filter_In in Hr as [Hr Hd]; apply (Hne (index_row r)); try done;
    apply list_elem_of_fmap; exists r; (split; [done|by apply list_elem_of_In]).
Qed.

Lemma filed_hard_delete_inv svc ids w e : e ∈ w_filed (hard_delete svc ids w).2 -> e ∈ w_filed w.
Proof. destruct svc; try done; cbn; intros He; by apply list_elem_of_In, filter_In in He as [He%list_elem_of_In _]. Qed.

Lemma good_hard_delete svc ids w : good w -> good (hard_delete svc ids w).2.
Proof.
  intros Hg. pose proof Hg as [Ho He Hr Hi Hk Hkept].
  assert (w_objects (hard_delete svc ids w).2 = w_objects w /\ w_next_id (hard_delete svc ids w).2 = w_next_id w) as [Eo En] by by destruct svc.
  split; rewrite ?Eo, ?En.
  - exact Ho.
  - intros e Hin. apply He. by eapply filed_hard_delete_inv.
  - intros r [Hin Hno]%kept_row. destruct (Hr r Hin) as (Hlt & b & Hb & Hob). split; [done|]. exists b. split; [|done].
    apply filed_hard_delete; [done|]. intros g Hgt Hgr Hkey. by rewrite (row_key_inj w g r Hg Hgt Hin Hkey), Hno in Hgr.
  - rewrite table_hard_delete. by apply NoDup_map_filter.
  - rewrite table_hard_delete. by apply NoDup_map_filter.
  - intros e x Hin%filed_hard_delete_inv Hx Hu. eapply seen_mono; [|by eapply Hkept]. intros r Hrt Hl. rewrite Eo. split; [|done].
    apply kept_row. split; [done|]. by apply live_not_removed.
Qed.

(** *** Objects are written and deleted *)

Lemma good_write key bytes w :
  good w -> good_object key bytes -> (forall e, e ∈ w_filed w -> cm_storage_key e.1 = key -> e.2 = bytes) ->
  good (set_objects (<[key := bytes]> (w_objects w)) w).
Proof.
  intros [Ho He Hr Hi Hk Hkept] Hgo Hsame.
  assert (forall r, r ∈ table w -> live r = true -> <[key := bytes]> (w_objects w) !! row_key r = w_objects w !! row_key r) as Hlive.
  { intros r Hrt Hl. destruct (Hr r Hrt) as (_ & b & Hb & Hob). rewrite (Hob Hl).
    destruct (decide (key = row_key r)) as [->|]; [rewrite lookup_insert_eq; f_equal; symmetry; by apply (Hsame _ Hb)|].
    by rewrite lookup_insert_ne, (Hob Hl). }
  split; cbn [w_objects w_filed w_next_id set_objects]; try done.
  - intros k b [[<- <-]|[_ Hx]]%lookup_insert_Some; [done|by apply Ho].
  - intros e Hin. destruct (He e Hin) as (Hc & Hd & Hs). split_and!; [done|done|].
    intros b [[Hkey <-]|[_ Hx]]%lookup_insert_Some; [|by apply Hs]. symmetry. by apply Hsame.
  - intros r Hrt. destruct (Hr r Hrt) as (Hlt & b & Hb & Hob). split; [done|]. exists b. split; [done|]. intros Hl.
    rewrite (Hlive r Hrt Hl). by apply Hob.
  - intros e x Hin Hx Hu. eapply (seen_mono w); [|by eapply Hkept]. intros r Hrt Hl. split; [done|by apply Hlive].
Qed.

Lemma good_delete key w :
  good w -> (forall r, r ∈ table w -> row_key r = key -> live r = false) -> good (set_objects (delete key (w_objects w)) w).
Proof.
  intros [Ho He Hr Hi Hk Hkept] Hdead.
  assert (forall r, r ∈ table w -> live r = true -> delete key (w_objects w) !! row_key r = w_objects w !! row_key r) as Hlive.
  { intros r Hrt Hl. apply lookup_delete_ne. intros ->. by rewrite (Hdead r Hrt eq_refl) in Hl. }
  split; cbn [w_objects w_filed w_next_id set_objects]; try done.
  - intros k b [_ Hx]%lookup_delete_Some. by apply Ho.
  - intros e Hin. destruct (He e Hin) as (Hc & Hd & Hs). split_and!; [done|done|]. intros b [_ Hx]%lookup_delete_Some. by apply Hs.
  - intros r Hrt. destruct (Hr r Hrt) as (Hlt & b & Hb & Hob). split; [done|]. exists b. split; [done|]. intros Hl.
    rewrite (Hlive r Hrt Hl). by apply Hob.
  - intros e x Hin Hx Hu. eapply (seen_mono w); [|by eapply Hkept]. intros r Hrt Hl. split; [done|by apply Hlive].
Qed.

(** *** A row is inserted *)

Lemma row_under_None key w :
  good w -> row_under key (w_rows w) = None -> forall r, r ∈ table w -> row_key r <> key.
Proof.
  intros Hg Hf r Hr Hk. pose proof Hr as (r0 & -> & Hr0)%list_elem_of_fmap.
  destruct (g_row _ Hg _ Hr) as (_ & b & Hb & _). destruct (g_entry _ Hg _ Hb) as (_ & (i & ls & enc & _ & _ & Hd) & _).
  pose proof (List.find_none _ _ Hf r0 ltac:(by apply list_elem_of_In)) as Hx. cbv beta in Hx.
  pose proof (de_version _ _ Hd) as Hv. cbn in Hv.
  rewrite Hv in Hx. change (row_key r0 = key) in Hk. rewrite Hk, String.eqb_refl in Hx. done.
Qed.

Definition new_row (meta : ChunkMeta) (w : World) : ChunkRow :=
  {| cr_id := w_next_id w; cr_seq := w_next_id w; cr_meta := meta; cr_deleted_at := None; cr_indexed := true |}.

(** Either the key is taken, or the row is new. *)
Lemma insert_cases meta w :
  cm_format_version meta = 2 ->
  (exists r, row_under (cm_storage_key meta) (w_rows w) = Some r /\ insert_row meta w = ((w_next_id w, None), w)) \/
  (row_under (cm_storage_key meta) (w_rows w) = None /\ (insert_row meta w).1 = (w_next_id w, Some (w_next_id w)) /\
   let w' := (insert_row meta w).2 in
   table w' = table w ++ [new_row meta w] /\ w_objects w' = w_objects w /\ w_next_id w' = w_next_id w + 1 /\
   w_filed w' = w_filed w ++ [(meta, default [] (w_objects w !! cm_storage_key meta))] /\
   w_epoch w' = w_epoch w /\ w_started w' = w_started w /\ w_now w' = w_now w /\
   (w_hazards w' = [] -> w_hazards w = [] /\ is_Some (w_objects w !! cm_storage_key meta))).
Proof.
  intros Hv. unfold insert_row. rewrite Hv. change (2 <=? 2) with true. cbv iota.
  destruct (row_under _ _) as [r|] eqn:Hu; [left; by exists r|right]. split; [done|]. split; [done|]. cbn. split_and!; try done.
  - unfold table. cbn. by rewrite map_app.
  - intros [Hh Hm]%app_eq_nil. split; [done|]. by destruct (w_objects w !! _).
Qed.

Lemma ages_insert meta w : cm_format_version meta = 2 -> ages w (insert_row meta w).2.
Proof.
  intros Hv. destruct (insert_cases meta w Hv) as [(r & _ & ->)|(_ & _ & Ht & _ & Hn & _)]; [done|]. split; [lia|].
  intros r'. rewrite Ht. intros [Hr| ->%list_elem_of_singleton]%elem_of_app; [left; by exists r'|right; cbn; lia].
Qed.

Lemma good_insert meta identity ls enc w :
  good w -> encodes identity ls enc -> describes meta enc -> compatible (cm_storage_key meta) (ec_bytes enc) ->
  (forall b, w_objects w !! cm_storage_key meta = Some b -> b = ec_bytes enc) ->
  w_hazards (insert_row meta w).2 = [] -> good (insert_row meta w).2.
Proof.
  intros Hg Henc Hd Hc Hsame Hh.
  destruct (insert_cases meta w (de_version _ _ Hd)) as [(r & _ & ->)|(Hu & _ & Ht & Eo & En & Ef & _ & _ & _ & Hhz)]; [done|].
  destruct (Hhz Hh) as [_ [b Hb]]. rewrite Hb in Ef. cbn in Ef. pose proof (Hsame b Hb) as ->.
  pose proof (row_under_None _ _ Hg Hu) as Hfresh. destruct Hg as [Ho He Hr Hi Hk Hkept]. split; rewrite ?Eo, ?En, ?Ef, ?Ht.
  - exact Ho.
  - intros e [Hin| ->%list_elem_of_singleton]%elem_of_app; [by apply He|]. split_and!; [done|by exists identity, ls, enc|exact Hsame].
  - intros r [Hin| ->%list_elem_of_singleton]%elem_of_app.
    + destruct (Hr r Hin) as (Hlt & b & Hfb & Hob). split; [lia|]. exists b. split; [|done]. apply elem_of_app. by left.
    + cbn. split; [lia|]. exists (ec_bytes enc). split; [|done]. apply elem_of_app. right. by apply list_elem_of_singleton.
  - rewrite map_app. apply list.NoDup_app. split_and!; [done| |by apply list.NoDup_singleton].
    intros x (r & -> & Hin)%list_elem_of_fmap Heq%list_elem_of_singleton. cbn in Heq. destruct (Hr r Hin) as [Hlt _]. lia.
  - rewrite map_app. apply list.NoDup_app. split_and!; [done| |by apply list.NoDup_singleton].
    intros x (r & -> & Hin)%list_elem_of_fmap Heq%list_elem_of_singleton. by apply (Hfresh r Hin).
  - assert (forall x, seen w x -> seen (insert_row meta w).2 x) as Hmono.
    { intros x. apply seen_mono. intros r Hrt _. rewrite Ht, Eo. split; [|done]. apply elem_of_app. by left. }
    intros e x [Hin| ->%list_elem_of_singleton]%elem_of_app Hx Hu'; [apply Hmono; by eapply Hkept|].
    exists (new_row meta w). rewrite Ht, Eo. split_and!; [apply elem_of_app; right; by apply list_elem_of_singleton|done|].
    unfold Compactor.row_lines. change (row_key (new_row meta w)) with (cm_storage_key meta). by rewrite Hb.
Qed.

(** ** The part of a task *)

Inductive Stage :=
  | Idle
  | Steady (key : string) (bytes : list Z)
  | Pending (key : string) (enc : EncodedChunk) (lines : list (string * DecodedLine))
  | Holding (id : Z) (key : string) (lines : list (string * DecodedLine))
  | Retracting (id : Z) (key : string)
  | Dropping (key : string)
  | Timed (now : DateTime)
  | Collecting (keys : list string).

(** A key no chunk of the writer has. *)
Definition merged (key : string) : Prop := forall rid enc, key <> storage_key rid enc.

Definition backed (w : World) (id : Z) (x : string * DecodedLine) : Prop :=
  exists r, r ∈ table w /\ live r = true /\ cr_id r <> id /\ x ∈ row_lines (w_objects w) r.

(** What a stage relies on: an object that is being adopted does not change; a merged object waits for
    its row; a merged row covers its run, unless all of it has expired, while the run is still there;
    a merged chunk that was given up is dead, and gone; the clock does not go back; the collector's
    objects are dead for good. *)
Definition stage_ok (w : World) (st : Stage) : Prop :=
  match st with
  | Idle => True
  | Steady key bytes => good_object key bytes /\ forall b, w_objects w !! key = Some b -> b = bytes
  | Pending key enc lines =>
      merged key /\ (exists identity ls, encodes identity ls enc /\ lines = map (fun l => (ci_container_id identity, decoded 0 l)) ls) /\
      w_objects w !! key = Some (ec_bytes enc) /\ (forall e, e ∈ w_filed w -> cm_storage_key e.1 <> key) /\
      (forall x, x ∈ lines -> unexpired x -> seen w x)
  | Holding id key lines =>
      merged key /\ id < w_next_id w /\
      ((exists r, r ∈ table w /\ cr_id r = id /\ live r = true) \/ forall x, x ∈ lines -> ~ unexpired x) /\
      (forall r, r ∈ table w -> cr_id r = id -> live r = true -> row_lines (w_objects w) r = lines) /\
      (forall r, r ∈ table w -> (row_key r = key <-> cr_id r = id)) /\
      (forall x, x ∈ lines -> unexpired x -> backed w id x)
  | Retracting id key =>
      merged key /\ id < w_next_id w /\ (forall r, r ∈ table w -> (row_key r = key <-> cr_id r = id)) /\
      forall r, r ∈ table w -> cr_id r = id -> live r = false
  | Dropping key => merged key /\ forall r, r ∈ table w -> row_key r <> key
  | Timed now => dt_leb now (w_now w) = true
  | Collecting keys => forall key, key ∈ keys ->
      (exists r, r ∈ table w /\ row_key r = key) /\ forall r, r ∈ table w -> row_key r = key -> collectable (w_now w) r = true
  end.

Definition stage_service (st : Stage) : option Service :=
  match st with Idle => None | Timed _ | Collecting _ => Some Collection | _ => Some Compaction end.

(** The rows a task has listed with their objects, what it knows of other rows, its stage, and what it
    has learned from what it read. *)
Record Role := {
  ro_agent : Agent;
  ro_started : bool;
  ro_run : list (Z * ChunkMeta * list Z);
  ro_facts : list (Z * (ChunkMeta -> Prop));
  ro_stage : Stage;
  ro_known : Prop
}.

Definition run_ok (w : World) (e : Z * ChunkMeta * list Z) : Prop :=
  let '(i, meta, bytes) := e in
  i < w_next_id w /\ (meta, bytes) ∈ w_filed w /\ forall r, r ∈ table w -> cr_id r = i -> cr_meta r = meta.

Definition fact_ok (w : World) (f : Z * (ChunkMeta -> Prop)) : Prop :=
  f.1 < w_next_id w /\ forall r, r ∈ table w -> cr_id r = f.1 -> live r = true -> f.2 (cr_meta r).

(** A merged key is not one of the run. *)
Definition stage_key (st : Stage) : option string :=
  match st with Pending k _ _ | Holding _ k _ | Retracting _ k | Dropping k => Some k | _ => None end.

Record role_ok (w : World) (o : Role) : Prop := {
  rk_run : Forall (run_ok w) (ro_run o);
  rk_facts : Forall (fact_ok w) (ro_facts o);
  rk_stage : stage_ok w (ro_stage o);
  rk_started : ro_started o = true -> ag_service (ro_agent o) ∈ w_started w;
  rk_service s : stage_service (ro_stage o) = Some s -> ro_started o = true /\ ag_service (ro_agent o) = s;
  rk_runner : ro_run o <> [] -> ro_started o = true /\ ag_service (ro_agent o) = Compaction;
  rk_other i meta bytes key : (i, meta, bytes) ∈ ro_run o -> stage_key (ro_stage o) = Some key -> cm_storage_key meta <> key;
  rk_known : ro_known o
}.

Definition active (w : World) (o : Role) : bool := (ag_epoch (ro_agent o) =? w_epoch w)%nat.

Definition started_services (w : World) (roles : list Role) : list Service :=
  map (fun o => ag_service (ro_agent o)) (List.filter (fun o => active w o && ro_started o) roles).

(** A task that has not done anything yet. *)
Definition pristine (o : Role) : Prop := ro_started o = false /\ ro_run o = [] /\ ro_facts o = [] /\ ro_stage o = Idle /\ ro_known o.

Definition Inv (w : World) (roles : list Role) : Prop :=
  w_hazards w = [] ->
  good w /\ (forall o, o ∈ roles -> active w o = true -> role_ok w o) /\ NoDup (started_services w roles) /\
  (forall o, o ∈ roles -> (w_epoch w < ag_epoch (ro_agent o))%nat -> pristine o).

Lemma Inv_perm w roles roles' : roles ≡ₚ roles' -> Inv w roles -> Inv w roles'.
Proof.
  intros Hp Hi Hh. destruct (Hi Hh) as (Hg & Hr & Hn & He). split_and!; [done| | |].
  - intros o. rewrite <- Hp. apply Hr.
  - unfold started_services in *. by rewrite <- (Permutation_map _ (filter_perm _ _ _ Hp)).
  - intros o. rewrite <- Hp. apply He.
Qed.

(** ** Steps *)

Lemma backed_mono w w' id x : spares w w' -> backed w id x -> backed w' id x.
Proof.
  intros Hm (r & Hr & Hl & Hid & Hx). exists r. split_and!; [by apply Hm|done|done|]. by rewrite (spares_lines w w').
Qed.

(** A step of one task; the others must not notice. *)
Lemma step_inv w w' me me' others :
  (w_hazards w' = [] -> w_hazards w = []) -> w_epoch w' = w_epoch w -> w_started w' = w_started w ->
  ro_agent me' = ro_agent me -> ro_started me' = ro_started me -> active w me = true ->
  (w_hazards w' = [] -> good w -> role_ok w me -> good w' /\ role_ok w' me' /\
   forall o, active w o = true -> role_ok w o ->
     (ro_started o = true -> ro_started me = true -> ag_service (ro_agent o) <> ag_service (ro_agent me)) -> role_ok w' o) ->
  Inv w (me :: others) -> Inv w' (me' :: others).
Proof.
  intros Hhz Ee Es Ea Est Hact Hstep Hi Hh'. destruct (Hi (Hhz Hh')) as (Hg & Hr & Hn & He).
  destruct (Hstep Hh' Hg (Hr me ltac:(left) Hact)) as (Hg' & Hme' & Hothers).
  assert (forall o, active w' o = active w o) as Eact by (intros o; unfold active; by rewrite Ee).
  assert (active w me' = active w me) as Eme by (unfold active; by rewrite Ea). split_and!; [done| | |].
  - intros o [->|Ho]%elem_of_cons Hao; [done|]. rewrite Eact in Hao. apply Hothers; [done|apply Hr; [by right|done]|].
    intros Hso Hsm Heq. unfold started_services in Hn. cbn [List.filter] in Hn. rewrite Hact, Hsm in Hn. cbn in Hn.
    apply NoDup_cons in Hn as [Hnot _]. apply Hnot. rewrite <- Heq. apply list_elem_of_fmap. exists o. split; [done|].
    apply list_elem_of_In, filter_In. split; [by apply list_elem_of_In|]. by rewrite Hao, Hso.
  - unfold started_services in *. cbn [List.filter] in *. rewrite (List.filter_ext _ _ (fun o => f_equal (fun b => b && ro_started o) (Eact o))).
    rewrite Eact, Eme, Est. destruct (active w me && ro_started me); cbn [map] in *; by rewrite ?Ea.
  - intros o [->|Ho]%elem_of_cons; rewrite Ee; [|apply He; by right]. rewrite Ea. unfold active in Hact.
    apply Nat.eqb_eq in Hact. lia.
Qed.

Lemma run_ok_ages w w' e : ages w w' -> ((e.1.2, e.2) ∈ w_filed w -> (e.1.2, e.2) ∈ w_filed w') -> run_ok w e -> run_ok w' e.
Proof.
  intros [Hn Ha] Hf. destruct e as [[i meta] bytes]. cbn. intros (Hi & Hin & Hr). split_and!; [lia|by apply Hf|].
  intros r' [(r & Hr0 & Hid & Hm & _)|Hnew]%Ha Heq; [rewrite <- Hm; apply Hr; [done|lia]|lia].
Qed.

Lemma fact_ok_ages w w' f : ages w w' -> fact_ok w f -> fact_ok w' f.
Proof.
  intros [Hn Ha] [Hi Hf]. split; [lia|]. intros r' [(r & Hr0 & Hid & Hm & Hl)|Hnew]%Ha Heq Hlive; [|lia].
  rewrite <- Hm. apply Hf; [done|lia|by apply Hl].
Qed.

(** What another task keeps. *)
Lemma role_ok_ages w w' o :
  ages w w' -> w_started w' = w_started w ->
  (forall e, e ∈ ro_run o -> (e.1.2, e.2) ∈ w_filed w -> (e.1.2, e.2) ∈ w_filed w') -> stage_ok w' (ro_stage o) -> role_ok w o -> role_ok w' o.
Proof.
  intros Ha Es Hf Hst [Hrun Hfacts _ Hs Hsv Hrn Hother Hkn]. split; try done.
  - rewrite list.Forall_forall in *. intros e He. eapply run_ok_ages; [done|by apply Hf|by apply Hrun].
  - eapply Forall_impl; [exact Hfacts|]. intros f. by apply fact_ok_ages.
  - by rewrite Es.
Qed.

Lemma pristine_ok w o : pristine o -> role_ok w o.
Proof. intros (Hs & Hr & Hf & Hst & Hk). split; rewrite ?Hs, ?Hr, ?Hf, ?Hst; done. Qed.

(** A task that does not compact has no run, and is idle or collects. *)
Lemma not_compacting w o :
  role_ok w o -> (ro_started o = true -> ag_service (ro_agent o) <> Compaction) ->
  ro_run o = [] /\ (ro_stage o = Idle \/ (exists now, ro_stage o = Timed now) \/ exists keys, ro_stage o = Collecting keys).
Proof.
  intros [_ _ _ _ Hsv Hrn _ _] Hno. split.
  - destruct (ro_run o) eqn:Hr; [done|]. destruct Hrn as [Hs Hc]; [done|]. by destruct (Hno Hs).
  - destruct (ro_stage o) eqn:Hst; try (by left); try (right; left; by eexists); try (right; right; by eexists);
      destruct (Hsv Compaction eq_refl) as [Hs Hc]; by destruct (Hno Hs).
Qed.

Lemma collectable_later now now' r : dt_leb now now' = true -> collectable now r = true -> collectable now' r = true.
Proof.
  intros Hn. unfold collectable. destruct (cr_deleted_at r) as [d|]; [|done]. unfold dt_ltb. rewrite !negb_true_iff.
  intros Hd. destruct (dt_leb (dt_sub now' GC_GRACE) d) eqn:Hx; [|done].
  by rewrite (dt_le_trans _ _ _ (dt_sub_le _ _ GC_GRACE Hn) Hx) in Hd.
Qed.

Lemma collectable_dead now r : collectable now r = true -> live r = false.
Proof. unfold collectable, live. by destruct (cr_deleted_at r). Qed.

(** *** Nothing that matters changes *)

Lemma stage_same w w' st :
  w_objects w' = w_objects w -> w_filed w' = w_filed w -> w_next_id w' = w_next_id w -> table w' ≡ₚ table w ->
  dt_leb (w_now w) (w_now w') = true -> stage_ok w st -> stage_ok w' st.
Proof.
  intros Eo Ef En Et Hnow.
  assert (spares w w') as Hsp by (intros r Hr _; by rewrite Et, Eo).
  destruct st as [|key bytes|key enc lines|id key lines|id key|key|now|keys]; cbn; rewrite ?Eo, ?Ef, ?En; [done|done| | | | | |].
  - intros (Hm & He & Ho & Hf & Hs). split_and!; try done. intros x Hx Hu. eapply seen_mono; [done|by apply Hs].
  - intros (Hm & Hid & Hrow & Hl & Hk & Hb). split_and!; [done|done| | | |].
    + destruct Hrow as [(r & Hr & Hx)|Hx]; [left; exists r; by rewrite Et|by right].
    + intros r. rewrite Et. apply Hl.
    + intros r. rewrite Et. apply Hk.
    + intros x Hx Hu. eapply backed_mono; [done|by apply Hb].
  - intros (Hm & Hid & Hk & Hd). split_and!; [done|done|..]; intros r; rewrite Et; eauto.
  - intros (Hm & Hk). split; [done|]. intros r. rewrite Et. apply Hk.
  - intros Hn. by eapply dt_le_trans.
  - intros Hc key Hkey. destruct (Hc key Hkey) as ((r & Hr & Hx) & Hall). split; [exists r; by rewrite Et|].
    intros r'. rewrite Et. intros Hr' Hk'. eapply collectable_later; [done|by apply Hall].
Qed.

(** *** Rows are tombstoned *)

(** The collector's rows are dead already. *)
Lemma collecting_mark (ids : list Z) w keys : stage_ok w (Collecting keys) -> stage_ok (mark_deleted ids w).2 (Collecting keys).
Proof.
  intros Hc key Hkey. destruct (Hc key Hkey) as ((r & Hr & Hx) & Hall). split.
  - exists (if mem (cr_id r) ids && live r then tombstone_row (w_now w) r else r). split; [|by destruct (_ && _)].
    rewrite table_mark_deleted. apply list_elem_of_fmap. by exists r.
  - intros r' (r0 & Hr0 & Hid & Hm & _ & Hd)%marked_row Hk. unfold row_key in Hk. rewrite Hm in Hk. pose proof (Hall r0 Hr0 Hk) as Hcol.
    cbn [mark_deleted snd w_now set_rows]. unfold collectable in *. destruct Hd as [->|[_ Hl]]; [done|].
    pose proof (collectable_dead (w_now w) r0 Hcol). congruence.
Qed.

Lemma stage_mark (ids : list Z) w st :
  (forall r x, r ∈ table w -> cr_id r ∈ ids -> live r = true -> x ∈ row_lines (w_objects w) r -> ~ unexpired x) ->
  stage_ok w st -> stage_ok (mark_deleted ids w).2 st.
Proof.
  intros Hexp.
  assert (forall r x, r ∈ table w -> live r = true -> x ∈ row_lines (w_objects w) r -> unexpired x -> r ∈ table (mark_deleted ids w).2) as Hstay.
  { intros r x Hr Hl Hx Hu. apply unmarked_row; [done|]. intros Hin. by apply (Hexp r x). }
  destruct st as [|key bytes|key enc lines|id key lines|id key|key|now|keys].
  - done.
  - done.
  - intros (Hm & He & Ho & Hf & Hs). split_and!; try done. intros x Hx Hu. destruct (Hs x Hx Hu) as (r & Hr & Hl & Hxr).
    exists r. split_and!; [by eapply Hstay|done|done].
  - intros (Hm & Hid & Hrow & Hlines & Hk & Hb). split_and!; [done|done| | | |].
    + destruct Hrow as [(r & Hr & Hi & Hl)|Hx]; [|by right]. destruct (decide (cr_id r ∈ ids)) as [Hin|Hin].
      * right. intros x. rewrite <- (Hlines r Hr Hi Hl). by apply Hexp.
      * left. exists r. split_and!; [by apply unmarked_row|done|done].
    + intros r' (r & Hr & Hri & _ & Hl & _)%marked_row Hid' Hlive. destruct (Hl Hlive) as [-> _]. by apply Hlines.
    + intros r' (r & Hr & Hri & Hrm & _)%marked_row. unfold row_key. rewrite Hri, Hrm. by apply Hk.
    + intros x Hx Hu. destruct (Hb x Hx Hu) as (r & Hr & Hl & Hne & Hxr). exists r. split_and!; [by eapply Hstay|done|done|done].
  - intros (Hm & Hid & Hk & Hd). split_and!; [done|done|..].
    + intros r' (r & Hr & Hri & Hrm & _)%marked_row. unfold row_key. rewrite Hri, Hrm. by apply Hk.
    + intros r' (r & Hr & Hri & Hrm & Hl & _)%marked_row Heq. destruct (live r') eqn:Hlive; [|done].
      destruct (Hl eq_refl) as [-> _]. rewrite <- (Hd r Hr Heq). done.
  - intros (Hm & Hk). split; [done|]. intros r' (r & Hr & Hri & Hrm & _)%marked_row. unfold row_key. rewrite Hrm. by apply Hk.
  - done.
  - apply collecting_mark.
Qed.

(** *** Rows are removed *)

Lemma spares_hard_delete svc ids w : spares w (hard_delete svc ids w).2.
Proof. intros r Hr Hl. split; [apply kept_row; by rewrite live_not_removed|by destruct svc]. Qed.

Lemma stage_collected ids w st :
  (forall keys, st <> Collecting keys) -> stage_ok w st -> stage_ok (hard_delete Collection ids w).2 st.
Proof.
  intros Hst. pose proof (spares_hard_delete Collection ids w) as Hsp.
  destruct st as [|key bytes|key enc lines|id key lines|id key|key|now|keys]; [done|done|..|done|by destruct (Hst keys)].
  - intros (Hm & He & Ho & Hf & Hs). split_and!; try done. intros x Hx Hu. eapply seen_mono; [done|by apply Hs].
  - intros (Hm & Hid & Hrow & Hlines & Hk & Hb). split_and!; [done|done| | | |].
    + destruct Hrow as [(r & Hr & Hi & Hl)|Hx]; [left; exists r; split_and!; [by apply Hsp|done|done]|by right].
    + intros r [Hr _]%kept_row. by apply Hlines.
    + intros r [Hr _]%kept_row. by apply Hk.
    + intros x Hx Hu. eapply backed_mono; [done|by apply Hb].
  - intros (Hm & Hid & Hk & Hd). split_and!; [done|done|..]; intros r [Hr _]%kept_row; [by apply Hk|by apply Hd].
  - intros (Hm & Hk). split; [done|]. intros r [Hr _]%kept_row. by apply Hk.
Qed.

(** The compactor removes no row the collector may have listed, or says so. *)
Lemma collecting_hard_delete svc ids w keys :
  w_hazards (hard_delete svc ids w).2 = [] -> svc <> Collection -> stage_ok w (Collecting keys) -> stage_ok (hard_delete svc ids w).2 (Collecting keys).
Proof.
  intros Hh Hsvc Hc key Hkey. destruct (Hc key Hkey) as ((r & Hr & Hx) & Hall).
  assert (w_now (hard_delete svc ids w).2 = w_now w) as -> by by destruct svc. split.
  - exists r. split; [|done]. apply kept_row. split; [done|]. destruct (removed ids r) eqn:Hrm; [|done]. exfalso.
    pose proof (Hall r Hr Hx) as Hcol. apply list_elem_of_fmap in Hr as (r0 & -> & Hr0).
    assert (w_hazards (hard_delete svc ids w).2 = w_hazards w ++
      map (fun r => LateRemoval (row_key r)) (List.filter (collectable (w_now w)) (List.filter (removed ids) (w_rows w)))) as Hz by by destruct svc.
    rewrite Hz in Hh. apply app_eq_nil in Hh as [_ Hh]. apply map_eq_nil in Hh.
    assert (r0 ∈ List.filter (collectable (w_now w)) (List.filter (removed ids) (w_rows w))) as Hin; [|rewrite Hh in Hin; by apply elem_of_nil in Hin].
    apply list_elem_of_In, filter_In. split; [|done]. apply filter_In. split; [by apply list_elem_of_In|done].
  - intros r' [Hr' _]%kept_row. by apply Hall.
Qed.

(** *** Objects are deleted and written *)

Lemma spares_delete key w :
  (forall r, r ∈ table w -> row_key r = key -> live r = false) -> spares w (set_objects (delete key (w_objects w)) w).
Proof.
  intros Hdead r Hr Hl. split; [done|]. apply lookup_delete_ne. intros ->. by rewrite (Hdead r Hr eq_refl) in Hl.
Qed.

Lemma spares_write key bytes w :
  good w -> (forall e, e ∈ w_filed w -> cm_storage_key e.1 = key -> e.2 = bytes) -> spares w (set_objects (<[key := bytes]> (w_objects w)) w).
Proof.
  intros Hg Hsame r Hr Hl. split; [done|]. destruct (g_row _ Hg r Hr) as (_ & b & Hb & Hob). cbn. rewrite (Hob Hl).
  destruct (decide (key = row_key r)) as [->|]; [rewrite lookup_insert_eq; f_equal; symmetry; by apply (Hsame _ Hb)|].
  by rewrite lookup_insert_ne, (Hob Hl).
Qed.

(** A change of one object that leaves the live rows alone. *)
Lemma stage_object o' w st :
  spares w (set_objects o' w) ->
  (forall key bytes, st = Steady key bytes -> forall b, o' !! key = Some b -> b = bytes) ->
  (forall key enc lines, st = Pending key enc lines -> o' !! key = w_objects w !! key) ->
  stage_ok w st -> stage_ok (set_objects o' w) st.
Proof.
  intros Hsp Hsteady Hpend.
  destruct st as [|key bytes|key enc lines|id key lines|id key|key|now|keys].
  - done.
  - intros [Hg _]. split; [done|]. by apply (Hsteady key bytes).
  - intros (Hm & He & Ho & Hf & Hs). split_and!; try done; [by rewrite <- Ho; apply (Hpend key enc lines)|].
    intros x Hx Hu. eapply seen_mono; [done|by apply Hs].
  - intros (Hm & Hid & Hrow & Hlines & Hk & Hb). split_and!; [done|done|done| |done|].
    + intros r Hr Hi Hl. rewrite <- (Hlines r Hr Hi Hl). by apply (spares_lines w).
    + intros x Hx Hu. eapply backed_mono; [done|by apply Hb].
  - done.
  - done.
  - done.
  - done.
Qed.

Lemma stage_collected_object key w st :
  good w -> (exists r, r ∈ table w /\ row_key r = key) -> (forall r, r ∈ table w -> row_key r = key -> live r = false) ->
  stage_ok w st -> stage_ok (set_objects (delete key (w_objects w)) w) st.
Proof.
  intros Hg (r & Hr & Hk) Hdead Hst. apply stage_object; [by apply spares_delete| | |done].
  - intros k b -> b' [_ Hx]%lookup_delete_Some. destruct Hst as [_ Hs]. by apply Hs.
  - intros k enc lines ->. apply lookup_delete_ne. intros <-. destruct Hst as (_ & _ & _ & Hf & _).
    destruct (g_row _ Hg r Hr) as (_ & b & Hb & _). by apply (Hf _ Hb).
Qed.

Lemma stage_sealed_object rid enc w st :
  good w -> stage_ok w st -> stage_ok (set_objects (<[storage_key rid enc := ec_bytes enc]> (w_objects w)) w) st.
Proof.
  intros Hg Hst. apply stage_object; [| | |done].
  - apply spares_write; [done|]. intros e He Hk. destruct (g_entry _ Hg e He) as (Hc & _). symmetry. by apply (Hc rid).
  - intros k b -> b'. destruct Hst as [[Hc _] Hs]. intros [[<- <-]|[_ Hx]]%lookup_insert_Some; [by apply (Hc rid)|by apply Hs].
  - intros k enc' lines ->. destruct Hst as (Hm & _). apply lookup_insert_ne. intros <-. by apply (Hm rid enc).
Qed.

(** *** A row is inserted *)

Lemma spares_insert meta w : cm_format_version meta = 2 -> spares w (insert_row meta w).2.
Proof.
  intros Hv r Hr _. destruct (insert_cases meta w Hv) as [(r0 & _ & ->)|(_ & _ & Ht & Eo & _)]; [done|]. rewrite Ht, Eo. split; [|done].
  apply elem_of_app. by left.
Qed.

Lemma stage_insert meta w st :
  good w -> cm_format_version meta = 2 -> (forall key, stage_key st = Some key -> cm_storage_key meta <> key) ->
  stage_ok w st -> stage_ok (insert_row meta w).2 st.
Proof.
  intros Hg Hv Hkey Hst. pose proof (spares_insert meta w Hv) as Hsp.
  destruct (insert_cases meta w Hv) as [(r0 & _ & ->)|(Hu & _ & Ht & Eo & En & Ef & _ & _ & Enow & _)]; [done|].
  assert (forall r, r ∈ table (insert_row meta w).2 -> r ∈ table w \/ (row_key r = cm_storage_key meta /\ cr_id r = w_next_id w)) as Hin.
  { intros r. rewrite Ht. intros [Hr| ->%list_elem_of_singleton]%elem_of_app; [by left|by right]. }
  destruct st as [|key bytes|key enc lines|id key lines|id key|key|now|keys]; cbn [stage_ok stage_key] in *; rewrite ?Eo, ?En, ?Ef, ?Enow; [done|done|..].
  - destruct Hst as (Hm & He & Ho & Hf & Hs). split_and!; try done.
    + intros e [Hx| ->%list_elem_of_singleton]%elem_of_app; [by apply Hf|by apply Hkey].
    + intros x Hx Hux. eapply seen_mono; [done|by apply Hs].
  - destruct Hst as (Hm & Hid & Hrow & Hlines & Hk & Hb). split_and!; [done|lia| | | |].
    + destruct Hrow as [(r & Hr & Hi & Hl)|Hx]; [left; exists r; split_and!; [by apply Hsp|done|done]|by right].
    + intros r [Hr|[Hrk Hri]]%Hin Heq; [by apply Hlines|lia].
    + intros r [Hr|[Hrk Hri]]%Hin; [by apply Hk|]. specialize (Hkey key eq_refl). rewrite Hrk, Hri. split; [done|lia].
    + intros x Hx Hux. eapply backed_mono; [done|by apply Hb].
  - destruct Hst as (Hm & Hid & Hk & Hd). split_and!; [done|lia|..].
    + intros r [Hr|[Hrk Hri]]%Hin; [by apply Hk|]. specialize (Hkey key eq_refl). rewrite Hrk, Hri. split; [done|lia].
    + intros r [Hr|[Hrk Hri]]%Hin Heq; [by apply Hd|]. lia.
  - destruct Hst as (Hm & Hk). split; [done|]. intros r [Hr|[Hrk Hri]]%Hin; [by apply Hk|]. rewrite Hrk. by apply Hkey.
  - exact Hst.
  - intros key Hkeys. destruct (Hst key Hkeys) as ((r & Hr & Hx) & Hall). split; [exists r; rewrite Ht; split; [apply elem_of_app; by left|done]|].
    intros r' [Hr'|[Hrk Hri]]%Hin Hk'; [by apply Hall|]. exfalso. apply (row_under_None _ _ Hg Hu r Hr). congruence.
Qed.
End Safety.
