(* ===== verification/CompactorKeeps.v ===== *)
(** * The services keep the invariant

    Each program of [services/compactor.rs] and [services/retention.rs]
    ([crates/temps-log-aggregator]), access by access, and everything that happens beside them keeps
    the invariant of [CompactorSafety]. *)

From S2P Require Import Prelude Bytes Utf8 ChunkBlock Bloom ChunkFile ChunkScan Wal WalDisk HeadBuffer ChunkWriter WriterStore Prog Compactor CompactorRead CompactorSafety.
From stdpp Require Import sorting.
Local Open Scope Z_scope.

Section Keeps.
Context `{ChronoLaws} `{ZstdLaws} `{JsonLaws} `{!FooterJson} `{!FooterJsonLaws _} `{Crc32} `{Xxh3} `{Unicode} `{!Durations}.
Context (order : BloomBuilder -> list Z) (date_hour : DateTime -> string)
  (content_hash : option (string * Z * Z) -> list Z -> string) `{!HashLaws content_hash}
  (log_line_from_str : list Z -> option LogLine) (is_whitespace : Z -> bool)
  (key_order : gmap string (list Z) -> list (string * list Z)) (midnight : DateTime -> option DateTime).
Hypothesis order_all : forall es e, e ∈ order es <-> e ∈ es.
(** The hash of a chunk is longer than the suffix of a merged one. *)
Hypothesis hash_long : forall rid bytes, content_hash rid bytes <> "c"%string.
Hypothesis key_order_all : forall m, key_order m ≡ₚ map_to_list m.
Context (cutoff : DateTime).

#[local] Abbreviation encodes := (encodes order).
#[local] Abbreviation storage_key := (storage_key date_hour content_hash).
#[local] Abbreviation encode_segments := (encode_segments order).
#[local] Abbreviation entry_lines := (entry_lines log_line_from_str is_whitespace).
#[local] Abbreviation row_lines := (row_lines log_line_from_str is_whitespace).
#[local] Abbreviation read_all_lines := (read_all_lines log_line_from_str is_whitespace).
#[local] Abbreviation good := (good order date_hour content_hash log_line_from_str is_whitespace cutoff).
#[local] Abbreviation stage_ok := (stage_ok order date_hour content_hash log_line_from_str is_whitespace cutoff).
#[local] Abbreviation role_ok := (role_ok order date_hour content_hash log_line_from_str is_whitespace cutoff).
#[local] Abbreviation Inv := (Inv order date_hour content_hash log_line_from_str is_whitespace cutoff).
#[local] Abbreviation unexpired := (unexpired cutoff).
#[local] Abbreviation happen := (happen order date_hour content_hash).
#[local] Abbreviation body := (body order date_hour log_line_from_str is_whitespace key_order midnight).
#[local] Abbreviation program := (prog reply).

(** What the writer may seal: lines the format can hold, in an object the manifest can locate. *)
Definition sealable (identity : ChunkIdentity) (ls : list LogLine) (with_bloom : bool) : Prop :=
  Forall line_ok ls /\ Forall line_fits ls /\ forall enc, encode_segments identity [ls] with_bloom = Ok enc -> blen (ec_bytes enc) < 2 ^ 31.

(** The loops are started as themselves, and no cutoff is later than [cutoff]. *)
Definition allowed (ev : Event (Choice := Choice) (Agent := Agent) (Env := Env) (Call := Call)) : Prop :=
  match ev with
  | Spawn ag (CompactionLoop _ _) => ag_service ag = Compaction
  | Spawn ag (CollectionLoop _) => ag_service ag = Collection
  | Spawn _ (CleanUp _ before) => dt_leb before cutoff = true
  | Happen (SealObject _ identity ls wb) | Happen (SealRow _ identity ls wb) => sealable identity ls wb
  | Drop _ => False
  | _ => True
  end.

(** ** The environment *)

Lemma sealed_good rid identity ls wb enc :
  sealable identity ls wb -> encode_segments identity [ls] wb = Ok enc ->
  encodes identity ls enc /\ good_object order date_hour content_hash (storage_key rid enc) (ec_bytes enc).
Proof.
  intros (Hok & Hfit & Hsize) He. assert (encodes identity ls enc) as Henc by (split; [by exists wb|by apply Hsize|done|done]).
  split; [done|]. split; [|by exists identity, ls, enc]. intros rid' enc' Hk. by apply (storage_key_bytes date_hour content_hash rid' _ rid).
Qed.

(** A change no task notices. *)
Lemma disturb_inv w w' roles :
  (w_hazards w' = [] -> w_hazards w = []) -> w_epoch w' = w_epoch w -> w_started w' = w_started w ->
  (w_hazards w' = [] -> good w -> good w' /\ ages w w' /\ (forall e, e ∈ w_filed w -> e ∈ w_filed w') /\
   forall st, stage_ok w st -> stage_ok w' st) -> Inv w roles -> Inv w' roles.
Proof.
  intros Hhz Ee Es Hstep Hi Hh'. destruct (Hi (Hhz Hh')) as (Hg & Hr & Hn & He). destruct (Hstep Hh' Hg) as (Hg' & Ha & Hf & Hst).
  split_and!; [done| | |].
  - intros o Ho Hact. unfold active in Hact. rewrite Ee in Hact. specialize (Hr o Ho Hact).
    eapply role_ok_ages; [done|done|by auto|apply Hst, Hr|done].
  - unfold started_services, active in *. by rewrite Ee.
  - by rewrite Ee.
Qed.

Lemma vacuum_table ids w :
  NoDup (map cr_id (table w)) -> ids ≡ₚ map cr_id (w_rows w) ->
  omap (fun id => List.find (fun r => cr_id r =? id) (w_rows w)) ids ≡ₚ w_rows w.
Proof.
  intros Hnd Hp. rewrite Hp. unfold table in Hnd. rewrite map_map in Hnd. clear Hp. change (NoDup (map cr_id (w_rows w))) in Hnd.
  assert (forall rows, (forall r, r ∈ rows -> List.find (fun r' => cr_id r' =? cr_id r) (w_rows w) = Some r) ->
    omap (fun id => List.find (fun r => cr_id r =? id) (w_rows w)) (map cr_id rows) = rows) as Hall.
  { induction rows as [|r rows IH]; intros Hf; [done|]. cbn. rewrite (Hf r) by left. rewrite IH; [done|]. intros r' Hr'. apply Hf. by right. }
  rewrite Hall; [done|]. clear Hall. intros r. revert Hnd. generalize (w_rows w). intros rows.
  induction rows as [|r0 rows IH]; intros Hnd Hr; [by apply elem_of_nil in Hr|].
  cbn in Hnd |- *. apply NoDup_cons in Hnd as [Hnot Hnd]. destruct (Z.eqb_spec (cr_id r0) (cr_id r)) as [Heq|Hne].
  - apply elem_of_cons in Hr as [->|Hr]; [done|]. destruct Hnot. rewrite Heq. apply list_elem_of_fmap. eauto.
  - apply elem_of_cons in Hr as [->|Hr]; [done|]. by apply IH.
Qed.

Lemma happen_ok e w roles : allowed (Happen e) -> Inv w roles -> Inv (happen e w) roles.
Proof.
  intros Ha Hi. destruct e as [now| |ids|rid identity ls wb|rid identity ls wb]; cbn [allowed Compactor.happen] in *.
  - revert Hi. apply disturb_inv; try done. intros _ Hg. split_and!; [by apply (good_same order date_hour content_hash log_line_from_str is_whitespace cutoff w)| |done|].
    { by apply ages_rows. }
    intros st. apply stage_same; try done. cbn. destruct (dt_leb (w_now w) now) eqn:Hn; [done|apply dt_le_refl].
  - intros Hh. destruct (Hi Hh) as (Hg & Hr & Hn & He). split_and!.
    + by apply (good_same order date_hour content_hash log_line_from_str is_whitespace cutoff w).
    + intros o Ho Hact. apply pristine_ok, He; [done|]. unfold active in Hact. cbn in Hact. apply Nat.eqb_eq in Hact. lia.
    + unfold started_services. assert (List.filter (fun o => active (set_process (S (w_epoch w)) [] (w_now w) w) o && ro_started o) roles = []) as ->; [|constructor].
      destruct (List.filter _ roles) as [|o os] eqn:Hf; [done|]. exfalso.
      assert (o ∈ List.filter (fun o => active (set_process (S (w_epoch w)) [] (w_now w) w) o && ro_started o) roles) as Hin by (rewrite Hf; left).
      apply list_elem_of_In, filter_In in Hin as [Ho [Hact Hs]%andb_true_iff]. unfold active in Hact. cbn in Hact. apply Nat.eqb_eq in Hact.
      destruct (He o) as [Hns _]; [by apply list_elem_of_In|lia|congruence].
    + intros o Ho Hlt. cbn in Hlt. apply He; [done|lia].
  - case_bool_decide as Hp; [|done]. revert Hi. apply disturb_inv; try done. intros _ Hg.
    assert (table (set_rows (omap (fun id => List.find (fun r => cr_id r =? id) (w_rows w)) ids) w) ≡ₚ table w) as Ht.
    { unfold table at 1. cbn. apply Permutation_map. apply vacuum_table; [apply (g_ids _ _ _ _ _ _ _ Hg)|done]. }
    split_and!; [by apply (good_same order date_hour content_hash log_line_from_str is_whitespace cutoff w)| |done|].
    + split; [done|]. intros r. rewrite Ht. intros Hr. left. by exists r.
    + intros st. apply stage_same; try done. apply dt_le_refl.
  - destruct (encode_segments identity [ls] wb) as [enc|] eqn:He; [|done]. destruct (sealed_good rid _ _ _ _ Ha He) as [Henc Hgo].
    revert Hi. apply disturb_inv; try done. intros _ Hg. split_and!.
    + apply good_write; [done|done|]. intros e Hin Hk. destruct (g_entry _ _ _ _ _ _ _ Hg e Hin) as (Hc & _). symmetry. by apply (Hc rid).
    + by apply ages_rows.
    + done.
    + intros st. by apply stage_sealed_object.
  - destruct (encode_segments identity [ls] wb) as [enc|] eqn:He; [|done]. destruct (sealed_good rid _ _ _ _ Ha He) as [Henc Hgo].
    set (meta := build_chunk_meta _ _ _). pose proof (built_describes (storage_key rid enc) (blen (ec_bytes enc)) enc) as Hd. fold meta in Hd.
    set (w1 := (insert_row meta w).2).
    assert (Inv w1 roles) as Hi1.
    { revert Hi. assert (w_epoch w1 = w_epoch w /\ w_started w1 = w_started w /\ (w_hazards w1 = [] -> w_hazards w = []) /\ forall e, e ∈ w_filed w -> e ∈ w_filed w1) as (E1 & E2 & E3 & E4).
      { unfold w1. destruct (insert_cases meta w (de_version _ _ Hd)) as [(r & _ & ->)|(_ & _ & _ & _ & _ & Ef & E1 & E2 & _ & E3)]; [done|].
        split_and!; [done|done|intros Hh; by apply E3|]. intros e He1. rewrite Ef. apply elem_of_app. by left. }
      apply disturb_inv; [done|done|done|]. intros Hh Hg. split_and!.
      - eapply good_insert; [done|exact Henc|exact Hd|apply Hgo| |exact Hh]. intros b Hb.
        destruct (g_object _ _ _ _ _ _ _ Hg _ _ Hb) as [Hc _]. symmetry. by apply (Hc rid enc).
      - apply ages_insert, Hd.
      - exact E4.
      - intros st Hst. apply stage_insert; [done|apply Hd| |done]. intros key Hkey Hm.
        assert (merged date_hour content_hash key) as Hmg.
        { destruct st; try discriminate; cbn in Hkey; injection Hkey as <-; apply Hst. }
        by apply (Hmg rid enc). }
    revert Hi1. apply disturb_inv; try done. intros _ Hg. split_and!; [by apply (good_same order date_hour content_hash log_line_from_str is_whitespace cutoff w1)|by apply ages_rows|done|].
    intros st. apply stage_same; try done. apply dt_le_refl.
Qed.

(** ** Accesses that only read, or touch nothing the invariant speaks of *)

#[local] Abbreviation keeps := (keeps perform allowed Inv).

Definition calm (a : Action) : bool :=
  match a with
  | Start | WriteChunk _ _ | DeleteChunk _ | InsertRow _ | MarkDeleted _ | HardDelete _ => false
  | _ => true
  end.

Record same (w w' : World) : Prop := {
  sm_objects : w_objects w' = w_objects w; sm_filed : w_filed w' = w_filed w; sm_next : w_next_id w' = w_next_id w;
  sm_table : table w' = table w; sm_now : w_now w' = w_now w; sm_epoch : w_epoch w' = w_epoch w;
  sm_started : w_started w' = w_started w; sm_hazards : w_hazards w' = w_hazards w
}.

Lemma calm_perform ag c w a x w' : calm a = true -> perform ag c w a = Some (x, w') -> same w w'.
Proof.
  intros Ha Hp. unserve Hp.
  assert (forall w1, w1 = w -> same w w1) as Hid by (by intros ? ->).
  destruct a; try discriminate; cbn [calm] in *;
    first [ by injection Hp as _ <-; apply Hid
          | destruct (ch_index c); apply served_cases in Hp as [[->| ->] _]; by split
          | apply served_cases in Hp as [[->| ->] _]; try by split ].
  split; try done. unfold table. cbn. rewrite map_map. apply map_ext. intros r. by destruct (_ =? _).
Qed.

Lemma Inv_same w w' roles : same w w' -> Inv w roles -> Inv w' roles.
Proof.
  intros [Eo Ef En Et Enow Ee Es Eh]. apply disturb_inv; [by rewrite Eh|done|done|]. intros _ Hg. split_and!.
  - apply (good_same order date_hour content_hash log_line_from_str is_whitespace cutoff w); try done. by rewrite Et.
  - by apply ages_rows.
  - by rewrite Ef.
  - intros st. apply stage_same; try done; [by rewrite Et|]. rewrite Enow. apply dt_le_refl.
Qed.

(** The part of a task may change when it has learned something. *)
Lemma Inv_role w me me' others :
  ro_agent me' = ro_agent me -> ro_started me' = ro_started me -> active w me = true ->
  (w_hazards w = [] -> good w -> role_ok w me -> role_ok w me') -> Inv w (me :: others) -> Inv w (me' :: others).
Proof. intros Ea Es Hact Hme. apply step_inv; try done. intros Hh Hg Hok. split_and!; [done|by apply Hme|done]. Qed.

Lemma active_perform ag c w a x w' me : ro_agent me = ag -> perform ag c w a = Some (x, w') -> active w me = true.
Proof. intros <- Hp%perform_epoch. unfold active. by apply Nat.eqb_eq. Qed.

(** A calm access after which the task may know more. *)
Lemma keeps_calm_do {A} ag r a (k : reply a -> program A) Q :
  calm a = true -> ro_agent r = ag ->
  (forall c w x w', perform ag c w a = Some (x, w') -> exists r', ro_agent r' = ag /\ ro_started r' = ro_started r /\
     (w_hazards w = [] -> good w -> role_ok w r -> role_ok w r') /\ keeps ag r' (k x) Q) ->
  keeps ag r (Do a k) Q.
Proof.
  intros Ha Hr Hk. cbn. intros i c w others x w' _ Hi Hp. destruct (Hk c w x w' Hp) as (r' & Hr' & Hs & Hok & Hkeep).
  exists r'. split; [|done]. eapply Inv_same; [by eapply calm_perform|]. eapply Inv_role; [|exact Hs| |exact Hok|exact Hi].
  - congruence.
  - by eapply active_perform.
Qed.

(** A program of calm accesses. *)
Lemma keeps_calm {A} ag r (p : program A) Q :
  only calm p -> ro_agent r = ag -> (forall x, Q x r) -> keeps ag r p Q.
Proof.
  intros Hp Hr HQ. induction Hp as [x|a k Ha _ IH]; [apply HQ|].
  apply keeps_calm_do; [done|done|]. intros c w x w' _. exists r. split_and!; try done.
Qed.

Lemma keeps_calm_bind {A B} ag r (p : program A) (f : A -> program B) Q :
  only calm p -> ro_agent r = ag -> (forall x, keeps ag r (f x) Q) -> keeps ag r (prog_bind p f) Q.
Proof. intros Hp Hr Hf. apply keeps_bind. by apply keeps_calm. Qed.

(** ** Retention *)

Lemma row_in_table w r : r ∈ w_rows w -> index_row r ∈ table w.
Proof. intros Hr. apply list_elem_of_fmap. by exists r. Qed.

Lemma mark_expired ids w me others :
  (forall i, i ∈ ids -> exists f, f ∈ ro_facts me /\ f.1 = i /\ forall meta, f.2 meta -> dt_ltb (cl_ended_at (cm_labels meta)) cutoff = true) ->
  active w me = true -> Inv w (me :: others) -> Inv (mark_deleted ids w).2 (me :: others).
Proof.
  intros Hids Hact. apply step_inv; try done. intros _ Hg Hok.
  assert (forall r x, r ∈ table w -> cr_id r ∈ ids -> live r = true -> x ∈ row_lines (w_objects w) r -> ~ unexpired x) as Hexp.
  { eapply expired_back; [exact order_all|exact Hg|]. intros r Hr Hin Hl. destruct (Hids _ Hin) as (f & Hf & Hi & Himp). apply Himp.
    pose proof (rk_facts _ _ _ _ _ _ _ _ Hok) as Hfs. rewrite list.Forall_forall in Hfs. destruct (Hfs f Hf) as [_ Hx]. by apply Hx. }
  assert (forall o, role_ok w o -> role_ok (mark_deleted ids w).2 o) as Hall.
  { intros o Ho. apply (role_ok_ages _ _ _ _ _ _ w); [apply ages_mark_deleted|done|done| |done].
    apply stage_mark; [done|]. apply Ho. }
  split_and!; [|by apply Hall|by intros o _ Ho _; apply Hall]. apply good_mark_deleted; [done|]. intros r x Hr Hin Hl Hx Hu.
  by destruct (Hexp r x Hr Hin Hl Hx).
Qed.

Definition with_run (r : Role) (run : list (Z * ChunkMeta * list Z)) : Role :=
  {| ro_agent := ro_agent r; ro_started := ro_started r; ro_run := run; ro_facts := ro_facts r; ro_stage := ro_stage r; ro_known := ro_known r |}.
Definition with_facts (r : Role) (facts : list (Z * (ChunkMeta -> Prop))) : Role :=
  {| ro_agent := ro_agent r; ro_started := ro_started r; ro_run := ro_run r; ro_facts := facts; ro_stage := ro_stage r; ro_known := ro_known r |}.
Definition with_stage (r : Role) (st : Stage) : Role :=
  {| ro_agent := ro_agent r; ro_started := ro_started r; ro_run := ro_run r; ro_facts := ro_facts r; ro_stage := st; ro_known := ro_known r |}.

(** A row that was listed is known by its number. *)
Lemma listed_fact w r (P : ChunkMeta -> Prop) : good w -> r ∈ w_rows w -> P (cr_meta r) -> fact_ok w (cr_id r, P).
Proof.
  intros Hg Hr HP. destruct (g_row _ _ _ _ _ _ _ Hg _ (row_in_table w r Hr)) as [Hlt _]. split; [exact Hlt|]. cbn [fst snd].
  intros r' Hr' Hid _. assert (r' = index_row r) as ->; [|exact HP].
  eapply row_id_inj; [exact Hg|done|by apply row_in_table|done].
Qed.

Lemma role_facts w r facts : role_ok w r -> Forall (fact_ok w) facts -> role_ok w (with_facts r facts).
Proof. intros [H1' _ H3' H4' H5' H6' H7' H8'] Hf. by split. Qed.

Lemma keeps_tombstone ag r rows Q :
  ro_agent r = ag ->
  (forall i, i ∈ map cr_id rows -> exists f, f ∈ ro_facts r /\ f.1 = i /\ forall meta, f.2 meta -> dt_ltb (cl_ended_at (cm_labels meta)) cutoff = true) ->
  (forall x, Q x r) -> keeps ag r (tombstone (map row_to_manifest rows)) Q.
Proof.
  intros Hr Hf HQ. unfold tombstone. destruct (map row_to_manifest rows) as [|m ms] eqn:Hms; [apply HQ|]. rewrite <- Hms. clear Hms m ms.
  apply keeps_bind. unfold call. cbn [Prog.keeps]. intros i c w others x w' _ Hi Hp. exists r.
  assert (Inv w' (r :: others)) as Hi'.
  { pose proof (active_perform _ _ _ _ _ _ _ Hr Hp) as Hact. unserve Hp.
    assert (map li_id (map row_to_manifest rows) = map cr_id rows) as Eids by by rewrite map_map. rewrite Eids in Hp.
    pose proof (mark_expired (map cr_id rows) w r others Hf Hact Hi) as Hm.
    destruct (mark_deleted (map cr_id rows) w) as [seqs w1]. by apply served_cases in Hp as [[->| ->] _]. }
  split; [done|]. destruct x as [seqs|]; [|apply HQ]. apply keeps_calm; [|done|done]. only_steps.
Qed.

Lemma keeps_cleanup ag r p before :
  dt_leb before cutoff = true -> ro_agent r = ag -> keeps ag r (cleanup_project p before) (fun _ _ => True).
Proof.
  intros Hb Hr. unfold cleanup_project, prog_try, call. cbn [prog_bind]. apply keeps_calm_do; [done|done|].
  intros c w x w' Hp. unserve Hp. apply served_cases in Hp as [_ Hx]. destruct x as [ms|e]; [|by exists r]. destruct (Hx ms eq_refl) as [_ [= <-]].
  set (rows := find_expired_chunks p before (w_rows w)).
  exists (with_facts r (map (fun r => (cr_id r, fun meta => dt_ltb (cl_ended_at (cm_labels meta)) cutoff = true)) rows)).
  split_and!; [done|done| |].
  - intros _ Hg Hok. apply role_facts; [done|]. rewrite list.Forall_forall. intros f (r0 & -> & Hr0)%list_elem_of_fmap.
    apply list_elem_of_In, filter_In in Hr0 as [Hin%list_elem_of_In [[_ He]%andb_true_iff _]%andb_true_iff]. apply listed_fact; [done|done|].
    unfold dt_ltb in *. rewrite negb_true_iff in *. destruct (dt_leb cutoff (cl_ended_at (cm_labels (cr_meta r0)))) eqn:Hc; [|done].
    unfold row_labels in He. by rewrite (dt_le_trans _ _ _ Hb Hc) in He.
  - apply keeps_bind. apply keeps_tombstone; [done| |].
    + intros i (r0 & -> & Hr0)%list_elem_of_fmap. eexists. split; [apply list_elem_of_fmap; by exists r0|]. done.
    + by intros [[deleted failed] bytes].
Qed.

(** ** Garbage collection *)

Definition idle (ag : Agent) (started : bool) (r : Role) : Prop := ro_agent r = ag /\ ro_started r = started /\ ro_stage r = Idle.

Lemma tombstoned_spec c limit rows id key :
  (id, key) ∈ tombstoned_before c limit rows ->
  (exists r, r ∈ rows /\ row_key r = key) /\
  forall r, r ∈ rows -> row_key r = key -> exists at_, cr_deleted_at r = Some at_ /\ dt_ltb at_ c = true.
Proof.
  unfold tombstoned_before. intros (r & [= -> ->] & Hr)%list_elem_of_fmap. apply subseteq_take in Hr.
  rewrite merge_sort_Permutation in Hr. apply list_elem_of_In, filter_In in Hr as [Hr%list_elem_of_In [_ Hp]%andb_true_iff].
  split; [by exists r|]. intros r' Hr' Hk. rewrite negb_true_iff in Hp.
  destruct (cr_deleted_at r') as [d|] eqn:Hd; [exists d; split; [done|]|]; [destruct (dt_ltb d c) eqn:Hlt; [done|]|];
    exfalso; (rewrite <- not_true_iff_false in Hp; apply Hp; apply existsb_exists; exists r'; split; [by apply list_elem_of_In|]);
    rewrite Hk, String.eqb_refl, Hd; [by rewrite Hlt|done].
Qed.

Lemma group_keys_in rows key ids : (key, ids) ∈ key_order (group_keys rows) -> key ∈ map snd rows.
Proof.
  rewrite key_order_all. intros Hin%elem_of_map_to_list. unfold group_keys in Hin.
  assert (forall (m : gmap string (list Z)), (forall k, is_Some (m !! k) -> k ∈ map snd rows) ->
    forall l, (forall x, x ∈ l -> x ∈ rows) -> forall k, is_Some (fold_left (fun m r => <[r.2 := default [] (m !! r.2) ++ [r.1]]> m) l m !! k) -> k ∈ map snd rows) as Hx.
  { intros m Hm l. revert m Hm. induction l as [|x l IH]; intros m Hm Hl k; cbn [fold_left]; [apply Hm|]. apply IH.
    - intros k' Hk'. destruct (decide (k' = x.2)) as [->|Hne]; [apply list_elem_of_fmap; exists x; split; [done|apply Hl; left]|].
      apply Hm. by rewrite lookup_insert_ne in Hk'.
    - intros y Hy. apply Hl. by right. }
  eapply (Hx ∅); [|done|by eexists]. intros k []. by rewrite lookup_empty in *.
Qed.

(** Another task of the collector would be a second one. *)
Lemma not_collecting w o :
  role_ok w o -> (ro_started o = true -> ag_service (ro_agent o) <> Collection) -> forall keys, ro_stage o <> Collecting keys.
Proof.
  intros Ho Hno keys Hst. destruct (rk_service _ _ _ _ _ _ _ _ Ho Collection) as [Hs Hc]; [by rewrite Hst|]. by destruct (Hno Hs).
Qed.

(** An object of the collector's is deleted. *)
Lemma collect_object w me others keys key :
  ro_stage me = Collecting keys -> key ∈ keys -> active w me = true -> Inv w (me :: others) ->
  Inv (set_objects (delete key (w_objects w)) w) (me :: others).
Proof.
  intros Hst Hkey Hact. apply step_inv; try done. intros _ Hg Hok.
  pose proof (rk_stage _ _ _ _ _ _ _ _ Hok) as Hc. rewrite Hst in Hc. destruct (Hc key Hkey) as [Hex Hall].
  assert (forall r, r ∈ table w -> row_key r = key -> live r = false) as Hdead by (intros r Hr Hk; by eapply collectable_dead, Hall).
  assert (forall o, role_ok w o -> role_ok (set_objects (delete key (w_objects w)) w) o) as Hro.
  { intros o Ho. apply (role_ok_ages _ _ _ _ _ _ w); [by apply ages_rows|done|done| |done]. apply stage_collected_object; [done..|]. apply Ho. }
  split_and!; [by apply good_delete|by apply Hro|by intros o _ Ho _; apply Hro].
Qed.

(** The collector's rows are removed. *)
Lemma collect_rows w me others ids :
  ag_service (ro_agent me) = Collection -> ro_started me = true -> ro_run me = [] -> active w me = true -> Inv w (me :: others) ->
  Inv (hard_delete Collection ids w).2 (with_stage me Idle :: others).
Proof.
  intros Hsvc Hs Hrun Hact. apply step_inv; try done. intros _ Hg Hok. split_and!.
  - by apply good_hard_delete.
  - apply (role_ok_ages _ _ _ _ _ _ w); [apply ages_hard_delete|done|done|done|]. destruct Hok as [H1' H2' _ H4' _ H6' _ H8']. split; try done.
  - intros o _ Ho Hno. apply (role_ok_ages _ _ _ _ _ _ w); [apply ages_hard_delete|done|done| |done]. apply stage_collected; [|apply Ho].
    eapply not_collecting; [exact Ho|]. intros Hso. rewrite <- Hsvc. by apply Hno.
Qed.

Lemma keeps_delete_objects ag r keys objects report Q :
  ro_agent r = ag -> ro_stage r = Collecting keys -> (forall key ids, (key, ids) ∈ objects -> key ∈ keys) ->
  (forall x, Q x r) -> keeps ag r (delete_objects objects report) Q.
Proof.
  intros Hr Hst. revert report Q. induction objects as [|[key ids] objects IH]; intros report Q Hkeys HQ; [apply HQ|].
  cbn [delete_objects]. apply keeps_bind. unfold call. cbn [Prog.keeps]. intros i c w others x w' _ Hi Hp. exists r. split.
  - pose proof (active_perform _ _ _ _ _ _ _ Hr Hp) as Hact. unserve Hp. apply served_cases in Hp as [[->| ->] _]; [done|].
    eapply collect_object; [exact Hst|apply (Hkeys key ids); left|done|done].
  - assert (forall k l, (k, l) ∈ objects -> k ∈ keys) as Hrest by (intros k l Hkl; apply (Hkeys k l); by right).
    destruct x; [apply keeps_bind; apply IH; [done|intros y; apply HQ]|by apply IH].
Qed.

Lemma keeps_gc ag r :
  ro_agent r = ag -> ag_service ag = Collection -> ro_started r = true -> ro_run r = [] ->
  keeps ag r (gc_once key_order) (fun _ r' => ro_agent r' = ag /\ ro_started r' = true /\ ro_run r' = []).
Proof.
  intros Hr Hsvc Hs Hrun. unfold gc_once, call. cbn [prog_bind]. apply keeps_calm_do; [done|done|].
  intros c w now w' Hp. unserve Hp. injection Hp as <- <-. exists (with_stage r (Timed (w_now w))). split_and!; [done|done| |].
  { intros _ Hg [H1' H2' _ H4' _ H6' _ H8']. split; try done.
    - apply dt_le_refl.
    - cbn. intros s [= <-]. by rewrite Hs, Hr. }
  apply keeps_calm_do; [done|done|]. intros c1 w1 x w1' Hp. unserve Hp. apply served_cases in Hp as [_ Hx].
  destruct x as [rows|e].
  2:{ exists (with_stage r Idle). split_and!; try done. intros _ _ [H1' H2' _ H4' _ H6' _ H8']. by split. }
  destruct (Hx rows eq_refl) as [_ [= <-]]. clear Hx. set (rows := tombstoned_before _ _ _). set (r1 := with_stage r (Collecting (map snd rows))).
  exists r1. split_and!; [done|done| |].
  { intros _ Hg [H1' H2' Hnow H4' _ H6' _ H8']. split; try done.
    - intros key ([id k] & -> & Hin)%list_elem_of_fmap. cbn [snd]. apply tombstoned_spec in Hin as [(r0 & Hr0 & Hk) Hall]. split.
      + exists (index_row r0). split; [by apply row_in_table|done].
      + intros r' (r2 & -> & Hr2)%list_elem_of_fmap Hk'. destruct (Hall r2 Hr2 Hk') as (d & Hd & Hlt).
        apply (collectable_later (w_now w)); [exact Hnow|]. unfold collectable. cbn. by rewrite Hd.
    - cbn. intros s [= <-]. by rewrite Hs, Hr. }
  apply keeps_bind. apply (keeps_delete_objects ag r1 (map snd rows)); [done|done|by apply group_keys_in|]. intros [done_ids report]. cbn [fst snd].
  destruct done_ids as [|i ids]; [done|]. intros j c2 w2 others x w2' _ Hi Hp.
  pose proof (active_perform _ _ _ _ _ _ r1 Hr Hp) as Hact. exists (with_stage r1 Idle). split; [|done]. unserve Hp. rewrite Hsvc in Hp.
  pose proof (collect_rows w2 r1 others (i :: ids) ltac:(by cbn; rewrite Hr) Hs Hrun Hact Hi) as Hc.
  destruct (hard_delete Collection (i :: ids) w2) as [n w3]. apply served_cases in Hp as [[->| ->] _]; [|exact Hc].
  revert Hi. apply Inv_role; try done. intros _ _ [H1' H2' _ H4' _ H6' _ H8']. by split.
Qed.
End Keeps.
