(* ===== verification/CompactorMerge.v ===== *)
(** * Merging and reconciling keep the invariant

    [merge_run], [compact_window], [adopt] and [reconcile_once] of
    [crates/temps-log-aggregator/src/services/compactor.rs]: what a run was read as is what its rows
    were filed with, so the merged chunk covers the run before its rows are tombstoned. *)

From S2P Require Import Prelude Bytes Utf8 ChunkBlock Bloom ChunkFile ChunkScan Wal WalDisk HeadBuffer ChunkWriter WriterStore Prog Compactor CompactorRead CompactorSafety CompactorKeeps.
From stdpp Require Import sorting.
Local Open Scope Z_scope.

Section Merge.
Context `{ChronoLaws} `{ZstdLaws} `{JsonLaws} `{!FooterJson} `{!FooterJsonLaws _} `{Crc32} `{Xxh3} `{Unicode} `{!Durations}.
Context (order : BloomBuilder -> list Z) (date_hour : DateTime -> string)
  (content_hash : option (string * Z * Z) -> list Z -> string) `{!HashLaws content_hash}
  (log_line_from_str : list Z -> option LogLine) (is_whitespace : Z -> bool)
  (key_order : gmap string (list Z) -> list (string * list Z)) (midnight : DateTime -> option DateTime).
Hypothesis order_all : forall es e, e ∈ order es <-> e ∈ es.
(** The hash of a chunk is longer than the suffix of a merged one. *)
Hypothesis hash_long : forall rid bytes, content_hash rid bytes <> "c"%string.
Hypothesis key_order_all : forall m, key_order m ≡ₚ map_to_list m.
Context (cutoff : DateTime).

#[local] Abbreviation encodes := (encodes order).
#[local] Abbreviation storage_key := (storage_key date_hour content_hash).
#[local] Abbreviation encode_segments := (encode_segments order).
#[local] Abbreviation entry_lines := (entry_lines log_line_from_str is_whitespace).
#[local] Abbreviation row_lines := (row_lines log_line_from_str is_whitespace).
#[local] Abbreviation read_all_lines := (read_all_lines log_line_from_str is_whitespace).
#[local] Abbreviation good := (good order date_hour content_hash log_line_from_str is_whitespace cutoff).
#[local] Abbreviation stage_ok := (stage_ok order date_hour content_hash log_line_from_str is_whitespace cutoff).
#[local] Abbreviation role_ok := (role_ok order date_hour content_hash log_line_from_str is_whitespace cutoff).
#[local] Abbreviation Inv := (Inv order date_hour content_hash log_line_from_str is_whitespace cutoff).
#[local] Abbreviation unexpired := (unexpired cutoff).
#[local] Abbreviation happen := (happen order date_hour content_hash).
#[local] Abbreviation body := (body order date_hour log_line_from_str is_whitespace key_order midnight).
#[local] Abbreviation program := (prog reply).

#[local] Abbreviation allowed := (allowed order cutoff).
#[local] Abbreviation keeps := (keeps perform allowed Inv).
#[local] Abbreviation seen := (seen log_line_from_str is_whitespace).
#[local] Abbreviation backed := (backed log_line_from_str is_whitespace).

(** ** Learning *)

Definition with_known (r : Role) (P : Prop) : Role :=
  {| ro_agent := ro_agent r; ro_started := ro_started r; ro_run := ro_run r; ro_facts := ro_facts r; ro_stage := ro_stage r;
     ro_known := ro_known r /\ P |}.

(** The same task, which has learned that [P]. *)
Record learned (r r' : Role) (P : Prop) : Prop := {
  le_agent : ro_agent r' = ro_agent r; le_started : ro_started r' = ro_started r; le_run : ro_run r' = ro_run r;
  le_facts : ro_facts r' = ro_facts r; le_stage : ro_stage r' = ro_stage r; le_known : ro_known r' -> ro_known r /\ P
}.

Lemma learned_with r P : learned r (with_known r P) P.
Proof. by split. Qed.

Lemma learned_trans r r1 r2 (P Q : Prop) : learned r r1 P -> learned r1 r2 Q -> learned r r2 (P /\ Q).
Proof.
  intros [Ea Es Er Ef Est Hk] [Ea' Es' Er' Ef' Est' Hk']. split; [congruence..|]. intros Hx. destruct (Hk' Hx) as [Hy HQ].
  destruct (Hk Hy) as [Hz HP]. done.
Qed.

Lemma learned_mono r r' (P Q : Prop) : (P -> Q) -> learned r r' P -> learned r r' Q.
Proof. intros Himp [Ea Es Er Ef Est Hk]. split; try done. intros Hx. destruct (Hk Hx). auto. Qed.

Lemma role_known w r P : role_ok w r -> P -> role_ok w (with_known r P).
Proof. intros [H1' H2' H3' H4' H5' H6' H7' H8'] HP. by split. Qed.

(** ** Reading what was listed *)

Lemma read_range_single key bytes s e : read_chunk_range {[key := bytes]} key s e =
  if e <=? s then Ok [] else Ok (take (Z.to_nat (e - s)) (drop (Z.to_nat s) bytes)).
Proof. unfold read_chunk_range, read_chunk. by rewrite lookup_singleton_eq. Qed.

(** An access that reads an object finds the bytes its row was filed with. *)
Lemma keeps_read_range {A} ag r i meta bytes s e (k : answer (list Z) -> program A) Q :
  ro_agent r = ag -> (i, meta, bytes) ∈ ro_run r ->
  (forall x r', learned r r' (forall b, x = Ok b -> read_chunk_range {[cm_storage_key meta := bytes]} (cm_storage_key meta) s e = Ok b) ->
     keeps ag r' (k x) Q) ->
  keeps ag r (Do (ReadRange (cm_storage_key meta) s e) k) Q.
Proof.
  intros Hr Hin Hk. apply keeps_calm_do; [done|done|]. intros c w x w' Hp.
  exists (with_known r (forall b, x = Ok b -> read_chunk_range {[cm_storage_key meta := bytes]} (cm_storage_key meta) s e = Ok b)).
  split_and!; [done|done| |apply Hk; apply learned_with]. intros _ Hg Hok. apply role_known; [done|]. intros b ->.
  unserve Hp. apply served_cases in Hp as [_ Hx]. destruct (Hx b eq_refl) as [_ Hb]. rewrite read_range_single.
  unfold read_chunk_range in Hb. destruct (e <=? s); [done|]. apply result_bind_Ok in Hb as (b0 & Ho%ok_or_Ok & Hb).
  pose proof (rk_run _ _ _ _ _ _ _ _ Hok) as Hrun. rewrite list.Forall_forall in Hrun. destruct (Hrun _ Hin) as (_ & Hf & _).
  destruct (g_entry _ _ _ _ _ _ _ Hg _ Hf) as (_ & _ & Hsame). cbn [snd] in Hsame. by rewrite <- (Hsame b0 Ho).
Qed.

Lemma keeps_read_chunk {A} ag r i meta bytes (k : answer (list Z) -> program A) Q :
  ro_agent r = ag -> (i, meta, bytes) ∈ ro_run r ->
  (forall x r', learned r r' (forall b, x = Ok b -> read_chunk {[cm_storage_key meta := bytes]} (cm_storage_key meta) = Ok b) ->
     keeps ag r' (k x) Q) ->
  keeps ag r (Do (ReadChunk (cm_storage_key meta)) k) Q.
Proof.
  intros Hr Hin Hk. apply keeps_calm_do; [done|done|]. intros c w x w' Hp.
  exists (with_known r (forall b, x = Ok b -> read_chunk {[cm_storage_key meta := bytes]} (cm_storage_key meta) = Ok b)).
  split_and!; [done|done| |apply Hk; apply learned_with]. intros _ Hg Hok. apply role_known; [done|]. intros b ->.
  unserve Hp. apply served_cases in Hp as [_ Hx]. destruct (Hx b eq_refl) as [_ Ho%ok_or_Ok]. unfold read_chunk. rewrite lookup_singleton_eq.
  pose proof (rk_run _ _ _ _ _ _ _ _ Hok) as Hrun. rewrite list.Forall_forall in Hrun. destruct (Hrun _ Hin) as (_ & Hf & _).
  destruct (g_entry _ _ _ _ _ _ _ Hg _ Hf) as (_ & _ & Hsame). cbn [snd] in Hsame. by rewrite <- (Hsame b Ho).
Qed.

(** These bytes hold these lines. *)
Definition holds_lines (meta : ChunkMeta) (bytes : list Z) (lines : list DecodedLine) : Prop :=
  look {[cm_storage_key meta := bytes]} (read_all_lines (meta_manifest 0 meta)) = Some (Ok lines).

Lemma keeps_read ag r i meta bytes seq :
  ro_agent r = ag -> (i, meta, bytes) ∈ ro_run r ->
  keeps ag r (read_all_lines (meta_manifest seq meta)) (fun x r' => learned r r' (forall lines, x = Ok lines -> holds_lines meta bytes lines)).
Proof.
  intros Hr Hin. unfold holds_lines, Compactor.read_all_lines. cbn [meta_manifest mf_format_version mf_footer_offset mf_footer_len mf_storage_key].
  destruct (_ <? 2).
  { unfold prog_try, call. cbn [prog_bind look]. apply (keeps_read_chunk ag r i meta bytes); [done|done|]. intros [b|e] r' Hl; cbn [Prog.keeps].
    - eapply learned_mono; [|exact Hl]. intros Hb lines Hx. rewrite (Hb b eq_refl). cbn. by rewrite Hx.
    - eapply learned_mono; [|exact Hl]. done. }
  destruct (cm_footer_offset meta) as [off0|], (cm_footer_len meta) as [len0|]; cbn [fmap option_fmap option_map]; try (cbn; by apply (learned_mono _ _ True); [|split]).
  set (off := Z.max 0 (swrap 64 off0)). set (len := Z.max 0 (swrap 32 len0)). unfold prog_try, call. cbn [prog_bind look].
  apply (keeps_read_range ag r i meta bytes); [done|done|]. intros [b|e] r1 Hl1; [|cbn; eapply learned_mono; [|exact Hl1]; done].
  destruct (broken (lift (decode_trailer b))) as [trailer|e] eqn:Ht; cbn [prog_bind]; [|cbn; eapply learned_mono; [|exact Hl1]; done].
  destruct (broken (lift (decode_footer b trailer))) as [footer|e] eqn:Hf; cbn [prog_bind]; [|cbn; eapply learned_mono; [|exact Hl1]; done].
  apply (keeps_read_range ag r1 i meta bytes); [by rewrite (le_agent _ _ _ Hl1)|by rewrite (le_run _ _ _ Hl1)|].
  intros [body|e] r2 Hl2; cbn; pose proof (learned_trans _ _ _ _ _ Hl1 Hl2) as Hl; (eapply learned_mono; [|exact Hl]); [|done].
  intros [Hb Hbody] lines Hx. rewrite (Hb b eq_refl). cbn. rewrite Ht. cbn. rewrite Hf. cbn. rewrite (Hbody body eq_refl). cbn. by rewrite Hx.
Qed.

(** ** Reading a run *)

Definition lists (m : Listed) (e : Z * ChunkMeta * list Z) : Prop := li_id m = e.1.1 /\ exists seq, li_manifest m = meta_manifest seq e.1.2.

(** The chunks are rows of the task's run, all of one container. *)
Definition entry_for (run : list (Z * ChunkMeta * list Z)) (container_id : string) (m : Listed) (e : Z * ChunkMeta * list Z) : Prop :=
  e ∈ run /\ lists m e /\ cl_container_id (cm_labels e.1.2) = container_id.

Definition listed (run : list (Z * ChunkMeta * list Z)) (container_id : string) (ms : list Listed) : Prop :=
  forall m, m ∈ ms -> exists e, entry_for run container_id m e.

Definition run_read (run : list (Z * ChunkMeta * list Z)) (container_id : string) (ms : list Listed) (lines : list DecodedLine) : Prop :=
  exists parts, Forall2 (fun m part => exists e, entry_for run container_id m e /\ holds_lines e.1.2 e.2 part) ms parts /\ lines = mjoin parts.

Lemma keeps_read_run ag r cid ms :
  ro_agent r = ag -> listed (ro_run r) cid ms ->
  keeps ag r (read_run log_line_from_str is_whitespace ms) (fun x r' => learned r r' (forall lines, x = Ok lines -> run_read (ro_run r) cid ms lines)).
Proof.
  revert r. induction ms as [|m ms IH]; intros r Hr Hl; cbn [read_run].
  { cbn. split; try done. intros Hk. split; [done|]. intros lines [= <-]. by exists []. }
  destruct (Hl m (list_elem_of_here _ _)) as ([[i meta] bytes] & Hin & [Hid (seq & Hm)] & Hc). unfold prog_try. apply keeps_bind.
  rewrite Hm. eapply keeps_mono; [|by apply (keeps_read ag r i meta bytes)]. intros [lines|e] r1 Hl1; [|cbn; eapply learned_mono; [|exact Hl1]; done].
  apply keeps_bind. eapply keeps_mono; [|apply (IH r1)].
  - intros [more|e] r2 Hl2; cbn; pose proof (learned_trans _ _ _ _ _ Hl1 Hl2) as Hl'; (eapply learned_mono; [|exact Hl']); [|done].
    intros [Ha Hb] all [= <-]. destruct (Hb more eq_refl) as (parts & Hparts & ->). rewrite (le_run _ _ _ Hl1) in Hparts.
    exists (lines :: parts). split; [|done]. constructor; [|done]. exists (i, meta, bytes). split; [|by apply Ha].
    split_and!; [done| |done]. split; [done|by exists seq].
  - by rewrite (le_agent _ _ _ Hl1).
  - rewrite (le_run _ _ _ Hl1). intros m' Hm'. apply Hl. by right.
Qed.

Lemma holds_entry_lines meta bytes lines :
  holds_lines meta bytes lines -> entry_lines meta bytes = map (fun l => (cl_container_id (cm_labels meta), unplaced l)) lines.
Proof. unfold holds_lines, Compactor.entry_lines. by intros ->. Qed.

(** Every line of a row of the run has been read. *)
Lemma run_covered run cid ms lines m :
  run_read run cid ms lines -> m ∈ ms ->
  exists e, entry_for run cid m e /\ forall x, x ∈ entry_lines e.1.2 e.2 -> x ∈ map (fun l => (cid, unplaced l)) lines.
Proof.
  intros (parts & Hf & ->) Hm. apply list_elem_of_lookup in Hm as [i Hi]. destruct (Forall2_lookup_l _ _ _ _ _ Hf Hi) as (part & Hp & e & He & Hh).
  exists e. split; [done|]. intros x. rewrite (holds_entry_lines _ _ _ Hh). destruct He as (_ & _ & ->).
  intros (l & -> & Hl)%list_elem_of_fmap. apply list_elem_of_fmap. exists l. split; [done|]. apply list_elem_of_join. exists part.
  split; [done|]. by apply list_elem_of_lookup_2 in Hp.
Qed.

(** What was read can be written again, and is in live chunks. *)
Lemma run_lines_good w run cid ms lines identity :
  good w -> Forall (run_ok w) run -> run_read run cid ms lines ->
  Forall line_ok (map (identity_line identity) lines) /\ Forall line_fits (map (identity_line identity) lines) /\
  forall l, l ∈ lines -> unexpired (cid, unplaced l) -> seen w (cid, unplaced l).
Proof.
  intros Hg Hrun (parts & Hf & ->). induction Hf as [|m part ms parts (e & (Hin & _ & Hc) & Hh) _ (IH1 & IH2 & IH3)].
  { cbn. split_and!; [constructor|constructor|by intros l ?%elem_of_nil]. }
  rewrite list.Forall_forall in Hrun. specialize (Hrun e Hin). destruct e as [[i meta] bytes]. destruct Hrun as (_ & Hfiled & _). cbn [fst snd] in *.
  pose proof (g_entry _ _ _ _ _ _ _ Hg _ Hfiled) as (_ & (id' & ls & enc & Henc & Hb & Hd) & _). cbn [fst snd] in Hb, Hd.
  assert (part = chunk_lines ls) as ->.
  { unfold holds_lines in Hh. subst bytes. rewrite (read_entry order _ _ order_all _ _ _ _ _ _ Henc Hd) in Hh; [by injection Hh|apply lookup_singleton_eq]. }
  change (mjoin (chunk_lines ls :: parts)) with (chunk_lines ls ++ mjoin parts). rewrite map_app. split_and!.
  - apply Forall_app. split; [|done]. apply encoded_lines_good; [by intros; apply identity_line_ok|apply Henc].
  - apply Forall_app. split; [|done]. apply encoded_lines_good; [by intros; apply identity_line_fits|apply Henc].
  - intros l [Hl|Hl]%elem_of_app Hu; [|by apply IH3]. eapply (g_kept _ _ _ _ _ _ _ Hg _ _ Hfiled); [|done]. cbn [fst snd].
    rewrite (holds_entry_lines _ _ _ Hh), Hc. apply list_elem_of_fmap. by exists l.
Qed.

(** ** The keys of merged chunks *)

Lemma merged_shape p : merged date_hour content_hash (p +:+ "-c.zst").
Proof.
  intros rid enc'. unfold ChunkWriter.storage_key, build_storage_key_v2, V2_EXTENSION. cbv zeta.
  set (h := content_hash rid (ec_bytes enc')).
  match goal with |- _ <> (?y +:+ _ +:+ _)%string => set (q := y) end.
  change ("-" +:+ h)%string with (String "-" h). intros He.
  change (p +:+ String "-" ("c" +:+ ".zst") = q +:+ String "-" (h +:+ ".zst"))%string in He.
  apply last_dash_inj in He.
  - apply string_app_cancel in He. by apply (hash_long rid (ec_bytes enc')).
  - repeat apply no_dash_cons; try done. apply no_dash_nil.
  - apply no_dash_app; [apply (hash_no_dash rid)|]. repeat apply no_dash_cons; try done. apply no_dash_nil.
Qed.

Lemma merged_key_merged enc identity : merged date_hour content_hash (merged_key date_hour enc identity).
Proof. apply merged_shape. Qed.

Lemma substring_all s : String.substring 0 (String.length s) s = s.
Proof. induction s as [|c s IH]; [done|]. cbn. by rewrite IH. Qed.

Lemma ends_with_app s suffix : ends_with s suffix = true -> exists p, s = (p +:+ suffix)%string.
Proof.
  unfold ends_with. intros [Hl%Nat.leb_le He%String.eqb_eq]%andb_true_iff. exists (String.substring 0 (String.length s - String.length suffix) s).
  rewrite <- He at 2. set (n := String.length suffix) in *. clearbody n. clear He. revert n Hl. induction s as [|c s IH]; intros n Hl.
  { by destruct n. }
  cbn [String.length] in *. destruct (decide (n = S (String.length s))) as [->|Hne].
  - rewrite Nat.sub_diag. cbn. by rewrite substring_all.
  - rewrite Nat.sub_succ_l by lia. cbn. f_equal. apply IH. lia.
Qed.

(** The chunk writer's keys do not look like those of merged chunks. *)
Lemma writer_key_shape rid enc : ends_with (storage_key rid enc) "-c.zst" = false.
Proof. apply not_true_is_false. intros (p & Hp)%ends_with_app. by apply (merged_shape p rid enc). Qed.

(** ** The steps of a merge *)

(** Nobody else compacts, so the others are idle or collect. *)
Lemma compaction_step w w' me me' others :
  (w_hazards w' = [] -> w_hazards w = []) -> w_epoch w' = w_epoch w -> w_started w' = w_started w -> w_now w' = w_now w ->
  ro_agent me' = ro_agent me -> ro_started me' = ro_started me -> active w me = true ->
  ag_service (ro_agent me) = Compaction -> ro_started me = true ->
  (w_hazards w' = [] -> good w -> role_ok w me -> good w' /\ role_ok w' me' /\ ages w w' /\
   forall keys, stage_ok w (Collecting keys) -> stage_ok w' (Collecting keys)) ->
  Inv w (me :: others) -> Inv w' (me' :: others).
Proof.
  intros Hhz Ee Es Enow Ea Est Hact Hsvc Hs Hstep. apply step_inv; try done. intros Hh Hg Hok.
  destruct (Hstep Hh Hg Hok) as (Hg' & Hme & Hages & Hcol). split_and!; [done|done|]. intros o _ Ho Hno.
  destruct (not_compacting _ _ _ _ _ _ w o Ho) as [Hrun Hst]; [intros Hso; rewrite <- Hsvc; by apply Hno|].
  apply (role_ok_ages _ _ _ _ _ _ w); [done|done|by rewrite Hrun; intros ? ?%elem_of_nil| |done].
  pose proof (rk_stage _ _ _ _ _ _ _ _ Ho) as Hso. destruct Hst as [Hst|[[now Hst]|[keys Hst]]]; rewrite Hst in *; [done| |by apply Hcol].
  cbn in *. by rewrite Enow.
Qed.

Section Steps.
Context (w : World) (me : Role) (others : list Role).
Hypothesis me_compacts : ag_service (ro_agent me) = Compaction.
Hypothesis me_started : ro_started me = true.
Hypothesis me_active : active w me = true.

#[local] Hint Resolve dt_le_refl : core.

(** A task may always forget its stage. *)
Lemma role_idle w0 r : role_ok w0 r -> role_ok w0 (with_stage r Idle).
Proof. intros [H1' H2' _ H4' _ H6' _ H8']. by split. Qed.

(** The rows and facts of a task outlive a step, and its stage is checked anew. *)
Lemma role_stage w0 w1 r st :
  role_ok w0 r -> ages w0 w1 -> w_started w1 = w_started w0 ->
  (forall e, e ∈ ro_run r -> (e.1.2, e.2) ∈ w_filed w0 -> (e.1.2, e.2) ∈ w_filed w1) ->
  stage_ok w1 st -> (forall s, stage_service st = Some s -> ro_started r = true /\ ag_service (ro_agent r) = s) ->
  (forall i meta bytes key, (i, meta, bytes) ∈ ro_run r -> stage_key st = Some key -> cm_storage_key meta <> key) ->
  role_ok w1 (with_stage r st).
Proof.
  intros Hok%role_idle Ha Es Hf Hst Hsv Hother.
  assert (role_ok w1 (with_stage r Idle)) as [H1' H2' _ H4' _ H6' _ H8'] by by apply (role_ok_ages _ _ _ _ _ _ w0). by split.
Qed.

Lemma forget_stage : Inv w (me :: others) -> Inv w (with_stage me Idle :: others).
Proof. apply Inv_role; try done. intros _ _. apply role_idle. Qed.

Definition written (key : string) (bytes : list Z) : World :=
  add_hazards ((if filed_under key (w_filed w) then [Overwrites key] else []) ++ (if 2 ^ 31 <=? blen bytes then [Oversized key] else []))
    (set_objects (<[key := bytes]> (w_objects w)) w).

(** The merged object is written. *)
Lemma write_step key identity ls enc :
  (exists with_bloom, encode_segments identity [ls] with_bloom = Ok enc) -> merged date_hour content_hash key ->
  (good w -> role_ok w me -> Forall line_ok ls /\ Forall line_fits ls /\
     forall l, l ∈ ls -> unexpired (ci_container_id identity, decoded 0 l) -> seen w (ci_container_id identity, decoded 0 l)) ->
  Inv w (me :: others) ->
  Inv (written key (ec_bytes enc)) (with_stage me (Pending key enc (map (fun l => (ci_container_id identity, decoded 0 l)) ls)) :: others).
Proof.
  intros Hw Hm Hlines. apply compaction_step; try done.
  { cbn. by intros [? _]%app_eq_nil. }
  intros Hh Hg Hok. cbn in Hh. apply app_eq_nil in Hh as [_ [Hfree Hsmall]%app_eq_nil].
  destruct (filed_under key (w_filed w)) eqn:Hfu; [done|]. destruct (Z.leb_spec (2 ^ 31) (blen (ec_bytes enc))) as [|Hsize]; [done|].
  destruct (Hlines Hg Hok) as (Hlok & Hfit & Hseen). pose proof (filed_under_spec _ _ Hfu) as Hfresh.
  assert (encodes identity ls enc) as Henc by by split.
  assert (forall e, e ∈ w_filed w -> cm_storage_key e.1 = key -> e.2 = ec_bytes enc) as Hnew by (intros e He Hk; by destruct (Hfresh e He)).
  pose proof (spares_write order date_hour content_hash _ _ cutoff key (ec_bytes enc) w Hg Hnew) as Hsp. split_and!.
  - apply (good_same _ _ _ _ _ _ (set_objects (<[key := ec_bytes enc]> (w_objects w)) w)); try done. apply good_write; [done| |done].
    split; [|by exists identity, ls, enc]. intros rid enc' ->. by destruct (Hm rid enc').
  - destruct Hok as [H1' H2' _ H4' _ H6' _ H8']. split; try done.
    + split_and!; [done|by exists identity, ls|apply lookup_insert_eq|exact Hfresh|].
      intros x (l & -> & Hl)%list_elem_of_fmap Hu. eapply seen_mono; [exact Hsp|by apply Hseen].
    + cbn. by intros s [= <-].
    + intros i meta bytes key' Hin [= <-]. rewrite list.Forall_forall in H1'. destruct (H1' _ Hin) as (_ & Hf & _). by apply (Hfresh _ Hf).
  - by apply ages_rows.
  - done.
Qed.

(** Its row is inserted. *)
Lemma insert_step key enc lines size :
  ro_stage me = Pending key enc lines -> Inv w (me :: others) ->
  Inv (insert_row (build_chunk_meta enc key size) w).2
    (with_known (with_stage me (Holding (w_next_id w) key lines)) (forall e, e ∈ ro_run me -> e.1.1 <> w_next_id w) :: others).
Proof.
  intros Hst. set (meta := build_chunk_meta enc key size). pose proof (built_describes key size enc) as Hd. fold meta in Hd.
  pose proof (insert_cases meta w (de_version _ _ Hd)) as Hcases.
  assert (let w' := (insert_row meta w).2 in (w_hazards w' = [] -> w_hazards w = []) /\ w_epoch w' = w_epoch w /\ w_started w' = w_started w /\ w_now w' = w_now w) as (Eh & Ee & Es & En).
  { destruct Hcases as [(r & _ & ->)|(_ & _ & _ & _ & _ & _ & E1 & E2 & E3 & E4)]; [done|]. split_and!; [intros Hx; by apply E4|done..]. }
  apply compaction_step; try done. intros Hh Hg Hok. pose proof (rk_stage _ _ _ _ _ _ _ _ Hok) as Hp. rewrite Hst in Hp.
  destruct Hp as (Hm & (identity & ls & Henc & Hlines) & Hobj & Hfresh & Hseen).
  assert (forall r, r ∈ table w -> row_key r <> key) as Hnorow.
  { intros r Hr Hk. destruct (g_row _ _ _ _ _ _ _ Hg r Hr) as (_ & b & Hb & _). by apply (Hfresh _ Hb). }
  assert (row_lines (w_objects w) (new_row meta w) = lines) as Hnew.
  { unfold Compactor.row_lines. change (row_key (new_row meta w)) with key. rewrite Hobj. change (cr_meta (new_row meta w)) with meta.
    rewrite (entry_lines_encodes order _ _ order_all _ _ _ _ Henc Hd), Hlines. apply map_ext. intros l. f_equal.
    rewrite (de_labels _ _ Hd). rewrite <- (proj1 (encodes_labels order _ _ _ Henc)) at 1. done. }
  split_and!.
  - eapply good_insert; [exact Hg|exact Henc|exact Hd| |intros b; change (cm_storage_key meta) with key; congruence|exact Hh].
    intros rid enc' Hk. by destruct (Hm rid enc').
  - destruct Hcases as [(r & Hu & _)|(_ & _ & Ht & Eo & Enx & Ef & _)].
    { exfalso. apply List.find_some in Hu as [Hr [Hk%String.eqb_eq _]%andb_true_iff]. apply (Hnorow (index_row r)); [|exact Hk].
      apply row_in_table. by apply list_elem_of_In. }
    pose proof (rk_run _ _ _ _ _ _ _ _ Hok) as Hrun. rewrite list.Forall_forall in Hrun.
    assert (forall e, e ∈ ro_run me -> e.1.1 <> w_next_id w) as Hids.
    { intros [[i m] b] He. destruct (Hrun _ He) as (Hi & _). cbn. lia. }
    apply role_known; [|exact Hids]. apply (role_stage w); [done|apply ages_insert, Hd|done| | |by intros s [= <-]|].
    + intros e _ He. rewrite Ef. apply elem_of_app. by left.
    + assert (forall r, r ∈ table (insert_row meta w).2 -> r ∈ table w \/ r = new_row meta w) as Hin.
      { intros r. rewrite Ht. intros [Hr| ->%list_elem_of_singleton]%elem_of_app; [by left|by right]. }
      assert (forall r, r ∈ table w -> cr_id r <> w_next_id w) as Hlt.
      { intros r Hr. destruct (g_row _ _ _ _ _ _ _ Hg r Hr) as [? _]. lia. }
      cbn [CompactorSafety.stage_ok]. rewrite Eo, Enx. split_and!; [done|lia| | | |].
      * left. exists (new_row meta w). rewrite Ht. split_and!; [apply elem_of_app; right; by apply list_elem_of_singleton|done|done].
      * intros r [Hr| ->]%Hin Hi _; [by destruct (Hlt r Hr)|exact Hnew].
      * intros r [Hr| ->]%Hin; [|done]. split; intros Hx; [by destruct (Hnorow r Hr)|by destruct (Hlt r Hr)].
      * intros x Hx Hu. destruct (Hseen x Hx Hu) as (r & Hr & Hl & Hxr). exists r. rewrite Ht, Eo.
        split_and!; [apply elem_of_app; by left|done|by apply Hlt|done].
    + intros i m b k Hin Hk. apply (rk_other _ _ _ _ _ _ _ _ Hok i m b k Hin). by rewrite Hst.
  - apply ages_insert, Hd.
  - intros keys. apply stage_insert; [done|apply Hd|done].
Qed.

Lemma marked_keeps (ids : list Z) key id :
  (forall r, r ∈ table w -> (row_key r = key <-> cr_id r = id)) ->
  forall r, r ∈ table (mark_deleted ids w).2 -> (row_key r = key <-> cr_id r = id).
Proof. intros Hk r' (r & Hr & Hri & Hrm & _)%marked_row. unfold row_key. rewrite Hri, Hrm. by apply Hk. Qed.

(** The merged row is given up: the run still has its lines. *)
Lemma retract_step id key lines :
  ro_stage me = Holding id key lines -> Inv w (me :: others) -> Inv (mark_deleted [id] w).2 (with_stage me (Retracting id key) :: others).
Proof.
  intros Hst. apply compaction_step; try done. intros _ Hg Hok. pose proof (rk_stage _ _ _ _ _ _ _ _ Hok) as Hp. rewrite Hst in Hp.
  destruct Hp as (Hm & Hid & _ & Hlines & Hk & Hback). split_and!.
  - apply good_mark_deleted; [done|]. intros r x Hr Hi%list_elem_of_singleton Hl Hx Hu. rewrite (Hlines r Hr Hi Hl) in Hx.
    destruct (Hback x Hx Hu) as (r2 & Hr2 & Hl2 & Hne & Hx2). exists r2. split_and!; [done|by intros ?%list_elem_of_singleton|done|done].
  - apply (role_stage w); [done|apply ages_mark_deleted|done|done| |by intros s [= <-]|].
    + split_and!; [done|done|by apply marked_keeps|]. intros r' (r & Hr & Hri & _ & Hl & _)%marked_row Hi.
      destruct (live r') eqn:Hlive; [|done]. destruct (Hl eq_refl) as [-> Hnot]. destruct Hnot. rewrite Hi. by apply list_elem_of_singleton.
    + intros i m b k Hin Hkey. apply (rk_other _ _ _ _ _ _ _ _ Hok i m b k Hin). by rewrite Hst.
  - apply ages_mark_deleted.
  - intros keys. apply collecting_mark.
Qed.

(** It is removed. *)
Lemma remove_step id key :
  ro_stage me = Retracting id key -> Inv w (me :: others) -> Inv (hard_delete Compaction [id] w).2 (with_stage me (Dropping key) :: others).
Proof.
  intros Hst. apply compaction_step; try done. { cbn. by intros [? _]%app_eq_nil. }
  intros Hh Hg Hok. pose proof (rk_stage _ _ _ _ _ _ _ _ Hok) as Hp. rewrite Hst in Hp. destruct Hp as (Hm & Hid & Hk & Hdead).
  assert (forall r, r ∈ table w -> removed [id] r = true -> row_key r = key) as Hrem.
  { intros r Hr Hx. apply Hk; [done|]. unfold removed, mem in Hx. apply andb_true_iff in Hx as [Hx _].
    apply bool_decide_eq_true in Hx. by apply list_elem_of_singleton in Hx. }
  split_and!.
  - by apply good_hard_delete.
  - apply (role_stage w); [done|apply ages_hard_delete|done| | |by intros s [= <-]|].
    + intros [[i m] b] Hin He. apply filed_hard_delete; [done|]. intros r Hr Hx Heq. rewrite (Hrem r Hr Hx) in Heq.
      apply (rk_other _ _ _ _ _ _ _ _ Hok i m b key Hin); [by rewrite Hst|done].
    + split; [done|]. intros r [Hr Hx]%kept_row Hkey. pose proof (proj1 (Hk r Hr) Hkey) as Hi.
      unfold removed, mem in Hx. rewrite Hi, bool_decide_eq_true_2, (Hdead r Hr Hi) in Hx; [done|]. by apply list_elem_of_singleton.
    + intros i m b k Hin Hkey. apply (rk_other _ _ _ _ _ _ _ _ Hok i m b k Hin). by rewrite Hst.
  - apply ages_hard_delete.
  - intros keys. by apply collecting_hard_delete.
Qed.

(** And its object deleted. *)
Lemma drop_step key :
  ro_stage me = Dropping key -> Inv w (me :: others) -> Inv (set_objects (delete key (w_objects w)) w) (with_stage me Idle :: others).
Proof.
  intros Hst. apply compaction_step; try done. intros _ Hg Hok. pose proof (rk_stage _ _ _ _ _ _ _ _ Hok) as Hp. rewrite Hst in Hp.
  destruct Hp as (Hm & Hno). split_and!.
  - apply good_delete; [done|]. intros r Hr Hk. by destruct (Hno r Hr).
  - by apply (role_stage w); [done|apply ages_rows|..].
  - by apply ages_rows.
  - done.
Qed.

(** The rows of the run are tombstoned: the merged row has their lines. *)
Lemma retire_step id key lines (ids : list Z) :
  ro_stage me = Holding id key lines ->
  (ro_known me -> (id ∉ ids) /\ forall i, i ∈ ids -> exists meta bytes, (i, meta, bytes) ∈ ro_run me /\ forall x, x ∈ entry_lines meta bytes -> x ∈ lines) ->
  Inv w (me :: others) -> Inv (mark_deleted ids w).2 (with_stage me Idle :: others).
Proof.
  intros Hst Hknown. apply compaction_step; try done. intros _ Hg Hok. pose proof (rk_stage _ _ _ _ _ _ _ _ Hok) as Hp. rewrite Hst in Hp.
  destruct Hp as (Hm & Hid & Hrow & Hlines & Hk & Hback). destruct (Hknown (rk_known _ _ _ _ _ _ _ _ Hok)) as [Hfresh Hcov].
  pose proof (rk_run _ _ _ _ _ _ _ _ Hok) as Hrun. rewrite list.Forall_forall in Hrun. split_and!.
  - apply good_mark_deleted; [done|]. intros r x Hr Hin Hl Hx Hu. destruct (Hcov _ Hin) as (meta & bytes & He & Hsub).
    destruct (Hrun _ He) as (_ & Hfiled & Hmeta). rewrite <- (Hmeta r Hr eq_refl) in Hfiled, Hsub.
    rewrite (row_lines_filed _ _ _ _ _ _ w r bytes Hg Hr Hl Hfiled) in Hx. specialize (Hsub x Hx).
    destruct Hrow as [(r2 & Hr2 & Hi2 & Hl2)|Hexp]; [|by destruct (Hexp x Hsub)]. exists r2. rewrite Hi2, (Hlines r2 Hr2 Hi2 Hl2). done.
  - by apply (role_stage w); [done|apply ages_mark_deleted|..].
  - apply ages_mark_deleted.
  - intros keys. apply collecting_mark.
Qed.

(** A row is inserted for an object that had none. *)
Lemma insert_extends meta w0 :
  let w' := (insert_row meta w0).2 in (w_hazards w' = [] -> w_hazards w0 = []) /\ w_epoch w' = w_epoch w0 /\ w_started w' = w_started w0 /\
    w_now w' = w_now w0 /\ forall e, e ∈ w_filed w0 -> e ∈ w_filed w'.
Proof.
  unfold insert_row. destruct (if 2 <=? _ then _ else _); [done|]. cbn. split_and!; [by intros [? _]%app_eq_nil|done..|].
  intros e He. apply elem_of_app. by left.
Qed.

Lemma adopt_step key bytes meta :
  ro_stage me = Steady key bytes -> cm_storage_key meta = key ->
  (forall identity ls enc, encodes identity ls enc -> bytes = ec_bytes enc -> describes meta enc) ->
  Inv w (me :: others) -> Inv (insert_row meta w).2 (with_stage me Idle :: others).
Proof.
  intros Hst Hkey Hdes. destruct (insert_extends meta w) as (Eh & Ee & Es & En & Ef).
  apply compaction_step; try done. intros Hh Hg Hok. pose proof (rk_stage _ _ _ _ _ _ _ _ Hok) as Hp. rewrite Hst in Hp.
  destruct Hp as [[Hc (identity & ls & enc & Henc & Hb)] Hsame]. pose proof (Hdes _ _ _ Henc Hb) as Hd. split_and!.
  - eapply good_insert; [exact Hg|exact Henc|exact Hd|by rewrite Hkey, <- Hb|by rewrite Hkey, <- Hb|exact Hh].
  - apply (role_stage w); try done; [by apply ages_insert, Hd|]. intros e _. apply Ef.
  - by apply ages_insert, Hd.
  - intros keys. by apply stage_insert; [done|apply Hd|..].
Qed.
End Steps.

(** ** A merge *)

Definition rests (r r' : Role) : Prop :=
  ro_agent r' = ro_agent r /\ ro_started r' = ro_started r /\ ro_run r' = ro_run r /\ ro_stage r' = Idle.

Lemma rests_trans r r1 r2 : rests r r1 -> rests r1 r2 -> rests r r2.
Proof. intros (E1 & E2 & E3 & _) (E1' & E2' & E3' & E4'). split_and!; congruence. Qed.

Lemma keeps_do {A} ag r a (k : reply a -> program A) Q :
  ro_agent r = ag ->
  (forall c w others x w', active w r = true -> Inv w (r :: others) -> perform ag c w a = Some (x, w') ->
     exists r', Inv w' (r' :: others) /\ keeps ag r' (k x) Q) ->
  keeps ag r (Do a k) Q.
Proof. intros Hr Hk. cbn. intros i c w others x w' _ Hi Hp. eapply Hk; [by eapply active_perform|done|done]. Qed.

Lemma rests_idle r : rests r (with_stage r Idle).
Proof. done. Qed.
#[local] Hint Resolve rests_idle : core.

(** A task that gives up after a failed access, which may have had its effect. *)
Lemma stop_here w w1 w' r r1 others :
  active w r = true -> w_epoch w1 = w_epoch w -> ro_agent r1 = ro_agent r -> ro_started r1 = ro_started r -> ro_run r1 = ro_run r ->
  ro_facts r1 = ro_facts r -> (ro_known r1 -> ro_known r) ->
  Inv w (r :: others) -> Inv w1 (r1 :: others) -> w' = w \/ w' = w1 -> Inv w' (with_stage r Idle :: others).
Proof.
  intros Hact Ee Ea Es Er Ef Ek Hi Hi1 [->| ->]; [by apply forget_stage|]. revert Hi1. apply Inv_role; try done.
  { unfold active in *. by rewrite Ea, Ee. }
  intros _ _ [H1' H2' _ H4' _ H6' _ H8']. rewrite Er in *. rewrite Ef in *. rewrite Es, Ea in *. split; try done. by apply Ek.
Qed.

Lemma keeps_calm_stop {A B} ag r a (k : reply a -> program B) Q (Hrep : reply a = answer A) :
  calm a = true -> ro_agent r = ag -> (forall x, keeps ag r (k x) Q \/ keeps ag (with_stage r Idle) (k x) Q) -> keeps ag r (Do a k) Q.
Proof.
  intros Ha Hr Hk. apply keeps_calm_do; [done|done|]. intros c w x w' _. destruct (Hk x) as [Hx|Hx].
  - by exists r.
  - exists (with_stage r Idle). split_and!; try done. intros _ _. by apply role_idle.
Qed.

(** The merged chunk is indexed, or taken back. *)
Lemma keeps_index_merged ag r id seq key lines log_lines Q :
  ro_agent r = ag -> ag_service ag = Compaction -> ro_started r = true -> ro_stage r = Holding id key lines ->
  (forall x, Q (Ok x) r) -> (forall e r', rests r r' -> Q (Err e) r') -> keeps ag r (index_merged id seq key log_lines) Q.
Proof.
  intros Hr Hsvc Hs Hst HQ HE. unfold index_merged, call. cbn [prog_bind].
  apply (keeps_calm_stop (A := IndexOutcome)); [done|done|done|]. intros [[]|e]; left.
  { apply (keeps_calm_stop (A := unit)); [done|done|done|]. intros [x|e]; [left; apply HQ|right; by apply HE]. }
  { apply HQ. }
  unfold prog_try. apply keeps_do; [done|]. intros c w others x w' Hact Hi Hp. unserve Hp.
  pose proof (retract_step w r others ltac:(by rewrite Hr) Hs Hact id key lines Hst Hi) as Hre.
  assert (w_epoch (mark_deleted [id] w).2 = w_epoch w) as Ee by done.
  destruct (mark_deleted [id] w) as [seqs w1]. apply served_cases in Hp as [Hw Hx]. cbn [snd] in *.
  destruct x as [seqs'|e']; [|exists (with_stage r Idle); split; [by apply (stop_here w w1 w' r (with_stage r (Retracting id key)))|by apply HE]].
  destruct (Hx seqs' eq_refl) as [-> _]. exists (with_stage r (Retracting id key)). split; [exact Hre|].
  clear dependent w w1 others seqs seqs'. apply keeps_do; [done|]. intros c2 w others x w' Hact Hi Hp. unserve Hp. rewrite Hsvc in Hp.
  pose proof (remove_step w (with_stage r (Retracting id key)) others ltac:(by cbn; rewrite Hr) Hs Hact id key eq_refl Hi) as Hre.
  assert (w_epoch (hard_delete Compaction [id] w).2 = w_epoch w) as Ee by done.
  destruct (hard_delete Compaction [id] w) as [n w1]. apply served_cases in Hp as [Hw Hx]. cbn [snd] in *.
  destruct x as [n'|e']; [|exists (with_stage r Idle); split; [|by apply HE]].
  2:{ change (with_stage r Idle) with (with_stage (with_stage r (Retracting id key)) Idle).
      by apply (stop_here w w1 w' _ (with_stage r (Dropping key))). }
  destruct (Hx n' eq_refl) as [-> _]. exists (with_stage r (Dropping key)). split; [exact Hre|].
  clear dependent w w1 others n n'. apply keeps_do; [done|]. intros c3 w others x w' Hact Hi Hp. unserve Hp.
  exists (with_stage r Idle). split; [|by apply HE]. apply served_cases in Hp as [Hw _].
  change (with_stage r Idle) with (with_stage (with_stage r (Dropping key)) Idle). eapply (stop_here w _ w' _ (with_stage r Idle)); [exact Hact| |done..|exact Hi| |exact Hw]; [done|].
  by apply (drop_step w (with_stage r (Dropping key)) others ltac:(by cbn; rewrite Hr) Hs Hact key).
Qed.

Lemma rests_stage r r1 r' : ro_agent r1 = ro_agent r -> ro_started r1 = ro_started r -> ro_run r1 = ro_run r -> rests r1 r' -> rests r r'.
Proof. intros E1 E2 E3 (E1' & E2' & E3' & E4'). split_and!; congruence. Qed.

(** The rest of [ManifestRepo::insert], behind the row. *)
Lemma keeps_insert_tail ag r (inserted : Z * option Z) key container_id ended_at Q :
  ro_agent r = ag -> (forall seq, Q (Ok (inserted.1, seq)) r) -> (forall e, Q (Err e) (with_stage r Idle)) ->
  keeps ag r (try* _ := call (AdvancePosition container_id ended_at) in
              match inserted.2 with
              | Some seq => Ret (Ok (inserted.1, seq))
              | None => try* found := call (SeqOfKey key) in
                        Ret (match found with Some seq => Ok (inserted.1, seq) | None => Err (ManifestConflictUnresolved key) end)
              end) Q.
Proof.
  intros Hr HQ HE. unfold prog_try, call. cbn [prog_bind]. apply (keeps_calm_stop (A := unit)); [done|done|done|].
  intros [x|e]; [|right; apply HE]. destruct inserted as [id [seq|]]; cbn [fst snd]; [left; apply HQ|]. left.
  cbn [prog_bind]. apply (keeps_calm_stop (A := option Z)); [done|done|done|]. intros [[seq|]|e]; [left; apply HQ|right; apply HE|right; apply HE].
Qed.

Definition holding_role (r : Role) (key : string) (lines : list (string * DecodedLine)) (id : Z) : Role :=
  with_known (with_stage r (Holding id key lines)) (forall e, e ∈ ro_run r -> e.1.1 <> id).

Lemma keeps_insert_merged ag r key enc lines size Q :
  ro_agent r = ag -> ag_service ag = Compaction -> ro_started r = true -> ro_stage r = Pending key enc lines ->
  (forall id seq, Q (Ok (id, seq)) (holding_role r key lines id)) -> (forall e r', rests r r' -> Q (Err e) r') ->
  keeps ag r (manifest_insert (build_chunk_meta enc key size)) Q.
Proof.
  intros Hr Hsvc Hs Hst HQ HE. unfold manifest_insert. unfold prog_try at 1, call at 1. cbn [prog_bind].
  set (meta := build_chunk_meta enc key size). apply keeps_do; [done|]. intros c w others x w' Hact Hi Hp. unserve Hp.
  pose proof (insert_step w r others ltac:(by rewrite Hr) Hs Hact key enc lines size Hst Hi) as Hin. fold meta in Hin.
  pose proof (insert_cases meta w (de_version _ _ (built_describes key size enc))) as Hcases.
  assert (w_epoch (insert_row meta w).2 = w_epoch w /\ (insert_row meta w).1.1 = w_next_id w) as [Ee Eid].
  { destruct Hcases as [(r0 & _ & ->)|(_ & E0 & _ & _ & _ & _ & E1 & _)]; [done|]. by rewrite E1, E0. }
  destruct (insert_row meta w) as [[id o] w1]. cbn [fst snd] in *. subst id. apply served_cases in Hp as [Hw Hx].
  destruct x as [inserted|e].
  - destruct (Hx _ eq_refl) as [-> [= <-]]. exists (holding_role r key lines (w_next_id w)). split; [exact Hin|].
    apply (keeps_insert_tail ag (holding_role r key lines (w_next_id w)) (w_next_id w, o)); [done|intros seq; apply HQ|]. intros e. by apply HE.
  - exists (with_stage r Idle). split; [|by apply HE]. by eapply (stop_here w w1 w' r _ _ Hact Ee _ _ _ _ _ Hi Hin Hw).
Unshelve. all: try done. by intros [? _].
Qed.

(** The lines of a run, sorted and labelled, as readers will see them. *)
Lemma merged_lines identity lines x :
  x ∈ map (fun l => (ci_container_id identity, decoded 0 l)) (map (identity_line identity) (merge_sort line_le lines)) <->
  x ∈ map (fun l => (ci_container_id identity, unplaced l)) lines.
Proof.
  rewrite map_map. rewrite (Permutation_map _ (merge_sort_Permutation line_le lines)).
  erewrite map_ext; [done|]. intros l. by rewrite decoded_identity_line.
Qed.

Lemma keeps_swap ag r cid ms identity lines enc :
  ro_agent r = ag -> ag_service ag = Compaction -> ro_started r = true -> ro_stage r = Idle -> ci_container_id identity = cid ->
  (ro_known r -> run_read (ro_run r) cid ms lines) ->
  (exists with_bloom, encode_segments identity [map (identity_line identity) (merge_sort line_le lines)] with_bloom = Ok enc) ->
  keeps ag r (swap_run ms (map (identity_line identity) (merge_sort line_le lines)) enc (merged_key date_hour enc identity)) (fun _ r' => rests r r').
Proof.
  intros Hr Hsvc Hs Hst Hcid Hread Henc. set (log_lines := map (identity_line identity) _) in *. set (key := merged_key date_hour enc identity).
  set (S := map (fun l => (ci_container_id identity, decoded 0 l)) log_lines).
  unfold swap_run. unfold prog_try at 1, call at 1. cbn [prog_bind]. apply keeps_do; [done|]. intros c w others x w' Hact Hi Hp. unserve Hp.
  assert (Inv (written w key (ec_bytes enc)) (with_stage r (Pending key enc S) :: others)) as Hwr.
  { apply write_step; try done; [by rewrite Hr|apply merged_key_merged|]. intros Hg Hok.
    pose proof (run_lines_good w (ro_run r) cid ms lines identity Hg (rk_run _ _ _ _ _ _ _ _ Hok) (Hread (rk_known _ _ _ _ _ _ _ _ Hok))) as (H1' & H2' & H3').
    pose proof (Permutation_map (identity_line identity) (merge_sort_Permutation line_le lines)) as Hperm. fold log_lines in Hperm.
    split_and!; [by rewrite Hperm|by rewrite Hperm|]. intros l Hl. rewrite Hperm in Hl. apply list_elem_of_fmap in Hl as (l0 & -> & Hl0).
    rewrite decoded_identity_line, Hcid. by apply H3'. }
  apply served_cases in Hp as [Hw Hx]. destruct x as [size|e]; [|exists (with_stage r Idle); split; [|done]].
  2:{ by apply (stop_here w (written w key (ec_bytes enc)) w' r (with_stage r (Pending key enc S))). }
  destruct (Hx size eq_refl) as [-> _]. exists (with_stage r (Pending key enc S)). split; [exact Hwr|]. clear dependent w others c.
  unfold prog_try at 1. apply keeps_bind. set (r1 := with_stage r (Pending key enc S)).
  apply (keeps_insert_merged ag r1 key enc S); [done..| |intros e r' Hrest; cbn; by apply (rests_stage r r1)]. intros id seq. cbn [fst snd].
  set (r2 := holding_role r1 key S id). unfold prog_try at 1. apply keeps_bind.
  apply (keeps_index_merged ag r2 id seq key S); [done..| |intros e r' Hrest; cbn; by apply (rests_stage r r2)]. intros _.
  unfold prog_try at 1, call at 1. cbn [prog_bind]. apply keeps_do; [done|]. intros c w others x w' Hact Hi Hp. unserve Hp.
  assert (Inv (mark_deleted (map li_id ms) w).2 (with_stage r2 Idle :: others)) as Hret.
  { apply (retire_step w r2 others ltac:(by cbn; rewrite Hr) Hs Hact id key S); [done| |done]. cbn. intros [Hk Hids]. specialize (Hread Hk). split.
    - intros (m & -> & Hm)%list_elem_of_fmap. destruct (run_covered _ _ _ _ _ Hread Hm) as (e & (He & [Hid _] & _) & _). by apply (Hids e He).
    - intros i (m & -> & Hm)%list_elem_of_fmap. destruct (run_covered _ _ _ _ _ Hread Hm) as ([[i meta] bytes] & (He & [Hid _] & _) & Hcov).
      exists meta, bytes. cbn in Hid. rewrite Hid. split; [done|]. intros y Hy. unfold S, log_lines. apply merged_lines. rewrite Hcid. by apply Hcov. }
  assert (w_epoch (mark_deleted (map li_id ms) w).2 = w_epoch w) as Ee by done.
  destruct (mark_deleted (map li_id ms) w) as [seqs w1]. cbn [snd] in *. apply served_cases in Hp as [Hw Hx]. exists (with_stage r2 Idle).
  destruct x as [seqs'|e]; [|split; [by apply (stop_here w w1 w' r2 (with_stage r2 Idle))|by apply (rests_stage r r2)]].
  destruct (Hx seqs' eq_refl) as [-> _]. split; [done|]. apply keeps_calm_bind; [|done|by intros x; cbn; apply (rests_stage r r2)].
  unfold forget_in_index. only_steps.
Qed.

Lemma keeps_merge_run ag r cid ms :
  ro_agent r = ag -> ag_service ag = Compaction -> ro_started r = true -> ro_stage r = Idle -> listed (ro_run r) cid ms ->
  keeps ag r (merge_run order date_hour log_line_from_str is_whitespace ms) (fun _ r' => rests r r').
Proof.
  intros Hr Hsvc Hs Hst Hl. unfold merge_run. destruct ms as [|first ms']; [done|]. set (ms := first :: ms') in *.
  destruct (Hl first (list_elem_of_here _ _)) as (e & _ & [_ (seq & Hm)] & Hc).
  set (identity := labels_identity (mf_labels (li_manifest first))).
  assert (ci_container_id identity = cid) as Hcid by (unfold identity; rewrite Hm; exact Hc).
  unfold prog_try. apply keeps_bind. eapply keeps_mono; [|by apply (keeps_read_run ag r cid ms)].
  intros [lines|err] r1 Hle; [|cbn; split_and!; apply Hle || (rewrite (le_stage _ _ _ Hle); exact Hst)].
  destruct lines as [|l lines']; [cbn; split_and!; apply Hle || (rewrite (le_stage _ _ _ Hle); exact Hst)|]. set (lines := l :: lines') in *.
  destruct (encode_segments _ _ _) as [enc|err] eqn:Henc; [|cbn; split_and!; apply Hle || (rewrite (le_stage _ _ _ Hle); exact Hst)].
  eapply keeps_mono; [|apply (keeps_swap ag r1 cid ms identity lines enc); [..|by exists true]].
  - intros x r' Hrest. by apply (rests_stage r r1); [apply Hle..|].
  - by rewrite (le_agent _ _ _ Hle).
  - done.
  - by rewrite (le_started _ _ _ Hle).
  - by rewrite (le_stage _ _ _ Hle).
  - done.
  - intros Hk. rewrite (le_run _ _ _ Hle). by apply (le_known _ _ _ Hle Hk).
Qed.

(** ** A container, and a window *)

Lemma group_step_in runs current bytes m m0 :
  let '(runs', current', _) := group_step (runs, current, bytes) m in
  (exists run, run ∈ runs' /\ m0 ∈ run) \/ m0 ∈ current' -> ((exists run, run ∈ runs /\ m0 ∈ run) \/ m0 ∈ current) \/ m0 = m.
Proof.
  unfold group_step. destruct current as [|c cs]; [|destruct (_ <? _)].
  - intros [?| ->%list_elem_of_singleton]; by auto.
  - intros [(run & [Hr| ->%list_elem_of_singleton]%elem_of_app & Hm)| ->%list_elem_of_singleton]; eauto.
  - intros [?|[Hm| ->%list_elem_of_singleton]%elem_of_app]; by auto.
Qed.

Lemma group_runs_in ms run m : run ∈ group_runs ms -> m ∈ run -> m ∈ ms.
Proof.
  intros Hrun Hm.
  assert (forall ms runs current bytes, let '(runs', current', _) := fold_left group_step ms (runs, current, bytes) in
    (exists run, run ∈ runs' /\ m ∈ run) \/ m ∈ current' -> ((exists run, run ∈ runs /\ m ∈ run) \/ m ∈ current) \/ m ∈ ms) as Hx.
  { clear. induction ms as [|a ms IH]; intros runs current bytes; cbn [fold_left]; [tauto|].
    pose proof (group_step_in runs current bytes a m) as Hstep. destruct (group_step (runs, current, bytes)) as [[runs1 current1] bytes1].
    specialize (IH runs1 current1 bytes1). destruct (fold_left group_step ms _) as [[runs2 current2] bytes2].
    intros [[?| ->]%Hstep|?]%IH; [by left|right; by left|right; by right]. }
  specialize (Hx ms [] [] 0). unfold group_runs in Hrun. destruct (fold_left group_step ms _) as [[runs current] bytes].
  assert ((exists run, run ∈ runs /\ m ∈ run) \/ m ∈ current) as Hin.
  { destruct current; [by eauto|]. apply elem_of_app in Hrun as [Hrun| ->%list_elem_of_singleton]; eauto. }
  destruct (Hx Hin) as [[(run' & ?%elem_of_nil & _)|?%elem_of_nil]|]; done.
Qed.

Lemma keeps_merge_runs ag r cid runs report :
  ro_agent r = ag -> ag_service ag = Compaction -> ro_started r = true -> ro_stage r = Idle ->
  (forall run, run ∈ runs -> listed (ro_run r) cid run) ->
  keeps ag r (merge_runs order date_hour log_line_from_str is_whitespace runs report) (fun _ r' => rests r r').
Proof.
  revert r report. induction runs as [|run runs IH]; intros r report Hr Hsvc Hs Hst Hl; [done|]. cbn [merge_runs].
  assert (forall run', run' ∈ runs -> listed (ro_run r) cid run') as Hl' by (intros run' ?; apply Hl; by right).
  destruct (2 <=? length run)%nat; [|by apply IH]. unfold prog_try. apply keeps_bind.
  eapply keeps_mono; [|apply (keeps_merge_run ag r cid run); [done..|apply Hl; left]]. intros [x|e] r1 Hrest; [|done].
  pose proof Hrest as (E1 & E2 & E3 & E4). eapply keeps_mono; [|apply IH; [congruence|done|congruence|done|by rewrite E3]].
  intros x2 r2. by apply rests_trans.
Qed.

(** What a task of the compactor's own is between its accesses. *)
Definition compactor (ag : Agent) (r : Role) : Prop := ro_agent r = ag /\ ro_started r = true /\ ro_stage r = Idle.

Lemma rests_compactor ag r r' : compactor ag r -> rests r r' -> compactor ag r'.
Proof. intros (E1 & E2 & _) (E1' & E2' & _ & E4'). split_and!; congruence. Qed.

(** The rows of a window become the run. *)
Definition run_of (w : World) (rows : list ChunkRow) : list (Z * ChunkMeta * list Z) :=
  map (fun r => (cr_id r, cr_meta r, default [] (w_objects w !! row_key r))) rows.

Lemma run_of_ok w rows : good w -> (forall r, r ∈ rows -> r ∈ w_rows w /\ live r = true) -> Forall (run_ok w) (run_of w rows).
Proof.
  intros Hg Hrows. rewrite list.Forall_forall. intros e (r & -> & Hr)%list_elem_of_fmap. destruct (Hrows r Hr) as [Hin Hl].
  destruct (g_row _ _ _ _ _ _ _ Hg _ (row_in_table w r Hin)) as (Hlt & b & Hb & Hob). specialize (Hob Hl).
  change (row_key (index_row r)) with (row_key r) in Hob. change (cr_meta (index_row r)) with (cr_meta r) in Hb. cbn. rewrite Hob.
  split_and!; [exact Hlt|exact Hb|]. intros r' Hr' Hid. by rewrite (row_id_inj _ _ _ _ _ _ w r' (index_row r) Hg Hr' (row_in_table w r Hin) Hid).
Qed.

Lemma window_rows cid start e w r0 :
  r0 ∈ for_container_window cid start e (w_rows w) -> r0 ∈ w_rows w /\ live r0 = true /\ cl_container_id (row_labels r0) = cid.
Proof.
  unfold for_container_window. rewrite merge_sort_Permutation.
  intros [Hin [[Hl Hk%String.eqb_eq]%andb_true_iff _]%andb_true_iff]%list_elem_of_In%filter_In. by rewrite list_elem_of_In.
Qed.

Lemma window_role w r rows :
  ag_service (ro_agent r) = Compaction -> ro_started r = true -> ro_stage r = Idle -> (forall r0, r0 ∈ rows -> r0 ∈ w_rows w /\ live r0 = true) ->
  good w -> role_ok w r -> role_ok w (with_run r (run_of w rows)).
Proof.
  intros Hsvc Hs Hst Hrows Hg [_ H2' H3' H4' H5' _ _ H8']. split; try done; [by apply run_of_ok|]. cbn. by rewrite Hst.
Qed.

Lemma window_listed w cid rows run :
  (forall r0, r0 ∈ rows -> cl_container_id (row_labels r0) = cid) -> run ∈ group_runs (map row_to_manifest rows) -> listed (run_of w rows) cid run.
Proof.
  intros Hrows Hrun m Hm. pose proof (group_runs_in _ _ _ Hrun Hm) as (r0 & -> & Hr0)%list_elem_of_fmap.
  exists (cr_id r0, cr_meta r0, default [] (w_objects w !! row_key r0)). split_and!; [apply list_elem_of_fmap; by exists r0| |by apply Hrows].
  split; [done|by exists (cr_seq r0)].
Qed.

Lemma keeps_compact_container ag r cid start e :
  ag_service ag = Compaction -> compactor ag r ->
  keeps ag r (compact_container order date_hour log_line_from_str is_whitespace cid start e) (fun _ r' => compactor ag r').
Proof.
  intros Hsvc Hc. pose proof Hc as (Hr & Hs & Hst). unfold compact_container, prog_try, call. cbn [prog_bind].
  apply keeps_calm_do; [done|done|]. intros c w x w' Hp. unserve Hp. apply served_cases in Hp as [_ Hx].
  destruct x as [ms|err]; [|by exists r]. destruct (Hx ms eq_refl) as [_ [= <-]]. clear Hx. set (rows := for_container_window cid start e (w_rows w)).
  exists (with_run r (run_of w rows)). split_and!; [done|done| |].
  { intros _. apply window_role; try done; [by rewrite Hr|]. intros r0 Hr0. by destruct (window_rows _ _ _ _ _ Hr0) as (? & ? & _). }
  destruct (_ <? _); [done|]. eapply keeps_mono; [|apply (keeps_merge_runs ag (with_run r (run_of w rows)) cid); try done].
  - intros x2 r'. by apply rests_compactor.
  - intros run. apply window_listed. intros r0 Hr0. by apply (window_rows _ _ _ _ _ Hr0).
Qed.

Lemma keeps_compact_containers ag r ids start e report :
  ag_service ag = Compaction -> compactor ag r ->
  keeps ag r (compact_containers order date_hour log_line_from_str is_whitespace ids start e report) (fun _ r' => compactor ag r').
Proof.
  intros Hsvc. revert r report. induction ids as [|id ids IH]; intros r report Hc; [done|]. cbn [compact_containers]. apply keeps_bind.
  eapply keeps_mono; [|by apply keeps_compact_container]. intros x r' Hc'. by apply IH.
Qed.

Lemma keeps_compact_once ag r :
  ag_service ag = Compaction -> compactor ag r ->
  keeps ag r (compact_once order date_hour log_line_from_str is_whitespace midnight) (fun _ r' => compactor ag r').
Proof.
  intros Hsvc Hc. unfold compact_once, compact_window, call. cbn [prog_bind]. apply keeps_calm_do; [done|apply Hc|]. intros c w now w' _.
  exists r. split_and!; [apply Hc|done|done|]. apply keeps_calm_do; [done|apply Hc|]. intros c1 w1 x w1' _. exists r. split_and!; [apply Hc|done|done|].
  destruct x; [by apply keeps_compact_containers|done].
Qed.
End Merge.
