(* ===== verification/CompactorRuns.v ===== *)
(** * Compaction loses no line

    [adopt] and [reconcile_once] of [crates/temps-log-aggregator/src/services/compactor.rs], the loops of
    [plugin.rs], and what holds of every run of the services: a line that was filed and that no
    retention cutoff has passed stays readable, as long as none of the hazards of [Compactor] occurs.
    The last part is a run in which one does occur. *)

From S2P Require Import Prelude Bytes Utf8 ChunkBlock Bloom ChunkFile ChunkScan Wal WalDisk HeadBuffer ChunkWriter WriterStore WriterRuns Prog Compactor CompactorRead CompactorSafety CompactorKeeps CompactorMerge.
From stdpp Require Import sorting.
Local Open Scope Z_scope.

Section Runs.
Context `{ChronoLaws} `{ZstdLaws} `{JsonLaws} `{!FooterJson} `{!FooterJsonLaws _} `{Crc32} `{Xxh3} `{Unicode} `{!Durations}.
Context (order : BloomBuilder -> list Z) (date_hour : DateTime -> string)
  (content_hash : option (string * Z * Z) -> list Z -> string) `{!HashLaws content_hash}
  (log_line_from_str : list Z -> option LogLine) (is_whitespace : Z -> bool)
  (key_order : gmap string (list Z) -> list (string * list Z)) (midnight : DateTime -> option DateTime).
Hypothesis order_all : forall es e, e ∈ order es <-> e ∈ es.
(** The hash of a chunk is longer than the suffix of a merged one. *)
Hypothesis hash_long : forall rid bytes, content_hash rid bytes <> "c"%string.
Hypothesis key_order_all : forall m, key_order m ≡ₚ map_to_list m.
Context (cutoff : DateTime).

#[local] Abbreviation encodes := (encodes order).
#[local] Abbreviation storage_key := (storage_key date_hour content_hash).
#[local] Abbreviation encode_segments := (encode_segments order).
#[local] Abbreviation entry_lines := (entry_lines log_line_from_str is_whitespace).
#[local] Abbreviation row_lines := (row_lines log_line_from_str is_whitespace).
#[local] Abbreviation read_all_lines := (read_all_lines log_line_from_str is_whitespace).
#[local] Abbreviation good := (good order date_hour content_hash log_line_from_str is_whitespace cutoff).
#[local] Abbreviation stage_ok := (stage_ok order date_hour content_hash log_line_from_str is_whitespace cutoff).
#[local] Abbreviation role_ok := (role_ok order date_hour content_hash log_line_from_str is_whitespace cutoff).
#[local] Abbreviation Inv := (Inv order date_hour content_hash log_line_from_str is_whitespace cutoff).
#[local] Abbreviation unexpired := (unexpired cutoff).
#[local] Abbreviation happen := (happen order date_hour content_hash).
#[local] Abbreviation body := (body order date_hour log_line_from_str is_whitespace key_order midnight).
#[local] Abbreviation program := (prog reply).

#[local] Abbreviation allowed := (allowed order cutoff).
#[local] Abbreviation keeps := (keeps perform allowed Inv).
#[local] Abbreviation seen := (seen log_line_from_str is_whitespace).
#[local] Abbreviation backed := (backed log_line_from_str is_whitespace).

#[local] Abbreviation adopt_step := (adopt_step order date_hour content_hash log_line_from_str is_whitespace cutoff).
#[local] Abbreviation stop_here := (stop_here order date_hour content_hash log_line_from_str is_whitespace cutoff).

(** ** Reconciling *)

(** A task of the compactor's own reads the object of a key it will not see changed. *)
Lemma read_steady ag r key c w bytes w' :
  ag_service ag = Compaction -> compactor ag r -> perform ag c w (ReadChunk key) = Some (Ok bytes, w') -> good w -> role_ok w r ->
  role_ok w (with_stage r (Steady key bytes)).
Proof.
  intros Hsvc (Hr & Hs & Hst) Hp Hg [H1' H2' _ H4' _ H6' _ H8']. unserve Hp. apply served_cases in Hp as [_ Hx].
  destruct (Hx bytes eq_refl) as [_ Ho%ok_or_Ok]. split; try done.
  - cbn. split; [by apply (g_object _ _ _ _ _ _ _ Hg)|]. intros b. rewrite Ho. by intros [= <-].
  - cbn. intros s [= <-]. by rewrite Hs, Hr.
Qed.

(** What [adopt] files is what the object says. *)
Lemma adopted_meta_describes key bytes trailer section footer :
  decode_trailer (drop (Z.to_nat (blen bytes - TRAILER_LEN)) bytes) = Ok trailer ->
  slice bytes (footer_offset trailer) (footer_offset trailer + footer_len trailer) = Some section ->
  decode_footer section trailer = Ok footer ->
  forall identity ls enc, encodes identity ls enc -> bytes = ec_bytes enc -> describes (adopted_meta key (blen bytes) trailer footer) enc.
Proof.
  intros Ht Hs Hf identity ls enc Henc ->. destruct (adopt_finds order order_all _ _ _ Henc) as (_ & Ht' & section' & Hs' & Hf').
  rewrite Ht in Ht'. apply Ok_inj in Ht' as ->. rewrite Hs in Hs'. injection Hs' as <-. rewrite Hf in Hf'. apply Ok_inj in Hf' as ->.
  apply adopted_describes. by destruct (encodes_layout order order_all _ _ _ Henc) as (? & ? & ? & ? & _ & _ & _ & _ & _ & _ & Hv & _).
Qed.

Lemma keeps_adopt ag r key :
  ag_service ag = Compaction -> compactor ag r -> keeps ag r (adopt key) (fun _ r' => compactor ag r').
Proof.
  intros Hsvc Hc. pose proof Hc as (Hr & Hs & Hst). unfold adopt. unfold prog_try at 1, call at 1. cbn [prog_bind].
  apply keeps_calm_do; [done|done|]. intros c w x w' Hp. destruct x as [bytes|e]; [|by exists r]. cbv zeta.
  destruct (blen bytes <? TRAILER_LEN); [by exists r|]. unfold prog_try.
  destruct (decode_trailer _) as [trailer|e] eqn:Ht; cbn [lift broken prog_bind]; [|by exists r].
  destruct (slice bytes _ _) as [section|] eqn:Hsl; cbn [ok_or prog_bind]; [|by exists r].
  destruct (decode_footer section trailer) as [footer|e] eqn:Hf; cbn [lift broken prog_bind]; [|by exists r].
  pose proof (adopted_meta_describes key bytes trailer section footer Ht Hsl Hf) as Hdes. set (meta := adopted_meta _ _ _ _) in *.
  set (r1 := with_stage r (Steady key bytes)). exists r1. split_and!; [done|done|intros _; by apply (read_steady ag r key c w bytes w')|].
  apply keeps_bind. unfold manifest_insert. unfold prog_try at 1, call at 1. cbn [prog_bind]. apply keeps_do; [done|].
  clear dependent c w w'. intros c w others x w' Hact Hi Hp. unserve Hp.
  assert (Inv (insert_row meta w).2 (with_stage r1 Idle :: others)) as Hin by (apply (adopt_step w r1 others ltac:(by cbn; rewrite Hr) Hs Hact key bytes); done).
  destruct (insert_extends meta w) as (_ & Ee & _). destruct (insert_row meta w) as [ins w1]. cbn [snd] in *. apply served_cases in Hp as [Hw Hx].
  exists (with_stage r Idle). destruct x as [ins'|e]; [|split; [by apply (stop_here w w1 w' r1 (with_stage r1 Idle))|done]].
  destruct (Hx ins' eq_refl) as [-> _]. split; [exact Hin|]. apply (keeps_insert_tail order date_hour content_hash log_line_from_str is_whitespace cutoff); [done|..]; intros; done.
Qed.

Lemma keeps_adopt_all ag r keys report :
  ag_service ag = Compaction -> compactor ag r -> keeps ag r (adopt_all keys report) (fun _ r' => compactor ag r').
Proof.
  intros Hsvc. revert r report. induction keys as [|key keys IH]; intros r report Hc; [done|]. cbn [adopt_all]. apply keeps_bind.
  eapply keeps_mono; [|by apply keeps_adopt]. intros x r' Hc'. by apply IH.
Qed.

Lemma keeps_adopt_batches ag r batches report :
  ag_service ag = Compaction -> compactor ag r -> keeps ag r (adopt_batches batches report) (fun _ r' => compactor ag r').
Proof.
  intros Hsvc. revert r report. induction batches as [|batch batches IH]; intros r report Hc; [done|]. cbn [adopt_batches].
  apply keeps_calm_bind; [only_steps|apply Hc|]. intros [known|e]; [|by apply IH]. apply keeps_bind.
  eapply keeps_mono; [|by apply keeps_adopt_all]. intros x r' Hc'. by apply IH.
Qed.

(** What a task knows of the rows it has listed: their keys; and that some are dead. *)
Definition knows_key (r : Role) (m : Listed) : Prop :=
  exists f, f ∈ ro_facts r /\ f.1 = li_id m /\ forall meta, f.2 meta -> cm_storage_key meta = mf_storage_key (li_manifest m).
Definition knows_dead (r : Role) (m : Listed) : Prop := exists f, f ∈ ro_facts r /\ f.1 = li_id m /\ forall meta, ~ f.2 meta.

Lemma keeps_missing ag r page report :
  compactor ag r -> Forall (knows_key r) page ->
  keeps ag r (missing_objects page report) (fun x r' => compactor ag r' /\ (forall f, f ∈ ro_facts r -> f ∈ ro_facts r') /\ Forall (knows_dead r') x.1).
Proof.
  revert r report. induction page as [|m page IH]; intros r report Hc Hk; [done|]. cbn [missing_objects]. unfold call. cbn [prog_bind].
  pose proof Hc as (Hr & Hs & Hst). inv Hk. match goal with H : knows_key r m |- _ => destruct H as (f & Hf & Hid & Hkey) end.
  apply keeps_calm_do; [done|done|]. intros c w x w' Hp. unserve Hp. apply served_cases in Hp as [_ Hx].
  destruct x as [[]|e]; [exists r; split_and!; try done; by apply IH| |exists r; split_and!; try done; by apply IH].
  destruct (Hx false eq_refl) as [_ [= Hno]]. apply bool_decide_eq_false in Hno. set (dead := (li_id m, fun _ : ChunkMeta => False)).
  set (r1 := with_facts r (dead :: ro_facts r)). exists r1. split_and!; [done|done| |].
  - intros _ Hg Hok. apply role_facts; [done|]. pose proof (rk_facts _ _ _ _ _ _ _ _ Hok) as Hfs. constructor; [|done].
    rewrite list.Forall_forall in Hfs. destruct (Hfs f Hf) as [Hlt Hrow]. split; [cbn; lia|]. cbn [fst snd dead]. intros row Hin Hi Hl.
    apply Hno. rewrite <- (Hkey (cr_meta row)); [|apply Hrow; [done|congruence|done]].
    destruct (g_row _ _ _ _ _ _ _ Hg row Hin) as (_ & b & _ & Hb). exists b. by apply Hb.
  - apply keeps_bind. eapply keeps_mono; [|apply IH; [done|]].
    + intros [found report'] r' (Hc' & Hsub & Hdead). cbn. split_and!; [done|intros g Hg; apply Hsub; by right|]. constructor; [|done].
      exists dead. split_and!; [apply Hsub; left|done|]. by intros meta [].
    + eapply Forall_impl; [eassumption|]. intros m' (g & Hg & ?). exists g. split; [by right|done].
Qed.

Lemma keeps_tombstone_missing ag r fuel after report :
  ag_service ag = Compaction -> compactor ag r -> keeps ag r (tombstone_missing fuel after report) (fun _ r' => compactor ag r').
Proof.
  intros Hsvc. revert r after report. induction fuel as [|fuel IH]; intros r after report Hc; [done|]. cbn [tombstone_missing]. unfold call at 1. cbn [prog_bind].
  pose proof Hc as (Hr & Hs & Hst). apply keeps_calm_do; [done|done|]. intros c w x w' Hp. unserve Hp. apply served_cases in Hp as [_ Hx].
  destruct x as [page|e]; [|by exists r]. destruct (Hx page eq_refl) as [_ [= <-]]. clear Hx. set (rows := live_after_seq after 500 (w_rows w)).
  set (r1 := with_facts r (map (fun r0 => (cr_id r0, fun meta => meta = cr_meta r0)) rows)).
  assert (w_hazards w = [] -> good w -> role_ok w r -> role_ok w r1) as Hr1.
  { intros _ Hg Hok. apply role_facts; [done|]. rewrite list.Forall_forall. intros f (r0 & -> & Hr0)%list_elem_of_fmap. apply (listed_fact order date_hour content_hash log_line_from_str is_whitespace cutoff); [done| |done].
    apply subseteq_take in Hr0. rewrite merge_sort_Permutation in Hr0. apply list_elem_of_In, filter_In in Hr0 as [Hin _]. by apply list_elem_of_In. }
  exists r1. split_and!; [done|done|done|]. clearbody rows. destruct (map row_to_manifest rows) as [|m ms] eqn:Hms; [done|]. rewrite <- Hms.
  cbv zeta. apply keeps_bind. eapply keeps_mono; [|apply (keeps_missing ag r1); [done|]].
  2:{ rewrite list.Forall_forall. intros m0 (r0 & -> & Hr0)%list_elem_of_fmap. exists (cr_id r0, fun meta => meta = cr_meta r0).
      split_and!; [apply list_elem_of_fmap; by exists r0|done|]. by intros meta ->. }
  clear dependent w w' c. intros [missing report'] r2 (Hc2 & _ & Hdead). cbn [fst snd] in *. destruct missing as [|m0 missing]; [by apply IH|].
  set (gone := m0 :: missing) in *. unfold call at 1. cbn [prog_bind]. pose proof Hc2 as (Hr2 & Hs2 & Hst2). apply keeps_do; [done|].
  intros c w others x w' Hact Hi Hp. unserve Hp. exists r2. split.
  - assert (Inv (mark_deleted (map li_id gone) w).2 (r2 :: others)) as Hmk.
    { apply (mark_expired order date_hour content_hash log_line_from_str is_whitespace order_all cutoff); [|done|done].
      intros i (m1 & -> & Hm1)%list_elem_of_fmap. rewrite list.Forall_forall in Hdead. destruct (Hdead m1 Hm1) as (f & Hf & Hid & Hno).
      exists f. split_and!; [done|done|]. intros meta Hmeta. by destruct (Hno meta). }
    destruct (mark_deleted (map li_id gone) w) as [seqs w1]. by apply served_cases in Hp as [[->| ->] _].
  - destruct x as [seqs|e]; [|by apply IH]. apply keeps_calm_bind; [unfold forget_in_index; only_steps|done|]. intros _. by apply IH.
Qed.

Lemma keeps_reconcile ag r fuel :
  ag_service ag = Compaction -> compactor ag r -> keeps ag r (reconcile_once fuel) (fun _ r' => compactor ag r').
Proof.
  intros Hsvc Hc. unfold reconcile_once. apply keeps_calm_bind; [only_steps|apply Hc|]. intros x. apply keeps_bind.
  eapply (keeps_mono _ _ _ _ _ _ (fun _ r' => compactor ag r')); [intros y r' Hc'; by apply keeps_tombstone_missing|].
  destruct x as [keys|e]; [by apply keeps_adopt_batches|done].
Qed.
(** ** The services of a process *)

Definition new_role (ag : Agent) (started : bool) : Role :=
  {| ro_agent := ag; ro_started := started; ro_run := []; ro_facts := []; ro_stage := Idle; ro_known := True |}.

Lemma started_elem w roles s :
  s ∈ started_services w roles -> exists o, o ∈ roles /\ active w o = true /\ ro_started o = true /\ ag_service (ro_agent o) = s.
Proof.
  intros (o & -> & Ho)%list_elem_of_fmap. apply list_elem_of_In, filter_In in Ho as [Ho [Ha Hs]%andb_true_iff].
  exists o. split_and!; [by apply list_elem_of_In|done..].
Qed.

(** A service starts once in a process. *)
Lemma start_step ag w others :
  ag_epoch ag = w_epoch w -> ag_service ag ∉ w_started w -> Inv w (new_role ag false :: others) ->
  Inv (set_process (w_epoch w) (ag_service ag :: w_started w) (w_now w) w) (new_role ag true :: others).
Proof.
  intros He Hnot Hi Hh. destruct (Hi Hh) as (Hg & Hr & Hn & Hp). set (w' := set_process _ _ _ w).
  assert (forall o, role_ok w o -> role_ok w' o) as Hmono.
  { intros o [H1' H2' H3' H4' H5' H6' H7' H8']. split; try done. intros Hs. right. by apply H4'. }
  split_and!.
  - by apply (good_same order date_hour content_hash log_line_from_str is_whitespace cutoff w).
  - intros o [->|Ho]%elem_of_cons Hact; [|apply Hmono, Hr; [by right|exact Hact]].
    split; try done. intros _. left.
  - unfold started_services in *. cbn [List.filter] in *. change (active w' ?o) with (active w o). cbn [new_role ro_started] in *.
    rewrite andb_false_r in Hn. destruct (active w (new_role ag true)); cbn [andb]; [|exact Hn]. cbn [map]. apply NoDup_cons.
    split; [|exact Hn]. intros (o & Ho & Hact & Hs & Heq)%started_elem. apply Hnot. change (ag_service ag) with (ag_service (ro_agent (new_role ag true))). rewrite <- Heq. apply (Hr o ltac:(by right) Hact), Hs.
  - intros o [->|Ho]%elem_of_cons Hlt; [cbn in Hlt; lia|]. apply Hp; [by right|exact Hlt].
Qed.

Lemma keeps_begin {A} ag (k : unit -> program A) Q :
  keeps ag (new_role ag true) (k ()) Q -> keeps ag (new_role ag false) (Do Start k) Q.
Proof.
  intros Hk. apply keeps_do; [done|]. intros c w others [] w' Hact Hi Hp. pose proof (perform_epoch _ _ _ _ _ _ Hp) as He. unserve Hp.
  case_bool_decide as Hin; [done|]. injection Hp as <-. exists (new_role ag true). split; [by apply start_step|done].
Qed.

Lemma keeps_repeat ag r n (p : program unit) (P : Role -> Prop) :
  P r -> (forall r, P r -> keeps ag r p (fun _ r' => P r')) -> keeps ag r (repeat_prog n p) (fun _ r' => P r').
Proof.
  intros Hr Hp. revert r Hr. induction n as [|n IH]; intros r Hr; [done|]. cbn [repeat_prog]. apply keeps_bind.
  eapply keeps_mono; [|by apply Hp]. intros x r' Hr'. by apply IH.
Qed.

Lemma calm_reindex batch : only calm (reindex_once log_line_from_str is_whitespace batch).
Proof.
  unfold reindex_once. apply only_bind; [only_steps|]. intros [|]; [only_steps|]. apply only_bind; [only_steps|]. intros [page|e]; [|only_steps].
  generalize {| ri_indexed := 0; ri_lines := 0; ri_failed := 0; ri_more := (batch <=? length page)%nat |}.
  induction page as [|m page IH]; intros report; cbn [index_page]; [only_steps|]. apply only_bind; [|intros x; apply IH].
  unfold index_one, Compactor.read_all_lines. only_steps.
Qed.

Lemma services_keep ag c : allowed (Spawn ag c) -> keeps ag (new_role ag false) (body ag c) (fun _ _ => True).
Proof.
  intros Ha. destruct c as [ticks fuel|ticks|p before|batch|batch]; cbn [Compactor.body].
  - apply keeps_begin. eapply keeps_mono; [|apply (keeps_repeat ag _ ticks _ (compactor ag)); [done|]]; [done|].
    intros r Hc. apply keeps_bind. eapply keeps_mono; [|by apply keeps_reconcile]. intros x r' Hc'. apply keeps_bind.
    eapply keeps_mono; [|by apply (keeps_compact_once order date_hour content_hash log_line_from_str is_whitespace midnight order_all hash_long cutoff)]. done.
  - apply keeps_begin. eapply keeps_mono; [|apply (keeps_repeat ag _ ticks _ (fun r => ro_agent r = ag /\ ro_started r = true /\ ro_run r = [])); [done|]]; [done|].
    intros r (Hr & Hs & Hrun). apply keeps_bind. eapply keeps_mono; [|by apply (keeps_gc order date_hour content_hash log_line_from_str is_whitespace key_order key_order_all cutoff)]. done.
  - apply keeps_bind. eapply keeps_mono; [|by apply (keeps_cleanup order date_hour content_hash log_line_from_str is_whitespace order_all cutoff)]. done.
  - apply keeps_bind. by apply keeps_calm; [apply calm_reindex|..].
  - apply keeps_bind. apply keeps_calm; [unfold sweep_once; only_steps|done|done].
Qed.

(** ** Every run *)

#[local] Abbreviation exec := (exec perform happen body).
#[local] Abbreviation visible_lines := (visible_lines log_line_from_str is_whitespace).

Lemma empty_good now : good (empty_world now).
Proof.
  split; cbn; try done.
  - by intros e ?%elem_of_nil.
  - by intros r ?%elem_of_nil.
  - constructor.
  - constructor.
  - by intros e x ?%elem_of_nil.
Qed.

Lemma run_inv now evs :
  Forall allowed evs -> exists roles, Inv (sy_world (exec {| sy_world := empty_world now; sy_tasks := [] |} evs)) roles.
Proof.
  intros Hevs. assert (pool_ok perform allowed Inv (fun _ _ => True) (exec {| sy_world := empty_world now; sy_tasks := [] |} evs)) as (roles & Hi & _); [|by exists roles].
  apply pool_safe; [apply Inv_perm| | |intros i Hd; exact Hd|done|].
  - intros ag c w rs Ha Hi. exists (new_role ag false). split; [|by apply services_keep]. intros Hh. destruct (Hi Hh) as (Hg & Hr & Hn & Hp).
    split_and!; [done| | |].
    + intros o [->|Ho]%elem_of_cons Hact; [|by apply Hr]. by apply pristine_ok.
    + unfold started_services in *. cbn [List.filter new_role ro_started]. by rewrite andb_false_r.
    + intros o [->|Ho]%elem_of_cons Hlt; [done|by apply Hp].
  - intros e w rs. by apply happen_ok.
  - exists []. split; [|done]. intros _. split_and!; [apply empty_good|by intros o ?%elem_of_nil|constructor|by intros o ?%elem_of_nil].
Qed.

(** What only grows: the hazards, and the entries of the chunk writer. *)
Definition grows (w w' : World) : Prop :=
  (w_hazards w' = [] -> w_hazards w = []) /\
  forall e, e ∈ w_filed w -> ends_with (cm_storage_key e.1) "-c.zst" = false -> e ∈ w_filed w'.

#[local] Instance grows_refl : Reflexive grows.
Proof. by split. Qed.

#[local] Instance grows_trans : Transitive grows.
Proof. intros w1 w2 w3 [H1' H2'] [H3' H4']. split; auto. Qed.

Lemma grows_alike w w' : w_hazards w' = w_hazards w -> w_filed w' = w_filed w -> grows w w'.
Proof. intros Eh Ef. split; by rewrite ?Eh, ?Ef. Qed.

Lemma grows_insert meta w : grows w (insert_row meta w).2.
Proof. destruct (insert_extends meta w) as (Hh & _ & _ & _ & Hf). split; [done|]. intros e He _. by apply Hf. Qed.

Lemma grows_hard_delete svc ids w : grows w (hard_delete svc ids w).2.
Proof.
  split.
  - destruct svc; cbn; try done; by intros [? _]%app_eq_nil.
  - intros e He Hk. destruct svc; cbn; try done; apply list_elem_of_In, filter_In;
      (split; [by apply list_elem_of_In|by rewrite Hk, andb_false_r]).
Qed.

Lemma grows_served {A} w c (y : answer A) w1 x w' : grows w w1 -> served c w (y, w1) = Some (x, w') -> grows w w'.
Proof. by intros Hg [[->| ->] _]%served_cases. Qed.

Lemma grows_perform ag c w a x w' : perform ag c w a = Some (x, w') -> grows w w'.
Proof.
  intros Hp. destruct (calm a) eqn:Ha.
  { pose proof (calm_perform _ _ _ _ _ _ Ha Hp) as Hs. exact (grows_alike w w' (sm_hazards _ _ Hs) (sm_filed _ _ Hs)). }
  unserve Hp. destruct a; try discriminate.
  - case_bool_decide; [done|]. injection Hp as _ <-. by apply grows_alike.
  - eapply grows_served; [|exact Hp]. split; [cbn; by intros [? _]%app_eq_nil|done].
  - eapply grows_served; [|exact Hp]. by apply grows_alike.
  - pose proof (grows_insert meta w) as Hg. destruct (insert_row meta w). by eapply grows_served.
  - pose proof (grows_alike w (mark_deleted ids w).2 eq_refl eq_refl) as Hg. destruct (mark_deleted ids w). by eapply grows_served.
  - pose proof (grows_hard_delete (ag_service ag) ids w) as Hg. destruct (hard_delete (ag_service ag) ids w). by eapply grows_served.
Qed.

Lemma grows_happen e w : grows w (happen e w).
Proof.
  destruct e as [now| |ids|rid identity ls wb|rid identity ls wb]; cbn; try by apply grows_alike.
  - case_bool_decide; [by apply grows_alike|done].
  - destruct (ChunkWriter.encode_segments _ _ _ _); [by apply grows_alike|done].
  - destruct (ChunkWriter.encode_segments _ _ _ _); [|done]. etransitivity; [apply grows_insert|]. by apply grows_alike.
Qed.

Lemma grows_exec s evs : grows (sy_world s) (sy_world (exec s evs)).
Proof.
  unfold Prog.exec. revert s. induction evs as [|ev evs IH]; intros s; [done|]. cbn [fold_left]. etransitivity; [|apply IH].
  destruct ev as [ag c|i c|e|i]; cbn [handle sy_world]; [done| |apply grows_happen|done].
  destruct (sy_tasks s !! i) as [t|]; [|done]. unfold advance. destruct (tk_prog t) as [|a k]; [done|].
  destruct (perform _ c (sy_world s) a) as [[x w']|] eqn:Hp; [|done]. by apply grows_perform in Hp.
Qed.

(** The bytes of a chunk determine its footer. *)
Lemma bytes_footer identity ls enc identity' ls' enc' meta :
  encodes identity ls enc -> encodes identity' ls' enc' -> ec_bytes enc' = ec_bytes enc -> describes meta enc' -> describes meta enc.
Proof.
  intros Henc Henc' Hb Hd. destruct (adopt_finds order order_all _ _ _ Henc) as (_ & Ht & sec & Hs & Hf).
  destruct (adopt_finds order order_all _ _ _ Henc') as (_ & Ht' & sec' & Hs' & Hf'). rewrite Hb in *.
  rewrite Ht in Ht'. apply Ok_inj in Ht' as Et. rewrite <- Et in *. rewrite Hs in Hs'. injection Hs' as <-. rewrite Hf in Hf'.
  apply Ok_inj in Hf' as Ef. destruct Hd as [H1' H2' H3' H4']. split; by rewrite ?Ef, ?Et.
Qed.

(** A row that was committed is filed with the lines of its chunk. *)
Lemma sealed_filed rid identity ls wb enc w :
  allowed (Happen (SealRow rid identity ls wb)) -> encode_segments identity [ls] wb = Ok enc -> good (happen (SealRow rid identity ls wb) w) ->
  exists e, e ∈ w_filed (happen (SealRow rid identity ls wb) w) /\ cm_storage_key e.1 = storage_key rid enc /\
    entry_lines e.1 e.2 = map (fun l => (ci_container_id identity, decoded 0 l)) ls.
Proof.
  intros Ha He Hg. destruct (sealed_good order date_hour content_hash rid _ _ _ _ Ha He) as [Henc _].
  assert (exists e, e ∈ w_filed (happen (SealRow rid identity ls wb) w) /\ cm_storage_key e.1 = storage_key rid enc) as (e & Hin & Hk).
  { cbn [Compactor.happen] in *. rewrite He in *. set (meta := build_chunk_meta _ _ _) in *.
    destruct (insert_cases meta w (de_version _ _ (built_describes _ _ enc))) as [(r & Hu & Ew)|(_ & _ & _ & _ & _ & Ef & _)].
    - rewrite Ew in *. apply List.find_some in Hu as [Hr [Hkey%String.eqb_eq _]%andb_true_iff]. apply list_elem_of_In in Hr.
      destruct (g_row _ _ _ _ _ _ _ Hg (index_row r)) as (_ & b & Hb & _); [by apply (row_in_table (advance_position _ _ w))|].
      by exists (cr_meta r, b).
    - eexists (meta, _). split; [|done]. cbn [w_filed advance_position set_positions]. rewrite Ef. apply elem_of_app. right. by apply list_elem_of_singleton. }
  exists e. split_and!; [done|done|]. destruct (g_entry _ _ _ _ _ _ _ Hg e Hin) as (Hc & (identity' & ls' & enc' & Henc' & Hb & Hd) & _).
  specialize (Hc rid enc Hk). rewrite Hb in Hc. pose proof (bytes_footer _ _ _ _ _ _ _ Henc Henc' (eq_sym Hc) Hd) as Hd'. rewrite Hb, <- Hc.
  rewrite (entry_lines_encodes order _ _ order_all _ _ _ _ Henc Hd'). apply map_ext. intros l. f_equal.
  rewrite (de_labels _ _ Hd'). rewrite <- (proj1 (encodes_labels order _ _ _ Henc)) at 1. done.
Qed.

(** C2: However compaction, reconciling, collection, retention, reindexing and forgetting interleave
    with each other and with the chunk writer, whatever calls fail, before or after they had their
    effect, and however often the process restarts: unless a hazard is recorded (an object written under
    a key that is in use, a merged chunk of 2 GiB, a row without its object, or a removal the collector
    may have seen), a line of a committed chunk that no retention cutoff has passed can still be read. *)
Theorem sealed_lines_kept now before rid identity ls wb enc later l :
  let w := sy_world (exec {| sy_world := empty_world now; sy_tasks := [] |} (before ++ Happen (SealRow rid identity ls wb) :: later)) in
  Forall allowed (before ++ Happen (SealRow rid identity ls wb) :: later) -> w_hazards w = [] ->
  encode_segments identity [ls] wb = Ok enc -> l ∈ ls -> dt_leb cutoff (ll_ts l) = true ->
  (ci_container_id identity, decoded 0 l) ∈ visible_lines w.
Proof.
  intros w Hevs Hh He Hl Hcut. set (s0 := {| sy_world := empty_world now; sy_tasks := [] |}) in *. set (ev := Happen _) in *.
  set (s1 := exec s0 (before ++ [ev])).
  assert (w = sy_world (exec s1 later)) as Ew by (unfold w, s1, Prog.exec; by rewrite <- fold_left_app, <- app_assoc).
  pose proof (grows_exec s1 later) as [Hh1 Hkeep]. rewrite <- Ew in *. specialize (Hh1 Hh). rewrite Forall_app in Hevs. destruct Hevs as [Hb Hevs].
  inv Hevs. destruct (run_inv now (before ++ [ev])) as (roles1 & Hi1); [by apply Forall_app; split; [|apply Forall_singleton]|].
  destruct (run_inv now (before ++ ev :: later)) as (roles & Hi); [apply Forall_app; split; [done|by constructor]|].
  destruct (Hi1 Hh1) as [Hg1 _]. destruct (Hi Hh) as [Hg _].
  assert (sy_world s1 = happen (SealRow rid identity ls wb) (sy_world (exec s0 before))) as E1.
  { unfold s1, Prog.exec. rewrite fold_left_app. done. }
  fold s0 s1 in Hg1. rewrite E1 in Hg1. destruct (sealed_filed rid identity ls wb enc _ ltac:(done) He Hg1) as (e & Hin & Hk & Hlines).
  apply (seen_visible log_line_from_str is_whitespace). eapply (g_kept _ _ _ _ _ _ _ Hg e).
  - apply Hkeep; [by rewrite E1|]. rewrite Hk. apply (writer_key_shape date_hour content_hash hash_long).
  - rewrite Hlines. apply list_elem_of_fmap. by exists l.
  - exact Hcut.
Qed.

(** In every run as above, every row that is live leads to an object that holds the lines of a
    chunk, all of them, none newer than the row says: garbage collection never deletes what a reader may
    still need. *)
Theorem live_rows_readable now evs r :
  let w := sy_world (exec {| sy_world := empty_world now; sy_tasks := [] |} evs) in
  Forall allowed evs -> w_hazards w = [] -> r ∈ w_rows w -> live r = true ->
  exists ls, look (w_objects w) (read_all_lines (li_manifest (row_to_manifest r))) = Some (Ok (chunk_lines ls)) /\
    forall l, l ∈ ls -> dt_leb (ll_ts l) (cl_ended_at (row_labels r)) = true.
Proof.
  intros w Hevs Hh Hr Hl. destruct (run_inv now evs Hevs) as (roles & Hi). destruct (Hi Hh) as [Hg _]. fold w in Hg.
  destruct (g_row _ _ _ _ _ _ _ Hg _ (row_in_table w r Hr)) as (_ & b & Hb & Hob). specialize (Hob Hl).
  destruct (g_entry _ _ _ _ _ _ _ Hg _ Hb) as (_ & (identity & ls & enc & Henc & Eb & Hd) & _). cbn [fst snd] in *. subst b.
  exists ls. split.
  - exact (read_entry order _ _ order_all _ _ _ _ (cr_seq r) _ Henc Hd Hob).
  - intros l Hin. unfold row_labels. rewrite (de_labels _ _ Hd : cm_labels (cr_meta r) = _). by apply (encodes_labels order _ _ _ Henc).
Qed.
End Runs.

(** ** Concrete runs *)

#[local] Existing Instances nanos_chrono nanos_chrono_laws stored_zstd stored_zstd_laws raw_json raw_json_laws poly_hash
  ascii_unicode ascii_unicode_laws coded_footer coded_footer_laws sum_crc naive_memmem coded_line bits_hash_laws.

#[local] Instance nanos_durations : Durations.
Proof. refine {| dt_sub (a : DateTime) n := (a - n * 10 ^ 9 : Z) |}. cbn. intros a b n. rewrite !Z.leb_le. lia. Defined.

#[local] Abbreviation event := (Event (Choice := Choice) (Agent := Agent) (Env := Env) (Call := Call)).

Definition no_json (_ : list Z) : option LogLine := None.
Definition space (c : Z) : bool := c =? 32.
Definition any_hour (_ : DateTime) : string := "2024-01-01/00".
Definition no_calendar (_ : DateTime) : option DateTime := None.
Definition chunk_line (ts : Z) : LogLine := sample_line ts Info [104; 105] None.
Definition sealing (ts : Z) : list event :=
  [Happen (SealObject None sample_identity [chunk_line ts] false); Happen (SealRow None sample_identity [chunk_line ts] false)].
Definition in_process (epoch : nat) (svc : Service) : Agent := {| ag_epoch := epoch; ag_service := svc |}.
Definition turns (task n : nat) : list event := repeat (Turn task {| ch_fault := Fine; ch_index := true |}) n.
Definition compaction (task epoch n : nat) : list event := Spawn (in_process epoch Compaction) (CompactionLoop 1 3) :: turns task n.
Definition collection (task epoch n : nat) : list event := Spawn (in_process epoch Collection) (CollectionLoop 1) :: turns task n.
Definition four_chunks : list event := sealing 1 ++ sealing 2 ++ sealing 3 ++ sealing 4.

#[local] Abbreviation pool := (System (reply := reply) (World := World) (Agent := Agent) (R := unit)).

#[local] Abbreviation start := ({| sy_world := empty_world (50 : Z); sy_tasks := [] |} : pool).
#[local] Abbreviation run_events :=
  (exec perform (happen elements any_hour bits_hash) (body elements any_hour no_json space map_to_list no_calendar) start).

(** Four chunks are merged into one, and what is left of them is collected. *)
Definition after_first : list event :=
  sealing 2 ++ sealing 3 ++ sealing 4 ++ compaction 0 0 60 ++ Happen (Passes (8 * 10 ^ 12 : Z)) :: collection 1 0 20.
Definition merged_events : list event :=
  [Happen (SealObject None sample_identity [chunk_line 1] false)] ++
  Happen (SealRow None sample_identity [chunk_line 1] false) :: after_first.

Lemma sealing_allowed ts : (ts ∈ [1; 2; 3; 4]) -> Forall (allowed elements (0 : Z)) (sealing ts).
Proof.
  intros Hts. assert (sealable elements sample_identity [chunk_line ts] false) as Hs.
  { set_unfold in Hts. destruct Hts as [->|[->|[->|[->|[]]]]]; (split_and!; [apply Forall_singleton|apply Forall_singleton; by split; vm_compute|]).
    1,3,5,7: split; cbn; [repeat constructor; unfold is_scalar; lia|by eexists|done].
    all: intros enc He; match type of He with ?t = _ => change (blen (ec_bytes enc)) with (match Ok (E := LogAggregatorError) enc with Ok enc => blen (ec_bytes enc) | Err _ => 0 end); rewrite <- He end; by vm_compute. }
  unfold sealing. apply Forall_cons_2; [exact Hs|]. apply Forall_cons_2; [exact Hs|constructor].
Qed.

Lemma four_allowed : Forall (allowed elements (0 : Z)) four_chunks.
Proof. unfold four_chunks. rewrite !Forall_app. split_and!; apply sealing_allowed; set_solver. Qed.

Lemma turns_allowed task n : Forall (allowed elements (0 : Z)) (turns task n).
Proof. unfold turns. induction n as [|n IH]; [constructor|]. by apply Forall_cons_2. Qed.

Lemma merged_allowed : Forall (allowed elements (0 : Z)) merged_events.
Proof.
  change merged_events with (four_chunks ++ compaction 0 0 60 ++ Happen (Passes (8 * 10 ^ 12 : Z)) :: collection 1 0 20).
  unfold compaction, collection. rewrite Forall_app. split; [apply four_allowed|]. cbn [app].
  apply Forall_cons_2; [done|]. rewrite Forall_app. split; [apply turns_allowed|]. do 2 (apply Forall_cons_2; [done|]). apply turns_allowed.
Qed.

Lemma merged_calm : w_hazards (sy_world (run_events merged_events)) = [].
Proof. vm_cast_no_check (eq_refl ([] : list Hazard)). Qed.

Lemma bits_long (rid : option (string * Z * Z)) bytes : bits_hash rid bytes <> "c"%string.
Proof. unfold bits_hash. by destruct (encode bytes). Qed.

Lemma map_order (m : gmap string (list Z)) : map_to_list m ≡ₚ map_to_list m.
Proof. done. Qed.

Definition first_chunk : EncodedChunk :=
  match encode_segments elements sample_identity [[chunk_line 1]] false with Ok enc => enc | Err _ => empty_chunk end.

(** The first line, after its chunk was merged and collected. *)
Lemma sealed_lines_kept_witness : ("c"%string, decoded 0 (chunk_line 1)) ∈ visible_lines no_json space (sy_world (run_events merged_events)).
Proof.
  apply (sealed_lines_kept elements any_hour bits_hash no_json space map_to_list no_calendar elements_order bits_long map_order (0 : Z) (50 : Z)
    [Happen (SealObject None sample_identity [chunk_line 1] false)] None sample_identity [chunk_line 1] false first_chunk after_first).
  - exact merged_allowed.
  - exact merged_calm.
  - vm_cast_no_check (eq_refl (Ok first_chunk : result LogAggregatorError EncodedChunk)).
  - apply list_elem_of_here.
  - reflexivity.
Defined.

Definition no_row : ChunkRow :=
  {| cr_id := 0; cr_seq := 0; cr_meta := build_chunk_meta empty_chunk "" 0; cr_deleted_at := None; cr_indexed := false |}.
Definition merged_row : ChunkRow := List.hd no_row (w_rows (sy_world (run_events merged_events))).

Lemma merged_row_found : merged_row ∈ w_rows (sy_world (run_events merged_events)).
Proof.
  unfold merged_row. assert (length (w_rows (sy_world (run_events merged_events))) = 1%nat) as Hl by vm_cast_no_check (eq_refl 1%nat).
  destruct (w_rows _) as [|r rows]; [done|]. apply list_elem_of_here.
Qed.

Lemma live_rows_readable_witness : exists ls,
  look (w_objects (sy_world (run_events merged_events))) (read_all_lines no_json space (li_manifest (row_to_manifest merged_row))) =
    Some (Ok (chunk_lines ls)) /\ forall l, l ∈ ls -> dt_leb (ll_ts l) (cl_ended_at (row_labels merged_row)) = true.
Proof.
  apply (live_rows_readable elements any_hour bits_hash no_json space map_to_list no_calendar elements_order bits_long map_order (0 : Z) (50 : Z)
    merged_events merged_row merged_allowed merged_calm merged_row_found).
  vm_cast_no_check (eq_refl true).
Defined.

(** The same four chunks; the process restarts when the merged object has been written.  The next pass
    adopts the object, merges it with the chunks it was merged from, under the same key, and tombstones
    it with them. *)
Definition interrupted_events (n : nat) : list event := four_chunks ++ compaction 0 0 n ++ Happen Restart :: compaction 1 1 100.

Definition lines_and_objects (s : pool) : nat * nat :=
  (length (visible_lines no_json space (sy_world s)), size (w_objects (sy_world s))).

