(* ===== verification/CompactorExact.v ===== *)
(** * Compaction is invisible

    A pass of the compactor ([run_once] of [crates/temps-log-aggregator/src/services/compactor.rs]) that
    runs alone, and in which no call fails, changes no reader's answer: the lines that can be read after
    it are those before it, as often as before. *)

From S2P Require Import Prelude Bytes Utf8 ChunkBlock Bloom ChunkFile ChunkScan Wal WalDisk HeadBuffer ChunkWriter WriterStore WriterRuns Prog Compactor CompactorRead CompactorSafety CompactorKeeps CompactorMerge CompactorRuns.
From stdpp Require Import sorting.
Local Open Scope Z_scope.

Section Exact.
Context `{ChronoLaws} `{ZstdLaws} `{JsonLaws} `{!FooterJson} `{!FooterJsonLaws _} `{Crc32} `{Xxh3} `{Unicode} `{!Durations}.
Context (order : BloomBuilder -> list Z) (date_hour : DateTime -> string)
  (content_hash : option (string * Z * Z) -> list Z -> string) `{!HashLaws content_hash}
  (log_line_from_str : list Z -> option LogLine) (is_whitespace : Z -> bool)
  (key_order : gmap string (list Z) -> list (string * list Z)) (midnight : DateTime -> option DateTime).
Hypothesis order_all : forall es e, e ∈ order es <-> e ∈ es.
(** The hash of a chunk is longer than the suffix of a merged one. *)
Hypothesis hash_long : forall rid bytes, content_hash rid bytes <> "c"%string.
Hypothesis key_order_all : forall m, key_order m ≡ₚ map_to_list m.
Context (cutoff : DateTime).

#[local] Abbreviation encodes := (encodes order).
#[local] Abbreviation storage_key := (storage_key date_hour content_hash).
#[local] Abbreviation encode_segments := (encode_segments order).
#[local] Abbreviation entry_lines := (entry_lines log_line_from_str is_whitespace).
#[local] Abbreviation row_lines := (row_lines log_line_from_str is_whitespace).
#[local] Abbreviation read_all_lines := (read_all_lines log_line_from_str is_whitespace).
#[local] Abbreviation good := (good order date_hour content_hash log_line_from_str is_whitespace cutoff).
#[local] Abbreviation stage_ok := (stage_ok order date_hour content_hash log_line_from_str is_whitespace cutoff).
#[local] Abbreviation role_ok := (role_ok order date_hour content_hash log_line_from_str is_whitespace cutoff).
#[local] Abbreviation Inv := (Inv order date_hour content_hash log_line_from_str is_whitespace cutoff).
#[local] Abbreviation unexpired := (unexpired cutoff).
#[local] Abbreviation happen := (happen order date_hour content_hash).
#[local] Abbreviation body := (body order date_hour log_line_from_str is_whitespace key_order midnight).
#[local] Abbreviation program := (prog reply).

#[local] Abbreviation allowed := (allowed order cutoff).
#[local] Abbreviation keeps := (keeps perform allowed Inv).
#[local] Abbreviation seen := (seen log_line_from_str is_whitespace).
#[local] Abbreviation backed := (backed log_line_from_str is_whitespace).

#[local] Abbreviation visible_lines := (visible_lines log_line_from_str is_whitespace).
#[local] Abbreviation exec := (exec perform happen body).

(** The world between two accesses of a task that runs alone. *)
Definition undisturbed (_ : unit) (w : World) : World := w.
Definition no_fault (c : Choice) : Prop := ch_fault c = Fine.
#[local] Abbreviation alone := (alone perform undisturbed no_fault).

(** ** Programs that run alone *)

Lemma alone_and {A} ag (p : program A) Q1 Q2 w : alone ag p Q1 w -> alone ag p Q2 w -> alone ag p (fun x w' => Q1 x w' /\ Q2 x w') w.
Proof. revert w. induction p as [x|a k IH]; intros w; cbn; [done|]. intros H1' H2' e c x w' Hc Hp. apply IH; eauto. Qed.

(** What a program keeps in company it keeps alone. *)
Lemma keeps_alone {A} ag r (p : program A) Q w :
  keeps ag r p Q -> Inv w [r] -> alone ag p (fun x w' => exists r', Inv w' [r'] /\ Q x r') w.
Proof.
  revert r w. induction p as [x|a k IH]; intros r w; cbn; [by eauto|]. intros Hk Hi e c x w' _ Hp.
  destruct (Hk 0%nat c w [] x w' I Hi Hp) as (r' & Hi' & Hk'). by eapply IH.
Qed.

Lemma alone_grows {A} ag (p : program A) w : alone ag p (fun _ w' => grows w w') w.
Proof.
  revert w. induction p as [x|a k IH]; intros w; cbn; [by split|]. intros e c x w' _ Hp. eapply alone_mono; [|apply IH].
  intros y w'' Hg. pose proof (grows_perform _ _ _ _ _ _ Hp) as [H1' H2']. destruct Hg as [H3' H4']. split; auto.
Qed.

(** A hazard does not go away. *)
Lemma alone_hazard {A} ag (p : program A) Q w :
  w_hazards w <> [] -> (forall x w', w_hazards w' <> [] -> Q x w') -> alone ag p Q w.
Proof. intros Hh HQ. eapply alone_mono; [|apply alone_grows]. intros x w' [Hg _]. apply HQ. auto. Qed.

Lemma same_trans w1 w2 w3 : same w1 w2 -> same w2 w3 -> same w1 w3.
Proof. intros [] []. split; congruence. Qed.

Lemma alone_unchanged {A} ag (p : program A) w : only calm p -> alone ag p (fun _ w' => same w w') w.
Proof.
  apply alone_only; [done|apply same_trans|]. intros a e c w0 x w' Ha Hp. by eapply calm_perform.
Qed.

(** Reading. *)
Lemma look_alone {A} ag (p : program A) x Q w : look (w_objects w) p = Some x -> Q x w -> alone ag p Q w.
Proof.
  intros Hx HQ. induction p as [y|a k IH]; [by injection Hx as ->|]. cbn. intros e c z w' Hc Hp. unserve Hp.
  destruct a; try discriminate; unfold served in Hp; rewrite Hc in Hp; injection Hp as <- <-; by apply IH.
Qed.

Lemma look_bind {A B} objects (p : program A) (f : A -> program B) x :
  look objects p = Some x -> look objects (prog_bind p f) = look objects (f x).
Proof.
  intros Hx. induction p as [y|a k IH]; [by injection Hx as ->|]. destruct a; try discriminate; cbn in *; by apply IH.
Qed.

(** ** What readers see *)

Lemma visible_table w : visible_lines w = mjoin (map (row_lines (w_objects w)) (List.filter live (table w))).
Proof.
  unfold Compactor.visible_lines, table. f_equal. induction (w_rows w) as [|r rows IH]; [done|]. cbn [List.filter map].
  change (live (index_row r)) with (live r). destruct (live r); cbn [map]; [|done]. by rewrite IH.
Qed.

Lemma visible_same w w' : same w w' -> visible_lines w' = visible_lines w.
Proof. intros Hs. rewrite !visible_table. by rewrite (sm_table _ _ Hs), (sm_objects _ _ Hs). Qed.

(** The rows of a run. *)
Definition row_of (w : World) (cid : string) (m : Listed) (r : ChunkRow) : Prop :=
  r ∈ table w /\ live r = true /\ li_id m = cr_id r /\ (exists seq, li_manifest m = meta_manifest seq (cr_meta r)) /\
  cl_container_id (row_labels r) = cid.

Definition listed_in (w : World) (cid : string) (ms : list Listed) : Prop := Forall (fun m => exists r, row_of w cid m r) ms.

Lemma rows_of_run w cid ms :
  good w -> listed_in w cid ms -> NoDup (map li_id ms) ->
  exists rs, Forall2 (row_of w cid) ms rs /\ List.filter (fun r => live r && mem (cr_id r) (map li_id ms)) (table w) ≡ₚ rs.
Proof.
  intros Hg Hl Hn. apply Forall_exists_Forall2_l in Hl as [rs Hrs]. exists rs. split; [done|].
  assert (map cr_id rs = map li_id ms) as Eids by (clear -Hrs; induction Hrs as [|m r ms rs (_ & _ & E & _) _ IH]; cbn; congruence).
  apply NoDup_Permutation.
  - apply (NoDup_fmap_1 cr_id). change (NoDup (map cr_id (List.filter (fun r => live r && mem (cr_id r) (map li_id ms)) (table w)))).
    apply NoDup_map_filter, (g_ids _ _ _ _ _ _ _ Hg).
  - apply (NoDup_fmap_1 cr_id). change (NoDup (map cr_id rs)). by rewrite Eids.
  - intros r. rewrite list_elem_of_In, filter_In, <- list_elem_of_In. split.
    + intros [Hr [_ Hin%bool_decide_eq_true]%andb_true_iff]. rewrite <- Eids in Hin. apply list_elem_of_fmap in Hin as (r' & Hid & Hr').
      apply list_elem_of_lookup in Hr' as Hk. destruct Hk as [i Hi]. destruct (Forall2_lookup_r _ _ _ _ _ Hrs Hi) as (m & _ & Hm & _).
      by rewrite (row_id_inj _ _ _ _ _ _ w r r' Hg Hr Hm Hid).
    + intros Hr. apply list_elem_of_lookup in Hr as Hk. destruct Hk as [i Hi]. destruct (Forall2_lookup_r _ _ _ _ _ Hrs Hi) as (m & Hmi & Hm & Hlv & _).
      split; [done|]. rewrite Hlv. apply bool_decide_eq_true. rewrite <- Eids. apply list_elem_of_fmap. by exists r.
Qed.

Lemma filter_split {A} (p q : A -> bool) l : List.filter p l ≡ₚ List.filter (fun x => p x && q x) l ++ List.filter (fun x => p x && negb (q x)) l.
Proof.
  induction l as [|x l IH]; [done|]. cbn [List.filter]. destruct (p x); cbn [andb]; [|done]. destruct (q x); cbn [negb app]; [by rewrite IH|].
  rewrite <- Permutation_middle. by rewrite IH.
Qed.

Lemma join_single {A} (l : list A) : mjoin [l] = l.
Proof. apply app_nil_r. Qed.

Lemma filter_marked ids now rows new :
  live new = true -> mem (cr_id new) ids = false ->
  List.filter live (map (fun r => if mem (cr_id r) ids && live r then tombstone_row now r else r) (rows ++ [new])) =
  List.filter (fun r => live r && negb (mem (cr_id r) ids)) rows ++ [new].
Proof.
  intros Hl Hm. induction rows as [|r rows IH]; cbn [app map List.filter]; [by rewrite Hm; cbn; rewrite Hl|]. rewrite IH.
  destruct (mem (cr_id r) ids); cbn [andb negb]; [|by rewrite andb_true_r; destruct (live r)]. rewrite andb_false_r. by destruct (live r) eqn:E; cbn; rewrite ?E.
Qed.

(** A row takes the place of the rows of a run. *)
Lemma visible_swapped w w' (ms : list Listed) rs new now :
  good w -> List.filter (fun r => live r && mem (cr_id r) (map li_id ms)) (table w) ≡ₚ rs ->
  table w' = map (fun r => if mem (cr_id r) (map li_id ms) && live r then tombstone_row now r else r) (table w ++ [new]) ->
  live new = true -> mem (cr_id new) (map li_id ms) = false ->
  (forall r, r ∈ table w -> live r = true -> row_lines (w_objects w') r = row_lines (w_objects w) r) ->
  row_lines (w_objects w') new ≡ₚ mjoin (map (row_lines (w_objects w)) rs) -> visible_lines w' ≡ₚ visible_lines w.
Proof.
  intros Hg Hrs Ht Hl Hm Hsame Hnew. rewrite !visible_table, Ht, filter_marked by done. rewrite map_app, join_app. cbn [map]. rewrite join_single.
  rewrite (join_Permutation _ _ (Permutation_map (row_lines (w_objects w)) (filter_split live (fun r => mem (cr_id r) (map li_id ms)) (table w)))).
  rewrite map_app, join_app, (Permutation_map _ Hrs), <- Hnew, Permutation_app_comm. f_equiv. apply reflexive_eq. f_equal. apply map_ext_in.
  intros r [Hr [Hlv _]%andb_true_iff]%filter_In. apply Hsame; [by apply list_elem_of_In|done].
Qed.

(** ** A merge *)

(** An access without a fault. *)
Ltac fine Hp Hc := unserve Hp; unfold undisturbed, served in Hp; rewrite ?Hc in Hp; cbn [snd] in Hp.

Lemma look_run w cid ms rs :
  good w -> Forall2 (row_of w cid) ms rs ->
  exists lines, look (w_objects w) (read_run log_line_from_str is_whitespace ms) = Some (Ok lines) /\
    mjoin (map (row_lines (w_objects w)) rs) = map (fun l => (cid, unplaced l)) lines /\
    forall i, Forall line_ok (map (identity_line i) lines) /\ Forall line_fits (map (identity_line i) lines).
Proof.
  intros Hg. induction 1 as [|m r ms rs (Hr & Hl & Hid & (seq & Hm) & Hc) _ (lines & Hlook & Hjoin & Hgood)].
  { exists []. split_and!; [done|done|]. intros i. split; constructor. }
  destruct (g_row _ _ _ _ _ _ _ Hg r Hr) as (_ & b & Hb & Ho). specialize (Ho Hl).
  destruct (g_entry _ _ _ _ _ _ _ Hg _ Hb) as (_ & (i0 & ls & enc & Henc & Eb & Hd) & _). cbn [fst snd] in *. subst b.
  exists (chunk_lines ls ++ lines). split_and!.
  - cbn [read_run]. unfold prog_try. rewrite Hm. erewrite look_bind; [|by apply (read_entry order _ _ order_all _ _ _ _ _ _ Henc Hd)].
    cbn. erewrite look_bind; [|exact Hlook]. done.
  - cbn [map]. change (mjoin (row_lines (w_objects w) r :: ?t)) with (row_lines (w_objects w) r ++ mjoin t). rewrite Hjoin, map_app. f_equal.
    rewrite (row_lines_filed _ _ _ _ _ _ w r _ Hg Hr Hl Hb), (entry_lines_encodes order _ _ order_all _ _ _ _ Henc Hd).
    change (cl_container_id (cm_labels (cr_meta r))) with (cl_container_id (row_labels r)). rewrite Hc.
    rewrite <- (map_map unplaced (fun l => (cid, l))), unplaced_chunk_lines. by rewrite map_map.
  - intros i. rewrite !map_app, !Forall_app. destruct (Hgood i). destruct Henc as [_ _ Hok Hfit].
    split; (split; [apply encoded_lines_good; [|done]|done]); intros k l Hx; [by apply identity_line_ok|by apply identity_line_fits].
Qed.

Lemma alone_insert ag meta w :
  cm_format_version meta = 2 -> row_under (cm_storage_key meta) (w_rows w) = None ->
  alone ag (manifest_insert meta) (fun x w' => x = Ok (w_next_id w, w_next_id w) /\ same (insert_row meta w).2 w') w.
Proof.
  intros Hv Hu. unfold manifest_insert, prog_try, call. cbn [prog_bind]. apply alone_do. intros e c x w1 Hc Hp. fine Hp Hc.
  destruct (insert_cases meta w Hv) as [(r & Hx & _)|(_ & E & _)]; [congruence|]. destruct (insert_row meta w) as [ins w0]. cbn [fst snd] in *. subst ins.
  injection Hp as <- <-. apply alone_do. intros e1 c1 x1 w2 Hc1 Hp. fine Hp Hc1. injection Hp as <- <-. cbn. split; [done|]. by split.
Qed.

Lemma alone_index ag id seq key ls w : alone ag (index_merged id seq key ls) (fun x w' => x = Ok () /\ same w w') w.
Proof.
  unfold index_merged, call. cbn [prog_bind]. apply alone_do. intros e c x w1 Hc Hp.
  pose proof (calm_perform ag c w (IndexChunk seq ls) x w1 eq_refl Hp) as Hs. fine Hp Hc. destruct (ch_index c); injection Hp as <- <-; [|done].
  apply alone_do. intros e1 c1 x1 w2 Hc1 Hp1. pose proof (calm_perform ag c1 _ (MarkIndexed seq) x1 w2 eq_refl Hp1) as Hs1.
  fine Hp1 Hc1. injection Hp1 as <- <-. cbn. split; [done|]. eapply same_trans; [exact Hs|exact Hs1].
Qed.

(** The merged chunk has the lines of its run, and the other rows stay. *)
Definition swapped (w : World) (cid : string) (ms : list Listed) (w' : World) : Prop :=
  visible_lines w' ≡ₚ visible_lines w /\
  forall m r, row_of w cid m r -> li_id m ∉ map li_id ms -> row_of w' cid m r.

Lemma swap_result w cid ms rs identity lines enc wb size w2 w3 w5 :
  let key := merged_key date_hour enc identity in
  let log_lines := map (identity_line identity) (merge_sort line_le lines) in
  let meta := build_chunk_meta enc key size in
  let w1 := written w key (ec_bytes enc) in
  good w -> w_hazards w1 = [] -> Forall2 (row_of w cid) ms rs ->
  List.filter (fun r => live r && mem (cr_id r) (map li_id ms)) (table w) ≡ₚ rs -> ci_container_id identity = cid ->
  mjoin (map (row_lines (w_objects w)) rs) = map (fun l => (cid, unplaced l)) lines ->
  Forall line_ok (map (identity_line identity) lines) -> Forall line_fits (map (identity_line identity) lines) ->
  encode_segments identity [log_lines] wb = Ok enc ->
  same (insert_row meta w1).2 w2 -> same w2 w3 -> same (mark_deleted (map li_id ms) w3).2 w5 -> swapped w cid ms w5.
Proof.
  intros key log_lines meta w1 Hg Hh Hrs Hfilter Hcid Hjoin Hok Hfit Henc S2 S3 S5.
  change (w_hazards w1) with (w_hazards w ++ ((if filed_under key (w_filed w) then [Overwrites key] else []) ++ (if 2 ^ 31 <=? blen (ec_bytes enc) then [Oversized key] else []))) in Hh.
  apply app_eq_nil in Hh as [Hh [Hfree Hsmall]%app_eq_nil].
  destruct (filed_under key (w_filed w)) eqn:Hfu; [done|]. destruct (Z.leb_spec (2 ^ 31) (blen (ec_bytes enc))) as [|Hsize]; [done|].
  pose proof (filed_under_spec _ _ Hfu) as Hfresh. pose proof (Permutation_map (identity_line identity) (merge_sort_Permutation line_le lines)) as Hperm.
  fold log_lines in Hperm. assert (encodes identity log_lines enc) as He by (split; [by exists wb|done|by rewrite Hperm|by rewrite Hperm]).
  assert (Forall (fun i => i < w_next_id w) (map li_id ms)) as Hids.
  { clear -Hg Hrs. induction Hrs as [|m r ms rs (Hr & _ & Hid & _) _ IH]; [constructor|]. cbn. constructor; [|done]. rewrite Hid. by apply (g_row _ _ _ _ _ _ _ Hg). }
  rewrite list.Forall_forall in Hids.
  destruct (insert_cases meta w1 eq_refl) as [(r & Hu & _)|(_ & _ & Ht & Eo & _)].
  { exfalso. apply List.find_some in Hu as [Hr [Hk%String.eqb_eq _]%andb_true_iff]. apply list_elem_of_In in Hr.
    destruct (g_row _ _ _ _ _ _ _ Hg (index_row r)) as (_ & b & Hb & _); [by apply row_in_table|]. by apply (Hfresh _ Hb). }
  assert (table w5 = map (fun r => if mem (cr_id r) (map li_id ms) && live r then tombstone_row (w_now w3) r else r) (table w ++ [new_row meta w1])) as Et.
  { rewrite (sm_table _ _ S5), table_mark_deleted, (sm_table _ _ S3), (sm_table _ _ S2), Ht. done. }
  assert (w_objects w5 = <[key := ec_bytes enc]> (w_objects w)) as Eo5.
  { rewrite (sm_objects _ _ S5). cbn. rewrite (sm_objects _ _ S3), (sm_objects _ _ S2), Eo. done. }
  assert (mem (cr_id (new_row meta w1)) (map li_id ms) = false) as Hnew.
  { apply bool_decide_eq_false. intros Hin%Hids. cbn in Hin. lia. }
  split.
  - apply (visible_swapped w w5 ms rs (new_row meta w1) (w_now w3)); try done.
    + intros r Hr Hl. unfold Compactor.row_lines. rewrite Eo5.
      pose proof (proj2 (spares_write order date_hour content_hash log_line_from_str is_whitespace cutoff key (ec_bytes enc) w Hg
        ltac:(intros e Hin Hk; by destruct (Hfresh e Hin)) r Hr Hl)) as Hx. cbn [w_objects set_objects] in Hx. by rewrite Hx.
    + rewrite Hjoin. unfold Compactor.row_lines. change (row_key (new_row meta w1)) with key. rewrite Eo5, lookup_insert_eq.
      rewrite (entry_lines_encodes order _ _ order_all _ _ _ _ He (built_describes key size enc)).
      fold meta. assert (cl_container_id (cm_labels meta) = cid) as ->.
      { rewrite <- Hcid. rewrite <- (proj1 (encodes_labels order _ _ _ He)). done. }
      rewrite (Permutation_map _ Hperm), map_map. apply reflexive_eq, map_ext. intros l. by rewrite decoded_identity_line.
  - intros m r (Hr & Hl & Hid & Hm & Hc) Hnot. split; [|done]. rewrite Et. apply list_elem_of_fmap. exists r.
    unfold mem. rewrite <- Hid. rewrite bool_decide_eq_false_2 by done. split; [done|]. apply elem_of_app. by left.
Qed.

Lemma swapped_same w cid ms w' : same w w' -> swapped w cid ms w'.
Proof. intros Hs. split; [by rewrite (visible_same w w')|]. unfold row_of. by rewrite (sm_table _ _ Hs). Qed.

Lemma swapped_refl w cid ms : swapped w cid ms w.
Proof. by apply swapped_same. Qed.

Lemma alone_swap ag w cid ms rs identity lines enc wb :
  good w -> Forall2 (row_of w cid) ms rs -> List.filter (fun r => live r && mem (cr_id r) (map li_id ms)) (table w) ≡ₚ rs ->
  ci_container_id identity = cid -> mjoin (map (row_lines (w_objects w)) rs) = map (fun l => (cid, unplaced l)) lines ->
  Forall line_ok (map (identity_line identity) lines) -> Forall line_fits (map (identity_line identity) lines) ->
  encode_segments identity [map (identity_line identity) (merge_sort line_le lines)] wb = Ok enc ->
  alone ag (swap_run ms (map (identity_line identity) (merge_sort line_le lines)) enc (merged_key date_hour enc identity))
    (fun _ w' => w_hazards w' = [] -> swapped w cid ms w') w.
Proof.
  intros Hg Hrs Hfilter Hcid Hjoin Hok Hfit Henc. set (key := merged_key date_hour enc identity). set (log_lines := map _ _) in *.
  unfold swap_run. unfold prog_try at 1, call at 1. cbn [prog_bind]. apply alone_do. intros e c x w1 Hc Hp. fine Hp Hc. injection Hp as <- <-.
  change (add_hazards _ _) with (written w key (ec_bytes enc)). set (w1 := written w key (ec_bytes enc)).
  destruct (w_hazards w1) as [|h hs] eqn:Hh; [|apply alone_hazard; [by rewrite Hh|done]].
  set (size := blen (ec_bytes enc)). set (meta := build_chunk_meta enc key size).
  assert (row_under (cm_storage_key meta) (w_rows w1) = None) as Hu.
  { destruct (row_under _ _) as [r|] eqn:Hu; [|done]. exfalso. apply List.find_some in Hu as [Hr [Hk%String.eqb_eq _]%andb_true_iff].
    apply list_elem_of_In in Hr. change (w_rows w1) with (w_rows w) in Hr.
    destruct (g_row _ _ _ _ _ _ _ Hg (index_row r)) as (_ & b & Hb & _); [by apply row_in_table|].
    change (w_hazards w1) with (w_hazards w ++ ((if filed_under key (w_filed w) then [Overwrites key] else []) ++ (if 2 ^ 31 <=? blen (ec_bytes enc) then [Oversized key] else []))) in Hh.
    apply app_eq_nil in Hh as [_ [Hfree _]%app_eq_nil]. destruct (filed_under key (w_filed w)) eqn:Hfu; [done|].
    by apply (filed_under_spec _ _ Hfu _ Hb). }
  unfold prog_try at 1. apply alone_bind. eapply alone_mono; [|by apply (alone_insert ag meta w1)]. intros x w2 [-> S2]. cbn [fst snd].
  unfold prog_try at 1. apply alone_bind. eapply alone_mono; [|apply alone_index]. intros x w3 [-> S3].
  unfold prog_try at 1, call at 1. cbn [prog_bind]. apply alone_do. intros e1 c1 x w4 Hc1 Hp. fine Hp Hc1.
  assert (w4 = (mark_deleted (map li_id ms) w3).2 /\ exists seqs, x = Ok seqs) as [-> [seqs ->]].
  { destruct (mark_deleted (map li_id ms) w3). injection Hp as <- <-. eauto. }
  apply alone_bind. eapply alone_mono; [|apply alone_unchanged; unfold forget_in_index; only_steps]. intros x w5 S5. cbn. intros _.
  eapply (swap_result w cid ms rs identity lines enc wb size w2 w3 w5); done.
Qed.

Lemma alone_merge_run ag w cid ms :
  good w -> listed_in w cid ms -> NoDup (map li_id ms) ->
  alone ag (merge_run order date_hour log_line_from_str is_whitespace ms) (fun _ w' => w_hazards w' = [] -> swapped w cid ms w') w.
Proof.
  intros Hg Hl Hn. destruct (rows_of_run w cid ms Hg Hl Hn) as (rs & Hrs & Hfilter). destruct (look_run w cid ms rs Hg Hrs) as (lines & Hlook & Hjoin & Hgood).
  unfold merge_run. destruct ms as [|first ms']; [intros _; apply swapped_refl|]. set (ms := first :: ms') in *.
  set (identity := labels_identity (mf_labels (li_manifest first))). unfold prog_try. apply alone_bind. apply (look_alone ag _ (Ok lines)); [done|].
  destruct lines as [|l lines']; [intros _; apply swapped_refl|]. set (lines := l :: lines') in *.
  destruct (ChunkWriter.encode_segments _ _ _ _) as [enc|err] eqn:Henc; [|intros _; apply swapped_refl].
  destruct (Hgood identity) as [Hok Hfit]. apply (alone_swap ag w cid ms rs identity lines enc true); try done.
  inv Hrs. match goal with H : row_of w cid first _ |- _ => destruct H as (_ & _ & _ & (seq & Hm) & Hc) end.
  unfold identity. rewrite Hm. exact Hc.
Qed.

(** ** A container, and a pass *)

(** The runs are the chunks of the window, in order, cut into pieces. *)
Lemma group_runs_join ms : mjoin (group_runs ms) = ms.
Proof.
  assert (forall ms runs current bytes, let '(runs', current', _) := fold_left group_step ms (runs, current, bytes) in
    mjoin runs' ++ current' = mjoin runs ++ current ++ ms) as Hx.
  { clear. induction ms as [|m ms IH]; intros runs current bytes; cbn [fold_left]; [by rewrite app_nil_r|].
    assert (let '(runs1, current1, _) := group_step (runs, current, bytes) m in mjoin runs1 ++ current1 = mjoin runs ++ current ++ [m]) as Hs.
    { unfold group_step. destruct current as [|c cs]; [done|]. destruct (_ <? _); [by rewrite join_app, join_single, <- app_assoc|done]. }
    destruct (group_step (runs, current, bytes) m) as [[runs1 current1] bytes1]. specialize (IH runs1 current1 bytes1).
    destruct (fold_left group_step ms _) as [[runs2 current2] bytes2]. rewrite IH, app_assoc, Hs. by rewrite <- !app_assoc. }
  specialize (Hx ms [] [] 0). unfold group_runs. destruct (fold_left group_step ms _) as [[runs current] bytes]. cbn in Hx.
  destruct current as [|c cs]; [by rewrite app_nil_r in Hx|]. by rewrite join_app, join_single.
Qed.

#[local] Abbreviation calm_end r w := (fun _ w' => w_hazards w' = [] -> (exists r', Inv w' [r'] /\ rests r r') /\ visible_lines w' ≡ₚ visible_lines w).

Lemma alone_merge_runs ag r cid runs report w :
  ag_service ag = Compaction -> compactor ag r -> Inv w [r] -> w_hazards w = [] -> (forall run, run ∈ runs -> listed (ro_run r) cid run) ->
  listed_in w cid (mjoin runs) -> NoDup (map li_id (mjoin runs)) ->
  alone ag (merge_runs order date_hour log_line_from_str is_whitespace runs report) (calm_end r w) w.
Proof.
  intros Hsvc. revert r report w. induction runs as [|run runs IH]; intros r report w Hc Hi Hh Hruns Hl Hn.
  { cbn. intros _. split; [|done]. exists r. by destruct Hc as (_ & _ & ?). }
  change (mjoin (run :: runs)) with (run ++ mjoin runs) in *. apply Forall_app in Hl as [Hlr Hl]. rewrite map_app in Hn.
  apply NoDup_app in Hn as (Hnr & Hdisj & Hn). cbn [merge_runs].
  assert (forall run', run' ∈ runs -> listed (ro_run r) cid run') as Hruns' by (intros run' ?; apply Hruns; by right).
  destruct (2 <=? length run)%nat; [|by apply IH]. pose proof (Hi Hh) as [Hg _]. unfold prog_try. apply alone_bind. pose proof Hc as (Ha & Hs & Hst).
  eapply alone_mono; [|apply alone_and; [apply (keeps_alone ag r); [|exact Hi]; apply (keeps_merge_run order date_hour content_hash log_line_from_str is_whitespace order_all hash_long cutoff ag r cid run); [done..|apply Hruns; left]|by apply (alone_merge_run ag w cid)]].
  intros x w1 [(r1 & Hi1 & Hr1) Hsw]. destruct x as [rep|err]; [|intros Hh1; split; [by exists r1|by apply Hsw]].
  destruct (w_hazards w1) as [|h hs] eqn:Hh1; [|apply alone_hazard; [by rewrite Hh1|done]]. destruct (Hsw eq_refl) as [Hvis Hrest].
  eapply alone_mono; [|apply (IH r1); [by eapply rests_compactor|done|done| | |done]].
  - intros y w2 Hend Hh2. destruct (Hend Hh2) as [(r2 & Hi2 & Hr2) Hv2]. split; [exists r2; split; [done|by eapply rests_trans]|by rewrite Hv2].
  - by rewrite (proj1 (proj2 (proj2 Hr1))).
  - unfold listed_in. rewrite list.Forall_forall in Hl |- *. intros m Hm. destruct (Hl m Hm) as (r0 & Hr0). exists r0. apply Hrest; [done|].
    intros Hin. apply (Hdisj _ Hin). apply list_elem_of_fmap. by exists m.
Qed.

#[local] Abbreviation calm_pass ag w := (fun _ w' => w_hazards w' = [] -> (exists r', Inv w' [r'] /\ compactor ag r') /\ visible_lines w' ≡ₚ visible_lines w).

Lemma alone_container ag r cid start e w :
  ag_service ag = Compaction -> compactor ag r -> Inv w [r] -> w_hazards w = [] ->
  alone ag (compact_container order date_hour log_line_from_str is_whitespace cid start e) (calm_pass ag w) w.
Proof.
  intros Hsvc Hc Hi Hh. pose proof Hc as (Hr & Hs & Hst). unfold compact_container, prog_try, call. cbn [prog_bind]. apply alone_do.
  intros e0 c x w1 Hf Hp. pose proof (active_perform ag c w _ x w1 r Hr Hp) as Hact. fine Hp Hf. injection Hp as <- <-. set (rows := for_container_window cid start e (w_rows w)).
  destruct (_ <? _); [intros _; split; [by exists r|done]|].
  assert (forall r0, r0 ∈ rows -> r0 ∈ w_rows w /\ live r0 = true /\ cl_container_id (row_labels r0) = cid) as Hrows by (intros r0; apply window_rows).
  set (r1 := with_run r (run_of w rows)). assert (Inv w [r1]) as Hi1.
  { revert Hi. apply Inv_role; try done. intros _. apply window_role; try done; [by rewrite Hr|]. intros r0 Hr0. by destruct (Hrows r0 Hr0) as (? & ? & _). }
  eapply alone_mono; [|apply (alone_merge_runs ag r1 cid); try done].
  - intros y w2 Hend Hh2. destruct (Hend Hh2) as [(r2 & Hi2 & Hr2) Hv]. split; [|done]. exists r2. split; [done|]. by apply (rests_compactor ag r1).
  - intros run. apply window_listed. intros r0 Hr0. by apply Hrows.
  - rewrite group_runs_join. apply list.Forall_forall. intros m (r0 & -> & Hr0)%list_elem_of_fmap. destruct (Hrows r0 Hr0) as (Hin & Hl & Hk).
    exists (index_row r0). split_and!; [by apply row_in_table|done|done|by exists (cr_seq r0)|done].
  - rewrite group_runs_join, map_map. pose proof (Hi Hh) as [Hg _]. pose proof (g_ids _ _ _ _ _ _ _ Hg) as Hids. unfold table in Hids. rewrite map_map in Hids.
    change (NoDup (map cr_id rows)). unfold rows, for_container_window. rewrite (Permutation_map _ (merge_sort_Permutation _ _)). by apply NoDup_map_filter.
Qed.

Lemma alone_containers ag r ids start e report w :
  ag_service ag = Compaction -> compactor ag r -> Inv w [r] ->
  alone ag (compact_containers order date_hour log_line_from_str is_whitespace ids start e report) (calm_pass ag w) w.
Proof.
  intros Hsvc. revert r report w. induction ids as [|id ids IH]; intros r report w Hc Hi; [intros _; split; [by exists r|done]|].
  destruct (w_hazards w) as [|h hs] eqn:Hh; [|apply alone_hazard; [by rewrite Hh|done]]. cbn [compact_containers]. apply alone_bind.
  eapply alone_mono; [|by apply (alone_container ag r)]. intros x w1 Hend.
  destruct (w_hazards w1) as [|h hs] eqn:Hh1; [|apply alone_hazard; [by rewrite Hh1|done]]. destruct (Hend Hh1) as [(r1 & Hi1 & Hc1) Hv].
  eapply alone_mono; [|by apply (IH r1)]. intros y w2 Hend2 Hh2. destruct (Hend2 Hh2) as [Hx Hv2]. split; [done|]. by rewrite Hv2.
Qed.

Lemma alone_compact_once ag r w :
  ag_service ag = Compaction -> compactor ag r -> Inv w [r] ->
  alone ag (compact_once order date_hour log_line_from_str is_whitespace midnight) (calm_pass ag w) w.
Proof.
  intros Hsvc Hc Hi. unfold compact_once, compact_window, call. cbn [prog_bind]. apply alone_do. intros e c now w1 Hf Hp. fine Hp Hf. injection Hp as <- <-.
  apply alone_do. intros e1 c1 x w2 Hf1 Hp. fine Hp Hf1. injection Hp as <- <-. by apply (alone_containers ag r).
Qed.

End Exact.

(** ** A concrete pass *)

#[local] Existing Instances nanos_chrono nanos_chrono_laws stored_zstd stored_zstd_laws raw_json raw_json_laws poly_hash
  ascii_unicode ascii_unicode_laws coded_footer coded_footer_laws sum_crc naive_memmem coded_line bits_hash_laws nanos_durations.

#[local] Abbreviation event := (Event (Choice := Choice) (Agent := Agent) (Env := Env) (Call := Call)).
#[local] Abbreviation pool := (System (reply := reply) (World := World) (Agent := Agent) (R := unit)).

(** Four chunks, and the compactor has been started. *)
Definition ready_events : list event := four_chunks ++ compaction 0 0 1.
#[local] Abbreviation ready := (sy_world (exec perform (happen elements any_hour bits_hash) (body elements any_hour no_json space map_to_list no_calendar)
  ({| sy_world := empty_world ((50 : Z) : @DateTime nanos_chrono); sy_tasks := [] |} : pool) ready_events)).

Definition calm_turns : list (unit * Choice) := repeat ((), {| ch_fault := Fine; ch_index := true |}) 40.
#[local] Abbreviation the_pass := (run_alone perform undisturbed
  {| tk_agent := {| ag_epoch := w_epoch ready; ag_service := Compaction |}; tk_prog := compact_once elements any_hour no_json space no_calendar |} ready calm_turns).

Lemma ready_allowed : Forall (allowed elements (0 : Z)) ready_events.
Proof.
  unfold ready_events, compaction. rewrite Forall_app. split; [apply four_allowed|]. apply Forall_cons_2; [done|]. apply turns_allowed.
Qed.

Lemma ready_calm : w_hazards ready = [].
Proof. vm_cast_no_check (eq_refl ([] : list Hazard)). Qed.

Lemma ready_started : Compaction ∈ w_started ready.
Proof. assert (w_started ready = [Compaction]) as -> by vm_cast_no_check (eq_refl [Compaction]). apply list_elem_of_here. Qed.

Lemma turns_calm : Forall (fun turn : unit * Choice => no_fault turn.2) calm_turns.
Proof. unfold calm_turns. generalize 40%nat. intros n. induction n as [|n IH]; [constructor|]. cbn [repeat]. by apply Forall_cons_2. Qed.

Definition merged_report : CompactionReport :=
  {| rp_containers := 1; rp_chunks_in := 4; rp_chunks_out := 1; rp_bytes_in := 276; rp_bytes_out := 230; rp_failed := 0 |}.

Lemma pass_ends : tk_prog the_pass.1 = Ret merged_report.
Proof. vm_cast_no_check (eq_refl (tk_prog the_pass.1)). Qed.

Lemma pass_calm : w_hazards the_pass.2 = [].
Proof. vm_cast_no_check (eq_refl ([] : list Hazard)). Qed.

