(* ===== verification/Alarms.v ===== *)
(** * Alarms and alert rules

    [crates/temps-monitoring/src/alarm_service.rs] over the tables of [crates/temps-entities/src/alarms.rs]
    and [monitoring_alert_rules.rs].  Every statement, call of another service and access to the maps of
    the evaluator is one action of a program ([Prog]); a statement may fail with or without its effect.
    An instant is its nanoseconds; a column holds what [db_time] leaves of one.  An update inside a
    transaction takes effect when the transaction commits.  Of a notification the random id is left
    out. *)

From S2P Require Import Prelude Prog.
From Stdlib Require Import SpecFloat.
From stdpp Require Import pretty sorting.
Local Open Scope Z_scope.

(** ** Values *)

Inductive JsonValue :=
  | JNull
  | JBool (b : bool)
  | JInt (n : Z)
  | JFloat (x : spec_float)
  | JString (s : string)
  | JArray (l : list JsonValue)
  | JObject (fields : list (string * JsonValue)).

(** [Value::get] with a string, and [Value::as_i64]. *)
Definition json_get (key : string) (v : JsonValue) : option JsonValue :=
  match v with
  | JObject fields => snd <$> List.find (fun f => String.eqb f.1 key) fields
  | _ => None
  end.
Definition as_i64 (v : JsonValue) : option Z :=
  match v with JInt n => if (- 2 ^ 63 <=? n) && (n <? 2 ^ 63) then Some n else None | _ => None end.

(** [n as i32] for an [i64]. *)
Definition as_i32 (n : Z) : Z := (n + 2 ^ 31) mod 2 ^ 32 - 2 ^ 31.

Inductive AlarmType :=
  | ContainerRestart | ContainerOomKilled | ContainerCrash | HighResponseTime | Outage | HighCpu | HighMemory
  | DeploymentFailed | HealthCheckFailed | DatabaseMetricThreshold | ContainerMetricThreshold
  | DeploymentMetricThreshold | NodeMetricThreshold | OtelRateLimited | ExternalServiceDown | BackupFailed
  | TlsRenewalFailed | TlsCertExpiring | GitProviderConnectionDown | ErrorTrackingThreshold
  | VulnerabilityFound | DiskSpaceLow | NodeOffline | NodeFailover | NodeResourcePressure
  | TraefikContainerDrift | CronJobFailed.

#[global] Instance AlarmType_eq_dec : EqDecision AlarmType.
Proof. solve_decision. Defined.

(** [AlarmType::as_str]. *)
Definition alarm_type_str (t : AlarmType) : string :=
  match t with
  | ContainerRestart => "container_restart"
  | ContainerOomKilled => "container_oom_killed"
  | ContainerCrash => "container_crash"
  | HighResponseTime => "high_response_time"
  | Outage => "outage"
  | HighCpu => "high_cpu"
  | HighMemory => "high_memory"
  | DeploymentFailed => "deployment_failed"
  | HealthCheckFailed => "health_check_failed"
  | DatabaseMetricThreshold => "database_metric_threshold"
  | ContainerMetricThreshold => "container_metric_threshold"
  | DeploymentMetricThreshold => "deployment_metric_threshold"
  | NodeMetricThreshold => "node_metric_threshold"
  | OtelRateLimited => "otel_rate_limited"
  | ExternalServiceDown => "external_service_down"
  | BackupFailed => "backup_failed"
  | TlsRenewalFailed => "tls_renewal_failed"
  | TlsCertExpiring => "tls_cert_expiring"
  | GitProviderConnectionDown => "git_provider_connection_down"
  | ErrorTrackingThreshold => "error_tracking_threshold"
  | VulnerabilityFound => "vulnerability_found"
  | DiskSpaceLow => "disk_space_low"
  | NodeOffline => "node_offline"
  | NodeFailover => "node_failover"
  | NodeResourcePressure => "node_resource_pressure"
  | TraefikContainerDrift => "traefik_container_drift"
  | CronJobFailed => "cron_job_failed"
  end.

(** [AlarmType::parse_alarm_type]. *)
Definition parse_alarm_type (s : string) : option AlarmType :=
  if String.eqb s "container_restart" then Some ContainerRestart
  else if String.eqb s "container_oom_killed" then Some ContainerOomKilled
  else if String.eqb s "container_crash" then Some ContainerCrash
  else if String.eqb s "high_response_time" then Some HighResponseTime
  else if String.eqb s "outage" then Some Outage
  else if String.eqb s "high_cpu" then Some HighCpu
  else if String.eqb s "high_memory" then Some HighMemory
  else if String.eqb s "deployment_failed" then Some DeploymentFailed
  else if String.eqb s "health_check_failed" then Some HealthCheckFailed
  else if String.eqb s "database_metric_threshold" then Some DatabaseMetricThreshold
  else if String.eqb s "container_metric_threshold" then Some ContainerMetricThreshold
  else if String.eqb s "deployment_metric_threshold" then Some DeploymentMetricThreshold
  else if String.eqb s "node_metric_threshold" then Some NodeMetricThreshold
  else if String.eqb s "otel_rate_limited" then Some OtelRateLimited
  else if String.eqb s "external_service_down" then Some ExternalServiceDown
  else if String.eqb s "backup_failed" then Some BackupFailed
  else if String.eqb s "tls_renewal_failed" then Some TlsRenewalFailed
  else if String.eqb s "tls_cert_expiring" then Some TlsCertExpiring
  else if String.eqb s "git_provider_connection_down" then Some GitProviderConnectionDown
  else if String.eqb s "error_tracking_threshold" then Some ErrorTrackingThreshold
  else if String.eqb s "vulnerability_found" then Some VulnerabilityFound
  else if String.eqb s "disk_space_low" then Some DiskSpaceLow
  else if String.eqb s "node_offline" then Some NodeOffline
  else if String.eqb s "node_failover" then Some NodeFailover
  else if String.eqb s "node_resource_pressure" then Some NodeResourcePressure
  else if String.eqb s "traefik_container_drift" then Some TraefikContainerDrift
  else if String.eqb s "cron_job_failed" then Some CronJobFailed
  else None.

Inductive AlarmSeverity := SevInfo | SevWarning | SevCritical.
Inductive NotificationPriority := PrioLow | PrioNormal | PrioHigh | PrioCritical.
Inductive NotificationType := NotifyInfo | NotifyWarning | NotifyError.

#[global] Instance AlarmSeverity_eq_dec : EqDecision AlarmSeverity.
Proof. solve_decision. Defined.

(** [AlarmSeverity::as_str], [to_notification_priority], [to_notification_type]. *)
Definition severity_str (s : AlarmSeverity) : string :=
  match s with SevInfo => "info" | SevWarning => "warning" | SevCritical => "critical" end.
Definition to_notification_priority (s : AlarmSeverity) : NotificationPriority :=
  match s with SevInfo => PrioLow | SevWarning => PrioHigh | SevCritical => PrioCritical end.
Definition to_notification_type (s : AlarmSeverity) : NotificationType :=
  match s with SevInfo => NotifyInfo | SevWarning => NotifyWarning | SevCritical => NotifyError end.

Inductive AlarmStatus := Firing | Acknowledged | Resolved.

(** [AlarmStatus::as_str]. *)
Definition status_str (s : AlarmStatus) : string :=
  match s with Firing => "firing" | Acknowledged => "acknowledged" | Resolved => "resolved" end.

(** ** Rows *)

(** A row of [alarms]. *)
Record Alarm := {
  al_id : Z;
  al_project_id : option Z; al_environment_id : option Z; al_deployment_id : option Z;
  al_container_id : option Z; al_service_id : option Z;
  al_alarm_type : string; al_severity : string; al_status : string;
  al_title : string; al_message : option string; al_metadata : option JsonValue;
  al_fired_at : Z; al_acknowledged_at : option Z; al_acknowledged_by : option Z;
  al_resolved_at : option Z; al_silenced_until : option Z;
  al_created_at : Z; al_updated_at : Z
}.

(** A row of [monitoring_alert_rules]. *)
Record Rule := {
  ru_id : Z;
  ru_service_id : option Z; ru_deployment_id : option Z; ru_node_id : option Z;
  ru_name : string; ru_metric_name : string; ru_threshold : spec_float; ru_comparator : string;
  ru_severity : string; ru_for_duration_secs : Z; ru_enabled : bool;
  ru_silenced_until : option Z; ru_breach_started_at : option Z
}.

Definition with_breach (b : option Z) (r : Rule) : Rule :=
  {| ru_id := ru_id r; ru_service_id := ru_service_id r; ru_deployment_id := ru_deployment_id r; ru_node_id := ru_node_id r;
     ru_name := ru_name r; ru_metric_name := ru_metric_name r; ru_threshold := ru_threshold r; ru_comparator := ru_comparator r;
     ru_severity := ru_severity r; ru_for_duration_secs := ru_for_duration_secs r; ru_enabled := ru_enabled r;
     ru_silenced_until := ru_silenced_until r; ru_breach_started_at := b |}.

Definition with_rule_id (i : Z) (r : Rule) : Rule :=
  {| ru_id := i; ru_service_id := ru_service_id r; ru_deployment_id := ru_deployment_id r; ru_node_id := ru_node_id r;
     ru_name := ru_name r; ru_metric_name := ru_metric_name r; ru_threshold := ru_threshold r; ru_comparator := ru_comparator r;
     ru_severity := ru_severity r; ru_for_duration_secs := ru_for_duration_secs r; ru_enabled := ru_enabled r;
     ru_silenced_until := ru_silenced_until r; ru_breach_started_at := ru_breach_started_at r |}.

Definition alarm_update (a : Alarm) (status : string) (ack_at ack_by resolved silenced : option Z) (updated : Z) : Alarm :=
  {| al_id := al_id a; al_project_id := al_project_id a; al_environment_id := al_environment_id a;
     al_deployment_id := al_deployment_id a; al_container_id := al_container_id a; al_service_id := al_service_id a;
     al_alarm_type := al_alarm_type a; al_severity := al_severity a; al_status := status; al_title := al_title a;
     al_message := al_message a; al_metadata := al_metadata a; al_fired_at := al_fired_at a; al_acknowledged_at := ack_at;
     al_acknowledged_by := ack_by; al_resolved_at := resolved; al_silenced_until := silenced;
     al_created_at := al_created_at a; al_updated_at := updated |}.

Record FireAlarmRequest := {
  fr_project_id : option Z; fr_environment_id : option Z; fr_deployment_id : option Z; fr_container_id : option Z;
  fr_service_id : option Z; fr_alarm_type : AlarmType; fr_severity : AlarmSeverity; fr_title : string;
  fr_message : string; fr_metadata : option JsonValue
}.

Inductive BulkFault := NoIds | TooManyIds (requested : Z).

Inductive AlarmError :=
  | AlarmNotFound (alarm_id : Z) (project_id : option Z)
  | Database
  | Notification (alarm_id : Z)
  | Queue (alarm_id : Z)
  | InvalidBulkRequest (project_id : option Z) (reason : BulkFault).

Inductive Job :=
  | AlarmFiredJob (alarm_id : Z) (project_id environment_id deployment_id : option Z) (alarm_type severity title : string)
  | AlarmResolvedJob (alarm_id : Z) (project_id environment_id deployment_id : option Z) (alarm_type title : string).

Record NotificationData := {
  nd_title : string; nd_message : string; nd_type : NotificationType; nd_priority : NotificationPriority;
  nd_severity : option string; nd_timestamp : Z; nd_metadata : gmap string string; nd_bypass_throttling : bool
}.

(** ** What the tasks share *)

(** What the evaluator did about a rule: it began a window, it gave one up, the column kept a window
    that was given up, it fired an alarm. *)
Inductive Note :=
  | Claimed (rule_id at_ns : Z)
  | Cleared (rule_id : Z)
  | Stale (rule_id : Z)
  | Fired (alarm_id rule_id for_secs at_ns : Z).

#[global] Instance Note_eq_dec : EqDecision Note.
Proof. solve_decision. Defined.

(** A row of [external_services]: its name, type and [metrics_enabled]. *)
Record Service := { sv_id : Z; sv_name : string; sv_type : string; sv_metrics_enabled : bool }.

(** The database, what was sent, the clock, the maps of the running evaluator, and what happened
    (newest first). *)
Record World := {
  w_rules : list Rule; w_next_rule : Z;
  w_alarms : list Alarm; w_next_alarm : Z;
  w_deployments : gmap Z (Z * Z); w_project_services : list (Z * Z); w_services : list Service;
  w_projects : gmap Z string; w_environments : gmap Z string;
  w_jobs : list Job; w_sent : list NotificationData;
  w_now : Z; w_epoch : nat; w_started : bool;
  w_breach_start : gmap Z Z; w_firing_alarms : gmap Z Z;
  w_log : list Note
}.

Definition set_rules (rules : list Rule) (next : Z) (log : list Note) (w : World) : World :=
  {| w_rules := rules; w_next_rule := next; w_alarms := w_alarms w; w_next_alarm := w_next_alarm w;
     w_deployments := w_deployments w; w_project_services := w_project_services w; w_services := w_services w;
     w_projects := w_projects w; w_environments := w_environments w; w_jobs := w_jobs w; w_sent := w_sent w;
     w_now := w_now w; w_epoch := w_epoch w; w_started := w_started w; w_breach_start := w_breach_start w;
     w_firing_alarms := w_firing_alarms w; w_log := log |}.

Definition set_alarms (alarms : list Alarm) (next : Z) (log : list Note) (w : World) : World :=
  {| w_rules := w_rules w; w_next_rule := w_next_rule w; w_alarms := alarms; w_next_alarm := next;
     w_deployments := w_deployments w; w_project_services := w_project_services w; w_services := w_services w;
     w_projects := w_projects w; w_environments := w_environments w; w_jobs := w_jobs w; w_sent := w_sent w;
     w_now := w_now w; w_epoch := w_epoch w; w_started := w_started w; w_breach_start := w_breach_start w;
     w_firing_alarms := w_firing_alarms w; w_log := log |}.

Definition set_process (epoch : nat) (started : bool) (now : Z) (breach firing : gmap Z Z) (log : list Note) (w : World) : World :=
  {| w_rules := w_rules w; w_next_rule := w_next_rule w; w_alarms := w_alarms w; w_next_alarm := w_next_alarm w;
     w_deployments := w_deployments w; w_project_services := w_project_services w; w_services := w_services w;
     w_projects := w_projects w; w_environments := w_environments w; w_jobs := w_jobs w; w_sent := w_sent w;
     w_now := now; w_epoch := epoch; w_started := started; w_breach_start := breach;
     w_firing_alarms := firing; w_log := log |}.

Definition set_sent (jobs : list Job) (sent : list NotificationData) (w : World) : World :=
  {| w_rules := w_rules w; w_next_rule := w_next_rule w; w_alarms := w_alarms w; w_next_alarm := w_next_alarm w;
     w_deployments := w_deployments w; w_project_services := w_project_services w; w_services := w_services w;
     w_projects := w_projects w; w_environments := w_environments w; w_jobs := jobs; w_sent := sent;
     w_now := w_now w; w_epoch := w_epoch w; w_started := w_started w; w_breach_start := w_breach_start w;
     w_firing_alarms := w_firing_alarms w; w_log := w_log w |}.

(** ** Actions *)

Definition answer (A : Type) : Type := option A.

Inductive Action :=
  | Start
  | Now
  (** Statements on [alarms]: a select, a count, an update of the rows a filter finds that returns
      them, an update of one row by its id, an insert; a begun transaction and its commit. *)
  | FindAlarms (filter : Alarm -> bool)
  | CountAlarms (filter : Alarm -> bool)
  | UpdateAlarms (filter : Alarm -> bool) (set : Alarm -> Alarm)
  | UpdateAlarm (id : Z) (set : Alarm -> Alarm)
  | InsertAlarm (row : Alarm)
  | Begin
  | Execute
  | CommitAlarms (filter : Alarm -> bool) (set : Alarm -> Alarm)
  (** Lookups, the queue and the notification service. *)
  | FindProject (id : Z)
  | FindService (id : Z)
  | FindEnvironment (id : Z)
  | FindDeployment (id : Z)
  | FindProjectService (service_id : Z)
  | MetricServices
  | SendJob (job : Job)
  | SendNotification (n : NotificationData)
  (** Statements on [monitoring_alert_rules]. *)
  | FindRules (filter : Rule -> bool)
  | CoalesceBreach (rule_id at_ns : Z)
  | SetBreach (rule_id at_ns : Z)
  | ClearBreach (rule_id : Z)
  | InsertRule (rule : Rule)
  | CommitRules (rules : list Rule)
  (** The maps of the evaluator, and the metrics store. *)
  | CachedBreach (rule_id : Z)
  | CacheBreaches (windows : list (Z * Z))
  | RemoveBreach (rule_id : Z)
  | PruneBreaches (active : gset Z)
  | IsFiring (rule_id : Z)
  | TrackAlarms (alarms : list (Z * Z))
  | UntrackAlarm (rule_id : Z)
  | PruneFiring (active : gset Z)
  | QueryLatest (source_kind : string) (source_id : Z) (names : gset string).

Definition reply (a : Action) : Type :=
  match a with
  | Start | CacheBreaches _ | RemoveBreach _ | TrackAlarms _ | PruneFiring _ => unit
  | Now => Z
  | FindAlarms _ | UpdateAlarms _ _ => answer (list Alarm)
  | CountAlarms _ => answer Z
  | InsertAlarm _ => answer Z
  | UpdateAlarm _ _ | Begin | Execute | CommitAlarms _ _ | SendJob _ | SendNotification _ => answer unit
  | FindProject _ | FindEnvironment _ => answer (option string)
  | FindService _ => answer (option Service)
  | FindDeployment _ => answer (option (Z * Z))
  | FindProjectService _ => answer (option Z)
  | MetricServices => answer (list Service)
  | FindRules _ => answer (list Rule)
  | CoalesceBreach _ _ | SetBreach _ _ | ClearBreach _ | InsertRule _ | CommitRules _ => answer unit
  | CachedBreach _ | UntrackAlarm _ => option Z
  | PruneBreaches _ => list Z
  | IsFiring _ => bool
  | QueryLatest _ _ _ => answer (gmap string spec_float)
  end.

#[local] Abbreviation program := (prog reply).
#[local] Abbreviation call := (call (reply := reply)).

(** What a [timestamptz] column holds of an instant: its microseconds. *)
Class Timestamps := { db_time : Z -> Z }.
Class TimestampsLaws `(Timestamps) := { db_time_precise t : t - 1000 < db_time t <= t }.

(** [Value::to_string]. *)
Class JsonText := { json_to_string : JsonValue -> string }.

(** ** What an action does *)

Inductive Fault := Fine | Fails (done : bool).

(** Whether the call fails, and what the metrics store answers. *)
Record Choice := { ch_fault : Fault; ch_latest : gmap string spec_float }.

(** The evaluator of a process, or another task of it. *)
Record Agent := { ag_epoch : nat; ag_evaluator : bool }.

Definition served {A} (c : Choice) (w : World) (x : A) (w' : World) : option (answer A * World) :=
  match ch_fault c with
  | Fine => Some (Some x, w')
  | Fails done => Some (None, if done then w' else w)
  end.

Definition apply_where {A} (filter : A -> bool) (set : A -> A) (rows : list A) : list A :=
  map (fun a => if filter a then set a else a) rows.

Definition has_id (id : Z) (r : Rule) : bool := ru_id r =? id.
Definition unclaimed (id : Z) (r : Rule) : bool := has_id id r && bool_decide (ru_breach_started_at r = None).
Definition breaching (r : Rule) : bool := bool_decide (is_Some (ru_breach_started_at r)).

(** The partial unique indexes of the table. *)
Definition same_target (a b : option Z) : bool := bool_decide (is_Some a /\ a = b).
Definition rules_conflict (r r' : Rule) : bool :=
  String.eqb (ru_metric_name r) (ru_metric_name r') &&
  (same_target (ru_service_id r) (ru_service_id r') || same_target (ru_deployment_id r) (ru_deployment_id r')
   || same_target (ru_node_id r) (ru_node_id r')).

(** [INSERT ... ON CONFLICT DO NOTHING]. *)
Definition insert_rule (w : World) (r : Rule) : World :=
  if existsb (rules_conflict r) (w_rules w) then w
  else set_rules (w_rules w ++ [with_breach None (with_rule_id (w_next_rule w) r)]) (w_next_rule w + 1) (w_log w) w.

Definition int_field (key : string) (v : JsonValue) : option Z := json_get key v ≫= as_i64.

(** An alarm of the evaluator says which rule it is about and for how long that was breached. *)
Definition fired_note (ag : Agent) (row : Alarm) (id : Z) : list Note :=
  if ag_evaluator ag then
    match al_metadata row with
    | Some m => match int_field "rule_id" m, int_field "for_duration_secs" m with
                | Some rule_id, Some secs => [Fired id rule_id secs (al_fired_at row)]
                | _, _ => []
                end
    | None => []
    end
  else [].

Definition with_alarm_id (i : Z) (a : Alarm) : Alarm :=
  {| al_id := i; al_project_id := al_project_id a; al_environment_id := al_environment_id a;
     al_deployment_id := al_deployment_id a; al_container_id := al_container_id a; al_service_id := al_service_id a;
     al_alarm_type := al_alarm_type a; al_severity := al_severity a; al_status := al_status a; al_title := al_title a;
     al_message := al_message a; al_metadata := al_metadata a; al_fired_at := al_fired_at a;
     al_acknowledged_at := al_acknowledged_at a; al_acknowledged_by := al_acknowledged_by a;
     al_resolved_at := al_resolved_at a; al_silenced_until := al_silenced_until a;
     al_created_at := al_created_at a; al_updated_at := al_updated_at a |}.

Definition set_caches (breach firing : gmap Z Z) (log : list Note) (w : World) : World :=
  set_process (w_epoch w) (w_started w) (w_now w) breach firing log w.

Definition alarm_count (filter : Alarm -> bool) (w : World) : Z := Z.of_nat (length (List.filter filter (w_alarms w))).

Definition insert_all (windows : list (Z * Z)) (m : gmap Z Z) : gmap Z Z := fold_left (fun m p => <[p.1 := p.2]> m) windows m.

(** [retain] on a map of the evaluator. *)
Definition retained (active : gset Z) (m : gmap Z Z) : gmap Z Z := filter (fun p => p.1 ∈ active) m.

Section Perform.
(** The order in which the keys of a [HashMap] come. *)
Context (key_order : gmap Z Z -> list Z).

Definition perform (ag : Agent) (c : Choice) (w : World) (a : Action) : option (reply a * World) :=
  if negb (ag_epoch ag =? w_epoch w)%nat then None
  else
  match a return option (reply a * World) with
  | Start =>
      if w_started w then None
      else Some ((), set_process (w_epoch w) true (w_now w) (w_breach_start w) (w_firing_alarms w) (w_log w) w)
  | Now => Some (w_now w, w)
  | FindAlarms filter => served c w (List.filter filter (w_alarms w)) w
  | CountAlarms filter => served c w (alarm_count filter w) w
  | UpdateAlarms filter set =>
      served c w (map set (List.filter filter (w_alarms w)))
        (set_alarms (apply_where filter set (w_alarms w)) (w_next_alarm w) (w_log w) w)
  | UpdateAlarm id set =>
      if existsb (fun a => al_id a =? id) (w_alarms w)
      then served c w () (set_alarms (apply_where (fun a => al_id a =? id) set (w_alarms w)) (w_next_alarm w) (w_log w) w)
      else Some (None, w)
  | InsertAlarm row =>
      let id := w_next_alarm w in
      served c w id (set_alarms (w_alarms w ++ [with_alarm_id id row]) (id + 1) (fired_note ag row id ++ w_log w) w)
  | Begin | Execute => served c w () w
  | CommitAlarms filter set =>
      served c w () (set_alarms (apply_where filter set (w_alarms w)) (w_next_alarm w) (w_log w) w)
  | FindProject id => served c w (w_projects w !! id) w
  | FindService id => served c w (List.find (fun s => sv_id s =? id) (w_services w)) w
  | FindEnvironment id => served c w (w_environments w !! id) w
  | FindDeployment id => served c w (w_deployments w !! id) w
  | FindProjectService id => served c w (snd <$> List.find (fun p => p.1 =? id) (w_project_services w)) w
  | MetricServices => served c w (List.filter sv_metrics_enabled (w_services w)) w
  | SendJob job => served c w () (set_sent (w_jobs w ++ [job]) (w_sent w) w)
  | SendNotification n => served c w () (set_sent (w_jobs w) (w_sent w ++ [n]) w)
  | FindRules filter => served c w (List.filter filter (w_rules w)) w
  | CoalesceBreach id t =>
      served c w () (set_rules (apply_where (unclaimed id) (with_breach (Some t)) (w_rules w)) (w_next_rule w)
        ((if existsb (unclaimed id) (w_rules w) then [Claimed id t] else []) ++ w_log w) w)
  | SetBreach id t =>
      served c w () (set_rules (apply_where (has_id id) (with_breach (Some t)) (w_rules w)) (w_next_rule w)
        (Claimed id t :: w_log w) w)
  | ClearBreach id =>
      served c (set_rules (w_rules w) (w_next_rule w) (Stale id :: w_log w) w) ()
        (set_rules (apply_where (has_id id) (with_breach None) (w_rules w)) (w_next_rule w) (w_log w) w)
  | InsertRule r => served c w () (insert_rule w r)
  | CommitRules rs => served c w () (fold_left insert_rule rs w)
  | CachedBreach id => Some (w_breach_start w !! id, w)
  | CacheBreaches l => Some ((), set_caches (insert_all l (w_breach_start w)) (w_firing_alarms w) (w_log w) w)
  | RemoveBreach id =>
      Some ((), set_caches (delete id (w_breach_start w)) (w_firing_alarms w) (Cleared id :: w_log w) w)
  | PruneBreaches active =>
      let dropped := List.filter (fun id => negb (bool_decide (id ∈ active))) (key_order (w_breach_start w)) in
      Some (dropped, set_caches (retained active (w_breach_start w)) (w_firing_alarms w) (map Cleared dropped ++ w_log w) w)
  | IsFiring id => Some (bool_decide (is_Some (w_firing_alarms w !! id)), w)
  | TrackAlarms l => Some ((), set_caches (w_breach_start w) (insert_all l (w_firing_alarms w)) (w_log w) w)
  | UntrackAlarm id =>
      Some (w_firing_alarms w !! id, set_caches (w_breach_start w) (delete id (w_firing_alarms w)) (w_log w) w)
  | PruneFiring active => Some ((), set_caches (w_breach_start w) (retained active (w_firing_alarms w)) (w_log w) w)
  | QueryLatest _ _ _ => served c w (ch_latest c) w
  end.
End Perform.

(** ** The service *)

Section Service.
Context `{Timestamps} `{JsonText}.

(** [map_err(..)?] on a statement. *)
Definition try_db {A B} (p : program (answer A)) (f : A -> program (result AlarmError B)) : program (result AlarmError B) :=
  prog_bind p (fun r => match r with Some a => f a | None => Ret (Err Database) end).

#[local] Notation "'query*' x ':=' p 'in' q" := (try_db p (fun x => q))
  (at level 10, x pattern, p at level 100, q at level 200, format "'[v' 'query*'  x  ':='  p  'in' '/' q ']'").

(** [project_id_filter]; the same shape serves the other columns of a scope. *)
Definition column_is (wanted column : option Z) : bool := bool_decide (column = wanted).
Definition project_id_filter (project_id : option Z) (a : Alarm) : bool := column_is project_id (al_project_id a).

Record AlarmFilters := {
  af_environment_id : option Z; af_deployment_id : option Z; af_alarm_type : option AlarmType;
  af_status : option AlarmStatus; af_severity : option AlarmSeverity
}.

Definition if_given {A} (wanted : option A) (p : A -> bool) : bool :=
  match wanted with Some x => p x | None => true end.

(** [alarm_filters_condition]. *)
Definition alarm_filters_condition (f : AlarmFilters) (a : Alarm) : bool :=
  if_given (af_environment_id f) (fun id => column_is (Some id) (al_environment_id a)) &&
  if_given (af_deployment_id f) (fun id => column_is (Some id) (al_deployment_id a)) &&
  if_given (af_alarm_type f) (fun t => String.eqb (al_alarm_type a) (alarm_type_str t)) &&
  if_given (af_status f) (fun s => String.eqb (al_status a) (status_str s)) &&
  if_given (af_severity f) (fun s => String.eqb (al_severity a) (severity_str s)).

Definition MAX_BULK_ALARM_UPDATE : Z := 1000.

Inductive BulkAlarmAction := BulkAcknowledge | BulkResolve.

(** [BulkAlarmAction::eligible_statuses]. *)
Definition eligible_statuses (action : BulkAlarmAction) : list string :=
  match action with BulkAcknowledge => ["firing"] | BulkResolve => ["firing"; "acknowledged"] end%string.

Inductive BulkAlarmSelector := Ids (ids : list Z) | Matching (filters : AlarmFilters).

Record BulkAlarmOutcome := { bo_updated_ids : list Z; bo_skipped : Z; bo_remaining : Z }.

(** [build_notification_metadata]: a name that cannot be looked up is left out. *)
Definition build_notification_metadata (project_id service_id environment_id : option Z) : program (gmap string string) :=
  let* m := match project_id with
            | Some id => let* found := call (FindProject id) in
                         Ret (match found with Some (Some slug) => {[ "project"%string := slug ]} | _ => ∅ end)
            | None => Ret ∅
            end in
  let* m := match service_id with
            | Some id => let* found := call (FindService id) in
                         Ret (match found with
                              | Some (Some s) => <[ "service"%string := (sv_name s +:+ " (" +:+ sv_type s +:+ ")") ]> m
                              | _ => m
                              end)
            | None => Ret m
            end in
  match environment_id with
  | Some id => let* found := call (FindEnvironment id) in
               Ret (match found with Some (Some slug) => <[ "environment"%string := slug ]> m | _ => m end)
  | None => Ret m
  end.

(** The details a caller supplies, on top. *)
Definition merge_details (extra : option JsonValue) (m : gmap string string) : gmap string string :=
  match extra with
  | Some (JObject fields) =>
      fold_left (fun m f => <[ f.1 := match f.2 with JString s => s | other => json_to_string other end ]> m) fields m
  | _ => m
  end.

(** [send_alarm_notification]; a failure is only logged. *)
Definition send_alarm_notification (request : FireAlarmRequest) : program unit :=
  let* metadata := build_notification_metadata (fr_project_id request) (fr_service_id request) (fr_environment_id request) in
  let* now := call Now in
  let* _ := call (SendNotification {|
    nd_title := fr_title request; nd_message := fr_message request; nd_type := to_notification_type (fr_severity request);
    nd_priority := to_notification_priority (fr_severity request); nd_severity := Some (severity_str (fr_severity request));
    nd_timestamp := now; nd_metadata := merge_details (fr_metadata request) metadata;
    nd_bypass_throttling := bool_decide (fr_severity request = SevCritical) |}) in
  Ret ().

(** [send_digest_notification]. *)
Definition send_digest_notification (project_id : Z) (severity : AlarmSeverity) (title message : string)
    (extra : option JsonValue) : program unit :=
  let* metadata := build_notification_metadata (Some project_id) None None in
  let* now := call Now in
  let* _ := call (SendNotification {|
    nd_title := title; nd_message := message; nd_type := to_notification_type severity;
    nd_priority := to_notification_priority severity; nd_severity := Some (severity_str severity); nd_timestamp := now;
    nd_metadata := merge_details extra metadata; nd_bypass_throttling := bool_decide (severity = SevCritical) |}) in
  Ret ().

(** A line feed. *)
Definition lf : string := String (ascii_of_nat 10) EmptyString.

(** [send_resolved_notification]. *)
Definition send_resolved_notification (alarm : Alarm) : program unit :=
  let* metadata := build_notification_metadata (al_project_id alarm) (al_service_id alarm) (al_environment_id alarm) in
  let* now := call Now in
  let* _ := call (SendNotification {|
    nd_title := "Resolved: " +:+ al_title alarm;
    nd_message := "Alarm '" +:+ al_title alarm +:+ "' has been resolved." +:+ lf +:+ "Original severity: " +:+ al_severity alarm;
    nd_type := NotifyInfo; nd_priority := PrioNormal; nd_severity := None; nd_timestamp := now;
    nd_metadata := <[ "status"%string := "resolved"%string ]> metadata; nd_bypass_throttling := false |}) in
  Ret ().

(** [struct AlarmService], its [new] and [with_cooldown]: the handles are the actions. *)
Record AlarmService := { as_cooldown : Z }.
Definition alarm_service_new : AlarmService := {| as_cooldown := 5 * 60 * 10 ^ 9 |}.
Definition with_cooldown (cooldown : Z) : AlarmService := {| as_cooldown := cooldown |}.

(** What [is_in_cooldown] counts. *)
Definition suppresses (request : FireAlarmRequest) (cutoff now : Z) (a : Alarm) : bool :=
  project_id_filter (fr_project_id request) a &&
  String.eqb (al_alarm_type a) (alarm_type_str (fr_alarm_type request)) &&
  ((db_time cutoff <=? al_fired_at a)
   || match al_silenced_until a with Some until => db_time now <? until | None => false end) &&
  column_is (fr_deployment_id request) (al_deployment_id a) &&
  column_is (fr_container_id request) (al_container_id a) &&
  column_is (fr_service_id request) (al_service_id a).

(** [is_in_cooldown]. *)
Definition is_in_cooldown (sv : AlarmService) (request : FireAlarmRequest) : program (result AlarmError bool) :=
  let* t := call Now in
  let cutoff := t - as_cooldown sv in
  let* now := call Now in
  query* count := call (CountAlarms (suppresses request cutoff now)) in
  Ret (Ok (0 <? count)).

Definition request_row (request : FireAlarmRequest) (now saved : Z) : Alarm :=
  {| al_id := 0; al_project_id := fr_project_id request; al_environment_id := fr_environment_id request;
     al_deployment_id := fr_deployment_id request; al_container_id := fr_container_id request;
     al_service_id := fr_service_id request; al_alarm_type := alarm_type_str (fr_alarm_type request);
     al_severity := severity_str (fr_severity request); al_status := status_str Firing; al_title := fr_title request;
     al_message := Some (fr_message request); al_metadata := fr_metadata request; al_fired_at := db_time now;
     al_acknowledged_at := None; al_acknowledged_by := None; al_resolved_at := None; al_silenced_until := None;
     al_created_at := db_time saved; al_updated_at := db_time saved |}.

(** [fire_alarm_internal]; [before_save] reads the clock once more. *)
Definition fire_alarm_internal (sv : AlarmService) (request : FireAlarmRequest) (notify : bool)
    : program (result AlarmError (option Z)) :=
  try* suppressed := is_in_cooldown sv request in
  if suppressed then Ret (Ok None)
  else
    let* now := call Now in
    let* saved := call Now in
    query* alarm_id := call (InsertAlarm (request_row request now saved)) in
    let* _ := if notify then send_alarm_notification request else Ret () in
    let* _ := call (SendJob (AlarmFiredJob alarm_id (fr_project_id request) (fr_environment_id request)
                               (fr_deployment_id request) (alarm_type_str (fr_alarm_type request))
                               (severity_str (fr_severity request)) (fr_title request))) in
    Ret (Ok (Some alarm_id)).

(** [fire_alarm] and [fire_alarm_silent]. *)
Definition fire_alarm (sv : AlarmService) (request : FireAlarmRequest) : program (result AlarmError (option Z)) :=
  fire_alarm_internal sv request true.
Definition fire_alarm_silent (sv : AlarmService) (request : FireAlarmRequest) : program (result AlarmError (option Z)) :=
  fire_alarm_internal sv request false.

(** [find_by_id(..).filter(project_id_filter(..)).one(..)?.ok_or(NotFound)?]. *)
Definition in_scope (alarm_id : Z) (project_id : option Z) (a : Alarm) : bool :=
  (al_id a =? alarm_id) && project_id_filter project_id a.
Definition find_alarm (alarm_id : Z) (project_id : option Z) : program (result AlarmError Alarm) :=
  query* rows := call (FindAlarms (in_scope alarm_id project_id)) in
  Ret (match rows with a :: _ => Ok a | [] => Err (AlarmNotFound alarm_id project_id) end).

Definition resolved_job (a : Alarm) : Job :=
  AlarmResolvedJob (al_id a) (al_project_id a) (al_environment_id a) (al_deployment_id a) (al_alarm_type a) (al_title a).

(** The columns each statement sets; [update] also stores [updated_at]. *)
Definition resolve_row (now saved : Z) (a : Alarm) : Alarm :=
  alarm_update a "resolved" (al_acknowledged_at a) (al_acknowledged_by a) (Some (db_time now)) (al_silenced_until a) (db_time saved).
Definition acknowledge_row (user_id now saved : Z) (a : Alarm) : Alarm :=
  alarm_update a "acknowledged" (Some (db_time now)) (Some user_id) (al_resolved_at a) (al_silenced_until a) (db_time saved).
Definition silence_row (until saved : Z) (a : Alarm) : Alarm :=
  alarm_update a (al_status a) (al_acknowledged_at a) (al_acknowledged_by a) (al_resolved_at a) (Some (db_time until)) (db_time saved).
Definition batch_resolve_row (now : Z) (a : Alarm) : Alarm :=
  alarm_update a "resolved" (al_acknowledged_at a) (al_acknowledged_by a) (Some (db_time now)) (al_silenced_until a) (al_updated_at a).

(** [resolve_alarm]. *)
Definition resolve_alarm (alarm_id : Z) (project_id : option Z) : program (result AlarmError unit) :=
  try* alarm := find_alarm alarm_id project_id in
  if String.eqb (al_status alarm) "resolved" then Ret (Ok ())
  else
    let* now := call Now in
    let* saved := call Now in
    query* _ := call (UpdateAlarm alarm_id (resolve_row now saved)) in
    let* _ := call (SendJob (resolved_job alarm)) in
    let* _ := send_resolved_notification alarm in
    Ret (Ok ()).

(** The jobs and notifications at the end of a batch. *)
Fixpoint announce_resolved (alarms : list Alarm) : program unit :=
  match alarms with
  | [] => Ret ()
  | a :: rest =>
      let* _ := call (SendJob (resolved_job a)) in
      let* _ := send_resolved_notification a in
      announce_resolved rest
  end.

Definition still_firing (ids : list Z) (a : Alarm) : bool := bool_decide (al_id a ∈ ids) && String.eqb (al_status a) "firing".

(** The batch that [resolve_alarms_by_type] and [resolve_alarms_by_scope] run on what they found. *)
Definition resolve_batch (firing_alarms : list Alarm) : program (result AlarmError (list Z)) :=
  match firing_alarms with
  | [] => Ret (Ok [])
  | _ =>
      let ids := map al_id firing_alarms in
      let* now := call Now in
      query* _ := call Begin in
      query* _ := call Execute in
      query* _ := call (CommitAlarms (still_firing ids) (batch_resolve_row now)) in
      let* _ := announce_resolved firing_alarms in
      Ret (Ok ids)
  end.

(** [resolve_alarms_by_type]. *)
Definition resolve_alarms_by_type (project_id deployment_id : Z) (alarm_type : AlarmType) : program (result AlarmError (list Z)) :=
  query* rows := call (FindAlarms (fun a =>
    column_is (Some project_id) (al_project_id a) && column_is (Some deployment_id) (al_deployment_id a) &&
    String.eqb (al_alarm_type a) (alarm_type_str alarm_type) && String.eqb (al_status a) (status_str Firing))) in
  resolve_batch rows.

(** [resolve_alarms_by_scope]. *)
Definition resolve_alarms_by_scope (project_id environment_id deployment_id container_id service_id : option Z)
    (alarm_type : AlarmType) : program (result AlarmError (list Z)) :=
  query* rows := call (FindAlarms (fun a =>
    project_id_filter project_id a && String.eqb (al_alarm_type a) (alarm_type_str alarm_type) &&
    String.eqb (al_status a) (status_str Firing) && column_is environment_id (al_environment_id a) &&
    column_is deployment_id (al_deployment_id a) && column_is container_id (al_container_id a) &&
    column_is service_id (al_service_id a))) in
  resolve_batch rows.

(** [acknowledge_alarm]. *)
Definition acknowledge_alarm (alarm_id : Z) (project_id : option Z) (user_id : Z) : program (result AlarmError unit) :=
  try* alarm := find_alarm alarm_id project_id in
  if negb (String.eqb (al_status alarm) "firing") then Ret (Ok ())
  else
    let* now := call Now in
    let* saved := call Now in
    query* _ := call (UpdateAlarm alarm_id (acknowledge_row user_id now saved)) in
    Ret (Ok ()).

(** [silence_alarm]. *)
Definition silence_alarm (alarm_id : Z) (project_id : option Z) (duration : Z) : program (result AlarmError unit) :=
  try* alarm := find_alarm alarm_id project_id in
  if String.eqb (al_status alarm) "resolved" then Ret (Ok ())
  else
    let* now := call Now in
    let* saved := call Now in
    query* _ := call (UpdateAlarm alarm_id (silence_row (now + duration) saved)) in
    Ret (Ok ()).

(** ** Bulk updates *)

(** [Vec::dedup]. *)
Fixpoint dedup (l : list Z) : list Z :=
  match l with
  | x :: (y :: _) as rest => if x =? y then dedup rest else x :: dedup rest
  | _ => l
  end.

Definition oldest_first (a b : Alarm) : Prop := al_fired_at a < al_fired_at b \/ al_fired_at a = al_fired_at b /\ al_id a <= al_id b.
#[global] Instance oldest_first_dec : RelDecision oldest_first.
Proof. intros a b. unfold oldest_first. apply _. Defined.
Definition id_le (a b : Alarm) : Prop := al_id a <= al_id b.
#[global] Instance id_le_dec : RelDecision id_le.
Proof. intros a b. unfold id_le. apply _. Defined.

Definition is_eligible (action : BulkAlarmAction) (a : Alarm) : bool := existsb (String.eqb (al_status a)) (eligible_statuses action).
Definition matches_bulk (project_id : option Z) (filters : AlarmFilters) (action : BulkAlarmAction) (a : Alarm) : bool :=
  project_id_filter project_id a && alarm_filters_condition filters a && is_eligible action a.
Definition bulk_hits (project_id : option Z) (ids : list Z) (action : BulkAlarmAction) (a : Alarm) : bool :=
  project_id_filter project_id a && bool_decide (al_id a ∈ ids) && is_eligible action a.
Definition bulk_row (action : BulkAlarmAction) (user_id now : Z) (a : Alarm) : Alarm :=
  match action with
  | BulkAcknowledge => acknowledge_row user_id now now a
  | BulkResolve => resolve_row now now a
  end.

Fixpoint send_resolved_jobs (alarms : list Alarm) : program unit :=
  match alarms with
  | [] => Ret ()
  | a :: rest => let* _ := call (SendJob (resolved_job a)) in send_resolved_jobs rest
  end.

(** [bulk_update_alarms]. *)
Definition bulk_update_alarms (project_id : option Z) (selector : BulkAlarmSelector) (action : BulkAlarmAction) (user_id : Z)
    : program (result AlarmError BulkAlarmOutcome) :=
  try* target :=
    match selector with
    | Ids ids =>
        let ids := dedup (merge_sort Z.le ids) in
        let n := Z.of_nat (length ids) in
        if n =? 0 then Ret (Err (InvalidBulkRequest project_id NoIds))
        else if MAX_BULK_ALARM_UPDATE <? n then Ret (Err (InvalidBulkRequest project_id (TooManyIds n)))
        else
          query* rows := call (FindAlarms (fun a => project_id_filter project_id a && bool_decide (al_id a ∈ ids))) in
          Ret (match List.find (fun id => negb (bool_decide (id ∈ map al_id rows))) ids with
               | Some missing => Err (AlarmNotFound missing project_id)
               | None => Ok (ids, n, 0)
               end)
    | Matching filters =>
        query* matching := call (CountAlarms (matches_bulk project_id filters action)) in
        query* rows := call (FindAlarms (matches_bulk project_id filters action)) in
        Ret (Ok (take (Z.to_nat MAX_BULK_ALARM_UPDATE) (map al_id (merge_sort oldest_first rows)), 0, matching))
    end in
  let '(target_ids, requested, matching_before) := target in
  match target_ids with
  | [] => Ret (Ok {| bo_updated_ids := []; bo_skipped := 0; bo_remaining := 0 |})
  | _ =>
      let* now := call Now in
      query* updated := call (UpdateAlarms (bulk_hits project_id target_ids action) (bulk_row action user_id now)) in
      let updated := merge_sort id_le updated in
      let n := Z.of_nat (length updated) in
      let* remaining :=
        match selector with
        | Ids _ => Ret 0
        | Matching filters =>
            let* count := call (CountAlarms (matches_bulk project_id filters action)) in
            Ret (match count with Some remaining => remaining | None => Z.max 0 (matching_before - n) end)
        end in
      let* _ := match action with BulkResolve => send_resolved_jobs updated | BulkAcknowledge => Ret () end in
      Ret (Ok {| bo_updated_ids := map al_id updated; bo_skipped := Z.max 0 (requested - n); bo_remaining := remaining |})
  end.
End Service.
