(* ===== verification/AlertRules.v ===== *)
(** * The alert evaluator

    [crates/temps-monitoring/src/evaluator.rs]: the default rules, when a rule is in breach, the window a
    breach must last, firing and resolving the alarm of a rule, the cycle over all rules, and what a
    process does when it starts.  What the code logs, and the latches that say how loudly, are left out.
    The metrics store answers what a [Choice] says; requests of users edit the rules meanwhile. *)

From S2P Require Import Prelude Prog Alarms.
From Stdlib Require Import SpecFloat.
From stdpp Require Import pretty sorting.
Local Open Scope Z_scope.

(** ** Numbers *)

(** A literal with a decimal point, as the nearest binary64. *)
Definition f64_lit (num den : Z) : spec_float :=
  SFdiv 53 1024 (binary_normalize 53 1024 num 0 false) (binary_normalize 53 1024 den 0 false).
Definition f64_int (n : Z) : spec_float := binary_normalize 53 1024 n 0 false.

(** The whole number nearest to [a / b], an even one in the middle. *)
Definition round_even (a b : Z) : Z :=
  let q := a / b in
  match (2 * (a mod b)) ?= b with Lt => q | Gt => q + 1 | Eq => if Z.even q then q else q + 1 end.

Definition three_digits (n : Z) : string :=
  (if n <? 10 then "00" else if n <? 100 then "0" else "") +:+ pretty n.

(** [format!("{:.3}", x)]. *)
Definition fmt3 (x : spec_float) : string :=
  let sign (s : bool) : string := if s then "-" else "" in
  match x with
  | S754_nan => "NaN"
  | S754_infinity s => sign s +:+ "inf"
  | S754_zero s => sign s +:+ "0.000"
  | S754_finite s m e =>
      let n := if e <? 0 then round_even (Z.pos m * 1000) (2 ^ (- e)) else Z.pos m * 1000 * 2 ^ e in
      sign s +:+ pretty (n / 1000) +:+ "." +:+ three_digits (n mod 1000)
  end.

(** [str::to_lowercase], as far as it decides equality with the lower-case words of the code: no other
    character has one of their letters as its lower case. *)
Definition lower_ascii (c : ascii) : ascii :=
  let n := nat_of_ascii c in if (65 <=? n)%nat && (n <=? 90)%nat then ascii_of_nat (n + 32) else c.
Fixpoint to_lowercase (s : string) : string :=
  match s with EmptyString => EmptyString | String c s => String (lower_ascii c) (to_lowercase s) end.

(** ** Default rules *)

Record RuleSeed := {
  rs_name : string; rs_metric_name : string; rs_threshold : spec_float; rs_comparator : string; rs_severity : string;
  rs_for_duration_secs : Z
}.

Definition seed (name metric : string) (threshold : spec_float) (comparator severity : string) (secs : Z) : RuleSeed :=
  {| rs_name := name; rs_metric_name := metric; rs_threshold := threshold; rs_comparator := comparator;
     rs_severity := severity; rs_for_duration_secs := secs |}.

Definition postgres_default_seeds : list RuleSeed := [
  seed "High active connections (warning)" "pg.connections_active" (f64_int 80) ">" "warning" 60;
  seed "High active connections (critical)" "pg.connections_active" (f64_int 95) ">" "critical" 30;
  seed "Low cache hit ratio" "pg.cache_hit_ratio" (f64_lit 90 100) "<" "warning" 300;
  seed "Replication replay lag (warning)" "pg.replication_replay_lag_seconds" (f64_int 30) ">" "warning" 60;
  seed "Replication replay lag (critical)" "pg.replication_replay_lag_seconds" (f64_int 120) ">" "critical" 30;
  seed "Deadlocks detected" "pg.deadlocks_total" (f64_int 0) ">" "warning" 0].

Definition redis_default_seeds : list RuleSeed := [
  seed "High memory fragmentation ratio" "redis.memory_fragmentation_ratio" (f64_lit 15 10) ">" "warning" 300;
  seed "Keys being evicted" "redis.evicted_keys_total" (f64_int 0) ">" "warning" 60;
  seed "High connected clients" "redis.connected_clients" (f64_int 1000) ">" "warning" 60;
  seed "Low keyspace hit ratio" "redis.keyspace_hit_ratio" (f64_lit 90 100) "<" "warning" 300].

Definition mongodb_default_seeds : list RuleSeed := [
  seed "High current connections (warning)" "mongo.connections_current" (f64_int 500) ">" "warning" 60;
  seed "Operations queued for reads" "mongo.queued_reads" (f64_int 5) ">" "warning" 60;
  seed "Operations queued for writes" "mongo.queued_writes" (f64_int 5) ">" "warning" 60;
  seed "WiredTiger cache near full" "mongo.wiredtiger_cache_ratio" (f64_lit 95 100) ">" "warning" 300;
  seed "Replication buffer pressure" "mongo.replication_buffer_ratio" (f64_lit 80 100) ">" "warning" 120;
  seed "Cursor timeouts detected" "mongo.cursor_timed_out_total" (f64_int 0) ">" "warning" 0].

Definition rustfs_default_seeds : list RuleSeed := [
  seed "Storage nodes offline" "rustfs_cluster_health_drives_offline_count" (f64_int 0) ">" "critical" 60;
  seed "Low free capacity (warning)" "rustfs_cluster_capacity_free_bytes" (f64_int (10 * 1024 * 1024 * 1024)) "<" "warning" 300;
  seed "Low free capacity (critical)" "rustfs_cluster_capacity_free_bytes" (f64_int (2 * 1024 * 1024 * 1024)) "<" "critical" 60].

Definition proxy_default_seeds : list RuleSeed := [
  seed "High proxy error rate" "proxy.error_rate_percent" (f64_int 20) ">" "warning" 300;
  seed "Slow proxy responses (p99)" "proxy.request_duration_p99_ms" (f64_int 5000) ">" "warning" 300].

Definition node_fd_default_seeds : list RuleSeed := [
  seed "System file descriptors near exhaustion" "node.fd_percent" (f64_int 90) ">" "critical" 30;
  seed "Process file descriptors near limit" "node.process_fd_percent" (f64_int 90) ">" "critical" 30].

Definition otel_rate_limit_default_seeds : list RuleSeed := [
  seed "OTel ingest rate-limited" "otel.rate_limited_requests" (f64_int 10) ">" "warning" 0].

Definition container_default_seeds : list RuleSeed := [
  seed "High CPU usage" "container.cpu_utilization_percent" (f64_int 90) ">" "warning" 120;
  seed "High memory usage" "container.memory_percent" (f64_int 85) ">" "warning" 60].

Definition MAX_ALERT_RULES_PER_SERVICE : Z := 100.
Definition CONTROL_PLANE_NODE_ID : Z := 0.

(** The row a seed is inserted as. *)
Definition seed_row (service_id deployment_id node_id : option Z) (s : RuleSeed) : Rule :=
  {| ru_id := 0; ru_service_id := service_id; ru_deployment_id := deployment_id; ru_node_id := node_id;
     ru_name := rs_name s; ru_metric_name := rs_metric_name s; ru_threshold := rs_threshold s;
     ru_comparator := rs_comparator s; ru_severity := rs_severity s; ru_for_duration_secs := rs_for_duration_secs s;
     ru_enabled := true; ru_silenced_until := None; ru_breach_started_at := None |}.

(** ** When a rule is in breach *)

Definition REDIS_FRAGMENTATION_MIN_USED_BYTES : spec_float := f64_int (100 * 1024 * 1024).
Definition REDIS_HIT_RATIO_MIN_LOOKUPS : spec_float := f64_int 10000.
Definition PG_CACHE_HIT_RATIO_MIN_BLOCKS : spec_float := f64_int 100000.
Definition PROXY_MIN_REQUESTS_PER_SAMPLE : spec_float := f64_int 20.

Record VolumeGate := { vg_metric_name : string; vg_min_value : spec_float }.

(** [volume_gate]. *)
Definition volume_gate (metric_name : string) : option VolumeGate :=
  if String.eqb metric_name "redis.memory_fragmentation_ratio"
  then Some {| vg_metric_name := "redis.memory_used_bytes"; vg_min_value := REDIS_FRAGMENTATION_MIN_USED_BYTES |}
  else if String.eqb metric_name "redis.keyspace_hit_ratio"
  then Some {| vg_metric_name := "redis.keyspace_lookups"; vg_min_value := REDIS_HIT_RATIO_MIN_LOOKUPS |}
  else if String.eqb metric_name "pg.cache_hit_ratio"
  then Some {| vg_metric_name := "pg.cache_blocks_accessed"; vg_min_value := PG_CACHE_HIT_RATIO_MIN_BLOCKS |}
  else if String.eqb metric_name "proxy.error_rate_percent" || String.eqb metric_name "proxy.request_duration_p99_ms"
  then Some {| vg_metric_name := "proxy.requests"; vg_min_value := PROXY_MIN_REQUESTS_PER_SAMPLE |}
  else None.

(** [default_volume_gate]. *)
Definition default_volume_gate (rule : Rule) : option VolumeGate :=
  match volume_gate (ru_metric_name rule) with
  | None => None
  | Some gate =>
      if existsb (fun s => String.eqb (rs_name s) (ru_name rule) && String.eqb (rs_metric_name s) (ru_metric_name rule)
                           && SFeqb (rs_threshold s) (ru_threshold rule) && String.eqb (rs_comparator s) (ru_comparator rule))
           (postgres_default_seeds ++ redis_default_seeds ++ proxy_default_seeds)
      then Some gate else None
  end.

(** [meets_volume_gate]. *)
Definition meets_volume_gate (metric_name : string) (latest : gmap string spec_float) : bool :=
  match volume_gate metric_name with
  | None => true
  | Some gate => match latest !! vg_metric_name gate with Some v => SFleb (vg_min_value gate) v | None => false end
  end.

(** [compare]. *)
Definition compare (lhs rhs : spec_float) (comparator : string) : bool :=
  if String.eqb comparator ">" then SFltb rhs lhs
  else if String.eqb comparator "<" then SFltb lhs rhs
  else if String.eqb comparator ">=" then SFleb rhs lhs
  else if String.eqb comparator "<=" then SFleb lhs rhs
  else false.

(** [alarm_type_for_rule]. *)
Definition alarm_type_for_rule (rule : Rule) : AlarmType :=
  if String.eqb (ru_metric_name rule) "otel.rate_limited_requests"
     || String.eqb (ru_metric_name rule) "otel.quota_exceeded_requests"
  then OtelRateLimited
  else match ru_service_id rule, ru_deployment_id rule, ru_node_id rule with
       | Some _, None, None => DatabaseMetricThreshold
       | None, Some _, None => DeploymentMetricThreshold
       | None, None, Some _ => NodeMetricThreshold
       | _, _, _ => DatabaseMetricThreshold
       end.

(** ** Windows *)

Definition MAX_RESTORED_BREACH_AGE_MULTIPLIER : Z := 3.
Definition MIN_RESTORED_BREACH_AGE_SECS : Z := 15 * 60.

(** [TimeDelta::num_seconds], towards zero. *)
Definition num_seconds (ns : Z) : Z := Z.quot ns (10 ^ 9).

Definition after (now : Z) (t : option Z) : bool := match t with Some until => now <? until | None => false end.

(** [i64::saturating_mul]. *)
Definition saturating_mul (a b : Z) : Z := Z.max (- 2 ^ 63) (Z.min (2 ^ 63 - 1) (a * b)).

(** [breach_window_is_restorable]. *)
Definition breach_window_is_restorable (rule : Rule) (started_at now : Z) : bool :=
  if negb (ru_enabled rule) then false
  else if after now (ru_silenced_until rule) then false
  else
    let age_secs := num_seconds (now - started_at) in
    if age_secs <? 0 then false
    else
      let required_secs := Z.max (ru_for_duration_secs rule) 0 in
      let max_age_secs := Z.max (saturating_mul required_secs MAX_RESTORED_BREACH_AGE_MULTIPLIER) MIN_RESTORED_BREACH_AGE_SECS in
      age_secs <=? max_age_secs.

(** ** The evaluator *)

#[local] Abbreviation program := (prog reply).
#[local] Abbreviation call := (call (reply := reply)).

(** Project, environment, deployment and service of a rule. *)
Definition AlarmContext : Type := option Z * option Z * option Z * option Z.

Section Evaluator.
Context `{Timestamps} `{JsonText}.
Context (group_order : gmap (string * Z) (list Rule) -> list ((string * Z) * list Rule)).
Context (sv : AlarmService).

(** [claim_breach_start]. *)
Definition claim_breach_start (rule : Rule) (now : Z) : program (option Z) :=
  let* written := call (CoalesceBreach (ru_id rule) (db_time now)) in
  match written with
  | None => Ret None
  | Some _ =>
      let* read := call (FindRules (has_id (ru_id rule))) in
      match read with
      | None => Ret None
      | Some rows =>
          match head rows ≫= ru_breach_started_at with
          | Some started_at =>
              if breach_window_is_restorable rule started_at now then Ret (Some started_at)
              else
                let* written := call (SetBreach (ru_id rule) (db_time now)) in
                Ret (match written with Some _ => Some now | None => None end)
          | None => Ret None
          end
      end
  end.

(** [clear_persisted_breach_start]; a failure is only logged. *)
Definition clear_persisted_breach_start (rule_id : Z) : program unit :=
  let* _ := call (ClearBreach rule_id) in Ret ().

(** [clear_breach]. *)
Definition clear_breach (rule_id : Z) : program unit :=
  let* _ := call (RemoveBreach rule_id) in
  clear_persisted_breach_start rule_id.

(** The request [handle_breach] builds. *)
Definition breach_request (rule : Rule) (value : spec_float) (ctx : AlarmContext) : FireAlarmRequest :=
  let '(project_id, environment_id, deployment_id, service_id) := ctx in
  {| fr_project_id := project_id; fr_environment_id := environment_id; fr_deployment_id := deployment_id;
     fr_container_id := None; fr_service_id := service_id; fr_alarm_type := alarm_type_for_rule rule;
     fr_severity := (let s := to_lowercase (ru_severity rule) in
                     if String.eqb s "critical" then SevCritical else if String.eqb s "info" then SevInfo else SevWarning);
     fr_title := "Metric threshold breached: " +:+ ru_name rule;
     fr_message := ru_metric_name rule +:+ " is " +:+ fmt3 value +:+ " (threshold: " +:+ ru_comparator rule +:+ " "
       +:+ fmt3 (ru_threshold rule) +:+ ") — rule '" +:+ ru_name rule +:+ "'";
     fr_metadata := Some (JObject [
       ("rule_id", JInt (ru_id rule)); ("rule_name", JString (ru_name rule)); ("metric_name", JString (ru_metric_name rule));
       ("value", JFloat value); ("threshold", JFloat (ru_threshold rule)); ("comparator", JString (ru_comparator rule));
       ("for_duration_secs", JInt (ru_for_duration_secs rule))]%string) |}.

(** [handle_breach]. *)
Definition handle_breach (rule : Rule) (value : spec_float) (ctx : AlarmContext) : program unit :=
  let rule_id := ru_id rule in
  let required_secs := Z.max (ru_for_duration_secs rule) 0 in
  let* now := call Now in
  let* cached := call (CachedBreach rule_id) in
  let* started :=
    match cached with
    | Some existing => Ret (Some existing)
    | None =>
        let* claimed := claim_breach_start rule now in
        match claimed with
        | Some effective => let* _ := call (CacheBreaches [(rule_id, effective)]) in Ret (Some effective)
        | None => Ret None
        end
    end in
  match started with
  | None => Ret ()
  | Some started_at =>
      let elapsed_secs := Z.max (num_seconds (now - started_at)) 0 in
      if elapsed_secs <? required_secs then Ret ()
      else
        let* firing := call (IsFiring rule_id) in
        if (firing : bool) then Ret ()
        else
          let* fired := fire_alarm sv (breach_request rule value ctx) in
          match fired with
          | Ok (Some alarm_id) => let* _ := call (TrackAlarms [(rule_id, alarm_id)]) in Ret ()
          | Ok None => Ret ()
          | Err _ => Ret ()
          end
  end.

(** [handle_recovery]. *)
Definition handle_recovery (rule : Rule) (ctx : AlarmContext) : program unit :=
  let rule_id := ru_id rule in
  let* _ := clear_breach rule_id in
  let* tracked := call (UntrackAlarm rule_id) in
  match tracked with
  | None => Ret ()
  | Some alarm_id =>
      let project_id := ctx.1.1.1 in
      let* resolved := resolve_alarm alarm_id project_id in
      match resolved with
      | Ok _ => Ret ()
      | Err (AlarmNotFound _ _) =>
          let* found := call (FindAlarms (fun a => al_id a =? alarm_id)) in
          match found with
          | Some [] => Ret ()
          | _ => let* _ := call (TrackAlarms [(rule_id, alarm_id)]) in Ret ()
          end
      | Err _ => let* _ := call (TrackAlarms [(rule_id, alarm_id)]) in Ret ()
      end
  end.

(** [evaluate_rule]. *)
Definition evaluate_rule (rule : Rule) (latest : gmap string spec_float) (ctx : AlarmContext) : program unit :=
  match latest !! ru_metric_name rule with
  | None => clear_breach (ru_id rule)
  | Some value =>
      let gate := default_volume_gate rule in
      if match gate with Some g => bool_decide (latest !! vg_metric_name g = None) | None => false end
      then clear_breach (ru_id rule)
      else if bool_decide (is_Some gate) && negb (meets_volume_gate (ru_metric_name rule) latest)
      then handle_recovery rule ctx
      else if compare value (ru_threshold rule) (ru_comparator rule) then handle_breach rule value ctx
      else handle_recovery rule ctx
  end.

(** [resolve_alarm_context]. *)
Definition resolve_alarm_context (rule : Rule) : program AlarmContext :=
  let* deployment :=
    match ru_deployment_id rule with
    | Some id => let* found := call (FindDeployment id) in
                 Ret (match found with
                      | Some (Some (project, environment)) => Some (Some project, Some environment, Some id, None)
                      | _ => None
                      end)
    | None => Ret None
    end in
  match deployment with
  | Some ctx => Ret ctx
  | None =>
      match ru_service_id rule with
      | Some id => let* found := call (FindProjectService id) in
                   Ret (match found with
                        | Some (Some project) => (Some project, None, None, Some id)
                        | _ => (None, None, None, None)
                        end)
      | None => Ret (None, None, None, None)
      end
  end.

(** [for] over a body whose answer is not used. *)
Fixpoint for_each {A} (f : A -> program unit) (l : list A) : program unit :=
  match l with [] => Ret () | x :: l => let* _ := f x in for_each f l end.

(** ** A cycle *)

(** The rules a cycle evaluates. *)
Definition evaluated (now : Z) (r : Rule) : bool :=
  ru_enabled r && match ru_silenced_until r with None => true | Some until => until <? db_time now end.

(** The metrics of which entity a rule is about. *)
Definition rule_source (r : Rule) : option (string * Z) :=
  match ru_service_id r, ru_deployment_id r, ru_node_id r with
  | Some id, None, None => Some ("database"%string, id)
  | None, Some id, None => Some ("deployment"%string, id)
  | None, None, Some id => Some ("node"%string, id)
  | _, _, _ => None
  end.

Definition add_to_group (groups : gmap (string * Z) (list Rule)) (r : Rule) : gmap (string * Z) (list Rule) :=
  match rule_source r with
  | Some key => <[key := default [] (groups !! key) ++ [r]]> groups
  | None => groups
  end.
Definition source_groups (rules : list Rule) : gmap (string * Z) (list Rule) := fold_left add_to_group rules ∅.

(** The metrics a group needs. *)
Definition metric_names (group : list Rule) : gset string :=
  list_to_set (mjoin (map (fun r => ru_metric_name r :: match default_volume_gate r with Some g => [vg_metric_name g] | None => [] end) group)).

Definition evaluate_group (contexts : gmap Z AlarmContext) (g : (string * Z) * list Rule) : program unit :=
  let '((source_kind, source_id), group) := g in
  if existsb (String.eqb source_kind) ["database"; "deployment"; "container"; "node"]%string then
    let* latest := call (QueryLatest source_kind source_id (metric_names group)) in
    match latest with
    | None => Ret ()
    | Some latest =>
        for_each (fun r => evaluate_rule r latest (default (None, None, None, None) (contexts !! ru_id r))) group
    end
  else Ret ().

(** [run_cycle]. *)
Definition run_cycle : program (option unit) :=
  let* now_ts := call Now in
  let* loaded := call (FindRules (evaluated now_ts)) in
  match loaded with
  | None => Ret None
  | Some rules =>
      if bool_decide (rules = []) then Ret (Some ())
      else
        let active_ids : gset Z := list_to_set (map ru_id rules) in
        let* dropped_breaches := call (PruneBreaches active_ids) in
        let* _ := for_each clear_persisted_breach_start dropped_breaches in
        let* _ := call (PruneFiring active_ids) in
        let* contexts := prog_map (fun r => let* ctx := resolve_alarm_context r in Ret (ru_id r, ctx)) rules in
        let context_cache : gmap Z AlarmContext := fold_left (fun m p => <[p.1 := p.2]> m) contexts ∅ in
        let* _ := for_each (evaluate_group context_cache) (group_order (source_groups rules)) in
        Ret (Some ())
  end.

(** ** When a process starts *)

Definition is_open (a : Alarm) : bool :=
  String.eqb (al_status a) (status_str Firing) || String.eqb (al_status a) (status_str Acknowledged).

Definition metric_types : list AlarmType :=
  [DatabaseMetricThreshold; DeploymentMetricThreshold; ContainerMetricThreshold; NodeMetricThreshold].

(** The rule an alarm names. *)
Definition alarm_rule (a : Alarm) : option (Z * Z) :=
  match al_metadata a with
  | Some meta => (fun rule_id => (as_i32 rule_id, al_id a)) <$> int_field "rule_id" meta
  | None => None
  end.

Fixpoint load_types (types : list AlarmType) : program (option unit) :=
  match types with
  | [] => Ret (Some ())
  | t :: types =>
      let* rows := call (FindAlarms (fun a => String.eqb (al_alarm_type a) (alarm_type_str t) && is_open a)) in
      match rows with
      | None => Ret None
      | Some rows => let* _ := call (TrackAlarms (omap alarm_rule rows)) in load_types types
      end
  end.

(** [load_firing_alarms_from_db]. *)
Definition load_firing_alarms_from_db : program (option unit) := load_types metric_types.

Definition window_of (r : Rule) : option (Z * Z) := (fun b => (ru_id r, b)) <$> ru_breach_started_at r.
Definition restorable (now : Z) (r : Rule) : bool :=
  match ru_breach_started_at r with Some b => breach_window_is_restorable r b now | None => false end.
Definition discarded (now : Z) (r : Rule) : bool :=
  match ru_breach_started_at r with Some b => negb (breach_window_is_restorable r b now) | None => false end.

(** [load_breach_state_from_db]. *)
Definition load_breach_state_from_db : program (option unit) :=
  let* rows := call (FindRules breaching) in
  match rows with
  | None => Ret None
  | Some rows =>
      let* now := call Now in
      let* _ := call (CacheBreaches (omap window_of (List.filter (restorable now) rows))) in
      let* _ := for_each clear_persisted_breach_start (map ru_id (List.filter (discarded now) rows)) in
      Ret (Some ())
  end.

Inductive SeedError := SeedDatabase | SeedCapacity (service_id existing missing limit : Z).

(** The seeds of an engine. *)
Definition engine_seeds (engine : string) : option (list RuleSeed) :=
  let e := to_lowercase engine in
  if String.eqb e "postgres" then Some postgres_default_seeds
  else if String.eqb e "redis" then Some redis_default_seeds
  else if String.eqb e "mongodb" then Some mongodb_default_seeds
  else if String.eqb e "rustfs" then Some rustfs_default_seeds
  else None.

Definition of_service (service_id : Z) (r : Rule) : bool := bool_decide (ru_service_id r = Some service_id).

Definition try_seed {A B} (p : program (answer A)) (f : A -> program (result SeedError B)) : program (result SeedError B) :=
  prog_bind p (fun r => match r with Some a => f a | None => Ret (Err SeedDatabase) end).

(** The inserts of a transaction. *)
Fixpoint execute_all {A} (l : list A) (k : program (result SeedError unit)) : program (result SeedError unit) :=
  match l with [] => k | _ :: l => try_seed (call Execute) (fun _ => execute_all l k) end.

(** The metrics of the seeds that have no rule yet. *)
Definition missing_metrics (existing : list Rule) (seeds : list RuleSeed) : gset string :=
  list_to_set (map rs_metric_name
    (List.filter (fun s => negb (existsb (fun r => String.eqb (ru_metric_name r) (rs_metric_name s)) existing)) seeds)).

(** [seed_default_rules]; the row of the service stays locked until the transaction ends. *)
Definition seed_default_rules (service_id : Z) (engine : string) : program (result SeedError unit) :=
  match engine_seeds engine with
  | None => Ret (Ok ())
  | Some seeds =>
      try_seed (call Begin) (fun _ =>
      try_seed (call (FindService service_id)) (fun service =>
      match service with
      | None => try_seed (call Execute) (fun _ => Ret (Ok ()))
      | Some _ =>
          try_seed (call (FindRules (of_service service_id))) (fun counted =>
          let count := Z.of_nat (length counted) in
          try_seed (call (FindRules (of_service service_id))) (fun existing =>
          let missing := Z.of_nat (size (missing_metrics existing seeds)) in
          if MAX_ALERT_RULES_PER_SERVICE <? count + missing
          then try_seed (call Execute) (fun _ =>
               Ret (Err (SeedCapacity service_id count missing MAX_ALERT_RULES_PER_SERVICE)))
          else execute_all seeds
                 (try_seed (call (CommitRules (map (seed_row (Some service_id) None None) seeds))) (fun _ => Ret (Ok ())))))
      end))
  end.

(** Inserts that each commit alone. *)
Fixpoint insert_seeds (rows : list Rule) : program (option unit) :=
  match rows with
  | [] => Ret (Some ())
  | r :: rows => let* done := call (InsertRule r) in
                 match done with Some _ => insert_seeds rows | None => Ret None end
  end.

(** [seed_default_container_rules] and [seed_node_rules]. *)
Definition seed_default_container_rules (deployment_id : Z) : program (option unit) :=
  insert_seeds (map (seed_row None (Some deployment_id) None) container_default_seeds).
Definition seed_node_rules (seeds : list RuleSeed) : program (option unit) :=
  insert_seeds (map (seed_row None None (Some CONTROL_PLANE_NODE_ID)) seeds).

(** [backseed_default_rules_for_enabled_services]. *)
Definition backseed_default_rules : program (option unit) :=
  let* services := call MetricServices in
  match services with
  | None => Ret None
  | Some services =>
      let* _ := for_each (fun s => let* _ := seed_default_rules (sv_id s) (sv_type s) in Ret ()) services in
      Ret (Some ())
  end.

Fixpoint cycles (n : nat) : program unit :=
  match n with O => Ret () | S n => let* _ := run_cycle in cycles n end.

(** [start], for as many cycles as it lasts. *)
Definition start (n : nat) : program unit :=
  let* _ := call Start in
  let* _ := load_firing_alarms_from_db in
  let* _ := load_breach_state_from_db in
  let* _ := backseed_default_rules in
  let* _ := seed_node_rules proxy_default_seeds in
  let* _ := seed_node_rules otel_rate_limit_default_seeds in
  let* _ := seed_node_rules node_fd_default_seeds in
  cycles n.

(** ** Everything that runs *)

(** The evaluator of a process, and requests to the alarm service from everywhere else. *)
Inductive Call :=
  | Evaluator (n : nat)
  | FireAlarm (silent : bool) (request : FireAlarmRequest)
  | ResolveAlarm (alarm_id : Z) (project_id : option Z)
  | ResolveByType (project_id deployment_id : Z) (alarm_type : AlarmType)
  | ResolveByScope (project_id environment_id deployment_id container_id service_id : option Z) (alarm_type : AlarmType)
  | AcknowledgeAlarm (alarm_id : Z) (project_id : option Z) (user_id : Z)
  | SilenceAlarm (alarm_id : Z) (project_id : option Z) (duration : Z)
  | BulkUpdate (project_id : option Z) (selector : BulkAlarmSelector) (action : BulkAlarmAction) (user_id : Z)
  | SeedService (service_id : Z) (engine : string)
  | SeedContainer (deployment_id : Z).

Definition discard {A} (p : program A) : program unit := let* _ := p in Ret ().

Definition body (ag : Agent) (c : Call) : program unit :=
  match c with
  | Evaluator n => if ag_evaluator ag then start n else Ret ()
  | FireAlarm silent request => discard (if silent then fire_alarm_silent sv request else fire_alarm sv request)
  | ResolveAlarm id project => discard (resolve_alarm id project)
  | ResolveByType project deployment t => discard (resolve_alarms_by_type project deployment t)
  | ResolveByScope project environment deployment container service t =>
      discard (resolve_alarms_by_scope project environment deployment container service t)
  | AcknowledgeAlarm id project user => discard (acknowledge_alarm id project user)
  | SilenceAlarm id project duration => discard (silence_alarm id project duration)
  | BulkUpdate project selector action user => discard (bulk_update_alarms project selector action user)
  | SeedService id engine => discard (seed_default_rules id engine)
  | SeedContainer id => discard (seed_default_container_rules id)
  end.
End Evaluator.

(** What happens by itself: time, the end of the process, users who create, edit, silence and delete
    rules and delete alarms, and rows that come in another order. *)
Inductive Env :=
  | Passes (now : Z)
  | Restart
  | CreateRule (r : Rule)
  | EditRule (r : Rule)
  | DeleteRule (id : Z)
  | DeleteAlarm (id : Z)
  | Reorder (rule_ids alarm_ids : list Z).

(** Whether the last thing the evaluator did about the window of a rule was to give it up. *)
Fixpoint given_up (id : Z) (log : list Note) : bool :=
  match log with
  | [] => false
  | Claimed i _ :: log => if i =? id then false else given_up id log
  | Cleared i :: log => if i =? id then true else given_up id log
  | _ :: log => given_up id log
  end.

Definition left_behind (w : World) : list Z :=
  map ru_id (List.filter (fun r => breaching r && given_up (ru_id r) (w_log w)) (w_rules w)).

Definition reorder {A} (key : A -> Z) (ids : list Z) (rows : list A) : list A :=
  if bool_decide (ids ≡ₚ map key rows) then omap (fun i => List.find (fun a => key a =? i) rows) ids else rows.

Definition happen (e : Env) (w : World) : World :=
  match e with
  | Passes now => set_process (w_epoch w) (w_started w) (Z.max (w_now w) now) (w_breach_start w) (w_firing_alarms w) (w_log w) w
  | Restart => set_process (S (w_epoch w)) false (w_now w) ∅ ∅ (map Stale (left_behind w) ++ w_log w) w
  | CreateRule r =>
      set_rules (w_rules w ++ [with_breach None (with_rule_id (w_next_rule w) r)]) (w_next_rule w + 1) (w_log w) w
  | EditRule r =>
      set_rules (map (fun old => if ru_id old =? ru_id r then with_breach (ru_breach_started_at old) r else old) (w_rules w))
        (w_next_rule w) (w_log w) w
  | DeleteRule id => set_rules (List.filter (fun r => negb (ru_id r =? id)) (w_rules w)) (w_next_rule w) (w_log w) w
  | DeleteAlarm id =>
      set_alarms (List.filter (fun a => negb (al_id a =? id)) (w_alarms w)) (w_next_alarm w) (w_log w) w
  | Reorder rule_ids alarm_ids =>
      set_alarms (reorder al_id alarm_ids (w_alarms w)) (w_next_alarm w) (w_log w)
        (set_rules (reorder ru_id rule_ids (w_rules w)) (w_next_rule w) (w_log w) w)
  end.
