(* ===== verification/AlertRuns.v ===== *)
(** * Alarms follow sustained breaches

    Runs of [AlertRules]: evaluators of one process after the other, requests to the alarm service and
    edits of the rules, one access at a time.  An alarm of the evaluator comes after a window that was
    begun by an observed breach, that lasted as long as the rule asks, and that was not given up in
    between, restarts of the process included. *)

From S2P Require Import Prelude Prog Alarms AlertRules.
From Stdlib Require Import SpecFloat.
Local Open Scope Z_scope.

(** ** Windows in the history *)

(** The window that began at [s] was not given up since, or the column kept it. *)
Definition held (log : list Note) (id s : Z) : Prop :=
  exists mid rest, log = mid ++ Claimed id s :: rest /\ ((Cleared id ∉ mid) \/ Stale id ∈ mid).

Lemma held_app l log id s : (Cleared id ∉ l) -> held log id s -> held (l ++ log) id s.
Proof.
  intros Hl (mid & rest & -> & Hm). exists (l ++ mid), rest. rewrite app_assoc. split; [done|]. rewrite elem_of_app. set_solver.
Qed.

Lemma held_claim log id s : held (Claimed id s :: log) id s.
Proof. exists [], log. split; [done|]. left. apply not_elem_of_nil. Qed.

Lemma held_stale l log id s : Stale id ∈ l -> Claimed id s ∈ log -> held (l ++ log) id s.
Proof.
  intros Hl (mid & rest & ->)%list_elem_of_split. exists (l ++ mid), rest. rewrite app_assoc. split; [done|]. right.
  apply elem_of_app. by left.
Qed.

(** What the alarm of a rule must rest on. *)
Definition sound (log : list Note) (rid secs at_ns : Z) : Prop :=
  exists s, held log rid s /\ Z.max secs 0 * 10 ^ 9 - 1000 < at_ns - s.

Definition all_sound (log : list Note) : Prop :=
  forall newer older aid rid secs at_ns, log = newer ++ Fired aid rid secs at_ns :: older -> sound older rid secs at_ns.

Lemma all_sound_push n log :
  all_sound log -> (forall aid rid secs at_ns, n = Fired aid rid secs at_ns -> sound log rid secs at_ns) -> all_sound (n :: log).
Proof.
  intros Hl Hn [|x newer] older aid rid secs at_ns [= -> Hr]; [by subst log; eapply Hn|by eapply Hl].
Qed.

Lemma all_sound_app l log : (forall aid rid secs at_ns, Fired aid rid secs at_ns ∉ l) -> all_sound log -> all_sound (l ++ log).
Proof.
  intros Hl Hs. induction l as [|n l IH]; [done|]. apply all_sound_push.
  - apply IH. intros aid rid secs at_ns Hin. apply (Hl aid rid secs at_ns). by right.
  - intros aid rid secs at_ns ->. destruct (Hl aid rid secs at_ns). by left.
Qed.

Lemma given_up_app l log id :
  (forall s, Claimed id s ∉ l) -> given_up id log = true -> given_up id (l ++ log) = true.
Proof.
  intros Hl Hg. induction l as [|n l IH]; [done|]. assert (given_up id (l ++ log) = true) as Hr by (apply IH; set_solver).
  destruct n as [i t|i|i|]; cbn; try done.
  - destruct (Z.eqb_spec i id) as [->|]; [|done]. destruct (Hl t). by left.
  - by destruct (_ =? _).
Qed.

Lemma given_up_cleared l log id :
  (forall s, Claimed id s ∉ l) -> Cleared id ∈ l -> given_up id (l ++ log) = true.
Proof.
  intros Hl (l1 & l2 & ->)%list_elem_of_split. rewrite <- app_assoc. apply given_up_app; [set_solver|]. cbn. by rewrite Z.eqb_refl.
Qed.

(** One access that is allowed. *)
Ltac one_call := match goal with |- only ?m (call ?a) => exact (only_call m a eq_refl) end.

Section Runs.
Context `{TimestampsLaws} `{JsonText}.
Context (key_order : gmap Z Z -> list Z) (group_order : gmap (string * Z) (list Rule) -> list ((string * Z) * list Rule)).
Context (sv : AlarmService).

#[local] Abbreviation perform := (perform key_order).
#[local] Abbreviation body := (body group_order sv).
#[local] Abbreviation program := (prog reply).
#[local] Abbreviation Event := (@Event Choice Agent Env Call).

(** Requests are not the evaluator.  A request that is given up is one that gets no more turns. *)
Definition allowed (ev : Event) : Prop :=
  match ev with
  | Spawn ag (Evaluator _) => ag_evaluator ag = true
  | Spawn ag _ => ag_evaluator ag = false
  | Turn _ _ | Happen _ => True
  | Drop _ => False
  end.

(** ** The invariant *)

(** What a task knows: the windows it gave up and has not cleared, windows that stand, and a moment that
    has passed. *)
Record Role := { ro_agent : Agent; ro_started : bool; ro_pending : list Z; ro_held : list (Z * Z); ro_seen : Z }.

Definition live (w : World) (o : Role) : bool := (ag_epoch (ro_agent o) =? w_epoch w)%nat && ro_started o.

(** A past moment from which a standing window has lasted. *)
Definition stands (log : list Note) (now id b : Z) : Prop := exists s, held log id s /\ s <= b <= now.

Record good (w : World) : Prop := {
  g_claims id s : Claimed id s ∈ w_log w -> s <= w_now w;
  g_cache id b : w_breach_start w !! id = Some b -> stands (w_log w) (w_now w) id b;
  g_fired : all_sound (w_log w)
}.

(** The columns: the window stands, or the evaluator is about to clear it. *)
Definition columns (w : World) (pending : Z -> Prop) : Prop :=
  forall r b, r ∈ w_rules w -> ru_breach_started_at r = Some b ->
  Claimed (ru_id r) b ∈ w_log w /\
  (held (w_log w) (ru_id r) b \/ given_up (ru_id r) (w_log w) = true /\ pending (ru_id r)).

Definition role_ok (w : World) (o : Role) : Prop :=
  Forall (fun p => stands (w_log w) (w_now w) p.1 p.2) (ro_held o) /\ ro_seen o <= w_now w.

Definition Inv (w : World) (roles : list Role) : Prop :=
  good w /\
  columns w (fun id => exists o, o ∈ roles /\ live w o = true /\ id ∈ ro_pending o) /\
  (forall o, o ∈ roles -> live w o = true -> role_ok w o) /\
  (length (List.filter (live w) roles) <= if w_started w then 1 else 0)%nat /\
  (forall o, o ∈ roles -> ro_started o = true -> (ag_epoch (ro_agent o) <= w_epoch w)%nat).

Lemma alert_inv_perm w roles roles' : roles ≡ₚ roles' -> Inv w roles -> Inv w roles'.
Proof.
  intros Hp (Hg & Hc & Hr & Hn & He). split_and!; [done| | | |].
  - intros r b Hin Hb. destruct (Hc r b Hin Hb) as [Hcl Hd]. split; [done|]. destruct Hd as [Hh|[Hu (o & Ho & Hx)]]; [by left|].
    right. split; [done|]. exists o. by rewrite <- Hp.
  - intros o. rewrite <- Hp. apply Hr.
  - by rewrite <- (filter_perm (live w) _ _ Hp).
  - intros o. rewrite <- Hp. apply He.
Qed.

(** ** Steps that leave windows alone *)

Record calm (w w' : World) : Prop := {
  c_log : w_log w' = w_log w;
  c_cache : w_breach_start w' = w_breach_start w;
  c_now : w_now w <= w_now w';
  c_epoch : w_epoch w' = w_epoch w;
  c_started : w_started w' = w_started w;
  c_rules r b : r ∈ w_rules w' -> ru_breach_started_at r = Some b ->
    exists r0, r0 ∈ w_rules w /\ ru_id r0 = ru_id r /\ ru_breach_started_at r0 = Some b
}.

Lemma calm_refl w : calm w w.
Proof. split; try done. intros r b Hr Hb. by exists r. Qed.

Lemma calm_trans w1 w2 w3 : calm w1 w2 -> calm w2 w3 -> calm w1 w3.
Proof.
  intros [] []. split; try congruence; [lia|]. intros r b Hr Hb. destruct (c_rules1 r b Hr Hb) as (r0 & Hr0 & <- & Hb0).
  by apply c_rules0.
Qed.

Lemma stands_later log now now' id b : now <= now' -> stands log now id b -> stands log now' id b.
Proof. intros Hn (s & Hh & Hs). exists s. split; [done|lia]. Qed.

Lemma Inv_calm w w' roles : calm w w' -> Inv w roles -> Inv w' roles.
Proof.
  intros [El Ec Hn Ee Es Er] ([Hcl Hca Hf] & Hc & Hr & Hl & He).
  assert (forall o, live w' o = live w o) as Hlive by (intros o; unfold live; by rewrite Ee).
  split_and!.
  - split; rewrite El; try done.
    + intros id s Hin. specialize (Hcl id s Hin). lia.
    + rewrite Ec. intros id b Hb. by eapply stands_later; [|apply Hca].
  - intros r b Hin Hb. destruct (Er r b Hin Hb) as (r0 & Hr0 & Hid & Hb0). destruct (Hc r0 b Hr0 Hb0) as [Hx Hy].
    rewrite Hid in *. rewrite El. split; [done|]. destruct Hy as [Hh|[Hg (o & Ho & Hlo & Hp)]]; [by left|]. right. split; [done|].
    exists o. by rewrite Hlive.
  - intros o Ho. rewrite Hlive. intros Hlo. destruct (Hr o Ho Hlo) as [Hh Hs]. split; [rewrite El|lia].
    revert Hh. apply Forall_impl. intros p. by apply stands_later.
  - rewrite Es. erewrite List.filter_ext; [exact Hl|done].
  - by rewrite Ee.
Qed.

Definition calm_action (a : Action) : bool :=
  match a with
  | Start | InsertAlarm _ | CoalesceBreach _ _ | SetBreach _ _ | ClearBreach _ | CacheBreaches _ | RemoveBreach _ | PruneBreaches _ => false
  | _ => true
  end.

Lemma insert_rule_calm w r : calm w (insert_rule w r).
Proof.
  unfold insert_rule. destruct (existsb _ _); [apply calm_refl|]. split; try done. cbn. intros r' b Hr Hb.
  apply elem_of_app in Hr as [Hr|Hr]; [by exists r'|]. apply list_elem_of_singleton in Hr as ->. done.
Qed.

Lemma insert_rules_calm rs w : calm w (fold_left insert_rule rs w).
Proof.
  revert w. induction rs as [|r rs IH]; intros w; cbn; [apply calm_refl|]. eapply calm_trans; [apply insert_rule_calm|apply IH].
Qed.

Lemma served_calm {A} c w (x : A) w' y w'' : served c w x w' = Some (y, w'') -> calm w w' -> calm w w''.
Proof. unfold served. destruct (ch_fault c) as [|[]]; intros [= <- <-]; intros; by try apply calm_refl. Qed.

Lemma current_perform ag c w a x w' : perform ag c w a = Some (x, w') -> ag_epoch ag = w_epoch w.
Proof. unfold Alarms.perform. destruct (Nat.eqb_spec (ag_epoch ag) (w_epoch w)); by cbn. Qed.

Lemma perform_calm ag c w a x w' : calm_action a = true -> perform ag c w a = Some (x, w') -> calm w w'.
Proof.
  unfold Alarms.perform. destruct (negb _); [done|]. destruct a; try done; intros _ Hp;
    try (eapply served_calm; [exact Hp|]); try apply calm_refl;
    try (by split; try done; intros r b Hr Hb; exists r); try apply insert_rule_calm; try apply insert_rules_calm.
  all: try (injection Hp as <- <-); try (by split; try done; intros r b Hr Hb; exists r).
  destruct (existsb _ _); [eapply served_calm; [exact Hp|]|injection Hp as <- <-; apply calm_refl].
  split; try done. intros r b Hr Hb. by exists r.
Qed.

(** An alarm of another task. *)
Lemma insert_calm ag c w row x w' : ag_evaluator ag = false -> perform ag c w (InsertAlarm row) = Some (x, w') -> calm w w'.
Proof.
  intros Ha. unfold Alarms.perform, fired_note. destruct (negb _); [done|]. rewrite Ha. intros Hp. eapply served_calm; [exact Hp|].
  split; try done. intros r b Hr Hb. by exists r.
Qed.

#[local] Abbreviation keeps := (keeps perform allowed Inv).

Lemma keeps_untouched {A} ag r (p : program A) Q : only calm_action p -> (forall x, Q x r) -> keeps ag r p Q.
Proof.
  intros Hp HQ. induction Hp as [x|a k Ha _ IH]; cbn; [apply HQ|]. intros i c w others x w' _ Hi Hperf. exists r.
  split; [|apply IH]. eapply Inv_calm; [|exact Hi]. by eapply perform_calm.
Qed.

Lemma keeps_untouched_bind {A B} ag r (p : program A) (f : A -> program B) Q :
  only calm_action p -> (forall x, keeps ag r (f x) Q) -> keeps ag r (prog_bind p f) Q.
Proof. intros Hp Hf. apply keeps_bind. by apply keeps_untouched. Qed.

(** ** Steps of the evaluator *)

Definition evaluator (ag : Agent) (r : Role) : Prop := ro_agent r = ag /\ ro_started r = true.

Lemma evaluator_live ag r c w a x w' : evaluator ag r -> perform ag c w a = Some (x, w') -> live w r = true.
Proof. intros [Hr Hs] Hp%current_perform. unfold live. by rewrite Hr, Hs, Hp, Nat.eqb_refl. Qed.

(** It is the only one. *)
Lemma alone_live w r others o : Inv w (r :: others) -> live w r = true -> o ∈ others -> live w o = false.
Proof.
  intros (_ & _ & _ & Hn & _) Hl Ho. destruct (live w o) eqn:E; [|done]. cbn in Hn. rewrite Hl in Hn. cbn in Hn.
  assert (o ∈ List.filter (live w) others) as Hin by (apply list_elem_of_In, filter_In; by rewrite <- list_elem_of_In).
  apply list_elem_of_split in Hin as (l1 & l2 & Hs). rewrite Hs, length_app in Hn. cbn in Hn. destruct (w_started w); lia.
Qed.

Lemma Inv_mine w r others :
  Inv w (r :: others) -> live w r = true -> good w /\ columns w (fun id => id ∈ ro_pending r) /\ role_ok w r.
Proof.
  intros Hi Hl. pose proof (alone_live w r others) as Hother. destruct Hi as (Hg & Hc & Hr & Hn & He).
  split_and!; [done| |by apply Hr; [left|]].
  intros row b Hin Hb. destruct (Hc row b Hin Hb) as [Hx Hy]. split; [done|]. destruct Hy as [|[Hu (o & Ho & Hlo & Hp)]]; [by left|].
  right. split; [done|]. apply elem_of_cons in Ho as [->|Ho]; [done|]. by rewrite (Hother o) in Hlo; [|split_and!|done|done].
Qed.

Lemma eval_step w w' r r' others :
  w_epoch w' = w_epoch w -> w_started w' = w_started w -> ro_agent r' = ro_agent r -> ro_started r' = ro_started r ->
  live w r = true ->
  (good w -> columns w (fun id => id ∈ ro_pending r) -> role_ok w r ->
   good w' /\ columns w' (fun id => id ∈ ro_pending r') /\ role_ok w' r') ->
  Inv w (r :: others) -> Inv w' (r' :: others).
Proof.
  intros Ee Es Ha Hst Hl Hstep Hi. pose proof (alone_live w r others) as Hother.
  destruct (Inv_mine w r others Hi Hl) as (Hg1 & Hc1 & Hr1). destruct Hi as (Hg & Hc & Hr & Hn & He).
  assert (forall o, live w' o = live w o) as Hlive by (intros o; unfold live; by rewrite Ee).
  assert (live w r' = true) as Hl' by (unfold live in *; by rewrite Ha, Hst).
  destruct (Hstep Hg1 Hc1 Hr1) as (Hg' & Hc' & Hr').
  split_and!; [done| | | |].
  - intros row b Hin Hb. destruct (Hc' row b Hin Hb) as [Hx Hy]. split; [done|]. destruct Hy as [|[Hu Hp]]; [by left|].
    right. split; [done|]. exists r'. rewrite Hlive. split; [by left|done].
  - intros o [->|Ho]%elem_of_cons Hlo; [done|]. rewrite Hlive, (Hother o) in Hlo; [done|by split_and!|done|done].
  - rewrite Es. cbn. rewrite Hlive, Hl'. cbn in Hn. rewrite Hl in Hn. cbn in *. by rewrite (List.filter_ext _ _ Hlive).
  - rewrite Ee. intros o [->|Ho]%elem_of_cons Hso; [|by apply He; [right|]].
    rewrite Ha. apply He; [left|]. by rewrite <- Hst.
Qed.

Definition with_facts (r : Role) (pending : list Z) (held : list (Z * Z)) (seen : Z) : Role :=
  {| ro_agent := ro_agent r; ro_started := ro_started r; ro_pending := pending; ro_held := held; ro_seen := seen |}.

(** One access of the evaluator, with what it knows afterwards. *)
Lemma keeps_eval {A} ag r a (k : reply a -> program A) Q :
  evaluator ag r ->
  (forall c w x w', perform ag c w a = Some (x, w') ->
   good w -> columns w (fun id => id ∈ ro_pending r) -> role_ok w r ->
   exists pending held seen,
     w_epoch w' = w_epoch w /\ w_started w' = w_started w /\
     (good w' /\ columns w' (fun id => id ∈ pending) /\ role_ok w' (with_facts r pending held seen)) /\
     keeps ag (with_facts r pending held seen) (k x) Q) ->
  keeps ag r (Do a k) Q.
Proof.
  intros Hev Hs i c w others x w' _ Hi Hp. pose proof (evaluator_live _ _ _ _ _ _ _ Hev Hp) as Hl.
  destruct (Inv_mine w r others Hi Hl) as (Hg & Hc & Hr).
  destruct (Hs c w x w' Hp Hg Hc Hr) as (pending & hl & seen & Ee & Es & Hstep & Hk).
  exists (with_facts r pending hl seen). split; [|exact Hk].
  exact (eval_step w w' r (with_facts r pending hl seen) others Ee Es eq_refl eq_refl Hl (fun _ _ _ => Hstep) Hi).
Qed.

Lemma stands_app l log now id b : (Cleared id ∉ l) -> stands log now id b -> stands (l ++ log) now id b.
Proof. intros Hl (s & Hh & Hs). exists s. split; [by apply held_app|done]. Qed.

Lemma stands_all_app l log now (ps : list (Z * Z)) :
  (forall id, Cleared id ∉ l) -> Forall (fun p => stands log now p.1 p.2) ps -> Forall (fun p => stands (l ++ log) now p.1 p.2) ps.
Proof. intros Hl. apply Forall_impl. intros [id b]. by apply stands_app. Qed.

Lemma good_grow w w' l :
  w_log w' = l ++ w_log w -> w_now w' = w_now w -> (forall id s, Claimed id s ∈ l -> s <= w_now w) ->
  (forall aid rid secs at_ns, Fired aid rid secs at_ns ∉ l) ->
  (forall id b, w_breach_start w' !! id = Some b -> stands (l ++ w_log w) (w_now w) id b) -> good w -> good w'.
Proof.
  intros El En Hcl Hf Hca [Hc _ Hs]. split; rewrite ?El, ?En; [|done|by apply all_sound_app].
  intros id s [Hin|Hin]%elem_of_app; [by apply Hcl in Hin|by apply Hc in Hin].
Qed.

Lemma cache_kept w l id b :
  (Cleared id ∉ l) -> good w -> w_breach_start w !! id = Some b -> stands (l ++ w_log w) (w_now w) id b.
Proof. intros Hl Hg Hb. apply stands_app; [done|]. by apply (g_cache _ Hg). Qed.

(** A column that was not touched. *)
Lemma column_kept w l id b (pend pend' : Z -> Prop) :
  (Cleared id ∉ l) -> (pend id -> pend' id /\ forall s, Claimed id s ∉ l) ->
  Claimed id b ∈ w_log w /\ (held (w_log w) id b \/ given_up id (w_log w) = true /\ pend id) ->
  Claimed id b ∈ l ++ w_log w /\ (held (l ++ w_log w) id b \/ given_up id (l ++ w_log w) = true /\ pend' id).
Proof.
  intros Hl Hp [Hc Hd]. split; [apply elem_of_app; by right|]. destruct Hd as [Hh|[Hg Hx]]; [left; by apply held_app|].
  right. destruct (Hp Hx) as [Hx' Hn]. split; [by apply given_up_app|done].
Qed.

(** A window begins. *)
Lemma claim_ok w r (hit : Rule -> bool) id t l next :
  (forall row, hit row = true -> ru_id row = id) -> t <= ro_seen r -> ro_pending r = [] ->
  (forall row, row ∈ w_rules w -> hit row = true -> l = [Claimed id t]) -> l = [] \/ l = [Claimed id t] ->
  good w -> columns w (fun id => id ∈ ro_pending r) -> role_ok w r ->
  let w' := set_rules (apply_where hit (with_breach (Some t)) (w_rules w)) next (l ++ w_log w) w in
  good w' /\ columns w' (fun id => id ∈ ro_pending r) /\ role_ok w' r.
Proof.
  intros Hhit Ht Hpend Hl Hl' Hg Hc [Hh Hseen] w'.
  assert (forall i, Cleared i ∉ l) as Hnc by (intros i; destruct Hl' as [-> | ->]; set_solver).
  split_and!.
  - apply (good_grow w w' l); try done.
    + intros i s Hin. destruct Hl' as [-> | ->]; [by apply elem_of_nil in Hin|]. apply list_elem_of_singleton in Hin as [= -> ->]. lia.
    + intros. destruct Hl' as [-> | ->]; set_solver.
    + intros i b. exact (cache_kept w l i b (Hnc i) Hg).
  - intros row b Hin Hb. cbn in Hin. unfold apply_where in Hin. apply list_elem_of_fmap in Hin as (row0 & -> & Hin).
    destruct (hit row0) eqn:E.
    + injection Hb as <-. cbn [ru_id with_breach w_log w' set_rules]. rewrite (Hl row0 Hin E), (Hhit row0 E). cbn. split; [left|left; apply held_claim].
    + apply (column_kept w l (ru_id row0) b (fun id => id ∈ ro_pending r) (fun id => id ∈ ro_pending r)); [done| |by apply Hc]. rewrite Hpend. by intros ?%elem_of_nil.
  - split; [by apply stands_all_app|done].
Qed.

(** A window is cleared, or the column keeps it. *)
Lemma clear_ok w r id ps next :
  ro_pending r ⊆ id :: ps -> good w -> columns w (fun id => id ∈ ro_pending r) -> role_ok w r ->
  let w1 := set_rules (apply_where (has_id id) (with_breach None) (w_rules w)) next (w_log w) w in
  let w2 := set_rules (w_rules w) next (Stale id :: w_log w) w in
  (good w1 /\ columns w1 (fun id => id ∈ ps) /\ role_ok w1 r) /\ (good w2 /\ columns w2 (fun id => id ∈ ps) /\ role_ok w2 r).
Proof.
  intros Hps Hg Hc [Hh Hseen] w1 w2. assert (forall i, i <> id -> i ∈ ro_pending r -> i ∈ ps) as Hin
    by (intros i Hi Hp; apply Hps, elem_of_cons in Hp as [|]; by try done). split; split_and!.
  - apply (good_grow w w1 []); try done; try set_solver. intros i b. by apply (g_cache w).
  - intros row b Hr Hb. cbn in Hr. apply list_elem_of_fmap in Hr as (row0 & -> & Hr). unfold has_id in *.
    destruct (Z.eqb_spec (ru_id row0) id) as [|Hne]; [done|].
    apply (column_kept w [] (ru_id row0) b (fun id => id ∈ ro_pending r) (fun id => id ∈ ps)); [set_solver|intros; split; [by apply Hin|set_solver]|by apply Hc].
  - split; done.
  - apply (good_grow w w2 [Stale id]); try done; try set_solver. intros i b. apply (cache_kept w [Stale id]); [set_solver|done].
  - intros row b Hr Hb. destruct (Hc row b Hr Hb) as [Hcl Hd]. destruct (decide (ru_id row = id)) as [E|Hne].
    + split; [right; done|]. left. rewrite E in *. apply (held_stale [Stale id]); [left|done].
    + apply (column_kept w [Stale id] (ru_id row) b (fun id => id ∈ ro_pending r) (fun id => id ∈ ps)); [set_solver|intros; split; [by apply Hin|set_solver]|done].
  - split; [|done]. apply (stands_all_app [Stale id]); [set_solver|done].
Qed.

(** Windows are given up. *)
Lemma windows_dropped w r (dropped : list Z) cache firing :
  ro_pending r = [] -> (forall id b, cache !! id = Some b -> w_breach_start w !! id = Some b /\ (id ∉ dropped)) ->
  good w -> columns w (fun id => id ∈ ro_pending r) -> role_ok w r ->
  let w' := set_caches cache firing (map Cleared dropped ++ w_log w) w in
  good w' /\ columns w' (fun id => id ∈ dropped) /\ role_ok w' (with_facts r dropped [] (ro_seen r)).
Proof.
  intros Hpend Hcache Hg Hc [Hh Hseen] w'.
  assert (forall id, Cleared id ∈ map Cleared dropped <-> id ∈ dropped) as Hd.
  { intros id. rewrite list_elem_of_fmap. split; [intros (i & [= ->] & Hi); done|intros Hi; by exists id]. }
  assert (forall id s, Claimed id s ∉ map Cleared dropped) as Hnc by (intros id s (i & [=] & _)%list_elem_of_fmap).
  split_and!.
  - apply (good_grow w w' (map Cleared dropped)); try done.
    + intros id s Hin. by apply Hnc in Hin.
    + by intros aid rid secs at_ns (i & [=] & _)%list_elem_of_fmap.
    + intros id b Hb. destruct (Hcache id b Hb) as [Hb' Hn]. apply (cache_kept w); [by rewrite Hd|done|done].
  - intros row b Hin Hb. destruct (Hc row b Hin Hb) as [Hcl Hx]. destruct (decide (ru_id row ∈ dropped)) as [Hy|Hn].
    + split; [apply elem_of_app; by right|]. right. split; [|done]. apply given_up_cleared; [done|by rewrite Hd].
    + apply (column_kept w (map Cleared dropped) (ru_id row) b (fun id => id ∈ ro_pending r) (fun id => id ∈ dropped)); [by rewrite Hd| |done].
      rewrite Hpend. by intros ?%elem_of_nil.
  - split; [constructor|done].
Qed.

(** ** What the programs of the evaluator keep *)

Definition ready (ag : Agent) (r : Role) : Prop := evaluator ag r /\ ro_pending r = [].

Lemma ready_facts ag r hl seen : ready ag r -> ready ag (with_facts r [] hl seen).
Proof. by intros [[] ?]. Qed.

(** Reads tell what stands. *)
Lemma keeps_learn {A} ag r a (k : reply a -> program A) Q :
  ready ag r -> calm_action a = true ->
  (forall c w x w', perform ag c w a = Some (x, w') -> good w -> columns w (fun _ => False) -> role_ok w r ->
   exists hl seen, Forall (fun p => stands (w_log w) (w_now w) p.1 p.2) hl /\ seen <= w_now w /\ keeps ag (with_facts r [] hl seen) (k x) Q) ->
  keeps ag r (Do a k) Q.
Proof.
  intros [Hev Hpend] Ha Hs. apply keeps_eval; [done|]. intros c w x w' Hp Hg Hc Hr.
  assert (columns w (fun _ => False)) as Hc'.
  { intros row b Hin Hb. destruct (Hc row b Hin Hb) as [Hx Hy]. split; [done|]. destruct Hy as [|[_ Hy]]; [by left|].
    rewrite Hpend in Hy. by apply elem_of_nil in Hy. }
  destruct (Hs c w x w' Hp Hg Hc' Hr) as (hl & seen & Hh & Hseen & Hk). exists [], hl, seen.
  destruct (perform_calm _ _ _ _ _ _ Ha Hp) as [El Ec Hn Ee Es Er]. split_and!; try done.
  - destruct Hg as [Hcl Hca Hf]. split; rewrite El; try done.
    + intros id s Hin. specialize (Hcl id s Hin). lia.
    + rewrite Ec. intros id b Hb. by eapply stands_later; [|apply Hca].
  - intros row b Hin Hb. destruct (Er row b Hin Hb) as (row0 & Hin0 & Hid & Hb0). rewrite <- Hid, El.
    destruct (Hc' row0 b Hin0 Hb0) as [Hx [Hy|[_ []]]]. split; [done|by left].
  - split; [rewrite El|cbn; lia]. revert Hh. apply Forall_impl. intros p. by apply stands_later.
Qed.

Lemma keeps_clock {A} ag r (k : Z -> program A) Q :
  ready ag r ->
  (forall t, ro_seen r <= t -> (forall p, p ∈ ro_held r -> p.2 <= t) -> keeps ag (with_facts r [] (ro_held r) t) (k t) Q) ->
  keeps ag r (Do Now k) Q.
Proof.
  intros Hr Hk. apply keeps_learn; [done|done|]. intros c w x w' Hp _ _ [Hh Hs].
  unfold Alarms.perform in Hp. destruct (negb _); [done|]. injection Hp as <- <-. exists (ro_held r), (w_now w).
  split_and!; [done|done|]. apply Hk; [done|]. intros p Hp. rewrite list.Forall_forall in Hh. by destruct (Hh p Hp) as (s & _ & _ & ?).
Qed.

(** The column is claimed when there was none. *)
Lemma keeps_coalesce {A} ag r id t (k : answer unit -> program A) Q :
  ready ag r -> t <= ro_seen r -> (forall x, keeps ag (with_facts r [] (ro_held r) (ro_seen r)) (k x) Q) ->
  keeps ag r (Do (CoalesceBreach id t) k) Q.
Proof.
  intros [Hev Hpend] Ht Hk. apply keeps_eval; [done|]. intros c w x w' Hp Hg Hc Hr. exists [], (ro_held r), (ro_seen r).
  unfold Alarms.perform in Hp. destruct (negb _); [done|]. set (l := if existsb _ _ then [Claimed id t] else []) in Hp.
  assert (good w' /\ columns w' (fun id => id ∈ ro_pending r) /\ role_ok w' r /\ w_epoch w' = w_epoch w /\ w_started w' = w_started w)
    as (Hg' & Hc' & Hr' & Ee & Es); [|rewrite Hpend in Hc'; split_and!; try done; apply Hk].
  assert (let w1 := set_rules (apply_where (unclaimed id) (with_breach (Some t)) (w_rules w)) (w_next_rule w) (l ++ w_log w) w in
          good w1 /\ columns w1 (fun id => id ∈ ro_pending r) /\ role_ok w1 r) as (Hg1 & Hc1 & Hr1).
  { apply (claim_ok w r (unclaimed id) id); try done.
    - unfold unclaimed, has_id. by intros row [?%Z.eqb_eq _]%andb_true_iff.
    - intros row Hin Hu. unfold l. assert (existsb (unclaimed id) (w_rules w) = true) as ->; [|done].
      apply existsb_exists. exists row. by rewrite <- list_elem_of_In.
    - unfold l. destruct (existsb _ _); [by right|by left]. }
  unfold served in Hp. destruct (ch_fault c) as [|[]]; injection Hp as <- <-; by split_and!.
Qed.

(** A stale window is replaced. *)
Lemma keeps_set {A} ag r id now (k : answer unit -> program A) Q :
  ready ag r -> now <= ro_seen r ->
  (forall x : answer unit,
     keeps ag (with_facts r [] (match x with Some _ => (id, now) :: ro_held r | None => ro_held r end) (ro_seen r)) (k x) Q) ->
  keeps ag r (Do (SetBreach id (db_time now)) k) Q.
Proof.
  intros [Hev Hpend] Ht Hk. apply keeps_eval; [done|]. intros c w x w' Hp Hg Hc Hr. pose proof (db_time_precise now) as Hdb.
  unfold Alarms.perform in Hp. destruct (negb _); [done|].
  assert (let w1 := set_rules (apply_where (has_id id) (with_breach (Some (db_time now))) (w_rules w)) (w_next_rule w)
                      ([Claimed id (db_time now)] ++ w_log w) w in
          good w1 /\ columns w1 (fun id => id ∈ ro_pending r) /\ role_ok w1 r) as (Hg1 & Hc1 & Hr1).
  { apply (claim_ok w r (has_id id) id); try done; [|lia|by right]. unfold has_id. by intros row ?%Z.eqb_eq. }
  exists [], (match x with Some _ => (id, now) :: ro_held r | None => ro_held r end), (ro_seen r). rewrite Hpend in *.
  destruct Hr1 as [Hh1 Hs1]. unfold served in Hp. destruct (ch_fault c) as [|[]]; injection Hp as <- <-; split_and!; try done;
    [|exact (Hk (Some ()))|exact (Hk None)..].
  split; [|done]. constructor; [|done]. exists (db_time now). split; [apply held_claim|cbn in *; lia].
Qed.

(** A window that was given up, or is too old, is cleared. *)
Lemma keeps_clear ag r id ps :
  evaluator ag r -> ro_pending r ⊆ id :: ps ->
  keeps ag r (clear_persisted_breach_start id) (fun _ r' => r' = with_facts r ps (ro_held r) (ro_seen r)).
Proof.
  intros Hev Hps. unfold clear_persisted_breach_start, call. cbn [prog_bind]. apply keeps_eval; [done|]. intros c w x w' Hp Hg Hc Hr.
  destruct (clear_ok w r id ps (w_next_rule w) Hps Hg Hc Hr) as [(Hg1 & Hc1 & Hr1) (Hg2 & Hc2 & Hr2)].
  exists ps, (ro_held r), (ro_seen r). unfold Alarms.perform, served in Hp. destruct (negb _); [done|].
  destruct (ch_fault c) as [|[]]; injection Hp as <- <-; by split_and!.
Qed.

Lemma keeps_clear_all ag ids : forall r, evaluator ag r -> ro_pending r ⊆ ids ->
  keeps ag r (for_each clear_persisted_breach_start ids) (fun _ r' => ready ag r').
Proof.
  induction ids as [|id ids IH]; intros r Hev Hp; cbn [for_each].
  - cbn. split; [done|]. destruct (ro_pending r) as [|x l]; [done|]. destruct (not_elem_of_nil x). apply Hp. left.
  - apply keeps_bind. eapply keeps_mono; [|by apply (keeps_clear ag r id ids)]. intros x r' ->. by apply IH.
Qed.

Lemma keeps_clear_breach ag r id : ready ag r -> keeps ag r (clear_breach id) (fun _ r' => ready ag r').
Proof.
  intros [Hev Hpend]. unfold clear_breach, call. cbn [prog_bind]. apply keeps_eval; [done|]. intros c w x w' Hp Hg Hc Hr.
  exists [id], [], (ro_seen r). unfold Alarms.perform in Hp. destruct (negb _); [done|]. injection Hp as <- <-.
  split; [done|]. split; [done|]. split.
  - apply (windows_dropped w r [id] (delete id (w_breach_start w)) (w_firing_alarms w)); [done| |done|done|done].
    intros i b [Hne Hb]%lookup_delete_Some. split; [done|]. by rewrite list_elem_of_singleton.
  - eapply keeps_mono; [|apply (keeps_clear ag _ id []); [by destruct Hev|done]]. intros y r' ->. by destruct Hev.
Qed.

Lemma insert_all_lookup l m id b : insert_all l m !! id = Some b -> (id, b) ∈ l \/ m !! id = Some b.
Proof.
  unfold insert_all. revert m. induction l as [|[i x] l IH]; intros m; cbn; [by right|]. intros Hb%IH.
  destruct Hb as [Hb|Hb]; [left; by right|]. apply lookup_insert_Some in Hb as [[-> ->]|[_ Hb]]; [left; left|by right].
Qed.

Lemma keeps_cache {A} ag r l (k : unit -> program A) Q :
  ready ag r -> l ⊆ ro_held r -> keeps ag (with_facts r [] (ro_held r) (ro_seen r)) (k ()) Q -> keeps ag r (Do (CacheBreaches l) k) Q.
Proof.
  intros [Hev Hpend] Hl Hk. apply keeps_eval; [done|]. intros c w x w' Hp Hg Hc [Hh Hs]. exists [], (ro_held r), (ro_seen r).
  unfold Alarms.perform in Hp. destruct (negb _); [done|]. injection Hp as <- <-. rewrite Hpend in Hc. split_and!; try done.
  apply (good_grow w _ []); try done; try set_solver. intros id b [Hin|Hb]%insert_all_lookup; [|by apply (g_cache w)].
  rewrite list.Forall_forall in Hh. by apply (Hh (id, b)), Hl.
Qed.

(** ** Alarms of the evaluator *)

Definition due (rule : Rule) (b now : Z) : Prop := Z.max (ru_for_duration_secs rule) 0 <= Z.max (num_seconds (now - b)) 0.

Lemma due_elapsed rule b now t :
  b <= t -> now <= t -> due rule b now -> Z.max (ru_for_duration_secs rule) 0 * 10 ^ 9 <= t - b.
Proof.
  unfold due, num_seconds. intros Hb Ht Hd. destruct (Z.le_gt_cases b now).
  - rewrite Z.quot_div_nonneg in Hd by lia. zlia.
  - assert (Z.quot (now - b) (10 ^ 9) <= 0) by (apply Z.quot_le_upper_bound; lia). lia.
Qed.

Lemma fired_note_not ag row id : (forall i, Cleared i ∉ fired_note ag row id) /\ (forall i s, Claimed i s ∉ fired_note ag row id).
Proof.
  unfold fired_note. destruct (ag_evaluator ag); [|set_solver]. destruct (al_metadata row) as [m|]; [|set_solver].
  destruct (int_field "rule_id" m), (int_field "for_duration_secs" m); set_solver.
Qed.

Lemma keeps_insert {A} ag r rule value ctx b now t1 t2 (k : answer Z -> program A) Q :
  ready ag r -> (ru_id rule, b) ∈ ro_held r -> due rule b now -> now <= t1 -> b <= t1 ->
  (forall x, keeps ag (with_facts r [] (ro_held r) (ro_seen r)) (k x) Q) ->
  keeps ag r (Do (InsertAlarm (request_row (breach_request rule value ctx) t1 t2)) k) Q.
Proof.
  intros [Hev Hpend] Hin Hd Hn Hb Hk. apply keeps_eval; [done|]. intros c w x w' Hp Hg Hc [Hh Hs].
  exists [], (ro_held r), (ro_seen r). rewrite Hpend in Hc. pose proof (db_time_precise t1) as Hdb.
  unfold Alarms.perform in Hp. destruct (negb _); [done|]. set (row := request_row _ t1 t2) in Hp.
  set (l := fired_note ag row (w_next_alarm w)) in Hp.
  destruct (fired_note_not ag row (w_next_alarm w)) as [Hnc Hncl].
  assert (all_sound (l ++ w_log w)) as Hsound.
  { unfold l, fired_note. destruct (ag_evaluator ag); [|apply Hg]. subst row. unfold request_row, breach_request.
    destruct ctx as [[[pid eid] did] sid]. cbn [al_metadata fr_metadata al_fired_at]. unfold int_field. cbn.
    destruct ((_ <=? ru_id rule) && _); [|apply Hg]. destruct ((_ <=? ru_for_duration_secs rule) && _); [|apply Hg].
    cbn. apply all_sound_push; [apply Hg|]. intros aid rid secs at_ns [= _ <- <- <-].
    rewrite list.Forall_forall in Hh. destruct (Hh _ Hin) as (s & Hheld & Hsb & _). exists s. split; [done|].
    pose proof (due_elapsed rule b now t1 Hb Hn Hd). cbn in *. lia. }
  assert (let w1 := set_alarms (w_alarms w ++ [with_alarm_id (w_next_alarm w) row]) (w_next_alarm w + 1) (l ++ w_log w) w in
          good w1 /\ columns w1 (fun id => id ∈ ([] : list Z)) /\ role_ok w1 r) as (Hg1 & Hc1 & Hr1).
  { split_and!.
    - split; [|intros i b'; exact (cache_kept w l i b' (Hnc i) Hg)|done].
      intros i s [Hx|Hx]%elem_of_app; [by apply Hncl in Hx|by apply (g_claims w Hg i)].
    - intros row' b' Hr' Hb'. apply (column_kept w l (ru_id row') b' (fun id => id ∈ []) (fun id => id ∈ [])); [done|set_solver|by apply Hc].
    - split; [by apply stands_all_app|done]. }
  destruct Hr1 as [Hh1 Hs1]. unfold served in Hp. destruct (ch_fault c) as [|[]]; injection Hp as <- <-; split_and!; try done; apply Hk.
Qed.

Lemma calm_cooldown request : only calm_action (is_in_cooldown sv request).
Proof. unfold is_in_cooldown, try_db. only_steps. Qed.

Lemma calm_metadata p s e : only calm_action (build_notification_metadata p s e).
Proof. unfold build_notification_metadata. destruct p, s, e; only_steps. Qed.

Lemma calm_notification request : only calm_action (send_alarm_notification request).
Proof. unfold send_alarm_notification. apply only_bind; [apply calm_metadata|]. only_steps. Qed.

Lemma calm_resolved_notification a : only calm_action (send_resolved_notification a).
Proof. unfold send_resolved_notification. apply only_bind; [apply calm_metadata|]. only_steps. Qed.

Lemma calm_find id p : only calm_action (find_alarm id p).
Proof. unfold find_alarm, try_db. only_steps. Qed.

Lemma calm_resolve id p : only calm_action (resolve_alarm id p).
Proof.
  unfold resolve_alarm, try_db. apply only_bind; [apply calm_find|]. intros [a|e]; [|only_steps]. destruct (String.eqb _ _); [only_steps|].
  only_steps.
Qed.

Lemma keeps_fire ag r rule value ctx b now :
  ready ag r -> (ru_id rule, b) ∈ ro_held r -> due rule b now -> now <= ro_seen r ->
  keeps ag r (fire_alarm sv (breach_request rule value ctx)) (fun _ r' => ready ag r').
Proof.
  intros Hr Hin Hd Hn. unfold fire_alarm, fire_alarm_internal, prog_try. apply keeps_untouched_bind; [apply calm_cooldown|].
  intros [[]|e]; [done| |done]. unfold try_db, call. cbn [prog_bind]. apply keeps_clock; [done|]. intros t1 Ht1 Hp1.
  apply keeps_clock; [by repeat apply ready_facts|]. intros t2 _ _. cbn [ro_held with_facts].
  apply (keeps_insert ag _ rule value ctx b now); [by repeat apply ready_facts|done|done|lia|by apply (Hp1 (ru_id rule, b))|].
  intros x. apply keeps_untouched; [|intros; by repeat apply ready_facts]. destruct x; [|only_steps]. apply only_bind; [apply calm_notification|].
  only_steps.
Qed.

Lemma ready_columns w id b rows c (x : answer (list Rule)) w' ag :
  columns w (fun _ => False) -> good w -> perform ag c w (FindRules rows) = Some (x, w') ->
  match x with Some l => forall r, r ∈ l -> ru_id r = id -> ru_breach_started_at r = Some b -> stands (w_log w) (w_now w) id b | None => True end.
Proof.
  intros Hc Hg Hp. unfold Alarms.perform, served in Hp. destruct (negb _); [done|].
  destruct (ch_fault c); injection Hp as <- <-; [|done]. intros r Hr Hid Hb. apply list_elem_of_In, filter_In in Hr as [Hr%list_elem_of_In _].
  destruct (Hc r b Hr Hb) as [Hcl [Hh|[_ []]]]. rewrite Hid in *. exists b. split; [done|]. split; [done|]. by apply (g_claims w Hg id).
Qed.

(** What follows a claim: a window that stands, or none. *)
Lemma keeps_claim ag r rule now :
  ready ag r -> now <= ro_seen r ->
  keeps ag r (claim_breach_start rule now)
    (fun x r' => ready ag r' /\ ro_seen r <= ro_seen r' /\ forall b, x = Some b -> (ru_id rule, b) ∈ ro_held r').
Proof.
  intros Hr Hn. pose proof (db_time_precise now). unfold claim_breach_start, call. cbn [prog_bind].
  apply keeps_coalesce; [done|lia|]. intros [[]|]; [|by split_and!; [apply ready_facts|..]]. cbn [prog_bind].
  apply keeps_learn; [by apply ready_facts|done|]. intros c w x w' Hp Hg Hc [Hh Hs]. cbn [with_facts ro_held ro_seen] in *.
  pose proof (fun b => ready_columns w (ru_id rule) b (has_id (ru_id rule)) c x w' ag Hc Hg Hp) as Hrows.
  assert (forall rows, x = Some rows -> forall row, row ∈ rows -> ru_id row = ru_id rule) as Hids.
  { intros rows -> row Hin. unfold Alarms.perform, served in Hp. destruct (negb _); [done|].
    destruct (ch_fault c); [|done]. injection Hp as <- _. apply list_elem_of_In, filter_In in Hin as [_ Hin]. by apply Z.eqb_eq. }
  destruct x as [rows|].
  2: { exists [], (ro_seen r). split; [apply list.Forall_nil_2|]. cbn. by split_and!; [|repeat apply ready_facts|..]. }
  destruct (head rows ≫= ru_breach_started_at) as [b|] eqn:Hb.
  2: { exists [], (ro_seen r). split; [apply list.Forall_nil_2|]. cbn. by split_and!; [|repeat apply ready_facts|..]. }
  apply bind_Some in Hb as (row & Hrow & Hb). apply head_Some_elem_of in Hrow.
  pose proof (Hrows b row Hrow (Hids rows eq_refl row Hrow) Hb) as Hst.
  exists [(ru_id rule, b)], (ro_seen r). split_and!; [by apply Forall_singleton|done|].
  destruct (breach_window_is_restorable rule b now).
  - cbn. split_and!; [by repeat apply ready_facts|done|]. intros b' [= <-]. left.
  - cbn [prog_bind]. apply keeps_set; [by repeat apply ready_facts|done|].
    intros [[]|]; cbn; (split_and!; [by repeat apply ready_facts|done|]); [intros b' [= <-]; left|done].
Qed.

Lemma keeps_handle_breach ag r rule value ctx :
  ready ag r -> keeps ag r (handle_breach sv rule value ctx) (fun _ r' => ready ag r').
Proof.
  intros Hr. unfold handle_breach, call. cbn [prog_bind]. apply keeps_clock; [done|]. intros now _ _. set (r0 := with_facts r [] _ now).
  apply keeps_learn; [by apply ready_facts|done|]. intros c w x w' Hp Hg Hc [Hh Hs]. cbn [with_facts ro_held ro_seen r0] in *.
  assert (forall p (r1 : Role), ready ag r1 -> now <= ro_seen r1 -> (ru_id rule, p) ∈ ro_held r1 -> keeps ag r1
    (if Z.max (num_seconds (now - p)) 0 <? Z.max (ru_for_duration_secs rule) 0 then Ret ()
     else Do (IsFiring (ru_id rule)) (fun x => prog_bind (Ret x) (fun firing => if (firing : bool) then Ret () else
       prog_bind (fire_alarm sv (breach_request rule value ctx)) (fun fired =>
         match fired with
         | Ok (Some alarm_id) => prog_bind (Do (TrackAlarms [(ru_id rule, alarm_id)]) Ret) (fun _ => Ret ())
         | Ok None => Ret ()
         | Err _ => Ret ()
         end)))) (fun _ r' => ready ag r')) as Hfire.
  { intros p r1 Hr1 Hn Hin. destruct (Z.ltb_spec (Z.max (num_seconds (now - p)) 0) (Z.max (ru_for_duration_secs rule) 0)); [done|].
    apply keeps_learn; [done|done|]. intros c1 w1 firing w1' _ _ _ [Hh1 Hs1]. exists (ro_held r1), (ro_seen r1). split_and!; [done|done|].
    cbn [prog_bind]. destruct (firing : bool); [by apply ready_facts|]. apply keeps_bind.
    eapply keeps_mono; [|apply (keeps_fire ag _ rule value ctx p now); [by apply ready_facts|done|done|done]].
    intros fired r2 Hr2. apply keeps_untouched; [|done]. destruct fired as [[]|]; only_steps. }
  unfold Alarms.perform in Hp. destruct (negb _); [done|]. injection Hp as <- <-.
  destruct (w_breach_start w !! ru_id rule) as [b|] eqn:Hb.
  - exists [(ru_id rule, b)], now. split_and!; [by apply Forall_singleton, (g_cache w Hg)|done|]. cbn [prog_bind].
    apply Hfire; [by repeat apply ready_facts|done|left].
  - exists (ro_held r), now. split_and!; [done|done|]. cbn [prog_bind]. apply keeps_bind, keeps_bind.
    eapply keeps_mono; [|apply (keeps_claim ag _ rule now); [by repeat apply ready_facts|done]].
    intros [b|] r1 (Hr1 & Hs1 & Hb1); [|by cbn]. cbn [prog_bind]. apply keeps_cache; [done| |].
    + intros q ->%list_elem_of_singleton. by apply Hb1.
    + cbn. apply Hfire; [by apply ready_facts|done|by apply Hb1].
Qed.

Lemma keeps_handle_recovery ag r rule ctx : ready ag r -> keeps ag r (handle_recovery rule ctx) (fun _ r' => ready ag r').
Proof.
  intros Hr. unfold handle_recovery. apply keeps_bind. eapply keeps_mono; [|by apply keeps_clear_breach]. intros y r' Hr'.
  apply keeps_untouched; [|done]. apply only_bind; [by apply only_call|]. intros [id|]; [|constructor]. apply only_bind; [apply calm_resolve|].
  intros [[]|[]]; only_steps.
Qed.

Lemma keeps_evaluate_rule ag r rule latest ctx :
  ready ag r -> keeps ag r (evaluate_rule sv rule latest ctx) (fun _ r' => ready ag r').
Proof.
  intros Hr. unfold evaluate_rule. destruct (latest !! _); [|by apply keeps_clear_breach].
  destruct (match default_volume_gate rule with Some _ => _ | None => _ end); [by apply keeps_clear_breach|].
  destruct (_ && _); [by apply keeps_handle_recovery|]. destruct (compare _ _ _); [by apply keeps_handle_breach|by apply keeps_handle_recovery].
Qed.

Lemma keeps_for_each {A} ag (f : A -> program unit) l :
  (forall x r, ready ag r -> keeps ag r (f x) (fun _ r' => ready ag r')) ->
  forall r, ready ag r -> keeps ag r (for_each f l) (fun _ r' => ready ag r').
Proof.
  intros Hf. induction l as [|x l IH]; intros r Hr; cbn [for_each]; [done|]. apply keeps_bind. eapply keeps_mono; [|by apply Hf]. intros y r' Hr'.
  by apply IH.
Qed.

Lemma keeps_evaluate_group ag r contexts g : ready ag r -> keeps ag r (evaluate_group sv contexts g) (fun _ r' => ready ag r').
Proof.
  intros Hr. destruct g as [[kind id] group]. cbn [evaluate_group]. destruct (existsb _ _); [|done].
  apply keeps_untouched_bind; [by apply only_call|]. intros [latest|]; [|done]. apply keeps_for_each; [|done]. intros rule r' Hr'.
  by apply keeps_evaluate_rule.
Qed.

Lemma calm_context rule : only calm_action (resolve_alarm_context rule).
Proof. unfold resolve_alarm_context. only_steps. Qed.

Lemma keeps_run_cycle ag r : ready ag r -> keeps ag r (run_cycle group_order sv) (fun _ r' => ready ag r').
Proof.
  intros Hr. unfold run_cycle. apply keeps_untouched_bind; [by apply only_call|]. intros now.
  apply keeps_untouched_bind; [by apply only_call|]. intros [rules|]; [|done]. case_bool_decide; [done|]. cbv zeta.
  set (active := list_to_set (map ru_id rules) : gset Z). destruct Hr as [Hev Hpend]. apply keeps_eval; [done|].
  intros c w x w' Hp Hg Hc Hok. unfold Alarms.perform in Hp. destruct (negb _); [done|]. cbv zeta in Hp.
  set (dropped := List.filter _ _) in Hp. injection Hp as <- <-. exists dropped, [], (ro_seen r).
  split; [done|]. split; [done|]. split.
  - apply (windows_dropped w r dropped (retained active (w_breach_start w)) (w_firing_alarms w)); [done| |done|done|done].
    intros id b [Hb Hin]%map_lookup_filter_Some. split; [done|]. intros [_ Hx]%list_elem_of_In%filter_In.
    by rewrite bool_decide_true in Hx.
  - apply keeps_bind. eapply keeps_mono; [|apply keeps_clear_all; [by destruct Hev|done]]. intros y r' Hr'.
    apply keeps_untouched_bind; [by apply only_call|]. intros _. apply keeps_untouched_bind.
    { apply only_map. intros rule. apply only_bind; [apply calm_context|]. constructor. }
    intros contexts. apply keeps_bind. eapply keeps_mono; [|apply (keeps_for_each ag (evaluate_group sv _)); [|done]]; [by cbn|].
    intros g r1 Hr1. by apply keeps_evaluate_group.
Qed.

Lemma calm_load types : only calm_action (load_types types).
Proof. induction types as [|t types IH]; cbn; only_steps. Qed.

Lemma calm_seed id engine : only calm_action (seed_default_rules id engine).
Proof.
  assert (forall {A} (l : list A) k, only calm_action k -> only calm_action (execute_all l k)) as Hall.
  { intros A l k Hk. induction l as [|x l IH]; cbn [execute_all]; [done|]. unfold try_seed. only_steps. }
  unfold seed_default_rules, try_seed. destruct (engine_seeds engine); [|constructor]. repeat (only_steps; try apply Hall).
Qed.

Lemma calm_inserts rows : only calm_action (insert_seeds rows).
Proof. induction rows as [|row rows IH]; cbn; only_steps. Qed.

Lemma calm_for_each {A} (f : A -> program unit) l : (forall x, only calm_action (f x)) -> only calm_action (for_each f l).
Proof. intros Hf. induction l as [|x l IH]; cbn; [constructor|]. by apply only_bind. Qed.

Lemma calm_backseed : only calm_action backseed_default_rules.
Proof.
  unfold backseed_default_rules. apply only_bind; [by apply only_call|]. intros [services|]; [|constructor].
  apply only_bind; [|constructor]. apply calm_for_each. intros s. apply only_bind; [apply calm_seed|]. constructor.
Qed.

Lemma keeps_load_breaches ag r : ready ag r -> keeps ag r load_breach_state_from_db (fun _ r' => ready ag r').
Proof.
  intros Hr. unfold load_breach_state_from_db, call. cbn [prog_bind]. apply keeps_learn; [done|done|]. intros c w x w' Hp Hg Hc [Hh Hs].
  pose proof (fun id b => ready_columns w id b breaching c x w' ag Hc Hg Hp) as Hrows.
  destruct x as [rows|]; [|by exists [], (ro_seen r); split; [apply list.Forall_nil_2|split; [done|apply ready_facts]]].
  exists (omap window_of rows), (ro_seen r). split_and!; [|done|].
  { apply list.Forall_forall. intros [id b] (row & Hrow & Hw)%list_elem_of_omap. unfold window_of in Hw.
    destruct (ru_breach_started_at row) as [b'|] eqn:Hb; [|done]. injection Hw as <- <-. by apply (Hrows _ _ row). }
  cbn [prog_bind]. apply keeps_clock; [by apply ready_facts|]. intros now _ _. apply keeps_cache; [by repeat apply ready_facts| |].
  - intros p (row & Hrow & Hw)%list_elem_of_omap. apply list_elem_of_omap. exists row. split; [|done].
    by apply list_elem_of_In, filter_In in Hrow as [?%list_elem_of_In _].
  - apply keeps_bind. eapply keeps_mono; [|apply keeps_clear_all; [by destruct Hr as [[] _]|by intros i ?%elem_of_nil]]. by intros y r' Hr'.
Qed.

(** ** Every run *)

Lemma keeps_evaluator ag r n :
  ro_agent r = ag -> ro_started r = false -> keeps ag r (start group_order sv n) (fun _ _ => True).
Proof.
  intros Ha Hst. unfold start, call. cbn [prog_bind]. intros i c w others x w' _ Hi Hp.
  set (r0 := {| ro_agent := ag; ro_started := true; ro_pending := []; ro_held := []; ro_seen := w_now w |}).
  exists r0. split.
  - pose proof (current_perform _ _ _ _ _ _ Hp) as He. unfold Alarms.perform in Hp. destruct (negb _); [done|].
    destruct (w_started w) eqn:Es; [done|]. injection Hp as <- <-. destruct Hi as (Hg & Hc & Hr & Hn & Hep). rewrite Es in Hn.
    assert (forall o, o ∈ r :: others -> live w o = false) as Hnone.
    { intros o Ho. destruct (live w o) eqn:El; [|done]. destruct (List.filter (live w) (r :: others)) as [|y l] eqn:Hf; [|by inversion Hn].
      assert (o ∈ List.filter (live w) (r :: others)) as Hx by (apply list_elem_of_In, filter_In; by rewrite <- list_elem_of_In).
      rewrite Hf in Hx. by apply elem_of_nil in Hx. }
    split_and!.
    + by destruct Hg.
    + intros row b Hin Hb. destruct (Hc row b Hin Hb) as [Hx Hy]. split; [done|]. destruct Hy as [|[_ (o & Ho & Hl & _)]]; [by left|].
      by rewrite (Hnone o Ho) in Hl.
    + intros o [->|Ho]%elem_of_cons Hl; [by split; [apply list.Forall_nil_2|]|].
      assert (live w o = true) as Hl' by exact Hl. by rewrite (Hnone o) in Hl'; [|right].
    + cbn [List.filter]. assert (List.filter (live w) others = []) as Hf.
      { apply Nat.le_0_r in Hn. cbn in Hn. destruct (live w r); [done|]. by apply nil_length_inv. }
      erewrite (List.filter_ext _ (live w)) by done. rewrite Hf. destruct (live _ r0); cbn; lia.
    + intros o [->|Ho]%elem_of_cons Hso; [cbn; by rewrite He|]. by apply Hep; [right|].
  - assert (ready ag r0) as Hr0 by done. apply keeps_untouched_bind; [apply calm_load|]. intros y.
    apply keeps_bind. eapply keeps_mono; [|by apply keeps_load_breaches]. intros y1 r1 Hr1.
    apply keeps_untouched_bind; [apply calm_backseed|]. intros y2. do 3 (apply keeps_untouched_bind; [apply calm_inserts|]; intros ?).
    eapply (keeps_mono perform allowed Inv ag r1 _ (fun _ r' => ready ag r')); [done|]. revert r1 Hr1. induction n as [|n IH]; intros r1 Hr1; cbn [cycles]; [done|].
    apply keeps_bind. eapply keeps_mono; [|by apply keeps_run_cycle]. intros y6 r2 Hr2. by apply IH.
Qed.

(** Requests of other tasks. *)
Definition request_action (a : Action) : bool := match a with InsertAlarm _ => true | _ => calm_action a end.

Lemma keeps_request {A} ag r (p : program A) Q :
  ag_evaluator ag = false -> only request_action p -> (forall x, Q x r) -> keeps ag r p Q.
Proof.
  intros Hag Hp HQ. induction Hp as [x|a k Ha _ IH]; cbn; [apply HQ|]. intros i c w others x w' _ Hi Hperf. exists r.
  split; [|apply IH]. eapply Inv_calm; [|exact Hi]. destruct a; try (by eapply perform_calm; [|exact Hperf]). by eapply insert_calm.
Qed.

Lemma only_more {A} (p : program A) : only calm_action p -> only request_action p.
Proof. induction 1 as [x|a k Ha _ IH]; constructor; [by destruct a|done]. Qed.

Lemma request_body ag c :
  match c with Evaluator _ => True | _ => only request_action (body ag c) end.
Proof.
  assert (forall {A} (p : program A), only request_action p -> only request_action (discard p)) as Hd
    by (intros A p Hp; unfold discard; apply only_bind; [done|constructor]).
  assert (forall alarms, only request_action (announce_resolved alarms)) as Hann.
  { induction alarms as [|a alarms IH]; cbn [announce_resolved]; [constructor|]. apply only_bind; [one_call|]. intros _.
    apply only_bind; [apply only_more, calm_resolved_notification|done]. }
  assert (forall rows, only request_action (resolve_batch rows)) as Hbatch.
  { intros rows. unfold resolve_batch, try_db. destruct rows as [|a rows]; [constructor|]. apply only_bind; [one_call|]. intros now.
    do 3 (apply only_bind; [one_call|]; intros [?|]; [|constructor]). apply only_bind; [apply Hann|constructor]. }
  destruct c; [done|apply Hd..].
  - assert (forall notify, only request_action (fire_alarm_internal sv request notify)) as Hf; [|destruct silent; apply Hf].
    intros notify. unfold fire_alarm_internal, prog_try, try_db. apply only_bind; [apply only_more, calm_cooldown|].
    intros [[]|]; [constructor| |constructor]. do 3 (apply only_bind; [one_call|]; intros ?). case_match; [|constructor].
    apply only_bind; [destruct notify; [apply only_more, calm_notification|constructor]|]. only_steps.
  - apply only_more, calm_resolve.
  - unfold resolve_alarms_by_type, try_db. apply only_bind; [one_call|]. intros [rows|]; [done|constructor].
  - unfold resolve_alarms_by_scope, try_db. apply only_bind; [one_call|]. intros [rows|]; [done|constructor].
  - unfold acknowledge_alarm, prog_try, try_db. apply only_bind; [apply only_more, calm_find|]. only_steps.
  - unfold silence_alarm, prog_try, try_db. apply only_bind; [apply only_more, calm_find|]. only_steps.
  - assert (forall alarms, only request_action (send_resolved_jobs alarms)) as Hjobs.
    { induction alarms as [|a alarms IH]; cbn; [constructor|]. by constructor. }
    unfold bulk_update_alarms, prog_try, try_db. apply only_bind; [only_steps|]. intros [[[ids n] m]|]; [|constructor].
    destruct ids; [constructor|]. do 2 (apply only_bind; [one_call|]; intros ?). case_match; [|constructor]. only_steps; apply Hjobs.
  - apply only_more, calm_seed.
  - apply only_more, calm_inserts.
Qed.

Lemma spawn_ok ag c w rs :
  allowed (Spawn ag c) -> Inv w rs -> exists r, Inv w (r :: rs) /\ keeps ag r (body ag c) (fun _ _ => True).
Proof.
  intros Ha (Hg & Hc & Hr & Hn & He). exists {| ro_agent := ag; ro_started := false; ro_pending := []; ro_held := []; ro_seen := 0 |}.
  assert (live w {| ro_agent := ag; ro_started := false; ro_pending := []; ro_held := []; ro_seen := 0 |} = false) as Hl
    by (unfold live; apply andb_false_r). split.
  - split_and!; [done| | | |].
    + intros row b Hin Hb. destruct (Hc row b Hin Hb) as [Hx Hy]. split; [done|]. destruct Hy as [|[Hu (o & Ho & Hy)]]; [by left|].
      right. split; [done|]. exists o. split; [by right|done].
    + intros o [->|Ho]%elem_of_cons Hlo; [congruence|by apply Hr].
    + cbn [List.filter]. by rewrite Hl.
    + intros o [->|Ho]%elem_of_cons Hso; [done|by apply He].
  - pose proof (request_body ag c) as Hreq. destruct c; try (by apply keeps_request). cbn in Ha |- *. rewrite Ha.
    by apply keeps_evaluator.
Qed.

Lemma columns_kept w w' roles :
  w_log w' = w_log w -> w_breach_start w' = w_breach_start w -> w_now w <= w_now w' -> w_epoch w' = w_epoch w ->
  w_started w' = w_started w ->
  (forall r b, r ∈ w_rules w' -> ru_breach_started_at r = Some b ->
     exists r0, r0 ∈ w_rules w /\ ru_id r0 = ru_id r /\ ru_breach_started_at r0 = Some b) -> Inv w roles -> Inv w' roles.
Proof. intros. by apply (Inv_calm w). Qed.

Lemma reorder_sub {A} (key : A -> Z) ids rows x : x ∈ reorder key ids rows -> x ∈ rows.
Proof.
  unfold reorder. case_bool_decide; [|done]. intros (i & _ & Hf)%list_elem_of_omap. by apply find_some in Hf as [?%list_elem_of_In _].
Qed.

Lemma disturb_ok e w rs : allowed (Happen e) -> Inv w rs -> Inv (happen e w) rs.
Proof.
  intros _ Hi. destruct e as [now| |r|r|id|id|rule_ids alarm_ids].
  2: { destruct Hi as ([Hcl Hca Hf] & Hc & Hr & Hn & He). cbn [happen].
    assert (forall o, o ∈ rs -> live (happen Restart w) o = false) as Hnone.
    { intros o Ho. unfold live. cbn. destruct (ro_started o) eqn:Hs; [|apply andb_false_r]. specialize (He o Ho Hs).
      destruct (Nat.eqb_spec (ag_epoch (ro_agent o)) (S (w_epoch w))); [lia|done]. }
    split_and!.
    - split; cbn; [| |].
      + intros id s [(i & [=] & _)%list_elem_of_fmap|Hin]%elem_of_app. by apply (Hcl id).
      + intros id b Hb. by rewrite lookup_empty in Hb.
      + apply all_sound_app; [|done]. by intros aid rid secs at_ns (i & [=] & _)%list_elem_of_fmap.
    - intros row b Hin Hb. destruct (Hc row b Hin Hb) as [Hx Hy]. cbn. split; [apply elem_of_app; by right|]. left.
      destruct Hy as [Hh|[Hu _]]; [apply held_app; [by intros (i & [=] & _)%list_elem_of_fmap|done]|].
      apply held_stale; [|done]. apply list_elem_of_fmap. exists (ru_id row). split; [done|]. apply list_elem_of_fmap. exists row.
      split; [done|]. apply list_elem_of_In, filter_In. split; [by apply list_elem_of_In|]. unfold breaching. rewrite Hb, Hu. done.
    - intros o Ho Hl. by rewrite Hnone in Hl.
    - change (length (List.filter (live (happen Restart w)) rs) <= 0)%nat.
      destruct (List.filter (live (happen Restart w)) rs) as [|o l] eqn:E; [done|]. exfalso.
      assert (o ∈ List.filter (live (happen Restart w)) rs) as Ho by (rewrite E; left).
      apply list_elem_of_In, filter_In in Ho as [Ho%list_elem_of_In Hl]. by rewrite Hnone in Hl.
    - cbn. intros o Ho Hs. specialize (He o Ho Hs). lia. }
  all: apply (columns_kept w); try done; try (cbn; lia); cbn [happen]; intros row b Hin Hb; try by exists row.
  - cbn in Hin. apply elem_of_app in Hin as [Hin| ->%list_elem_of_singleton]; [by exists row|done].
  - cbn in Hin. apply list_elem_of_fmap in Hin as (row0 & -> & Hin). exists row0. destruct (Z.eqb_spec (ru_id row0) (ru_id r)); by split_and!.
  - cbn in Hin. apply list_elem_of_In, filter_In in Hin as [Hin%list_elem_of_In _]. by exists row.
  - cbn in Hin. apply reorder_sub in Hin. by exists row.
Qed.

(** C11: Whatever the requests, edits, failures and restarts, an alarm the evaluator fires for a rule
    rests on a window that began with an observed breach and lasted, to within a microsecond, at least
    the rule's [for_duration_secs] until [fired_at]; the evaluator did not give the window up in between,
    unless the statement that clears the column failed or the process ended before it. *)
Theorem fired_after_sustained_breach w evs newer older aid rid secs at_ns :
  Forall allowed evs -> w_log w = [] -> w_breach_start w = ∅ -> w_started w = false ->
  (forall r, r ∈ w_rules w -> ru_breach_started_at r = None) ->
  w_log (sy_world (exec perform happen body {| sy_world := w; sy_tasks := [] |} evs)) = newer ++ Fired aid rid secs at_ns :: older ->
  exists mid s rest, older = mid ++ Claimed rid s :: rest /\ ((Cleared rid ∉ mid) \/ Stale rid ∈ mid) /\
    Z.max secs 0 * 10 ^ 9 - 1000 < at_ns - s.
Proof.
  intros Ha Hlog Hcache Hst Hcol Hfinal.
  assert (pool_ok perform allowed Inv (fun (_ : unit) (_ : Role) => True) {| sy_world := w; sy_tasks := [] |}) as Hstart.
  { exists []. split; [|constructor]. split_and!.
    - split; cbn; rewrite ?Hlog; [by intros id s ?%elem_of_nil| |].
      + intros id b. by rewrite Hcache, lookup_empty.
      + by intros [].
    - intros r b Hin. by rewrite (Hcol r Hin).
    - by intros o ?%elem_of_nil.
    - cbn. lia.
    - by intros o ?%elem_of_nil. }
  destruct (pool_safe perform happen body allowed Inv alert_inv_perm (fun _ _ => True) spawn_ok disturb_ok ltac:(by intros i []) _ evs Ha Hstart)
    as (roles & Hi & _). destruct Hi as ([_ _ Hf] & _). destruct (Hf newer older aid rid secs at_ns Hfinal) as (s & (mid & rest & -> & Hm) & Ht).
  by exists mid, s, rest.
Qed.
End Runs.

(** ** A run in which an alarm fires after a restart *)

#[global] Instance us_timestamps : Timestamps := {| db_time t := t / 1000 * 1000 |}.
#[global] Instance us_timestamps_laws : TimestampsLaws us_timestamps.
Proof. split. cbn. intros t. pose proof (Z.div_mod t 1000 ltac:(lia)). pose proof (Z.mod_pos_bound t 1000 ltac:(lia)). lia. Qed.
#[global] Instance no_json_text : JsonText := {| json_to_string _ := EmptyString |}.

Definition plain_keys (m : gmap Z Z) : list Z := map fst (map_to_list m).
Definition plain_groups (m : gmap (string * Z) (list Rule)) : list ((string * Z) * list Rule) := map_to_list m.

Definition cpu_rule : Rule :=
  {| ru_id := 1; ru_service_id := None; ru_deployment_id := None; ru_node_id := Some 7; ru_name := "cpu"; ru_metric_name := "node.cpu";
     ru_threshold := f64_int 90; ru_comparator := ">"; ru_severity := "Critical"; ru_for_duration_secs := 60; ru_enabled := true;
     ru_silenced_until := None; ru_breach_started_at := None |}.

Definition one_rule_world : World :=
  {| w_rules := [cpu_rule]; w_next_rule := 2; w_alarms := []; w_next_alarm := 1; w_deployments := ∅; w_project_services := [];
     w_services := []; w_projects := ∅; w_environments := ∅; w_jobs := []; w_sent := []; w_now := 0; w_epoch := 0; w_started := false;
     w_breach_start := ∅; w_firing_alarms := ∅; w_log := [] |}.

Definition busy_cpu : Choice := {| ch_fault := Fine; ch_latest := {[ "node.cpu"%string := f64_int 97 ]} |}.

Definition restart_events : list (@Event Choice Agent Env Call) :=
  [Spawn {| ag_epoch := 0; ag_evaluator := true |} (Evaluator 1)] ++ replicate 60 (Turn 0 busy_cpu) ++
  [Happen (Passes (30 * 10 ^ 9)); Happen Restart; Happen (Passes (61 * 10 ^ 9));
   Spawn {| ag_epoch := 1; ag_evaluator := true |} (Evaluator 1)] ++ replicate 80 (Turn 1 busy_cpu).

#[local] Abbreviation restarted :=
  (w_log (sy_world (exec (perform plain_keys) happen (body plain_groups alarm_service_new) {| sy_world := one_rule_world; sy_tasks := [] |} restart_events))).

Definition healthy_seeds : list Note := [Cleared 6; Cleared 5; Cleared 4; Cleared 3; Cleared 2].

Lemma restarted_log :
  restarted = [] ++ Fired 1 1 60 61000000000 :: healthy_seeds ++ Claimed 1 0 :: healthy_seeds.
Proof. vm_cast_no_check (eq_refl restarted). Qed.

Lemma restart_events_allowed : Forall allowed restart_events.
Proof.
  unfold restart_events. apply Forall_app. split; [by apply Forall_singleton|]. apply Forall_app. split; [by apply Forall_replicate|].
  apply Forall_app. split; [|by apply Forall_replicate]. by repeat apply Forall_cons_2.
Qed.

Lemma fired_after_sustained_breach_witness :
  exists mid s rest, healthy_seeds ++ Claimed 1 0 :: healthy_seeds = mid ++ Claimed 1 s :: rest /\
    ((Cleared 1 ∉ mid) \/ Stale 1 ∈ mid) /\ Z.max 60 0 * 10 ^ 9 - 1000 < 61000000000 - s.
Proof.
  refine (fired_after_sustained_breach plain_keys plain_groups alarm_service_new one_rule_world restart_events [] _ 1 1 60 61000000000
    restart_events_allowed eq_refl eq_refl eq_refl _ restarted_log).
  by intros r ->%list_elem_of_singleton.
Defined.
