(* ===== verification/AlarmSpec.v ===== *)
(** * The alarm service alone

    What the operations of [Alarms] do when nothing else touches the alarms and no call fails, while time
    passes: firing within and outside the cooldown, and bulk updates, which change exactly the alarms
    they report.  Last, two requests at once: an acknowledgement that comes late undoes a resolution. *)

From S2P Require Import Prelude Prog Alarms AlertRules AlertRuns.
From Stdlib Require Import SpecFloat.
From stdpp Require Import sorting.
Local Open Scope Z_scope.

(** ** Running alone *)

Definition tick (t : Z) (w : World) : World := happen (Passes t) w.
Definition fine (c : Choice) : Prop := ch_fault c = Fine.

(** The same state, later. *)
Definition later (w w' : World) : Prop := exists t, w' = tick t w.

Lemma later_refl w : later w w.
Proof. exists (w_now w). unfold tick. cbn. rewrite Z.max_id. by destruct w. Qed.

Lemma later_trans w1 w2 w3 : later w1 w2 -> later w2 w3 -> later w1 w3.
Proof. intros [t ->] [u ->]. exists (Z.max t u). unfold tick. cbn. by rewrite Z.max_assoc. Qed.

Lemma later_now w w' : later w w' -> w_now w <= w_now w'.
Proof. intros [t ->]. cbn. lia. Qed.

(** A fact about all but the clock. *)
Ltac same_fields := intros [t ->]; reflexivity.

Lemma later_alarms w w' : later w w' -> w_alarms w' = w_alarms w. Proof. same_fields. Qed.
Lemma later_next w w' : later w w' -> w_next_alarm w' = w_next_alarm w. Proof. same_fields. Qed.
Lemma later_jobs w w' : later w w' -> w_jobs w' = w_jobs w. Proof. same_fields. Qed.
Lemma later_sent w w' : later w w' -> w_sent w' = w_sent w. Proof. same_fields. Qed.

Definition read_action (a : Action) : bool :=
  match a with
  | Now | FindAlarms _ | CountAlarms _ | Begin | Execute | FindProject _ | FindService _ | FindEnvironment _ | FindDeployment _
  | FindProjectService _ | MetricServices | FindRules _ | CachedBreach _ | IsFiring _ | QueryLatest _ _ _ => true
  | _ => false
  end.

Section Alone.
Context `{Timestamps} `{JsonText} (key_order : gmap Z Z -> list Z) (sv : AlarmService).

#[local] Abbreviation perform := (perform key_order).
#[local] Abbreviation program := (prog reply).

(** Every access is answered, and the end is as [Q] says. *)
Fixpoint runs {A} (ag : Agent) (p : program A) (Q : A -> World -> Prop) (w : World) : Prop :=
  match p with
  | Ret x => Q x w
  | Do a k => forall t c, fine c -> exists x w', perform ag c (tick t w) a = Some (x, w') /\ runs ag (k x) Q w'
  end.

Lemma runs_bind {A B} ag (p : program A) (f : A -> program B) Q w :
  runs ag p (fun x w => runs ag (f x) Q w) w -> runs ag (prog_bind p f) Q w.
Proof.
  revert w. induction p as [x|a k IH]; intros w; cbn; [done|]. intros Hk t c Hc. destruct (Hk t c Hc) as (x & w' & Hp & Hr). eauto.
Qed.

Lemma runs_mono {A} ag (p : program A) (Q Q' : A -> World -> Prop) w :
  (forall x w, Q x w -> Q' x w) -> runs ag p Q w -> runs ag p Q' w.
Proof.
  intros HQ. revert w. induction p as [x|a k IH]; intros w; cbn; [apply HQ|]. intros Hk t c Hc.
  destruct (Hk t c Hc) as (x & w' & Hp & Hr). eauto.
Qed.

(** One access, at a later time. *)
Lemma runs_step {A} ag a (k : reply a -> program A) Q w :
  (forall w1 c, later w w1 -> fine c -> exists x w', perform ag c w1 a = Some (x, w') /\ runs ag (k x) Q w') -> runs ag (Do a k) Q w.
Proof. intros Hs t c Hc. apply Hs; [by exists t|done]. Qed.

Lemma perform_read ag c w a :
  ag_epoch ag = w_epoch w -> read_action a = true -> fine c -> exists x, perform ag c w a = Some (x, w).
Proof.
  unfold fine, Alarms.perform. intros -> Ha Hc. rewrite Nat.eqb_refl. cbn [negb]. destruct a; try done; unfold served; rewrite ?Hc; by eexists.
Qed.

Lemma later_epoch ag w w' : later w w' -> ag_epoch ag = w_epoch w -> ag_epoch ag = w_epoch w'.
Proof. intros [t ->]. done. Qed.

Lemma runs_reads {A B} ag (p : program A) (f : A -> program B) Q w :
  ag_epoch ag = w_epoch w -> only read_action p -> (forall x w', later w w' -> runs ag (f x) Q w') -> runs ag (prog_bind p f) Q w.
Proof.
  intros Hag Hp. revert w Hag. induction Hp as [x|a k Ha _ IH]; intros w Hag Hf; cbn [prog_bind]; [apply Hf, later_refl|].
  apply runs_step. intros w1 c Hl Hc. pose proof (later_epoch ag w w1 Hl Hag) as Hag1. destruct (perform_read ag c w1 a Hag1 Ha Hc) as [x Hx].
  exists x, w1. split; [done|]. apply IH; [done|]. intros y w2 Hl2. apply Hf. by eapply later_trans.
Qed.

Lemma runs_now {A} ag (k : Z -> program A) Q w :
  ag_epoch ag = w_epoch w -> (forall w1, later w w1 -> runs ag (k (w_now w1)) Q w1) -> runs ag (Do Now k) Q w.
Proof.
  intros Hag Hk. apply runs_step. intros w1 c Hl _. exists (w_now w1), w1. split; [|by apply Hk].
  unfold Alarms.perform. by rewrite (later_epoch ag w w1 Hl Hag), Nat.eqb_refl.
Qed.

Lemma reads_metadata p s e : only read_action (build_notification_metadata p s e).
Proof. unfold build_notification_metadata. destruct p, s, e; only_steps. Qed.

(** ** Firing *)

(** The rules and what the evaluator keeps in memory. *)
Record untouched (w w' : World) : Prop := {
  ut_rules : w_rules w' = w_rules w; ut_cache : w_breach_start w' = w_breach_start w;
  ut_firing : w_firing_alarms w' = w_firing_alarms w; ut_epoch : w_epoch w' = w_epoch w
}.

(** What firing an alarm leaves: one row, one job and one notification. *)
Record fired (request : FireAlarmRequest) (w : World) (now saved : Z) (notify : bool) (w' : World) : Prop := {
  fd_alarms : w_alarms w' = w_alarms w ++ [with_alarm_id (w_next_alarm w) (request_row request now saved)];
  fd_next : w_next_alarm w' = w_next_alarm w + 1;
  fd_jobs : w_jobs w' = w_jobs w ++ [AlarmFiredJob (w_next_alarm w) (fr_project_id request) (fr_environment_id request)
              (fr_deployment_id request) (alarm_type_str (fr_alarm_type request)) (severity_str (fr_severity request)) (fr_title request)];
  fd_sent : if notify then exists n, w_sent w' = w_sent w ++ [n] /\ nd_title n = fr_title request /\
              nd_severity n = Some (severity_str (fr_severity request))
            else w_sent w' = w_sent w;
  fd_rest : untouched w w'
}.

Definition fire_spec (request : FireAlarmRequest) (notify : bool) (w : World) (r : result AlarmError (option Z)) (w' : World) : Prop :=
  exists t1 t2 t3 t4, w_now w <= t1 <= t2 /\ t2 <= t3 <= t4 /\ t2 <= w_now w' /\
    if existsb (suppresses request (t1 - as_cooldown sv) t2) (w_alarms w)
    then r = Ok None /\ later w w'
    else r = Ok (Some (w_next_alarm w)) /\ fired request w t3 t4 notify w'.
End Alone.

(** An access of a task of the running process, with its answer. *)
Ltac answered Hag Hc := unfold Alarms.perform, served; rewrite Hag, Nat.eqb_refl; cbn [negb]; rewrite ?Hc; eexists _, _; split; [reflexivity|cbn [prog_bind]].

Section Firing.
Context `{Timestamps} `{JsonText} (key_order : gmap Z Z -> list Z) (sv : AlarmService).
#[local] Abbreviation runs := (runs key_order).

Lemma suppressed_count request cutoff now w w' :
  later w w' -> (0 <? alarm_count (suppresses request cutoff now) w') = existsb (suppresses request cutoff now) (w_alarms w).
Proof.
  intros Hl. unfold alarm_count. rewrite (later_alarms w w' Hl). induction (w_alarms w) as [|a l IH]; [done|]. cbn [List.filter existsb].
  destruct (suppresses _ _ _ a); [|done]. cbn. apply Z.ltb_lt. lia.
Qed.

(** The end of [fire_alarm_internal], once the row is there. *)
Lemma runs_fired ag request notify w w0 now saved (Q : result AlarmError (option Z) -> World -> Prop) :
  ag_epoch ag = w_epoch w0 -> w_alarms w0 = w_alarms w ++ [with_alarm_id (w_next_alarm w) (request_row request now saved)] ->
  w_next_alarm w0 = w_next_alarm w + 1 -> w_jobs w0 = w_jobs w -> w_sent w0 = w_sent w -> untouched w w0 ->
  (forall w', w_now w0 <= w_now w' -> fired request w now saved notify w' -> Q (Ok (Some (w_next_alarm w))) w') ->
  runs ag
    (prog_bind (if notify then send_alarm_notification request else Ret ())
       (fun _ => Do (SendJob (AlarmFiredJob (w_next_alarm w) (fr_project_id request) (fr_environment_id request)
          (fr_deployment_id request) (alarm_type_str (fr_alarm_type request)) (severity_str (fr_severity request)) (fr_title request)))
          (fun _ => Ret (Ok (Some (w_next_alarm w)))))) Q w0.
Proof.
  intros Hag Ha Hn Hj Hs Hu HQ.
  assert (forall w8, ag_epoch ag = w_epoch w8 -> w_alarms w8 = w_alarms w0 -> w_next_alarm w8 = w_next_alarm w0 -> w_jobs w8 = w_jobs w0 ->
    w_now w0 <= w_now w8 -> untouched w w8 ->
    (if notify then exists n, w_sent w8 = w_sent w0 ++ [n] /\ nd_title n = fr_title request /\
              nd_severity n = Some (severity_str (fr_severity request)) else w_sent w8 = w_sent w0) ->
    runs ag (Do (SendJob (AlarmFiredJob (w_next_alarm w) (fr_project_id request) (fr_environment_id request) (fr_deployment_id request)
      (alarm_type_str (fr_alarm_type request)) (severity_str (fr_severity request)) (fr_title request)))
      (fun _ => Ret (Ok (Some (w_next_alarm w))))) Q w8) as Hjob.
  { intros w8 Hag8 Ha8 Hn8 Hj8 Ht8 Hu8 Hs8. apply runs_step. intros w9 c L9 Hc. answered (later_epoch _ _ _ L9 Hag8) Hc.
    cbn. pose proof (later_now _ _ L9). apply HQ; [cbn; lia|]. split; cbn.
    - by rewrite (later_alarms _ _ L9), Ha8.
    - by rewrite (later_next _ _ L9), Hn8.
    - by rewrite (later_jobs _ _ L9), Hj8, Hj.
    - rewrite (later_sent _ _ L9). by rewrite Hs in Hs8.
    - destruct Hu8, L9 as [t ->]. by split. }
  destruct notify; [|by apply Hjob]. unfold send_alarm_notification. apply runs_bind, runs_reads; [done|apply reads_metadata|].
  intros metadata w8 L8. unfold call. cbn [prog_bind]. apply runs_now; [by apply (later_epoch ag w0)|]. intros w9 L9. apply runs_step. intros w10 c L10 Hc.
  assert (later w0 w10) as L by (do 2 (eapply later_trans; [|eassumption]); done). pose proof (later_epoch _ _ _ L Hag) as Hag10.
  answered Hag10 Hc. cbn [AlarmSpec.runs]. apply Hjob; cbn.
  - done.
  - exact (later_alarms _ _ L).
  - exact (later_next _ _ L).
  - exact (later_jobs _ _ L).
  - exact (later_now _ _ L).
  - destruct Hu, L as [t ->]. by split.
  - eexists. split; [by rewrite (later_sent _ _ L)|done].
Qed.

Lemma runs_fire ag request notify w :
  ag_epoch ag = w_epoch w -> runs ag (fire_alarm_internal sv request notify) (fire_spec sv request notify w) w.
Proof.
  intros Hag. unfold fire_alarm_internal, is_in_cooldown, prog_try, try_db, call. cbn [prog_bind].
  apply runs_now; [done|]. intros w1 L1. apply runs_now; [by apply (later_epoch ag w)|]. intros w2 L2. apply runs_step. intros w3 c L3 Hc.
  assert (later w w3) as L by (do 2 (eapply later_trans; [|eassumption]); done). pose proof (later_epoch _ _ _ L Hag) as Hag3.
  pose proof (later_now _ _ L1). pose proof (later_now _ _ L2). pose proof (later_now _ _ L3).
  answered Hag3 Hc. rewrite (suppressed_count _ _ _ w w3 L). destruct (existsb _ _) eqn:E.
  { cbn. exists (w_now w1), (w_now w2), (w_now w2), (w_now w2). rewrite E. split_and!; try lia; done. }
  apply runs_now; [done|]. intros w4 L4. apply runs_now; [by apply (later_epoch ag w3)|]. intros w5 L5. apply runs_step. intros w6 c' L6 Hc'.
  pose proof (later_now _ _ L4). pose proof (later_now _ _ L5). pose proof (later_now _ _ L6).
  assert (later w w6) as L' by (do 3 (eapply later_trans; [|eassumption]); done). pose proof (later_epoch _ _ _ L' Hag) as Hag6.
  answered Hag6 Hc'. rewrite (later_next _ _ L'). apply (runs_fired ag request notify w _ (w_now w4) (w_now w5)); cbn.
  - done.
  - by rewrite (later_alarms _ _ L').
  - done.
  - exact (later_jobs _ _ L').
  - exact (later_sent _ _ L').
  - destruct L' as [t ->]. done.
  - intros w' Ht Hf. exists (w_now w1), (w_now w2), (w_now w4), (w_now w5). rewrite E. split_and!; try lia; done.
Qed.

(** A request to fire an alarm is refused exactly when an alarm of the same type and scope was fired
    within the cooldown or is silenced; otherwise one firing row, one job and, unless it is silent, one
    notification come of it. *)
Theorem fire_alarm_exact ag request notify w :
  ag_epoch ag = w_epoch w -> runs ag (fire_alarm_internal sv request notify) (fire_spec sv request notify w) w.
Proof. apply runs_fire. Qed.
End Firing.

(** ** Bulk updates *)

Section Bulk.
Context `{Timestamps} `{JsonText} (key_order : gmap Z Z -> list Z).
#[local] Abbreviation runs := (runs key_order).

Definition bulk_jobs (action : BulkAlarmAction) (updated : list Alarm) : list Job :=
  match action with BulkResolve => map resolved_job updated | BulkAcknowledge => [] end.

Lemma runs_jobs ag alarms w Q :
  ag_epoch ag = w_epoch w ->
  (forall w', w_alarms w' = w_alarms w -> w_jobs w' = w_jobs w ++ map resolved_job alarms -> Q () w') -> runs ag (send_resolved_jobs alarms) Q w.
Proof.
  revert w. induction alarms as [|a alarms IH]; intros w Hag HQ; cbn [send_resolved_jobs].
  - cbn. apply HQ; [done|]. by rewrite app_nil_r.
  - unfold call. cbn [prog_bind]. apply runs_step. intros w1 c L Hc. answered (later_epoch _ _ _ L Hag) Hc. apply IH; [exact (later_epoch ag w w1 L Hag)|].
    cbn. intros w' Ha Hj. apply HQ; [by rewrite Ha, (later_alarms _ _ L)|]. by rewrite Hj, (later_jobs _ _ L), <- app_assoc.
Qed.

(** What the guarded update and the rest of the request leave. *)
Definition bulk_done (project_id : option Z) (selector : BulkAlarmSelector) (action : BulkAlarmAction) (user_id : Z) (ids : list Z)
    (requested : Z) (w : World) (r : result AlarmError BulkAlarmOutcome) (w' : World) : Prop :=
  exists now,
    let hits := bulk_hits project_id ids action in
    let updated := merge_sort id_le (map (bulk_row action user_id now) (List.filter hits (w_alarms w))) in
    w_alarms w' = apply_where hits (bulk_row action user_id now) (w_alarms w) /\
    w_jobs w' = w_jobs w ++ bulk_jobs action updated /\
    r = Ok {| bo_updated_ids := map al_id updated; bo_skipped := Z.max 0 (requested - Z.of_nat (length updated));
              bo_remaining := match selector with
                              | Ids _ => 0
                              | Matching filters => alarm_count (matches_bulk project_id filters action) w'
                              end |}.

Lemma runs_bulk_tail ag project_id selector action user_id ids requested before w w0 :
  ag_epoch ag = w_epoch w -> later w w0 ->
  runs ag
    (let* now := call Now in
     try_db (call (UpdateAlarms (bulk_hits project_id ids action) (bulk_row action user_id now))) (fun updated =>
      let updated := merge_sort id_le updated in
      let n := Z.of_nat (length updated) in
      let* remaining :=
        match selector with
        | Ids _ => Ret 0
        | Matching filters =>
            let* count := call (CountAlarms (matches_bulk project_id filters action)) in
            Ret (match count with Some remaining => remaining | None => Z.max 0 (before - n) end)
        end in
      let* _ := match action with BulkResolve => send_resolved_jobs updated | BulkAcknowledge => Ret () end in
      Ret (Ok {| bo_updated_ids := map al_id updated; bo_skipped := Z.max 0 (requested - n); bo_remaining := remaining |})))
    (bulk_done project_id selector action user_id ids requested w) w0.
Proof.
  intros Hag L0. unfold call. cbn [prog_bind]. apply runs_now; [by apply (later_epoch ag w)|]. intros w1 L1. unfold try_db. cbn [prog_bind].
  apply runs_step. intros w2 c L2 Hc. assert (later w w2) as L by (do 2 (eapply later_trans; [|eassumption]); done).
  pose proof (later_epoch _ _ _ L Hag) as Hag2. answered Hag2 Hc. rewrite (later_alarms _ _ L). set (rows := apply_where _ _ _).
  set (updated := merge_sort id_le _).
  assert (forall w3 remaining, ag_epoch ag = w_epoch w3 -> w_alarms w3 = rows -> w_jobs w3 = w_jobs w ->
    remaining = match selector with Ids _ => 0 | Matching filters => Z.of_nat (length (List.filter (matches_bulk project_id filters action) rows)) end ->
    runs ag (prog_bind (match action with BulkResolve => send_resolved_jobs updated | BulkAcknowledge => Ret () end)
      (fun _ => Ret (Ok {| bo_updated_ids := map al_id updated; bo_skipped := Z.max 0 (requested - Z.of_nat (length updated)); bo_remaining := remaining |})))
      (bulk_done project_id selector action user_id ids requested w) w3) as Hend.
  { intros w3 remaining Hag3 Ha3 Hj3 Hrem. apply runs_bind.
    assert (forall w', w_alarms w' = w_alarms w3 -> w_jobs w' = w_jobs w3 ++ bulk_jobs action updated ->
      bulk_done project_id selector action user_id ids requested w (Ok {| bo_updated_ids := map al_id updated;
        bo_skipped := Z.max 0 (requested - Z.of_nat (length updated)); bo_remaining := remaining |}) w') as Hq.
    { intros w' Ha Hj. exists (w_now w1). cbv zeta. fold rows updated. rewrite Ha, Ha3, Hj, Hj3. split_and!; [done|done|].
      subst remaining. unfold alarm_count. by rewrite Ha, Ha3. }
    destruct action; [cbn; apply Hq; [done|by rewrite app_nil_r]|]. apply runs_jobs; [done|]. intros w' Ha Hj. by apply Hq. }
  destruct selector as [ids0|filters]; cbn [prog_bind].
  - apply Hend; [done|done|exact (later_jobs _ _ L)|done].
  - apply runs_step. intros w3 c3 L3 Hc3. pose proof (later_epoch ag _ _ L3 Hag2) as Hag3. answered Hag3 Hc3. apply Hend; [done| | |].
    + exact (later_alarms _ _ L3).
    + rewrite (later_jobs _ _ L3). exact (later_jobs _ _ L).
    + unfold alarm_count. by rewrite (later_alarms _ _ L3).
Qed.

Lemma bulk_row_id action user now a : al_id (bulk_row action user now a) = al_id a.
Proof. by destruct action. Qed.

Lemma bulk_row_settled action user now a : is_eligible action (bulk_row action user now a) = false.
Proof. by destruct action. Qed.

Lemma NoDup_filtered_keys {A} (key : A -> Z) p l : NoDup (map key l) -> NoDup (map key (List.filter p l)).
Proof.
  induction l as [|a l IH]; cbn; [done|]. intros [Hn Hd]%NoDup_cons. destruct (p a); [|by apply IH]. cbn. apply NoDup_cons. split; [|by apply IH].
  intros (b & Hb & Hin)%list_elem_of_fmap. apply Hn. apply list_elem_of_fmap. exists b. split; [done|].
  by apply list_elem_of_In, filter_In in Hin as [?%list_elem_of_In _].
Qed.

Lemma key_inj {A} (key : A -> Z) l a b : NoDup (map key l) -> a ∈ l -> b ∈ l -> key a = key b -> a = b.
Proof.
  induction l as [|x l IH]; cbn; [by intros _ ?%elem_of_nil|]. intros [Hn Hd]%NoDup_cons [->|Ha]%elem_of_cons [->|Hb]%elem_of_cons Hk; [done| | |by apply IH].
  - destruct Hn. rewrite Hk. by apply list_elem_of_fmap_2.
  - destruct Hn. rewrite <- Hk. by apply list_elem_of_fmap_2.
Qed.

Lemma In_filter {A} (p : A -> bool) l a : a ∈ List.filter p l <-> a ∈ l /\ p a = true.
Proof. by rewrite !list_elem_of_In, filter_In. Qed.

(** The ids of the rows an update finds are the ids it was given, when each names an eligible row. *)
Lemma hits_ids project_id ids action l :
  NoDup (map al_id l) -> NoDup ids ->
  (forall id, id ∈ ids -> exists a, a ∈ l /\ al_id a = id /\ project_id_filter project_id a = true /\ is_eligible action a = true) ->
  map al_id (List.filter (bulk_hits project_id ids action) l) ≡ₚ ids.
Proof.
  intros Hl Hi Hall. apply NoDup_Permutation; [by apply NoDup_filtered_keys|done|]. intros id. split.
  - intros (a & -> & Ha)%list_elem_of_fmap. apply In_filter in Ha as [_ Ha]. unfold bulk_hits in Ha. rewrite !andb_true_iff in Ha.
    destruct Ha as [[_ Ha] _]. by apply bool_decide_eq_true in Ha.
  - intros Hid. destruct (Hall id Hid) as (a & Ha & <- & Hp & He). apply list_elem_of_fmap_2. apply In_filter. split; [done|].
    unfold bulk_hits. by rewrite Hp, He, bool_decide_true.
Qed.

Lemma updated_ids action user now l :
  map al_id (merge_sort id_le (map (bulk_row action user now) l)) ≡ₚ map al_id l.
Proof.
  rewrite merge_sort_Permutation, map_map. erewrite map_ext; [reflexivity|]. intros a. apply bulk_row_id.
Qed.

(** What is still eligible afterwards. *)
Lemma remaining_count (p hits : Alarm -> bool) (set : Alarm -> Alarm) l :
  (forall a, a ∈ l -> hits a = true -> p a = true) -> (forall a, a ∈ l -> hits a = true -> p (set a) = false) ->
  (length (List.filter p (apply_where hits set l)) + length (List.filter hits l) = length (List.filter p l))%nat.
Proof.
  intros Hp Hs. unfold apply_where. induction l as [|a l IH]; [done|]. cbn [map List.filter].
  assert (length (List.filter p (map (fun a => if hits a then set a else a) l)) + length (List.filter hits l) = length (List.filter p l))%nat as IH'
    by (apply IH; intros b Hb; [apply Hp|apply Hs]; by right).
  destruct (hits a) eqn:E; [rewrite (Hs a), (Hp a) by (done || left); cbn; lia|]. destruct (p a); cbn; lia.
Qed.

(** An update by ids, when ids are unique. *)
Lemma apply_where_ids project_id ids action (set : Alarm -> Alarm) l :
  (forall a, a ∈ l -> al_id a ∈ ids -> project_id_filter project_id a = true /\ is_eligible action a = true) ->
  apply_where (bulk_hits project_id ids action) set l = map (fun a => if decide (al_id a ∈ ids) then set a else a) l.
Proof.
  intros Hall. unfold apply_where. apply list_fmap_ext. intros i a Ha%list_elem_of_lookup_2. unfold bulk_hits. case_decide as Hd.
  - destruct (Hall a Ha Hd) as [-> ->]. by rewrite bool_decide_true.
  - by rewrite (bool_decide_false (al_id a ∈ ids)), andb_false_r.
Qed.

(** A bulk update of everything that matches, as its caller sees it. *)
Definition drains (project_id : option Z) (filters : AlarmFilters) (action : BulkAlarmAction) (user_id : Z) (w : World)
    (r : result AlarmError BulkAlarmOutcome) (w' : World) : Prop :=
  let matching := List.filter (matches_bulk project_id filters action) (w_alarms w) in
  exists now o, r = Ok o /\ NoDup (bo_updated_ids o) /\ bo_skipped o = 0 /\
    Z.of_nat (length (bo_updated_ids o)) = Z.min (Z.of_nat (length matching)) MAX_BULK_ALARM_UPDATE /\
    bo_remaining o = Z.of_nat (length matching) - Z.of_nat (length (bo_updated_ids o)) /\
    (forall id, id ∈ bo_updated_ids o -> id ∈ map al_id matching) /\
    (forall a b, a ∈ matching -> b ∈ matching -> al_id a ∈ bo_updated_ids o -> (al_id b ∉ bo_updated_ids o) -> oldest_first a b) /\
    w_alarms w' = map (fun a => if decide (al_id a ∈ bo_updated_ids o) then bulk_row action user_id now a else a) (w_alarms w) /\
    exists updated, map al_id updated = bo_updated_ids o /\ w_jobs w' = w_jobs w ++ bulk_jobs action updated.

#[global] Instance oldest_first_total : Total oldest_first.
Proof. intros a b. unfold oldest_first. lia. Qed.
#[global] Instance oldest_first_trans : Transitive oldest_first.
Proof. intros a b c. unfold oldest_first. lia. Qed.

Lemma matches_parts project_id filters action a :
  matches_bulk project_id filters action a = true ->
  project_id_filter project_id a = true /\ alarm_filters_condition filters a = true /\ is_eligible action a = true.
Proof. unfold matches_bulk. rewrite !andb_true_iff. tauto. Qed.

(** The oldest come first, and only them when there are too many. *)
Lemma oldest_taken n (l : list Alarm) a b :
  NoDup (map al_id l) -> a ∈ l -> b ∈ l -> al_id a ∈ take n (map al_id (merge_sort oldest_first l)) ->
  (al_id b ∉ take n (map al_id (merge_sort oldest_first l))) -> oldest_first a b.
Proof.
  intros Hd Ha Hb. set (s := merge_sort oldest_first l).
  assert (s ≡ₚ l) as Hs by apply merge_sort_Permutation. assert (NoDup (map al_id s)) as Hds by (by rewrite Hs).
  pose proof (StronglySorted_merge_sort oldest_first l) as Hsort. fold s in Hsort.
  rewrite <- fmap_take. intros (a' & Ea & Ha')%list_elem_of_fmap Hnb.
  assert (a = a') as <- by (apply (key_inj al_id s); [done|by rewrite Hs|by apply (subseteq_take n)|done]).
  assert (b ∈ drop n s) as Hb'.
  { assert (b ∈ s) as Hbs by (by rewrite Hs). rewrite <- (take_drop n s) in Hbs. apply elem_of_app in Hbs as [Hx|]; [|done].
    destruct Hnb. by apply list_elem_of_fmap_2. }
  rewrite <- (take_drop n s) in Hsort. by apply (StronglySorted_app_1_elem_of oldest_first (take n s) (drop n s)).
Qed.

Lemma drains_done project_id filters action user_id ids w r w' :
  NoDup (map al_id (w_alarms w)) ->
  ids = take (Z.to_nat MAX_BULK_ALARM_UPDATE) (map al_id (merge_sort oldest_first (List.filter (matches_bulk project_id filters action) (w_alarms w)))) ->
  bulk_done project_id (Matching filters) action user_id ids 0 w r w' -> drains project_id filters action user_id w r w'.
Proof.
  intros Hd Hids (now & Ha & Hj & ->). set (matching := List.filter (matches_bulk project_id filters action) (w_alarms w)) in *.
  set (updated := merge_sort id_le _) in *.
  assert (NoDup (map al_id matching)) as Hdm by by apply NoDup_filtered_keys.
  assert (NoDup (map al_id (merge_sort oldest_first matching))) as Hdsm by (by rewrite merge_sort_Permutation).
  assert (forall id, id ∈ ids -> exists a, a ∈ matching /\ al_id a = id) as Hin.
  { intros id Hid. subst ids. apply subseteq_take in Hid. rewrite merge_sort_Permutation in Hid.
    apply list_elem_of_fmap in Hid as (a & -> & Ha0). by exists a. }
  assert (forall a, a ∈ w_alarms w -> al_id a ∈ ids -> matches_bulk project_id filters action a = true) as Hmatch.
  { intros a Haw Hid. destruct (Hin _ Hid) as (b & [Hb Hm]%In_filter & Hab). by rewrite <- (key_inj al_id (w_alarms w) b a Hd Hb Haw Hab). }
  assert (NoDup ids) as Hdi by (subst ids; eapply sublist_NoDup; [exact Hdsm|apply sublist_take]).
  assert (map al_id (List.filter (bulk_hits project_id ids action) (w_alarms w)) ≡ₚ ids) as Hhits.
  { apply hits_ids; [done|done|]. intros id Hid. destruct (Hin _ Hid) as (a & [Ha0 Hm]%In_filter & <-). apply matches_parts in Hm as (Hp & _ & He).
    by exists a. }
  assert (map al_id updated ≡ₚ ids) as Hupd by (unfold updated; by rewrite updated_ids).
  unfold drains. cbv zeta. fold matching. exists now, {| bo_updated_ids := map al_id updated; bo_skipped := Z.max 0 (0 - Z.of_nat (length updated));
     bo_remaining := alarm_count (matches_bulk project_id filters action) w' |}. cbn [bo_updated_ids bo_skipped bo_remaining].
  assert (length (List.filter (bulk_hits project_id ids action) (w_alarms w)) = length (map al_id updated)) as Hlen
    by (rewrite (Permutation_length Hupd), <- (Permutation_length Hhits); by rewrite length_map).
  pose proof (Permutation_length (merge_sort_Permutation oldest_first matching)) as Hms.
  split_and!; [done|by rewrite Hupd|lia| | | | | |].
  - rewrite (Permutation_length Hupd), Hids, length_take, length_map, Hms. unfold MAX_BULK_ALARM_UPDATE. lia.
  - unfold alarm_count. rewrite Ha.
    pose proof (remaining_count (matches_bulk project_id filters action) (bulk_hits project_id ids action) (bulk_row action user_id now) (w_alarms w)) as Hrem.
    rewrite Hlen in Hrem. fold matching in Hrem. enough (length (List.filter (matches_bulk project_id filters action)
      (apply_where (bulk_hits project_id ids action) (bulk_row action user_id now) (w_alarms w))) + length (map al_id updated) = length matching)%nat by lia.
    apply Hrem; intros a Haw Hh; unfold bulk_hits in Hh; rewrite !andb_true_iff in Hh; destruct Hh as [[_ Hid%bool_decide_eq_true] _].
    + by apply Hmatch.
    + unfold matches_bulk. by rewrite bulk_row_settled, andb_false_r.
  - intros id Hid. rewrite Hupd in Hid. destruct (Hin id Hid) as (a & Ha0 & <-). by apply list_elem_of_fmap_2.
  - intros a b Ha0 Hb0. rewrite Hupd, Hids. by apply oldest_taken.
  - rewrite Ha, apply_where_ids.
    + apply list_fmap_ext. intros i a _. apply decide_ext. by rewrite Hupd.
    + intros a Haw Hid. by destruct (matches_parts _ _ _ _ (Hmatch a Haw Hid)) as (? & _ & ?).
  - by exists updated.
Qed.

(** A bulk update of everything that matches a filter changes the oldest thousand eligible alarms of
    the scope and no other row, reports exactly those, sends one job for each it resolved, and reports
    how many are left: callers that repeat it until none is left reach the end. *)
Theorem bulk_update_drains ag project_id filters action user_id w :
  ag_epoch ag = w_epoch w -> NoDup (map al_id (w_alarms w)) ->
  runs ag (bulk_update_alarms project_id (Matching filters) action user_id) (drains project_id filters action user_id w) w.
Proof.
  intros Hag Hd. unfold bulk_update_alarms, prog_try. apply runs_bind. unfold try_db at 1 2, call. cbn [prog_bind].
  apply runs_step. intros w1 c1 L1 Hc1. pose proof (later_epoch _ _ _ L1 Hag) as Hag1. answered Hag1 Hc1.
  apply runs_step. intros w2 c2 L2 Hc2. assert (later w w2) as L by by eapply later_trans. pose proof (later_epoch _ _ _ L Hag) as Hag2.
  answered Hag2 Hc2. cbn [AlarmSpec.runs]. rewrite (later_alarms _ _ L). set (ids := take _ _).
  destruct ids as [|id rest] eqn:E.
  - cbn. assert (List.filter (matches_bulk project_id filters action) (w_alarms w) = []) as Hnone.
    { apply (f_equal length) in E. unfold ids in E. rewrite length_take, length_map in E.
      pose proof (Permutation_length (merge_sort_Permutation oldest_first (List.filter (matches_bulk project_id filters action) (w_alarms w)))) as Hms.
      rewrite Hms in E. apply length_zero_iff_nil.
      change (Z.to_nat MAX_BULK_ALARM_UPDATE) with 1000%nat in E. cbn [length] in E. lia. }
    unfold drains. rewrite Hnone. exists 0, {| bo_updated_ids := []; bo_skipped := 0; bo_remaining := 0 |}.
    cbn [bo_updated_ids bo_skipped bo_remaining length]. split_and!; try done; [apply NoDup_nil_2|by intros a b ?%elem_of_nil| |].
    + rewrite (later_alarms _ _ L). symmetry. etrans; [|apply map_id]. apply list_fmap_ext. intros i a _. case_decide as Hx; [by apply elem_of_nil in Hx|done].
    + exists []. split; [done|]. rewrite (later_jobs _ _ L). destruct action; cbn; by rewrite app_nil_r.
  - eapply runs_mono; [|by apply (runs_bulk_tail ag project_id (Matching filters) action user_id (id :: rest) 0 _ w w2)].
    intros r w'. apply drains_done; [done|]. by rewrite <- E.
Qed.

(** *** By ids *)

Lemma dedup_cons a b l : dedup (a :: b :: l) = if a =? b then dedup (b :: l) else a :: dedup (b :: l).
Proof. done. Qed.

Lemma dedup_elem x l : x ∈ dedup l <-> x ∈ l.
Proof.
  induction l as [|a l IH]; [done|]. destruct l as [|b l]; [done|]. rewrite dedup_cons. destruct (Z.eqb_spec a b) as [->|].
  - rewrite IH, !elem_of_cons. tauto.
  - rewrite elem_of_cons, IH, !elem_of_cons. done.
Qed.

Lemma dedup_sorted l : StronglySorted Z.le l -> StronglySorted Z.lt (dedup l).
Proof.
  induction l as [|a l IH]; [intros; constructor|]. intros [Ha Hs]%StronglySorted_cons. destruct l as [|b l]; [by repeat constructor|]. rewrite dedup_cons.
  destruct (Z.eqb_spec a b) as [->|Hab]; [by apply IH|]. apply StronglySorted_cons. split; [|by apply IH].
  apply list.Forall_forall. intros x Hx. rewrite dedup_elem in Hx. rewrite list.Forall_forall in Ha.
  apply StronglySorted_cons in Hs as [Hb _]. rewrite list.Forall_forall in Hb. pose proof (Ha b ltac:(left)) as Hab'.
  apply elem_of_cons in Hx as [->|Hx]; [lia|]. specialize (Hb x Hx). lia.
Qed.

Lemma lt_sorted_NoDup l : StronglySorted Z.lt l -> NoDup l.
Proof.
  induction l as [|a l IH]; [intros; apply NoDup_nil_2|]. intros [Ha Hs]%StronglySorted_cons. apply NoDup_cons. split; [|by apply IH].
  intros Hin. rewrite list.Forall_forall in Ha. specialize (Ha a Hin). lia.
Qed.

Definition distinct (ids : list Z) : list Z := dedup (merge_sort Z.le ids).

Lemma distinct_sorted ids : StronglySorted Z.lt (distinct ids).
Proof. apply dedup_sorted, StronglySorted_merge_sort; typeclasses eauto. Qed.

Lemma distinct_elem id ids : id ∈ distinct ids <-> id ∈ ids.
Proof. unfold distinct. by rewrite dedup_elem, merge_sort_Permutation. Qed.

Lemma distinct_length ids : length (distinct ids) = size (list_to_set ids : gset Z).
Proof.
  rewrite <- (size_list_to_set (C := gset Z)); [|apply lt_sorted_NoDup, distinct_sorted]. f_equal. apply set_eq. intros id.
  by rewrite !elem_of_list_to_set, distinct_elem.
Qed.

(** The alarm belongs to the project, or to none. *)
Definition scoped (project_id : option Z) (w : World) (id : Z) : Prop :=
  exists a, a ∈ w_alarms w /\ al_id a = id /\ al_project_id a = project_id.

(** What a caller who names alarms is told, and what became of them. *)
Definition named (project_id : option Z) (ids : list Z) (action : BulkAlarmAction) (user_id : Z) (w : World)
    (r : result AlarmError BulkAlarmOutcome) (w' : World) : Prop :=
  let n := Z.of_nat (size (list_to_set ids : gset Z)) in
  (ids = [] /\ r = Err (InvalidBulkRequest project_id NoIds) /\ later w w') \/
  (MAX_BULK_ALARM_UPDATE < n /\ r = Err (InvalidBulkRequest project_id (TooManyIds n)) /\ later w w') \/
  (exists id, id ∈ ids /\ ~ scoped project_id w id /\ r = Err (AlarmNotFound id project_id) /\ later w w') \/
  (0 < n <= MAX_BULK_ALARM_UPDATE /\ (forall id, id ∈ ids -> scoped project_id w id) /\
   exists now o, r = Ok o /\ NoDup (bo_updated_ids o) /\
     (forall id, id ∈ bo_updated_ids o <-> id ∈ ids /\ exists a, a ∈ w_alarms w /\ al_id a = id /\ is_eligible action a = true) /\
     bo_skipped o = n - Z.of_nat (length (bo_updated_ids o)) /\ bo_remaining o = 0 /\
     w_alarms w' = map (fun a => if decide (al_id a ∈ bo_updated_ids o) then bulk_row action user_id now a else a) (w_alarms w) /\
     exists updated, map al_id updated = bo_updated_ids o /\ w_jobs w' = w_jobs w ++ bulk_jobs action updated).

Lemma named_done project_id ids action user_id w r w' :
  NoDup (map al_id (w_alarms w)) -> 0 < Z.of_nat (length (distinct ids)) <= MAX_BULK_ALARM_UPDATE ->
  (forall id, id ∈ ids -> scoped project_id w id) ->
  bulk_done project_id (Ids ids) action user_id (distinct ids) (Z.of_nat (length (distinct ids))) w r w' ->
  named project_id ids action user_id w r w'.
Proof.
  intros Hd Hn Hall (now & Ha & Hj & ->). rewrite distinct_length in *. do 3 right. split; [done|]. split; [done|].
  set (hits := List.filter (bulk_hits project_id (distinct ids) action) (w_alarms w)) in *. set (updated := merge_sort id_le _) in *.
  assert (map al_id updated ≡ₚ map al_id hits) as Hu by apply updated_ids.
  assert (forall a, a ∈ w_alarms w -> al_id a ∈ ids -> project_id_filter project_id a = true) as Hscope.
  { intros a Haw Hid. destruct (Hall _ Hid) as (b & Hb & Hab & Hp). rewrite (key_inj al_id (w_alarms w) b a Hd Hb Haw Hab) in Hp.
    unfold project_id_filter, column_is. by rewrite bool_decide_true. }
  assert (forall id, id ∈ map al_id hits <-> id ∈ ids /\ exists a, a ∈ w_alarms w /\ al_id a = id /\ is_eligible action a = true) as Hiff.
  { intros id. rewrite list_elem_of_fmap. unfold hits. split.
    - intros (a & -> & [Haw Hh]%In_filter). unfold bulk_hits in Hh. rewrite !andb_true_iff, bool_decide_eq_true, distinct_elem in Hh.
      split; [tauto|]. exists a. tauto.
    - intros (Hid & a & Haw & <- & He). exists a. split; [done|]. apply In_filter. split; [done|].
      unfold bulk_hits. rewrite He, (Hscope a Haw Hid), bool_decide_true; [done|by apply distinct_elem]. }
  assert (NoDup (map al_id hits)) as Hdh by by apply NoDup_filtered_keys.
  assert (length (map al_id hits) <= length (distinct ids))%nat as Hle.
  { apply Permutation_length in Hu as _. apply submseteq_length, NoDup_submseteq; [done|]. intros id [Hid _]%Hiff. by apply distinct_elem. }
  rewrite distinct_length in Hle.
  assert (length updated = length (map al_id hits)) as Hlen by (rewrite <- (Permutation_length Hu); by rewrite length_map).
  exists now, {| bo_updated_ids := map al_id updated;
    bo_skipped := Z.max 0 (Z.of_nat (size (list_to_set ids : gset Z)) - Z.of_nat (length updated)); bo_remaining := 0 |}.
  cbn [bo_updated_ids bo_skipped bo_remaining]. split_and!; [done|by rewrite Hu| | |done| |by exists updated].
  - intros id. rewrite Hu. apply Hiff.
  - rewrite length_map. lia.
  - rewrite Ha. unfold apply_where. apply list_fmap_ext. intros i a Haw%list_elem_of_lookup_2. case_decide as Hx; rewrite Hu in Hx.
    + apply list_elem_of_fmap in Hx as (b & Hab & [Hb Hh]%In_filter). by rewrite (key_inj al_id (w_alarms w) a b Hd Haw Hb Hab), Hh.
    + destruct (bulk_hits project_id (distinct ids) action a) eqn:E; [|done]. destruct Hx. apply list_elem_of_fmap_2. by apply In_filter.
Qed.

(** C25: A bulk update by ids is refused as a whole when it names none, more than a thousand or one
    outside the caller's project; otherwise it changes exactly the named alarms that are eligible, says
    which and how many it skipped, and touches no other row. *)
Theorem bulk_update_exact ag project_id ids action user_id w :
  ag_epoch ag = w_epoch w -> NoDup (map al_id (w_alarms w)) ->
  runs ag (bulk_update_alarms project_id (Ids ids) action user_id) (named project_id ids action user_id w) w.
Proof.
  intros Hag Hd. unfold bulk_update_alarms, prog_try. apply runs_bind. cbv zeta. fold (distinct ids).
  destruct (Z.eqb_spec (Z.of_nat (length (distinct ids))) 0) as [Hz|Hz].
  { cbn. left. split; [|by split; [|apply later_refl]]. destruct ids as [|x ids]; [done|].
    assert (x ∈ distinct (x :: ids)) as Hx by (apply distinct_elem; left). destruct (distinct (x :: ids)); [by apply elem_of_nil in Hx|done]. }
  destruct (Z.ltb_spec MAX_BULK_ALARM_UPDATE (Z.of_nat (length (distinct ids)))) as [Hm|Hm].
  { cbn. right. left. rewrite distinct_length in *. split_and!; [done|done|apply later_refl]. }
  unfold try_db at 1, call. cbn [prog_bind]. apply runs_step. intros w1 c L Hc. pose proof (later_epoch _ _ _ L Hag) as Hag1. answered Hag1 Hc.
  cbn [AlarmSpec.runs]. rewrite (later_alarms _ _ L).
  assert (forall id, id ∈ ids -> id ∈ map al_id (List.filter (fun a => project_id_filter project_id a && bool_decide (al_id a ∈ distinct ids)) (w_alarms w))
    <-> scoped project_id w id) as Hsc.
  { intros id Hid. rewrite list_elem_of_fmap. split.
    - intros (a & -> & [Ha Hp]%In_filter). exists a. rewrite andb_true_iff in Hp. destruct Hp as [Hp%bool_decide_eq_true _]. by split_and!.
    - intros (a & Ha & <- & Hp). exists a. split; [done|]. apply In_filter. split; [done|]. unfold project_id_filter, column_is.
      rewrite !bool_decide_true; [done|by apply distinct_elem|done]. }
  destruct (List.find _ (distinct ids)) as [missing|] eqn:Hf.
  { apply find_some in Hf as [Hin%list_elem_of_In Hx]. rewrite distinct_elem in Hin. rewrite negb_true_iff, bool_decide_eq_false, (Hsc _ Hin) in Hx.
    cbn. right. right. left. exists missing. by split_and!. }
  assert (forall id, id ∈ ids -> scoped project_id w id) as Hall.
  { intros id Hid. apply (Hsc id Hid). pose proof (find_none _ _ Hf id) as Hn. rewrite negb_false_iff, bool_decide_eq_true in Hn.
    apply Hn, list_elem_of_In. by apply distinct_elem. }
  cbn [AlarmSpec.runs]. destruct (distinct ids) as [|id rest] eqn:E; [done|].
  eapply runs_mono; [|by apply (runs_bulk_tail ag project_id (Ids ids) action user_id (id :: rest) (Z.of_nat (length (id :: rest))) 0 w w1)].
  intros r w' Hdone. rewrite <- E in *. apply named_done; [done|lia|done|done].
Qed.
End Bulk.

(** ** Witnesses *)

Definition sample_alarm (id : Z) (project : option Z) (type status : string) (metadata : option JsonValue) : Alarm :=
  {| al_id := id; al_project_id := project; al_environment_id := None; al_deployment_id := None; al_container_id := None;
     al_service_id := None; al_alarm_type := type; al_severity := "warning"; al_status := status; al_title := "t"; al_message := None;
     al_metadata := metadata; al_fired_at := 0; al_acknowledged_at := None; al_acknowledged_by := None; al_resolved_at := None;
     al_silenced_until := None; al_created_at := 0; al_updated_at := 0 |}.

Definition alarms_world (rules : list Rule) (alarms : list Alarm) : World :=
  {| w_rules := rules; w_next_rule := 100; w_alarms := alarms; w_next_alarm := 100; w_deployments := ∅; w_project_services := [];
     w_services := []; w_projects := ∅; w_environments := ∅; w_jobs := []; w_sent := []; w_now := 0; w_epoch := 0; w_started := false;
     w_breach_start := ∅; w_firing_alarms := ∅; w_log := [] |}.

Definition requester : Agent := {| ag_epoch := 0; ag_evaluator := false |}.

Definition outage_request : FireAlarmRequest :=
  {| fr_project_id := Some 5; fr_environment_id := None; fr_deployment_id := None; fr_container_id := None; fr_service_id := None;
     fr_alarm_type := Outage; fr_severity := SevCritical; fr_title := "down"; fr_message := "no answer"; fr_metadata := None |}.

Lemma fire_alarm_exact_witness :
  runs plain_keys requester (fire_alarm_internal alarm_service_new outage_request true)
    (fire_spec alarm_service_new outage_request true (alarms_world [] [])) (alarms_world [] []).
Proof. exact (fire_alarm_exact plain_keys alarm_service_new requester outage_request true (alarms_world [] []) eq_refl). Defined.

#[local] Abbreviation two_alarms :=
  (alarms_world [] [sample_alarm 3 (Some 5) "outage" "firing" None; sample_alarm 2 (Some 5) "outage" "resolved" None]).

Lemma two_alarms_ids : NoDup (map al_id (w_alarms two_alarms)).
Proof. cbn. apply NoDup_cons. split; [set_solver|]. apply NoDup_singleton. Qed.

Lemma bulk_update_exact_witness :
  runs plain_keys requester (bulk_update_alarms (Some 5) (Ids [3; 2; 3]) BulkResolve 9)
    (named (Some 5) [3; 2; 3] BulkResolve 9 two_alarms) two_alarms.
Proof. exact (bulk_update_exact plain_keys requester (Some 5) [3; 2; 3] BulkResolve 9 two_alarms eq_refl two_alarms_ids). Defined.

Definition any_alarm : AlarmFilters :=
  {| af_environment_id := None; af_deployment_id := None; af_alarm_type := None; af_status := None; af_severity := None |}.

Lemma bulk_update_drains_witness :
  runs plain_keys requester (bulk_update_alarms (Some 5) (Matching any_alarm) BulkAcknowledge 9)
    (drains (Some 5) any_alarm BulkAcknowledge 9 two_alarms) two_alarms.
Proof. exact (bulk_update_drains plain_keys requester (Some 5) any_alarm BulkAcknowledge 9 two_alarms eq_refl two_alarms_ids). Defined.

(** ** Two requests at once *)

Definition quiet : Choice := {| ch_fault := Fine; ch_latest := ∅ |}.

(** An acknowledgement has read the alarm, the alarm is resolved, then the acknowledgement is written. *)
Definition late_acknowledgement : list (@Event Choice Agent Env Call) :=
  [Spawn requester (AcknowledgeAlarm 1 (Some 5) 9); Spawn requester (ResolveAlarm 1 (Some 5)); Turn 0 quiet]
  ++ replicate 10 (Turn 1 quiet) ++ replicate 3 (Turn 0 quiet).

(** [acknowledge_alarm] writes what it decided on an earlier read: when the alarm is resolved in
    between, the row ends acknowledged, with a resolution time, after the job and the notification that
    announced its resolution. *)
Theorem late_acknowledgement_reopens :
  let w := sy_world (exec (perform plain_keys) happen (body plain_groups alarm_service_new)
    {| sy_world := alarms_world [] [sample_alarm 1 (Some 5) "outage" "firing" None]; sy_tasks := [] |} late_acknowledgement) in
  map (fun a => (al_status a, al_acknowledged_by a, al_resolved_at a)) (w_alarms w) = [("acknowledged"%string, Some 9, Some 0)] /\
  w_jobs w = [AlarmResolvedJob 1 (Some 5) None None "outage" "t"] /\ map nd_title (w_sent w) = ["Resolved: t"%string].
Proof. vm_compute. by split_and!. Qed.
