(* ===== verification/AlertSpec.v ===== *)
(** * The evaluator alone

    What one evaluation does to the window, the alarm and the row of its rule, when nothing else touches
    them and no call fails; which alarms a process that starts takes as its own; which default rules a
    service gets.  Last, runs that show what the documentation says otherwise: a silence that does not
    end a window, and an alarm of another evaluator that keeps a rule from firing. *)

From S2P Require Import Prelude Prog Alarms AlertRules AlertRuns AlarmSpec.
From Stdlib Require Import SpecFloat.
From stdpp Require Import sorting.
Local Open Scope Z_scope.

(** ** What an evaluation does *)

Inductive Observation := NoData | Healthy | Breaching (value : spec_float).

(** What the latest values say of a rule. *)
Definition observe (rule : Rule) (latest : gmap string spec_float) : Observation :=
  match latest !! ru_metric_name rule, default_volume_gate rule with
  | None, _ => NoData
  | Some value, None => if compare value (ru_threshold rule) (ru_comparator rule) then Breaching value else Healthy
  | Some value, Some gate =>
      match latest !! vg_metric_name gate with
      | None => NoData
      | Some volume =>
          if SFleb (vg_min_value gate) volume && compare value (ru_threshold rule) (ru_comparator rule) then Breaching value else Healthy
      end
  end.

(** The window column of a rule, if there is such a rule. *)
Definition column (w : World) (id : Z) : option (option Z) := ru_breach_started_at <$> List.find (has_id id) (w_rules w).

(** What only the evaluator and the rules hold; the alarms aside. *)
Record same_windows (w w' : World) : Prop := {
  sw_rules : w_rules w' = w_rules w;
  sw_cache : w_breach_start w' = w_breach_start w
}.

(** A window that is given up. *)
Record window_closed (id : Z) (w w' : World) : Prop := {
  wc_rules : w_rules w' = apply_where (has_id id) (with_breach None) (w_rules w);
  wc_cache : w_breach_start w' = delete id (w_breach_start w)
}.

(** The window a breach at [now] belongs to: the one in memory, else the one in the column unless it is
    too old, else a new one. *)
Definition current_window `{Timestamps} (rule : Rule) (now : Z) (w : World) : option (Z * list Rule) :=
  let claimed := apply_where (has_id (ru_id rule)) (with_breach (Some (db_time now))) (w_rules w) in
  match w_breach_start w !! ru_id rule, column w (ru_id rule) with
  | Some s, _ => Some (s, w_rules w)
  | None, None => None
  | None, Some (Some b) => if breach_window_is_restorable rule b now then Some (b, w_rules w) else Some (now, claimed)
  | None, Some None => Some (if breach_window_is_restorable rule (db_time now) now then db_time now else now, claimed)
  end.

(** The alarm the evaluator holds for the rule, when the rule has recovered. *)
Definition alarm_closed `{Timestamps} (rule_id : Z) (project_id : option Z) (w w' : World) : Prop :=
  match w_firing_alarms w !! rule_id with
  | None => w_alarms w' = w_alarms w /\ w_firing_alarms w' = w_firing_alarms w
  | Some aid =>
      match List.find (in_scope aid project_id) (w_alarms w) with
      | Some a =>
          w_firing_alarms w' = delete rule_id (w_firing_alarms w) /\
          if String.eqb (al_status a) "resolved" then w_alarms w' = w_alarms w
          else exists now saved, w_alarms w' = apply_where (fun a => al_id a =? aid) (resolve_row now saved) (w_alarms w)
      | None =>
          w_alarms w' = w_alarms w /\
          w_firing_alarms w' = if existsb (fun a => al_id a =? aid) (w_alarms w) then w_firing_alarms w else delete rule_id (w_firing_alarms w)
      end
  end.

(** The alarm of a rule whose window has begun at [s]. *)
Definition alarm_opened `{Timestamps} (sv : AlarmService) (rule : Rule) (value : spec_float) (ctx : AlarmContext) (s now : Z) (w w' : World) : Prop :=
  if (Z.max (num_seconds (now - s)) 0 <? Z.max (ru_for_duration_secs rule) 0) || bool_decide (is_Some (w_firing_alarms w !! ru_id rule))
  then w_alarms w' = w_alarms w /\ w_firing_alarms w' = w_firing_alarms w
  else exists t1 t2 t3 t4, now <= t1 <= t2 /\ t2 <= t3 <= t4 /\
    let request := breach_request rule value ctx in
    if existsb (suppresses request (t1 - as_cooldown sv) t2) (w_alarms w)
    then w_alarms w' = w_alarms w /\ w_firing_alarms w' = w_firing_alarms w
    else w_alarms w' = w_alarms w ++ [with_alarm_id (w_next_alarm w) (request_row request t3 t4)] /\
         w_firing_alarms w' = <[ru_id rule := w_next_alarm w]> (w_firing_alarms w).

Definition judged `{Timestamps} (sv : AlarmService) (rule : Rule) (obs : Observation) (ctx : AlarmContext) (w w' : World) : Prop :=
  match obs with
  | NoData => window_closed (ru_id rule) w w' /\ w_alarms w' = w_alarms w /\ w_firing_alarms w' = w_firing_alarms w
  | Healthy => window_closed (ru_id rule) w w' /\ alarm_closed (ru_id rule) ctx.1.1.1 w w'
  | Breaching value =>
      exists now, w_now w <= now /\
      match current_window rule now w with
      | None => same_windows w w' /\ w_alarms w' = w_alarms w /\ w_firing_alarms w' = w_firing_alarms w
      | Some (s, rules) =>
          w_rules w' = rules /\ w_breach_start w' = <[ru_id rule := s]> (w_breach_start w) /\
          alarm_opened sv rule value ctx s now w w'
      end
  end.

(** ** Programs that change no window *)

Definition announce_action (a : Action) : bool :=
  match a with SendJob _ | SendNotification _ => true | _ => read_action a end.

Record announced (w w' : World) : Prop := {
  an_rules : w_rules w' = w_rules w; an_alarms : w_alarms w' = w_alarms w; an_next : w_next_alarm w' = w_next_alarm w;
  an_cache : w_breach_start w' = w_breach_start w; an_firing : w_firing_alarms w' = w_firing_alarms w;
  an_epoch : w_epoch w' = w_epoch w; an_now : w_now w <= w_now w'
}.

Lemma later_announced w w' : later w w' -> announced w w'.
Proof. intros [t ->]. split; try done. cbn. lia. Qed.

Lemma announced_trans w1 w2 w3 : announced w1 w2 -> announced w2 w3 -> announced w1 w3.
Proof. intros [] []. split; try congruence. lia. Qed.

Section Evaluation.
Context `{Timestamps} `{JsonText} (key_order : gmap Z Z -> list Z) (sv : AlarmService).
#[local] Abbreviation perform := (perform key_order).
#[local] Abbreviation program := (prog reply).
#[local] Abbreviation runs := (runs key_order).

Lemma perform_announce ag c w a :
  ag_epoch ag = w_epoch w -> announce_action a = true -> fine c -> exists x w', perform ag c w a = Some (x, w') /\ announced w w'.
Proof.
  intros Hag Ha Hc. destruct (read_action a) eqn:E.
  { destruct (perform_read key_order ag c w a Hag E Hc) as [x Hx]. exists x, w. split; [done|]. apply later_announced, later_refl. }
  unfold fine, Alarms.perform in *. rewrite Hag, Nat.eqb_refl. cbn [negb]. destruct a; try done; unfold served; rewrite Hc; eexists _, _; by split.
Qed.

Lemma runs_announce {A B} ag (p : program A) (f : A -> program B) Q w :
  ag_epoch ag = w_epoch w -> only announce_action p -> (forall x w', announced w w' -> runs ag (f x) Q w') -> runs ag (prog_bind p f) Q w.
Proof.
  intros Hag Hp. revert w Hag. induction Hp as [x|a k Ha _ IH]; intros w Hag Hf; cbn [prog_bind]; [apply Hf, later_announced, later_refl|].
  apply runs_step. intros w1 c L Hc. pose proof (later_epoch ag w w1 L Hag) as Hag1.
  destruct (perform_announce ag c w1 a Hag1 Ha Hc) as (x & w2 & Hx & Han). exists x, w2. split; [done|].
  apply IH; [by rewrite (an_epoch _ _ Han)|]. intros y w3 H3. apply Hf. eapply announced_trans; [by apply later_announced|]. by eapply announced_trans.
Qed.

Lemma runs_clear_breach {B} ag id (f : unit -> program B) Q w :
  ag_epoch ag = w_epoch w ->
  (forall w', window_closed id w w' -> w_alarms w' = w_alarms w -> w_firing_alarms w' = w_firing_alarms w -> ag_epoch ag = w_epoch w' ->
   runs ag (f ()) Q w') -> runs ag (prog_bind (clear_breach id) f) Q w.
Proof.
  intros Hag Hf. unfold clear_breach, clear_persisted_breach_start, call. cbn [prog_bind]. apply runs_step. intros w1 c1 L1 Hc1.
  pose proof (later_epoch _ _ _ L1 Hag) as Hag1. answered Hag1 Hc1. apply runs_step. intros w2 c2 L2 Hc2.
  assert (ag_epoch ag = w_epoch w2) as Hag2 by exact (later_epoch _ _ _ L2 Hag1). answered Hag2 Hc2.
  destruct L1 as [t1 ->], L2 as [t2 ->]. by apply Hf.
Qed.

Lemma head_filter {A} (p : A -> bool) l : head (List.filter p l) = List.find p l.
Proof. induction l as [|a l IH]; [done|]. cbn. by destruct (p a). Qed.

Lemma announces_resolved a : only announce_action (send_resolved_notification a).
Proof. unfold send_resolved_notification, build_notification_metadata. destruct (al_project_id a), (al_service_id a), (al_environment_id a); only_steps. Qed.

Definition resolved_as (aid : Z) (project_id : option Z) (w : World) (r : result AlarmError unit) (w' : World) : Prop :=
  same_windows w w' /\ w_firing_alarms w' = w_firing_alarms w /\ w_epoch w' = w_epoch w /\
  match List.find (in_scope aid project_id) (w_alarms w) with
  | None => r = Err (AlarmNotFound aid project_id) /\ w_alarms w' = w_alarms w
  | Some a => r = Ok () /\ if String.eqb (al_status a) "resolved" then w_alarms w' = w_alarms w
      else exists now saved, w_alarms w' = apply_where (fun a => al_id a =? aid) (resolve_row now saved) (w_alarms w)
  end.

(** [resolve_alarm]. *)
Lemma runs_resolve ag aid project_id w : ag_epoch ag = w_epoch w -> runs ag (resolve_alarm aid project_id) (resolved_as aid project_id w) w.
Proof.
  intros Hag. unfold resolve_alarm, find_alarm, prog_try, try_db, call. cbn [prog_bind]. apply runs_step. intros w1 c1 L1 Hc1.
  pose proof (later_epoch _ _ _ L1 Hag) as Hag1. answered Hag1 Hc1. rewrite (later_alarms _ _ L1). unfold resolved_as. rewrite <- head_filter.
  destruct (List.filter _ (w_alarms w)) as [|a rest] eqn:E; cbn [head].
  { cbn. destruct L1 as [t ->]. by split_and!. }
  destruct (String.eqb (al_status a) "resolved"); [cbn; destruct L1 as [t ->]; by split_and!|].
  apply runs_now; [done|]. intros w2 L2. apply runs_now; [by apply (later_epoch ag w1)|]. intros w3 L3. apply runs_step. intros w4 c4 L4 Hc4.
  assert (later w w4) as L by (do 3 (eapply later_trans; [|eassumption]); done). pose proof (later_epoch _ _ _ L Hag) as Hag4.
  assert (a ∈ List.filter (in_scope aid project_id) (w_alarms w)) as Ha by (rewrite E; left).
  apply In_filter in Ha as [Ha Hsc]. assert (existsb (fun a => al_id a =? aid) (w_alarms w4) = true) as Hex.
  { rewrite (later_alarms _ _ L). apply existsb_exists. exists a. rewrite <- list_elem_of_In. unfold in_scope in Hsc. by apply andb_true_iff in Hsc as [? _]. }
  unfold Alarms.perform. rewrite Hag4, Nat.eqb_refl, Hex. unfold served. rewrite Hc4. eexists _, _. split; [reflexivity|]. cbn [prog_bind].
  apply runs_step. intros w5 c5 L5 Hc5. pose proof (later_epoch ag _ _ L5 Hag4) as Hag5. answered Hag5 Hc5.
  apply runs_announce; [done|apply announces_resolved|]. intros y w6 [E1 E2 _ E4 E5 E6 _]. cbn.
  destruct L as [t ->], L5 as [t5 ->]. split_and!; [done|done|done|done|]. exists (w_now w2), (w_now w3). by rewrite E2.
Qed.

Lemma runs_handle_recovery ag rule ctx w :
  ag_epoch ag = w_epoch w -> runs ag (handle_recovery rule ctx) (fun _ w' => judged sv rule Healthy ctx w w') w.
Proof.
  intros Hag. unfold handle_recovery. apply runs_clear_breach; [done|]. intros w1 [Er1 Ec1] Ea1 Ef1 Hag1. unfold call. cbn [prog_bind].
  apply runs_step. intros w2 c2 L2 Hc2. pose proof (later_epoch ag _ _ L2 Hag1) as Hag2. answered Hag2 Hc2.
  assert (w_firing_alarms w2 = w_firing_alarms w /\ w_alarms w2 = w_alarms w /\ w_rules w2 = w_rules w1 /\ w_breach_start w2 = w_breach_start w1)
    as (Ef2 & Ea2 & Er2 & Ec2) by (destruct L2 as [t ->]; by split_and!). rewrite Ef2.
  cbn [judged]. unfold alarm_closed. destruct (w_firing_alarms w !! ru_id rule) as [aid|] eqn:Ef.
  2: { cbn. split; [split; cbn; congruence|]. split; [cbn; congruence|]. cbn. by rewrite delete_id. }
  set (w3 := set_caches _ _ _ w2). apply runs_bind. eapply runs_mono; [|by apply (runs_resolve ag aid ctx.1.1.1 w3)].
  intros r w4 ([Er4 Ec4] & Ef4 & Ee4 & Hr). cbn in Er4, Ec4, Ef4, Ee4, Hr. rewrite Ea2 in Hr.
  assert (window_closed (ru_id rule) w w4) as Hwc by (split; congruence).
  destruct (List.find (in_scope aid ctx.1.1.1) (w_alarms w)) as [a|].
  { destruct Hr as [-> Hr]. cbn. by split_and!. }
  destruct Hr as [-> Ea4]. cbn [prog_bind]. apply runs_step. intros w5 c5 L5 Hc5.
  assert (ag_epoch ag = w_epoch w5) as Hag5 by (apply (later_epoch ag w4); [done|]; by rewrite Ee4). answered Hag5 Hc5.
  assert (w_firing_alarms w5 = delete (ru_id rule) (w_firing_alarms w) /\ w_alarms w5 = w_alarms w) as [Ef5 Ea5]
    by (destruct L5 as [t ->]; cbn; by rewrite Ea4, Ef4). rewrite Ea5.
  assert (window_closed (ru_id rule) w w5) as Hwc5 by (destruct Hwc, L5 as [t ->]; by split).
  destruct (List.filter (fun a => al_id a =? aid) (w_alarms w)) as [|a rest] eqn:E.
  - assert (existsb (fun a => al_id a =? aid) (w_alarms w) = false) as ->; [|by cbn; split_and!].
    apply not_true_iff_false. intros (a & Ha & Hx)%existsb_exists. assert (a ∈ List.filter (fun a => al_id a =? aid) (w_alarms w)) as Hin
      by (apply In_filter; by rewrite list_elem_of_In). rewrite E in Hin. by apply elem_of_nil in Hin.
  - assert (existsb (fun a => al_id a =? aid) (w_alarms w) = true) as ->.
    { apply existsb_exists. exists a. assert (a ∈ List.filter (fun a => al_id a =? aid) (w_alarms w)) as Hin by (rewrite E; left).
      apply In_filter in Hin. by rewrite <- list_elem_of_In. }
    cbn [prog_bind]. apply runs_step. intros w6 c6 L6 Hc6. pose proof (later_epoch ag _ _ L6 Hag5) as Hag6. answered Hag6 Hc6.
    destruct L6 as [t ->]. cbn. destruct Hwc5. split_and!; [by split|done|]. rewrite Ef5. by apply insert_delete_id.
Qed.

(** *** The window of a breach *)

Lemma find_row w id r :
  NoDup (map ru_id (w_rules w)) -> List.find (has_id id) (w_rules w) = Some r -> forall r', r' ∈ w_rules w -> has_id id r' = true -> r' = r.
Proof.
  intros Hd Hf r' Hr' Hid. apply find_some in Hf as [Hr%list_elem_of_In Hid']. apply Z.eqb_eq in Hid, Hid'.
  apply (key_inj ru_id (w_rules w)); [done|done|done|congruence].
Qed.

(** The claim on a column that is empty. *)
Lemma coalesce_empty w id t r :
  NoDup (map ru_id (w_rules w)) -> List.find (has_id id) (w_rules w) = Some r -> ru_breach_started_at r = None ->
  apply_where (unclaimed id) (with_breach (Some t)) (w_rules w) = apply_where (has_id id) (with_breach (Some t)) (w_rules w).
Proof.
  intros Hd Hf Hn. unfold apply_where. apply list_fmap_ext. intros i r' Hr'%list_elem_of_lookup_2. unfold unclaimed.
  destruct (has_id id r') eqn:E; [|done]. rewrite (find_row w id r Hd Hf r' Hr' E), Hn, bool_decide_true; done.
Qed.

(** The claim on a column that is taken, or that is not there. *)
Lemma coalesce_taken w id t :
  NoDup (map ru_id (w_rules w)) -> column w id <> Some None -> apply_where (unclaimed id) (with_breach (Some t)) (w_rules w) = w_rules w.
Proof.
  intros Hd Hc. unfold apply_where. etrans; [|apply map_id]. apply list_fmap_ext. intros i r Hr%list_elem_of_lookup_2.
  destruct (unclaimed id r) eqn:E; [|done]. unfold unclaimed in E. apply andb_true_iff in E as [Hid Hn%bool_decide_eq_true].
  destruct Hc. unfold column. destruct (List.find (has_id id) (w_rules w)) as [r0|] eqn:Hf.
  - rewrite <- (find_row w id r0 Hd Hf r Hr Hid). cbn. by rewrite Hn.
  - apply list_elem_of_In in Hr. pose proof (find_none _ _ Hf r Hr). congruence.
Qed.

Lemma find_claimed id t rows r :
  List.find (has_id id) rows = Some r -> List.find (has_id id) (apply_where (has_id id) (with_breach (Some t)) rows) = Some (with_breach (Some t) r).
Proof.
  unfold apply_where. induction rows as [|a rows IH]; [done|]. cbn [List.find map]. destruct (has_id id a) eqn:E.
  - intros [= ->]. unfold has_id in *. cbn. by rewrite E.
  - rewrite E. apply IH.
Qed.

(** All that [claim_breach_start] leaves alone. *)
Record kept (w w' : World) : Prop := {
  kp_alarms : w_alarms w' = w_alarms w; kp_next : w_next_alarm w' = w_next_alarm w; kp_firing : w_firing_alarms w' = w_firing_alarms w;
  kp_cache : w_breach_start w' = w_breach_start w; kp_epoch : w_epoch w' = w_epoch w; kp_now : w_now w <= w_now w'
}.

Lemma later_kept w w' : later w w' -> kept w w'.
Proof. intros [t ->]. split; try done. cbn. lia. Qed.

Lemma kept_trans w1 w2 w3 : kept w1 w2 -> kept w2 w3 -> kept w1 w3.
Proof. intros [] []. split; try congruence. lia. Qed.

Lemma set_rules_kept rules next log w : kept w (set_rules rules next log w).
Proof. by split. Qed.

Lemma runs_claim ag rule now w :
  ag_epoch ag = w_epoch w -> NoDup (map ru_id (w_rules w)) -> w_breach_start w !! ru_id rule = None ->
  runs ag (claim_breach_start rule now) (fun x w' => kept w w' /\ match current_window rule now w with
    | None => x = None /\ w_rules w' = w_rules w
    | Some (s, rules) => x = Some s /\ w_rules w' = rules
    end) w.
Proof.
  intros Hag Hd Hcache. unfold claim_breach_start, call. cbn [prog_bind]. apply runs_step. intros w1 c1 L1 Hc1.
  pose proof (later_epoch _ _ _ L1 Hag) as Hag1. answered Hag1 Hc1. apply runs_step. intros w2 c2 L2 Hc2.
  assert (ag_epoch ag = w_epoch w2) as Hag2 by exact (later_epoch ag _ _ L2 Hag1). answered Hag2 Hc2. rewrite head_filter.
  assert (kept w w2) as Hk by (eapply kept_trans; [apply later_kept, L1|]; eapply kept_trans; [|apply later_kept, L2]; apply set_rules_kept).
  assert (w_rules w2 = apply_where (unclaimed (ru_id rule)) (with_breach (Some (db_time now))) (w_rules w)) as Er2
    by (destruct L1 as [t1 ->], L2 as [t2 ->]; done). rewrite Er2.
  assert (forall rows, column w (ru_id rule) <> None -> apply_where (has_id (ru_id rule)) (with_breach (Some (db_time now))) (w_rules w2) = rows ->
    runs ag (Do (SetBreach (ru_id rule) (db_time now)) (fun x => Ret (match x with Some _ => Some now | None => None end)))
      (fun x w' => kept w w' /\ x = Some now /\ w_rules w' = rows) w2) as Hset.
  { intros rows _ Hrows. apply runs_step. intros w3 c3 L3 Hc3. pose proof (later_epoch ag _ _ L3 Hag2) as Hag3. answered Hag3 Hc3. cbn.
    assert (w_rules w3 = w_rules w2) as Er3 by (destruct L3 as [t ->]; done). rewrite Er3.
    split_and!; [|done|done]. eapply kept_trans; [exact Hk|]. eapply kept_trans; [apply later_kept, L3|]. apply set_rules_kept. }
  unfold current_window. rewrite Hcache. unfold column in Hset |- *.
  destruct (List.find (has_id (ru_id rule)) (w_rules w)) as [row|] eqn:Hf; cbn [fmap option_fmap option_map] in Hset |- *.
  2: { rewrite (coalesce_taken w _ _ Hd) in Er2 |- * by (unfold column; by rewrite Hf). rewrite Hf. cbn. by split_and!. }
  destruct (ru_breach_started_at row) as [b|] eqn:Hb.
  - rewrite (coalesce_taken w _ _ Hd) in Er2 |- * by (unfold column; rewrite Hf; cbn; congruence). rewrite Hf. cbn. rewrite Hb.
    destruct (breach_window_is_restorable rule b now); [by cbn; split_and!|]. apply Hset; [done|]. by rewrite Er2.
  - rewrite (coalesce_empty w _ _ row Hd Hf Hb) in Er2 |- *. rewrite (find_claimed _ _ _ row Hf). cbn.
    destruct (breach_window_is_restorable rule (db_time now) now); [by cbn; split_and!|]. apply Hset; [done|]. rewrite Er2. unfold apply_where.
    rewrite map_map. apply map_ext. intros r. destruct (has_id (ru_id rule) r) eqn:E; [|by rewrite E]. unfold has_id in *. cbn. by rewrite E.
Qed.

(** *** The alarm of a breach *)

Lemma later_untouched w w' : later w w' -> untouched w w'.
Proof. intros [t ->]. done. Qed.

(** From the moment the window is known: [w0] is [w] but for the window. *)
Lemma runs_alarm ag rule value ctx s now w w0 :
  ag_epoch ag = w_epoch w0 -> w_alarms w0 = w_alarms w -> w_next_alarm w0 = w_next_alarm w -> w_firing_alarms w0 = w_firing_alarms w ->
  now <= w_now w0 ->
  runs ag
    (if Z.max (num_seconds (now - s)) 0 <? Z.max (ru_for_duration_secs rule) 0 then Ret ()
     else let* firing := call (IsFiring (ru_id rule)) in
          if (firing : bool) then Ret ()
          else let* fired := fire_alarm sv (breach_request rule value ctx) in
               match fired with
               | Ok (Some alarm_id) => let* _ := call (TrackAlarms [(ru_id rule, alarm_id)]) in Ret ()
               | Ok None => Ret ()
               | Err _ => Ret ()
               end)
    (fun _ w' => w_rules w' = w_rules w0 /\ w_breach_start w' = w_breach_start w0 /\ alarm_opened sv rule value ctx s now w w') w0.
Proof.
  intros Hag Ea En Ef Hnow. unfold alarm_opened. destruct (_ <? _); [by cbn|]. cbn [orb]. unfold call. cbn [prog_bind].
  apply runs_step. intros w1 c1 L1 Hc1. pose proof (later_epoch ag _ _ L1 Hag) as Hag1. answered Hag1 Hc1.
  assert (w_firing_alarms w1 = w_firing_alarms w /\ w_rules w1 = w_rules w0 /\ w_breach_start w1 = w_breach_start w0 /\ w_alarms w1 = w_alarms w /\
    w_next_alarm w1 = w_next_alarm w /\ now <= w_now w1) as (Ef1 & Er1 & Ec1 & Ea1 & En1 & Hn1)
    by (pose proof (later_now _ _ L1); destruct L1 as [t ->]; split_and!; try done; lia). rewrite Ef1.
  destruct (bool_decide (is_Some (w_firing_alarms w !! ru_id rule))); [by cbn; split_and!|].
  apply runs_bind. eapply runs_mono; [|by apply runs_fire]. intros r w2 (t1 & t2 & t3 & t4 & Ht12 & Ht34 & _ & Hr). rewrite Ea1 in Hr.
  destruct (existsb _ _) eqn:E.
  - destruct Hr as [-> L2]. cbn. split_and!; [destruct L2 as [t ->]; done..|]. exists t1, t2, t3, t4. rewrite E. split_and!; try lia; destruct L2 as [t ->]; done.
  - destruct Hr as [-> [Ea2 En2 _ _ [Er2 Ec2 Ef2 Ee2]]]. cbn [prog_bind]. apply runs_step. intros w3 c3 L3 Hc3.
    assert (ag_epoch ag = w_epoch w3) as Hag3 by (apply (later_epoch ag w2); [done|]; by rewrite Ee2). answered Hag3 Hc3. cbn.
    rewrite En1, Ea1 in *. destruct L3 as [t ->]. split_and!; [exact (eq_trans Er2 Er1)|exact (eq_trans Ec2 Ec1)|]. exists t1, t2, t3, t4. rewrite E.
    split_and!; [lia..|exact Ea2|]. cbn. by rewrite Ef2, Ef1.
Qed.

Lemma runs_handle_breach ag rule value ctx w :
  ag_epoch ag = w_epoch w -> NoDup (map ru_id (w_rules w)) ->
  runs ag (handle_breach sv rule value ctx) (fun _ w' => judged sv rule (Breaching value) ctx w w') w.
Proof.
  intros Hag Hd. unfold handle_breach. unfold call at 1. cbn [prog_bind]. apply runs_now; [done|]. intros w1 L1. unfold call at 1. cbn [prog_bind].
  apply runs_step. intros w2 c2 L2 Hc2. assert (later w w2) as L by by eapply later_trans. pose proof (later_epoch _ _ _ L Hag) as Hag2.
  answered Hag2 Hc2. set (now := w_now w1). pose proof (later_now _ _ L1). pose proof (later_now _ _ L2).
  destruct (w_breach_start w2 !! ru_id rule) as [b|] eqn:Hb; cbn [prog_bind].
  - eapply runs_mono; [|apply (runs_alarm ag rule value ctx b now w w2); [done|destruct L as [t ->]; done..|done]].
    intros y w3 (Er & Ec & Ho). exists now. split; [done|]. assert (w_breach_start w !! ru_id rule = Some b) as Hb' by (destruct L as [t ->]; done).
    unfold current_window. rewrite Hb'. split_and!; [destruct L as [t ->]; done| |done]. rewrite insert_id by done. destruct L as [t ->]. done.
  - assert (w_breach_start w !! ru_id rule = None) as Hb' by (destruct L as [t ->]; done).
    apply runs_bind, runs_bind. eapply runs_mono; [|apply (runs_claim ag rule now w2); [done|destruct L as [t ->]; done|done]].
    assert (current_window rule now w2 = current_window rule now w) as -> by (destruct L as [t ->]; done).
    intros x w3 [[Ea En Ef Ec Ee Hn] Hw].
    assert (w_alarms w3 = w_alarms w /\ w_next_alarm w3 = w_next_alarm w /\ w_firing_alarms w3 = w_firing_alarms w /\
      w_breach_start w3 = w_breach_start w /\ w_rules w2 = w_rules w) as (Ea3 & En3 & Ef3 & Ec3 & Er3)
      by (destruct L as [t ->]; cbn in *; split_and!; congruence). cbn [judged].
    destruct (current_window rule now w) as [[s rules]|] eqn:Ew; destruct Hw as [-> Hr].
    2: { cbn. exists now. split; [done|]. rewrite Ew. split_and!; try done. split; [congruence|done]. }
    cbn [prog_bind]. unfold call at 1. cbn [prog_bind]. apply runs_step. intros w4 c4 L4 Hc4.
    assert (ag_epoch ag = w_epoch w4) as Hag4 by (apply (later_epoch ag w3); [done|]; by rewrite Ee). answered Hag4 Hc4. cbn [AlarmSpec.runs].
    eapply runs_mono; [|apply (runs_alarm ag rule value ctx s now w); [done|..]].
    + intros y w5 (Er5 & Ec5 & Ho). exists now. split; [done|]. rewrite Ew. cbn in Er5, Ec5. rewrite Er5, Ec5.
      destruct L4 as [t ->]. cbn. by rewrite Ec3.
    + destruct L4 as [t ->]. exact Ea3.
    + destruct L4 as [t ->]. exact En3.
    + destruct L4 as [t ->]. exact Ef3.
    + pose proof (later_now _ _ L4). cbn. lia.
Qed.

Lemma observe_cases rule latest ctx :
  evaluate_rule sv rule latest ctx = match observe rule latest with
  | NoData => clear_breach (ru_id rule)
  | Healthy => handle_recovery rule ctx
  | Breaching value => handle_breach sv rule value ctx
  end.
Proof.
  unfold evaluate_rule, observe. destruct (latest !! ru_metric_name rule) as [value|]; [|done]. unfold meets_volume_gate.
  destruct (default_volume_gate rule) as [gate|] eqn:Hg; [|cbn; by destruct (compare _ _ _)].
  assert (volume_gate (ru_metric_name rule) = Some gate) as ->.
  { unfold default_volume_gate in Hg. destruct (volume_gate _) as [g|]; [|done]. destruct (existsb _ _); [|done]. congruence. }
  destruct (latest !! vg_metric_name gate) as [v|] eqn:Hv; [|by rewrite bool_decide_true].
  rewrite bool_decide_false, bool_decide_true by done. cbn. destruct (SFleb _ v); cbn; [|done]. by destruct (compare _ _ _).
Qed.

(** C24: One evaluation does to window, rule and alarm what the observation asks for: no data gives the
    window up and leaves the alarm; a healthy value also resolves the alarm the evaluator holds; a breach
    keeps the window in memory, adopts the column's unless it is too old, or begins one, and fires the
    alarm once the window is old enough, none is held and the cooldown allows it. *)
Theorem evaluate_rule_exact ag rule latest ctx w :
  ag_epoch ag = w_epoch w -> NoDup (map ru_id (w_rules w)) ->
  runs ag (evaluate_rule sv rule latest ctx) (fun _ w' => judged sv rule (observe rule latest) ctx w w') w.
Proof.
  intros Hag Hd. rewrite observe_cases. destruct (observe rule latest) as [| |value].
  - assert (clear_breach (ru_id rule) = prog_bind (clear_breach (ru_id rule)) Ret) as -> by done. apply runs_clear_breach; [done|].
    intros w' Hw Ha Hf _. by cbn.
  - by apply runs_handle_recovery.
  - by apply runs_handle_breach.
Qed.

(** ** Which alarms a process takes as its own *)

Definition restorable_alarm (a : Alarm) (i : Z) : Prop :=
  is_open a = true /\ (exists t, t ∈ metric_types /\ al_alarm_type a = alarm_type_str t) /\ alarm_rule a = Some (i, al_id a).

Lemma insert_all_some l m i : is_Some (m !! i) \/ (exists x, (i, x) ∈ l) -> is_Some (insert_all l m !! i).
Proof.
  unfold insert_all. revert m. induction l as [|[j y] l IH]; intros m; cbn [fold_left].
  - intros [Hm|(x & Hx)]; [done|]. by apply elem_of_nil in Hx.
  - intros Hor. apply IH. destruct (decide (i = j)) as [->|Hne]; [left; cbn; rewrite lookup_insert_eq; by eexists|].
    destruct Hor as [Hm|(x & [[= -> ->]|Hx]%elem_of_cons)]; [left; cbn; by rewrite lookup_insert_ne|done|right; by exists x].
Qed.

Lemma runs_load ag types w :
  ag_epoch ag = w_epoch w ->
  runs ag (load_types types) (fun r w' => r = Some () /\ w_alarms w' = w_alarms w /\
    (forall i, is_Some (w_firing_alarms w !! i) -> is_Some (w_firing_alarms w' !! i)) /\
    (forall a i, a ∈ w_alarms w -> is_open a = true -> (exists t, t ∈ types /\ al_alarm_type a = alarm_type_str t) ->
       alarm_rule a = Some (i, al_id a) -> is_Some (w_firing_alarms w' !! i)) /\
    (forall i aid, w_firing_alarms w' !! i = Some aid -> w_firing_alarms w !! i = Some aid \/
       exists a, a ∈ w_alarms w /\ al_id a = aid /\ is_open a = true /\ (exists t, t ∈ types /\ al_alarm_type a = alarm_type_str t) /\
         alarm_rule a = Some (i, aid))) w.
Proof.
  revert w. induction types as [|t types IH]; intros w Hag; cbn [load_types].
  { cbn. split_and!; try done; [by intros a i _ _ (t & ?%elem_of_nil & _)|by left]. }
  unfold call. cbn [prog_bind]. apply runs_step. intros w1 c1 L1 Hc1. pose proof (later_epoch _ _ _ L1 Hag) as Hag1. answered Hag1 Hc1.
  apply runs_step. intros w2 c2 L2 Hc2. assert (later w w2) as L by by eapply later_trans. pose proof (later_epoch _ _ _ L Hag) as Hag2.
  answered Hag2 Hc2. rewrite (later_alarms _ _ L1). set (rows := omap alarm_rule _).
  assert (forall i x, (i, x) ∈ rows <-> exists a, a ∈ w_alarms w /\ al_id a = x /\ is_open a = true /\ al_alarm_type a = alarm_type_str t /\
    alarm_rule a = Some (i, x)) as Hrows.
  { intros i x. unfold rows. rewrite list_elem_of_omap. split.
    - intros (a & [Ha Hx]%In_filter & Hr). apply andb_true_iff in Hx as [Ht%String.eqb_eq Ho]. exists a. split_and!; try done.
      unfold alarm_rule in Hr. destruct (al_metadata a); [|done]. destruct (int_field _ _); [|done]. cbn in Hr. congruence.
    - intros (a & Ha & Hid & Ho & Ht & Hr). exists a. split; [|done]. apply In_filter. split; [done|]. by rewrite Ht, String.eqb_refl. }
  eapply runs_mono; [|by apply IH]. assert (w_firing_alarms w2 = w_firing_alarms w /\ w_alarms w2 = w_alarms w) as [Ef Ea] by (destruct L as [u ->]; done).
  cbn. rewrite Ea, Ef. intros r w' (-> & Ea' & Hold & Hall & Honly). split_and!; [done|done| | |].
  - intros i Hi. apply Hold, insert_all_some. by left.
  - intros a i Ha Ho (t' & [->|Ht']%elem_of_cons & Et) Hr; [|by apply (Hall a); [..|exists t'|]]. apply Hold, insert_all_some. right.
    exists (al_id a). apply Hrows. by exists a.
  - intros i aid Hi. destruct (Honly i aid Hi) as [Hi'|(a & Ha & Hid & Ho & (t' & Ht' & Et) & Hr)].
    + apply insert_all_lookup in Hi' as [Hin|Hi']; [|by left]. apply Hrows in Hin as (a & Ha & Hid & Ho & Ht & Hr).
      right. exists a. split_and!; try done. exists t. split; [left|done].
    + right. exists a. split_and!; try done. exists t'. split; [by right|done].
Qed.

(** A process that starts holds, for each rule an open alarm of the four metric types names, such an
    alarm, whoever fired it, and holds nothing else: of an alarm of type [otel_rate_limited], which the
    evaluator itself fires, it keeps no record, so that nothing resolves it. *)
Theorem load_firing_exact ag w :
  ag_epoch ag = w_epoch w -> w_firing_alarms w = ∅ ->
  runs ag load_firing_alarms_from_db (fun r w' => r = Some () /\ w_alarms w' = w_alarms w /\
    (forall a i, a ∈ w_alarms w -> restorable_alarm a i -> is_Some (w_firing_alarms w' !! i)) /\
    (forall i aid, w_firing_alarms w' !! i = Some aid -> exists a, a ∈ w_alarms w /\ al_id a = aid /\ restorable_alarm a i) /\
    (forall a i, a ∈ w_alarms w -> NoDup (map al_id (w_alarms w)) -> al_alarm_type a = alarm_type_str OtelRateLimited ->
       w_firing_alarms w' !! i <> Some (al_id a))) w.
Proof.
  intros Hag Hnone. eapply runs_mono; [|by apply runs_load]. intros r w' (-> & Ea & _ & Hall & Honly).
  assert (forall i aid, w_firing_alarms w' !! i = Some aid -> exists a, a ∈ w_alarms w /\ al_id a = aid /\ restorable_alarm a i) as Hfrom.
  { intros i aid Hi. destruct (Honly i aid Hi) as [Hi'|(a & Ha & <- & Ho & Ht & Hr)]; [by rewrite Hnone, lookup_empty in Hi'|].
    exists a. by split_and!. }
  split_and!; [done|done| |exact Hfrom|].
  - intros a i Ha (Ho & Ht & Hr). by apply (Hall a).
  - intros a i Ha Hd Hot Hi. destruct (Hfrom i (al_id a) Hi) as (b & Hb & Hid & _ & (t & Ht & Et) & _).
    rewrite (key_inj al_id (w_alarms w) b a Hd Hb Ha Hid), Hot in Et.
    unfold metric_types in Ht. rewrite !elem_of_cons, elem_of_nil in Ht. by destruct Ht as [->|[->|[->|[->|[]]]]].
Qed.

(** ** Which default rules a service gets *)

(** The seeds whose metric has no rule, the first of each metric. *)
Fixpoint fresh_seeds (taken : list string) (seeds : list RuleSeed) : list RuleSeed :=
  match seeds with
  | [] => []
  | s :: seeds =>
      if existsb (String.eqb (rs_metric_name s)) taken then fresh_seeds taken seeds
      else s :: fresh_seeds (rs_metric_name s :: taken) seeds
  end.

(** Rows with their ids from the sequence. *)
Fixpoint numbered (next : Z) (rows : list Rule) : list Rule :=
  match rows with [] => [] | r :: rows => with_breach None (with_rule_id next r) :: numbered (next + 1) rows end.

Definition service_metrics (service_id : Z) (rules : list Rule) : list string :=
  map ru_metric_name (List.filter (of_service service_id) rules).

Lemma same_target_none x : same_target None x = false.
Proof. unfold same_target. apply bool_decide_false. by intros [[] _]. Qed.

Lemma seed_conflicts service_id s rules :
  existsb (rules_conflict (seed_row (Some service_id) None None s)) rules =
  existsb (String.eqb (rs_metric_name s)) (service_metrics service_id rules).
Proof.
  unfold service_metrics. induction rules as [|r rules IH]; [done|]. cbn [existsb List.filter].
  assert (rules_conflict (seed_row (Some service_id) None None s) r =
    String.eqb (rs_metric_name s) (ru_metric_name r) && of_service service_id r) as ->.
  { unfold rules_conflict, seed_row. cbn [ru_metric_name ru_service_id ru_deployment_id ru_node_id]. rewrite !same_target_none, !orb_false_r. f_equal.
    unfold same_target, of_service. apply bool_decide_ext. split; [by intros [_ ->]|]. intros ->. split; [by eexists|done]. }
  rewrite IH. destruct (of_service service_id r); [|by rewrite andb_false_r]. cbn. by rewrite andb_true_r.
Qed.

Lemma fresh_ext taken taken' seeds :
  (forall m, existsb (String.eqb m) taken = existsb (String.eqb m) taken') -> fresh_seeds taken seeds = fresh_seeds taken' seeds.
Proof.
  revert taken taken'. induction seeds as [|s seeds IH]; intros taken taken' Ht; [done|]. cbn [fresh_seeds]. rewrite <- Ht. destruct (existsb _ taken); [by apply IH|].
  f_equal. apply IH. intros m. cbn. by rewrite Ht.
Qed.

Lemma insert_seeds_exact service_id seeds w :
  w_rules (fold_left insert_rule (map (seed_row (Some service_id) None None) seeds) w) =
  w_rules w ++ numbered (w_next_rule w) (map (seed_row (Some service_id) None None) (fresh_seeds (service_metrics service_id (w_rules w)) seeds)).
Proof.
  revert w. induction seeds as [|s seeds IH]; intros w; cbn [map fold_left fresh_seeds]; [by rewrite app_nil_r|].
  rewrite IH. unfold insert_rule at 1 2 3. rewrite seed_conflicts. destruct (existsb _ _) eqn:E; [done|].
  cbn [w_rules set_rules w_next_rule map numbered]. rewrite <- app_assoc. do 3 f_equal. apply (f_equal (map _)), fresh_ext. intros m.
  unfold service_metrics. rewrite List.filter_app, map_app, existsb_app. cbn [List.filter]. unfold of_service at 2. cbn.
  rewrite bool_decide_true by done. cbn. rewrite orb_false_r. by rewrite orb_comm.
Qed.

(** As many as [missing] counts. *)
Lemma fresh_count taken seeds :
  length (fresh_seeds taken seeds) =
  size (list_to_set (map rs_metric_name (List.filter (fun s => negb (existsb (String.eqb (rs_metric_name s)) taken)) seeds)) : gset string).
Proof.
  revert taken. induction seeds as [|s seeds IH]; intros taken; [done|]. cbn [fresh_seeds List.filter].
  destruct (existsb (String.eqb (rs_metric_name s)) taken) eqn:E; cbn [negb]; [apply IH|]. cbn [length map list_to_set].
  rewrite IH. set (m := rs_metric_name s). set (all := list_to_set (map _ (List.filter _ seeds)) : gset string).
  set (rest := list_to_set (map _ (List.filter (fun s => negb (existsb (String.eqb (rs_metric_name s)) taken)) seeds)) : gset string).
  assert (all = rest ∖ {[m]}) as ->.
  { apply set_eq. intros x. unfold all, rest. rewrite elem_of_difference, !elem_of_list_to_set, !list_elem_of_fmap, elem_of_singleton. split.
    - intros (s' & -> & [Hs Hn]%In_filter). cbn in Hn. rewrite negb_orb, andb_true_iff in Hn. destruct Hn as [Hm Hn].
      split; [exists s'; split; [done|]; by apply In_filter|]. by apply negb_true_iff, String.eqb_neq in Hm.
    - intros [(s' & -> & [Hs Hn]%In_filter) Hm]. exists s'. split; [done|]. apply In_filter. split; [done|]. cbn.
      rewrite negb_orb, Hn, andb_true_r. by apply negb_true_iff, String.eqb_neq. }
  assert ({[m]} ∪ rest = {[m]} ∪ (rest ∖ {[m]})) as -> by (apply set_eq; intros x; destruct (decide (x = m)); set_solver).
  pose proof (size_union {[m]} (rest ∖ {[m]})) as Hs. rewrite Hs by set_solver. by rewrite size_singleton.
Qed.

(** What seeding leaves. *)
Definition seeded (service_id : Z) (engine : string) (w : World) (r : result SeedError unit) (w' : World) : Prop :=
  match engine_seeds engine, List.find (fun s => sv_id s =? service_id) (w_services w) with
  | None, _ | _, None => r = Ok () /\ later w w'
  | Some seeds, Some _ =>
      let count := Z.of_nat (length (List.filter (of_service service_id) (w_rules w))) in
      let fresh := fresh_seeds (service_metrics service_id (w_rules w)) seeds in
      let missing := Z.of_nat (length fresh) in
      if MAX_ALERT_RULES_PER_SERVICE <? count + missing
      then r = Err (SeedCapacity service_id count missing MAX_ALERT_RULES_PER_SERVICE) /\ later w w'
      else r = Ok () /\ w_rules w' = w_rules w ++ numbered (w_next_rule w) (map (seed_row (Some service_id) None None) fresh) /\
           Z.of_nat (length (List.filter (of_service service_id) (w_rules w'))) <= MAX_ALERT_RULES_PER_SERVICE
  end.

Lemma missing_fresh service_id rules seeds :
  size (missing_metrics (List.filter (of_service service_id) rules) seeds) = length (fresh_seeds (service_metrics service_id rules) seeds).
Proof.
  rewrite fresh_count. unfold missing_metrics. do 3 f_equal. apply List.filter_ext. intros s. f_equal. unfold service_metrics.
  induction (List.filter (of_service service_id) rules) as [|r l IH]; [done|]. cbn. by rewrite IH, String.eqb_sym.
Qed.

Lemma numbered_service service_id next l :
  List.filter (of_service service_id) (numbered next (map (seed_row (Some service_id) None None) l)) = numbered next (map (seed_row (Some service_id) None None) l).
Proof. revert next. induction l as [|s l IH]; intros next; [done|]. cbn. unfold of_service at 1. cbn. rewrite bool_decide_true by done. by rewrite IH. Qed.

Lemma numbered_length next l : length (numbered next l) = length l.
Proof. revert next. induction l as [|r l IH]; intros next; [done|]. cbn. by rewrite IH. Qed.

Lemma runs_execute {A} ag (l : list A) k Q w :
  ag_epoch ag = w_epoch w -> (forall w', later w w' -> runs ag k Q w') -> runs ag (execute_all l k) Q w.
Proof.
  revert w. induction l as [|x l IH]; intros w Hag Hk; cbn [execute_all]; [apply Hk, later_refl|]. unfold try_seed, call. cbn [prog_bind].
  apply runs_step. intros w1 c L Hc. pose proof (later_epoch _ _ _ L Hag) as Hag1. answered Hag1 Hc. apply IH; [done|]. intros w' L'. apply Hk.
  by eapply later_trans.
Qed.

(** Seeding a service adds one rule for each metric of its engine that has none, the first of the
    defaults for that metric, leaves every other rule alone, and either all of them fit into the limit
    or nothing changes. *)
Theorem seed_default_rules_exact ag service_id engine w :
  ag_epoch ag = w_epoch w -> runs ag (seed_default_rules service_id engine) (seeded service_id engine w) w.
Proof.
  intros Hag. unfold seed_default_rules, seeded. destruct (engine_seeds engine) as [seeds|]; [|by cbn; split; [|apply later_refl]].
  unfold try_seed, call. cbn [prog_bind]. apply runs_step. intros w1 c1 L1 Hc1. pose proof (later_epoch _ _ _ L1 Hag) as Hag1. answered Hag1 Hc1.
  apply runs_step. intros w2 c2 L2 Hc2. pose proof (later_epoch ag _ _ L2 Hag1) as Hag2. answered Hag2 Hc2.
  assert (later w w2) as L by by eapply later_trans. assert (w_services w2 = w_services w) as -> by (destruct L as [t ->]; done).
  destruct (List.find _ (w_services w)) as [service|].
  2: { apply runs_step. intros w3 c3 L3 Hc3. pose proof (later_epoch ag _ _ L3 Hag2) as Hag3. answered Hag3 Hc3. cbn. split; [done|]. by eapply later_trans. }
  apply runs_step. intros w3 c3 L3 Hc3. pose proof (later_epoch ag _ _ L3 Hag2) as Hag3. answered Hag3 Hc3.
  apply runs_step. intros w4 c4 L4 Hc4. pose proof (later_epoch ag _ _ L4 Hag3) as Hag4. answered Hag4 Hc4.
  assert (later w w4) as L' by (do 2 (eapply later_trans; [|eassumption]); done).
  assert (w_rules w3 = w_rules w4 /\ w_rules w4 = w_rules w) as [-> ->]
    by (split; [destruct L4 as [t ->]; done|destruct L' as [t ->]; done]).
  rewrite missing_fresh. cbv zeta. destruct (Z.ltb_spec MAX_ALERT_RULES_PER_SERVICE
    (Z.of_nat (length (List.filter (of_service service_id) (w_rules w))) + Z.of_nat (length (fresh_seeds (service_metrics service_id (w_rules w)) seeds)))).
  { apply runs_step. intros w5 c5 L5 Hc5. pose proof (later_epoch ag _ _ L5 Hag4) as Hag5. answered Hag5 Hc5. cbn. split; [done|]. by eapply later_trans. }
  apply runs_execute; [done|]. intros w5 L5. apply runs_step. intros w6 c6 L6 Hc6.
  assert (later w w6) as L6' by (do 2 (eapply later_trans; [|eassumption]); done). pose proof (later_epoch ag _ _ L6' Hag) as Hag6. answered Hag6 Hc6.
  cbn [AlarmSpec.runs]. rewrite insert_seeds_exact. assert (w_rules w6 = w_rules w /\ w_next_rule w6 = w_next_rule w) as [-> ->] by (destruct L6' as [t ->]; done).
  split_and!; [done|done|]. rewrite List.filter_app, length_app, numbered_service, numbered_length, length_map. lia.
Qed.
End Evaluation.

(** ** Witnesses *)

Definition evaluator0 : Agent := {| ag_epoch := 0; ag_evaluator := true |}.

Lemma one_rule_unique : NoDup (map ru_id (w_rules one_rule_world)).
Proof. apply NoDup_singleton. Qed.

Lemma evaluate_rule_exact_witness :
  runs plain_keys evaluator0 (evaluate_rule alarm_service_new cpu_rule (ch_latest busy_cpu) (None, None, None, None))
    (fun _ w' => judged alarm_service_new cpu_rule (observe cpu_rule (ch_latest busy_cpu)) (None, None, None, None) one_rule_world w') one_rule_world.
Proof.
  exact (evaluate_rule_exact plain_keys alarm_service_new evaluator0 cpu_rule (ch_latest busy_cpu) (None, None, None, None) one_rule_world
    eq_refl one_rule_unique).
Defined.

Definition rule_alarm (id : Z) (type : string) (project : option Z) (rule_id : Z) : Alarm :=
  sample_alarm id project type "firing" (Some (JObject [("rule_id"%string, JInt rule_id)])).

#[local] Abbreviation restart_world := (alarms_world [] [rule_alarm 4 "node_metric_threshold" None 1; rule_alarm 5 "otel_rate_limited" None 2]).

Lemma load_firing_exact_witness :
  runs plain_keys evaluator0 load_firing_alarms_from_db (fun r w' => r = Some () /\ w_alarms w' = w_alarms restart_world /\
    (forall a i, a ∈ w_alarms restart_world -> restorable_alarm a i -> is_Some (w_firing_alarms w' !! i)) /\
    (forall i aid, w_firing_alarms w' !! i = Some aid -> exists a, a ∈ w_alarms restart_world /\ al_id a = aid /\ restorable_alarm a i) /\
    (forall a i, a ∈ w_alarms restart_world -> NoDup (map al_id (w_alarms restart_world)) ->
       al_alarm_type a = alarm_type_str OtelRateLimited -> w_firing_alarms w' !! i <> Some (al_id a))) restart_world.
Proof. exact (load_firing_exact plain_keys evaluator0 restart_world eq_refl eq_refl). Defined.

Lemma seed_default_rules_exact_witness :
  runs plain_keys requester (seed_default_rules 3 "Postgres") (seeded 3 "Postgres" (alarms_world [] [])) (alarms_world [] []).
Proof. exact (seed_default_rules_exact plain_keys requester 3 "Postgres" (alarms_world [] []) eq_refl). Defined.

(** Of the six defaults of a database, four. *)
Example postgres_gets_four :
  map rs_name (fresh_seeds [] postgres_default_seeds) =
  ["High active connections (warning)"; "Low cache hit ratio"; "Replication replay lag (warning)"; "Deadlocks detected"]%string.
Proof. vm_compute. done. Qed.

(** ** A silence that does not end a window *)

Definition with_silence (until : option Z) (enabled : bool) (r : Rule) : Rule :=
  {| ru_id := ru_id r; ru_service_id := ru_service_id r; ru_deployment_id := ru_deployment_id r; ru_node_id := ru_node_id r;
     ru_name := ru_name r; ru_metric_name := ru_metric_name r; ru_threshold := ru_threshold r; ru_comparator := ru_comparator r;
     ru_severity := ru_severity r; ru_for_duration_secs := ru_for_duration_secs r; ru_enabled := enabled;
     ru_silenced_until := until; ru_breach_started_at := ru_breach_started_at r |}.

(** The rule beside the defaults of the node, which are switched off; the last of them as given. *)
Definition quiet_world (last_enabled : bool) : World :=
  alarms_world
    (cpu_rule :: map (fun p => with_rule_id p.1 (with_silence None (last_enabled && (p.1 =? 6)) (seed_row None None (Some 0) p.2)))
       (zip [2; 3; 4; 5; 6] (proxy_default_seeds ++ otel_rate_limit_default_seeds ++ node_fd_default_seeds))) [].

(** Breached at the start, silenced from the thirtieth to the hundredth second, evaluated once within
    the silence and once after it; a cycle takes as many turns as it has accesses. *)
Definition silence_events (first second : nat) : list (@Event Choice Agent Env Call) :=
  [Spawn evaluator0 (Evaluator 3)] ++ replicate first (Turn 0 busy_cpu) ++
  [Happen (Passes (30 * 10 ^ 9)); Happen (EditRule (with_silence (Some (100 * 10 ^ 9)) true cpu_rule))] ++
  replicate second (Turn 0 busy_cpu) ++ [Happen (Passes (101 * 10 ^ 9))] ++ replicate 80 (Turn 0 busy_cpu).

Definition run_from (w : World) (evs : list (@Event Choice Agent Env Call)) : World :=
  sy_world (exec (perform plain_keys) happen (body plain_groups alarm_service_new) {| sy_world := w; sy_tasks := [] |} evs).

(** A silence ends the window of a rule only if another rule is evaluated meanwhile: a cycle that
    finds no rule to evaluate leaves the windows in memory, and the alarm fires on the first evaluation
    after the silence, on the clock from before it.  With one more rule the breach is observed anew. *)
Theorem silence_keeps_window :
  w_log (run_from (quiet_world false) (silence_events 28 2)) = [Fired 100 1 60 101000000000; Claimed 1 0] /\
  w_log (run_from (quiet_world true) (silence_events 31 8)) =
    [Claimed 1 101000000000; Cleared 6; Cleared 6; Cleared 1; Claimed 1 0; Cleared 6].
Proof. vm_compute. done. Qed.

(** ** An alarm of another evaluator *)

(** The OpenTelemetry evaluator fires alarms of type [deployment_metric_threshold] whose [rule_id] is
    one of its own table. *)
Definition foreign_alarm : Alarm := rule_alarm 50 "deployment_metric_threshold" (Some 5) 1.

Definition latency_rule : Rule :=
  {| ru_id := 1; ru_service_id := None; ru_deployment_id := Some 8; ru_node_id := None; ru_name := "slow"; ru_metric_name := "app.latency";
     ru_threshold := f64_int 100; ru_comparator := ">"; ru_severity := "warning"; ru_for_duration_secs := 60; ru_enabled := true;
     ru_silenced_until := None; ru_breach_started_at := None |}.

Definition deployed_world (alarms : list Alarm) : World :=
  {| w_rules := [latency_rule]; w_next_rule := 100; w_alarms := alarms; w_next_alarm := 100; w_deployments := {[ 8 := (5, 2) ]};
     w_project_services := []; w_services := []; w_projects := ∅; w_environments := ∅; w_jobs := []; w_sent := []; w_now := 0;
     w_epoch := 0; w_started := false; w_breach_start := ∅; w_firing_alarms := ∅; w_log := [] |}.

Definition fast : Choice := {| ch_fault := Fine; ch_latest := {[ "app.latency"%string := f64_int 3 ]} |}.

