(* ===== verification/Hostnames.v ===== *)
(** * Generated public hostnames

    [crates/temps-core/src/public_hostname.rs] and [match_strategy] of [public_hostname_resolver.rs]: the
    hostnames of environments, of the public services of a Compose stack and of deployments below the
    preview domain, with [compose_public_route_labels] of [crates/temps-entities/src/preset.rs].  A string
    is its UTF-8 bytes; SHA-256 is a variable.

    [service_host_apart]: the name of a service is never that of an environment or a deployment.
    [service_labels_apart]: two services share a label only by a collision of hashes, as long as the first
    half of the name is short; [truncated_label_forged] computes what happens when it is long. *)

From stdpp Require Import pretty.
From S2P Require Import Prelude.

(** ** What is used of [str] *)

Definition code (c : ascii) : nat := Ascii.nat_of_ascii c.

Definition is_upper (c : ascii) : bool := (65 <=? code c) && (code c <=? 90).
Definition is_alphanumeric (c : ascii) : bool :=
  ((48 <=? code c) && (code c <=? 57)) || is_upper c || ((97 <=? code c) && (code c <=? 122)).
Definition lower_char (c : ascii) : ascii := if is_upper c then Ascii.ascii_of_nat (code c + 32) else c.

(** [str::to_ascii_lowercase]. *)
Fixpoint lowercase (s : string) : string :=
  match s with
  | EmptyString => EmptyString
  | String c s => String (lower_char c) (lowercase s)
  end.

(** [str::eq_ignore_ascii_case]. *)
Definition eq_ignore_case (s t : string) : bool := String.eqb (lowercase s) (lowercase t).

(** How many bytes the white space takes [s] begins with, 0 when it begins with something else. *)
Definition space_width (s : string) : nat :=
  match map code (String.list_ascii_of_string (String.substring 0 3 s)) with
  | c :: rest =>
      if ((9 <=? c) && (c <=? 13)) || (c =? 32) then 1
      else match rest with
           | d :: rest =>
               if (c =? 0xC2) && ((d =? 0x85) || (d =? 0xA0)) then 2
               else match rest with
                    | e :: _ =>
                        if ((c =? 0xE1) && (d =? 0x9A) && (e =? 0x80))
                           || ((c =? 0xE2) && (d =? 0x80) && (((0x80 <=? e) && (e <=? 0x8A)) || (e =? 0xA8) || (e =? 0xA9) || (e =? 0xAF)))
                           || ((c =? 0xE2) && (d =? 0x81) && (e =? 0x9F))
                           || ((c =? 0xE3) && (d =? 0x80) && (e =? 0x80))
                        then 3 else 0
                    | [] => 0
                    end
           | [] => 0
           end
  | [] => 0
  end.

(** [str::trim]. *)
Fixpoint trim_start_fuel (fuel : nat) (s : string) : string :=
  match fuel, space_width s with
  | S fuel, S n => trim_start_fuel fuel (str_drop (S n) s)
  | _, _ => s
  end.
Definition trim_start (s : string) : string := trim_start_fuel (String.length s) s.
Fixpoint trim_end (s : string) : string :=
  match s with
  | EmptyString => EmptyString
  | String c rest => if String.eqb (trim_start s) "" then EmptyString else String c (trim_end rest)
  end.
Definition trim (s : string) : string := trim_end (trim_start s).

(** [str::trim_end_matches(c)], [trim_start_matches(c)] and [trim_start_matches("*.")]. *)
Fixpoint trim_end_char (c : ascii) (s : string) : string :=
  match s with
  | EmptyString => EmptyString
  | String a s => match trim_end_char c s with
                  | EmptyString => if Ascii.eqb a c then EmptyString else String a EmptyString
                  | t => String a t
                  end
  end.
Fixpoint trim_start_char (c : ascii) (s : string) : string :=
  match s with
  | EmptyString => EmptyString
  | String a t => if Ascii.eqb a c then trim_start_char c t else s
  end.
Fixpoint trim_stars_fuel (fuel : nat) (s : string) : string :=
  match fuel, strip_prefix "*." s with
  | S fuel, Some t => trim_stars_fuel fuel t
  | _, _ => s
  end.
Definition trim_stars (s : string) : string := trim_stars_fuel (String.length s) s.

(** [str::strip_suffix] and [ends_with]. *)
Definition strip_suffix (suffix s : string) : option string :=
  let n := String.length s - String.length suffix in
  if (String.length suffix <=? String.length s) && String.eqb (str_drop n s) suffix then Some (str_take n s) else None.
Definition ends_with (suffix s : string) : bool :=
  match strip_suffix suffix s with Some _ => true | None => false end.

Definition hyphen : ascii := "-"%char.

(** ** Labels *)

Definition DEFAULT_BASE_DOMAIN : string := "localho.st".
Definition DNS_LABEL_MAX_LEN : nat := 63.
Definition SHORT_HASH_LEN : nat := 8.

(** The loop of [sanitize_label]. *)
Fixpoint sanitize_chars (previous_hyphen : bool) (label : string) : string :=
  match label with
  | EmptyString => EmptyString
  | String ch label =>
      let lower := lower_char ch in
      if is_alphanumeric lower then String lower (sanitize_chars false label)
      else if negb previous_hyphen then String hyphen (sanitize_chars true label)
      else sanitize_chars previous_hyphen label
  end.

Definition sanitize_label (label : string) : string :=
  let trimmed := trim_end_char hyphen (trim_start_char hyphen (sanitize_chars false label)) in
  if String.eqb trimmed "" then "x" else trimmed.

Definition normalize_base_domain (preview_domain : string) : string :=
  let trimmed := lowercase (trim_end_char dot (trim_stars (trim preview_domain))) in
  if String.eqb trimmed "" then DEFAULT_BASE_DOMAIN else trimmed.

(** [base_domain]. *)
Definition base_domain (preview_domain : string) : string := normalize_base_domain preview_domain.

Inductive PublicHostnameStrategy := Standard | Flat.

#[export] Instance strategy_eq_dec : EqDecision PublicHostnameStrategy.
Proof. solve_decision. Defined.

Definition as_db_str (s : PublicHostnameStrategy) : string :=
  match s with Standard => "standard" | Flat => "flat" end.
Definition from_db_str (value : string) : PublicHostnameStrategy :=
  if String.eqb (lowercase (trim value)) "flat" then Flat else Standard.
Definition force_single_label (s : PublicHostnameStrategy) : bool :=
  match s with Flat => true | Standard => false end.

(** [match_strategy] goes through the entries of the map in some order. *)
Definition matches_domain (base domain : string) : bool :=
  String.eqb base domain || ends_with (String.append "." domain) base.

Definition better_match (base : string) (best : option (nat * PublicHostnameStrategy))
    (entry : string * PublicHostnameStrategy) : option (nat * PublicHostnameStrategy) :=
  let domain := lowercase entry.1 in
  if matches_domain base domain then
    let len := String.length domain in
    if match best with Some (best_len, _) => best_len <? len | None => true end then Some (len, entry.2) else best
  else best.

Definition match_strategy (entries : list (string * PublicHostnameStrategy)) (preview_domain : string)
    : PublicHostnameStrategy :=
  let base := base_domain preview_domain in
  match fold_left (better_match base) entries None with
  | Some (_, s) => s
  | None => Standard
  end.

Record ComposePublicPort := {
  pp_service : string; pp_port : Z; pp_published : option Z; pp_health_check_path : option string }.

(** [u16] and [i32] as [format!] writes them. *)
Definition decimal (n : Z) : string := pretty n.

(** [compose_public_route_labels]: [seen] is the set of services so far. *)
Fixpoint route_labels (seen : gset string) (public_ports : list ComposePublicPort) : list string :=
  match public_ports with
  | [] => []
  | route :: rest =>
      (if bool_decide (pp_service route ∈ seen)
       then String.append (pp_service route) (String hyphen (decimal (pp_port route)))
       else pp_service route)
      :: route_labels ({[pp_service route]} ∪ seen) rest
  end.

Definition compose_public_route_labels (public_ports : list ComposePublicPort) : list string :=
  route_labels ∅ public_ports.

Section Names.
(** The hexadecimal digits of the SHA-256 of a text. *)
Context (sha256_hex : string -> string).

Definition short_hash (seed : string) : string := str_take SHORT_HASH_LEN (sha256_hex seed).

Definition dns_label (label hash_seed : string) : string :=
  let sanitized := sanitize_label label in
  if String.length sanitized <=? DNS_LABEL_MAX_LEN then sanitized
  else
    let suffix := String hyphen (short_hash hash_seed) in
    let max_prefix_len := DNS_LABEL_MAX_LEN - String.length suffix in
    let prefix := trim_end_char hyphen (str_take max_prefix_len sanitized) in
    if String.eqb prefix "" then short_hash hash_seed else String.append prefix suffix.

Definition namespaced_service_label (first second : string) : string :=
  let combined := String.append (sanitize_label first) (String.append "--" (sanitize_label second)) in
  if String.length combined <=? DNS_LABEL_MAX_LEN then combined
  else
    let suffix := String.append "--" (short_hash combined) in
    let max_prefix_len := DNS_LABEL_MAX_LEN - String.length suffix in
    let prefix := trim_end_char hyphen (str_take max_prefix_len combined) in
    if String.eqb prefix "" then short_hash combined else String.append prefix suffix.

Definition normalize_hostname (raw base_domain : string) (force_single_label : bool) : string :=
  let host := lowercase (trim_end_char dot (trim_stars (trim raw))) in
  let base_domain := normalize_base_domain base_domain in
  let suffix := String dot base_domain in
  let relative :=
    if String.eqb host base_domain then ""
    else match strip_suffix suffix host with Some relative => relative | None => host end in
  let raw_labels := List.filter (fun label => negb (String.eqb label "")) (split_on dot relative) in
  match raw_labels with
  | [] => base_domain
  | _ =>
      let labels :=
        if force_single_label then [dns_label (join "-" raw_labels) relative]
        else map (fun label => dns_label label label) raw_labels in
      String.append (join "." labels) (String dot base_domain)
  end.

Definition environment_hostname (s : PublicHostnameStrategy) (preview_domain environment : string) : string :=
  let base := normalize_base_domain preview_domain in
  normalize_hostname (String.append environment (String dot base)) base (force_single_label s).

Definition service_hostname (s : PublicHostnameStrategy) (preview_domain environment service : string) : string :=
  let base := normalize_base_domain preview_domain in
  let label := match s with
               | Standard => namespaced_service_label service environment
               | Flat => namespaced_service_label environment service
               end in
  String.append label (String dot base).

Definition deployment_hostname (s : PublicHostnameStrategy) (preview_domain deployment : string) : string :=
  let base := normalize_base_domain preview_domain in
  normalize_hostname (String.append deployment (String dot base)) base (force_single_label s).

Definition project_deployment_hostname (s : PublicHostnameStrategy) (preview_domain project environment deployment : string)
    : string :=
  let base := normalize_base_domain preview_domain in
  normalize_hostname
    (String.append project (String hyphen (String.append environment (String hyphen (String.append deployment (String dot base))))))
    base (force_single_label s).
End Names.

(** ** Texts of labels *)

(** What a label is made of: lower case letters, digits and hyphens. *)
Definition label_char (c : ascii) : bool := (is_alphanumeric c && negb (is_upper c)) || Ascii.eqb c hyphen.

Fixpoint all_chars (p : ascii -> bool) (s : string) : bool :=
  match s with EmptyString => true | String c s => p c && all_chars p s end.

(** Two hyphens in a row. *)
Fixpoint has_dashes (s : string) : bool :=
  match s with
  | String a t => (Ascii.eqb a hyphen && match t with String b _ => Ascii.eqb b hyphen | EmptyString => false end) || has_dashes t
  | EmptyString => false
  end.

Definition clean (s : string) : Prop :=
  s <> EmptyString /\ all_chars label_char s = true /\ has_dashes s = false /\
  trim_start_char hyphen s = s /\ trim_end_char hyphen s = s.

Lemma all_chars_app p s t : all_chars p (String.append s t) = all_chars p s && all_chars p t.
Proof. induction s as [|c s IH]; cbn; [done|]. by rewrite IH, andb_assoc. Qed.

Lemma has_dashes_app s t : has_dashes (String.append s t) = false -> has_dashes s = false /\ has_dashes t = false.
Proof.
  induction s as [|a s IH]; cbn; [done|]. intros [Ha (Hs & Ht)%IH]%orb_false_elim. split; [|done].
  rewrite Hs, orb_false_r. destruct s; [by rewrite andb_false_r|done].
Qed.

Lemma has_dashes_mid s t : has_dashes (String.append s (String.append "--" t)) = true.
Proof. induction s as [|a s IH]; cbn; [done|]. cbn in IH. by rewrite IH, orb_true_r. Qed.

Lemma trim_end_rest c s : exists t, s = String.append (trim_end_char c s) t /\ all_chars (fun a => Ascii.eqb a c) t = true.
Proof.
  induction s as [|a s (t & Hs & Ht)]; cbn; [by exists EmptyString|].
  destruct (trim_end_char c s) as [|b u]; [destruct (Ascii.eqb_spec a c) as [->|]|].
  - exists (String c t). cbn. rewrite Ascii.eqb_refl. split; [by rewrite Hs|done].
  - exists t. split; [by rewrite Hs|done].
  - exists t. split; [by rewrite Hs|done].
Qed.

Lemma trim_start_rest c s : exists t, s = String.append t (trim_start_char c s) /\ all_chars (fun a => Ascii.eqb a c) t = true.
Proof.
  induction s as [|a s (t & Hs & Ht)]; cbn; [by exists EmptyString|]. destruct (Ascii.eqb_spec a c) as [->|].
  - exists (String c t). cbn. by rewrite Ascii.eqb_refl, <- Hs.
  - by exists EmptyString.
Qed.

Lemma trim_end_idem c s : trim_end_char c (trim_end_char c s) = trim_end_char c s.
Proof.
  induction s as [|a s IH]; cbn; [done|]. destruct (trim_end_char c s) as [|b u] eqn:Hs.
  - destruct (Ascii.eqb a c) eqn:Ha; cbn; [done|]. by rewrite Ha.
  - cbn [trim_end_char] in *. by rewrite IH.
Qed.

Lemma trim_start_idem c s : trim_start_char c (trim_start_char c s) = trim_start_char c s.
Proof. induction s as [|a s IH]; cbn; [done|]. destruct (Ascii.eqb a c) eqn:Ha; [done|]. cbn. by rewrite Ha. Qed.

Lemma trim_start_fix c a s : trim_start_char c (String a s) = String a s <-> Ascii.eqb a c = false.
Proof.
  cbn. destruct (Ascii.eqb a c) eqn:Ha; [|done]. split; [|done]. intros Heq.
  destruct (trim_start_rest c s) as (t & Hs & _). apply (f_equal String.length) in Hs, Heq. rewrite str_length_app in Hs. cbn in Heq. lia.
Qed.

(** The trimmed end of a text that begins with something else begins with it, too. *)
Lemma trim_end_start c s : s <> EmptyString -> trim_start_char c s = s ->
  trim_end_char c s <> EmptyString /\ trim_start_char c (trim_end_char c s) = trim_end_char c s.
Proof.
  destruct s as [|a s]; [done|]. intros _ Ha%trim_start_fix. cbn. destruct (trim_end_char c s); [rewrite Ha|];
    (split; [done|]; by apply trim_start_fix).
Qed.

Lemma str_take_drop n s : s = String.append (str_take n s) (str_drop n s).
Proof. revert s. induction n as [|n IH]; intros [|a s]; try done. cbn. f_equal. apply IH. Qed.

Lemma str_take_length n s : String.length (str_take n s) = Nat.min n (String.length s).
Proof. revert s. induction n as [|n IH]; intros [|a s]; cbn; [done..|]. by rewrite IH. Qed.

Lemma str_take_app_le n s t : n <= String.length s -> str_take n (String.append s t) = str_take n s.
Proof. revert s. induction n as [|n IH]; intros [|a s]; cbn; intros; try lia; [by destruct t|done|]. f_equal. apply IH. lia. Qed.

Lemma str_take_app_ge n s t : String.length s <= n -> str_take n (String.append s t) = String.append s (str_take (n - String.length s) t).
Proof. revert n. induction s as [|a s IH]; intros n; cbn; [intros _; by rewrite Nat.sub_0_r|]. intros Hn. destruct n as [|n]; [lia|]. cbn. f_equal. apply IH. lia. Qed.

(** ** Labels are clean *)

Lemma lower_label c : is_alphanumeric (lower_char c) = true -> label_char (lower_char c) = true /\ Ascii.eqb (lower_char c) hyphen = false.
Proof. destruct c as [[] [] [] [] [] [] [] []]; vm_compute; by intros. Qed.

Lemma lower_label_id c : label_char c = true -> lower_char c = c.
Proof. destruct c as [[] [] [] [] [] [] [] []]; vm_compute; by intros. Qed.

Lemma label_alphanumeric c : label_char c = true -> is_alphanumeric c = negb (Ascii.eqb c hyphen).
Proof. destruct c as [[] [] [] [] [] [] [] []]; vm_compute; by intros. Qed.

Lemma sanitize_chars_ok b s :
  all_chars label_char (sanitize_chars b s) = true /\ has_dashes (sanitize_chars b s) = false /\
  (b = true -> match sanitize_chars b s with String a _ => Ascii.eqb a hyphen = false | EmptyString => True end).
Proof.
  revert b. induction s as [|c s IH]; intros b; cbn [sanitize_chars]; [done|].
  destruct (is_alphanumeric (lower_char c)) eqn:Hc.
  - destruct (lower_label c Hc) as (Hl & Hh). destruct (IH false) as (Ha & Hd & _). cbn. by rewrite Hl, Ha, Hh, Hd.
  - destruct b; cbn [negb]; [apply IH|]. destruct (IH true) as (Ha & Hd & Hs). specialize (Hs eq_refl). cbn. rewrite Ha, Hd.
    split_and!; [done| |done]. destruct (sanitize_chars true s); [done|]. by rewrite Hs.
Qed.

Lemma sanitize_label_clean s : clean (sanitize_label s).
Proof.
  unfold sanitize_label. destruct (String.eqb_spec (trim_end_char hyphen (trim_start_char hyphen (sanitize_chars false s))) "") as [_|Hne].
  { by split_and!. }
  destruct (sanitize_chars_ok false s) as (Ha & Hd & _). destruct (trim_start_rest hyphen (sanitize_chars false s)) as (t & Ht & _).
  set (u := trim_start_char hyphen (sanitize_chars false s)) in *. destruct (trim_end_rest hyphen u) as (v & Hv & _).
  rewrite Ht, all_chars_app in Ha. apply andb_prop in Ha as [_ Ha]. rewrite Ht in Hd. apply has_dashes_app in Hd as [_ Hd].
  rewrite Hv, all_chars_app in Ha. apply andb_prop in Ha as [Ha _]. rewrite Hv in Hd. apply has_dashes_app in Hd as [Hd _].
  assert (u <> EmptyString) as Hu by (intros Hu; by rewrite Hu in Hne). pose proof (trim_start_idem hyphen (sanitize_chars false s)) as Hi. fold u in Hi.
  destruct (trim_end_start hyphen u Hu Hi). split_and!; [done..|apply trim_end_idem].
Qed.

(** Sanitizing keeps what is clean. *)
Lemma sanitize_chars_clean b s :
  all_chars label_char s = true -> has_dashes s = false ->
  (b = true -> match s with String a _ => Ascii.eqb a hyphen = false | EmptyString => True end) -> sanitize_chars b s = s.
Proof.
  revert b. induction s as [|c s IH]; intros b; cbn; [done|]. intros [Hc Ha]%andb_prop [Hh Hd]%orb_false_elim Hb.
  rewrite (lower_label_id c Hc), (label_alphanumeric c Hc). destruct (Ascii.eqb_spec c hyphen) as [->|]; cbn [negb].
  - destruct b; [by specialize (Hb eq_refl)|]. cbn. f_equal. apply IH; [done..|]. intros _. by destruct s.
  - f_equal. by apply IH.
Qed.

Lemma sanitize_clean s : clean s -> sanitize_label s = s.
Proof.
  intros (Hne & Ha & Hd & Hs & He). unfold sanitize_label. rewrite sanitize_chars_clean, Hs, He by done. by destruct (String.eqb_spec s "").
Qed.

Lemma clean_no_dot s : all_chars label_char s = true -> contains_char dot s = false.
Proof.
  induction s as [|c s IH]; cbn; [done|]. intros [Hc Hs]%andb_prop. rewrite IH by done.
  by destruct (Ascii.eqb_spec c dot) as [->|].
Qed.

(** A trimmed prefix of a clean label is one. *)
Lemma clean_prefix n s : clean s -> 0 < n -> clean (trim_end_char hyphen (str_take n s)).
Proof.
  intros (Hne & Ha & Hd & Hs & He) Hn. destruct (trim_end_rest hyphen (str_take n s)) as (t & Ht & _).
  pose proof (str_take_drop n s) as Hsp. set (u := str_take n s) in *.
  assert (u <> EmptyString /\ trim_start_char hyphen u = u) as [Hu Hus].
  { destruct s as [|a s]; [done|]. apply trim_start_fix in Hs. subst u. destruct n as [|n]; [lia|]. cbn [str_take].
    split; [done|]. by apply trim_start_fix. }
  destruct (trim_end_start hyphen u Hu Hus). rewrite Hsp, all_chars_app in Ha. apply andb_prop in Ha as [Ha _].
  rewrite Ht, all_chars_app in Ha. apply andb_prop in Ha as [Ha _]. rewrite Hsp in Hd. apply has_dashes_app in Hd as [Hd _].
  rewrite Ht in Hd. apply has_dashes_app in Hd as [Hd _]. split_and!; [done..|apply trim_end_idem].
Qed.

(** The part before the first two hyphens in a row and the part behind them. *)
Fixpoint cut_dashes (s : string) : option (string * string) :=
  match s with
  | String a t =>
      match t with
      | String b u => if Ascii.eqb a hyphen && Ascii.eqb b hyphen then Some (EmptyString, u)
                      else '(x, y) ← cut_dashes t; Some (String a x, y)
      | EmptyString => None
      end
  | EmptyString => None
  end.

Lemma trim_end_tail c a s : trim_end_char c (String a s) = String a s -> s <> EmptyString -> trim_end_char c s = s.
Proof. cbn. destruct (trim_end_char c s), (Ascii.eqb a c); cbn; congruence. Qed.

Lemma cut_dashes_app s t : has_dashes s = false -> trim_end_char hyphen s = s -> cut_dashes (String.append s (String.append "--" t)) = Some (s, t).
Proof.
  induction s as [|a s IH]; [done|]. cbn [has_dashes]. intros [Ha Hd]%orb_false_elim He.
  destruct s as [|b s].
  - cbn in He |- *. destruct (Ascii.eqb a hyphen); [done|]. done.
  - apply trim_end_tail in He; [|done]. specialize (IH Hd He). change (String.append (String a (String b s)) (String.append "--" t))
      with (String a (String b (String.append s (String.append "--" t)))).
    change (String.append (String b s) (String.append "--" t)) with (String b (String.append s (String.append "--" t))) in IH.
    cbn [cut_dashes] in IH |- *. rewrite Ha. by rewrite IH.
Qed.

Lemma no_dashes_join s t : has_dashes s = false -> trim_end_char hyphen s = s -> has_dashes t = false -> trim_start_char hyphen t = t ->
  has_dashes (String.append s (String hyphen t)) = false.
Proof.
  intros Hs He Ht Hst. induction s as [|a s IH].
  - cbn. rewrite Ht, orb_false_r. destruct t as [|b t]; [done|]. by apply trim_start_fix in Hst.
  - cbn in Hs. apply orb_false_elim in Hs as [Ha Hs]. destruct s as [|b s].
    + cbn in He |- *. rewrite Ht, orb_false_r. destruct (Ascii.eqb a hyphen); [done|]. destruct t as [|c t]; [done|]. by apply trim_start_fix in Hst as ->.
    + apply trim_end_tail in He; [|done]. specialize (IH Hs He). cbn in Ha, IH |- *. by rewrite Ha, IH.
Qed.

Lemma trim_end_app c s t : trim_end_char c t <> EmptyString -> trim_end_char c (String.append s t) = String.append s (trim_end_char c t).
Proof. intros Ht. induction s as [|a s IH]; cbn; [done|]. rewrite IH. destruct s; cbn; [by destruct (trim_end_char c t)|done]. Qed.

Lemma trim_end_length c s : String.length (trim_end_char c s) <= String.length s.
Proof. destruct (trim_end_rest c s) as (t & Hs & _). rewrite Hs at 2. rewrite str_length_app. lia. Qed.

(** ** Names of services, environments and deployments *)

(** A digit of a hash. *)
Definition is_hex (c : ascii) : bool := ((48 <=? code c) && (code c <=? 57)) || ((97 <=? code c) && (code c <=? 102)).

Class Sha256 (sha256_hex : string -> string) := {
  sha256_length s : String.length (sha256_hex s) = 64;
  sha256_digits s : all_chars is_hex (sha256_hex s) = true }.

Section Laws.
Context (sha256_hex : string -> string) `{Sha256 sha256_hex}.
#[local] Abbreviation short_hash := (short_hash sha256_hex).
#[local] Abbreviation dns_label := (dns_label sha256_hex).
#[local] Abbreviation namespaced_service_label := (namespaced_service_label sha256_hex).

Lemma short_hash_length s : String.length (short_hash s) = 8.
Proof. unfold Hostnames.short_hash, SHORT_HASH_LEN. by rewrite str_take_length, sha256_length. Qed.

Lemma hex_label c : is_hex c = true -> label_char c = true /\ Ascii.eqb c hyphen = false.
Proof. destruct c as [[] [] [] [] [] [] [] []]; vm_compute; by intros. Qed.

Lemma hex_clean s : s <> EmptyString -> all_chars is_hex s = true -> clean s.
Proof.
  intros Hne Ha. assert (all_chars label_char s = true /\ has_dashes s = false /\ trim_end_char hyphen s = s) as (? & ? & ?).
  { clear Hne. induction s as [|c s IH]; [done|]. cbn in Ha |- *. apply andb_prop in Ha as [[Hl Hc]%hex_label Ha].
    destruct (IH Ha) as (-> & -> & ->). rewrite Hl, Hc. by destruct s. }
  split_and!; try done. destruct s as [|c s]; [done|]. cbn in Ha. apply andb_prop in Ha as [[_ Hc]%hex_label _]. by apply trim_start_fix.
Qed.

Lemma short_hash_clean s : clean (short_hash s).
Proof.
  apply hex_clean; [intros Hs; pose proof (short_hash_length s) as Hl; by rewrite Hs in Hl|].
  pose proof (sha256_digits s) as Hd. rewrite (str_take_drop SHORT_HASH_LEN (sha256_hex s)), all_chars_app in Hd. by apply andb_prop in Hd as [].
Qed.

(** [namespaced_service_label] of clean names that fit. *)
Definition combined_label (first second : string) : string :=
  String.append (sanitize_label first) (String.append "--" (sanitize_label second)).

Lemma combined_length first second :
  String.length (combined_label first second) = String.length (sanitize_label first) + 2 + String.length (sanitize_label second).
Proof. unfold combined_label. rewrite !str_length_app. cbn. lia. Qed.

(** The two forms of a label. *)
Lemma service_label_cases first second :
  (String.length (combined_label first second) <= 63 /\ namespaced_service_label first second = combined_label first second) \/
  (63 < String.length (combined_label first second) /\
   namespaced_service_label first second =
     String.append (trim_end_char hyphen (str_take 53 (combined_label first second))) (String.append "--" (short_hash (combined_label first second)))).
Proof.
  unfold Hostnames.namespaced_service_label. fold (combined_label first second). change DNS_LABEL_MAX_LEN with 63.
  destruct (Nat.leb_spec (String.length (combined_label first second)) 63); [by left|]. right. split; [done|].
  rewrite str_length_app, short_hash_length. change (63 - (String.length "--" + 8)) with 53.
  destruct (String.eqb_spec (trim_end_char hyphen (str_take 53 (combined_label first second))) "") as [He|]; [|done]. exfalso.
  destruct (sanitize_label_clean first) as (Hne & _ & _ & Hs & _). unfold combined_label in He.
  destruct (sanitize_label first) as [|a s]; [done|]. apply trim_start_fix in Hs. cbn [String.append str_take] in He.
  cbn in He. destruct (trim_end_char _ _); [by rewrite Hs in He|done].
Qed.

Lemma service_label_dashes first second : has_dashes (namespaced_service_label first second) = true.
Proof. destruct (service_label_cases first second) as [[_ ->]|[_ ->]]; apply has_dashes_mid. Qed.

Lemma service_label_length first second : String.length (namespaced_service_label first second) <= 63.
Proof.
  destruct (service_label_cases first second) as [[? ->]|[_ ->]]; [done|]. rewrite !str_length_app, short_hash_length. cbn [String.length].
  pose proof (trim_end_length hyphen (str_take 53 (combined_label first second))). rewrite str_take_length in *. lia.
Qed.

Lemma combined_label_chars first second : all_chars label_char (combined_label first second) = true.
Proof.
  unfold combined_label. rewrite !all_chars_app. destruct (sanitize_label_clean first) as (_ & -> & _), (sanitize_label_clean second) as (_ & -> & _). done.
Qed.

Lemma service_label_chars first second : all_chars label_char (namespaced_service_label first second) = true.
Proof.
  pose proof (combined_label_chars first second) as Hc.
  destruct (service_label_cases first second) as [[_ ->]|[_ ->]]; [done|]. rewrite !all_chars_app.
  destruct (short_hash_clean (combined_label first second)) as (_ & -> & _). rewrite andb_true_r.
  destruct (trim_end_rest hyphen (str_take 53 (combined_label first second))) as (t & Ht & _).
  rewrite (str_take_drop 53 (combined_label first second)), Ht, !all_chars_app in Hc. by destruct (all_chars label_char (trim_end_char _ _)).
Qed.

Lemma dns_label_ok label seed :
  all_chars label_char (dns_label label seed) = true /\ has_dashes (dns_label label seed) = false /\
  String.length (dns_label label seed) <= 63.
Proof.
  unfold Hostnames.dns_label. change DNS_LABEL_MAX_LEN with 63. pose proof (sanitize_label_clean label) as Hc.
  destruct (Nat.leb_spec (String.length (sanitize_label label)) 63); [by destruct Hc as (_ & ? & ? & _)|].
  cbn [String.length]. rewrite short_hash_length. change (63 - 9) with 54.
  pose proof (clean_prefix 54 _ Hc ltac:(lia)) as (Hne & Ha & Hd & _ & He). destruct (short_hash_clean seed) as (_ & Hha & Hhd & Hhs & _).
  destruct (String.eqb_spec (trim_end_char hyphen (str_take 54 (sanitize_label label))) "") as [|_]; [done|].
  split_and!; [rewrite all_chars_app; cbn [all_chars]; by rewrite Ha, Hha|by apply no_dashes_join|].
  rewrite str_length_app. cbn [String.length]. rewrite short_hash_length. pose proof (trim_end_length hyphen (str_take 54 (sanitize_label label))).
  rewrite str_take_length in *. lia.
Qed.

(** A generated hostname other than that of a service is the base domain or has a first label without two
    hyphens in a row. *)
Lemma hostname_first_label raw base force :
  normalize_hostname sha256_hex raw base force = normalize_base_domain base \/
  exists label rest, split_on dot (normalize_hostname sha256_hex raw base force) = label :: rest /\ has_dashes label = false.
Proof.
  unfold normalize_hostname. set (labels := List.filter _ _). destruct labels as [|l ls] eqn:Hl; [by left|]. right.
  destruct force; cbn [map].
  - destruct (dns_label_ok (join "-" (l :: ls))
      (if String.eqb (lowercase (trim_end_char dot (trim_stars (trim raw)))) (normalize_base_domain base) then ""
       else match strip_suffix (String dot (normalize_base_domain base)) (lowercase (trim_end_char dot (trim_stars (trim raw)))) with
            | Some relative => relative | None => lowercase (trim_end_char dot (trim_stars (trim raw))) end)) as (Ha & Hd & _).
    eexists _, _. split; [|exact Hd]. cbn [join]. apply split_on_app_sep, clean_no_dot, Ha.
  - destruct (dns_label_ok l l) as (Ha & Hd & _). destruct ls as [|l' ls]; cbn [map].
    + eexists _, _. split; [|exact Hd]. cbn [join]. apply split_on_app_sep, clean_no_dot, Ha.
    + eexists _, _. split; [|exact Hd]. rewrite join_cons by done. rewrite str_app_assoc, str_app_assoc. cbn [String.append].
      apply split_on_app_sep, clean_no_dot, Ha.
Qed.

Lemma service_host_first_label first second base :
  split_on dot (String.append (namespaced_service_label first second) (String dot base)) = namespaced_service_label first second :: split_on dot base.
Proof. apply split_on_app_sep, clean_no_dot, service_label_chars. Qed.

(** C15: Below one preview domain, the hostname of a public Compose service is never the hostname of an
    environment or of a deployment, whatever the names and the strategies are. *)
Theorem service_host_apart s s' preview environment service name :
  normalize_base_domain (normalize_base_domain preview) = normalize_base_domain preview ->
  service_hostname sha256_hex s preview environment service <> environment_hostname sha256_hex s' preview name /\
  service_hostname sha256_hex s preview environment service <> deployment_hostname sha256_hex s' preview name.
Proof.
  intros Hb. set (base := normalize_base_domain preview) in *.
  assert (forall first second raw force,
    String.append (namespaced_service_label first second) (String dot base) <> normalize_hostname sha256_hex raw base force) as Hmain.
  { intros first second raw force Heq. destruct (hostname_first_label raw base force) as [Hbase|(label & rest & Hsplit & Hd)].
    - rewrite Hbase, Hb in Heq. apply (f_equal String.length) in Heq. rewrite str_length_app in Heq. cbn in Heq. lia.
    - rewrite <- Heq, service_host_first_label in Hsplit. simplify_eq. by rewrite service_label_dashes in Hd. }
  unfold service_hostname, environment_hostname, deployment_hostname. fold base. destruct s; split; apply Hmain.
Qed.

(** A label whose first half is short keeps both separators when it is cut. *)
Lemma truncated_label first second :
  String.length (sanitize_label first) <= 50 -> 63 < String.length (combined_label first second) ->
  exists middle, clean middle /\
    namespaced_service_label first second =
      String.append (sanitize_label first) (String.append "--" (String.append middle (String.append "--" (short_hash (combined_label first second))))).
Proof.
  intros Hlen Hlong. destruct (service_label_cases first second) as [[? _]|[_ ->]]; [lia|].
  pose proof (sanitize_label_clean second) as Hsec. set (n := 51 - String.length (sanitize_label first)).
  pose proof (clean_prefix n _ Hsec ltac:(lia)) as Hm. exists (trim_end_char hyphen (str_take n (sanitize_label second))). split; [done|].
  rewrite <- !str_app_assoc. do 2 f_equal. unfold combined_label. rewrite <- str_app_assoc.
  rewrite str_take_app_ge by (rewrite str_length_app; cbn; lia). rewrite str_length_app.
  change (String.length "--") with 2. replace (53 - (String.length (sanitize_label first) + 2)) with n by lia.
  apply trim_end_app. by destruct Hm.
Qed.

Lemma label_form first second :
  String.length (sanitize_label first) <= 50 ->
  exists rest, namespaced_service_label first second = String.append (sanitize_label first) (String.append "--" rest) /\
    ((rest = sanitize_label second) \/
     (63 < String.length (combined_label first second) /\
      exists middle, clean middle /\ rest = String.append middle (String.append "--" (short_hash (combined_label first second))))).
Proof.
  intros Hlen. destruct (service_label_cases first second) as [[Hl Heq]|[Hl _]]; [by eexists; split; [exact Heq|left]|].
  destruct (truncated_label first second Hlen Hl) as (m & Hm & Heq). eexists. split; [exact Heq|]. right. eauto.
Qed.

(** Two services whose first half has at most 50 characters share a label only when both halves agree,
    or when both labels were cut and their hashes collide. *)
Theorem service_labels_apart first second first' second' :
  String.length (sanitize_label first) <= 50 -> String.length (sanitize_label first') <= 50 ->
  namespaced_service_label first second = namespaced_service_label first' second' ->
  sanitize_label first = sanitize_label first' /\
  (sanitize_label second = sanitize_label second' \/
   (short_hash (combined_label first second) = short_hash (combined_label first' second') /\
    63 < String.length (combined_label first second) /\ 63 < String.length (combined_label first' second'))).
Proof.
  intros (t & Ht & Hc)%(label_form first second) (t' & Ht' & Hc')%(label_form first' second') Heq. rewrite Ht, Ht' in Heq.
  destruct (sanitize_label_clean first) as (_ & _ & Hd & _ & He), (sanitize_label_clean first') as (_ & _ & Hd' & _ & He').
  apply (f_equal cut_dashes) in Heq. rewrite !cut_dashes_app in Heq by done. injection Heq as Hf Hr. split; [done|].
  destruct (sanitize_label_clean second) as (_ & _ & Hs & _ & _), (sanitize_label_clean second') as (_ & _ & Hs' & _ & _).
  destruct Hc as [->|(Hl & m & (_ & _ & Hm & _ & Hme) & ->)], Hc' as [->|(Hl' & m' & (_ & _ & Hm' & _ & Hme') & ->)].
  - by left.
  - by rewrite Hr, has_dashes_mid in Hs.
  - by rewrite <- Hr, has_dashes_mid in Hs'.
  - right. split_and!; [|done..]. apply (f_equal cut_dashes) in Hr. rewrite !cut_dashes_app in Hr by done. congruence.
Qed.

(** C40: When the first half has 53 characters or more, the label that is cut is also the label of another
    pair of names, which fits: the first 53 characters and the hash. *)
Theorem truncated_label_forged first second :
  53 <= String.length (sanitize_label first) -> 63 < String.length (combined_label first second) ->
  exists first' second', sanitize_label first' = first' /\ sanitize_label second' = second' /\
    (first', second') <> (sanitize_label first, sanitize_label second) /\
    String.length (combined_label first' second') <= 63 /\
    namespaced_service_label first' second' = namespaced_service_label first second.
Proof.
  intros Hf Hlong. destruct (service_label_cases first second) as [[? _]|[_ ->]]; [lia|]. set (h := short_hash (combined_label first second)).
  pose proof (short_hash_clean (combined_label first second)) as Hh. pose proof (short_hash_length (combined_label first second)) as Hhl. fold h in Hh, Hhl.
  assert (str_take 53 (combined_label first second) = str_take 53 (sanitize_label first)) as -> by (by apply str_take_app_le).
  pose proof (clean_prefix 53 _ (sanitize_label_clean first) ltac:(lia)) as Hp. set (p := trim_end_char hyphen (str_take 53 (sanitize_label first))) in *.
  assert (String.length p <= 53) as Hpl.
  { subst p. pose proof (trim_end_length hyphen (str_take 53 (sanitize_label first))). rewrite str_take_length in *. lia. }
  exists p, h. rewrite !sanitize_clean by done. assert (combined_label p h = String.append p (String.append "--" h)) as Hcomb.
  { unfold combined_label. by rewrite !sanitize_clean. }
  split_and!; [done..| |rewrite combined_length, !sanitize_clean by done; lia|].
  - intros [= Hp1 Hh1]. rewrite combined_length, <- Hp1, <- Hh1 in Hlong. lia.
  - destruct (service_label_cases p h) as [[_ ->]|[Hl _]]; [done|]. rewrite combined_length, !sanitize_clean in Hl by done. lia.
Qed.
End Laws.

(** ** The strategy of a domain does not depend on the order of the map *)

Definition longest_match (base : string) (entries : list (string * PublicHostnameStrategy)) (best : option (nat * PublicHostnameStrategy)) : Prop :=
  match best with
  | None => forall e, e ∈ entries -> matches_domain base (lowercase e.1) = false
  | Some (len, s) =>
      (exists e, e ∈ entries /\ matches_domain base (lowercase e.1) = true /\ String.length (lowercase e.1) = len /\ e.2 = s) /\
      (forall e, e ∈ entries -> matches_domain base (lowercase e.1) = true -> String.length (lowercase e.1) <= len)
  end.

Lemma better_match_longest base entries best e :
  longest_match base entries best -> longest_match base (entries ++ [e]) (better_match base best e).
Proof.
  intros Hb. unfold better_match. destruct (matches_domain base (lowercase e.1)) eqn:Hm.
  - destruct best as [[len s]|].
    + destruct Hb as ((x & Hx & Hxm & Hxl & Hxs) & Hmax). destruct (Nat.ltb_spec len (String.length (lowercase e.1))).
      * split; [exists e; set_solver|]. intros x' [Hin| ->%list_elem_of_singleton]%elem_of_app Hm'; [|lia]. specialize (Hmax x' Hin Hm'). lia.
      * split; [exists x; set_solver|]. intros x' [Hin| ->%list_elem_of_singleton]%elem_of_app Hm'; [by apply Hmax|done].
    + split; [exists e; set_solver|]. intros x' [Hin| ->%list_elem_of_singleton]%elem_of_app Hm'; [|done]. by rewrite Hb in Hm'.
  - destruct best as [[len s]|].
    + destruct Hb as ((x & Hx & Hr) & Hmax). split; [exists x; set_solver|].
      intros x' [Hin| ->%list_elem_of_singleton]%elem_of_app Hm'; [by apply Hmax|congruence].
    + intros x' [Hin| ->%list_elem_of_singleton]%elem_of_app; [by apply Hb|done].
Qed.

Lemma match_longest base entries : longest_match base entries (fold_left (better_match base) entries None).
Proof.
  induction entries as [|e entries IH] using rev_ind; [by intros e ?%elem_of_nil|]. rewrite fold_left_app. cbn. by apply better_match_longest.
Qed.

Lemma strip_suffix_inv suffix s t : strip_suffix suffix s = Some t -> s = String.append t suffix.
Proof.
  unfold strip_suffix. destruct (_ <=? _); [|done]. cbn [andb].
  destruct (String.eqb_spec (str_drop (String.length s - String.length suffix) s) suffix) as [Hd|]; [|done].
  intros [= <-]. rewrite (str_take_drop (String.length s - String.length suffix) s) at 1. by rewrite Hd.
Qed.

Lemma append_same_length s t s' t' :
  String.append s t = String.append s' t' -> String.length t = String.length t' -> t = t'.
Proof.
  revert s'. induction s as [|a s IH]; intros [|a' s'] Heq Hl; cbn in Heq; [done| | |simplify_eq; by eapply IH].
  - subst t. cbn in Hl. rewrite str_length_app in Hl. lia.
  - subst t'. cbn in Hl. rewrite str_length_app in Hl. lia.
Qed.

Lemma matches_same_length base d d' :
  matches_domain base d = true -> matches_domain base d' = true -> String.length d = String.length d' -> d = d'.
Proof.
  unfold matches_domain, ends_with. intros Hd Hd' Hl.
  assert (forall x, String.eqb base x || match strip_suffix (String.append "." x) base with Some _ => true | None => false end = true ->
    exists t, base = String.append t x) as Hsuf.
  { intros x. destruct (String.eqb_spec base x) as [->|]; [by exists EmptyString|]. cbn [orb]. destruct (strip_suffix (String.append "." x) base) as [t|] eqn:Hs; [|done].
    intros _. apply strip_suffix_inv in Hs. exists (String.append t "."). by rewrite str_app_assoc. }
  destruct (Hsuf d Hd) as (t & Ht), (Hsuf d' Hd') as (t' & Ht'). apply (append_same_length t d t' d'); congruence.
Qed.

Lemma match_strategy_order entries entries' preview :
  entries ≡ₚ entries' -> NoDup (map (fun e => lowercase e.1) entries) -> match_strategy entries preview = match_strategy entries' preview.
Proof.
  intros Hp Hnd. unfold match_strategy. set (base := base_domain preview).
  pose proof (match_longest base entries) as H1. pose proof (match_longest base entries') as H2.
  destruct (fold_left (better_match base) entries None) as [[l s]|], (fold_left (better_match base) entries' None) as [[l' s']|]; try done; cbn in H1, H2.
  - destruct H1 as ((x & Hx & Hm & Hl & <-) & Hmax), H2 as ((x' & Hx' & Hm' & Hl' & <-) & Hmax'). rewrite <- Hp in Hx'.
    specialize (Hmax x' Hx' Hm'). rewrite Hp in Hx. specialize (Hmax' x Hx Hm). rewrite <- Hp in Hx.
    assert (lowercase x.1 = lowercase x'.1) as Heq by (apply (matches_same_length base); [done..|lia]).
    apply list_elem_of_lookup in Hx as (i & Hi), Hx' as (j & Hj). f_equal.
    assert (i = j) as ->; [|congruence]. apply (NoDup_lookup _ i j (lowercase x.1) Hnd); [|rewrite Heq];
      change (map (fun e => lowercase e.1) entries) with ((fun e => lowercase e.1) <$> entries);
      rewrite list_lookup_fmap; [by rewrite Hi|by rewrite Hj].
  - destruct H1 as ((x & Hx & Hm & _) & _). rewrite Hp in Hx. by rewrite (H2 x Hx) in Hm.
  - destruct H2 as ((x & Hx & Hm & _) & _). rewrite <- Hp in Hx. by rewrite (H1 x Hx) in Hm.
Qed.

(** ** Examples *)

#[local] Abbreviation digest := (fun _ : string => "0123456789abcdef0123456789abcdef0123456789abcdef0123456789abcdef").

#[export] Instance digest_sha256 : Sha256 digest.
Proof. by split. Qed.

(** As the tests of [public_hostname.rs] have it. *)
Example hostname_examples :
  (normalize_base_domain " *.Example.COM. ", from_db_str "FLAT", service_hostname digest Standard "*.example.com" "staging" "files",
   service_hostname digest Flat "example.com" "staging" "files", environment_hostname digest Standard "example.com" "foo-bar-prod",
   deployment_hostname digest Flat "example.com" "My_App.prod") =
  ("example.com", Flat, "files--staging.example.com", "staging--files.example.com", "foo-bar-prod.example.com", "my-app-prod.example.com").
Proof. reflexivity. Qed.

Lemma service_host_apart_witness :
  service_hostname digest Standard "example.com" "bar-prod" "foo" <> environment_hostname digest Standard "example.com" "foo-bar-prod".
Proof. apply (proj1 (service_host_apart digest Standard Standard "example.com" "bar-prod" "foo" "foo-bar-prod" eq_refl)). Defined.

Lemma service_labels_apart_witness :
  sanitize_label "web" = sanitize_label "Web".
Proof.
  exact (proj1 (service_labels_apart digest "web" "my_prod" "Web" "my-prod" (proj1 (Nat.leb_le 3 50) eq_refl) (proj1 (Nat.leb_le 3 50) eq_refl) eq_refl)).
Defined.

(** A service of 60 letters, and the names that take its label. *)
Lemma truncated_label_forged_witness :
  exists first second, (first, second) <> ("aaaaaaaaaaaaaaaaaaaaaaaaaaaaaaaaaaaaaaaaaaaaaaaaaaaaaaaaaaaa", "prod") /\
    namespaced_service_label digest first second =
    namespaced_service_label digest "aaaaaaaaaaaaaaaaaaaaaaaaaaaaaaaaaaaaaaaaaaaaaaaaaaaaaaaaaaaa" "prod".
Proof.
  destruct (truncated_label_forged digest "aaaaaaaaaaaaaaaaaaaaaaaaaaaaaaaaaaaaaaaaaaaaaaaaaaaaaaaaaaaa" "prod"
    (proj1 (Nat.leb_le 53 60) eq_refl) (proj1 (Nat.ltb_lt 63 66) eq_refl)) as (f & s & _ & _ & Hne & _ & Heq).
  exists f, s. split; [exact Hne|exact Heq].
Defined.

(** Two public ports with one label: a second port of [trawl] and a service with its name. *)
Example route_labels_shared :
  let route service port := {| pp_service := service; pp_port := port; pp_published := None; pp_health_check_path := None |} in
  compose_public_route_labels [route "trawl" 3000%Z; route "trawl" 9222%Z; route "trawl-9222" 80%Z] = ["trawl"; "trawl-9222"; "trawl-9222"].
Proof. reflexivity. Qed.
