(* ===== verification/RouteTable.v ===== *)
(** * The route table

    [crates/temps-routes/src/route_table.rs]: the rows it is read from, the addresses of backends, the
    tables of one generation and every lookup the proxy makes in them.  [IpText] reads addresses,
    [Hostnames] generates names, [Wildcard] matches patterns; loading is in [RouteLoad].

    Of the rows only the columns the table reads are kept.  The counter of a load-balanced backend is
    shared by the routes that were made from one backend, so a backend names its counter and the counters
    are a state of their own. *)

From stdpp Require Import pretty.
From S2P Require Import Prelude IpText Wildcard Hostnames.
Local Open Scope Z_scope.

(** ** Addresses as texts *)

(** The text of the code points of ASCII characters. *)
Definition text (l : list Z) : string := String.string_of_list_ascii (map (fun c => Ascii.ascii_of_nat (Z.to_nat c)) l).

Definition hex_digit (d : Z) : Z := if d <? 10 then 48 + d else 87 + d.

(** [{:x}] of a group of an IPv6 address. *)
Definition hex_group (g : Z) : string :=
  let digits := [g / 4096 mod 16; g / 256 mod 16; g / 16 mod 16; g mod 16] in
  let significant := if g <? 16 then drop 3 digits else if g <? 256 then drop 2 digits else if g <? 4096 then drop 1 digits else digits in
  text (map hex_digit significant).

Definition segments (a : Z) : list Z := map (fun i => Z.shiftr a (16 * (7 - i)) mod 2 ^ 16) (seqZ 0 8).

(** The first longest run of zero groups: where it starts and how long it is. *)
Fixpoint zero_span (i : nat) (current longest : nat * nat) (groups : list Z) : nat * nat :=
  match groups with
  | [] => longest
  | g :: groups =>
      if g =? 0 then
        let current := (if Nat.eqb current.2 0 then i else current.1, S current.2) in
        zero_span (S i) current (if (longest.2 <? current.2)%nat then current else longest) groups
      else zero_span (S i) (0%nat, 0%nat) longest groups
  end.

(** [Display] of [IpAddr] and of [SocketAddr]. *)
Definition ip_text (a : IpAddr) : string :=
  match a with
  | V4 a => text (dotted a)
  | V6 a =>
      match to_ipv4_mapped a with
      | Some v4 => String.append "::ffff:" (text (dotted v4))
      | None =>
          let groups := segments a in
          let '(start, len) := zero_span 0 (0%nat, 0%nat) (0%nat, 0%nat) groups in
          if (1 <? len)%nat
          then String.append (join ":" (map hex_group (take start groups)))
                 (String.append "::" (join ":" (map hex_group (drop (start + len) groups))))
          else join ":" (map hex_group groups)
      end
  end.

Definition socket_text (a : IpAddr) (port : Z) : string :=
  match a with
  | V4 _ => String.append (ip_text a) (String ":" (decimal port))
  | V6 _ => String "[" (String.append (ip_text a) (String.append "]:" (decimal port)))
  end.

(** [str::parse::<SocketAddr>]: the address. *)
Definition read_port : reader Z := fun s =>
  '(_, s) ← read_given_char 58 s; read_number 10 (length s) true (2 ^ 16) s.

Definition read_socket_v4 : reader IpAddr := fun s =>
  '(a, s) ← read_ipv4_addr s; '(_, s) ← read_port s; Some (V4 a, s).

Definition read_scope_id : reader Z := fun s =>
  '(_, s) ← read_given_char 37 s; read_number 10 (length s) true (2 ^ 32) s.

Definition read_socket_v6 : reader IpAddr := fun s =>
  '(_, s) ← read_given_char 91 s; '(a, s) ← read_ipv6_addr s;
  let s := match read_scope_id s with Some (_, s) => s | None => s end in
  '(_, s) ← read_given_char 93 s; '(_, s) ← read_port s; Some (V6 a, s).

Definition socket_ip (s : list Z) : option IpAddr :=
  '(a, rest) ← match read_socket_v4 s with Some x => Some x | None => read_socket_v6 s end;
  match rest with [] => Some a | _ => None end.

(** [is_private_node_address] of [temps-core/src/node_address.rs]. *)
Definition is_private (a : IpAddr) : bool :=
  match a with
  | V4 a => (Z.shiftr a 24 =? 10) || (Z.shiftr a 20 =? 0xAC1) || (Z.shiftr a 16 =? 0xC0A8)
  | V6 a => Z.land (Z.shiftr a 112) 0xFE00 =? 0xFC00
  end.

Definition is_private_node_address (address : string) : bool :=
  let address := chars (Hostnames.trim address) in
  match (match ip_from_str address with Some ip => Some ip | None => socket_ip address end) with
  | Some ip => is_private ip
  | None => false
  end.

(** ** Rows *)

(** [Model]s of [temps-entities]. *)
Record Node := { nd_id : Z; nd_private_address : string; nd_mesh_wg_address : option string }.

Definition data_address (n : Node) : string :=
  match nd_mesh_wg_address n with
  | Some mesh => if negb (is_private_node_address (nd_private_address n)) then mesh else nd_private_address n
  | None => nd_private_address n
  end.

Record PortBinding := { pb_container_port : Z; pb_host_port : Z }.

Record Container := {
  ct_deployment_id : Z; ct_container_id : string; ct_container_name : string; ct_container_port : Z;
  ct_host_port : option Z; ct_status : option string; ct_service_name : option string; ct_deleted : bool;
  ct_node_id : option Z; ct_port_bindings : option (list PortBinding) }.

Definition host_port_for (c : Container) (container_port : Z) : option Z :=
  match ct_port_bindings c with
  | Some bindings => pb_host_port <$> List.find (fun b => pb_container_port b =? container_port) bindings
  | None => if ct_container_port c =? container_port then ct_host_port c else None
  end.

Definition exposes_port (c : Container) (container_port : Z) : bool :=
  (ct_container_port c =? container_port)
  || match ct_port_bindings c with
     | Some bindings => existsb (fun b => pb_container_port b =? container_port) bindings
     | None => false
     end.

Inductive PresetConfig := DockerCompose (public_ports : list ComposePublicPort) | OtherPreset.

Record DeploymentConfig := {
  dc_on_demand : bool; dc_idle_timeout_seconds : Z; dc_wake_timeout_seconds : Z; dc_has_security : bool }.

Record Project := {
  pj_id : Z; pj_slug : string; pj_preset_config : option PresetConfig; pj_attack_mode : bool;
  pj_deployment_config : option DeploymentConfig }.

Record Environment := {
  ev_id : Z; ev_slug : string; ev_subdomain : string; ev_project_id : Z; ev_current_deployment_id : option Z;
  ev_deleted : bool; ev_deployment_config : option DeploymentConfig; ev_sleeping : bool; ev_attack_mode : option bool }.

Record Deployment := { dp_id : Z; dp_state : string; dp_slug : string; dp_static_dir_location : option string }.

(** ** Where a container is reached *)

(** [ExecutionEnvironment] of [temps-core/src/runtime.rs]. *)
Inductive ExecutionEnvironment := Host | Docker.

Definition as_u16 (n : Z) : Z := n mod 2 ^ 16.

(** [ServiceEndpointResolver::resolve] and [ServiceEndpoint::authority]. *)
Definition resolve_authority (rt : ExecutionEnvironment) (service_name : string) (internal_target_port published_host_port : Z) : string :=
  match rt with
  | Host => String.append "127.0.0.1" (String ":" (decimal published_host_port))
  | Docker => String.append service_name (String ":" (decimal internal_target_port))
  end.

Definition is_host (rt : ExecutionEnvironment) : bool := match rt with Host => true | Docker => false end.
Definition present {A} (o : option A) : bool := match o with Some _ => true | None => false end.

Definition build_container_backend_addr (rt : ExecutionEnvironment) (container_name : string) (container_port : Z)
    (host_port : option Z) (node_private_address : option string) : string :=
  let port := default container_port host_port in
  match node_private_address with
  | Some private_addr =>
      match ip_from_str (chars private_addr) with
      | Some ip => socket_text ip (as_u16 port)
      | None => String.append private_addr (String ":" (decimal port))
      end
  | None => resolve_authority rt container_name (as_u16 container_port) (as_u16 port)
  end.

Record BackendEntry := { be_address : string; be_container_id : option string; be_container_name : option string }.

Definition entry_of (c : Container) (address : string) : BackendEntry :=
  {| be_address := address; be_container_id := Some (ct_container_id c); be_container_name := Some (ct_container_name c) |}.

Definition build_backend_entry (rt : ExecutionEnvironment) (c : Container) (node_private_address : option string) : option BackendEntry :=
  if present (ct_node_id c) && negb (present node_private_address) then None
  else if (present node_private_address || is_host rt) && negb (present (ct_host_port c)) then None
  else Some (entry_of c (build_container_backend_addr rt (ct_container_name c) (ct_container_port c) (ct_host_port c) node_private_address)).

Definition build_public_compose_backend_addr (rt : ExecutionEnvironment) (container_name : string) (recorded_container_port : Z)
    (recorded_host_port : option Z) (node_private_address : option string) (public_port : ComposePublicPort) : option string :=
  if negb (recorded_container_port =? pp_port public_port) then None
  else if (present node_private_address || is_host rt) && negb (present recorded_host_port) then None
  else Some (build_container_backend_addr rt container_name (pp_port public_port) recorded_host_port node_private_address).

Definition build_discovered_backend_addr (rt : ExecutionEnvironment) (container_name : string) (container_port : Z)
    (host_port : option Z) : option string :=
  if is_host rt && negb (present host_port) then None
  else Some (build_container_backend_addr rt container_name container_port host_port None).

Definition build_public_compose_backend_entry (rt : ExecutionEnvironment) (c : Container) (node_private_address : option string)
    (public_port : ComposePublicPort) : option BackendEntry :=
  if present (ct_node_id c) && negb (present node_private_address) then None
  else
    let target := pp_port public_port in
    let '(recorded_container_port, recorded_host_port) :=
      if exposes_port c target then (target, host_port_for c target) else (ct_container_port c, ct_host_port c) in
    address ← build_public_compose_backend_addr rt (ct_container_name c) recorded_container_port recorded_host_port node_private_address public_port;
    Some (entry_of c address).

Definition is_service (service : string) (c : Container) : bool :=
  match ct_service_name c with Some name => String.eqb name service | None => false end.

Definition select_public_route_containers (containers : list Container) (public_port : option ComposePublicPort) : option (list Container) :=
  if negb (existsb (fun c => present (ct_service_name c)) containers) then Some containers
  else
    public_port ← public_port;
    match List.filter (fun c => is_service (pp_service public_port) c && exposes_port c (pp_port public_port)) containers with
    | [] => None
    | selected => Some selected
    end.

(** [compose_public_service_hostnames]. *)
Definition compose_public_service_hostnames (sha256_hex : string -> string) (preset_config : option PresetConfig) (preview_domain : string)
    (strategy : PublicHostnameStrategy) (environment_subdomain : string) : list string :=
  match preset_config with
  | Some (DockerCompose public_ports) =>
      map (fun label => service_hostname sha256_hex strategy preview_domain environment_subdomain label) (compose_public_route_labels public_ports)
  | _ => []
  end.

(** ** Routes *)

Inductive BackendType :=
  | Upstream (backends : list BackendEntry) (round_robin_counter : nat)
  | StaticDir (path : string).

Record RouteInfo := {
  rt_backend : BackendType; rt_redirect_to : option string; rt_status_code : option Z;
  rt_project : option Project; rt_environment : option Environment; rt_deployment : option Deployment; rt_cert_eligible : bool }.

Definition not_certable (r : RouteInfo) : RouteInfo :=
  {| rt_backend := rt_backend r; rt_redirect_to := rt_redirect_to r; rt_status_code := rt_status_code r; rt_project := rt_project r;
     rt_environment := rt_environment r; rt_deployment := rt_deployment r; rt_cert_eligible := false |}.

(** The counters, [AtomicUsize] each. *)
Abbreviation Counters := (gmap nat Z).

Definition fetch_add (id : nat) (m : Counters) : Z * Counters :=
  let n := default 0 (m !! id) in (n, <[id := (n + 1) mod 2 ^ 64]> m).

Definition fallback : BackendEntry := {| be_address := "127.0.0.1:8080"; be_container_id := None; be_container_name := None |}.

(** [BackendType::get_backend]; a [BackendSelection] has the fields of an entry. *)
Definition get_backend (b : BackendType) (m : Counters) : option BackendEntry * Counters :=
  match b with
  | Upstream backends counter =>
      match backends with
      | [] => (Some fallback, m)
      | [entry] => (Some entry, m)
      | _ => let '(n, m) := fetch_add counter m in (backends !! Z.to_nat (n mod Z.of_nat (length backends)), m)
      end
  | StaticDir _ => (None, m)
  end.

Definition is_static (b : BackendType) : bool := match b with StaticDir _ => true | Upstream _ _ => false end.
Definition static_dir (b : BackendType) : option string := match b with StaticDir path => Some path | Upstream _ _ => None end.

(** [RouteInfo::select_backend]. *)
Definition select_backend (r : RouteInfo) (m : Counters) : BackendEntry * Counters :=
  let '(selection, m) := get_backend (rt_backend r) m in (default fallback selection, m).

Inductive UnavailableReason := NoLiveBackend | Paused.

Definition reason_str (r : UnavailableReason) : string := match r with NoLiveBackend => "no_live_backend" | Paused => "paused" end.

Record UnavailableRoute := {
  un_project : Project; un_environment : Environment; un_deployment : Deployment; un_reason : UnavailableReason }.

Definition is_paused (d : Deployment) : bool := String.eqb (dp_state d) "paused".

Definition unavailable_route_for (project : option Project) (environment : Environment) (deployment : Deployment) : option UnavailableRoute :=
  let reason := if is_paused deployment then Paused else NoLiveBackend in
  project ← project;
  Some {| un_project := project; un_environment := environment; un_deployment := deployment; un_reason := reason |}.

Definition compose_without_public_ports (project : option Project) : bool :=
  match (project ← project; pj_preset_config project) with
  | Some (DockerCompose []) => true
  | _ => false
  end.

(** [str::split_once] and [rsplit_once]. *)
Fixpoint split_once (c : ascii) (s : string) : option (string * string) :=
  match s with
  | EmptyString => None
  | String a t => if Ascii.eqb a c then Some (EmptyString, t) else '(x, y) ← split_once c t; Some (String a x, y)
  end.
Definition rsplit_once (c : ascii) (s : string) : option (string * string) :=
  i ← rfind c s; Some (str_take i s, str_drop (S i) s).

(** [UnavailableHosts]. *)
Record UnavailableHosts := { uh_exact : gmap string UnavailableRoute; uh_wildcard_bases : gmap string UnavailableRoute }.

Definition no_unavailable : UnavailableHosts := {| uh_exact := ∅; uh_wildcard_bases := ∅ |}.

Definition insert_vacant {A} (key : string) (x : A) (m : gmap string A) : gmap string A :=
  if bool_decide (is_Some (m !! key)) then m else <[key := x]> m.

Definition record_unavailable (host : string) (route : UnavailableRoute) (u : UnavailableHosts) : UnavailableHosts :=
  match strip_prefix "*." host with
  | Some base =>
      if negb (String.eqb base "") then {| uh_exact := uh_exact u; uh_wildcard_bases := insert_vacant base route (uh_wildcard_bases u) |}
      else u
  | None => {| uh_exact := insert_vacant host route (uh_exact u); uh_wildcard_bases := uh_wildcard_bases u |}
  end.

Definition get_unavailable (u : UnavailableHosts) (host : string) : option UnavailableRoute :=
  match uh_exact u !! host with
  | Some r => Some r
  | None =>
      '(label, base) ← split_once dot host;
      if String.eqb label "" then None else uh_wildcard_bases u !! base
  end.

(** ** The tables of one generation *)

Record LegacyRouteTable := {
  lg_exact : gmap string RouteInfo; lg_wildcards : Wildcard.WildcardMatcher RouteInfo;
  lg_reserved_console_host : option string; lg_reserved_ingress_host : option string }.

Record RouteOwnershipSnapshot := { ow_exact : gset string; ow_wildcard_bases : gset string; ow_reserved_hosts : gset string }.

Record RouteTableSnapshot := {
  sn_http_routes : gmap string RouteInfo; sn_tls_routes : gmap string RouteInfo;
  sn_http_wildcards : Wildcard.WildcardMatcher RouteInfo; sn_tls_wildcards : Wildcard.WildcardMatcher RouteInfo;
  sn_legacy : LegacyRouteTable; sn_ownership : RouteOwnershipSnapshot; sn_unavailable : UnavailableHosts }.

Definition contains_key {A} (m : gmap string A) (host : string) : bool := present (m !! host).

Definition has_live_route (s : RouteTableSnapshot) (host : string) : bool :=
  contains_key (sn_tls_routes s) host
  || present (Wildcard.match_domain (sn_tls_wildcards s) host)
  || contains_key (sn_http_routes s) host
  || contains_key (lg_exact (sn_legacy s)) host
  || present (Wildcard.match_domain (sn_http_wildcards s) host)
  || present (Wildcard.match_domain (lg_wildcards (sn_legacy s)) host).

Definition is_reserved (l : LegacyRouteTable) (host : string) : bool :=
  bool_decide (lg_reserved_console_host l = Some host) || bool_decide (lg_reserved_ingress_host l = Some host).

(** [Option::or]. *)
Definition or_else {A} (o o' : option A) : option A := match o with Some x => Some x | None => o' end.

(** [LegacyRouteTable::get]. *)
Definition legacy_get (l : LegacyRouteTable) (host : string) : option RouteInfo :=
  if is_reserved l host then None
  else or_else (lg_exact l !! host) (Wildcard.match_domain (lg_wildcards l) host).

Definition owns (o : RouteOwnershipSnapshot) (host : string) : bool :=
  if bool_decide (host ∈ ow_reserved_hosts o) || bool_decide (host ∈ ow_exact o) then true
  else match split_once dot host with
       | None => false
       | Some (label, base) => negb (String.eqb label "") && negb (String.eqb base "") && bool_decide (base ∈ ow_wildcard_bases o)
       end.

Definition include (o other : RouteOwnershipSnapshot) : RouteOwnershipSnapshot :=
  {| ow_exact := ow_exact o ∪ ow_exact other; ow_wildcard_bases := ow_wildcard_bases o ∪ ow_wildcard_bases other;
     ow_reserved_hosts := ow_reserved_hosts o ∪ ow_reserved_hosts other |}.

Definition own_host (o : RouteOwnershipSnapshot) (host : string) : RouteOwnershipSnapshot :=
  match strip_prefix "*." host with
  | Some base =>
      if negb (String.eqb base "")
      then {| ow_exact := ow_exact o; ow_wildcard_bases := {[base]} ∪ ow_wildcard_bases o; ow_reserved_hosts := ow_reserved_hosts o |}
      else o
  | None => {| ow_exact := {[host]} ∪ ow_exact o; ow_wildcard_bases := ow_wildcard_bases o; ow_reserved_hosts := ow_reserved_hosts o |}
  end.

Definition build_route_ownership_snapshot (legacy_hosts http_hosts tls_hosts reserved_hosts : list string) : RouteOwnershipSnapshot :=
  fold_left own_host (legacy_hosts ++ http_hosts ++ tls_hosts)
    {| ow_exact := ∅; ow_wildcard_bases := ∅; ow_reserved_hosts := list_to_set reserved_hosts |}.

Definition keys {A} (m : gmap string A) : list string := map fst (map_to_list m).

(** ** Lookups of [CachedPeerTable] in the current snapshot *)

Definition get_route_by_host (s : RouteTableSnapshot) (host : string) : option RouteInfo :=
  if is_reserved (sn_legacy s) host then None
  else
    or_else (sn_http_routes s !! host)
      (or_else (lg_exact (sn_legacy s) !! host)
        (or_else (Wildcard.match_domain (sn_http_wildcards s) host)
          (Wildcard.match_domain (lg_wildcards (sn_legacy s)) host))).

Definition get_route_by_sni (s : RouteTableSnapshot) (sni : string) : option RouteInfo :=
  if is_reserved (sn_legacy s) sni then None
  else or_else (sn_tls_routes s !! sni) (Wildcard.match_domain (sn_tls_wildcards s) sni).

Definition resolve_route_for_sni (s : RouteTableSnapshot) (sni : string) : option RouteInfo :=
  if is_reserved (sn_legacy s) sni then None
  else
    or_else (sn_tls_routes s !! sni)
      (or_else (Wildcard.match_domain (sn_tls_wildcards s) sni)
        (or_else (sn_http_routes s !! sni)
          (or_else (lg_exact (sn_legacy s) !! sni)
            (or_else (Wildcard.match_domain (sn_http_wildcards s) sni)
              (Wildcard.match_domain (lg_wildcards (sn_legacy s)) sni))))).

Definition get_route (s : RouteTableSnapshot) (host : string) : option RouteInfo := legacy_get (sn_legacy s) host.

Definition get_unavailable_route (s : RouteTableSnapshot) (host : string) : option UnavailableRoute :=
  route ← get_unavailable (sn_unavailable s) host;
  if is_reserved (sn_legacy s) host || has_live_route s host then None else Some route.

Definition is_reserved_hostname (s : RouteTableSnapshot) (host : string) : bool := is_reserved (sn_legacy s) host.

Definition is_digit (c : ascii) : bool := ((48 <=? code c) && (code c <=? 57))%nat.

Definition is_public_ingress_hostname (s : RouteTableSnapshot) (host : string) : bool :=
  match lg_reserved_ingress_host (sn_legacy s) with
  | None => false
  | Some reserved =>
      let host := match rsplit_once ":" host with
                  | Some (name, port) => if negb (String.eqb port "") && all_chars is_digit port then name else host
                  | None => host
                  end in
      eq_ignore_case reserved (trim_end_char dot host)
  end.

Definition owns_hostname (s : RouteTableSnapshot) (host : string) : bool := owns (sn_ownership s) host.

Definition table_len (s : RouteTableSnapshot) : nat := size (lg_exact (sn_legacy s)).
Definition table_is_empty (s : RouteTableSnapshot) : bool := Nat.eqb (table_len s) 0.

(** The entries of the legacy map, in the order of some iteration. *)
Definition exact_routes (s : RouteTableSnapshot) : list (string * RouteInfo) := map_to_list (lg_exact (sn_legacy s)).

Definition cert_eligible_hosts (s : RouteTableSnapshot) : list string :=
  map fst (List.filter (fun hr => rt_cert_eligible hr.2 && negb (String.prefix "*." hr.1)) (exact_routes s)).

Definition has_route_for_deployment (s : RouteTableSnapshot) (deployment_id : Z) : bool :=
  existsb (fun hr => match rt_deployment hr.2 with Some d => dp_id d =? deployment_id | None => false end) (exact_routes s).

Definition is_internal (host : string) : bool := ends_with ".temps.local" host.

Definition snapshot_internal_routes (s : RouteTableSnapshot) : list (string * RouteInfo) :=
  List.filter (fun hr => is_internal hr.1) (exact_routes s).

Definition unsecured (config : option DeploymentConfig) : bool :=
  match config with Some c => negb (dc_has_security c) | None => true end.

(** What a worker may serve without the control plane. *)
Definition worker_public (host : string) (route : RouteInfo) : bool :=
  negb (is_internal host)
  && negb (present (rt_redirect_to route))
  && negb (is_static (rt_backend route))
  && match rt_environment route with
     | Some e => negb (ev_sleeping e) && negb (bool_decide (ev_attack_mode e = Some true)) && unsecured (ev_deployment_config e)
     | None => false
     end
  && match rt_project route with
     | Some p => negb (pj_attack_mode p) && unsecured (pj_deployment_config p)
     | None => false
     end.

Definition snapshot_worker_public_routes (s : RouteTableSnapshot) : list (string * RouteInfo) :=
  List.filter (fun hr => worker_public hr.1 hr.2) (exact_routes s).

Definition worker_public_route_count (s : RouteTableSnapshot) : nat :=
  length (List.filter (fun hr => negb (is_internal hr.1)) (exact_routes s)).

(** [stored_hostname_covers]. *)
Definition stored_hostname_covers (stored host : string) : bool :=
  let stored := trim_end_char dot stored in
  match strip_prefix "*." stored with
  | Some base =>
      if negb (String.eqb base "") then
        match split_once dot host with
        | Some (label, rest) => negb (String.eqb label "") && eq_ignore_case rest base
        | None => false
        end
      else false
  | None => eq_ignore_case stored host
  end.
