(* ===== verification/RouteLoad.v ===== *)
(** * Loading the route table

    [CachedPeerTable::load_routes] of [crates/temps-routes/src/route_table.rs] up to the new snapshot: the
    six sections that read rows and make routes, the reserved hosts, the hosts without a live backend, the
    wildcard index and the ownership index.

    The database may change between two queries: query number [n] of a load sees the tables [db n], or
    fails when they do not answer.  A failure ends the load where the code has [?] and counts as no row
    where it does not. *)

From S2P Require Import Prelude Wildcard Hostnames RouteTable.
Local Open Scope Z_scope.

(** ** Tables *)

Record AppSettings := { as_external_url : option string; as_public_ingress_url : option string; as_preview_domain : string }.

Definition default_settings : AppSettings :=
  {| as_external_url := None; as_public_ingress_url := None; as_preview_domain := "localho.st" |}.

Inductive RouteType := Http | Tls.

Record ManagedDomain := { md_domain : string; md_generated_hostname_mode : string }.
Record EnvironmentDomain := { ed_environment_id : Z; ed_domain : string }.
Record CustomRoute := { cr_domain : string; cr_host : string; cr_port : Z; cr_enabled : bool; cr_route_type : RouteType }.
Record CustomDomain := {
  cd_project_id : Z; cd_environment_id : Z; cd_domain : string; cd_redirect_to : option string; cd_status_code : option Z;
  cd_service_name : option string }.
Record DiscoveredRoute := {
  dr_host : string; dr_target_container_id : string; dr_target_container_name : string; dr_target_port : Z;
  dr_target_host_port : option Z; dr_network : string; dr_enabled : bool }.

(** The rows at one moment, and whether queries are answered.  The settings are the row as
    [AppSettings::from_json] reads it. *)
Record Tables := {
  t_answers : bool; t_settings : option AppSettings; t_managed_domains : list ManagedDomain;
  t_environment_domains : list EnvironmentDomain; t_custom_routes : list CustomRoute; t_custom_domains : list CustomDomain;
  t_environments : list Environment; t_deployments : list Deployment; t_containers : list Container; t_projects : list Project;
  t_nodes : list Node; t_discovered : list DiscoveredRoute }.

Record SleepingEnvironmentEntry := {
  se_domain : string; se_environment_id : Z; se_project_id : Z; se_deployment_id : Z; se_wake_timeout_seconds : Z }.

Record OnDemandConfigEntry := { oc_environment_id : Z; oc_idle_timeout_seconds : Z; oc_wake_timeout_seconds : Z }.

(** [RouteLoadError::Database]. *)
Inductive LoadError := DatabaseError.

(** ** The state of a load *)

Record Loader := {
  l_tick : nat; l_counter : nat;
  l_projects : gmap Z Project; l_environments : gmap Z Environment; l_deployments : gmap Z Deployment; l_nodes : gmap Z string;
  l_routes : gmap string RouteInfo; l_sleeping : list SleepingEnvironmentEntry; l_unavailable : UnavailableHosts;
  l_http : gmap string RouteInfo; l_tls : gmap string RouteInfo;
  l_http_wildcards : Wildcard.WildcardMatcher RouteInfo; l_tls_wildcards : Wildcard.WildcardMatcher RouteInfo }.

Definition loader_new (counter : nat) : Loader :=
  {| l_tick := 0; l_counter := counter; l_projects := ∅; l_environments := ∅; l_deployments := ∅; l_nodes := ∅; l_routes := ∅;
     l_sleeping := []; l_unavailable := no_unavailable; l_http := ∅; l_tls := ∅; l_http_wildcards := Wildcard.new;
     l_tls_wildcards := Wildcard.new |}.

Definition with_tick (n : nat) (s : Loader) : Loader :=
  {| l_tick := n; l_counter := l_counter s; l_projects := l_projects s; l_environments := l_environments s;
     l_deployments := l_deployments s; l_nodes := l_nodes s; l_routes := l_routes s; l_sleeping := l_sleeping s;
     l_unavailable := l_unavailable s; l_http := l_http s; l_tls := l_tls s; l_http_wildcards := l_http_wildcards s;
     l_tls_wildcards := l_tls_wildcards s |}.
Definition with_counter (n : nat) (s : Loader) : Loader :=
  {| l_tick := l_tick s; l_counter := n; l_projects := l_projects s; l_environments := l_environments s;
     l_deployments := l_deployments s; l_nodes := l_nodes s; l_routes := l_routes s; l_sleeping := l_sleeping s;
     l_unavailable := l_unavailable s; l_http := l_http s; l_tls := l_tls s; l_http_wildcards := l_http_wildcards s;
     l_tls_wildcards := l_tls_wildcards s |}.
Definition with_projects (m : gmap Z Project) (s : Loader) : Loader :=
  {| l_tick := l_tick s; l_counter := l_counter s; l_projects := m; l_environments := l_environments s;
     l_deployments := l_deployments s; l_nodes := l_nodes s; l_routes := l_routes s; l_sleeping := l_sleeping s;
     l_unavailable := l_unavailable s; l_http := l_http s; l_tls := l_tls s; l_http_wildcards := l_http_wildcards s;
     l_tls_wildcards := l_tls_wildcards s |}.
Definition with_environments (m : gmap Z Environment) (s : Loader) : Loader :=
  {| l_tick := l_tick s; l_counter := l_counter s; l_projects := l_projects s; l_environments := m;
     l_deployments := l_deployments s; l_nodes := l_nodes s; l_routes := l_routes s; l_sleeping := l_sleeping s;
     l_unavailable := l_unavailable s; l_http := l_http s; l_tls := l_tls s; l_http_wildcards := l_http_wildcards s;
     l_tls_wildcards := l_tls_wildcards s |}.
Definition with_deployments (m : gmap Z Deployment) (s : Loader) : Loader :=
  {| l_tick := l_tick s; l_counter := l_counter s; l_projects := l_projects s; l_environments := l_environments s;
     l_deployments := m; l_nodes := l_nodes s; l_routes := l_routes s; l_sleeping := l_sleeping s;
     l_unavailable := l_unavailable s; l_http := l_http s; l_tls := l_tls s; l_http_wildcards := l_http_wildcards s;
     l_tls_wildcards := l_tls_wildcards s |}.
Definition with_nodes (m : gmap Z string) (s : Loader) : Loader :=
  {| l_tick := l_tick s; l_counter := l_counter s; l_projects := l_projects s; l_environments := l_environments s;
     l_deployments := l_deployments s; l_nodes := m; l_routes := l_routes s; l_sleeping := l_sleeping s;
     l_unavailable := l_unavailable s; l_http := l_http s; l_tls := l_tls s; l_http_wildcards := l_http_wildcards s;
     l_tls_wildcards := l_tls_wildcards s |}.
Definition with_routes (m : gmap string RouteInfo) (s : Loader) : Loader :=
  {| l_tick := l_tick s; l_counter := l_counter s; l_projects := l_projects s; l_environments := l_environments s;
     l_deployments := l_deployments s; l_nodes := l_nodes s; l_routes := m; l_sleeping := l_sleeping s;
     l_unavailable := l_unavailable s; l_http := l_http s; l_tls := l_tls s; l_http_wildcards := l_http_wildcards s;
     l_tls_wildcards := l_tls_wildcards s |}.
Definition with_sleeping (l : list SleepingEnvironmentEntry) (s : Loader) : Loader :=
  {| l_tick := l_tick s; l_counter := l_counter s; l_projects := l_projects s; l_environments := l_environments s;
     l_deployments := l_deployments s; l_nodes := l_nodes s; l_routes := l_routes s; l_sleeping := l;
     l_unavailable := l_unavailable s; l_http := l_http s; l_tls := l_tls s; l_http_wildcards := l_http_wildcards s;
     l_tls_wildcards := l_tls_wildcards s |}.
Definition with_unavailable (u : UnavailableHosts) (s : Loader) : Loader :=
  {| l_tick := l_tick s; l_counter := l_counter s; l_projects := l_projects s; l_environments := l_environments s;
     l_deployments := l_deployments s; l_nodes := l_nodes s; l_routes := l_routes s; l_sleeping := l_sleeping s;
     l_unavailable := u; l_http := l_http s; l_tls := l_tls s; l_http_wildcards := l_http_wildcards s;
     l_tls_wildcards := l_tls_wildcards s |}.
Definition with_typed (http tls : gmap string RouteInfo) (http_wildcards tls_wildcards : Wildcard.WildcardMatcher RouteInfo) (s : Loader) : Loader :=
  {| l_tick := l_tick s; l_counter := l_counter s; l_projects := l_projects s; l_environments := l_environments s;
     l_deployments := l_deployments s; l_nodes := l_nodes s; l_routes := l_routes s; l_sleeping := l_sleeping s;
     l_unavailable := l_unavailable s; l_http := http; l_tls := tls; l_http_wildcards := http_wildcards;
     l_tls_wildcards := tls_wildcards |}.

(** A step of a load. *)
Definition Load (A : Type) : Type := Act Loader LoadError A.

Definition modify (f : Loader -> Loader) : Load unit := fun s => (Ok (), f s).
Definition get {A} (f : Loader -> A) : Load A := fun s => (Ok (f s), s).

Definition insert_route (host : string) (r : RouteInfo) : Load unit := modify (fun s => with_routes (<[host := r]> (l_routes s)) s).
Definition insert_route_vacant (host : string) (r : RouteInfo) : Load unit := modify (fun s => with_routes (insert_vacant host r (l_routes s)) s).
Definition push_sleeping (entries : list SleepingEnvironmentEntry) : Load unit :=
  modify (fun s => with_sleeping (l_sleeping s ++ entries) s).
Definition mark_unavailable (host : string) (r : UnavailableRoute) : Load unit :=
  modify (fun s => with_unavailable (record_unavailable host r (l_unavailable s)) s).

(** [Arc::new(AtomicUsize::new(0))]. *)
Definition fresh_counter : Load nat := fun s => (Ok (l_counter s), with_counter (S (l_counter s)) s).

Section Load.
Context (db : nat -> Tables) (rt : ExecutionEnvironment) (sha256_hex : string -> string).
(** [Url::parse] and [host_str]. *)
Context (url_host_str : string -> option string).
(** [traefik_discovery_network]. *)
Context (discovery_network : option string).

(** ** Queries *)

(** A query whose failure the code takes for no row. *)
Definition query {A} (f : Tables -> A) : Load (option A) := fun s =>
  let t := db (l_tick s) in (Ok (if t_answers t then Some (f t) else None), with_tick (S (l_tick s)) s).

(** A query with [?]. *)
Definition query_or_fail {A} (f : Tables -> A) : Load A := fun s =>
  let t := db (l_tick s) in (if t_answers t then Ok (f t) else Err DatabaseError, with_tick (S (l_tick s)) s).

(** An entity that is not cached is fetched and cached. *)
Definition fetch_environment (id : Z) : Load (option Environment) :=
  let! cached := get (fun s => l_environments s !! id) in
  match cached with
  | Some e => act_ret (Some e)
  | None =>
      let! row := query (fun t => List.find (fun e => (ev_id e =? id) && negb (ev_deleted e)) (t_environments t)) in
      match row with
      | Some (Some e) => let! _ := modify (fun s => with_environments (<[ev_id e := e]> (l_environments s)) s) in act_ret (Some e)
      | _ => act_ret None
      end
  end.

Definition fetch_deployment (id : Z) : Load (option Deployment) :=
  let! cached := get (fun s => l_deployments s !! id) in
  match cached with
  | Some d => act_ret (Some d)
  | None =>
      let! row := query (fun t => List.find (fun d => dp_id d =? id) (t_deployments t)) in
      match row with
      | Some (Some d) => let! _ := modify (fun s => with_deployments (<[dp_id d := d]> (l_deployments s)) s) in act_ret (Some d)
      | _ => act_ret None
      end
  end.

Definition fetch_project (id : Z) : Load (option Project) :=
  let! cached := get (fun s => l_projects s !! id) in
  match cached with
  | Some p => act_ret (Some p)
  | None =>
      let! row := query (fun t => List.find (fun p => pj_id p =? id) (t_projects t)) in
      match row with
      | Some (Some p) => let! _ := modify (fun s => with_projects (<[pj_id p := p]> (l_projects s)) s) in act_ret (Some p)
      | _ => act_ret None
      end
  end.

(** [resolve_node_private_address]. *)
Definition resolve_node_private_address (node_id : option Z) : Load (option string) :=
  match node_id with
  | None => act_ret None
  | Some node_id =>
      let! cached := get (fun s => l_nodes s !! node_id) in
      match cached with
      | Some addr => act_ret (Some addr)
      | None =>
          let! row := query (fun t => List.find (fun n => nd_id n =? node_id) (t_nodes t)) in
          match row with
          | Some (Some node) =>
              let! _ := modify (fun s => with_nodes (<[node_id := data_address node]> (l_nodes s)) s) in act_ret (Some (data_address node))
          | _ => act_ret None
          end
      end
  end.

(** The containers traffic may go to: not deleted, and running or never given a status. *)
Definition is_up (c : Container) : bool :=
  match ct_status c with None => true | Some status => String.eqb status "running" end.

Definition routable (deployment_id : Z) (c : Container) : bool :=
  (ct_deployment_id c =? deployment_id) && negb (ct_deleted c) && is_up c.

Definition active_containers (deployment : Deployment) (deployment_id : Z) : Load (list Container) :=
  if is_paused deployment then act_ret []
  else
    let! rows := query (fun t => List.filter (routable deployment_id) (t_containers t)) in
    act_ret (default [] rows).

(** ** Backends *)

(** The entries of the containers that can be reached, in order. *)
Fixpoint backend_entries (build : Container -> option string -> option BackendEntry) (containers : list Container)
    : Load (list BackendEntry) :=
  match containers with
  | [] => act_ret []
  | c :: rest =>
      let! node_addr := resolve_node_private_address (ct_node_id c) in
      let! entries := backend_entries build rest in
      act_ret (match build c node_addr with Some entry => entry :: entries | None => entries end)
  end.

Definition upstream (build : Container -> option string -> option BackendEntry) (containers : list Container) : Load (option BackendType) :=
  let! entries := backend_entries build containers in
  match entries with
  | [] => act_ret None
  | _ => let! counter := fresh_counter in act_ret (Some (Upstream entries counter))
  end.

(** The entry for a public port of a Compose service, or of a container by itself. *)
Definition public_entry (public_port : option ComposePublicPort) (c : Container) (node_addr : option string) : option BackendEntry :=
  match public_port with
  | Some port => build_public_compose_backend_entry rt c node_addr port
  | None => build_backend_entry rt c node_addr
  end.

Definition public_ports (project : option Project) : list ComposePublicPort :=
  match (project ← project; pj_preset_config project) with
  | Some (DockerCompose ports) => ports
  | _ => []
  end.

(** What serves a host: nothing by choice, nothing for now, or a backend. *)
Inductive Serving := Private | Down | Served (backend : BackendType).

Definition served (b : option BackendType) : Serving := match b with Some b => Served b | None => Down end.

(** The backend of sections 1 and 5. *)
Definition public_backend (deployment : Deployment) (project : option Project) (containers : list Container) : Load Serving :=
  match dp_static_dir_location deployment with
  | Some dir => act_ret (Served (StaticDir dir))
  | None =>
      match containers with
      | [] => act_ret Down
      | _ =>
          let public_port := head (public_ports project) in
          match select_public_route_containers containers public_port with
          | None => act_ret (match public_port with None => Private | Some _ => Down end)
          | Some route_containers => let! b := upstream (public_entry public_port) route_containers in act_ret (served b)
          end
      end
  end.

(** The backend of a custom domain, section 3. *)
Definition domain_backend (deployment : Deployment) (target_containers : list Container) : Load Serving :=
  match dp_static_dir_location deployment with
  | Some dir => act_ret (Served (StaticDir dir))
  | None =>
      match target_containers with
      | [] => act_ret Down
      | _ => let! b := upstream (build_backend_entry rt) target_containers in act_ret (served b)
      end
  end.

(** The backend of an environment, section 4. *)
Definition environment_backend (deployment : Deployment) (project : option Project) (containers : list Container) : Load Serving :=
  match dp_static_dir_location deployment with
  | Some dir => act_ret (Served (StaticDir dir))
  | None =>
      match containers with
      | [] => act_ret Down
      | _ =>
          if existsb (fun c => present (ct_service_name c)) containers then
            match public_ports project with
            | pp :: _ =>
                let! b := upstream (public_entry (Some pp)) (List.filter (is_service (pp_service pp)) containers) in act_ret (served b)
            | [] => act_ret Private
            end
          else let! b := upstream (public_entry None) containers in act_ret (served b)
      end
  end.

(** ** Entries *)

Definition sleeping_entry (environment : Environment) (deployment_id : Z) (domain : string) : SleepingEnvironmentEntry :=
  {| se_domain := domain; se_environment_id := ev_id environment; se_project_id := ev_project_id environment; se_deployment_id := deployment_id;
     se_wake_timeout_seconds := match ev_deployment_config environment with Some c => dc_wake_timeout_seconds c | None => 30 end |}.

Definition route_info (backend : BackendType) (redirect_to : option string) (status_code : option Z) (project : option Project)
    (environment : option Environment) (deployment : option Deployment) (cert_eligible : bool) : RouteInfo :=
  {| rt_backend := backend; rt_redirect_to := redirect_to; rt_status_code := status_code; rt_project := project;
     rt_environment := environment; rt_deployment := deployment; rt_cert_eligible := cert_eligible |}.

(** Hosts that are reported as down, when there is a project to report them for. *)
Definition report_down (hosts : list string) (route : option UnavailableRoute) : Load unit :=
  match route with
  | Some route => act_for (fun host => mark_unavailable host route) hosts
  | None => act_ret ()
  end.

(** ** The sections *)

(** Section 1: an environment domain. *)
Definition load_environment_domain (env_domain : EnvironmentDomain) : Load unit :=
  let! found := fetch_environment (ed_environment_id env_domain) in
  match found with
  | None => act_ret ()
  | Some environment =>
      match ev_current_deployment_id environment with
      | None => act_ret ()
      | Some deployment_id =>
          if ev_sleeping environment then push_sleeping [sleeping_entry environment deployment_id (ed_domain env_domain)]
          else
            let! found := fetch_deployment deployment_id in
            match found with
            | None => act_ret ()
            | Some deployment =>
                let! containers := active_containers deployment deployment_id in
                let! project := fetch_project (ev_project_id environment) in
                let! backend := public_backend deployment project containers in
                match backend with
                | Private => act_ret ()
                | Down =>
                    if compose_without_public_ports project then act_ret ()
                    else report_down [ed_domain env_domain] (unavailable_route_for project environment deployment)
                | Served backend =>
                    insert_route (ed_domain env_domain)
                      (route_info backend None None project (Some environment) (Some deployment) true)
                end
            end
      end
  end.

(** Section 2: a custom route. *)
Definition load_custom_route (custom_route : CustomRoute) : Load unit :=
  let! counter := fresh_counter in
  let address := String.append (cr_host custom_route) (String ":" (decimal (cr_port custom_route))) in
  let info := route_info (Upstream [{| be_address := address; be_container_id := None; be_container_name := None |}] counter)
                None None None None None false in
  let domain := cr_domain custom_route in
  let is_wildcard := String.prefix "*." domain in
  let! _ := modify (fun s =>
    match cr_route_type custom_route with
    | Http => if is_wildcard then with_typed (l_http s) (l_tls s) (Wildcard.insert (l_http_wildcards s) domain info).2 (l_tls_wildcards s) s
              else with_typed (<[domain := info]> (l_http s)) (l_tls s) (l_http_wildcards s) (l_tls_wildcards s) s
    | Tls => if is_wildcard then with_typed (l_http s) (l_tls s) (l_http_wildcards s) (Wildcard.insert (l_tls_wildcards s) domain info).2 s
             else with_typed (l_http s) (<[domain := info]> (l_tls s)) (l_http_wildcards s) (l_tls_wildcards s) s
    end) in
  insert_route domain info.

(** Section 3: a custom domain of a project. *)
Definition load_custom_domain (custom_domain : CustomDomain) : Load unit :=
  let! found := fetch_environment (cd_environment_id custom_domain) in
  match found with
  | None => act_ret ()
  | Some environment =>
      match ev_current_deployment_id environment with
      | None => act_ret ()
      | Some deployment_id =>
          if ev_sleeping environment then push_sleeping [sleeping_entry environment deployment_id (cd_domain custom_domain)]
          else
            let! found := fetch_deployment deployment_id in
            match found with
            | None => act_ret ()
            | Some deployment =>
                let! containers := active_containers deployment deployment_id in
                let! project := fetch_project (cd_project_id custom_domain) in
                let target_containers := match cd_service_name custom_domain with
                                         | Some sn => List.filter (is_service sn) containers
                                         | None => containers
                                         end in
                let! backend := domain_backend deployment target_containers in
                match backend with
                | Served backend =>
                    insert_route (cd_domain custom_domain)
                      (route_info backend (cd_redirect_to custom_domain) (cd_status_code custom_domain) project (Some environment) (Some deployment) false)
                | _ => report_down [cd_domain custom_domain] (unavailable_route_for project environment deployment)
                end
            end
      end
  end.

(** [<env-slug>.<project-slug>.temps.local], when both slugs are there. *)
Definition internal_fqdn (environment : Environment) (project : Project) : option string :=
  let env_slug := Hostnames.trim (ev_slug environment) in
  let proj_slug := Hostnames.trim (pj_slug project) in
  if negb (String.eqb env_slug "") && negb (String.eqb proj_slug "")
  then Some (String.append env_slug (String dot (String.append proj_slug ".temps.local")))
  else None.

Section Environments.
Context (preview_domain : string) (hostname_strategies : list (string * PublicHostnameStrategy)).

Definition strategy : PublicHostnameStrategy := match_strategy hostname_strategies preview_domain.

Definition service_names (project : Project) (main_url : string) : list string :=
  compose_public_service_hostnames sha256_hex (pj_preset_config project) preview_domain strategy main_url.

(** One public port of a running Compose stack. *)
Definition load_compose_route (environment : Environment) (main_url : string) (project : option Project) (deployment : Deployment)
    (containers : list Container) (port_label : ComposePublicPort * string) : Load unit :=
  let '(public_port, route_label) := port_label in
  let svc_unavailable := unavailable_route_for project environment deployment in
  let svc_domain := service_hostname sha256_hex strategy preview_domain main_url route_label in
  match List.filter (is_service (pp_service public_port)) containers with
  | [] => report_down [svc_domain] svc_unavailable
  | svc_containers =>
      let! b := upstream (public_entry (Some public_port)) svc_containers in
      match b with
      | None => report_down [svc_domain] svc_unavailable
      | Some svc_backend =>
          insert_route_vacant svc_domain (route_info svc_backend None None project (Some environment) (Some deployment) true)
      end
  end.

(** Section 4: the generated names of an environment. *)
Definition load_environment (env : Environment) : Load unit :=
  match ev_current_deployment_id env with
  | None => act_ret ()
  | Some deployment_id =>
      let main_url := ev_subdomain env in
      let full_domain := environment_hostname sha256_hex Standard preview_domain main_url in
      if ev_sleeping env then
        let! _ := push_sleeping [sleeping_entry env deployment_id main_url; sleeping_entry env deployment_id full_domain] in
        let! project := fetch_project (ev_project_id env) in
        match project with
        | Some project => push_sleeping (map (sleeping_entry env deployment_id) (service_names project main_url))
        | None => act_ret ()
        end
      else
        let! _ := modify (fun s => with_environments (match l_environments s !! ev_id env with
                                                      | Some _ => l_environments s
                                                      | None => <[ev_id env := env]> (l_environments s)
                                                      end) s) in
        let! found := fetch_deployment deployment_id in
        match found with
        | None => act_ret ()
        | Some deployment =>
            let! containers := active_containers deployment deployment_id in
            let! project := fetch_project (ev_project_id env) in
            let! cached := get (fun s => l_environments s !! ev_id env) in
            let environment := default env cached in
            let! backend := environment_backend deployment project containers in
            match backend with
            | Private => act_ret ()
            | Down =>
                if compose_without_public_ports project then act_ret ()
                else match unavailable_route_for project environment deployment with
                     | None => act_ret ()
                     | Some route =>
                         report_down
                           ([main_url; full_domain] ++ option_list (internal_fqdn env (un_project route)) ++ service_names (un_project route) main_url)
                           (Some route)
                     end
            | Served backend =>
                let info := route_info backend None None project (Some environment) (Some deployment) in
                let! _ := insert_route_vacant main_url (info true) in
                let! _ := insert_route_vacant full_domain (info true) in
                let! _ := match (project ← project; internal_fqdn env project) with
                          | Some internal => insert_route_vacant internal (info false)
                          | None => act_ret ()
                          end in
                if existsb (fun c => present (ct_service_name c)) containers then
                  let ports := public_ports project in
                  act_for (load_compose_route environment main_url project deployment containers)
                    (zip ports (compose_public_route_labels ports))
                else act_ret ()
            end
        end
  end.

(** Section 5: the name of an active deployment. *)
Definition load_deployment (env : Environment) : Load unit :=
  if ev_sleeping env then act_ret ()
  else
    let! _ := modify (fun s => with_environments (match l_environments s !! ev_id env with
                                                  | Some _ => l_environments s
                                                  | None => <[ev_id env := env]> (l_environments s)
                                                  end) s) in
    match ev_current_deployment_id env with
    | None => act_ret ()
    | Some deployment_id =>
        let! found_deployment := fetch_deployment deployment_id in
        let! found_project := fetch_project (ev_project_id env) in
        let! cached := get (fun s => l_environments s !! ev_id env) in
        match found_deployment, found_project with
        | Some deployment, Some project =>
            let environment := default env cached in
            let! containers := active_containers deployment deployment_id in
            let! backend := public_backend deployment (Some project) containers in
            let fallback_domain := deployment_hostname sha256_hex Standard preview_domain (dp_slug deployment) in
            match backend with
            | Private => act_ret ()
            | Down =>
                if compose_without_public_ports (Some project) then act_ret ()
                else report_down [fallback_domain] (unavailable_route_for (Some project) environment deployment)
            | Served backend =>
                insert_route_vacant fallback_domain
                  (route_info backend None None (Some project) (Some environment) (Some deployment) false)
            end
        | _, _ => act_ret ()
        end
    end.
End Environments.

(** Section 6: a route discovered from the labels of a container. *)
Definition claimed (s : Loader) (host : string) : bool :=
  contains_key (l_routes s) host || contains_key (l_http s) host || contains_key (l_tls s) host
  || present (Wildcard.match_domain (l_http_wildcards s) host) || present (Wildcard.match_domain (l_tls_wildcards s) host).

Definition load_discovered (discovered : DiscoveredRoute) : Load unit :=
  let host := lowercase (Hostnames.trim (dr_host discovered)) in
  if String.eqb host "" then act_ret ()
  else
    let! is_claimed := get (fun s => claimed s host) in
    if (is_claimed : bool) then act_ret ()
    else
      match build_discovered_backend_addr rt (dr_target_container_name discovered) (dr_target_port discovered) (dr_target_host_port discovered) with
      | None => act_ret ()
      | Some address =>
          let! counter := fresh_counter in
          insert_route host
            (route_info (Upstream [{| be_address := address; be_container_id := Some (dr_target_container_id discovered);
                                      be_container_name := Some (dr_target_container_name discovered) |}] counter)
               None None None None None false)
      end.

(** ** The new snapshot *)

(** [AppSettings::console_hostname] and [dedicated_public_ingress_hostname], with [url_host]. *)
Definition url_candidate (raw : string) : string :=
  match String.index 0 "://" raw with Some _ => raw | None => String.append "https://" raw end.

Definition console_hostname (a : AppSettings) : option string :=
  raw ← as_external_url a;
  let raw := Hostnames.trim raw in
  if String.eqb raw "" then None
  else h ← url_host_str (url_candidate raw); Some (lowercase (trim_end_char dot h)).

Definition explicit_public_ingress_url (a : AppSettings) : option string :=
  raw ← as_public_ingress_url a;
  let raw := trim_end_char "/" (Hostnames.trim raw) in
  if String.eqb raw "" then None else Some raw.

Definition public_ingress_hostname (a : AppSettings) : option string :=
  raw ← explicit_public_ingress_url a;
  let raw := Hostnames.trim raw in
  if String.eqb raw "" then None
  else
    h ← url_host_str (url_candidate raw);
    let h := lowercase (trim_end_char dot h) in
    if String.eqb h "" then None else Some h.

Definition dedicated_public_ingress_hostname (a : AppSettings) : option string :=
  host ← public_ingress_hostname a;
  if bool_decide (console_hostname a = Some host) then None else Some host.

Definition remove_host {A} (host : option string) (m : gmap string A) : gmap string A :=
  match host with Some host => delete host m | None => m end.

(** The wildcard index of the routes that are not custom routes. *)
Definition legacy_wildcards (routes : gmap string RouteInfo) (http_wildcards tls_wildcards : Wildcard.WildcardMatcher RouteInfo)
    : Wildcard.WildcardMatcher RouteInfo :=
  fold_left (fun m hr => (Wildcard.insert m hr.1 (not_certable hr.2)).2)
    (List.filter (fun hr => String.prefix "*." hr.1 && negb (Wildcard.contains_pattern http_wildcards hr.1)
                            && negb (Wildcard.contains_pattern tls_wildcards hr.1)) (map_to_list routes))
    Wildcard.new.

Definition finish (a : AppSettings) (s : Loader) : RouteTableSnapshot :=
  let console := console_hostname a in
  let ingress := dedicated_public_ingress_hostname a in
  let routes := remove_host ingress (remove_host console (l_routes s)) in
  let http := remove_host ingress (remove_host console (l_http s)) in
  let tls := remove_host ingress (remove_host console (l_tls s)) in
  let exact := filter (fun hu => negb (contains_key routes hu.1) && negb (contains_key http hu.1) && negb (contains_key tls hu.1))
                 (uh_exact (l_unavailable s)) in
  let bases := filter (fun hu => negb (contains_key routes (String.append "*." hu.1))) (uh_wildcard_bases (l_unavailable s)) in
  {| sn_http_routes := http; sn_tls_routes := tls;
     sn_http_wildcards := l_http_wildcards s; sn_tls_wildcards := l_tls_wildcards s;
     sn_legacy := {| lg_exact := routes; lg_wildcards := legacy_wildcards routes (l_http_wildcards s) (l_tls_wildcards s);
                     lg_reserved_console_host := console; lg_reserved_ingress_host := ingress |};
     sn_ownership := build_route_ownership_snapshot (keys routes) (keys http) (keys tls) (option_list console ++ option_list ingress);
     sn_unavailable := {| uh_exact := remove_host ingress (remove_host console exact); uh_wildcard_bases := bases |} |}.

(** On-demand settings of the environments that are awake. *)
Definition on_demand_configs (s : Loader) : list OnDemandConfigEntry :=
  omap (fun ie : Z * Environment =>
          let env := ie.2 in
          if ev_sleeping env then None
          else dc ← ev_deployment_config env;
               if dc_on_demand dc
               then Some {| oc_environment_id := ev_id env; oc_idle_timeout_seconds := dc_idle_timeout_seconds dc;
                            oc_wake_timeout_seconds := dc_wake_timeout_seconds dc |}
               else None)
    (map_to_list (l_environments s)).

Definition hostname_strategies (rows : list ManagedDomain) : list (string * PublicHostnameStrategy) :=
  map_to_list (fold_left (fun m d => <[lowercase (md_domain d) := from_db_str (md_generated_hostname_mode d)]> m) rows
                 (∅ : gmap string PublicHostnameStrategy)).

(** The queries of the sections. *)
Definition with_current_deployment (e : Environment) : bool := present (ev_current_deployment_id e) && negb (ev_deleted e).

Definition discovered_rows (t : Tables) : list DiscoveredRoute :=
  match discovery_network with
  | Some network => List.filter (fun d => dr_enabled d && String.eqb (dr_network d) network) (t_discovered t)
  | None => []
  end.

(** Sections 1 to 5: the rows Temps itself wrote. *)
Definition load_own_routes : Load AppSettings :=
  let! row := query_or_fail t_settings in
  let app_settings := default default_settings row in
  let preview_domain := as_preview_domain app_settings in
  let! managed := query t_managed_domains in
  let strategies := hostname_strategies (default [] managed) in
  let! env_domains := query_or_fail t_environment_domains in
  let! _ := act_for load_environment_domain env_domains in
  let! custom_routes := query_or_fail (fun t => List.filter cr_enabled (t_custom_routes t)) in
  let! _ := act_for load_custom_route custom_routes in
  let! custom_domains := query_or_fail t_custom_domains in
  let! _ := act_for load_custom_domain custom_domains in
  let! all_envs := query_or_fail (fun t => List.filter with_current_deployment (t_environments t)) in
  let! _ := act_for (load_environment preview_domain strategies) all_envs in
  let! all_active_envs := query_or_fail (fun t => List.filter with_current_deployment (t_environments t)) in
  let! _ := act_for (load_deployment preview_domain) all_active_envs in
  act_ret app_settings.

(** Section 6. *)
Definition load_discovered_routes : Load unit :=
  match discovery_network with
  | Some _ => let! rows := query_or_fail discovered_rows in act_for load_discovered rows
  | None => act_ret ()
  end.

Definition load_tables : Load AppSettings :=
  let! app_settings := load_own_routes in
  let! _ := load_discovered_routes in
  act_ret app_settings.

Record Loaded := {
  ld_snapshot : RouteTableSnapshot; ld_sleeping : list SleepingEnvironmentEntry; ld_on_demand : list OnDemandConfigEntry }.

(** [load_routes] up to publication; [counter] is the first counter not in use. *)
Definition read_routes (counter : nat) : result LoadError Loaded :=
  match load_tables (loader_new counter) with
  | (Ok app_settings, s) =>
      Ok {| ld_snapshot := finish app_settings s; ld_sleeping := l_sleeping s; ld_on_demand := on_demand_configs s |}
  | (Err e, _) => Err e
  end.
End Load.
