(* ===== verification/RouteSpec.v ===== *)
(** * What the route table promises

    Theorems about [RouteLoad] and the lookups of [RouteTable], whatever the database answers to each query
    of a load.  [routes_live]: a route leads to containers that were up, of the deployment that was current,
    through a port Docker published where the proxy is not on the network of the container.
    [unavailable_current]: a host reported as unavailable has no route, and its deployment was current. *)

From S2P Require Import Prelude IpText Wildcard Hostnames RouteTable RouteLoad.
Local Open Scope Z_scope.

(** ** Relations every step of a load respects *)

Definition respects (R : Loader -> Loader -> Prop) {A} (m : Load A) : Prop := forall s, R s (m s).2.

(** A preorder that the small steps respect, custom routes excepted. *)
Class Stable (R : Loader -> Loader -> Prop) := {
  stable_refl s : R s s;
  stable_trans s1 s2 s3 : R s1 s2 -> R s2 s3 -> R s1 s3;
  stable_tick s : R s (with_tick (S (l_tick s)) s);
  stable_counter s n : R s (with_counter n s);
  stable_projects s m : R s (with_projects m s);
  stable_environments s m : R s (with_environments m s);
  stable_deployments s m : R s (with_deployments m s);
  stable_nodes s m : R s (with_nodes m s);
  stable_sleeping s l : R s (with_sleeping l s);
  stable_unavailable s u : R s (with_unavailable u s);
  stable_insert s h r : R s (with_routes (<[h := r]> (l_routes s)) s) }.

Create HintDb steps.

Section Respects.
Context (R : Loader -> Loader -> Prop) `{!Stable R}.

Lemma respects_ret {A} (a : A) : respects R (act_ret a).
Proof. intros s. apply stable_refl. Qed.

Lemma respects_bind {A B} (m : Load A) (f : A -> Load B) : respects R m -> (forall a, respects R (f a)) -> respects R (act_bind m f).
Proof.
  intros Hm Hf s. specialize (Hm s). unfold act_bind. destruct (m s) as [[a|e] s1]; cbn in *; [|done]. eapply stable_trans; [done|]. apply Hf.
Qed.

Lemma respects_for {A} (f : A -> Load unit) l : (forall x, respects R (f x)) -> respects R (act_for f l).
Proof. intros Hf. induction l as [|x l IH]; cbn [act_for]; [apply respects_ret|]. by apply respects_bind. Qed.

Lemma respects_get {A} (f : Loader -> A) : respects R (get f).
Proof. intros s. apply stable_refl. Qed.

Lemma respects_query db {A} (f : Tables -> A) : respects R (query db f).
Proof. intros s. apply stable_tick. Qed.

Lemma respects_query_or_fail db {A} (f : Tables -> A) : respects R (query_or_fail db f).
Proof. intros s. apply stable_tick. Qed.

Lemma respects_counter : respects R fresh_counter.
Proof. intros s. apply stable_counter. Qed.

Lemma respects_insert_route h r : respects R (insert_route h r).
Proof. intros s. apply stable_insert. Qed.

Lemma respects_insert_route_vacant h r : respects R (insert_route_vacant h r).
Proof. intros s. cbn. unfold insert_vacant. case_bool_decide; [|apply stable_insert]. destruct s. apply stable_refl. Qed.

Lemma respects_push_sleeping l : respects R (push_sleeping l).
Proof. intros s. apply stable_sleeping. Qed.

Lemma respects_mark_unavailable h u : respects R (mark_unavailable h u).
Proof. intros s. apply stable_unavailable. Qed.
End Respects.

#[export] Hint Resolve respects_ret respects_get respects_query respects_query_or_fail respects_counter respects_insert_route
  respects_insert_route_vacant respects_push_sleeping respects_mark_unavailable : steps.

(** Goes through the steps of a load. *)
Ltac steps :=
  repeat (intros; first
    [ solve [eauto with steps typeclass_instances]
    | apply respects_bind; [typeclasses eauto|..] | apply respects_for; [typeclasses eauto|]
    | match goal with
      | |- respects _ (modify _) => intros ?; cbn; first [apply stable_projects | apply stable_environments | apply stable_deployments | apply stable_nodes]
      | |- respects _ (match ?x with _ => _ end) => destruct x
      end ]).

Section Steps.
Context (R : Loader -> Loader -> Prop) `{!Stable R}.

Lemma respects_fetch_environment db id : respects R (fetch_environment db id).
Proof. unfold fetch_environment. steps. Qed.
Lemma respects_fetch_deployment db id : respects R (fetch_deployment db id).
Proof. unfold fetch_deployment. steps. Qed.
Lemma respects_fetch_project db id : respects R (fetch_project db id).
Proof. unfold fetch_project. steps. Qed.
Lemma respects_resolve_node db id : respects R (resolve_node_private_address db id).
Proof. unfold resolve_node_private_address. steps. Qed.
Lemma respects_active_containers db d id : respects R (active_containers db d id).
Proof. unfold active_containers. steps. Qed.
#[local] Hint Resolve respects_fetch_environment respects_fetch_deployment respects_fetch_project respects_resolve_node
  respects_active_containers : steps.

Lemma respects_backend_entries db build cs : respects R (backend_entries db build cs).
Proof. induction cs as [|c cs IH]; cbn [backend_entries]; steps. Qed.
#[local] Hint Resolve respects_backend_entries : steps.
Lemma respects_upstream db build cs : respects R (upstream db build cs).
Proof. unfold upstream. steps. Qed.
#[local] Hint Resolve respects_upstream : steps.
Lemma respects_public_backend db rt d p cs : respects R (public_backend db rt d p cs).
Proof. unfold public_backend. steps. Qed.
Lemma respects_domain_backend db rt d cs : respects R (domain_backend db rt d cs).
Proof. unfold domain_backend. steps. Qed.
Lemma respects_environment_backend db rt d p cs : respects R (environment_backend db rt d p cs).
Proof. unfold environment_backend. steps. Qed.
Lemma respects_report_down hosts r : respects R (report_down hosts r).
Proof. unfold report_down. steps. Qed.
#[local] Hint Resolve respects_public_backend respects_domain_backend respects_environment_backend respects_report_down : steps.

Lemma respects_load_environment_domain db rt d : respects R (load_environment_domain db rt d).
Proof. unfold load_environment_domain. steps. Qed.
Lemma respects_load_custom_domain db rt d : respects R (load_custom_domain db rt d).
Proof. unfold load_custom_domain. steps. Qed.
Lemma respects_load_compose_route db rt sha pv st e u p d cs pl : respects R (load_compose_route db rt sha pv st e u p d cs pl).
Proof. unfold load_compose_route. steps. Qed.
#[local] Hint Resolve respects_load_compose_route : steps.
Lemma respects_load_environment db rt sha pv st e : respects R (load_environment db rt sha pv st e).
Proof. unfold load_environment. steps. Qed.
Lemma respects_load_deployment db rt sha pv e : respects R (load_deployment db rt sha pv e).
Proof. unfold load_deployment. steps. Qed.
Lemma respects_load_discovered rt r : respects R (load_discovered rt r).
Proof. unfold load_discovered. steps. Qed.
#[local] Hint Resolve respects_load_discovered : steps.
Lemma respects_load_discovered_routes db rt net : respects R (load_discovered_routes db rt net).
Proof. unfold load_discovered_routes. steps. Qed.
End Steps.

#[export] Hint Resolve respects_fetch_environment respects_fetch_deployment respects_fetch_project respects_resolve_node
  respects_active_containers respects_backend_entries respects_upstream respects_public_backend respects_domain_backend
  respects_environment_backend respects_report_down respects_load_environment_domain respects_load_custom_domain
  respects_load_compose_route respects_load_environment respects_load_deployment respects_load_discovered
  respects_load_discovered_routes : steps.

(** The clock of a load only goes forward. *)
Definition later (s s' : Loader) : Prop := (l_tick s <= l_tick s')%nat.

#[export] Instance later_stable : Stable later.
Proof. split; unfold later; intros; cbn; lia. Qed.

#[local] Abbreviation forward := (respects later).

Lemma forward_load_custom_route r : forward (load_custom_route r).
Proof. intros s. unfold later. cbn. by destruct (cr_route_type r), (String.prefix "*." (cr_domain r)). Qed.
#[export] Hint Resolve forward_load_custom_route : steps.

(** ** Maps and matchers *)

Lemma insert_vacant_Some {A} key (x : A) m k y : insert_vacant key x m !! k = Some y -> y = x \/ m !! k = Some y.
Proof. unfold insert_vacant. case_bool_decide; [by right|]. rewrite lookup_insert_Some. naive_solver. Qed.

Lemma filter_true {A} (l : list A) : List.filter (fun _ => true) l = l.
Proof. induction l as [|x l IH]; cbn; congruence. Qed.

Lemma wildcard_insert_Some {A} (m : Wildcard.WildcardMatcher A) p r key x :
  Wildcard.patterns (Wildcard.insert m p r).2 !! key = Some x -> x = r \/ Wildcard.patterns m !! key = Some x.
Proof.
  unfold Wildcard.insert. destruct (negb _); [by right|]. destruct (contains_char _ _); [by right|]. destruct (String.eqb _ _); [by right|]. cbn.
  rewrite lookup_insert_Some. naive_solver.
Qed.

Lemma own_port_exposed c : exposes_port c (ct_container_port c) = true.
Proof. unfold exposes_port. by rewrite Z.eqb_refl. Qed.

Lemma with_current_not_deleted e : with_current_deployment e = true -> ev_deleted e = false.
Proof. unfold with_current_deployment. by intros [_ H%negb_true_iff]%andb_prop. Qed.

(** ** Where routes come from *)

Section Provenance.
Context (db : nat -> Tables) (rt : ExecutionEnvironment) (sha256_hex : string -> string) (discovery_network : option string).
(** How many queries the load has made when it ends. *)
Context (N : nat).

(** A row some query of the load could read. *)
Definition seen {A} (rows : Tables -> list A) (x : A) : Prop := exists k, (k < N)%nat /\ t_answers (db k) = true /\ x ∈ rows (db k).

(** A port of the host Docker published for the container. *)
Definition published (c : Container) (port : Z) : Prop := ct_host_port c = Some port \/ exists target, host_port_for c target = Some port.

(** The address of a container: through the node it runs on, through the host, or by name. *)
Definition dials (c : Container) (address : string) : Prop :=
  match ct_node_id c with
  | Some id => exists node port, seen t_nodes node /\ nd_id node = id /\ published c port /\
      address = match ip_from_str (chars (data_address node)) with
                | Some ip => socket_text ip (as_u16 port)
                | None => String.append (data_address node) (String ":" (decimal port))
                end
  | None =>
      match rt with
      | Host => exists port, published c port /\ address = String.append "127.0.0.1" (String ":" (decimal (as_u16 port)))
      | Docker => exists port, exposes_port c port = true /\ address = String.append (ct_container_name c) (String ":" (decimal (as_u16 port)))
      end
  end.

(** A container of the deployment that is not deleted, and running or never given a status. *)
Definition is_live (deployment_id : Z) (c : Container) : Prop :=
  ct_deployment_id c = deployment_id /\ ct_deleted c = false /\ (ct_status c = None \/ ct_status c = Some "running").

Definition live_entry (deployment_id : Z) (b : BackendEntry) : Prop :=
  exists c, seen t_containers c /\ is_live deployment_id c /\ be_container_id b = Some (ct_container_id c) /\ dials c (be_address b).

Definition live_backend (d : Deployment) (b : BackendType) : Prop :=
  match b with
  | StaticDir dir => dp_static_dir_location d = Some dir
  | Upstream entries _ => entries <> [] /\ dp_state d <> "paused" /\ Forall (live_entry (dp_id d)) entries
  end.

(** The deployment is the current one of an environment that is awake and not deleted. *)
Definition current_of (d : Deployment) (environment : Environment) : Prop :=
  seen t_deployments d /\
  exists e, seen t_environments e /\ ev_deleted e = false /\ ev_sleeping e = false /\ ev_current_deployment_id e = Some (dp_id d) /\
    ev_id e = ev_id environment.

Definition manual_backend (b : BackendType) : Prop :=
  exists r counter, seen t_custom_routes r /\ cr_enabled r = true /\
    b = Upstream [{| be_address := String.append (cr_host r) (String ":" (decimal (cr_port r))); be_container_id := None; be_container_name := None |}] counter.

Definition discovered_backend (b : BackendType) : Prop :=
  exists r network address counter, seen t_discovered r /\ dr_enabled r = true /\ discovery_network = Some network /\ dr_network r = network /\
    build_discovered_backend_addr rt (dr_target_container_name r) (dr_target_port r) (dr_target_host_port r) = Some address /\
    b = Upstream [{| be_address := address; be_container_id := Some (dr_target_container_id r);
                     be_container_name := Some (dr_target_container_name r) |}] counter.

Definition route_ok (r : RouteInfo) : Prop :=
  match rt_deployment r with
  | Some d => exists e, rt_environment r = Some e /\ current_of d e /\ live_backend d (rt_backend r)
  | None => rt_environment r = None /\ rt_project r = None /\ (manual_backend (rt_backend r) \/ discovered_backend (rt_backend r))
  end.

Definition unavailable_ok (u : UnavailableRoute) : Prop :=
  current_of (un_deployment u) (un_environment u) /\ un_reason u = (if is_paused (un_deployment u) then Paused else NoLiveBackend).

(** ** The invariant of a load *)

Record Sound (s : Loader) : Prop := {
  ok_environments id e : l_environments s !! id = Some e -> ev_id e = id /\ seen t_environments e /\ ev_deleted e = false;
  ok_deployments id d : l_deployments s !! id = Some d -> dp_id d = id /\ seen t_deployments d;
  ok_nodes id a : l_nodes s !! id = Some a -> exists node, seen t_nodes node /\ nd_id node = id /\ data_address node = a;
  ok_routes host r : l_routes s !! host = Some r -> route_ok r;
  ok_http host r : l_http s !! host = Some r -> route_ok r;
  ok_tls host r : l_tls s !! host = Some r -> route_ok r;
  ok_http_wildcards key r : Wildcard.patterns (l_http_wildcards s) !! key = Some r -> route_ok r;
  ok_tls_wildcards key r : Wildcard.patterns (l_tls_wildcards s) !! key = Some r -> route_ok r;
  ok_exact host u : uh_exact (l_unavailable s) !! host = Some u -> unavailable_ok u;
  ok_bases base u : uh_wildcard_bases (l_unavailable s) !! base = Some u -> unavailable_ok u }.

(** A step that keeps it, and what it answers. *)
Definition sound {A} (m : Load A) (Q : A -> Prop) : Prop :=
  forall s, Sound s -> (l_tick (m s).2 <= N)%nat -> Sound (m s).2 /\ match (m s).1 with Ok a => Q a | Err _ => True end.

Lemma sound_ret {A} (a : A) (Q : A -> Prop) : Q a -> sound (act_ret a) Q.
Proof. by intros HQ s. Qed.

Lemma sound_bind {A B} (m : Load A) (f : A -> Load B) R Q :
  sound m R -> (forall a, R a -> sound (f a) Q) -> (forall a, forward (f a)) -> sound (act_bind m f) Q.
Proof.
  intros Hm Hf Hfw s Hs. specialize (Hm s Hs). unfold act_bind. destruct (m s) as [[a|e] s1]; cbn in *; [|done].
  specialize (Hfw a s1). unfold later in Hfw. intros HN. destruct (Hm ltac:(lia)) as [Hs1 Ha]. by apply (Hf a Ha s1).
Qed.

Lemma sound_weaken {A} (m : Load A) (Q Q' : A -> Prop) : sound m Q -> (forall a, Q a -> Q' a) -> sound m Q'.
Proof. intros Hm HQ s Hs HN. destruct (Hm s Hs HN) as [? Ha]. split; [done|]. destruct (m s).1; [by apply HQ|done]. Qed.

Lemma sound_for {A} (f : A -> Load unit) (l : list A) (Q : unit -> Prop) :
  Q () -> (forall x, x ∈ l -> sound (f x) (fun _ => True)) -> (forall x, forward (f x)) -> sound (act_for f l) Q.
Proof.
  intros HQ Hf Hfw. induction l as [|x l IH]; cbn [act_for]; [by apply sound_ret|].
  eapply sound_bind; [apply Hf; set_solver| |by intros; apply respects_for; [typeclasses eauto|]]. intros _ _. apply IH. set_solver.
Qed.

Lemma sound_modify f (Q : unit -> Prop) : Q () -> (forall s, Sound s -> Sound (f s)) -> sound (modify f) Q.
Proof. intros HQ Hf s Hs _. cbn. split; [by apply Hf|done]. Qed.

Lemma sound_get {A} (f : Loader -> A) (Q : A -> Prop) : (forall s, Sound s -> Q (f s)) -> sound (get f) Q.
Proof. intros HQ s Hs _. cbn. split; [done|]. by apply HQ. Qed.

Lemma Sound_tick n s : Sound s -> Sound (with_tick n s).
Proof. intros []. by split. Qed.

Lemma sound_query {A} (f : Tables -> A) :
  sound (query db f) (fun o => forall x, o = Some x -> exists k, (k < N)%nat /\ t_answers (db k) = true /\ x = f (db k)).
Proof.
  intros s Hs HN. cbn in *. split; [by apply Sound_tick|]. destruct (t_answers (db (l_tick s))) eqn:Ha; [|done].
  intros x [= <-]. exists (l_tick s). split_and!; [lia|done..].
Qed.

Lemma sound_query_or_fail {A} (f : Tables -> A) :
  sound (query_or_fail db f) (fun x => exists k, (k < N)%nat /\ t_answers (db k) = true /\ x = f (db k)).
Proof.
  intros s Hs HN. cbn in *. split; [by apply Sound_tick|]. destruct (t_answers (db (l_tick s))) eqn:Ha; [|done].
  exists (l_tick s). split_and!; [lia|done..].
Qed.

Lemma sound_counter : sound fresh_counter (fun _ => True).
Proof. intros s [] _. cbn. split; [by split|done]. Qed.

(** ** Queries *)

Lemma find_seen {A} (p : A -> bool) (rows : Tables -> list A) k x :
  (k < N)%nat -> t_answers (db k) = true -> List.find p (rows (db k)) = Some x -> seen rows x /\ p x = true.
Proof. intros Hk Ha [Hin Hp]%find_some. split; [|done]. exists k. split_and!; [done..|by apply list_elem_of_In]. Qed.

Lemma sound_fetch_environment id :
  sound (fetch_environment db id) (fun o => forall e, o = Some e -> ev_id e = id /\ seen t_environments e /\ ev_deleted e = false).
Proof.
  unfold fetch_environment. apply sound_bind with (R := fun o => forall e, o = Some e -> ev_id e = id /\ seen t_environments e /\ ev_deleted e = false); [apply sound_get| |steps].
  { intros s Hs e He. by apply (ok_environments _ Hs) in He. }
  intros [e|] He; [apply sound_ret; intros ? [= <-]; by apply He|]. eapply sound_bind; [apply sound_query| |steps].
  intros [[e|]|] Hq; try by apply sound_ret. destruct (Hq _ eq_refl) as (k & Hk & Ha & Hf). symmetry in Hf.
  apply (find_seen _ t_environments) in Hf as (Hseen & [Hid%Z.eqb_eq Hdel%negb_true_iff]%andb_prop); [|done..].
  eapply sound_bind with (R := fun _ => True); [|intros _ _; apply sound_ret; by intros ? [= <-]|steps].
  apply sound_modify; [done|]. intros s []. split; try done. intros id' e'. cbn. rewrite lookup_insert_Some. naive_solver.
Qed.

Lemma sound_fetch_deployment id : sound (fetch_deployment db id) (fun o => forall d, o = Some d -> dp_id d = id /\ seen t_deployments d).
Proof.
  unfold fetch_deployment. apply sound_bind with (R := fun o => forall e, o = Some e -> dp_id e = id /\ seen t_deployments e); [apply sound_get| |steps].
  { intros s Hs e He. by apply (ok_deployments _ Hs) in He. }
  intros [e|] He; [apply sound_ret; intros ? [= <-]; by apply He|]. eapply sound_bind; [apply sound_query| |steps].
  intros [[e|]|] Hq; try by apply sound_ret. destruct (Hq _ eq_refl) as (k & Hk & Ha & Hf). symmetry in Hf.
  apply (find_seen _ t_deployments) in Hf as (Hseen & Hid%Z.eqb_eq); [|done..].
  eapply sound_bind with (R := fun _ => True); [|intros _ _; apply sound_ret; by intros ? [= <-]|steps].
  apply sound_modify; [done|]. intros s []. split; try done. intros id' e'. cbn. rewrite lookup_insert_Some. naive_solver.
Qed.

Lemma sound_fetch_project id : sound (fetch_project db id) (fun _ => True).
Proof.
  unfold fetch_project. eapply sound_bind with (R := fun _ => True); [by apply sound_get| |steps].
  intros [e|] _; [by apply sound_ret|]. eapply sound_bind; [apply sound_query| |steps].
  intros [[e|]|] _; try by apply sound_ret.
  eapply sound_bind with (R := fun _ => True); [|intros _ _; by apply sound_ret|steps]. apply sound_modify; [done|]. intros s []. by split.
Qed.

Lemma sound_resolve_node id :
  sound (resolve_node_private_address db id)
    (fun o => forall a, o = Some a -> exists i node, id = Some i /\ seen t_nodes node /\ nd_id node = i /\ data_address node = a).
Proof.
  unfold resolve_node_private_address. destruct id as [id|]; [|by apply sound_ret].
  apply sound_bind with (R := fun o => forall e, o = Some e -> exists node, seen t_nodes node /\ nd_id node = id /\ data_address node = e); [apply sound_get| |steps].
  { intros s Hs e He. by apply (ok_nodes _ Hs) in He. }
  intros [a|] Ha; [apply sound_ret; intros ? [= <-]; destruct (Ha _ eq_refl) as (n & ? & ? & ?); by exists id, n|].
  eapply sound_bind; [apply sound_query| |steps].
  intros [[n|]|] Hq; try by apply sound_ret. destruct (Hq _ eq_refl) as (k & Hk & Hans & Hf). symmetry in Hf.
  apply (find_seen _ t_nodes) in Hf as (Hseen & Hid%Z.eqb_eq); [|done..].
  eapply sound_bind with (R := fun _ => True); [|intros _ _; apply sound_ret; intros ? [= <-]; by exists id, n|steps].
  apply sound_modify; [done|]. intros s []. split; try done. intros id' e'. cbn. rewrite lookup_insert_Some. naive_solver.
Qed.

Lemma routable_live id c : routable id c = true -> is_live id c.
Proof.
  unfold routable, is_up, is_live. intros [[->%Z.eqb_eq ->%negb_true_iff]%andb_true_iff Hup]%andb_true_iff. split_and!; [done..|].
  destruct (ct_status c) as [status|]; [right; f_equal; by apply String.eqb_eq|by left].
Qed.

Lemma sound_active_containers d id :
  sound (active_containers db d id)
    (fun cs => Forall (fun c => seen t_containers c /\ is_live id c) cs /\ (cs <> [] -> dp_state d <> "paused")).
Proof.
  unfold active_containers. destruct (is_paused d) eqn:Hp; [by apply sound_ret|]. eapply sound_bind; [apply sound_query| |steps].
  intros [rows|] Hq; apply sound_ret; cbn; [|done]. split; [|intros _; by apply String.eqb_neq]. destruct (Hq _ eq_refl) as (k & Hk & Ha & ->).
  apply list.Forall_forall. intros c [Hin Hr]%list_elem_of_In%filter_In. split; [|by apply routable_live]. exists k. split_and!; [done..|by apply list_elem_of_In].
Qed.

(** ** Backends *)

(** The address the node of a container was resolved to. *)
Definition resolved (c : Container) (a : option string) : Prop :=
  forall ad, a = Some ad -> exists i node, ct_node_id c = Some i /\ seen t_nodes node /\ nd_id node = i /\ data_address node = ad.

Definition dials_rightly (build : Container -> option string -> option BackendEntry) : Prop :=
  forall c a b, build c a = Some b -> resolved c a -> be_container_id b = Some (ct_container_id c) /\ dials c (be_address b).

Lemma container_addr_dials c port host_port a :
  resolved c a -> (ct_node_id c <> None -> a <> None) -> exposes_port c port = true ->
  (forall hp, host_port = Some hp -> published c hp) -> (a <> None \/ rt = Host -> host_port <> None) ->
  dials c (build_container_backend_addr rt (ct_container_name c) port host_port a).
Proof.
  intros Hr Hn He Hp Hh. unfold dials, build_container_backend_addr. destruct a as [ad|].
  - destruct (Hr _ eq_refl) as (i & node & -> & Hseen & Hid & <-). destruct host_port as [hp|]; [|by destruct Hh; [left|]].
    exists node, hp. split_and!; [done..|by apply Hp|done].
  - destruct (ct_node_id c); [by destruct Hn|]. destruct rt.
    + destruct host_port as [hp|]; [|by destruct Hh; [right|]]. exists hp. split; [by apply Hp|done].
    + by exists port.
Qed.

Lemma build_backend_entry_dials : dials_rightly (build_backend_entry rt).
Proof.
  intros c a b Hb Hr. unfold build_backend_entry in Hb. destruct (present (ct_node_id c) && negb (present a)) eqn:H1; [done|].
  destruct ((present a || is_host rt) && negb (present (ct_host_port c))) eqn:H2; [done|]. simplify_eq/=. split; [done|].
  apply container_addr_dials; [done| |apply own_port_exposed|by left|].
  - destruct (ct_node_id c), a; cbn in *; naive_solver.
  - destruct a, (ct_host_port c), rt; cbn in *; naive_solver.
Qed.

Lemma public_compose_dials port : dials_rightly (fun c a => build_public_compose_backend_entry rt c a port).
Proof.
  intros c a b Hb Hr. unfold build_public_compose_backend_entry in Hb. destruct (present (ct_node_id c) && negb (present a)) eqn:H1; [done|].
  unfold build_public_compose_backend_addr in Hb. destruct (exposes_port c (pp_port port)) eqn:He.
  - rewrite Z.eqb_refl in Hb. cbn [negb] in Hb.
    destruct ((present a || is_host rt) && negb (present (host_port_for c (pp_port port)))) eqn:H2; [done|]. simplify_eq/=. split; [done|].
    apply container_addr_dials; [done| |done|intros hp Hhp; right; by exists (pp_port port)|].
    + destruct (ct_node_id c), a; cbn in *; naive_solver.
    + destruct a, (host_port_for c (pp_port port)), rt; cbn in *; naive_solver.
  - unfold exposes_port in He. apply orb_false_elim in He as [He _]. by rewrite He in Hb.
Qed.

Lemma public_entry_dials port : dials_rightly (public_entry rt port).
Proof. destruct port; [apply public_compose_dials|apply build_backend_entry_dials]. Qed.

Definition up_containers (id : Z) (cs : list Container) : Prop := Forall (fun c => seen t_containers c /\ is_live id c) cs.

Lemma sound_backend_entries id build cs :
  dials_rightly build -> up_containers id cs -> sound (backend_entries db build cs) (fun bs => Forall (live_entry id) bs).
Proof.
  intros Hb Hcs. induction Hcs as [|c cs [Hseen Hr] _ IH]; cbn [backend_entries]; [by apply sound_ret|].
  eapply sound_bind; [apply sound_resolve_node| |steps]. intros a Ha. eapply sound_bind; [exact IH| |steps].
  intros bs Hbs. apply sound_ret. destruct (build c a) as [b|] eqn:Hbuild; [|done]. constructor; [|done]. exists c. split_and!; [done..| |];
    by eapply Hb.
Qed.

(** A backend made of the containers that are up. *)
Definition up_backend (id : Z) (b : BackendType) : Prop :=
  match b with Upstream entries _ => entries <> [] /\ Forall (live_entry id) entries | StaticDir _ => False end.

Lemma sound_upstream id build cs :
  dials_rightly build -> up_containers id cs -> sound (upstream db build cs) (fun o => forall b, o = Some b -> up_backend id b).
Proof.
  intros Hb Hcs. unfold upstream. eapply sound_bind; [by apply sound_backend_entries| |steps]. intros [|b bs] Hbs; [by apply sound_ret|].
  eapply sound_bind; [apply sound_counter| |steps]. intros n _. apply sound_ret. by intros ? [= <-].
Qed.

Definition serves (d : Deployment) (sv : Serving) : Prop := forall b, sv = Served b -> live_backend d b.

Lemma up_backend_serves d (o : option BackendType) :
  dp_state d <> "paused" -> (forall b, o = Some b -> up_backend (dp_id d) b) -> serves d (served o).
Proof. intros Hp Ho b. destruct o as [b'|]; [|done]. intros [= ->]. specialize (Ho _ eq_refl). destruct b; [|done]. by destruct Ho. Qed.

Lemma up_filter id p cs : up_containers id cs -> up_containers id (List.filter p cs).
Proof. intros H. apply list.Forall_forall. intros c [Hin _]%list_elem_of_In%filter_In. apply list_elem_of_In in Hin. by eapply list.Forall_forall in H. Qed.

Lemma select_up id cs port cs' : up_containers id cs -> select_public_route_containers cs port = Some cs' -> up_containers id cs'.
Proof.
  intros Hcs. unfold select_public_route_containers. destruct (negb _); [by intros [= <-]|]. destruct port as [port|]; cbn; [|done].
  set (f := fun c => _). pose proof (up_filter id f cs Hcs). destruct (List.filter f cs); [done|]. by intros [= <-].
Qed.

Section Backends.
Context (d : Deployment) (cs : list Container) (Hup : up_containers (dp_id d) cs) (Hpaused : cs <> [] -> dp_state d <> "paused").

Lemma sound_served (o : Load (option BackendType)) :
  dp_state d <> "paused" ->
  sound o (fun o => forall b, o = Some b -> up_backend (dp_id d) b) -> sound (act_bind o (fun b => act_ret (served b))) (serves d).
Proof. intros Hp Ho. eapply sound_bind; [exact Ho| |steps]. intros b Hb. apply sound_ret. by apply up_backend_serves. Qed.

Lemma sound_public_backend project : sound (public_backend db rt d project cs) (serves d).
Proof.
  unfold public_backend. destruct (dp_static_dir_location d) as [dir|] eqn:Hs; [apply sound_ret; by intros b [= <-]|].
  destruct cs as [|c cs'] eqn:Hcs; [by apply sound_ret|]. rewrite <- Hcs in *.
  destruct (select_public_route_containers cs (head (public_ports project))) as [sel|] eqn:Hsel; [|apply sound_ret; by destruct (head _)].
  apply sound_served; [apply Hpaused; by rewrite Hcs|]. apply sound_upstream; [apply public_entry_dials|by eapply select_up].
Qed.

Lemma sound_environment_backend project : sound (environment_backend db rt d project cs) (serves d).
Proof.
  unfold environment_backend. destruct (dp_static_dir_location d) as [dir|] eqn:Hs; [apply sound_ret; by intros b [= <-]|].
  destruct cs as [|c cs'] eqn:Hcs; [by apply sound_ret|]. rewrite <- Hcs in *. assert (dp_state d <> "paused") by (apply Hpaused; by rewrite Hcs).
  destruct (existsb _ cs); [destruct (public_ports project) as [|pp pps]; [by apply sound_ret|]|];
    (apply sound_served; [done..|]; apply sound_upstream; [apply public_entry_dials|by try apply up_filter]).
Qed.

Lemma sound_domain_backend p : sound (domain_backend db rt d (List.filter p cs)) (serves d).
Proof.
  unfold domain_backend. destruct (dp_static_dir_location d) as [dir|] eqn:Hs; [apply sound_ret; by intros b [= <-]|].
  destruct (List.filter p cs) as [|c cs'] eqn:Hcs; [by apply sound_ret|]. rewrite <- Hcs.
  apply sound_served; [|apply sound_upstream; [apply build_backend_entry_dials|by apply up_filter]].
  apply Hpaused. intros ->. by cbn in Hcs.
Qed.
End Backends.

(** ** Sections *)

Lemma sound_insert_route host r : route_ok r -> sound (insert_route host r) (fun _ => True).
Proof. intros Hr. apply sound_modify; [done|]. intros s []. split; try done. intros h r'. cbn. rewrite lookup_insert_Some. naive_solver. Qed.

Lemma sound_insert_route_vacant host r : route_ok r -> sound (insert_route_vacant host r) (fun _ => True).
Proof. intros Hr. apply sound_modify; [done|]. intros s []. split; try done. intros h r'. cbn. intros [->|?]%insert_vacant_Some; eauto. Qed.

Lemma sound_push_sleeping l : sound (push_sleeping l) (fun _ => True).
Proof. apply sound_modify; [done|]. intros s []. by split. Qed.

Lemma sound_mark_unavailable host u : unavailable_ok u -> sound (mark_unavailable host u) (fun _ => True).
Proof.
  intros Hu. apply sound_modify; [done|]. intros s []. unfold record_unavailable.
  split; try done; cbn; intros h u'; destruct (strip_prefix "*." host) as [base|]; try destruct (String.eqb base ""); cbn; eauto;
    intros [->|?]%insert_vacant_Some; eauto.
Qed.

Lemma sound_report_down hosts o : (forall u, o = Some u -> unavailable_ok u) -> sound (report_down hosts o) (fun _ => True).
Proof.
  intros Ho. unfold report_down. destruct o as [u|]; [|by apply sound_ret].
  apply sound_for; [done| |steps]. intros host _. by apply sound_mark_unavailable, Ho.
Qed.

Lemma unavailable_route_ok project e d u : current_of d e -> unavailable_route_for project e d = Some u -> unavailable_ok u.
Proof. intros Hc. unfold unavailable_route_for. destruct project; cbn; [|done]. by intros [= <-]. Qed.

Lemma route_info_ok backend redirect code project e d cert :
  current_of d e -> live_backend d backend -> route_ok (route_info backend redirect code project (Some e) (Some d) cert).
Proof. intros Hc Hl. exists e. by split_and!. Qed.

Lemma sound_load_environment_domain ed : sound (load_environment_domain db rt ed) (fun _ => True).
Proof.
  unfold load_environment_domain. eapply sound_bind; [apply sound_fetch_environment| |steps].
  intros [e|] He; [|by apply sound_ret]. destruct (He _ eq_refl) as (_ & Hse & Hdel). clear He.
  destruct (ev_current_deployment_id e) as [id|] eqn:Hid; [|by apply sound_ret]. destruct (ev_sleeping e) eqn:Hsl; [apply sound_push_sleeping|].
  eapply sound_bind; [apply sound_fetch_deployment| |steps]. intros [d|] Hd; [|by apply sound_ret]. destruct (Hd _ eq_refl) as (<- & Hsd). clear Hd.
  assert (current_of d e) as Hc by (split; [done|]; by exists e).
  eapply sound_bind; [apply sound_active_containers| |steps]. intros cs (Hup & Hp).
  eapply sound_bind; [apply sound_fetch_project| |steps]. intros project _.
  eapply sound_bind; [by apply sound_public_backend| |steps]. intros [| |b] Hb; [by apply sound_ret| |].
  - destruct (compose_without_public_ports project); [by apply sound_ret|]. apply sound_report_down. intros u. by apply unavailable_route_ok.
  - apply sound_insert_route, route_info_ok; [done|by apply Hb].
Qed.

Lemma sound_load_custom_domain cd : sound (load_custom_domain db rt cd) (fun _ => True).
Proof.
  unfold load_custom_domain. eapply sound_bind; [apply sound_fetch_environment| |steps].
  intros [e|] He; [|by apply sound_ret]. destruct (He _ eq_refl) as (_ & Hse & Hdel). clear He.
  destruct (ev_current_deployment_id e) as [id|] eqn:Hid; [|by apply sound_ret]. destruct (ev_sleeping e) eqn:Hsl; [apply sound_push_sleeping|].
  eapply sound_bind; [apply sound_fetch_deployment| |steps]. intros [d|] Hd; [|by apply sound_ret]. destruct (Hd _ eq_refl) as (<- & Hsd). clear Hd.
  assert (current_of d e) as Hc by (split; [done|]; by exists e).
  eapply sound_bind; [apply sound_active_containers| |steps]. intros cs (Hup & Hp).
  eapply sound_bind; [apply sound_fetch_project| |steps]. intros project _.
  apply sound_bind with (R := serves d); [| |steps].
  { destruct (cd_service_name cd); [by apply sound_domain_backend|]. rewrite <- (filter_true cs). by apply sound_domain_backend. }
  intros [| |b] Hb; [apply sound_report_down; intros u; by apply unavailable_route_ok..|].
  apply sound_insert_route, route_info_ok; [done|by apply Hb].
Qed.

Lemma sound_load_custom_route r : seen t_custom_routes r -> cr_enabled r = true -> sound (load_custom_route r) (fun _ => True).
Proof.
  intros Hr He. unfold load_custom_route. eapply sound_bind; [apply sound_counter| |]; cycle 1.
  { intros counter s. unfold later. cbn. by destruct (cr_route_type r), (String.prefix _ _). }
  intros counter _.
  set (info := route_info _ _ _ _ _ _ _). assert (route_ok info) as Hok by (split_and!; [done..|]; left; by exists r, counter).
  eapply sound_bind with (R := fun _ => True); [|intros _ _; by apply sound_insert_route|steps].
  apply sound_modify; [done|]. intros s Hs. destruct Hs. destruct (cr_route_type r), (String.prefix "*." (cr_domain r)); split; try done; cbn; intros h x;
    first [intros [->|?]%wildcard_insert_Some; eauto | rewrite lookup_insert_Some; naive_solver].
Qed.

Lemma sound_load_compose_route preview strategies e url project d cs pl :
  current_of d e -> up_containers (dp_id d) cs -> (cs <> [] -> dp_state d <> "paused") ->
  sound (load_compose_route db rt sha256_hex preview strategies e url project d cs pl) (fun _ => True).
Proof.
  intros Hc Hup Hp. unfold load_compose_route. destruct pl as [port label].
  destruct (List.filter (is_service (pp_service port)) cs) as [|c cs'] eqn:Hcs; [apply sound_report_down; intros u; by apply unavailable_route_ok|].
  rewrite <- Hcs. eapply sound_bind; [apply sound_upstream; [apply public_entry_dials|by apply up_filter]| |steps].
  intros [b|] Hb; [|apply sound_report_down; intros u; by apply unavailable_route_ok].
  apply sound_insert_route_vacant, route_info_ok; [done|]. specialize (Hb _ eq_refl). destruct b; [|done]. destruct Hb. split_and!; try done.
  apply Hp. intros ->. by cbn in Hcs.
Qed.

(** The environment of a row: the row itself, or an earlier read of it. *)
Lemma sound_cached_environment env :
  sound (get (fun s => l_environments s !! ev_id env)) (fun o => forall e, o = Some e -> ev_id e = ev_id env).
Proof. apply sound_get. intros s Hs e He. by apply (ok_environments _ Hs) in He as (-> & _). Qed.

Lemma sound_cache_environment env :
  seen t_environments env -> ev_deleted env = false ->
  sound (modify (fun s => with_environments (match l_environments s !! ev_id env with
                                             | Some _ => l_environments s
                                             | None => <[ev_id env := env]> (l_environments s)
                                             end) s)) (fun _ => True).
Proof.
  intros Hs Hd. apply sound_modify; [done|]. intros s []. split; try done. intros id e. cbn.
  destruct (l_environments s !! ev_id env); [eauto|]. rewrite lookup_insert_Some. naive_solver.
Qed.

Lemma current_of_row d env cached :
  seen t_deployments d -> seen t_environments env -> ev_deleted env = false -> ev_sleeping env = false ->
  ev_current_deployment_id env = Some (dp_id d) -> (forall e, cached = Some e -> ev_id e = ev_id env) -> current_of d (default env cached).
Proof. intros Hd Hs Hdel Hsl Hid Hc. split; [done|]. exists env. split_and!; try done. destruct cached; cbn; [by rewrite (Hc _ eq_refl)|done]. Qed.

Lemma sound_load_environment preview strategies env :
  seen t_environments env -> ev_deleted env = false -> sound (load_environment db rt sha256_hex preview strategies env) (fun _ => True).
Proof.
  intros Hse Hdel. unfold load_environment. destruct (ev_current_deployment_id env) as [id|] eqn:Hid; [|by apply sound_ret].
  destruct (ev_sleeping env) eqn:Hsl.
  { eapply sound_bind; [apply sound_push_sleeping| |steps]. intros _ _. eapply sound_bind; [apply sound_fetch_project| |steps].
    intros [p|] _; [apply sound_push_sleeping|by apply sound_ret]. }
  eapply sound_bind; [by apply sound_cache_environment| |steps]. intros _ _.
  eapply sound_bind; [apply sound_fetch_deployment| |steps]. intros [d|] Hd; [|by apply sound_ret]. destruct (Hd _ eq_refl) as (<- & Hsd). clear Hd.
  eapply sound_bind; [apply sound_active_containers| |steps]. intros cs (Hup & Hp).
  eapply sound_bind; [apply sound_fetch_project| |steps]. intros project _.
  eapply sound_bind; [apply sound_cached_environment| |steps]. intros cached Hcached.
  pose proof (current_of_row d env cached Hsd Hse Hdel Hsl Hid Hcached) as Hc. set (e := default env cached) in *.
  eapply sound_bind; [by apply sound_environment_backend| |steps]. intros [| |b] Hb; [by apply sound_ret| |].
  - destruct (compose_without_public_ports project); [by apply sound_ret|].
    destruct (unavailable_route_for project e d) as [u|] eqn:Hu; [|by apply sound_ret]. apply sound_report_down.
    intros ? [= <-]. by eapply unavailable_route_ok.
  - specialize (Hb _ eq_refl). eapply sound_bind; [by apply sound_insert_route_vacant, route_info_ok| |steps]. intros _ _.
    eapply sound_bind; [by apply sound_insert_route_vacant, route_info_ok| |steps]. intros _ _.
    apply sound_bind with (R := fun _ => True); [| |steps].
    { destruct (_ ← project; _); [by apply sound_insert_route_vacant, route_info_ok|by apply sound_ret]. }
    intros _ _. destruct (existsb _ cs); [|by apply sound_ret]. apply sound_for; [done| |steps]. intros pl _. by apply sound_load_compose_route.
Qed.

Lemma sound_load_deployment preview env :
  seen t_environments env -> ev_deleted env = false -> sound (load_deployment db rt sha256_hex preview env) (fun _ => True).
Proof.
  intros Hse Hdel. unfold load_deployment. destruct (ev_sleeping env) eqn:Hsl; [by apply sound_ret|].
  eapply sound_bind; [by apply sound_cache_environment| |steps]. intros _ _.
  destruct (ev_current_deployment_id env) as [id|] eqn:Hid; [|by apply sound_ret].
  eapply sound_bind; [apply sound_fetch_deployment| |steps]. intros od Hd.
  eapply sound_bind; [apply sound_fetch_project| |steps]. intros op _.
  eapply sound_bind; [apply sound_cached_environment| |steps]. intros cached Hcached.
  destruct od as [d|]; [|by apply sound_ret]. destruct op as [p|]; [|by apply sound_ret]. destruct (Hd _ eq_refl) as (<- & Hsd). clear Hd.
  pose proof (current_of_row d env cached Hsd Hse Hdel Hsl Hid Hcached) as Hc. set (e := default env cached) in *.
  eapply sound_bind; [apply sound_active_containers| |steps]. intros cs (Hup & Hp).
  eapply sound_bind; [by apply sound_public_backend| |steps]. intros [| |b] Hb; [by apply sound_ret| |].
  - destruct (compose_without_public_ports (Some p)); [by apply sound_ret|]. apply sound_report_down. intros u. by apply unavailable_route_ok.
  - apply sound_insert_route_vacant, route_info_ok; [done|by apply Hb].
Qed.

Lemma sound_load_discovered r network :
  seen t_discovered r -> dr_enabled r = true -> discovery_network = Some network -> dr_network r = network ->
  sound (load_discovered rt r) (fun _ => True).
Proof.
  intros Hs He Hn Hr. unfold load_discovered. destruct (String.eqb _ _); [by apply sound_ret|].
  eapply sound_bind with (R := fun _ => True); [by apply sound_get| |steps]. intros [] _; [by apply sound_ret|].
  destruct (build_discovered_backend_addr _ _ _ _) as [address|] eqn:Ha; [|by apply sound_ret].
  eapply sound_bind; [apply sound_counter| |steps]. intros counter _. apply sound_insert_route. split_and!; [done..|]. right.
  by exists r, network, address, counter.
Qed.

Lemma query_rows {A} (p : A -> bool) (rows : Tables -> list A) k x :
  (k < N)%nat -> t_answers (db k) = true -> x ∈ List.filter p (rows (db k)) -> seen rows x /\ p x = true.
Proof. intros Hk Ha [Hin Hp]%list_elem_of_In%filter_In. split; [|done]. exists k. split_and!; [done..|by apply list_elem_of_In]. Qed.

Lemma sound_load_own_routes : sound (load_own_routes db rt sha256_hex) (fun _ => True).
Proof.
  unfold load_own_routes. eapply sound_bind; [apply sound_query_or_fail| |steps]. intros row _.
  eapply sound_bind; [apply sound_query| |steps]. intros managed _.
  eapply sound_bind; [apply sound_query_or_fail| |steps]. intros eds _.
  eapply sound_bind with (R := fun _ => True); [apply sound_for; [done|intros; apply sound_load_environment_domain|steps]| |steps]. intros _ _.
  eapply sound_bind; [apply sound_query_or_fail| |steps]. intros crs (k1 & Hk1 & Ha1 & ->).
  eapply sound_bind with (R := fun _ => True); [apply sound_for; [done| |steps]| |steps].
  { intros r [Hr He]%(query_rows _ t_custom_routes); [|done..]. by apply sound_load_custom_route. }
  intros _ _. eapply sound_bind; [apply sound_query_or_fail| |steps]. intros cds _.
  eapply sound_bind with (R := fun _ => True); [apply sound_for; [done|intros; apply sound_load_custom_domain|steps]| |steps]. intros _ _.
  eapply sound_bind; [apply sound_query_or_fail| |steps]. intros envs (k2 & Hk2 & Ha2 & ->).
  eapply sound_bind with (R := fun _ => True); [apply sound_for; [done| |steps]| |steps].
  { intros e [He Hd%with_current_not_deleted]%(query_rows _ t_environments); [|done..]. by apply sound_load_environment. }
  intros _ _. eapply sound_bind; [apply sound_query_or_fail| |steps]. intros active (k3 & Hk3 & Ha3 & ->).
  eapply sound_bind with (R := fun _ => True); [apply sound_for; [done| |steps]| |steps]; [|intros _ _; by apply sound_ret].
  intros e [He Hd%with_current_not_deleted]%(query_rows _ t_environments); [|done..]. by apply sound_load_deployment.
Qed.

Lemma sound_load_tables : sound (load_tables db rt sha256_hex discovery_network) (fun _ => True).
Proof.
  unfold load_tables. eapply sound_bind; [apply sound_load_own_routes| |intros; steps].
  intros a _. eapply sound_bind with (R := fun _ => True); [|intros _ _; by apply sound_ret|steps].
  unfold load_discovered_routes. destruct discovery_network as [network|] eqn:Hn; [|by apply sound_ret].
  eapply sound_bind; [apply sound_query_or_fail| |steps]. intros rows (k & Hk & Ha & ->). apply sound_for; [done| |steps].
  intros r [Hr [He Hnet%String.eqb_eq]%andb_prop]%(query_rows _ t_discovered); [|done..]. by eapply sound_load_discovered.
Qed.
End Provenance.

(** ** Lookups *)

(** A route some table of the load has, up to the mark for certificates. *)
Definition stored (s : Loader) (r : RouteInfo) : Prop :=
  exists r0, (r = r0 \/ r = not_certable r0) /\
    ((exists h, l_routes s !! h = Some r0 \/ l_http s !! h = Some r0 \/ l_tls s !! h = Some r0) \/
     (exists k, Wildcard.patterns (l_http_wildcards s) !! k = Some r0 \/ Wildcard.patterns (l_tls_wildcards s) !! k = Some r0)).

Lemma remove_host_Some {A} o (m : gmap string A) h x : remove_host o m !! h = Some x <-> m !! h = Some x /\ o <> Some h.
Proof. destruct o; cbn; [rewrite lookup_delete_Some|]; naive_solver. Qed.

Lemma legacy_wildcards_Some routes hw tw key x :
  Wildcard.patterns (legacy_wildcards routes hw tw) !! key = Some x -> exists h r, routes !! h = Some r /\ x = not_certable r.
Proof.
  unfold legacy_wildcards. set (l := List.filter _ _). assert (forall hr, hr ∈ l -> routes !! hr.1 = Some hr.2) as Hl.
  { intros [h r] [Hin _]%list_elem_of_In%filter_In. apply list_elem_of_In in Hin. by apply elem_of_map_to_list in Hin. }
  clearbody l. revert key x Hl. induction l as [|[h r] l IH] using rev_ind; intros key x Hl; [cbn; by rewrite lookup_empty|].
  rewrite fold_left_app. cbn. intros [->|Hold]%wildcard_insert_Some.
  - exists h, r. split; [|done]. apply (Hl (h, r)). set_solver.
  - apply (IH key x); [|exact Hold]. intros hr Hhr. apply Hl. set_solver.
Qed.

Lemma match_domain_Some {A} (m : Wildcard.WildcardMatcher A) d r : Wildcard.match_domain m d = Some r -> exists key, Wildcard.patterns m !! key = Some r.
Proof. unfold Wildcard.match_domain. destruct (rfind _ _); [|done]. eauto. Qed.

Lemma or_else_Some {A} (o o' : option A) x : or_else o o' = Some x -> o = Some x \/ o' = Some x.
Proof. destruct o; [left|right]; done. Qed.

Section Lookups.
Context (url_host_str : string -> option string) (a : AppSettings) (s : Loader).
#[local] Abbreviation snap := (finish url_host_str a s).

Lemma stored_exact h r : lg_exact (sn_legacy snap) !! h = Some r -> stored s r.
Proof. cbn. intros [[H _]%remove_host_Some _]%remove_host_Some. exists r. split; [by left|]. left. exists h. tauto. Qed.

Lemma stored_http h r : sn_http_routes snap !! h = Some r -> stored s r.
Proof. cbn. intros [[H _]%remove_host_Some _]%remove_host_Some. exists r. split; [by left|]. left. exists h. tauto. Qed.

Lemma stored_tls h r : sn_tls_routes snap !! h = Some r -> stored s r.
Proof. cbn. intros [[H _]%remove_host_Some _]%remove_host_Some. exists r. split; [by left|]. left. exists h. tauto. Qed.

Lemma stored_wildcards d r :
  Wildcard.match_domain (sn_http_wildcards snap) d = Some r \/ Wildcard.match_domain (sn_tls_wildcards snap) d = Some r -> stored s r.
Proof. intros [[k Hk]%match_domain_Some|[k Hk]%match_domain_Some]; exists r; (split; [by left|]); right; exists k; tauto. Qed.

Lemma stored_legacy_wildcards d r : Wildcard.match_domain (lg_wildcards (sn_legacy snap)) d = Some r -> stored s r.
Proof.
  intros [k Hk]%match_domain_Some. cbn in Hk. apply legacy_wildcards_Some in Hk as (h & r0 & [[Hr _]%remove_host_Some _]%remove_host_Some & ->).
  exists r0. split; [by right|]. left. exists h. tauto.
Qed.

(** Every way to look a host up. *)
Definition found (host : string) (r : RouteInfo) : Prop :=
  get_route_by_host snap host = Some r \/ get_route_by_sni snap host = Some r \/ resolve_route_for_sni snap host = Some r \/ get_route snap host = Some r.

Lemma found_stored host r : found host r -> stored s r.
Proof.
  unfold found, get_route_by_host, get_route_by_sni, resolve_route_for_sni, get_route, legacy_get. destruct (is_reserved _ _); [naive_solver|].
  intros [H|[H|[H|H]]]; repeat apply or_else_Some in H as [H|H];
    eauto using stored_exact, stored_http, stored_tls, stored_wildcards, stored_legacy_wildcards.
Qed.

Lemma unavailable_stored host u : get_unavailable_route snap host = Some u ->
  exists h, uh_exact (l_unavailable s) !! h = Some u \/ uh_wildcard_bases (l_unavailable s) !! h = Some u.
Proof.
  unfold get_unavailable_route, get_unavailable. cbn [sn_unavailable finish uh_exact uh_wildcard_bases].
  destruct (remove_host _ (remove_host _ _) !! host) as [u0|] eqn:Hu.
  - cbn. destruct (_ || _); [done|]. intros [= ->]. apply remove_host_Some in Hu as [[Hu _]%remove_host_Some _].
    apply map_lookup_filter_Some in Hu as [Hu _]. eauto.
  - destruct (split_once dot host) as [[label base]|]; cbn; [|done]. destruct (String.eqb label ""); cbn; [done|].
    destruct (filter _ _ !! base) as [u0|] eqn:Hb; cbn; [|done]. destruct (_ || _); [done|]. intros [= ->].
    apply map_lookup_filter_Some in Hb as [Hb _]. eauto.
Qed.
End Lookups.

Section Live.
Context (db : nat -> Tables) (rt : ExecutionEnvironment) (sha256_hex : string -> string) (url_host_str : string -> option string)
  (discovery_network : option string).

(** How many queries the load makes. *)
Definition queries_made (counter : nat) : nat := l_tick (load_tables db rt sha256_hex discovery_network (loader_new counter)).2.

Lemma Sound_new N counter : Sound db rt discovery_network N (loader_new counter).
Proof. split; cbn; intros ??; by rewrite lookup_empty. Qed.

Lemma load_sound counter a s :
  load_tables db rt sha256_hex discovery_network (loader_new counter) = (Ok a, s) -> Sound db rt discovery_network (queries_made counter) s.
Proof.
  intros Hload. destruct (sound_load_tables db rt sha256_hex discovery_network (queries_made counter) (loader_new counter)) as [Hs _].
  - apply Sound_new.
  - done.
  - by rewrite Hload in Hs.
Qed.

Lemma route_ok_certable N r : route_ok db rt discovery_network N (not_certable r) <-> route_ok db rt discovery_network N r.
Proof. done. Qed.

(** C12: Whatever the database answers to each query of a load, a route any lookup finds in the new table is
    one of an operator or of a discovered container on the watched network, or it belongs to a deployment
    that was the current one of an environment awake and not deleted; unless that is served from a
    directory, it was not paused and every backend is a container of it that was up, addressed through a
    port Docker published on its node or host, or by name on the network they share. *)
Theorem routes_live counter ld host r :
  read_routes db rt sha256_hex url_host_str discovery_network counter = Ok ld ->
  get_route_by_host (ld_snapshot ld) host = Some r \/ get_route_by_sni (ld_snapshot ld) host = Some r \/
  resolve_route_for_sni (ld_snapshot ld) host = Some r \/ get_route (ld_snapshot ld) host = Some r ->
  route_ok db rt discovery_network (queries_made counter) r.
Proof.
  unfold read_routes. destruct (load_tables _ _ _ _ _) as [[a|e] s] eqn:Hload; [|done]. intros [= <-] Hf. cbn in Hf.
  apply load_sound in Hload as []. apply found_stored in Hf as (r0 & Hr & Hst).
  assert (route_ok db rt discovery_network (queries_made counter) r0) as Hok by naive_solver. destruct Hr as [->| ->]; by rewrite ?route_ok_certable.
Qed.

(** A host that is reported as unavailable has no live route and is not reserved; its deployment was the
    current one of an environment awake and not deleted, and it is reported as paused when it was. *)
Theorem unavailable_current counter ld host u :
  read_routes db rt sha256_hex url_host_str discovery_network counter = Ok ld ->
  get_unavailable_route (ld_snapshot ld) host = Some u ->
  unavailable_ok db (queries_made counter) u /\ resolve_route_for_sni (ld_snapshot ld) host = None /\
  is_reserved_hostname (ld_snapshot ld) host = false.
Proof.
  unfold read_routes. destruct (load_tables _ _ _ _ _) as [[a|e] s] eqn:Hload; [|done]. intros [= <-] Hu. cbn [ld_snapshot] in *. split.
  - apply load_sound in Hload as []. apply unavailable_stored in Hu as (h & [Hu|Hu]); eauto.
  - unfold get_unavailable_route in Hu. destruct (get_unavailable _ _); [|done]. cbn [mbind option_bind] in Hu.
    unfold is_reserved_hostname, resolve_route_for_sni. destruct (is_reserved _ host); [done|]. cbn [orb] in Hu. split; [|done].
    unfold has_live_route, contains_key in Hu.
    repeat match type of Hu with context [present ?o] => destruct o; cbn [present orb or_else] in Hu |- *; [done|] end. done.
Qed.
End Live.
