(* ===== verification/RouteIndex.v ===== *)
(** * The indexes of the route table agree

    The ownership index of a loaded table against its lookups ([ownership_exact]), and discovered routes
    against those Temps wrote ([discovered_keeps_claimed]). *)

From S2P Require Import Prelude IpText Wildcard Hostnames RouteTable RouteLoad RouteSpec.
Local Open Scope Z_scope.

(** ** Patterns *)

#[local] Abbreviation star base := (String.append "*." base).

Lemma split_once_Some c s x y : split_once c s = Some (x, y) <-> s = String.append x (String c y) /\ contains_char c x = false.
Proof.
  revert x. induction s as [|a s IH]; intros x; cbn.
  - split; [done|]. intros [H _]. by destruct x.
  - destruct (Ascii.eqb_spec a c) as [->|Hne].
    + split; [by intros [= <- <-]|]. intros [H Hx]. destruct x as [|b x]; cbn in *; [by simplify_eq|].
      simplify_eq. by rewrite Ascii.eqb_refl in Hx.
    + split.
      * destruct (split_once c s) as [[x' y']|] eqn:Hs; cbn; [|done]. intros [= <- <-].
        destruct (proj1 (IH x') eq_refl) as [-> Hx]. cbn. split; [done|]. rewrite Hx. by destruct (Ascii.eqb_spec a c).
      * intros [H Hx]. destruct x as [|b x]; cbn in *; [by simplify_eq|]. injection H as -> Hs. apply orb_false_elim in Hx as [_ Hx].
        rewrite (proj2 (IH x)) by done. done.
Qed.

Lemma match_domain_iff {A} (m : Wildcard.WildcardMatcher A) d r :
  Wildcard.match_domain m d = Some r <->
  exists label base, split_once dot d = Some (label, base) /\ Wildcard.patterns m !! Wildcard.reverse_domain base = Some r.
Proof.
  destruct (Wildcard.domain_cases d) as [Hd|(label & base & Hl & ->)].
  - rewrite Wildcard.match_domain_single by done. split; [done|]. intros (label & base & Hs & _). apply split_once_Some in Hs as [-> _].
    rewrite contains_char_app in Hd. cbn in Hd. by rewrite orb_true_r in Hd.
  - rewrite Wildcard.match_domain_cons by done. assert (split_once dot (String.append label (String dot base)) = Some (label, base)) as ->
      by by apply split_once_Some. split; [by exists label, base|]. by intros (? & ? & [= <- <-] & ?).
Qed.

Lemma match_domain_with {A} (m : Wildcard.WildcardMatcher A) label base :
  contains_char dot label = false ->
  Wildcard.match_domain m (String.append label (String dot base)) = Wildcard.patterns m !! Wildcard.reverse_domain base.
Proof. apply Wildcard.match_domain_cons. Qed.

Lemma wildcard_insert_spec {A} (m : Wildcard.WildcardMatcher A) base r :
  Wildcard.insert m (star base) r =
  if contains_char "*" base || String.eqb base "" then (false, m)
  else (true, {| Wildcard.patterns := <[Wildcard.reverse_domain base := r]> (Wildcard.patterns m) |}).
Proof.
  unfold Wildcard.insert. rewrite prefix_app. cbn [negb]. change 2%nat with (String.length "*."). rewrite str_drop_app.
  by destruct (contains_char "*" base), (String.eqb base "").
Qed.

Lemma contains_pattern_spec {A} (m : Wildcard.WildcardMatcher A) base :
  Wildcard.contains_pattern m (star base) = present (Wildcard.patterns m !! Wildcard.reverse_domain base).
Proof.
  unfold Wildcard.contains_pattern. assert (strip_prefix "*." (star base) = Some base) as -> by by apply strip_prefix_Some.
  destruct (_ !! _); [by apply bool_decide_true|]. apply bool_decide_false. by intros [].
Qed.

(** The wildcard index of the routes that are not custom routes. *)
Lemma legacy_wildcards_lookup routes hw tw base :
  Wildcard.patterns (legacy_wildcards routes hw tw) !! Wildcard.reverse_domain base =
  if contains_char "*" base || String.eqb base "" || Wildcard.contains_pattern hw (star base) || Wildcard.contains_pattern tw (star base) then None
  else not_certable <$> routes !! star base.
Proof.
  unfold legacy_wildcards. set (p := fun hr : string * RouteInfo => _). pose proof (NoDup_fst_map_to_list routes) as Hnd.
  assert (forall h r, (h, r) ∈ map_to_list routes <-> routes !! h = Some r) as Hin by (intros; apply elem_of_map_to_list).
  assert (forall l, (forall h r, (h, r) ∈ l -> routes !! h = Some r) -> NoDup l.*1 ->
    Wildcard.patterns (fold_left (fun m hr => (Wildcard.insert m hr.1 (not_certable hr.2)).2) (List.filter p l) Wildcard.new)
      !! Wildcard.reverse_domain base =
    if contains_char "*" base || String.eqb base "" || Wildcard.contains_pattern hw (star base) || Wildcard.contains_pattern tw (star base)
    then None else not_certable <$> (if bool_decide (star base ∈ l.*1) then routes !! star base else None)) as Hgen.
  { induction l as [|[h r] l IH] using rev_ind; intros Hl Hl1.
    - cbn. rewrite lookup_empty. by destruct (_ || _).
    - rewrite filter_app, fold_left_app. rewrite fmap_app in *. cbn [fmap list_fmap fst] in *. apply list.NoDup_app in Hl1 as (Hl1 & Hnew & _).
      specialize (IH ltac:(set_solver) Hl1). cbn [List.filter].
      assert (routes !! h = Some r) as Hr by (apply Hl; set_solver).
      destruct (String.prefix "*." h) eqn:Hp.
      + apply prefix_inv in Hp as (b & ->). destruct (decide (b = base)) as [->|Hne].
        * assert (bool_decide (star base ∈ l.*1 ++ [star base]) = true) as -> by (apply bool_decide_true; set_solver).
          unfold p at 1. cbn [fst snd]. rewrite prefix_app. cbn [andb].
          destruct (Wildcard.contains_pattern hw (star base)) eqn:Hhw; cbn [negb andb fold_left].
          { rewrite IH. by rewrite !orb_true_r. }
          destruct (Wildcard.contains_pattern tw (star base)) eqn:Htw; cbn [negb andb fold_left].
          { rewrite IH. by rewrite !orb_true_r. }
          cbn [fst snd]. rewrite wildcard_insert_spec. destruct (contains_char "*" base || String.eqb base "") eqn:Hb; cbn [snd].
          { by rewrite IH. }
          cbn [Wildcard.patterns]. rewrite lookup_insert_eq. cbn [orb]. by rewrite Hr.
        * assert (bool_decide (star base ∈ l.*1 ++ [star b]) = bool_decide (star base ∈ l.*1)) as ->.
          { apply bool_decide_ext. split; [|set_solver]. intros [?|Heq%list_elem_of_singleton]%elem_of_app; [done|]. by injection Heq as ->. }
          rewrite <- IH. destruct (p (star b, r)); cbn [fold_left fst snd]; [|done]. rewrite wildcard_insert_spec.
          destruct (contains_char "*" b || String.eqb b ""); cbn [snd]; [done|]. cbn [Wildcard.patterns]. rewrite lookup_insert_ne; [done|]. intros Heq. by apply Wildcard.reverse_domain_inj in Heq.
      + assert (bool_decide (star base ∈ l.*1 ++ [h]) = bool_decide (star base ∈ l.*1)) as ->.
        { apply bool_decide_ext. split; [|set_solver]. intros [?|Heq%list_elem_of_singleton]%elem_of_app; [done|].
          by rewrite <- Heq, prefix_app in Hp. }
        unfold p at 1. cbn [fst]. rewrite Hp. cbn [andb fold_left]. exact IH. }
  rewrite Hgen; [|intros; by apply Hin|done]. destruct (_ || _); [done|]. case_bool_decide as Hd; [done|].
  destruct (routes !! star base) as [r|] eqn:Hr; [|done]. destruct Hd. apply Hin in Hr. apply (list_elem_of_fmap_2 fst) in Hr. done.
Qed.

(** ** Custom routes are in the legacy map, too *)

Record Indexed (s : Loader) : Prop := {
  ix_typed h : is_Some (l_http s !! h) \/ is_Some (l_tls s !! h) -> is_Some (l_routes s !! h);
  ix_wildcards base :
    is_Some (Wildcard.patterns (l_http_wildcards s) !! Wildcard.reverse_domain base) \/
    is_Some (Wildcard.patterns (l_tls_wildcards s) !! Wildcard.reverse_domain base) ->
    base <> EmptyString /\ is_Some (l_routes s !! star base) }.

Definition keeps_indexed (s s' : Loader) : Prop := Indexed s -> Indexed s'.

#[export] Instance keeps_indexed_stable : Stable keeps_indexed.
Proof.
  split; unfold keeps_indexed; intros; try done; [by eauto|by destruct H; split..|]. destruct H as [Ht Hw]. split; cbn.
  - intros h' Hh. destruct (decide (h = h')) as [->|]; [by rewrite lookup_insert_eq|]. rewrite lookup_insert_ne by done. by apply Ht.
  - intros base Hb. destruct (Hw base Hb) as [Hne Hs]. split; [done|]. destruct (decide (h = star base)) as [->|]; [by rewrite lookup_insert_eq|].
    by rewrite lookup_insert_ne.
Qed.

Lemma indexed_custom_route r : respects keeps_indexed (load_custom_route r).
Proof.
  intros s [Ht Hw]. unfold load_custom_route. cbn. set (info := route_info _ _ _ _ _ _ _).
  assert (forall h, is_Some (<[cr_domain r := info]> (l_routes s) !! h) <-> h = cr_domain r \/ is_Some (l_routes s !! h)) as Hin.
  { intros h. destruct (decide (cr_domain r = h)) as [->|]; [rewrite lookup_insert_eq; naive_solver|]. rewrite lookup_insert_ne by done. naive_solver. }
  assert (forall m : gmap string RouteInfo, forall h, is_Some (<[cr_domain r := info]> m !! h) -> h = cr_domain r \/ is_Some (m !! h)) as Hin'.
  { intros m h. destruct (decide (cr_domain r = h)) as [->|]; [by left|]. rewrite lookup_insert_ne by done. by right. }
  destruct (String.prefix "*." (cr_domain r)) eqn:Hp.
  - apply prefix_inv in Hp as (b & Hb). assert (forall m base,
      is_Some (Wildcard.patterns (Wildcard.insert m (cr_domain r) info).2 !! Wildcard.reverse_domain base) ->
      (base = b /\ b <> EmptyString) \/ is_Some (Wildcard.patterns m !! Wildcard.reverse_domain base)) as Hins.
    { intros m base. rewrite Hb, wildcard_insert_spec. destruct (contains_char "*" b); [by right|]. cbn [orb].
      destruct (String.eqb_spec b ""); [by right|]. cbn. destruct (decide (b = base)) as [->|Hne]; [by left|].
      rewrite lookup_insert_ne; [by right|]. intros Heq. by apply Wildcard.reverse_domain_inj in Heq. }
    destruct (cr_route_type r); split; cbn [l_http l_tls l_routes l_http_wildcards l_tls_wildcards with_typed with_routes l_counter with_counter];
      (intros h Hh; try apply Hin; try (right; by apply Ht)); destruct Hh as [Hh|Hh]; try apply Hins in Hh;
      try destruct Hh as [[-> ?]|Hh]; try (split; [done|]; apply Hin; by left);
      (destruct (Hw h ltac:(tauto)); split; [done|]; apply Hin; by right).
  - destruct (cr_route_type r); split; cbn [l_http l_tls l_routes l_http_wildcards l_tls_wildcards with_typed with_routes l_counter with_counter];
      intros h Hh; try (destruct (Hw h Hh); split; [done|]; apply Hin; by right); apply Hin; destruct Hh as [Hh|Hh]; try apply Hin' in Hh as [->|Hh];
      try (by left); right; apply Ht; tauto.
Qed.
#[export] Hint Resolve indexed_custom_route : steps.

Lemma indexed_new counter : Indexed (loader_new counter).
Proof. split; cbn; intros h [[x Hx]|[x Hx]]; by rewrite lookup_empty in Hx. Qed.

Lemma indexed_own_routes db rt sha : respects keeps_indexed (load_own_routes db rt sha).
Proof. unfold load_own_routes. steps. Qed.

Lemma indexed_load db rt sha net counter : Indexed (load_tables db rt sha net (loader_new counter)).2.
Proof.
  assert (respects keeps_indexed (load_tables db rt sha net)) as H by (unfold load_tables; pose proof (indexed_own_routes db rt sha); steps).
  apply H, indexed_new.
Qed.

(** ** Ownership *)

Lemma own_hosts hosts o :
  let o' := fold_left own_host hosts o in
  (forall h, h ∈ ow_exact o' <-> h ∈ ow_exact o \/ (h ∈ hosts /\ String.prefix "*." h = false)) /\
  (forall b, b ∈ ow_wildcard_bases o' <-> b ∈ ow_wildcard_bases o \/ (star b ∈ hosts /\ b <> EmptyString)) /\
  ow_reserved_hosts o' = ow_reserved_hosts o.
Proof.
  revert o. induction hosts as [|x hosts IH]; intros o; cbn [fold_left]; [set_solver|]. specialize (IH (own_host o x)).
  destruct IH as (He & Hb & Hr). unfold own_host in *. destruct (strip_prefix "*." x) as [base|] eqn:Hs.
  - apply strip_prefix_Some in Hs as ->. assert (forall h, String.prefix "*." h = false -> h <> star base) as Hno.
    { intros h Hp ->. by rewrite prefix_app in Hp. }
    assert (forall b, star b = star base <-> b = base) as Hinj by (intros b; split; [by intros [= ->]|congruence]).
    destruct (String.eqb_spec base "") as [Hbe|Hne]; cbn [negb] in *; (split; [|split]); [intros h; rewrite He|intros b; rewrite Hb|done|intros h; rewrite He|intros b; rewrite Hb|done]; cbn;
      rewrite ?elem_of_cons, ?elem_of_union, ?elem_of_singleton; naive_solver.
  - assert (String.prefix "*." x = false) as Hp by (unfold strip_prefix in Hs; by destruct (String.prefix "*." x)).
    assert (forall b, star b <> x) as Hno by (intros b <-; by rewrite prefix_app in Hp).
    split; [|split]; [intros h; rewrite He|intros b; rewrite Hb|done]; cbn; rewrite ?elem_of_cons, ?elem_of_union, ?elem_of_singleton; naive_solver.
Qed.

Lemma elem_of_keys {A} (m : gmap string A) h : h ∈ keys m <-> is_Some (m !! h).
Proof.
  unfold keys. change (map fst (map_to_list m)) with ((map_to_list m).*1). rewrite list_elem_of_fmap. split.
  - intros ([h' x] & -> & Hin). apply elem_of_map_to_list in Hin. by exists x.
  - intros [x Hx]. exists (h, x). split; [done|]. by apply elem_of_map_to_list.
Qed.

Lemma elem_of_option {A} (o : option A) x : x ∈ option_list o <-> o = Some x.
Proof. destruct o; cbn; set_solver. Qed.

(** Hosts a request can carry: no star, and a first label. *)
Definition plain_host (host : string) : bool := negb (contains_char "*" host) && negb (String.prefix "." host).

Lemma plain_label label base : plain_host (String.append label (String dot base)) = true -> label <> EmptyString /\ contains_char "*" base = false.
Proof.
  unfold plain_host. intros [Hn%negb_true_iff Hp]%andb_prop. rewrite contains_char_app in Hn. apply orb_false_elim in Hn as [_ Hn].
  cbn [contains_char] in Hn. apply orb_false_elim in Hn as [_ Hn]. split; [|done]. intros ->.
  change (String.append "" (String dot base)) with (String.append "." base) in Hp. by rewrite prefix_app in Hp.
Qed.

Lemma plain_no_star host b : plain_host host = true -> host <> star b.
Proof. intros Hh ->. unfold plain_host in Hh. by cbn in Hh. Qed.

Lemma plain_no_prefix host : plain_host host = true -> String.prefix "*." host = false.
Proof. intros Hh. destruct (String.prefix "*." host) eqn:Hp; [|done]. apply prefix_inv in Hp as (b & ->). by apply (plain_no_star _ b) in Hh. Qed.

Section Ownership.
Context (url_host_str : string -> option string) (a : AppSettings) (s : Loader) (Hix : Indexed s).
#[local] Abbreviation snap := (finish url_host_str a s).
#[local] Abbreviation routes := (lg_exact (sn_legacy snap)).

(** Reserved hosts are names, not patterns. *)
Context (Hnames : forall base, is_reserved (sn_legacy snap) (star base) = false).

Lemma kept h : is_Some (routes !! h) <-> is_Some (l_routes s !! h) /\ is_reserved (sn_legacy snap) h = false.
Proof.
  unfold is_reserved. cbn [sn_legacy finish lg_exact lg_reserved_console_host lg_reserved_ingress_host]. unfold is_Some. setoid_rewrite remove_host_Some. setoid_rewrite remove_host_Some.
  rewrite orb_false_iff, !bool_decide_eq_false. naive_solver.
Qed.

Lemma owned_iff host :
  owns_hostname snap host = true <->
  is_reserved (sn_legacy snap) host = true \/ (is_Some (routes !! host) /\ String.prefix "*." host = false) \/
  exists label base, split_once dot host = Some (label, base) /\ label <> EmptyString /\ base <> EmptyString /\ is_Some (routes !! star base).
Proof.
  unfold owns_hostname. cbn [sn_ownership finish]. unfold build_route_ownership_snapshot. set (o0 := {| ow_exact := ∅ |}).
  match goal with |- context [fold_left own_host ?l o0] => destruct (own_hosts l o0) as (He & Hb & Hr); set (o := fold_left own_host l o0) in * end.
  assert (forall h, h ∈ keys routes ++ keys (sn_http_routes snap) ++ keys (sn_tls_routes snap) <-> is_Some (routes !! h)) as Hall.
  { intros h. rewrite !elem_of_app, !elem_of_keys. split; [|by left]. intros [H|H]; [done|]. apply kept.
    assert (is_Some (l_routes s !! h) /\ is_reserved (sn_legacy snap) h = false); [|done].
    cbn [sn_http_routes sn_tls_routes finish] in H. unfold is_Some in H. setoid_rewrite remove_host_Some in H. setoid_rewrite remove_host_Some in H.
    split; [apply Hix; unfold is_Some; naive_solver|]. unfold is_reserved. cbn [sn_legacy finish lg_reserved_console_host lg_reserved_ingress_host].
    rewrite orb_false_iff, !bool_decide_eq_false. naive_solver. }
  assert (forall h, h ∈ ow_reserved_hosts o <-> is_reserved (sn_legacy snap) h = true) as Hres.
  { intros h. rewrite Hr. subst o0. cbn [ow_reserved_hosts]. unfold is_reserved. cbn [sn_legacy finish lg_reserved_console_host lg_reserved_ingress_host].
    rewrite elem_of_list_to_set, elem_of_app, !elem_of_option, orb_true_iff, !bool_decide_eq_true. done. }
  unfold owns. rewrite <- Hres. case_bool_decide as H1; cbn [orb]; [naive_solver|].
  assert (host ∈ ow_exact o <-> is_Some (routes !! host) /\ String.prefix "*." host = false) as Hexact.
  { rewrite He, <- Hall. subst o0. cbn [ow_exact]. split; [by intros [?%elem_of_empty|?]|by right]. }
  rewrite <- Hexact. case_bool_decide as H2; [naive_solver|]. destruct (split_once dot host) as [[label base]|]; [|naive_solver].
  rewrite !andb_true_iff, !negb_true_iff, bool_decide_eq_true, !String.eqb_neq, Hb. subst o0. cbn [ow_wildcard_bases].
  split; [|intros [?|[?|(? & ? & [= <- <-] & ? & ? & ?%Hall)]]; [done..|]; split; [done|]; by right].
  intros [[Hl Hbase] [?%elem_of_empty|[Hin _]]]; [done|]. right. right. exists label, base. split_and!; try done. by apply Hall.
Qed.

Lemma legacy_pattern base :
  contains_char "*" base = false -> base <> EmptyString -> is_Some (routes !! star base) ->
  is_Some (Wildcard.patterns (sn_http_wildcards snap) !! Wildcard.reverse_domain base) \/
  is_Some (Wildcard.patterns (sn_tls_wildcards snap) !! Wildcard.reverse_domain base) \/
  is_Some (Wildcard.patterns (lg_wildcards (sn_legacy snap)) !! Wildcard.reverse_domain base).
Proof.
  intros Hs Hne [r Hr]. cbn [sn_http_wildcards sn_tls_wildcards sn_legacy lg_wildcards finish]. rewrite legacy_wildcards_lookup, !contains_pattern_spec, Hs.
  destruct (String.eqb_spec base ""); [done|]. cbn [orb]. destruct (Wildcard.patterns (l_http_wildcards s) !! _); [by left; eexists|].
  destruct (Wildcard.patterns (l_tls_wildcards s) !! _); [right; left; by eexists|]. right. right. cbn [present orb].
  cbn [sn_legacy finish lg_exact] in Hr. rewrite Hr. by eexists.
Qed.

Lemma live_iff host :
  plain_host host = true ->
  has_live_route snap host = true <->
  is_Some (l_routes s !! host) /\ is_reserved (sn_legacy snap) host = false \/
  exists label base, split_once dot host = Some (label, base) /\ base <> EmptyString /\ is_Some (routes !! star base).
Proof.
  intros Hh. unfold has_live_route, contains_key. rewrite !orb_true_iff. assert (forall A (o : option A), present o = true <-> is_Some o) as Hp.
  { intros A [x|]; cbn; split; try done; by intros []. }
  rewrite !Hp, <- kept. split.
  - assert (forall m : Wildcard.WildcardMatcher RouteInfo,
      (forall base, is_Some (Wildcard.patterns m !! Wildcard.reverse_domain base) -> base <> EmptyString /\ is_Some (routes !! star base)) ->
      is_Some (Wildcard.match_domain m host) ->
      exists label base, split_once dot host = Some (label, base) /\ base <> EmptyString /\ is_Some (routes !! star base)) as Hm.
    { intros m Hm [r (label & base & Hs & Hr)%match_domain_iff]. exists label, base. split; [done|]. apply Hm. by exists r. }
    assert (forall base, is_Some (Wildcard.patterns (l_http_wildcards s) !! Wildcard.reverse_domain base) \/
      is_Some (Wildcard.patterns (l_tls_wildcards s) !! Wildcard.reverse_domain base) -> base <> EmptyString /\ is_Some (routes !! star base)) as Htyped.
    { intros base Hb. destruct (ix_wildcards s Hix base Hb). split; [done|]. by apply kept. }
    assert (is_Some (sn_http_routes snap !! host) \/ is_Some (sn_tls_routes snap !! host) -> is_Some (routes !! host)) as Hexact.
    { intros H. apply kept. cbn [sn_http_routes sn_tls_routes finish] in H. unfold is_Some in H. setoid_rewrite remove_host_Some in H. setoid_rewrite remove_host_Some in H.
      split; [apply Hix; unfold is_Some; naive_solver|]. unfold is_reserved. cbn [sn_legacy finish lg_reserved_console_host lg_reserved_ingress_host].
      rewrite orb_false_iff, !bool_decide_eq_false. naive_solver. }
    intros [[[[[H|H]|H]|H]|H]|H]; [left; apply Hexact; by right| |left; apply Hexact; by left|by left| |]; right;
      (eapply Hm; [|exact H]); cbn [sn_http_wildcards sn_tls_wildcards sn_legacy lg_wildcards finish]; intros base Hb; try (apply Htyped; tauto).
    rewrite legacy_wildcards_lookup in Hb. destruct (String.eqb_spec base "") as [Hbe|Hne]; [rewrite orb_true_r in Hb; by destruct Hb|].
    destruct (_ || _); [by destruct Hb|]. split; [done|]. by apply fmap_is_Some in Hb.
  - intros [H|(label & base & Hs & Hne & H)]; [by left; left; right|].
    assert (contains_char "*" base = false) as Hstar. { apply split_once_Some in Hs as [-> _]. by apply plain_label in Hh as [_ Hh]. }
    destruct (legacy_pattern base Hstar Hne H) as [[r Hr]|[[r Hr]|[r Hr]]].
    + left. right. exists r. apply match_domain_iff. eauto.
    + left. left. left. left. right. exists r. apply match_domain_iff. eauto.
    + right. exists r. apply match_domain_iff. eauto.
Qed.
End Ownership.

(** C14: In a table that was loaded, with reserved hosts that are names, the index the wake gate asks owns a
    host a request can carry exactly when it is reserved or some lookup finds a route for it. *)
Theorem ownership_exact db rt sha256_hex url_host_str discovery_network counter ld host :
  read_routes db rt sha256_hex url_host_str discovery_network counter = Ok ld ->
  (forall base, is_reserved_hostname (ld_snapshot ld) (String.append "*." base) = false) -> plain_host host = true ->
  owns_hostname (ld_snapshot ld) host = true <->
  is_reserved_hostname (ld_snapshot ld) host = true \/ resolve_route_for_sni (ld_snapshot ld) host <> None.
Proof.
  unfold read_routes. pose proof (indexed_load db rt sha256_hex discovery_network counter) as Hix.
  destruct (load_tables _ _ _ _ _) as [[a|e] s]; [|done]. cbn [snd] in Hix. intros [= <-] Hnames Hh. cbn [ld_snapshot] in *.
  assert (resolve_route_for_sni (finish url_host_str a s) host <> None <->
    is_reserved (sn_legacy (finish url_host_str a s)) host = false /\ has_live_route (finish url_host_str a s) host = true) as ->.
  { unfold resolve_route_for_sni, has_live_route, contains_key. destruct (is_reserved _ host); [naive_solver|].
    repeat match goal with |- context [or_else ?o _] => destruct o; cbn [present orb or_else]; [naive_solver|] end.
    match goal with |- context [Wildcard.match_domain ?m host] => destruct (Wildcard.match_domain m host) end; cbn; naive_solver. }
  rewrite (owned_iff _ a s Hix host), (live_iff _ a s Hix Hnames host Hh), kept. unfold is_reserved_hostname in *.
  pose proof (plain_no_prefix host Hh). destruct (is_reserved _ host); [naive_solver|]. split.
  - intros [?|[?|(label & base & Hs & _ & ?)]]; [done|naive_solver|]. right. split; [done|]. right. by exists label, base.
  - intros [?|[_ [?|(label & base & Hs & ? & ?)]]]; [done|naive_solver|]. right. right. exists label, base. split_and!; try done.
    apply split_once_Some in Hs as [-> _]. by apply plain_label in Hh as [Hh _].
Qed.

(** ** Discovered routes *)

(** What discovered routes leave as it is. *)
Record undisturbed (s s' : Loader) : Prop := {
  un_typed : l_http s' = l_http s /\ l_tls s' = l_tls s;
  un_wildcards : l_http_wildcards s' = l_http_wildcards s /\ l_tls_wildcards s' = l_tls_wildcards s;
  un_claimed host : claimed s host = true -> l_routes s' !! host = l_routes s !! host }.

Lemma undisturbed_claimed s s' host : undisturbed s s' -> claimed s host = true -> claimed s' host = true.
Proof.
  intros [[Hh Ht] [Hhw Htw] Hc] Hcl. specialize (Hc host Hcl). unfold claimed, contains_key in *. by rewrite Hh, Ht, Hhw, Htw, Hc.
Qed.

Lemma undisturbed_trans s1 s2 s3 : undisturbed s1 s2 -> undisturbed s2 s3 -> undisturbed s1 s3.
Proof.
  intros H12 H23. pose proof H12 as [[? ?] [? ?] Hc]. pose proof H23 as [[? ?] [? ?] Hc']. split; [split; congruence..|].
  intros host Hcl. rewrite Hc'; [by apply Hc|]. by eapply undisturbed_claimed.
Qed.

Lemma discovered_undisturbed rt r s : undisturbed s (load_discovered rt r s).2.
Proof.
  assert (forall s0, undisturbed s0 s0) as Hrefl by (by intros; split).
  unfold load_discovered. destruct (String.eqb _ _); [apply Hrefl|]. unfold act_bind at 1. cbn [get]. destruct (claimed s _) eqn:Hc; [apply Hrefl|].
  destruct (build_discovered_backend_addr _ _ _ _); [|apply Hrefl]. cbn. split; [done..|]. intros host Hh. cbn.
  destruct (decide (lowercase (Hostnames.trim (dr_host r)) = host)) as [Heq|]; [|by rewrite lookup_insert_ne]. rewrite Heq in Hc. congruence.
Qed.

Lemma discovered_for_undisturbed rt rows s : undisturbed s (act_for (load_discovered rt) rows s).2.
Proof.
  revert s. induction rows as [|r rows IH]; intros s; cbn [act_for]; [by split|]. pose proof (discovered_undisturbed rt r s) as Hr.
  unfold act_bind. destruct (load_discovered rt r s) as [[[]|e] s2]; [by eapply undisturbed_trans|done].
Qed.

Lemma discovered_routes_undisturbed db rt net s : undisturbed s (load_discovered_routes db rt net s).2.
Proof.
  unfold load_discovered_routes. destruct net; [|by split]. unfold act_bind, query_or_fail.
  destruct (t_answers _); [|by split]. eapply undisturbed_trans; [|apply discovered_for_undisturbed]. by split.
Qed.

Lemma remove_host_same {A} o (m m' : gmap string A) h : m' !! h = m !! h -> remove_host o m' !! h = remove_host o m !! h.
Proof. intros Heq. destruct o as [x|]; cbn; [|done]. destruct (decide (x = h)) as [->|]; [by rewrite !lookup_delete_eq|]. by rewrite !lookup_delete_ne. Qed.

