(* ===== verification/RouteServe.v ===== *)
(** * Environments that run are routed

    [environment_routed]: when the database answers and does not change, a load succeeds, and an
    environment that is awake and whose deployment has a container the proxy can reach is found under its
    name, unless the name is reserved.  [round_robin_fair]: the backends of a route take turns.
    At the end a small database: what a load makes of it, where a discovered container takes the host of a
    project ([discovered_takes_hosts]), and the theorems of the route files applied to it. *)

From S2P Require Import Prelude Wildcard Hostnames RouteTable RouteLoad RouteSpec RouteIndex.
Local Open Scope Z_scope.

Section Serve.
Context (t : Tables) (rt : ExecutionEnvironment) (sha256_hex : string -> string) (url_host_str : string -> option string)
  (discovery_network : option string).
Context (Hanswers : t_answers t = true).
#[local] Abbreviation db := (fun _ : nat => t).

(** Cached deployments are rows. *)
Definition cached (s : Loader) : Prop := forall id d, l_deployments s !! id = Some d -> dp_id d = id /\ d ∈ t_deployments t.

(** The step ends well, and ensures [Q]. *)
Definition does {A} (m : Load A) (Q : A -> Loader -> Prop) : Prop :=
  forall s, cached s -> exists a s', m s = (Ok a, s') /\ cached s' /\ Q a s'.

#[local] Abbreviation succeeds m := (does m (fun _ _ => True)).

Lemma does_ret {A} (a : A) : succeeds (act_ret a).
Proof. intros s Hs. by exists a, s. Qed.

Lemma does_bind {A B} (m : Load A) (f : A -> Load B) : succeeds m -> (forall a, succeeds (f a)) -> succeeds (act_bind m f).
Proof.
  intros Hm Hf s Hs. destruct (Hm s Hs) as (a & s1 & He & Hs1 & _). destruct (Hf a s1 Hs1) as (b & s2 & He2 & Hs2 & _). exists b, s2.
  unfold act_bind. by rewrite He, He2.
Qed.

Lemma does_for {A} (f : A -> Load unit) l : (forall x, succeeds (f x)) -> succeeds (act_for f l).
Proof. intros Hf. induction l as [|x l IH]; cbn [act_for]; [apply does_ret|]. by apply does_bind. Qed.

Lemma does_get {A} (f : Loader -> A) : succeeds (get f).
Proof. intros s Hs. by exists (f s), s. Qed.

Lemma does_modify f : (forall s, l_deployments (f s) = l_deployments s) -> succeeds (modify f).
Proof. intros Hf s Hs. exists (), (f s). split_and!; [done| |done]. unfold cached. by rewrite Hf. Qed.

Lemma does_query {A} (f : Tables -> A) : succeeds (query db f).
Proof. intros s Hs. eexists _, _. split_and!; [by unfold query|done..]. Qed.

Lemma does_query_or_fail {A} (f : Tables -> A) : does (query_or_fail db f) (fun x _ => x = f t).
Proof. intros s Hs. eexists (f t), _. unfold query_or_fail. rewrite Hanswers. by split_and!. Qed.

Lemma does_query_any {A} (f : Tables -> A) : succeeds (query_or_fail db f).
Proof. intros s Hs. destruct (does_query_or_fail f s Hs) as (a & s' & ? & ? & _). by exists a, s'. Qed.

Lemma does_counter : succeeds fresh_counter.
Proof. intros s Hs. by eexists _, _. Qed.

Create HintDb serve.
#[local] Hint Resolve does_ret does_get does_query does_query_any does_counter : serve.

Ltac does_steps :=
  repeat (intros; first
    [ solve [eauto with serve]
    | apply does_bind | apply does_for
    | match goal with
      | |- does (modify _) _ => apply does_modify; intros; repeat case_match; reflexivity
      | |- does (match ?x with _ => _ end) _ => destruct x
      end ]).

Lemma does_fetch_deployment id : succeeds (fetch_deployment db id).
Proof.
  intros s Hs. unfold fetch_deployment, act_bind, get. cbn. destruct (l_deployments s !! id) as [d|] eqn:Hd; [by eexists _, _|].
  rewrite Hanswers. destruct (List.find _ _) as [d|] eqn:Hf; [|by eexists _, _]. apply find_some in Hf as [Hin Hid%Z.eqb_eq].
  eexists _, _. split_and!; [done| |done]. intros id' d'. cbn. rewrite lookup_insert_Some. intros [[<- <-]|[_ H]]; [|by apply Hs].
  split; [done|]. by apply list_elem_of_In.
Qed.

Lemma does_fetch_environment id : succeeds (fetch_environment db id).
Proof. unfold fetch_environment. does_steps. Qed.
Lemma does_fetch_project id : succeeds (fetch_project db id).
Proof. unfold fetch_project. does_steps. Qed.
Lemma does_resolve_node id : succeeds (resolve_node_private_address db id).
Proof. unfold resolve_node_private_address. does_steps. Qed.
Lemma does_active_containers d id : succeeds (active_containers db d id).
Proof. unfold active_containers. does_steps. Qed.
#[local] Hint Resolve does_fetch_deployment does_fetch_environment does_fetch_project does_resolve_node does_active_containers : serve.
Lemma does_backend_entries build cs : succeeds (backend_entries db build cs).
Proof. induction cs as [|c cs IH]; cbn [backend_entries]; does_steps. Qed.
#[local] Hint Resolve does_backend_entries : serve.
Lemma does_upstream build cs : succeeds (upstream db build cs).
Proof. unfold upstream. does_steps. Qed.
#[local] Hint Resolve does_upstream : serve.
Lemma does_report_down hosts r : succeeds (report_down hosts r).
Proof. unfold report_down, mark_unavailable. does_steps. Qed.
Lemma does_insert_route h r : succeeds (insert_route h r).
Proof. unfold insert_route. does_steps. Qed.
Lemma does_insert_route_vacant h r : succeeds (insert_route_vacant h r).
Proof. unfold insert_route_vacant. does_steps. Qed.
Lemma does_push_sleeping l : succeeds (push_sleeping l).
Proof. unfold push_sleeping. does_steps. Qed.
#[local] Hint Resolve does_report_down does_insert_route does_insert_route_vacant does_push_sleeping : serve.

Lemma does_sections :
  (forall d, succeeds (load_environment_domain db rt d)) /\ (forall r, succeeds (load_custom_route r)) /\
  (forall d, succeeds (load_custom_domain db rt d)) /\ (forall pv st e, succeeds (load_environment db rt sha256_hex pv st e)) /\
  (forall pv e, succeeds (load_deployment db rt sha256_hex pv e)) /\ (forall r, succeeds (load_discovered rt r)).
Proof.
  split_and!; intros; [unfold load_environment_domain, public_backend|unfold load_custom_route|unfold load_custom_domain, domain_backend
    |unfold load_environment, environment_backend, load_compose_route|unfold load_deployment, public_backend|unfold load_discovered]; does_steps.
Qed.

(** ** A host that has a route keeps one *)

Definition keeps_hosts (s s' : Loader) : Prop := forall h, is_Some (l_routes s !! h) -> is_Some (l_routes s' !! h).

#[export] Instance keeps_hosts_stable : Stable keeps_hosts.
Proof.
  split; unfold keeps_hosts; try by eauto. intros s h r h' Hh. cbn. destruct (decide (h = h')) as [->|]; [by rewrite lookup_insert_eq|].
  by rewrite lookup_insert_ne.
Qed.

Lemma keeps_hosts_custom_route r : respects keeps_hosts (load_custom_route r).
Proof.
  intros s h Hh. cbn. destruct (decide (cr_domain r = h)) as [->|]; [by rewrite lookup_insert_eq|]. rewrite lookup_insert_ne by done.
  by destruct (cr_route_type r), (String.prefix _ _).
Qed.
#[local] Hint Resolve keeps_hosts_custom_route : steps.

#[local] Abbreviation routed h := (fun _ s => is_Some (l_routes s !! h)).

Lemma does_pure {A B} (m : Load A) (f : A -> Load B) (R : A -> Prop) Q :
  does m (fun a _ => R a) -> (forall a, R a -> does (f a) Q) -> does (act_bind m f) Q.
Proof.
  intros Hm Hf s Hs. destruct (Hm s Hs) as (a & s1 & He & Hs1 & Ha). destruct (Hf a Ha s1 Hs1) as (b & s2 & He2 & Hs2 & Hq). exists b, s2.
  unfold act_bind. by rewrite He, He2.
Qed.

Lemma does_routed {A B} (m : Load A) (f : A -> Load B) h :
  does m (routed h) -> (forall a, succeeds (f a)) -> (forall a, respects keeps_hosts (f a)) -> does (act_bind m f) (routed h).
Proof.
  intros Hm Hf Hk s Hs. destruct (Hm s Hs) as (a & s1 & He & Hs1 & Ha). destruct (Hf a s1 Hs1) as (b & s2 & He2 & Hs2 & _).
  specialize (Hk a s1 h Ha). exists b, s2. unfold act_bind. rewrite He, He2. rewrite He2 in Hk. done.
Qed.

Lemma does_later {A B} (m : Load A) (f : A -> Load B) Q : succeeds m -> (forall a, does (f a) Q) -> does (act_bind m f) Q.
Proof. intros Hm Hf. apply (does_pure _ _ (fun _ => True)); [done|]. eauto. Qed.

Lemma does_for_routed {A} (f : A -> Load unit) l x h :
  x ∈ l -> does (f x) (routed h) -> (forall y, succeeds (f y)) -> (forall y, respects keeps_hosts (f y)) -> does (act_for f l) (routed h).
Proof.
  intros Hin Hx Hf Hk. induction Hin as [x l|x y l Hin IH]; cbn [act_for]; [|apply does_later; [apply Hf|intros _; by apply IH]].
  apply does_routed; [done|intros; by apply does_for|]. intros _. apply respects_for; [typeclasses eauto|done].
Qed.

(** ** An environment with a container that can be reached *)

Section Environment.
Context (env : Environment) (d : Deployment) (c : Container).
Context (Henv : env ∈ t_environments t) (Hcur : with_current_deployment env = true) (Hid : ev_current_deployment_id env = Some (dp_id d))
  (Hawake : ev_sleeping env = false).
Context (Hd : d ∈ t_deployments t) (Hids : NoDup (map dp_id (t_deployments t))) (Hstate : is_paused d = false) (Hstatic : dp_static_dir_location d = None).
Context (Hc : c ∈ t_containers t) (Hroutable : routable (dp_id d) c = true) (Hlocal : ct_node_id c = None)
  (Hreach : rt = Docker \/ ct_host_port c <> None).
(** It is not a Compose stack. *)
Context (Hplain : forall c', c' ∈ t_containers t -> routable (dp_id d) c' = true -> ct_service_name c' = None).

Lemma row_of_deployment d' : d' ∈ t_deployments t -> dp_id d' = dp_id d -> d' = d.
Proof.
  intros Hd' Heq. apply list_elem_of_lookup in Hd as (i & Hi), Hd' as (j & Hj). assert (i = j) as ->; [|congruence].
  apply (NoDup_lookup _ i j (dp_id d) Hids); [|rewrite <- Heq]; change (map dp_id (t_deployments t)) with (dp_id <$> t_deployments t);
    rewrite list_lookup_fmap; [by rewrite Hi|by rewrite Hj].
Qed.

Lemma does_fetch_current : does (fetch_deployment db (dp_id d)) (fun o _ => o = Some d).
Proof.
  intros s Hs. destruct (does_fetch_deployment (dp_id d) s Hs) as (o & s' & He & Hs' & _). exists o, s'. split_and!; [done..|].
  unfold fetch_deployment, act_bind, get in He. cbn in He. destruct (l_deployments s !! dp_id d) as [d'|] eqn:Hl.
  - injection He as <- _. destruct (Hs _ _ Hl) as [? ?]. f_equal. by apply row_of_deployment.
  - rewrite Hanswers in He. destruct (List.find _ _) as [d'|] eqn:Hf.
    + injection He as <- _. apply find_some in Hf as [Hin%list_elem_of_In Heq%Z.eqb_eq]. f_equal. by apply row_of_deployment.
    + apply list_elem_of_In in Hd. pose proof (find_none _ _ Hf d Hd) as Hne. cbn in Hne. by rewrite Z.eqb_refl in Hne.
Qed.

Lemma does_current_containers :
  does (active_containers db d (dp_id d)) (fun cs _ => cs = List.filter (routable (dp_id d)) (t_containers t)).
Proof. intros s Hs. unfold active_containers, act_bind, query. rewrite Hstate, Hanswers. by eexists _, _. Qed.

Lemma does_reachable_entries cs : c ∈ cs -> does (backend_entries db (public_entry rt None) cs) (fun bs _ => bs <> []).
Proof.
  induction cs as [|c' cs IH]; [by intros ?%elem_of_nil|]. intros [<-|Hin]%elem_of_cons; cbn [backend_entries].
  - apply (does_pure _ _ (fun a => a = None)); [by rewrite Hlocal; intros s Hs; exists None, s|]. intros a ->. apply does_later; [apply does_backend_entries|].
    intros bs s Hs. eexists _, s. split_and!; [done..|]. cbn [public_entry]. unfold build_backend_entry. rewrite Hlocal. cbn [present andb negb orb].
    destruct Hreach as [->|Hp]; [done|]. destruct (ct_host_port c); [|done]. cbn. by rewrite andb_false_r.
  - apply does_later; [apply does_resolve_node|]. intros a. apply (does_pure _ _ _ _ (IH Hin)). intros bs Hbs s Hs. eexists _, s. split_and!; [done..|].
    by destruct (public_entry rt None c' a).
Qed.

Lemma does_environment_backend project :
  does (environment_backend db rt d project (List.filter (routable (dp_id d)) (t_containers t))) (fun sv _ => exists b, sv = Served b).
Proof.
  unfold environment_backend. rewrite Hstatic. assert (c ∈ List.filter (routable (dp_id d)) (t_containers t)) as Hin.
  { apply list_elem_of_In, filter_In. split; [by apply list_elem_of_In|done]. }
  assert (existsb (fun c => present (ct_service_name c)) (List.filter (routable (dp_id d)) (t_containers t)) = false) as Hno.
  { apply not_true_iff_false. intros (c' & [Hin' Hr]%filter_In & Hp)%existsb_exists. apply list_elem_of_In in Hin'. by rewrite (Hplain c' Hin' Hr) in Hp. }
  set (cs := List.filter (routable (dp_id d)) (t_containers t)) in *. destruct cs as [|c0 cs0] eqn:Hcs; [by apply elem_of_nil in Hin|]. rewrite <- Hcs in *.
  rewrite Hno. unfold upstream. apply (does_pure _ _ (fun o => exists b, o = Some b)); [|intros ? [b ->] s Hs; eexists _, s; split_and!; [done..|by exists b]].
  apply (does_pure _ _ (fun bs => bs <> [])); [by apply does_reachable_entries|]. intros [|b bs] Hne; [done|]. apply does_later; [apply does_counter|].
  intros n s Hs. eexists _, s. split_and!; [done..|]. by eexists.
Qed.

Lemma does_load_environment pv st : does (load_environment db rt sha256_hex pv st env) (routed (ev_subdomain env)).
Proof.
  unfold load_environment. rewrite Hid, Hawake. apply does_later; [does_steps|]. intros _. apply (does_pure _ _ _ _ does_fetch_current). intros o ->.
  apply (does_pure _ _ _ _ does_current_containers). intros cs ->. apply does_later; [apply does_fetch_project|]. intros project.
  apply does_later; [apply does_get|]. intros ce. apply (does_pure _ _ _ _ (does_environment_backend project)). intros sv (b & ->).
  apply does_routed; [|unfold load_compose_route; does_steps|steps].
  intros s Hs. eexists (), _. split_and!; [done|done|]. cbn. unfold insert_vacant. case_bool_decide; [done|]. by rewrite lookup_insert_eq.
Qed.

Lemma load_routed : does (load_tables db rt sha256_hex discovery_network) (routed (ev_subdomain env)).
Proof.
  destruct does_sections as (S1 & S2 & S3 & S4 & S5 & S6). unfold load_tables. apply does_routed; [|unfold load_discovered_routes; does_steps|steps].
  unfold load_own_routes. apply does_later; [does_steps|]. intros row. apply does_later; [does_steps|]. intros managed.
  do 6 (apply does_later; [does_steps|]; intros ?). apply (does_pure _ _ _ _ (does_query_or_fail _)). intros envs ->.
  apply does_routed; [|does_steps|steps]. apply (does_for_routed _ _ env); [|apply does_load_environment|done|steps].
  apply list_elem_of_In, filter_In. split; [by apply list_elem_of_In|done].
Qed.

End Environment.
End Serve.

(** ** Backends take turns *)

(** What [k] requests to a route get, one after the other. *)
Fixpoint select_times (k : nat) (r : RouteInfo) (m : Counters) : list BackendEntry :=
  match k with
  | O => []
  | S k => let '(b, m) := select_backend r m in b :: select_times k r m
  end.

Section RoundRobin.
Context (r : RouteInfo) (backends : list BackendEntry) (counter : nat) (Hr : rt_backend r = Upstream backends counter).
#[local] Abbreviation n := (Z.of_nat (length backends)).

Lemma select_turn m : (1 < length backends)%nat ->
  let v := default 0 (m !! counter) in
  select_backend r m = (default fallback (backends !! Z.to_nat (v mod n)), <[counter := (v + 1) mod 2 ^ 64]> m).
Proof. intros Hn. unfold select_backend, get_backend. rewrite Hr. by destruct backends as [|b [|b' bs]]; cbn in Hn; [lia..|]. Qed.

Lemma select_turns k m : (1 < length backends)%nat ->
  let v := default 0 (m !! counter) in
  0 <= v -> v + Z.of_nat k <= 2 ^ 64 ->
  select_times k r m = map (fun i => default fallback (backends !! Z.to_nat ((v + Z.of_nat i) mod n))) (seq 0 k).
Proof.
  intros Hn. revert m. induction k as [|k IH]; intros m v Hv Hk; [done|]. cbn [select_times seq map]. rewrite (select_turn m Hn). fold v.
  rewrite Z.add_0_r. f_equal. destruct k as [|k]; [done|]. set (m1 := <[counter := _]> m).
  assert (default 0 (m1 !! counter) = v + 1) as Hv1 by (subst m1; rewrite lookup_insert_eq; apply Z.mod_small; lia).
  rewrite IH; rewrite Hv1; [|lia..].
  rewrite <- seq_shift, map_map. apply map_ext. intros i. by replace (v + 1 + Z.of_nat i) with (v + Z.of_nat (S i)) by lia.
Qed.

Lemma rotation_lookup v i : 0 <= v -> (i < length backends)%nat ->
  (drop (Z.to_nat (v mod n)) backends ++ take (Z.to_nat (v mod n)) backends) !! i = backends !! Z.to_nat ((v + Z.of_nat i) mod n).
Proof.
  intros Hv Hi. pose proof (Z.mod_pos_bound v n ltac:(lia)) as Hj. rewrite <- (Z.add_mod_idemp_l v) by lia. set (j := v mod n) in *.
  destruct (decide (j + Z.of_nat i < n)) as [Hlt|Hge].
  - rewrite Z.mod_small by lia. rewrite lookup_app_l by (rewrite length_drop; lia). rewrite lookup_drop. f_equal. lia.
  - rewrite lookup_app_r by (rewrite length_drop; lia). rewrite length_drop. assert ((j + Z.of_nat i) mod n = j + Z.of_nat i - n) as ->.
    { rewrite <- (Z.mod_small (j + Z.of_nat i - n) n) by lia. rewrite <- (Z.mod_add (j + Z.of_nat i - n) 1 n) by lia. f_equal. lia. }
    rewrite lookup_take_lt by lia. f_equal. lia.
Qed.
End RoundRobin.

(** As many requests in a row as a route has backends reach each of them once, from any value of the
    counter that does not wrap around meanwhile. *)
Theorem round_robin_fair r backends counter m :
  rt_backend r = Upstream backends counter -> 0 <= default 0 (m !! counter) ->
  default 0 (m !! counter) + Z.of_nat (length backends) <= 2 ^ 64 -> select_times (length backends) r m ≡ₚ backends.
Proof.
  intros Hr Hv Hw. destruct (decide (1 < length backends)%nat) as [Hn|Hn].
  - rewrite (select_turns r backends counter Hr) by done. set (v := default 0 (m !! counter)) in *.
    assert (map (fun i => default fallback (backends !! Z.to_nat ((v + Z.of_nat i) mod Z.of_nat (length backends)))) (seq 0 (length backends)) =
      drop (Z.to_nat (v mod Z.of_nat (length backends))) backends ++ take (Z.to_nat (v mod Z.of_nat (length backends))) backends) as ->.
    { apply list_eq. intros i. change (map ?f ?l) with (f <$> l). rewrite list_lookup_fmap. destruct (decide (i < length backends)%nat) as [Hi|Hi].
      - rewrite (rotation_lookup backends v i) by done. rewrite lookup_seq_lt by done. cbn [fmap option_fmap option_map Nat.add].
        destruct (lookup_lt_is_Some_2 backends (Z.to_nat ((v + Z.of_nat i) mod Z.of_nat (length backends)))) as [b Hb]; [|by rewrite Hb].
        pose proof (Z.mod_pos_bound (v + Z.of_nat i) (Z.of_nat (length backends)) ltac:(lia)). lia.
      - rewrite lookup_seq_ge by lia. symmetry. apply lookup_ge_None_2. rewrite length_app, length_drop, length_take. lia. }
    rewrite Permutation_app_comm. by rewrite take_drop.
  - destruct backends as [|b [|b' bs]]; cbn in *; [done| |lia]. unfold select_backend. rewrite Hr. done.
Qed.

(** ** A small database *)

Definition shop_project : Project :=
  {| pj_id := 1; pj_slug := "shop"; pj_preset_config := None; pj_attack_mode := false; pj_deployment_config := None |}.
Definition shop_environment (sleeping : bool) : Environment :=
  {| ev_id := 1; ev_slug := "prod"; ev_subdomain := "shop-prod"; ev_project_id := 1; ev_current_deployment_id := Some 7; ev_deleted := false;
     ev_deployment_config := None; ev_sleeping := sleeping; ev_attack_mode := None |}.
Definition shop_deployment (state : string) : Deployment :=
  {| dp_id := 7; dp_state := state; dp_slug := "shop-7"; dp_static_dir_location := None |}.
Definition shop_container : Container :=
  {| ct_deployment_id := 7; ct_container_id := "c1"; ct_container_name := "shop-c1"; ct_container_port := 3000; ct_host_port := Some 32768;
     ct_status := Some "running"; ct_service_name := None; ct_deleted := false; ct_node_id := None; ct_port_bindings := None |}.
Definition shop_domain : CustomDomain :=
  {| cd_project_id := 1; cd_environment_id := 1; cd_domain := "*.shop.com"; cd_redirect_to := None; cd_status_code := None; cd_service_name := None |}.

(** A container on the network [edge] that labels itself with [host]. *)
Definition stranger (host : string) : DiscoveredRoute :=
  {| dr_host := host; dr_target_container_id := "x9"; dr_target_container_name := "stranger"; dr_target_port := 80; dr_target_host_port := Some 9000;
     dr_network := "edge"; dr_enabled := true |}.

Definition shop (sleeping : bool) (state host : string) : Tables :=
  {| t_answers := true; t_settings := None; t_managed_domains := []; t_environment_domains := []; t_custom_routes := [];
     t_custom_domains := [shop_domain]; t_environments := [shop_environment sleeping]; t_deployments := [shop_deployment state];
     t_containers := [shop_container]; t_projects := [shop_project]; t_nodes := []; t_discovered := [stranger host] |}.

Definition zeros (_ : string) : string := "0000000000000000000000000000000000000000000000000000000000000000".
Definition no_url (_ : string) : option string := None.

Definition shop_load (t : Tables) (network : option string) : result LoadError Loaded :=
  read_routes (fun _ => t) Host zeros no_url network 0.

(** The addresses of the backends a host resolves to, and the deployment they belong to. *)
Definition resolves (l : result LoadError Loaded) (host : string) : option (list string * option Z) :=
  match l with
  | Ok ld =>
      r ← get_route_by_host (ld_snapshot ld) host;
      Some (match rt_backend r with Upstream bs _ => map be_address bs | StaticDir dir => [dir] end, dp_id <$> rt_deployment r)
  | Err _ => None
  end.

Definition owned (l : result LoadError Loaded) (host : string) : bool :=
  match l with Ok ld => owns_hostname (ld_snapshot ld) host | Err _ => false end.
Definition unavailable_reason (l : result LoadError Loaded) (host : string) : option UnavailableReason :=
  match l with Ok ld => un_reason <$> get_unavailable_route (ld_snapshot ld) host | Err _ => None end.
Definition wakes (l : result LoadError Loaded) (host : string) : bool :=
  match l with Ok ld => existsb (fun e => stored_hostname_covers (se_domain e) host) (ld_sleeping ld) | Err _ => false end.


(** ** The theorems at the small database *)

#[local] Abbreviation calm_shop := (shop false "deployed" "other.host").

Lemma routes_live_witness :
  exists ld r, shop_load calm_shop (Some "edge") = Ok ld /\ get_route_by_host (ld_snapshot ld) "shop-prod" = Some r /\
    route_ok (fun _ => calm_shop) Host (Some "edge") (queries_made (fun _ => calm_shop) Host zeros (Some "edge") 0) r.
Proof.
  assert (match shop_load calm_shop (Some "edge") with Ok ld => present (get_route_by_host (ld_snapshot ld) "shop-prod") | Err _ => false end = true) as Hx
    by (vm_compute; reflexivity).
  destruct (shop_load calm_shop (Some "edge")) as [ld|e] eqn:He; [|done]. destruct (get_route_by_host (ld_snapshot ld) "shop-prod") as [r|] eqn:Hr; [|done].
  exists ld, r. split; [done|]. split; [done|]. exact (routes_live _ _ _ _ _ _ ld "shop-prod" r He (or_introl Hr)).
Defined.

Lemma unavailable_current_witness :
  exists ld u, shop_load (shop false "paused" "other.host") None = Ok ld /\ get_unavailable_route (ld_snapshot ld) "shop-prod" = Some u /\
    resolve_route_for_sni (ld_snapshot ld) "shop-prod" = None.
Proof.
  assert (match shop_load (shop false "paused" "other.host") None with Ok ld => present (get_unavailable_route (ld_snapshot ld) "shop-prod") | Err _ => false end = true) as Hx
    by (vm_compute; reflexivity).
  destruct (shop_load (shop false "paused" "other.host") None) as [ld|e] eqn:He; [|done].
  destruct (get_unavailable_route (ld_snapshot ld) "shop-prod") as [u|] eqn:Hu; [|done]. exists ld, u. split; [done|]. split; [done|].
  exact (proj1 (proj2 (unavailable_current _ _ _ _ _ _ ld "shop-prod" u He Hu))).
Defined.

Lemma ownership_exact_witness :
  exists ld, shop_load calm_shop (Some "edge") = Ok ld /\ owns_hostname (ld_snapshot ld) "api.shop.com" = true.
Proof.
  assert (match shop_load calm_shop (Some "edge") with
          | Ok ld => present (resolve_route_for_sni (ld_snapshot ld) "api.shop.com") && negb (present (lg_reserved_console_host (sn_legacy (ld_snapshot ld))))
                     && negb (present (lg_reserved_ingress_host (sn_legacy (ld_snapshot ld))))
          | Err _ => false end = true) as Hx by (vm_compute; reflexivity).
  destruct (shop_load calm_shop (Some "edge")) as [ld|e] eqn:He; [|done]. exists ld. split; [done|].
  apply (ownership_exact _ _ _ _ _ _ ld "api.shop.com" He); [|reflexivity|].
  - clear He. intros base. unfold is_reserved_hostname, is_reserved.
    destruct (lg_reserved_console_host _); [rewrite andb_false_r in Hx; discriminate Hx|].
    destruct (lg_reserved_ingress_host _); [rewrite andb_false_r in Hx; discriminate Hx|]. reflexivity.
  - clear He. right. intros Hn. rewrite Hn in Hx. discriminate Hx.
Defined.



Lemma round_robin_fair_witness :
  let b name := {| be_address := name; be_container_id := None; be_container_name := None |} in
  select_times 3 (route_info (Upstream [b "a"; b "b"; b "c"] 4) None None None None None false) {[ 4%nat := 5 ]} ≡ₚ [b "a"; b "b"; b "c"].
Proof.
  intros b. refine (round_robin_fair (route_info (Upstream [b "a"; b "b"; b "c"] 4) None None None None None false) [b "a"; b "b"; b "c"] 4%nat
    {[ 4%nat := 5 ]} eq_refl _ _); vm_compute; discriminate.
Defined.
